(* ===== verification/_CoqProject ===== *)
-Q . S2P
Prelude.v
JsNumber.v
JsText.v
Calendar.v
CanonicalJson.v
Decimal.v
KserveRules.v
ReauditTypes.v
CategoryPolicy.v
VerifiedCharge.v
BillingRecords.v
AcceptedAsBilled.v
AuditedProjection.v
Settlement.v
Readiness.v
UrlSafety.v
Regex.v
Cues.v
Transcript.v
Classification.v
ReauditAudit.v
Persisted.v
Consensus.v
ValidationRun.v
Failures.v
Worker.v
Outcomes.v
Scoring.v
ModelOutput.v
Sql.v
AuditChain.v
Credentials.v
UserAdmin.v
UserStore.v
UserEffects.v
UserLifecycle.v
UserSafety.v
UserGuarantees.v
UserSession.v
UserList.v
PasswordHash.v
LoginService.v
LoginSafety.v
SourceRevision.v
ResultRecords.v
Prog.v
CallRules.v
CallStore.v
CallPersistence.v
CallModel.v
CallProcessor.v
CallControl.v
CallRuleStore.v
CallBatch.v
CallWorld.v
CallDemo.v
CallEffects.v
CallLifecycles.v
CallBatchReport.v
CallSafety.v
CallReplays.v
Messaging.v
MessageBus.v
MessageWorld.v
OutboxSafety.v
OutboxGuarantees.v
LeaseGuarantees.v
LateRecording.v
LateUpload.v
LateTables.v
SettlementLedger.v
LateStore.v
LateBatch.v
LateCorrect.v
LateWorld.v
LateSafety.v
LateSteps.v
LateJobs.v
LateGuarantees.v
Backfill.v
