(* ===== verification/Prelude.v ===== *)
(** * The call audit and billing platform

    A verification of the core logic of the Kairali voice-agent call audit and billing
    platform (TypeScript, under [src/src/]). The platform fetches the recording of a
    call, has it transcribed and classified by a model, prices the call by rules the
    vendor and the customer agreed on, lets independent passes reach a consensus on the
    price, writes what it found to MySQL, closes billing months on it, and lets
    authenticated people administer and read the result. The development models the
    parts that decide something, as executable functions of their inputs and of the
    state they read, and proves what makes them correct.

    This file is the shared ground: the result monad for code that may throw, its
    inversion lemmas, the [kaudit] and [kaudit_simpl] databases, and generic lemmas on
    lists, options and integers.

    ** The layers and their files

    _The language and the platform under it._ [JsNumber]: numbers that the code guards
    with [Number.isSafeInteger] are integers with the rounding past 2^53 written out; the
    few fractions are dyadic with correct rounding. [JsText]: strings as UTF-8, their
    [.length], trimming, decimal texts. [Calendar]: the calendar of [Date] and
    [toISOString]. [Regex]: the regular expressions of the code, as a computed set of end
    positions with a declarative specification. [CanonicalJson]
    (messaging/canonicalJson.ts): the text and digest of a JSON value. [Decimal]
    (ui/decimal.ts): display decimals.

    _Prices._ [KserveRules] (billing/kserveRules.ts): rate, half-minute rounding and its
    texts. [CategoryPolicy] (categoryChargePolicy.ts): which moment of a call ends the
    chargeable service. [VerifiedCharge] (types.ts, calculateVerifiedCharge.ts): input
    validation, the authority gate, the caps, manifests and traces. [BillingRecords]
    (records.ts), [AcceptedAsBilled] (acceptedAsBilled.ts), [AuditedProjection]
    (auditedChargeProjection.ts, auditedProjectionSettlement.ts): the rows a charge is
    persisted as. [Settlement] (kserveSettlement.ts) and [Readiness]
    (cycleReadiness.ts, monthCloseReadiness.ts, vendorAssertedBound.ts): the month.
    [SettlementLedger] (adapters/mysqlKserveSettlement.ts, migration 0013): the append-only record
    of what was paid for it, saved and read as programs of [Prog].

    _Auditing a call._ [ReauditTypes], [Transcript], [Cues], [Classification] and
    [ReauditAudit] (reaudit/types.ts, core.ts): transcripts, the checks and repairs of a
    model's classification, and the audit of one recording through its ports.
    [UrlSafety] (security/urlSafety.ts): the guard of every fetched URL. [Persisted]
    (adapters/mysqlReauditWriteRepo.ts, mysqlAutomatedValidation.ts): the facts that are
    stored and read back. [Consensus] and [ValidationRun] (automation/): independent
    passes, the tie-breaker, and the billing of an agreed call. [Failures] and [Worker]
    (reaudit/failures.ts, worker.ts): a concurrent batch, as a step relation whose states
    are the [await] every slot is at.

    _Auditing the content of a call._ [Outcomes], [Scoring], [ModelOutput] (callaudit/):
    the outcome catalogue, the weighted score, and the validation of an untrusted audit.
    [SourceRevision] (sourceRowId.ts, taskId.ts, mysqlTime.ts, sourceQuery.ts,
    sourceRevision.ts): what a source row says, under a hash. [ResultRecords]
    (resultRecords.ts): the records of a result. [CallRules] (ruleContract.ts,
    promptCompiler.ts, modelSchema.ts, ruleActivation.ts): drafts, the compiled prompt, the
    strict schema and the activation snapshot. [Prog]: asynchronous programs whose threads
    interleave at every [await], with a rely-guarantee logic. [CallStore]: the tables of
    migrations 0008 and 0011 and the operations a run awaits. [CallPersistence]
    (adapters/mysqlCallAuditPersistence.ts, spendClaim.ts), [CallModel]
    (adapters/openaiCallAuditModel.ts), [CallProcessor] (processor.ts), [CallControl] and
    [CallRuleStore] (adapters/mysqlCallAuditControl.ts), [CallBatch] (batchRunner.ts): the
    audit of one candidate, runs, rule versions, and the batch. [CallWorld]: what every step
    keeps and may do to the tables. [CallEffects], [CallLifecycles] and [CallBatchReport]:
    that each program does so, and what it has done when it answers. [CallSafety] and
    [CallReplays]: the theorems over any number of concurrent jobs, and over repeated ones.
    [CallDemo]: a platform, a provider and inputs to run them on.

    _People._ [Sql]: transactions over tables, with everything the database may refuse.
    [AuditChain] (audit/): the hash-chained log. [Credentials] (identity/access.ts,
    auth/credentialIdentity.ts) and [PasswordHash] (auth/passwordHash.ts).
    [UserAdmin] (identity/userAdministration.ts), [UserStore], [UserEffects],
    [UserLifecycle], [UserSafety], [UserGuarantees] and [UserList]
    (adapters/mysqlUserAdministration.ts): the account tables and the operations on
    them. [UserSession] (auth/userSession.ts, adapters/mysqlUserCredentialRepo.ts, the
    session gate of http/enterpriseDashboardServer.ts). [LoginService] and [LoginSafety]
    (auth/loginService.ts, adapters/mysqlLoginService.ts).

    _Messages between processes._ [Messaging] (messaging/, idempotency/): errors, retry delays and
    the decisions on an existing row. [MessageBus] (outboxPublisher.ts, adapters/mysqlOutbox.ts,
    mysqlInbox.ts, mysqlIdempotency.ts): the repositories over the tables of migration 0005 and the
    publisher, as programs of [Prog]. [MessageWorld]: the world they share and the jobs.
    [OutboxSafety]: what every step of the outbox keeps. [OutboxGuarantees]: its theorems.
    [LeaseGuarantees]: the inbox and the idempotency records as tables of leases.

    _Late recordings._ [LateRecording] (lateRecording/corrections.ts, eligibility.ts,
    backfill/normalizeRecordingUrl.ts): the uploaded CSV, URLs, the digest of an upload, which row may
    attach a recording, and the money of a month. [LateUpload]: what the upload is read as. [LateTables]
    (migration 0020, reporting/billingMonth.ts): the rows and keys, and what is read of other tables.
    [LateStore] (adapters/mysqlLateRecordingCorrections.ts): preview, commit under the lock of uploads,
    claim. [LateBatch] (the same): settling an item, the baseline, the month correction, the reads.
    [LateCorrect] (lateRecording/correctItem.ts): the price of an item over the billing records above.
    [LateWorld] (cli/run-late-recording-worker.ts): the worker's loop, the jobs and their world,
    and a month to run them on.
    [LateSafety], [LateSteps] and [LateJobs]: the invariant, that every transaction keeps it, and what
    every job has done when it answers. [LateGuarantees]: the theorems. [Backfill] (backfill/backfillSourceUrl.ts, adapters/mysqlBackfillRepo.ts): the other writer of
    recording URLs.

    ** How the parts interact

    The audit of a call ends in the same charge engine as the consensus: [ReauditAudit]
    and [ValidationRun] call [CategoryPolicy.resolveCategoryCharge] and
    [VerifiedCharge.calculateVerifiedKServeCharge] as the code does, and
    [AuditedProjection] prices what was stored of it. Where a component uses another
    through an interface, the interface is a class: [CanonicalJson.Platform] (SHA-256,
    [Date.parse], [localeCompare]) with its laws, [Sql.Collation],
    [AuditChain.AuditStore] (tables that hold an audit log, which [UserStore.UserDb] and
    [LoginService.LoginDb] implement), [UserSession.AccountStore],
    [UserLifecycle.PasswordHasher] and [PasswordHash.KeyDerivation],
    [Credentials.CaseMapping], [UserSession.WireFormat] and [LoginService.GuardDigests].
    Theorems are proved against the class and its laws; the demonstrations at the end of
    a file instantiate them with concrete functions.

    ** What the theorems show

    _A price is the agreed price._ A final charge is the category's end of service plus
    its grace, within the recording and the connected time, at 4.75 rupees per
    half-minute, never above what the vendor billed, and is final exactly when its gate
    is open; the policy implements its table; the charge does not depend on the order of
    the evidence; records agree with their charge; a stored boundary prices as it was
    decided.

    _A model decides nothing on its own._ A classification is accepted only with
    evidence that the transcript backs, its moments come from blocks and not from figures
    of the model, a failure is charged only with a positive boundary inside the
    recording, what validation accepts satisfies the charge engine, and only a consensus
    is billed. A content audit that is accepted is well typed and its score is computed
    here.

    _Money is spent once._ Ports are used in the safe order; in every reachable state of
    a concurrent batch a call is processed at most once under a lease; every schedule
    terminates, no state is stuck, the summary accounts for every call, and the first
    fatal error is what is thrown, in a listed category unless a port threw one coded as a
    member that every object inherits.

    _A payment is recorded once._ However the saves and reads of administrators interleave, the
    settlements of a month are one chain of versions that are never changed, the highest is the
    current one, a retried save is answered with the row it wrote and never writes another, and what
    was saved is what the history and the late-recording worker read.

    _An audit is paid and recorded once._ However the jobs of the call audit interleave, fail
    or are abandoned, the provider is asked at most once per source revision, by the run that
    holds its claim; a candidate that was answered for is recorded, and one that was turned
    away has what blocks it stored and cost nothing; the report of a batch is
    what is recorded of its candidates and of its run, a run settles once, at most one
    rule version is active, and a switch made its version the active one at a state the jobs
    went through. A run that is joined again is turned away by its own claim.

    _The platform stays administered and accountable._ Every operation on accounts
    refines a transition of one account and is audited, or changes nothing; any sequence
    of them keeps the tables well-formed, an administrator, and the past of every
    account; the audit log is append-only and its head pins all of it, up to a collision
    of SHA-256. Revoked sessions stay revoked; issued sessions verify during their
    lifetime; a login is for the account, hash and generation that hold when it commits;
    guesses on one guard that follow each other are bounded within a window and blocks end.

    _A message is delivered at least once, and not for ever._ However publishers, writers and
    consumers interleave, a row is handed over no more often than its counted failures allow and
    never more often than the limit; a batch that returns has settled what it claimed; a message is
    written once and read back whole. A row in the hands of a publisher that stops is never
    freed. What is leased to one owner, or done, turns every other attempt away, and an answered
    request is replayed.

    _A late recording corrects its month once._ An upload is read back row by row and accepted once under
    its key. However uploads, workers, sheets and screens interleave, fail or are abandoned, an item is of
    the recording it attached, a call has one item in flight, a recording keeps its URL and evidence, a
    settled item and a month correction never change; a correction is from the captured baseline, by the
    exact difference, once all items are settled; an item is corrected only at an amount that was
    written.

    ** Bounds and fuel

    The batch of [Worker] runs with fuel [16 * rows + 2 * slots], which
    [runReauditBatch_terminates] proves enough for every environment; the closure of a
    repeated regular expression has the length of the text as its fuel, enough because
    every round that goes on has advanced. The decimal
    digits of an integer take its number of bits, and trimming or grouping a text its
    length; a batch of the call audit reads at most [MAX_RUN_PAGES] pages, the number it
    is limited to in the code, and its programs are trees that end after finitely many
    awaits; all other recursion is structural. Integers keep the
    ranges of the code: safe integers, 32-bit session generations, [DECIMAL(20,8)]
    amounts as integers scaled by 10^8.

    ** What the model leaves to its parameters

    SHA-256, HMAC, scrypt, base64url, [JSON.parse], [Date.parse], [localeCompare],
    the case mapping of Unicode, collations of the database and the WHATWG URL parser are
    parameters; what the code relies on of them is stated as laws. Strings have no lone
    surrogates, confidences at most eight decimals, block and error numbers are integers.
    A database returns the values it stored. In [Sql] a statement is a function of the
    tables, which the environment may refuse, and whose commit may take effect although
    its answer is lost; transactions are serialized by the rows they lock, as the
    statements of the code do; between the statements of a login outside of a transaction
    anything lawful of other connections may commit, while the bound on guesses is for
    attempts that follow each other. A progress report of the worker is one [await]. In
    [CallStore] a statement or a transaction is one step of a job, any number of jobs
    interleave between steps, and a job may stop for ever at any of them; whom a request to
    the provider is made for is bookkeeping of the model, read by no definition. What a
    [DATETIME(6)] column holds after a literal was written is the class [Storage]. In
    [SettlementLedger] the reads of a save are steps of their own, which the locks they take make
    fewer interleavings of, and its insert is one step with its commit. In [LateStore] the
    consensus over one call and the writer of billing records are operations whose answers and effects on
    the other tables are the environment; what the rest of the platform does to the recordings is any
    function that keeps an attached URL and evidence ([LateWorld.lawful]), which the backfill of
    [Backfill] is not, as its example shows.

    ** Not modelled

    Of the core, in the order in which it is to be added: the resolution of identities and the
    administrator's grant (identity/); manual re-audit requests and scopes; the worker that starts
    batches, the settings screens and the rule test lab of the call audit. Not to be modelled: the HTTP server beyond its session gate, the OIDC
    flow over its cryptographic library, SQL reports whose meaning is the query, reports
    and exports, imports, timers and advisory locks of the dispatcher, the command line,
    configuration, hosting adapters and the web application: they are I/O, wiring or
    presentation over what is modelled here. *)

From stdpp Require Export base option list list_numbers strings gmap.
From Stdlib Require Export ZArith Lia Sorted.

#[global] Open Scope Z_scope.

(** ** Errors and the result monad

    A JavaScript function that may throw is a function into [result E]: the
    error is a value and the rest of the body runs only on [Ok]. *)

Inductive result (E A : Type) : Type :=
| Ok (a : A)
| Throw (e : E).
Arguments Ok {E A} a.
Arguments Throw {E A} e.

(** The error classes the source throws, each with its message. *)
Inductive js_error : Type :=
| TypeError (message : string)
| RangeError (message : string)
| PlainError (message : string).

#[global] Instance js_error_eq_dec : EqDecision js_error.
Proof. solve_decision. Defined.

#[global] Instance result_ret E : MRet (result E) := fun A a => Ok a.

#[global] Instance result_bind E : MBind (result E) :=
  fun A B (k : A → result E B) (m : result E A) =>
    match m with
    | Ok a => k a
    | Throw e => Throw e
    end.

(** [guard_throw e b]: the statement [if (b) throw e]. *)
Definition throw_if {E} (b : bool) (e : E) : result E unit :=
  if b then Throw e else Ok tt.

(** [forEach f l]: run a throwing check over a list in order. *)
Fixpoint for_each {E A} (f : A → result E unit) (l : list A) : result E unit :=
  match l with
  | [] => Ok tt
  | a :: l => f a ≫= fun _ => for_each f l
  end.

Definition is_ok {E A} (m : result E A) : bool :=
  match m with Ok _ => true | Throw _ => false end.

(** ** Automation

    [result] computations are inverted by [bind_ok] and closed by
    [result_cases]; the [kaudit] databases collect the lemmas of the
    components. *)

Create HintDb kaudit.
Create Rewrite HintDb kaudit_simpl.

Lemma Ok_inj {E A} (a b : A) : @Ok E A a = Ok b → a = b.
Proof. by intros [= ->]. Qed.

Section ResultFacts.
Context {E A B : Type}.
Implicit Types (m : result E A) (k : A → result E B).

Lemma bind_Ok_iff m k b :
  m ≫= k = Ok b ↔ ∃ a, m = Ok a ∧ k a = Ok b.
Proof. destruct m as [a|e]; cbn; naive_solver. Qed.

Lemma bind_Throw_iff m k e :
  m ≫= k = Throw e ↔ m = Throw e ∨ ∃ a, m = Ok a ∧ k a = Throw e.
Proof. destruct m as [a|e']; cbn; naive_solver. Qed.

Lemma throw_if_Ok (b : bool) (e : E) u : throw_if b e = Ok u ↔ b = false.
Proof. destruct b, u; cbn; naive_solver. Qed.

Lemma for_each_Ok (f : A → result E unit) (l : list A) u :
  for_each f l = Ok u ↔ Forall (fun a => f a = Ok tt) l.
Proof.
  destruct u. induction l as [|a l IH]; cbn.
  - split; [constructor | done].
  - rewrite Forall_cons. destruct (f a) as [[]|e]; cbn; [|naive_solver].
    rewrite IH. naive_solver.
Qed.
End ResultFacts.

#[export] Hint Rewrite @bind_Ok_iff @throw_if_Ok @for_each_Ok : kaudit_simpl.

(** Invert every [m ≫= k = Ok b] and [throw_if b e = Ok u] hypothesis. *)
Ltac bind_ok :=
  repeat match goal with
    | H : _ ≫= _ = Ok _ |- _ =>
        apply bind_Ok_iff in H; destruct H as (? & ? & ?)
    | H : throw_if _ _ = Ok ?u |- _ =>
        apply throw_if_Ok in H; try clear u
    | H : Ok _ = Ok _ |- _ => injection H as H
    | H : Throw _ = Ok _ |- _ => discriminate H
    | H : mret _ = Ok _ |- _ => injection H as H
    end; simplify_eq/=.

(** Case analysis on the scrutinee of the first [match] or [if] found. *)
Ltac case_match_eqn :=
  match goal with
  | |- context [match ?x with _ => _ end] => destruct x eqn:?
  | H : context [match ?x with _ => _ end] |- _ => destruct x eqn:?
  end.

(** Boolean tests of the code become propositions. *)
Ltac to_prop :=
  repeat match goal with
    | H : _ && _ = true |- _ => apply andb_true_iff in H; destruct H
    | H : _ || _ = false |- _ => apply orb_false_iff in H; destruct H
    | H : _ || _ = true |- _ => apply orb_true_iff in H
    | H : _ && _ = false |- _ => apply andb_false_iff in H
    | H : negb _ = true |- _ => apply negb_true_iff in H
    | H : negb _ = false |- _ => apply negb_false_iff in H
    | H : (_ =? _) = true |- _ => apply Z.eqb_eq in H
    | H : (_ =? _) = false |- _ => apply Z.eqb_neq in H
    | H : (_ <=? _) = true |- _ => apply Z.leb_le in H
    | H : (_ <=? _) = false |- _ => apply Z.leb_gt in H
    | H : (_ <? _) = true |- _ => apply Z.ltb_lt in H
    | H : (_ <? _) = false |- _ => apply Z.ltb_ge in H
    | H : bool_decide _ = true |- _ => apply bool_decide_eq_true in H
    | H : bool_decide _ = false |- _ => apply bool_decide_eq_false in H
    end.

(** Case analysis on every boolean test in the goal, closed by [lia]. *)
Ltac zcases :=
  repeat match goal with
    | |- context [if ?b then _ else _] => destruct b eqn:?
    end; to_prop; try lia.

(** ** Lists and options the components share *)

(** [Math.max(...l)] over a non-empty list, [None] for the empty one. *)
Definition list_max (l : list Z) : option Z :=
  match l with
  | [] => None
  | x :: l => Some (foldr Z.max x l)
  end.

Definition from_null {A} (d : A) (o : option A) : A := default d o.

(** [Set] semantics on number arrays: first occurrences, in order. *)
Fixpoint dedup (l : list Z) : list Z :=
  match l with
  | [] => []
  | x :: l => x :: filter (fun y => y ≠ x) (dedup l)
  end.

(** [.sort(compare)], which is stable: insertion in front of the first element
    that does not come strictly before. [le x y] is [compare(x, y) <= 0]. *)
Section StableSort.
Context {A : Type} (le : A → A → bool).

Fixpoint insert_by (x : A) (l : list A) : list A :=
  match l with
  | [] => [x]
  | y :: l' => if le x y then x :: l else y :: insert_by x l'
  end.

Definition sort_by (l : list A) : list A := foldr insert_by [] l.

Lemma sort_by_cons x l : sort_by (x :: l) = insert_by x (sort_by l).
Proof. done. Qed.

Lemma insert_by_perm x l : insert_by x l ≡ₚ x :: l.
Proof.
  induction l as [|y l IH]; cbn; [done|].
  destruct (le x y); [done|]. rewrite IH. constructor.
Qed.

Lemma sort_by_perm l : sort_by l ≡ₚ l.
Proof.
  induction l as [|x l IH]; [done|].
  rewrite sort_by_cons, insert_by_perm. by constructor.
Qed.

Lemma sort_by_elem x l : x ∈ sort_by l ↔ x ∈ l.
Proof. by rewrite sort_by_perm. Qed.

Lemma sort_by_length l : length (sort_by l) = length l.
Proof. apply Permutation_length, sort_by_perm. Qed.

Lemma sort_by_NoDup l : NoDup l → NoDup (sort_by l).
Proof. by rewrite sort_by_perm. Qed.
End StableSort.

#[global] Arguments sort_by : simpl never.

Lemma sort_by_map {A B} (f : A → B) (le : A → A → bool) (le' : B → B → bool) l :
  (∀ x y, le' (f x) (f y) = le x y) → sort_by le' (map f l) = map f (sort_by le l).
Proof.
  intros H. induction l as [|x l IH]; [done|]. cbn [map]. rewrite !sort_by_cons, IH. generalize (sort_by le l). clear IH.
  intros m. induction m as [|y m IHm]; [done|]. cbn. rewrite H. destruct (le x y); [done|]. cbn. by rewrite IHm.
Qed.

Section SortedSort.
Context {A : Type} (le : A → A → bool).
Hypothesis le_total : ∀ x y, le x y = true ∨ le y x = true.
Hypothesis le_trans : ∀ x y z, le x y = true → le y z = true → le x z = true.

Lemma insert_by_sorted x l :
  StronglySorted (fun a b => le a b = true) l →
  StronglySorted (fun a b => le a b = true) (insert_by le x l).
Proof.
  induction 1 as [|y l Hl IH Hy]; cbn; [repeat constructor|].
  destruct (le x y) eqn:E.
  - constructor; [by constructor|]. constructor; [done|].
    eapply Forall_impl; [exact Hy|]. eauto.
  - constructor; [done|]. rewrite insert_by_perm. constructor; [|done].
    destruct (le_total x y); congruence.
Qed.

Lemma sort_by_sorted l : StronglySorted (fun a b => le a b = true) (sort_by le l).
Proof. induction l; [constructor | rewrite sort_by_cons; by apply insert_by_sorted]. Qed.

(** Two permutations of one list sort to the same list when only equal
    elements tie. *)
Lemma sort_by_perm_eq l1 l2 :
  (∀ x y, x ∈ l1 → y ∈ l1 → le x y = true → le y x = true → x = y) →
  l1 ≡ₚ l2 → sort_by le l1 = sort_by le l2.
Proof.
  intros Hanti Hp.
  assert (Hs : sort_by le l1 ≡ₚ sort_by le l2) by by rewrite !sort_by_perm.
  assert (Hin : ∀ x, x ∈ sort_by le l1 → x ∈ l1) by (intros x; by rewrite sort_by_elem).
  generalize (sort_by_sorted l1) (sort_by_sorted l2) Hs.
  revert Hin. clear Hp Hs.
  generalize (sort_by le l1) (sort_by le l2). clear l2.
  intros m1. induction m1 as [|x m1 IH]; intros m2 Hin S1 S2 Hp.
  - apply Permutation_nil_l in Hp. by subst.
  - destruct m2 as [|y m2]; [by apply Permutation_nil_r in Hp|].
    apply StronglySorted_inv in S1 as [S1 F1].
    apply StronglySorted_inv in S2 as [S2 F2].
    rewrite Forall_forall in F1, F2.
    assert (x = y) as ->.
    { assert (Hx : x ∈ y :: m2) by (rewrite <- Hp; left).
      assert (Hy : y ∈ x :: m1) by (rewrite Hp; left).
      apply elem_of_cons in Hx as [?|Hx]; [done|].
      apply elem_of_cons in Hy as [?|Hy]; [done|].
      apply Hanti; auto; apply Hin; [left | by right]. }
    f_equal. apply IH; [|done|done|by apply Permutation_cons_inv in Hp].
    intros z Hz. apply Hin. by right.
Qed.
End SortedSort.

Lemma forallb_Forall {A} (f : A → bool) l :
  forallb f l = true ↔ Forall (fun x => f x = true) l.
Proof. rewrite forallb_forall, Forall_forall. by setoid_rewrite list_elem_of_In. Qed.

Definition sort_asc : list Z → list Z := sort_by Z.leb.

Lemma sort_asc_sorted l : StronglySorted (fun a b => (a <=? b) = true) (sort_asc l).
Proof. apply sort_by_sorted; intros; rewrite ?Z.leb_le in *; lia. Qed.

Lemma elem_of_dedup x l : x ∈ dedup l ↔ x ∈ l.
Proof.
  induction l as [|y l IH]; cbn; [done|].
  rewrite !elem_of_cons, list_elem_of_filter, IH.
  destruct (decide (x = y)); naive_solver.
Qed.

Lemma NoDup_dedup l : NoDup (dedup l).
Proof.
  induction l as [|y l IH]; cbn; constructor.
  - rewrite list_elem_of_filter. naive_solver.
  - by apply NoDup_filter.
Qed.

Lemma list_max_ge l m x : list_max l = Some m → x ∈ l → x ≤ m.
Proof.
  destruct l as [|y l]; cbn; [done|]. intros [= <-].
  induction l as [|z l IH]; cbn; rewrite ?elem_of_cons.
  - intros [->|Hx]; [done|by apply elem_of_nil in Hx].
  - intros [->|[->|Hx]]; [|lia|].
    + transitivity (foldr Z.max y l); [apply IH; left|lia].
    + transitivity (foldr Z.max y l); [apply IH; by right|lia].
Qed.

Lemma list_max_elem l m : list_max l = Some m → m ∈ l.
Proof.
  destruct l as [|y l]; cbn; [done|]. intros [= <-].
  induction l as [|z l IH]; cbn; [left|].
  destruct (Z.max_spec z (foldr Z.max y l)) as [[_ ->]|[_ ->]].
  - apply elem_of_cons in IH as [IH|IH]; [rewrite IH; left | right; by right].
  - right. left.
Qed.

Lemma list_max_None l : list_max l = None ↔ l = [].
Proof. by destruct l. Qed.

#[export] Hint Resolve sort_by_perm sort_asc_sorted NoDup_dedup : kaudit.
#[export] Hint Rewrite @sort_by_elem @sort_by_length elem_of_dedup : kaudit_simpl.
