(* ===== verification/JsNumber.v ===== *)
(** * JavaScript numbers

    A JavaScript number is an IEEE-754 double. The program keeps counts and
    millisecond values in numbers and guards them with
    [Number.isSafeInteger]; those are modelled as [Z], with the rounding of an
    addition that leaves the 53-bit range written out ([num_add],
    [num_of_bigint]). The few fractional values of the program (shares,
    percentages, confidences) are dyadic rationals [mant / 2 ^ scale], each
    operation correctly rounded to 53 significant bits. *)

From S2P Require Import Prelude.

Definition MAX_SAFE_INTEGER : Z := 2 ^ 53 - 1.

Definition isSafeInteger (z : Z) : bool := Z.abs z <=? MAX_SAFE_INTEGER.

(** Round [n / d] to the nearest integer, ties to even ([d > 0]). *)
Definition round_half_even (n d : Z) : Z :=
  let q := n / d in
  let r := n mod d in
  if 2 * r <? d then q
  else if d <? 2 * r then q + 1
  else if Z.even q then q else q + 1.

(** The double nearest to the integer [z]. *)
Definition round53 (z : Z) : Z :=
  let e := Z.log2 (Z.abs z) - 52 in
  if e <=? 0 then z else round_half_even z (2 ^ e) * 2 ^ e.

(** [a + b] on numbers, and [Number(n)] on a bigint. *)
Definition num_add (a b : Z) : Z := round53 (a + b).
Definition num_of_bigint (n : Z) : Z := round53 n.

(** ** Facts about rounding *)

Section Rounding.
Implicit Types n d z : Z.

Lemma round_half_even_bounds n d :
  0 < d → n / d ≤ round_half_even n d ≤ n / d + 1.
Proof.
  intros Hd. unfold round_half_even.
  zcases.
Qed.

Lemma round_half_even_exact q d : 0 < d → round_half_even (q * d) d = q.
Proof.
  intros Hd. unfold round_half_even.
  rewrite Z.div_mul, Z_mod_mult by lia.
  by rewrite (proj2 (Z.ltb_lt (2 * 0) d)) by lia.
Qed.

(** An integer bound on the quotient is a bound on the rounded quotient. *)
Lemma round_half_even_le n d m : 0 < d → n ≤ m * d → round_half_even n d ≤ m.
Proof.
  intros Hd Hn. unfold round_half_even.
  pose proof (Z.div_mod n d ltac:(lia)) as Hdm.
  pose proof (Z.mod_pos_bound n d Hd) as Hr.
  assert (n / d ≤ m) by (apply Z.div_le_upper_bound; lia).
  destruct (Z.eq_dec (n / d) m) as [E|]; [|zcases].
  assert (n mod d = 0) by nia.
  destruct (Z.ltb_spec (2 * (n mod d)) d); lia.
Qed.

Lemma round_half_even_ge n d m : 0 < d → m * d ≤ n → m ≤ round_half_even n d.
Proof.
  intros Hd Hn. pose proof (round_half_even_bounds n d Hd).
  assert (m ≤ n / d) by (apply Z.div_le_lower_bound; lia). lia.
Qed.

(** More than half a unit above [m] rounds strictly above [m]. *)
Lemma round_half_even_gt n d m :
  0 < d → (2 * m + 1) * d < 2 * n → m < round_half_even n d.
Proof.
  intros Hd Hn. unfold round_half_even.
  pose proof (Z.div_mod n d ltac:(lia)) as Hdm.
  pose proof (Z.mod_pos_bound n d Hd) as Hr.
  assert (m ≤ n / d) by (apply Z.div_le_lower_bound; lia).
  destruct (Z.eq_dec (n / d) m) as [E|]; [|zcases].
  rewrite E in *.
  destruct (Z.ltb_spec (2 * (n mod d)) d); [nia|].
  destruct (Z.ltb_spec d (2 * (n mod d))); [lia|nia].
Qed.

Lemma round_half_even_mono n1 n2 d :
  0 < d → n1 ≤ n2 → round_half_even n1 d ≤ round_half_even n2 d.
Proof.
  intros Hd Hn. unfold round_half_even.
  pose proof (Z.div_mod n1 d ltac:(lia)) as H1.
  pose proof (Z.div_mod n2 d ltac:(lia)) as H2.
  pose proof (Z.mod_pos_bound n1 d Hd).
  pose proof (Z.mod_pos_bound n2 d Hd).
  pose proof (Z.div_le_mono n1 n2 d Hd Hn) as Hq.
  destruct (Z.eq_dec (n1 / d) (n2 / d)) as [E|].
  - rewrite E in *. assert (n1 mod d ≤ n2 mod d) by lia.
    destruct (Z.ltb_spec (2 * (n1 mod d)) d), (Z.ltb_spec (2 * (n2 mod d)) d),
      (Z.ltb_spec d (2 * (n1 mod d))), (Z.ltb_spec d (2 * (n2 mod d))),
      (Z.even (n2 / d)); lia.
  - zcases.
Qed.

Lemma round53_small z : Z.abs z ≤ 2 ^ 53 → round53 z = z.
Proof.
  intros Hz. unfold round53.
  destruct (Z.leb_spec (Z.log2 (Z.abs z) - 52) 0) as [|He]; [done|].
  assert (Z.log2 (Z.abs z) ≤ Z.log2 (2 ^ 53)) as Hl by (by apply Z.log2_le_mono).
  rewrite Z.log2_pow2 in Hl by lia.
  assert (Z.log2 (Z.abs z) = 53) as E by lia.
  assert (2 ^ 53 ≤ Z.abs z) as Hlo.
  { rewrite <- E. apply Z.log2_spec. destruct (Z.eq_dec (Z.abs z) 0); [|lia].
    rewrite e in E. cbn in E. lia. }
  replace (Z.log2 (Z.abs z) - 52) with 1 by lia.
  assert (z = 2 ^ 52 * 2 ^ 1 ∨ z = - 2 ^ 52 * 2 ^ 1) as [-> | ->] by lia;
    rewrite round_half_even_exact by lia; lia.
Qed.

Lemma round53_safe z : isSafeInteger z = true → round53 z = z.
Proof.
  unfold isSafeInteger, MAX_SAFE_INTEGER. intros H%Z.leb_le.
  apply round53_small. lia.
Qed.

(** Leaving the safe range is not undone by the rounding. *)
Lemma round53_large z : MAX_SAFE_INTEGER < z → MAX_SAFE_INTEGER < round53 z.
Proof.
  unfold MAX_SAFE_INTEGER. intros Hz. unfold round53. rewrite Z.abs_eq by lia.
  destruct (Z.leb_spec (Z.log2 z - 52) 0) as [|He]; [lia|].
  set (e := Z.log2 z - 52) in *.
  assert (2 ^ Z.log2 z ≤ z) as Hl by (apply Z.log2_spec; lia).
  assert (2 ^ 52 * 2 ^ e ≤ z) as Hz'.
  { rewrite <- Z.pow_add_r by lia. by replace (52 + e) with (Z.log2 z) by lia. }
  assert (0 < 2 ^ e) by (apply Z.pow_pos_nonneg; lia).
  pose proof (round_half_even_ge z (2 ^ e) (2 ^ 52) ltac:(lia) Hz').
  assert (2 ^ 1 ≤ 2 ^ e) by (apply Z.pow_le_mono_r; lia). nia.
Qed.
End Rounding.

Lemma isSafeInteger_spec z :
  isSafeInteger z = true ↔ - MAX_SAFE_INTEGER ≤ z ≤ MAX_SAFE_INTEGER.
Proof. unfold isSafeInteger. rewrite Z.leb_le. lia. Qed.

(** For non-negative integers the guard that follows a rounded operation
    decides exactly whether the exact result was safe. *)
Lemma isSafeInteger_round53 z :
  0 ≤ z → isSafeInteger (round53 z) = isSafeInteger z.
Proof.
  intros Hz. destruct (isSafeInteger z) eqn:E.
  - by rewrite round53_safe.
  - apply not_true_iff_false in E. apply not_true_iff_false.
    rewrite isSafeInteger_spec in *. unfold MAX_SAFE_INTEGER in *.
    pose proof (round53_large z). unfold MAX_SAFE_INTEGER in *. lia.
Qed.

(** [Math.min] with a safe operand hides the rounding of the other one. *)
Lemma min_num_add r a b :
  0 ≤ r ≤ MAX_SAFE_INTEGER → 0 ≤ a → 0 ≤ b →
  Z.min r (num_add a b) = Z.min r (a + b).
Proof.
  intros Hr Ha Hb. unfold num_add.
  destruct (Z.le_gt_cases (a + b) MAX_SAFE_INTEGER).
  - rewrite round53_safe; [done|]. apply isSafeInteger_spec. lia.
  - pose proof (round53_large (a + b) ltac:(lia)). lia.
Qed.

Lemma num_add_safe a b :
  0 ≤ a → 0 ≤ b → a + b ≤ MAX_SAFE_INTEGER → num_add a b = a + b.
Proof. intros. apply round53_safe, isSafeInteger_spec. lia. Qed.

#[export] Hint Rewrite isSafeInteger_spec : kaudit_simpl.

(** ** Fractional doubles *)

Record dyadic : Type := Dyadic { mant : Z; scale : Z }.

(** [n / d] for [n >= 0], [d > 0], correctly rounded. *)
Definition num_div (n d : Z) : dyadic :=
  if n =? 0 then Dyadic 0 0
  else
    let t0 := Z.log2 n - Z.log2 d in
    let below := if 0 <=? t0 then n <? d * 2 ^ t0 else n * 2 ^ (- t0) <? d in
    let t := if below then t0 - 1 else t0 in
    let s := 52 - t in
    if 0 <=? s then Dyadic (round_half_even (n * 2 ^ s) d) s
    else Dyadic (round_half_even n (d * 2 ^ (- s)) * 2 ^ (- s)) 0.

(** [x * n] for an integer [n]: the exact product, rounded. *)
Definition num_mul_int (x : dyadic) (n : Z) : dyadic :=
  Dyadic (round53 (mant x * n)) (scale x).

(** [Math.ceil(x)] *)
Definition num_ceil (x : dyadic) : Z := - ((- mant x) / 2 ^ scale x).

(** [x < y] *)
Definition num_ltb (x y : dyadic) : bool :=
  mant x * 2 ^ scale y <? mant y * 2 ^ scale x.

(** [x.toFixed(k)] for [x >= 0]: the integer [n] with [n / 10 ^ k] closest to
    [x], the larger of two. *)
Definition num_toFixed (x : dyadic) (k : Z) : Z :=
  (2 * mant x * 10 ^ k + 2 ^ scale x) / (2 * 2 ^ scale x).

(** An integer [m] with [k * p < m <= (k + 1) * p] has [ceil (m / p) = k + 1]. *)
Lemma ceil_between k m p :
  0 < p → k * p < m ≤ (k + 1) * p → - ((- m) / p) = k + 1.
Proof.
  intros Hp Hm. assert ((- m) / p = - (k + 1)); [|lia].
  symmetry. apply Z.div_unique with (r := (k + 1) * p - m); lia.
Qed.

Lemma ceil_div_spec n d :
  0 < d → (n + d - 1) / d = if n mod d =? 0 then n / d else n / d + 1.
Proof.
  intros Hd. pose proof (Z.div_mod n d ltac:(lia)).
  pose proof (Z.mod_pos_bound n d Hd).
  destruct (Z.eqb_spec (n mod d) 0); symmetry.
  - apply Z.div_unique with (r := d - 1); lia.
  - apply Z.div_unique with (r := n mod d - 1); lia.
Qed.

(** [Math.ceil(n / d)] computed in doubles is the exact ceiling for every
    safe [n]: the spacing of the doubles around [n / d] is finer than [1 / d]. *)
Lemma num_ceil_div n d :
  0 ≤ n ≤ MAX_SAFE_INTEGER → 0 < d → num_ceil (num_div n d) = (n + d - 1) / d.
Proof.
  unfold MAX_SAFE_INTEGER. intros Hn Hd. rewrite ceil_div_spec by done.
  unfold num_div. destruct (Z.eqb_spec n 0) as [->|Hn0].
  { rewrite Z.mod_0_l, Z.div_0_l by lia. reflexivity. }
  match goal with |- context [52 - ?x] => set (t := x) end.
  assert (t ≤ Z.log2 n - Z.log2 d) as Ht by (subst t; zcases).
  assert (Z.log2 n < 53) as Hl by (apply Z.log2_lt_pow2; lia).
  pose proof (Z.log2_nonneg d).
  assert (Z.log2 d ≤ 52 - t) as Hs by lia.
  clearbody t. set (s := 52 - t) in *.
  rewrite (proj2 (Z.leb_le 0 s)) by lia.
  assert (0 < 2 ^ s) as Hp by (apply Z.pow_pos_nonneg; lia).
  assert (d < 2 * 2 ^ s) as Hds.
  { apply Z.lt_le_trans with (2 ^ (Z.log2 d + 1)).
    - rewrite Z.add_1_r. apply Z.log2_spec. lia.
    - rewrite <- Z.pow_succ_r by lia. apply Z.pow_le_mono_r; lia. }
  unfold num_ceil. cbn [mant scale].
  pose proof (Z.div_mod n d ltac:(lia)) as Hdm.
  pose proof (Z.mod_pos_bound n d Hd) as Hr.
  set (k := n / d) in *. clearbody k.
  destruct (Z.eqb_spec (n mod d) 0) as [E|E].
  - replace (n * 2 ^ s) with ((k * 2 ^ s) * d) by lia.
    rewrite round_half_even_exact by lia.
    rewrite <- Z.mul_opp_l, Z.div_mul by lia. lia.
  - apply ceil_between; [done|]. split.
    + apply round_half_even_gt; [done|]. nia.
    + apply round_half_even_le; [done|]. nia.
Qed.
