(* ===== verification/JsText.v ===== *)
(** * JavaScript strings

    A JavaScript string is modelled by its UTF-8 encoding, a [string] of bytes,
    so that the source's Hindi and Malayalam literals are written as they are.
    [units] is [.length] (UTF-16 code units). Decimal text, which is all the
    money code reads and writes, is ASCII, where bytes and code units coincide.
    Lone surrogates are outside the model. *)

From S2P Require Import Prelude.
From Stdlib Require Import Ascii.

Local Open Scope string_scope.
#[global] Open Scope Z_scope.

(** ** Characters *)

Definition code (c : ascii) : Z := Z.of_N (N_of_ascii c).
Definition is_digit (c : ascii) : bool := (48 <=? code c) && (code c <=? 57).
Definition digit_value (c : ascii) : Z := code c - 48.
Definition digit_char (d : Z) : ascii := ascii_of_N (Z.to_N (48 + d)).

Fixpoint str_forallb (p : ascii → bool) (s : string) : bool :=
  match s with
  | EmptyString => true
  | String c s => p c && str_forallb p s
  end.

Fixpoint str_existsb (p : ascii → bool) (s : string) : bool :=
  match s with
  | EmptyString => false
  | String c s => p c || str_existsb p s
  end.

Definition all_digits : string → bool := str_forallb is_digit.

Definition len (s : string) : Z := Z.of_nat (String.length s).

(** [.length]: UTF-16 code units of a UTF-8 text. *)
Fixpoint units (s : string) : Z :=
  match s with
  | EmptyString => 0
  | String c s =>
      (if code c <? 128 then 1
       else if code c <? 192 then 0
       else if code c <? 240 then 1 else 2) + units s
  end.

(** ** Slices and padding *)

Fixpoint str_take (n : nat) (s : string) : string :=
  match n, s with
  | S n, String c s => String c (str_take n s)
  | _, _ => EmptyString
  end.

Fixpoint str_drop (n : nat) (s : string) : string :=
  match n, s with
  | S n, String _ s => str_drop n s
  | _, _ => s
  end.

(** [s.slice(0, -n)] and [s.slice(-n)]. *)
Definition slice_but_last (n : nat) (s : string) : string :=
  str_take (String.length s - n) s.
Definition slice_last (n : nat) (s : string) : string :=
  str_drop (String.length s - n) s.

Fixpoint zeros (n : nat) : string :=
  match n with
  | O => EmptyString
  | S n => String "0" (zeros n)
  end.

(** [s.padStart(n, '0')] and [s.padEnd(n, '0')]. *)
Definition pad_start (n : nat) (s : string) : string :=
  zeros (n - String.length s) +:+ s.
Definition pad_end (n : nat) (s : string) : string :=
  s +:+ zeros (n - String.length s).

(** ** Trimming: the white space and line terminators of ECMAScript *)

Definition bytes (l : list Z) : string :=
  foldr (fun z s => String (ascii_of_N (Z.to_N z)) s) EmptyString l.

Definition whitespace : list string :=
  map bytes
    ([[9]; [10]; [11]; [12]; [13]; [32]; [194; 160]; [225; 154; 128];
      [226; 128; 168]; [226; 128; 169]; [226; 128; 175]; [226; 129; 159];
      [227; 128; 128]; [239; 187; 191]]
       ++ map (fun z => [226; 128; z]) (seqZ 128 11)).

Fixpoint strip_prefix (p s : string) : option string :=
  match p, s with
  | EmptyString, _ => Some s
  | String a p, String b s => if Ascii.eqb a b then strip_prefix p s else None
  | _, _ => None
  end.

Fixpoint strip_any (ps : list string) (s : string) : option string :=
  match ps with
  | [] => None
  | p :: ps => match strip_prefix p s with
               | Some r => Some r
               | None => strip_any ps s
               end
  end.

Fixpoint strip_all (fuel : nat) (ps : list string) (s : string) : string :=
  match fuel with
  | O => s
  | S fuel => match strip_any ps s with
              | Some r => strip_all fuel ps r
              | None => s
              end
  end.

Fixpoint str_rev_app (s acc : string) : string :=
  match s with
  | EmptyString => acc
  | String c s => str_rev_app s (String c acc)
  end.
Definition str_rev (s : string) : string := str_rev_app s EmptyString.

Definition trim_start (s : string) : string :=
  strip_all (String.length s) whitespace s.
Definition trim_end (s : string) : string :=
  str_rev (strip_all (String.length s) (map str_rev whitespace) (str_rev s)).
(** [s.trim()] *)
Definition trim (s : string) : string := trim_end (trim_start s).

(** [!s.trim()] *)
Definition blank (s : string) : bool := bool_decide (trim s = "").

(** [s.split(sep)] for one character. *)
Fixpoint split_on (sep : ascii) (s : string) : list string :=
  match s with
  | EmptyString => [""]
  | String c s =>
      if Ascii.eqb c sep then "" :: split_on sep s
      else match split_on sep s with
           | w :: ws => String c w :: ws
           | [] => [String c ""]
           end
  end.

(** ** Decimal text *)

Fixpoint show_digits (fuel : nat) (n : Z) (acc : string) : string :=
  match fuel with
  | O => acc
  | S fuel =>
      let acc := String (digit_char (n mod 10)) acc in
      if n / 10 =? 0 then acc else show_digits fuel (n / 10) acc
  end.

(** [n.toString()] of a non-negative integer. *)
Definition show_nat (n : Z) : string :=
  show_digits (S (Z.to_nat (Z.log2 n))) n EmptyString.

(** [`${z}`] of an integer. *)
Definition show_Z (z : Z) : string :=
  if z <? 0 then "-" +:+ show_nat (- z) else show_nat z.

Fixpoint dec_acc (acc : Z) (s : string) : Z :=
  match s with
  | EmptyString => acc
  | String c s => dec_acc (10 * acc + digit_value c) s
  end.

(** [BigInt(s)] of a text of decimal digits. *)
Definition dec_value (s : string) : Z := dec_acc 0 s.

Fixpoint span_digits (s : string) : string * string :=
  match s with
  | String c s' =>
      if is_digit c then let '(w, r) := span_digits s' in (String c w, r)
      else (EmptyString, s)
  | EmptyString => (EmptyString, EmptyString)
  end.

(** [/^(\d+)(?:\.(\d+))?$/]: the whole digits and the fraction, if any. *)
Definition split_decimal (s : string) : option (string * option string) :=
  let '(w, r) := span_digits s in
  if bool_decide (w = "") then None
  else match r with
       | EmptyString => Some (w, None)
       | String "." f =>
           if all_digits f && negb (bool_decide (f = "")) then Some (w, Some f)
           else None
       | _ => None
       end.

(** ** Facts about slices *)

Lemma append_nil_l s : "" +:+ s = s.
Proof. done. Qed.
Lemma append_cons c s t : String c s +:+ t = String c (s +:+ t).
Proof. done. Qed.
Lemma append_nil_r s : s +:+ "" = s.
Proof. induction s; [done|]. by rewrite append_cons, IHs. Qed.
Lemma append_assoc' (s t u : string) : (s +:+ t) +:+ u = s +:+ (t +:+ u).
Proof. induction s; [done|]. by rewrite !append_cons, IHs. Qed.

Lemma length_append s t : String.length (s +:+ t) = (String.length s + String.length t)%nat.
Proof. induction s; [done|]. rewrite append_cons. cbn. by rewrite IHs. Qed.

Lemma length_zeros n : String.length (zeros n) = n.
Proof. induction n; cbn; congruence. Qed.

Lemma str_take_app s t : str_take (String.length s) (s +:+ t) = s.
Proof. induction s; [by destruct t|]. rewrite append_cons. cbn. by rewrite IHs. Qed.
Lemma str_drop_app s t : str_drop (String.length s) (s +:+ t) = t.
Proof. induction s; [by destruct t|]. rewrite append_cons. cbn. done. Qed.
Lemma str_take_drop n s : str_take n s +:+ str_drop n s = s.
Proof.
  revert s. induction n; intros [|c s]; cbn; try done.
  rewrite append_cons. by rewrite IHn.
Qed.
Lemma length_str_take n s : (n ≤ String.length s)%nat → String.length (str_take n s) = n.
Proof.
  revert s. induction n; intros [|c s]; cbn; intros; try lia. rewrite IHn; lia.
Qed.
Lemma length_str_drop n s : String.length (str_drop n s) = (String.length s - n)%nat.
Proof. revert s. induction n; intros [|c s]; cbn; try lia. apply IHn. Qed.

Lemma slices_app n s :
  slice_but_last n s +:+ slice_last n s = s.
Proof. apply str_take_drop. Qed.

Lemma length_slice_last n s :
  (n ≤ String.length s)%nat → String.length (slice_last n s) = n.
Proof. intros. unfold slice_last. rewrite length_str_drop. lia. Qed.

Lemma length_slice_but_last n s :
  String.length (slice_but_last n s) = (String.length s - n)%nat.
Proof. unfold slice_but_last. apply length_str_take. lia. Qed.

Lemma length_pad_start n s :
  String.length (pad_start n s) = Nat.max n (String.length s).
Proof. unfold pad_start. rewrite length_append, length_zeros. lia. Qed.

Lemma length_pad_end n s :
  String.length (pad_end n s) = Nat.max n (String.length s).
Proof. unfold pad_end. rewrite length_append, length_zeros. lia. Qed.

(** ** Facts about digits *)

Lemma code_range c : 0 ≤ code c < 256.
Proof. unfold code. pose proof (N_ascii_bounded c). lia. Qed.

Lemma is_digit_value c : is_digit c = true → 0 ≤ digit_value c ≤ 9.
Proof. unfold is_digit, digit_value. intros. to_prop. lia. Qed.

Lemma digit_char_code d : 0 ≤ d ≤ 9 → code (digit_char d) = 48 + d.
Proof. intros. unfold code, digit_char. rewrite N_ascii_embedding; lia. Qed.

Lemma is_digit_char d : 0 ≤ d ≤ 9 → is_digit (digit_char d) = true.
Proof.
  intros. unfold is_digit. rewrite digit_char_code by done.
  apply andb_true_iff. rewrite !Z.leb_le. lia.
Qed.

Lemma digit_value_char d : 0 ≤ d ≤ 9 → digit_value (digit_char d) = d.
Proof. intros. unfold digit_value. rewrite digit_char_code by done. lia. Qed.

Lemma all_digits_append s t :
  all_digits (s +:+ t) = all_digits s && all_digits t.
Proof.
  induction s; [done|]. rewrite append_cons. cbn. by rewrite <- andb_assoc, IHs.
Qed.

Lemma all_digits_zeros n : all_digits (zeros n) = true.
Proof. by induction n. Qed.

Lemma all_digits_take n s : all_digits s = true → all_digits (str_take n s) = true.
Proof.
  intros H. rewrite <- (str_take_drop n s), all_digits_append in H. by to_prop.
Qed.
Lemma all_digits_drop n s : all_digits s = true → all_digits (str_drop n s) = true.
Proof.
  intros H. rewrite <- (str_take_drop n s), all_digits_append in H. by to_prop.
Qed.

Lemma dec_acc_append a s t : dec_acc a (s +:+ t) = dec_acc (dec_acc a s) t.
Proof. revert a. induction s; intros; [done|]. rewrite append_cons. apply IHs. Qed.

Lemma dec_acc_shift a s :
  dec_acc a s = a * 10 ^ len s + dec_value s.
Proof.
  revert a. induction s as [|c s IH]; intros a; [unfold dec_value, len; cbn; lia|].
  unfold dec_value. cbn [dec_acc]. rewrite (IH (10 * a + _)), (IH (10 * 0 + _)).
  unfold len. cbn [String.length]. rewrite Nat2Z.inj_succ, Z.pow_succ_r by lia. lia.
Qed.

Lemma dec_value_append s t :
  dec_value (s +:+ t) = dec_value s * 10 ^ len t + dec_value t.
Proof. unfold dec_value at 1. rewrite dec_acc_append, dec_acc_shift. done. Qed.

Lemma dec_value_zeros n : dec_value (zeros n) = 0.
Proof. induction n; [done|]. exact IHn. Qed.

Lemma dec_value_pad_start n s : dec_value (pad_start n s) = dec_value s.
Proof. unfold pad_start. rewrite dec_value_append, dec_value_zeros. lia. Qed.

Lemma dec_value_bounds s :
  all_digits s = true → 0 ≤ dec_value s < 10 ^ len s.
Proof.
  induction s as [|c s IH]; [unfold dec_value, len; cbn; lia|].
  cbn [all_digits str_forallb]. intros [Hc Hs]%andb_true_iff. specialize (IH Hs).
  apply is_digit_value in Hc. unfold dec_value. cbn [dec_acc].
  rewrite dec_acc_shift. unfold len in *. cbn [String.length].
  rewrite Nat2Z.inj_succ, Z.pow_succ_r by lia. nia.
Qed.

Lemma show_digits_spec fuel n acc :
  0 ≤ n → n < 2 ^ Z.of_nat fuel →
  ∃ w, show_digits fuel n acc = w +:+ acc ∧ all_digits w = true ∧
       dec_value w = n ∧ (1 ≤ fuel → 1 ≤ String.length w)%nat.
Proof.
  revert n acc. induction fuel as [|fuel IH]; intros n acc Hn Hlt.
  { exists "". cbn in Hlt |- *. split_and!; [done|done|unfold dec_value; cbn; lia|lia]. }
  cbn [show_digits].
  pose proof (Z.mod_pos_bound n 10 ltac:(lia)) as Hm.
  pose proof (Z.div_mod n 10 ltac:(lia)) as Hdm.
  assert (is_digit (digit_char (n mod 10)) = true) as Hd by (apply is_digit_char; lia).
  assert (dec_value (String (digit_char (n mod 10)) "") = n mod 10) as Hv.
  { unfold dec_value. cbn [dec_acc]. rewrite digit_value_char by lia. lia. }
  destruct (Z.eqb_spec (n / 10) 0) as [E|E].
  - exists (String (digit_char (n mod 10)) ""). rewrite append_cons, append_nil_l.
    cbn [all_digits str_forallb String.length]. rewrite Hd. split_and!; [done|done|lia|lia].
  - rewrite Nat2Z.inj_succ, Z.pow_succ_r in Hlt by lia.
    destruct (IH (n / 10) (String (digit_char (n mod 10)) acc)) as (w & -> & Hw & Hval & Hl).
    { apply Z.div_pos; lia. }
    { apply Z.div_lt_upper_bound; lia. }
    exists (w +:+ String (digit_char (n mod 10)) "").
    rewrite append_assoc', append_cons, append_nil_l, all_digits_append, dec_value_append, Hv, Hval.
    rewrite length_append. cbn [all_digits str_forallb String.length].
    rewrite Hw, Hd. unfold len. cbn [String.length].
    split_and!; [done|done| |lia]. change (10 ^ Z.of_nat 1) with 10. lia.
Qed.

Lemma show_nat_spec n :
  0 ≤ n → all_digits (show_nat n) = true ∧ dec_value (show_nat n) = n ∧
          (1 ≤ String.length (show_nat n))%nat.
Proof.
  intros Hn. unfold show_nat.
  destruct (show_digits_spec (S (Z.to_nat (Z.log2 n))) n "") as (w & -> & Hw & Hv & Hl).
  - done.
  - pose proof (Z.log2_nonneg n). rewrite Nat2Z.inj_succ, Z2Nat.id by done.
    destruct (Z.eq_dec n 0) as [->|]; [done|]. apply Z.log2_spec. lia.
  - rewrite append_nil_r. split_and!; [done..|]. apply Hl. lia.
Qed.

Lemma show_nat_digits n : 0 ≤ n → all_digits (show_nat n) = true.
Proof. intros. by apply show_nat_spec. Qed.
Lemma dec_value_show_nat n : 0 ≤ n → dec_value (show_nat n) = n.
Proof. intros. by apply show_nat_spec. Qed.
Lemma show_nat_nonempty n : 0 ≤ n → show_nat n ≠ "".
Proof. intros H E. destruct (show_nat_spec n H) as (_ & _ & Hl). rewrite E in Hl. cbn in Hl. lia. Qed.

Lemma show_nat_inj m n : 0 ≤ m → 0 ≤ n → show_nat m = show_nat n → m = n.
Proof. intros ?? E. rewrite <- (dec_value_show_nat m), <- (dec_value_show_nat n), E; done. Qed.

(** Equal digit texts of equal length have equal values, and conversely. *)
Lemma dec_value_inj s t :
  all_digits s = true → all_digits t = true → String.length s = String.length t →
  dec_value s = dec_value t → s = t.
Proof.
  revert t. induction s as [|c s IH]; intros [|d t]; cbn [String.length]; try done.
  cbn [all_digits str_forallb]. intros [Hc Hs]%andb_true_iff [Hd Ht]%andb_true_iff [= Hl].
  unfold dec_value. cbn [dec_acc]. rewrite !dec_acc_shift. unfold len. rewrite Hl.
  pose proof (dec_value_bounds s Hs) as Bs. pose proof (dec_value_bounds t Ht) as Bt.
  unfold len in Bs, Bt. rewrite Hl in Bs. intros E.
  pose proof (is_digit_value c Hc). pose proof (is_digit_value d Hd).
  assert (digit_value c = digit_value d) as Hcd by nia.
  rewrite (IH t) by (done || nia). f_equal.
  unfold digit_value, code in Hcd.
  rewrite <- (ascii_N_embedding c), <- (ascii_N_embedding d). f_equal. lia.
Qed.

Lemma span_digits_spec w r :
  all_digits w = true →
  match r with EmptyString => True | String c _ => is_digit c = false end →
  span_digits (w +:+ r) = (w, r).
Proof.
  intros Hw Hr. induction w as [|c w IH].
  - rewrite append_nil_l. destruct r as [|c r]; cbn; [done|]. by rewrite Hr.
  - cbn [all_digits str_forallb] in Hw. apply andb_true_iff in Hw as [Hc Hw].
    rewrite append_cons. cbn. by rewrite Hc, IH.
Qed.

Lemma span_digits_inv s w r :
  span_digits s = (w, r) → s = w +:+ r ∧ all_digits w = true.
Proof.
  revert w r. induction s as [|c s IH]; cbn; intros w r.
  - by intros [= <- <-].
  - destruct (is_digit c) eqn:Hc; [|by intros [= <- <-]].
    destruct (span_digits s) as [w' r'] eqn:E. intros [= <- <-].
    destruct (IH w' r' eq_refl) as [-> Hw]. cbn. by rewrite Hc.
Qed.

Lemma split_decimal_whole w :
  all_digits w = true → w ≠ "" → split_decimal w = Some (w, None).
Proof.
  intros Hw Hne. unfold split_decimal.
  rewrite <- (append_nil_r w) at 1. rewrite span_digits_spec by done.
  by rewrite bool_decide_eq_false_2.
Qed.

Lemma split_decimal_point w f :
  all_digits w = true → w ≠ "" → all_digits f = true → f ≠ "" →
  split_decimal (w +:+ "." +:+ f) = Some (w, Some f).
Proof.
  intros Hw Hne Hf Hfne. unfold split_decimal. rewrite span_digits_spec by done.
  rewrite bool_decide_eq_false_2 by done. rewrite append_cons, append_nil_l, Hf.
  by rewrite bool_decide_eq_false_2.
Qed.

Lemma split_decimal_inv s w o :
  split_decimal s = Some (w, o) →
  all_digits w = true ∧ w ≠ "" ∧
  match o with
  | None => s = w
  | Some f => s = w +:+ "." +:+ f ∧ all_digits f = true ∧ f ≠ ""
  end.
Proof.
  unfold split_decimal. destruct (span_digits s) as [w' r] eqn:E.
  apply span_digits_inv in E as [-> Hw].
  case_bool_decide; [done|]. destruct r as [|c f].
  - intros [= <- <-]. by rewrite append_nil_r.
  - destruct (ascii_dec c ".") as [->|Hc].
    + destruct (_ && _) eqn:Hf; [|done]. intros [= <- <-]. to_prop. done.
    + intros H'. exfalso. destruct c as [[] [] [] [] [] [] [] []]; done.
Qed.

#[export] Hint Resolve show_nat_digits all_digits_zeros show_nat_nonempty : kaudit.

(** ** Facts about trimming

    Text of visible ASCII characters is its own trim. *)

Definition visible (c : ascii) : bool := (33 <=? code c) && (code c <? 127).
Definition all_visible : string → bool := str_forallb visible.

Lemma str_rev_app_spec s acc : str_rev_app s acc = str_rev s +:+ acc.
Proof.
  unfold str_rev. revert acc. induction s as [|c s IH]; intros; [done|].
  cbn. rewrite IH, (IH (String c "")), append_assoc'. done.
Qed.
Lemma str_rev_cons c s : str_rev (String c s) = str_rev s +:+ String c "".
Proof. unfold str_rev at 1. cbn. apply str_rev_app_spec. Qed.
Lemma str_rev_append s t : str_rev (s +:+ t) = str_rev t +:+ str_rev s.
Proof.
  induction s as [|c s IH]; [by rewrite append_nil_r|].
  by rewrite append_cons, !str_rev_cons, IH, append_assoc'.
Qed.
Lemma str_rev_involutive s : str_rev (str_rev s) = s.
Proof. induction s; [done|]. by rewrite str_rev_cons, str_rev_append, IHs. Qed.

Lemma str_forallb_append p s t :
  str_forallb p (s +:+ t) = str_forallb p s && str_forallb p t.
Proof. induction s; [done|]. rewrite append_cons. cbn. by rewrite IHs, andb_assoc. Qed.
Lemma str_forallb_rev p s : str_forallb p (str_rev s) = str_forallb p s.
Proof.
  induction s; [done|]. rewrite str_rev_cons, str_forallb_append, IHs. cbn.
  rewrite andb_true_r. apply andb_comm.
Qed.

Lemma strip_any_visible c s :
  visible c = true →
  strip_any whitespace (String c s) = None ∧
  strip_any (map str_rev whitespace) (String c s) = None.
Proof.
  destruct c as [[] [] [] [] [] [] [] []];
    first [ discriminate 1 | intros _; split; reflexivity ].
Qed.

Lemma strip_all_visible fuel s :
  all_visible s = true →
  strip_all fuel whitespace s = s ∧ strip_all fuel (map str_rev whitespace) s = s.
Proof.
  intros H. destruct fuel as [|fuel]; [done|]. destruct s as [|c s].
  - split; reflexivity.
  - cbn [all_visible str_forallb] in H. apply andb_true_iff in H as [Hc _].
    destruct (strip_any_visible c s Hc) as [E1 E2]. cbn [strip_all]. by rewrite E1, E2.
Qed.

Lemma trim_visible s : all_visible s = true → trim s = s.
Proof.
  intros H. unfold trim, trim_start.
  rewrite (proj1 (strip_all_visible _ s H)). unfold trim_end.
  assert (all_visible (str_rev s) = true) as Hr by (unfold all_visible; by rewrite str_forallb_rev).
  rewrite (proj2 (strip_all_visible _ (str_rev s) Hr)). apply str_rev_involutive.
Qed.

Lemma units_visible s : all_visible s = true → units s = len s.
Proof.
  induction s as [|c s IH]; [done|]. cbn [all_visible str_forallb units].
  intros [Hc Hs]%andb_true_iff. unfold visible in Hc. apply andb_true_iff in Hc as [_ Hc].
  apply Z.ltb_lt in Hc. rewrite (proj2 (Z.ltb_lt (code c) 128)) by lia.
  rewrite IH by done. unfold len. cbn [String.length]. lia.
Qed.

Lemma is_digit_visible c : is_digit c = true → visible c = true.
Proof.
  unfold is_digit, visible. rewrite !andb_true_iff, !Z.leb_le, Z.ltb_lt. lia.
Qed.
Lemma all_digits_visible s : all_digits s = true → all_visible s = true.
Proof.
  induction s as [|c s IH]; [done|]. cbn. intros [Hc Hs]%andb_true_iff.
  rewrite is_digit_visible by done. by apply IH.
Qed.

(** ** [s.replace(/0+$/, '')] *)

Fixpoint strip_trailing_zeros (s : string) : string :=
  match s with
  | EmptyString => EmptyString
  | String c s =>
      let r := strip_trailing_zeros s in
      if bool_decide (r = "") && Ascii.eqb c "0" then "" else String c r
  end.

Lemma strip_trailing_zeros_spec s :
  ∃ k, s = strip_trailing_zeros s +:+ zeros k.
Proof.
  induction s as [|c s [k IH]]; [by exists 0%nat|]. cbn.
  destruct (_ && _) eqn:E.
  - to_prop. match goal with H : Ascii.eqb _ _ = true |- _ => apply Ascii.eqb_eq in H end.
    subst. exists (S k). rewrite append_nil_l. cbn. f_equal.
    match goal with H : _ = "" |- _ => rewrite H in IH end. exact IH.
  - exists k. rewrite append_cons. congruence.
Qed.

(** Padding back the stripped zeros and cutting restores the text. *)
Lemma strip_pad_take s :
  str_take (String.length s) (strip_trailing_zeros s +:+ zeros (String.length s)) = s.
Proof.
  destruct (strip_trailing_zeros_spec s) as [k E].
  assert (String.length s = String.length (strip_trailing_zeros s) + k)%nat as Hl.
  { rewrite E at 1. by rewrite length_append, length_zeros. }
  assert (∀ m n, zeros (m + n) = zeros m +:+ zeros n) as Hz.
  { induction m; intros; [done|]. cbn. by rewrite IHm. }
  replace (zeros (String.length s)) with (zeros k +:+ zeros (String.length (strip_trailing_zeros s)))
    by (rewrite <- Hz; f_equal; lia).
  rewrite <- append_assoc', <- E at 1. apply str_take_app.
Qed.

Lemma all_digits_strip s :
  all_digits s = true → all_digits (strip_trailing_zeros s) = true.
Proof.
  intros H. destruct (strip_trailing_zeros_spec s) as [k E].
  rewrite E, all_digits_append in H. by to_prop.
Qed.

(** ** Fixed-point texts: [whole.fraction] with [k] fraction digits *)

Definition show_fixed (k : nat) (v : Z) : string :=
  show_nat (v / 10 ^ Z.of_nat k) +:+ "." +:+
  pad_start k (show_nat (v mod 10 ^ Z.of_nat k)).

Lemma length_show_digits fuel n acc k :
  0 ≤ n < 10 ^ Z.of_nat k → (1 ≤ k)%nat →
  (String.length (show_digits fuel n acc) ≤ k + String.length acc)%nat.
Proof.
  revert n acc k. induction fuel as [|fuel IH]; intros n acc k Hn Hk; [cbn; lia|].
  cbn [show_digits]. destruct (Z.eqb_spec (n / 10) 0) as [E|E]; [cbn; lia|].
  destruct k as [|[|k]]; [lia| |].
  - rewrite Z.div_small in E; [done|]. change (10 ^ Z.of_nat 1) with 10 in Hn. lia.
  - rewrite (Nat2Z.inj_succ (S k)), Z.pow_succ_r in Hn by lia.
    etransitivity; [apply (IH _ _ (S k)); [|lia]|cbn; lia].
    split; [apply Z.div_pos; lia | apply Z.div_lt_upper_bound; lia].
Qed.

Lemma length_show_nat k n :
  0 ≤ n < 10 ^ Z.of_nat k → (1 ≤ k)%nat → (String.length (show_nat n) ≤ k)%nat.
Proof.
  intros Hn Hk. unfold show_nat.
  pose proof (length_show_digits (S (Z.to_nat (Z.log2 n))) n "" k Hn Hk). cbn in *. lia.
Qed.

Section ShowFixed.
Context (k : nat) (Hk : (1 ≤ k)%nat).
Notation B := (10 ^ Z.of_nat k).
Implicit Types v : Z.

Let B_pos : 0 < B.
Proof. apply Z.pow_pos_nonneg; lia. Qed.

(** The fraction text of [show_fixed]. *)
Lemma fixed_fraction v :
  let f := pad_start k (show_nat (v mod B)) in
  all_digits f = true ∧ String.length f = k ∧ dec_value f = v mod B.
Proof using Hk B_pos.
  pose proof (Z.mod_pos_bound v B B_pos) as Hm. cbn zeta. split_and!.
  - unfold pad_start. rewrite all_digits_append, all_digits_zeros, show_nat_digits; lia.
  - rewrite length_pad_start. pose proof (length_show_nat k _ Hm Hk). lia.
  - rewrite dec_value_pad_start. apply dec_value_show_nat. lia.
Qed.

Lemma split_show_fixed v :
  0 ≤ v →
  split_decimal (show_fixed k v) =
    Some (show_nat (v / B), Some (pad_start k (show_nat (v mod B)))).
Proof using Hk B_pos.
  intros Hv. destruct (fixed_fraction v) as (Hf & Hl & _).
  assert (0 ≤ v / B) by (apply Z.div_pos; lia).
  apply split_decimal_point; auto with kaudit.
  intros E. rewrite E in Hl. cbn in Hl. lia.
Qed.

(** The digits of [show_fixed k v], without the point, denote [v]. *)
Lemma show_fixed_value v :
  0 ≤ v →
  dec_value (show_nat (v / B) +:+ pad_start k (show_nat (v mod B))) = v.
Proof using Hk B_pos.
  intros Hv. destruct (fixed_fraction v) as (_ & Hl & Hval).
  rewrite dec_value_append, Hval. unfold len. rewrite Hl.
  rewrite dec_value_show_nat by (apply Z.div_pos; lia).
  pose proof (Z.div_mod v B ltac:(lia)). lia.
Qed.

Lemma show_fixed_inj v w : 0 ≤ v → 0 ≤ w → show_fixed k v = show_fixed k w → v = w.
Proof using Hk B_pos.
  intros Hv Hw E. rewrite <- (show_fixed_value v Hv), <- (show_fixed_value w Hw).
  pose proof (split_show_fixed v Hv) as E1. rewrite E, split_show_fixed in E1 by done.
  congruence.
Qed.
End ShowFixed.

(** ** The digits of a number, cut at a power of ten *)

Lemma length_show_nat_bounds n :
  1 ≤ n → 10 ^ (len (show_nat n) - 1) ≤ n < 10 ^ len (show_nat n).
Proof.
  intros Hn. destruct (show_nat_spec n ltac:(lia)) as (Hd & Hv & Hl).
  pose proof (dec_value_bounds _ Hd) as Hb. rewrite Hv in Hb. split; [|lia].
  apply Z.le_ngt. intros Hlt.
  destruct (Nat.eq_dec (String.length (show_nat n)) 1) as [E|E].
  { unfold len in Hlt. rewrite E in Hlt. cbn in Hlt. lia. }
  pose proof (length_show_nat (String.length (show_nat n) - 1) n) as H.
  unfold len in Hlt. rewrite Nat2Z.inj_sub in H by lia. change (Z.of_nat 1) with 1 in H. lia.
Qed.

Lemma pow10_unique n a b :
  0 ≤ a → 0 ≤ b → 10 ^ a ≤ n < 10 ^ (a + 1) → 10 ^ b ≤ n < 10 ^ (b + 1) → a = b.
Proof.
  intros Ha Hb H1 H2. destruct (Z.lt_trichotomy a b) as [H|[H|H]]; [exfalso|done|exfalso].
  - pose proof (Z.pow_le_mono_r 10 (a + 1) b ltac:(lia) ltac:(lia)). lia.
  - pose proof (Z.pow_le_mono_r 10 (b + 1) a ltac:(lia) ltac:(lia)). lia.
Qed.

Section CutDigits.
Context (k : nat) (Hk : (1 ≤ k)%nat).
Notation B := (10 ^ Z.of_nat k).

Lemma length_cut n :
  0 ≤ n →
  String.length (pad_start (k + 1) (show_nat n)) =
  (String.length (show_nat (n / B)) + k)%nat.
Proof using Hk.
  intros Hn. assert (0 < B) by (apply Z.pow_pos_nonneg; lia). rewrite length_pad_start.
  destruct (Z.lt_ge_cases n B) as [Hlt|Hge].
  - rewrite Z.div_small by lia. change (String.length (show_nat 0)) with 1%nat.
    pose proof (length_show_nat k n ltac:(lia) Hk). lia.
  - assert (1 ≤ n / B) as Hq by (apply Z.div_le_lower_bound; lia).
    pose proof (length_show_nat_bounds n ltac:(lia)) as H1.
    pose proof (length_show_nat_bounds _ Hq) as H2.
    assert (1 ≤ len (show_nat (n / B))) as Hl2.
    { destruct (show_nat_spec (n / B) ltac:(lia)) as (_ & _ & Hl). unfold len. lia. }
    assert (1 ≤ len (show_nat n)) as Hl1.
    { destruct (show_nat_spec n ltac:(lia)) as (_ & _ & Hl). unfold len. lia. }
    assert (len (show_nat n) - 1 = len (show_nat (n / B)) - 1 + Z.of_nat k) as E.
    { apply (pow10_unique n); [lia|lia| |].
      - by replace (len (show_nat n) - 1 + 1) with (len (show_nat n)) by lia.
      - replace (len (show_nat (n / B)) - 1 + Z.of_nat k + 1)
          with (len (show_nat (n / B)) + Z.of_nat k) by lia.
        rewrite !Z.pow_add_r by lia.
        pose proof (Z.div_mod n B ltac:(lia)). pose proof (Z.mod_pos_bound n B ltac:(lia)). nia. }
    unfold len in *. lia.
Qed.

Lemma cut_digits n :
  0 ≤ n →
  pad_start (k + 1) (show_nat n) = show_nat (n / B) +:+ pad_start k (show_nat (n mod B)).
Proof using Hk.
  intros Hn. destruct (fixed_fraction k Hk n) as (Hf & Hl & _).
  assert (0 < B) by (apply Z.pow_pos_nonneg; lia).
  assert (0 ≤ n / B) by (apply Z.div_pos; lia).
  apply dec_value_inj.
  - unfold pad_start. by rewrite all_digits_append, all_digits_zeros, show_nat_digits.
  - by rewrite all_digits_append, Hf, show_nat_digits.
  - rewrite length_cut, length_append, Hl by done. done.
  - by rewrite dec_value_pad_start, dec_value_show_nat, show_fixed_value.
Qed.

Lemma cut_slices n :
  0 ≤ n →
  slice_but_last k (pad_start (k + 1) (show_nat n)) = show_nat (n / B) ∧
  slice_last k (pad_start (k + 1) (show_nat n)) = pad_start k (show_nat (n mod B)).
Proof using Hk.
  intros Hn. destruct (fixed_fraction k Hk n) as (_ & Hl & _).
  rewrite cut_digits by done. unfold slice_but_last, slice_last.
  rewrite length_append, Hl, Nat.add_sub. split; [apply str_take_app|apply str_drop_app].
Qed.
End CutDigits.

(** ** Padding and cutting on the right *)

Lemma str_take_zeros n m s :
  (n - String.length s ≤ m)%nat →
  str_take n (s +:+ zeros m) = str_take n (s +:+ zeros (n - String.length s)).
Proof.
  revert n m. induction s as [|c s IH]; intros n m Hm.
  - rewrite !append_nil_l. cbn [String.length] in *. rewrite Nat.sub_0_r in *.
    revert m Hm. induction n as [|n IHn]; intros m Hm; [done|].
    destruct m as [|m]; [lia|]. cbn. f_equal. apply IHn. lia.
  - destruct n as [|n]; [done|]. rewrite !append_cons. cbn [str_take]. f_equal.
    cbn [String.length Nat.sub] in *. by apply IH.
Qed.

Lemma str_take_pad_end n f : String.length f = n → str_take n (pad_end n f) = f.
Proof. intros <-. unfold pad_end. apply str_take_app. Qed.

Lemma pad_end_full n f : String.length f = n → pad_end n f = f.
Proof. intros <-. unfold pad_end. by rewrite Nat.sub_diag, append_nil_r. Qed.

(** Cutting at [n] after padding with [n] zeros is padding, for short texts. *)
Lemma str_take_pad n f :
  (String.length f ≤ n)%nat → str_take n (f +:+ zeros n) = pad_end n f.
Proof.
  intros Hl. rewrite str_take_zeros by lia. fold (pad_end n f).
  rewrite <- (append_nil_r (pad_end n f)) at 1.
  replace n with (String.length (pad_end n f)) at 1 by (rewrite length_pad_end; lia).
  apply str_take_app.
Qed.

Lemma split_on_none sep s : str_forallb (fun c => negb (Ascii.eqb c sep)) s = true → split_on sep s = [s].
Proof.
  induction s as [|c s IH]; [done|]. cbn. intros [Hc Hs]%andb_true_iff. apply negb_true_iff in Hc.
  by rewrite Hc, (IH Hs).
Qed.

Lemma split_on_app sep s t : str_forallb (fun c => negb (Ascii.eqb c sep)) s = true →
  split_on sep (s +:+ String sep t) = s :: split_on sep t.
Proof.
  induction s as [|c s IH]; rewrite ?append_nil_l, ?append_cons; cbn.
  - intros _. destruct (Ascii.eqb_spec sep sep); [done|congruence].
  - intros [Hc Hs]%andb_true_iff. apply negb_true_iff in Hc. by rewrite Hc, (IH Hs).
Qed.

(** ** Trimming once is enough *)

Lemma strip_prefix_app p s t r : strip_prefix p s = Some r → strip_prefix p (s +:+ t) = Some (r +:+ t).
Proof.
  revert s. induction p as [|a p IH]; intros s; cbn; [by intros [= ->]|].
  destruct s as [|b s]; [done|]. rewrite append_cons. destruct (Ascii.eqb a b); [apply IH|done].
Qed.

Lemma strip_prefix_length p s r :
  strip_prefix p s = Some r → (String.length s = String.length p + String.length r)%nat.
Proof.
  revert s. induction p as [|a p IH]; intros s; cbn; [by intros [= ->]|].
  destruct s as [|b s]; [done|]. destruct (Ascii.eqb a b); [|done]. intros H%IH. cbn. lia.
Qed.

Lemma strip_any_app ps s t r : strip_any ps s = Some r → ∃ r', strip_any ps (s +:+ t) = Some r'.
Proof.
  induction ps as [|p ps IH]; cbn; [done|]. destruct (strip_prefix p s) as [q|] eqn:E.
  - intros _. rewrite (strip_prefix_app _ _ t _ E). eauto.
  - destruct (strip_prefix p (s +:+ t)); eauto.
Qed.

Lemma strip_any_shorter ps s r :
  Forall (λ p, p ≠ "") ps → strip_any ps s = Some r → (String.length r < String.length s)%nat.
Proof.
  induction 1 as [|p ps Hp _ IH]; cbn; [done|].
  destruct (strip_prefix p s) as [q|] eqn:E; [|exact IH]. intros [= <-].
  apply strip_prefix_length in E. destruct p; cbn in *; [done|lia].
Qed.

(** Nothing is left to strip, and what is left is the end of the text. *)
Lemma strip_all_spec ps fuel s :
  Forall (λ p, p ≠ "") ps → (String.length s ≤ fuel)%nat →
  strip_any ps (strip_all fuel ps s) = None ∧ ∃ w, s = w +:+ strip_all fuel ps s.
Proof.
  intros Hps. revert s. induction fuel as [|fuel IH]; intros s Hs.
  - destruct s; [|cbn in Hs; lia]. cbn. split; [|by exists ""].
    destruct (strip_any ps "") as [r|] eqn:E; [|done].
    apply strip_any_shorter in E; [cbn in E; lia|done].
  - cbn [strip_all]. destruct (strip_any ps s) as [r|] eqn:E; [|split; [done|by exists ""]].
    pose proof (strip_any_shorter _ _ _ Hps E). destruct (IH r) as (HN & w & Hw); [lia|].
    split; [done|]. assert (∃ w, s = w +:+ r) as [w' Hr].
    { clear -E. revert E. induction ps as [|p ps IHps]; cbn; [done|].
      destruct (strip_prefix p s) as [q|] eqn:E; [|exact IHps]. intros [= <-]. exists p. clear -E.
      revert s E. induction p as [|a p IH]; intros s; cbn; [by intros [= ->]|].
      destruct s as [|b s]; [done|]. destruct (Ascii.eqb_spec a b) as [->|]; [|done].
      intros H%IH. by rewrite append_cons, H. }
    exists (w' +:+ w). by rewrite append_assoc', <- Hw.
Qed.

Lemma strip_all_none ps fuel s : strip_any ps s = None → strip_all fuel ps s = s.
Proof. intros H. destruct fuel; [done|]. cbn. by rewrite H. Qed.

Lemma whitespace_nonempty : Forall (λ p, p ≠ "") whitespace.
Proof. unfold whitespace. repeat constructor; done. Qed.
Lemma whitespace_rev_nonempty : Forall (λ p, p ≠ "") (map str_rev whitespace).
Proof. unfold whitespace. repeat constructor; done. Qed.

Lemma trim_trim s : trim (trim s) = trim s.
Proof.
  unfold trim at 2 3. set (t := trim_start s). unfold trim_end.
  set (r := strip_all (String.length t) (map str_rev whitespace) (str_rev t)).
  destruct (strip_all_spec whitespace (String.length s) s whitespace_nonempty) as [Ht _]; [lia|].
  fold (trim_start s) in Ht. fold t in Ht.
  assert (String.length (str_rev t) = String.length t) as Hlen.
  { clear. induction t as [|c t IH]; [done|]. rewrite str_rev_cons, length_append, IH. cbn. lia. }
  destruct (strip_all_spec _ (String.length t) (str_rev t) whitespace_rev_nonempty) as (Hr & w & Hw); [lia|].
  fold r in Hr, Hw.
  assert (t = str_rev r +:+ str_rev w) as Ht'.
  { rewrite <- (str_rev_involutive t), Hw. apply str_rev_append. }
  unfold trim, trim_start. rewrite (strip_all_none whitespace _ (str_rev r)).
  - unfold trim_end. rewrite str_rev_involutive. by rewrite strip_all_none.
  - destruct (strip_any whitespace (str_rev r)) as [q|] eqn:E; [|done].
    apply (strip_any_app _ _ (str_rev w)) in E as [q' E]. rewrite <- Ht' in E. congruence.
Qed.

(** A text with visible ends. *)
Lemma trim_ends c s d r : str_rev (String c s) = String d r → visible c = true → visible d = true → trim (String c s) = String c s.
Proof.
  intros Hr Hc Hd. destruct (strip_any_visible c s Hc) as [E1 _]. destruct (strip_any_visible d r Hd) as [_ E2].
  unfold trim, trim_start. rewrite (strip_all_none _ _ _ E1).
  unfold trim_end. rewrite Hr, (strip_all_none _ _ _ E2), <- Hr. apply str_rev_involutive.
Qed.

Lemma leb_common p a b : String.leb (p +:+ a) (p +:+ b) = String.leb a b.
Proof.
  induction p as [|c p IH]; [done|]. rewrite !append_cons. unfold String.leb in *. cbn. unfold Ascii.compare. by rewrite N.compare_refl.
Qed.
