(* ===== verification/Calendar.v ===== *)
(** * Dates

    The calendar of ECMAScript and [Date.prototype.toISOString] over an integer
    number of milliseconds since the epoch. *)

From S2P Require Import Prelude JsText.
From Stdlib Require Import Ascii.

Local Open Scope string_scope.
#[global] Open Scope Z_scope.

(** The proleptic Gregorian calendar of [Date]. *)
Definition leap_year (y : Z) : bool :=
  (y mod 4 =? 0) && (negb (y mod 100 =? 0) || (y mod 400 =? 0)).

Definition days_in_month (y m : Z) : Z :=
  if m =? 2 then (if leap_year y then 29 else 28)
  else if (m =? 4) || (m =? 6) || (m =? 9) || (m =? 11) then 30 else 31.

(** Days since 1970-01-01 in the calendar of ECMAScript. *)
Definition day_of_year (y m : Z) : Z :=
  foldr (fun i acc => days_in_month y i + acc) 0 (seqZ 1 (m - 1)).
Definition day_number (y m d : Z) : Z :=
  365 * (y - 1970) + (y - 1969) / 4 - (y - 1901) / 100 + (y - 1601) / 400 + day_of_year y m + d - 1.

(** The year of a day: the estimate from the mean length of a year is corrected by
    one where it is not the year itself. *)
Definition year_of (d : Z) : Z :=
  let y := 1970 + (d * 400) / 146097 in
  if d <? day_number y 1 1 then y - 1
  else if day_number (y + 1) 1 1 <=? d then y + 1 else y.

Definition month_of (y day : Z) : Z :=
  default 1 (List.find (fun m => day_of_year y m <=? day) [12; 11; 10; 9; 8; 7; 6; 5; 4; 3; 2]).

Definition MS_PER_DAY : Z := 86400000.

Definition padded (k : nat) (z : Z) : string := pad_start k (show_nat z).

(** [YYYY], or six digits after a sign outside of the years 0 to 9999. *)
Definition iso_year (y : Z) : string :=
  if (0 <=? y) && (y <=? 9999) then padded 4 y
  else (if y <? 0 then "-" else "+") +:+ padded 6 (Z.abs y).

Definition toISOString (t : Z) : string :=
  let d := t / MS_PER_DAY in
  let ms := t mod MS_PER_DAY in
  let y := year_of d in
  let day := d - day_number y 1 1 in
  let m := month_of y day in
  iso_year y +:+ "-" +:+ padded 2 m +:+ "-" +:+ padded 2 (day - day_of_year y m + 1) +:+ "T" +:+
  padded 2 (ms / 3600000) +:+ ":" +:+ padded 2 (ms / 60000 mod 60) +:+ ":" +:+
  padded 2 (ms / 1000 mod 60) +:+ "." +:+ padded 3 (ms mod 1000) +:+ "Z".

(** ** A text names one instant *)

Lemma day_number_first y :
  day_number y 1 1 = 365 * (y - 1970) + (y - 1969) / 4 - (y - 1901) / 100 + (y - 1601) / 400.
Proof. unfold day_number. change (day_of_year y 1) with 0. lia. Qed.

Lemma year_of_le d : day_number (year_of d) 1 1 ≤ d.
Proof.
  unfold year_of. set (y := 1970 + (d * 400) / 146097).
  destruct (Z.ltb_spec d (day_number y 1 1)) as [H|H].
  - clear H. rewrite day_number_first. subst y. set (q := d * 400 / 146097).
    pose proof (Z.mul_div_le (d * 400) 146097 eq_refl) as Hq. fold q in Hq. clearbody q.
    pose proof (Z.mul_div_le (1970 + q - 1 - 1969) 4 eq_refl).
    pose proof (Z.mul_succ_div_gt (1970 + q - 1 - 1901) 100 eq_refl).
    pose proof (Z.mul_div_le (1970 + q - 1 - 1601) 400 eq_refl). lia.
  - by destruct (Z.leb_spec (day_number (y + 1) 1 1) d).
Qed.

Lemma month_of_le y day : 0 ≤ day → 1 ≤ month_of y day ∧ day_of_year y (month_of y day) ≤ day.
Proof.
  intros Hd. unfold month_of.
  destruct (List.find (fun m => day_of_year y m <=? day) [12; 11; 10; 9; 8; 7; 6; 5; 4; 3; 2]) as [m|] eqn:E; cbn [default from_option]; unfold id.
  - apply List.find_some in E as [Hin Hm]. apply Z.leb_le in Hm. split; [|done].
    repeat (destruct Hin as [<-|Hin]; [lia|]). destruct Hin.
  - split; [lia|]. exact Hd.
Qed.

Lemma padded_digits k z : 0 ≤ z → all_digits (padded k z) = true ∧ dec_value (padded k z) = z.
Proof.
  intros Hz. unfold padded. split.
  - unfold pad_start. by rewrite all_digits_append, all_digits_zeros, show_nat_digits.
  - by rewrite dec_value_pad_start, dec_value_show_nat.
Qed.

(** Two texts that begin with a number and a separator. *)
Lemma padded_prefix k x y c r1 r2 :
  0 ≤ x → 0 ≤ y → is_digit c = false →
  padded k x +:+ String c r1 = padded k y +:+ String c r2 → x = y ∧ r1 = r2.
Proof.
  intros Hx Hy Hc E. destruct (padded_digits k x Hx) as [Dx Vx]. destruct (padded_digits k y Hy) as [Dy Vy].
  apply (f_equal span_digits) in E. rewrite !span_digits_spec in E by done.
  injection E as E1 E2. by rewrite <- Vx, <- Vy, E1.
Qed.

Lemma iso_year_prefix x y r1 r2 :
  iso_year x +:+ String "-"%char r1 = iso_year y +:+ String "-"%char r2 → x = y ∧ r1 = r2.
Proof.
  assert (∀ k z (r : string), 0 ≤ z → ∃ c s, padded k z +:+ r = String c s ∧ is_digit c = true) as Hhead.
  { intros k z r Hz. destruct (padded_digits k z Hz) as [D V].
    destruct (padded k z) as [|c s] eqn:E.
    - unfold padded, pad_start in E. destruct (k - String.length (show_nat z))%nat; [|done].
      by apply show_nat_nonempty in E.
    - rewrite append_cons. cbn in D. apply andb_true_iff in D as [D _]. eauto. }
  intros E. unfold iso_year in E.
  destruct (_ && _) eqn:Hx in E; destruct (_ && _) eqn:Hy in E; rewrite ?append_assoc' in E; to_prop.
  - apply padded_prefix in E; [done|lia|lia|reflexivity].
  - exfalso. destruct (Hhead 4%nat x (String "-"%char r1)) as (c & s & Ec & Hc); [lia|]. rewrite Ec in E.
    by destruct (y <? 0); rewrite append_cons in E; injection E as -> _.
  - exfalso. destruct (Hhead 4%nat y (String "-"%char r2)) as (c & s & Ec & Hc); [lia|]. rewrite Ec in E.
    by destruct (x <? 0); rewrite append_cons in E; injection E as <- _.
  - destruct (Z.ltb_spec x 0), (Z.ltb_spec y 0); rewrite !append_cons, !append_nil_l in E; try done;
      injection E as E; apply padded_prefix in E as [E ->]; try done; try lia; (split; [lia|done]).
Qed.

Lemma toISOString_inj t u : toISOString t = toISOString u → t = u.
Proof.
  unfold toISOString, MS_PER_DAY. intros E.
  pose proof (Z.mod_pos_bound t 86400000 eq_refl) as Ht. pose proof (Z.mod_pos_bound u 86400000 eq_refl) as Hu.
  pose proof (Z.div_mod t 86400000 ltac:(lia)) as Et. pose proof (Z.div_mod u 86400000 ltac:(lia)) as Eu.
  set (dt := t / 86400000) in *. set (du := u / 86400000) in *.
  set (mt := t mod 86400000) in *. set (mu := u mod 86400000) in *.
  pose proof (year_of_le dt) as Yt. pose proof (year_of_le du) as Yu.
  destruct (month_of_le (year_of dt) (dt - day_number (year_of dt) 1 1)) as [Mt Dt]; [lia|].
  destruct (month_of_le (year_of du) (du - day_number (year_of du) 1 1)) as [Mu Du]; [lia|].


  apply iso_year_prefix in E as [Ey E].
  apply padded_prefix in E as [Em E]; [|lia|lia|reflexivity].
  apply padded_prefix in E as [Ed E]; [|lia|lia|reflexivity].
  apply padded_prefix in E as [Eh E]; [|Z.to_euclidean_division_equations; lia..|reflexivity].
  apply padded_prefix in E as [Emi E]; [|Z.to_euclidean_division_equations; lia..|reflexivity].
  apply padded_prefix in E as [Es E]; [|Z.to_euclidean_division_equations; lia..|reflexivity].
  apply padded_prefix in E as [Ems _]; [|Z.to_euclidean_division_equations; lia..|reflexivity].
  rewrite <- Ey in *. rewrite Em in Ed. assert (dt = du) as Edd by lia.
  assert (mt = mu) as Emm; [|lia].
  clear - Eh Emi Es Ems Ht Hu.
  assert (mt / 60000 = 60 * (mt / 3600000) + mt / 60000 mod 60) by (Z.to_euclidean_division_equations; lia).
  assert (mu / 60000 = 60 * (mu / 3600000) + mu / 60000 mod 60) by (Z.to_euclidean_division_equations; lia).
  assert (mt / 1000 = 60 * (mt / 60000) + mt / 1000 mod 60) by (Z.to_euclidean_division_equations; lia).
  assert (mu / 1000 = 60 * (mu / 60000) + mu / 1000 mod 60) by (Z.to_euclidean_division_equations; lia).
  pose proof (Z.div_mod mt 1000 ltac:(lia)). pose proof (Z.div_mod mu 1000 ltac:(lia)). lia.
Qed.

Example iso_texts : map toISOString [0; 951782400000; 1721817600123; -1; 253402300800000] =
  ["1970-01-01T00:00:00.000Z"; "2000-02-29T00:00:00.000Z"; "2024-07-24T10:40:00.123Z";
   "1969-12-31T23:59:59.999Z"; "+010000-01-01T00:00:00.000Z"].
Proof. vm_compute. reflexivity. Qed.
