(* ===== verification/CanonicalJson.v ===== *)
(** * Canonical JSON and digests

    [src/messaging/canonicalJson.ts]: the text every manifest, trace and
    request digest of the program is taken over, and [src/lib/hash.ts].

    Numbers are the integers the program hashes, or [None] for NaN and the
    infinities, which the code rejects. The digest itself (node's SHA-256) is a
    parameter, the [Platform] class. *)

From S2P Require Import Prelude JsText.
From Stdlib Require Import Ascii.

Local Open Scope string_scope.
#[global] Open Scope Z_scope.

(** ** The parts of the platform the program calls *)

Class Platform : Type := {
  (** [createHash('sha256').update(s).digest('hex')] *)
  sha256Hex : string → string;
  (** [Date.parse(s)], [None] for [NaN]. *)
  dateParse : string → option Z;
  (** [a.localeCompare(b) <= 0], the collation of the host. *)
  localeLe : string → string → bool;
}.

(** What the documentation of those functions promises. *)
Class PlatformLaws `(Platform) : Prop := {
  sha256Hex_shape s :
    String.length (sha256Hex s) = 64%nat ∧
    str_forallb (fun c => is_digit c || ((97 <=? code c) && (code c <=? 102)))
                (sha256Hex s) = true;
  localeLe_total a b : localeLe a b = true ∨ localeLe b a = true;
  localeLe_trans a b c : localeLe a b = true → localeLe b c = true → localeLe a c = true;
}.

(** ** Values *)

Inductive json : Type :=
| JNull
| JBool (b : bool)
| JNum (n : option Z)
| JStr (s : string)
| JArr (items : list json)
| JObj (entries : list (string * json)).

Definition jstr_opt (o : option string) : json :=
  match o with Some s => JStr s | None => JNull end.
Definition jint (z : Z) : json := JNum (Some z).
Definition jint_opt (o : option Z) : json :=
  match o with Some z => jint z | None => JNull end.
Definition jbool_opt (o : option bool) : json :=
  match o with Some b => JBool b | None => JNull end.

(** [JSON.stringify] of a string. *)
Definition hex_digit (d : Z) : ascii :=
  ascii_of_N (Z.to_N (if d <? 10 then 48 + d else 87 + d)).

Definition chr (z : Z) : string := String (ascii_of_N (Z.to_N z)) "".
Definition quote : string := chr 34.

Definition escape_char (c : ascii) : string :=
  let z := code c in
  if z =? 34 then chr 92 +:+ quote
  else if z =? 92 then chr 92 +:+ chr 92
  else if z =? 8 then chr 92 +:+ "b"
  else if z =? 9 then chr 92 +:+ "t"
  else if z =? 10 then chr 92 +:+ "n"
  else if z =? 12 then chr 92 +:+ "f"
  else if z =? 13 then chr 92 +:+ "r"
  else if z <? 32 then
    chr 92 +:+ "u00" +:+ String (hex_digit (z / 16)) (String (hex_digit (z mod 16)) "")
  else String c "".

Fixpoint escape (s : string) : string :=
  match s with
  | EmptyString => ""
  | String c s => escape_char c +:+ escape s
  end.

Definition json_string (s : string) : string := quote +:+ escape s +:+ quote.

(** [.join(',')] *)
Fixpoint join_comma (l : list string) : string :=
  match l with
  | [] => ""
  | [s] => s
  | s :: l => s +:+ "," +:+ join_comma l
  end.

(** ** canonical

    [left < right ? -1 : left > right ? 1 : 0] on the keys. *)
Definition key_le {A} (x y : string * A) : bool := String.leb x.1 y.1.

Fixpoint mapM_result {E A B} (f : A → result E B) (l : list A) : result E (list B) :=
  match l with
  | [] => Ok []
  | a :: l => b ← f a; bs ← mapM_result f l; Ok (b :: bs)
  end.

Definition entry_text (p : string * string) : string := json_string p.1 +:+ ":" +:+ p.2.

Fixpoint canonical (v : json) : result js_error string :=
  match v with
  | JNull => Ok "null"
  | JBool b => Ok (if b then "true" else "false")
  | JStr s => Ok (json_string s)
  | JNum None => Throw (TypeError "Canonical JSON rejects non-finite numbers")
  | JNum (Some z) => Ok (show_Z z)
  | JArr items =>
      texts ← mapM_result canonical items;
      Ok ("[" +:+ join_comma texts +:+ "]")
  | JObj entries =>
      texts ← mapM_result (fun p => t ← canonical p.2; Ok (p.1, t)) entries;
      Ok ("{" +:+ join_comma (map entry_text (sort_by key_le texts)) +:+ "}")
  end.

Definition canonicalJson (v : json) : result js_error string := canonical v.

Definition canonicalJsonSha256 `{Platform} (v : json) : result js_error string :=
  t ← canonicalJson v; Ok (sha256Hex t).

(** ** What the canonical text identifies

    [norm] sorts every object by key; [print] writes a value as it stands.
    The canonical text is [print] of [norm], and [print] is injective, so two
    values have one canonical text exactly when they are equal up to the order
    of their keys. *)

Section JsonInd.
Variable P : json → Prop.
Hypothesis HNull : P JNull.
Hypothesis HBool : ∀ b, P (JBool b).
Hypothesis HNum : ∀ n, P (JNum n).
Hypothesis HStr : ∀ s, P (JStr s).
Hypothesis HArr : ∀ l, Forall P l → P (JArr l).
Hypothesis HObj : ∀ es, Forall (fun p => P p.2) es → P (JObj es).

Fixpoint json_nested_ind (v : json) : P v :=
  match v with
  | JNull => HNull
  | JBool b => HBool b
  | JNum n => HNum n
  | JStr s => HStr s
  | JArr l =>
      HArr l ((fix go l : Forall P l :=
                 match l with
                 | [] => Forall_nil_2 _
                 | v :: l => Forall_cons_2 _ _ _ (json_nested_ind v) (go l)
                 end) l)
  | JObj es =>
      HObj es ((fix go es : Forall (fun p => P p.2) es :=
                  match es with
                  | [] => Forall_nil_2 _
                  | p :: es => Forall_cons_2 _ _ _ (json_nested_ind p.2) (go es)
                  end) es)
  end.
End JsonInd.

Fixpoint finite (v : json) : bool :=
  match v with
  | JNum None => false
  | JArr l => forallb finite l
  | JObj es => forallb (fun p => finite p.2) es
  | _ => true
  end.

Lemma finite_jint_opt o : finite (jint_opt o) = true.
Proof. by destruct o. Qed.
Lemma finite_jstr_opt o : finite (jstr_opt o) = true.
Proof. by destruct o. Qed.

Fixpoint norm (v : json) : json :=
  match v with
  | JArr l => JArr (map norm l)
  | JObj es => JObj (sort_by key_le (map (fun p => (p.1, norm p.2)) es))
  | _ => v
  end.

Fixpoint print (v : json) : string :=
  match v with
  | JNull => "null"
  | JBool b => if b then "true" else "false"
  | JNum None => ""
  | JNum (Some z) => show_Z z
  | JStr s => json_string s
  | JArr l => "[" +:+ join_comma (map print l) +:+ "]"
  | JObj es => "{" +:+ join_comma (map (fun p => entry_text (p.1, print p.2)) es) +:+ "}"
  end.

Lemma insert_by_key_map {A B} (f : A → B) p l :
  insert_by key_le (p.1, f p.2) (map (fun q => (q.1, f q.2)) l) =
  map (fun q => (q.1, f q.2)) (insert_by key_le p l).
Proof.
  induction l as [|q l IH]; cbn; [done|].
  change (key_le (p.1, f p.2) (q.1, f q.2)) with (key_le p q).
  destruct (key_le p q); cbn; [done|]. by rewrite IH.
Qed.

Lemma sort_by_key_map {A B} (f : A → B) (l : list (string * A)) :
  sort_by key_le (map (fun q => (q.1, f q.2)) l) =
  map (fun q => (q.1, f q.2)) (sort_by key_le l).
Proof.
  induction l as [|p l IH]; [done|]. cbn [map].
  rewrite !sort_by_cons, IH. apply insert_by_key_map.
Qed.

Lemma mapM_result_Ok {E A B} (f : A → result E B) (g : A → B) l :
  Forall (fun a => f a = Ok (g a)) l → mapM_result f l = Ok (map g l).
Proof. induction 1 as [|a l Ha Hl IH]; cbn; [done|]. by rewrite Ha, IH. Qed.

(** The canonical text never fails on finite numbers, and is [print ∘ norm]. *)
Lemma canonical_print v :
  finite v = true → canonical v = Ok (print (norm v)).
Proof.
  induction v as [|b|[z|]|s|l IH|es IH] using json_nested_ind; cbn; intros Hf; try done.
  - rewrite (mapM_result_Ok _ (fun v => print (norm v))).
    + cbn. by rewrite map_map.
    + apply forallb_Forall in Hf. rewrite !Forall_forall in *. auto.
  - rewrite (mapM_result_Ok _ (fun p => (p.1, print (norm p.2)))).
    + cbn. by rewrite (sort_by_key_map (fun v => print (norm v))), (sort_by_key_map norm), !map_map.
    + apply forallb_Forall in Hf. rewrite !Forall_forall in *.
      intros x Hx. by rewrite IH by auto.
Qed.

Lemma canonical_not_finite v e : canonical v = Throw e → finite v = false.
Proof.
  intros H. destruct (finite v) eqn:E; [|done]. by rewrite canonical_print in H.
Qed.

(** *** [print] is a prefix code *)

Definition decode_char (s : string) : option (ascii * string) :=
  match s with
  | String c r =>
      if code c =? 92 then
        match r with
        | String "b" r => Some (ascii_of_N 8, r)
        | String "t" r => Some (ascii_of_N 9, r)
        | String "n" r => Some (ascii_of_N 10, r)
        | String "f" r => Some (ascii_of_N 12, r)
        | String "r" r => Some (ascii_of_N 13, r)
        | String "u" (String _ (String _ (String h (String l r)))) =>
            let d c := if code c <? 58 then code c - 48 else code c - 87 in
            Some (ascii_of_N (Z.to_N (16 * d h + d l)), r)
        | String c r => Some (c, r)
        | EmptyString => None
        end
      else Some (c, r)
  | EmptyString => None
  end.

Lemma decode_escape c r : decode_char (escape_char c +:+ r) = Some (c, r).
Proof. destruct c as [[] [] [] [] [] [] [] []]; reflexivity. Qed.

Lemma escape_char_not_quote c s r : escape_char c +:+ s ≠ quote +:+ r.
Proof. destruct c as [[] [] [] [] [] [] [] []]; discriminate. Qed.

Lemma escape_prefix s t r1 r2 :
  escape s +:+ quote +:+ r1 = escape t +:+ quote +:+ r2 → s = t ∧ r1 = r2.
Proof.
  revert t. induction s as [|c s IH]; intros [|d t]; cbn [escape];
    rewrite ?append_nil_l, ?append_assoc'; intros E.
  - split; [done|]. by injection E.
  - symmetry in E. by apply escape_char_not_quote in E.
  - by apply escape_char_not_quote in E.
  - apply (f_equal decode_char) in E. rewrite !decode_escape in E.
    injection E as -> E. apply IH in E as [-> ->]. done.
Qed.

Lemma json_string_prefix s t r1 r2 :
  json_string s +:+ r1 = json_string t +:+ r2 → s = t ∧ r1 = r2.
Proof.
  unfold json_string. rewrite !append_assoc'. intros E. injection E as E.
  by apply escape_prefix.
Qed.

(** A text that may follow a value: nothing, or a separator. *)
Definition stop (r : string) : bool :=
  match r with
  | EmptyString => true
  | String c _ => (code c =? 44) || (code c =? 93) || (code c =? 125)
  end.

Lemma stop_not_digit r :
  stop r = true → match r with EmptyString => True | String c _ => is_digit c = false end.
Proof.
  destruct r as [|c r]; [done|]. unfold stop, is_digit. intros H.
  apply not_true_iff_false. rewrite andb_true_iff, !Z.leb_le.
  rewrite !orb_true_iff, !Z.eqb_eq in H. lia.
Qed.

Lemma show_nat_prefix m n r1 r2 :
  0 ≤ m → 0 ≤ n → stop r1 = true → stop r2 = true →
  show_nat m +:+ r1 = show_nat n +:+ r2 → m = n ∧ r1 = r2.
Proof.
  intros Hm Hn H1 H2 E. apply (f_equal span_digits) in E.
  rewrite !span_digits_spec in E by (apply show_nat_digits || apply stop_not_digit; done).
  injection E as E ->. split; [|done]. by apply show_nat_inj.
Qed.

Lemma show_nat_head n : 0 ≤ n → ∃ c s, show_nat n = String c s ∧ is_digit c = true.
Proof.
  intros Hn. destruct (show_nat_spec n Hn) as (Hd & _ & Hl).
  destruct (show_nat n) as [|c s]; [cbn in Hl; lia|].
  exists c, s. cbn in Hd. apply andb_true_iff in Hd. tauto.
Qed.

Lemma show_Z_prefix m n r1 r2 :
  stop r1 = true → stop r2 = true →
  show_Z m +:+ r1 = show_Z n +:+ r2 → m = n ∧ r1 = r2.
Proof.
  intros H1 H2. unfold show_Z.
  destruct (Z.ltb_spec m 0), (Z.ltb_spec n 0); rewrite ?append_assoc'; intros E.
  - injection E as E. apply show_nat_prefix in E as [? ->]; [|lia..|done|done].
    split; [lia|done].
  - destruct (show_nat_head n) as (c & s & Hc & Hd); [lia|]. rewrite Hc in E.
    injection E as <- _. discriminate Hd.
  - destruct (show_nat_head m) as (c & s & Hc & Hd); [lia|]. rewrite Hc in E.
    injection E as -> _. discriminate Hd.
  - by apply show_nat_prefix.
Qed.

(** The first character tells the shape of a value. *)
Definition head_code (s : string) : Z :=
  match s with EmptyString => -1 | String c _ => code c end.

Definition shape_of (s : string) : Z :=
  let h := head_code s in
  if (h =? 45) || ((48 <=? h) && (h <=? 57)) then 48 else h.

Lemma shape_append s t : s ≠ "" → shape_of (s +:+ t) = shape_of s.
Proof. by destruct s. Qed.

Lemma shape_show_Z z : shape_of (show_Z z) = 48 ∧ show_Z z ≠ "".
Proof.
  unfold show_Z. destruct (Z.ltb_spec z 0) as [Hz|Hz]; [split; [done|discriminate]|].
  destruct (show_nat_head z Hz) as (c & s & -> & Hd). split; [|done].
  unfold shape_of, head_code. unfold is_digit in Hd. by rewrite Hd, orb_true_r.
Qed.

Definition shape (v : json) : Z :=
  match v with
  | JNull => 110
  | JBool b => if b then 116 else 102
  | JNum _ => 48
  | JStr _ => 34
  | JArr _ => 91
  | JObj _ => 123
  end.

Lemma print_shape v : finite v = true → shape_of (print v) = shape v ∧ print v ≠ "".
Proof. destruct v as [|[]|[z|]| | |]; cbn; try done. intros _. apply shape_show_Z. Qed.

Section Join.
Context {A : Type} (text : A → string) (good : A → Prop).

Definition prefix_code (x : A) : Prop :=
  ∀ y r1 r2, good y → stop r1 = true → stop r2 = true →
    text x +:+ r1 = text y +:+ r2 → x = y ∧ r1 = r2.

Definition opens (x : A) : Prop := text x ≠ "" ∧ stop (text x) = false.

Lemma join_comma_prefix (close : string) l l' r1 r2 :
  close = "]" ∨ close = "}" →
  Forall prefix_code l → Forall opens l → Forall opens l' → Forall good l' →
  join_comma (map text l) +:+ close +:+ r1 = join_comma (map text l') +:+ close +:+ r2 →
  l = l' ∧ r1 = r2.
Proof.
  intros Hc. assert (Hs : ∀ r, stop (close +:+ r) = true) by (by destruct Hc as [-> | ->]).
  assert (Ho : ∀ x t r, opens x → text x +:+ t ≠ close +:+ r).
  { intros x t r [Hne Hx] E. specialize (Hs r). rewrite <- E in Hs.
    destruct (text x); [done|]. rewrite append_cons in Hs. cbn in *. congruence. }
  assert (Hj : ∀ x m r, join_comma (map text (x :: m)) +:+ close +:+ r =
                        text x +:+ (match m with [] => "" | _ => "," end +:+
                                    join_comma (map text m) +:+ close +:+ r)).
  { intros x [|y m] r; [by rewrite !append_nil_l|].
    change (join_comma (map text (x :: y :: m)))
      with (text x +:+ "," +:+ join_comma (map text (y :: m))).
    by rewrite !append_assoc'. }
  revert l'. induction l as [|x l IH]; intros [|y l'] Hl Hol Hol' Hg E.
  - split; [done|]. destruct Hc as [-> | ->]; by injection E.
  - rewrite Hj in E. symmetry in E. apply Ho in E; [done|]. by inversion Hol'.
  - rewrite Hj in E. apply Ho in E; [done|]. by inversion Hol.
  - rewrite !Hj in E. inversion Hl; inversion Hol; inversion Hol'; inversion Hg; subst.
    assert (∀ m r, stop (match m with [] => "" | _ => "," end +:+
                         join_comma (map text m) +:+ close +:+ r) = true) as Hst.
    { intros [|? ?] ?; [apply Hs|done]. }
    match goal with Hp : prefix_code x, Hy : good y |- _ =>
      destruct (Hp y _ _ Hy (Hst _ _) (Hst _ _) E) as [-> E'] end.
    destruct l as [|x' l], l' as [|y' l']; cbn [map] in E'.
    + split; [done|]. rewrite !append_nil_l in E'.
      destruct Hc as [-> | ->]; by injection E'.
    + exfalso. rewrite append_nil_l in E'. destruct Hc as [-> | ->]; discriminate.
    + exfalso. rewrite append_nil_l in E'. destruct Hc as [-> | ->]; discriminate.
    + injection E' as E'. destruct (IH (y' :: l')) as [-> ->]; try done.
Qed.
End Join.

Definition json_good (v : json) : Prop := finite v = true.

Lemma print_opens v : finite v = true → opens print v.
Proof.
  intros Hf. destruct (print_shape v Hf) as [Hs Hne]. split; [done|].
  destruct (print v) as [|c s]; [done|]. unfold shape_of, head_code in Hs. cbn.
  apply not_true_iff_false. rewrite !orb_true_iff, !Z.eqb_eq. intros Hc.
  assert (code c = shape v) as E.
  { destruct Hc as [[Hc|Hc]|Hc]; rewrite Hc in Hs; exact (eq_trans Hc Hs). }
  destruct v as [|[]| | | |]; cbn in E; lia.
Qed.

Lemma print_prefix v : finite v = true → prefix_code print json_good v.
Proof.
  induction v as [|b|n|s|l IH|es IH] using json_nested_ind; intros Hv w r1 r2 Hw H1 H2 E.
  all: pose proof (f_equal shape_of E) as Es; unfold json_good in Hw;
    destruct (print_shape _ Hv) as [Sv Nv], (print_shape _ Hw) as [Sw Nw];
    rewrite !shape_append, Sv, Sw in Es by done.
  all: destruct w as [|b'|n'|s'|l'|es']; cbn [shape] in Es;
    try (by destruct b); try (by destruct b'); try done.
  - split; [done|]. by injection E.
  - destruct b, b'; try done; (split; [done|]; by injection E).
  - destruct n as [z|], n' as [z'|]; try done. cbn [print] in E.
    apply show_Z_prefix in E as [-> ->]; done.
  - cbn [print] in E. by apply json_string_prefix in E as [-> ->].
  - cbn [print] in E. rewrite !append_assoc' in E. injection E as E.
    cbn [finite] in Hv, Hw. apply forallb_Forall in Hv, Hw.
    apply (join_comma_prefix print json_good) in E as [-> ->]; [done|by left|..].
    + rewrite !Forall_forall in *. auto.
    + eapply Forall_impl; [exact Hv|]. intros. by apply print_opens.
    + eapply Forall_impl; [exact Hw|]. intros. by apply print_opens.
    + exact Hw.
  - cbn [print] in E. rewrite !append_assoc' in E. injection E as E.
    cbn [finite] in Hv, Hw. apply forallb_Forall in Hv, Hw.
    apply (join_comma_prefix (fun p => entry_text (p.1, print p.2)) (fun p => json_good p.2))
      in E as [-> ->]; [done|by right|..].
    + rewrite !Forall_forall in *. intros [k v] Hin [k' v'] t1 t2 Hg Ht1 Ht2 E'.
      unfold entry_text in E'. cbn in E'. rewrite !append_assoc' in E'.
      apply json_string_prefix in E' as [-> E']. injection E' as E'.
      apply (IH _ Hin (Hv _ Hin)) in E' as [E' ->]; [|done..]. cbn in E'. by subst.
    + apply Forall_true. intros [k v]. done.
    + apply Forall_true. intros [k v]. done.
    + exact Hw.
Qed.

Lemma print_inj v w : finite v = true → finite w = true → print v = print w → v = w.
Proof.
  intros Hv Hw E. apply (print_prefix v Hv w "" ""); try done.
  by rewrite !append_nil_r.
Qed.

Lemma finite_norm v : finite (norm v) = finite v.
Proof.
  induction v as [| |[]| |l IH|es IH] using json_nested_ind; cbn; try done.
  - induction IH as [|x l Hx _ IHl]; cbn; [done|]. by rewrite Hx, IHl.
  - transitivity (forallb (fun p => finite p.2) (map (fun p => (p.1, norm p.2)) es)).
    + apply Bool.eq_iff_eq_true. rewrite !forallb_Forall. by rewrite sort_by_perm.
    + induction IH as [|x es Hx _ IHl]; cbn; [done|]. by rewrite Hx, IHl.
Qed.

Lemma canonical_norm v w :
  finite v = true → finite w = true →
  canonicalJson v = canonicalJson w ↔ norm v = norm w.
Proof.
  intros Hv Hw. unfold canonicalJson. rewrite !canonical_print by done. split.
  - intros [= E]. apply print_inj in E; [done|..]; by rewrite finite_norm.
  - by intros ->.
Qed.

(** *** Key order *)

Lemma key_le_total {A} (x y : string * A) : key_le x y = true ∨ key_le y x = true.
Proof. apply String.leb_total. Qed.

Lemma key_le_trans {A} (x y z : string * A) :
  key_le x y = true → key_le y z = true → key_le x z = true.
Proof.
  unfold key_le. rewrite <- !Is_true_true. apply (transitivity (R := String.le)).
Qed.

Lemma NoDup_fst_inj {A} (l : list (string * A)) x y :
  NoDup (map fst l) → x ∈ l → y ∈ l → x.1 = y.1 → x = y.
Proof.
  induction l as [|z l IH]; cbn; [by intros _ ?%elem_of_nil|].
  rewrite NoDup_cons. intros [Hz Hl].
  assert (∀ p, p ∈ l → p.1 = z.1 → False) as Hne.
  { intros p Hp E. apply Hz. rewrite <- E. apply list_elem_of_fmap. by exists p. }
  rewrite !elem_of_cons. intros [->|Hx] [->|Hy] E; eauto; exfalso; eauto.
Qed.

Lemma sort_keys_perm {A} (l l' : list (string * A)) :
  NoDup (map fst l) → l ≡ₚ l' → sort_by key_le l = sort_by key_le l'.
Proof.
  intros Hnd. apply sort_by_perm_eq; [apply key_le_total|apply key_le_trans|].
  intros x y Hx Hy H1 H2. apply (NoDup_fst_inj l); [done..|].
  by apply String.leb_antisym.
Qed.

(** Equality of JSON values up to the order of keys, at any depth. *)
#[export] Instance json_equiv : Equiv json := fun v w => norm v = norm w.
#[export] Instance json_equiv_equivalence : Equivalence (≡@{json}).
Proof.
  unfold equiv, json_equiv.
  split; [intros ?|intros ???|intros ?????]; congruence.
Qed.

Lemma JObj_perm es es' :
  NoDup (map fst es) → es ≡ₚ es' → JObj es ≡ JObj es'.
Proof.
  intros Hnd Hp. unfold equiv, json_equiv. cbn. f_equal. apply sort_keys_perm.
  - rewrite map_map. exact Hnd.
  - by apply Permutation_map.
Qed.

(** Equal objects have equal members. *)
Lemma JObj_entry es es' k v w :
  JObj es ≡ JObj es' → NoDup (map fst es') → (k, v) ∈ es → (k, w) ∈ es' → v ≡ w.
Proof.
  unfold equiv, json_equiv. cbn. intros [= E] Hnd Hv Hw.
  assert ((k, norm v) ∈ map (fun p => (p.1, norm p.2)) es') as H.
  { rewrite <- (sort_by_elem key_le), <- E, sort_by_elem. apply list_elem_of_fmap. by exists (k, v). }
  apply list_elem_of_fmap in H as ([k' v'] & [= <- ->] & Hv').
  by pose proof (NoDup_fst_inj es' (k, v') (k, w) Hnd Hv' Hw eq_refl) as [= ->].
Qed.

(** On scalars there is no other equality. *)
Definition scalar (v : json) : Prop := norm v = v.

Lemma scalar_equiv v w : scalar v → scalar w → v ≡ w → v = w.
Proof. unfold scalar, equiv, json_equiv. congruence. Qed.

Lemma scalar_str s : scalar (JStr s). Proof. done. Qed.
Lemma scalar_bool b : scalar (JBool b). Proof. done. Qed.
Lemma scalar_str_opt o : scalar (jstr_opt o). Proof. by destruct o. Qed.
Lemma scalar_int_opt o : scalar (jint_opt o). Proof. by destruct o. Qed.
Lemma jstr_opt_inj o o' : jstr_opt o = jstr_opt o' → o = o'.
Proof. destruct o, o'; cbn; congruence. Qed.
Lemma jint_opt_inj o o' : jint_opt o = jint_opt o' → o = o'.
Proof. destruct o, o'; unfold jint_opt, jint; congruence. Qed.
#[export] Hint Resolve scalar_str scalar_bool scalar_str_opt scalar_int_opt : kaudit.

#[export] Instance JArr_proper : Proper (Forall2 (≡) ==> (≡)) JArr.
Proof.
  intros l l' H. unfold equiv, json_equiv. cbn. f_equal.
  induction H as [|x y l l' Hx Hl IH]; cbn; [done|]. by rewrite Hx, IH.
Qed.

#[export] Instance canonicalJson_proper :
  Proper ((fun v w => finite v = true ∧ finite w = true ∧ v ≡ w) ==> (=)) canonicalJson.
Proof. intros v w (Hv & Hw & E). by apply canonical_norm. Qed.

(** Two values have the same canonical text exactly when they are the same
    value up to the order of their object keys: the text does not depend on key
    order, and it never conflates two different values. *)
Theorem canonicalJson_identifies (v w : json) :
  finite v = true → finite w = true →
  canonicalJson v = canonicalJson w ↔ v ≡ w.
Proof. intros Hv Hw. by apply canonical_norm. Qed.

Lemma canonicalJson_identifies_witness :
  let v := JObj [("b", jint 1); ("a", JArr [JNull; JStr "x"])] in
  let w := JObj [("a", JArr [JNull; JStr "x"]); ("b", jint 1)] in
  canonicalJson v = canonicalJson w.
Proof.
  intros v w. apply (canonicalJson_identifies v w); vm_compute; reflexivity.
Defined.

(** The digest of a value: what the identity checks of the program compare. *)
Section Digest.
Context `{P : Platform}.

Lemma canonicalJsonSha256_ok v :
  finite v = true → canonicalJsonSha256 v = Ok (sha256Hex (print (norm v))).
Proof. intros Hv. unfold canonicalJsonSha256, canonicalJson. by rewrite canonical_print. Qed.

(** One digest means one value, or an explicit SHA-256 collision between the
    two canonical texts. *)
Lemma digest_identifies v w h :
  finite v = true → finite w = true →
  canonicalJsonSha256 v = Ok h → canonicalJsonSha256 w = Ok h →
  v ≡ w ∨
  (print (norm v) ≠ print (norm w) ∧
   sha256Hex (print (norm v)) = sha256Hex (print (norm w))).
Proof.
  intros Hv Hw. rewrite !canonicalJsonSha256_ok by done. intros [= <-] [= E].
  destruct (decide (print (norm v) = print (norm w))) as [Ep|Ep]; [left|by right].
  apply print_inj in Ep; [done|..]; by rewrite finite_norm.
Qed.

Lemma digest_equiv v w :
  finite v = true → finite w = true → v ≡ w →
  canonicalJsonSha256 v = canonicalJsonSha256 w.
Proof. intros Hv Hw E. rewrite !canonicalJsonSha256_ok by done. by rewrite E. Qed.
End Digest.

(** A concrete platform for evaluation: a toy digest with the shape of
    SHA-256, the byte order as collation, and a date parser that accepts the
    [YYYY-MM-DD...] texts of the source. *)
Definition demo_hex (z : Z) : string :=
  foldr (fun i acc => String (hex_digit (z / 16 ^ i mod 16)) acc) "" (seqZ 0 64).

Fixpoint demo_digest (acc : Z) (s : string) : Z :=
  match s with
  | EmptyString => acc
  | String c s => demo_digest ((acc * 257 + code c + 1) mod 2 ^ 64) s
  end.

Definition demo_date (s : string) : option Z :=
  if (10 <=? len s) && all_digits (str_take 4 s) then Some (dec_value (str_take 4 s))
  else None.

Definition demo_platform : Platform :=
  {| sha256Hex := fun s => demo_hex (demo_digest 7 s);
     dateParse := demo_date;
     localeLe := String.leb |}.

Lemma demo_platform_laws : PlatformLaws demo_platform.
Proof.
  split.
  - intros s. cbn. generalize (demo_digest 7 s). intros z. unfold demo_hex.
    assert (∀ l, String.length (foldr (fun i acc => String (hex_digit (z / 16 ^ i mod 16)) acc) "" l)
                 = length l ∧
            str_forallb (fun c => is_digit c || ((97 <=? code c) && (code c <=? 102)))
              (foldr (fun i acc => String (hex_digit (z / 16 ^ i mod 16)) acc) "" l) = true) as H.
    { induction l as [|i l [IH1 IH2]]; [done|]. cbn [foldr String.length str_forallb].
      rewrite IH1, IH2. split; [done|]. rewrite andb_true_r.
      pose proof (Z.mod_pos_bound (z / 16 ^ i) 16 ltac:(lia)) as Hb.
      unfold is_digit, hex_digit, code.
      destruct (Z.ltb_spec (z / 16 ^ i mod 16) 10); rewrite N_ascii_embedding by lia;
        rewrite orb_true_iff, !andb_true_iff, !Z.leb_le; lia. }
    apply H.
  - apply String.leb_total.
  - intros a b c. cbn. rewrite <- !Is_true_true. apply (transitivity (R := String.le)).
Qed.
