(* ===== verification/Decimal.v ===== *)
(** * Fixed-precision decimals for display

    [src/ui/decimal.ts]: DECIMAL(20,8) texts of the database as integers scaled
    by 1e8 (BigInt is [Z]), their subtraction, comparison and formatting. *)

From S2P Require Import Prelude JsText.
From Stdlib Require Import Ascii.

Local Open Scope string_scope.
#[global] Open Scope Z_scope.

Definition SCALE_DIGITS : nat := 8.

Definition starts_with_minus (t : string) : bool :=
  match t with String c _ => Ascii.eqb c "-" | EmptyString => false end.

(** [t.replace(/^[+-]/, '')] *)
Definition drop_sign (t : string) : string :=
  match t with
  | String c r => if Ascii.eqb c "-" || Ascii.eqb c "+" then r else t
  | EmptyString => t
  end.

Definition toScaled (s : option string) : option Z :=
  match s with
  | None => None
  | Some s =>
      let t := trim s in
      if bool_decide (t = "") then None
      else
        let neg := starts_with_minus t in
        match split_decimal (drop_sign t) with
        | None => None
        | Some (i, f) =>
            let frac := str_take SCALE_DIGITS (from_null "" f +:+ zeros SCALE_DIGITS) in
            let v := dec_value (i +:+ frac) in
            Some (if neg then - v else v)
        end
  end.

Definition fromScaled (v : Z) : string :=
  let neg := v <? 0 in
  let abs := pad_start (SCALE_DIGITS + 1) (show_nat (if neg then - v else v)) in
  let i := slice_but_last SCALE_DIGITS abs in
  let f := strip_trailing_zeros (slice_last SCALE_DIGITS abs) in
  (if neg then "-" else "") +:+ i +:+ (if bool_decide (f = "") then "" else "." +:+ f).

Definition subtract (a b : option string) : option string :=
  match toScaled a, toScaled b with
  | Some sa, Some sb => Some (fromScaled (sa - sb))
  | _, _ => None
  end.

Inductive Trend : Type := up | down | flat | unknown.

Definition trend (current prior : option string) : Trend :=
  match toScaled current, toScaled prior with
  | Some c, Some p => if p <? c then up else if c <? p then down else flat
  | _, _ => unknown
  end.

Definition trendWithDeadband (current prior : option string) (deadbandBasisPoints : Z) : Trend :=
  match toScaled current, toScaled prior with
  | Some c, Some p =>
      if p =? 0 then (if c =? 0 then flat else if 0 <? c then up else down)
      else
        let delta := if p <? c then c - p else p - c in
        let threshold := Z.quot ((if p <? 0 then - p else p) * deadbandBasisPoints) 10000 in
        if delta <=? threshold then flat else if p <? c then up else down
  | _, _ => unknown
  end.

(** [rupees.toLocaleString('en-IN')]: the last three digits, then pairs. *)
Fixpoint group_pairs (fuel : nat) (s : string) : string :=
  match fuel with
  | O => s
  | S fuel =>
      if len s <=? 2 then s
      else group_pairs fuel (slice_but_last 2 s) +:+ "," +:+ slice_last 2 s
  end.

Definition locale_en_IN (n : Z) : string :=
  let s := show_nat n in
  if len s <=? 3 then s
  else group_pairs (String.length s) (slice_but_last 3 s) +:+ "," +:+ slice_last 3 s.

Definition formatMoney (s : option string) (currency : string) : string :=
  match toScaled s with
  | None => "—"
  | Some scaled =>
      let neg := scaled <? 0 in
      let abs := if neg then - scaled else scaled in
      let hundredths := (abs + 500000) / 1000000 in
      let rupees := hundredths / 100 in
      let paise := pad_start 2 (show_nat (hundredths mod 100)) in
      (if neg then "-" else "") +:+ currency +:+ " " +:+ locale_en_IN rupees +:+ "." +:+ paise
  end.

Example formatMoney_example : formatMoney (Some "82450.004") "INR" = "INR 82,450.00".
Proof. vm_compute. reflexivity. Qed.

(** ** Facts *)

(** The scaled digits of a magnitude, cut at the point. *)
Lemma scaled_digits_value n :
  0 ≤ n →
  let abs := pad_start (SCALE_DIGITS + 1) (show_nat n) in
  all_digits (slice_but_last SCALE_DIGITS abs) = true ∧
  slice_but_last SCALE_DIGITS abs ≠ "" ∧
  all_digits (slice_last SCALE_DIGITS abs) = true ∧
  String.length (slice_last SCALE_DIGITS abs) = SCALE_DIGITS ∧
  dec_value (slice_but_last SCALE_DIGITS abs +:+ slice_last SCALE_DIGITS abs) = n.
Proof.
  intros Hn abs.
  assert (all_digits abs = true) as Ha.
  { unfold abs, pad_start. rewrite all_digits_append, all_digits_zeros, show_nat_digits; done. }
  assert (9 ≤ String.length abs)%nat as Hl.
  { unfold abs. rewrite length_pad_start. unfold SCALE_DIGITS. lia. }
  split_and!.
  - by apply all_digits_take.
  - intros E. pose proof (length_slice_but_last SCALE_DIGITS abs) as H. rewrite E in H.
    cbn in H. unfold SCALE_DIGITS in *. lia.
  - by apply all_digits_drop.
  - apply length_slice_last. unfold SCALE_DIGITS. lia.
  - rewrite slices_app. unfold abs. by rewrite dec_value_pad_start, dec_value_show_nat.
Qed.

Lemma all_visible_append s t : all_visible (s +:+ t) = all_visible s && all_visible t.
Proof. apply str_forallb_append. Qed.

(** The grammar [toScaled] reads: an unsigned decimal text and its sign. *)
Lemma toScaled_unsigned i f :
  all_digits i = true → i ≠ "" → all_digits f = true → f ≠ "" →
  toScaled (Some (i +:+ "." +:+ f)) =
  Some (dec_value (i +:+ str_take SCALE_DIGITS (f +:+ zeros SCALE_DIGITS))).
Proof.
  intros Hi Hne Hf Hfne. unfold toScaled.
  rewrite trim_visible.
  2: { rewrite !all_visible_append, (all_digits_visible i), (all_digits_visible f) by done. done. }
  destruct i as [|c i]; [done|]. rewrite !append_cons.
  rewrite bool_decide_eq_false_2 by done.
  assert (Ascii.eqb c "-" = false ∧ Ascii.eqb c "+" = false) as [E1 E2].
  { cbn in Hi. apply andb_true_iff in Hi as [Hc _].
    split; apply not_true_iff_false; intros ->%Ascii.eqb_eq; discriminate. }
  unfold drop_sign, starts_with_minus. rewrite E1, E2. cbn [orb].
  by rewrite <- !append_cons, split_decimal_point.
Qed.

Lemma toScaled_unsigned_whole i :
  all_digits i = true → i ≠ "" → toScaled (Some i) = Some (dec_value (i +:+ zeros SCALE_DIGITS)).
Proof.
  intros Hi Hne. unfold toScaled. rewrite trim_visible by by apply all_digits_visible.
  rewrite bool_decide_eq_false_2 by done.
  assert (starts_with_minus i = false ∧ drop_sign i = i) as [-> ->].
  { destruct i as [|c i]; [done|]. cbn in Hi. apply andb_true_iff in Hi as [Hc _].
    unfold starts_with_minus, drop_sign.
    destruct (Ascii.eqb_spec c "-") as [->|]; [discriminate Hc|].
    destruct (Ascii.eqb_spec c "+") as [->|]; [discriminate Hc|]. done. }
  rewrite split_decimal_whole by done. reflexivity.
Qed.

Lemma toScaled_minus t v :
  toScaled (Some t) = Some v → all_visible t = true →
  match t with String c _ => is_digit c = true | EmptyString => False end →
  toScaled (Some ("-" +:+ t)) = Some (- v).
Proof.
  unfold toScaled. intros H Hv Ht.
  rewrite trim_visible in H by done.
  rewrite trim_visible by by rewrite all_visible_append, Hv.
  destruct t as [|c t]; [done|].
  assert (Ascii.eqb c "-" = false ∧ Ascii.eqb c "+" = false) as [E1 E2].
  { split; apply not_true_iff_false; intros ->%Ascii.eqb_eq; discriminate Ht. }
  rewrite bool_decide_eq_false_2 in * by done.
  rewrite append_cons, append_nil_l.
  unfold starts_with_minus, drop_sign in *. rewrite E1, E2 in H. rewrite Ascii.eqb_refl.
  cbn [orb] in *.
  revert H. destruct (split_decimal (String c t)) as [[i f]|]; [|done].
  by intros [= <-].
Qed.

(** The text [fromScaled] writes for a magnitude. *)
Definition magnitude_text (n : Z) : string :=
  let abs := pad_start (SCALE_DIGITS + 1) (show_nat n) in
  let f := strip_trailing_zeros (slice_last SCALE_DIGITS abs) in
  slice_but_last SCALE_DIGITS abs +:+ (if bool_decide (f = "") then "" else "." +:+ f).

Lemma toScaled_magnitude n :
  0 ≤ n →
  toScaled (Some (magnitude_text n)) = Some n ∧ all_visible (magnitude_text n) = true ∧
  match magnitude_text n with String c _ => is_digit c = true | EmptyString => False end.
Proof.
  intros Hn. destruct (scaled_digits_value n Hn) as (Hi & Hne & Hf & Hl & Hv).
  unfold magnitude_text. cbn zeta in *.
  set (abs := pad_start _ _) in *. set (i := slice_but_last _ abs) in *.
  set (f := slice_last _ abs) in *. clearbody i f.
  assert (∀ r, match i +:+ r with String c _ => is_digit c = true | "" => False end) as Hh.
  { intros r. destruct i as [|c i]; [done|]. rewrite append_cons.
    cbn in Hi. by apply andb_true_iff in Hi as [? _]. }
  assert (str_take SCALE_DIGITS (strip_trailing_zeros f +:+ zeros SCALE_DIGITS) = f) as Ht.
  { rewrite <- Hl. apply strip_pad_take. }
  pose proof (all_digits_strip f Hf) as Hsf.
  case_bool_decide as Ef.
  - rewrite append_nil_r. rewrite Ef, append_nil_l in Ht.
    rewrite toScaled_unsigned_whole by done.
    replace (zeros SCALE_DIGITS) with f by (rewrite <- Ht; reflexivity).
    rewrite Hv. split_and!; [done|by apply all_digits_visible|].
    rewrite <- (append_nil_r i). apply Hh.
  - rewrite toScaled_unsigned by done. rewrite Ht, Hv. split_and!; [done| |apply Hh].
    rewrite !all_visible_append, (all_digits_visible i), (all_digits_visible _ Hsf); done.
Qed.

(** [fromScaled] is a section of [toScaled]: no money is lost in display text. *)
Lemma toScaled_fromScaled v : toScaled (Some (fromScaled v)) = Some v.
Proof.
  unfold fromScaled. destruct (Z.ltb_spec v 0) as [Hv|Hv].
  - change (toScaled (Some ("-" +:+ magnitude_text (- v))) = Some v).
    destruct (toScaled_magnitude (- v)) as (H1 & H2 & H3); [lia|].
    rewrite (toScaled_minus _ _ H1 H2 H3). f_equal. lia.
  - rewrite append_nil_l. apply (toScaled_magnitude v). lia.
Qed.

Lemma fromScaled_inj v w : fromScaled v = fromScaled w → v = w.
Proof.
  intros E. pose proof (toScaled_fromScaled v) as H. rewrite E, toScaled_fromScaled in H.
  congruence.
Qed.

(** [fromScaled] followed by [toScaled] is the identity on every scaled
    amount, so [subtract] is exact: the text it returns denotes the difference
    of the two amounts, sign included, with no rounding. *)
Theorem subtract_exact (a b : string) (va vb : Z) :
  toScaled (Some a) = Some va → toScaled (Some b) = Some vb →
  ∃ t, subtract (Some a) (Some b) = Some t ∧ toScaled (Some t) = Some (va - vb).
Proof.
  intros Ha Hb. exists (fromScaled (va - vb)). unfold subtract. rewrite Ha, Hb.
  split; [done|apply toScaled_fromScaled].
Qed.

Lemma subtract_exact_witness :
  ∃ t, subtract (Some "10.00") (Some "12.5") = Some t ∧ toScaled (Some t) = Some (- 250000000).
Proof.
  exact (subtract_exact "10.00" "12.5" 1000000000 1250000000 eq_refl eq_refl).
Defined.

(** The dead-band trend never reports a direction that contradicts the
    plain comparison, and it is flat exactly when the movement is within the
    given basis points of the prior magnitude (rounded down). *)
Theorem trendWithDeadband_sound (a b : string) (c p bps : Z) :
  toScaled (Some a) = Some c → toScaled (Some b) = Some p → 0 ≤ bps → p ≠ 0 →
  (trendWithDeadband (Some a) (Some b) bps = flat ↔ 10000 * Z.abs (c - p) ≤ Z.abs p * bps) ∧
  (trendWithDeadband (Some a) (Some b) bps ≠ flat →
   trendWithDeadband (Some a) (Some b) bps = trend (Some a) (Some b)).
Proof.
  intros Ha Hb Hbps Hp. unfold trendWithDeadband, trend. rewrite Ha, Hb.
  rewrite (proj2 (Z.eqb_neq p 0)) by done.
  assert (0 ≤ (if p <? 0 then - p else p)) as Hn by zcases.
  assert ((if p <? 0 then - p else p) = Z.abs p) as -> by zcases.
  rewrite Z.quot_div_nonneg by (try lia; apply Z.mul_nonneg_nonneg; lia).
  assert ((if p <? c then c - p else p - c) = Z.abs (c - p)) as -> by zcases.
  assert (0 ≤ Z.abs p * bps) by (apply Z.mul_nonneg_nonneg; lia).
  pose proof (Z.div_mod (Z.abs p * bps) 10000 ltac:(lia)).
  pose proof (Z.mod_pos_bound (Z.abs p * bps) 10000 ltac:(lia)).
  destruct (Z.leb_spec (Z.abs (c - p)) (Z.abs p * bps / 10000)).
  - split; [split; [lia|done]|done].
  - split; [split; [|lia]|]; destruct (Z.ltb_spec p c), (Z.ltb_spec c p); try done; lia.
Qed.

Lemma trendWithDeadband_sound_witness :
  trendWithDeadband (Some "101") (Some "100") 200 = flat.
Proof.
  apply (proj2 (proj1 (trendWithDeadband_sound "101" "100" 10100000000 10000000000 200
                         eq_refl eq_refl ltac:(lia) ltac:(lia)))). lia.
Defined.

(** ** Fixed-scale texts *)

Lemma toScaled_split s w o :
  split_decimal s = Some (w, o) →
  toScaled (Some s) = Some (dec_value (w +:+ str_take SCALE_DIGITS (from_null "" o +:+ zeros SCALE_DIGITS))).
Proof.
  intros H. apply split_decimal_inv in H as (Hw & Hne & H). destruct o as [f|].
  - destruct H as (-> & Hf & Hfne). by rewrite toScaled_unsigned.
  - subst s. by rewrite toScaled_unsigned_whole.
Qed.

Lemma str_take_exact n f : String.length f = n → str_take n (f +:+ zeros n) = f.
Proof. intros <-. apply str_take_app. Qed.

Lemma toScaled_show_fixed8 v : 0 ≤ v → toScaled (Some (show_fixed 8 v)) = Some v.
Proof.
  intros Hv. erewrite toScaled_split by (apply split_show_fixed; [lia|done]).
  destruct (fixed_fraction 8 ltac:(lia) v) as (_ & Hl & _).
  unfold SCALE_DIGITS. cbn [from_null default from_option id].
  rewrite str_take_exact by done. by rewrite show_fixed_value by lia.
Qed.
