(* ===== verification/KserveRules.v ===== *)
(** * The locked KServe rate and rounding rules

    [src/billing/kserveRules.ts] and the rounding layer of
    [src/billing/calculateVerifiedCharge.ts]: from an adjusted chargeable
    duration to billable half-minutes, paise and their decimal texts. *)

From S2P Require Import Prelude JsNumber JsText CanonicalJson Decimal.

Local Open Scope string_scope.
#[global] Open Scope Z_scope.

Definition KSERVE_BILLING_ENGINE_VERSION : string := "kserve-verified-billing/1.1.0".
Definition KSERVE_RULESET_VERSION : string := "2026-07-27.1".
Definition KSERVE_RATE_PER_MINUTE_PAISE : Z := 950.
Definition KSERVE_SHORT_CALL_CUTOFF_MS : Z := 30000.
Definition KSERVE_WRAP_UP_GRACE_MS : Z := 60000.
Definition KSERVE_ONE_WAY_TAIL_ALERT_MS : Z := 60000.
Definition KSERVE_MINUTE_MS : Z := 60000.

Definition KSERVE_RULESET_DOCUMENT : json :=
  JObj [
    ("schemaVersion", JStr "1");
    ("rulesetVersion", JStr KSERVE_RULESET_VERSION);
    ("currency", JStr "INR");
    ("ratePerMinute", JStr "9.50000000");
    ("shortCall", JObj [
      ("condition", JStr "0 < adjusted_chargeable_ms < 30000");
      ("billableMinutes", JStr "0.50000000");
      ("amount", JStr "4.75000000");
      ("ruleCode", JStr "SHORT_CALL_FLAT")]);
    ("zeroDuration", JObj [
      ("condition", JStr "adjusted_chargeable_ms = 0");
      ("billableMinutes", JStr "0.00000000");
      ("amount", JStr "0.00000000");
      ("ruleCode", JStr "ZERO_DURATION_NOT_BILLED")]);
    ("minuteRounding", JObj [
      ("condition", JStr "adjusted_chargeable_ms >= 30000");
      ("operation", JStr "ceil(adjusted_chargeable_ms / 60000)");
      ("ruleCode", JStr "PER_MINUTE_CEIL")]);
    ("chargeableDuration", JObj [
      ("operation",
       JStr "min(recorded_duration_ms, last_meaningful_customer_exchange_ms + 60000)");
      ("wrapUpGraceMs", jint KSERVE_WRAP_UP_GRACE_MS)]);
    ("oneWayTail", JObj [
      ("operation", JStr "max(0, recorded_duration_ms - adjusted_chargeable_duration_ms)");
      ("alertWhen", JStr "one_way_tail_ms > 60000");
      ("alertThresholdMs", jint KSERVE_ONE_WAY_TAIL_ALERT_MS)]);
    ("tax", JObj [
      ("scope", JStr "invoice");
      ("perCallTax", JStr "0.00000000")]);
    ("contractReference", JStr "KServe AI Voicebot Service Agreement — Schedule B");
    ("approvedDecisionDate", JStr "2026-07-27")].

(** The value of a module-level [const x = canonicalJsonSha256(DOC)]: a throw
    would stop the module from loading, so on a finite document it is the digest. *)
Definition module_digest `{Platform} (doc : json) : string :=
  match canonicalJsonSha256 doc with Ok h => h | Throw _ => "" end.

Lemma module_digest_ok `{Platform} doc :
  finite doc = true → canonicalJsonSha256 doc = Ok (module_digest doc).
Proof. intros Hf. unfold module_digest. by rewrite canonicalJsonSha256_ok. Qed.

Definition KSERVE_RULESET_SHA256 `{Platform} : string := module_digest KSERVE_RULESET_DOCUMENT.

(** ** Guards *)

Definition requireText (value name : string) : result js_error unit :=
  throw_if (blank value) (TypeError (name +:+ " is required")).

Definition is_lower_hex (c : Ascii.ascii) : bool :=
  is_digit c || ((97 <=? code c) && (code c <=? 102)).

(** [/^[a-f0-9]{64}$/.test(value)] *)
Definition is_sha256 (value : string) : bool :=
  (String.length value =? 64)%nat && str_forallb is_lower_hex value.

Definition requireSha256 (value name : string) : result js_error unit :=
  throw_if (negb (is_sha256 value))
    (TypeError (name +:+ " must be a lowercase SHA-256 hex value")).

Definition requireMilliseconds (value : option Z) (name : string) (nullable : bool)
    : result js_error unit :=
  match value with
  | None =>
      throw_if (negb nullable)
        (RangeError (name +:+ " must be a non-negative safe integer"))
  | Some v =>
      throw_if (negb (isSafeInteger v) || (v <? 0))
        (RangeError (name +:+ " must be a non-negative safe integer"))
  end.

#[global] Arguments requireMilliseconds : simpl never.

(** ** Money and minutes as text *)

Definition fixed8FromPaise (paise : Z) : result js_error string :=
  if paise <? 0 then Throw (RangeError "Money cannot be negative")
  else
    let rupees := Z.quot paise 100 in
    let paisePart := pad_start 2 (show_Z (Z.rem paise 100)) in
    Ok (show_Z rupees +:+ "." +:+ paisePart +:+ "000000").

Definition fixed8FromHalfMinutes (halfMinutes : Z) : string :=
  let whole := Z.quot halfMinutes 2 in
  show_Z whole +:+ "." +:+
  (if Z.rem halfMinutes 2 =? 0 then "00000000" else "50000000").

(** ** Rounding *)

Inductive RuleCode : Type :=
| ZERO_DURATION_NOT_BILLED
| SHORT_CALL_FLAT
| PER_MINUTE_CEIL.

#[export] Instance RuleCode_eq_dec : EqDecision RuleCode.
Proof. solve_decision. Defined.

Definition ruleCode_text (r : RuleCode) : string :=
  match r with
  | ZERO_DURATION_NOT_BILLED => "ZERO_DURATION_NOT_BILLED"
  | SHORT_CALL_FLAT => "SHORT_CALL_FLAT"
  | PER_MINUTE_CEIL => "PER_MINUTE_CEIL"
  end.

Record RoundedCharge : Type := {
  billableHalfMinutes : Z;
  billableDurationMs : Z;
  billableMinutes : string;
  amountPaise : Z;
  amount : string;
  ruleCode : RuleCode;
}.

(** The charge for a whole number of billable half-minutes. *)
Definition chargeForHalfMinutes (halfMinutes : Z) : result js_error RoundedCharge :=
  let ruleCode :=
    if halfMinutes =? 0 then ZERO_DURATION_NOT_BILLED
    else if halfMinutes =? 1 then SHORT_CALL_FLAT
    else PER_MINUTE_CEIL in
  let amountPaise := Z.quot (halfMinutes * KSERVE_RATE_PER_MINUTE_PAISE) 2 in
  let billableDurationMs := num_of_bigint (halfMinutes * (KSERVE_MINUTE_MS / 2)) in
  if negb (isSafeInteger billableDurationMs) then
    Throw (RangeError "Rounded billable duration exceeds safe integer range")
  else
    amount ← fixed8FromPaise amountPaise;
    Ok {| billableHalfMinutes := halfMinutes;
          billableDurationMs := billableDurationMs;
          billableMinutes := fixed8FromHalfMinutes halfMinutes;
          amountPaise := amountPaise;
          amount := amount;
          ruleCode := ruleCode |}.

Definition roundKServeChargeableDuration (adjustedChargeableDurationMs : Z)
    : result js_error RoundedCharge :=
  requireMilliseconds (Some adjustedChargeableDurationMs)
    "adjustedChargeableDurationMs" false ≫= fun _ =>
  let halfMinutes :=
    if adjustedChargeableDurationMs =? 0 then 0
    else if adjustedChargeableDurationMs <? KSERVE_SHORT_CALL_CUTOFF_MS then 1
    else
      let minutes :=
        Z.quot (adjustedChargeableDurationMs + KSERVE_MINUTE_MS - 1) KSERVE_MINUTE_MS in
      minutes * 2 in
  chargeForHalfMinutes halfMinutes.

Example round_30000 :
  roundKServeChargeableDuration 30000 =
  Ok {| billableHalfMinutes := 2; billableDurationMs := 60000;
        billableMinutes := "1.00000000"; amountPaise := 950;
        amount := "9.50000000"; ruleCode := PER_MINUTE_CEIL |}.
Proof. vm_compute. reflexivity. Qed.

(** ** Facts: texts *)

Lemma fixed8FromPaise_Ok p : 0 ≤ p → fixed8FromPaise p = Ok (show_fixed 2 p +:+ "000000").
Proof.
  intros Hp. unfold fixed8FromPaise. rewrite (proj2 (Z.ltb_ge p 0)) by done.
  unfold show_fixed. change (10 ^ Z.of_nat 2) with 100.
  rewrite Z.quot_div_nonneg, Z.rem_mod_nonneg by lia.
  assert (0 ≤ p / 100) by (apply Z.div_pos; lia).
  pose proof (Z.mod_pos_bound p 100 ltac:(lia)).
  assert (Hs : ∀ z, 0 ≤ z → show_Z z = show_nat z).
  { intros z Hz. unfold show_Z. by rewrite (proj2 (Z.ltb_ge z 0)). }
  rewrite !Hs by lia. by rewrite !append_assoc'.
Qed.

(** An amount text denotes its paise, at the scale of the database column. *)
Lemma toScaled_paise p :
  0 ≤ p → toScaled (Some (show_fixed 2 p +:+ "000000")) = Some (p * 1000000).
Proof.
  intros Hp. unfold show_fixed.
  assert (0 ≤ p / 10 ^ Z.of_nat 2) as Hq by (apply Z.div_pos; lia).
  destruct (fixed_fraction 2 ltac:(lia) p) as (Hf & Hl & _).
  pose proof (show_fixed_value 2 ltac:(lia) p Hp) as Hv.
  set (f := pad_start 2 _) in *. rewrite !append_assoc'.
  rewrite toScaled_unsigned; auto with kaudit.
  - f_equal. unfold SCALE_DIGITS.
    replace (str_take 8 ((f +:+ "000000") +:+ zeros 8)) with (f +:+ "000000").
    + rewrite <- append_assoc', dec_value_append, Hv. change (10 ^ len "000000") with 1000000.
      change (dec_value "000000") with 0. lia.
    + symmetry. replace 8%nat with (String.length (f +:+ "000000")) at 1 by
        (rewrite length_append, Hl; done). apply str_take_app.
  - rewrite all_digits_append, Hf. done.
  - intros E. apply (f_equal String.length) in E. rewrite length_append, Hl in E. discriminate.
Qed.

Lemma fixed8FromPaise_value p t :
  fixed8FromPaise p = Ok t → 0 ≤ p ∧ toScaled (Some t) = Some (p * 1000000).
Proof.
  intros H. assert (0 ≤ p) as Hp.
  { unfold fixed8FromPaise in H. destruct (Z.ltb_spec p 0); [discriminate|lia]. }
  rewrite fixed8FromPaise_Ok in H by done. injection H as <-. split; [done|].
  by apply toScaled_paise.
Qed.

Lemma toScaled_halfMinutes h :
  0 ≤ h → toScaled (Some (fixed8FromHalfMinutes h)) = Some (h * 50000000).
Proof.
  intros Hh. unfold fixed8FromHalfMinutes.
  rewrite Z.quot_div_nonneg, Z.rem_mod_nonneg by lia.
  assert (0 ≤ h / 2) as Hq by (apply Z.div_pos; lia).
  pose proof (Z.div_mod h 2 ltac:(lia)). pose proof (Z.mod_pos_bound h 2 ltac:(lia)).
  assert (show_Z (h / 2) = show_nat (h / 2)) as ->.
  { unfold show_Z. by rewrite (proj2 (Z.ltb_ge (h / 2) 0)). }
  rewrite toScaled_unsigned; auto with kaudit; [|by destruct (_ =? _)..].
  f_equal. rewrite dec_value_append, dec_value_show_nat by done.
  destruct (Z.eqb_spec (h mod 2) 0).
  - change (str_take SCALE_DIGITS ("00000000" +:+ zeros SCALE_DIGITS)) with "00000000".
    change (10 ^ len "00000000") with 100000000. change (dec_value "00000000") with 0. lia.
  - change (str_take SCALE_DIGITS ("50000000" +:+ zeros SCALE_DIGITS)) with "50000000".
    change (10 ^ len "50000000") with 100000000. change (dec_value "50000000") with 50000000. lia.
Qed.

(** ** Facts: rounding *)

(** The billable half-minutes of a chargeable duration: none for 0 ms, one
    below the short-call cutoff, otherwise whole minutes rounded up. *)
Definition half_minutes (ms : Z) : Z :=
  if ms =? 0 then 0 else if ms <? 30000 then 1 else 2 * ((ms + 59999) / 60000).

Definition rule_of (h : Z) : RuleCode :=
  if h =? 0 then ZERO_DURATION_NOT_BILLED else if h =? 1 then SHORT_CALL_FLAT
  else PER_MINUTE_CEIL.

(** The charge of [h] half-minutes: 475 paise each. *)
Definition charge_of (h : Z) : RoundedCharge :=
  {| billableHalfMinutes := h;
     billableDurationMs := 30000 * h;
     billableMinutes := fixed8FromHalfMinutes h;
     amountPaise := 475 * h;
     amount := show_fixed 2 (475 * h) +:+ "000000";
     ruleCode := rule_of h |}.

Lemma chargeForHalfMinutes_spec h :
  0 ≤ h →
  chargeForHalfMinutes h =
    if 30000 * h <=? MAX_SAFE_INTEGER then Ok (charge_of h)
    else Throw (RangeError "Rounded billable duration exceeds safe integer range").
Proof.
  intros Hh. unfold chargeForHalfMinutes. change (KSERVE_MINUTE_MS / 2) with 30000.
  unfold num_of_bigint. rewrite isSafeInteger_round53 by lia.
  assert (isSafeInteger (h * 30000) = (30000 * h <=? MAX_SAFE_INTEGER)) as E.
  { unfold isSafeInteger. rewrite Z.abs_eq by lia. f_equal. lia. }
  destruct (isSafeInteger (h * 30000)) eqn:E'; rewrite <- E; cbn [negb]; [|done].
  change KSERVE_RATE_PER_MINUTE_PAISE with 950.
  replace (Z.quot (h * 950) 2) with (475 * h).
  2: { rewrite Z.quot_div_nonneg by lia.
       apply Z.div_unique with (r := 0); lia. }
  rewrite fixed8FromPaise_Ok by lia. cbn. unfold charge_of.
  rewrite round53_safe by done. do 2 f_equal. lia.
Qed.

Lemma half_minutes_bounds ms :
  0 ≤ ms → 0 ≤ half_minutes ms ∧
  ms ≤ 30000 * half_minutes ms ∧ 30000 * half_minutes ms < ms + 60000.
Proof.
  intros Hms. unfold half_minutes.
  pose proof (Z.div_mod (ms + 59999) 60000 ltac:(lia)).
  pose proof (Z.mod_pos_bound (ms + 59999) 60000 ltac:(lia)). zcases.
Qed.

Lemma half_minutes_mono a b : 0 ≤ a ≤ b → half_minutes a ≤ half_minutes b.
Proof.
  intros Hab. unfold half_minutes.
  pose proof (Z.div_le_mono (a + 59999) (b + 59999) 60000 ltac:(lia) ltac:(lia)).
  pose proof (Z.div_le_lower_bound (b + 59999) 60000 1 ltac:(lia)). zcases.
Qed.

Lemma round_spec ms :
  0 ≤ ms ≤ MAX_SAFE_INTEGER →
  roundKServeChargeableDuration ms = chargeForHalfMinutes (half_minutes ms).
Proof.
  intros Hms. unfold roundKServeChargeableDuration, requireMilliseconds.
  assert (isSafeInteger ms = true) as -> by (apply isSafeInteger_spec; lia).
  rewrite (proj2 (Z.ltb_ge ms 0)) by lia. cbn.
  f_equal. unfold half_minutes.
  change KSERVE_SHORT_CALL_CUTOFF_MS with 30000.
  change KSERVE_MINUTE_MS with 60000.
  rewrite Z.quot_div_nonneg by lia.
  replace (ms + 60000 - 1) with (ms + 59999) by lia. zcases.
Qed.

Lemma round_Ok ms r :
  roundKServeChargeableDuration ms = Ok r →
  0 ≤ ms ≤ MAX_SAFE_INTEGER ∧ 30000 * half_minutes ms ≤ MAX_SAFE_INTEGER ∧
  r = charge_of (half_minutes ms).
Proof.
  intros H. assert (0 ≤ ms ≤ MAX_SAFE_INTEGER) as Hms.
  { unfold roundKServeChargeableDuration, requireMilliseconds in H. bind_ok.
    to_prop. rewrite isSafeInteger_spec in *. lia. }
  rewrite round_spec in H by done.
  pose proof (half_minutes_bounds ms ltac:(lia)).
  rewrite chargeForHalfMinutes_spec in H by lia.
  destruct (Z.leb_spec (30000 * half_minutes ms) MAX_SAFE_INTEGER); bind_ok. done.
Qed.

Lemma rule_of_half_minutes ms :
  0 ≤ ms →
  (rule_of (half_minutes ms) = ZERO_DURATION_NOT_BILLED ↔ ms = 0) ∧
  (rule_of (half_minutes ms) = SHORT_CALL_FLAT ↔ 0 < ms < 30000).
Proof.
  intros Hms. unfold half_minutes.
  destruct (Z.eqb_spec ms 0) as [->|]; [split; split; (done || lia)|].
  destruct (Z.ltb_spec ms 30000); [split; split; (done || lia)|].
  assert (1 ≤ (ms + 59999) / 60000) by (apply Z.div_le_lower_bound; lia).
  unfold rule_of.
  rewrite (proj2 (Z.eqb_neq _ 0)), (proj2 (Z.eqb_neq _ 1)) by lia.
  split; split; (done || lia).
Qed.

#[export] Hint Resolve half_minutes_bounds half_minutes_mono : kaudit.

(** The rounding layer charges a duration [ms] for [half_minutes ms]
    half-minutes, never less than the duration and less than one minute more;
    the amount is 4.75 rupees per half-minute, its decimal texts denote
    exactly the paise and the minutes charged, and the only failure of a
    valid duration is leaving the safe-integer range. *)
Theorem roundKServeChargeableDuration_correct (ms : Z) :
  0 ≤ ms ≤ MAX_SAFE_INTEGER - 60000 →
  ∃ r, roundKServeChargeableDuration ms = Ok r ∧
    billableHalfMinutes r = half_minutes ms ∧
    ms ≤ billableDurationMs r < ms + 60000 ∧
    billableDurationMs r = 30000 * billableHalfMinutes r ∧
    amountPaise r = 475 * billableHalfMinutes r ∧
    toScaled (Some (amount r)) = Some (amountPaise r * 1000000) ∧
    toScaled (Some (billableMinutes r)) = Some (billableHalfMinutes r * 50000000) ∧
    (ruleCode r = ZERO_DURATION_NOT_BILLED ↔ ms = 0) ∧
    (ruleCode r = SHORT_CALL_FLAT ↔ 0 < ms < 30000).
Proof.
  intros Hms. exists (charge_of (half_minutes ms)).
  pose proof (half_minutes_bounds ms ltac:(lia)) as (Hh & Hlo & Hhi).
  rewrite round_spec, chargeForHalfMinutes_spec by lia.
  rewrite (proj2 (Z.leb_le (30000 * half_minutes ms) MAX_SAFE_INTEGER)) by lia.
  cbn [billableHalfMinutes billableDurationMs amountPaise amount billableMinutes ruleCode charge_of].
  rewrite toScaled_paise, toScaled_halfMinutes by lia.
  pose proof (rule_of_half_minutes ms ltac:(lia)) as (H0 & H1). split_and!; done.
Qed.

Lemma roundKServeChargeableDuration_correct_witness :
  ∃ r, roundKServeChargeableDuration 61000 = Ok r ∧ amountPaise r = 1900 ∧
       toScaled (Some (amount r)) = Some 1900000000.
Proof.
  destruct (roundKServeChargeableDuration_correct 61000) as (r & H1 & H2 & _ & _ & H3 & H4 & _).
  { unfold MAX_SAFE_INTEGER. lia. }
  exists r. rewrite H4, H3, H2. split; [exact H1|]. split; reflexivity.
Defined.
