(* ===== verification/ReauditTypes.v ===== *)
(** * The data of the re-audit

    [src/reaudit/types.ts]: the twelve call categories, transcripts, and the
    classification a model returns. *)

From S2P Require Import Prelude JsNumber JsText CanonicalJson.

Local Open Scope string_scope.
#[global] Open Scope Z_scope.

Inductive ReauditCategory : Type :=
| TIME_DURATION
| AGENT_FAILURE
| CONNECT_NOT_FRUITFUL
| INACTIVE_CALL
| INCORRECT_CALL_DURATION
| AI_CONVERSATION_HANDLING
| VOICEMAIL
| AI_TO_AI
| NETWORK_FAILURE_TELECOM
| USER_SILENCE
| JUNK_CALL
| OK.

#[export] Instance ReauditCategory_eq_dec : EqDecision ReauditCategory.
Proof. solve_decision. Defined.

Definition REAUDIT_CATEGORIES : list ReauditCategory :=
  [TIME_DURATION; AGENT_FAILURE; CONNECT_NOT_FRUITFUL; INACTIVE_CALL;
   INCORRECT_CALL_DURATION; AI_CONVERSATION_HANDLING; VOICEMAIL; AI_TO_AI;
   NETWORK_FAILURE_TELECOM; USER_SILENCE; JUNK_CALL; OK].

Definition category_text (c : ReauditCategory) : string :=
  match c with
  | TIME_DURATION => "TIME_DURATION"
  | AGENT_FAILURE => "AGENT_FAILURE"
  | CONNECT_NOT_FRUITFUL => "CONNECT_NOT_FRUITFUL"
  | INACTIVE_CALL => "INACTIVE_CALL"
  | INCORRECT_CALL_DURATION => "INCORRECT_CALL_DURATION"
  | AI_CONVERSATION_HANDLING => "AI_CONVERSATION_HANDLING"
  | VOICEMAIL => "VOICEMAIL"
  | AI_TO_AI => "AI_TO_AI"
  | NETWORK_FAILURE_TELECOM => "NETWORK_FAILURE_TELECOM"
  | USER_SILENCE => "USER_SILENCE"
  | JUNK_CALL => "JUNK_CALL"
  | OK => "OK"
  end.

Lemma elem_of_REAUDIT_CATEGORIES c : c ∈ REAUDIT_CATEGORIES.
Proof. destruct c; unfold REAUDIT_CATEGORIES; set_solver. Qed.

#[export] Instance category_text_inj : Inj (=) (=) category_text.
Proof. intros [] []; (reflexivity || discriminate). Qed.

(** [categoryOf text]: membership of a text in [REAUDIT_CATEGORIES]. *)
Definition category_of_text (s : string) : option ReauditCategory :=
  head (filter (fun c => category_text c = s) REAUDIT_CATEGORIES).

Lemma category_of_text_text c : category_of_text (category_text c) = Some c.
Proof. by destruct c. Qed.

(** The two shapes of an agent failure; the source's third value is [null]. *)
Inductive FailureMode : Type := mode_start | mode_mid_conversation.

#[export] Instance FailureMode_eq_dec : EqDecision FailureMode.
Proof. solve_decision. Defined.

Definition failureMode_text (m : FailureMode) : string :=
  match m with mode_start => "start" | mode_mid_conversation => "mid_conversation" end.

Record TranscriptSegment : Type := {
  startMs : Z;
  endMs : Z;
  text : string;
}.

Record NaturalSpeechBlock : Type := {
  number : Z;
  block_startMs : Z;
  block_endMs : Z;
  block_text : string;
}.

(** The model that produced a transcript or a classification. *)
Record ModelIdentity : Type := {
  provider : string;
  model_name : string;
  model_version : string;
}.

Record AiUsage : Type := {
  inputTokens : option Z;
  outputTokens : option Z;
  totalTokens : option Z;
  audioSeconds : option dyadic;
  requestId : option string;
}.

Record TranscriptionResult : Type := {
  ts_model : ModelIdentity;
  ts_language : string;
  ts_durationMs : Z;
  ts_speechMs : Z;
  ts_text : string;
  ts_segments : list TranscriptSegment;
  ts_usage : option AiUsage;
}.

Record ReauditCandidate : Type := {
  rc_callId : string;
  rc_artifactId : string;
  sourceUrl : string;
  baselineSha256 : option string;
  rc_claimedDurationMs : option Z;
  rc_connectedDurationMs : option Z;
  vendorBilledMinutes : option string;
}.

(** The model's decision signals: JSON values, [None] when absent. They are
    checked at run time, so any JSON value is a possible input. *)
Record ClassificationDecisionSignals : Type := {
  counterpartyType : option json;
  agentHandling : option json;
  conversationOutcome : option json;
  durationOutcome : option json;
  stopIntent : option json;
  postStopBehavior : option json;
  successfulOutcome : option json;
  voicemailEvidence : option json;
  automationEvidence : option json;
  junkEvidence : option json;
  sg_agentFailureMode : option json;
  sg_meaningfulServiceBeforeFailure : option json;
}.

(** A classification, over the type [C] of its category: [string] as the model
    returned it, [ReauditCategory] once validated. Block numbers are integers,
    which the response schema requires. *)
Record ModelClassification (C : Type) : Type := {
  mc_model : ModelIdentity;
  mc_category : C;
  mc_confidence : string;
  customerBlockNumbers : list Z;
  unclearBlockNumbers : list Z;
  voicemailEvidenceBlockNumbers : option (list Z);
  automationEvidenceBlockNumbers : option (list Z);
  junkEvidenceBlockNumbers : option (list Z);
  businessRelevantCustomerBlockNumbers : option (list Z);
  customerSpoke : bool;
  mc_lastMeaningfulCustomerExchangeMs : option Z;
  mc_lastMeaningfulAgentExchangeMs : option Z;
  mc_firstAgentTurnEndMs : option Z;
  mc_lastVoicemailExchangeMs : option Z;
  mc_lastBusinessRelevantCustomerExchangeMs : option Z;
  mc_lastVerifiedInteractionMs : option Z;
  agentBlockNumbers : option (list Z);
  agentFailureStartBlockNumber : option Z;
  mc_agentFailureMode : option FailureMode;
  mc_meaningfulServiceBeforeFailure : option bool;
  mc_failureStartMs : option Z;
  mc_remarks : string;
  mc_disputeRecommended : bool;
  decisionSignals : option ClassificationDecisionSignals;
  mc_usage : option AiUsage;
}.
#[global] Arguments mc_model {C} _.
#[global] Arguments mc_category {C} _.
#[global] Arguments mc_confidence {C} _.
#[global] Arguments customerBlockNumbers {C} _.
#[global] Arguments unclearBlockNumbers {C} _.
#[global] Arguments voicemailEvidenceBlockNumbers {C} _.
#[global] Arguments automationEvidenceBlockNumbers {C} _.
#[global] Arguments junkEvidenceBlockNumbers {C} _.
#[global] Arguments businessRelevantCustomerBlockNumbers {C} _.
#[global] Arguments customerSpoke {C} _.
#[global] Arguments mc_lastMeaningfulCustomerExchangeMs {C} _.
#[global] Arguments mc_lastMeaningfulAgentExchangeMs {C} _.
#[global] Arguments mc_firstAgentTurnEndMs {C} _.
#[global] Arguments mc_lastVoicemailExchangeMs {C} _.
#[global] Arguments mc_lastBusinessRelevantCustomerExchangeMs {C} _.
#[global] Arguments mc_lastVerifiedInteractionMs {C} _.
#[global] Arguments agentBlockNumbers {C} _.
#[global] Arguments agentFailureStartBlockNumber {C} _.
#[global] Arguments mc_agentFailureMode {C} _.
#[global] Arguments mc_meaningfulServiceBeforeFailure {C} _.
#[global] Arguments mc_failureStartMs {C} _.
#[global] Arguments mc_remarks {C} _.
#[global] Arguments mc_disputeRecommended {C} _.
#[global] Arguments decisionSignals {C} _.
#[global] Arguments mc_usage {C} _.
