(* ===== verification/CategoryPolicy.v ===== *)
(** * The category charge policy

    [src/billing/categoryChargePolicy.ts]: which moment of a call ends the
    chargeable service, for each of the twelve categories, and the grace that
    is added to it. *)

From S2P Require Import Prelude JsNumber JsText CanonicalJson KserveRules ReauditTypes.

Local Open Scope string_scope.
#[global] Open Scope Z_scope.

Definition CATEGORY_CHARGE_POLICY_VERSION : string :=
  "management-category-charge/2026-09-30.1".
Definition VOICEMAIL_GRACE_MS : Z := 30000.
Definition AGENT_FAILURE_MID_CONVERSATION_GRACE_MS : Z := 30000.

Definition CATEGORY_CHARGE_POLICY_DOCUMENT : json :=
  JObj [
    ("schemaVersion", JStr "1");
    ("version", JStr CATEGORY_CHARGE_POLICY_VERSION);
    ("rules", JObj [
      ("USER_SILENCE", JStr "first_agent_turn_plus_standard_grace");
      ("VOICEMAIL", JStr "last_agent_or_voicemail_exchange_plus_30s_grace");
      ("AI_TO_AI", JStr "standard_grace_only");
      ("INACTIVE_CALL", JStr "zero");
      ("OK", JStr "last_customer_exchange_plus_standard_grace");
      ("CONNECT_NOT_FRUITFUL", JStr "last_customer_exchange_plus_standard_grace");
      ("TIME_DURATION", JStr "last_customer_exchange_plus_standard_grace");
      ("AGENT_FAILURE",
       JStr "zero unless the failure begins mid-conversation after meaningful validated service, in which case the validated service period through failureStartMs plus exactly 30s grace");
      ("AI_CONVERSATION_HANDLING", JStr "zero");
      ("NETWORK_FAILURE_TELECOM", JStr "zero");
      ("JUNK_CALL", JStr "business_relevant_customer_exchange_plus_standard_grace");
      ("INCORRECT_CALL_DURATION", JStr "last_verified_interaction_plus_standard_grace")])].

Definition CATEGORY_CHARGE_POLICY_SHA256 `{Platform} : string :=
  module_digest CATEGORY_CHARGE_POLICY_DOCUMENT.

Inductive CategoryChargePolicyCode : Type :=
| STANDARD_CUSTOMER_PLUS_GRACE
| USER_SILENCE_INTRO_PLUS_GRACE
| VOICEMAIL_SERVICE_PLUS_30S
| AI_TO_AI_GRACE_ONLY
| JUNK_BUSINESS_INTERACTION_PLUS_GRACE
| VERIFIED_INTERACTION_PLUS_GRACE
| MANAGEMENT_ZERO_CATEGORY
| AGENT_FAILURE_MID_CONVERSATION_PLUS_30S
| NO_VERIFIED_CHARGEABLE_INTERACTION.

#[export] Instance CategoryChargePolicyCode_eq_dec : EqDecision CategoryChargePolicyCode.
Proof. solve_decision. Defined.

Definition CATEGORY_CHARGE_POLICY_CODES : list CategoryChargePolicyCode :=
  [STANDARD_CUSTOMER_PLUS_GRACE; USER_SILENCE_INTRO_PLUS_GRACE;
   VOICEMAIL_SERVICE_PLUS_30S; AI_TO_AI_GRACE_ONLY;
   JUNK_BUSINESS_INTERACTION_PLUS_GRACE; VERIFIED_INTERACTION_PLUS_GRACE;
   MANAGEMENT_ZERO_CATEGORY; AGENT_FAILURE_MID_CONVERSATION_PLUS_30S;
   NO_VERIFIED_CHARGEABLE_INTERACTION].

Definition policyCode_text (p : CategoryChargePolicyCode) : string :=
  match p with
  | STANDARD_CUSTOMER_PLUS_GRACE => "STANDARD_CUSTOMER_PLUS_GRACE"
  | USER_SILENCE_INTRO_PLUS_GRACE => "USER_SILENCE_INTRO_PLUS_GRACE"
  | VOICEMAIL_SERVICE_PLUS_30S => "VOICEMAIL_SERVICE_PLUS_30S"
  | AI_TO_AI_GRACE_ONLY => "AI_TO_AI_GRACE_ONLY"
  | JUNK_BUSINESS_INTERACTION_PLUS_GRACE => "JUNK_BUSINESS_INTERACTION_PLUS_GRACE"
  | VERIFIED_INTERACTION_PLUS_GRACE => "VERIFIED_INTERACTION_PLUS_GRACE"
  | MANAGEMENT_ZERO_CATEGORY => "MANAGEMENT_ZERO_CATEGORY"
  | AGENT_FAILURE_MID_CONVERSATION_PLUS_30S => "AGENT_FAILURE_MID_CONVERSATION_PLUS_30S"
  | NO_VERIFIED_CHARGEABLE_INTERACTION => "NO_VERIFIED_CHARGEABLE_INTERACTION"
  end.

Record CategoryChargeEvidence : Type := {
  ev_category : ReauditCategory;
  ev_recordedDurationMs : Z;
  lastCustomerExchangeMs : option Z;
  lastAgentExchangeMs : option Z;
  firstAgentTurnEndMs : option Z;
  lastVoicemailExchangeMs : option Z;
  lastBusinessRelevantCustomerExchangeMs : option Z;
  lastVerifiedInteractionMs : option Z;
  agentFailureMode : option FailureMode;
  ev_meaningfulServiceBeforeFailure : option bool;
  ev_failureStartMs : option Z;
}.

Record CategoryChargeDecision : Type := {
  dec_policyCode : CategoryChargePolicyCode;
  dec_serviceEndMs : Z;
  dec_graceMs : Z;
  dec_adjustedChargeableDurationMs : Z;
}.

Definition boundedEnd (value : option Z) (recordedDurationMs : Z) : Z :=
  match value with
  | None => 0
  | Some v => Z.min recordedDurationMs (Z.max 0 v)
  end.

Definition decision (evidence : CategoryChargeEvidence)
    (policyCode : CategoryChargePolicyCode) (rawEndMs : option Z) (graceMs : Z)
    : CategoryChargeDecision :=
  let serviceEndMs := boundedEnd rawEndMs (ev_recordedDurationMs evidence) in
  {| dec_policyCode := policyCode;
     dec_serviceEndMs := serviceEndMs;
     dec_graceMs := graceMs;
     dec_adjustedChargeableDurationMs :=
       Z.min (ev_recordedDurationMs evidence) (num_add serviceEndMs graceMs) |}.

(** The conditions under which an agent failure is charged at all. *)
Definition failure_chargeable (evidence : CategoryChargeEvidence) : bool :=
  bool_decide (agentFailureMode evidence = Some mode_mid_conversation) &&
  bool_decide (ev_meaningfulServiceBeforeFailure evidence = Some true) &&
  match ev_failureStartMs evidence with
  | None => false
  | Some f =>
      isSafeInteger f && (0 <? f) && (f <=? ev_recordedDurationMs evidence)
  end.

Definition resolveCategoryCharge (evidence : CategoryChargeEvidence)
    : CategoryChargeDecision :=
  match ev_category evidence with
  | INACTIVE_CALL | AI_CONVERSATION_HANDLING | NETWORK_FAILURE_TELECOM =>
      decision evidence MANAGEMENT_ZERO_CATEGORY None 0
  | AGENT_FAILURE =>
      if negb (failure_chargeable evidence) then
        decision evidence MANAGEMENT_ZERO_CATEGORY None 0
      else
        decision evidence AGENT_FAILURE_MID_CONVERSATION_PLUS_30S
          (ev_failureStartMs evidence) AGENT_FAILURE_MID_CONVERSATION_GRACE_MS
  | AI_TO_AI => decision evidence AI_TO_AI_GRACE_ONLY None KSERVE_WRAP_UP_GRACE_MS
  | USER_SILENCE =>
      match firstAgentTurnEndMs evidence with
      | None => decision evidence NO_VERIFIED_CHARGEABLE_INTERACTION None 0
      | Some introEndMs =>
          decision evidence USER_SILENCE_INTRO_PLUS_GRACE (Some introEndMs)
            KSERVE_WRAP_UP_GRACE_MS
      end
  | VOICEMAIL =>
      let serviceEndMs :=
        Z.max (from_null 0 (lastAgentExchangeMs evidence))
              (from_null 0 (lastVoicemailExchangeMs evidence)) in
      if serviceEndMs =? 0 then
        decision evidence NO_VERIFIED_CHARGEABLE_INTERACTION None 0
      else
        decision evidence VOICEMAIL_SERVICE_PLUS_30S (Some serviceEndMs) VOICEMAIL_GRACE_MS
  | JUNK_CALL =>
      match lastBusinessRelevantCustomerExchangeMs evidence with
      | None => decision evidence NO_VERIFIED_CHARGEABLE_INTERACTION None 0
      | Some e =>
          decision evidence JUNK_BUSINESS_INTERACTION_PLUS_GRACE (Some e)
            KSERVE_WRAP_UP_GRACE_MS
      end
  | INCORRECT_CALL_DURATION =>
      match lastVerifiedInteractionMs evidence with
      | None => decision evidence NO_VERIFIED_CHARGEABLE_INTERACTION None 0
      | Some e =>
          decision evidence VERIFIED_INTERACTION_PLUS_GRACE (Some e)
            KSERVE_WRAP_UP_GRACE_MS
      end
  | OK | CONNECT_NOT_FRUITFUL | TIME_DURATION =>
      match lastCustomerExchangeMs evidence with
      | None => decision evidence NO_VERIFIED_CHARGEABLE_INTERACTION None 0
      | Some e =>
          decision evidence STANDARD_CUSTOMER_PLUS_GRACE (Some e) KSERVE_WRAP_UP_GRACE_MS
      end
  end.

(** ** The policy as a table

    What the policy document promises: for every category, the moment that ends
    the service (if the call has one) and the grace. [None] is a zero charge. *)

Definition service_moment (e : CategoryChargeEvidence) : option Z :=
  match ev_category e with
  | OK | CONNECT_NOT_FRUITFUL | TIME_DURATION => lastCustomerExchangeMs e
  | USER_SILENCE => firstAgentTurnEndMs e
  | VOICEMAIL =>
      let m := Z.max (from_null 0 (lastAgentExchangeMs e)) (from_null 0 (lastVoicemailExchangeMs e)) in
      if m =? 0 then None else Some m
  | AI_TO_AI => Some 0
  | JUNK_CALL => lastBusinessRelevantCustomerExchangeMs e
  | INCORRECT_CALL_DURATION => lastVerifiedInteractionMs e
  | AGENT_FAILURE => if failure_chargeable e then ev_failureStartMs e else None
  | INACTIVE_CALL | AI_CONVERSATION_HANDLING | NETWORK_FAILURE_TELECOM => None
  end.

Definition policy_grace (c : ReauditCategory) : Z :=
  match c with
  | VOICEMAIL | AGENT_FAILURE => 30000
  | INACTIVE_CALL | AI_CONVERSATION_HANDLING | NETWORK_FAILURE_TELECOM => 0
  | _ => 60000
  end.

Definition policy_charge (e : CategoryChargeEvidence) : Z :=
  match service_moment e with
  | None => 0
  | Some m =>
      Z.min (ev_recordedDurationMs e)
        (Z.min (ev_recordedDurationMs e) (Z.max 0 m) + policy_grace (ev_category e))
  end.

(** A recording length the code accepts. *)
Definition recorded_ok (e : CategoryChargeEvidence) : Prop :=
  0 ≤ ev_recordedDurationMs e ≤ MAX_SAFE_INTEGER.

Section Decision.
Context (e : CategoryChargeEvidence) (He : recorded_ok e).

Lemma boundedEnd_bounds v : 0 ≤ boundedEnd v (ev_recordedDurationMs e) ≤ ev_recordedDurationMs e.
Proof using He. unfold recorded_ok in He. destruct v; cbn; lia. Qed.

(** The adjusted duration is bounded by the recording, and the rounding of the
    double addition never shows. *)
Lemma decision_adjusted p raw g :
  0 ≤ g →
  dec_adjustedChargeableDurationMs (decision e p raw g) =
    Z.min (ev_recordedDurationMs e) (boundedEnd raw (ev_recordedDurationMs e) + g).
Proof using He.
  intros Hg. pose proof (boundedEnd_bounds raw). unfold recorded_ok in He.
  cbn. apply min_num_add; lia.
Qed.

(** Every branch of the resolver is one [decision]. *)
Lemma resolve_decision :
  ∃ p raw g, resolveCategoryCharge e = decision e p raw g ∧
    (g = 0 ∨ g = 30000 ∨ g = 60000) ∧
    (service_moment e = None → g = 0 ∧ raw = None) ∧
    (∀ m, service_moment e = Some m →
      g = policy_grace (ev_category e) ∧
      boundedEnd raw (ev_recordedDurationMs e) =
        Z.min (ev_recordedDurationMs e) (Z.max 0 m)).
Proof using He.
  unfold recorded_ok in He. unfold resolveCategoryCharge, service_moment.
  assert (Hlast : ∀ (o : option Z) p q g, g = 30000 ∨ g = 60000 →
    ∃ p' raw g', (match o with
                  | None => decision e q None 0
                  | Some v => decision e p (Some v) g
                  end) = decision e p' raw g' ∧ (g' = 0 ∨ g' = 30000 ∨ g' = 60000) ∧
      (o = None → g' = 0 ∧ raw = None) ∧
      (∀ m, o = Some m → g' = g ∧
        boundedEnd raw (ev_recordedDurationMs e) = Z.min (ev_recordedDurationMs e) (Z.max 0 m))).
  { intros [v|] p q g Hg; do 3 eexists; (split; [reflexivity|]); split_and!; try tauto;
      intros; simplify_eq; done. }
  destruct (ev_category e) eqn:Hc; cbn [policy_grace]; try (apply Hlast; auto; fail);
    try (do 3 eexists; (split; [reflexivity|]); split_and!; [tauto|done|done]).
  - destruct (failure_chargeable e) eqn:Hf; cbn [negb].
    + assert (∃ f, ev_failureStartMs e = Some f) as [f ->].
      { unfold failure_chargeable in Hf. to_prop. destruct (ev_failureStartMs e); eauto; done. }
      do 3 eexists; (split; [reflexivity|]); split_and!; [by right; left|done|].
      intros m [= <-]. done.
    + do 3 eexists; (split; [reflexivity|]); split_and!; [tauto|done|done].
  - set (m := Z.max _ _). destruct (m =? 0);
      do 3 eexists; (split; [reflexivity|]); split_and!; try (by right; left); try tauto; try done.
    intros ? [= <-]. done.
  - do 3 eexists; (split; [reflexivity|]). split_and!; [tauto|done|].
    intros m [= <-]. split; [done|]. cbn. lia.
Qed.

Lemma resolve_charge :
  dec_adjustedChargeableDurationMs (resolveCategoryCharge e) = policy_charge e.
Proof using He.
  destruct resolve_decision as (p & raw & g & -> & Hg & Hnone & Hsome).
  rewrite decision_adjusted by lia. unfold policy_charge, recorded_ok in *.
  destruct (service_moment e) as [m|].
  - destruct (Hsome m eq_refl) as [-> ->]. done.
  - destruct Hnone as [-> ->]; [done|]. cbn. lia.
Qed.

Lemma resolve_bounds :
  let d := resolveCategoryCharge e in
  0 ≤ dec_serviceEndMs d ≤ ev_recordedDurationMs e ∧
  (dec_graceMs d = 0 ∨ dec_graceMs d = 30000 ∨ dec_graceMs d = 60000) ∧
  dec_adjustedChargeableDurationMs d =
    Z.min (ev_recordedDurationMs e) (dec_serviceEndMs d + dec_graceMs d).
Proof using He.
  destruct resolve_decision as (p & raw & g & -> & Hg & _). cbn zeta.
  rewrite decision_adjusted by lia. split_and!; [apply boundedEnd_bounds..|done|done].
Qed.
End Decision.

(** An agent failure is charged exactly when all its conditions hold at
    once: the engine decided it began mid-conversation, found meaningful
    service before it, and fixed a boundary inside the recording; the charge is
    then that boundary plus 30 s, within the recording, and otherwise zero. *)
Theorem agent_failure_charge (e : CategoryChargeEvidence) :
  recorded_ok e → ev_category e = AGENT_FAILURE →
  let d := resolveCategoryCharge e in
  (0 < dec_adjustedChargeableDurationMs d ↔
     agentFailureMode e = Some mode_mid_conversation ∧
     ev_meaningfulServiceBeforeFailure e = Some true ∧
     ∃ f, ev_failureStartMs e = Some f ∧ 0 < f ≤ ev_recordedDurationMs e) ∧
  (∀ f, ev_failureStartMs e = Some f → 0 < dec_adjustedChargeableDurationMs d →
     dec_adjustedChargeableDurationMs d = Z.min (ev_recordedDurationMs e) (f + 30000)).
Proof.
  intros He Hc d. unfold d. rewrite resolve_charge by done.
  unfold policy_charge, service_moment. rewrite Hc. unfold recorded_ok in He.
  assert (failure_chargeable e = true ↔
     agentFailureMode e = Some mode_mid_conversation ∧
     ev_meaningfulServiceBeforeFailure e = Some true ∧
     ∃ f, ev_failureStartMs e = Some f ∧ 0 < f ≤ ev_recordedDurationMs e) as Hf.
  { unfold failure_chargeable. rewrite !andb_true_iff, !bool_decide_eq_true.
    destruct (ev_failureStartMs e) as [f|].
    - rewrite !andb_true_iff, isSafeInteger_spec, Z.ltb_lt, Z.leb_le.
      split; [intros [[-> ->] ?]; split_and!; try done; exists f; split; [done|lia]|].
      intros (-> & -> & f' & [= <-] & ?). split_and!; try done; unfold MAX_SAFE_INTEGER in *; lia.
    - split; [intros [_ ?]; done|]. intros (_ & _ & ? & ? & _). done. }
  rewrite <- Hf. cbn [policy_grace].
  destruct (failure_chargeable e).
  - destruct (proj1 Hf eq_refl) as (_ & _ & f & Ef & Hb). rewrite Ef.
    split; [split; [done|intros _; lia]|]. intros f' [= <-] _. lia.
  - split; [split; [lia|done]|]. intros f _ H. lia.
Qed.

(** C3: the resolver implements the policy table: for every category the
    adjusted duration is the recording's length capped sum of the service
    moment and the category's grace, zero when the call has no such moment;
    it never exceeds the recording and never falls outside it, and the recorded
    service end and grace explain it. An agent failure is charged exactly when it began
    mid-conversation, after meaningful service, at a boundary inside the recording, and
    then up to 30 seconds after that boundary. *)
Theorem resolveCategoryCharge_policy (e : CategoryChargeEvidence) :
  recorded_ok e →
  let d := resolveCategoryCharge e in
  dec_adjustedChargeableDurationMs d = policy_charge e ∧
  0 ≤ dec_adjustedChargeableDurationMs d ≤ ev_recordedDurationMs e ∧
  0 ≤ dec_serviceEndMs d ≤ ev_recordedDurationMs e ∧
  dec_adjustedChargeableDurationMs d =
    Z.min (ev_recordedDurationMs e) (dec_serviceEndMs d + dec_graceMs d) ∧
  (ev_category e = AGENT_FAILURE →
     (0 < dec_adjustedChargeableDurationMs d ↔
        agentFailureMode e = Some mode_mid_conversation ∧ ev_meaningfulServiceBeforeFailure e = Some true ∧
        ∃ f, ev_failureStartMs e = Some f ∧ 0 < f ≤ ev_recordedDurationMs e) ∧
     ∀ f, ev_failureStartMs e = Some f → 0 < dec_adjustedChargeableDurationMs d →
       dec_adjustedChargeableDurationMs d = Z.min (ev_recordedDurationMs e) (f + 30000)).
Proof.
  intros He d. destruct (resolve_bounds e He) as (H1 & H2 & H3).
  split; [by apply resolve_charge|]. split; [subst d; rewrite H3; unfold recorded_ok in He; lia|].
  split; [done|]. split; [done|]. intros Hc. by apply agent_failure_charge.
Qed.

(** An evidence record with every moment absent. *)
Definition no_moments (c : ReauditCategory) (recorded : Z) : CategoryChargeEvidence :=
  {| ev_category := c; ev_recordedDurationMs := recorded; lastCustomerExchangeMs := None;
     lastAgentExchangeMs := None; firstAgentTurnEndMs := None;
     lastVoicemailExchangeMs := None; lastBusinessRelevantCustomerExchangeMs := None;
     lastVerifiedInteractionMs := None; agentFailureMode := None;
     ev_meaningfulServiceBeforeFailure := None; ev_failureStartMs := None |}.

Lemma resolveCategoryCharge_policy_witness :
  dec_adjustedChargeableDurationMs (resolveCategoryCharge (no_moments AI_TO_AI 90000)) = 60000.
Proof.
  exact (proj1 (resolveCategoryCharge_policy (no_moments AI_TO_AI 90000)
    ltac:(unfold recorded_ok, MAX_SAFE_INTEGER; cbn; lia))).
Defined.

Lemma agent_failure_charge_witness :
  let e := {| ev_category := AGENT_FAILURE; ev_recordedDurationMs := 200000;
     lastCustomerExchangeMs := Some 150000;
     lastAgentExchangeMs := None; firstAgentTurnEndMs := None;
     lastVoicemailExchangeMs := None; lastBusinessRelevantCustomerExchangeMs := None;
     lastVerifiedInteractionMs := None; agentFailureMode := Some mode_mid_conversation;
     ev_meaningfulServiceBeforeFailure := Some true; ev_failureStartMs := Some 90000 |} in
  dec_adjustedChargeableDurationMs (resolveCategoryCharge e) = 120000.
Proof.
  intros e. apply (proj2 (agent_failure_charge e
    ltac:(unfold recorded_ok, MAX_SAFE_INTEGER; cbn; lia) eq_refl) 90000 eq_refl).
  vm_compute. reflexivity.
Defined.
