(* ===== verification/VerifiedCharge.v ===== *)
(** * The verified call charge

    [src/billing/types.ts] and [src/billing/calculateVerifiedCharge.ts]: the
    validation of a billing input, the authority gate, the category and
    customer-exchange bases, the two management caps, and the decision trace
    with its digests. *)

From S2P Require Import Prelude JsNumber JsText CanonicalJson Decimal KserveRules ReauditTypes CategoryPolicy.

Local Open Scope string_scope.
#[global] Open Scope Z_scope.

(** ** Data *)

Inductive SensitivityTier : Type := K0 | K1 | K2 | K3.

Definition tier_text (t : SensitivityTier) : string :=
  match t with K0 => "K0" | K1 => "K1" | K2 => "K2" | K3 => "K3" end.

Inductive ConversationAssessment : Type :=
| established
| no_meaningful_exchange
| assessment_unresolved.

#[export] Instance ConversationAssessment_eq_dec : EqDecision ConversationAssessment.
Proof. solve_decision. Defined.

Definition assessment_text (a : ConversationAssessment) : string :=
  match a with
  | established => "established"
  | no_meaningful_exchange => "no_meaningful_exchange"
  | assessment_unresolved => "unresolved"
  end.

Record PublishedRateCard : Type := {
  rc_id : string;
  rc_version : string;
  rc_status : string;
  rc_currency : string;
  rulesetSha256 : option string;
  approvedBy : option string;
  approvedAt : option string;
}.

Inductive EvidenceKind : Type := ek_audio | ek_transcript | ek_media_analysis | ek_call_manifest.

Definition evidenceKind_text (k : EvidenceKind) : string :=
  match k with
  | ek_audio => "audio"
  | ek_transcript => "transcript"
  | ek_media_analysis => "media_analysis"
  | ek_call_manifest => "call_manifest"
  end.

Record EvidenceHashReference : Type := {
  kind : EvidenceKind;
  sha256 : string;
  referenceId : string;
}.

Inductive ValidationMethod : Type := human_ground_truth | automated_consensus.

Definition validationMethod_text (v : ValidationMethod) : string :=
  match v with
  | human_ground_truth => "human_ground_truth"
  | automated_consensus => "automated_consensus"
  end.

Record AutomationAuthority : Type := {
  calibrationVersion : option string;
  calibrationComplete : bool;
  validationMethod : option ValidationMethod;
  validationTraceSha256 : option string;
  confidence : string;
  threshold : option string;
  auth_language : string;
  findingType : string;
  sensitivityTier : SensitivityTier;
  recheckAttempt : Z;
  maximumRechecks : Z;
}.

Record AgentFailureRef : Type := {
  af_mode : option FailureMode;
  af_meaningfulServiceBeforeFailure : bool;
  af_failureStartMs : option Z;
}.

Record CategoryCharge : Type := {
  cc_category : ReauditCategory;
  serviceEndMs : Z;
  graceMs : Z;
  policyCode : CategoryChargePolicyCode;
  policyVersion : string;
  policySha256 : string;
  agentFailure : option AgentFailureRef;
}.

Record VerifiedBillingInput : Type := {
  callId : string;
  auditRunId : string;
  claimedDurationMs : option Z;
  connectedDurationMs : option Z;
  recordedDurationMs : Z;
  speechDurationMs : option Z;
  conversationAssessment : ConversationAssessment;
  lastMeaningfulCustomerExchangeMs : option Z;
  categoryCharge : option CategoryCharge;
  model : ModelIdentity;
  classifierRulesetVersion : string;
  classifierRulesetSha256 : string;
  evidence : list EvidenceHashReference;
  authority : AutomationAuthority;
  calculatedAt : string;
}.

Inductive ReasonCode : Type :=
| AUTOMATED_CONFIDENCE_CONFIRMED
| CALIBRATION_NOT_COMPLETED
| THRESHOLD_NOT_CONFIGURED
| LOW_CONFIDENCE_RECHECK_REQUIRED
| LOW_CONFIDENCE_RECHECK_EXHAUSTED
| CONVERSATION_ASSESSMENT_UNRESOLVED.

Definition reasonCode_text (r : ReasonCode) : string :=
  match r with
  | AUTOMATED_CONFIDENCE_CONFIRMED => "AUTOMATED_CONFIDENCE_CONFIRMED"
  | CALIBRATION_NOT_COMPLETED => "CALIBRATION_NOT_COMPLETED"
  | THRESHOLD_NOT_CONFIGURED => "THRESHOLD_NOT_CONFIGURED"
  | LOW_CONFIDENCE_RECHECK_REQUIRED => "LOW_CONFIDENCE_RECHECK_REQUIRED"
  | LOW_CONFIDENCE_RECHECK_EXHAUSTED => "LOW_CONFIDENCE_RECHECK_EXHAUSTED"
  | CONVERSATION_ASSESSMENT_UNRESOLVED => "CONVERSATION_ASSESSMENT_UNRESOLVED"
  end.

Inductive BillingNextAction : Type :=
| await_calibration
| configure_threshold
| retry_with_secondary_model
| hold_unresolved_until_cycle_close
| retry_conversation_assessment.

Definition nextAction_text (a : BillingNextAction) : string :=
  match a with
  | await_calibration => "await_calibration"
  | configure_threshold => "configure_threshold"
  | retry_with_secondary_model => "retry_with_secondary_model"
  | hold_unresolved_until_cycle_close => "hold_unresolved_until_cycle_close"
  | retry_conversation_assessment => "retry_conversation_assessment"
  end.

Record AuthorityDecision : Type := {
  is_final : bool;
  reasonCode : ReasonCode;
  nextAction : option BillingNextAction;
}.

#[export] Instance ReasonCode_eq_dec : EqDecision ReasonCode.
Proof. solve_decision. Defined.
#[export] Instance EvidenceKind_eq_dec : EqDecision EvidenceKind.
Proof. solve_decision. Defined.
#[export] Instance EvidenceHashReference_eq_dec : EqDecision EvidenceHashReference.
Proof. solve_decision. Defined.

Record TraceInputs : Type := {
  in_claimedDurationMs : option Z;
  in_connectedDurationMs : option Z;
  in_recordedDurationMs : Z;
  in_speechDurationMs : option Z;
  in_conversationAssessment : ConversationAssessment;
  in_lastMeaningfulCustomerExchangeMs : option Z;
  in_categoryCharge : option CategoryCharge;
}.

Record BillingDecisionTrace : Type := {
  tr_schemaVersion : string;
  tr_engineVersion : string;
  tr_rulesetVersion : string;
  tr_rulesetSha256 : string;
  rateCardId : string;
  rateCardVersion : string;
  tr_callId : string;
  tr_auditRunId : string;
  tr_model : ModelIdentity;
  tr_classifierRulesetVersion : string;
  tr_classifierRulesetSha256 : string;
  tr_evidence : list EvidenceHashReference;
  tr_evidenceManifestSha256 : string;
  tr_inputManifestSha256 : string;
  tr_authority : AutomationAuthority;
  inputs : TraceInputs;
  calculation : json;
  outcome : AuthorityDecision;
  decidedAt : string;
}.

Record FinalVerifiedBilling : Type := {
  adjustedChargeableDurationMs : Z;
  fin_billableDurationMs : Z;
  fin_billableMinutes : string;
  fin_amount : string;
  fin_amountPaise : Z;
  fin_ruleCode : RuleCode;
  oneWayTailMs : Z;
  oneWayTailAlert : bool;
  fin_inputManifestSha256 : string;
  fin_evidenceManifestSha256 : string;
  fin_traceSha256 : string;
  fin_trace : BillingDecisionTrace;
}.

Record UnresolvedVerifiedBilling : Type := {
  un_reasonCode : ReasonCode;
  un_nextAction : option BillingNextAction;
  un_inputManifestSha256 : string;
  un_evidenceManifestSha256 : string;
  un_traceSha256 : string;
  un_trace : BillingDecisionTrace;
}.

Inductive VerifiedBillingResult : Type :=
| BillingFinal (r : FinalVerifiedBilling)
| BillingUnresolved (r : UnresolvedVerifiedBilling).

(** ** As JSON *)

Definition evidence_json (e : EvidenceHashReference) : json :=
  JObj [("kind", JStr (evidenceKind_text (kind e)));
        ("sha256", JStr (sha256 e));
        ("referenceId", JStr (referenceId e))].

Definition model_json (m : ModelIdentity) : json :=
  JObj [("provider", JStr (provider m)); ("name", JStr (model_name m));
        ("version", JStr (model_version m))].

(** A property that is absent when its value is [undefined]. *)
Definition optional {A} (key : string) (f : A → json) (o : option A) : list (string * json) :=
  match o with Some a => [(key, f a)] | None => [] end.

Definition authority_json (a : AutomationAuthority) : json :=
  JObj ([("calibrationVersion", jstr_opt (calibrationVersion a));
         ("calibrationComplete", JBool (calibrationComplete a))] ++
        optional "validationMethod" (fun v => JStr (validationMethod_text v)) (validationMethod a) ++
        optional "validationTraceSha256" JStr (validationTraceSha256 a) ++
        [("confidence", JStr (confidence a));
         ("threshold", jstr_opt (threshold a));
         ("language", JStr (auth_language a));
         ("findingType", JStr (findingType a));
         ("sensitivityTier", JStr (tier_text (sensitivityTier a)));
         ("recheckAttempt", jint (recheckAttempt a));
         ("maximumRechecks", jint (maximumRechecks a))]).

Definition agentFailure_json (f : AgentFailureRef) : json :=
  JObj [("mode", match af_mode f with Some m => JStr (failureMode_text m) | None => JNull end);
        ("meaningfulServiceBeforeFailure", JBool (af_meaningfulServiceBeforeFailure f));
        ("failureStartMs", jint_opt (af_failureStartMs f))].

Definition categoryCharge_json (c : CategoryCharge) : json :=
  JObj ([("category", JStr (category_text (cc_category c)));
         ("serviceEndMs", jint (serviceEndMs c));
         ("graceMs", jint (graceMs c));
         ("policyCode", JStr (policyCode_text (policyCode c)));
         ("policyVersion", JStr (policyVersion c));
         ("policySha256", JStr (policySha256 c))] ++
        optional "agentFailure" agentFailure_json (agentFailure c)).

Definition inputs_json (i : TraceInputs) : json :=
  JObj ([("claimedDurationMs", jint_opt (in_claimedDurationMs i));
         ("connectedDurationMs", jint_opt (in_connectedDurationMs i));
         ("recordedDurationMs", jint (in_recordedDurationMs i));
         ("speechDurationMs", jint_opt (in_speechDurationMs i));
         ("conversationAssessment", JStr (assessment_text (in_conversationAssessment i)));
         ("lastMeaningfulCustomerExchangeMs",
          jint_opt (in_lastMeaningfulCustomerExchangeMs i))] ++
        optional "categoryCharge" categoryCharge_json (in_categoryCharge i)).

Definition outcome_json (o : AuthorityDecision) : json :=
  JObj [("status", JStr (if is_final o then "final" else "unresolved"));
        ("reasonCode", JStr (reasonCode_text (reasonCode o)));
        ("nextAction", match nextAction o with
                       | Some a => JStr (nextAction_text a)
                       | None => JNull end)].

Definition trace_json (t : BillingDecisionTrace) : json :=
  JObj [("schemaVersion", JStr (tr_schemaVersion t));
        ("decisionType", JStr "verified_call_billing");
        ("engineVersion", JStr (tr_engineVersion t));
        ("rulesetVersion", JStr (tr_rulesetVersion t));
        ("rulesetSha256", JStr (tr_rulesetSha256 t));
        ("rateCardId", JStr (rateCardId t));
        ("rateCardVersion", JStr (rateCardVersion t));
        ("callId", JStr (tr_callId t));
        ("auditRunId", JStr (tr_auditRunId t));
        ("model", model_json (tr_model t));
        ("classifierRulesetVersion", JStr (tr_classifierRulesetVersion t));
        ("classifierRulesetSha256", JStr (tr_classifierRulesetSha256 t));
        ("evidence", JArr (map evidence_json (tr_evidence t)));
        ("evidenceManifestSha256", JStr (tr_evidenceManifestSha256 t));
        ("inputManifestSha256", JStr (tr_inputManifestSha256 t));
        ("authority", authority_json (tr_authority t));
        ("inputs", inputs_json (inputs t));
        ("calculation", calculation t);
        ("outcome", outcome_json (outcome t));
        ("decidedAt", JStr (decidedAt t))].

(** ** Validation *)

(** [/^(0|1)(?:\.\d{1,8})?$/] and the scaled value of a match. *)
Definition decimalToScale8 (value name : string) : result js_error Z :=
  let err := TypeError (name +:+ " must be a decimal from 0 to 1") in
  match split_decimal value with
  | Some (whole, fraction) =>
      let frac := from_null "" fraction in
      if (bool_decide (whole = "0") || bool_decide (whole = "1")) && (len frac <=? 8) then
        let scaled := dec_value whole * 100000000 + dec_value (str_take 8 (frac +:+ "00000000")) in
        if 100000000 <? scaled then Throw err else Ok scaled
      else Throw err
  | None => Throw err
  end.

(** [!o?.trim()] *)
Definition blank_opt (o : option string) : bool :=
  match o with None => true | Some s => blank s end.

Section WithPlatform.
Context `{P : Platform}.

Definition validateRateCard (rateCard : PublishedRateCard) : result js_error unit :=
  requireText (rc_id rateCard) "rateCard.id" ≫= fun _ =>
  requireText (rc_version rateCard) "rateCard.version" ≫= fun _ =>
  throw_if
    (negb (bool_decide (rc_status rateCard = "published")) ||
     blank_opt (approvedBy rateCard) || blank_opt (approvedAt rateCard) ||
     bool_decide (approvedAt rateCard ≫= dateParse = None))
    (PlainError "D-03: billing requires a formally published rate card with approver and approval timestamp")
    ≫= fun _ =>
  throw_if (negb (bool_decide (rc_currency rateCard = "INR")))
    (PlainError "The locked KServe ruleset supports INR only") ≫= fun _ =>
  throw_if (negb (bool_decide (rulesetSha256 rateCard = Some KSERVE_RULESET_SHA256)))
    (PlainError "Published rate-card hash does not match the locked KServe ruleset").

Definition validateEvidence (evidence : list EvidenceHashReference) : result js_error unit :=
  throw_if (bool_decide (evidence = []))
    (TypeError "At least one input evidence hash is required") ≫= fun _ =>
  for_each
    (fun ref : nat * EvidenceHashReference =>
       let index := show_nat (Z.of_nat ref.1) in
       requireText (referenceId ref.2) ("evidence[" +:+ index +:+ "].referenceId") ≫= fun _ =>
       requireSha256 (sha256 ref.2) ("evidence[" +:+ index +:+ "].sha256"))
    (imap pair evidence).

Definition zeroShape (c : CategoryCharge) : bool :=
  bool_decide (policyCode c = MANAGEMENT_ZERO_CATEGORY) &&
  (serviceEndMs c =? 0) && (graceMs c =? 0).

(** [policyCode === code && serviceEndMs > 0 && graceMs === grace] *)
Definition chargedShape (c : CategoryCharge) (code : CategoryChargePolicyCode) (grace : Z) : bool :=
  bool_decide (policyCode c = code) && (0 <? serviceEndMs c) && (graceMs c =? grace).

Definition noInteractionShape (c : CategoryCharge) : bool :=
  bool_decide (policyCode c = NO_VERIFIED_CHARGEABLE_INTERACTION) &&
  (serviceEndMs c =? 0) && (graceMs c =? 0).

Definition structurallyValid (c : CategoryCharge) : bool :=
  let mode := agentFailure c ≫= af_mode in
  match cc_category c with
  | INACTIVE_CALL | AI_CONVERSATION_HANDLING | NETWORK_FAILURE_TELECOM => zeroShape c
  | AGENT_FAILURE =>
      (zeroShape c && negb (bool_decide (mode = Some mode_mid_conversation))) ||
      (chargedShape c AGENT_FAILURE_MID_CONVERSATION_PLUS_30S
         AGENT_FAILURE_MID_CONVERSATION_GRACE_MS &&
       bool_decide (mode = Some mode_mid_conversation) &&
       match agentFailure c with
       | None => false
       | Some failure =>
           af_meaningfulServiceBeforeFailure failure &&
           bool_decide (af_failureStartMs failure = Some (serviceEndMs c))
       end)
  | AI_TO_AI =>
      bool_decide (policyCode c = AI_TO_AI_GRACE_ONLY) &&
      (serviceEndMs c =? 0) && (graceMs c =? KSERVE_WRAP_UP_GRACE_MS)
  | USER_SILENCE => chargedShape c USER_SILENCE_INTRO_PLUS_GRACE KSERVE_WRAP_UP_GRACE_MS
  | VOICEMAIL => chargedShape c VOICEMAIL_SERVICE_PLUS_30S 30000
  | JUNK_CALL =>
      chargedShape c JUNK_BUSINESS_INTERACTION_PLUS_GRACE KSERVE_WRAP_UP_GRACE_MS ||
      noInteractionShape c
  | INCORRECT_CALL_DURATION =>
      chargedShape c VERIFIED_INTERACTION_PLUS_GRACE KSERVE_WRAP_UP_GRACE_MS ||
      noInteractionShape c
  | OK | CONNECT_NOT_FRUITFUL | TIME_DURATION =>
      chargedShape c STANDARD_CUSTOMER_PLUS_GRACE KSERVE_WRAP_UP_GRACE_MS
  end.

Definition validateCategoryCharge (c : CategoryCharge) (recorded : Z) : result js_error unit :=
  requireMilliseconds (Some (serviceEndMs c)) "categoryCharge.serviceEndMs" false ≫= fun _ =>
  requireMilliseconds (Some (graceMs c)) "categoryCharge.graceMs" false ≫= fun _ =>
  throw_if (recorded <? serviceEndMs c)
    (PlainError "Category service-end timestamp cannot exceed the decoded recording duration")
    ≫= fun _ =>
  throw_if (negb (bool_decide (policyVersion c = CATEGORY_CHARGE_POLICY_VERSION)))
    (PlainError "Category charge policy version is not current") ≫= fun _ =>
  requireSha256 (policySha256 c) "categoryCharge.policySha256" ≫= fun _ =>
  throw_if (negb (bool_decide (policySha256 c = CATEGORY_CHARGE_POLICY_SHA256)))
    (PlainError "Category charge policy hash does not match the locked policy") ≫= fun _ =>
  throw_if (negb (bool_decide (policyCode c ∈ CATEGORY_CHARGE_POLICY_CODES)))
    (PlainError "Category charge policy code is not recognized") ≫= fun _ =>
  throw_if (negb (structurallyValid c))
    (PlainError "Category charge decision does not match the locked category rule").

Definition validateInput (input : VerifiedBillingInput) : result js_error unit :=
  requireText (callId input) "callId" ≫= fun _ =>
  requireText (auditRunId input) "auditRunId" ≫= fun _ =>
  requireText (provider (model input)) "model.provider" ≫= fun _ =>
  requireText (model_name (model input)) "model.name" ≫= fun _ =>
  requireText (model_version (model input)) "model.version" ≫= fun _ =>
  requireText (classifierRulesetVersion input) "classifierRulesetVersion" ≫= fun _ =>
  requireSha256 (classifierRulesetSha256 input) "classifierRulesetSha256" ≫= fun _ =>
  requireMilliseconds (claimedDurationMs input) "claimedDurationMs" true ≫= fun _ =>
  requireMilliseconds (connectedDurationMs input) "connectedDurationMs" true ≫= fun _ =>
  requireMilliseconds (Some (recordedDurationMs input)) "recordedDurationMs" false ≫= fun _ =>
  requireMilliseconds (speechDurationMs input) "speechDurationMs" true ≫= fun _ =>
  requireMilliseconds (lastMeaningfulCustomerExchangeMs input)
    "lastMeaningfulCustomerExchangeMs" true ≫= fun _ =>
  validateEvidence (evidence input) ≫= fun _ =>
  throw_if (bool_decide (dateParse (calculatedAt input) = None))
    (TypeError "calculatedAt must be an ISO timestamp") ≫= fun _ =>
  throw_if
    (bool_decide (conversationAssessment input = established) &&
     match lastMeaningfulCustomerExchangeMs input with None => true | Some v => v <=? 0 end)
    (PlainError "An established conversation requires a positive final customer-exchange timestamp")
    ≫= fun _ =>
  match categoryCharge input with
  | None => Ok tt
  | Some c => validateCategoryCharge c (recordedDurationMs input)
  end ≫= fun _ =>
  throw_if
    (match lastMeaningfulCustomerExchangeMs input with
     | None => false
     | Some v => recordedDurationMs input <? v
     end)
    (PlainError "Final customer-exchange timestamp cannot exceed the decoded recording duration")
    ≫= fun _ =>
  throw_if
    (bool_decide (conversationAssessment input = no_meaningful_exchange) &&
     negb (bool_decide (lastMeaningfulCustomerExchangeMs input = None)))
    (PlainError "No-meaningful-exchange assessments must not carry a customer-exchange timestamp")
    ≫= fun _ =>
  decimalToScale8 (confidence (authority input)) "authority.confidence" ≫= fun _ =>
  match threshold (authority input) with
  | None => Ok 0
  | Some t => decimalToScale8 t "authority.threshold"
  end ≫= fun _ =>
  throw_if
    (negb (isSafeInteger (recheckAttempt (authority input))) ||
     (recheckAttempt (authority input) <? 0) ||
     negb (isSafeInteger (maximumRechecks (authority input))) ||
     (maximumRechecks (authority input) <? 0))
    (RangeError "Automated recheck counts must be non-negative integers").

(** ** The authority gate *)

Definition decideAuthority (authority : AutomationAuthority)
    (conversationAssessment : ConversationAssessment) : result js_error AuthorityDecision :=
  if negb (calibrationComplete authority) then
    Ok {| is_final := false; reasonCode := CALIBRATION_NOT_COMPLETED;
          nextAction := Some await_calibration |}
  else
    let threshold' := from_null "" (threshold authority) in
    if bool_decide (threshold' = "") then
      Ok {| is_final := false; reasonCode := THRESHOLD_NOT_CONFIGURED;
            nextAction := Some configure_threshold |}
    else if bool_decide (conversationAssessment = assessment_unresolved) then
      Ok {| is_final := false; reasonCode := CONVERSATION_ASSESSMENT_UNRESOLVED;
            nextAction := Some retry_conversation_assessment |}
    else
      confidence ← decimalToScale8 (confidence authority) "authority.confidence";
      threshold ← decimalToScale8 threshold' "authority.threshold";
      if confidence <? threshold then
        let exhausted := maximumRechecks authority <=? recheckAttempt authority in
        Ok {| is_final := false;
              reasonCode := if exhausted then LOW_CONFIDENCE_RECHECK_EXHAUSTED
                            else LOW_CONFIDENCE_RECHECK_REQUIRED;
              nextAction := Some (if exhausted then hold_unresolved_until_cycle_close
                                  else retry_with_secondary_model) |}
      else
        Ok {| is_final := true; reasonCode := AUTOMATED_CONFIDENCE_CONFIRMED;
              nextAction := None |}.

(** ** Manifests and traces *)

Definition evidence_key (e : EvidenceHashReference) : string :=
  evidenceKind_text (kind e) +:+ ":" +:+ referenceId e +:+ ":" +:+ sha256 e.

Definition orderEvidence (evidence : list EvidenceHashReference) : list EvidenceHashReference :=
  sort_by (fun left right => localeLe (evidence_key left) (evidence_key right)) evidence.

Definition inputManifest_json (input : VerifiedBillingInput) (evidenceManifestSha256 : string)
    : json :=
  JObj [
    ("callId", JStr (callId input));
    ("auditRunId", JStr (auditRunId input));
    ("evidenceManifestSha256", JStr evidenceManifestSha256);
    ("model", model_json (model input));
    ("classifierRulesetVersion", JStr (classifierRulesetVersion input));
    ("classifierRulesetSha256", JStr (classifierRulesetSha256 input));
    ("authority", authority_json (authority input));
    ("durations", JObj [
      ("claimedDurationMs", jint_opt (claimedDurationMs input));
      ("connectedDurationMs", jint_opt (connectedDurationMs input));
      ("recordedDurationMs", jint (recordedDurationMs input));
      ("speechDurationMs", jint_opt (speechDurationMs input));
      ("conversationAssessment", JStr (assessment_text (conversationAssessment input)));
      ("lastMeaningfulCustomerExchangeMs",
       jint_opt (lastMeaningfulCustomerExchangeMs input));
      ("categoryCharge", match categoryCharge input with
                         | Some c => categoryCharge_json c
                         | None => JNull
                         end)]);
    ("billingRulesetSha256", JStr KSERVE_RULESET_SHA256)].

(** The evidence and input manifest digests. *)
Definition manifestParts (input : VerifiedBillingInput) : result js_error (string * string) :=
  let orderedEvidence := orderEvidence (evidence input) in
  evidenceManifestSha256 ← canonicalJsonSha256 (JArr (map evidence_json orderedEvidence));
  inputManifestSha256 ← canonicalJsonSha256 (inputManifest_json input evidenceManifestSha256);
  Ok (evidenceManifestSha256, inputManifestSha256).

Definition createTrace (input : VerifiedBillingInput) (rateCard : PublishedRateCard)
    (evidenceManifestSha256 inputManifestSha256 : string) (calculation : json)
    (outcome : AuthorityDecision) : BillingDecisionTrace :=
  {| tr_schemaVersion := match categoryCharge input with Some _ => "2" | None => "1" end;
     tr_engineVersion := KSERVE_BILLING_ENGINE_VERSION;
     tr_rulesetVersion := KSERVE_RULESET_VERSION;
     tr_rulesetSha256 := KSERVE_RULESET_SHA256;
     rateCardId := rc_id rateCard;
     rateCardVersion := rc_version rateCard;
     tr_callId := callId input;
     tr_auditRunId := auditRunId input;
     tr_model := model input;
     tr_classifierRulesetVersion := classifierRulesetVersion input;
     tr_classifierRulesetSha256 := classifierRulesetSha256 input;
     tr_evidence := orderEvidence (evidence input);
     tr_evidenceManifestSha256 := evidenceManifestSha256;
     tr_inputManifestSha256 := inputManifestSha256;
     tr_authority := authority input;
     inputs := {|
       in_claimedDurationMs := claimedDurationMs input;
       in_connectedDurationMs := connectedDurationMs input;
       in_recordedDurationMs := recordedDurationMs input;
       in_speechDurationMs := speechDurationMs input;
       in_conversationAssessment := conversationAssessment input;
       in_lastMeaningfulCustomerExchangeMs := lastMeaningfulCustomerExchangeMs input;
       in_categoryCharge := categoryCharge input |};
     calculation := calculation;
     outcome := outcome;
     decidedAt := calculatedAt input |}.

(** ** The charge *)

(** The numbers of one calculation, before they are written to the trace. *)
Record Calculation : Type := {
  finalExchangeMs : Z;
  configuredWrapUpGraceMs : Z;
  uncappedChargeableMs : Z;
  connectedCapMs : option Z;
  calc_adjustedMs : Z;
  appliedWrapUpGraceMs : Z;
  calc_oneWayTailMs : Z;
  calc_oneWayTailAlert : bool;
  kserveBilledHalfMinutes : option Z;
  capApplied : option string;
  rounded : RoundedCharge;
}.

Definition calculate (input : VerifiedBillingInput) : result js_error Calculation :=
  let noExchange := bool_decide (conversationAssessment input = no_meaningful_exchange) in
  let finalExchangeMs :=
    match categoryCharge input with
    | Some c => serviceEndMs c
    | None => if noExchange then 0
              else from_null 0 (lastMeaningfulCustomerExchangeMs input)
    end in
  let configuredWrapUpGraceMs :=
    match categoryCharge input with
    | Some c => graceMs c
    | None => if noExchange then 0 else KSERVE_WRAP_UP_GRACE_MS
    end in
  let uncappedChargeableMs :=
    Z.min (recordedDurationMs input) (num_add finalExchangeMs configuredWrapUpGraceMs) in
  let connectedCapMs :=
    match connectedDurationMs input with
    | Some c => if 0 <? c then Some c else None
    | None => None
    end in
  let adjustedChargeableDurationMs :=
    match connectedCapMs with
    | None => uncappedChargeableMs
    | Some c => Z.min uncappedChargeableMs c
    end in
  let appliedWrapUpGraceMs := Z.max 0 (adjustedChargeableDurationMs - finalExchangeMs) in
  let oneWayTailMs := Z.max 0 (recordedDurationMs input - adjustedChargeableDurationMs) in
  let oneWayTailAlert := KSERVE_ONE_WAY_TAIL_ALERT_MS <? oneWayTailMs in
  uncappedRounded ← roundKServeChargeableDuration adjustedChargeableDurationMs;
  let kserveBilledHalfMinutes :=
    match claimedDurationMs input with
    | None => None
    | Some claimed => Some (num_ceil (num_div claimed (KSERVE_MINUTE_MS / 2)))
    end in
  let capped :=
    match kserveBilledHalfMinutes with
    | None => false
    | Some billed => billed <? billableHalfMinutes uncappedRounded
    end in
  rounded ←
    (if capped then chargeForHalfMinutes (from_null 0 kserveBilledHalfMinutes)
     else Ok uncappedRounded);
  Ok {| finalExchangeMs := finalExchangeMs;
        configuredWrapUpGraceMs := configuredWrapUpGraceMs;
        uncappedChargeableMs := uncappedChargeableMs;
        connectedCapMs := connectedCapMs;
        calc_adjustedMs := adjustedChargeableDurationMs;
        appliedWrapUpGraceMs := appliedWrapUpGraceMs;
        calc_oneWayTailMs := oneWayTailMs;
        calc_oneWayTailAlert := oneWayTailAlert;
        kserveBilledHalfMinutes := kserveBilledHalfMinutes;
        capApplied :=
          if capped then Some "kserve_billed"
          else if adjustedChargeableDurationMs <? uncappedChargeableMs then Some "connected"
          else None;
        rounded := rounded |}.

Definition calculation_json (input : VerifiedBillingInput) (c : Calculation) : json :=
  let is_category := match categoryCharge input with Some _ => true | None => false end in
  JObj [
    ("basis", JStr (if is_category then "category_service_end_plus_policy_grace"
                    else "last_meaningful_customer_exchange_plus_wrap_up_grace"));
    ("finalMeaningfulCustomerExchangeMs",
     if is_category then JNull else jint (finalExchangeMs c));
    ("categoryServiceEndMs", if is_category then jint (finalExchangeMs c) else JNull);
    ("categoryChargePolicy", match categoryCharge input with
                             | Some cc => categoryCharge_json cc
                             | None => JNull
                             end);
    ("configuredWrapUpGraceMs", jint (configuredWrapUpGraceMs c));
    ("appliedWrapUpGraceMs", jint (appliedWrapUpGraceMs c));
    ("adjustedChargeableDurationMs", jint (calc_adjustedMs c));
    ("uncappedChargeableDurationMs", jint (uncappedChargeableMs c));
    ("connectedDurationCapMs", jint_opt (connectedCapMs c));
    ("kserveBilledCapHalfMinutes", jint_opt (num_of_bigint <$> kserveBilledHalfMinutes c));
    ("capApplied", jstr_opt (capApplied c));
    ("rounding", JObj [
      ("ruleCode", JStr (ruleCode_text (ruleCode (rounded c))));
      ("billableDurationMs", jint (billableDurationMs (rounded c)));
      ("billableMinutes", JStr (billableMinutes (rounded c)))]);
    ("ratePerMinute", JStr "9.50000000");
    ("subtotalAmount", JStr (amount (rounded c)));
    ("taxAmount", JStr "0.00000000");
    ("totalAmount", JStr (amount (rounded c)));
    ("oneWayTailMs", jint (calc_oneWayTailMs c));
    ("oneWayTailAlertThresholdMs", jint KSERVE_ONE_WAY_TAIL_ALERT_MS);
    ("oneWayTailAlert", JBool (calc_oneWayTailAlert c))].

Definition calculateVerifiedKServeCharge (input : VerifiedBillingInput)
    (rateCard : PublishedRateCard) : result js_error VerifiedBillingResult :=
  validateInput input ≫= fun _ =>
  validateRateCard rateCard ≫= fun _ =>
  parts ← manifestParts input;
  let '(evidenceManifestSha256, inputManifestSha256) := parts in
  authority' ← decideAuthority (authority input) (conversationAssessment input);
  if negb (is_final authority') then
    let trace :=
      createTrace input rateCard evidenceManifestSha256 inputManifestSha256
        (JObj [("status", JStr "not_calculated");
               ("reason", JStr "authority_gate_unresolved")]) authority' in
    traceSha256 ← canonicalJsonSha256 (trace_json trace);
    Ok (BillingUnresolved {|
      un_reasonCode := reasonCode authority';
      un_nextAction := nextAction authority';
      un_evidenceManifestSha256 := evidenceManifestSha256;
      un_inputManifestSha256 := inputManifestSha256;
      un_traceSha256 := traceSha256;
      un_trace := trace |})
  else
    c ← calculate input;
    let trace :=
      createTrace input rateCard evidenceManifestSha256 inputManifestSha256
        (calculation_json input c) authority' in
    traceSha256 ← canonicalJsonSha256 (trace_json trace);
    Ok (BillingFinal {|
      adjustedChargeableDurationMs := calc_adjustedMs c;
      fin_billableDurationMs := billableDurationMs (rounded c);
      fin_billableMinutes := billableMinutes (rounded c);
      fin_amount := amount (rounded c);
      fin_amountPaise := amountPaise (rounded c);
      fin_ruleCode := ruleCode (rounded c);
      oneWayTailMs := calc_oneWayTailMs c;
      oneWayTailAlert := calc_oneWayTailAlert c;
      fin_inputManifestSha256 := inputManifestSha256;
      fin_evidenceManifestSha256 := evidenceManifestSha256;
      fin_traceSha256 := traceSha256;
      fin_trace := trace |}).
End WithPlatform.

(** ** Facts: what validation guarantees *)

Lemma requireMilliseconds_Ok v name nullable u :
  requireMilliseconds v name nullable = Ok u →
  match v with Some z => 0 ≤ z ≤ MAX_SAFE_INTEGER | None => nullable = true end.
Proof.
  unfold requireMilliseconds. destruct v as [z|]; intros H; bind_ok; to_prop; rewrite ?isSafeInteger_spec in *; [lia|done].
Qed.

Lemma requireMilliseconds_intro v name nullable :
  match v with Some z => 0 ≤ z ≤ MAX_SAFE_INTEGER | None => nullable = true end →
  requireMilliseconds v name nullable = Ok tt.
Proof.
  unfold requireMilliseconds. destruct v as [z|]; [|by intros ->]. intros Hz.
  assert (isSafeInteger z = true) as -> by (apply isSafeInteger_spec; lia).
  by rewrite (proj2 (Z.ltb_ge z 0)) by lia.
Qed.

Definition ms_ok (v : option Z) : Prop :=
  match v with Some z => 0 ≤ z ≤ MAX_SAFE_INTEGER | None => True end.

(** The end of the chargeable service and the grace of an input. *)
Definition charge_basis (input : VerifiedBillingInput) : Z * Z :=
  match categoryCharge input with
  | Some c => (serviceEndMs c, graceMs c)
  | None =>
      if bool_decide (conversationAssessment input = no_meaningful_exchange) then (0, 0)
      else (from_null 0 (lastMeaningfulCustomerExchangeMs input), 60000)
  end.

Section Validated.
Context `{P : Platform}.

Lemma validateInput_facts input :
  validateInput input = Ok tt →
  0 ≤ recordedDurationMs input ≤ MAX_SAFE_INTEGER ∧
  ms_ok (claimedDurationMs input) ∧ ms_ok (connectedDurationMs input) ∧
  0 ≤ (charge_basis input).1 ≤ recordedDurationMs input ∧
  0 ≤ (charge_basis input).2 ≤ MAX_SAFE_INTEGER ∧
  (∃ c, decimalToScale8 (confidence (authority input)) "authority.confidence" = Ok c) ∧
  match threshold (authority input) with
  | Some t => ∃ s, decimalToScale8 t "authority.threshold" = Ok s
  | None => True
  end ∧
  (∀ c, categoryCharge input = Some c → structurallyValid c = true).
Proof.
  unfold validateInput, charge_basis. intros H. bind_ok.
  repeat match goal with
    | H : requireMilliseconds _ _ _ = _ |- _ => apply requireMilliseconds_Ok in H; cbv beta iota in H
    end.
  refine (conj _ (conj _ (conj _ (conj _ (conj _ (conj _ (conj _ _))))))).
  - done.
  - unfold ms_ok. by destruct (claimedDurationMs input).
  - unfold ms_ok. by destruct (connectedDurationMs input).
  - destruct (categoryCharge input) as [c|]; cbn [fst].
    + unfold validateCategoryCharge in *. bind_ok.
      repeat match goal with
        | H : requireMilliseconds _ _ _ = _ |- _ => apply requireMilliseconds_Ok in H; cbv beta iota in H
        end. to_prop. lia.
    + destruct (bool_decide (_ = no_meaningful_exchange)); cbn [fst]; [lia|].
      destruct (lastMeaningfulCustomerExchangeMs input); unfold from_null; cbn [default from_option id]; to_prop; lia.
  - destruct (categoryCharge input) as [c|]; cbn [snd].
    + unfold validateCategoryCharge in *. bind_ok.
      repeat match goal with
        | H : requireMilliseconds _ _ _ = _ |- _ => apply requireMilliseconds_Ok in H; cbv beta iota in H
        end. lia.
    + unfold MAX_SAFE_INTEGER.
      destruct (bool_decide (_ = no_meaningful_exchange)); cbn [snd]; lia.
  - eauto.
  - destruct (threshold (authority input)); eauto.
  - intros c Hc. rewrite Hc in *. unfold validateCategoryCharge in *. bind_ok. by to_prop.
Qed.
End Validated.

(** ** Facts: the calculation *)

(** The chargeable duration: the basis, within the recording and within the
    connected time when that is known and positive. *)
Definition chargeable_ms (input : VerifiedBillingInput) : Z :=
  let raw := Z.min (recordedDurationMs input)
               ((charge_basis input).1 + (charge_basis input).2) in
  match connectedDurationMs input with
  | Some c => if 0 <? c then Z.min raw c else raw
  | None => raw
  end.

(** The half-minutes the vendor billed for a claimed duration. *)
Definition vendor_half_minutes (claimed : Z) : Z := (claimed + 29999) / 30000.

Definition charged_half_minutes (input : VerifiedBillingInput) : Z :=
  let h := half_minutes (chargeable_ms input) in
  match claimedDurationMs input with
  | Some claimed => Z.min h (vendor_half_minutes claimed)
  | None => h
  end.

Lemma vendor_half_minutes_num claimed :
  0 ≤ claimed ≤ MAX_SAFE_INTEGER →
  num_ceil (num_div claimed (KSERVE_MINUTE_MS / 2)) = vendor_half_minutes claimed.
Proof.
  intros Hc. change (KSERVE_MINUTE_MS / 2) with 30000. rewrite num_ceil_div by lia.
  unfold vendor_half_minutes. f_equal. lia.
Qed.

Lemma vendor_half_minutes_nonneg claimed : 0 ≤ claimed → 0 ≤ vendor_half_minutes claimed.
Proof. intros. apply Z.div_pos; lia. Qed.

Record basis_ok (input : VerifiedBillingInput) : Prop := {
  basis_recorded : 0 ≤ recordedDurationMs input ≤ MAX_SAFE_INTEGER;
  basis_claimed : ms_ok (claimedDurationMs input);
  basis_connected : ms_ok (connectedDurationMs input);
  basis_end : 0 ≤ (charge_basis input).1 ≤ recordedDurationMs input;
  basis_grace : 0 ≤ (charge_basis input).2 ≤ MAX_SAFE_INTEGER;
}.

Lemma validateInput_basis `{P : Platform} input :
  validateInput input = Ok tt → basis_ok input.
Proof. intros H. destruct (validateInput_facts _ H) as (?&?&?&?&?&_). by constructor. Qed.

Lemma chargeable_ms_bounds input :
  basis_ok input → 0 ≤ chargeable_ms input ≤ recordedDurationMs input.
Proof.
  intros [H1 H2 H3 H4 H5]. unfold chargeable_ms, ms_ok in *.
  destruct (connectedDurationMs input) as [c|]; [|lia].
  destruct (Z.ltb_spec 0 c); lia.
Qed.

(** Everything [calculate] returns, and when it fails. *)
Lemma calculate_spec input :
  basis_ok input →
  match calculate input with
  | Ok c =>
      calc_adjustedMs c = chargeable_ms input ∧
      rounded c = charge_of (charged_half_minutes input) ∧
      30000 * charged_half_minutes input ≤ MAX_SAFE_INTEGER ∧
      calc_oneWayTailMs c = recordedDurationMs input - chargeable_ms input ∧
      calc_oneWayTailAlert c = (60000 <? recordedDurationMs input - chargeable_ms input)
  | Throw _ => MAX_SAFE_INTEGER - 60000 < chargeable_ms input
  end.
Proof.
  intros Hb. pose proof (chargeable_ms_bounds input Hb) as Hcm. destruct Hb as [H1 H2 H3 H4 H5].
  unfold calculate.
  assert (match categoryCharge input with
          | Some c => serviceEndMs c
          | None => if bool_decide (conversationAssessment input = no_meaningful_exchange) then 0
                    else from_null 0 (lastMeaningfulCustomerExchangeMs input)
          end = (charge_basis input).1) as ->.
  { unfold charge_basis. destruct (categoryCharge input); [done|]. by destruct (bool_decide _). }
  assert (match categoryCharge input with
          | Some c => graceMs c
          | None => if bool_decide (conversationAssessment input = no_meaningful_exchange) then 0
                    else KSERVE_WRAP_UP_GRACE_MS
          end = (charge_basis input).2) as ->.
  { unfold charge_basis. destruct (categoryCharge input); [done|]. by destruct (bool_decide _). }
  cbn zeta. rewrite min_num_add by lia.
  set (raw := Z.min _ _) in *.
  set (adj := match match connectedDurationMs input with Some _ => _ | None => _ end with
              | Some _ => _ | None => _ end).
  assert (adj = chargeable_ms input) as ->.
  { unfold adj, chargeable_ms, raw. destruct (connectedDurationMs input) as [c|]; [|done].
    by destruct (0 <? c). }
  clearbody raw.
  set (m := chargeable_ms input) in *.
  pose proof (half_minutes_bounds m ltac:(lia)) as Hh.
  rewrite (round_spec m), (chargeForHalfMinutes_spec (half_minutes m)) by lia.
  destruct (Z.leb_spec (30000 * half_minutes m) MAX_SAFE_INTEGER) as [Hs|Hs]; cbn; [|lia].
  unfold charged_half_minutes. fold m.
  destruct (claimedDurationMs input) as [cl|]; cbn in H2.
  - rewrite vendor_half_minutes_num by done.
    pose proof (vendor_half_minutes_nonneg cl ltac:(lia)).
    destruct (Z.ltb_spec (vendor_half_minutes cl) (half_minutes m)); cbn.
    + rewrite chargeForHalfMinutes_spec by lia.
      rewrite (proj2 (Z.leb_le _ MAX_SAFE_INTEGER)) by lia. cbn.
      rewrite Z.min_r, Z.max_r by lia. split_and!; try done. lia.
    + rewrite Z.min_l, Z.max_r by lia. split_and!; done.
  - cbn. rewrite Z.max_r by lia. split_and!; done.
Qed.

(** The charged half-minutes are a count. *)
Lemma charged_half_minutes_bounds input :
  basis_ok input →
  0 ≤ charged_half_minutes input ∧
  ∀ claimed, claimedDurationMs input = Some claimed →
    charged_half_minutes input ≤ vendor_half_minutes claimed.
Proof.
  intros Hb. pose proof (chargeable_ms_bounds input Hb) as Hm. unfold charged_half_minutes.
  pose proof (half_minutes_bounds (chargeable_ms input) ltac:(lia)).
  destruct (claimedDurationMs input) as [cl|] eqn:E; [|split; [lia|done]].
  pose proof (basis_claimed _ Hb) as Hcl. rewrite E in Hcl. cbn in Hcl.
  pose proof (vendor_half_minutes_nonneg cl).
  split; [lia|]. intros ? [= <-]. lia.
Qed.

(** ** Facts: digests are always taken *)

Lemma finite_evidence l : forallb finite (map evidence_json l) = true.
Proof. by induction l. Qed.
Lemma finite_agentFailure f : finite (agentFailure_json f) = true.
Proof. destruct f as [[[]|] [] [|]]; reflexivity. Qed.
Lemma finite_optional {A} key (f : A → json) o :
  (∀ a, finite (f a) = true) → forallb (fun p => finite p.2) (optional key f o) = true.
Proof. intros Hf. destruct o; cbn; [by rewrite Hf|done]. Qed.

Lemma finite_categoryCharge c : finite (categoryCharge_json c) = true.
Proof.
  cbn [finite categoryCharge_json]. rewrite forallb_app. cbn.
  by rewrite finite_optional by apply finite_agentFailure.
Qed.
Lemma finite_authority a : finite (authority_json a) = true.
Proof.
  cbn [finite authority_json]. rewrite !forallb_app. cbn.
  rewrite !finite_optional by done. by rewrite !finite_jstr_opt.
Qed.
Lemma finite_inputs i : finite (inputs_json i) = true.
Proof.
  cbn [finite inputs_json]. rewrite !forallb_app. cbn.
  rewrite finite_optional by apply finite_categoryCharge. by rewrite !finite_jint_opt.
Qed.
Lemma finite_outcome o : finite (outcome_json o) = true.
Proof. by destruct o as [[] [] [[]|]]. Qed.

Lemma finite_trace t : finite (calculation t) = true → finite (trace_json t) = true.
Proof.
  intros Hc. cbn -[inputs_json authority_json outcome_json].
  by rewrite finite_evidence, finite_authority, finite_inputs, Hc, finite_outcome.
Qed.

Lemma finite_calculation i c : finite (calculation_json i c) = true.
Proof.
  cbn -[categoryCharge_json]. rewrite !finite_jint_opt, finite_jstr_opt.
  destruct (categoryCharge i); by rewrite ?finite_categoryCharge.
Qed.

#[export] Hint Rewrite finite_jint_opt finite_jstr_opt finite_evidence finite_authority
  finite_categoryCharge finite_calculation : kaudit_simpl.

Section Totality.
Context `{P : Platform}.

Lemma finite_inputManifest i h : finite (inputManifest_json i h) = true.
Proof.
  cbn -[categoryCharge_json authority_json]. rewrite !finite_jint_opt, finite_authority.
  destruct (categoryCharge i); by rewrite ?finite_categoryCharge.
Qed.

Lemma digest_total v : finite v = true → ∃ h, canonicalJsonSha256 v = Ok h.
Proof. intros Hv. eexists. by apply canonicalJsonSha256_ok. Qed.

Lemma manifestParts_total i : ∃ p, manifestParts i = Ok p.
Proof.
  unfold manifestParts. destruct (digest_total (JArr (map evidence_json (orderEvidence (evidence i)))))
    as [h Hh]; [apply finite_evidence|]. rewrite Hh.
  destruct (digest_total (inputManifest_json i h)) as [h' Hh']; [apply finite_inputManifest|].
  cbn [mbind result_bind]. rewrite Hh'. by eexists.
Qed.
End Totality.

(** ** Facts: the gate *)

(** The authority gate as the documentation states it: a completed
    calibration, a configured threshold, a resolved assessment and a confidence
    that reaches the threshold. *)
Definition gate_open (a : AutomationAuthority) (asmt : ConversationAssessment) : Prop :=
  calibrationComplete a = true ∧
  asmt ≠ assessment_unresolved ∧
  ∃ t c s, threshold a = Some t ∧ t ≠ "" ∧
    decimalToScale8 (confidence a) "authority.confidence" = Ok c ∧
    decimalToScale8 t "authority.threshold" = Ok s ∧ s ≤ c.

Lemma decideAuthority_spec a asmt :
  (∃ c, decimalToScale8 (confidence a) "authority.confidence" = Ok c) →
  match threshold a with
  | Some t => ∃ s, decimalToScale8 t "authority.threshold" = Ok s
  | None => True
  end →
  ∃ d, decideAuthority a asmt = Ok d ∧
    (is_final d = true ↔ gate_open a asmt) ∧
    (is_final d = true ↔ reasonCode d = AUTOMATED_CONFIDENCE_CONFIRMED) ∧
    (nextAction d = Some retry_with_secondary_model ↔
       reasonCode d = LOW_CONFIDENCE_RECHECK_REQUIRED) ∧
    (reasonCode d = LOW_CONFIDENCE_RECHECK_REQUIRED → recheckAttempt a < maximumRechecks a).
Proof.
  intros [c Hc] Ht. unfold decideAuthority, gate_open.
  destruct (calibrationComplete a); cbn [negb].
  2: { eexists; split_and!; [done|..]; cbn; naive_solver. }
  case_bool_decide as Hth.
  { eexists; split_and!; [done|..]; cbn; try naive_solver.
    split; [done|]. intros (_ & _ & t & ? & ? & E & Hne & _). rewrite E in Hth. done. }
  case_bool_decide as Ha.
  { eexists; split_and!; [done|..]; cbn; naive_solver. }
  destruct (threshold a) as [t|]; [|done]. destruct Ht as [s Hs].
  cbn in Hth |- *. rewrite Hc, Hs. cbn.
  destruct (Z.ltb_spec c s).
  - destruct (Z.leb_spec (maximumRechecks a) (recheckAttempt a));
      eexists; split_and!; try done; cbn; split; try done;
      intros (_ & _ & t' & c' & s' & [= <-] & _ & [= <-] & Es & ?);
      rewrite Hs in Es; injection Es as <-; lia.
  - eexists; split_and!; [done|..]; cbn; try naive_solver.
Qed.

Lemma gate_open_conditions a asmt : gate_open a asmt → threshold a ≠ None.
Proof. intros (_ & _ & t & ? & ? & E & _). congruence. Qed.

(** ** Facts: the whole call *)

Section Charge.
Context `{P : Platform}.

(** Taking the result of the charge apart: the gate's decision, and the
    calculation behind a final result. *)
Lemma charge_inv input rateCard r :
  calculateVerifiedKServeCharge input rateCard = Ok r →
  validateInput input = Ok tt ∧ validateRateCard rateCard = Ok tt ∧
  ∃ d, decideAuthority (authority input) (conversationAssessment input) = Ok d ∧
  match r with
  | BillingFinal f =>
      is_final d = true ∧ ∃ c, calculate input = Ok c ∧
        adjustedChargeableDurationMs f = calc_adjustedMs c ∧
        fin_billableDurationMs f = billableDurationMs (rounded c) ∧
        fin_billableMinutes f = billableMinutes (rounded c) ∧
        fin_amount f = amount (rounded c) ∧
        fin_amountPaise f = amountPaise (rounded c) ∧
        fin_ruleCode f = ruleCode (rounded c) ∧
        oneWayTailMs f = calc_oneWayTailMs c ∧
        oneWayTailAlert f = calc_oneWayTailAlert c ∧
        canonicalJsonSha256 (trace_json (fin_trace f)) = Ok (fin_traceSha256 f)
  | BillingUnresolved u =>
      is_final d = false ∧ un_reasonCode u = reasonCode d ∧ un_nextAction u = nextAction d ∧
      canonicalJsonSha256 (trace_json (un_trace u)) = Ok (un_traceSha256 u)
  end.
Proof.
  unfold calculateVerifiedKServeCharge. intros H.
  apply bind_Ok_iff in H as ([] & Hi & H). apply bind_Ok_iff in H as ([] & Hr & H).
  apply bind_Ok_iff in H as ([eh ih] & Hp & H). apply bind_Ok_iff in H as (d & Hd & H).
  split; [done|]. split; [done|]. exists d. split; [done|].
  destruct (is_final d) eqn:Ef; cbn [negb] in H.
  - apply bind_Ok_iff in H as (c & Hc & H). apply bind_Ok_iff in H as (t & Ht & H).
    injection H as <-. split; [done|]. exists c. by split_and!.
  - apply bind_Ok_iff in H as (t & Ht & H). injection H as <-. by split_and!.
Qed.

Lemma charge_gate input :
  validateInput input = Ok tt →
  ∃ d, decideAuthority (authority input) (conversationAssessment input) = Ok d ∧
    (is_final d = true ↔ gate_open (authority input) (conversationAssessment input)) ∧
    (is_final d = true ↔ reasonCode d = AUTOMATED_CONFIDENCE_CONFIRMED).
Proof.
  intros Hi. destruct (validateInput_facts _ Hi) as (_ & _ & _ & _ & _ & Hc & Ht & _).
  destruct (decideAuthority_spec (authority input) (conversationAssessment input) Hc Ht)
    as (d & ? & ? & ? & _). eauto.
Qed.

Lemma charge_total input rateCard :
  validateInput input = Ok tt → validateRateCard rateCard = Ok tt →
  chargeable_ms input ≤ MAX_SAFE_INTEGER - 60000 →
  ∃ r, calculateVerifiedKServeCharge input rateCard = Ok r.
Proof.
  intros Hi Hr Hm. unfold calculateVerifiedKServeCharge.
  rewrite Hi, Hr. cbn [mbind result_bind].
  destruct (manifestParts_total input) as [[eh ih] ->]. cbn [mbind result_bind].
  destruct (charge_gate input Hi) as (d & -> & _). cbn [mbind result_bind].
  pose proof (calculate_spec input (validateInput_basis _ Hi)) as Hc.
  destruct (is_final d); cbn [negb].
  - destruct (calculate input) as [c|]; [|lia]. cbn [mbind result_bind].
    edestruct digest_total as [h Hh]; [|rewrite Hh; by eexists].
    apply finite_trace, finite_calculation.
  - edestruct digest_total as [h Hh]; [|rewrite Hh; by eexists]. by apply finite_trace.
Qed.

(** *** The order of the evidence *)

Lemma reference_check e n1 n2 :
  (requireText (referenceId e) n1 ≫= fun _ => requireSha256 (sha256 e) n2) = Ok tt ↔
  blank (referenceId e) = false ∧ is_sha256 (sha256 e) = true.
Proof.
  unfold requireText, requireSha256.
  destruct (blank (referenceId e)), (is_sha256 (sha256 e)); cbn; naive_solver.
Qed.

Lemma validateEvidence_spec l :
  validateEvidence l = Ok tt ↔
  l ≠ [] ∧ Forall (fun e => blank (referenceId e) = false ∧ is_sha256 (sha256 e) = true) l.
Proof.
  unfold validateEvidence.
  assert (∀ (f : nat → nat), Forall
    (fun ref : nat * EvidenceHashReference =>
       (requireText (referenceId ref.2) ("evidence[" +:+ show_nat (Z.of_nat ref.1) +:+ "].referenceId")
        ≫= fun _ => requireSha256 (sha256 ref.2) ("evidence[" +:+ show_nat (Z.of_nat ref.1) +:+ "].sha256"))
       = Ok tt) (imap (fun i => pair (f i)) l) ↔
    Forall (fun e => blank (referenceId e) = false ∧ is_sha256 (sha256 e) = true) l) as H.
  { induction l as [|e l IH]; intros f; [split; constructor|].
    cbn [imap]. rewrite !Forall_cons. cbn [fst snd].
    rewrite reference_check. by rewrite <- (IH (f ∘ S)). }
  rewrite <- (H id). destruct l as [|e l]; [cbn; naive_solver|].
  rewrite bool_decide_eq_false_2 by done. cbn [throw_if mbind result_bind].
  rewrite for_each_Ok. naive_solver.
Qed.

Definition with_evidence (l : list EvidenceHashReference) (i : VerifiedBillingInput)
    : VerifiedBillingInput :=
  {| callId := callId i; auditRunId := auditRunId i;
     claimedDurationMs := claimedDurationMs i; connectedDurationMs := connectedDurationMs i;
     recordedDurationMs := recordedDurationMs i; speechDurationMs := speechDurationMs i;
     conversationAssessment := conversationAssessment i;
     lastMeaningfulCustomerExchangeMs := lastMeaningfulCustomerExchangeMs i;
     categoryCharge := categoryCharge i; model := model i;
     classifierRulesetVersion := classifierRulesetVersion i;
     classifierRulesetSha256 := classifierRulesetSha256 i; evidence := l;
     authority := authority i; calculatedAt := calculatedAt i |}.

(** No two different references collate as equal. *)
Definition no_ties (l : list EvidenceHashReference) : Prop :=
  ∀ x y, x ∈ l → y ∈ l → localeLe (evidence_key x) (evidence_key y) = true →
    localeLe (evidence_key y) (evidence_key x) = true → x = y.

Lemma orderEvidence_perm `{!PlatformLaws P} l1 l2 :
  no_ties l1 → l1 ≡ₚ l2 → orderEvidence l1 = orderEvidence l2.
Proof.
  intros Ht Hp. apply sort_by_perm_eq; [| |exact Ht|exact Hp].
  - intros. apply localeLe_total.
  - intros x y z. apply localeLe_trans.
Qed.

Lemma validateInput_evidence l1 l2 i :
  validateEvidence l1 = Ok tt → validateEvidence l2 = Ok tt →
  validateInput (with_evidence l1 i) = validateInput (with_evidence l2 i).
Proof.
  intros H1 H2. unfold validateInput. cbn [evidence with_evidence]. by rewrite H1, H2.
Qed.
End Charge.

(** ** Theorems *)

Section Claims.
Context `{P : Platform}.

(** C1: a final charge is exactly the rule: the chargeable time is the service
    end plus its grace, within the recording and within the vendor's connected
    time; the amount is 4.75 rupees per charged half-minute, never more
    half-minutes than the vendor billed, and the decimal texts of amount and
    minutes denote those paise and half-minutes; what the recording holds beyond
    the charge is the one-way tail; and the trace digest is that of the trace. *)
Theorem calculateVerifiedKServeCharge_final input rateCard r :
  calculateVerifiedKServeCharge input rateCard = Ok (BillingFinal r) →
  let h := charged_half_minutes input in
  adjustedChargeableDurationMs r = chargeable_ms input ∧
  0 ≤ chargeable_ms input ≤ recordedDurationMs input ∧
  fin_amountPaise r = 475 * h ∧ 0 ≤ h ∧
  (∀ claimed, claimedDurationMs input = Some claimed →
     h ≤ vendor_half_minutes claimed) ∧
  (∀ c, connectedDurationMs input = Some c → 0 < c → adjustedChargeableDurationMs r ≤ c) ∧
  fin_billableDurationMs r = 30000 * h ∧
  toScaled (Some (fin_amount r)) = Some (fin_amountPaise r * 1000000) ∧
  toScaled (Some (fin_billableMinutes r)) = Some (h * 50000000) ∧
  oneWayTailMs r + adjustedChargeableDurationMs r = recordedDurationMs input ∧
  (oneWayTailAlert r = true ↔ 60000 < oneWayTailMs r) ∧
  canonicalJsonSha256 (trace_json (fin_trace r)) = Ok (fin_traceSha256 r).
Proof.
  intros H h. destruct (charge_inv _ _ _ H) as (Hi & _ & d & _ & _ & c & Hc & Ea & Ed & Em & Et & Ep & _ & Ew & El & Eh).
  pose proof (validateInput_basis _ Hi) as Hb. pose proof (calculate_spec input Hb) as Hs.
  rewrite Hc in Hs. destruct Hs as (H1 & H2 & H3 & H4 & H5).
  pose proof (chargeable_ms_bounds input Hb) as Hm.
  assert (0 ≤ h) as Hh.
  { apply (charged_half_minutes_bounds input Hb). }
  rewrite Ed, Em, Et, Ep, H2. cbn [billableDurationMs amountPaise amount billableMinutes charge_of].
  refine (conj _ (conj Hm (conj eq_refl (conj Hh (conj _ (conj _ (conj eq_refl
    (conj _ (conj _ (conj _ (conj _ Eh))))))))))).
  - by rewrite Ea.
  - intros cl E. unfold h, charged_half_minutes. rewrite E. lia.
  - intros cn E Hcn. rewrite Ea, H1. unfold chargeable_ms. rewrite E.
    rewrite (proj2 (Z.ltb_lt 0 cn)) by done. lia.
  - apply toScaled_paise. fold h. lia.
  - by apply toScaled_halfMinutes.
  - rewrite Ew, Ea, H1, H4. lia.
  - rewrite El, Ew, H4, H5. apply Z.ltb_lt.
Qed.

(** C2: a valid input with a published rate card always yields a result, and
    the result is final exactly when the authority gate is open: calibration
    complete, a threshold configured, the conversation assessment resolved, and
    the confidence at or above the threshold. Otherwise the call is unresolved,
    with a reason and a next action and no amount. *)
Theorem calculateVerifiedKServeCharge_gate input rateCard :
  validateInput input = Ok tt → validateRateCard rateCard = Ok tt →
  chargeable_ms input ≤ MAX_SAFE_INTEGER - 60000 →
  ∃ r, calculateVerifiedKServeCharge input rateCard = Ok r ∧
  match r with
  | BillingFinal _ => gate_open (authority input) (conversationAssessment input)
  | BillingUnresolved u =>
      ¬ gate_open (authority input) (conversationAssessment input) ∧
      un_reasonCode u ≠ AUTOMATED_CONFIDENCE_CONFIRMED
  end.
Proof.
  intros Hi Hr Hm. destruct (charge_total _ _ Hi Hr Hm) as [r Hc]. exists r. split; [done|].
  destruct (charge_inv _ _ _ Hc) as (_ & _ & d & Hd & Hres).
  destruct (charge_gate _ Hi) as (d' & Hd' & Hg & Hreason). rewrite Hd in Hd'.
  injection Hd' as <-. destruct r as [f|u].
  - apply Hg, Hres.
  - destruct Hres as (Hf & -> & _). rewrite <- Hg, <- Hreason, Hf. done.
Qed.

(** The charge, its manifests and its trace digest do not depend on the
    order in which the evidence references are listed, provided the host's
    collation tells different references apart. *)
Theorem calculateVerifiedKServeCharge_evidence_order `{!PlatformLaws P} input l1 l2 rateCard r :
  no_ties l1 → l1 ≡ₚ l2 →
  calculateVerifiedKServeCharge (with_evidence l1 input) rateCard = Ok r →
  calculateVerifiedKServeCharge (with_evidence l2 input) rateCard = Ok r.
Proof.
  intros Ht Hp H. rewrite <- H.
  destruct (charge_inv _ _ _ H) as (Hi & _).
  assert (validateEvidence l1 = Ok tt) as H1.
  { unfold validateInput in Hi. bind_ok. cbn [evidence with_evidence] in *.
    by match goal with H : validateEvidence _ = Ok ?u |- _ => destruct u end. }
  assert (validateEvidence l2 = Ok tt) as H2.
  { rewrite validateEvidence_spec in *. destruct H1 as [Hne Hf]. split.
    - intros ->. by apply Permutation_nil_r in Hp.
    - by rewrite <- Hp. }
  unfold calculateVerifiedKServeCharge.
  rewrite (validateInput_evidence l2 l1 input H2 H1).
  pose proof (orderEvidence_perm l1 l2 Ht Hp) as Ho.
  assert (manifestParts (with_evidence l2 input) = manifestParts (with_evidence l1 input)) as ->.
  { unfold manifestParts. cbn [evidence with_evidence]. by rewrite Ho. }
  assert (∀ eh ih c d, createTrace (with_evidence l2 input) rateCard eh ih c d =
                       createTrace (with_evidence l1 input) rateCard eh ih c d) as Hct.
  { intros. unfold createTrace. cbn [evidence with_evidence]. by rewrite Ho. }
  assert (calculate (with_evidence l2 input) = calculate (with_evidence l1 input)) as -> by done.
  assert (∀ c, calculation_json (with_evidence l2 input) c =
               calculation_json (with_evidence l1 input) c) as Hcj by done.
  destruct (validateInput _); [|done]. destruct (validateRateCard _); [|done]. cbn [mbind result_bind].
  destruct (manifestParts _) as [[eh ih]|]; [|done]. cbn [mbind result_bind].
  change (authority (with_evidence l2 input)) with (authority (with_evidence l1 input)).
  change (conversationAssessment (with_evidence l2 input))
    with (conversationAssessment (with_evidence l1 input)).
  destruct (decideAuthority _ _) as [d|]; [|done]. cbn [mbind result_bind].
  destruct (is_final d); cbn [negb]; [|by rewrite Hct].
  destruct (calculate _); [|done]. cbn [mbind result_bind]. by rewrite Hct.
Qed.
End Claims.

(** ** A concrete call *)

Module Sample.
#[local] Existing Instance demo_platform.

Definition hex_a : string := str_take 64 (demo_hex 10).

Definition the_authority : AutomationAuthority :=
  {| calibrationVersion := Some "cal-1"; calibrationComplete := true;
     validationMethod := None; validationTraceSha256 := None; confidence := "0.95";
     threshold := Some "0.90"; auth_language := "en"; findingType := "billing";
     sensitivityTier := K1; recheckAttempt := 0; maximumRechecks := 2 |}.

(** A three-minute recording whose last exchange was at 100 s, connected for
    170 s and billed as two minutes by the vendor. *)
Definition the_input : VerifiedBillingInput :=
  {| callId := "call-1"; auditRunId := "run-1"; claimedDurationMs := Some 120000;
     connectedDurationMs := Some 170000; recordedDurationMs := 180000;
     speechDurationMs := None; conversationAssessment := established;
     lastMeaningfulCustomerExchangeMs := Some 100000; categoryCharge := None;
     model := {| provider := "p"; model_name := "m"; model_version := "1" |};
     classifierRulesetVersion := "1"; classifierRulesetSha256 := hex_a;
     evidence := [{| kind := ek_transcript; sha256 := hex_a; referenceId := "t" |};
                  {| kind := ek_audio; sha256 := hex_a; referenceId := "a" |}];
     authority := the_authority; calculatedAt := "2026-08-01T00:00:00.000Z" |}.

Definition the_rate_card : PublishedRateCard :=
  {| rc_id := "rc"; rc_version := "1"; rc_status := "published"; rc_currency := "INR";
     rulesetSha256 := Some KSERVE_RULESET_SHA256; approvedBy := Some "finance";
     approvedAt := Some "2026-07-27T00:00:00.000Z" |}.

(** The final charge of a result. *)
Definition final_of (r : result js_error VerifiedBillingResult) : option FinalVerifiedBilling :=
  match r with Ok (BillingFinal f) => Some f | _ => None end.

Lemma final_of_spec r f : final_of r = Some f → r = Ok (BillingFinal f).
Proof. destruct r as [[]|]; cbn; congruence. Qed.

Example charged : (fun f => (fin_amount f, fin_billableMinutes f, adjustedChargeableDurationMs f))
    <$> final_of (calculateVerifiedKServeCharge the_input the_rate_card) =
    Some ("19.00000000", "2.00000000", 160000).
Proof. vm_compute. reflexivity. Qed.
End Sample.

#[local] Existing Instance demo_platform.

Lemma calculateVerifiedKServeCharge_final_witness :
  ∃ r, calculateVerifiedKServeCharge Sample.the_input Sample.the_rate_card = Ok (BillingFinal r) ∧
       fin_amountPaise r = 1900.
Proof.
  destruct (Sample.final_of (calculateVerifiedKServeCharge Sample.the_input Sample.the_rate_card))
    as [r|] eqn:E; [|pose proof Sample.charged as C; rewrite E in C; discriminate C].
  apply Sample.final_of_spec in E. exists r. split; [exact E|].
  rewrite (proj1 (proj2 (proj2 (calculateVerifiedKServeCharge_final _ _ r E)))).
  vm_compute. reflexivity.
Defined.

Lemma calculateVerifiedKServeCharge_gate_witness :
  ∃ r, calculateVerifiedKServeCharge Sample.the_input Sample.the_rate_card = Ok r.
Proof.
  destruct (calculateVerifiedKServeCharge_gate Sample.the_input Sample.the_rate_card)
    as (r & Hr & _); [vm_compute; reflexivity|vm_compute; reflexivity|vm_compute; discriminate|].
  exists r. exact Hr.
Defined.

Lemma sample_no_ties : no_ties (evidence Sample.the_input).
Proof.
  assert (forallb (fun x => forallb (fun y =>
    negb (String.leb (evidence_key x) (evidence_key y) &&
          String.leb (evidence_key y) (evidence_key x)) || bool_decide (x = y))
    (evidence Sample.the_input)) (evidence Sample.the_input) = true) as H
    by (vm_compute; reflexivity).
  intros x y Hx Hy H1 H2.
  apply forallb_Forall in H. rewrite Forall_forall in H. specialize (H x Hx). cbv beta in H.
  apply forallb_Forall in H. rewrite Forall_forall in H. specialize (H y Hy). cbv beta in H.
  cbn [localeLe demo_platform] in H1, H2. rewrite H1, H2 in H. cbn [andb negb orb] in H.
  by apply bool_decide_eq_true in H.
Qed.

Lemma calculateVerifiedKServeCharge_evidence_order_witness :
  let refs := evidence Sample.the_input in
  ∃ r, calculateVerifiedKServeCharge (with_evidence (reverse refs) Sample.the_input)
         Sample.the_rate_card = Ok (BillingFinal r).
Proof.
  intros refs.
  destruct (Sample.final_of (calculateVerifiedKServeCharge Sample.the_input Sample.the_rate_card))
    as [r|] eqn:E; [|pose proof Sample.charged as C; rewrite E in C; discriminate C].
  apply Sample.final_of_spec in E. exists r.
  apply (calculateVerifiedKServeCharge_evidence_order (PlatformLaws0 := demo_platform_laws)
    Sample.the_input refs (reverse refs) Sample.the_rate_card (BillingFinal r)
    sample_no_ties); [symmetry; apply reverse_Permutation|exact E].
Defined.
