(* ===== verification/BillingRecords.v ===== *)
(** * The persisted billing records

    [src/billing/records.ts]: the calculation, component and decision rows a
    verified charge is written as, and the identity check between an input, its
    rate card and its result. *)

From S2P Require Import Prelude JsNumber JsText CanonicalJson Decimal KserveRules ReauditTypes CategoryPolicy VerifiedCharge.

Local Open Scope string_scope.
#[global] Open Scope Z_scope.

Inductive CalculationBasis : Type :=
| independent_conversation_end
| independent_category_service_end
| independent_audited_projection
| accepted_as_billed_unverified
| no_recording_zero.

#[export] Instance CalculationBasis_eq_dec : EqDecision CalculationBasis.
Proof. solve_decision. Defined.

Definition basis_text (b : CalculationBasis) : string :=
  match b with
  | independent_conversation_end => "independent_conversation_end"
  | independent_category_service_end => "independent_category_service_end"
  | independent_audited_projection => "independent_audited_projection"
  | accepted_as_billed_unverified => "accepted_as_billed_unverified"
  | no_recording_zero => "no_recording_zero"
  end.

Record BillingCalculationRecord : Type := {
  bc_callId : string;
  rateCardVersionId : string;
  bc_auditRunId : option string;
  bc_engineVersion : string;
  bc_inputManifestSha256 : string;
  bc_status : string;
  calculationBasis : CalculationBasis;
  bc_claimedDurationMs : option Z;
  bc_connectedDurationMs : option Z;
  bc_recordedDurationMs : option Z;
  bc_speechDurationMs : option Z;
  conversationEndMs : option Z;
  wrapUpGraceMs : option Z;
  bc_adjustedChargeableDurationMs : option Z;
  bc_billableDurationMs : Z;
  bc_oneWayTailMs : option Z;
  bc_oneWayTailAlert : option bool;
  bc_subtotalAmount : string;
  bc_taxAmount : string;
  bc_totalAmount : string;
  bc_currency : string;
  bc_rulesetSha256 : string;
  decisionTraceJson : string;
  decisionTraceSha256 : string;
  bc_calculatedAt : string;
  finalizedAt : string;
}.

Record BillingComponentRecord : Type := {
  componentType : string;
  cp_ruleCode : string;
  rawQuantity : string;
  rawUnit : string;
  billableQuantity : string;
  billingIncrement : string;
  unitRate : string;
  cp_subtotalAmount : string;
  cp_taxAmount : string;
  cp_totalAmount : string;
  cp_currency : string;
  resultStatus : string;
  explanationJson : string;
}.

Record AutomatedDecisionRecord : Type := {
  ad_callId : string;
  ad_auditRunId : option string;
  ad_decisionType : string;
  decisionStatus : string;
  ad_reasonCode : string;
  ad_nextAction : option string;
  ad_sensitivityTier : string;
  languageCode : string;
  ad_findingType : string;
  decisionEngineName : string;
  decisionEngineVersion : string;
  modelProvider : string;
  modelName : string;
  modelVersion : string;
  ad_rulesetVersion : string;
  ad_rulesetSha256 : string;
  ad_classifierRulesetVersion : string;
  ad_classifierRulesetSha256 : string;
  ad_calibrationVersion : option string;
  ad_confidence : string;
  confidenceThreshold : option string;
  ad_evidenceManifestSha256 : string;
  evidenceRefsJson : string;
  ad_inputManifestSha256 : string;
  decisionOutputJson : string;
  decisionOutputSha256 : string;
  ad_recheckAttempt : Z;
  ad_decidedAt : string;
}.

Record VerifiedBillingRecords : Type := {
  rec_calculation : option BillingCalculationRecord;
  rec_component : option BillingComponentRecord;
  rec_decision : AutomatedDecisionRecord;
}.

Definition millisecondsAsDecimal (value : Z) : string := show_Z value +:+ ".00000000".

Definition increment_of (r : RuleCode) : string :=
  match r with
  | SHORT_CALL_FLAT => "0.5_min_flat"
  | ZERO_DURATION_NOT_BILLED => "zero"
  | PER_MINUTE_CEIL => "1_min_ceil"
  end.

(** The fields both variants of a result share. *)
Definition result_trace (r : VerifiedBillingResult) : BillingDecisionTrace :=
  match r with BillingFinal f => fin_trace f | BillingUnresolved u => un_trace u end.
Definition result_inputManifest (r : VerifiedBillingResult) : string :=
  match r with
  | BillingFinal f => fin_inputManifestSha256 f
  | BillingUnresolved u => un_inputManifestSha256 u
  end.
Definition result_evidenceManifest (r : VerifiedBillingResult) : string :=
  match r with
  | BillingFinal f => fin_evidenceManifestSha256 f
  | BillingUnresolved u => un_evidenceManifestSha256 u
  end.
Definition result_traceSha256 (r : VerifiedBillingResult) : string :=
  match r with
  | BillingFinal f => fin_traceSha256 f
  | BillingUnresolved u => un_traceSha256 u
  end.
Definition result_reason (r : VerifiedBillingResult) : ReasonCode :=
  match r with
  | BillingFinal _ => AUTOMATED_CONFIDENCE_CONFIRMED
  | BillingUnresolved u => un_reasonCode u
  end.
Definition result_nextAction (r : VerifiedBillingResult) : option BillingNextAction :=
  match r with BillingFinal _ => None | BillingUnresolved u => un_nextAction u end.

Section Build.
Context `{P : Platform}.

Definition result_mismatch (input : VerifiedBillingInput) (rateCard : PublishedRateCard)
    (r : VerifiedBillingResult) : bool :=
  let trace := result_trace r in
  negb (bool_decide (tr_callId trace = callId input)) ||
  negb (bool_decide (tr_auditRunId trace = auditRunId input)) ||
  negb (bool_decide (rateCardId trace = rc_id rateCard)) ||
  negb (bool_decide (result_inputManifest r = tr_inputManifestSha256 trace)) ||
  negb (bool_decide (tr_rulesetSha256 trace = KSERVE_RULESET_SHA256)).

Definition verified_decision (input : VerifiedBillingInput) (r : VerifiedBillingResult)
    (decisionOutputJson evidenceRefsJson : string) : AutomatedDecisionRecord :=
  {| ad_callId := callId input;
     ad_auditRunId := Some (auditRunId input);
     ad_decisionType := "verified_call_billing";
     decisionStatus := match r with BillingFinal _ => "final" | BillingUnresolved _ => "unresolved" end;
     ad_reasonCode := reasonCode_text (result_reason r);
     ad_nextAction := nextAction_text <$> result_nextAction r;
     ad_sensitivityTier := tier_text (sensitivityTier (authority input));
     languageCode := auth_language (authority input);
     ad_findingType := findingType (authority input);
     decisionEngineName := "kserve-verified-billing";
     decisionEngineVersion := KSERVE_BILLING_ENGINE_VERSION;
     modelProvider := provider (model input);
     modelName := model_name (model input);
     modelVersion := model_version (model input);
     ad_rulesetVersion := KSERVE_RULESET_VERSION;
     ad_rulesetSha256 := KSERVE_RULESET_SHA256;
     ad_classifierRulesetVersion := classifierRulesetVersion input;
     ad_classifierRulesetSha256 := classifierRulesetSha256 input;
     ad_calibrationVersion := calibrationVersion (authority input);
     ad_confidence := confidence (authority input);
     confidenceThreshold := threshold (authority input);
     ad_evidenceManifestSha256 := result_evidenceManifest r;
     evidenceRefsJson := evidenceRefsJson;
     ad_inputManifestSha256 := result_inputManifest r;
     decisionOutputJson := decisionOutputJson;
     decisionOutputSha256 := result_traceSha256 r;
     ad_recheckAttempt := recheckAttempt (authority input);
     ad_decidedAt := calculatedAt input |}.

Definition verified_conversationEnd (input : VerifiedBillingInput) : option Z :=
  match categoryCharge input with
  | Some c => Some (serviceEndMs c)
  | None =>
      if bool_decide (conversationAssessment input = no_meaningful_exchange) then Some 0
      else lastMeaningfulCustomerExchangeMs input
  end.

Definition verified_calculation (input : VerifiedBillingInput) (rateCard : PublishedRateCard)
    (f : FinalVerifiedBilling) (decisionOutputJson : string) : BillingCalculationRecord :=
  {| bc_callId := callId input;
     rateCardVersionId := rc_id rateCard;
     bc_auditRunId := Some (auditRunId input);
     bc_engineVersion := KSERVE_BILLING_ENGINE_VERSION;
     bc_inputManifestSha256 := fin_inputManifestSha256 f;
     bc_status := "final";
     calculationBasis := match categoryCharge input with
                         | Some _ => independent_category_service_end
                         | None => independent_conversation_end
                         end;
     bc_claimedDurationMs := claimedDurationMs input;
     bc_connectedDurationMs := connectedDurationMs input;
     bc_recordedDurationMs := Some (recordedDurationMs input);
     bc_speechDurationMs := speechDurationMs input;
     conversationEndMs := verified_conversationEnd input;
     wrapUpGraceMs := Some (from_null KSERVE_WRAP_UP_GRACE_MS (graceMs <$> categoryCharge input));
     bc_adjustedChargeableDurationMs := Some (adjustedChargeableDurationMs f);
     bc_billableDurationMs := fin_billableDurationMs f;
     bc_oneWayTailMs := Some (oneWayTailMs f);
     bc_oneWayTailAlert := Some (oneWayTailAlert f);
     bc_subtotalAmount := fin_amount f;
     bc_taxAmount := "0.00000000";
     bc_totalAmount := fin_amount f;
     bc_currency := "INR";
     bc_rulesetSha256 := KSERVE_RULESET_SHA256;
     decisionTraceJson := decisionOutputJson;
     decisionTraceSha256 := fin_traceSha256 f;
     bc_calculatedAt := calculatedAt input;
     finalizedAt := calculatedAt input |}.

Definition buildVerifiedBillingRecords (input : VerifiedBillingInput)
    (rateCard : PublishedRateCard) (r : VerifiedBillingResult)
    : result js_error VerifiedBillingRecords :=
  throw_if (result_mismatch input rateCard r)
    (PlainError "Billing result does not match its input/rate-card identity") ≫= fun _ =>
  decisionOutputJson ← canonicalJson (trace_json (result_trace r));
  evidenceRefsJson ← canonicalJson (JArr (map evidence_json (tr_evidence (result_trace r))));
  let decision := verified_decision input r decisionOutputJson evidenceRefsJson in
  match r with
  | BillingUnresolved _ =>
      Ok {| rec_calculation := None; rec_component := None; rec_decision := decision |}
  | BillingFinal f =>
      let calc := verified_calculation input rateCard f decisionOutputJson in
      explanation ← canonicalJson (calculation (fin_trace f));
      let component := {|
        componentType := "platform";
        cp_ruleCode := ruleCode_text (fin_ruleCode f);
        rawQuantity := millisecondsAsDecimal (adjustedChargeableDurationMs f);
        rawUnit := "millisecond";
        billableQuantity := fin_billableMinutes f;
        billingIncrement := increment_of (fin_ruleCode f);
        unitRate := "9.50000000";
        cp_subtotalAmount := fin_amount f;
        cp_taxAmount := "0.00000000";
        cp_totalAmount := fin_amount f;
        cp_currency := "INR";
        resultStatus := "final";
        explanationJson := explanation |} in
      Ok {| rec_calculation := Some calc; rec_component := Some component;
            rec_decision := decision |}
  end.

(** ** Facts *)

Lemma toScaled_milliseconds v :
  0 ≤ v → toScaled (Some (millisecondsAsDecimal v)) = Some (v * 100000000).
Proof.
  intros Hv. unfold millisecondsAsDecimal, show_Z. rewrite (proj2 (Z.ltb_ge v 0)) by done.
  change (show_nat v +:+ ".00000000") with (show_nat v +:+ "." +:+ "00000000").
  rewrite toScaled_unsigned; auto with kaudit; try done.
  f_equal. rewrite dec_value_append, dec_value_show_nat by done.
  change (str_take SCALE_DIGITS ("00000000" +:+ zeros SCALE_DIGITS)) with "00000000".
  change (10 ^ len "00000000") with 100000000. change (dec_value "00000000") with 0. lia.
Qed.

(** Every result of the charge carries the identity of its own input. *)
Lemma charge_identity input rateCard r :
  calculateVerifiedKServeCharge input rateCard = Ok r →
  result_mismatch input rateCard r = false ∧
  finite (trace_json (result_trace r)) = true ∧
  finite (calculation (result_trace r)) = true ∧
  canonicalJsonSha256 (trace_json (result_trace r)) = Ok (result_traceSha256 r).
Proof.
  unfold calculateVerifiedKServeCharge. intros H.
  apply bind_Ok_iff in H as ([] & _ & H). apply bind_Ok_iff in H as ([] & _ & H).
  apply bind_Ok_iff in H as ([eh ih] & _ & H). apply bind_Ok_iff in H as (d & _ & H).
  assert (∀ eh ih c o, result_mismatch input rateCard
    (BillingUnresolved {| un_reasonCode := reasonCode o; un_nextAction := nextAction o;
       un_inputManifestSha256 := ih; un_evidenceManifestSha256 := eh; un_traceSha256 := "";
       un_trace := createTrace input rateCard eh ih c o |}) = false) as Hm.
  { intros. unfold result_mismatch. cbn. by rewrite !bool_decide_eq_true_2. }
  destruct (is_final d); cbn [negb] in H.
  - apply bind_Ok_iff in H as (c & _ & H). apply bind_Ok_iff in H as (t & Ht & H).
    injection H as <-. split; [exact (Hm _ _ _ _)|]. split; [|split; [|exact Ht]].
    + apply finite_trace, finite_calculation.
    + apply finite_calculation.
  - apply bind_Ok_iff in H as (t & Ht & H). injection H as <-.
    split; [exact (Hm _ _ _ _)|]. split; [|split; [|exact Ht]]; [by apply finite_trace|done].
Qed.

Lemma canonicalJson_total v : finite v = true → ∃ t, canonicalJson v = Ok t.
Proof. intros Hv. eexists. by apply canonical_print. Qed.

Lemma canonicalJson_sha v t h :
  canonicalJson v = Ok t → canonicalJsonSha256 v = Ok h → h = sha256Hex t.
Proof. unfold canonicalJsonSha256. intros ->. cbn. congruence. Qed.
End Build.

Section Claims.
Context `{P : Platform}.

(** The records of a computed charge are always built, and they agree with
    it: a calculation and a component exist exactly for a final result, they
    carry its amount (denoting its paise), the tax is nil, the component's raw
    quantity denotes the chargeable milliseconds, and the stored digest of the
    decision trace is the digest of the stored trace text. *)
Theorem buildVerifiedBillingRecords_consistent input rateCard r :
  calculateVerifiedKServeCharge input rateCard = Ok r →
  ∃ rec, buildVerifiedBillingRecords input rateCard r = Ok rec ∧
  decisionOutputSha256 (rec_decision rec) = sha256Hex (decisionOutputJson (rec_decision rec)) ∧
  ad_callId (rec_decision rec) = callId input ∧
  match r with
  | BillingUnresolved _ =>
      rec_calculation rec = None ∧ rec_component rec = None ∧
      decisionStatus (rec_decision rec) = "unresolved"
  | BillingFinal f =>
      decisionStatus (rec_decision rec) = "final" ∧
      ∃ c k, rec_calculation rec = Some c ∧ rec_component rec = Some k ∧
        decisionTraceSha256 c = sha256Hex (decisionTraceJson c) ∧
        bc_totalAmount c = fin_amount f ∧ bc_subtotalAmount c = bc_totalAmount c ∧
        cp_totalAmount k = bc_totalAmount c ∧ cp_subtotalAmount k = bc_totalAmount c ∧
        toScaled (Some (bc_totalAmount c)) = Some (fin_amountPaise f * 1000000) ∧
        toScaled (Some (bc_taxAmount c)) = Some 0 ∧
        toScaled (Some (rawQuantity k)) = Some (adjustedChargeableDurationMs f * 100000000)
  end.
Proof.
  intros H. destruct (charge_identity _ _ _ H) as (Hm & Hf & Hc & Hd).
  unfold buildVerifiedBillingRecords. rewrite Hm. cbn [throw_if mbind result_bind].
  destruct (canonicalJson_total _ Hf) as [t Ht]. rewrite Ht. cbn [mbind result_bind].
  destruct (canonicalJson_total (JArr (map evidence_json (tr_evidence (result_trace r)))))
    as [e He]; [apply finite_evidence|]. rewrite He. cbn [mbind result_bind].
  pose proof (canonicalJson_sha _ _ _ Ht Hd) as Hsha.
  destruct r as [f|u].
  - destruct (canonicalJson_total _ Hc) as [x Hx]. cbn [result_trace] in Hx. rewrite Hx.
    cbn [mbind result_bind]. eexists; split; [reflexivity|].
    split; [exact Hsha|]. split; [done|]. split; [done|]. do 2 eexists.
    destruct (charge_inv _ _ _ H) as (Hi & _ & d & _ & _ & c & Hcalc & Ea & _ & _ & Et & Ep & _).
    pose proof (validateInput_basis _ Hi) as Hb. pose proof (calculate_spec input Hb) as Hs.
    rewrite Hcalc in Hs. destruct Hs as (H1 & H2 & _).
    pose proof (chargeable_ms_bounds input Hb) as Hbd.
    split_and!; try reflexivity; [exact Hsha| |].
    + cbn. rewrite Et, Ep, H2. apply toScaled_paise. cbn.
      destruct (charged_half_minutes_bounds input Hb) as [Hh _]. lia.
    + cbn. apply toScaled_milliseconds. rewrite Ea, H1. lia.
  - eexists; split; [reflexivity|]. split; [exact Hsha|]. done.
Qed.
End Claims.

#[local] Existing Instance demo_platform.

Lemma buildVerifiedBillingRecords_consistent_witness :
  ∃ r rec, calculateVerifiedKServeCharge Sample.the_input Sample.the_rate_card = Ok r ∧
    buildVerifiedBillingRecords Sample.the_input Sample.the_rate_card r = Ok rec.
Proof.
  destruct (Sample.final_of (calculateVerifiedKServeCharge Sample.the_input Sample.the_rate_card))
    as [f|] eqn:E; [|pose proof Sample.charged as C; rewrite E in C; discriminate C].
  apply Sample.final_of_spec in E.
  destruct (buildVerifiedBillingRecords_consistent _ _ _ E) as (rec & Hrec & _).
  exists (BillingFinal f), rec. split; [exact E|exact Hrec].
Defined.

(** The calculation row of a call without a meaningful exchange records the
    standard grace of 60 s, although the charge of that call used a grace of 0:
    the persisted grace and the grace in the trace disagree. *)
Lemma no_exchange_grace_recorded input rateCard f rec c calc :
  categoryCharge input = None →
  conversationAssessment input = no_meaningful_exchange →
  buildVerifiedBillingRecords input rateCard (BillingFinal f) = Ok rec →
  rec_calculation rec = Some c → calculate input = Ok calc →
  wrapUpGraceMs c = Some 60000 ∧ configuredWrapUpGraceMs calc = 0.
Proof.
  intros Hc Ha H Hr Hcalc. unfold buildVerifiedBillingRecords in H.
  apply bind_Ok_iff in H as (_ & _ & H). apply bind_Ok_iff in H as (? & _ & H).
  apply bind_Ok_iff in H as (? & _ & H). apply bind_Ok_iff in H as (? & _ & H).
  injection H as <-. injection Hr as <-. split.
  - unfold verified_calculation. cbn. by rewrite Hc.
  - unfold calculate in Hcalc. rewrite Hc, Ha in Hcalc. bind_ok. done.
Qed.
