(* ===== verification/AcceptedAsBilled.v ===== *)
(** * Accepted as billed: the cycle-close fallback

    [src/billing/acceptedAsBilled.ts]: the records of a call settled from the
    vendor's own claim, or at zero when no recording exists. *)

From S2P Require Import Prelude JsNumber JsText CanonicalJson Decimal KserveRules ReauditTypes CategoryPolicy VerifiedCharge BillingRecords.

Local Open Scope string_scope.
#[global] Open Scope Z_scope.

Definition SCALE : Z := 100000000.
Definition HALF_MINUTE : Z := 50000000.

Definition ACCEPTED_AS_BILLED_RULESET : json :=
  JObj [
    ("schemaVersion", JStr "1");
    ("rule", JStr "cycle_close_unverified_fallback");
    ("triggers", JArr [
      JStr "no_recording_after_automatic_retry_window";
      JStr "automated_validation_unresolved_at_cycle_close";
      JStr "independent_audit_exhausted_at_cycle_close";
      JStr "audited_duration_unavailable_at_cycle_close"]);
    ("amount", JStr "zero when no recording exists; otherwise vendor-supplied billed amount when present or vendor billed minutes multiplied by the locked rate");
    ("authority", JStr "cycle-close deterministic fallback; not an independent AI audit")].

Definition ACCEPTED_AS_BILLED_RULESET_VERSION : string := "cycle-close-fallback/1.5.0".

Definition ACCEPTED_AS_BILLED_RULESET_SHA256 `{Platform} : string :=
  module_digest ACCEPTED_AS_BILLED_RULESET.

Inductive AcceptedAsBilledFallbackReason : Type :=
| no_recording
| automated_validation_unresolved
| audit_exhausted
| audited_duration_unavailable.

#[export] Instance FallbackReason_eq_dec : EqDecision AcceptedAsBilledFallbackReason.
Proof. solve_decision. Defined.

Definition fallback_text (r : AcceptedAsBilledFallbackReason) : string :=
  match r with
  | no_recording => "no_recording"
  | automated_validation_unresolved => "automated_validation_unresolved"
  | audit_exhausted => "audit_exhausted"
  | audited_duration_unavailable => "audited_duration_unavailable"
  end.

Record AcceptedAsBilledInput : Type := {
  ab_callId : string;
  ab_auditRunId : option string;
  ab_fallbackReason : option AcceptedAsBilledFallbackReason;
  ab_claimedDurationMs : option Z;
  ab_connectedDurationMs : option Z;
  vendorBilledMinutes : string;
  vendorBilledAmount : option string;
  ab_sourceEvidence : EvidenceHashReference;
  ab_decidedAt : string;
}.

(** [/^\d+(?:\.\d{1,8})?$/] and the scaled value of a match. *)
Definition decimalScale8 (value : string) : result js_error Z :=
  let err := TypeError "vendorBilledMinutes must be a positive scale-8 decimal" in
  match split_decimal value with
  | Some (whole, fraction) =>
      let frac := from_null "" fraction in
      if len frac <=? 8 then
        Ok (dec_value whole * SCALE + dec_value (str_take 8 (frac +:+ "00000000")))
      else Throw err
  | None => Throw err
  end.

Definition fixed8 (value : Z) : string :=
  show_Z (Z.quot value SCALE) +:+ "." +:+ pad_start 8 (show_Z (Z.rem value SCALE)).

(** [!o] *)
Definition falsy_text (o : option string) : bool := bool_decide (from_null "" o = "").

Section Build.
Context `{P : Platform}.

Definition ab_validateRateCard (rateCard : PublishedRateCard) : result js_error unit :=
  throw_if
    (negb (bool_decide (rc_status rateCard = "published")) ||
     falsy_text (approvedBy rateCard) || falsy_text (approvedAt rateCard) ||
     negb (bool_decide (rc_currency rateCard = "INR")) ||
     negb (bool_decide (rulesetSha256 rateCard = Some KSERVE_RULESET_SHA256)))
    (PlainError "D-03: accepted-as-billed fallback requires the same formally published rate card as independent billing").

(** The money of one fallback, before the records are written. *)
Record FallbackAmounts : Type := {
  minuteScale : Z;
  fb_billableDurationMs : Z;
  suppliedAmountScale : option Z;
  vendorAssertedAmountScale : Z;
  amountScale : Z;
}.

Definition fallbackAmounts (input : AcceptedAsBilledInput) : result js_error FallbackAmounts :=
  minuteScale ← decimalScale8 (vendorBilledMinutes input);
  throw_if (negb (Z.rem minuteScale HALF_MINUTE =? 0))
    (PlainError "Vendor billed minutes must use the locked 0.5-minute increments") ≫= fun _ =>
  let billableDurationMs := num_of_bigint (Z.quot (minuteScale * 60000) SCALE) in
  suppliedAmountScale ←
    match vendorBilledAmount input with
    | None => Ok None
    | Some a => s ← decimalScale8 a; Ok (Some s)
    end;
  let amountPaise := Z.quot (minuteScale * KSERVE_RATE_PER_MINUTE_PAISE) SCALE in
  let legacyAmountScale := amountPaise * 1000000 in
  throw_if (negb (isSafeInteger billableDurationMs) ||
            negb (amountPaise * SCALE =? minuteScale * KSERVE_RATE_PER_MINUTE_PAISE))
    (PlainError "Vendor quantity cannot be represented exactly") ≫= fun _ =>
  let fallbackReason := from_null no_recording (ab_fallbackReason input) in
  let vendorAssertedAmountScale := from_null legacyAmountScale suppliedAmountScale in
  Ok {| minuteScale := minuteScale;
        fb_billableDurationMs := billableDurationMs;
        suppliedAmountScale := suppliedAmountScale;
        vendorAssertedAmountScale := vendorAssertedAmountScale;
        amountScale := if bool_decide (fallbackReason = no_recording) then 0
                       else vendorAssertedAmountScale |}.

Definition fallback_reasonCode (r : AcceptedAsBilledFallbackReason) : string :=
  match r with
  | automated_validation_unresolved => "AUTOMATED_VALIDATION_UNRESOLVED_ACCEPTED_AS_BILLED"
  | audit_exhausted => "INDEPENDENT_AUDIT_EXHAUSTED_ACCEPTED_AS_BILLED"
  | audited_duration_unavailable => "AUDITED_DURATION_UNAVAILABLE_ACCEPTED_AS_BILLED"
  | no_recording => "NO_RECORDING_FOUND_ZERO"
  end.

Definition fallback_warning (r : AcceptedAsBilledFallbackReason) : string :=
  match r with
  | automated_validation_unresolved => "Automated validation remained unresolved at cycle close; the KServe claim was accepted without an independently verified duration."
  | audit_exhausted => "The independent audit exhausted its retry budget and produced no result; the KServe claim was accepted without an independently verified duration."
  | audited_duration_unavailable => "The independent audit completed but established no chargeable duration, so the KServe claim was accepted rather than an audited amount asserted."
  | no_recording => "No Recording Found"
  end.

Definition fallback_findingType (r : AcceptedAsBilledFallbackReason) : string :=
  match r with
  | automated_validation_unresolved => "AUTOMATED_VALIDATION_UNRESOLVED"
  | audit_exhausted => "INDEPENDENT_AUDIT_EXHAUSTED"
  | audited_duration_unavailable => "AUDITED_DURATION_UNAVAILABLE"
  | no_recording => "NO_RECORDING"
  end.

Definition fallback_basis (r : AcceptedAsBilledFallbackReason) : CalculationBasis :=
  if bool_decide (r = no_recording) then no_recording_zero else accepted_as_billed_unverified.

Definition vendorAmountSource (r : AcceptedAsBilledFallbackReason) (supplied : option Z) : string :=
  if bool_decide (r = no_recording) then "no_recording_zero"
  else match supplied with None => "legacy_rate_derived" | Some _ => "vendor_supplied" end.

Definition fallbackManifest_json (input : AcceptedAsBilledInput) (a : FallbackAmounts)
    (evidenceManifestSha256 : string) : json :=
  let fallbackReason := from_null no_recording (ab_fallbackReason input) in
  JObj [
    ("callId", JStr (ab_callId input));
    ("vendorBilledMinutes", JStr (fixed8 (minuteScale a)));
    ("vendorBilledAmount", JStr (fixed8 (vendorAssertedAmountScale a)));
    ("fallbackAmount", JStr (fixed8 (amountScale a)));
    ("vendorAmountSource", JStr (vendorAmountSource fallbackReason (suppliedAmountScale a)));
    ("claimedDurationMs", jint_opt (ab_claimedDurationMs input));
    ("connectedDurationMs", jint_opt (ab_connectedDurationMs input));
    ("fallbackReason", JStr (fallback_text fallbackReason));
    ("evidenceManifestSha256", JStr evidenceManifestSha256);
    ("fallbackRulesetSha256", JStr ACCEPTED_AS_BILLED_RULESET_SHA256);
    ("billingRulesetSha256", JStr KSERVE_RULESET_SHA256)].

Definition fallbackTrace_json (input : AcceptedAsBilledInput) (rateCard : PublishedRateCard)
    (a : FallbackAmounts) (evidenceManifestSha256 inputManifestSha256 : string) : json :=
  let r := from_null no_recording (ab_fallbackReason input) in
  JObj [
    ("schemaVersion", JStr "1");
    ("decisionType", JStr "verified_call_billing");
    ("calculationBasis", JStr (basis_text (fallback_basis r)));
    ("warning", JStr (fallback_warning r));
    ("callId", JStr (ab_callId input));
    ("rateCardId", JStr (rc_id rateCard));
    ("rateCardVersion", JStr (rc_version rateCard));
    ("engineVersion", JStr KSERVE_BILLING_ENGINE_VERSION);
    ("rulesetVersion", JStr KSERVE_RULESET_VERSION);
    ("rulesetSha256", JStr KSERVE_RULESET_SHA256);
    ("fallbackRulesetVersion", JStr ACCEPTED_AS_BILLED_RULESET_VERSION);
    ("fallbackRulesetSha256", JStr ACCEPTED_AS_BILLED_RULESET_SHA256);
    ("evidence", JArr [evidence_json (ab_sourceEvidence input)]);
    ("evidenceManifestSha256", JStr evidenceManifestSha256);
    ("inputManifestSha256", JStr inputManifestSha256);
    ("vendorBilledMinutes", JStr (fixed8 (minuteScale a)));
    ("vendorBilledAmount", JStr (fixed8 (vendorAssertedAmountScale a)));
    ("vendorAmountSource", JStr (vendorAmountSource r (suppliedAmountScale a)));
    ("billableDurationMs",
     jint (if bool_decide (r = no_recording) then 0 else fb_billableDurationMs a));
    ("amount", JStr (fixed8 (amountScale a)));
    ("currency", JStr "INR");
    ("outcome", JObj [("status", JStr "final"); ("reasonCode", JStr (fallback_reasonCode r))]);
    ("decidedAt", JStr (ab_decidedAt input))].

Definition fallbackCalculation (input : AcceptedAsBilledInput) (rateCard : PublishedRateCard)
    (a : FallbackAmounts) (inputManifestSha256 outputJson outputSha256 : string)
    : BillingCalculationRecord :=
  let r := from_null no_recording (ab_fallbackReason input) in
  {| bc_callId := ab_callId input;
     rateCardVersionId := rc_id rateCard;
     bc_auditRunId := ab_auditRunId input;
     bc_engineVersion := KSERVE_BILLING_ENGINE_VERSION;
     bc_inputManifestSha256 := inputManifestSha256;
     bc_status := "final";
     calculationBasis := fallback_basis r;
     bc_claimedDurationMs := ab_claimedDurationMs input;
     bc_connectedDurationMs := ab_connectedDurationMs input;
     bc_recordedDurationMs := None;
     bc_speechDurationMs := None;
     conversationEndMs := None;
     wrapUpGraceMs := None;
     bc_adjustedChargeableDurationMs := None;
     bc_billableDurationMs :=
       if bool_decide (r = no_recording) then 0 else fb_billableDurationMs a;
     bc_oneWayTailMs := None;
     bc_oneWayTailAlert := None;
     bc_subtotalAmount := fixed8 (amountScale a);
     bc_taxAmount := "0.00000000";
     bc_totalAmount := fixed8 (amountScale a);
     bc_currency := "INR";
     bc_rulesetSha256 := KSERVE_RULESET_SHA256;
     decisionTraceJson := outputJson;
     decisionTraceSha256 := outputSha256;
     bc_calculatedAt := ab_decidedAt input;
     finalizedAt := ab_decidedAt input |}.

Definition fallbackComponent (input : AcceptedAsBilledInput) (a : FallbackAmounts)
    (outputJson : string) : BillingComponentRecord :=
  let r := from_null no_recording (ab_fallbackReason input) in
  let zero := bool_decide (r = no_recording) in
  let supplied := match suppliedAmountScale a with Some _ => true | None => false end in
  let quantity :=
    if zero then "0.00000000"
    else if supplied then fixed8 (amountScale a) else fixed8 (minuteScale a) in
  {| componentType := "platform";
     cp_ruleCode := if zero then "NO_RECORDING_ZERO" else "ACCEPTED_AS_BILLED_UNVERIFIED";
     rawQuantity := quantity;
     rawUnit := if zero || supplied then "INR" else "minute";
     billableQuantity := quantity;
     billingIncrement :=
       if zero then "no_recording_zero"
       else if supplied then "vendor_amount" else "vendor_0.5_min";
     unitRate := if zero || supplied then "1.00000000" else "9.50000000";
     cp_subtotalAmount := fixed8 (amountScale a);
     cp_taxAmount := "0.00000000";
     cp_totalAmount := fixed8 (amountScale a);
     cp_currency := "INR";
     resultStatus := "final";
     explanationJson := outputJson |}.

Definition fallbackDecision (input : AcceptedAsBilledInput)
    (evidenceManifestSha256 evidenceRefs inputManifestSha256 outputJson outputSha256 : string)
    : AutomatedDecisionRecord :=
  let r := from_null no_recording (ab_fallbackReason input) in
  {| ad_callId := ab_callId input;
     ad_auditRunId := ab_auditRunId input;
     ad_decisionType := "verified_call_billing";
     decisionStatus := "final";
     ad_reasonCode := fallback_reasonCode r;
     ad_nextAction := None;
     ad_sensitivityTier := "K0";
     languageCode := "unknown";
     ad_findingType := fallback_findingType r;
     decisionEngineName := "kserve-verified-billing";
     decisionEngineVersion := KSERVE_BILLING_ENGINE_VERSION;
     modelProvider := "none";
     modelName := "deterministic-cycle-close-fallback";
     modelVersion := ACCEPTED_AS_BILLED_RULESET_VERSION;
     ad_rulesetVersion := KSERVE_RULESET_VERSION;
     ad_rulesetSha256 := KSERVE_RULESET_SHA256;
     ad_classifierRulesetVersion := ACCEPTED_AS_BILLED_RULESET_VERSION;
     ad_classifierRulesetSha256 := ACCEPTED_AS_BILLED_RULESET_SHA256;
     ad_calibrationVersion := None;
     ad_confidence := "1.00000000";
     confidenceThreshold := Some "1.00000000";
     ad_evidenceManifestSha256 := evidenceManifestSha256;
     evidenceRefsJson := evidenceRefs;
     ad_inputManifestSha256 := inputManifestSha256;
     decisionOutputJson := outputJson;
     decisionOutputSha256 := outputSha256;
     ad_recheckAttempt := if bool_decide (r = automated_validation_unresolved) then 3 else 0;
     ad_decidedAt := ab_decidedAt input |}.

Definition buildAcceptedAsBilledRecords (input : AcceptedAsBilledInput)
    (rateCard : PublishedRateCard) : result js_error VerifiedBillingRecords :=
  ab_validateRateCard rateCard ≫= fun _ =>
  throw_if (blank (ab_callId input)) (TypeError "callId is required") ≫= fun _ =>
  throw_if (negb (is_sha256 (sha256 (ab_sourceEvidence input))))
    (TypeError "source evidence must carry a SHA-256 hash") ≫= fun _ =>
  throw_if (bool_decide (dateParse (ab_decidedAt input) = None))
    (TypeError "decidedAt must be an ISO timestamp") ≫= fun _ =>
  a ← fallbackAmounts input;
  let evidence := JArr [evidence_json (ab_sourceEvidence input)] in
  evidenceManifestSha256 ← canonicalJsonSha256 evidence;
  inputManifestSha256 ←
    canonicalJsonSha256 (fallbackManifest_json input a evidenceManifestSha256);
  let trace := fallbackTrace_json input rateCard a evidenceManifestSha256 inputManifestSha256 in
  outputJson ← canonicalJson trace;
  outputSha256 ← canonicalJsonSha256 trace;
  evidenceRefs ← canonicalJson evidence;
  Ok {| rec_calculation :=
          Some (fallbackCalculation input rateCard a inputManifestSha256 outputJson outputSha256);
        rec_component := Some (fallbackComponent input a outputJson);
        rec_decision :=
          fallbackDecision input evidenceManifestSha256 evidenceRefs inputManifestSha256
            outputJson outputSha256 |}.
End Build.

(** ** Facts *)

Lemma fixed8_show v : 0 ≤ v → fixed8 v = show_fixed 8 v.
Proof.
  intros Hv. unfold fixed8, show_fixed, SCALE. change (10 ^ Z.of_nat 8) with 100000000.
  rewrite Z.quot_div_nonneg, Z.rem_mod_nonneg by lia.
  assert (0 ≤ v / 100000000) by (apply Z.div_pos; lia).
  pose proof (Z.mod_pos_bound v 100000000 ltac:(lia)).
  unfold show_Z. rewrite (proj2 (Z.ltb_ge (v / 100000000) 0)) by lia.
  by rewrite (proj2 (Z.ltb_ge (v mod 100000000) 0)) by lia.
Qed.

Lemma toScaled_fixed8 v : 0 ≤ v → toScaled (Some (fixed8 v)) = Some v.
Proof. intros Hv. rewrite fixed8_show by done. by apply toScaled_show_fixed8. Qed.

(** The two decimal readers of the program agree on the texts this one takes. *)
Lemma decimalScale8_value s v : decimalScale8 s = Ok v → 0 ≤ v ∧ toScaled (Some s) = Some v.
Proof.
  unfold decimalScale8. intros H. destruct (split_decimal s) as [[w o]|] eqn:E; [|done].
  destruct (Z.leb_spec (len (from_null "" o)) 8) as [Hl|]; [|done]. apply Ok_inj in H. subst v.
  pose proof (split_decimal_inv _ _ _ E) as (Hw & Hne & Ho).
  rewrite (toScaled_split _ _ _ E), dec_value_append.
  set (f := from_null "" o) in *. change "00000000" with (zeros 8).
  assert (all_digits f = true) as Hf by (unfold f; destruct o; [tauto|done]).
  assert (len (str_take SCALE_DIGITS (f +:+ zeros SCALE_DIGITS)) = 8) as Hlen.
  { unfold len, SCALE_DIGITS. rewrite length_str_take; [done|].
    rewrite length_append, length_zeros. lia. }
  rewrite Hlen. change (10 ^ 8) with SCALE. split; [|done].
  assert (all_digits (str_take 8 (f +:+ zeros 8)) = true).
  { apply all_digits_take. by rewrite all_digits_append, Hf. }
  pose proof (dec_value_bounds w Hw). pose proof (dec_value_bounds (str_take 8 (f +:+ zeros 8)) ltac:(done)).
  unfold SCALE. lia.
Qed.

Lemma decimalScale8_fixed8 v : 0 ≤ v → decimalScale8 (fixed8 v) = Ok v.
Proof.
  intros Hv. rewrite fixed8_show by done. unfold decimalScale8.
  rewrite split_show_fixed by (lia || done).
  destruct (fixed_fraction 8 ltac:(lia) v) as (_ & Hl & _). cbn [from_null default from_option id].
  unfold len. rewrite Hl. cbn [Z.of_nat Pos.of_succ_nat Pos.succ Z.leb Z.compare].
  change (8 <=? 8) with true. cbn iota. change "00000000" with (zeros 8).
  rewrite str_take_exact by done. f_equal.
  pose proof (show_fixed_value 8 ltac:(lia) v Hv) as H. rewrite dec_value_append in H.
  unfold len in H. rewrite Hl in H. exact H.
Qed.

(** The amount a fallback settles at, at scale 8: nothing without a recording,
    otherwise the vendor's own amount, or 4.75 rupees per billed half-minute. *)
Definition settled_scale (r : AcceptedAsBilledFallbackReason) (supplied : option Z) (k : Z) : Z :=
  if bool_decide (r = no_recording) then 0 else from_null (475 * k * 1000000) supplied.

Definition reason_of (input : AcceptedAsBilledInput) : AcceptedAsBilledFallbackReason :=
  from_null no_recording (ab_fallbackReason input).

(** The vendor's amount text, when there is one, reads as [supplied]. *)
Definition supplied_reads (input : AcceptedAsBilledInput) (supplied : option Z) : Prop :=
  match vendorBilledAmount input with
  | None => supplied = None
  | Some t => ∃ s, decimalScale8 t = Ok s ∧ supplied = Some s
  end.

Lemma fallbackAmounts_ok input k supplied :
  0 ≤ k → decimalScale8 (vendorBilledMinutes input) = Ok (k * HALF_MINUTE) →
  30000 * k ≤ MAX_SAFE_INTEGER → supplied_reads input supplied →
  fallbackAmounts input = Ok {|
    minuteScale := k * HALF_MINUTE; fb_billableDurationMs := 30000 * k;
    suppliedAmountScale := supplied;
    vendorAssertedAmountScale := from_null (475 * k * 1000000) supplied;
    amountScale := settled_scale (reason_of input) supplied k |}.
Proof.
  intros Hk Hm Hs Hsup. unfold fallbackAmounts. rewrite Hm. cbn [mbind result_bind].
  assert (Z.rem (k * HALF_MINUTE) HALF_MINUTE = 0) as -> by (apply Z.rem_mul; unfold HALF_MINUTE; lia).
  cbn [Z.eqb negb throw_if mbind result_bind].
  assert (Z.quot (k * HALF_MINUTE * 60000) SCALE = 30000 * k) as ->.
  { unfold HALF_MINUTE, SCALE. replace (k * 50000000 * 60000) with (30000 * k * 100000000) by lia.
    apply Z.quot_mul. lia. }
  assert (Z.quot (k * HALF_MINUTE * KSERVE_RATE_PER_MINUTE_PAISE) SCALE = 475 * k) as ->.
  { unfold HALF_MINUTE, SCALE, KSERVE_RATE_PER_MINUTE_PAISE.
    replace (k * 50000000 * 950) with (475 * k * 100000000) by lia. apply Z.quot_mul. lia. }
  assert (match vendorBilledAmount input with
          | Some a => s ← decimalScale8 a; Ok (Some s)
          | None => Ok None
          end = Ok supplied) as ->.
  { unfold supplied_reads in Hsup. destruct (vendorBilledAmount input); [|by subst].
    destruct Hsup as (s' & -> & ->). done. }
  cbn [mbind result_bind]. unfold num_of_bigint.
  assert (isSafeInteger (30000 * k) = true) as Hsafe by (apply isSafeInteger_spec; lia).
  rewrite round53_safe by done. rewrite Hsafe.
  rewrite (proj2 (Z.eqb_eq (475 * k * SCALE) (k * HALF_MINUTE * KSERVE_RATE_PER_MINUTE_PAISE))).
  - done.
  - unfold HALF_MINUTE, SCALE, KSERVE_RATE_PER_MINUTE_PAISE. lia.
Qed.

Section Claims.
Context `{P : Platform}.

Lemma finite_fallbackTrace i rc a eh ih : finite (fallbackTrace_json i rc a eh ih) = true.
Proof. reflexivity. Qed.
Lemma finite_fallbackManifest i a eh : finite (fallbackManifest_json i a eh) = true.
Proof. cbn. by rewrite !finite_jint_opt. Qed.

(** A valid fallback request always settles, and at exactly the documented
    amount: nothing when there is no recording; otherwise the vendor's supplied
    amount, digit for digit in value, or 4.75 rupees for each of its billed
    half-minutes when it supplied none. Total, subtotal and component agree,
    nothing is asserted about the recording, and the stored trace digest is the
    digest of the stored trace. *)
Theorem buildAcceptedAsBilledRecords_settles input rateCard k supplied :
  ab_validateRateCard rateCard = Ok tt → blank (ab_callId input) = false →
  is_sha256 (sha256 (ab_sourceEvidence input)) = true →
  dateParse (ab_decidedAt input) ≠ None →
  0 ≤ k → decimalScale8 (vendorBilledMinutes input) = Ok (k * HALF_MINUTE) →
  30000 * k ≤ MAX_SAFE_INTEGER → supplied_reads input supplied →
  ∃ rec c p, buildAcceptedAsBilledRecords input rateCard = Ok rec ∧
    rec_calculation rec = Some c ∧ rec_component rec = Some p ∧
    toScaled (Some (bc_totalAmount c)) = Some (settled_scale (reason_of input) supplied k) ∧
    bc_subtotalAmount c = bc_totalAmount c ∧ cp_totalAmount p = bc_totalAmount c ∧
    bc_billableDurationMs c = (if bool_decide (reason_of input = no_recording) then 0 else 30000 * k) ∧
    (calculationBasis c = no_recording_zero ↔ reason_of input = no_recording) ∧
    bc_adjustedChargeableDurationMs c = None ∧
    decisionTraceSha256 c = sha256Hex (decisionTraceJson c) ∧
    decisionOutputSha256 (rec_decision rec) = decisionTraceSha256 c.
Proof.
  intros Hrc Hid Hsha Hdate Hk Hm Hs Hsup. unfold buildAcceptedAsBilledRecords.
  rewrite Hrc, Hid, Hsha, bool_decide_eq_false_2 by done. cbn [negb throw_if mbind result_bind].
  rewrite (fallbackAmounts_ok input k supplied) by done. cbn [mbind result_bind].
  set (a := {| minuteScale := _ |}).
  destruct (digest_total (JArr [evidence_json (ab_sourceEvidence input)]) eq_refl) as [eh ->].
  cbn [mbind result_bind].
  destruct (digest_total _ (finite_fallbackManifest input a eh)) as [ih ->]. cbn [mbind result_bind].
  destruct (canonicalJson_total _ (finite_fallbackTrace input rateCard a eh ih)) as [t Ht].
  destruct (digest_total _ (finite_fallbackTrace input rateCard a eh ih)) as [h Hh].
  destruct (canonicalJson_total (JArr [evidence_json (ab_sourceEvidence input)]) eq_refl) as [ev Hev].
  rewrite Ht, Hh, Hev. cbn [mbind result_bind].
  do 3 eexists. split; [reflexivity|]. split; [reflexivity|]. split; [reflexivity|].
  cbn [bc_totalAmount bc_subtotalAmount bc_billableDurationMs bc_adjustedChargeableDurationMs
       calculationBasis fallbackCalculation fallbackComponent cp_totalAmount decisionTraceSha256
       decisionTraceJson rec_decision decisionOutputSha256 fallbackDecision].
  fold (reason_of input).
  split_and!; try done.
  - apply toScaled_fixed8. cbn [amountScale a]. unfold settled_scale.
    case_bool_decide; [lia|]. unfold supplied_reads in Hsup.
    destruct (vendorBilledAmount input); [|subst supplied; cbn; lia].
    destruct Hsup as (sv & Hd & ->). apply decimalScale8_value in Hd as [? _]. done.
  - unfold fallback_basis. case_bool_decide; done.
  - by apply (canonicalJson_sha _ _ _ Ht Hh).
Qed.
End Claims.

(** ** Concrete fallbacks *)

#[local] Existing Instance demo_platform.

Definition sample_fallback (r : AcceptedAsBilledFallbackReason) (amount : option string)
    : AcceptedAsBilledInput :=
  {| ab_callId := "call-1"; ab_auditRunId := None; ab_fallbackReason := Some r;
     ab_claimedDurationMs := Some 90000; ab_connectedDurationMs := Some 80000;
     vendorBilledMinutes := "1.5"; vendorBilledAmount := amount;
     ab_sourceEvidence := {| kind := ek_audio; sha256 := Sample.hex_a; referenceId := "a" |};
     ab_decidedAt := "2026-08-01" |}.

Lemma buildAcceptedAsBilledRecords_settles_witness :
  ∃ rec c, buildAcceptedAsBilledRecords (sample_fallback audit_exhausted (Some "14.2"))
             Sample.the_rate_card = Ok rec ∧
    rec_calculation rec = Some c ∧ toScaled (Some (bc_totalAmount c)) = Some 1420000000.
Proof.
  destruct (buildAcceptedAsBilledRecords_settles (sample_fallback audit_exhausted (Some "14.2"))
    Sample.the_rate_card 3 (Some 1420000000)) as (rec & c & p & H & Hc & _ & Ht & _);
    [vm_compute; reflexivity|reflexivity|vm_compute; reflexivity|discriminate|lia
    |vm_compute; reflexivity|unfold MAX_SAFE_INTEGER; lia| |].
  - exists 1420000000. split; vm_compute; reflexivity.
  - exists rec, c. split; [exact H|]. split; [exact Hc|]. rewrite Ht. reflexivity.
Defined.
