(* ===== verification/AuditedProjection.v ===== *)
(** * The audited charge projection and its settlement

    [src/billing/auditedChargeProjection.ts] (the deterministic price of
    persisted audit facts, capped at the vendor's own amount) and
    [src/billing/auditedProjectionSettlement.ts] (the records it settles as). *)

From S2P Require Import Prelude JsNumber JsText CanonicalJson Decimal KserveRules ReauditTypes CategoryPolicy VerifiedCharge BillingRecords AcceptedAsBilled.
From Stdlib Require Import Ascii.

Local Open Scope string_scope.
#[global] Open Scope Z_scope.

(** ** Boundaries *)

Record AuditedChargeBoundaryInput : Type := {
  bi_category : option string;
  policyServiceEndMs : option Z;
  policyGraceMs : option Z;
  finalCustomerExchangeMs : option Z;
  finalTranscriptSegmentEndMs : option Z;
}.

Inductive BoundarySource : Type := stored_policy | legacy_category_fallback.

Record AuditedChargeBoundary : Type := {
  bd_serviceEndMs : Z;
  bd_graceMs : Z;
  bd_source : BoundarySource;
}.

(** The type guard [validMilliseconds]: the value when it is one. *)
Definition validMilliseconds (value : option Z) : option Z :=
  match value with
  | Some v => if isSafeInteger v && (0 <=? v) then Some v else None
  | None => None
  end.

Definition category_is (o : option string) (c : ReauditCategory) : bool :=
  bool_decide (o = Some (category_text c)).

Definition legacy (serviceEndMs graceMs : Z) : option AuditedChargeBoundary :=
  Some {| bd_serviceEndMs := serviceEndMs; bd_graceMs := graceMs;
          bd_source := legacy_category_fallback |}.

Definition resolveAuditedChargeBoundary (input : AuditedChargeBoundaryInput)
    : option AuditedChargeBoundary :=
  match validMilliseconds (policyServiceEndMs input), validMilliseconds (policyGraceMs input) with
  | Some s, Some g =>
      Some {| bd_serviceEndMs := s; bd_graceMs := g; bd_source := stored_policy |}
  | _, _ =>
      let cat := category_is (bi_category input) in
      if cat INACTIVE_CALL || cat AGENT_FAILURE || cat AI_CONVERSATION_HANDLING ||
         cat NETWORK_FAILURE_TELECOM then legacy 0 0
      else if cat AI_TO_AI then legacy 0 KSERVE_WRAP_UP_GRACE_MS
      else
        match cat USER_SILENCE, cat VOICEMAIL, validMilliseconds (finalTranscriptSegmentEndMs input) with
        | true, _, Some e => legacy e KSERVE_WRAP_UP_GRACE_MS
        | _, true, Some e => legacy e VOICEMAIL_GRACE_MS
        | _, _, _ =>
            match cat OK || cat CONNECT_NOT_FRUITFUL || cat TIME_DURATION,
                  validMilliseconds (finalCustomerExchangeMs input) with
            | true, Some e => legacy e KSERVE_WRAP_UP_GRACE_MS
            | _, _ => None
            end
        end
  end.

(** ** Projection *)

Record AuditedChargeProjectionInput : Type := {
  pi_recordedDurationMs : option Z;
  pi_serviceEndMs : option Z;
  pi_graceMs : option Z;
  vendorAmount : option string;
}.

Record AuditedChargeProjection : Type := {
  pj_adjustedChargeableDurationMs : Z;
  pj_billableDurationMs : Z;
  pj_billableMinutes : string;
  pj_unitRate : string;
  pj_amount : string;
  pj_ruleCode : RuleCode;
  pj_billingIncrement : string;
  pj_rulesetVersion : string;
  cappedByVendorAmount : bool;
}.

Definition pj_increment (r : RuleCode) : string :=
  match r with
  | ZERO_DURATION_NOT_BILLED => "none"
  | SHORT_CALL_FLAT => "0.5 minute flat"
  | PER_MINUTE_CEIL => "1 minute ceiling"
  end.

(** [KSERVE_RULESET_DOCUMENT.ratePerMinute] *)
Definition ratePerMinute : string :=
  match KSERVE_RULESET_DOCUMENT with
  | JObj entries =>
      match filter (fun p => p.1 = "ratePerMinute") entries with
      | (_, JStr s) :: _ => s
      | _ => ""
      end
  | _ => ""
  end.

Definition projectAuditedCharge (input : AuditedChargeProjectionInput)
    : result js_error (option AuditedChargeProjection) :=
  match validMilliseconds (pi_serviceEndMs input) with
  | None => Ok None
  | Some serviceEndMs =>
  match validMilliseconds (pi_graceMs input) with
  | None => Ok None
  | Some graceMs =>
  if match pi_recordedDurationMs input with
     | None => false
     | Some _ => bool_decide (validMilliseconds (pi_recordedDurationMs input) = None)
     end then Ok None
  else
    let endpointWithGrace := num_add serviceEndMs graceMs in
    if negb (isSafeInteger endpointWithGrace) then Ok None
    else
      let adjustedChargeableDurationMs :=
        Z.min (from_null endpointWithGrace (pi_recordedDurationMs input)) endpointWithGrace in
      rounded ← roundKServeChargeableDuration adjustedChargeableDurationMs;
      match toScaled (Some (amount rounded)) with
      | None => Ok None
      | Some projectedAmount =>
          let vendor := toScaled (vendorAmount input) in
          let capped :=
            match vendor with
            | None => false
            | Some v => (0 <=? v) && (v <? projectedAmount)
            end in
          let amount := if capped then fromScaled (from_null 0 vendor) else amount rounded in
          Ok (Some {|
            pj_adjustedChargeableDurationMs := adjustedChargeableDurationMs;
            pj_billableDurationMs := billableDurationMs rounded;
            pj_billableMinutes := billableMinutes rounded;
            pj_unitRate := ratePerMinute;
            pj_amount := amount;
            pj_ruleCode := ruleCode rounded;
            pj_billingIncrement := pj_increment (ruleCode rounded);
            pj_rulesetVersion := KSERVE_RULESET_VERSION;
            cappedByVendorAmount := capped |})
      end
  end
  end.

(** ** Settlement *)

Definition AUDITED_PROJECTION_RULESET : json :=
  JObj [
    ("schemaVersion", JStr "1");
    ("rule", JStr "independent_audited_projection");
    ("basis", JStr "audited chargeable duration priced with the locked KServe ruleset, capped per call at the vendor charge");
    ("classification", JStr "single-pass independent audit; no consensus cross-check was performed");
    ("authority", JStr "deterministic projection over persisted audit facts; not a consensus-validated calculation")].

Definition AUDITED_PROJECTION_RULESET_VERSION : string := "audited-projection/1.0.0".

Definition AUDITED_PROJECTION_RULESET_SHA256 `{Platform} : string :=
  module_digest AUDITED_PROJECTION_RULESET.

Record AuditedProjectionInput : Type := {
  ap_callId : string;
  ap_auditRunId : option string;
  ap_category : option string;
  ap_recordedDurationMs : option Z;
  ap_speechDurationMs : option Z;
  ap_serviceEndMs : option Z;
  ap_graceMs : option Z;
  ap_claimedDurationMs : option Z;
  ap_connectedDurationMs : option Z;
  ap_vendorBilledAmount : option string;
  ap_sourceEvidence : EvidenceHashReference;
  ap_decidedAt : string;
}.

(** A sign, digits, and an optional point with any number of digits; the
    fraction is cut or padded to 8 digits. *)
Definition proj_fixed8 (value : string) : result js_error string :=
  let t := trim value in
  let minus := if starts_with_minus t then "-" else "" in
  let body := if starts_with_minus t then str_drop 1 t else t in
  let '(whole, rest) := span_digits body in
  let err := TypeError "projected amount is not a decimal" in
  if bool_decide (whole = "") then Throw err
  else match rest with
       | EmptyString => Ok (minus +:+ whole +:+ "." +:+ str_take 8 (pad_end 8 ""))
       | String c f =>
           if Ascii.eqb c "." && all_digits f
           then Ok (minus +:+ whole +:+ "." +:+ str_take 8 (pad_end 8 f))
           else Throw err
       end.

Definition persistedIncrement (r : RuleCode) : string :=
  match r with
  | ZERO_DURATION_NOT_BILLED => "zero"
  | SHORT_CALL_FLAT => "0.5_min_flat"
  | PER_MINUTE_CEIL => "1_min_ceil"
  end.

Section Build.
Context `{P : Platform}.

Definition projectionManifest_json (input : AuditedProjectionInput) (p : AuditedChargeProjection)
    (amount8 evidenceManifestSha256 : string) : json :=
  JObj [
    ("callId", JStr (ap_callId input));
    ("category", jstr_opt (ap_category input));
    ("recordedDurationMs", jint_opt (ap_recordedDurationMs input));
    ("serviceEndMs", jint_opt (ap_serviceEndMs input));
    ("graceMs", jint_opt (ap_graceMs input));
    ("adjustedChargeableDurationMs", jint (pj_adjustedChargeableDurationMs p));
    ("billableDurationMs", jint (pj_billableDurationMs p));
    ("amount", JStr amount8);
    ("cappedByVendorAmount", JBool (cappedByVendorAmount p));
    ("vendorBilledAmount", jstr_opt (ap_vendorBilledAmount input));
    ("evidenceManifestSha256", JStr evidenceManifestSha256);
    ("projectionRulesetSha256", JStr AUDITED_PROJECTION_RULESET_SHA256);
    ("billingRulesetSha256", JStr KSERVE_RULESET_SHA256)].

Definition projectionTrace_json (input : AuditedProjectionInput) (rateCard : PublishedRateCard)
    (p : AuditedChargeProjection) (amount8 evidenceManifestSha256 inputManifestSha256 : string)
    : json :=
  JObj [
    ("schemaVersion", JStr "1");
    ("decisionType", JStr "verified_call_billing");
    ("calculationBasis", JStr "independent_audited_projection");
    ("warning", JStr "Priced from this platform's own audited duration under the locked KServe ruleset, capped at the vendor charge. The classification behind it is single-pass; no consensus cross-check was performed.");
    ("callId", JStr (ap_callId input));
    ("category", jstr_opt (ap_category input));
    ("rateCardId", JStr (rc_id rateCard));
    ("rateCardVersion", JStr (rc_version rateCard));
    ("engineVersion", JStr KSERVE_BILLING_ENGINE_VERSION);
    ("rulesetVersion", JStr KSERVE_RULESET_VERSION);
    ("rulesetSha256", JStr KSERVE_RULESET_SHA256);
    ("projectionRulesetVersion", JStr AUDITED_PROJECTION_RULESET_VERSION);
    ("projectionRulesetSha256", JStr AUDITED_PROJECTION_RULESET_SHA256);
    ("evidence", JArr [evidence_json (ap_sourceEvidence input)]);
    ("evidenceManifestSha256", JStr evidenceManifestSha256);
    ("inputManifestSha256", JStr inputManifestSha256);
    ("recordedDurationMs", jint_opt (ap_recordedDurationMs input));
    ("serviceEndMs", jint_opt (ap_serviceEndMs input));
    ("wrapUpGraceMs", jint_opt (ap_graceMs input));
    ("adjustedChargeableDurationMs", jint (pj_adjustedChargeableDurationMs p));
    ("billableDurationMs", jint (pj_billableDurationMs p));
    ("billableMinutes", JStr (pj_billableMinutes p));
    ("unitRate", JStr (pj_unitRate p));
    ("ruleCode", JStr (ruleCode_text (pj_ruleCode p)));
    ("cappedByVendorAmount", JBool (cappedByVendorAmount p));
    ("vendorBilledAmount", jstr_opt (ap_vendorBilledAmount input));
    ("amount", JStr amount8);
    ("currency", JStr "INR");
    ("outcome", JObj [("status", JStr "final");
                      ("reasonCode", JStr "INDEPENDENT_AUDITED_PROJECTION")]);
    ("decidedAt", JStr (ap_decidedAt input))].

Definition projectionCalculation (input : AuditedProjectionInput) (rateCard : PublishedRateCard)
    (p : AuditedChargeProjection) (amount8 inputManifestSha256 outputJson outputSha256 : string)
    : BillingCalculationRecord :=
  {| bc_callId := ap_callId input;
     rateCardVersionId := rc_id rateCard;
     bc_auditRunId := ap_auditRunId input;
     bc_engineVersion := KSERVE_BILLING_ENGINE_VERSION;
     bc_inputManifestSha256 := inputManifestSha256;
     bc_status := "final";
     calculationBasis := independent_audited_projection;
     bc_claimedDurationMs := ap_claimedDurationMs input;
     bc_connectedDurationMs := ap_connectedDurationMs input;
     bc_recordedDurationMs := ap_recordedDurationMs input;
     bc_speechDurationMs := ap_speechDurationMs input;
     conversationEndMs := ap_serviceEndMs input;
     wrapUpGraceMs := ap_graceMs input;
     bc_adjustedChargeableDurationMs := Some (pj_adjustedChargeableDurationMs p);
     bc_billableDurationMs := pj_billableDurationMs p;
     bc_oneWayTailMs := None;
     bc_oneWayTailAlert := None;
     bc_subtotalAmount := amount8;
     bc_taxAmount := "0.00000000";
     bc_totalAmount := amount8;
     bc_currency := "INR";
     bc_rulesetSha256 := KSERVE_RULESET_SHA256;
     decisionTraceJson := outputJson;
     decisionTraceSha256 := outputSha256;
     bc_calculatedAt := ap_decidedAt input;
     finalizedAt := ap_decidedAt input |}.

Definition projectionComponent (p : AuditedChargeProjection) (amount8 outputJson : string)
    : BillingComponentRecord :=
  {| componentType := "platform";
     cp_ruleCode := ruleCode_text (pj_ruleCode p);
     rawQuantity := show_Z (pj_adjustedChargeableDurationMs p) +:+ ".00000000";
     rawUnit := "millisecond";
     billableQuantity := pj_billableMinutes p;
     billingIncrement := persistedIncrement (pj_ruleCode p);
     unitRate := pj_unitRate p;
     cp_subtotalAmount := amount8;
     cp_taxAmount := "0.00000000";
     cp_totalAmount := amount8;
     cp_currency := "INR";
     resultStatus := "final";
     explanationJson := outputJson |}.

Definition projectionDecision (input : AuditedProjectionInput)
    (evidenceManifestSha256 evidenceRefs inputManifestSha256 outputJson outputSha256 : string)
    : AutomatedDecisionRecord :=
  {| ad_callId := ap_callId input;
     ad_auditRunId := ap_auditRunId input;
     ad_decisionType := "verified_call_billing";
     decisionStatus := "final";
     ad_reasonCode := "INDEPENDENT_AUDITED_PROJECTION";
     ad_nextAction := None;
     ad_sensitivityTier := "K0";
     languageCode := "unknown";
     ad_findingType := "INDEPENDENT_AUDITED_PROJECTION";
     decisionEngineName := "kserve-verified-billing";
     decisionEngineVersion := KSERVE_BILLING_ENGINE_VERSION;
     modelProvider := "none";
     modelName := "deterministic-audited-projection";
     modelVersion := AUDITED_PROJECTION_RULESET_VERSION;
     ad_rulesetVersion := KSERVE_RULESET_VERSION;
     ad_rulesetSha256 := KSERVE_RULESET_SHA256;
     ad_classifierRulesetVersion := AUDITED_PROJECTION_RULESET_VERSION;
     ad_classifierRulesetSha256 := AUDITED_PROJECTION_RULESET_SHA256;
     ad_calibrationVersion := None;
     ad_confidence := "1.00000000";
     confidenceThreshold := Some "1.00000000";
     ad_evidenceManifestSha256 := evidenceManifestSha256;
     evidenceRefsJson := evidenceRefs;
     ad_inputManifestSha256 := inputManifestSha256;
     decisionOutputJson := outputJson;
     decisionOutputSha256 := outputSha256;
     ad_recheckAttempt := 0;
     ad_decidedAt := ap_decidedAt input |}.

Definition projection_input (input : AuditedProjectionInput) : AuditedChargeProjectionInput :=
  {| pi_recordedDurationMs := ap_recordedDurationMs input;
     pi_serviceEndMs := ap_serviceEndMs input;
     pi_graceMs := ap_graceMs input;
     vendorAmount := ap_vendorBilledAmount input |}.

Definition buildAuditedProjectionRecords (input : AuditedProjectionInput)
    (rateCard : PublishedRateCard) : result js_error (option VerifiedBillingRecords) :=
  ab_validateRateCard rateCard ≫= fun _ =>
  throw_if (blank (ap_callId input)) (TypeError "callId is required") ≫= fun _ =>
  throw_if (negb (is_sha256 (sha256 (ap_sourceEvidence input))))
    (TypeError "source evidence must carry a SHA-256 hash") ≫= fun _ =>
  throw_if (bool_decide (dateParse (ap_decidedAt input) = None))
    (TypeError "decidedAt must be an ISO timestamp") ≫= fun _ =>
  projection ← projectAuditedCharge (projection_input input);
  match projection with
  | None => Ok None
  | Some p =>
      let evidence := JArr [evidence_json (ap_sourceEvidence input)] in
      evidenceManifestSha256 ← canonicalJsonSha256 evidence;
      amount8 ← proj_fixed8 (pj_amount p);
      inputManifestSha256 ←
        canonicalJsonSha256 (projectionManifest_json input p amount8 evidenceManifestSha256);
      let trace :=
        projectionTrace_json input rateCard p amount8 evidenceManifestSha256 inputManifestSha256 in
      outputJson ← canonicalJson trace;
      outputSha256 ← canonicalJsonSha256 trace;
      evidenceRefs ← canonicalJson evidence;
      Ok (Some {|
        rec_calculation :=
          Some (projectionCalculation input rateCard p amount8 inputManifestSha256
                  outputJson outputSha256);
        rec_component := Some (projectionComponent p amount8 outputJson);
        rec_decision :=
          projectionDecision input evidenceManifestSha256 evidenceRefs inputManifestSha256
            outputJson outputSha256 |})
  end.
End Build.

(** ** Facts *)

Lemma validMilliseconds_Some v z :
  validMilliseconds v = Some z ↔ v = Some z ∧ 0 ≤ z ≤ MAX_SAFE_INTEGER.
Proof.
  unfold validMilliseconds. destruct v as [w|]; [|naive_solver].
  destruct (isSafeInteger w && (0 <=? w)) eqn:E.
  - to_prop. rewrite isSafeInteger_spec in *. naive_solver lia.
  - split; [done|]. intros [[= ->] Hz]. apply andb_false_iff in E as [E|E].
    + apply not_true_iff_false in E. rewrite isSafeInteger_spec in E. lia.
    + apply Z.leb_gt in E. lia.
Qed.

Lemma validMilliseconds_intro z :
  0 ≤ z ≤ MAX_SAFE_INTEGER → validMilliseconds (Some z) = Some z.
Proof. intros. by apply validMilliseconds_Some. Qed.

(** A recorded duration the projection accepts. *)
Definition recorded_valid (o : option Z) : Prop :=
  match o with Some z => 0 ≤ z ≤ MAX_SAFE_INTEGER | None => True end.

(** The price of the rules, at the scale of the column, and the vendor's cap. *)
Definition rule_scale (ms : Z) : Z := 475 * half_minutes ms * 1000000.

Definition capped_scale (ms : Z) (vendor : option string) : Z :=
  match toScaled vendor with
  | Some v => if 0 <=? v then Z.min v (rule_scale ms) else rule_scale ms
  | None => rule_scale ms
  end.

Definition is_capped (ms : Z) (vendor : option string) : bool :=
  match toScaled vendor with
  | Some v => (0 <=? v) && (v <? rule_scale ms)
  | None => false
  end.

(** The whole projection, on valid facts. *)
Lemma projectAuditedCharge_spec input s g :
  pi_serviceEndMs input = Some s → pi_graceMs input = Some g →
  0 ≤ s → 0 ≤ g → s + g ≤ MAX_SAFE_INTEGER → recorded_valid (pi_recordedDurationMs input) →
  let ms := Z.min (from_null (s + g) (pi_recordedDurationMs input)) (s + g) in
  let r := charge_of (half_minutes ms) in
  30000 * half_minutes ms ≤ MAX_SAFE_INTEGER →
  projectAuditedCharge input = Ok (Some {|
    pj_adjustedChargeableDurationMs := ms;
    pj_billableDurationMs := billableDurationMs r;
    pj_billableMinutes := billableMinutes r;
    pj_unitRate := "9.50000000";
    pj_amount := if is_capped ms (vendorAmount input)
                 then fromScaled (from_null 0 (toScaled (vendorAmount input))) else amount r;
    pj_ruleCode := ruleCode r;
    pj_billingIncrement := pj_increment (ruleCode r);
    pj_rulesetVersion := KSERVE_RULESET_VERSION;
    cappedByVendorAmount := is_capped ms (vendorAmount input) |}).
Proof.
  intros Hs Hg Hs0 Hg0 Hsg Hrec ms r Hms. unfold projectAuditedCharge.
  rewrite Hs, Hg, !validMilliseconds_intro by lia.
  assert (match pi_recordedDurationMs input with
          | Some _ => bool_decide (validMilliseconds (pi_recordedDurationMs input) = None)
          | None => false
          end = false) as ->.
  { destruct (pi_recordedDurationMs input) as [z|]; [|done].
    rewrite validMilliseconds_intro by done. done. }
  rewrite num_add_safe by lia.
  assert (isSafeInteger (s + g) = true) as -> by (apply isSafeInteger_spec; lia). cbn [negb].
  fold ms. assert (0 ≤ ms ≤ MAX_SAFE_INTEGER) as Hb.
  { unfold ms, recorded_valid in *. destruct (pi_recordedDurationMs input); cbn; lia. }
  rewrite round_spec by done. pose proof (half_minutes_bounds ms ltac:(lia)).
  rewrite chargeForHalfMinutes_spec, (proj2 (Z.leb_le _ _) Hms) by lia.
  cbn [mbind result_bind]. fold r.
  assert (toScaled (Some (amount r)) = Some (rule_scale ms)) as -> by (apply toScaled_paise; lia).
  done.
Qed.

Lemma projected_amount_scale ms vendor :
  0 ≤ ms →
  toScaled (Some (if is_capped ms vendor then fromScaled (from_null 0 (toScaled vendor))
                  else amount (charge_of (half_minutes ms)))) = Some (capped_scale ms vendor).
Proof.
  intros Hms. pose proof (half_minutes_bounds ms Hms). unfold is_capped, capped_scale.
  assert (toScaled (Some (amount (charge_of (half_minutes ms)))) = Some (rule_scale ms)) as Hr
    by (apply toScaled_paise; lia).
  destruct (toScaled vendor) as [v|]; [|done].
  destruct (Z.leb_spec 0 v); cbn [andb]; [|done].
  destruct (Z.ltb_spec v (rule_scale ms)).
  - cbn [from_null default from_option id]. rewrite toScaled_fromScaled. f_equal. lia.
  - rewrite Hr. f_equal. lia.
Qed.

Lemma capped_scale_nonneg ms vendor : 0 ≤ ms → 0 ≤ capped_scale ms vendor.
Proof.
  intros Hms. pose proof (half_minutes_bounds ms Hms). unfold capped_scale, rule_scale.
  destruct (toScaled vendor) as [v|]; [|lia]. destruct (Z.leb_spec 0 v); lia.
Qed.

(** *** One amount, one text *)

(** [fixed8] of an unsigned decimal text: its whole digits and eight fraction
    digits. *)
Lemma proj_fixed8_split s w o :
  split_decimal s = Some (w, o) →
  proj_fixed8 s = Ok (w +:+ "." +:+ str_take 8 (pad_end 8 (from_null "" o))).
Proof.
  intros E. pose proof (split_decimal_inv _ _ _ E) as (Hw & Hne & Ho).
  assert (all_visible s = true) as Hv.
  { destruct o as [f|]; [destruct Ho as (-> & Hf & _)|subst s].
    - rewrite !all_visible_append, (all_digits_visible w), (all_digits_visible f) by done. done.
    - by apply all_digits_visible. }
  unfold proj_fixed8. rewrite trim_visible by done.
  assert (starts_with_minus s = false) as ->.
  { destruct s as [|c s]; [done|]. unfold starts_with_minus.
    destruct (Ascii.eqb_spec c "-") as [->|]; [|done]. discriminate E. }
  unfold split_decimal in E. destruct (span_digits s) as [w' r]. case_bool_decide; [done|].
  rewrite append_nil_l. destruct r as [|c f].
  - injection E as -> <-. done.
  - destruct (ascii_dec c ".") as [->|Hc].
    + destruct (all_digits f && negb (bool_decide (f = ""))) eqn:Ef; [|done].
      injection E as -> <-. apply andb_true_iff in Ef as [-> _]. done.
    + exfalso. destruct c as [[] [] [] [] [] [] [] []]; done.
Qed.

Lemma proj_fixed8_show_fixed v : 0 ≤ v → proj_fixed8 (show_fixed 8 v) = Ok (show_fixed 8 v).
Proof.
  intros Hv. rewrite (proj_fixed8_split _ _ _ (split_show_fixed 8 ltac:(lia) v Hv)).
  destruct (fixed_fraction 8 ltac:(lia) v) as (_ & Hl & _). cbn [from_null default from_option id].
  by rewrite str_take_pad_end.
Qed.

(** The two spellings of one amount are normalised to the same eight places. *)
Lemma proj_fixed8_fromScaled v : 0 ≤ v → proj_fixed8 (fromScaled v) = Ok (show_fixed 8 v).
Proof.
  intros Hv. destruct (fixed_fraction 8 ltac:(lia) v) as (Hf & Hl & _).
  destruct (cut_slices 8 ltac:(lia) v Hv) as [Hw' Hf'].
  assert (0 ≤ v / 10 ^ Z.of_nat 8) as Hq by (apply Z.div_pos; lia).
  assert (fromScaled v = magnitude_text v) as ->.
  { unfold fromScaled. rewrite (proj2 (Z.ltb_ge v 0)) by done. by rewrite append_nil_l. }
  unfold magnitude_text, show_fixed. change SCALE_DIGITS with 8%nat. rewrite Hw', Hf'.
  set (f := pad_start 8 _) in *. set (w := show_nat _).
  assert (all_digits w = true ∧ w ≠ "") as [Hw Hwne] by (unfold w; split; auto with kaudit).
  assert (str_take 8 (pad_end 8 (strip_trailing_zeros f)) = f) as Ht.
  { unfold pad_end. rewrite <- (str_take_zeros 8 8) by lia.
    rewrite <- Hl. rewrite Hl at 2. rewrite <- Hl. apply strip_pad_take. }
  case_bool_decide as Ef.
  - rewrite append_nil_r, (proj_fixed8_split w w None) by by apply split_decimal_whole.
    rewrite Ef in Ht. cbn [from_null default from_option]. by rewrite Ht.
  - rewrite (proj_fixed8_split _ w (Some (strip_trailing_zeros f))).
    + cbn [from_null default from_option id]. by rewrite Ht.
    + apply split_decimal_point; auto. by apply all_digits_strip.
Qed.

Lemma show_fixed_2_8 p : 0 ≤ p → show_fixed 2 p +:+ "000000" = show_fixed 8 (p * 1000000).
Proof.
  intros Hp. unfold show_fixed. rewrite !append_assoc'.
  change (10 ^ Z.of_nat 2) with 100. change (10 ^ Z.of_nat 8) with (100 * 1000000).
  rewrite Z.div_mul_cancel_r, Zmult_mod_distr_r by lia. do 2 f_equal.
  destruct (fixed_fraction 2 ltac:(lia) p) as (Hf & Hl & Hv).
  change (10 ^ Z.of_nat 2) with 100 in *.
  pose proof (Z.mod_pos_bound p 100 ltac:(lia)) as Hb.
  apply dec_value_inj.
  - by rewrite all_digits_append, Hf.
  - unfold pad_start. rewrite all_digits_append, all_digits_zeros, show_nat_digits; lia.
  - rewrite length_append, Hl, length_pad_start.
    pose proof (length_show_nat 8 (p mod 100 * 1000000)
      ltac:(change (10 ^ Z.of_nat 8) with 100000000; lia) ltac:(lia)).
    cbn [String.length]. lia.
  - rewrite dec_value_append, Hv, dec_value_pad_start, dec_value_show_nat by lia.
    change (10 ^ len "000000") with 1000000. change (dec_value "000000") with 0. lia.
Qed.

(** The stored text of a projected amount depends on its value only. *)
Lemma projected_amount_text ms vendor :
  0 ≤ ms →
  proj_fixed8 (if is_capped ms vendor then fromScaled (from_null 0 (toScaled vendor))
               else amount (charge_of (half_minutes ms))) =
  Ok (show_fixed 8 (capped_scale ms vendor)).
Proof.
  intros Hms. pose proof (half_minutes_bounds ms Hms). unfold is_capped, capped_scale.
  assert (proj_fixed8 (amount (charge_of (half_minutes ms))) = Ok (show_fixed 8 (rule_scale ms))) as Hr.
  { cbn [amount charge_of]. rewrite show_fixed_2_8 by lia. fold (rule_scale ms).
    apply proj_fixed8_show_fixed. unfold rule_scale. lia. }
  destruct (toScaled vendor) as [v|]; [|done].
  destruct (Z.leb_spec 0 v); cbn [andb]; [|done].
  destruct (Z.ltb_spec v (rule_scale ms)).
  - cbn [from_null default from_option id]. rewrite proj_fixed8_fromScaled by done.
    do 2 f_equal. lia.
  - rewrite Hr. do 2 f_equal. lia.
Qed.

(** ** Theorems *)

(** The chargeable milliseconds of valid audit facts. *)
Definition projected_ms (recorded : option Z) (s g : Z) : Z :=
  Z.min (from_null (s + g) recorded) (s + g).

Lemma projected_ms_bounds recorded s g :
  0 ≤ s → 0 ≤ g → s + g ≤ MAX_SAFE_INTEGER → recorded_valid recorded →
  0 ≤ projected_ms recorded s g ≤ s + g.
Proof. intros ???. unfold projected_ms, recorded_valid. destruct recorded; cbn; lia. Qed.

Lemma projectAuditedCharge_null input :
  validMilliseconds (pi_serviceEndMs input) = None ∨
  validMilliseconds (pi_graceMs input) = None ∨
  (∃ z, pi_recordedDurationMs input = Some z ∧ validMilliseconds (Some z) = None) →
  projectAuditedCharge input = Ok None.
Proof.
  unfold projectAuditedCharge. intros [H|[H|(z & Hz & H)]].
  - by rewrite H.
  - rewrite H. by destruct (validMilliseconds (pi_serviceEndMs input)).
  - rewrite Hz, H. destruct (validMilliseconds (pi_serviceEndMs input)); [|done].
    destruct (validMilliseconds (pi_graceMs input)); [|done]. done.
Qed.

(** the audited projection prices the chargeable duration (service end plus
    grace, within the recording when its length is known) with the rounding
    rules and caps the amount at the vendor's own charge; the cap applies
    exactly when the vendor's amount is a non-negative amount below the
    rule's price, and the amount shown denotes exactly the smaller of the two. *)
Theorem projectAuditedCharge_capped input s g :
  pi_serviceEndMs input = Some s → pi_graceMs input = Some g →
  0 ≤ s → 0 ≤ g → s + g ≤ MAX_SAFE_INTEGER - 60000 →
  recorded_valid (pi_recordedDurationMs input) →
  let ms := projected_ms (pi_recordedDurationMs input) s g in
  ∃ p, projectAuditedCharge input = Ok (Some p) ∧
    pj_adjustedChargeableDurationMs p = ms ∧
    toScaled (Some (pj_amount p)) = Some (capped_scale ms (vendorAmount input)) ∧
    capped_scale ms (vendorAmount input) ≤ rule_scale ms ∧
    (∀ v, toScaled (vendorAmount input) = Some v → 0 ≤ v →
       capped_scale ms (vendorAmount input) ≤ v) ∧
    (cappedByVendorAmount p = true ↔
       ∃ v, toScaled (vendorAmount input) = Some v ∧ 0 ≤ v < rule_scale ms) ∧
    pj_billableDurationMs p = 30000 * half_minutes ms.
Proof.
  intros Hs Hg Hs0 Hg0 Hsg Hrec ms.
  pose proof (projected_ms_bounds (pi_recordedDurationMs input) s g Hs0 Hg0
    ltac:(unfold MAX_SAFE_INTEGER in *; lia) Hrec) as Hb. fold ms in Hb.
  pose proof (half_minutes_bounds ms ltac:(lia)) as Hh.
  pose proof (projectAuditedCharge_spec input s g Hs Hg Hs0 Hg0 ltac:(lia) Hrec) as H.
  fold (projected_ms (pi_recordedDurationMs input) s g) in H. fold ms in H. cbv zeta in H.
  eexists; split; [apply H; lia|].
  cbn [pj_adjustedChargeableDurationMs pj_amount cappedByVendorAmount pj_billableDurationMs
       billableDurationMs charge_of].
  split; [done|]. split; [apply projected_amount_scale; lia|].
  unfold capped_scale, is_capped. destruct (toScaled (vendorAmount input)) as [v|].
  - destruct (Z.leb_spec 0 v); cbn [andb].
    + rewrite Z.ltb_lt. split_and!; [lia| |split|done].
      * intros ? [= <-] _. lia.
      * intros. exists v. split; [done|lia].
      * intros (? & [= <-] & ?). lia.
    + split_and!; [lia| |split|done]; [intros ? [= <-]; lia|done|].
      intros (? & [= <-] & ?). lia.
  - split_and!; [lia|done| |done]. split; [done|]. by intros (? & ? & _).
Qed.

Lemma projectAuditedCharge_capped_witness :
  ∃ p, projectAuditedCharge {| pi_recordedDurationMs := Some 200000; pi_serviceEndMs := Some 100000;
         pi_graceMs := Some 60000; vendorAmount := Some "19" |} = Ok (Some p) ∧
       toScaled (Some (pj_amount p)) = Some 1900000000.
Proof.
  destruct (projectAuditedCharge_capped {| pi_recordedDurationMs := Some 200000;
    pi_serviceEndMs := Some 100000; pi_graceMs := Some 60000; vendorAmount := Some "19" |}
    100000 60000 eq_refl eq_refl) as (p & H & _ & Ha & _);
    [lia|lia|unfold MAX_SAFE_INTEGER; lia|cbn; unfold MAX_SAFE_INTEGER; lia|].
  exists p. split; [exact H|]. rewrite Ha. vm_compute. reflexivity.
Defined.

(** Pricing a persisted category decision reproduces the chargeable
    duration the resolver decided: the stored service end and grace are used as
    they are, whatever the category. *)
Theorem stored_boundary_reprices (e : CategoryChargeEvidence) category vendor :
  recorded_ok e → ev_recordedDurationMs e ≤ MAX_SAFE_INTEGER - 120000 →
  let d := resolveCategoryCharge e in
  let boundary := resolveAuditedChargeBoundary {|
    bi_category := category; policyServiceEndMs := Some (dec_serviceEndMs d);
    policyGraceMs := Some (dec_graceMs d); finalCustomerExchangeMs := None;
    finalTranscriptSegmentEndMs := None |} in
  ∃ b p, boundary = Some b ∧ bd_source b = stored_policy ∧
    projectAuditedCharge {|
      pi_recordedDurationMs := Some (ev_recordedDurationMs e);
      pi_serviceEndMs := Some (bd_serviceEndMs b); pi_graceMs := Some (bd_graceMs b);
      vendorAmount := vendor |} = Ok (Some p) ∧
    pj_adjustedChargeableDurationMs p = dec_adjustedChargeableDurationMs d.
Proof.
  intros He Hmax d boundary. destruct (resolve_bounds e He) as (H1 & H2 & H3).
  fold d in H1, H2, H3. unfold recorded_ok in He.
  unfold boundary, resolveAuditedChargeBoundary. cbn [policyServiceEndMs policyGraceMs].
  rewrite !validMilliseconds_intro by lia. do 2 eexists. split; [reflexivity|]. split; [reflexivity|].
  cbn [bd_serviceEndMs bd_graceMs].
  set (ms := projected_ms (Some (ev_recordedDurationMs e)) (dec_serviceEndMs d) (dec_graceMs d)).
  assert (ms = dec_adjustedChargeableDurationMs d) as Hms.
  { unfold ms, projected_ms. cbn. rewrite H3. done. }
  pose proof (half_minutes_bounds ms ltac:(unfold ms, projected_ms; cbn; lia)).
  split.
  - apply projectAuditedCharge_spec; try reflexivity; try lia.
    + cbn. lia.
    + cbn [pi_recordedDurationMs]. fold (projected_ms (Some (ev_recordedDurationMs e))
        (dec_serviceEndMs d) (dec_graceMs d)). fold ms.
      unfold ms, projected_ms in *. cbn [from_null default from_option id] in *. lia.
  - exact Hms.
Qed.

Lemma stored_boundary_reprices_witness :
  let e := no_moments AI_TO_AI 90000 in
  ∃ p, projectAuditedCharge {| pi_recordedDurationMs := Some 90000; pi_serviceEndMs := Some 0;
         pi_graceMs := Some 60000; vendorAmount := None |} = Ok (Some p) ∧
       pj_adjustedChargeableDurationMs p = 60000.
Proof.
  intros e. destruct (stored_boundary_reprices e None None) as (b & p & Hb & _ & Hp & Ha);
    [unfold recorded_ok, MAX_SAFE_INTEGER; cbn; lia|unfold MAX_SAFE_INTEGER; cbn; lia|].
  vm_compute in Hb. injection Hb as <-. exists p. split; [exact Hp|]. rewrite Ha. reflexivity.
Defined.

Section Settle.
Context `{P : Platform}.

Lemma finite_projectionTrace i rc p a eh ih : finite (projectionTrace_json i rc p a eh ih) = true.
Proof. cbn. by rewrite !finite_jint_opt, !finite_jstr_opt. Qed.
Lemma finite_projectionManifest i p a eh : finite (projectionManifest_json i p a eh) = true.
Proof. cbn. by rewrite !finite_jint_opt, !finite_jstr_opt. Qed.

(** A call with valid audit facts always settles from them: the stored total
    is the eight-place text of the smaller of the rule's price and the vendor's
    own charge, one text per value whichever of the two produced it, and the
    stored trace digest is that of the stored trace. A call without a usable
    duration settles nothing: no record, rather than a zero. *)
Theorem buildAuditedProjectionRecords_settles input rateCard :
  ab_validateRateCard rateCard = Ok tt → blank (ap_callId input) = false →
  is_sha256 (sha256 (ap_sourceEvidence input)) = true →
  dateParse (ap_decidedAt input) ≠ None → recorded_valid (ap_recordedDurationMs input) →
  match ap_serviceEndMs input, ap_graceMs input with
  | Some s, Some g =>
      0 ≤ s → 0 ≤ g → s + g ≤ MAX_SAFE_INTEGER - 60000 →
      let ms := projected_ms (ap_recordedDurationMs input) s g in
      ∃ rec c p, buildAuditedProjectionRecords input rateCard = Ok (Some rec) ∧
        rec_calculation rec = Some c ∧ rec_component rec = Some p ∧
        bc_totalAmount c = show_fixed 8 (capped_scale ms (ap_vendorBilledAmount input)) ∧
        bc_subtotalAmount c = bc_totalAmount c ∧ cp_totalAmount p = bc_totalAmount c ∧
        bc_adjustedChargeableDurationMs c = Some ms ∧
        decisionTraceSha256 c = sha256Hex (decisionTraceJson c)
  | _, _ => buildAuditedProjectionRecords input rateCard = Ok None
  end.
Proof.
  intros Hrc Hid Hsha Hdate Hrec. unfold buildAuditedProjectionRecords.
  rewrite Hrc, Hid, Hsha, bool_decide_eq_false_2 by done. cbn [negb throw_if mbind result_bind].
  destruct (ap_serviceEndMs input) as [s|] eqn:Es;
    [destruct (ap_graceMs input) as [g|] eqn:Eg|].
  - intros Hs Hg Hsg. set (ms := projected_ms (ap_recordedDurationMs input) s g).
    pose proof (projected_ms_bounds (ap_recordedDurationMs input) s g Hs Hg
      ltac:(unfold MAX_SAFE_INTEGER in *; lia) Hrec) as Hb. fold ms in Hb.
    pose proof (half_minutes_bounds ms ltac:(lia)) as Hh.
    erewrite projectAuditedCharge_spec; try eassumption; try lia;
      cbn [projection_input pi_recordedDurationMs vendorAmount];
      fold (projected_ms (ap_recordedDurationMs input) s g); fold ms; [|lia].
    cbn [mbind result_bind].
    set (p := {| pj_adjustedChargeableDurationMs := ms |}).
    destruct (digest_total (JArr [evidence_json (ap_sourceEvidence input)]) eq_refl) as [eh ->].
    cbn [mbind result_bind].
    assert (proj_fixed8 (pj_amount p) = Ok (show_fixed 8 (capped_scale ms (ap_vendorBilledAmount input))))
      as -> by (apply projected_amount_text; lia).
    cbn [mbind result_bind]. set (a8 := show_fixed 8 _).
    destruct (digest_total _ (finite_projectionManifest input p a8 eh)) as [ih ->].
    cbn [mbind result_bind].
    destruct (canonicalJson_total _ (finite_projectionTrace input rateCard p a8 eh ih)) as [t Ht].
    destruct (digest_total _ (finite_projectionTrace input rateCard p a8 eh ih)) as [h Hh'].
    destruct (canonicalJson_total (JArr [evidence_json (ap_sourceEvidence input)]) eq_refl)
      as [ev Hev].
    rewrite Ht, Hh', Hev. cbn [mbind result_bind].
    do 3 eexists. split; [reflexivity|]. split; [reflexivity|]. split; [reflexivity|].
    split_and!; try reflexivity. by apply (canonicalJson_sha _ _ _ Ht Hh').
  - rewrite projectAuditedCharge_null; [done|]. right. left. cbn. by rewrite Eg.
  - rewrite projectAuditedCharge_null; [done|]. left. cbn. by rewrite Es.
Qed.
End Settle.

#[local] Existing Instance demo_platform.

Definition sample_projection : AuditedProjectionInput :=
  {| ap_callId := "call-1"; ap_auditRunId := Some "run"; ap_category := Some "OK";
     ap_recordedDurationMs := Some 200000; ap_speechDurationMs := None;
     ap_serviceEndMs := Some 100000; ap_graceMs := Some 60000; ap_claimedDurationMs := None;
     ap_connectedDurationMs := None; ap_vendorBilledAmount := Some "19.5";
     ap_sourceEvidence := {| kind := ek_audio; sha256 := Sample.hex_a; referenceId := "a" |};
     ap_decidedAt := "2026-08-01" |}.

Lemma buildAuditedProjectionRecords_settles_witness :
  ∃ rec c, buildAuditedProjectionRecords sample_projection Sample.the_rate_card = Ok (Some rec) ∧
    rec_calculation rec = Some c ∧ bc_totalAmount c = "19.50000000".
Proof.
  destruct (buildAuditedProjectionRecords_settles sample_projection Sample.the_rate_card)
    as (rec & c & p & H & Hc & _ & Ht & _);
    [vm_compute; reflexivity|reflexivity|vm_compute; reflexivity|discriminate
    |cbn; unfold MAX_SAFE_INTEGER; lia|lia|lia|unfold MAX_SAFE_INTEGER; lia|].
  exists rec, c. split; [exact H|]. split; [exact Hc|]. rewrite Ht. vm_compute. reflexivity.
Defined.
