(* ===== verification/Settlement.v ===== *)
(** * The monthly KServe settlement

    [src/billing/kserveSettlement.ts]: exact decimal money, the period, key and
    identity of a settlement request, and the month's savings. *)

From S2P Require Import Prelude JsNumber JsText Calendar CanonicalJson Decimal KserveRules VerifiedCharge.
From Stdlib Require Import Ascii.

Local Open Scope string_scope.
#[global] Open Scope Z_scope.

(** A value of type [unknown]: what the code can tell apart about it. [u_other]
    carries [String(value)]. *)
Inductive unknown : Type :=
| u_undefined
| u_null
| u_string (s : string)
| u_other (as_text : string).

(** The typed failures, and anything else that was thrown. *)
Inductive settlement_error : Type :=
| KserveSettlementInputError (field reason : string)
| KserveSettlementConflictError (field reason : string)
| KserveSettlementUnavailableError
| OtherThrown (e : js_error).

Definition asSafeSettlementError (error : settlement_error) : settlement_error :=
  match error with
  | KserveSettlementInputError _ _ | KserveSettlementConflictError _ _
  | KserveSettlementUnavailableError => error
  | OtherThrown _ => KserveSettlementUnavailableError
  end.

Definition InputError {A} (field reason : string) : result settlement_error A :=
  Throw (KserveSettlementInputError field reason).

(** ** Fixed-precision money *)

Definition MONEY_SCALE_DIGITS : nat := 8.
Definition MAX_FINAL_PAID_AMOUNT_INR : string := "99999999999.99999999".
Definition MAX_FINAL_PAID_SCALED : Z := 9999999999999999999.
Definition MAX_AMOUNT_TEXT_LENGTH : Z := 32.

(** [/^(-?)(\d{1,12})(?:\.(\d{1,8}))?$/]: sign, whole digits, fraction. *)
Definition EXACT_DECIMAL (text : string) : option (bool * string * string) :=
  let neg := starts_with_minus text in
  let body := if neg then str_drop 1 text else text in
  match split_decimal body with
  | Some (whole, fraction) =>
      let f := from_null "" fraction in
      if (len whole <=? 12) && (len f <=? 8) then Some (neg, whole, f) else None
  | None => None
  end.

Definition parseExactDecimal (value : unknown) (field : string) : result settlement_error Z :=
  match value with
  | u_string s =>
      let text := trim s in
      if bool_decide (text = "") then InputError field "must not be blank"
      else if MAX_AMOUNT_TEXT_LENGTH <? units text then
        InputError field ("must be at most " +:+ show_Z MAX_AMOUNT_TEXT_LENGTH +:+ " characters")
      else
        match EXACT_DECIMAL text with
        | None =>
            InputError field "must be a plain decimal amount with at most 12 whole digits and 8 decimal places"
        | Some (sign, whole, fraction) =>
            let magnitude := dec_value (whole +:+ pad_end MONEY_SCALE_DIGITS fraction) in
            Ok (if sign then - magnitude else magnitude)
        end
  | _ => InputError field "must be a decimal string"
  end.

Definition formatScaledMoney (value : Z) : string :=
  let negative := value <? 0 in
  let digits := pad_start (MONEY_SCALE_DIGITS + 1)
                  (show_nat (if negative then - value else value)) in
  let whole := slice_but_last MONEY_SCALE_DIGITS digits in
  let fraction := slice_last MONEY_SCALE_DIGITS digits in
  (if negative then "-" else "") +:+ whole +:+ "." +:+ fraction.

Definition parseFinalPaidAmount (value : unknown) : result settlement_error string :=
  scaled ← parseExactDecimal value "finalPaidAmountInr";
  if scaled <? 0 then
    InputError "finalPaidAmountInr" "must not be negative; a refund is a separate approved decision"
  else if MAX_FINAL_PAID_SCALED <? scaled then
    InputError "finalPaidAmountInr" ("must be at most " +:+ MAX_FINAL_PAID_AMOUNT_INR)
  else Ok (formatScaledMoney scaled).

(** [String(value)] *)
Definition string_of (value : unknown) : string :=
  match value with
  | u_undefined => "undefined"
  | u_null => "null"
  | u_string s => s
  | u_other s => s
  end.

Definition readStoredDecimal (value : unknown) (field : string)
    : result settlement_error (option string) :=
  match value with
  | u_null | u_undefined => Ok None
  | _ =>
      v ← parseExactDecimal (u_string (string_of value)) field;
      Ok (Some (formatScaledMoney v))
  end.

Definition calculateSettlementSavings (vendorBilledChargeInr finalPaidAmountInr : option string)
    : result settlement_error (option string) :=
  match vendorBilledChargeInr, finalPaidAmountInr with
  | Some vendor, Some paid =>
      v ← parseExactDecimal (u_string vendor) "vendorBilledChargeInr";
      p ← parseExactDecimal (u_string paid) "finalPaidAmountInr";
      Ok (Some (formatScaledMoney (v - p)))
  | _, _ => Ok None
  end.

(** ** Period identity *)

Definition MIN_BILL_YEAR : Z := 2000.
Definition MAX_BILL_YEAR : Z := 2100.

(** [/^(\d{4})-(\d{2})$/] *)
Definition BILL_MONTH (text : string) : option (string * string) :=
  let year := str_take 4 text in
  let rest := str_drop 4 text in
  match rest with
  | String c month =>
      if (String.length year =? 4)%nat && all_digits year && Ascii.eqb c "-" &&
         (String.length month =? 2)%nat && all_digits month
      then Some (year, month) else None
  | EmptyString => None
  end.

Definition parseSettlementMonth (value : unknown) : result settlement_error string :=
  match value with
  | u_string s =>
      let text := trim s in
      match BILL_MONTH text with
      | None => InputError "month" "must use YYYY-MM"
      | Some (y, m) =>
          let year := dec_value y in
          let month := dec_value m in
          if (year <? MIN_BILL_YEAR) || (MAX_BILL_YEAR <? year) || (month <? 1) || (12 <? month)
          then InputError "month" "is outside the supported range"
          else Ok text
      end
  | _ => InputError "month" "must be a YYYY-MM string"
  end.

(** [new Date(Date.UTC(year, month, 0)).getUTCDate()], [month] counted from 1:
    the day before the first day of the following month. *)
Definition last_day (year month : Z) : Z := days_in_month year month.

(** [String(lastDay).padStart(2, '0')] *)
Definition two_digits (d : Z) : string := pad_start 2 (show_Z d).

(** [periodStart] and [periodEnd] *)
Definition settlementMonthBounds (billMonth : string) : string * string :=
  let lastDay := last_day (dec_value (str_take 4 billMonth)) (dec_value (str_drop 5 billMonth)) in
  (billMonth +:+ "-01", billMonth +:+ "-" +:+ two_digits lastDay).

(** ** Idempotency and identity *)

Definition MAX_IDEMPOTENCY_KEY_LENGTH : Z := 80.
Definition MIN_IDEMPOTENCY_KEY_LENGTH : Z := 8.

(** [A-Za-z0-9_-] *)
Definition key_char (c : ascii) : bool :=
  let z := code c in
  is_digit c || ((65 <=? z) && (z <=? 90)) || ((97 <=? z) && (z <=? 122)) ||
  (z =? 95) || (z =? 45).

Definition IDEMPOTENCY_KEY (text : string) : bool :=
  negb (bool_decide (text = "")) && str_forallb key_char text.

Definition parseIdempotencyKey (value : unknown) : result settlement_error string :=
  match value with
  | u_string s =>
      let text := trim s in
      if (units text <? MIN_IDEMPOTENCY_KEY_LENGTH) || (MAX_IDEMPOTENCY_KEY_LENGTH <? units text)
      then InputError "idempotencyKey"
             ("must be " +:+ show_Z MIN_IDEMPOTENCY_KEY_LENGTH +:+ " to " +:+
              show_Z MAX_IDEMPOTENCY_KEY_LENGTH +:+ " characters")
      else if negb (IDEMPOTENCY_KEY text) then
        InputError "idempotencyKey" "must use letters, digits, hyphen, or underscore only"
      else Ok text
  | _ => InputError "idempotencyKey" "must be a string"
  end.

Definition MAX_ACTOR_ID_LENGTH : Z := 40.
Definition MAX_CORRELATION_ID_LENGTH : Z := 120.

Definition optionalToken (value : unknown) (field : string) (maxLength : Z)
    : result settlement_error (option string) :=
  match value with
  | u_null | u_undefined => Ok None
  | u_string s =>
      let text := trim s in
      if bool_decide (text = "") then Ok None
      else if maxLength <? units text then
        InputError field ("must be at most " +:+ show_Z maxLength +:+ " characters")
      else Ok (Some text)
  | u_other _ => InputError field "must be a string or null"
  end.

Definition KSERVE_SETTLEMENT_CURRENCY : string := "INR".

Record RecordSettlementRequest : Type := {
  rq_month : unknown;
  rq_finalPaidAmountInr : unknown;
  rq_idempotencyKey : unknown;
  rq_recordedByUserId : unknown;
  rq_correlationId : unknown;
}.

Record ValidatedSettlementRequest : Type := {
  billMonth : string;
  periodStart : string;
  periodEnd : string;
  vs_currency : string;
  finalPaidAmountInr : string;
  idempotencyKey : string;
  recordedByUserId : option string;
  correlationId : option string;
  settlementId : string;
  requestDigest : string;
}.

Definition SETTLEMENT_ID_PREFIX : string := "kms_".
Definition ID_HASH_LENGTH : nat := 40 - String.length SETTLEMENT_ID_PREFIX.

(** A call into the hashing module: its errors are not settlement errors. *)
Definition lift_js {A} (m : result js_error A) : result settlement_error A :=
  match m with Ok a => Ok a | Throw e => Throw (OtherThrown e) end.

Section Identity.
Context `{P : Platform}.

Definition settlementId_json (billMonth idempotencyKey : string) : json :=
  JObj [("billMonth", JStr billMonth); ("idempotencyKey", JStr idempotencyKey)].

Definition buildSettlementId (billMonth idempotencyKey : string) : result settlement_error string :=
  digest ← lift_js (canonicalJsonSha256 (settlementId_json billMonth idempotencyKey));
  Ok (SETTLEMENT_ID_PREFIX +:+ str_take ID_HASH_LENGTH digest).

Definition requestDigest_json (billMonth currency finalPaidAmountInr idempotencyKey : string)
    : json :=
  JObj [("billMonth", JStr billMonth); ("currency", JStr currency);
        ("finalPaidAmountInr", JStr finalPaidAmountInr);
        ("idempotencyKey", JStr idempotencyKey)].

Definition buildSettlementRequestDigest
    (billMonth currency finalPaidAmountInr idempotencyKey : string)
    : result settlement_error string :=
  lift_js (canonicalJsonSha256
    (requestDigest_json billMonth currency finalPaidAmountInr idempotencyKey)).

(** [None] is anything that is not an object. *)
Definition validateRecordSettlementRequest (request : option RecordSettlementRequest)
    : result settlement_error ValidatedSettlementRequest :=
  match request with
  | None => InputError "request" "must be an object"
  | Some request =>
      billMonth ← parseSettlementMonth (rq_month request);
      let bounds := settlementMonthBounds billMonth in
      finalPaidAmountInr ← parseFinalPaidAmount (rq_finalPaidAmountInr request);
      idempotencyKey ← parseIdempotencyKey (rq_idempotencyKey request);
      recordedByUserId ←
        optionalToken (rq_recordedByUserId request) "recordedByUserId" MAX_ACTOR_ID_LENGTH;
      correlationId ←
        optionalToken (rq_correlationId request) "correlationId" MAX_CORRELATION_ID_LENGTH;
      settlementId ← buildSettlementId billMonth idempotencyKey;
      requestDigest ←
        buildSettlementRequestDigest billMonth KSERVE_SETTLEMENT_CURRENCY finalPaidAmountInr
          idempotencyKey;
      Ok {| billMonth := billMonth;
            periodStart := bounds.1;
            periodEnd := bounds.2;
            vs_currency := KSERVE_SETTLEMENT_CURRENCY;
            finalPaidAmountInr := finalPaidAmountInr;
            idempotencyKey := idempotencyKey;
            recordedByUserId := recordedByUserId;
            correlationId := correlationId;
            settlementId := settlementId;
            requestDigest := requestDigest |}
  end.
End Identity.

(** ** History bounds *)

Definition MAX_SETTLEMENT_HISTORY : Z := 50.
Definition DEFAULT_SETTLEMENT_HISTORY : Z := 10.

Definition parseHistoryLimit (raw : option string) : result settlement_error Z :=
  let err := "must be an integer between 1 and " +:+ show_Z MAX_SETTLEMENT_HISTORY in
  match raw with
  | None => Ok DEFAULT_SETTLEMENT_HISTORY
  | Some raw =>
      let text := trim raw in
      if bool_decide (text = "") then Ok DEFAULT_SETTLEMENT_HISTORY
      else if negb (all_digits text && (1 <=? len text) && (len text <=? 3)) then
        InputError "history" err
      else
        let value := dec_value text in
        if (value <? 1) || (MAX_SETTLEMENT_HISTORY <? value) then InputError "history" err
        else Ok value
  end.

(** ** Facts: money *)

Definition sign_text (v : Z) : string := if v <? 0 then "-" else "".

Lemma formatScaledMoney_show v : formatScaledMoney v = sign_text v +:+ show_fixed 8 (Z.abs v).
Proof.
  unfold formatScaledMoney, sign_text, show_fixed.
  assert ((if v <? 0 then - v else v) = Z.abs v) as -> by (destruct (Z.ltb_spec v 0); lia).
  destruct (cut_slices 8 ltac:(lia) (Z.abs v) ltac:(lia)) as [Hw Hf].
  change MONEY_SCALE_DIGITS with 8%nat. by rewrite Hw, Hf.
Qed.

Lemma show_fixed_visible v : 0 ≤ v → all_visible (show_fixed 8 v) = true.
Proof.
  intros Hv. destruct (fixed_fraction 8 ltac:(lia) v) as (Hf & _ & _). unfold show_fixed.
  assert (0 ≤ v / 10 ^ Z.of_nat 8) by (apply Z.div_pos; lia).
  rewrite !all_visible_append, (all_digits_visible (show_nat _)), (all_digits_visible (pad_start _ _));
    auto with kaudit.
Qed.

(** The money of the column: less than 10^20 in magnitude. *)
Definition MONEY_BOUND : Z := 10 ^ 20.

Lemma length_show_fixed v : 0 ≤ v < MONEY_BOUND → len (show_nat (v / 10 ^ Z.of_nat 8)) ≤ 12.
Proof.
  intros Hv. unfold len. apply (Nat2Z.inj_le _ 12). apply length_show_nat; [|lia].
  split; [apply Z.div_pos; lia|]. apply Z.div_lt_upper_bound; [lia|].
  unfold MONEY_BOUND in Hv. change (10 ^ Z.of_nat 8 * 10 ^ Z.of_nat 12) with (10 ^ 20). lia.
Qed.

Lemma EXACT_DECIMAL_format v :
  Z.abs v < MONEY_BOUND →
  EXACT_DECIMAL (formatScaledMoney v) =
    Some (v <? 0, show_nat (Z.abs v / 10 ^ Z.of_nat 8),
          pad_start 8 (show_nat (Z.abs v mod 10 ^ Z.of_nat 8))).
Proof.
  intros Hv. rewrite formatScaledMoney_show. unfold EXACT_DECIMAL, sign_text.
  destruct (fixed_fraction 8 ltac:(lia) (Z.abs v)) as (_ & Hl & _).
  assert (∀ s, split_decimal s = Some (show_nat (Z.abs v / 10 ^ Z.of_nat 8),
            Some (pad_start 8 (show_nat (Z.abs v mod 10 ^ Z.of_nat 8)))) →
          starts_with_minus s = false) as Hns.
  { intros [|c s] H; [done|]. unfold starts_with_minus.
    destruct (Ascii.eqb_spec c "-") as [->|]; [discriminate H|done]. }
  pose proof (split_show_fixed 8 ltac:(lia) (Z.abs v) ltac:(lia)) as Hsp.
  assert (len (show_nat (Z.abs v / 10 ^ Z.of_nat 8)) <=? 12 = true) as Hw.
  { apply Z.leb_le, length_show_fixed. lia. }
  assert (len (pad_start 8 (show_nat (Z.abs v mod 10 ^ Z.of_nat 8))) <=? 8 = true) as Hf.
  { unfold len. by rewrite Hl. }
  destruct (v <? 0).
  - rewrite append_cons, append_nil_l. unfold starts_with_minus at 1.
    change (Ascii.eqb "-" "-") with true. cbn iota. unfold starts_with_minus at 1.
    change (Ascii.eqb "-" "-") with true. cbn [str_drop]. rewrite Hsp.
    cbn [from_null default from_option id]. by rewrite Hw, Hf.
  - rewrite append_nil_l, (Hns _ Hsp), Hsp. cbn [from_null default from_option id].
    by rewrite Hw, Hf.
Qed.

Lemma formatScaledMoney_visible v : all_visible (formatScaledMoney v) = true.
Proof.
  rewrite formatScaledMoney_show, all_visible_append, show_fixed_visible by lia.
  unfold sign_text. by destruct (v <? 0).
Qed.

Lemma formatScaledMoney_length v :
  Z.abs v < MONEY_BOUND → len (formatScaledMoney v) ≤ 22 ∧ formatScaledMoney v ≠ "".
Proof.
  intros Hv. rewrite formatScaledMoney_show. unfold show_fixed.
  destruct (fixed_fraction 8 ltac:(lia) (Z.abs v)) as (_ & Hl & _).
  pose proof (length_show_fixed (Z.abs v) ltac:(lia)) as Hw. unfold len in *.
  split.
  - rewrite !length_append, Hl. unfold sign_text. destruct (v <? 0); cbn [String.length]; lia.
  - intros E. apply (f_equal String.length) in E. rewrite !length_append, Hl in E.
    cbn in E. lia.
Qed.

(** Reading back a formatted amount gives the amount. *)
Lemma parse_format v field :
  Z.abs v < MONEY_BOUND → parseExactDecimal (u_string (formatScaledMoney v)) field = Ok v.
Proof.
  intros Hv. unfold parseExactDecimal.
  pose proof (formatScaledMoney_visible v) as Hvis.
  destruct (formatScaledMoney_length v Hv) as [Hlen Hne].
  rewrite trim_visible by done. rewrite bool_decide_eq_false_2 by done.
  rewrite units_visible by done. unfold MAX_AMOUNT_TEXT_LENGTH.
  rewrite (proj2 (Z.ltb_ge 32 _)) by lia. rewrite EXACT_DECIMAL_format by done.
  destruct (fixed_fraction 8 ltac:(lia) (Z.abs v)) as (_ & Hl & _).
  change MONEY_SCALE_DIGITS with 8%nat. rewrite pad_end_full by done.
  rewrite show_fixed_value by lia. f_equal. destruct (Z.ltb_spec v 0); lia.
Qed.

Lemma EXACT_DECIMAL_bound text neg w f :
  EXACT_DECIMAL text = Some (neg, w, f) →
  0 ≤ dec_value (w +:+ pad_end MONEY_SCALE_DIGITS f) < MONEY_BOUND.
Proof.
  unfold EXACT_DECIMAL. set (body := if starts_with_minus text then _ else _). clearbody body.
  destruct (split_decimal body) as [[w' o]|] eqn:E; [|done].
  apply split_decimal_inv in E as (Hw & _ & Ho).
  destruct (_ && _) eqn:Hlen; [|done]. intros [= <- <- <-]. to_prop.
  set (f := from_null "" o) in *. assert (all_digits f = true) as Hf.
  { unfold f. destruct o; [tauto|done]. }
  assert (all_digits (w' +:+ pad_end MONEY_SCALE_DIGITS f) = true) as Hall.
  { unfold pad_end. by rewrite !all_digits_append, Hw, Hf, all_digits_zeros. }
  pose proof (dec_value_bounds _ Hall) as Hb. split; [lia|].
  eapply Z.lt_le_trans; [apply Hb|]. unfold MONEY_BOUND. apply Z.pow_le_mono_r; [lia|].
  unfold len in *. rewrite length_append, length_pad_end. unfold MONEY_SCALE_DIGITS. lia.
Qed.

Lemma parseExactDecimal_bound value field v :
  parseExactDecimal value field = Ok v → Z.abs v < MONEY_BOUND ∧ ∃ s, value = u_string s.
Proof.
  unfold parseExactDecimal. destruct value as [| |s|]; try done.
  case_bool_decide; [done|]. destruct (_ <? _); [done|].
  destruct (EXACT_DECIMAL (trim s)) as [[[neg w] f]|] eqn:E; [|done].
  intros E2. apply Ok_inj in E2. subst v. apply EXACT_DECIMAL_bound in E. split; [|by eexists].
  destruct neg; lia.
Qed.

(** Normalising a stored decimal is idempotent. *)
Lemma readStoredDecimal_idempotent value field t :
  readStoredDecimal value field = Ok (Some t) →
  readStoredDecimal (u_string t) field = Ok (Some t).
Proof.
  unfold readStoredDecimal. intros H.
  assert (∃ s v, parseExactDecimal (u_string s) field = Ok v ∧ t = formatScaledMoney v)
    as (s & v & Hp & ->).
  { destruct value; try done; apply bind_Ok_iff in H as (v & Hv & H); injection H as <-; eauto. }
  cbn [string_of]. apply parseExactDecimal_bound in Hp as [Hb _].
  by rewrite parse_format.
Qed.

(** The reader agrees with the display decimals on every text it accepts. *)
Lemma parseExactDecimal_toScaled s field v :
  parseExactDecimal (u_string s) field = Ok v → toScaled (Some s) = Some v.
Proof.
  unfold parseExactDecimal, toScaled, EXACT_DECIMAL. case_bool_decide; [done|].
  destruct (_ <? _); [done|]. set (t := trim s) in *. clearbody t.
  destruct (split_decimal (if starts_with_minus t then str_drop 1 t else t))
    as [[w o]|] eqn:E; [|done].
  destruct (_ && _) eqn:Hlen; [|done]. to_prop. intros E2. apply Ok_inj in E2. subst v.
  assert (drop_sign t = if starts_with_minus t then str_drop 1 t else t) as ->.
  { destruct t as [|c t]; [done|]. unfold drop_sign, starts_with_minus in *.
    destruct (Ascii.eqb c "-"); cbn [orb]; [done|].
    destruct (Ascii.eqb_spec c "+") as [->|]; [|done]. discriminate E. }
  rewrite E. do 2 f_equal.
  - destruct (starts_with_minus t); change SCALE_DIGITS with 8%nat;
      change MONEY_SCALE_DIGITS with 8%nat; rewrite str_take_pad; try done;
      unfold len in *; lia.
Qed.

Lemma parseFinalPaidAmount_inv value t :
  parseFinalPaidAmount value = Ok t →
  ∃ s v, value = u_string s ∧ parseExactDecimal (u_string s) "finalPaidAmountInr" = Ok v ∧
    0 ≤ v ≤ MAX_FINAL_PAID_SCALED ∧ t = show_fixed 8 v.
Proof.
  unfold parseFinalPaidAmount. intros H. apply bind_Ok_iff in H as (v & Hv & H).
  destruct (parseExactDecimal_bound _ _ _ Hv) as (_ & s & ->).
  destruct (Z.ltb_spec v 0); [done|]. destruct (Z.ltb_spec MAX_FINAL_PAID_SCALED v); [done|].
  apply Ok_inj in H. subst t. exists s, v. split_and!; try done.
  rewrite formatScaledMoney_show. unfold sign_text.
  rewrite (proj2 (Z.ltb_ge v 0)), Z.abs_eq by lia. by rewrite append_nil_l.
Qed.

(** Reading a fixed-point text of the column. *)
Lemma parse_show_fixed v field :
  0 ≤ v < MONEY_BOUND → parseExactDecimal (u_string (show_fixed 8 v)) field = Ok v.
Proof.
  intros Hv. pose proof (parse_format v field ltac:(lia)) as H.
  rewrite formatScaledMoney_show in H. unfold sign_text in H.
  rewrite (proj2 (Z.ltb_ge v 0)), Z.abs_eq, append_nil_l in H by lia. exact H.
Qed.

(** *** The identity of a request *)

Section IdentityFacts.
Context `{P : Platform}.

Lemma request_digests_ok m c a k :
  (∃ h, buildSettlementRequestDigest m c a k = Ok h ∧
        canonicalJsonSha256 (requestDigest_json m c a k) = Ok h) ∧
  (∃ i, buildSettlementId m k = Ok i).
Proof.
  split.
  - destruct (digest_total (requestDigest_json m c a k) eq_refl) as [h Hh]. exists h.
    unfold buildSettlementRequestDigest. by rewrite Hh.
  - unfold buildSettlementId. destruct (digest_total (settlementId_json m k) eq_refl) as [h ->].
    by eexists.
Qed.

Lemma requestDigest_json_inj m1 c1 a1 k1 m2 c2 a2 k2 :
  requestDigest_json m1 c1 a1 k1 ≡ requestDigest_json m2 c2 a2 k2 →
  m1 = m2 ∧ c1 = c2 ∧ a1 = a2 ∧ k1 = k2.
Proof. intros H. unfold equiv, json_equiv in H. vm_compute in H. by injection H as -> -> -> ->. Qed.

Lemma validated_inv r v :
  validateRecordSettlementRequest (Some r) = Ok v →
  parseSettlementMonth (rq_month r) = Ok (billMonth v) ∧
  (periodStart v, periodEnd v) = settlementMonthBounds (billMonth v) ∧
  parseFinalPaidAmount (rq_finalPaidAmountInr r) = Ok (finalPaidAmountInr v) ∧
  parseIdempotencyKey (rq_idempotencyKey r) = Ok (idempotencyKey v) ∧
  buildSettlementId (billMonth v) (idempotencyKey v) = Ok (settlementId v) ∧
  canonicalJsonSha256 (requestDigest_json (billMonth v) "INR" (finalPaidAmountInr v)
    (idempotencyKey v)) = Ok (requestDigest v).
Proof.
  unfold validateRecordSettlementRequest. intros H.
  apply bind_Ok_iff in H as (m & Hm & H). apply bind_Ok_iff in H as (a & Ha & H).
  apply bind_Ok_iff in H as (k & Hk & H). apply bind_Ok_iff in H as (u & _ & H).
  apply bind_Ok_iff in H as (c & _ & H). apply bind_Ok_iff in H as (i & Hi & H).
  apply bind_Ok_iff in H as (h & Hh & H). injection H as <-.
  cbn [billMonth periodStart periodEnd finalPaidAmountInr idempotencyKey settlementId requestDigest].
  destruct (request_digests_ok m "INR" a k) as [(h' & Hh' & Hc) _].
  unfold KSERVE_SETTLEMENT_CURRENCY in Hh.
  split_and!; try done; try (by destruct (settlementMonthBounds m)). congruence.
Qed.
End IdentityFacts.

(** *** Months *)

Definition next_month (y m : Z) : Z * Z := if m =? 12 then (y + 1, 1) else (y, m + 1).

Definition month_check (y m : Z) : bool :=
  (day_number y m (last_day y m) + 1 =? day_number (next_month y m).1 (next_month y m).2 1) &&
  (28 <=? last_day y m) && (last_day y m <=? 31).

Lemma month_checks : forallb (fun y => forallb (month_check y) (seqZ 1 12)) (seqZ 2000 101) = true.
Proof. vm_compute. reflexivity. Qed.

Lemma month_check_range y m : 2000 ≤ y ≤ 2100 → 1 ≤ m ≤ 12 → month_check y m = true.
Proof.
  intros Hy Hm. pose proof month_checks as H.
  apply forallb_Forall in H. rewrite Forall_forall in H.
  specialize (H y ltac:(apply elem_of_seqZ; lia)). cbv beta in H.
  apply forallb_Forall in H. rewrite Forall_forall in H.
  apply H, elem_of_seqZ. lia.
Qed.

Lemma str_take_drop_eq n s : str_take n s +:+ str_drop n s = s.
Proof. apply str_take_drop. Qed.

Lemma parseSettlementMonth_inv value t :
  parseSettlementMonth value = Ok t →
  ∃ ys ms, t = ys +:+ "-" +:+ ms ∧ String.length ys = 4%nat ∧ String.length ms = 2%nat ∧
    all_digits ys = true ∧ all_digits ms = true ∧
    2000 ≤ dec_value ys ≤ 2100 ∧ 1 ≤ dec_value ms ≤ 12.
Proof.
  unfold parseSettlementMonth. destruct value as [| |s|]; try done.
  set (x := trim s). clearbody x. unfold BILL_MONTH.
  destruct (str_drop 4 x) as [|c ms] eqn:Ed; [done|].
  destruct (_ && all_digits ms) eqn:E; [|done]. to_prop.
  destruct (_ || (12 <? _)) eqn:E2; [done|]. to_prop.
  repeat match goal with
    | H : (_ =? _)%nat = true |- _ => apply Nat.eqb_eq in H
    | H : Ascii.eqb _ _ = true |- _ => apply Ascii.eqb_eq in H
    end. subst c. intros H'. apply Ok_inj in H'. subst t.
  exists (str_take 4 x), ms. unfold MIN_BILL_YEAR, MAX_BILL_YEAR in *.
  split_and!; try done. rewrite <- (str_take_drop_eq 4 x) at 1. by rewrite Ed.
Qed.

(** ** Theorems *)

(** an accepted paid amount is non-negative, within the supported maximum
    and stored without loss: the stored eight-place text denotes exactly the
    submitted decimal, and submitting the stored text again gives the same text. *)
Theorem parseFinalPaidAmount_exact value t :
  parseFinalPaidAmount value = Ok t →
  ∃ s v, value = u_string s ∧ toScaled (Some s) = Some v ∧
    0 ≤ v ≤ MAX_FINAL_PAID_SCALED ∧ t = show_fixed 8 v ∧
    toScaled (Some t) = Some v ∧ parseFinalPaidAmount (u_string t) = Ok t.
Proof.
  intros H. destruct (parseFinalPaidAmount_inv _ _ H) as (s & v & -> & Hp & Hv & ->).
  exists s, v. split; [done|]. split; [by eapply parseExactDecimal_toScaled|].
  split; [done|]. split; [done|]. split; [apply toScaled_show_fixed8; lia|].
  unfold parseFinalPaidAmount.
  rewrite parse_show_fixed by (unfold MAX_FINAL_PAID_SCALED, MONEY_BOUND in *; lia).
  cbn [mbind result_bind].
  rewrite (proj2 (Z.ltb_ge v 0)), (proj2 (Z.ltb_ge MAX_FINAL_PAID_SCALED v)) by lia.
  rewrite formatScaledMoney_show. unfold sign_text.
  rewrite (proj2 (Z.ltb_ge v 0)), Z.abs_eq by lia. by rewrite append_nil_l.
Qed.

Lemma parseFinalPaidAmount_exact_witness :
  parseFinalPaidAmount (u_string " 1250.5 ") = Ok "1250.50000000" ∧
  parseFinalPaidAmount (u_string "1250.50000000") = Ok "1250.50000000".
Proof.
  destruct (parseFinalPaidAmount_exact (u_string " 1250.5 ") "1250.50000000")
    as (s & v & _ & _ & _ & _ & _ & H); [vm_compute; reflexivity|].
  split; [vm_compute; reflexivity|exact H].
Defined.

(** savings are exact and keep their sign: for any two stored amounts the
    result denotes their difference, negative when more was paid than billed,
    and it is absent (never a zero) exactly when either side is absent. *)
Theorem calculateSettlementSavings_exact vendor paid :
  (vendor = None ∨ paid = None ↔ calculateSettlementSavings vendor paid = Ok None) ∧
  ∀ a b, vendor = Some (formatScaledMoney a) → paid = Some (formatScaledMoney b) →
    Z.abs a < MONEY_BOUND → Z.abs b < MONEY_BOUND →
    ∃ t, calculateSettlementSavings vendor paid = Ok (Some t) ∧
      t = formatScaledMoney (a - b) ∧
      toScaled (Some t) = Some (a - b) ∧ (starts_with_minus t = true ↔ a < b).
Proof.
  split.
  - unfold calculateSettlementSavings. destruct vendor as [x|], paid as [y|]; split; try tauto;
      try (intros [?|?]; done).
    intros H. apply bind_Ok_iff in H as (? & _ & H). by apply bind_Ok_iff in H as (? & _ & H).
  - intros a b -> -> Ha Hb. exists (formatScaledMoney (a - b)).
    unfold calculateSettlementSavings. rewrite !parse_format by done. cbn [mbind result_bind].
    split; [done|]. split; [done|]. rewrite formatScaledMoney_show. unfold sign_text.
    pose proof (toScaled_show_fixed8 (Z.abs (a - b)) ltac:(lia)) as Ht.
    destruct (show_nat_head (Z.abs (a - b) / 10 ^ Z.of_nat 8)) as (c & s & Hs & Hc);
      [apply Z.div_pos; lia|].
    assert (show_fixed 8 (Z.abs (a - b)) = String c (s +:+ "." +:+
      pad_start 8 (show_nat (Z.abs (a - b) mod 10 ^ Z.of_nat 8)))) as Hsh.
    { unfold show_fixed. by rewrite Hs, append_cons. }
    destruct (Z.ltb_spec (a - b) 0).
    + split; [|split; [lia|done]].
      rewrite (toScaled_minus _ _ Ht); [f_equal; lia|apply show_fixed_visible; lia|by rewrite Hsh].
    + rewrite append_nil_l, Ht, Hsh. split; [f_equal; lia|]. unfold starts_with_minus.
      destruct (Ascii.eqb_spec c "-") as [->|]; [discriminate Hc|]. split; [done|lia].
Qed.

Lemma calculateSettlementSavings_exact_witness :
  calculateSettlementSavings (Some "10.00000000") (Some "12.50000000") = Ok (Some "-2.50000000").
Proof.
  destruct (proj2 (calculateSettlementSavings_exact (Some "10.00000000") (Some "12.50000000"))
    1000000000 1250000000) as (t & H & -> & _);
    [vm_compute; reflexivity|vm_compute; reflexivity|unfold MONEY_BOUND; lia|unfold MONEY_BOUND; lia|].
  rewrite H. vm_compute. reflexivity.
Defined.

(** two validated requests have the same digest exactly when they are the
    same correction: same month, same key and equal amounts, however the
    amounts were spelled; otherwise SHA-256 has collided on two given texts. The
    row id depends on the month and the key only. *)
Theorem settlement_request_identity `{P : Platform} r1 r2 v1 v2 s1 s2 a1 a2 :
  validateRecordSettlementRequest (Some r1) = Ok v1 →
  validateRecordSettlementRequest (Some r2) = Ok v2 →
  rq_finalPaidAmountInr r1 = u_string s1 → toScaled (Some s1) = Some a1 →
  rq_finalPaidAmountInr r2 = u_string s2 → toScaled (Some s2) = Some a2 →
  (billMonth v1 = billMonth v2 → idempotencyKey v1 = idempotencyKey v2 → a1 = a2 →
     requestDigest v1 = requestDigest v2) ∧
  (requestDigest v1 = requestDigest v2 →
     (billMonth v1 = billMonth v2 ∧ idempotencyKey v1 = idempotencyKey v2 ∧ a1 = a2) ∨
     ∃ x y, x ≠ y ∧ sha256Hex x = sha256Hex y) ∧
  (billMonth v1 = billMonth v2 → idempotencyKey v1 = idempotencyKey v2 →
     settlementId v1 = settlementId v2).
Proof.
  intros H1 H2 Es1 Ha1 Es2 Ha2.
  destruct (validated_inv _ _ H1) as (_ & _ & Hp1 & _ & Hi1 & Hd1).
  destruct (validated_inv _ _ H2) as (_ & _ & Hp2 & _ & Hi2 & Hd2).
  rewrite Es1 in Hp1. rewrite Es2 in Hp2.
  destruct (parseFinalPaidAmount_inv _ _ Hp1) as (x1 & z1 & [= <-] & Hz1 & Hb1 & Et1).
  destruct (parseFinalPaidAmount_inv _ _ Hp2) as (x2 & z2 & [= <-] & Hz2 & Hb2 & Et2).
  apply parseExactDecimal_toScaled in Hz1, Hz2.
  assert (z1 = a1) as -> by congruence. assert (z2 = a2) as -> by congruence.
  split_and!.
  - intros Em Ek ->. rewrite Em, Ek, Et1, <- Et2, Hd2 in Hd1. by injection Hd1.
  - intros Ed. rewrite <- Ed in Hd2.
    assert (∀ m c a k, finite (requestDigest_json m c a k) = true) as Hf by done.
    destruct (digest_identifies _ _ _ (Hf _ _ _ _) (Hf _ _ _ _) Hd1 Hd2) as [E|[Hne Hsha]]; [left|right; eauto].
    apply requestDigest_json_inj in E as (-> & _ & E & ->). split_and!; [done..|].
    rewrite Et1, Et2 in E. by apply (show_fixed_inj 8) in E; [|lia..].
  - intros Em Ek. rewrite Em, Ek, Hi2 in Hi1. by injection Hi1.
Qed.

(** a validated month is a real calendar month between 2000 and 2100, and
    its bounds are inclusive: the period starts on day 01, ends on a day of
    two digits, and the day after it is the first day of the next month. *)
Theorem settlement_months_tile value month :
  parseSettlementMonth value = Ok month →
  ∃ ys ms, month = ys +:+ "-" +:+ ms ∧
    let y := dec_value ys in let m := dec_value ms in
    2000 ≤ y ≤ 2100 ∧ 1 ≤ m ≤ 12 ∧
    ∃ d, settlementMonthBounds month = (month +:+ "-01", month +:+ "-" +:+ pad_start 2 (show_nat d)) ∧
      28 ≤ d ≤ 31 ∧
      day_number y m d + 1 = day_number (next_month y m).1 (next_month y m).2 1.
Proof.
  intros H. destruct (parseSettlementMonth_inv _ _ H) as (ys & ms & -> & Hly & Hlm & Hy & Hm & By & Bm).
  exists ys, ms. split; [done|]. cbv zeta. split; [done|]. split; [done|].
  exists (last_day (dec_value ys) (dec_value ms)).
  pose proof (month_check_range _ _ By Bm) as Hc. unfold month_check in Hc. to_prop.
  split_and!; try lia. unfold settlementMonthBounds.
  assert (str_take 4 (ys +:+ "-" +:+ ms) = ys) as -> by (rewrite <- Hly; apply str_take_app).
  assert (str_drop 5 (ys +:+ "-" +:+ ms) = ms) as ->.
  { rewrite <- append_assoc'. replace 5%nat with (String.length (ys +:+ "-")).
    - apply str_drop_app.
    - rewrite length_append, Hly. done. }
  unfold two_digits, show_Z.
  by rewrite (proj2 (Z.ltb_ge (last_day (dec_value ys) (dec_value ms)) 0)) by lia.
Qed.

Lemma settlement_months_tile_witness :
  settlementMonthBounds "2028-02" = ("2028-02-01", "2028-02-29").
Proof.
  destruct (settlement_months_tile (u_string "2028-02") "2028-02")
    as (ys & ms & _ & _ & _ & d & _); [vm_compute; reflexivity|].
  vm_compute. reflexivity.
Defined.

#[local] Existing Instance demo_platform.

Definition sample_request (amount : string) : RecordSettlementRequest :=
  {| rq_month := u_string "2026-08"; rq_finalPaidAmountInr := u_string amount;
     rq_idempotencyKey := u_string "settle-0001"; rq_recordedByUserId := u_null;
     rq_correlationId := u_undefined |}.

Lemma settlement_request_identity_witness :
  requestDigest <$> (match validateRecordSettlementRequest (Some (sample_request "5.0")) with
                     | Ok v => Some v | Throw _ => None end) =
  requestDigest <$> (match validateRecordSettlementRequest (Some (sample_request "5")) with
                     | Ok v => Some v | Throw _ => None end).
Proof.
  destruct (validateRecordSettlementRequest (Some (sample_request "5.0"))) as [v1|e] eqn:E1;
    [|assert (is_ok (validateRecordSettlementRequest (Some (sample_request "5.0"))) = true) as C
        by (vm_compute; reflexivity); rewrite E1 in C; discriminate C].
  destruct (validateRecordSettlementRequest (Some (sample_request "5"))) as [v2|e] eqn:E2;
    [|assert (is_ok (validateRecordSettlementRequest (Some (sample_request "5"))) = true) as C
        by (vm_compute; reflexivity); rewrite E2 in C; discriminate C].
  cbn. f_equal.
  destruct (validated_inv _ _ E1) as (M1 & _ & _ & K1 & _).
  destruct (validated_inv _ _ E2) as (M2 & _ & _ & K2 & _).
  change (rq_month (sample_request "5")) with (rq_month (sample_request "5.0")) in M2.
  change (rq_idempotencyKey (sample_request "5")) with (rq_idempotencyKey (sample_request "5.0")) in K2.
  apply (proj1 (settlement_request_identity _ _ v1 v2 "5.0" "5" 500000000 500000000 E1 E2
    eq_refl ltac:(vm_compute; reflexivity) eq_refl ltac:(vm_compute; reflexivity))); congruence.
Defined.
