(* ===== verification/Readiness.v ===== *)
(** * Closing a billing cycle

    [src/billing/cycleReadiness.ts], [src/billing/monthCloseReadiness.ts] and
    [src/billing/vendorAssertedBound.ts]: when a cycle is ready to bill, when a
    month may settle unattended, and how much of it may settle on the vendor's
    word. *)

From S2P Require Import Prelude JsNumber JsText.

Local Open Scope string_scope.
#[global] Open Scope Z_scope.

(** ** Cycle readiness *)

Inductive BillingCycleStatus : Type :=
| no_data
| audit_pending
| calibration_pending
| rate_card_pending
| calculation_pending
| ready.

#[export] Instance BillingCycleStatus_eq_dec : EqDecision BillingCycleStatus.
Proof. solve_decision. Defined.

Record BillingCycleCounts : Type := {
  periodStart : option string;
  periodEnd : option string;
  totalCalls : Z;
  recordingAvailableCalls : Z;
  completedAuditCalls : Z;
  acceptedAsBilledCalls : Z;
  finalCalculationCalls : option Z;
  unresolvedDecisionCalls : option Z;
  processingFailureCalls : Z;
}.

Record BillingCycleReadiness : Type := {
  counts : BillingCycleCounts;
  resolvedAuditCalls : Z;
  auditPendingCalls : Z;
  auditCoveragePercent : string;
  rateCardApproved : bool;
  calibrationComplete : bool;
  status : BillingCycleStatus;
  billGenerated : bool;
}.

Definition count (value : Z) (name : string) : result js_error Z :=
  if negb (isSafeInteger value) || (value <? 0) then
    Throw (RangeError (name +:+ " must be a non-negative safe integer"))
  else Ok value.

Definition count_opt (value : option Z) (name : string) : result js_error (option Z) :=
  match value with
  | None => Ok None
  | Some v => n ← count v name; Ok (Some n)
  end.

(** [((resolved / total) * 100).toFixed(2)], in hundredths of a percent. *)
Definition coverage_hundredths (resolved total : Z) : Z :=
  num_toFixed (num_mul_int (num_div resolved total) 100) 2.

Definition assessBillingCycleReadiness (input : BillingCycleCounts)
    (rateCardApproved calibrationComplete : bool) : result js_error BillingCycleReadiness :=
  totalCalls ← count (totalCalls input) "totalCalls";
  recordingAvailableCalls ← count (recordingAvailableCalls input) "recordingAvailableCalls";
  completedAuditCalls ← count (completedAuditCalls input) "completedAuditCalls";
  acceptedAsBilledCalls ← count (acceptedAsBilledCalls input) "acceptedAsBilledCalls";
  processingFailureCalls ← count (processingFailureCalls input) "processingFailureCalls";
  finalCalculationCalls ← count_opt (finalCalculationCalls input) "finalCalculationCalls";
  unresolvedDecisionCalls ← count_opt (unresolvedDecisionCalls input) "unresolvedDecisionCalls";
  let resolvedAuditCalls := Z.min totalCalls (num_add completedAuditCalls acceptedAsBilledCalls) in
  let auditPendingCalls := Z.max 0 (totalCalls - resolvedAuditCalls) in
  let status :=
    if totalCalls =? 0 then no_data
    else if (0 <? auditPendingCalls) ||
            match unresolvedDecisionCalls with Some u => 0 <? u | None => false end
    then audit_pending
    else if negb calibrationComplete then calibration_pending
    else if negb rateCardApproved then rate_card_pending
    else if bool_decide (finalCalculationCalls = None) ||
            bool_decide (unresolvedDecisionCalls = None) ||
            negb (bool_decide (finalCalculationCalls = Some totalCalls))
    then calculation_pending
    else ready in
  Ok {| counts := {|
          periodStart := periodStart input;
          periodEnd := periodEnd input;
          totalCalls := totalCalls;
          recordingAvailableCalls := recordingAvailableCalls;
          completedAuditCalls := completedAuditCalls;
          acceptedAsBilledCalls := acceptedAsBilledCalls;
          finalCalculationCalls := finalCalculationCalls;
          unresolvedDecisionCalls := unresolvedDecisionCalls;
          processingFailureCalls := processingFailureCalls |};
        resolvedAuditCalls := resolvedAuditCalls;
        auditPendingCalls := auditPendingCalls;
        auditCoveragePercent :=
          if totalCalls =? 0 then "0.00"
          else show_fixed 2 (coverage_hundredths resolvedAuditCalls totalCalls);
        rateCardApproved := rateCardApproved;
        calibrationComplete := calibrationComplete;
        status := status;
        billGenerated := bool_decide (status = ready) |}.

(** ** Month close *)

Definition DEFAULT_INGEST_QUIET_PERIOD_MS : Z := 48 * 60 * 60 * 1000.

Record MonthCloseReadinessInput : Type := {
  mc_totalCalls : Z;
  mc_recordingBackedAwaitingAudit : Z;
  mc_millisecondsSinceNewestCall : option Z;
  mc_quietPeriodMs : option Z;
}.

Inductive MonthCloseReason : Type :=
| mc_ready
| no_calls_loaded
| ingest_in_progress
| audit_incomplete.

#[export] Instance MonthCloseReason_eq_dec : EqDecision MonthCloseReason.
Proof. solve_decision. Defined.

Record MonthCloseReadiness : Type := {
  mr_ready : bool;
  mr_reason : MonthCloseReason;
  mr_totalCalls : Z;
  mr_recordingBackedAwaitingAudit : Z;
  mr_millisecondsSinceNewestCall : option Z;
  mr_quietPeriodMs : Z;
}.

Definition decideMonthCloseReadiness (input : MonthCloseReadinessInput) : MonthCloseReadiness :=
  let quietPeriodMs := from_null DEFAULT_INGEST_QUIET_PERIOD_MS (mc_quietPeriodMs input) in
  let base (ready : bool) (reason : MonthCloseReason) := {|
    mr_ready := ready;
    mr_reason := reason;
    mr_totalCalls := mc_totalCalls input;
    mr_recordingBackedAwaitingAudit := mc_recordingBackedAwaitingAudit input;
    mr_millisecondsSinceNewestCall := mc_millisecondsSinceNewestCall input;
    mr_quietPeriodMs := quietPeriodMs |} in
  if mc_totalCalls input <=? 0 then base false no_calls_loaded
  else if match mc_millisecondsSinceNewestCall input with
          | None => true
          | Some age => age <? quietPeriodMs
          end then base false ingest_in_progress
  else if 0 <? mc_recordingBackedAwaitingAudit input then base false audit_incomplete
  else base true mc_ready.

(** ** The vendor-asserted bound *)

(** The double [0.02]. *)
Definition DEFAULT_MAX_VENDOR_ASSERTED_SHARE : dyadic := Dyadic 5764607523034235 58.
Definition DEFAULT_VENDOR_ASSERTED_FLOOR : Z := 25.

Record VendorAssertedBoundInput : Type := {
  exhaustedCandidates : Z;
  recordingBackedCalls : Z;
  maxShare : option dyadic;
  floor : option Z;
}.

Inductive BoundReason : Type :=
| within_bound
| nothing_to_settle
| exceeds_bound
| population_unknown.

#[export] Instance BoundReason_eq_dec : EqDecision BoundReason.
Proof. solve_decision. Defined.

Record VendorAssertedBound : Type := {
  permitted : bool;
  vb_exhaustedCandidates : Z;
  vb_recordingBackedCalls : Z;
  share : option dyadic;
  allowance : Z;
  reason : BoundReason;
}.

(** [a / b] for [b > 0] *)
Definition num_div_signed (a b : Z) : dyadic :=
  if a <? 0 then let q := num_div (- a) b in Dyadic (- mant q) (scale q) else num_div a b.

Definition decideVendorAssertedBound (input : VendorAssertedBoundInput) : VendorAssertedBound :=
  let maxShare := from_null DEFAULT_MAX_VENDOR_ASSERTED_SHARE (maxShare input) in
  let floor := from_null DEFAULT_VENDOR_ASSERTED_FLOOR (floor input) in
  let exhausted := exhaustedCandidates input in
  let backed := recordingBackedCalls input in
  let share := if 0 <? backed then Some (num_div_signed exhausted backed) else None in
  let allowance := Z.max floor (num_ceil (num_mul_int maxShare (Z.max backed 0))) in
  let result (permitted : bool) (allowance : Z) (reason : BoundReason) := {|
    permitted := permitted;
    vb_exhaustedCandidates := exhausted;
    vb_recordingBackedCalls := backed;
    share := share;
    allowance := allowance;
    reason := reason |} in
  if exhausted <=? 0 then result true allowance nothing_to_settle
  else if backed <=? 0 then
    result (exhausted <=? floor) floor
      (if exhausted <=? floor then within_bound else population_unknown)
  else
    result (exhausted <=? allowance) allowance
      (if exhausted <=? allowance then within_bound else exceeds_bound).

(** ** Facts *)

Lemma count_Ok v name n : count v name = Ok n ↔ n = v ∧ 0 ≤ v ≤ MAX_SAFE_INTEGER.
Proof.
  unfold count. destruct (negb (isSafeInteger v) || (v <? 0)) eqn:E.
  - split; [done|]. intros [-> Hv]. apply orb_true_iff in E as [E|E].
    + apply negb_true_iff, not_true_iff_false in E. rewrite isSafeInteger_spec in E. lia.
    + apply Z.ltb_lt in E. lia.
  - to_prop. rewrite isSafeInteger_spec in *. split; [intros [= <-]; lia|]. by intros [-> _].
Qed.

Definition count_valid (v : Z) : Prop := 0 ≤ v ≤ MAX_SAFE_INTEGER.
Definition count_valid_opt (o : option Z) : Prop :=
  match o with Some v => count_valid v | None => True end.

Lemma count_opt_Ok o name n : count_opt o name = Ok n ↔ n = o ∧ count_valid_opt o.
Proof.
  destruct o as [v|]; cbn; [|naive_solver].
  rewrite bind_Ok_iff. setoid_rewrite count_Ok. unfold count_valid. naive_solver.
Qed.

Definition counts_valid (i : BillingCycleCounts) : Prop :=
  count_valid (totalCalls i) ∧ count_valid (recordingAvailableCalls i) ∧
  count_valid (completedAuditCalls i) ∧ count_valid (acceptedAsBilledCalls i) ∧
  count_valid (processingFailureCalls i) ∧ count_valid_opt (finalCalculationCalls i) ∧
  count_valid_opt (unresolvedDecisionCalls i).

(** The double arithmetic of the coverage never leaves 0 to 100 percent, and a
    complete cycle shows exactly 100.00. *)
Lemma round53_le z m k :
  0 < z → z ≤ m * 2 ^ k → 0 ≤ k → Z.log2 z - 52 ≤ k → round53 z ≤ m * 2 ^ k.
Proof.
  intros Hz Hm Hk He. unfold round53. rewrite Z.abs_eq by lia.
  destruct (Z.leb_spec (Z.log2 z - 52) 0); [done|].
  set (e := Z.log2 z - 52) in *. assert (0 < 2 ^ e) by (apply Z.pow_pos_nonneg; lia).
  assert (m * 2 ^ k = m * 2 ^ (k - e) * 2 ^ e) as Hs.
  { rewrite <- Z.mul_assoc, <- Z.pow_add_r by lia. do 2 f_equal. lia. }
  pose proof (round_half_even_le z (2 ^ e) (m * 2 ^ (k - e)) ltac:(lia) ltac:(lia)). nia.
Qed.

Lemma round53_nonneg z : 0 ≤ z → 0 ≤ round53 z.
Proof.
  intros Hz. unfold round53. destruct (Z.leb_spec (Z.log2 (Z.abs z) - 52) 0); [done|].
  set (e := _ - _) in *. assert (0 < 2 ^ e) by (apply Z.pow_pos_nonneg; lia).
  pose proof (round_half_even_ge z (2 ^ e) 0 ltac:(lia) ltac:(lia)). nia.
Qed.

(** A ratio of at most 1 is a dyadic at most 1, of scale at least 52. *)
Lemma num_div_unit r t :
  0 < r ≤ t → ∃ m s, num_div r t = Dyadic m s ∧ 52 ≤ s ∧ 0 ≤ m ≤ 2 ^ s ∧ (r = t → m = 2 ^ s ∧ s = 52).
Proof.
  intros Hr. unfold num_div. rewrite (proj2 (Z.eqb_neq r 0)) by lia.
  match goal with |- context [52 - ?x] => set (t' := x) end.
  assert (t' ≤ 0) as Ht.
  { pose proof (Z.log2_le_mono r t ltac:(lia)). unfold t'. zcases. }
  assert (r = t → t' = 0) as Hrt.
  { intros ->. unfold t'. rewrite Z.sub_diag. change (2 ^ 0) with 1. rewrite Z.mul_1_r, Z.ltb_irrefl. done. }
  rewrite (proj2 (Z.leb_le 0 (52 - t'))) by lia. do 2 eexists. split; [reflexivity|].
  assert (0 < 2 ^ (52 - t')) by (apply Z.pow_pos_nonneg; lia).
  split; [lia|]. split.
  - split; [apply round_half_even_ge; [lia|]; nia|apply round_half_even_le; nia].
  - intros E. rewrite (Hrt E), Z.sub_0_r. split; [|done]. subst r.
    rewrite Z.mul_comm. apply round_half_even_exact. lia.
Qed.

Lemma coverage_bounds r t :
  0 ≤ r ≤ t → 0 < t →
  0 ≤ coverage_hundredths r t ≤ 10000 ∧ (r = t → coverage_hundredths r t = 10000).
Proof.
  intros Hr Ht. destruct (Z.eq_dec r 0) as [->|Hr0].
  { split; [vm_compute; split; discriminate|lia]. }
  unfold coverage_hundredths. destruct (num_div_unit r t ltac:(lia)) as (m & s & -> & Hs & Hm & He).
  assert (0 < 2 ^ s) as Hp by (apply Z.pow_pos_nonneg; lia).
  unfold num_mul_int, num_toFixed. cbn [mant scale]. set (x := round53 (m * 100)).
  assert (0 ≤ x ≤ 100 * 2 ^ s) as Hx.
  { split; [apply round53_nonneg; lia|]. destruct (Z.eq_dec m 0) as [->|Hm0].
    - change x with (round53 0). change (round53 0) with 0. lia.
    - apply round53_le; [lia|lia|lia|].
      assert (Z.log2 (m * 100) ≤ Z.log2 (100 * 2 ^ s)) as Hl by (apply Z.log2_le_mono; lia).
      rewrite Z.log2_mul_pow2 in Hl by lia. change (Z.log2 100) with 6 in Hl. lia. }
  change (10 ^ 2) with 100. split.
  - split; [apply Z.div_pos; lia|].
    apply Z.lt_succ_r, Z.div_lt_upper_bound; [lia|]. lia.
  - intros E. destruct (He E) as [-> ->]. unfold x. vm_compute. reflexivity.
Qed.

(** The default share of [n] calls is the exact ceiling of [n / 50]. *)
Lemma default_allowance n :
  0 ≤ n ≤ 2 ^ 40 →
  num_ceil (num_mul_int DEFAULT_MAX_VENDOR_ASSERTED_SHARE n) = (n + 49) / 50.
Proof.
  intros Hn. pose proof (ceil_div_spec n 50 ltac:(lia)) as Hc.
  replace (n + 50 - 1) with (n + 49) in Hc by lia. rewrite Hc. clear Hc.
  pose proof (Z.div_mod n 50 ltac:(lia)) as Hdm. pose proof (Z.mod_pos_bound n 50 ltac:(lia)) as Hj.
  set (k := n / 50) in *. set (j := n mod 50) in *. clearbody k j.
  unfold num_ceil, num_mul_int, DEFAULT_MAX_VENDOR_ASSERTED_SHARE. cbn [mant scale].
  set (z := 5764607523034235 * n).
  assert (z = k * 2 ^ 58 + 6 * k + j * 5764607523034235) as Hz.
  { unfold z. rewrite Hdm. change (2 ^ 58) with 288230376151711744. lia. }
  destruct (Z.eqb_spec j 0) as [Ej|Ej].
  - assert (round53 z = k * 2 ^ 58) as ->.
    { destruct (Z.eq_dec k 0) as [->|Hk].
      - unfold z. replace n with 0 by lia. reflexivity.
      - rewrite Ej in Hz. unfold round53. rewrite Z.abs_eq by lia.
        assert (Z.log2 z = 58 + Z.log2 k) as Hlog.
        { apply Z.log2_unique; [pose proof (Z.log2_nonneg k); lia|].
          pose proof (Z.log2_spec k ltac:(lia)) as Hs.
          rewrite <- Z.add_succ_r. rewrite !Z.pow_add_r by (pose proof (Z.log2_nonneg k); lia).
          assert (6 * k < 2 ^ 58) by (change (2 ^ 58) with 288230376151711744; lia). nia. }
        rewrite Hlog. pose proof (Z.log2_nonneg k). pose proof (Z.log2_spec k ltac:(lia)) as [Hs1 Hs2].
        rewrite (proj2 (Z.leb_gt _ 0)) by lia.
        replace (58 + Z.log2 k - 52) with (Z.log2 k + 6) by lia.
        set (l := Z.log2 k) in *.
        assert (l ≤ 40) as Hl.
        { unfold l. change 40 with (Z.log2 (2 ^ 40)). apply Z.log2_le_mono. lia. }
        assert (0 < 2 ^ (l + 6)) as Hp by (apply Z.pow_pos_nonneg; lia).
        assert (2 ^ 58 = 2 ^ (52 - l) * 2 ^ (l + 6)) as H58 by
          (rewrite <- Z.pow_add_r by lia; f_equal; lia).
        assert (12 * k < 2 ^ (l + 6)) as H12.
        { rewrite Z.pow_add_r by lia. rewrite Z.pow_succ_r in Hs2 by lia.
          change (2 ^ 6) with 64. lia. }
        assert (round_half_even z (2 ^ (l + 6)) = k * 2 ^ (52 - l)) as ->.
        { unfold round_half_even.
          assert (z / 2 ^ (l + 6) = k * 2 ^ (52 - l) ∧ z mod 2 ^ (l + 6) = 6 * k) as [-> ->].
          { split; symmetry; [apply Z.div_unique with (r := 6 * k)
              |apply Z.mod_unique with (q := k * 2 ^ (52 - l))]; nia. }
          by rewrite (proj2 (Z.ltb_lt _ _)) by lia. }
        rewrite H58. lia. }
    rewrite <- Z.mul_opp_l, Z.div_mul by lia. lia.
  - apply ceil_between; [lia|].
    assert (0 < z) as Hz0 by lia.
    assert (z ≤ (k + 1) * 2 ^ 58) as Hub by (change (2 ^ 58) with 288230376151711744 in *; lia).
    assert (Z.log2 z < 94) as Hlz.
    { apply Z.log2_lt_pow2; [lia|]. unfold z. change (2 ^ 94) with (2 ^ 54 * 2 ^ 40).
      change (2 ^ 54) with 18014398509481984. lia. }
    split.
    + unfold round53. rewrite Z.abs_eq by lia.
      destruct (Z.leb_spec (Z.log2 z - 52) 0) as [He|He];
        [change (2 ^ 58) with 288230376151711744 in *; lia|].
      set (e := Z.log2 z - 52) in *.
      assert (0 < 2 ^ e) as Hp by (apply Z.pow_pos_nonneg; lia).
      assert (2 ^ 58 = 2 ^ (58 - e) * 2 ^ e) as H58 by (rewrite <- Z.pow_add_r by lia; f_equal; lia).
      assert (2 ^ e ≤ 2 ^ 42) as Hpe by (apply Z.pow_le_mono_r; lia).
      pose proof (round_half_even_gt z (2 ^ e) (k * 2 ^ (58 - e)) Hp) as Hgt.
      assert (k * 2 ^ (58 - e) < round_half_even z (2 ^ e)) as Hr.
      { apply Hgt. rewrite Hz, H58. change (2 ^ 42) with 4398046511104 in Hpe. nia. }
      rewrite H58. nia.
    + apply round53_le; lia.
Qed.

Lemma min_num_add_total t a b :
  count_valid t → 0 ≤ a → 0 ≤ b → Z.min t (num_add a b) = Z.min t (a + b).
Proof. intros [? ?] ??. by apply min_num_add. Qed.

(** ** Theorems *)

(** valid counts always give an assessment, and it is [ready] (and a bill is
    generated) exactly when the cycle has calls, every call's audit is
    resolved, no decision is unresolved, calibration is complete, the rate card
    is approved and every call has a final calculation; invalid counts are
    refused. The coverage text is between 0.00 and 100.00, and 100.00 when
    every call is resolved. *)
Theorem assessBillingCycleReadiness_ready input rc cal :
  (counts_valid input ↔ is_ok (assessBillingCycleReadiness input rc cal) = true) ∧
  ∀ r, assessBillingCycleReadiness input rc cal = Ok r →
    (status r = ready ↔
       0 < totalCalls input ∧ totalCalls input ≤ completedAuditCalls input + acceptedAsBilledCalls input ∧
       unresolvedDecisionCalls input = Some 0 ∧ cal = true ∧ rc = true ∧
       finalCalculationCalls input = Some (totalCalls input)) ∧
    (billGenerated r = true ↔ status r = ready) ∧
    resolvedAuditCalls r + auditPendingCalls r = totalCalls input ∧
    ∃ n, auditCoveragePercent r = show_fixed 2 n ∧ 0 ≤ n ≤ 10000 ∧
      (0 < totalCalls input → auditPendingCalls r = 0 → n = 10000).
Proof.
  assert (counts_valid input ↔ ∃ r, assessBillingCycleReadiness input rc cal = Ok r) as Hv.
  { unfold assessBillingCycleReadiness, counts_valid. repeat setoid_rewrite bind_Ok_iff.
    setoid_rewrite count_Ok. setoid_rewrite count_opt_Ok. unfold count_valid. naive_solver. }
  split.
  { rewrite Hv. destruct (assessBillingCycleReadiness input rc cal); cbn; naive_solver. }
  intros r H. assert (counts_valid input) as (Ht & _ & Hc & Ha & _ & Hf & Hu) by (apply Hv; eauto).
  unfold assessBillingCycleReadiness in H.
  repeat (apply bind_Ok_iff in H as (? & E & H); (apply count_Ok in E as [-> _] || apply count_opt_Ok in E as [-> _])).
  injection H as <-. cbn [status billGenerated resolvedAuditCalls auditPendingCalls auditCoveragePercent].
  unfold count_valid in *. rewrite min_num_add_total by (done || lia).
  set (t := totalCalls input) in *. set (s := completedAuditCalls input + acceptedAsBilledCalls input).
  assert (0 ≤ s) by (unfold s; lia).
  split; [|split; [|split]].
  - destruct (Z.eqb_spec t 0) as [E|E]; [split; [done|lia]|].
    destruct (Z.ltb_spec 0 (Z.max 0 (t - Z.min t s))); cbn [orb]; [split; [done|lia]|].
    destruct (unresolvedDecisionCalls input) as [u|]; cbn in Hu.
    + destruct (Z.ltb_spec 0 u); [split; [done|intros (_ & _ & [= ->] & _); lia]|].
      destruct cal; cbn [negb]; [|split; [done|naive_solver]].
      destruct rc; cbn [negb]; [|split; [done|naive_solver]].
      replace (bool_decide (Some u = None)) with false by done. rewrite orb_false_r.
      destruct (finalCalculationCalls input) as [f|]; [|split; [done|naive_solver]].
      replace (bool_decide (Some f = None)) with false by done. cbn [orb].
      case_bool_decide; cbn [negb]; [|split; [done|naive_solver]].
      split; [|done]. intros _. unfold count_valid in Hu. split_and!; try done; [lia..|]. f_equal. lia.
    + destruct cal; cbn [negb]; [|split; [done|naive_solver]].
      destruct rc; cbn [negb]; [|split; [done|naive_solver]].
      replace (bool_decide (@None Z = None)) with true by done. rewrite orb_true_r. cbn [orb].
      split; [done|naive_solver].
  - by rewrite bool_decide_eq_true.
  - lia.
  - destruct (Z.eqb_spec t 0).
    + exists 0. split; [reflexivity|]. split; lia.
    + destruct (coverage_bounds (Z.min t s) t ltac:(lia) ltac:(lia)) as [H1 H2].
      eexists. split; [reflexivity|]. split; [done|]. intros _ Hp. apply H2. lia.
Qed.

(** A cycle of [n] calls, all of them resolved and calculated. *)
Definition sample_counts (n : Z) : BillingCycleCounts :=
  {| periodStart := None; periodEnd := None; totalCalls := n; recordingAvailableCalls := n;
     completedAuditCalls := n; acceptedAsBilledCalls := 0; finalCalculationCalls := Some n;
     unresolvedDecisionCalls := Some 0; processingFailureCalls := 0 |}.

Lemma assessBillingCycleReadiness_ready_witness :
  ∃ r, assessBillingCycleReadiness (sample_counts 3) true true = Ok r ∧ status r = ready.
Proof.
  destruct (assessBillingCycleReadiness (sample_counts 3) true true) as [r|e] eqn:E;
    [|vm_compute in E; discriminate E].
  exists r. split; [reflexivity|].
  apply (proj1 (proj2 (assessBillingCycleReadiness_ready (sample_counts 3) true true) r E)).
  cbn. split_and!; (reflexivity || lia).
Defined.

(** the unattended close settles a month exactly when it has calls, its
    newest call is known to be older than the quiet period, and no
    recording-backed call awaits its audit; an unknown ingest age waits. *)
Theorem decideMonthCloseReadiness_ready input :
  let r := decideMonthCloseReadiness input in
  (mr_ready r = true ↔
     0 < mc_totalCalls input ∧ mc_recordingBackedAwaitingAudit input ≤ 0 ∧
     ∃ age, mc_millisecondsSinceNewestCall input = Some age ∧ mr_quietPeriodMs r ≤ age) ∧
  (mr_ready r = true ↔ mr_reason r = mc_ready) ∧
  (mc_millisecondsSinceNewestCall input = None → mr_ready r = false) ∧
  mr_quietPeriodMs r = from_null (48 * 60 * 60 * 1000) (mc_quietPeriodMs input).
Proof.
  unfold decideMonthCloseReadiness. cbv zeta.
  destruct (Z.leb_spec (mc_totalCalls input) 0);
    [cbn [mr_ready mr_reason mr_quietPeriodMs]; split_and!; try done; split; (done || lia)|].
  destruct (mc_millisecondsSinceNewestCall input) as [age|].
  - destruct (Z.ltb_spec age (from_null DEFAULT_INGEST_QUIET_PERIOD_MS (mc_quietPeriodMs input))).
    + cbn [mr_ready mr_reason mr_quietPeriodMs]. split_and!; try done.
      split; [done|]. intros (_ & _ & ? & [= <-] & ?). lia.
    + destruct (Z.ltb_spec 0 (mc_recordingBackedAwaitingAudit input));
        cbn [mr_ready mr_reason mr_quietPeriodMs]; split_and!; try done.
      * split; [done|lia].
      * split; [|done]. intros _. split_and!; [lia|lia|]. by exists age.
  - cbn [mr_ready mr_reason mr_quietPeriodMs]. split_and!; try done.
    split; [done|]. by intros (_ & _ & ? & ? & _).
Qed.

(** with the default share (the double 0.02) and floor, the number of calls
    that may settle on the vendor's word out of [n] recording-backed calls is
    exactly the larger of 25 and [n / 50] rounded up: the binary fraction costs
    no call. Beyond it the run refuses, and with an uncounted population only
    the floor applies. *)
Theorem decideVendorAssertedBound_default e n :
  n ≤ 2 ^ 40 →
  let b := decideVendorAssertedBound {| exhaustedCandidates := e; recordingBackedCalls := n;
             maxShare := None; floor := None |} in
  (permitted b = true ↔ e ≤ Z.max 25 (if 0 <? n then (n + 49) / 50 else 0)) ∧
  (permitted b = false ↔ reason b = exceeds_bound ∨ reason b = population_unknown) ∧
  (0 < n → allowance b = Z.max 25 ((n + 49) / 50)).
Proof.
  intros Hn. unfold decideVendorAssertedBound. cbn [exhaustedCandidates recordingBackedCalls maxShare floor].
  cbn [from_null default from_option]. unfold DEFAULT_VENDOR_ASSERTED_FLOOR. cbv zeta.
  destruct (Z.ltb_spec 0 n) as [Hp|Hp].
  - rewrite (Z.max_l n 0) by lia. rewrite default_allowance by lia.
    destruct (Z.leb_spec e 0); [cbn [permitted reason allowance]; split_and!; try done|].
    + split; [lia|done].
    + split; [done|]. by intros [?|?].
    + rewrite (proj2 (Z.leb_gt n 0)) by lia. cbn [permitted reason allowance].
      destruct (Z.leb_spec e (Z.max 25 ((n + 49) / 50))); split_and!; try done;
        split; (done || lia || (intros [?|?]; done) || by left).
  - destruct (Z.leb_spec e 0); [cbn [permitted reason allowance]; split_and!; try lia|].
    + split; [done|]. by intros [?|?].
    + rewrite (proj2 (Z.leb_le n 0)) by lia. cbn [permitted reason allowance].
      destruct (Z.leb_spec e 25); split_and!; try lia;
        split; (done || lia || (intros [?|?]; done) || by right).
Qed.

Lemma decideVendorAssertedBound_default_witness :
  permitted (decideVendorAssertedBound {| exhaustedCandidates := 40; recordingBackedCalls := 2000;
    maxShare := None; floor := None |}) = true.
Proof. apply (decideVendorAssertedBound_default 40 2000); [lia|]. vm_compute. discriminate. Defined.
