(* ===== verification/UrlSafety.v ===== *)
(** * URL safety

    [src/security/urlSafety.ts]: the guard every recording URL passes before it
    is fetched. The WHATWG URL parser is a parameter. *)

From S2P Require Import Prelude JsText.
From Stdlib Require Import Ascii.

Local Open Scope string_scope.
Local Open Scope list_scope.
#[global] Open Scope Z_scope.

(** [new URL(raw)]: the protocol and the host name, [None] when it throws. *)
Class UrlParser : Type := {
  parseUrl : string → option (string * string);
}.

Record UrlSafety : Type := {
  safe : bool;
  reason : option string;
}.

Definition unsafe (why : string) : UrlSafety := {| safe := false; reason := Some why |}.

(** [toLowerCase] on the ASCII letters: host names are ASCII once parsed. *)
Definition lower_char (c : ascii) : ascii :=
  if (65 <=? code c) && (code c <=? 90) then ascii_of_N (Z.to_N (code c + 32)) else c.
Fixpoint toLowerCase (s : string) : string :=
  match s with
  | EmptyString => ""
  | String c s => String (lower_char c) (toLowerCase s)
  end.

Definition startsWith (p s : string) : bool :=
  match strip_prefix p s with Some _ => true | None => false end.
Definition endsWith (p s : string) : bool := startsWith (str_rev p) (str_rev s).

(** [host.replace(/^\[|\]$/g, '')]: the brackets of an IPv6 literal. *)
Definition strip_brackets (s : string) : string :=
  let s := match strip_prefix "[" s with Some r => r | None => s end in
  match strip_prefix "]" (str_rev s) with Some r => str_rev r | None => s end.

(** The prefixes of [PRIVATE_IPV4], [172.16.] to [172.31.] written out. *)
Definition PRIVATE_IPV4 : list string :=
  ["127."; "10."; "192.168."; "169.254."] ++
  map (fun n => "172." +:+ n +:+ ".")
    ["16"; "17"; "18"; "19"; "20"; "21"; "22"; "23"; "24"; "25"; "26"; "27"; "28"; "29";
     "30"; "31"] ++
  ["0."].

Definition allowedBy (host h : string) : bool :=
  bool_decide (host = toLowerCase h) || endsWith ("." +:+ toLowerCase h) host.

Definition isSafeVendorUrl `{UrlParser} (rawUrl : string) (allowedHosts : list string) : UrlSafety :=
  match parseUrl rawUrl with
  | None => unsafe "unparseable_url"
  | Some (protocol, hostname) =>
      if negb (bool_decide (protocol = "https:")) then unsafe "not_https"
      else
        let host := strip_brackets (toLowerCase hostname) in
        if bool_decide (host = "localhost") || endsWith ".localhost" host then unsafe "loopback"
        else if existsb (fun p => startsWith p host) PRIVATE_IPV4 then unsafe "private_ip"
        else if bool_decide (host = "::1") || startsWith "fe80:" host || startsWith "fc" host ||
                startsWith "fd" host then unsafe "private_ipv6"
        else if negb (existsb (allowedBy host) allowedHosts) then unsafe "host_not_allowlisted"
        else {| safe := true; reason := None |}
  end.

(** ** Facts *)

Lemma strip_prefix_iff p s r : strip_prefix p s = Some r ↔ s = p +:+ r.
Proof.
  revert s. induction p as [|c p IH]; intros s; cbn.
  - rewrite append_nil_l. naive_solver.
  - destruct s as [|d s]; cbn; [by split|].
    rewrite append_cons. destruct (Ascii.eqb_spec c d) as [->|Hne].
    + rewrite IH. split; [by intros ->|by intros [= ->]].
    + split; [done|]. by intros [= -> _].
Qed.

Lemma startsWith_spec p s : startsWith p s = true ↔ ∃ r, s = p +:+ r.
Proof.
  unfold startsWith. destruct (strip_prefix p s) as [r|] eqn:E.
  - apply strip_prefix_iff in E. naive_solver.
  - split; [done|]. intros [r Hr]. apply strip_prefix_iff in Hr. congruence.
Qed.

Lemma endsWith_spec p s : endsWith p s = true ↔ ∃ r, s = r +:+ p.
Proof.
  unfold endsWith. rewrite startsWith_spec. split.
  - intros [r E]. exists (str_rev r). apply (f_equal str_rev) in E.
    by rewrite str_rev_append, !str_rev_involutive in E.
  - intros [r ->]. exists (str_rev r). apply str_rev_append.
Qed.

(** The octets the guard calls private: loopback, the private ranges,
    link-local, and this network. *)
Definition private_octets (a b : Z) : bool :=
  (a =? 127) || (a =? 10) || (a =? 0) || ((a =? 192) && (b =? 168)) ||
  ((a =? 169) && (b =? 254)) || ((a =? 172) && (16 <=? b) && (b <=? 31)).

Definition octet_prefix (a b : Z) (rest : string) : string :=
  show_nat a +:+ String "." (show_nat b +:+ String "." rest).

Definition guarded (host : string) : bool := existsb (fun p => startsWith p host) PRIVATE_IPV4.

(** Every pair of octets, with the rest of the address left open. *)
Lemma guarded_octets_all rest :
  forallb (fun a => forallb (fun b =>
    Bool.eqb (guarded (octet_prefix (Z.of_nat a) (Z.of_nat b) rest))
      (private_octets (Z.of_nat a) (Z.of_nat b))) (seq 0 256)) (seq 0 256) = true.
Proof. vm_compute. reflexivity. Qed.

Lemma guarded_octets a b rest :
  0 ≤ a < 256 → 0 ≤ b < 256 → guarded (octet_prefix a b rest) = private_octets a b.
Proof.
  intros Ha Hb. pose proof (guarded_octets_all rest) as H. rewrite forallb_forall in H.
  specialize (H (Z.to_nat a) ltac:(apply in_seq; lia)). rewrite forallb_forall in H.
  specialize (H (Z.to_nat b) ltac:(apply in_seq; lia)).
  rewrite !Z2Nat.id in H by lia. by apply Bool.eqb_prop.
Qed.

(** ** Properties *)

(** C40: a URL passes the guard exactly when it parses as [https] and its host,
    normalised, is an allowed host or below one and is neither a loopback name,
    a private IPv6 address, nor a guarded IPv4 address; and the IPv4 guard covers
    exactly 127/8, 10/8, 0/8, 192.168/16, 169.254/16 and 172.16/12, for all 65536
    pairs of leading octets. A refused URL carries its reason. *)
Theorem isSafeVendorUrl_safe `{UrlParser} (rawUrl : string) (allowedHosts : list string) :
  (safe (isSafeVendorUrl rawUrl allowedHosts) = true ↔
    ∃ hostname, parseUrl rawUrl = Some ("https:", hostname) ∧
      let host := strip_brackets (toLowerCase hostname) in
      host ≠ "localhost" ∧ (∀ r, host ≠ r +:+ ".localhost") ∧ guarded host = false ∧
      host ≠ "::1" ∧ (∀ r, host ≠ "fe80:" +:+ r) ∧ (∀ r, host ≠ "fc" +:+ r) ∧
      (∀ r, host ≠ "fd" +:+ r) ∧
      ∃ h, h ∈ allowedHosts ∧
        (host = toLowerCase h ∨ ∃ sub, host = sub +:+ "." +:+ toLowerCase h)) ∧
  (safe (isSafeVendorUrl rawUrl allowedHosts) = false →
     reason (isSafeVendorUrl rawUrl allowedHosts) ≠ None) ∧
  (∀ a b rest, 0 ≤ a < 256 → 0 ≤ b < 256 →
     guarded (octet_prefix a b rest) = private_octets a b).
Proof.
  split; [|split; [|apply guarded_octets]].
  - unfold isSafeVendorUrl. destruct (parseUrl rawUrl) as [[protocol hostname]|]; [|naive_solver].
    destruct (bool_decide_reflect (protocol = "https:")) as [->|Hp]; cbn [negb]; [|naive_solver].
    set (host := strip_brackets (toLowerCase hostname)).
    transitivity (host ≠ "localhost" ∧ (∀ r, host ≠ r +:+ ".localhost") ∧ guarded host = false ∧
      host ≠ "::1" ∧ (∀ r, host ≠ "fe80:" +:+ r) ∧ (∀ r, host ≠ "fc" +:+ r) ∧
      (∀ r, host ≠ "fd" +:+ r) ∧
      ∃ h, h ∈ allowedHosts ∧
        (host = toLowerCase h ∨ ∃ sub, host = sub +:+ "." +:+ toLowerCase h)); [|naive_solver].
    assert (Hs : ∀ p, startsWith p host = false ↔ ∀ r, host ≠ p +:+ r).
    { intros p. rewrite <- not_true_iff_false, startsWith_spec. naive_solver. }
    assert (He : endsWith ".localhost" host = false ↔ ∀ r, host ≠ r +:+ ".localhost").
    { rewrite <- not_true_iff_false, endsWith_spec. naive_solver. }
    assert (Ha : existsb (allowedBy host) allowedHosts = true ↔ ∃ h, h ∈ allowedHosts ∧
      (host = toLowerCase h ∨ ∃ sub, host = sub +:+ "." +:+ toLowerCase h)).
    { rewrite existsb_exists. unfold allowedBy.
      setoid_rewrite orb_true_iff. setoid_rewrite bool_decide_eq_true. setoid_rewrite endsWith_spec.
      split; intros (h & Hin & ?); exists h; (split; [by apply list_elem_of_In|done]). }
    rewrite <- Ha, <- He, <- !Hs, <- (bool_decide_eq_false (host = "localhost")),
      <- (bool_decide_eq_false (host = "::1")).
    change (existsb (fun p => startsWith p host) PRIVATE_IPV4) with (guarded host).
    destruct (bool_decide (host = "localhost")); [split; [done|tauto || (intros [? _]; done)]|].
    destruct (endsWith _ host); [split; [done|intros (_ & ? & _); done]|]. cbn [orb].
    destruct (guarded host); [split; [done|intros (_ & _ & ? & _); done]|].
    destruct (bool_decide (host = "::1")); [split; [done|intros (_ & _ & _ & ? & _); done]|].
    destruct (startsWith "fe80:" host); [split; [done|intros (_ & _ & _ & _ & ? & _); done]|].
    destruct (startsWith "fc" host); [split; [done|intros (_ & _ & _ & _ & _ & ? & _); done]|].
    destruct (startsWith "fd" host); [split; [done|intros (_ & _ & _ & _ & _ & _ & ? & _); done]|].
    cbn [orb]. destruct (existsb _ allowedHosts); cbn; [|split; [done|tauto]].
    split; [|done]. intros _. repeat (split; [done|]). done.
  - unfold isSafeVendorUrl. destruct (parseUrl rawUrl) as [[]|]; [|done]. cbv zeta.
    repeat match goal with |- context [if ?b then _ else _] => destruct b; [done|] end; done.
Qed.

(** A parser for the demonstration: [https://host/...]. *)
Definition demo_parser : UrlParser := {|
  parseUrl := fun s =>
    if startsWith "https://" s
    then option_map (fun r => ("https:", match String.index 0 "/" r with
                                         | Some n => str_take n r
                                         | None => r
                                         end)) (strip_prefix "https://" s)
    else None |}.

Example demo_urls :
  let ok u := safe (@isSafeVendorUrl demo_parser u ["kserve.example"]) in
  map ok ["https://media.kserve.example/a.ogg"; "https://KServe.example/a"; "http://kserve.example/";
          "https://notkserve.example/"; "https://10.0.0.1/"; "https://[fe80:0:0:0]/"] =
    [true; true; false; false; false; false].
Proof. vm_compute. reflexivity. Qed.

Lemma isSafeVendorUrl_safe_witness :
  guarded "172.31.0.1" = true ∧
  reason (@isSafeVendorUrl demo_parser "ftp://x" []) ≠ None.
Proof.
  split.
  - exact (proj2 (proj2 (@isSafeVendorUrl_safe demo_parser "" [])) 172 31 "0.1" ltac:(lia) ltac:(lia)).
  - apply (proj1 (proj2 (@isSafeVendorUrl_safe demo_parser "ftp://x" []))). reflexivity.
Defined.
