(* ===== verification/Regex.v ===== *)
(** * Regular expressions

    The tests [/pattern/iu.test(text)] of the program, over code points. Only
    the existence of a match matters to [test], so an expression denotes the set
    of end positions it can reach from a start position; [reach] computes the
    set and [matches] is its specification. *)

From S2P Require Import Prelude JsText.
From Stdlib Require Import Ascii.

Local Open Scope string_scope.
#[global] Open Scope Z_scope.

(** ** Code points *)

(** The code points of a UTF-8 text. *)
Fixpoint code_points_acc (acc : Z) (more : nat) (s : string) : list Z :=
  match s with
  | EmptyString => []
  | String c s =>
      let z := code c in
      match more with
      | S more =>
          let acc := acc * 64 + (z - 128) in
          match more with
          | O => acc :: code_points_acc 0 0 s
          | _ => code_points_acc acc more s
          end
      | O =>
          if z <? 128 then z :: code_points_acc 0 0 s
          else if z <? 224 then code_points_acc (z - 192) 1 s
          else if z <? 240 then code_points_acc (z - 224) 2 s
          else code_points_acc (z - 240) 3 s
      end
  end.

Definition code_points (s : string) : list Z := code_points_acc 0 0 s.

(** Simple case folding of the letters the patterns contain: ASCII letters, and
    the two other characters that fold to one (U+017F, U+212A). *)
Definition fold_case (c : Z) : Z :=
  if (65 <=? c) && (c <=? 90) then c + 32
  else if c =? 383 then 115
  else if c =? 8490 then 107
  else c.

(** [\w] under the [i] and [u] flags. *)
Definition word_char (c : Z) : bool :=
  let c := fold_case c in
  ((97 <=? c) && (c <=? 122)) || ((48 <=? c) && (c <=? 57)) || (c =? 95).

(** [\s]: white space and line terminators. *)
Definition space_char (c : Z) : bool :=
  ((9 <=? c) && (c <=? 13)) || (c =? 32) || (c =? 160) || (c =? 5760) ||
  ((8192 <=? c) && (c <=? 8202)) || (c =? 8232) || (c =? 8233) || (c =? 8239) ||
  (c =? 8287) || (c =? 12288) || (c =? 65279).

(** ** Expressions *)

Inductive re : Type :=
| Eps
| Chr (p : Z → bool)
| Cat (r s : re)
| Alt (r s : re)
| Star (r : re)
| WordBoundary
| Start
| End_.

Definition Opt (r : re) : re := Alt Eps r.
Definition Plus (r : re) : re := Cat r (Star r).
Fixpoint Alts (l : list re) : re :=
  match l with
  | [] => Chr (fun _ => false)
  | [r] => r
  | r :: l => Alt r (Alts l)
  end.
Fixpoint Cats (l : list re) : re :=
  match l with
  | [] => Eps
  | [r] => r
  | r :: l => Cat r (Cats l)
  end.
Definition lit_chr (c : Z) : re := Chr (fun d => fold_case d =? fold_case c).
Definition Lit (s : string) : re := Cats (map lit_chr (code_points s)).
Definition Sp : re := Chr space_char.

Section Match.
Variable input : list Z.

Definition at_ (i : nat) : option Z := input !! i.

(** [\b] *)
Definition boundary (i : nat) : bool :=
  let before := match i with O => false | S j => from_option word_char false (at_ j) end in
  let after := from_option word_char false (at_ i) in
  xorb before after.

Fixpoint reach_star (fuel : nat) (step : nat → list nat) (i : nat) : list nat :=
  i :: match fuel with
       | O => []
       | S fuel =>
           concat (map (reach_star fuel step)
                     (filter (fun k => (i < k)%nat) (step i)))
       end.

Fixpoint reach (r : re) (i : nat) : list nat :=
  match r with
  | Eps => [i]
  | Chr p => match at_ i with
             | Some c => if p c then [S i] else []
             | None => []
             end
  | Cat r s => concat (map (reach s) (reach r i))
  | Alt r s => reach r i ++ reach s i
  | Star r => reach_star (length input) (reach r) i
  | WordBoundary => if boundary i then [i] else []
  | Start => match i with O => [i] | S _ => [] end
  | End_ => if (i =? length input)%nat then [i] else []
  end.

(** [test]: a match from some position. *)
Definition test_points (r : re) : bool :=
  existsb (fun i => negb (bool_decide (reach r i = []))) (seq 0 (S (length input))).

(** The specification, after the abstract matchers of ECMAScript: a repetition
    continues only after an iteration that consumed something. *)
Inductive matches : re → nat → nat → Prop :=
| m_eps i : matches Eps i i
| m_chr p i c : at_ i = Some c → p c = true → matches (Chr p) i (S i)
| m_cat r s i k j : matches r i k → matches s k j → matches (Cat r s) i j
| m_alt_l r s i j : matches r i j → matches (Alt r s) i j
| m_alt_r r s i j : matches s i j → matches (Alt r s) i j
| m_star_nil r i : matches (Star r) i i
| m_star_cons r i k j : matches r i k → (i < k)%nat → matches (Star r) k j → matches (Star r) i j
| m_boundary i : boundary i = true → matches WordBoundary i i
| m_start : matches Start 0%nat 0%nat
| m_end : matches End_ (length input) (length input).

Lemma elem_of_concat_map {A B} (f : A → list B) l y :
  y ∈ concat (map f l) ↔ ∃ x, x ∈ l ∧ y ∈ f x.
Proof.
  induction l as [|x l IH]; cbn.
  - split; [by intros ?%elem_of_nil|]. by intros (? & ?%elem_of_nil & _).
  - rewrite elem_of_app, IH. setoid_rewrite elem_of_cons. naive_solver.
Qed.

Lemma matches_range r i j : matches r i j → (i ≤ length input → i ≤ j ≤ length input)%nat.
Proof.
  induction 1; try lia.
  match goal with H : at_ _ = Some _ |- _ => apply lookup_lt_Some in H; lia end.
Qed.

Lemma reach_star_sound fuel step r i j :
  (∀ i k, k ∈ step i → matches r i k) → j ∈ reach_star fuel step i → matches (Star r) i j.
Proof.
  intros Hs. revert i. induction fuel as [|fuel IH]; intros i; cbn; rewrite elem_of_cons.
  - intros [->|Hj]; [constructor|by apply elem_of_nil in Hj].
  - intros [->|Hj]; [constructor|]. apply elem_of_concat_map in Hj as (k & Hk & Hj).
    apply list_elem_of_filter in Hk as [Hik Hk]. eapply m_star_cons; eauto.
Qed.

Lemma reach_star_complete step r i j fuel :
  (∀ i k, (i ≤ length input)%nat → matches r i k → k ∈ step i) → matches (Star r) i j →
  (length input - i ≤ fuel)%nat → (i ≤ length input)%nat → j ∈ reach_star fuel step i.
Proof.
  intros Hc Hm. remember (Star r) as q eqn:Eq. revert fuel.
  induction Hm as [| | | | |r' i'|r' i' k j' H1 _ Hlt H2 IH| | |]; intros fuel Hf Hi;
    try discriminate; injection Eq as ->.
  - destruct fuel; left.
  - pose proof (matches_range _ _ _ H1 Hi) as Hk.
    destruct fuel as [|fuel]; [lia|]. cbn. right.
    apply elem_of_concat_map. exists k. split.
    + apply list_elem_of_filter. auto.
    + apply IH; [done|lia|lia].
Qed.

(** [reach] computes exactly the specification. *)
Lemma reach_spec r i j : (i ≤ length input)%nat → j ∈ reach r i ↔ matches r i j.
Proof.
  intros Hi. split.
  - clear Hi. revert i j.
    induction r as [|p|r IHr s IHs|r IHr s IHs|r IHr| | |]; intros i j; cbn.
    + intros ->%list_elem_of_singleton. constructor.
    + destruct (at_ i) as [c|] eqn:E; [|by intros ?%elem_of_nil].
      destruct (p c) eqn:Ep; [|by intros ?%elem_of_nil].
      intros ->%list_elem_of_singleton. by econstructor.
    + intros (k & Hk & Hj)%elem_of_concat_map. econstructor; eauto.
    + rewrite elem_of_app. intros [?|?]; [apply m_alt_l|apply m_alt_r]; auto.
    + by apply reach_star_sound.
    + destruct (boundary i) eqn:E; [|by intros ?%elem_of_nil].
      intros ->%list_elem_of_singleton. by constructor.
    + destruct i; [|by intros ?%elem_of_nil]. intros ->%list_elem_of_singleton. constructor.
    + destruct (Nat.eqb_spec i (length input)) as [->|]; [|by intros ?%elem_of_nil].
      intros ->%list_elem_of_singleton. constructor.
  - revert i j Hi.
    assert (∀ r i j, matches r i j → (i ≤ length input)%nat → j ∈ reach r i) as H; [|eauto].
    clear r. induction r as [|p|r IHr s IHs|r IHr s IHs|r IHr| | |]; intros i j Hm Hi;
      try (inversion Hm; subst; cbn; by left).
    + inversion Hm; subst. cbn. match goal with H : at_ _ = _ |- _ => rewrite H end.
      match goal with H : p _ = true |- _ => rewrite H end. left.
    + inversion Hm; subst. cbn. apply elem_of_concat_map.
      match goal with H : matches r i ?k |- _ =>
        pose proof (matches_range _ _ _ H Hi); exists k end. split; [auto|]. apply IHs; [done|lia].
    + cbn. rewrite elem_of_app. inversion Hm; subst; [left|right]; auto.
    + cbn. apply reach_star_complete with (r := r); [auto|done|lia|done].
    + inversion Hm; subst. cbn. match goal with H : boundary _ = true |- _ => rewrite H end. left.
    + inversion Hm; subst. cbn. rewrite Nat.eqb_refl. left.
Qed.
End Match.

(** [/r/iu.test(s)] *)
Definition test (r : re) (s : string) : bool := test_points (code_points s) r.

(** The test answers whether the specification has a match somewhere. *)
Lemma test_spec r s :
  test r s = true ↔ ∃ i j, (i ≤ length (code_points s))%nat ∧ matches (code_points s) r i j.
Proof.
  unfold test, test_points. rewrite existsb_exists. split.
  - intros (i & Hi & Hr). apply in_seq in Hi. apply negb_true_iff, bool_decide_eq_false in Hr.
    destruct (reach (code_points s) r i) as [|j l] eqn:E; [done|].
    exists i, j. split; [lia|]. apply reach_spec; [lia|]. rewrite E. left.
  - intros (i & j & Hi & Hm). exists i. split; [apply in_seq; lia|].
    apply negb_true_iff, bool_decide_eq_false. intros E.
    apply (reach_spec _ r i j Hi) in Hm. rewrite E in Hm. by apply elem_of_nil in Hm.
Qed.
