(* ===== verification/Cues.v ===== *)
(** * The evidence cues of the classifier check

    The regular expressions of [src/reaudit/core.ts], all tested under the flags
    [iu]: affirmative voicemail, automation and junk language, the customer
    turns recognised deterministically, and the refinements of
    [repairClassification]. *)

From S2P Require Import Prelude JsText Regex.

Local Open Scope string_scope.
#[global] Open Scope Z_scope.

(** [r{2,}] *)
Definition TwoOrMore (r : re) : re := Cat r (Cat r (Star r)).

Definition AFFIRMATIVE_VOICEMAIL_CUE : re :=
  Alts [
    Cats [
      WordBoundary;
      Alts [
        Cats [Lit "voice"; Star (Sp); Lit "mail"];
        Lit "mailbox";
        Lit "beep";
        Cats [Lit "after "; Opt (Lit "the "); Alts [Lit "tone"; Lit "beep"]];
        Lit "at the tone";
        Cats [Lit "leave "; Opt (Alts [Lit "a "; Lit "your "]); Lit "message"];
        Cats [Lit "record "; Opt (Alts [Lit "a "; Lit "your "; Lit "the "]); Lit "message"];
        Cats [Lit "you"; Alts [Lit "'ve"; Lit " have"]; Lit " reached"];
        Lit "is not available";
        Cats [
          Lit "cannot ";
          Alts [Lit "take"; Lit "answer"];
          Lit " ";
          Opt (Lit "your ");
          Lit "call"];
        Cats [
          Alts [Lit "message"; Lit "recording"];
          Lit " ";
          Opt (Alts [Lit "has been "; Lit "is "]);
          Alts [
            Lit "recorded";
            Cats [Lit "complete"; Opt (Lit "d")];
            Lit "finished";
            Lit "ended"]];
        Cats [
          Lit "you ";
          Alts [Lit "may"; Lit "can"];
          Lit " ";
          Opt (Lit "now ");
          Lit "hang up"]];
      WordBoundary];
    Cats [Lit "वॉइस"; Star (Sp); Lit "मेल"];
    Lit "वॉइसमेल";
    Lit "संदेश छोड़";
    Lit "मैसेज छोड़";
    Lit "बीप";
    Lit "टोन के बाद";
    Lit "उपलब्ध नहीं";
    Cats [Lit "വോയ്സ്"; Star (Sp); Lit "മെയിൽ"];
    Lit "വോയ്സ്മെയിൽ";
    Lit "സന്ദേശം";
    Lit "ബീപ്പ്";
    Lit "ലഭ്യമല്ല"].

Definition AFFIRMATIVE_AUTOMATION_CUE : re :=
  Alts [
    Cats [
      WordBoundary;
      Alts [Lit "press"; Lit "dial"; Lit "choose"; Lit "select"];
      Plus (Sp);
      Opt (Cats [Lit "a"; Plus (Sp)]);
      Alts [
        Lit "number";
        Lit "option";
        Lit "one";
        Lit "two";
        Lit "three";
        Chr (fun c => ((48 <=? c) && (c <=? 57)))];
      WordBoundary];
    Cats [
      WordBoundary;
      Alts [Lit "virtual"; Lit "automated"; Lit "digital"];
      Plus (Sp);
      Alts [Lit "assistant"; Lit "agent"; Lit "system"; Lit "service"; Lit "menu"];
      WordBoundary];
    Cats [
      WordBoundary;
      Alts [Lit "state"; Lit "say"];
      Plus (Sp);
      Opt (Cats [Lit "your"; Plus (Sp)]);
      Alts [Lit "name"; Lit "purpose"; Cats [Lit "reason for "; Opt (Lit "the "); Lit "call"]];
      WordBoundary];
    Cats [
      WordBoundary;
      Alts [
        Lit "call is being screened";
        Cats [Lit "screening "; Alts [Lit "assistant"; Lit "service"]]];
      WordBoundary];
    Cats [Alts [Lit "बटन"; Lit "विकल्प"]; Star (Sp); Alts [Lit "दबाएँ"; Lit "चुनें"]];
    Cats [Lit "ഓപ്ഷൻ"; Star (Sp); Alts [Lit "തിരഞ്ഞെടുക്കുക"; Lit "അമർത്തുക"]]].

Definition AFFIRMATIVE_JUNK_CUE : re :=
  Alts [
    Cats [
      WordBoundary;
      Alts [
        Cats [
          Lit "test";
          Opt (Lit "ing");
          Opt (Cats [Plus (Sp); Alts [Lit "call"; Lit "audio"; Lit "system"; Lit "line"]])];
        Lit "spam";
        Lit "scam";
        Lit "prank";
        Lit "robocall"];
      WordBoundary];
    Cats [
      WordBoundary;
      Alts [Lit "fake"; Lit "fraudulent"];
      Plus (Sp);
      Alts [Lit "call"; Lit "enquiry"; Lit "inquiry"];
      WordBoundary];
    Cats [Lit "टेस्ट"; Star (Sp); Lit "कॉल"];
    Lit "स्पैम";
    Lit "स्कैम";
    Cats [Lit "തമാശ"; Star (Sp); Lit "കോൾ"]].

Definition REPEATED_CUSTOMER_GREETING_CUE : re :=
  Cats [
    Start;
    TwoOrMore (Cats [
        Alts [Lit "hello"; Lit "hallo"; Lit "helo"; Lit "hi"; Lit "हेलो"; Lit "हलो"; Lit "ഹലോ"];
        Star (Chr (fun c => space_char c || (c =? 44) || (c =? 33) || (c =? 63)))]);
    End_].

Definition CUSTOMER_LANGUAGE_CHOICE_CUE : re :=
  Cats [
    Start;
    Plus (Cats [
        Alts [
          Lit "english";
          Lit "hindi";
          Lit "hinglish";
          Lit "tamil";
          Lit "malayalam";
          Lit "telugu";
          Lit "kannada";
          Lit "marathi";
          Lit "bengali";
          Lit "ગુજરાતી";
          Lit "हिंदी";
          Lit "தமிழ்";
          Lit "മലയാളം"];
        Star (Chr (fun c => space_char c || (c =? 44) || (c =? 47) || (c =? 38)))]);
    End_].

(** ** The refinements of [repairClassification] *)

Definition BEEP_CUE : re :=
  Alts [
    Cats [WordBoundary; Alts [Lit "beep"; Lit "tone"]; WordBoundary];
    Lit "बीप";
    Lit "ബീപ്പ്"].

Definition LEAVE_MESSAGE_CUE : re :=
  Alts [
    Cats [Lit "leave "; Opt (Alts [Lit "a "; Lit "your "]); Lit "message"];
    Cats [Lit "record "; Opt (Alts [Lit "a "; Lit "your "; Lit "the "]); Lit "message"];
    Lit "संदेश छोड़";
    Lit "मैसेज छोड़"].

Definition RECORDING_CUE : re :=
  Alts [
    Cats [
      Alts [Lit "message"; Lit "recording"];
      Lit " ";
      Opt (Alts [Lit "has been "; Lit "is "]);
      Alts [Lit "recorded"; Cats [Lit "complete"; Opt (Lit "d")]; Lit "finished"; Lit "ended"]];
    Lit "hang up"].

Definition MAILBOX_CUE : re :=
  Alts [
    Lit "mailbox";
    Lit "is not available";
    Cats [Lit "cannot "; Alts [Lit "take"; Lit "answer"]]].

Definition DISCLOSURE_CUE : re :=
  Cats [
    WordBoundary;
    Alts [Lit "virtual"; Lit "automated"; Lit "digital"];
    Plus (Sp);
    Alts [Lit "assistant"; Lit "agent"; Lit "system"; Lit "service"];
    WordBoundary].

Definition SCREENING_CUE : re :=
  Alts [
    Cats [
      WordBoundary;
      Alts [Lit "state"; Lit "say"];
      Plus (Sp);
      Opt (Cats [Lit "your"; Plus (Sp)]);
      Alts [Lit "name"; Lit "purpose"; Cats [Lit "reason for "; Opt (Lit "the "); Lit "call"]];
      WordBoundary];
    Lit "screen"].

Definition TEST_CALL_CUE : re :=
  Alts [
    Cats [WordBoundary; Lit "test"; Opt (Lit "ing"); WordBoundary];
    Cats [Lit "टेस्ट"; Star (Sp); Lit "कॉल"]].

Definition SPAM_CUE : re :=
  Alts [
    Cats [
      WordBoundary;
      Alts [Lit "spam"; Lit "scam"; Lit "robocall"; Lit "fake"; Lit "fraudulent"];
      WordBoundary];
    Lit "स्पैम";
    Lit "स्कैम"].

(** ** The cues on sample turns *)

Example voicemail_cue :
  test AFFIRMATIVE_VOICEMAIL_CUE "Please leave your Message after the BEEP" = true ∧
  test AFFIRMATIVE_VOICEMAIL_CUE "Hello, may I know your name?" = false ∧
  test AFFIRMATIVE_VOICEMAIL_CUE "टोन के बाद" = true.
Proof. vm_compute. auto. Qed.

Example automation_cue :
  test AFFIRMATIVE_AUTOMATION_CUE "press 1 for sales" = true ∧
  test AFFIRMATIVE_AUTOMATION_CUE "I am pressing on" = false.
Proof. vm_compute. auto. Qed.

Example greeting_cue :
  test REPEATED_CUSTOMER_GREETING_CUE "Hello, hello!" = true ∧
  test REPEATED_CUSTOMER_GREETING_CUE "Hello" = false.
Proof. vm_compute. auto. Qed.

Example language_cue :
  test CUSTOMER_LANGUAGE_CHOICE_CUE "Hindi, हिंदी" = true ∧
  test CUSTOMER_LANGUAGE_CHOICE_CUE "I speak Hindi" = false.
Proof. vm_compute. auto. Qed.
