(* ===== verification/Transcript.v ===== *)
(** * Transcripts

    [src/reaudit/core.ts]: merging transcript segments into natural speech
    blocks, the end of the agent's introduction, the speech of each role, and
    where an agent failure begins. *)

From S2P Require Import Prelude JsNumber JsText CanonicalJson ReauditTypes.

Local Open Scope string_scope.
Local Open Scope list_scope.
#[global] Open Scope Z_scope.

Definition DURATION_TOLERANCE_MS : Z := 5000.
Definition MERGE_GAP_MS : Z := 1000.
Definition MERGE_MAX_BLOCK_MS : Z := 15000.
Definition MERGE_MAX_BLOCK_CHARS : Z := 250.

Definition safeMs (value : Z) (name : string) : result js_error Z :=
  if negb (isSafeInteger value) || (value <? 0) then
    Throw (RangeError (name +:+ " must be a non-negative safe integer"))
  else Ok value.

(** ** Merging *)

(** The condition under which a segment starts a new block. *)
Definition split (current : TranscriptSegment) (start end_ : Z) (t : string) : bool :=
  (MERGE_GAP_MS <=? start - endMs current) ||
  (MERGE_MAX_BLOCK_MS <? end_ - startMs current) ||
  (MERGE_MAX_BLOCK_CHARS <? units (text current) + units t + 1).

(** The block under construction, extended by a segment. *)
Definition extend (current : TranscriptSegment) (end_ : Z) (t : string) : TranscriptSegment :=
  {| startMs := startMs current;
     endMs := end_;
     text := text current +:+ (if bool_decide (t = "") then "" else " " +:+ t) |}.

Definition push (result : list NaturalSpeechBlock) (current : TranscriptSegment)
    : list NaturalSpeechBlock :=
  result ++ [{| number := Z.of_nat (length result) + 1;
                block_startMs := startMs current;
                block_endMs := endMs current;
                block_text := text current |}].

Fixpoint merge_loop (segments : list TranscriptSegment) (current : option TranscriptSegment)
    (result : list NaturalSpeechBlock) : Prelude.result js_error (list NaturalSpeechBlock) :=
  match segments with
  | [] => Ok (match current with Some c => push result c | None => result end)
  | segment :: segments =>
      start ← safeMs (startMs segment) "segment.startMs";
      end_ ← safeMs (endMs segment) "segment.endMs";
      throw_if (end_ <? start) (RangeError "segment.endMs precedes startMs") ≫= fun _ =>
      let t := trim (text segment) in
      let fresh := {| startMs := start; endMs := end_; text := t |} in
      match current with
      | None => merge_loop segments (Some fresh) result
      | Some c =>
          if split c start end_ t then merge_loop segments (Some fresh) (push result c)
          else merge_loop segments (Some (extend c end_ t)) result
      end
  end.

Definition mergeTranscriptSegments (segments : list TranscriptSegment)
    : Prelude.result js_error (list NaturalSpeechBlock) :=
  merge_loop segments None [].

(** ** The agent's introduction *)

Definition by_number (left right : NaturalSpeechBlock) : bool := number left <=? number right.

Definition includes (l : list Z) (x : Z) : bool := bool_decide (x ∈ l).

Definition firstAgentTurnEnd (blocks : list NaturalSpeechBlock) (agentBlockNumbers : list Z)
    (recordedDurationMs : Z) : option Z :=
  match sort_by by_number (filter (fun b => includes agentBlockNumbers (number b) = true) blocks) with
  | first :: _ => Some (Z.min (block_endMs first) recordedDurationMs)
  | [] => None
  end.

(** ** Where an agent failure begins *)

Record AgentFailureEvidence : Type := {
  fe_mode : option FailureMode;
  fe_failureStartMs : option Z;
  fe_meaningfulServiceBeforeFailure : bool;
  fe_blockNumber : option Z;
}.

Definition failure_none : AgentFailureEvidence :=
  {| fe_mode := None; fe_failureStartMs := None;
     fe_meaningfulServiceBeforeFailure := false; fe_blockNumber := None |}.

Definition failedFromStart : AgentFailureEvidence :=
  {| fe_mode := Some mode_start; fe_failureStartMs := None;
     fe_meaningfulServiceBeforeFailure := false; fe_blockNumber := None |}.

Definition midConversation (failureStartMs : Z) (blockNumber : option Z) : AgentFailureEvidence :=
  {| fe_mode := Some mode_mid_conversation; fe_failureStartMs := Some failureStartMs;
     fe_meaningfulServiceBeforeFailure := true; fe_blockNumber := blockNumber |}.

Section AgentFailure.
Context (blocks : list NaturalSpeechBlock) (customerBlockNumbers agentBlockNumbers : list Z)
        (recordedDurationMs : Z).

Definition endsBefore (numbers : list Z) (failureStartMs : Z) : bool :=
  existsb (fun b => includes numbers (number b) && (block_endMs b <=? failureStartMs)) blocks.

Definition servedBefore (failureStartMs : Z) : bool :=
  isSafeInteger failureStartMs && (0 <? failureStartMs) &&
  endsBefore customerBlockNumbers failureStartMs &&
  endsBefore agentBlockNumbers failureStartMs.

(** Step 1: the boundary the model names, [None] when it is unsupported. *)
Definition proposedFailure (proposedBlockNumber : option Z) : option AgentFailureEvidence :=
  let silentAfterLastTurn :=
    match proposedBlockNumber with None => true | Some n => n =? 0 end in
  let block :=
    if silentAfterLastTurn then None
    else List.find (fun b => bool_decide (Some (number b) = proposedBlockNumber)) blocks in
  if silentAfterLastTurn || match block with Some _ => true | None => false end then
    let failureStartMs :=
      Z.min (match block with
             | Some b => block_startMs b
             | None => foldr Z.max 0 (map block_endMs blocks)
             end) recordedDurationMs in
    if servedBefore failureStartMs then Some (midConversation failureStartMs (number <$> block))
    else None
  else None.

(** Step 2: the turn after the customer's first reply to the agent. *)
Definition derivedFailure : AgentFailureEvidence :=
  let ordered := sort_by by_number blocks in
  let firstAgent := List.find (fun b => includes agentBlockNumbers (number b)) ordered in
  let firstReply :=
    match firstAgent with
    | None => None
    | Some a =>
        List.find (fun b => (number a <? number b) && includes customerBlockNumbers (number b) &&
                            (block_endMs a <=? block_startMs b)) ordered
    end in
  match firstReply with
  | None => failedFromStart
  | Some reply =>
      let next := List.find (fun b => number reply <? number b) ordered in
      let failureStartMs :=
        Z.min (match next with Some n => block_startMs n | None => block_endMs reply end)
          recordedDurationMs in
      if servedBefore failureStartMs then midConversation failureStartMs (number <$> next)
      else failedFromStart
  end.

Definition resolveAgentFailureEvidence (category : ReauditCategory) (proposedMode : option string)
    (proposedBlockNumber : option Z) : AgentFailureEvidence :=
  if negb (bool_decide (category = AGENT_FAILURE)) then failure_none
  else
    let proposed :=
      if bool_decide (proposedMode = Some "mid_conversation")
      then proposedFailure proposedBlockNumber else None in
    match proposed with Some e => e | None => derivedFailure end.
End AgentFailure.

(** ** Speech of each role *)

Definition speechByRole (blocks : list NaturalSpeechBlock) (customer agent : list Z) : Z * Z :=
  foldl (fun (acc : Z * Z) b =>
    let duration := Z.max 0 (block_endMs b - block_startMs b) in
    if includes customer (number b) then (num_add acc.1 duration, acc.2)
    else if includes agent (number b) then (acc.1, num_add acc.2 duration)
    else acc) (0, 0) blocks.

(** ** Facts: merging *)

Definition segment_ok (s : TranscriptSegment) : Prop :=
  0 ≤ startMs s ≤ endMs s ∧ endMs s ≤ MAX_SAFE_INTEGER.

Lemma safeMs_Ok v name w : safeMs v name = Ok w ↔ w = v ∧ 0 ≤ v ≤ MAX_SAFE_INTEGER.
Proof.
  unfold safeMs. destruct (negb (isSafeInteger v) || (v <? 0)) eqn:E.
  - split; [done|]. intros [-> Hv]. apply orb_true_iff in E as [E|E].
    + apply negb_true_iff, not_true_iff_false in E. rewrite isSafeInteger_spec in E. lia.
    + apply Z.ltb_lt in E. lia.
  - to_prop. rewrite isSafeInteger_spec in *. split; [intros [= <-]; lia|]. by intros [-> _].
Qed.

(** A segment as the loop sees it: its text trimmed. *)
Definition trimmed (s : TranscriptSegment) : TranscriptSegment :=
  {| startMs := startMs s; endMs := endMs s; text := trim (text s) |}.

(** A group is a first segment and the segments joined to it. *)
Definition group : Type := TranscriptSegment * list TranscriptSegment.

Definition join (c s : TranscriptSegment) : TranscriptSegment := extend c (endMs s) (trim (text s)).
Definition splits (c s : TranscriptSegment) : bool := split c (startMs s) (endMs s) (trim (text s)).

Definition group_block (g : group) : TranscriptSegment := foldl join (trimmed g.1) g.2.

(** No segment of a group splits from the block built before it. *)
Fixpoint joins (c : TranscriptSegment) (rest : list TranscriptSegment) : Prop :=
  match rest with
  | [] => True
  | s :: rest => splits c s = false ∧ joins (join c s) rest
  end.

(** Each group's first segment splits from the block of the group before it. *)
Fixpoint separated (c : TranscriptSegment) (gs : list group) : Prop :=
  match gs with
  | [] => True
  | g :: gs => splits c g.1 = true ∧ separated (group_block g) gs
  end.

Definition grouping (gs : list group) : Prop :=
  Forall (fun g => joins (trimmed g.1) g.2) gs ∧
  match gs with [] => True | g :: gs => separated (group_block g) gs end.

Definition number_block (i : nat) (s : TranscriptSegment) : NaturalSpeechBlock :=
  {| number := Z.of_nat i + 1; block_startMs := startMs s; block_endMs := endMs s;
     block_text := text s |}.

Lemma joins_snoc c rest s :
  joins c rest → splits (foldl join c rest) s = false → joins c (rest ++ [s]).
Proof. revert c. induction rest as [|x rest IH]; cbn; [by intros|]. intros c [? ?] ?. eauto. Qed.

Lemma merge_step s segs cur result :
  segment_ok s →
  merge_loop (s :: segs) cur result =
  match cur with
  | None => merge_loop segs (Some (trimmed s)) result
  | Some c => if splits c s then merge_loop segs (Some (trimmed s)) (push result c)
              else merge_loop segs (Some (join c s)) result
  end.
Proof.
  intros [H1 H2]. cbn [merge_loop].
  rewrite (proj2 (safeMs_Ok (startMs s) _ (startMs s))) by lia.
  rewrite (proj2 (safeMs_Ok (endMs s) _ (endMs s))) by lia. cbn [mbind result_bind].
  rewrite (proj2 (Z.ltb_ge (endMs s) (startMs s))) by lia. done.
Qed.

Lemma merge_loop_valid segs cur result :
  (∃ bs, merge_loop segs cur result = Ok bs) ↔ Forall segment_ok segs.
Proof.
  revert cur result. induction segs as [|s segs IH]; intros cur result.
  - split; [constructor|]. by eexists.
  - rewrite Forall_cons. split.
    + intros [bs H]. cbn [merge_loop] in H.
      apply bind_Ok_iff in H as (a & Ha & H). apply safeMs_Ok in Ha as [-> Ha].
      apply bind_Ok_iff in H as (b & Hb & H). apply safeMs_Ok in Hb as [-> Hb].
      apply bind_Ok_iff in H as (u & Hu & H). apply throw_if_Ok, Z.ltb_ge in Hu.
      split; [split; lia|]. destruct cur as [c|]; [destruct (split _ _ _ _)|]; eapply IH; eauto.
    + intros [Hs Hf]. rewrite merge_step by done.
      destruct cur as [c|]; [destruct (splits c s)|]; by apply IH.
Qed.

(** The loop, with a group under construction. *)
Lemma merge_loop_groups segs g result :
  Forall segment_ok segs → joins (trimmed g.1) g.2 →
  ∃ rest gs, segs = rest ++ concat (map (fun g : group => g.1 :: g.2) gs) ∧
    joins (trimmed g.1) (g.2 ++ rest) ∧
    Forall (fun g : group => joins (trimmed g.1) g.2) gs ∧
    separated (group_block (g.1, g.2 ++ rest)) gs ∧
    merge_loop segs (Some (group_block g)) result =
      Ok (result ++ imap (fun i g => number_block (length result + i) (group_block g))
                      ((g.1, g.2 ++ rest) :: gs)).
Proof.
  intros Hok. revert g result. induction Hok as [|s segs Hs Hok IH]; intros g result Hg.
  - exists [], []. rewrite !app_nil_r. split_and!; try done.
    cbn [merge_loop imap]. unfold push, number_block. rewrite Nat.add_0_r. by destruct g.
  - rewrite merge_step by done. destruct (splits (group_block g) s) eqn:Hsp.
    + destruct (IH (s, []) (push result (group_block g)) I) as (rest & gs & -> & H1 & H2 & H3 & H4).
      exists [], ((s, rest) :: gs). rewrite !app_nil_r.
      split; [done|]. split; [done|]. split; [by constructor|]. split.
      * split; [by destruct g|done].
      * cbn [group_block fst snd foldl] in H4. rewrite H4. f_equal. unfold push at 1.
        rewrite <- app_assoc. f_equal. cbn [imap fst snd app]. unfold compose.
        assert (length (push result (group_block g)) = length result + 1)%nat as ->
          by (unfold push; by rewrite length_app).
        rewrite !Nat.add_0_r. apply (f_equal2 cons); [by destruct g|].
        apply (f_equal2 cons); [done|].
        apply imap_ext. intros i x _. f_equal. lia.
    + destruct (IH (g.1, g.2 ++ [s]) result) as (rest & gs & -> & H1 & H2 & H3 & H4).
      { by apply joins_snoc. }
      assert (group_block (g.1, g.2 ++ [s]) = join (group_block g) s) as E
        by (unfold group_block; cbn [fst snd]; by rewrite foldl_app).
      rewrite E in H4. cbn [fst snd] in *. exists (s :: rest), gs.
      rewrite <- app_assoc in H1, H3, H4. by split_and!.
Qed.

(** The blocks are the groups of a grouping of the segments, in order. *)
Lemma merge_groups segs :
  Forall segment_ok segs →
  ∃ gs : list group, segs = concat (map (fun g => g.1 :: g.2) gs) ∧ grouping gs ∧
    mergeTranscriptSegments segs = Ok (imap (fun i g => number_block i (group_block g)) gs).
Proof.
  intros Hok. unfold mergeTranscriptSegments. destruct Hok as [|s segs Hs Hok].
  - exists []. by split_and!.
  - rewrite merge_step by done.
    destruct (merge_loop_groups segs (s, []) [] Hok I) as (rest & gs & -> & H1 & H2 & H3 & H4).
    exists ((s, rest) :: gs). split_and!; [done| |exact H4].
    split; [by constructor|done].
Qed.

Lemma merged_lookup segs bs i b :
  mergeTranscriptSegments segs = Ok bs → bs !! i = Some b → number b = Z.of_nat i + 1.
Proof.
  intros H Hb. assert (Forall segment_ok segs) as Hok by (apply (merge_loop_valid _ None []); by exists bs).
  destruct (merge_groups segs Hok) as (gs & _ & _ & E). rewrite E in H. apply Ok_inj in H as <-.
  rewrite list_lookup_imap in Hb. apply fmap_Some in Hb as (g & _ & ->). done.
Qed.

(** Blocks are numbered from 1 to their count. *)
Lemma merged_number segs bs b :
  mergeTranscriptSegments segs = Ok bs → b ∈ bs → 1 ≤ number b ≤ Z.of_nat (length bs).
Proof.
  intros H Hb. apply list_elem_of_lookup in Hb as [i Hi].
  rewrite (merged_lookup _ _ _ _ H Hi). apply lookup_lt_Some in Hi. lia.
Qed.

Lemma merged_covers segs bs v :
  mergeTranscriptSegments segs = Ok bs → 1 ≤ v ≤ Z.of_nat (length bs) →
  ∃ b, b ∈ bs ∧ number b = v.
Proof.
  intros H Hv. destruct (lookup_lt_is_Some_2 bs (Z.to_nat (v - 1))) as [b Hb]; [lia|].
  exists b. split; [by eapply list_elem_of_lookup_2|].
  rewrite (merged_lookup _ _ _ _ H Hb). lia.
Qed.

(** The size limits of a group with more than one segment. *)
Lemma joins_bounds c rest :
  joins c rest → rest ≠ [] →
  let b := foldl join c rest in
  endMs b - startMs b ≤ MERGE_MAX_BLOCK_MS ∧ units (text b) ≤ MERGE_MAX_BLOCK_CHARS.
Proof.
  intros Hj Hne. induction rest as [|s rest IH] using rev_ind; [done|]. clear Hne.
  assert (joins c rest ∧ splits (foldl join c rest) s = false) as [Hjr Hs].
  { clear IH. revert c Hj. induction rest as [|x rest IHr]; cbn; [tauto|].
    intros c [H1 H2]. destruct (IHr _ H2). done. }
  cbv zeta. rewrite foldl_app. cbn [foldl]. set (b := foldl join c rest) in *.
  unfold splits, split in Hs. to_prop. cbn [join extend startMs endMs text].
  split; [lia|]. assert (∀ s t, units (s +:+ t) = units s + units t) as Hu.
  { intros x y. induction x as [|ch x IHx]; [done|]. rewrite append_cons. cbn [units]. lia. }
  rewrite Hu. case_bool_decide as Et.
  - rewrite Et in *. cbn [units] in *. lia.
  - rewrite Hu. change (units " ") with 1. lia.
Qed.

(** ** Facts: looking blocks up in number order *)

Section Find.
Context (blocks : list NaturalSpeechBlock) (p : NaturalSpeechBlock → bool).

Lemma by_number_sorted :
  StronglySorted (fun a b => by_number a b = true) (sort_by by_number blocks).
Proof.
  apply sort_by_sorted; unfold by_number; intros *; rewrite ?Z.leb_le; lia.
Qed.

Lemma find_sorted_Some b :
  List.find p (sort_by by_number blocks) = Some b →
  b ∈ blocks ∧ p b = true ∧ ∀ c, c ∈ blocks → p c = true → number b ≤ number c.
Proof.
  intros H. assert (b ∈ sort_by by_number blocks ∧ p b = true ∧
    ∀ c, c ∈ sort_by by_number blocks → p c = true → number b ≤ number c) as (H1 & H2 & H3).
  { revert H. induction by_number_sorted as [|x l Hl IH Hx]; cbn; [done|].
    destruct (p x) eqn:Ep.
    - intros [= ->]. split; [left|]. split; [done|]. intros c Hc _.
      apply elem_of_cons in Hc as [->|Hc]; [done|].
      rewrite Forall_forall in Hx. specialize (Hx c Hc). by apply Z.leb_le in Hx.
    - intros H. destruct (IH H) as (H1 & H2 & H3). split; [by right|]. split; [done|].
      intros c Hc Hp. apply elem_of_cons in Hc as [->|Hc]; [congruence|auto]. }
  split; [by rewrite sort_by_elem in H1|]. split; [done|].
  intros c Hc. apply H3. by rewrite sort_by_elem.
Qed.

Lemma find_sorted_None c :
  List.find p (sort_by by_number blocks) = None → c ∈ blocks → p c = false.
Proof.
  intros H Hc. apply (List.find_none _ _ H). apply list_elem_of_In. by rewrite sort_by_elem.
Qed.
End Find.

Lemma includes_true l x : includes l x = true ↔ x ∈ l.
Proof. apply bool_decide_eq_true. Qed.

(** The introduction ends with the lowest-numbered block of the agent. *)
Lemma firstAgentTurnEnd_spec blocks agents recorded :
  match firstAgentTurnEnd blocks agents recorded with
  | None => ∀ b, b ∈ blocks → ¬ number b ∈ agents
  | Some t => ∃ b, b ∈ blocks ∧ number b ∈ agents ∧ t = Z.min (block_endMs b) recorded ∧
      ∀ b', b' ∈ blocks → number b' ∈ agents → number b ≤ number b'
  end.
Proof.
  unfold firstAgentTurnEnd.
  set (mine := filter (fun b => includes agents (number b) = true) blocks).
  assert (Hm : ∀ b, b ∈ sort_by by_number mine ↔ b ∈ blocks ∧ number b ∈ agents).
  { intros b. rewrite sort_by_elem. unfold mine. rewrite list_elem_of_filter, includes_true. tauto. }
  pose proof (by_number_sorted mine) as Hs.
  destruct (sort_by by_number mine) as [|x l].
  - intros b Hb Ha. apply (elem_of_nil b). by apply Hm.
  - assert (x ∈ blocks ∧ number x ∈ agents) as [Hx Ha] by (apply Hm; left).
    exists x. do 3 (split; [done|]). intros b Hb Hba.
    assert (b ∈ x :: l) as Hin by by apply Hm.
    apply elem_of_cons in Hin as [->|Hin]; [done|].
    apply StronglySorted_inv in Hs as [_ Hs]. rewrite Forall_forall in Hs.
    specialize (Hs b Hin). by apply Z.leb_le in Hs.
Qed.

Section AgentFailureFacts.
Context (blocks : list NaturalSpeechBlock) (customers agents : list Z) (recorded : Z).

Lemma endsBefore_true l f :
  endsBefore blocks l f = true ↔ ∃ b, b ∈ blocks ∧ number b ∈ l ∧ block_endMs b ≤ f.
Proof.
  unfold endsBefore. rewrite existsb_exists. setoid_rewrite andb_true_iff.
  setoid_rewrite includes_true. setoid_rewrite Z.leb_le.
  split; intros (b & Hb & ?); exists b; (split; [by apply list_elem_of_In|done]).
Qed.

Lemma servedBefore_true f :
  servedBefore blocks customers agents f = true ↔
  0 < f ≤ MAX_SAFE_INTEGER ∧
  (∃ b, b ∈ blocks ∧ number b ∈ customers ∧ block_endMs b ≤ f) ∧
  (∃ b, b ∈ blocks ∧ number b ∈ agents ∧ block_endMs b ≤ f).
Proof.
  unfold servedBefore. rewrite !andb_true_iff, !endsBefore_true, isSafeInteger_spec, Z.ltb_lt.
  unfold MAX_SAFE_INTEGER. split; [intros (((? & ?) & ?) & ?)|intros (? & ? & ?)];
    split_and!; try done; lia.
Qed.

(** Every result is one of the three shapes, and the chargeable one is backed
    by the blocks. *)
Definition boundary_of (k : option Z) (f : Z) : Prop :=
  match k with
  | Some m => ∃ b, b ∈ blocks ∧ number b = m ∧ f = Z.min (block_startMs b) recorded
  | None => f = recorded ∨ ∃ b, b ∈ blocks ∧ f = block_endMs b
  end.

Lemma foldr_max_spec l d : foldr Z.max d l = d ∨ foldr Z.max d l ∈ l.
Proof.
  induction l as [|x l IH]; cbn; [by left|].
  destruct (Z.max_spec x (foldr Z.max d l)) as [[_ ->]|[_ ->]].
  - destruct IH as [IH|IH]; [by left|right; by right].
  - right. left.
Qed.

Lemma proposedFailure_shape n e :
  proposedFailure blocks customers agents recorded n = Some e →
  ∃ f k, e = midConversation f k ∧ f ≤ recorded ∧ boundary_of k f ∧
    servedBefore blocks customers agents f = true.
Proof.
  unfold proposedFailure.
  destruct (match n with None => true | Some n => n =? 0 end) eqn:Hsil; cbn [orb].
  - destruct (servedBefore _ _ _ _) eqn:Hs; [|done]. intros [= <-].
    do 2 eexists. split; [done|]. split; [lia|]. split; [|done].
    unfold servedBefore in Hs. to_prop. cbn.
    destruct (foldr_max_spec (map block_endMs blocks) 0) as [E|E]; [lia|].
    apply list_elem_of_fmap in E as (b & E & Hb).
    destruct (Z.min_spec (foldr Z.max 0 (map block_endMs blocks)) recorded) as [[_ ->]|[_ ->]];
      [right; by exists b|by left].
  - destruct (List.find _ _) as [b|] eqn:Hb; [|done].
    destruct (servedBefore _ _ _ _) eqn:Hs; [|done]. intros [= <-].
    apply List.find_some in Hb as [Hb _]. apply list_elem_of_In in Hb.
    do 2 eexists. split; [done|]. split; [lia|]. split; [|done]. cbn. eauto.
Qed.

Lemma derivedFailure_shape :
  derivedFailure blocks customers agents recorded = failedFromStart ∨
  ∃ f k, derivedFailure blocks customers agents recorded = midConversation f k ∧
    f ≤ recorded ∧ boundary_of k f ∧ servedBefore blocks customers agents f = true.
Proof.
  unfold derivedFailure. cbv zeta.
  match goal with |- context [match ?x with Some _ => _ | None => failedFromStart end] =>
    destruct x as [r|] eqn:Hr end; [|by left].
  destruct (servedBefore _ _ _ _) eqn:Hs; [right|by left].
  do 2 eexists. split; [done|]. split; [lia|]. split; [|done].
  destruct (List.find (fun b => number r <? number b) _) as [x|] eqn:Hx.
  - apply find_sorted_Some in Hx as (Hx & _). cbn. eauto.
  - destruct (List.find _ _); [|done]. apply find_sorted_Some in Hr as (Hr & _). cbn.
    destruct (Z.min_spec (block_endMs r) recorded) as [[_ ->]|[_ ->]];
      [right; by exists r|by left].
Qed.

Lemma failure_shapes c mode n :
  let e := resolveAgentFailureEvidence blocks customers agents recorded c mode n in
  (e = failure_none ∧ c ≠ AGENT_FAILURE) ∨ (e = failedFromStart ∧ c = AGENT_FAILURE) ∨
  (∃ f k, e = midConversation f k ∧ c = AGENT_FAILURE ∧ f ≤ recorded ∧ boundary_of k f ∧
     servedBefore blocks customers agents f = true).
Proof.
  unfold resolveAgentFailureEvidence. case_bool_decide as Hc; cbn [negb]; [|by left].
  right. destruct (if bool_decide _ then _ else None) as [e|] eqn:Hp.
  - right. case_bool_decide; [|done].
    apply proposedFailure_shape in Hp as (f & k & -> & ?). eauto 6.
  - destruct derivedFailure_shape as [->|(f & k & -> & ?)]; [by left|right]. eauto 6.
Qed.
End AgentFailureFacts.

(** Speech blocks in conversation order: numbered from 1, without overlap. *)
Record in_order (blocks : list NaturalSpeechBlock) : Prop := {
  order_numbers : NoDup (map number blocks);
  order_positive b : b ∈ blocks → 1 ≤ number b;
  order_span b : b ∈ blocks → 0 ≤ block_startMs b < block_endMs b;
  order_apart b c : b ∈ blocks → c ∈ blocks → number b < number c →
    block_endMs b ≤ block_startMs c;
}.

Section InOrder.
Context (blocks : list NaturalSpeechBlock) (Ho : in_order blocks).

Lemma number_inj b c : b ∈ blocks → c ∈ blocks → number b = number c → b = c.
Proof using Ho.
  intros Hb Hc E. destruct Ho as [Hnd _ _ _]. clear Ho.
  induction blocks as [|x l IH]; [by apply elem_of_nil in Hb|].
  cbn in Hnd. apply NoDup_cons in Hnd as [Hx Hl].
  assert (∀ y, y ∈ l → number y ∈ map number l) as Hin.
  { intros y Hy. apply list_elem_of_fmap. eauto. }
  apply elem_of_cons in Hb as [->|Hb], Hc as [->|Hc]; [done| | |auto].
  - exfalso. apply Hx. rewrite E. auto.
  - exfalso. apply Hx. rewrite <- E. auto.
Qed.

Lemma find_number b k :
  b ∈ blocks → k = Some (number b) →
  List.find (fun c => bool_decide (Some (number c) = k)) blocks = Some b.
Proof using Ho.
  intros Hb ->. destruct (List.find _ blocks) as [c|] eqn:E.
  - apply List.find_some in E as [Hc E]. apply list_elem_of_In in Hc.
    apply bool_decide_eq_true in E. injection E as E. f_equal. by apply number_inj.
  - apply list_elem_of_In in Hb. pose proof (List.find_none _ _ E b Hb) as Hf.
    by apply bool_decide_eq_false in Hf.
Qed.

Lemma foldr_max_ge l d x : x ∈ d :: l → x ≤ foldr Z.max d l.
Proof.
  induction l as [|y l IH]; cbn.
  - intros ->%list_elem_of_singleton. done.
  - rewrite !elem_of_cons. intros [->|[->|Hx]]; [|lia|].
    + etransitivity; [apply IH; left|lia].
    + etransitivity; [apply IH; by right|lia].
Qed.

Lemma silent_boundary b :
  b ∈ blocks → (∀ c, c ∈ blocks → number c ≤ number b) →
  foldr Z.max 0 (map block_endMs blocks) = block_endMs b.
Proof using Ho.
  intros Hb Hlast.
  assert (block_endMs b ≤ foldr Z.max 0 (map block_endMs blocks)).
  { apply foldr_max_ge. right. apply list_elem_of_fmap. eauto. }
  destruct (foldr_max_spec (map block_endMs blocks) 0) as [E|E].
  - pose proof (order_span _ Ho _ Hb). lia.
  - apply list_elem_of_fmap in E as (c & E & Hc).
    destruct (Z.eq_dec (number c) (number b)) as [En|].
    + rewrite (number_inj c b Hc Hb En) in E. lia.
    + pose proof (order_apart _ Ho c b Hc Hb ltac:(specialize (Hlast c Hc); lia)).
      pose proof (order_span _ Ho b Hb). lia.
Qed.

(** The derived boundary, proposed back, is the boundary that was derived. *)
Lemma derived_reproposed customers agents recorded f k :
  derivedFailure blocks customers agents recorded = midConversation f k →
  proposedFailure blocks customers agents recorded k = Some (midConversation f k).
Proof using Ho.
  unfold derivedFailure. cbv zeta.
  match goal with |- context [match ?x with Some _ => _ | None => failedFromStart end] =>
    destruct x as [r|] eqn:Hr end; [|done].
  destruct (List.find _ _) as [a|]; [|done]. apply find_sorted_Some in Hr as (Hr & _).
  destruct (servedBefore _ _ _ _) eqn:Hs; [|done]. intros [= <- <-].
  destruct (List.find (fun b => number r <? number b) _) as [x|] eqn:Hx; cbn [fmap option_fmap option_map] in *.
  - apply find_sorted_Some in Hx as (Hx & _). unfold proposedFailure.
    rewrite (proj2 (Z.eqb_neq _ _)) by (pose proof (order_positive _ Ho x Hx); lia).
    rewrite (find_number x) by done. cbn [orb]. by rewrite Hs.
  - unfold proposedFailure. cbn [orb]. rewrite (silent_boundary r Hr); [by rewrite Hs|].
    intros c Hc. pose proof (find_sorted_None _ _ c Hx Hc) as Hn. cbn in Hn. to_prop. lia.
Qed.

(** So is a boundary the model named itself. *)
Lemma proposed_reproposed customers agents recorded n f k :
  proposedFailure blocks customers agents recorded n = Some (midConversation f k) →
  proposedFailure blocks customers agents recorded k = Some (midConversation f k).
Proof using Ho.
  unfold proposedFailure at 1.
  destruct (match n with None => true | Some n => n =? 0 end) eqn:Hsil; cbn [orb].
  - destruct (servedBefore _ _ _ _) eqn:Hs; [|done]. intros [= <- <-].
    unfold proposedFailure. cbn [orb fmap option_fmap option_map]. by rewrite Hs.
  - destruct (List.find _ _) as [b|] eqn:Hb; [|done].
    destruct (servedBefore _ _ _ _) eqn:Hs; [|done]. intros [= <- <-].
    apply List.find_some in Hb as [Hb _]. apply list_elem_of_In in Hb.
    cbn [fmap option_fmap option_map]. unfold proposedFailure.
    rewrite (proj2 (Z.eqb_neq _ _)) by (pose proof (order_positive _ Ho b Hb); lia).
    rewrite (find_number b) by done. cbn [orb]. by rewrite Hs.
Qed.

(** A customer block after an agent block is a served exchange. *)
Lemma reply_served customers agents recorded a c :
  (∀ b, b ∈ blocks → block_endMs b ≤ recorded ≤ MAX_SAFE_INTEGER) →
  a ∈ blocks → c ∈ blocks → number a ∈ agents → number c ∈ customers → number a < number c →
  ∃ f k, derivedFailure blocks customers agents recorded = midConversation f k.
Proof using Ho.
  intros Hrec Ha Hc Hna Hnc Hac. unfold derivedFailure. cbv zeta.
  destruct (List.find (fun b => includes agents (number b)) _) as [a1|] eqn:Ea.
  2:{ apply find_sorted_None with (c := a) in Ea; [|done]. apply includes_true in Hna. congruence. }
  apply find_sorted_Some in Ea as (Ha1 & Hn1 & Hmin).
  specialize (Hmin a Ha (proj2 (includes_true _ _) Hna)). apply includes_true in Hn1.
  destruct (List.find (fun b => (number a1 <? number b) && _ && _) _) as [r|] eqn:Er.
  2:{ apply find_sorted_None with (c := c) in Er; [|done]. exfalso.
      rewrite (proj2 (Z.ltb_lt (number a1) (number c))), (proj2 (includes_true _ _) Hnc) in Er by lia.
      cbn [andb] in Er. to_prop. pose proof (order_apart _ Ho a1 c Ha1 Hc ltac:(lia)). lia. }
  apply find_sorted_Some in Er as (Hr & Hpr & _). to_prop.
  match goal with H : includes customers _ = true |- _ => apply includes_true in H end.
  pose proof (order_span _ Ho r Hr). pose proof (order_span _ Ho a1 Ha1). pose proof (Hrec r Hr).
  match goal with |- context [servedBefore _ _ _ ?f] => set (bnd := f) in * end.
  assert (block_endMs r ≤ bnd ≤ recorded) as Hf.
  { subst bnd. destruct (List.find (fun b => number r <? number b) _) as [x|] eqn:Ex; [|lia].
    apply find_sorted_Some in Ex as (Hx & Hlt & _). to_prop.
    pose proof (order_apart _ Ho r x Hr Hx Hlt). lia. }
  rewrite (proj2 (servedBefore_true _ _ _ bnd)); [eauto|].
  split; [lia|]. split; [exists r|exists a1]; split_and!; try done; lia.
Qed.
End InOrder.


(** ** Properties *)

Lemma joins_text c rest :
  startMs (foldl join c rest) = startMs c ∧
  endMs (foldl join c rest) = default (endMs c) (endMs <$> last rest) ∧
  text (foldl join c rest) =
    foldl (fun acc s => acc +:+ (if bool_decide (trim (text s) = "") then "" else " " +:+ trim (text s)))
      (text c) rest.
Proof.
  induction rest as [|s rest (IH1 & IH2 & IH3)] using rev_ind; [done|].
  rewrite !foldl_app, last_snoc. cbn. rewrite IH1, IH3. by split_and!.
Qed.

(** [mergeTranscriptSegments] succeeds exactly on segments whose times are
    safe and in order, and then partitions them, in their order, into maximal
    runs. Block [i] is numbered [i + 1], starts where its first segment starts,
    ends where its last one ends and holds their trimmed texts, a space before
    each later non-empty one. A segment opens a new block exactly when it comes
    a second or more after the block, or would stretch it past 15 seconds or 250
    characters; so a block of two or more segments respects both limits. *)
Theorem mergeTranscriptSegments_groups (segs : list TranscriptSegment) :
  ((∃ bs, mergeTranscriptSegments segs = Ok bs) ↔ Forall segment_ok segs) ∧
  ∀ bs, mergeTranscriptSegments segs = Ok bs →
    ∃ gs : list group,
      segs = concat (map (fun g => g.1 :: g.2) gs) ∧
      grouping gs ∧
      length bs = length gs ∧
      ∀ i g b, gs !! i = Some g → bs !! i = Some b →
        number b = Z.of_nat i + 1 ∧
        block_startMs b = startMs g.1 ∧
        block_endMs b = default (endMs g.1) (endMs <$> last g.2) ∧
        block_text b = foldl (fun acc s => acc +:+
            (if bool_decide (trim (text s) = "") then "" else " " +:+ trim (text s)))
          (trim (text g.1)) g.2 ∧
        (g.2 ≠ [] → block_endMs b - block_startMs b ≤ 15000 ∧ units (block_text b) ≤ 250).
Proof.
  split; [apply merge_loop_valid|]. intros bs Hbs.
  destruct (merge_groups segs) as (gs & -> & Hg & E).
  { apply (merge_loop_valid _ None []). by exists bs. }
  rewrite E in Hbs. apply Ok_inj in Hbs as <-. exists gs.
  split; [done|]. split; [done|]. split; [apply length_imap|].
  intros i g b Hi Hb. rewrite list_lookup_imap in Hb.
  apply fmap_Some in Hb as (g' & Hg' & ->).
  assert (g' = g) as -> by (unfold group in *; congruence).
  destruct (joins_text (trimmed g.1) g.2) as (H1 & H2 & H3). cbn [number_block].
  split; [done|]. split; [exact H1|]. split; [exact H2|]. split; [exact H3|]. intros Hne.
  apply (joins_bounds (trimmed g.1) g.2); [|done].
  destruct Hg as [Hj _]. rewrite Forall_forall in Hj. apply Hj.
  by eapply list_elem_of_lookup_2.
Qed.

Definition demo_segments : list TranscriptSegment := [
  {| startMs := 0; endMs := 1200; text := " Hello, this is Saanvi. " |};
  {| startMs := 1500; endMs := 2600; text := "May I speak to you?" |};
  {| startMs := 4000; endMs := 5200; text := "Yes" |};
  {| startMs := 6300; endMs := 9000; text := "Which course do you want?" |}].

Definition demo_blocks : list NaturalSpeechBlock := [
  {| number := 1; block_startMs := 0; block_endMs := 2600;
     block_text := "Hello, this is Saanvi. May I speak to you?" |};
  {| number := 2; block_startMs := 4000; block_endMs := 5200; block_text := "Yes" |};
  {| number := 3; block_startMs := 6300; block_endMs := 9000;
     block_text := "Which course do you want?" |}].

Example merge_demo : mergeTranscriptSegments demo_segments = Ok demo_blocks.
Proof. vm_compute. reflexivity. Qed.

Lemma mergeTranscriptSegments_groups_witness :
  mergeTranscriptSegments demo_segments = Ok demo_blocks ∧
  ∃ gs : list group, demo_segments = concat (map (fun g => g.1 :: g.2) gs) ∧ length gs = 3%nat.
Proof.
  split; [vm_compute; reflexivity|].
  destruct (proj2 (mergeTranscriptSegments_groups demo_segments) demo_blocks) as (gs & H1 & _ & H2 & _).
  { vm_compute. reflexivity. }
  exists gs. split; [exact H1|]. rewrite <- H2. reflexivity.
Defined.

(** The evidence of an agent failure fails closed, whatever the model
    proposes. Other categories carry none. A failure is chargeable
    ([mid_conversation]) only with a positive boundary inside the recording, by
    which a block of the customer and a block of the agent have both ended; the
    boundary is the start of the block it names or, when it names none, the end
    of a block or of the recording. In every other case it is a failure from the
    start, with no boundary and no service. *)
Theorem resolveAgentFailureEvidence_fails_closed blocks customers agents recorded c mode n :
  let e := resolveAgentFailureEvidence blocks customers agents recorded c mode n in
  (fe_mode e = None ↔ c ≠ AGENT_FAILURE) ∧
  (fe_mode e ≠ Some mode_mid_conversation →
     fe_failureStartMs e = None ∧ fe_meaningfulServiceBeforeFailure e = false ∧
     fe_blockNumber e = None) ∧
  (fe_mode e = Some mode_mid_conversation →
     fe_meaningfulServiceBeforeFailure e = true ∧
     ∃ f, fe_failureStartMs e = Some f ∧ 0 < f ≤ recorded ∧
       (∃ b, b ∈ blocks ∧ number b ∈ customers ∧ block_endMs b ≤ f) ∧
       (∃ b, b ∈ blocks ∧ number b ∈ agents ∧ block_endMs b ≤ f) ∧
       match fe_blockNumber e with
       | Some m => ∃ b, b ∈ blocks ∧ number b = m ∧ f = Z.min (block_startMs b) recorded
       | None => f = recorded ∨ ∃ b, b ∈ blocks ∧ f = block_endMs b
       end).
Proof.
  intros e. destruct (failure_shapes blocks customers agents recorded c mode n)
    as [[E Hc]|[[E Hc]|(f & k & E & Hc & Hf & Hb & Hs)]]; subst e; rewrite E; cbn.
  - by split_and!.
  - by split_and!.
  - split; [done|]. split; [done|]. intros _. split; [done|]. exists f.
    apply servedBefore_true in Hs as (? & ? & ?). split; [done|]. split; [lia|]. eauto.
Qed.

Lemma resolveAgentFailureEvidence_fails_closed_witness :
  let e := resolveAgentFailureEvidence demo_blocks [2] [1; 3] 9000 AGENT_FAILURE (Some "none") None in
  fe_failureStartMs e = Some 6300 ∧ fe_meaningfulServiceBeforeFailure e = true.
Proof.
  intros e. split; [reflexivity|].
  apply (resolveAgentFailureEvidence_fails_closed demo_blocks [2] [1; 3] 9000 AGENT_FAILURE
    (Some "none") None). reflexivity.
Defined.

(** When blocks are numbered in conversation order and lie inside the
    recording, (1) a customer block after an agent block makes the failure
    chargeable whatever the model called it, and (2) the decision is stable:
    proposing the resolved mode and boundary block back resolves to the same
    decision, so a persisted decision re-derives identically. *)
Theorem resolveAgentFailureEvidence_stable blocks customers agents recorded mode n
    (Ho : in_order blocks)
    (Hrec : ∀ b, b ∈ blocks → block_endMs b ≤ recorded ≤ MAX_SAFE_INTEGER) :
  let resolve := resolveAgentFailureEvidence blocks customers agents recorded AGENT_FAILURE in
  let e := resolve mode n in
  (∀ a c, a ∈ blocks → c ∈ blocks → number a ∈ agents → number c ∈ customers →
     number a < number c → fe_mode e = Some mode_mid_conversation) ∧
  resolve (failureMode_text <$> fe_mode e) (fe_blockNumber e) = e.
Proof.
  intros resolve e. unfold e, resolve, resolveAgentFailureEvidence.
  rewrite bool_decide_true by done. cbn [negb]. split.
  - intros a c Ha Hc Hna Hnc Hac.
    destruct (if bool_decide _ then _ else None) as [p|] eqn:Hp.
    + case_bool_decide; [|done]. by apply proposedFailure_shape in Hp as (f & k & -> & _).
    + destruct (reply_served blocks Ho customers agents recorded a c Hrec Ha Hc Hna Hnc Hac)
        as (f & k & ->). done.
  - destruct (if bool_decide (mode = _) then _ else None) as [p|] eqn:Hp.
    + case_bool_decide; [|done].
      destruct (proposedFailure_shape _ _ _ _ _ _ Hp) as (f & k & -> & _). cbn.
      by rewrite (proposed_reproposed blocks Ho _ _ _ _ _ _ Hp).
    + destruct (derivedFailure_shape blocks customers agents recorded) as [E|(f & k & E & _)];
        rewrite E; cbn; [done|].
      by rewrite (derived_reproposed blocks Ho _ _ _ _ _ E).
Qed.

Lemma demo_in_order : in_order demo_blocks.
Proof.
  split.
  - vm_compute. repeat constructor; set_solver.
  - intros b Hb. repeat (apply elem_of_cons in Hb as [->|Hb]; [cbn; lia|]). by apply elem_of_nil in Hb.
  - intros b Hb. repeat (apply elem_of_cons in Hb as [->|Hb]; [cbn; lia|]). by apply elem_of_nil in Hb.
  - intros b c Hb Hc.
    repeat (apply elem_of_cons in Hb as [->|Hb];
      [repeat (apply elem_of_cons in Hc as [->|Hc]; [cbn; lia|]); by apply elem_of_nil in Hc|]).
    by apply elem_of_nil in Hb.
Qed.

Lemma resolveAgentFailureEvidence_stable_witness :
  fe_mode (resolveAgentFailureEvidence demo_blocks [2] [1; 3] 9000 AGENT_FAILURE (Some "start") None) =
    Some mode_mid_conversation ∧
  resolveAgentFailureEvidence demo_blocks [2] [1; 3] 9000 AGENT_FAILURE
    (Some "mid_conversation") (Some 3) =
  resolveAgentFailureEvidence demo_blocks [2] [1; 3] 9000 AGENT_FAILURE (Some "start") None.
Proof.
  split; [reflexivity|].
  apply (resolveAgentFailureEvidence_stable demo_blocks [2] [1; 3] 9000 (Some "start") None).
  - exact demo_in_order.
  - intros b Hb. unfold MAX_SAFE_INTEGER.
    repeat (apply elem_of_cons in Hb as [->|Hb]; [cbn; lia|]). by apply elem_of_nil in Hb.
Defined.

(** Blocks may overlap in time: segments are merged in the order given, and
    [mergeTranscriptSegments] only checks each segment. Then the decision with
    no block after the reply is not the one its own re-proposal gives. *)
Example overlapping_blocks_unstable :
  let segments := [
    {| startMs := 0; endMs := 14000; text := "agent" |};
    {| startMs := 13000; endMs := 40000; text := "agent" |};
    {| startMs := 20000; endMs := 30000; text := "customer" |}] in
  let blocks := match mergeTranscriptSegments segments with Ok bs => bs | Throw _ => [] end in
  let resolve := resolveAgentFailureEvidence blocks [3] [1; 2] 60000 AGENT_FAILURE in
  let e := resolve (Some "none") None in
  fe_failureStartMs e = Some 30000 ∧
  fe_failureStartMs (resolve (failureMode_text <$> fe_mode e) (fe_blockNumber e)) = Some 40000.
Proof. vm_compute. done. Qed.
