(* ===== verification/Classification.v ===== *)
(** * Classifications

    [src/reaudit/core.ts]: the checks on a model's classification, the reviewed
    category, and the repair of contradictory output. *)

From S2P Require Import Prelude JsNumber JsText CanonicalJson ReauditTypes Regex Cues Transcript.

Local Open Scope string_scope.
Local Open Scope list_scope.
#[global] Open Scope Z_scope.

(** ** Decision signals *)

(** [value === "s"] on a JSON value that may be absent. *)
Definition is_text (v : option json) (s : string) : bool :=
  match v with Some (JStr t) => bool_decide (t = s) | _ => false end.

(** [value !== undefined] *)
Definition present {A} (v : option A) : bool := match v with Some _ => true | None => false end.

(** [value !== undefined && value !== 'none'] *)
Definition asserted (v : option json) : bool := present v && negb (is_text v "none").

Definition DECISION_SIGNAL_VALUES : list (string * list string) := [
  ("counterpartyType",
    ["human"; "voicemail"; "interactive_automation"; "no_response"; "unclear"]);
  ("agentHandling", ["normal"; "failed"; "unclear"]);
  ("conversationOutcome", ["successful"; "no_outcome"; "unclear"]);
  ("durationOutcome",
    ["appropriate"; "ended_too_early"; "continued_without_value"; "unclear"]);
  ("stopIntent", ["none"; "busy_or_bad_time"; "callback_or_defer"; "decline_or_end"]);
  ("postStopBehavior",
    ["not_applicable"; "appropriate_close"; "administrative_extension";
     "continued_sales_flow"; "unclear"]);
  ("successfulOutcome", ["none"; "qualified"; "handoff_or_transfer"; "resolved"]);
  ("voicemailEvidence",
    ["fixed_greeting"; "leave_message_request"; "mailbox_notice"; "recording_notice";
     "beep"; "none"]);
  ("automationEvidence",
    ["menu_prompt"; "virtual_assistant_disclosure"; "screening_prompt"; "none"]);
  ("junkEvidence", ["test_call"; "spam_or_scam"; "prank_or_illegitimate_purpose"; "none"]);
  ("agentFailureMode", ["none"; "start"; "mid_conversation"])].

(** The signals a durable legacy result may lack. *)
Definition optional_signals : list string :=
  ["voicemailEvidence"; "automationEvidence"; "junkEvidence"; "stopIntent";
   "postStopBehavior"; "successfulOutcome"; "agentFailureMode"].

Definition signal_value (signals : ClassificationDecisionSignals) (name : string) : option json :=
  if bool_decide (name = "counterpartyType") then counterpartyType signals
  else if bool_decide (name = "agentHandling") then agentHandling signals
  else if bool_decide (name = "conversationOutcome") then conversationOutcome signals
  else if bool_decide (name = "durationOutcome") then durationOutcome signals
  else if bool_decide (name = "stopIntent") then stopIntent signals
  else if bool_decide (name = "postStopBehavior") then postStopBehavior signals
  else if bool_decide (name = "successfulOutcome") then successfulOutcome signals
  else if bool_decide (name = "voicemailEvidence") then voicemailEvidence signals
  else if bool_decide (name = "automationEvidence") then automationEvidence signals
  else if bool_decide (name = "junkEvidence") then junkEvidence signals
  else if bool_decide (name = "agentFailureMode") then sg_agentFailureMode signals
  else None.

Definition unsupported_signal (name : string) : js_error :=
  PlainError ("Classifier returned an unsupported " +:+ name +:+ " signal").

Definition validateDecisionSignals (signals : ClassificationDecisionSignals)
    : Prelude.result js_error unit :=
  for_each (fun '(name, allowed) =>
    match signal_value signals name with
    | None =>
        throw_if (negb (bool_decide (name ∈ optional_signals))) (unsupported_signal name)
    | Some value =>
        throw_if (negb (existsb (is_text (Some value)) allowed)) (unsupported_signal name)
    end) DECISION_SIGNAL_VALUES ≫= fun _ =>
  throw_if match sg_meaningfulServiceBeforeFailure signals with
           | None | Some (JBool _) => false
           | Some _ => true
           end (unsupported_signal "meaningfulServiceBeforeFailure").

(** ** The reviewed category *)

(** The argument of [resolveReviewedCategory]; an absent [durationMismatch] is
    [false]. *)
Record ReviewOptions : Type := {
  ro_proposedCategory : ReauditCategory;
  ro_decisionSignals : option ClassificationDecisionSignals;
  customerBlockCount : Z;
  agentBlockCount : option Z;
  voicemailEvidenceBlockCount : option Z;
  automationEvidenceBlockCount : option Z;
  junkEvidenceBlockCount : option Z;
  ro_durationMismatch : bool;
}.

(** [(count ?? 0) > 0] and [count === 0] *)
Definition some_blocks (count : option Z) : bool := 0 <? from_null 0 count.
Definition no_blocks (count : option Z) : bool := bool_decide (count = Some 0).

(** The last part: a conversation with a customer. *)
Definition reviewConversation (options : ReviewOptions) (signals : ClassificationDecisionSignals)
    : Prelude.result js_error ReauditCategory :=
  let human := is_text (counterpartyType signals) "human" in
  let normal := is_text (agentHandling signals) "normal" in
  let stopped := asserted (stopIntent signals) in
  if human && asserted (successfulOutcome signals) && normal then Ok OK
  else if stopped && is_text (postStopBehavior signals) "continued_sales_flow" then
    Ok AGENT_FAILURE
  else if stopped && is_text (postStopBehavior signals) "administrative_extension" then
    Ok TIME_DURATION
  else if is_text (agentHandling signals) "failed" then Ok AGENT_FAILURE
  else if human && is_text (conversationOutcome signals) "successful" && normal then Ok OK
  else if human && stopped && is_text (postStopBehavior signals) "appropriate_close" &&
          is_text (conversationOutcome signals) "no_outcome" && normal then
    Ok CONNECT_NOT_FRUITFUL
  else if is_text (durationOutcome signals) "ended_too_early" ||
          is_text (durationOutcome signals) "continued_without_value" then Ok TIME_DURATION
  else if human && is_text (conversationOutcome signals) "no_outcome" && normal then
    Ok CONNECT_NOT_FRUITFUL
  else if bool_decide (ro_proposedCategory options = INCORRECT_CALL_DURATION) then
    if ro_durationMismatch options then Ok INCORRECT_CALL_DURATION
    else Throw (PlainError "Duration-mismatch category requires a verified duration mismatch")
  else Ok (ro_proposedCategory options).

Definition resolveReviewedCategory (options : ReviewOptions)
    : Prelude.result js_error ReauditCategory :=
  match ro_decisionSignals options with
  | None => Ok (ro_proposedCategory options)
  | Some signals =>
      validateDecisionSignals signals ≫= fun _ =>
      let counterparty := is_text (counterpartyType signals) in
      let proposesJunk := bool_decide (ro_proposedCategory options = JUNK_CALL) in
      throw_if (counterparty "human" && (customerBlockCount options =? 0))
        (PlainError "Human counterparty signal requires customer speech") ≫= fun _ =>
      throw_if ((counterparty "voicemail" || counterparty "interactive_automation" ||
                 counterparty "no_response") && (0 <? customerBlockCount options))
        (PlainError "Non-human counterparty signal cannot contain customer speech") ≫= fun _ =>
      if counterparty "voicemail" then
        if present (voicemailEvidence signals) &&
           (is_text (voicemailEvidence signals) "none" ||
            no_blocks (voicemailEvidenceBlockCount options))
        then Ok USER_SILENCE else Ok VOICEMAIL
      else
      throw_if (present (voicemailEvidence signals) &&
                (negb (is_text (voicemailEvidence signals) "none") ||
                 some_blocks (voicemailEvidenceBlockCount options)))
        (PlainError "Voicemail evidence requires a voicemail counterparty signal") ≫= fun _ =>
      if counterparty "interactive_automation" then
        throw_if (present (automationEvidence signals) &&
                  (is_text (automationEvidence signals) "none" ||
                   no_blocks (automationEvidenceBlockCount options) ||
                   no_blocks (agentBlockCount options)))
          (PlainError "AI-to-AI requires affirmative interactive-automation evidence") ≫= fun _ =>
        Ok AI_TO_AI
      else
      throw_if (present (automationEvidence signals) &&
                (negb (is_text (automationEvidence signals) "none") ||
                 some_blocks (automationEvidenceBlockCount options)))
        (PlainError "Automation evidence requires an interactive-automation counterparty")
        ≫= fun _ =>
      if counterparty "no_response" then Ok USER_SILENCE
      else
      let explicitJunkEvidence :=
        asserted (junkEvidence signals) && some_blocks (junkEvidenceBlockCount options) in
      if proposesJunk && explicitJunkEvidence then Ok JUNK_CALL
      else if counterparty "human" && (0 <? customerBlockCount options) &&
              no_blocks (agentBlockCount options) then Ok AGENT_FAILURE
      else
      throw_if (proposesJunk && present (junkEvidence signals))
        (PlainError "Junk call requires affirmative junk evidence") ≫= fun _ =>
      throw_if (negb proposesJunk &&
                (explicitJunkEvidence || some_blocks (junkEvidenceBlockCount options)))
        (PlainError "Junk evidence requires the junk-call category") ≫= fun _ =>
      match agentBlockCount options with
      | Some agents =>
          if customerBlockCount options =? 0 then
            Ok (if 0 <? agents then USER_SILENCE else INACTIVE_CALL)
          else reviewConversation options signals
      | None => reviewConversation options signals
      end
  end.

(** ** Validation *)

(** [/^(0|1)(?:\.\d{1,8})?$/] *)
Definition decimal (s : string) : bool :=
  match split_decimal s with
  | Some (whole, fraction) =>
      (bool_decide (whole = "0") || bool_decide (whole = "1")) &&
      match fraction with None => true | Some f => (1 <=? len f) && (len f <=? 8) end
  | None => false
  end.

(** The high surrogate of a four-byte character, as a slice through the pair
    leaves it. *)
Definition high_surrogate (s : string) : string :=
  match code_points s with
  | c :: _ =>
      let h := 55296 + Z.shiftr (c - 65536) 10 in
      bytes [224 + Z.shiftr h 12; 128 + Z.land (Z.shiftr h 6) 63; 128 + Z.land h 63]
  | [] => ""
  end.

(** [s.slice(0, n)], in UTF-16 code units. *)
Fixpoint slice_units (n : Z) (s : string) : string :=
  match s with
  | EmptyString => ""
  | String c rest =>
      if (128 <=? code c) && (code c <? 192) then String c (slice_units n rest)
      else
        let width := if code c <? 240 then 1 else 2 in
        if width <=? n then String c (slice_units (n - width) rest)
        else if n =? 1 then high_surrogate s else ""
  end.

(** [[...new Set(values)].filter(valid).sort((l, r) => l - r)] *)
Definition distinct_sorted (valid : Z → bool) (values : list Z) : list Z :=
  sort_asc (filter (fun v => valid v = true) (dedup values)).

Definition find_block (blocks : list NaturalSpeechBlock) (n : Z) : option NaturalSpeechBlock :=
  List.find (fun candidate => number candidate =? n) blocks.

(** The blocks of [numbers] whose text gives the cue. *)
Definition cued (cue : re) (blocks : list NaturalSpeechBlock) (numbers : list Z) : list Z :=
  filter (fun n => match find_block blocks n with
                   | Some b => test cue (block_text b)
                   | None => false
                   end = true) numbers.

Definition silence_remark : string :=
  "Agent speech was identified, but no customer or affirmative voicemail evidence was identified; this is user silence.".

Section Validate.
Context (raw : ModelClassification string) (blocks : list NaturalSpeechBlock)
        (recordedDurationMs : Z).

Definition normalizeBlocks : list Z → list Z :=
  distinct_sorted (fun value => (1 <=? value) && (value <=? Z.of_nat (length blocks))).

Definition counterparty_is (s : string) : bool :=
  match decisionSignals raw with Some d => is_text (counterpartyType d) s | None => false end.

(** Blocks that are the customer's whatever the model says. *)
Definition deterministicCustomerBlockNumbers : list Z :=
  map number (filter (fun block =>
    let t := trim (block_text block) in
    (bool_decide (mc_category raw = "JUNK_CALL") && test REPEATED_CUSTOMER_GREETING_CUE t) ||
    ((bool_decide (mc_category raw = "AI_TO_AI") || counterparty_is "interactive_automation") &&
     test CUSTOMER_LANGUAGE_CHOICE_CUE t) = true) blocks).

Definition rawCustomerBlockNumbers : list Z := normalizeBlocks (customerBlockNumbers raw).

Definition customers : list Z :=
  normalizeBlocks (rawCustomerBlockNumbers ++ deterministicCustomerBlockNumbers).

Definition rawUnclearBlockNumbers : list Z := normalizeBlocks (unclearBlockNumbers raw).

Definition normalizedUnclearBlockNumbers : list Z :=
  sort_asc (filter (fun n => negb (includes deterministicCustomerBlockNumbers n) = true)
    rawUnclearBlockNumbers).

Definition voicemails : list Z :=
  cued AFFIRMATIVE_VOICEMAIL_CUE blocks
    (normalizeBlocks (from_null [] (voicemailEvidenceBlockNumbers raw))).

Definition automations : list Z :=
  cued AFFIRMATIVE_AUTOMATION_CUE blocks
    (filter (fun n => negb (includes customers n) &&
                      negb (includes normalizedUnclearBlockNumbers n) = true)
      (normalizeBlocks (from_null [] (automationEvidenceBlockNumbers raw)))).

Definition junk : list Z :=
  cued AFFIRMATIVE_JUNK_CUE blocks
    (normalizeBlocks (from_null [] (junkEvidenceBlockNumbers raw))).

Definition businessRelevant : list Z :=
  filter (fun n => includes customers n = true)
    (normalizeBlocks (from_null [] (businessRelevantCustomerBlockNumbers raw))).

Definition rawAgentBlockNumbers : list Z := dedup (from_null [] (agentBlockNumbers raw)).

Definition agents : list Z :=
  filter (fun n => negb (includes customers n) = true) (normalizeBlocks rawAgentBlockNumbers).

(** The ends of the selected blocks, bounded by the recording. *)
Definition ends (selected : Z → bool) : list Z :=
  map (fun block => Z.min (block_endMs block) recordedDurationMs)
    (filter (fun block => selected (number block) = true) blocks).

(** A language choice is a customer speaking to a person, not to a machine. *)
Definition validatedSignals : option ClassificationDecisionSignals :=
  match decisionSignals raw with
  | Some d =>
      Some (if is_text (counterpartyType d) "interactive_automation" &&
               negb (bool_decide (customers = []))
            then {| counterpartyType := Some (JStr "human");
                    agentHandling := agentHandling d;
                    conversationOutcome := conversationOutcome d;
                    durationOutcome := durationOutcome d;
                    stopIntent := stopIntent d;
                    postStopBehavior := postStopBehavior d;
                    successfulOutcome := successfulOutcome d;
                    voicemailEvidence := voicemailEvidence d;
                    automationEvidence := Some (JStr "none");
                    junkEvidence := junkEvidence d;
                    sg_agentFailureMode := sg_agentFailureMode d;
                    sg_meaningfulServiceBeforeFailure := sg_meaningfulServiceBeforeFailure d |}
            else d)
  | None => None
  end.

Definition reviewOptions (category : ReauditCategory) (durationMismatch : bool) : ReviewOptions :=
  {| ro_proposedCategory := category;
     ro_decisionSignals := validatedSignals;
     customerBlockCount := Z.of_nat (length customers);
     agentBlockCount := Some (Z.of_nat (length (ends (includes agents))));
     voicemailEvidenceBlockCount := Some (Z.of_nat (length voicemails));
     automationEvidenceBlockCount := Some (Z.of_nat (length automations));
     junkEvidenceBlockCount := Some (Z.of_nat (length junk));
     ro_durationMismatch := durationMismatch |}.

Definition text_of (v : option json) : option string :=
  match v with Some (JStr s) => Some s | _ => None end.

Definition failureEvidence (category : ReauditCategory) : AgentFailureEvidence :=
  resolveAgentFailureEvidence blocks customers agents recordedDurationMs category
    (match validatedSignals with Some d => text_of (sg_agentFailureMode d) | None => None end)
    (agentFailureStartBlockNumber raw).

Definition validated (category : ReauditCategory) : ModelClassification ReauditCategory :=
  let customerEnds := ends (includes customers) in
  let agentFailure := failureEvidence category in
  {| mc_model := mc_model raw;
     mc_category := category;
     mc_confidence := mc_confidence raw;
     customerBlockNumbers := customers;
     unclearBlockNumbers := normalizedUnclearBlockNumbers;
     voicemailEvidenceBlockNumbers := Some voicemails;
     automationEvidenceBlockNumbers := Some automations;
     junkEvidenceBlockNumbers := Some junk;
     businessRelevantCustomerBlockNumbers := Some businessRelevant;
     customerSpoke := negb (bool_decide (customerEnds = []));
     mc_lastMeaningfulCustomerExchangeMs := list_max customerEnds;
     mc_lastMeaningfulAgentExchangeMs := list_max (ends (includes agents));
     mc_firstAgentTurnEndMs := firstAgentTurnEnd blocks agents recordedDurationMs;
     mc_lastVoicemailExchangeMs := list_max (ends (includes voicemails));
     mc_lastBusinessRelevantCustomerExchangeMs := list_max (ends (includes businessRelevant));
     mc_lastVerifiedInteractionMs :=
       list_max (ends (fun n => negb (includes normalizedUnclearBlockNumbers n)));
     agentBlockNumbers := Some agents;
     agentFailureStartBlockNumber := fe_blockNumber agentFailure;
     mc_agentFailureMode := fe_mode agentFailure;
     mc_meaningfulServiceBeforeFailure := Some (fe_meaningfulServiceBeforeFailure agentFailure);
     mc_failureStartMs := fe_failureStartMs agentFailure;
     mc_remarks :=
       if match validatedSignals with
          | Some d => is_text (counterpartyType d) "voicemail"
          | None => false
          end && bool_decide (category = USER_SILENCE)
       then silence_remark else slice_units 2000 (trim (mc_remarks raw));
     mc_disputeRecommended := mc_disputeRecommended raw;
     decisionSignals := validatedSignals;
     mc_usage := mc_usage raw |}.

Definition validateClassification (durationMismatch : bool)
    : Prelude.result js_error (ModelClassification ReauditCategory) :=
  match category_of_text (mc_category raw) with
  | None => Throw (PlainError ("Classifier returned unsupported category: " +:+ mc_category raw))
  | Some proposed =>
      throw_if (negb (decimal (mc_confidence raw)))
        (PlainError "Classifier confidence must be a decimal from 0 to 1") ≫= fun _ =>
      throw_if (existsb (includes rawUnclearBlockNumbers) rawCustomerBlockNumbers)
        (PlainError "Customer and unclear speech blocks must not overlap") ≫= fun _ =>
      throw_if (existsb (fun n => includes customers n || includes normalizedUnclearBlockNumbers n)
                  voicemails)
        (PlainError "Voicemail evidence blocks must be separate from customer and unclear speech")
        ≫= fun _ =>
      throw_if (existsb (fun v => (v <? 1) || (Z.of_nat (length blocks) <? v)) rawAgentBlockNumbers)
        (PlainError "Agent speech blocks must be supplied transcript blocks") ≫= fun _ =>
      throw_if (existsb (fun n =>
          includes rawCustomerBlockNumbers n || includes normalizedUnclearBlockNumbers n ||
          includes voicemails n || includes automations n || includes junk n) rawAgentBlockNumbers)
        (PlainError "Agent speech blocks must be separate from customer, unclear, and system evidence")
        ≫= fun _ =>
      category ← resolveReviewedCategory (reviewOptions proposed durationMismatch);
      throw_if (bool_decide (category = USER_SILENCE) && negb (bool_decide (customers = [])))
        (PlainError "User-silence result cannot contain customer speech") ≫= fun _ =>
      throw_if (bool_decide (category = USER_SILENCE) && bool_decide (agents = []))
        (PlainError "User-silence result requires positively identified agent speech") ≫= fun _ =>
      throw_if (bool_decide (category = INACTIVE_CALL) && negb (bool_decide (agents = [])))
        (PlainError "Inactive-call result cannot contain positively identified agent speech")
        ≫= fun _ =>
      Ok (validated category)
  end.
End Validate.

(** ** Repair *)

Section Repair.
Context (raw : ModelClassification string) (blocks : list NaturalSpeechBlock).

(** [numbers(values)]: the supplied block numbers among [values]. *)
Definition supplied (values : list Z) : list Z :=
  distinct_sorted (includes (map number blocks)) values.

Definition blockText (n : Z) : string :=
  match find_block blocks n with Some b => block_text b | None => "" end.

(** [values.map(blockText).join(' ')] *)
Definition evidenceText (values : list Z) : string := String.concat " " (map blockText values).

Definition repairedCued (cue : re) (values : option (list Z)) : list Z :=
  filter (fun n => test cue (blockText n) = true) (supplied (from_null [] values)).

Definition repairedVoicemail : list Z :=
  repairedCued AFFIRMATIVE_VOICEMAIL_CUE (voicemailEvidenceBlockNumbers raw).

Definition repairedAutomation : list Z :=
  repairedCued AFFIRMATIVE_AUTOMATION_CUE (automationEvidenceBlockNumbers raw).

Definition systemEvidence (n : Z) : bool :=
  includes repairedVoicemail n || includes repairedAutomation n.

Definition repairedCustomer : list Z :=
  filter (fun n => negb (systemEvidence n) = true) (supplied (customerBlockNumbers raw)).

Definition repairedUnclear : list Z :=
  filter (fun n => negb (includes repairedCustomer n) && negb (systemEvidence n) = true)
    (supplied (unclearBlockNumbers raw)).

Definition repairedJunk : list Z :=
  repairedCued AFFIRMATIVE_JUNK_CUE (junkEvidenceBlockNumbers raw).

Definition repairedAgent : list Z :=
  filter (fun n => negb (includes repairedCustomer n) && negb (includes repairedUnclear n) &&
                   negb (systemEvidence n) && negb (includes repairedJunk n) = true)
    (supplied (from_null [] (agentBlockNumbers raw))).

Definition some_in (l : list Z) : bool := negb (bool_decide (l = [])).

Definition repairedCounterparty : string :=
  if some_in repairedVoicemail then "voicemail"
  else if some_in repairedAutomation && some_in repairedAgent then "interactive_automation"
  else if some_in repairedCustomer then "human"
  else if some_in repairedAgent then "no_response"
  else "unclear".

(** The kind of evidence: the model's when it names one, else the first cue
    that the evidence gives. *)
Definition repairedKind (numbers : list Z) (claimed : option json)
    (cues : list (re * string)) (otherwise : string) : option json :=
  if some_in numbers then
    if is_text claimed "none" || negb (present claimed) then
      let t := evidenceText numbers in
      Some (JStr (match List.find (fun c => test c.1 t) cues with
                  | Some c => c.2
                  | None => otherwise
                  end))
    else claimed
  else Some (JStr "none").

Definition repairedSignals : option ClassificationDecisionSignals :=
  match decisionSignals raw with
  | Some d =>
      Some {| counterpartyType := Some (JStr repairedCounterparty);
              agentHandling := agentHandling d;
              conversationOutcome := conversationOutcome d;
              durationOutcome := durationOutcome d;
              stopIntent := stopIntent d;
              postStopBehavior := postStopBehavior d;
              successfulOutcome := successfulOutcome d;
              voicemailEvidence :=
                repairedKind repairedVoicemail (voicemailEvidence d)
                  [(BEEP_CUE, "beep"); (LEAVE_MESSAGE_CUE, "leave_message_request");
                   (RECORDING_CUE, "recording_notice"); (MAILBOX_CUE, "mailbox_notice")]
                  "fixed_greeting";
              automationEvidence :=
                repairedKind repairedAutomation (automationEvidence d)
                  [(DISCLOSURE_CUE, "virtual_assistant_disclosure");
                   (SCREENING_CUE, "screening_prompt")]
                  "menu_prompt";
              junkEvidence :=
                repairedKind repairedJunk (junkEvidence d)
                  [(TEST_CALL_CUE, "test_call"); (SPAM_CUE, "spam_or_scam")]
                  "prank_or_illegitimate_purpose";
              sg_agentFailureMode := sg_agentFailureMode d;
              sg_meaningfulServiceBeforeFailure := sg_meaningfulServiceBeforeFailure d |}
  | None => None
  end.

(** Categories that a conversation with a customer cannot keep. *)
Definition needsConversation (durationMismatch : bool) : bool :=
  bool_decide (mc_category raw ∈ ["USER_SILENCE"; "VOICEMAIL"; "AI_TO_AI"; "INACTIVE_CALL"]) ||
  (bool_decide (mc_category raw = "JUNK_CALL") && negb (some_in repairedJunk)) ||
  (bool_decide (mc_category raw = "INCORRECT_CALL_DURATION") && negb durationMismatch).

Definition repairedCategory (durationMismatch : bool) : string :=
  let signal (f : ClassificationDecisionSignals → option json) (s : string) :=
    match repairedSignals with Some d => is_text (f d) s | None => false end in
  if bool_decide (repairedCounterparty = "voicemail") then "VOICEMAIL"
  else if bool_decide (repairedCounterparty = "interactive_automation") then "AI_TO_AI"
  else if bool_decide (repairedCounterparty = "no_response") then "USER_SILENCE"
  else if bool_decide (repairedCounterparty = "unclear") then "INACTIVE_CALL"
  else if some_in repairedJunk then "JUNK_CALL"
  else if needsConversation durationMismatch then
    if signal agentHandling "failed" || negb (some_in repairedAgent) then "AGENT_FAILURE"
    else if signal conversationOutcome "successful" then "OK"
    else if signal durationOutcome "ended_too_early" ||
            signal durationOutcome "continued_without_value" then "TIME_DURATION"
    else "CONNECT_NOT_FRUITFUL"
  else mc_category raw.

Definition repairClassification (durationMismatch : bool) : ModelClassification string :=
  {| mc_model := mc_model raw;
     mc_category := repairedCategory durationMismatch;
     mc_confidence := mc_confidence raw;
     customerBlockNumbers := repairedCustomer;
     unclearBlockNumbers := repairedUnclear;
     voicemailEvidenceBlockNumbers := Some repairedVoicemail;
     automationEvidenceBlockNumbers := Some repairedAutomation;
     junkEvidenceBlockNumbers := Some repairedJunk;
     businessRelevantCustomerBlockNumbers :=
       Some (filter (fun n => includes repairedCustomer n = true)
         (supplied (from_null [] (businessRelevantCustomerBlockNumbers raw))));
     customerSpoke := customerSpoke raw;
     mc_lastMeaningfulCustomerExchangeMs := mc_lastMeaningfulCustomerExchangeMs raw;
     mc_lastMeaningfulAgentExchangeMs := mc_lastMeaningfulAgentExchangeMs raw;
     mc_firstAgentTurnEndMs := mc_firstAgentTurnEndMs raw;
     mc_lastVoicemailExchangeMs := mc_lastVoicemailExchangeMs raw;
     mc_lastBusinessRelevantCustomerExchangeMs := mc_lastBusinessRelevantCustomerExchangeMs raw;
     mc_lastVerifiedInteractionMs := mc_lastVerifiedInteractionMs raw;
     agentBlockNumbers := Some repairedAgent;
     agentFailureStartBlockNumber := agentFailureStartBlockNumber raw;
     mc_agentFailureMode := mc_agentFailureMode raw;
     mc_meaningfulServiceBeforeFailure := mc_meaningfulServiceBeforeFailure raw;
     mc_failureStartMs := mc_failureStartMs raw;
     mc_remarks := mc_remarks raw;
     mc_disputeRecommended := mc_disputeRecommended raw;
     decisionSignals := repairedSignals;
     mc_usage := mc_usage raw |}.
End Repair.

(** The ladder of [auditTranscriptEvidence] and [runAutomatedValidation]:
    validate, else repair and validate again. *)
Definition validateOrRepair (raw : ModelClassification string) (blocks : list NaturalSpeechBlock)
    (recordedDurationMs : Z) (durationMismatch : bool)
    : option (ModelClassification ReauditCategory) :=
  match validateClassification raw blocks recordedDurationMs durationMismatch with
  | Ok c => Some c
  | Throw _ =>
      match validateClassification (repairClassification raw blocks durationMismatch) blocks
              recordedDurationMs durationMismatch with
      | Ok c => Some c
      | Throw _ => None
      end
  end.

(** ** Facts: ordered lists of block numbers *)

(** Ascending, without repetition. *)
Definition ascending (l : list Z) : Prop := StronglySorted Z.lt l.

Lemma ascending_NoDup l : ascending l → NoDup l.
Proof.
  induction 1 as [|x l Hl IH Hx]; constructor; [|done].
  intros Hin. rewrite Forall_forall in Hx. specialize (Hx x Hin). lia.
Qed.

Lemma ascending_filter (P : Z → Prop) `{∀ x, Decision (P x)} l : ascending l → ascending (filter P l).
Proof.
  induction 1 as [|x l Hl IH Hx]; [constructor|].
  rewrite filter_cons. case_decide; [|done]. constructor; [done|].
  rewrite Forall_forall in *. intros y Hy. apply list_elem_of_filter in Hy as [_ Hy]. auto.
Qed.

Lemma sorted_NoDup_ascending l :
  StronglySorted (fun a b => (a <=? b) = true) l → NoDup l → ascending l.
Proof.
  induction 1 as [|x l Hl IH Hx]; intros Hn; [constructor|].
  apply NoDup_cons in Hn as [Hx' Hn]. constructor; [by apply IH|].
  rewrite Forall_forall in *. intros y Hy. specialize (Hx y Hy). apply Z.leb_le in Hx.
  destruct (Z.eq_dec x y) as [->|]; [done|lia].
Qed.

Lemma ascending_sort l : NoDup l → ascending (sort_asc l).
Proof.
  intros Hn. apply sorted_NoDup_ascending; [apply sort_asc_sorted|by apply sort_by_NoDup].
Qed.

Lemma elem_of_sort_asc x l : x ∈ sort_asc l ↔ x ∈ l.
Proof. apply sort_by_elem. Qed.

(** Two ascending lists with the same elements are equal. *)
Lemma ascending_ext l k : ascending l → ascending k → (∀ x, x ∈ l ↔ x ∈ k) → l = k.
Proof.
  intros Hl. revert k. induction Hl as [|x l Hl IH Hx]; intros k Hk E.
  - destruct k as [|y k]; [done|]. assert (y ∈ @nil Z) as Hy by (apply E; left).
    by apply elem_of_nil in Hy.
  - destruct Hk as [|y k Hk Hy]; [assert (x ∈ @nil Z) as Hx' by (apply E; left); by apply elem_of_nil in Hx'|].
    rewrite Forall_forall in Hx, Hy.
    assert (x = y) as ->.
    { assert (x ∈ y :: k) as H1 by (apply E; left). assert (y ∈ x :: l) as H2 by (apply E; left).
      apply elem_of_cons in H1 as [?|H1]; [done|]. apply elem_of_cons in H2 as [?|H2]; [done|].
      specialize (Hx y H2). specialize (Hy x H1). lia. }
    f_equal. apply IH; [done|]. intros z. specialize (E z). rewrite !elem_of_cons in E.
    split; intros Hz.
    + destruct (proj1 E (or_intror Hz)) as [->|]; [specialize (Hx y Hz); lia|done].
    + destruct (proj2 E (or_intror Hz)) as [->|]; [specialize (Hy y Hz); lia|done].
Qed.

Lemma elem_of_distinct_sorted valid values v :
  v ∈ distinct_sorted valid values ↔ valid v = true ∧ v ∈ values.
Proof. unfold distinct_sorted. by rewrite elem_of_sort_asc, list_elem_of_filter, elem_of_dedup. Qed.

Lemma ascending_distinct_sorted valid values : ascending (distinct_sorted valid values).
Proof. apply ascending_sort, NoDup_filter, NoDup_dedup. Qed.

Lemma distinct_sorted_fixed valid l :
  ascending l → (∀ v, v ∈ l → valid v = true) → distinct_sorted valid l = l.
Proof.
  intros Hl Hv. apply ascending_ext; [apply ascending_distinct_sorted|done|].
  intros x. rewrite elem_of_distinct_sorted. naive_solver.
Qed.

Lemma elem_of_cued cue blocks l v :
  v ∈ cued cue blocks l ↔
  v ∈ l ∧ ∃ b, find_block blocks v = Some b ∧ test cue (block_text b) = true.
Proof.
  unfold cued. rewrite list_elem_of_filter.
  destruct (find_block blocks v) as [b|]; naive_solver.
Qed.

Lemma find_block_Some blocks n b : find_block blocks n = Some b → b ∈ blocks ∧ number b = n.
Proof.
  intros H. apply List.find_some in H as [H E]. apply list_elem_of_In in H.
  by apply Z.eqb_eq in E.
Qed.

Lemma existsb_false {A} (f : A → bool) l : existsb f l = false ↔ ∀ x, x ∈ l → f x = false.
Proof.
  rewrite <- not_true_iff_false, existsb_exists. setoid_rewrite <- not_true_iff_false.
  split.
  - intros H x Hx Hf. apply H. exists x. split; [by apply list_elem_of_In|done].
  - intros H (x & Hx & Hf). by apply (H x); [apply list_elem_of_In|].
Qed.

Lemma includes_false l x : includes l x = false ↔ x ∉ l.
Proof. apply bool_decide_eq_false. Qed.

#[local] Hint Resolve ascending_filter ascending_distinct_sorted : kaudit.

(** ** Facts: the lists of a validated classification *)

Section ValidateFacts.
Context (raw : ModelClassification string) (blocks : list NaturalSpeechBlock) (recorded : Z).

Lemma normalizeBlocks_range l v :
  v ∈ normalizeBlocks blocks l ↔ 1 ≤ v ≤ Z.of_nat (length blocks) ∧ v ∈ l.
Proof.
  unfold normalizeBlocks. rewrite elem_of_distinct_sorted, andb_true_iff, !Z.leb_le. tauto.
Qed.

Lemma lists_ascending :
  ascending (customers raw blocks) ∧ ascending (normalizedUnclearBlockNumbers raw blocks) ∧
  ascending (voicemails raw blocks) ∧ ascending (automations raw blocks) ∧
  ascending (junk raw blocks) ∧ ascending (businessRelevant raw blocks) ∧
  ascending (agents raw blocks).
Proof.
  split_and!; unfold voicemails, automations, junk, cued, businessRelevant, agents;
    eauto with kaudit; try (by apply ascending_distinct_sorted).
  - apply ascending_sort, NoDup_filter, ascending_NoDup, ascending_distinct_sorted.
Qed.

(** What validation checks, and the reviewed category it returns. *)
Lemma validateClassification_inv durationMismatch c :
  validateClassification raw blocks recorded durationMismatch = Ok c →
  ∃ proposed category,
    category_of_text (mc_category raw) = Some proposed ∧
    decimal (mc_confidence raw) = true ∧
    (∀ n, n ∈ rawCustomerBlockNumbers raw blocks → n ∉ rawUnclearBlockNumbers raw blocks) ∧
    (∀ n, n ∈ voicemails raw blocks →
       n ∉ customers raw blocks ∧ n ∉ normalizedUnclearBlockNumbers raw blocks) ∧
    (∀ n, n ∈ from_null [] (agentBlockNumbers raw) → 1 ≤ n ≤ Z.of_nat (length blocks)) ∧
    (∀ n, n ∈ from_null [] (agentBlockNumbers raw) →
       n ∉ rawCustomerBlockNumbers raw blocks ∧ n ∉ normalizedUnclearBlockNumbers raw blocks ∧
       n ∉ voicemails raw blocks ∧ n ∉ automations raw blocks ∧ n ∉ junk raw blocks) ∧
    resolveReviewedCategory (reviewOptions raw blocks recorded proposed durationMismatch)
      = Ok category ∧
    (category = USER_SILENCE → customers raw blocks = [] ∧ agents raw blocks ≠ []) ∧
    (category = INACTIVE_CALL → agents raw blocks = []) ∧
    c = validated raw blocks recorded category.
Proof.
  unfold validateClassification. intros H.
  destruct (category_of_text (mc_category raw)) as [proposed|]; [|done].
  apply bind_Ok_iff in H as (u1 & H1 & H). apply throw_if_Ok, negb_false_iff in H1.
  apply bind_Ok_iff in H as (u2 & H2 & H). apply throw_if_Ok in H2. rewrite existsb_false in H2.
  apply bind_Ok_iff in H as (u3 & H3 & H). apply throw_if_Ok in H3. rewrite existsb_false in H3.
  apply bind_Ok_iff in H as (u4 & H4 & H). apply throw_if_Ok in H4. rewrite existsb_false in H4.
  apply bind_Ok_iff in H as (u5 & H5 & H). apply throw_if_Ok in H5. rewrite existsb_false in H5.
  apply bind_Ok_iff in H as (category & Hr & H).
  apply bind_Ok_iff in H as (u6 & H6 & H). apply throw_if_Ok in H6.
  apply bind_Ok_iff in H as (u7 & H7 & H). apply throw_if_Ok in H7.
  apply bind_Ok_iff in H as (u8 & H8 & H). apply throw_if_Ok in H8. apply Ok_inj in H.
  exists proposed, category. split; [done|]. split; [done|]. split.
  { intros n Hn. by apply includes_false, H2. }
  split. { intros n Hn. specialize (H3 n Hn). to_prop. by rewrite <- !includes_false. }
  split. { intros n Hn. specialize (H4 n). unfold rawAgentBlockNumbers in H4.
           rewrite elem_of_dedup in H4. specialize (H4 Hn). to_prop. lia. }
  split. { intros n Hn. specialize (H5 n). unfold rawAgentBlockNumbers in H5.
           rewrite elem_of_dedup in H5. specialize (H5 Hn). to_prop. by rewrite <- !includes_false. }
  split; [done|]. split.
  { intros ->. rewrite bool_decide_true in H6, H7 by done. cbn [andb] in H6, H7. by to_prop. }
  split; [|done]. intros ->. rewrite bool_decide_true in H8 by done. cbn [andb] in H8. by to_prop.
Qed.

Lemma elem_of_ends selected m :
  m ∈ ends blocks recorded selected ↔
  ∃ b, b ∈ blocks ∧ selected (number b) = true ∧ m = Z.min (block_endMs b) recorded.
Proof.
  unfold ends. rewrite list_elem_of_fmap. setoid_rewrite list_elem_of_filter. naive_solver.
Qed.
End ValidateFacts.

(** ** Properties: validation *)

(** [l] lists supplied blocks, ascending. *)
Definition block_list (blocks : list NaturalSpeechBlock) (l : list Z) : Prop :=
  ascending l ∧ ∀ n, n ∈ l → 1 ≤ n ≤ Z.of_nat (length blocks).

Definition apart (left right : list Z) : Prop := ∀ n, n ∈ left → n ∉ right.

(** Every block of [l] gives the cue. *)
Definition backed (cue : re) (blocks : list NaturalSpeechBlock) (l : list Z) : Prop :=
  ∀ n, n ∈ l → ∃ b, b ∈ blocks ∧ number b = n ∧ test cue (block_text b) = true.

(** [m] is the latest end, inside the recording, of the selected blocks. *)
Definition latest (blocks : list NaturalSpeechBlock) (recorded : Z) (selected : Z → Prop)
    (m : option Z) : Prop :=
  match m with
  | None => ∀ b, b ∈ blocks → ¬ selected (number b)
  | Some t =>
      t ≤ recorded ∧
      (∃ b, b ∈ blocks ∧ selected (number b) ∧ t = Z.min (block_endMs b) recorded) ∧
      ∀ b, b ∈ blocks → selected (number b) → Z.min (block_endMs b) recorded ≤ t
  end.

Lemma latest_list_max blocks recorded selected (P : Z → Prop) :
  (∀ n, selected n = true ↔ P n) →
  latest blocks recorded P (list_max (ends blocks recorded selected)).
Proof.
  intros HP. unfold latest. destruct (list_max _) as [t|] eqn:E.
  - pose proof (list_max_elem _ _ E) as Hin. apply elem_of_ends in Hin as (b & Hb & Hs & ->).
    split; [lia|]. split; [exists b; by rewrite <- HP|].
    intros b' Hb' Hs'. apply (list_max_ge _ _ _ E). apply elem_of_ends. exists b'. by rewrite HP.
  - apply list_max_None in E. intros b Hb Hs.
    assert (Z.min (block_endMs b) recorded ∈ @nil Z) as Hin.
    { rewrite <- E. apply elem_of_ends. exists b. by rewrite HP. }
    by apply elem_of_nil in Hin.
Qed.

(** An accepted classification attributes each block at most once. Every
    list names supplied blocks in ascending order without repetition; customer,
    unclear, agent, voicemail and automation blocks exclude each other, no agent
    block is junk evidence, and business-relevant blocks are customer blocks.
    Voicemail, automation and junk evidence is backed by the text of its block. *)
Theorem validateClassification_lists raw blocks recorded dm c
    (H : validateClassification raw blocks recorded dm = Ok c) :
  ∃ voicemail automation junk business agent,
    voicemailEvidenceBlockNumbers c = Some voicemail ∧
    automationEvidenceBlockNumbers c = Some automation ∧
    junkEvidenceBlockNumbers c = Some junk ∧
    businessRelevantCustomerBlockNumbers c = Some business ∧
    agentBlockNumbers c = Some agent ∧
    Forall (block_list blocks)
      [customerBlockNumbers c; unclearBlockNumbers c; voicemail; automation; junk; business; agent] ∧
    Forall (apart (customerBlockNumbers c)) [unclearBlockNumbers c; voicemail; automation; agent] ∧
    Forall (apart agent) [unclearBlockNumbers c; voicemail; automation; junk] ∧
    Forall (apart (unclearBlockNumbers c)) [voicemail; automation] ∧
    business ⊆ customerBlockNumbers c ∧
    backed AFFIRMATIVE_VOICEMAIL_CUE blocks voicemail ∧
    backed AFFIRMATIVE_AUTOMATION_CUE blocks automation ∧
    backed AFFIRMATIVE_JUNK_CUE blocks junk.
Proof.
  apply validateClassification_inv in H
    as (proposed & category & _ & _ & Hcu & Hv & _ & Ha & _ & _ & _ & ->).
  destruct (lists_ascending raw blocks) as (A1 & A2 & A3 & A4 & A5 & A6 & A7).
  do 5 eexists. do 5 (split; [reflexivity|]).
  assert (Hagents : ∀ n, n ∈ agents raw blocks →
    n ∈ from_null [] (agentBlockNumbers raw) ∧ n ∉ customers raw blocks).
  { intros n Hn. unfold agents, rawAgentBlockNumbers in Hn.
    rewrite list_elem_of_filter, negb_true_iff, includes_false, normalizeBlocks_range,
      elem_of_dedup in Hn. tauto. }
  assert (Hbacked : ∀ cue l, backed cue blocks (cued cue blocks l)).
  { intros cue l n Hn. apply elem_of_cued in Hn as (_ & b & Hb & Ht).
    apply find_block_Some in Hb as [??]. eauto. }
  assert (Hauto : ∀ n, n ∈ automations raw blocks →
    n ∉ customers raw blocks ∧ n ∉ normalizedUnclearBlockNumbers raw blocks).
  { intros n Hn. apply elem_of_cued in Hn as [Hn _]. apply list_elem_of_filter in Hn as [Hn _].
    to_prop. by rewrite <- !includes_false. }
  split; [|split; [|split; [|split; [|split; [|split_and!; apply Hbacked]]]]].
  - rewrite !Forall_cons, Forall_nil. split_and!; try done; (split; [done|]); intros m; cbn;
      unfold customers, normalizedUnclearBlockNumbers, rawUnclearBlockNumbers, voicemails, automations,
        junk, businessRelevant, agents;
      rewrite ?elem_of_sort_asc, ?elem_of_cued, ?list_elem_of_filter, ?normalizeBlocks_range; tauto.
  - rewrite !Forall_cons, Forall_nil. split_and!; try done; intros n Hn Hn'; cbn in *.
    + unfold customers in Hn. unfold normalizedUnclearBlockNumbers in Hn'.
      rewrite elem_of_sort_asc, list_elem_of_filter, negb_true_iff, includes_false in Hn'.
      rewrite normalizeBlocks_range, elem_of_app in Hn. specialize (Hcu n). tauto.
    + by apply Hv in Hn' as [? _].
    + by apply Hauto in Hn' as [? _].
    + by apply Hagents in Hn' as [_ ?].
  - rewrite !Forall_cons, Forall_nil. split_and!; try done; intros n Hn Hn'; cbn in *; apply Hagents in Hn as [Hn _];
      specialize (Ha n Hn); tauto.
  - rewrite !Forall_cons, Forall_nil. split_and!; try done; intros n Hn Hn'; cbn in *; [apply Hv in Hn'|apply Hauto in Hn']; tauto.
  - intros n Hn. apply list_elem_of_filter in Hn as [Hn _]. by apply includes_true in Hn.
Qed.

(** The moments of an accepted classification are derived from its blocks,
    never taken from the model: each is the latest end of the blocks it is about
    (the customer's, the agent's, the voicemail evidence, the business-relevant,
    and those not unclear), bounded by the recording, and absent when there is no
    such block. The introduction ends with the lowest-numbered agent block. The
    customer spoke exactly when a supplied block is the customer's. *)
Theorem validateClassification_moments raw blocks recorded dm c
    (H : validateClassification raw blocks recorded dm = Ok c) :
  let among l n := n ∈ from_null [] l in
  latest blocks recorded (fun n => n ∈ customerBlockNumbers c)
    (mc_lastMeaningfulCustomerExchangeMs c) ∧
  latest blocks recorded (among (agentBlockNumbers c)) (mc_lastMeaningfulAgentExchangeMs c) ∧
  latest blocks recorded (among (voicemailEvidenceBlockNumbers c)) (mc_lastVoicemailExchangeMs c) ∧
  latest blocks recorded (among (businessRelevantCustomerBlockNumbers c))
    (mc_lastBusinessRelevantCustomerExchangeMs c) ∧
  latest blocks recorded (fun n => n ∉ unclearBlockNumbers c) (mc_lastVerifiedInteractionMs c) ∧
  (customerSpoke c = true ↔ ∃ b, b ∈ blocks ∧ number b ∈ customerBlockNumbers c) ∧
  match mc_firstAgentTurnEndMs c with
  | None => ∀ b, b ∈ blocks → ¬ among (agentBlockNumbers c) (number b)
  | Some t => ∃ b, b ∈ blocks ∧ among (agentBlockNumbers c) (number b) ∧
      t = Z.min (block_endMs b) recorded ∧
      ∀ b', b' ∈ blocks → among (agentBlockNumbers c) (number b') → number b ≤ number b'
  end.
Proof.
  apply validateClassification_inv in H as (proposed & category & _ & _ & _ & _ & _ & _ & _ & _ & _ & ->).
  intros among. subst among.
  split; [apply latest_list_max; intros n; apply includes_true|].
  split; [apply latest_list_max; intros n; apply includes_true|].
  split; [apply latest_list_max; intros n; apply includes_true|].
  split; [apply latest_list_max; intros n; apply includes_true|].
  split; [apply latest_list_max; intros n; by rewrite negb_true_iff, includes_false|].
  split.
  - cbn [customerSpoke validated customerBlockNumbers].
    rewrite negb_true_iff, bool_decide_eq_false. split.
    + intros Hne. destruct (ends _ _ _) as [|m l] eqn:E; [done|].
      assert (m ∈ ends blocks recorded (includes (customers raw blocks))) as Hm
        by (rewrite E; left).
      apply elem_of_ends in Hm as (b & Hb & Hs & _). exists b. by rewrite <- includes_true.
    + intros (b & Hb & Hs) E.
      assert (Z.min (block_endMs b) recorded ∈ @nil Z) as Hm.
      { rewrite <- E. apply elem_of_ends. exists b. by rewrite includes_true. }
      by apply elem_of_nil in Hm.
  - cbn [mc_firstAgentTurnEndMs validated agentBlockNumbers from_null default].
    apply firstAgentTurnEnd_spec.
Qed.

(** ** Properties: the reviewed category *)

(** Follow a computation that returned, one test at a time. *)
Ltac follow H :=
  repeat first
    [ apply bind_Ok_iff in H as (? & ?Hstep & H)
    | match type of H with
      | (if ?b then _ else _) = Ok _ => destruct b eqn:?
      | match ?o with Some _ => _ | None => _ end = Ok _ => destruct o eqn:?
      | Throw _ = Ok _ => discriminate H
      | Ok _ = Ok _ => apply Ok_inj in H
      end ].

Lemma reviewConversation_category o s c :
  reviewConversation o s = Ok c →
  c ∈ [OK; AGENT_FAILURE; TIME_DURATION; CONNECT_NOT_FRUITFUL] ∨
  (c = ro_proposedCategory o ∧
   (c = INCORRECT_CALL_DURATION → ro_durationMismatch o = true)).
Proof.
  unfold reviewConversation. intros H. follow H; subst;
    try (left; set_solver); right; to_prop; by split_and!.
Qed.

Lemma is_text_eq v a b : is_text v a = true → is_text v b = true → a = b.
Proof. destruct v as [[]|]; cbn; try done. intros H1 H2. to_prop. congruence. Qed.

(** The ways the resolver answers, in its order. *)
Inductive resolved (o : ReviewOptions) (s : ClassificationDecisionSignals) : ReauditCategory → Prop :=
| resolved_voicemail :
    is_text (counterpartyType s) "voicemail" = true →
    (present (voicemailEvidence s) = true →
      is_text (voicemailEvidence s) "none" = false ∧ voicemailEvidenceBlockCount o ≠ Some 0) →
    resolved o s VOICEMAIL
| resolved_silence :
    is_text (counterpartyType s) "voicemail" = true ∨
    is_text (counterpartyType s) "no_response" = true → resolved o s USER_SILENCE
| resolved_automation :
    is_text (counterpartyType s) "interactive_automation" = true →
    (present (automationEvidence s) = true →
      agentBlockCount o ≠ Some 0 ∧ automationEvidenceBlockCount o ≠ Some 0) →
    resolved o s AI_TO_AI
| resolved_junk :
    asserted (junkEvidence s) = true → some_blocks (junkEvidenceBlockCount o) = true →
    resolved o s JUNK_CALL
| resolved_no_agent : customerBlockCount o ≠ 0 → resolved o s AGENT_FAILURE
| resolved_no_customer agents :
    agentBlockCount o = Some agents →
    resolved o s (if 0 <? agents then USER_SILENCE else INACTIVE_CALL)
| resolved_conversation c :
    customerBlockCount o ≠ 0 ∨ agentBlockCount o = None →
    (ro_proposedCategory o = JUNK_CALL → junkEvidence s = None) →
    reviewConversation o s = Ok c → resolved o s c.

Lemma resolve_resolved o s c :
  ro_decisionSignals o = Some s → resolveReviewedCategory o = Ok c → resolved o s c.
Proof.
  intros Hs H. unfold resolveReviewedCategory in H. rewrite Hs in H. cbv zeta in H.
  apply bind_Ok_iff in H as (u1 & _ & H). apply bind_Ok_iff in H as (u2 & _ & H).
  apply bind_Ok_iff in H as (u3 & _ & H).
  destruct (is_text (counterpartyType s) "voicemail") eqn:Hv.
  { destruct (present _ && _) eqn:E; apply Ok_inj in H as <-.
    - apply resolved_silence. by left.
    - apply resolved_voicemail; [done|]. intros Hp. rewrite Hp in E. cbn [andb] in E.
      unfold no_blocks in E. by to_prop. }
  apply bind_Ok_iff in H as (u4 & _ & H).
  destruct (is_text (counterpartyType s) "interactive_automation") eqn:Ha.
  { apply bind_Ok_iff in H as (u5 & E & H). apply throw_if_Ok in E. apply Ok_inj in H as <-.
    apply resolved_automation; [done|]. intros Hp. rewrite Hp in E. cbn [andb] in E.
    unfold no_blocks in E. by to_prop. }
  apply bind_Ok_iff in H as (u5 & _ & H).
  destruct (is_text (counterpartyType s) "no_response") eqn:Hr.
  { apply Ok_inj in H as <-. apply resolved_silence. by right. }
  destruct (bool_decide _ && (_ && _)) eqn:Hj.
  { apply Ok_inj in H as <-. to_prop. by apply resolved_junk. }
  destruct (is_text _ "human" && _ && _) eqn:Hh.
  { apply Ok_inj in H as <-. to_prop. apply resolved_no_agent. lia. }
  apply bind_Ok_iff in H as (u6 & E & H). apply throw_if_Ok in E.
  apply bind_Ok_iff in H as (u7 & _ & H).
  assert (ro_proposedCategory o = JUNK_CALL → junkEvidence s = None) as Hn.
  { intros Hp. rewrite bool_decide_true in E by done. by destruct (junkEvidence s). }
  destruct (agentBlockCount o) as [agents|] eqn:Hb.
  - destruct (customerBlockCount o =? 0) eqn:Hc.
    + apply Ok_inj in H as <-. by apply resolved_no_customer.
    + apply resolved_conversation; [left; by to_prop|done|done].
  - apply resolved_conversation; [by right|done|done].
Qed.

(** A category needs its evidence. [INCORRECT_CALL_DURATION] needs a measured
    mismatch. [JUNK_CALL] needs junk evidence found in the transcript (legacy
    results, without that signal, keep theirs). And when the customer said
    nothing and the agent's blocks are counted, no label of the model can make
    the call a conversation: it is voicemail or a machine only for such a
    counterparty, and otherwise user silence when the agent spoke (or the
    counterparty did not respond) and an inactive call when nobody did. *)
Theorem resolveReviewedCategory_evidence o s c
    (Hs : ro_decisionSignals o = Some s) (H : resolveReviewedCategory o = Ok c) :
  let explicitJunk := asserted (junkEvidence s) = true ∧ some_blocks (junkEvidenceBlockCount o) = true in
  (c = INCORRECT_CALL_DURATION → ro_durationMismatch o = true) ∧
  (c = JUNK_CALL → junkEvidence s = None ∨ explicitJunk) ∧
  (∀ agents, customerBlockCount o = 0 → agentBlockCount o = Some agents →
    match c with
    | VOICEMAIL => is_text (counterpartyType s) "voicemail" = true ∧
        (present (voicemailEvidence s) = true →
           is_text (voicemailEvidence s) "none" = false ∧ voicemailEvidenceBlockCount o ≠ Some 0)
    | AI_TO_AI => is_text (counterpartyType s) "interactive_automation" = true ∧
        (present (automationEvidence s) = true → agents ≠ 0 ∧ automationEvidenceBlockCount o ≠ Some 0)
    | JUNK_CALL => explicitJunk
    | USER_SILENCE => 0 < agents ∨ is_text (counterpartyType s) "voicemail" = true ∨
        is_text (counterpartyType s) "no_response" = true
    | INACTIVE_CALL => agents ≤ 0
    | _ => False
    end).
Proof.
  intros explicitJunk. subst explicitJunk. apply (resolve_resolved o s c Hs) in H.
  destruct H as [Hv He|Hn|Ha He|Hj Hb|Hc|agents Ha|c Hc Hj H].
  - do 2 (split; [done|]). done.
  - do 2 (split; [done|]). intros agents _ _. tauto.
  - do 2 (split; [done|]). intros agents _ Hb. split; [done|]. intros Hp.
    destruct (He Hp) as [H1 H2]. split; [congruence|done].
  - split; [done|]. split; [by right|]. done.
  - do 2 (split; [done|]). intros agents H0. by rewrite H0 in Hc.
  - destruct (0 <? agents) eqn:E; do 2 (split; [done|]); intros a _ Ha'; rewrite Ha in Ha';
      injection Ha' as <-; to_prop; [by left|done].
  - apply reviewConversation_category in H as [H|[-> Hm]].
    + repeat (apply elem_of_cons in H as [->|H];
        [do 2 (split; [done|]); intros a H0 Ha'; destruct Hc; congruence|]).
      by apply elem_of_nil in H.
    + split; [done|]. split; [tauto|]. intros a H0 Ha'. destruct Hc; congruence.
Qed.

(** The signals settle the category of a conversation. *)
Definition decisive (s : ClassificationDecisionSignals) : Prop :=
  is_text (counterpartyType s) "human" = true ∧
  is_text (agentHandling s) "unclear" = false ∧
  is_text (conversationOutcome s) "unclear" = false.

Lemma validated_signal s name allowed :
  validateDecisionSignals s = Ok tt → (name, allowed) ∈ DECISION_SIGNAL_VALUES →
  match signal_value s name with
  | None => name ∈ optional_signals
  | Some v => ∃ t, t ∈ allowed ∧ is_text (Some v) t = true
  end.
Proof.
  unfold validateDecisionSignals. intros H Hin.
  apply bind_Ok_iff in H as (u & H & _). apply for_each_Ok in H. rewrite Forall_forall in H.
  specialize (H _ Hin). cbn beta iota in H. destruct (signal_value s name) as [v|].
  - apply throw_if_Ok, negb_false_iff, existsb_exists in H as (t & Ht & Hv).
    exists t. split; [by apply list_elem_of_In|done].
  - apply throw_if_Ok in H. by to_prop.
Qed.

Lemma three_way v a b c :
  (∃ t, t ∈ [a; b; c] ∧ is_text v t = true) → is_text v c = false →
  is_text v a = true ∨ is_text v b = true.
Proof.
  intros (t & Ht & Hv) Hc. rewrite !elem_of_cons in Ht.
  destruct Ht as [->|[->|[->|Ht]]]; [by left|by right|congruence|by apply elem_of_nil in Ht].
Qed.

Lemma decisive_conversation o o' s :
  validateDecisionSignals s = Ok tt → decisive s → reviewConversation o s = reviewConversation o' s.
Proof.
  intros Hv (Hh & Hu & Hc).
  pose proof (validated_signal s "agentHandling" _ Hv ltac:(right; left)) as Ha.
  pose proof (validated_signal s "conversationOutcome" _ Hv ltac:(do 2 right; left)) as Ho.
  change (signal_value s "agentHandling") with (agentHandling s) in Ha.
  change (signal_value s "conversationOutcome") with (conversationOutcome s) in Ho.
  unfold reviewConversation. rewrite Hh.
  destruct (agentHandling s) as [ah|] eqn:Eh; [|by apply (bool_decide_pack _) in Ha].
  destruct (conversationOutcome s) as [co|] eqn:Eo; [|by apply (bool_decide_pack _) in Ho].
  apply three_way in Ha as [Ha|Ha]; [| |done].
  - rewrite Ha. apply three_way in Ho as [Ho|Ho]; [| |done]; rewrite Ho;
      rewrite ?andb_true_r, ?andb_true_l; repeat (case_match; try done).
  - rewrite Ha. repeat (case_match; try done).
Qed.

(** once the signals settle a conversation (a human counterparty, the agent's
    handling and the outcome both judged), the label the model proposed no longer
    matters: two proposals other than [JUNK_CALL], with the same signals and
    counted evidence, resolve alike, to the same category or the same error. *)
Theorem resolveReviewedCategory_independent o o' s
    (Hs : ro_decisionSignals o = Some s) (Hd : decisive s)
    (Hj : ro_proposedCategory o ≠ JUNK_CALL) (Hj' : ro_proposedCategory o' ≠ JUNK_CALL)
    (Ho : o' = {| ro_proposedCategory := ro_proposedCategory o';
                  ro_decisionSignals := ro_decisionSignals o;
                  customerBlockCount := customerBlockCount o;
                  agentBlockCount := agentBlockCount o;
                  voicemailEvidenceBlockCount := voicemailEvidenceBlockCount o;
                  automationEvidenceBlockCount := automationEvidenceBlockCount o;
                  junkEvidenceBlockCount := junkEvidenceBlockCount o;
                  ro_durationMismatch := ro_durationMismatch o |}) :
  resolveReviewedCategory o = resolveReviewedCategory o'.
Proof.
  rewrite Ho. unfold resolveReviewedCategory at 1 2.
  cbn [ro_decisionSignals customerBlockCount agentBlockCount voicemailEvidenceBlockCount
       automationEvidenceBlockCount junkEvidenceBlockCount ro_proposedCategory].
  rewrite Hs, !bool_decide_false by done.
  destruct (validateDecisionSignals s) as [[]|e] eqn:Hv; cbn [mbind result_bind]; [|done].
  cbn [andb negb].
  match goal with |- context [reviewConversation (Build_ReviewOptions ?a ?b ?c ?d ?e ?f ?g ?h) s] =>
    by rewrite (decisive_conversation (Build_ReviewOptions a b c d e f g h) o s Hv Hd) end.
Qed.

(** ** Properties: repair *)

Section RepairFacts.
Context (blocks : list NaturalSpeechBlock).

Lemma elem_of_supplied l v : v ∈ supplied blocks l ↔ v ∈ map number blocks ∧ v ∈ l.
Proof. unfold supplied. by rewrite elem_of_distinct_sorted, includes_true. Qed.

Lemma ascending_supplied l : ascending (supplied blocks l).
Proof. apply ascending_distinct_sorted. Qed.

(** Selecting again from a selection changes nothing. *)
Lemma supplied_again (P : Z → bool) l :
  filter (fun n => P n = true) (supplied blocks (filter (fun n => P n = true) (supplied blocks l))) =
  filter (fun n => P n = true) (supplied blocks l).
Proof.
  apply ascending_ext; try apply ascending_filter, ascending_supplied.
  intros v. rewrite !list_elem_of_filter, !elem_of_supplied, list_elem_of_filter, elem_of_supplied.
  tauto.
Qed.

Context (raw : ModelClassification string) (dm : bool).
Notation again := (repairClassification raw blocks dm).

Lemma voicemail_again : repairedVoicemail again blocks = repairedVoicemail raw blocks.
Proof. apply (supplied_again (fun n => test AFFIRMATIVE_VOICEMAIL_CUE (blockText blocks n))). Qed.

Lemma automation_again : repairedAutomation again blocks = repairedAutomation raw blocks.
Proof. apply (supplied_again (fun n => test AFFIRMATIVE_AUTOMATION_CUE (blockText blocks n))). Qed.

Lemma junk_again : repairedJunk again blocks = repairedJunk raw blocks.
Proof. apply (supplied_again (fun n => test AFFIRMATIVE_JUNK_CUE (blockText blocks n))). Qed.

Lemma system_again n : systemEvidence again blocks n = systemEvidence raw blocks n.
Proof. unfold systemEvidence. by rewrite voicemail_again, automation_again. Qed.

Lemma filter_bool_ext {A} (P Q : A → bool) (l : list A) :
  (∀ x, P x = Q x) → filter (fun n => P n = true) l = filter (fun n => Q n = true) l.
Proof. intros H. apply list_filter_iff. intros x. by rewrite H. Qed.

Lemma customer_again : repairedCustomer again blocks = repairedCustomer raw blocks.
Proof.
  unfold repairedCustomer at 1.
  rewrite (filter_bool_ext _ (fun n => negb (systemEvidence raw blocks n)))
    by (intros n; by rewrite system_again).
  apply supplied_again.
Qed.

Lemma unclear_again : repairedUnclear again blocks = repairedUnclear raw blocks.
Proof.
  unfold repairedUnclear at 1.
  rewrite (filter_bool_ext _ (fun n => negb (includes (repairedCustomer raw blocks) n) &&
    negb (systemEvidence raw blocks n))) by (intros n; by rewrite system_again, customer_again).
  apply supplied_again.
Qed.

Lemma agent_again : repairedAgent again blocks = repairedAgent raw blocks.
Proof.
  unfold repairedAgent at 1.
  rewrite (filter_bool_ext _ (fun n => negb (includes (repairedCustomer raw blocks) n) &&
    negb (includes (repairedUnclear raw blocks) n) && negb (systemEvidence raw blocks n) &&
    negb (includes (repairedJunk raw blocks) n)))
    by (intros n; by rewrite system_again, customer_again, unclear_again, junk_again).
  apply supplied_again.
Qed.

Lemma counterparty_again : repairedCounterparty again blocks = repairedCounterparty raw blocks.
Proof.
  unfold repairedCounterparty.
  by rewrite voicemail_again, automation_again, agent_again, customer_again.
Qed.

Lemma kind_again numbers claimed cues otherwise :
  Forall (fun c : re * string => c.2 ≠ "none") cues → otherwise ≠ "none" →
  repairedKind blocks numbers (repairedKind blocks numbers claimed cues otherwise) cues otherwise =
  repairedKind blocks numbers claimed cues otherwise.
Proof.
  intros Hc Ho. unfold repairedKind. destruct (some_in numbers); [|done].
  destruct (is_text claimed "none" || negb (present claimed)) eqn:E; [|by rewrite E].
  set (kind := match List.find _ cues with Some c => c.2 | None => otherwise end).
  cbn [is_text present negb orb]. rewrite bool_decide_false; [done|]. subst kind.
  destruct (List.find _ cues) as [c|] eqn:Ef; [|done].
  apply List.find_some in Ef as [Hin _]. apply list_elem_of_In in Hin.
  rewrite Forall_forall in Hc. by apply Hc.
Qed.

Lemma signals_again : repairedSignals again blocks = repairedSignals raw blocks.
Proof.
  unfold repairedSignals at 1 2. cbn [decisionSignals repairClassification].
  destruct (decisionSignals raw) as [d|] eqn:Ed; unfold repairedSignals; rewrite Ed; [|done].
  rewrite counterparty_again, voicemail_again, automation_again, junk_again.
  cbn [agentHandling conversationOutcome durationOutcome stopIntent postStopBehavior
       successfulOutcome voicemailEvidence automationEvidence junkEvidence sg_agentFailureMode
       sg_meaningfulServiceBeforeFailure].
  rewrite !kind_again by (try done; repeat constructor; done). done.
Qed.

Lemma category_again : repairedCategory again blocks dm = repairedCategory raw blocks dm.
Proof.
  unfold repairedCategory at 1. rewrite counterparty_again, junk_again, agent_again, signals_again.
  unfold needsConversation. rewrite junk_again. cbn [mc_category repairClassification].
  unfold repairedCategory.
  destruct (bool_decide (repairedCounterparty raw blocks = "voicemail")); [done|].
  destruct (bool_decide (repairedCounterparty raw blocks = "interactive_automation")); [done|].
  destruct (bool_decide (repairedCounterparty raw blocks = "no_response")); [done|].
  destruct (bool_decide (repairedCounterparty raw blocks = "unclear")); [done|].
  destruct (some_in (repairedJunk raw blocks)) eqn:Ej; [done|].
  destruct (needsConversation raw blocks dm) eqn:En.
  - by repeat match goal with |- context [if ?b then _ else _] => destruct b eqn:? end.
  - unfold needsConversation in En. rewrite Ej in En. by rewrite En.
Qed.
End RepairFacts.

(** Repair is a projection. What it returns has nothing left to repair:
    repairing again gives the same classification. Its lists name supplied blocks
    in ascending order; evidence of a voicemail or a machine outranks the
    customer, the customer outranks unclear speech, and an agent block is
    contested by none of them, nor by junk evidence. *)
Theorem repairClassification_projection raw blocks dm :
  let c := repairClassification raw blocks dm in
  repairClassification c blocks dm = c ∧
  ∃ voicemail automation junk business agent,
    voicemailEvidenceBlockNumbers c = Some voicemail ∧
    automationEvidenceBlockNumbers c = Some automation ∧
    junkEvidenceBlockNumbers c = Some junk ∧
    businessRelevantCustomerBlockNumbers c = Some business ∧
    agentBlockNumbers c = Some agent ∧
    Forall (fun l => ascending l ∧ l ⊆ map number blocks)
      [customerBlockNumbers c; unclearBlockNumbers c; voicemail; automation; junk; business; agent] ∧
    Forall (apart (customerBlockNumbers c)) [unclearBlockNumbers c; voicemail; automation; agent] ∧
    Forall (apart (unclearBlockNumbers c)) [voicemail; automation; agent] ∧
    Forall (apart agent) [voicemail; automation; junk] ∧
    business ⊆ customerBlockNumbers c.
Proof.
  intros c. split.
  - subst c. unfold repairClassification at 1.
    rewrite customer_again, unclear_again, voicemail_again, automation_again, junk_again,
      agent_again, signals_again, category_again.
    cbn [repairClassification businessRelevantCustomerBlockNumbers from_null default id].
    rewrite supplied_again. reflexivity.
  - do 5 eexists. do 5 (split; [reflexivity|]). cbn [c repairClassification customerBlockNumbers
      unclearBlockNumbers].
    assert (Hc : ∀ n, n ∈ repairedCustomer raw blocks →
      n ∉ repairedVoicemail raw blocks ∧ n ∉ repairedAutomation raw blocks).
    { intros n Hn. apply list_elem_of_filter in Hn as [Hn _]. unfold systemEvidence in Hn. to_prop.
      by rewrite <- !includes_false. }
    assert (Hu : ∀ n, n ∈ repairedUnclear raw blocks → n ∉ repairedCustomer raw blocks ∧
      n ∉ repairedVoicemail raw blocks ∧ n ∉ repairedAutomation raw blocks).
    { intros n Hn. apply list_elem_of_filter in Hn as [Hn _]. unfold systemEvidence in Hn. to_prop.
      by rewrite <- !includes_false. }
    assert (Ha : ∀ n, n ∈ repairedAgent raw blocks → n ∉ repairedCustomer raw blocks ∧
      n ∉ repairedUnclear raw blocks ∧ n ∉ repairedVoicemail raw blocks ∧
      n ∉ repairedAutomation raw blocks ∧ n ∉ repairedJunk raw blocks).
    { intros n Hn. apply list_elem_of_filter in Hn as [Hn _]. unfold systemEvidence in Hn. to_prop.
      by rewrite <- !includes_false. }
    rewrite !Forall_cons, !Forall_nil. split_and!; try done.
    all: try (apply ascending_filter, ascending_supplied).
    all: try (intros n Hn; apply list_elem_of_filter in Hn as [_ Hn];
      apply elem_of_supplied in Hn as [Hn _]; exact Hn).
    all: try (intros n Hn Hn'; specialize (Hc n); specialize (Hu n); specialize (Ha n); tauto).
    intros n Hn. apply list_elem_of_filter in Hn as [Hn _]. by apply includes_true in Hn.
Qed.

(** Nothing passes the ladder unvalidated. *)
Lemma validateOrRepair_valid raw blocks recorded dm c :
  validateOrRepair raw blocks recorded dm = Some c →
  ∃ raw', validateClassification raw' blocks recorded dm = Ok c.
Proof.
  unfold validateOrRepair.
  destruct (validateClassification raw blocks recorded dm) as [c'|] eqn:E; [intros [= <-]; eauto|].
  destruct (validateClassification (repairClassification _ _ _) _ _ _) as [c'|] eqn:E'; [|done].
  intros [= <-]. eauto.
Qed.

(** ** Concrete classifications *)

Module Demo.
Definition signals : ClassificationDecisionSignals := {|
  counterpartyType := Some (JStr "human");
  agentHandling := Some (JStr "normal");
  conversationOutcome := Some (JStr "no_outcome");
  durationOutcome := Some (JStr "appropriate");
  stopIntent := Some (JStr "none");
  postStopBehavior := Some (JStr "not_applicable");
  successfulOutcome := Some (JStr "none");
  voicemailEvidence := Some (JStr "none");
  automationEvidence := Some (JStr "none");
  junkEvidence := Some (JStr "none");
  sg_agentFailureMode := Some (JStr "none");
  sg_meaningfulServiceBeforeFailure := Some (JBool false) |}.

(** A model's answer about [demo_blocks]: block 2 is the customer's. *)
Definition raw (category confidence : string) (customers agents unclear : list Z)
    : ModelClassification string := {|
  mc_model := {| provider := "openai"; model_name := "m"; model_version := "1" |};
  mc_category := category;
  mc_confidence := confidence;
  customerBlockNumbers := customers;
  unclearBlockNumbers := unclear;
  voicemailEvidenceBlockNumbers := Some [];
  automationEvidenceBlockNumbers := Some [];
  junkEvidenceBlockNumbers := Some [];
  businessRelevantCustomerBlockNumbers := Some customers;
  customerSpoke := true;
  mc_lastMeaningfulCustomerExchangeMs := Some 999999;
  mc_lastMeaningfulAgentExchangeMs := None;
  mc_firstAgentTurnEndMs := None;
  mc_lastVoicemailExchangeMs := None;
  mc_lastBusinessRelevantCustomerExchangeMs := None;
  mc_lastVerifiedInteractionMs := None;
  agentBlockNumbers := Some agents;
  agentFailureStartBlockNumber := None;
  mc_agentFailureMode := None;
  mc_meaningfulServiceBeforeFailure := None;
  mc_failureStartMs := None;
  mc_remarks := " A short call. ";
  mc_disputeRecommended := false;
  decisionSignals := Some signals;
  mc_usage := None |}.

Definition checked : ModelClassification ReauditCategory :=
  validated (raw "OK" "0.9" [2] [1; 3] []) demo_blocks 8000 CONNECT_NOT_FRUITFUL.

Example validates :
  validateClassification (raw "OK" "0.9" [2] [1; 3] []) demo_blocks 8000 false = Ok checked.
Proof. vm_compute. reflexivity. Qed.

Example checked_facts :
  (customerBlockNumbers checked, agentBlockNumbers checked,
   mc_lastMeaningfulCustomerExchangeMs checked, mc_lastMeaningfulAgentExchangeMs checked,
   mc_firstAgentTurnEndMs checked, mc_remarks checked) =
  ([2], Some [1; 3], Some 5200, Some 8000, Some 2600, "A short call.").
Proof. vm_compute. reflexivity. Qed.

(** A model that calls the agent's introduction the customer's too is repaired;
    one that attributes a block to the customer and to unclear speech is too. *)
Example repairs :
  is_ok (validateClassification (raw "OK" "0.9" [2] [1; 3] [2]) demo_blocks 8000 false) = false ∧
  (mc_category <$> validateOrRepair (raw "OK" "0.9" [2] [1; 3] [2]) demo_blocks 8000 false) =
    Some CONNECT_NOT_FRUITFUL.
Proof. vm_compute. done. Qed.

(** The pattern for a confidence from 0 to 1 accepts one above 1. *)
Example confidence_above_one : decimal "1.5" = true ∧ decimal "1.99999999" = true.
Proof. vm_compute. done. Qed.

(** With an unclear outcome the proposed label stands: a voicemail on a call the
    signals describe as a conversation with a person. *)
Example voicemail_of_a_person :
  resolveReviewedCategory {|
    ro_proposedCategory := VOICEMAIL;
    ro_decisionSignals := Some {|
      counterpartyType := Some (JStr "human"); agentHandling := Some (JStr "normal");
      conversationOutcome := Some (JStr "unclear"); durationOutcome := Some (JStr "appropriate");
      stopIntent := Some (JStr "none"); postStopBehavior := Some (JStr "not_applicable");
      successfulOutcome := Some (JStr "none"); voicemailEvidence := Some (JStr "none");
      automationEvidence := Some (JStr "none"); junkEvidence := Some (JStr "none");
      sg_agentFailureMode := Some (JStr "none");
      sg_meaningfulServiceBeforeFailure := Some (JBool false) |};
    customerBlockCount := 3; agentBlockCount := Some 3; voicemailEvidenceBlockCount := Some 0;
    automationEvidenceBlockCount := Some 0; junkEvidenceBlockCount := Some 0;
    ro_durationMismatch := false |} = Ok VOICEMAIL.
Proof. vm_compute. reflexivity. Qed.

Definition silent (proposed : ReauditCategory) (customerBlocks agentBlocks : Z)
    (counterparty : string) : ReviewOptions := {|
  ro_proposedCategory := proposed;
  ro_decisionSignals := Some {|
    counterpartyType := Some (JStr counterparty); agentHandling := agentHandling signals;
    conversationOutcome := conversationOutcome signals; durationOutcome := durationOutcome signals;
    stopIntent := stopIntent signals; postStopBehavior := postStopBehavior signals;
    successfulOutcome := successfulOutcome signals; voicemailEvidence := voicemailEvidence signals;
    automationEvidence := automationEvidence signals; junkEvidence := junkEvidence signals;
    sg_agentFailureMode := sg_agentFailureMode signals;
    sg_meaningfulServiceBeforeFailure := sg_meaningfulServiceBeforeFailure signals |};
  customerBlockCount := customerBlocks; agentBlockCount := Some agentBlocks;
  voicemailEvidenceBlockCount := Some 0; automationEvidenceBlockCount := Some 0;
  junkEvidenceBlockCount := Some 0; ro_durationMismatch := false |}.
End Demo.

Lemma validateClassification_lists_witness :
  mc_category Demo.checked = CONNECT_NOT_FRUITFUL ∧
  apart (customerBlockNumbers Demo.checked) (unclearBlockNumbers Demo.checked).
Proof.
  split; [reflexivity|].
  destruct (validateClassification_lists _ _ _ _ _ Demo.validates)
    as (v & a & j & b & g & _ & _ & _ & _ & _ & _ & H & _).
  by inversion H.
Defined.

Lemma validateClassification_moments_witness :
  customerSpoke Demo.checked = true ∧
  latest demo_blocks 8000 (fun n => n ∈ [2]) (Some 5200).
Proof.
  split; [reflexivity|].
  exact (proj1 (validateClassification_moments _ _ _ _ _ Demo.validates)).
Defined.

Lemma resolveReviewedCategory_evidence_witness :
  resolveReviewedCategory (Demo.silent OK 0 2 "unclear") = Ok USER_SILENCE ∧
  resolveReviewedCategory (Demo.silent OK 0 0 "unclear") = Ok INACTIVE_CALL ∧ 0 ≤ 0.
Proof.
  split; [reflexivity|]. split; [reflexivity|].
  exact (proj2 (proj2 (resolveReviewedCategory_evidence (Demo.silent OK 0 0 "unclear") _ INACTIVE_CALL
    eq_refl eq_refl)) 0 eq_refl eq_refl).
Defined.

Lemma resolveReviewedCategory_independent_witness :
  resolveReviewedCategory (Demo.silent OK 2 2 "human") =
  resolveReviewedCategory (Demo.silent VOICEMAIL 2 2 "human").
Proof.
  eapply (resolveReviewedCategory_independent (Demo.silent OK 2 2 "human")
    (Demo.silent VOICEMAIL 2 2 "human")); [reflexivity|by split_and!|done|done|reflexivity].
Defined.
