(* ===== verification/ReauditAudit.v ===== *)
(** * Auditing one call

    [src/reaudit/core.ts]: from a recording to a classified, priced result. The
    fetcher, the model and the transcript cache are ports, parameters here; each
    use of one is an event of the run. *)

From S2P Require Import Prelude JsNumber JsText CanonicalJson Decimal KserveRules ReauditTypes CategoryPolicy VerifiedCharge UrlSafety Transcript Classification.

Local Open Scope string_scope.
Local Open Scope list_scope.
#[global] Open Scope Z_scope.

Definition REAUDIT_ENGINE_VERSION : string := "kairali-independent-reaudit/2.9.0".

(** ** Provider failures *)

(** What a port throws, as the code reads it: [Number(error.status)] ([None] for
    NaN), [String(error.code || '')] and [String(error.name || '')]; [None] for a
    thrown value that is not an object. *)
Record failure : Type := {
  fl_status : option Z;
  fl_code : string;
  fl_name : string;
}.

Inductive Phase : Type := TRANSCRIPTION | CLASSIFICATION.

Definition phase_text (p : Phase) : string :=
  match p with TRANSCRIPTION => "TRANSCRIPTION" | CLASSIFICATION => "CLASSIFICATION" end.

Definition connection_codes : list string :=
  ["ETIMEDOUT"; "ECONNRESET"; "ECONNREFUSED"; "EAI_AGAIN"; "ENETUNREACH";
   "APIConnectionError"; "APIConnectionTimeoutError"].

Definition providerFailureCode (phase : Phase) (error : option failure) : option string :=
  let p := phase_text phase in
  match error with
  | None => None
  | Some e =>
      let st (s : Z) := bool_decide (fl_status e = Some s) in
      let from (s : Z) := match fl_status e with Some v => s <=? v | None => false end in
      if st 429 then
        if bool_decide (fl_code e = "insufficient_quota") then
          Some (p +:+ "_PROVIDER_QUOTA_EXHAUSTED")
        else if bool_decide (fl_code e = "rate_limit_exceeded") then
          Some (p +:+ "_PROVIDER_RATE_LIMITED")
        else Some (p +:+ "_PROVIDER_HTTP_429")
      else if st 408 then Some (p +:+ "_PROVIDER_TIMEOUT")
      else if st 409 then Some (p +:+ "_PROVIDER_CONFLICT")
      else if from 500 then Some (p +:+ "_PROVIDER_SERVER_ERROR")
      else if bool_decide (fl_code e ∈ connection_codes) then
        Some (p +:+ "_PROVIDER_CONNECTION_ERROR")
      else if bool_decide (fl_name e = "TimeoutError") || bool_decide (fl_name e = "AbortError")
      then Some (p +:+ "_PROVIDER_TIMEOUT")
      else if st 401 || st 403 then Some (p +:+ "_PROVIDER_ACCESS_DENIED")
      else
        match fl_status e with
        | Some s =>
            if (400 <=? s) && (s <? 500) then Some (p +:+ "_HTTP_" +:+ show_Z s)
            else if bool_decide (fl_code e = "AUDIO_UNDECODABLE") then
              Some (p +:+ "_AUDIO_UNDECODABLE")
            else None
        | None =>
            if bool_decide (fl_code e = "AUDIO_UNDECODABLE") then
              Some (p +:+ "_AUDIO_UNDECODABLE")
            else None
        end
  end.

(** ** Results *)

Record ReauditAnalysis : Type := {
  an_category : ReauditCategory;
  an_confidence : string;
  an_language : string;
  an_recordedDurationMs : Z;
  an_speechDurationMs : Z;
  an_conversationAssessment : ConversationAssessment;
  an_lastMeaningfulCustomerExchangeMs : option Z;
  customerSpeechMs : Z;
  agentSpeechMs : Z;
  chargeableServiceEndMs : Z;
  appliedBillingGraceMs : Z;
  an_categoryChargePolicyCode : CategoryChargePolicyCode;
  an_durationMismatch : bool;
  evidenceSha256 : string;
  an_remarks : string;
  an_disputeRecommended : bool;
}.

(** The projection; its [authority] is always [provisional_uncalibrated]. *)
Record ReauditProjection : Type := {
  rp_amount : string;
  rp_amountPaise : Z;
  rp_billableMinutes : string;
  rp_billableDurationMs : Z;
  rp_adjustedChargeableDurationMs : Z;
  oneWayTailMs : Z;
  oneWayTailAlert : bool;
  rp_categoryChargePolicyCode : CategoryChargePolicyCode;
  rp_ruleCode : RuleCode;
}.

Inductive ReauditOutcome : Type :=
| projected
| source_missing
| evidence_altered
| unsafe_url
| transcription_failed
| classification_failed
| spend_state_unknown.

Record ReauditItemResult : Type := {
  callId : string;
  artifactId : string;
  outcome : ReauditOutcome;
  analysis : option ReauditAnalysis;
  transcription : option TranscriptionResult;
  classification : option (ModelClassification ReauditCategory);
  projection : option ReauditProjection;
  reusedTranscriptId : option string;
  errorCode : option string;
}.

(** A result that is only an error. *)
Definition failed (candidate : ReauditCandidate) (o : ReauditOutcome) (code : string)
    : ReauditItemResult :=
  {| callId := rc_callId candidate; artifactId := rc_artifactId candidate; outcome := o;
     analysis := None; transcription := None; classification := None; projection := None;
     reusedTranscriptId := None; errorCode := Some code |}.

Definition projectVerifiedCharge (a : ReauditAnalysis) : Prelude.result js_error ReauditProjection :=
  let adjusted := num_add (chargeableServiceEndMs a) (appliedBillingGraceMs a) in
  let boundedAdjusted := Z.min (an_recordedDurationMs a) adjusted in
  rounded ← roundKServeChargeableDuration boundedAdjusted;
  let oneWayTailMs := Z.max 0 (an_recordedDurationMs a - boundedAdjusted) in
  Ok {| rp_amount := amount rounded;
        rp_amountPaise := amountPaise rounded;
        rp_billableMinutes := billableMinutes rounded;
        rp_billableDurationMs := billableDurationMs rounded;
        rp_adjustedChargeableDurationMs := boundedAdjusted;
        oneWayTailMs := oneWayTailMs;
        oneWayTailAlert := KSERVE_ONE_WAY_TAIL_ALERT_MS <? oneWayTailMs;
        rp_categoryChargePolicyCode := an_categoryChargePolicyCode a;
        rp_ruleCode := ruleCode rounded |}.

(** ** Auditing a transcript *)

Record ClassifyRequest : Type := {
  cl_blocks : list NaturalSpeechBlock;
  cl_language : string;
  cl_recordedDurationMs : Z;
  cl_speechDurationMs : Z;
  cl_connectedDurationMs : option Z;
  cl_durationMismatch : bool;
}.

(** The model's classification, or what it threw. *)
Definition Classifier : Type :=
  ClassifyRequest → Prelude.result (option failure) (ModelClassification string).

Definition durationMismatch (connectedDurationMs : option Z) (durationMs : Z) : bool :=
  match connectedDurationMs with
  | None => false
  | Some c => DURATION_TOLERANCE_MS <? Z.abs (c - durationMs)
  end.

(** [language || 'unknown'] *)
Definition language_or_unknown (s : string) : string :=
  if bool_decide (s = "") then "unknown" else s.

Definition no_speech (t : TranscriptionResult) : bool :=
  bool_decide (ts_segments t = []) || blank (ts_text t).

(** The moments of a classification, as the charge policy takes them. *)
Definition charge_evidence (c : ModelClassification ReauditCategory) (recordedDurationMs : Z)
    : CategoryChargeEvidence :=
  {| ev_category := mc_category c;
     ev_recordedDurationMs := recordedDurationMs;
     lastCustomerExchangeMs := mc_lastMeaningfulCustomerExchangeMs c;
     lastAgentExchangeMs := mc_lastMeaningfulAgentExchangeMs c;
     firstAgentTurnEndMs := mc_firstAgentTurnEndMs c;
     lastVoicemailExchangeMs := mc_lastVoicemailExchangeMs c;
     lastBusinessRelevantCustomerExchangeMs := mc_lastBusinessRelevantCustomerExchangeMs c;
     lastVerifiedInteractionMs := mc_lastVerifiedInteractionMs c;
     agentFailureMode := mc_agentFailureMode c;
     ev_meaningfulServiceBeforeFailure :=
       Some (bool_decide (mc_meaningfulServiceBeforeFailure c = Some true));
     ev_failureStartMs := mc_failureStartMs c |}.

Definition silent_remarks : string :=
  "No detectable speech; no independently verified conversation.".

Section AuditTranscript.
Context (candidate : ReauditCandidate) (classify : Classifier) (transcript : TranscriptionResult)
        (sha256 : string) (reused : option string).

Let mismatch : bool := durationMismatch (rc_connectedDurationMs candidate) (ts_durationMs transcript).

(** The analysis of a recording without speech. *)
Definition silent_analysis : ReauditAnalysis :=
  let categoryCharge := resolveCategoryCharge (no_moments INACTIVE_CALL (ts_durationMs transcript)) in
  {| an_category := INACTIVE_CALL;
     an_confidence := "1.00000000";
     an_language := language_or_unknown (ts_language transcript);
     an_recordedDurationMs := ts_durationMs transcript;
     an_speechDurationMs := ts_speechMs transcript;
     an_conversationAssessment := no_meaningful_exchange;
     an_lastMeaningfulCustomerExchangeMs := None;
     customerSpeechMs := 0;
     agentSpeechMs := 0;
     chargeableServiceEndMs := dec_serviceEndMs categoryCharge;
     appliedBillingGraceMs := dec_graceMs categoryCharge;
     an_categoryChargePolicyCode := dec_policyCode categoryCharge;
     an_durationMismatch := mismatch;
     evidenceSha256 := sha256;
     an_remarks := silent_remarks;
     an_disputeRecommended :=
       0 <? match rc_connectedDurationMs candidate with
            | Some c => c
            | None => from_null 0 (rc_claimedDurationMs candidate)
            end |}.

(** Its classification: the absent fields are [None]. *)
Definition silent_classification : ModelClassification ReauditCategory :=
  {| mc_model := {| provider := "openai"; model_name := "deterministic-no-speech";
                    model_version := REAUDIT_ENGINE_VERSION |};
     mc_category := INACTIVE_CALL;
     mc_confidence := "1.00000000";
     customerBlockNumbers := [];
     unclearBlockNumbers := [];
     voicemailEvidenceBlockNumbers := None;
     automationEvidenceBlockNumbers := None;
     junkEvidenceBlockNumbers := None;
     businessRelevantCustomerBlockNumbers := None;
     customerSpoke := false;
     mc_lastMeaningfulCustomerExchangeMs := None;
     mc_lastMeaningfulAgentExchangeMs := None;
     mc_firstAgentTurnEndMs := None;
     mc_lastVoicemailExchangeMs := None;
     mc_lastBusinessRelevantCustomerExchangeMs := None;
     mc_lastVerifiedInteractionMs := None;
     agentBlockNumbers := Some [];
     agentFailureStartBlockNumber := None;
     mc_agentFailureMode := None;
     mc_meaningfulServiceBeforeFailure := None;
     mc_failureStartMs := None;
     mc_remarks := an_remarks silent_analysis;
     mc_disputeRecommended := an_disputeRecommended silent_analysis;
     decisionSignals := None;
     mc_usage := None |}.

(** The analysis of a classified conversation. *)
Definition spoken_analysis (blocks : list NaturalSpeechBlock)
    (c : ModelClassification ReauditCategory) : ReauditAnalysis :=
  let roleSpeech :=
    speechByRole blocks (customerBlockNumbers c) (from_null [] (agentBlockNumbers c)) in
  let categoryCharge := resolveCategoryCharge (charge_evidence c (ts_durationMs transcript)) in
  {| an_category := mc_category c;
     an_confidence := mc_confidence c;
     an_language := language_or_unknown (ts_language transcript);
     an_recordedDurationMs := ts_durationMs transcript;
     an_speechDurationMs := ts_speechMs transcript;
     an_conversationAssessment :=
       if customerSpoke c then established else no_meaningful_exchange;
     an_lastMeaningfulCustomerExchangeMs := mc_lastMeaningfulCustomerExchangeMs c;
     customerSpeechMs := roleSpeech.1;
     agentSpeechMs := roleSpeech.2;
     chargeableServiceEndMs := dec_serviceEndMs categoryCharge;
     appliedBillingGraceMs := dec_graceMs categoryCharge;
     an_categoryChargePolicyCode := dec_policyCode categoryCharge;
     an_durationMismatch := mismatch;
     evidenceSha256 := sha256;
     an_remarks := mc_remarks c;
     an_disputeRecommended := mc_disputeRecommended c |}.

(** The projected result of an analysis. *)
Definition projected_result (a : ReauditAnalysis) (c : ModelClassification ReauditCategory)
    : Prelude.result js_error ReauditItemResult :=
  p ← projectVerifiedCharge a;
  Ok {| callId := rc_callId candidate; artifactId := rc_artifactId candidate;
        outcome := projected; analysis := Some a; transcription := Some transcript;
        classification := Some c; projection := Some p;
        reusedTranscriptId :=
          match reused with
          | Some s => if bool_decide (s = "") then None else Some s
          | None => None
          end;
        errorCode := None |}.

Definition auditTranscriptEvidence : Prelude.result js_error ReauditItemResult :=
  if no_speech transcript then projected_result silent_analysis silent_classification
  else
    blocks ← mergeTranscriptSegments (ts_segments transcript);
    match classify {| cl_blocks := blocks;
                      cl_language := language_or_unknown (ts_language transcript);
                      cl_recordedDurationMs := ts_durationMs transcript;
                      cl_speechDurationMs := ts_speechMs transcript;
                      cl_connectedDurationMs := rc_connectedDurationMs candidate;
                      cl_durationMismatch := mismatch |} with
    | Throw error =>
        Ok (failed candidate classification_failed
              (from_option id "CLASSIFICATION_MODEL_FAILED" (providerFailureCode CLASSIFICATION error)))
    | Ok raw =>
        match validateOrRepair raw blocks (ts_durationMs transcript) mismatch with
        | None => Ok (failed candidate classification_failed "CLASSIFICATION_OUTPUT_UNRECOVERABLE")
        | Some c => projected_result (spoken_analysis blocks c) c
        end
    end.
End AuditTranscript.

(** ** Auditing a call *)

Record TranscriptCacheKey : Type := {
  ck_artifactId : string;
  ck_evidenceSha256 : string;
  ck_provider : string;
  ck_modelName : string;
  ck_modelVersion : string;
}.

Inductive FetchResult : Type :=
| FetchOk (bytes contentType : string)
| FetchFail (error : string).

(** The ports. A cache may be absent and reading it may reject; what writing it
    gives is ignored, so a write is only an event. *)
Class Ports : Type := {
  fetch : string → Prelude.result (option failure) FetchResult;
  transcriptionModel : ModelIdentity;
  transcribe : string → string → Prelude.result (option failure) TranscriptionResult;
  classify : Classifier;
  cacheRead : option (TranscriptCacheKey → Prelude.result (option failure) (option TranscriptionResult));
}.

(** The use of a port; [CacheWritten] is a write attempted. *)
Inductive event : Type :=
| Fetched (url : string)
| CacheRead (key : TranscriptCacheKey)
| Transcribed (bytes : string)
| CacheWritten (key : TranscriptCacheKey) (t : TranscriptionResult)
| Classified (t : TranscriptionResult).

(** What leaves the function when it throws: an error of its own, or the
    rejection of a port. *)
Inductive thrown : Type :=
| Raised (e : js_error)
| Rejected (e : option failure).

Section AuditCall.
Context `{Platform, UrlParser, Ports}.
Context (candidate : ReauditCandidate) (allowedHosts : list string).

Definition cache_key (sha256 : string) : TranscriptCacheKey :=
  {| ck_artifactId := rc_artifactId candidate;
     ck_evidenceSha256 := sha256;
     ck_provider := provider transcriptionModel;
     ck_modelName := model_name transcriptionModel;
     ck_modelVersion := model_version transcriptionModel |}.

(** The cached transcript, if there is a cache and it answers. *)
Definition cached (key : TranscriptCacheKey) : list event * option TranscriptionResult :=
  match cacheRead with
  | None => ([], None)
  | Some read => ([CacheRead key], match read key with Ok (Some t) => Some t | _ => None end)
  end.

Definition obtainTranscript (key : TranscriptCacheKey) (bytes contentType : string)
    : list event * (TranscriptionResult + option failure) :=
  let '(events, hit) := cached key in
  match hit with
  | Some t => (events, inl t)
  | None =>
      let contentType := if bool_decide (contentType = "") then "audio/ogg" else contentType in
      match transcribe bytes contentType with
      | Throw error => (events ++ [Transcribed bytes], inr error)
      | Ok t =>
          (events ++ [Transcribed bytes] ++
             match cacheRead with Some _ => [CacheWritten key t] | None => [] end, inl t)
      end
  end.

Definition auditTranscript (t : TranscriptionResult) (sha256 : string)
    : list event * Prelude.result thrown ReauditItemResult :=
  (match no_speech t, mergeTranscriptSegments (ts_segments t) with
   | false, Ok _ => [Classified t]
   | _, _ => []
   end,
   match auditTranscriptEvidence candidate classify t sha256 None with
   | Ok r => Ok r
   | Throw e => Throw (Raised e)
   end).

Definition auditOneCall : list event * Prelude.result thrown ReauditItemResult :=
  let safety := isSafeVendorUrl (sourceUrl candidate) allowedHosts in
  if negb (safe safety) then
    ([], Ok (failed candidate unsafe_url (from_option id "unsafe_url" (reason safety))))
  else
    match fetch (sourceUrl candidate) with
    | Throw e => ([Fetched (sourceUrl candidate)], Throw (Rejected e))
    | Ok (FetchFail error) =>
        ([Fetched (sourceUrl candidate)], Ok (failed candidate source_missing error))
    | Ok (FetchOk bytes contentType) =>
        let sha256 := sha256Hex bytes in
        let altered :=
          match baselineSha256 candidate with
          | None => false
          | Some b => negb (bool_decide (b = "")) && negb (bool_decide (b = sha256))
          end in
        if altered then
          ([Fetched (sourceUrl candidate)], Ok (failed candidate evidence_altered "sha256_mismatch"))
        else
          let '(events, transcript) := obtainTranscript (cache_key sha256) bytes contentType in
          match transcript with
          | inr error =>
              (Fetched (sourceUrl candidate) :: events,
               Ok (failed candidate transcription_failed
                     (from_option id "TRANSCRIPTION_FAILED" (providerFailureCode TRANSCRIPTION error))))
          | inl t =>
              let '(events', r) := auditTranscript t sha256 in
              (Fetched (sourceUrl candidate) :: events ++ events', r)
          end
    end.
End AuditCall.

(** ** Facts *)

Section ChargeFacts.
Context (a : ReauditAnalysis) (e : CategoryChargeEvidence).
Hypothesis He : 0 ≤ ev_recordedDurationMs e ≤ MAX_SAFE_INTEGER - 60000.
Hypothesis Hrec : an_recordedDurationMs a = ev_recordedDurationMs e.
Hypothesis Hend : chargeableServiceEndMs a = dec_serviceEndMs (resolveCategoryCharge e).
Hypothesis Hgrace : appliedBillingGraceMs a = dec_graceMs (resolveCategoryCharge e).

(** Projecting an analysis prices what the policy charges. *)
Lemma projectVerifiedCharge_policy :
  projectVerifiedCharge a = Ok {|
    rp_amount := amount (charge_of (half_minutes (policy_charge e)));
    rp_amountPaise := 475 * half_minutes (policy_charge e);
    rp_billableMinutes := fixed8FromHalfMinutes (half_minutes (policy_charge e));
    rp_billableDurationMs := 30000 * half_minutes (policy_charge e);
    rp_adjustedChargeableDurationMs := policy_charge e;
    oneWayTailMs := ev_recordedDurationMs e - policy_charge e;
    oneWayTailAlert := 60000 <? ev_recordedDurationMs e - policy_charge e;
    rp_categoryChargePolicyCode := an_categoryChargePolicyCode a;
    rp_ruleCode := rule_of (half_minutes (policy_charge e)) |} ∧
  0 ≤ policy_charge e ≤ ev_recordedDurationMs e.
Proof using He Hrec Hend Hgrace.
  assert (recorded_ok e) as Hok by (unfold recorded_ok; lia).
  destruct (resolve_bounds e Hok) as (Hs & Hg & Hadj). rewrite (resolve_charge e Hok) in Hadj.
  assert (Z.min (an_recordedDurationMs a)
            (num_add (chargeableServiceEndMs a) (appliedBillingGraceMs a)) = policy_charge e) as E.
  { rewrite Hrec, Hend, Hgrace, min_num_add, Hadj by lia. lia. }
  assert (0 ≤ policy_charge e ≤ ev_recordedDurationMs e) as Hb by lia.
  split; [|done]. unfold projectVerifiedCharge. rewrite E, Hrec.
  rewrite round_spec, chargeForHalfMinutes_spec by (apply half_minutes_bounds || idtac; lia).
  pose proof (half_minutes_bounds (policy_charge e) ltac:(lia)).
  rewrite (proj2 (Z.leb_le (30000 * half_minutes (policy_charge e)) MAX_SAFE_INTEGER)) by lia.
  cbn [mbind result_bind charge_of amount amountPaise billableMinutes billableDurationMs ruleCode].
  rewrite Z.max_r by lia. reflexivity.
Qed.
End ChargeFacts.

Lemma speech_projection candidate transcript sha256 blocks c :
  0 ≤ ts_durationMs transcript ≤ MAX_SAFE_INTEGER - 60000 →
  let e := charge_evidence c (ts_durationMs transcript) in
  ∃ p, projectVerifiedCharge (spoken_analysis candidate transcript sha256 blocks c) = Ok p ∧
    rp_adjustedChargeableDurationMs p = policy_charge e ∧
    rp_amountPaise p = 475 * half_minutes (policy_charge e) ∧
    rp_amount p = amount (charge_of (half_minutes (policy_charge e))) ∧
    oneWayTailMs p = ts_durationMs transcript - policy_charge e ∧
    oneWayTailAlert p = (60000 <? ts_durationMs transcript - policy_charge e) ∧
    0 ≤ policy_charge e ≤ ts_durationMs transcript.
Proof.
  intros Hd e. eexists.
  destruct (projectVerifiedCharge_policy (spoken_analysis candidate transcript sha256 blocks c) e)
    as [-> Hb]; try done.
Qed.

Lemma silent_projection candidate transcript sha256 :
  0 ≤ ts_durationMs transcript ≤ MAX_SAFE_INTEGER - 60000 →
  let e := no_moments INACTIVE_CALL (ts_durationMs transcript) in
  ∃ p, projectVerifiedCharge (silent_analysis candidate transcript sha256) = Ok p ∧
    rp_adjustedChargeableDurationMs p = policy_charge e ∧
    rp_amountPaise p = 475 * half_minutes (policy_charge e) ∧
    rp_amount p = amount (charge_of (half_minutes (policy_charge e))) ∧
    oneWayTailMs p = ts_durationMs transcript - policy_charge e ∧
    oneWayTailAlert p = (60000 <? ts_durationMs transcript - policy_charge e) ∧
    0 ≤ policy_charge e ≤ ts_durationMs transcript.
Proof.
  intros Hd e. eexists.
  destruct (projectVerifiedCharge_policy (silent_analysis candidate transcript sha256) e)
    as [-> Hb]; try done.
Qed.

(** ** Properties *)


Section CallFacts.
Context `{Platform, UrlParser, Ports}.
Context (candidate : ReauditCandidate) (allowedHosts : list string).

(** The baseline, when there is one, is the hash of the bytes. *)
Definition unaltered (sha256 : string) : Prop :=
  baselineSha256 candidate = None ∨ baselineSha256 candidate = Some "" ∨
  baselineSha256 candidate = Some sha256.

(** The events a run may have once it holds unaltered bytes. *)
Inductive trail (bytes contentType : string) : list event → Prop :=
| trail_hit read t es :
    cacheRead = Some read → read (cache_key candidate (sha256Hex bytes)) = Ok (Some t) →
    es = [] ∨ es = [Classified t] →
    trail bytes contentType (CacheRead (cache_key candidate (sha256Hex bytes)) :: es)
| trail_no_cache t es :
    cacheRead = None → transcribe bytes contentType = Ok t →
    es = [] ∨ es = [Classified t] →
    trail bytes contentType (Transcribed bytes :: es)
| trail_miss read t es :
    cacheRead = Some read →
    (∀ t', read (cache_key candidate (sha256Hex bytes)) ≠ Ok (Some t')) →
    transcribe bytes contentType = Ok t →
    es = [] ∨ es = [Classified t] →
    trail bytes contentType (CacheRead (cache_key candidate (sha256Hex bytes)) :: Transcribed bytes ::
      CacheWritten (cache_key candidate (sha256Hex bytes)) t :: es)
| trail_failed es error :
    transcribe bytes contentType = Throw error →
    es = [] ∨ es = [CacheRead (cache_key candidate (sha256Hex bytes))] →
    trail bytes contentType (es ++ [Transcribed bytes]).

Definition audio_type (contentType : string) : string :=
  if bool_decide (contentType = "") then "audio/ogg" else contentType.

Lemma auditTranscript_events t sha256 :
  (auditTranscript candidate t sha256).1 = [] ∨ (auditTranscript candidate t sha256).1 = [Classified t].
Proof. unfold auditTranscript. cbn. destruct (no_speech t); [by left|]. case_match; tauto. Qed.

Lemma obtain_trail bytes contentType :
  let key := cache_key candidate (sha256Hex bytes) in
  match obtainTranscript key bytes contentType with
  | (es, inl t) =>
      ∀ es', es' = [] ∨ es' = [Classified t] → trail bytes (audio_type contentType) (es ++ es')
  | (es, inr error) => trail bytes (audio_type contentType) es
  end.
Proof.
  intros key. unfold obtainTranscript, cached. fold (audio_type contentType).
  destruct cacheRead as [read|] eqn:Ec.
  - destruct (read key) as [[t|]|] eqn:Er.
    + intros es' He. by eapply trail_hit.
    + destruct (transcribe _ _) as [t|e] eqn:Et.
      * intros es' He. eapply trail_miss; try done. intros t' E. unfold key in *. congruence.
      * eapply trail_failed; [done|]. by right.
    + destruct (transcribe _ _) as [t|e'] eqn:Et.
      * intros es' He. eapply trail_miss; try done. intros t' E. unfold key in *. congruence.
      * eapply trail_failed; [done|]. by right.
  - destruct (transcribe _ _) as [t|e] eqn:Et.
    + intros es' He. by eapply trail_no_cache.
    + eapply (trail_failed _ _ []); [done|]. by left.
Qed.
End CallFacts.

(** C5: auditing a call uses its ports only in the safe order. An unsafe URL is
    never fetched. After the fetch nothing more happens unless the bytes arrived
    and match the baseline hash, if the call has one; altered evidence is reported
    as such. From there a run reads the cache under the key of those very bytes,
    transcribes at most once and only on a miss, writes a fresh transcript to the
    cache before classification, and classifies at most once, the transcript the
    cache or the model gave for these bytes. *)
Theorem auditOneCall_order `{Platform, UrlParser, Ports} candidate allowedHosts :
  let url := sourceUrl candidate in
  let '(events, r) := auditOneCall candidate allowedHosts in
  if safe (isSafeVendorUrl url allowedHosts) then
    ∃ es, events = Fetched url :: es ∧
      (es = [] ∨ ∃ bytes contentType, fetch url = Ok (FetchOk bytes contentType) ∧
         unaltered candidate (sha256Hex bytes) ∧ trail candidate bytes (audio_type contentType) es) ∧
      (∀ bytes contentType, fetch url = Ok (FetchOk bytes contentType) →
         (es = [] ↔ ¬ unaltered candidate (sha256Hex bytes)) ∧
         (es = [] → r = Ok (failed candidate evidence_altered "sha256_mismatch")))
  else events = [] ∧ ∃ code, r = Ok (failed candidate unsafe_url code).
Proof.
  intros url. unfold auditOneCall. fold url.
  destruct (safe (isSafeVendorUrl url allowedHosts)); cbn [negb]; [|by eauto].
  destruct (fetch url) as [[bytes contentType|error]|error] eqn:Ef.
  2, 3: exists []; split; [done|]; split; [by left|done].
  assert (Ha : match baselineSha256 candidate with
               | None => false
               | Some b => negb (bool_decide (b = "")) && negb (bool_decide (b = sha256Hex bytes))
               end = false ↔ unaltered candidate (sha256Hex bytes)).
  { unfold unaltered. destruct (baselineSha256 candidate) as [b|]; [|naive_solver].
    rewrite andb_false_iff, !negb_false_iff, !bool_decide_eq_true. naive_solver. }
  destruct (match baselineSha256 candidate with None => false | Some b => _ end) eqn:Eb.
  { exists []. split; [done|]. split; [by left|]. intros b c [= -> ->]. split; [|done].
    split; [intros _ Hu; by apply Ha in Hu|done]. }
  assert (unaltered candidate (sha256Hex bytes)) as Hu by by apply Ha.
  assert (Hne : ∀ es, trail candidate bytes (audio_type contentType) es → es ≠ []).
  { intros es Ht. destruct Ht; try done. by destruct es. }
  pose proof (obtain_trail candidate bytes contentType) as Ho. cbv zeta in Ho.
  destruct (obtainTranscript _ _ _) as [es [t|error]].
  - destruct (auditTranscript candidate t (sha256Hex bytes)) as [es' r] eqn:Et.
    assert (trail candidate bytes (audio_type contentType) (es ++ es')) as Ht.
    { apply Ho. pose proof (auditTranscript_events candidate t (sha256Hex bytes)) as He.
      by rewrite Et in He. }
    exists (es ++ es'). split; [done|]. split; [right; eauto|].
    intros b c [= <- <-]. specialize (Hne _ Ht). by split.
  - exists es. split; [done|]. split; [right; eauto|].
    intros b c [= <- <-]. specialize (Hne _ Ho). by split.
Qed.

(** The same ports without a cache. *)
Definition without_cache (P : Ports) : Ports :=
  {| fetch := @fetch P; transcriptionModel := @transcriptionModel P; transcribe := @transcribe P;
     classify := @classify P; cacheRead := None |}.

(** a cache cannot change an audit. If every transcript the cache gives for
    some bytes is the one the model would give, then the result is the one of the
    same call without a cache, whatever else the cache does: rejecting a read is a
    miss, and what happens to a write has no effect. *)
Theorem auditOneCall_cache_transparent `{Platform, UrlParser} (P : Ports) candidate allowedHosts
    (Hc : ∀ read bytes contentType t, @cacheRead P = Some read →
       read (cache_key candidate (sha256Hex bytes)) = Ok (Some t) →
       @transcribe P bytes contentType = Ok t) :
  (auditOneCall candidate allowedHosts).2 =
  (@auditOneCall _ _ (without_cache P) candidate allowedHosts).2.
Proof.
  unfold auditOneCall. cbn [fetch without_cache].
  destruct (safe _); cbn [negb]; [|done].
  destruct (fetch _) as [[bytes contentType|error]|error]; [|done..].
  destruct (match baselineSha256 candidate with None => false | Some b => _ end); [done|].
  assert (Ho : (obtainTranscript (cache_key candidate (sha256Hex bytes)) bytes contentType).2 =
    (@obtainTranscript (without_cache P) (cache_key candidate (sha256Hex bytes)) bytes contentType).2).
  { unfold obtainTranscript, cached. cbn [cacheRead transcribe without_cache].
    destruct (@cacheRead P) as [read|] eqn:Er; [|by destruct (transcribe _ _)].
    destruct (read _) as [[t|]|e] eqn:Et; [|by destruct (transcribe _ _)..].
    rewrite (Hc read bytes _ t eq_refl Et). done. }
  change (@cache_key (without_cache P)) with (@cache_key P).
  destruct (obtainTranscript _ _ _) as [es tr].
  destruct (@obtainTranscript (without_cache P) _ _ _) as [es' tr']. cbn [snd] in Ho. subst tr'.
  destruct tr as [t|error]; [|done].
  change (@auditTranscript (without_cache P)) with (@auditTranscript P).
  by destruct (auditTranscript _ _ _).
Qed.

(** ** A concrete run *)

Module DemoCall.
Definition transcript : TranscriptionResult := {|
  ts_model := {| provider := "openai"; model_name := "t"; model_version := "1" |};
  ts_language := "en"; ts_durationMs := 9000; ts_speechMs := 7700; ts_text := "Hello ...";
  ts_segments := demo_segments; ts_usage := None |}.

Definition silence : TranscriptionResult := {|
  ts_model := {| provider := "openai"; model_name := "t"; model_version := "1" |};
  ts_language := ""; ts_durationMs := 9000; ts_speechMs := 0; ts_text := " ";
  ts_segments := demo_segments; ts_usage := None |}.

Definition candidate : ReauditCandidate := {|
  rc_callId := "c"; rc_artifactId := "a"; sourceUrl := "https://kserve.example/a.ogg";
  baselineSha256 := None; rc_claimedDurationMs := Some 9000; rc_connectedDurationMs := Some 9000;
  vendorBilledMinutes := None |}.

Definition model : Classifier := fun _ => Ok (Demo.raw "OK" "0.9" [2] [1; 3] []).

Definition ports : Ports := {|
  fetch := fun _ => Ok (FetchOk "audio" "audio/ogg");
  transcriptionModel := {| provider := "openai"; model_name := "t"; model_version := "1" |};
  transcribe := fun _ _ => Ok transcript;
  classify := model;
  cacheRead := Some (fun _ => Throw None) |}.

Definition summary (r : Prelude.result js_error ReauditItemResult)
    : option (option ReauditCategory * option Z * option string) :=
  match r with
  | Ok r => Some (an_category <$> analysis r, rp_adjustedChargeableDurationMs <$> projection r,
                  rp_amount <$> projection r)
  | Throw _ => None
  end.

Example priced :
  summary (auditTranscriptEvidence candidate model transcript "h" None) =
  Some (Some CONNECT_NOT_FRUITFUL, Some 9000, Some "4.75000000").
Proof. vm_compute. reflexivity. Qed.

Lemma segments_ok : Forall segment_ok demo_segments.
Proof.
  apply (proj1 (merge_loop_valid demo_segments None [])). exists demo_blocks. vm_compute. reflexivity.
Qed.
End DemoCall.


Lemma auditOneCall_cache_transparent_witness :
  (@auditOneCall demo_platform demo_parser DemoCall.ports DemoCall.candidate ["kserve.example"]).2 =
  (@auditOneCall demo_platform demo_parser (without_cache DemoCall.ports) DemoCall.candidate
    ["kserve.example"]).2.
Proof.
  apply (@auditOneCall_cache_transparent demo_platform demo_parser DemoCall.ports).
  intros read bytes contentType t [= <-]. discriminate.
Defined.

Example demo_trail :
  map (fun e => match e with Fetched _ => 1 | CacheRead _ => 2 | Transcribed _ => 3
                           | CacheWritten _ _ => 4 | Classified _ => 5 end)
    (@auditOneCall demo_platform demo_parser DemoCall.ports DemoCall.candidate ["kserve.example"]).1 =
  [1; 2; 3; 4; 5].
Proof. vm_compute. reflexivity. Qed.
