(* ===== verification/Persisted.v ===== *)
(** * The persisted audit

    [src/adapters/mysqlReauditWriteRepo.ts] stores an audit's facts as JSON
    columns, and [src/adapters/mysqlAutomatedValidation.ts] reads them back to
    rebuild the primary classification the consensus prices. The database is the
    identity on the values stored: the SQL around them is not modelled. *)

From S2P Require Import Prelude JsNumber JsText CanonicalJson KserveRules ReauditTypes CategoryPolicy VerifiedCharge Transcript Classification ReauditAudit.

Local Open Scope string_scope.
Local Open Scope list_scope.
#[global] Open Scope Z_scope.

Definition REAUDIT_CLASSIFIER_RULESET_VERSION : string := "kairali-12cat/2.12.0".

(** The digest of the classifier's prompt and schema. *)
Class ClassifierRuleset : Type := { REAUDIT_CLASSIFIER_RULESET_SHA256 : string }.

(** ** Writing *)

(** [value ?? null] *)
Definition or_null (v : option json) : json := match v with Some j => j | None => JNull end.

Definition jints (l : list Z) : json := JArr (map jint l).

Definition decisionSignalsJson (signals : option ClassificationDecisionSignals) : json :=
  match signals with
  | None => JNull
  | Some s => JObj [
      ("counterpartyType", or_null (counterpartyType s));
      ("agentHandling", or_null (agentHandling s));
      ("conversationOutcome", or_null (conversationOutcome s));
      ("durationOutcome", or_null (durationOutcome s));
      ("stopIntent", or_null (stopIntent s));
      ("postStopBehavior", or_null (postStopBehavior s));
      ("successfulOutcome", or_null (successfulOutcome s));
      ("voicemailEvidence", or_null (voicemailEvidence s));
      ("automationEvidence", or_null (automationEvidence s));
      ("junkEvidence", or_null (junkEvidence s));
      ("agentFailureMode", or_null (sg_agentFailureMode s));
      ("meaningfulServiceBeforeFailure", or_null (sg_meaningfulServiceBeforeFailure s))]
  end.

Section Write.
Context `{Platform, ClassifierRuleset}.
Context (a : ReauditAnalysis) (c : ModelClassification ReauditCategory).

(** [metrics_json] of the media analysis. *)
Definition metrics_json : list (string * json) := [
  ("durationMismatch", JBool (an_durationMismatch a));
  ("disputeRecommended", JBool (an_disputeRecommended a));
  ("classifierRulesetVersion", JStr REAUDIT_CLASSIFIER_RULESET_VERSION);
  ("classifierRulesetSha256", JStr REAUDIT_CLASSIFIER_RULESET_SHA256);
  ("categoryChargePolicyVersion", JStr CATEGORY_CHARGE_POLICY_VERSION);
  ("categoryChargePolicySha256", JStr CATEGORY_CHARGE_POLICY_SHA256);
  ("categoryChargePolicyCode", JStr (policyCode_text (an_categoryChargePolicyCode a)));
  ("chargeableServiceEndMs", jint (chargeableServiceEndMs a));
  ("appliedBillingGraceMs", jint (appliedBillingGraceMs a));
  ("agentBlockNumbers", jints (from_null [] (agentBlockNumbers c)));
  ("agentFailureMode", jstr_opt (failureMode_text <$> mc_agentFailureMode c));
  ("meaningfulServiceBeforeFailure",
    JBool (bool_decide (mc_meaningfulServiceBeforeFailure c = Some true)));
  ("failureStartMs", jint_opt (mc_failureStartMs c));
  ("agentFailureStartBlockNumber", jint_opt (agentFailureStartBlockNumber c))].

(** [signal_values_json] of the audit finding. *)
Definition signal_values_json : list (string * json) := [
  ("model", model_json (mc_model c));
  ("rulesetVersion", JStr REAUDIT_CLASSIFIER_RULESET_VERSION);
  ("rulesetSha256", JStr REAUDIT_CLASSIFIER_RULESET_SHA256);
  ("decisionSignals", decisionSignalsJson (decisionSignals c));
  ("customerBlockNumbers", jints (customerBlockNumbers c));
  ("unclearBlockNumbers", jints (unclearBlockNumbers c));
  ("voicemailEvidenceBlockNumbers", jints (from_null [] (voicemailEvidenceBlockNumbers c)));
  ("automationEvidenceBlockNumbers", jints (from_null [] (automationEvidenceBlockNumbers c)));
  ("junkEvidenceBlockNumbers", jints (from_null [] (junkEvidenceBlockNumbers c)));
  ("agentBlockNumbers", jints (from_null [] (agentBlockNumbers c)));
  ("agentFailureMode", jstr_opt (failureMode_text <$> mc_agentFailureMode c));
  ("meaningfulServiceBeforeFailure",
    JBool (bool_decide (mc_meaningfulServiceBeforeFailure c = Some true)));
  ("failureStartMs", jint_opt (mc_failureStartMs c));
  ("agentFailureStartBlockNumber", jint_opt (agentFailureStartBlockNumber c));
  ("recordedDurationMs", jint (an_recordedDurationMs a));
  ("speechDurationMs", jint (an_speechDurationMs a));
  ("conversationEndMs", jint_opt (an_lastMeaningfulCustomerExchangeMs a));
  ("chargeableServiceEndMs", jint (chargeableServiceEndMs a));
  ("appliedBillingGraceMs", jint (appliedBillingGraceMs a));
  ("categoryChargePolicyVersion", JStr CATEGORY_CHARGE_POLICY_VERSION);
  ("categoryChargePolicySha256", JStr CATEGORY_CHARGE_POLICY_SHA256);
  ("categoryChargePolicyCode", JStr (policyCode_text (an_categoryChargePolicyCode a)));
  ("durationMismatch", JBool (an_durationMismatch a));
  ("disputeRecommended", JBool (an_disputeRecommended a))].
End Write.

(** ** Reading *)

Definition field (o : list (string * json)) (key : string) : option json :=
  snd <$> List.find (fun e => bool_decide (e.1 = key)) o.

(** [Number(value)] of a value read from a JSON column, [None] for NaN. Of the
    texts only decimal integers are read as numbers, and of the arrays only the
    empty one: the columns hold neither. *)
Definition to_number (v : option json) : option Z :=
  match v with
  | None => None
  | Some JNull => Some 0
  | Some (JBool b) => Some (if b then 1 else 0)
  | Some (JNum n) => n
  | Some (JStr s) =>
      if blank s then Some 0
      else match split_decimal (trim s) with
           | Some (w, None) => Some (dec_value w)
           | _ => None
           end
  | Some (JArr []) => Some 0
  | Some _ => None
  end.

Definition optionalMs (v : option json) : option Z :=
  match to_number v with
  | Some z => if isSafeInteger z && (0 <=? z) then Some z else None
  | None => None
  end.

Definition blockNumbers (v : option json) : list Z :=
  match v with
  | Some (JArr items) =>
      omap (fun item => match item with
                        | JNum (Some z) => if isSafeInteger z then Some z else None
                        | _ => None
                        end) items
  | _ => []
  end.

Definition default_model : ModelIdentity :=
  {| provider := "openai"; model_name := "gpt-4o-mini-2024-07-18";
     model_version := "gpt-4o-mini-2024-07-18" |}.

Definition primaryModelReference (signals : list (string * json)) : ModelIdentity :=
  match field signals "model" with
  | Some (JObj model) =>
      let text key := match field model key with Some (JStr s) => s | _ => "" end in
      if is_text (field model "provider") "openai" && negb (bool_decide (text "name" = "")) &&
         negb (bool_decide (text "version" = ""))
      then {| provider := "openai"; model_name := text "name"; model_version := text "version" |}
      else default_model
  | _ => default_model
  end.

Definition persistedAgentFailureFacts (category : ReauditCategory)
    (metrics signals : list (string * json)) (segments : list TranscriptSegment)
    (recordedDurationMs : Z) : AgentFailureEvidence :=
  if negb (bool_decide (category = AGENT_FAILURE)) then failure_none
  else if negb (is_text (field metrics "agentFailureMode") "mid_conversation") ||
          negb match field metrics "meaningfulServiceBeforeFailure" with
               | Some (JBool true) => true | _ => false
               end ||
          negb (is_text (field metrics "categoryChargePolicyCode")
                  "AGENT_FAILURE_MID_CONVERSATION_PLUS_30S")
  then failedFromStart
  else
    match mergeTranscriptSegments segments with
    | Throw _ => failedFromStart
    | Ok blocks =>
        let derived :=
          resolveAgentFailureEvidence blocks
            (blockNumbers (field signals "customerBlockNumbers"))
            (blockNumbers (field metrics "agentBlockNumbers"))
            recordedDurationMs AGENT_FAILURE (Some "mid_conversation")
            (optionalMs (field metrics "agentFailureStartBlockNumber")) in
        match fe_mode derived, fe_failureStartMs derived with
        | Some mode_mid_conversation, Some f =>
            if bool_decide (optionalMs (field metrics "failureStartMs") = Some f) &&
               bool_decide (optionalMs (field metrics "chargeableServiceEndMs") = Some f)
            then midConversation f (fe_blockNumber derived)
            else failedFromStart
        | _, _ => failedFromStart
        end
    end.

(** The primary classification of a stored audit. *)
Definition persistedPrimary (category : ReauditCategory) (confidence : string)
    (conversation_end_ms : option Z) (metrics signals : list (string * json))
    (segments : list TranscriptSegment) (recordedDurationMs : Z)
    : Prelude.result js_error (ModelClassification ReauditCategory) :=
  let serviceEndMs := optionalMs (field metrics "chargeableServiceEndMs") in
  let only (c : ReauditCategory) := if bool_decide (category = c) then serviceEndMs else None in
  let agentBlockNumbers := blockNumbers (field metrics "agentBlockNumbers") in
  blocks ← mergeTranscriptSegments segments;
  let facts := persistedAgentFailureFacts category metrics signals segments recordedDurationMs in
  Ok {| mc_model := primaryModelReference signals;
        mc_category := category;
        mc_confidence := confidence;
        customerBlockNumbers := [];
        unclearBlockNumbers := [];
        voicemailEvidenceBlockNumbers := None;
        automationEvidenceBlockNumbers := None;
        junkEvidenceBlockNumbers := None;
        businessRelevantCustomerBlockNumbers := None;
        customerSpoke := present conversation_end_ms;
        mc_lastMeaningfulCustomerExchangeMs := conversation_end_ms;
        mc_lastMeaningfulAgentExchangeMs := only USER_SILENCE;
        mc_firstAgentTurnEndMs := firstAgentTurnEnd blocks agentBlockNumbers recordedDurationMs;
        mc_lastVoicemailExchangeMs := only VOICEMAIL;
        mc_lastBusinessRelevantCustomerExchangeMs := only JUNK_CALL;
        mc_lastVerifiedInteractionMs := only INCORRECT_CALL_DURATION;
        agentBlockNumbers := Some agentBlockNumbers;
        agentFailureStartBlockNumber := fe_blockNumber facts;
        mc_agentFailureMode := fe_mode facts;
        mc_meaningfulServiceBeforeFailure := Some (fe_meaningfulServiceBeforeFailure facts);
        mc_failureStartMs := fe_failureStartMs facts;
        mc_remarks := "";
        mc_disputeRecommended := false;
        decisionSignals := None;
        mc_usage := None |}.

(** ** Facts *)

Lemma optionalMs_jint z : 0 ≤ z ≤ MAX_SAFE_INTEGER → optionalMs (Some (jint z)) = Some z.
Proof.
  intros Hz. unfold optionalMs. cbn.
  rewrite (proj2 (isSafeInteger_spec z)), (proj2 (Z.leb_le 0 z)) by lia. done.
Qed.

Lemma blockNumbers_jints l :
  (∀ n, n ∈ l → 1 ≤ n ≤ MAX_SAFE_INTEGER) → blockNumbers (Some (jints l)) = l.
Proof.
  intros Hl. unfold blockNumbers, jints. induction l as [|x l IH]; [done|]. cbn.
  assert (isSafeInteger x = true) as ->.
  { specialize (Hl x ltac:(left)). apply isSafeInteger_spec. lia. }
  cbn. f_equal. apply IH. intros n Hn. apply Hl. by right.
Qed.

Lemma proposedFailure_zero blocks customers agents recorded :
  proposedFailure blocks customers agents recorded (Some 0) =
  proposedFailure blocks customers agents recorded None.
Proof. done. Qed.

(** A chargeable decision, its boundary block proposed back, is the same. *)
Lemma resolved_reproposed blocks (Ho : in_order blocks) customers agents recorded mode n f k :
  resolveAgentFailureEvidence blocks customers agents recorded AGENT_FAILURE mode n =
    midConversation f k →
  proposedFailure blocks customers agents recorded k = Some (midConversation f k).
Proof.
  unfold resolveAgentFailureEvidence. rewrite bool_decide_true by done. cbn [negb].
  destruct (if bool_decide (mode = _) then _ else None) as [e|] eqn:He.
  - intros ->. case_bool_decide; [|done]. by apply (proposed_reproposed blocks Ho) in He.
  - by apply derived_reproposed.
Qed.

Section Reload.
Context `{Platform, ClassifierRuleset}.
Context (segments : list TranscriptSegment) (blocks : list NaturalSpeechBlock) (recorded : Z).
Context (raw : ModelClassification string) (dm : bool) (c : ModelClassification ReauditCategory).
Context (candidate : ReauditCandidate) (transcript : TranscriptionResult) (sha256 : string).
Hypothesis Hmerge : mergeTranscriptSegments segments = Ok blocks.
Hypothesis Hvalid : validateClassification raw blocks recorded dm = Ok c.
Hypothesis Hrecorded : ts_durationMs transcript = recorded.
Hypothesis Hbound : 0 ≤ recorded ≤ MAX_SAFE_INTEGER.
Hypothesis Hlength : Z.of_nat (length blocks) ≤ MAX_SAFE_INTEGER.
Hypothesis Hordered : in_order blocks.

Notation a := (spoken_analysis candidate transcript sha256 blocks c).
Notation e := (charge_evidence c recorded).
Notation facts := (persistedAgentFailureFacts (mc_category c) (metrics_json a c)
  (signal_values_json a c) segments recorded).

Lemma stored_numbers :
  blockNumbers (field (metrics_json a c) "agentBlockNumbers") = from_null [] (agentBlockNumbers c) ∧
  blockNumbers (field (signal_values_json a c) "customerBlockNumbers") = customerBlockNumbers c.
Proof using Hvalid Hlength.
  destruct (validateClassification_inv _ _ _ _ _ Hvalid)
    as (proposed & category & _ & _ & _ & _ & _ & _ & _ & _ & _ & ->).
  split; apply blockNumbers_jints; cbn; intros n Hn;
    unfold agents, customers in Hn; rewrite ?list_elem_of_filter, normalizeBlocks_range in Hn; lia.
Qed.

Lemma stored_service_end :
  optionalMs (field (metrics_json a c) "chargeableServiceEndMs") =
    Some (dec_serviceEndMs (resolveCategoryCharge e)).
Proof using Hrecorded Hbound.
  cbn [field]. change (field (metrics_json a c) "chargeableServiceEndMs") with
    (Some (jint (chargeableServiceEndMs a))).
  cbn [spoken_analysis chargeableServiceEndMs]. rewrite Hrecorded. apply optionalMs_jint.
  destruct (resolve_bounds e) as (Hs & _); [done|]. cbn in Hs. lia.
Qed.

(** The reader recovers the failure facts of an accepted classification. *)
Lemma stored_failure :
  mc_category c = AGENT_FAILURE →
  fe_mode facts = mc_agentFailureMode c ∧ fe_failureStartMs facts = mc_failureStartMs c ∧
  Some (fe_meaningfulServiceBeforeFailure facts) = mc_meaningfulServiceBeforeFailure c.
Proof using Hmerge Hvalid Hrecorded Hbound Hlength Hordered.
  intros Hc. pose proof stored_numbers as [Hn1 Hn2]. pose proof stored_service_end as Hse.
  destruct (validateClassification_inv _ _ _ _ _ Hvalid)
    as (proposed & category & _ & _ & _ & _ & _ & _ & _ & _ & _ & Ec).
  assert (category = AGENT_FAILURE) as -> by by rewrite Ec in Hc.
  pose proof (failure_shapes blocks (customers raw blocks) (agents raw blocks) recorded AGENT_FAILURE
    (match validatedSignals raw blocks with Some d => text_of (sg_agentFailureMode d) | None => None end)
    (agentFailureStartBlockNumber raw)) as Hshape. cbv zeta in Hshape.
  fold (failureEvidence raw blocks recorded AGENT_FAILURE) in Hshape.
  unfold persistedAgentFailureFacts. rewrite Hc, bool_decide_true, Hmerge, Hn1, Hn2, Hse by done.
  change (field (metrics_json a c) "agentFailureMode") with
    (Some (jstr_opt (failureMode_text <$> mc_agentFailureMode c))).
  change (field (metrics_json a c) "meaningfulServiceBeforeFailure") with
    (Some (JBool (bool_decide (mc_meaningfulServiceBeforeFailure c = Some true)))).
  change (field (metrics_json a c) "categoryChargePolicyCode") with
    (Some (JStr (policyCode_text (an_categoryChargePolicyCode a)))).
  change (field (metrics_json a c) "failureStartMs") with (Some (jint_opt (mc_failureStartMs c))).
  change (field (metrics_json a c) "agentFailureStartBlockNumber") with
    (Some (jint_opt (agentFailureStartBlockNumber c))).
  cbn [negb orb].
  destruct Hshape as [[_ Hx]|[[E _]|(f & k & E & _ & Hf & Hb & Hs)]]; [done| |].
  { rewrite Ec. cbn. by rewrite E. }
  assert (mc_agentFailureMode c = Some mode_mid_conversation ∧ mc_failureStartMs c = Some f ∧
    mc_meaningfulServiceBeforeFailure c = Some true ∧ agentFailureStartBlockNumber c = k)
    as (M1 & M2 & M3 & M4) by (rewrite Ec; cbn; by rewrite E).
  rewrite M1, M2, M3, M4. cbn [fmap option_fmap option_map jstr_opt failureMode_text jint_opt].
  rewrite (bool_decide_true (Some true = Some true)) by done. cbn [is_text].
  rewrite (bool_decide_true ("mid_conversation" = "mid_conversation")) by done. cbn [negb orb].
  assert (Hfs := Hs). apply servedBefore_true in Hfs as (Hpos & _).
  assert (Hch : failure_chargeable e = true).
  { unfold failure_chargeable. cbn [agentFailureMode ev_meaningfulServiceBeforeFailure ev_failureStartMs
      ev_recordedDurationMs charge_evidence]. rewrite M1, M2, M3, !bool_decide_true by done. cbn [andb].
    rewrite (proj2 (isSafeInteger_spec f)), (proj2 (Z.ltb_lt 0 f)), (proj2 (Z.leb_le f recorded)) by lia.
    done. }
  assert (resolveCategoryCharge e = decision e AGENT_FAILURE_MID_CONVERSATION_PLUS_30S (Some f) 30000)
    as Hd.
  { unfold resolveCategoryCharge. cbn [ev_category charge_evidence]. rewrite Hc, Hch. cbn [negb].
    cbn [ev_failureStartMs charge_evidence]. by rewrite M2. }
  cbn [an_categoryChargePolicyCode spoken_analysis]. rewrite Hrecorded, Hd.
  cbn [dec_policyCode dec_serviceEndMs decision boundedEnd policyCode_text ev_recordedDurationMs
    charge_evidence].
  rewrite (bool_decide_true (_ = "AGENT_FAILURE_MID_CONVERSATION_PLUS_30S")) by done. cbn [negb].
  assert (proposedFailure blocks (customers raw blocks) (agents raw blocks) recorded
    (optionalMs (Some (jint_opt k))) = Some (midConversation f k)) as Hp.
  { apply resolved_reproposed in E; [|done]. destruct k as [k|]; [|exact E].
    destruct Hb as (b & Hbb & <- & _).
    pose proof (merged_number _ _ b Hmerge Hbb).
    change (jint_opt (Some (number b))) with (jint (number b)). rewrite optionalMs_jint by lia. exact E. }
  assert (customerBlockNumbers c = customers raw blocks) as -> by by rewrite Ec.
  assert (from_null [] (agentBlockNumbers c) = agents raw blocks) as -> by by rewrite Ec.
  assert (resolveAgentFailureEvidence blocks (customers raw blocks) (agents raw blocks) recorded
    AGENT_FAILURE (Some "mid_conversation") (optionalMs (Some (jint_opt k))) = midConversation f k)
    as ->.
  { unfold resolveAgentFailureEvidence. rewrite !bool_decide_true by done. cbn [negb]. by rewrite Hp. }
  cbn [fe_mode fe_failureStartMs fe_blockNumber midConversation].
  rewrite optionalMs_jint, Z.max_r, Z.min_r, bool_decide_true by (done || lia).
  done.
Qed.

(** The charge depends only on the moment of the category, bounded by the
    recording. *)
Lemma policy_charge_same e1 e2 :
  ev_category e1 = ev_category e2 → ev_recordedDurationMs e1 = ev_recordedDurationMs e2 →
  (service_moment e1 = service_moment e2 ∨
   ∃ m1 m2, service_moment e1 = Some m1 ∧ service_moment e2 = Some m2 ∧
     Z.min (ev_recordedDurationMs e1) (Z.max 0 m1) = Z.min (ev_recordedDurationMs e1) (Z.max 0 m2)) →
  policy_charge e1 = policy_charge e2.
Proof.
  intros Hc Hr Hm. unfold policy_charge. rewrite Hc, <- Hr.
  destruct Hm as [->|(m1 & m2 & -> & -> & ->)]; done.
Qed.
End Reload.

(** Evidence whose category-specific moment is replaced by the service end it
    gave is charged alike. *)
Lemma policy_charge_service_end e e2 :
  let stored := Some (dec_serviceEndMs (resolveCategoryCharge e)) in
  0 ≤ ev_recordedDurationMs e ≤ MAX_SAFE_INTEGER →
  ev_category e2 = ev_category e → ev_recordedDurationMs e2 = ev_recordedDurationMs e →
  lastCustomerExchangeMs e2 = lastCustomerExchangeMs e →
  firstAgentTurnEndMs e2 = firstAgentTurnEndMs e →
  failure_chargeable e2 = failure_chargeable e → ev_failureStartMs e2 = ev_failureStartMs e →
  (ev_category e = VOICEMAIL → lastAgentExchangeMs e2 = None ∧ lastVoicemailExchangeMs e2 = stored ∧
     0 ≤ from_null 0 (lastVoicemailExchangeMs e)) →
  (ev_category e = JUNK_CALL → lastBusinessRelevantCustomerExchangeMs e2 = stored ∧
     lastBusinessRelevantCustomerExchangeMs e ≠ None) →
  (ev_category e = INCORRECT_CALL_DURATION → lastVerifiedInteractionMs e2 = stored ∧
     lastVerifiedInteractionMs e ≠ None) →
  policy_charge e2 = policy_charge e.
Proof.
  intros stored Hb Hc Hr H1 H2 H3 H4 Hv Hj Hd.
  destruct (ev_category e) eqn:Ec;
    try (apply policy_charge_same; [congruence|done|]; left; unfold service_moment;
         rewrite Hc, Ec, ?H1, ?H2, ?H3, ?H4; reflexivity).
  - (* incorrect duration *)
    destruct (Hd eq_refl) as [Hs Hne]. apply policy_charge_same; [congruence|done|]. right.
    unfold service_moment. rewrite Hc, Ec, Hs.
    destruct (lastVerifiedInteractionMs e) as [v|] eqn:Ev; [|done]. do 2 eexists.
    split; [reflexivity|]. split; [reflexivity|]. subst stored. unfold resolveCategoryCharge. rewrite Ec, Ev, Hr.
    cbn. lia.
  - (* voicemail *)
    destruct (Hv eq_refl) as (Hn & Hs & Hm). unfold policy_charge, service_moment.
    rewrite Hc, Ec, Hn, Hs, Hr. subst stored. unfold resolveCategoryCharge. rewrite Ec.
    set (m := Z.max _ (from_null 0 (lastVoicemailExchangeMs e))). cbn [from_null default].
    destruct (Z.eqb_spec m 0) as [E|E]; cbn; [done|].
    destruct (Z.eqb_spec (Z.max 0 (Z.min (ev_recordedDurationMs e) (Z.max 0 m))) 0); cbn; lia.
  - (* junk *)
    destruct (Hj eq_refl) as [Hs Hne]. apply policy_charge_same; [congruence|done|]. right.
    unfold service_moment. rewrite Hc, Ec, Hs.
    destruct (lastBusinessRelevantCustomerExchangeMs e) as [v|] eqn:Ev; [|done]. do 2 eexists.
    split; [reflexivity|]. split; [reflexivity|]. subst stored. unfold resolveCategoryCharge. rewrite Ec, Ev, Hr.
    cbn. lia.
Qed.


(** A stored audit reprices to what was decided. The primary classification
    rebuilt from the persisted metrics, signals and transcript of an accepted
    classification has its category, agent-failure facts and introduction, and the
    policy charges it the same duration, provided the blocks are in conversation
    order and, for junk and incorrect-duration calls, that the moment they are
    charged to existed. *)
Theorem persistedPrimary_reprices `{Platform, ClassifierRuleset}
    segments blocks recorded raw dm c candidate transcript sha256 confidence
    (Hmerge : mergeTranscriptSegments segments = Ok blocks)
    (Hvalid : validateClassification raw blocks recorded dm = Ok c)
    (Hrecorded : ts_durationMs transcript = recorded)
    (Hbound : 0 ≤ recorded ≤ MAX_SAFE_INTEGER)
    (Hlength : Z.of_nat (length blocks) ≤ MAX_SAFE_INTEGER)
    (Hordered : in_order blocks)
    (Hjunk : mc_category c = JUNK_CALL → mc_lastBusinessRelevantCustomerExchangeMs c ≠ None)
    (Hduration : mc_category c = INCORRECT_CALL_DURATION → mc_lastVerifiedInteractionMs c ≠ None) :
  let a := spoken_analysis candidate transcript sha256 blocks c in
  ∃ p, persistedPrimary (mc_category c) confidence (an_lastMeaningfulCustomerExchangeMs a)
         (metrics_json a c) (signal_values_json a c) segments recorded = Ok p ∧
    mc_category p = mc_category c ∧
    mc_agentFailureMode p = mc_agentFailureMode c ∧
    mc_failureStartMs p = mc_failureStartMs c ∧
    mc_firstAgentTurnEndMs p = mc_firstAgentTurnEndMs c ∧
    policy_charge (charge_evidence p recorded) = policy_charge (charge_evidence c recorded).
Proof.
  intros a. unfold persistedPrimary. rewrite Hmerge. cbn [mbind result_bind].
  pose proof (stored_numbers blocks recorded raw dm c candidate transcript sha256 Hvalid Hlength) as [Hn _].
  pose proof (stored_service_end blocks recorded c candidate transcript sha256 Hrecorded Hbound) as Hse.
  fold a in Hn, Hse. rewrite Hn, Hse. eexists. split; [reflexivity|]. split; [done|].
  cbn [mc_agentFailureMode mc_failureStartMs mc_firstAgentTurnEndMs].
  assert (Hintro : firstAgentTurnEnd blocks (from_null [] (agentBlockNumbers c)) recorded =
    mc_firstAgentTurnEndMs c).
  { destruct (validateClassification_inv _ _ _ _ _ Hvalid)
      as (? & category & _ & _ & _ & _ & _ & _ & _ & _ & _ & ->). done. }
  rewrite Hintro. set (facts := persistedAgentFailureFacts _ _ _ _ _).
  assert (fe_mode facts = mc_agentFailureMode c ∧ fe_failureStartMs facts = mc_failureStartMs c ∧
    Some (fe_meaningfulServiceBeforeFailure facts) = mc_meaningfulServiceBeforeFailure c)
    as (F1 & F2 & F3).
  { destruct (decide (mc_category c = AGENT_FAILURE)) as [Ec|Ec].
    - by eapply stored_failure.
    - subst facts. unfold persistedAgentFailureFacts. rewrite bool_decide_false by done. cbn.
      destruct (validateClassification_inv _ _ _ _ _ Hvalid)
        as (? & category & _ & _ & _ & _ & _ & _ & _ & _ & _ & ->).
      cbn in Ec |- *. unfold failureEvidence, resolveAgentFailureEvidence.
      rewrite bool_decide_false by done. done. }
  rewrite F1, F2, F3. split; [done|]. split; [done|]. split; [done|].
  apply policy_charge_service_end; try done; cbn [ev_category charge_evidence mc_category
    lastAgentExchangeMs lastVoicemailExchangeMs mc_lastMeaningfulAgentExchangeMs
    mc_lastVoicemailExchangeMs lastBusinessRelevantCustomerExchangeMs lastVerifiedInteractionMs
    mc_lastBusinessRelevantCustomerExchangeMs mc_lastVerifiedInteractionMs]; intros Ec;
    rewrite Ec; auto.
  split; [done|]. split; [done|].
  destruct (validateClassification_inv _ _ _ _ _ Hvalid)
    as (? & category & _ & _ & _ & _ & _ & _ & _ & _ & _ & ->).
  cbn [mc_lastVoicemailExchangeMs validated].
  destruct (list_max _) as [t|] eqn:Et; [|done]. apply list_max_elem, elem_of_ends in Et
    as (b & Hb & _ & ->). pose proof (order_span _ Hordered b Hb). cbn. lia.
Qed.

(** ** Concrete rows *)

Module DemoStored.
#[local] Existing Instance demo_platform.
Definition ruleset : ClassifierRuleset := {| REAUDIT_CLASSIFIER_RULESET_SHA256 := "r" |}.
#[local] Existing Instance ruleset.

Definition transcript : TranscriptionResult := {|
  ts_model := default_model; ts_language := "en"; ts_durationMs := 8000; ts_speechMs := 7700;
  ts_text := "Hello ..."; ts_segments := demo_segments; ts_usage := None |}.

Definition stored (c : ModelClassification ReauditCategory) (segments : list TranscriptSegment)
    (blocks : list NaturalSpeechBlock)
    : Prelude.result js_error (ModelClassification ReauditCategory) :=
  let a := spoken_analysis DemoCall.candidate transcript "h" blocks c in
  persistedPrimary (mc_category c) "0.9" (an_lastMeaningfulCustomerExchangeMs a)
    (metrics_json a c) (signal_values_json a c) segments 8000.

Definition charge_of_result (r : Prelude.result js_error (ModelClassification ReauditCategory)) : option Z :=
  match r with Ok p => Some (policy_charge (charge_evidence p 8000)) | Throw _ => None end.

Definition junk_segments : list TranscriptSegment := [
  {| startMs := 0; endMs := 1200; text := "Hello, this is Saanvi." |};
  {| startMs := 2500; endMs := 3600; text := "This is a spam call" |}].

Definition junk_raw : ModelClassification string := {|
  mc_model := default_model; mc_category := "JUNK_CALL"; mc_confidence := "0.9";
  customerBlockNumbers := [2]; unclearBlockNumbers := [];
  voicemailEvidenceBlockNumbers := Some []; automationEvidenceBlockNumbers := Some [];
  junkEvidenceBlockNumbers := Some [2]; businessRelevantCustomerBlockNumbers := Some [];
  customerSpoke := true; mc_lastMeaningfulCustomerExchangeMs := None;
  mc_lastMeaningfulAgentExchangeMs := None; mc_firstAgentTurnEndMs := None;
  mc_lastVoicemailExchangeMs := None; mc_lastBusinessRelevantCustomerExchangeMs := None;
  mc_lastVerifiedInteractionMs := None; agentBlockNumbers := Some [1];
  agentFailureStartBlockNumber := None; mc_agentFailureMode := None;
  mc_meaningfulServiceBeforeFailure := None; mc_failureStartMs := None; mc_remarks := "";
  mc_disputeRecommended := false;
  decisionSignals := Some {|
    counterpartyType := Some (JStr "human"); agentHandling := Some (JStr "normal");
    conversationOutcome := Some (JStr "unclear"); durationOutcome := Some (JStr "appropriate");
    stopIntent := Some (JStr "none"); postStopBehavior := Some (JStr "not_applicable");
    successfulOutcome := Some (JStr "none"); voicemailEvidence := Some (JStr "none");
    automationEvidence := Some (JStr "none"); junkEvidence := Some (JStr "spam_or_scam");
    sg_agentFailureMode := Some (JStr "none");
    sg_meaningfulServiceBeforeFailure := Some (JBool false) |};
  mc_usage := None |}.

(** Without the last hypotheses the charge changes: a junk call without a
    business-relevant exchange is charged nothing, and its stored form the whole
    eight seconds, since a stored service end of 0 reads as an exchange at 0. *)
Example junk_recharged :
  match mergeTranscriptSegments junk_segments with
  | Ok blocks =>
      match validateClassification junk_raw blocks 8000 false with
      | Ok c => (mc_category c, policy_charge (charge_evidence c 8000),
                 charge_of_result (stored c junk_segments blocks))
      | Throw _ => (OK, 0, None)
      end
  | Throw _ => (OK, 0, None)
  end = (JUNK_CALL, 0, Some 8000).
Proof. vm_compute. reflexivity. Qed.
End DemoStored.

Lemma persistedPrimary_reprices_witness :
  ∃ p, DemoStored.stored Demo.checked demo_segments demo_blocks = Ok p ∧
    mc_category p = CONNECT_NOT_FRUITFUL ∧ policy_charge (charge_evidence p 8000) = 8000.
Proof.
  destruct (@persistedPrimary_reprices demo_platform DemoStored.ruleset demo_segments demo_blocks 8000
    _ _ Demo.checked DemoCall.candidate DemoStored.transcript "h" "0.9" merge_demo Demo.validates
    eq_refl) as (p & H1 & H2 & _ & _ & _ & H3).
  - unfold MAX_SAFE_INTEGER. lia.
  - unfold MAX_SAFE_INTEGER. cbn. lia.
  - exact demo_in_order.
  - discriminate.
  - discriminate.
  - exists p. split; [exact H1|]. split; [exact H2|]. rewrite H3. reflexivity.
Defined.
