(* ===== verification/Consensus.v ===== *)
(** * Automated consensus

    [src/automation/consensus.ts]: when independent classifications of one call
    settle it, and on which of them it is priced. *)

From S2P Require Import Prelude JsNumber JsText CanonicalJson KserveRules ReauditTypes CategoryPolicy Classification ReauditAudit.

Local Open Scope string_scope.
Local Open Scope list_scope.
#[global] Open Scope Z_scope.

Definition AUTOMATED_VALIDATION_VERSION : string :=
  "leadership-approved-auto-consensus/2.0.0".
Definition AUTOMATED_VALIDATION_THRESHOLD : string := "0.65000000".

Notation MC := (ModelClassification ReauditCategory).

Record ConsensusInput : Type := {
  ci_primary : MC;
  ci_secondary : MC;
  ci_adjudicator : option MC;
  ci_recordedDurationMs : Z;
}.

Inductive Source : Type := src_primary | src_secondary | src_adjudicator.

#[export] Instance Source_eq_dec : EqDecision Source.
Proof. solve_decision. Defined.

Definition source_text (s : Source) : string :=
  match s with
  | src_primary => "primary" | src_secondary => "secondary" | src_adjudicator => "adjudicator"
  end.

Inductive ConsensusReason : Type :=
| CATEGORY_DISAGREEMENT
| BILLABLE_DURATION_DISAGREEMENT
| WINNING_CONSENSUS_CONFIDENCE_BELOW_FLOOR.

(** One pass, with what it would be charged. *)
Record Output : Type := {
  out_source : Source;
  out_value : MC;
  out_confidence : Z;
  out_decision : CategoryChargeDecision;
  out_billableDurationMs : Z;
}.

Record ConsensusResult : Type := {
  accepted : bool;
  effectiveConfidence : string;
  reasons : list ConsensusReason;
  selectedSource : option Source;
  selectedClassification : option MC;
  selectedChargeDecision : option CategoryChargeDecision;
  primaryBillableDurationMs : Z;
  secondaryBillableDurationMs : Z;
  adjudicatorBillableDurationMs : option Z;
}.

(** [Number(value)] of a confidence, in hundred-millionths: a decimal of at most
    eight places, which validation requires of every classification. *)
Definition modelConfidence (value : string) : Prelude.result js_error Z :=
  let refused := Throw (RangeError "Model confidence must be from 0 to 1") in
  match split_decimal value with
  | Some (whole, fraction) =>
      let f := from_null "" fraction in
      if len f <=? 8 then
        let parsed := dec_value whole * 100000000 + dec_value (pad_end 8 f) in
        if 100000000 <? parsed then refused else Ok parsed
      else refused
  | None => refused
  end.

Definition projectedCharge (classification : MC) (recordedDurationMs : Z)
    : Prelude.result js_error (CategoryChargeDecision * Z) :=
  let d := resolveCategoryCharge (charge_evidence classification recordedDurationMs) in
  rounded ← roundKServeChargeableDuration (dec_adjustedChargeableDurationMs d);
  Ok (d, billableDurationMs rounded).

Definition output (recordedDurationMs : Z) (p : Source * MC) : Prelude.result js_error Output :=
  c ← modelConfidence (mc_confidence p.2);
  charge ← projectedCharge p.2 recordedDurationMs;
  Ok {| out_source := p.1; out_value := p.2; out_confidence := c;
        out_decision := charge.1; out_billableDurationMs := charge.2 |}.

Definition out_category (o : Output) : ReauditCategory := mc_category (out_value o).

(** The [Map] of passes by category, in insertion order. *)
Fixpoint add_to_group (o : Output) (groups : list (ReauditCategory * list Output))
    : list (ReauditCategory * list Output) :=
  match groups with
  | [] => [(out_category o, [o])]
  | (c, members) :: groups =>
      if bool_decide (c = out_category o) then (c, members ++ [o]) :: groups
      else (c, members) :: add_to_group o groups
  end.

Definition groups_of (outputs : list Output) : list (list Output) :=
  map snd (foldl (fun groups o => add_to_group o groups) [] outputs).

Definition larger_first (x y : list Output) : bool := (length y <=? length x)%nat.
Definition surer_first (x y : Output) : bool := out_confidence y <=? out_confidence x.
Definition shorter_first (x y : Output) : bool :=
  out_billableDurationMs x <=? out_billableDurationMs y.

Definition winningGroup (outputs : list Output) : option (list Output) :=
  head (sort_by larger_first
    (filter (fun g => (2 <=? length g)%nat = true) (groups_of outputs))).

(** The passes of [group] charged like [o]. *)
Definition same_duration (group : list Output) (o : Output) : list Output :=
  filter (fun other => out_billableDurationMs other = out_billableDurationMs o) group.

Definition min_confidence (outputs : list Output) : Z :=
  match map out_confidence outputs with [] => 0 | c :: cs => foldr Z.min c cs end.

Definition AUTOMATED_THRESHOLD : Z := 65000000.

Definition consensus_reasons (outputs : list Output) (adjudicated : bool) : list ConsensusReason :=
  match winningGroup outputs with
  | None => [CATEGORY_DISAGREEMENT]
  | Some group =>
      let supporting := take 2 (sort_by surer_first group) in
      let durations := dedup (map out_billableDurationMs group) in
      if (1 <? length durations)%nat && negb adjudicated then [BILLABLE_DURATION_DISAGREEMENT]
      else if existsb (fun o => out_confidence o <? AUTOMATED_THRESHOLD) supporting then
        [WINNING_CONSENSUS_CONFIDENCE_BELOW_FLOOR]
      else []
  end.

(** The duration most agreeing passes support, else the shortest. *)
Definition select (group : list Output) : option Output :=
  match List.find (fun o => (2 <=? length (same_duration group o))%nat) group with
  | Some o => Some o
  | None => head (sort_by shorter_first group)
  end.

Definition evaluateAutomatedConsensus (input : ConsensusInput)
    : Prelude.result js_error ConsensusResult :=
  outputs ← mapM_result (output (ci_recordedDurationMs input))
    ([(src_primary, ci_primary input); (src_secondary, ci_secondary input)] ++
     match ci_adjudicator input with Some a => [(src_adjudicator, a)] | None => [] end);
  let group := winningGroup outputs in
  let supporting :=
    match group with Some g => take 2 (sort_by surer_first g) | None => [] end in
  let reasons := consensus_reasons outputs (present (ci_adjudicator input)) in
  let selected :=
    match reasons, group with [], Some g => select g | _, _ => None end in
  Ok {| accepted := bool_decide (length reasons = 0%nat);
        effectiveConfidence :=
          show_fixed 8 (min_confidence (match supporting with [] => outputs | s => s end));
        reasons := reasons;
        selectedSource := out_source <$> selected;
        selectedClassification := out_value <$> selected;
        selectedChargeDecision := out_decision <$> selected;
        primaryBillableDurationMs := from_null 0 (out_billableDurationMs <$> outputs !! 0%nat);
        secondaryBillableDurationMs := from_null 0 (out_billableDurationMs <$> outputs !! 1%nat);
        adjudicatorBillableDurationMs :=
          out_billableDurationMs <$>
            List.find (fun o => bool_decide (out_source o = src_adjudicator)) outputs |}.

(** ** Facts: the majority *)

(** With two passes, or three, the winning group is explicit. *)
Lemma winning_two p s :
  winningGroup [p; s] = if bool_decide (out_category p = out_category s) then Some [p; s] else None.
Proof.
  unfold winningGroup, groups_of. cbn [foldl add_to_group].
  case_bool_decide; reflexivity.
Qed.

Lemma winning_three p s a :
  winningGroup [p; s; a] =
  if bool_decide (out_category p = out_category s) then
    Some (if bool_decide (out_category p = out_category a) then [p; s; a] else [p; s])
  else if bool_decide (out_category p = out_category a) then Some [p; a]
  else if bool_decide (out_category s = out_category a) then Some [s; a]
  else None.
Proof.
  unfold winningGroup, groups_of. cbn [foldl add_to_group].
  destruct (bool_decide (out_category p = out_category s)) eqn:E1; cbn [add_to_group app];
    destruct (bool_decide (out_category p = out_category a)) eqn:E2; cbn [add_to_group app];
    try reflexivity;
    destruct (bool_decide (out_category s = out_category a)) eqn:E3; reflexivity.
Qed.

Definition sure (o : Output) : bool := AUTOMATED_THRESHOLD <=? out_confidence o.

Definition count {A} (p : A → bool) (l : list A) : Z :=
  Z.of_nat (length (filter (fun x => p x = true) l)).

Lemma count_cons {A} (p : A → bool) x l : count p (x :: l) = (if p x then 1 else 0) + count p l.
Proof.
  unfold count. rewrite filter_cons. destruct (p x); [rewrite decide_True by done|rewrite decide_False by done]; cbn [length]; lia.
Qed.

Lemma count_nil {A} (p : A → bool) : count p [] = 0.
Proof. done. Qed.

(** The two surest of the majority reach the floor exactly when two passes do. *)
Lemma supporting_sure g :
  length g = 2%nat ∨ length g = 3%nat →
  existsb (fun o => out_confidence o <? AUTOMATED_THRESHOLD) (take 2 (sort_by surer_first g)) = false
  ↔ 2 ≤ count sure g.
Proof.
  assert (Hs : ∀ o, (out_confidence o <? AUTOMATED_THRESHOLD) = negb (sure o)).
  { intros o. unfold sure. by rewrite Z.leb_antisym, negb_involutive. }
  assert (Hm : ∀ x y, surer_first x y = true → sure y = true → sure x = true).
  { intros x y. unfold surer_first, sure. rewrite !Z.leb_le. lia. }
  assert (Hm' : ∀ x y, surer_first x y = false → sure x = true → sure y = true).
  { intros x y. unfold surer_first, sure. rewrite !Z.leb_le, Z.leb_gt. lia. }
  intros [Hl|Hl]; destruct g as [|x [|y [|z [|]]]]; try discriminate;
    rewrite !count_cons, count_nil; unfold sort_by; cbn [foldr insert_by];
    repeat match goal with |- context [surer_first ?u ?v] =>
      let E := fresh in destruct (surer_first u v) eqn:E; cbn [insert_by] end;
    cbn [take existsb]; rewrite !Hs;
    repeat match goal with
    | H : surer_first ?u ?v = true |- _ => pose proof (Hm u v H); clear H
    | H : surer_first ?u ?v = false |- _ => pose proof (Hm' u v H); clear H
    end;
    destruct (sure x), (sure y); try destruct (sure z); cbn; split; intros; try done; try lia;
    naive_solver.
Qed.

Definition in_category (c : ReauditCategory) (o : Output) : bool := bool_decide (out_category o = c).

Definition few (outputs : list Output) : Prop := length outputs = 2%nat ∨ length outputs = 3%nat.

Lemma winning_group_spec outputs :
  few outputs →
  match winningGroup outputs with
  | None => ∀ c, count (in_category c) outputs ≤ 1
  | Some g => few g ∧ ∃ c, g = filter (fun o => in_category c o = true) outputs ∧
      ∀ c', c' ≠ c → count (in_category c') outputs ≤ 1
  end.
Proof.
  intros [Hl|Hl]; destruct outputs as [|p [|s [|a [|]]]]; try discriminate; clear Hl.
  - rewrite winning_two. destruct (bool_decide_reflect (out_category p = out_category s)) as [E|E].
    + split; [by left|]. exists (out_category p). split.
      * rewrite !filter_cons, filter_nil. unfold in_category. by rewrite <- E, bool_decide_true, decide_True by done.
      * intros c' Hc. rewrite !count_cons, count_nil. unfold in_category.
        rewrite !bool_decide_false by congruence. lia.
    + intros c. rewrite !count_cons, count_nil. unfold in_category.
      destruct (bool_decide_reflect (out_category p = c)), (bool_decide_reflect (out_category s = c));
        try lia; congruence.
  - rewrite winning_three.
    assert (Hc : ∀ c, count (in_category c) [p; s; a] =
      (if bool_decide (out_category p = c) then 1 else 0) +
      (if bool_decide (out_category s = c) then 1 else 0) +
      (if bool_decide (out_category a = c) then 1 else 0)).
    { intros c. rewrite !count_cons, count_nil. unfold in_category. lia. }
    assert (Hf : ∀ c, filter (fun o => in_category c o = true) [p; s; a] =
      (if bool_decide (out_category p = c) then [p] else []) ++
      (if bool_decide (out_category s = c) then [s] else []) ++
      (if bool_decide (out_category a = c) then [a] else [])).
    { intros c. rewrite !filter_cons, filter_nil. unfold in_category.
      by destruct (bool_decide (out_category p = c)), (bool_decide (out_category s = c)),
        (bool_decide (out_category a = c)). }
    destruct (bool_decide_reflect (out_category p = out_category s)) as [E|E];
      [|destruct (bool_decide_reflect (out_category p = out_category a)) as [E'|E'];
        [|destruct (bool_decide_reflect (out_category s = out_category a)) as [E''|E'']]].
    + destruct (bool_decide_reflect (out_category p = out_category a)) as [E'|E'].
      * split; [by right|]. exists (out_category p). rewrite Hf, <- E, <- E', bool_decide_true by done.
        split; [done|]. intros c' Hn. rewrite Hc, <- E, <- E', bool_decide_false by congruence. lia.
      * split; [by left|]. exists (out_category p).
        rewrite Hf, <- E, bool_decide_true, (bool_decide_false (out_category a = _)) by congruence.
        split; [done|]. intros c' Hn. rewrite Hc, <- E, (bool_decide_false (out_category p = _)) by congruence.
        destruct (bool_decide _); lia.
    + split; [by left|]. exists (out_category p).
      rewrite Hf, <- E', bool_decide_true, (bool_decide_false (out_category s = _)) by congruence.
      split; [done|]. intros c' Hn. rewrite Hc, <- E', (bool_decide_false (out_category p = _)) by congruence.
      destruct (bool_decide _); lia.
    + split; [by left|]. exists (out_category s).
      rewrite Hf, <- E'', (bool_decide_false (out_category p = _)), bool_decide_true by congruence.
      split; [done|]. intros c' Hn. rewrite Hc, <- E'', (bool_decide_false (out_category s = _)) by congruence.
      destruct (bool_decide _); lia.
    + intros c. rewrite Hc.
      destruct (bool_decide_reflect (out_category p = c)), (bool_decide_reflect (out_category s = c)),
        (bool_decide_reflect (out_category a = c)); try lia; congruence.
Qed.

(** The selected pass has the best-supported duration, else the shortest. *)
Lemma select_spec g :
  g ≠ [] →
  ∃ o, select g = Some o ∧ o ∈ g ∧
    ((2 ≤ length (same_duration g o))%nat ∨
     ((∀ x, x ∈ g → (length (same_duration g x) < 2)%nat) ∧
      ∀ x, x ∈ g → out_billableDurationMs o ≤ out_billableDurationMs x)).
Proof.
  intros Hne. unfold select.
  destruct (List.find _ g) as [o|] eqn:E.
  - apply List.find_some in E as [Hin H]. apply list_elem_of_In in Hin. apply Nat.leb_le in H. eauto.
  - assert (∀ x, x ∈ g → (length (same_duration g x) < 2)%nat) as Hall.
    { intros x Hx. apply list_elem_of_In in Hx. pose proof (List.find_none _ _ E x Hx) as H.
      cbv beta in H. by apply Nat.leb_gt in H. }
    pose proof (sort_by_sorted shorter_first) as Hs.
    specialize (Hs ltac:(unfold shorter_first; intros; rewrite !Z.leb_le; lia)
                   ltac:(unfold shorter_first; intros *; rewrite !Z.leb_le; lia) g).
    destruct (sort_by shorter_first g) as [|o l] eqn:El.
    + assert (length g = 0%nat) as Hz by (rewrite <- (sort_by_length shorter_first g), El; done).
      by apply nil_length_inv in Hz.
    + exists o. split; [done|].
      assert (∀ x, x ∈ g ↔ x ∈ o :: l) as Hin by (intros x; by rewrite <- El, sort_by_elem).
      split; [apply Hin; left|]. right. split; [done|]. intros x Hx. apply Hin in Hx.
      apply elem_of_cons in Hx as [->|Hx]; [done|].
      apply StronglySorted_inv in Hs as [_ Hs]. rewrite Forall_forall in Hs.
      specialize (Hs x Hx). by apply Z.leb_le in Hs.
Qed.

(** One duration among the members of a group. *)
Lemma one_duration g :
  g ≠ [] → ((1 <? length (dedup (map out_billableDurationMs g)))%nat = false ↔
    ∀ x y, x ∈ g → y ∈ g → out_billableDurationMs x = out_billableDurationMs y).
Proof.
  intros Hne. rewrite Nat.ltb_ge. pose proof (NoDup_dedup (map out_billableDurationMs g)) as Hn.
  assert (Hin : ∀ d, d ∈ dedup (map out_billableDurationMs g) ↔ ∃ x, d = out_billableDurationMs x ∧ x ∈ g).
  { intros d. by rewrite elem_of_dedup, list_elem_of_fmap. }
  destruct (dedup _) as [|d [|d' l]] eqn:E; cbn [length].
  - destruct g as [|x g]; [done|]. exfalso.
    assert (out_billableDurationMs x ∈ @nil Z) as Hx by (apply Hin; exists x; split; [done|left]).
    by apply elem_of_nil in Hx.
  - split; [|lia]. intros _ x y Hx Hy.
    assert (out_billableDurationMs x ∈ [d] ∧ out_billableDurationMs y ∈ [d]) as [H1 H2]
      by (split; apply Hin; eauto).
    apply list_elem_of_singleton in H1, H2. congruence.
  - split; [lia|]. intros Hall. exfalso.
    assert (∃ x, d = out_billableDurationMs x ∧ x ∈ g) as (x & -> & Hx) by (apply Hin; left).
    assert (∃ x, d' = out_billableDurationMs x ∧ x ∈ g) as (y & -> & Hy) by (apply Hin; right; left).
    apply NoDup_cons in Hn as [Hn _]. apply Hn. rewrite (Hall x y Hx Hy). left.
Qed.

(** ** Facts: the evaluation *)

Definition passes (input : ConsensusInput) : list MC :=
  [ci_primary input; ci_secondary input] ++
  match ci_adjudicator input with Some a => [a] | None => [] end.

(** The pass names the category; reaches the floor; and is charged this much. *)
Definition names (c : ReauditCategory) (m : MC) : bool := bool_decide (mc_category m = c).
Definition reaches_floor (m : MC) : bool :=
  match modelConfidence (mc_confidence m) with
  | Ok v => AUTOMATED_THRESHOLD <=? v
  | Throw _ => false
  end.
Definition billable (recorded : Z) (m : MC) : Z :=
  30000 * half_minutes (policy_charge (charge_evidence m recorded)).

Lemma output_spec recorded p o :
  output recorded p = Ok o →
  out_value o = p.2 ∧ modelConfidence (mc_confidence p.2) = Ok (out_confidence o) ∧
  out_decision o = resolveCategoryCharge (charge_evidence p.2 recorded) ∧
  (0 ≤ recorded ≤ MAX_SAFE_INTEGER → out_billableDurationMs o = billable recorded p.2).
Proof.
  unfold output. intros H. apply bind_Ok_iff in H as (v & Hv & H).
  apply bind_Ok_iff in H as (d & Hd & H). apply Ok_inj in H as <-.
  unfold projectedCharge in Hd. apply bind_Ok_iff in Hd as (r & Hr & Hd). apply Ok_inj in Hd as <-.
  do 3 (split; [done|]). intros Hrec. apply round_Ok in Hr as (_ & _ & ->).
  cbn [out_billableDurationMs snd billableDurationMs charge_of]. unfold billable.
  by rewrite resolve_charge.
Qed.

Lemma mapM_result_Forall2 {E A B} (f : A → Prelude.result E B) l k :
  mapM_result f l = Ok k → Forall2 (fun x y => f x = Ok y) l k.
Proof.
  revert k. induction l as [|x l IH]; intros k H; cbn in H.
  - apply Ok_inj in H as <-. constructor.
  - apply bind_Ok_iff in H as (y & Hy & H). apply bind_Ok_iff in H as (ys & Hys & H).
    apply Ok_inj in H as <-. constructor; auto.
Qed.

Lemma count_map {A B} (f : A → B) p l : count p (map f l) = count (fun x => p (f x)) l.
Proof. induction l as [|x l IH]; [done|]. cbn [map]. by rewrite !count_cons, IH. Qed.

Lemma count_ext {A} (p q : A → bool) l : (∀ x, x ∈ l → p x = q x) → count p l = count q l.
Proof.
  induction l as [|x l IH]; intros H; [done|]. rewrite !count_cons, IH, H; [done|left|].
  intros y Hy. apply H. by right.
Qed.

Lemma count_filter {A} (p q : A → bool) l :
  count p (filter (fun x => q x = true) l) = count (fun x => q x && p x) l.
Proof.
  induction l as [|x l IH]; [done|]. rewrite filter_cons, count_cons, <- IH.
  destruct (q x); cbn [andb]; [rewrite decide_True by done; by rewrite count_cons|].
  by rewrite decide_False by done.
Qed.

(** What the evaluation knows of its passes. *)
Record outputs_of (input : ConsensusInput) (outs : list Output) : Prop := {
  outs_value : map out_value outs = passes input;
  outs_few : few outs;
  outs_adjudicated : present (ci_adjudicator input) = true ↔ length outs = 3%nat;
  outs_sure o : o ∈ outs → sure o = reaches_floor (out_value o);
  outs_decision o : o ∈ outs →
    out_decision o = resolveCategoryCharge (charge_evidence (out_value o) (ci_recordedDurationMs input));
  outs_billable o : 0 ≤ ci_recordedDurationMs input ≤ MAX_SAFE_INTEGER → o ∈ outs →
    out_billableDurationMs o = billable (ci_recordedDurationMs input) (out_value o);
}.

Lemma evaluate_outputs input r :
  evaluateAutomatedConsensus input = Ok r →
  ∃ outs, outputs_of input outs ∧
    reasons r = consensus_reasons outs (present (ci_adjudicator input)) ∧
    accepted r = bool_decide (length (reasons r) = 0%nat) ∧
    let selected := match reasons r, winningGroup outs with [], Some g => select g | _, _ => None end in
    selectedClassification r = out_value <$> selected ∧
    selectedChargeDecision r = out_decision <$> selected.
Proof.
  unfold evaluateAutomatedConsensus. intros H. apply bind_Ok_iff in H as (outs & Ho & H).
  apply Ok_inj in H as <-. exists outs. split; [|done].
  apply mapM_result_Forall2 in Ho.
  assert (Hall : ∀ o, o ∈ outs → ∃ s m, output (ci_recordedDurationMs input) (s, m) = Ok o).
  { intros o Hin. apply list_elem_of_lookup in Hin as [i Hi].
    destruct (Forall2_lookup_r _ _ _ _ _ Ho Hi) as ([s m] & _ & Hm). eauto. }
  split.
  - transitivity (map snd ([(src_primary, ci_primary input); (src_secondary, ci_secondary input)] ++
      match ci_adjudicator input with Some a => [(src_adjudicator, a)] | None => [] end)).
    + clear Hall. induction Ho as [|x o l k Hx Ho IH]; [done|]. cbn [map].
      apply output_spec in Hx as (-> & _). by rewrite IH.
    + unfold passes. by destruct (ci_adjudicator input).
  - apply Forall2_length in Ho. unfold few. rewrite <- Ho. destruct (ci_adjudicator input); cbn; tauto.
  - apply Forall2_length in Ho. rewrite <- Ho. by destruct (ci_adjudicator input).
  - intros o Hin. destruct (Hall o Hin) as (s & m & Hm). apply output_spec in Hm as (Ev & Hc & _).
    unfold reaches_floor. by rewrite Ev, Hc.
  - intros o Hin. destruct (Hall o Hin) as (s & m & Hm). apply output_spec in Hm as (Ev & _ & Ed & _).
    by rewrite Ed, Ev.
  - intros o Hrec Hin. destruct (Hall o Hin) as (s & m & Hm).
    apply output_spec in Hm as (Ev & _ & _ & Hb). by rewrite Ev, Hb.
Qed.

Lemma min_confidence_ge l c :
  l ≠ [] → (∀ o, o ∈ l → c ≤ out_confidence o) → c ≤ min_confidence l.
Proof.
  intros Hne Hl. destruct l as [|o l]; [done|]. unfold min_confidence. cbn [map].
  assert (∀ k, (∀ x, x ∈ k → c ≤ x) → ∀ z, c ≤ z → c ≤ foldr Z.min z k) as Hfold.
  { induction k as [|x k IH]; intros Hk z Hz; cbn; [done|].
    apply Z.min_glb; [apply Hk; left|]. apply IH; [|done]. intros y Hy. apply Hk. by right. }
  apply Hfold; [|apply Hl; left].
  intros x Hx. apply list_elem_of_fmap in Hx as (y & -> & Hy). apply Hl. by right.
Qed.

Lemma supporting_nonempty outs g :
  winningGroup outs = Some g → take 2 (sort_by surer_first g) ≠ [].
Proof.
  intros Hg. unfold winningGroup in Hg.
  assert (g ∈ sort_by larger_first (filter (fun g => (2 <=? length g)%nat = true) (groups_of outs))) as Hin.
  { destruct (sort_by _ _); [done|]. injection Hg as ->. left. }
  apply sort_by_elem, list_elem_of_filter in Hin as [Hl _].
  destruct g as [|o g]; [done|]. intros E.
  assert (o ∈ sort_by surer_first (o :: g)) as Ho by (apply sort_by_elem; left).
  destruct (sort_by surer_first (o :: g)); [by apply elem_of_nil in Ho|done].
Qed.

(** What an accepted evaluation tells the charge engine reaches its threshold. *)
Lemma accepted_confidence input r :
  evaluateAutomatedConsensus input = Ok r → accepted r = true →
  ∃ v, effectiveConfidence r = show_fixed 8 v ∧ AUTOMATED_THRESHOLD ≤ v.
Proof.
  unfold evaluateAutomatedConsensus. intros H Ha. apply bind_Ok_iff in H as (outs & Ho & H).
  apply Ok_inj in H as <-. cbn [accepted effectiveConfidence] in *.
  apply bool_decide_eq_true in Ha. eexists. split; [done|].
  unfold consensus_reasons in Ha. destruct (winningGroup outs) as [g|] eqn:Eg; [|done].
  destruct (_ && _); [done|]. destruct (existsb _ _) eqn:Es; [done|]. rewrite existsb_false in Es.
  assert (take 2 (sort_by surer_first g) ≠ []) as Hne by (by eapply supporting_nonempty).
  destruct (take 2 (sort_by surer_first g)) as [|o l]; [done|].
  apply min_confidence_ge; [done|]. intros x Hx. specialize (Es x Hx). by apply Z.ltb_ge in Es.
Qed.

Lemma reasons_nil outs adjudicated :
  few outs →
  consensus_reasons outs adjudicated = [] ↔
  ∃ g, winningGroup outs = Some g ∧ 2 ≤ count sure g ∧
    (adjudicated = false → ∀ x y, x ∈ g → y ∈ g → out_billableDurationMs x = out_billableDurationMs y).
Proof.
  intros Hf. pose proof (winning_group_spec outs Hf) as Hw. unfold consensus_reasons.
  destruct (winningGroup outs) as [g|]; [|split; [done|by intros (g & ? & _)]].
  destruct Hw as [Hg _]. assert (g ≠ []) as Hne by (intros ->; destruct Hg; done).
  pose proof (one_duration g Hne) as Hd. pose proof (supporting_sure g Hg) as Hs.
  destruct (1 <? length (dedup (map out_billableDurationMs g)))%nat, adjudicated; cbn [negb andb];
    destruct (existsb _ _); split; try done;
    try (intros _; exists g; split; [done|]; split; [by apply Hs|]; intros; by apply Hd).
  all: intros (g' & [= <-] & Hc & Hsame).
  all: try (apply Hs in Hc; done).
  all: assert (true = false) by (by apply Hd, Hsame); done.
Qed.

Lemma reasons_disagreement outs adjudicated :
  consensus_reasons outs adjudicated = [CATEGORY_DISAGREEMENT] ↔ winningGroup outs = None.
Proof.
  unfold consensus_reasons. destruct (winningGroup outs); [|done].
  split; [|done]. destruct (_ && _); [done|].
  by match goal with |- context [existsb ?f ?k] => destruct (existsb f k) end.
Qed.

(** The category of the winning group is the only one two passes name. *)
Lemma winning_unique outs g c :
  few outs → winningGroup outs = Some g → 2 ≤ count (in_category c) outs →
  g = filter (fun o => in_category c o = true) outs.
Proof.
  intros Hf Hg Hc. pose proof (winning_group_spec outs Hf) as Hw. rewrite Hg in Hw.
  destruct Hw as (_ & c' & -> & Hu). destruct (decide (c = c')) as [->|Hne]; [done|].
  specialize (Hu c Hne). lia.
Qed.

Lemma count_le {A} (p q : A → bool) l :
  (∀ x, p x = true → q x = true) → count p l ≤ count q l.
Proof.
  intros H. induction l as [|x l IH]; [done|]. rewrite !count_cons.
  destruct (p x) eqn:E; [rewrite (H x E)|destruct (q x)]; lia.
Qed.

(** The peers of a category are the values of its group. *)
Lemma peers_group outs c :
  filter (fun m => names c m = true) (map out_value outs) =
  map out_value (filter (fun o => in_category c o = true) outs).
Proof.
  induction outs as [|o l IH]; [done|]. cbn [map]. rewrite !filter_cons, IH.
  change (in_category c o) with (names c (out_value o)). by case_decide.
Qed.

Section Verdict.
Context (input : ConsensusInput) (outs : list Output) (Ho : outputs_of input outs).
Hypothesis Hrec : 0 ≤ ci_recordedDurationMs input ≤ MAX_SAFE_INTEGER.
Notation recorded := (ci_recordedDurationMs input).
Notation peers c := (filter (fun m => names c m = true) (passes input)).

Lemma count_names c : count (names c) (passes input) = count (in_category c) outs.
Proof using Ho. rewrite <- (outs_value _ _ Ho), count_map. done. Qed.

Lemma count_floor c :
  count (fun m => names c m && reaches_floor m) (passes input) =
  count sure (filter (fun o => in_category c o = true) outs).
Proof using Ho.
  rewrite <- (outs_value _ _ Ho), count_map, count_filter. apply count_ext.
  intros o Hin. by rewrite (outs_sure _ _ Ho o Hin).
Qed.

Lemma group_category g :
  winningGroup outs = Some g →
  ∃ c, g = filter (fun o => in_category c o = true) outs ∧
    peers c = map out_value g ∧ few g ∧
    ∀ o, o ∈ g → o ∈ outs ∧ mc_category (out_value o) = c.
Proof using Ho.
  intros Hg. pose proof (winning_group_spec outs (outs_few _ _ Ho)) as Hw. rewrite Hg in Hw.
  destruct Hw as (Hf & c & -> & _). exists c. split; [done|]. split.
  { by rewrite <- (outs_value _ _ Ho), peers_group. }
  split; [done|]. intros o Hin. apply list_elem_of_filter in Hin as [Hc Hin].
  by apply bool_decide_eq_true in Hc.
Qed.

Lemma verdict_accepted :
  consensus_reasons outs (present (ci_adjudicator input)) = [] ↔
  ∃ c, 2 ≤ count (fun m => names c m && reaches_floor m) (passes input) ∧
    (ci_adjudicator input = None →
       billable recorded (ci_primary input) = billable recorded (ci_secondary input)).
Proof using Ho Hrec.
  rewrite reasons_nil by apply (outs_few _ _ Ho).
  assert (Hpair : ∀ g, winningGroup outs = Some g → ci_adjudicator input = None →
    (∀ x y, x ∈ g → y ∈ g → out_billableDurationMs x = out_billableDurationMs y) ↔
    billable recorded (ci_primary input) = billable recorded (ci_secondary input)).
  { intros g Hg Hn. pose proof (outs_value _ _ Ho) as Hv. unfold passes in Hv. rewrite Hn in Hv.
    destruct outs as [|p [|s [|]]]; try discriminate. cbn in Hv. injection Hv as <- <-.
    rewrite winning_two in Hg. destruct (bool_decide _); [|done]. injection Hg as <-.
    rewrite <- (outs_billable _ _ Ho p Hrec), <- (outs_billable _ _ Ho s Hrec)
      by (rewrite ?elem_of_cons; tauto).
    split; [intros Hx; apply Hx; rewrite ?elem_of_cons; tauto|].
    intros E x y Hx Hy. rewrite !elem_of_cons in Hx, Hy.
    destruct Hx as [->|[->|Hx]]; [| |by apply elem_of_nil in Hx];
      (destruct Hy as [->|[->|Hy]]; [| |by apply elem_of_nil in Hy]); congruence. }
  split.
  - intros (g & Hg & Hc & Hs). destruct (group_category g Hg) as (c & Eg & _).
    exists c. rewrite count_floor, <- Eg. split; [done|]. intros Hn. apply (Hpair g Hg Hn), Hs.
    by rewrite Hn.
  - intros (c & Hc & Hs). rewrite count_floor in Hc.
    assert (2 ≤ count (in_category c) outs) as Hc2.
    { rewrite count_filter in Hc. etransitivity; [exact Hc|]. apply count_le.
      intros x Hx. by apply andb_true_iff in Hx as [? _]. }
    pose proof (winning_group_spec outs (outs_few _ _ Ho)) as Hw.
    destruct (winningGroup outs) as [g|] eqn:Eg; [|specialize (Hw c); lia].
    exists g. split; [done|].
    rewrite (winning_unique outs g c (outs_few _ _ Ho) Eg Hc2). split; [done|].
    intros Hadj. rewrite <- (winning_unique outs g c (outs_few _ _ Ho) Eg Hc2).
    assert (ci_adjudicator input = None) as Hn by (by destruct (ci_adjudicator input)).
    by apply (Hpair g eq_refl Hn), Hs.
Qed.

Lemma verdict_selected g :
  winningGroup outs = Some g →
  ∃ o, select g = Some o ∧ o ∈ outs ∧
    let m := out_value o in
    let supporters x := count (fun y => billable recorded y =? billable recorded x) (peers (mc_category m)) in
    2 ≤ supporters m ∨
    ((∀ x, x ∈ peers (mc_category m) → supporters x ≤ 1) ∧
     ∀ x, x ∈ peers (mc_category m) → billable recorded m ≤ billable recorded x).
Proof using Ho Hrec.
  intros Hg. destruct (group_category g Hg) as (c & Eg & Hp & Hf & Hin).
  assert (g ≠ []) as Hne by (intros ->; destruct Hf; done).
  destruct (select_spec g Hne) as (o & Hsel & Hog & Hbest). exists o. split; [done|].
  destruct (Hin o Hog) as [Hoo Hcat]. split; [done|]. cbv zeta. rewrite Hcat, Hp.
  assert (Hb : ∀ x, x ∈ g → billable recorded (out_value x) = out_billableDurationMs x).
  { intros x Hx. symmetry. by apply (outs_billable _ _ Ho), Hin. }
  assert (Hsup : ∀ x, x ∈ g →
    count (fun y => billable recorded y =? billable recorded (out_value x)) (map out_value g) =
    Z.of_nat (length (same_duration g x))).
  { intros x Hx. rewrite count_map. unfold count, same_duration. do 2 f_equal.
    assert (Hall : ∀ y, y ∈ g → ((billable recorded (out_value y) =? billable recorded (out_value x)) = true
      ↔ out_billableDurationMs y = out_billableDurationMs x)).
    { intros y Hy. by rewrite Z.eqb_eq, !Hb. }
    clear - Hall. induction g as [|y l IH]; [done|]. rewrite !filter_cons.
    rewrite IH by (intros z Hz; apply Hall; by right).
    pose proof (Hall y ltac:(left)). case_decide; case_decide; tauto || done. }
  destruct Hbest as [Hbest|[Hall Hmin]]; [left|right].
  - rewrite Hsup by done. lia.
  - split.
    + intros x Hx. apply list_elem_of_fmap in Hx as (x' & -> & Hx). rewrite Hsup by done.
      specialize (Hall x' Hx). lia.
    + intros x Hx. apply list_elem_of_fmap in Hx as (x' & -> & Hx). rewrite !Hb by done. auto.
Qed.
End Verdict.

(** What the evaluation selects: one of the passes, priced by the policy, when it
    is accepted; nothing otherwise. *)
Lemma evaluate_selected input r :
  0 ≤ ci_recordedDurationMs input ≤ MAX_SAFE_INTEGER → evaluateAutomatedConsensus input = Ok r →
  match selectedClassification r with
  | Some m => accepted r = true ∧ m ∈ passes input ∧ selectedChargeDecision r =
      Some (resolveCategoryCharge (charge_evidence m (ci_recordedDurationMs input)))
  | None => accepted r = false ∧ selectedChargeDecision r = None
  end.
Proof.
  intros Hrec H. destruct (evaluate_outputs input r H) as (outs & Ho & Hr & Ha & Hsel & Hdec).
  destruct (reasons r) as [|x l]; [|rewrite Hsel, Hdec, Ha; done].
  symmetry in Hr. apply reasons_nil in Hr as (g & Hg & _); [|apply (outs_few _ _ Ho)].
  rewrite Hg in Hsel, Hdec. destruct (verdict_selected input outs Ho Hrec g Hg) as (o & Eo & Hin & _).
  rewrite Eo in Hsel, Hdec. cbn in Hsel, Hdec. rewrite Hsel, Hdec, Ha. split; [done|]. split.
  - rewrite <- (outs_value _ _ Ho). by apply list_elem_of_fmap_2.
  - by rewrite (outs_decision _ _ Ho o Hin).
Qed.

(** ** Properties *)

(** C32: the consensus is a majority of independent passes. It is accepted exactly
    when two passes name one category and reach the confidence floor, and, with no
    tie-breaker asked, are charged the same. The accepted classification is one of
    those peers, priced by the policy; its billable duration is one that two peers
    support or, when no two agree, the shortest of theirs. An unresolved
    evaluation selects nothing; the category is in dispute exactly when no two
    passes name the same one. *)
Theorem evaluateAutomatedConsensus_majority input r
    (Hrec : 0 ≤ ci_recordedDurationMs input ≤ MAX_SAFE_INTEGER)
    (H : evaluateAutomatedConsensus input = Ok r) :
  let recorded := ci_recordedDurationMs input in
  let peers c := filter (fun m => names c m = true) (passes input) in
  (accepted r = true ↔ ∃ c, 2 ≤ count (fun m => names c m && reaches_floor m) (passes input) ∧
     (ci_adjudicator input = None →
        billable recorded (ci_primary input) = billable recorded (ci_secondary input))) ∧
  (accepted r = true → ∃ m, selectedClassification r = Some m ∧ m ∈ passes input ∧
     selectedChargeDecision r = Some (resolveCategoryCharge (charge_evidence m recorded)) ∧
     let supporters x := count (fun y => billable recorded y =? billable recorded x) (peers (mc_category m)) in
     2 ≤ count (fun x => names (mc_category m) x && reaches_floor x) (passes input) ∧
     (2 ≤ supporters m ∨
      ((∀ x, x ∈ peers (mc_category m) → supporters x ≤ 1) ∧
       ∀ x, x ∈ peers (mc_category m) → billable recorded m ≤ billable recorded x))) ∧
  (accepted r = false → selectedClassification r = None ∧ selectedChargeDecision r = None ∧
     reasons r ≠ []) ∧
  (reasons r = [CATEGORY_DISAGREEMENT] ↔ ∀ c, count (names c) (passes input) ≤ 1).
Proof.
  intros recorded peers. destruct (evaluate_outputs input r H) as (outs & Ho & Hr & Ha & Hsel & Hdec).
  rewrite Ha. assert (Hnil : bool_decide (length (reasons r) = 0%nat) = true ↔ reasons r = []).
  { rewrite bool_decide_eq_true. by destruct (reasons r). }
  rewrite Hnil. pose proof (verdict_accepted input outs Ho Hrec) as Hacc. rewrite <- Hr in Hacc.
  split; [exact Hacc|]. split; [|split].
  - intros Hn. rewrite Hn in Hsel, Hdec. destruct (proj1 Hacc Hn) as (c & Hc & _).
    rewrite Hr in Hn. apply reasons_nil in Hn as (g & Hg & Hs & _); [|apply (outs_few _ _ Ho)].
    rewrite Hg in Hsel, Hdec.
    destruct (verdict_selected input outs Ho Hrec g Hg) as (o & Eo & Hin & Hbest).
    rewrite Eo in Hsel, Hdec. exists (out_value o). split; [done|]. split.
    { rewrite <- (outs_value _ _ Ho). by apply list_elem_of_fmap_2. }
    split; [by rewrite Hdec; cbn; rewrite (outs_decision _ _ Ho o Hin)|]. split; [|exact Hbest].
    rewrite (count_floor input outs Ho).
    destruct (group_category input outs Ho g Hg) as (c' & Eg & _ & Hf & Hcat).
    assert (g ≠ []) as Hne by (intros ->; destruct Hf; done).
    destruct (select_spec g Hne) as (o' & Eo' & Hog & _). rewrite Eo in Eo'. injection Eo' as <-.
    destruct (Hcat o Hog) as [_ ->]. by rewrite <- Eg.
  - intros Hn. destruct (reasons r) as [|x l] eqn:E; [done|]. by rewrite Hsel, Hdec.
  - rewrite Hr, reasons_disagreement.
    pose proof (winning_group_spec outs (outs_few _ _ Ho)) as Hw. split.
    + intros Hn. rewrite Hn in Hw. intros c. by rewrite (count_names input outs Ho).
    + intros Hall. destruct (winningGroup outs) as [g|] eqn:Eg; [|done].
      destruct Hw as (Hf & c & -> & _). specialize (Hall c). rewrite (count_names input outs Ho) in Hall.
      unfold count in Hall. destruct Hf as [Hf|Hf]; rewrite Hf in Hall; lia.
Qed.

Definition demo_input (adjudicator : option MC) : ConsensusInput :=
  {| ci_primary := Demo.checked; ci_secondary := Demo.checked; ci_adjudicator := adjudicator;
     ci_recordedDurationMs := 8000 |}.

Definition is_accepted (r : Prelude.result js_error ConsensusResult) : bool :=
  match r with Ok r => accepted r | Throw _ => false end.

Lemma evaluateAutomatedConsensus_majority_witness :
  is_accepted (evaluateAutomatedConsensus (demo_input None)) = true ∧
  ∃ c, 2 ≤ count (fun m => names c m && reaches_floor m) [Demo.checked; Demo.checked].
Proof.
  assert (Hb : is_accepted (evaluateAutomatedConsensus (demo_input None)) = true)
    by (vm_compute; reflexivity).
  split; [exact Hb|].
  destruct (evaluateAutomatedConsensus (demo_input None)) as [r|e] eqn:E; [|discriminate Hb].
  destruct (proj1 (proj1 (evaluateAutomatedConsensus_majority (demo_input None) r
    ltac:(unfold MAX_SAFE_INTEGER; cbn; lia) E)) Hb) as (c & Hc & _).
  exists c. exact Hc.
Defined.
