(* ===== verification/ValidationRun.v ===== *)
(** * Validating one call

    [src/automation/validationRun.ts]: a second opinion, a tie-breaker when the
    two do not settle the call, the consensus, and the verified charge. The
    classifiers and the database are ports; each use of one is an event. *)

From S2P Require Import Prelude JsNumber JsText CanonicalJson Decimal KserveRules ReauditTypes CategoryPolicy VerifiedCharge Transcript Classification ReauditAudit Persisted Consensus.

Local Open Scope string_scope.
Local Open Scope list_scope.
#[global] Open Scope Z_scope.

Record AutomatedValidationCandidate : Type := {
  vc_callId : string;
  vc_auditRunId : string;
  vc_language : string;
  vc_recordedDurationMs : Z;
  vc_speechDurationMs : Z;
  vc_connectedDurationMs : option Z;
  vc_claimedDurationMs : option Z;
  vc_primary : MC;
  vc_segments : list TranscriptSegment;
  vc_evidence : list EvidenceHashReference;
}.

(** [agentFailureTrace]: present for agent failures only. *)
Definition agentFailureTrace (m : MC) : option AgentFailureRef :=
  if bool_decide (mc_category m = AGENT_FAILURE) then
    Some {| af_mode := mc_agentFailureMode m;
            af_meaningfulServiceBeforeFailure :=
              bool_decide (mc_meaningfulServiceBeforeFailure m = Some true);
            af_failureStartMs := mc_failureStartMs m |}
  else None.

(** The trace entry of one pass. *)
Definition pass_json (m : MC) (billableDurationMs : option Z) : json :=
  JObj ([("model", model_json (mc_model m));
         ("category", JStr (category_text (mc_category m)));
         ("confidence", JStr (mc_confidence m));
         ("customerSpoke", JBool (customerSpoke m));
         ("lastMeaningfulCustomerExchangeMs", jint_opt (mc_lastMeaningfulCustomerExchangeMs m))] ++
        optional "agentFailure" agentFailure_json (agentFailureTrace m) ++
        [("billableDurationMs", jint_opt billableDurationMs)]).

Definition reason_text (r : ConsensusReason) : string :=
  match r with
  | CATEGORY_DISAGREEMENT => "CATEGORY_DISAGREEMENT"
  | BILLABLE_DURATION_DISAGREEMENT => "BILLABLE_DURATION_DISAGREEMENT"
  | WINNING_CONSENSUS_CONFIDENCE_BELOW_FLOOR => "WINNING_CONSENSUS_CONFIDENCE_BELOW_FLOOR"
  end.

Definition validationTrace_json (primary secondary : MC) (adjudication : option MC)
    (r : ConsensusResult) : json :=
  JObj [("version", JStr AUTOMATED_VALIDATION_VERSION);
        ("threshold", JStr AUTOMATED_VALIDATION_THRESHOLD);
        ("primary", pass_json primary (Some (primaryBillableDurationMs r)));
        ("secondary", pass_json secondary (Some (secondaryBillableDurationMs r)));
        ("adjudicator",
          match adjudication with
          | Some a => pass_json a (adjudicatorBillableDurationMs r)
          | None => JNull
          end);
        ("outcome", JObj [
          ("status", JStr (if accepted r then "accepted" else "unresolved"));
          ("reasons", JArr (map (fun x => JStr (reason_text x)) (reasons r)))])].

(** The category charge of a pass and its decision. *)
Definition categoryCharge_of `{Platform} (m : MC) (d : CategoryChargeDecision) : CategoryCharge :=
  {| cc_category := mc_category m;
     serviceEndMs := dec_serviceEndMs d;
     graceMs := dec_graceMs d;
     policyCode := dec_policyCode d;
     policyVersion := CATEGORY_CHARGE_POLICY_VERSION;
     policySha256 := CATEGORY_CHARGE_POLICY_SHA256;
     agentFailure := agentFailureTrace m |}.

Section BillingInput.
Context `{Platform, ClassifierRuleset}.

Definition billingInput (candidate : AutomatedValidationCandidate) (r : ConsensusResult)
    (traceSha256 decidedAt : string) : VerifiedBillingInput :=
  {| VerifiedCharge.callId := vc_callId candidate;
     auditRunId := vc_auditRunId candidate;
     claimedDurationMs := vc_claimedDurationMs candidate;
     connectedDurationMs := vc_connectedDurationMs candidate;
     recordedDurationMs := vc_recordedDurationMs candidate;
     speechDurationMs := Some (vc_speechDurationMs candidate);
     conversationAssessment :=
       match selectedClassification r with
       | Some m => if customerSpoke m then established else no_meaningful_exchange
       | None => no_meaningful_exchange
       end;
     lastMeaningfulCustomerExchangeMs :=
       selectedClassification r ≫= mc_lastMeaningfulCustomerExchangeMs;
     categoryCharge :=
       match selectedClassification r, selectedChargeDecision r with
       | Some m, Some d => Some (categoryCharge_of m d)
       | _, _ => None
       end;
     model := mc_model (from_option id (vc_primary candidate) (selectedClassification r));
     classifierRulesetVersion := REAUDIT_CLASSIFIER_RULESET_VERSION;
     classifierRulesetSha256 := REAUDIT_CLASSIFIER_RULESET_SHA256;
     evidence := vc_evidence candidate;
     authority := {|
       calibrationVersion := Some AUTOMATED_VALIDATION_VERSION;
       calibrationComplete := accepted r;
       validationMethod := Some automated_consensus;
       validationTraceSha256 := Some traceSha256;
       confidence := effectiveConfidence r;
       threshold := Some AUTOMATED_VALIDATION_THRESHOLD;
       auth_language := vc_language candidate;
       findingType :=
         category_text (mc_category (from_option id (vc_primary candidate) (selectedClassification r)));
       sensitivityTier := K0;
       recheckAttempt := 1;
       maximumRechecks := 3 |};
     calculatedAt := decidedAt |}.
End BillingInput.

(** ** The run *)

(** The ports of a run: what each opinion and each write does. *)
Class Reviewers : Type := {
  reviewer : Classifier;
  adjudicator : option Classifier;
  saveValidation : Prelude.result (option failure) unit;
  saveBilling : Prelude.result (option failure) unit;
}.

(** [FinalizeFindings] may fail without failing the run. *)
Inductive run_event : Type :=
| Asked (who : Source)
| PersistValidation
| PersistBilling
| FinalizeFindings.

Record AutomatedValidationOutcome : Type := {
  vo_callId : string;
  vo_accepted : bool;
  vo_reasons : list ConsensusReason;
  billingFinal : bool;
  vo_amount : option string;
  vo_policyCode : option CategoryChargePolicyCode;
}.

Section Run.
Context `{Platform, ClassifierRuleset, Reviewers}.
Context (candidate : AutomatedValidationCandidate) (rateCard : PublishedRateCard)
        (decidedAt : string) (dryRun : bool).

Definition run (A : Type) : Type := list run_event * Prelude.result thrown A.

#[local] Instance run_ret : MRet run := fun A a => ([], Ok a).
#[local] Instance run_bind : MBind run := fun A B k m =>
  match m with
  | (es, Ok a) => let '(es', r) := k a in (es ++ es', r)
  | (es, Throw e) => (es, Throw e)
  end.

Definition lift {A} (m : Prelude.result js_error A) : run A :=
  ([], match m with Ok a => Ok a | Throw e => Throw (Raised e) end).

Definition perform (e : run_event) (m : Prelude.result (option failure) unit) : run unit :=
  ([e], match m with Ok a => Ok a | Throw f => Throw (Rejected f) end).

(** [if (!dryRun) { ... }] *)
Definition unless_dry (m : run unit) : run unit := if dryRun then ([], Ok tt) else m.

Definition run_mismatch : bool :=
  match vc_connectedDurationMs candidate with
  | None => false
  | Some c => 5000 <? Z.abs (c - vc_recordedDurationMs candidate)
  end.

(** One opinion, held to the rules of the primary audit. *)
Definition opinion (who : Source) (ai : Classifier) (blocks : list NaturalSpeechBlock) : run MC :=
  ([Asked who],
   match ai {| cl_blocks := blocks;
               cl_language := vc_language candidate;
               cl_recordedDurationMs := vc_recordedDurationMs candidate;
               cl_speechDurationMs := vc_speechDurationMs candidate;
               cl_connectedDurationMs := vc_connectedDurationMs candidate;
               cl_durationMismatch := run_mismatch |} with
   | Throw e => Throw (Rejected e)
   | Ok raw =>
       match validateOrRepair raw blocks (vc_recordedDurationMs candidate) run_mismatch with
       | Some c => Ok c
       | None => Throw (Raised (PlainError "Consensus classification output is unrecoverable"))
       end
   end).

Definition consensus_input (secondary : MC) (adjudication : option MC) : ConsensusInput :=
  {| ci_primary := vc_primary candidate; ci_secondary := secondary;
     ci_adjudicator := adjudication; ci_recordedDurationMs := vc_recordedDurationMs candidate |}.

(** Steps 1 to 3: two passes, and a third when they do not settle the call. *)
Definition opinions : run (MC * option MC * ConsensusResult) :=
  blocks ← lift (mergeTranscriptSegments (vc_segments candidate));
  secondary ← opinion src_secondary reviewer blocks;
  consensus ← lift (evaluateAutomatedConsensus (consensus_input secondary None));
  match accepted consensus, adjudicator with
  | false, Some ai =>
      adjudication ← opinion src_adjudicator ai blocks;
      consensus ← lift (evaluateAutomatedConsensus (consensus_input secondary (Some adjudication)));
      mret (secondary, Some adjudication, consensus)
  | _, _ => mret (secondary, None, consensus)
  end.

Definition is_final (b : VerifiedBillingResult) : bool :=
  match b with BillingFinal _ => true | BillingUnresolved _ => false end.

Definition runAutomatedValidation : run AutomatedValidationOutcome :=
  result ← opinions;
  let '(secondary, adjudication, consensus) := result in
  unless_dry (perform PersistValidation saveValidation) ≫= fun _ =>
  traceSha256 ← lift (canonicalJsonSha256
    (validationTrace_json (vc_primary candidate) secondary adjudication consensus));
  billing ← lift (calculateVerifiedKServeCharge
    (billingInput candidate consensus traceSha256 decidedAt) rateCard);
  unless_dry (perform PersistBilling saveBilling ≫= fun _ =>
    if is_final billing then ([FinalizeFindings], Ok tt) else mret tt) ≫= fun _ =>
  mret {| vo_callId := vc_callId candidate;
          vo_accepted := accepted consensus;
          vo_reasons := reasons consensus;
          billingFinal := is_final billing;
          vo_amount := match billing with BillingFinal f => Some (fin_amount f) | _ => None end;
          vo_policyCode := dec_policyCode <$> selectedChargeDecision consensus |}.
End Run.

(** ** Facts: what validation promises to pricing *)

Section Promise.
Context `{Platform}.
Context (segments : list TranscriptSegment) (blocks : list NaturalSpeechBlock) (recorded : Z).
Context (raw : ModelClassification string) (dm : bool) (c : MC) (d : ClassificationDecisionSignals).
Hypothesis Hmerge : mergeTranscriptSegments segments = Ok blocks.
Hypothesis Hvalid : validateClassification raw blocks recorded dm = Ok c.
Hypothesis Hsignals : decisionSignals raw = Some d.
Hypothesis Hends : ∀ b, b ∈ blocks → 0 < block_endMs b.
Hypothesis Hrecorded : 0 < recorded ≤ MAX_SAFE_INTEGER.

Lemma block_of n : 1 ≤ n ≤ Z.of_nat (length blocks) → ∃ b, b ∈ blocks ∧ number b = n.
Proof using Hmerge. by apply merged_covers with segments. Qed.

(** A non-empty role has a positive latest end. *)
Lemma latest_positive l (P : Z → bool) :
  (∀ n, n ∈ l → 1 ≤ n ≤ Z.of_nat (length blocks)) → (∀ n, n ∈ l → P n = true) → l ≠ [] →
  ∃ t, list_max (ends blocks recorded P) = Some t ∧ 0 < t ≤ recorded.
Proof using Hmerge Hends Hrecorded.
  intros Hl HP Hne. destruct (list_max (ends blocks recorded P)) as [t|] eqn:E.
  - exists t. split; [done|]. apply list_max_elem, elem_of_ends in E as (b & Hb & _ & ->).
    specialize (Hends b Hb). lia.
  - exfalso. apply list_max_None in E. destruct l as [|n l]; [done|].
    destruct (block_of n (Hl n ltac:(left))) as (b & Hb & <-).
    assert (Z.min (block_endMs b) recorded ∈ @nil Z) as Hin.
    { rewrite <- E. apply elem_of_ends. exists b. split; [done|]. split; [apply HP; left|done]. }
    by apply elem_of_nil in Hin.
Qed.

Lemma latest_some_positive P t :
  list_max (ends blocks recorded P) = Some t → 0 < t ≤ recorded.
Proof using Hends Hrecorded.
  intros E. apply list_max_elem, elem_of_ends in E as (b & Hb & _ & ->). specialize (Hends b Hb). lia.
Qed.

Lemma role_range l n :
  n ∈ normalizeBlocks blocks l → 1 ≤ n ≤ Z.of_nat (length blocks).
Proof. rewrite normalizeBlocks_range. tauto. Qed.

(** The reviewed category, with what the classification holds for it. *)
Lemma category_support :
  (customers raw blocks = [] →
     mc_category c ∈ [VOICEMAIL; AI_TO_AI; USER_SILENCE; JUNK_CALL; INACTIVE_CALL]) ∧
  (mc_category c = USER_SILENCE → agents raw blocks ≠ []).
Proof using Hvalid Hsignals.
  destruct (validateClassification_inv _ _ _ _ _ Hvalid)
    as (proposed & category & _ & _ & _ & _ & _ & _ & Hres & Hsil & _ & ->).
  split; [|intros E; apply Hsil, E]. intros Hc. cbn [mc_category validated].
  assert (∃ s, ro_decisionSignals (reviewOptions raw blocks recorded proposed dm) = Some s) as [s Hs].
  { cbn. unfold validatedSignals. rewrite Hsignals. eauto. }
  apply (resolve_resolved _ s _ Hs) in Hres.
  cbn [mc_category validated].
  destruct Hres as [Hv He|Hn|Ha He|Hj Hb|Hn|ag Ha|cat Hn _ _];
    try (apply (bool_decide_unpack _); exact I).
  - cbn in Hn. by rewrite Hc in Hn.
  - destruct (0 <? ag); apply (bool_decide_unpack _); exact I.
  - cbn in Hn. rewrite Hc in Hn. by destruct Hn.
Qed.

Notation e := (charge_evidence c recorded).
Notation charge := (categoryCharge_of c (resolveCategoryCharge e)).

Lemma charged_positive code g t :
  0 < t ≤ recorded → resolveCategoryCharge e = decision e code (Some t) g →
  chargedShape charge code g = true.
Proof.
  intros Ht Hd. unfold chargedShape, categoryCharge_of. rewrite Hd.
  cbn [policyCode serviceEndMs graceMs dec_policyCode dec_serviceEndMs dec_graceMs decision boundedEnd
    ev_recordedDurationMs charge_evidence].
  rewrite bool_decide_true, Z.eqb_refl by done.
  rewrite (proj2 (Z.ltb_lt 0 _)) by lia. done.
Qed.

(** The failure facts and their charge have the shape the charge engine wants. *)
Lemma failure_shape :
  mc_category c = AGENT_FAILURE → structurallyValid charge = true.
Proof using Hvalid Hrecorded.
  intros Hc. destruct (validateClassification_inv _ _ _ _ _ Hvalid)
    as (proposed & category & _ & _ & _ & _ & _ & _ & _ & _ & _ & Ec).
  assert (category = AGENT_FAILURE) as -> by by rewrite Ec in Hc.
  pose proof (failure_shapes blocks (customers raw blocks) (agents raw blocks) recorded AGENT_FAILURE
    (match validatedSignals raw blocks with Some d => text_of (sg_agentFailureMode d) | None => None end)
    (agentFailureStartBlockNumber raw)) as Hshape. cbv zeta in Hshape.
  fold (failureEvidence raw blocks recorded AGENT_FAILURE) in Hshape.
  unfold structurallyValid, categoryCharge_of, agentFailureTrace, zeroShape, chargedShape.
  cbn [cc_category agentFailure policyCode serviceEndMs graceMs].
  rewrite Hc, (bool_decide_true (AGENT_FAILURE = AGENT_FAILURE)) by done. cbn [mbind option_bind af_mode
    af_meaningfulServiceBeforeFailure af_failureStartMs].
  unfold resolveCategoryCharge, failure_chargeable.
  cbn [ev_category charge_evidence agentFailureMode ev_meaningfulServiceBeforeFailure ev_failureStartMs
    ev_recordedDurationMs]. rewrite Hc.
  assert (mc_agentFailureMode c = fe_mode (failureEvidence raw blocks recorded AGENT_FAILURE) ∧
    mc_meaningfulServiceBeforeFailure c =
      Some (fe_meaningfulServiceBeforeFailure (failureEvidence raw blocks recorded AGENT_FAILURE)) ∧
    mc_failureStartMs c = fe_failureStartMs (failureEvidence raw blocks recorded AGENT_FAILURE))
    as (-> & -> & ->) by by rewrite Ec.
  destruct Hshape as [[_ Hx]|[[-> _]|(f & k & -> & _ & Hf & _ & Hs)]]; [done| |].
  - reflexivity.
  - apply servedBefore_true in Hs as (Hpos & _).
    cbn [fe_mode fe_meaningfulServiceBeforeFailure fe_failureStartMs midConversation].
    rewrite !(bool_decide_true (Some _ = Some _)), (proj2 (isSafeInteger_spec f)),
      (proj2 (Z.ltb_lt 0 f)), (proj2 (Z.leb_le f recorded)) by (done || lia).
    cbn [andb negb decision dec_policyCode dec_serviceEndMs dec_graceMs boundedEnd ev_recordedDurationMs
      charge_evidence].
    rewrite Z.max_r, Z.min_r by lia.
    rewrite (proj2 (Z.ltb_lt 0 f)) by lia. rewrite !(bool_decide_true (Some f = Some f)) by done.
    reflexivity.
Qed.

Lemma validated_form : ∃ category, c = validated raw blocks recorded category.
Proof using Hvalid.
  destruct (validateClassification_inv _ _ _ _ _ Hvalid) as (? & k & _ & _ & _ & _ & _ & _ & _ & _ & _ & E).
  by exists k.
Qed.

(** Every moment of a classification falls inside the recording. *)
Lemma moments_inside t :
  Some t ∈ [mc_lastMeaningfulCustomerExchangeMs c; mc_lastMeaningfulAgentExchangeMs c;
            mc_firstAgentTurnEndMs c; mc_lastVoicemailExchangeMs c;
            mc_lastBusinessRelevantCustomerExchangeMs c; mc_lastVerifiedInteractionMs c] →
  0 < t ≤ recorded.
Proof using Hvalid Hends Hrecorded.
  destruct validated_form as [k ->]. cbn. intros Hin.
  repeat (apply elem_of_cons in Hin as [Hin|Hin]); [..|by apply elem_of_nil in Hin];
    try by eapply latest_some_positive.
  pose proof (firstAgentTurnEnd_spec blocks (agents raw blocks) recorded) as Hf.
  rewrite <- Hin in Hf. destruct Hf as (b & Hb & _ & -> & _). specialize (Hends b Hb). lia.
Qed.

(** A conversation has a last word of the customer; a silence, an introduction. *)
Lemma customer_moment :
  mc_category c ∈ [OK; CONNECT_NOT_FRUITFUL; TIME_DURATION] →
  ∃ t, mc_lastMeaningfulCustomerExchangeMs c = Some t.
Proof using Hmerge Hvalid Hsignals Hends Hrecorded.
  intros Hc. destruct category_support as [Hs _].
  assert (customers raw blocks ≠ []) as Hne.
  { intros E. specialize (Hs E). revert Hc Hs. destruct (mc_category c); intros Hc Hs;
      first [exact (bool_decide_pack _ Hc) | exact (bool_decide_pack _ Hs)]. }
  destruct validated_form as [k ->]. cbn.
  edestruct (latest_positive (customers raw blocks) (includes (customers raw blocks)))
    as (t & Ht & _); [|by intros n; apply includes_true|done|by exists t].
  intros n. apply role_range.
Qed.

Lemma introduction_moment :
  mc_category c = USER_SILENCE → ∃ t, mc_firstAgentTurnEndMs c = Some t.
Proof using Hmerge Hvalid Hsignals Hrecorded.
  intros Hc. destruct category_support as [_ Hs]. specialize (Hs Hc).
  destruct (validateClassification_inv _ _ _ _ _ Hvalid)
    as (? & k & _ & _ & _ & _ & Hrange & _ & _ & _ & _ & ->). cbn.
  pose proof (firstAgentTurnEnd_spec blocks (agents raw blocks) recorded) as Hf.
  destruct (firstAgentTurnEnd _ _ _) as [t|]; [by exists t|].
  destruct (agents raw blocks) as [|n l] eqn:E; [done|].
  assert (n ∈ agents raw blocks) as Hn by (rewrite E; left).
  unfold agents in Hn. apply list_elem_of_filter in Hn as [_ Hn]. apply role_range in Hn.
  exfalso. destruct (block_of n Hn) as (b & Hb & Eb). apply (Hf b Hb). rewrite Eb. left.
Qed.

Lemma zero_priced code g :
  resolveCategoryCharge e = decision e code None g →
  bool_decide (policyCode charge = code) && (serviceEndMs charge =? 0) && (graceMs charge =? g) = true.
Proof.
  intros Hd. unfold categoryCharge_of. rewrite Hd. cbn. by rewrite bool_decide_true, Z.eqb_refl.
Qed.

(** A category that charges the moment [o], when it has one. *)
Lemma moment_priced code g o t :
  o = Some t →
  o ∈ [mc_lastMeaningfulCustomerExchangeMs c; mc_lastMeaningfulAgentExchangeMs c;
       mc_firstAgentTurnEndMs c; mc_lastVoicemailExchangeMs c;
       mc_lastBusinessRelevantCustomerExchangeMs c; mc_lastVerifiedInteractionMs c] →
  resolveCategoryCharge e = decision e code (Some t) g → chargedShape charge code g = true.
Proof using Hvalid Hends Hrecorded.
  intros -> Ho Hd. eapply charged_positive; [|done]. by apply moments_inside.
Qed.

Lemma voicemail_moment :
  mc_lastMeaningfulAgentExchangeMs c ≠ None ∨ mc_lastVoicemailExchangeMs c ≠ None →
  0 < Z.max (from_null 0 (mc_lastMeaningfulAgentExchangeMs c))
            (from_null 0 (mc_lastVoicemailExchangeMs c)) ≤ recorded.
Proof using Hvalid Hends Hrecorded.
  intros Ho. pose proof moments_inside as Hin.
  assert (∀ t, Some t = mc_lastMeaningfulAgentExchangeMs c → 0 < t ≤ recorded) as Ha
    by (intros t E; apply Hin; rewrite !elem_of_cons; tauto).
  assert (∀ t, Some t = mc_lastVoicemailExchangeMs c → 0 < t ≤ recorded) as Hv
    by (intros t E; apply Hin; rewrite !elem_of_cons; tauto).
  destruct (mc_lastMeaningfulAgentExchangeMs c) as [a|], (mc_lastVoicemailExchangeMs c) as [v|]; cbn;
    try (specialize (Ha _ eq_refl)); try (specialize (Hv _ eq_refl)); [lia..|by destruct Ho].
Qed.

Ltac by_policy Hc := unfold resolveCategoryCharge; cbn [ev_category charge_evidence]; rewrite Hc.

(** Whatever the category, its charge has the shape the charge engine demands. *)
Lemma charge_shape :
  (mc_category c = VOICEMAIL →
     mc_lastMeaningfulAgentExchangeMs c ≠ None ∨ mc_lastVoicemailExchangeMs c ≠ None) →
  structurallyValid charge = true.
Proof using Hmerge Hvalid Hsignals Hends Hrecorded.
  intros Hvm. destruct (decide (mc_category c = AGENT_FAILURE)) as [Ha|Ha]; [by apply failure_shape|].
  unfold structurallyValid. change (cc_category charge) with (mc_category c).
  destruct (mc_category c) eqn:Hc; try done; try (apply zero_priced; by by_policy Hc).
  1,2,7: destruct customer_moment as [t Ht];
    [rewrite Hc; apply (bool_decide_unpack _); exact I|];
    apply (moment_priced _ _ _ t Ht); [left|]; by_policy Hc; cbn [lastCustomerExchangeMs charge_evidence];
    by rewrite Ht.
  - destruct (mc_lastVerifiedInteractionMs c) as [t|] eqn:Ht; apply orb_true_iff.
    + left. apply (moment_priced _ _ _ t Ht); [rewrite !elem_of_cons; tauto|]. by_policy Hc.
      cbn [lastVerifiedInteractionMs charge_evidence]. by rewrite Ht.
    + right. apply zero_priced. by_policy Hc. cbn [lastVerifiedInteractionMs charge_evidence]. by rewrite Ht.
  - eapply charged_positive; [apply voicemail_moment, Hvm, eq_refl|]. by_policy Hc. cbn zeta.
    pose proof (voicemail_moment (Hvm eq_refl)) as Hm. cbn [lastAgentExchangeMs lastVoicemailExchangeMs charge_evidence].
    by rewrite (proj2 (Z.eqb_neq _ 0)) by lia.
  - destruct (introduction_moment Hc) as [t Ht]. apply (moment_priced _ _ _ t Ht); [rewrite !elem_of_cons; tauto|].
    by_policy Hc. cbn [firstAgentTurnEndMs charge_evidence]. by rewrite Ht.
  - destruct (mc_lastBusinessRelevantCustomerExchangeMs c) as [t|] eqn:Ht; apply orb_true_iff.
    + left. apply (moment_priced _ _ _ t Ht); [rewrite !elem_of_cons; tauto|]. by_policy Hc.
      cbn [lastBusinessRelevantCustomerExchangeMs charge_evidence]. by rewrite Ht.
    + right. apply zero_priced. by_policy Hc.
      cbn [lastBusinessRelevantCustomerExchangeMs charge_evidence]. by rewrite Ht.
Qed.
End Promise.

(** ** Facts: the run *)

Lemma finite_pass m d : finite (pass_json m d) = true.
Proof.
  cbn [finite pass_json]. rewrite !forallb_app. cbn.
  rewrite finite_optional by apply finite_agentFailure. by rewrite !finite_jint_opt.
Qed.

Lemma finite_validationTrace p s a r : finite (validationTrace_json p s a r) = true.
Proof.
  assert (forallb finite (map (fun x => JStr (reason_text x)) (reasons r)) = true) as Hr
    by by induction (reasons r).
  cbn -[pass_json]. rewrite !finite_pass, Hr.
  destruct a; by rewrite ?finite_pass.
Qed.

(** The confidence the consensus writes is the one the gate reads. *)
Lemma decimalToScale8_value v c name :
  0 ≤ v → decimalToScale8 (show_fixed 8 v) name = Ok c → c = v.
Proof.
  intros Hv H. unfold decimalToScale8 in H. rewrite split_show_fixed in H by (lia || done).
  destruct (_ && _); [|done]. destruct (_ <? _); [done|]. apply Ok_inj in H. rewrite <- H.
  destruct (fixed_fraction 8 ltac:(lia) v) as (_ & Hl & _). cbn [from_null default from_option id].
  change "00000000" with (zeros 8). rewrite str_take_exact by done.
  pose proof (show_fixed_value 8 ltac:(lia) v Hv) as E. rewrite dec_value_append in E.
  unfold len in E. rewrite Hl in E. exact E.
Qed.

Section RunFacts.
Context `{Platform, ClassifierRuleset, Reviewers}.
Context (candidate : AutomatedValidationCandidate).

(** The opinions are asked in order, the tie-breaker only when it is needed. *)
Lemma opinions_inv asked secondary adjudication consensus :
  opinions candidate = (asked, Ok (secondary, adjudication, consensus)) →
  evaluateAutomatedConsensus (consensus_input candidate secondary adjudication) = Ok consensus ∧
  asked = Asked src_secondary :: (if present adjudication then [Asked src_adjudicator] else []).
Proof.
  unfold opinions, lift, opinion, mbind, run_bind, mret, run_ret.
  destruct (mergeTranscriptSegments _) as [blocks|]; [|done].
  destruct (reviewer _) as [raw|]; [|done]. destruct (validateOrRepair raw _ _ _) as [s|]; [|done].
  destruct (evaluateAutomatedConsensus (consensus_input candidate s None)) as [r|] eqn:E; [|done].
  destruct (accepted r); cbn -[evaluateAutomatedConsensus]; [intros [= <- <- <- <-]; done|].
  destruct adjudicator as [ai|]; cbn -[evaluateAutomatedConsensus]; [|intros [= <- <- <- <-]; done].
  destruct (ai _) as [raw'|]; [|done]. destruct (validateOrRepair raw' _ _ _) as [a|]; [|done].
  destruct (evaluateAutomatedConsensus (consensus_input candidate s (Some a))) as [r'|] eqn:E'; [|done].
  cbn -[evaluateAutomatedConsensus]. intros [= <- <- <- <-]. done.
Qed.

(** The gate of the charge engine is the verdict of the consensus. *)
Lemma run_gate secondary adjudication consensus t decidedAt :
  evaluateAutomatedConsensus (consensus_input candidate secondary adjudication) = Ok consensus →
  validateInput (billingInput candidate consensus t decidedAt) = Ok tt →
  let i := billingInput candidate consensus t decidedAt in
  gate_open (authority i) (conversationAssessment i) ↔ accepted consensus = true.
Proof.
  intros He Hi i. split; [by intros [Hc _]|]. intros Ha. split; [done|]. split.
  { cbn. destruct (selectedClassification consensus) as [m|]; [|done]. by destruct (customerSpoke m). }
  destruct (accepted_confidence _ _ He Ha) as (v & Ev & Hv).
  destruct (validateInput_facts _ Hi) as (_ & _ & _ & _ & _ & [c Hc] & _).
  exists AUTOMATED_VALIDATION_THRESHOLD, c, 65000000. do 2 (split; [done|]). split; [exact Hc|].
  split; [reflexivity|]. cbn [authority confidence billingInput] in Hc. rewrite Ev in Hc.
  unfold AUTOMATED_THRESHOLD in Hv. apply decimalToScale8_value in Hc; lia.
Qed.

(** A run's charge is final exactly when its consensus accepted, and rounds the
    chargeable time of its input. *)
Lemma run_charge secondary adjudication consensus t decidedAt rateCard :
  evaluateAutomatedConsensus (consensus_input candidate secondary adjudication) = Ok consensus →
  let i := billingInput candidate consensus t decidedAt in
  validateInput i = Ok tt → validateRateCard rateCard = Ok tt →
  vc_recordedDurationMs candidate ≤ MAX_SAFE_INTEGER - 60000 →
  ∃ b, calculateVerifiedKServeCharge i rateCard = Ok b ∧ is_final b = accepted consensus ∧
    ∀ f, b = BillingFinal f → fin_amount f = amount (charge_of (charged_half_minutes i)).
Proof.
  intros He i Hi Hcard Hrec.
  pose proof (chargeable_ms_bounds i (validateInput_basis _ Hi)) as Hm.
  destruct (charge_total i rateCard Hi Hcard) as [b Hb]; [cbn in Hm; lia|].
  exists b. split; [done|]. destruct (charge_inv _ _ _ Hb) as (_ & _ & d & Hd & Hres).
  destruct (charge_gate i Hi) as (d' & Hd' & Hg & _). rewrite Hd in Hd'. injection Hd' as <-.
  pose proof (run_gate _ _ _ t decidedAt He Hi) as Hgate. cbv zeta in Hgate. fold i in Hgate.
  rewrite Hgate in Hg. destruct b as [f|u].
  - destruct Hres as (Hf & c & Hc & _ & _ & _ & Ea & _).
    split; [cbn; symmetry; by apply Hg|]. intros ? [= <-].
    pose proof (calculate_spec i (validateInput_basis _ Hi)) as Hs. rewrite Hc in Hs.
    destruct Hs as (_ & E & _). by rewrite Ea, E.
  - destruct Hres as (Hf & _). split; [|done]. cbn. symmetry. apply not_true_iff_false.
    intros Ha. apply Hg in Ha. congruence.
Qed.

(** The half-minutes a run bills for a pass: those of the policy's charge, cut at the
    connected time when one is known, and no more than the vendor claimed. *)
Definition billed_half_minutes (m : MC) : Z :=
  let due := policy_charge (charge_evidence m (vc_recordedDurationMs candidate)) in
  let due := match vc_connectedDurationMs candidate with
             | Some k => if 0 <? k then Z.min due k else due
             | None => due
             end in
  match vc_claimedDurationMs candidate with
  | Some claimed => Z.min (half_minutes due) (vendor_half_minutes claimed)
  | None => half_minutes due
  end.

Lemma selected_half_minutes consensus m t decidedAt :
  let i := billingInput candidate consensus t decidedAt in
  let e := charge_evidence m (vc_recordedDurationMs candidate) in
  selectedClassification consensus = Some m →
  selectedChargeDecision consensus = Some (resolveCategoryCharge e) →
  validateInput i = Ok tt →
  charged_half_minutes i = billed_half_minutes m ∧ 0 ≤ billed_half_minutes m.
Proof.
  intros i e Hm Hd Hi. pose proof (validateInput_basis _ Hi) as Hb.
  enough (charged_half_minutes i = billed_half_minutes m) as E.
  { split; [done|]. rewrite <- E. apply (charged_half_minutes_bounds i Hb). }
  assert (recorded_ok e) as Hrec by exact (basis_recorded _ Hb).
  destruct (resolve_bounds e Hrec) as (_ & _ & Hadj).
  assert (charge_basis i = (dec_serviceEndMs (resolveCategoryCharge e), dec_graceMs (resolveCategoryCharge e))) as Eb.
  { unfold charge_basis, i. cbn [categoryCharge billingInput]. by rewrite Hm, Hd. }
  unfold charged_half_minutes, chargeable_ms, billed_half_minutes. rewrite Eb. cbn [fst snd].
  change (recordedDurationMs i) with (ev_recordedDurationMs e). rewrite <- Hadj, (resolve_charge e Hrec). done.
Qed.
End RunFacts.

(** ** Properties *)

(** Validation promises pricing what pricing demands. A classification that
    validation accepted from live signals, over blocks merged from a transcript,
    always yields a category charge whose shape the charge engine accepts: its
    service end is inside the recording, an established conversation carries the
    moment of the customer's last word, inside the recording and positive, and a
    call without the customer's voice carries none. The only proviso is a
    voicemail, for which some agent or voicemail block must have been heard. *)
Theorem validated_charge_accepted `{Platform} segments blocks recorded raw dm c d
    (Hmerge : mergeTranscriptSegments segments = Ok blocks)
    (Hvalid : validateClassification raw blocks recorded dm = Ok c)
    (Hsignals : decisionSignals raw = Some d)
    (Hends : ∀ b, b ∈ blocks → 0 < block_endMs b)
    (Hrecorded : 0 < recorded ≤ MAX_SAFE_INTEGER)
    (Hvoicemail : mc_category c = VOICEMAIL →
       mc_lastMeaningfulAgentExchangeMs c ≠ None ∨ mc_lastVoicemailExchangeMs c ≠ None) :
  let charge := categoryCharge_of c (resolveCategoryCharge (charge_evidence c recorded)) in
  structurallyValid charge = true ∧
  0 ≤ serviceEndMs charge ≤ recorded ∧
  (customerSpoke c = true → ∃ t, mc_lastMeaningfulCustomerExchangeMs c = Some t ∧ 0 < t ≤ recorded) ∧
  (customerSpoke c = false → mc_lastMeaningfulCustomerExchangeMs c = None).
Proof.
  intros charge. split; [by eapply charge_shape|]. split.
  { apply (resolve_bounds (charge_evidence c recorded)). split; cbn; lia. }
  pose proof (moments_inside blocks recorded raw dm c Hvalid Hends Hrecorded) as Hin.
  destruct (validated_form _ _ _ _ _ Hvalid) as [k Hk].
  assert (customerSpoke c = negb (bool_decide (mc_lastMeaningfulCustomerExchangeMs c = None))) as ->.
  { rewrite Hk. cbn. f_equal. apply bool_decide_ext. by rewrite list_max_None. }
  destruct (mc_lastMeaningfulCustomerExchangeMs c) as [t|]; cbn; split; try done.
  intros _. exists t. split; [done|]. apply Hin. left.
Qed.

(** C6: the run bills what the consensus decides, and writes it in order; a dry run answers the
    same and writes nothing. Once the opinions are in (the second pass first, the tie-breaker
    only when the two do not settle the call) there is one outcome: the dry run returns it
    having written nothing; the run whose writes succeed returns that same outcome, having
    saved the validation, then the bill, then refreshed the findings when the bill is final;
    a write that fails ends the run before the next. The outcome is of this call, with the
    consensus's verdict and reasons; the bill is final exactly when the consensus accepted. Its
    policy code and its amount are those of the selected pass: 4.75 rupees per half-minute of
    the policy's charge, cut at the connected time, or of the vendor's claim when that is
    fewer. An unresolved call has no amount and no policy code. *)
Theorem runAutomatedValidation_bills `{Platform, ClassifierRuleset, Reviewers}
    candidate rateCard decidedAt asked secondary adjudication consensus
    (Hopinions : opinions candidate = (asked, Ok (secondary, adjudication, consensus)))
    (Hcard : validateRateCard rateCard = Ok tt)
    (Hinput : ∀ t, validateInput (billingInput candidate consensus t decidedAt) = Ok tt)
    (Hrecorded : 0 ≤ vc_recordedDurationMs candidate ≤ MAX_SAFE_INTEGER - 60000) :
  ∃ out,
    runAutomatedValidation candidate rateCard decidedAt true = (asked, Ok out) ∧
    runAutomatedValidation candidate rateCard decidedAt false =
      match saveValidation, saveBilling with
      | Throw e, _ => (asked ++ [PersistValidation], Throw (Rejected e))
      | Ok _, Throw e => (asked ++ [PersistValidation; PersistBilling], Throw (Rejected e))
      | Ok _, Ok _ => (asked ++ [PersistValidation; PersistBilling] ++
                        (if accepted consensus then [FinalizeFindings] else []), Ok out)
      end ∧
    asked = Asked src_secondary :: (if present adjudication then [Asked src_adjudicator] else []) ∧
    vo_callId out = vc_callId candidate ∧ vo_reasons out = reasons consensus ∧
    vo_accepted out = accepted consensus ∧ billingFinal out = accepted consensus ∧
    match selectedClassification consensus with
    | None => accepted consensus = false ∧ vo_amount out = None ∧ vo_policyCode out = None
    | Some m =>
        m ∈ passes (consensus_input candidate secondary adjudication) ∧ accepted consensus = true ∧
        vo_policyCode out =
          Some (dec_policyCode (resolveCategoryCharge (charge_evidence m (vc_recordedDurationMs candidate)))) ∧
        vo_amount out = Some (show_fixed 2 (475 * billed_half_minutes candidate m) +:+ "000000") ∧
        toScaled (vo_amount out) = Some (475 * billed_half_minutes candidate m * 1000000)
    end.
Proof.
  destruct (opinions_inv _ _ _ _ _ Hopinions) as [He Hasked].
  destruct (digest_total (validationTrace_json (vc_primary candidate) secondary adjudication consensus)
    (finite_validationTrace _ _ _ _)) as [t Ht].
  destruct (run_charge candidate _ _ _ t decidedAt rateCard He (Hinput t) Hcard ltac:(lia))
    as (b & Hb & Hfinal & Hamount).
  eexists. split; [|split; [|split; [exact Hasked|]]].
  { unfold runAutomatedValidation, mbind, run_bind. rewrite Hopinions, Ht. cbn [lift].
    unfold lift, unless_dry, mret, run_ret. by rewrite Hb, app_nil_r. }
  { unfold runAutomatedValidation, mbind, run_bind. rewrite Hopinions, Ht. cbn [lift].
    unfold lift, unless_dry, perform, mret, run_ret. rewrite Hb, Hfinal.
    destruct saveValidation as [[]|], saveBilling as [[]|], (accepted consensus); reflexivity. }
  cbn [vo_accepted billingFinal vo_amount vo_callId vo_reasons vo_policyCode]. do 4 (split; [done|]).
  pose proof (evaluate_selected (consensus_input candidate secondary adjudication) consensus
    ltac:(cbn [ci_recordedDurationMs consensus_input]; lia) He) as Hsel.
  destruct (selectedClassification consensus) as [m|] eqn:Em.
  - destruct Hsel as (Ha & Hin & Hd). do 2 (split; [done|]). rewrite Hd. split; [done|].
    destruct b as [f|u]; [|cbn in Hfinal; congruence]. rewrite (Hamount f eq_refl).
    destruct (selected_half_minutes candidate consensus m t decidedAt Em Hd (Hinput t)) as [-> Hh].
    split; [done|]. apply toScaled_paise. lia.
  - destruct Hsel as [Ha Hd]. split; [done|]. destruct b as [f|u]; [cbn in Hfinal; congruence|]. by rewrite Hd.
Qed.

(** ** Instances *)

Module DemoRun.
#[local] Existing Instance demo_platform.
#[local] Instance ruleset : ClassifierRuleset := {| REAUDIT_CLASSIFIER_RULESET_SHA256 := Sample.hex_a |}.

Definition candidate : AutomatedValidationCandidate := {|
  vc_callId := "call-1"; vc_auditRunId := "run-1"; vc_language := "en";
  vc_recordedDurationMs := 8000; vc_speechDurationMs := 7700;
  vc_connectedDurationMs := Some 9000; vc_claimedDurationMs := Some 60000;
  vc_primary := Demo.checked; vc_segments := demo_segments;
  vc_evidence := evidence Sample.the_input |}.

Definition model : Classifier := fun _ => Ok (Demo.raw "OK" "0.9" [2] [1; 3] []).
Definition doubter : Classifier := fun _ => Ok (Demo.raw "OK" "0.2" [2] [1; 3] []).

Definition reviewers (first : Classifier) (second : option Classifier) : Reviewers := {|
  reviewer := first; adjudicator := second; saveValidation := Ok tt; saveBilling := Ok tt |}.

Definition decided : string := "2026-08-01T00:00:00.000Z".

Definition summary (r : Prelude.result thrown AutomatedValidationOutcome)
    : option (bool * bool * option string) :=
  match r with Ok o => Some (vo_accepted o, billingFinal o, vo_amount o) | Throw _ => None end.

(** Two agreeing passes bill one minute. *)
Example agreed :
  let '(es, r) := @runAutomatedValidation _ _ (reviewers model None) candidate Sample.the_rate_card decided false in
  (es, summary r) =
  ([Asked src_secondary; PersistValidation; PersistBilling; FinalizeFindings],
   Some (true, true, Some "4.75000000")).
Proof. vm_compute. reflexivity. Qed.

(** An unsure second pass is settled by the tie-breaker, and unresolved without one. *)
Example settled :
  let '(es, r) := @runAutomatedValidation _ _ (reviewers doubter (Some model)) candidate Sample.the_rate_card decided false in
  (es, summary r) =
  ([Asked src_secondary; Asked src_adjudicator; PersistValidation; PersistBilling; FinalizeFindings],
   Some (true, true, Some "4.75000000")).
Proof. vm_compute. reflexivity. Qed.

Example unsettled :
  let '(es, r) := @runAutomatedValidation _ _ (reviewers doubter None) candidate Sample.the_rate_card decided false in
  (es, summary r) = ([Asked src_secondary; PersistValidation; PersistBilling], Some (false, false, None)).
Proof. vm_compute. reflexivity. Qed.
End DemoRun.

Lemma validated_charge_accepted_witness :
  structurallyValid (@categoryCharge_of demo_platform Demo.checked
    (resolveCategoryCharge (charge_evidence Demo.checked 8000))) = true.
Proof.
  apply (@validated_charge_accepted demo_platform demo_segments demo_blocks 8000
    (Demo.raw "OK" "0.9" [2] [1; 3] []) false Demo.checked Demo.signals).
  - vm_compute. reflexivity.
  - exact Demo.validates.
  - reflexivity.
  - apply Forall_forall. repeat constructor.
  - unfold MAX_SAFE_INTEGER. lia.
  - intros E. vm_compute in E. discriminate E.
Defined.

Lemma runAutomatedValidation_bills_witness :
  ∃ out,
    @runAutomatedValidation demo_platform DemoRun.ruleset (DemoRun.reviewers DemoRun.model None)
      DemoRun.candidate Sample.the_rate_card DemoRun.decided true = ([Asked src_secondary], Ok out) ∧
    @runAutomatedValidation demo_platform DemoRun.ruleset (DemoRun.reviewers DemoRun.model None)
      DemoRun.candidate Sample.the_rate_card DemoRun.decided false =
      ([Asked src_secondary; PersistValidation; PersistBilling; FinalizeFindings], Ok out) ∧
    vo_callId out = "call-1" ∧ billingFinal out = true.
Proof.
  pose (o := @opinions (DemoRun.reviewers DemoRun.model None) DemoRun.candidate).
  destruct o as [asked [[[s a] r]|e]] eqn:E; [|vm_compute in E; discriminate E].
  destruct (@runAutomatedValidation_bills demo_platform DemoRun.ruleset
    (DemoRun.reviewers DemoRun.model None) DemoRun.candidate Sample.the_rate_card DemoRun.decided
    asked s a r E) as (out & Hdry & Hrun & _ & Hid & _ & _ & Hfinal & _).
  - vm_compute. reflexivity.
  - intros t. vm_compute in E. injection E as <- <- <- <-. vm_compute. reflexivity.
  - unfold MAX_SAFE_INTEGER. cbn. lia.
  - exists out. vm_compute in E. injection E as <- <- <- <-.
    split; [exact Hdry|]. split; [exact Hrun|]. split; [exact Hid|exact Hfinal].
Defined.
