(* ===== verification/Failures.v ===== *)
(** * What a worker may say about a failure

    [src/reaudit/failures.ts]: every error a re-audit worker meets is reduced to
    the phase it happened in and one category of a fixed list. *)

From S2P Require Import Prelude.

Local Open Scope string_scope.
Local Open Scope list_scope.
#[global] Open Scope Z_scope.

Inductive ReauditPhase : Type :=
| phase_claim
| phase_processor
| phase_persist
| phase_progress
| phase_pool_acquisition.

Inductive ReauditErrorCategory : Type :=
| DB_CONNECTION_LIMIT
| DB_CONNECTION_TIMEOUT
| DB_LOCK_TIMEOUT
| DB_DEADLOCK
| DB_CONSTRAINT
| DB_UNKNOWN
| WORKER_LOCK_BUSY
| WORKER_LIFECYCLE.

#[export] Instance ReauditPhase_eq_dec : EqDecision ReauditPhase.
Proof. solve_decision. Defined.
#[export] Instance ReauditErrorCategory_eq_dec : EqDecision ReauditErrorCategory.
Proof. solve_decision. Defined.

Definition MYSQL_CODE_CATEGORIES : list (string * ReauditErrorCategory) := [
  ("ER_CON_COUNT_ERROR", DB_CONNECTION_LIMIT);
  ("ER_TOO_MANY_USER_CONNECTIONS", DB_CONNECTION_LIMIT);
  ("ER_USER_LIMIT_REACHED", DB_CONNECTION_LIMIT);
  ("ER_CONNECT_TIMEOUT", DB_CONNECTION_TIMEOUT);
  ("ETIMEDOUT", DB_CONNECTION_TIMEOUT);
  ("ECONNREFUSED", DB_CONNECTION_TIMEOUT);
  ("ECONNRESET", DB_CONNECTION_TIMEOUT);
  ("EPIPE", DB_CONNECTION_TIMEOUT);
  ("PROTOCOL_CONNECTION_LOST", DB_CONNECTION_TIMEOUT);
  ("ER_LOCK_WAIT_TIMEOUT", DB_LOCK_TIMEOUT);
  ("ER_LOCK_DEADLOCK", DB_DEADLOCK);
  ("ER_DUP_ENTRY", DB_CONSTRAINT);
  ("ER_NO_REFERENCED_ROW_2", DB_CONSTRAINT);
  ("ER_ROW_IS_REFERENCED_2", DB_CONSTRAINT);
  ("ER_BAD_NULL_ERROR", DB_CONSTRAINT)
].

(** The members an object literal inherits from [Object.prototype]: a lookup of
    one of these names in the table finds a value, though not a category. *)
Definition inherited_members : list string := [
  "constructor"; "__defineGetter__"; "__defineSetter__"; "hasOwnProperty";
  "__lookupGetter__"; "__lookupSetter__"; "isPrototypeOf"; "propertyIsEnumerable";
  "toString"; "valueOf"; "__proto__"; "toLocaleString"
].

(** What stands in the category of a worker error. *)
Inductive CategoryValue : Type :=
| Listed (c : ReauditErrorCategory)
| Inherited (member : string).

#[export] Instance CategoryValue_eq_dec : EqDecision CategoryValue.
Proof. solve_decision. Defined.

(** What classification reads of a thrown object: whether it is a [RangeError],
    and its [code], [errno] (an integer), [sqlState] and [kauditPhase] when these
    have the type the code tests for. *)
Record RawErrorShape : Type := {
  isRangeError : bool;
  er_code : option string;
  er_errno : option Z;
  er_sqlState : option string;
  er_kauditPhase : option string;
}.

(** A thrown value: already bounded, any other object, or not an object. *)
Inductive raised : Type :=
| ReauditFatalError (phase : ReauditPhase) (category : CategoryValue)
| ErrorObject (shape : RawErrorShape)
| Primitive.

(** [MYSQL_CODE_CATEGORIES[code]] *)
Definition table_value (code : string) : option CategoryValue :=
  match List.find (fun p => String.eqb p.1 code) MYSQL_CODE_CATEGORIES with
  | Some (_, c) => Some (Listed c)
  | None => if bool_decide (code ∈ inherited_members) then Some (Inherited code) else None
  end.

(** mysql2 reports some conditions on [errno] and [sqlState] alone. *)
Definition errno_category (s : RawErrorShape) : ReauditErrorCategory :=
  match er_errno s with
  | None => DB_UNKNOWN
  | Some n =>
      if n =? 1205 then DB_LOCK_TIMEOUT
      else if n =? 1213 then DB_DEADLOCK
      else if bool_decide (er_sqlState s = Some "HY000") && (n =? 1040) then DB_CONNECTION_LIMIT
      else if (1000 <=? n) && (n <? 2100) then DB_CONSTRAINT
      else DB_UNKNOWN
  end.

Definition classifyErrorCategory (error : raised) : CategoryValue :=
  match error with
  | ErrorObject s =>
      if isRangeError s ||
         bool_decide (er_code s = Some "REAUDIT_ITEM_STATE_CONFLICT") ||
         bool_decide (er_code s = Some "REAUDIT_QUEUE_UNAVAILABLE")
      then Listed WORKER_LIFECYCLE
      else
        match er_code s ≫= table_value with
        | Some v => v
        | None => Listed (errno_category s)
        end
  | ReauditFatalError _ _ | Primitive => Listed DB_UNKNOWN
  end.

Definition asReauditFatalError (phase : ReauditPhase) (error : raised) : ReauditPhase * CategoryValue :=
  match error with
  | ReauditFatalError p c => (p, c)
  | ErrorObject s =>
      (if bool_decide (er_kauditPhase s = Some "pool_acquisition") then phase_pool_acquisition else phase,
       classifyErrorCategory error)
  | Primitive => (phase, classifyErrorCategory error)
  end.

(** The error as it is kept once bounded. *)
Definition bounded (phase : ReauditPhase) (error : raised) : raised :=
  let '(p, c) := asReauditFatalError phase error in ReauditFatalError p c.

Lemma bounded_again phase phase' error :
  asReauditFatalError phase' (bounded phase error) = asReauditFatalError phase error.
Proof. unfold bounded. by destruct (asReauditFatalError phase error). Qed.

(** A table code that is not the name of an inherited member gives a listed
    category. *)
Lemma classify_listed s :
  (∀ m, m ∈ inherited_members → er_code s ≠ Some m) →
  ∃ c, classifyErrorCategory (ErrorObject s) = Listed c.
Proof.
  intros Hm. cbn [classifyErrorCategory]. destruct (_ || _ || _); [by eexists|].
  destruct (er_code s) as [code|]; cbn; [|by eexists].
  unfold table_value. destruct (List.find _ _) as [[k c]|]; [by eexists|].
  rewrite bool_decide_false; [by eexists|]. intros Hin. by apply (Hm code).
Qed.
