(* ===== verification/Worker.v ===== *)
(** * The re-audit worker

    [src/reaudit/worker.ts]: a batch of calls drained by concurrent slots that
    share a cursor, a summary and the first fatal error. A slot runs without
    interruption from one [await] to the next, so a state of the batch is the
    [await] each slot is at, and a step is the answer to one of them. The
    candidates, the results, the processor, the spend guard, the pause gate and
    the progress report are ports: a step may carry any answer they can give. *)

From S2P Require Import Prelude JsText ReauditTypes UrlSafety ReauditAudit Failures.

Local Open Scope string_scope.
Local Open Scope list_scope.
#[global] Open Scope Z_scope.

(** ** The ports *)

(** The right to spend on a call. *)
Inductive SpendRight : Type :=
| acquired
| busy
| closed (r : ReauditItemResult)
| recovered (r : ReauditItemResult).

Inductive Started : Type := start_acquired | start_already_completed.

Inductive PersistOutcome : Type :=
| persist_completed
| retry_scheduled
| terminal_failure
| persist_already_completed.

Inductive SettleOutcome : Type := model_spent | no_model_call | unknown.

#[export] Instance SettleOutcome_eq_dec : EqDecision SettleOutcome.
Proof. solve_decision. Defined.

(** An answer of a port: a value, or a rejection. *)
Notation port A := (Prelude.result raised A).

Record ReauditWorkerSummary : Type := {
  selected : nat;
  completed : nat;
  retriesScheduled : nat;
  terminalFailures : nat;
  alreadyCompleted : nat;
  spendGuardSkipped : nat;
  stoppedEarly : bool;
}.

(** The options that shape a batch; [concurrency] is [1] when absent. *)
Record WorkerOptions : Type := {
  batchSize : Z;
  concurrency : option Z;
  has_spendGuard : bool;
  has_shouldContinue : bool;
}.

Definition MAX_PERSIST_DEADLOCK_RETRIES : nat := 3.

Definition isRetryableProviderResult (r : ReauditItemResult) : bool :=
  match errorCode r with
  | None => false
  | Some code =>
      startsWith "TRANSCRIPTION_PROVIDER_" code || startsWith "CLASSIFICATION_PROVIDER_" code
  end.

Definition is_source_missing (r : ReauditItemResult) : bool :=
  match outcome r with source_missing => true | _ => false end.

(** A result no model was paid for. *)
Definition unpaid (r : ReauditItemResult) : bool := is_source_missing r || isRetryableProviderResult r.

Definition processor_failed (c : ReauditCandidate) : ReauditItemResult :=
  failed c classification_failed "AUDIT_PROCESSOR_FAILED".

(** ** The states of a batch *)

(** A call a slot has claimed: its index among the selected rows, and the row. *)
Definition item : Type := nat * ReauditCandidate.

(** The [await] a slot is at. *)
Inductive pc : Type :=
| Turn                                             (* before [claimAndProcessNext] *)
| Gate                                             (* [shouldContinue()] *)
| Claiming (i : item)                              (* [spendGuard.claim(candidate)] *)
| Starting (i : item) (grant : option SpendRight)  (* [results.markStarted(candidate)] *)
| SettlingStart (i : item) (e : raised)            (* [settle], the start having failed *)
| SettlingCompleted (i : item)                     (* [settle], the call being complete *)
| Processing (i : item) (claimed : bool)           (* [processor.process(candidate)] *)
| Staging (i : item) (r : ReauditItemResult)       (* [spendGuard.stageResult(...)] *)
| Persisting (i : item) (claimed : bool) (r : ReauditItemResult) (retry : nat)
                                                   (* [results.persist(...)] *)
| Sleeping (i : item) (claimed : bool) (r : ReauditItemResult) (retry : nat)
                                                   (* the delay before a retry *)
| SettlingFailed (i : item) (e : raised)           (* [settle], the write having failed *)
| Settling (i : item) (o : PersistOutcome)         (* [settle], the result being written *)
| Reporting                                        (* [reportProgress()] *)
| Done.

(** What each [await] can be answered. *)
Definition answer (p : pc) : Type :=
  match p with
  | Turn | Sleeping _ _ _ _ => unit
  | Gate => port bool
  | Claiming _ => port SpendRight
  | Starting _ _ => port Started
  | Processing _ _ => port ReauditItemResult
  | Persisting _ _ _ _ => port PersistOutcome
  | SettlingStart _ _ | SettlingCompleted _ | Staging _ _ | SettlingFailed _ _ | Settling _ _
  | Reporting => port unit
  | Done => Empty_set
  end.

(** What the slots share. *)
Record Shared : Type := {
  nextIndex : nat;
  summary : ReauditWorkerSummary;
  fatalError : option raised;
}.

(** The uses of the ports that matter to spending, by call. *)
Inductive event : Type :=
| Claimed (k : nat) (grant : SpendRight)
| ProcessCalled (k : nat)
| Processed (k : nat) (r : ReauditItemResult)
| StageCalled (k : nat) (r : ReauditItemResult)
| PersistCalled (k : nat) (r : ReauditItemResult)
| SettleCalled (k : nat) (o : SettleOutcome).

(** ** The code between two awaits *)

Definition set_summary (sh : Shared) (s : ReauditWorkerSummary) : Shared :=
  {| nextIndex := nextIndex sh; summary := s; fatalError := fatalError sh |}.

(** [workerState.fatalError ??= { value }] *)
Definition raise (sh : Shared) (e : raised) : Shared :=
  {| nextIndex := nextIndex sh; summary := summary sh;
     fatalError := match fatalError sh with Some f => Some f | None => Some e end |}.

Definition recordFatal (phase : ReauditPhase) (e : raised) (sh : Shared) : Shared :=
  raise sh (bounded phase e).

Definition stop_early (sh : Shared) : Shared :=
  let s := summary sh in
  set_summary sh {| selected := selected s; completed := completed s;
    retriesScheduled := retriesScheduled s; terminalFailures := terminalFailures s;
    alreadyCompleted := alreadyCompleted s; spendGuardSkipped := spendGuardSkipped s;
    stoppedEarly := true |}.

Definition count_skipped (sh : Shared) : Shared :=
  let s := summary sh in
  set_summary sh {| selected := selected s; completed := completed s;
    retriesScheduled := retriesScheduled s; terminalFailures := terminalFailures s;
    alreadyCompleted := alreadyCompleted s; spendGuardSkipped := S (spendGuardSkipped s);
    stoppedEarly := stoppedEarly s |}.

Definition count_outcome (o : PersistOutcome) (sh : Shared) : Shared :=
  let s := summary sh in
  let n x b : nat := if b : bool then S x else x in
  set_summary sh {| selected := selected s;
    completed := n (completed s) (match o with persist_completed => true | _ => false end);
    retriesScheduled := n (retriesScheduled s) (match o with retry_scheduled => true | _ => false end);
    terminalFailures := n (terminalFailures s) (match o with terminal_failure => true | _ => false end);
    alreadyCompleted :=
      n (alreadyCompleted s) (match o with persist_already_completed => true | _ => false end);
    spendGuardSkipped := spendGuardSkipped s; stoppedEarly := stoppedEarly s |}.

(** The lease is held; it came with a result; the result was staged by a run
    that lost its lease. *)
Definition spendClaimed (grant : option SpendRight) : bool :=
  match grant with Some acquired | Some (recovered _) => true | _ => false end.
Definition recoveredResult (grant : option SpendRight) : option ReauditItemResult :=
  match grant with Some (closed r) | Some (recovered r) => Some r | _ => None end.
Definition recoveredFromStage (grant : option SpendRight) : bool :=
  match grant with Some (recovered _) => true | _ => false end.

Section Batch.
Context (options : WorkerOptions) (rows : list ReauditCandidate).

(** No slot claims fresh work any more. *)
Definition drained (sh : Shared) : bool :=
  match fatalError sh with Some _ => true | None => false end ||
  stoppedEarly (summary sh) || (length rows <=? nextIndex sh)%nat.

Definition turn_result : Type := Shared * pc * list event.

(** Take the next row and begin [processCandidate]. *)
Definition take_next (sh : Shared) : turn_result :=
  if drained sh then (sh, Done, []) else
  match rows !! nextIndex sh with
  | None => (sh, Done, [])
  | Some c =>
      let i := (nextIndex sh, c) in
      let sh := {| nextIndex := S (nextIndex sh); summary := summary sh; fatalError := fatalError sh |} in
      (sh, if has_spendGuard options then Claiming i else Starting i None, [])
  end.

Definition persist (i : item) (claimed : bool) (r : ReauditItemResult) (retry : nat) : pc * list event :=
  (Persisting i claimed r retry, [PersistCalled i.1 r]).

(** From an answered [await] to the next one. *)
Definition resume (sh : Shared) (p : pc) : answer p → turn_result :=
  match p with
  | Turn => fun _ =>
      if drained sh then (sh, Done, [])
      else if has_shouldContinue options then (sh, Gate, []) else take_next sh
  | Gate => fun a =>
      match a with
      | Throw e => (raise sh e, Done, [])
      | Ok false => (stop_early sh, Done, [])
      | Ok true => take_next sh
      end
  | Claiming i => fun a =>
      match a with
      | Throw e => (recordFatal phase_claim e sh, Done, [])
      | Ok busy => (count_skipped sh, Reporting, [Claimed i.1 busy])
      | Ok grant => (sh, Starting i (Some grant), [Claimed i.1 grant])
      end
  | Starting i grant => fun a =>
      match a with
      | Throw e =>
          if spendClaimed grant then
            (sh, SettlingStart i e,
             [SettleCalled i.1 (if recoveredFromStage grant then unknown else no_model_call)])
          else (recordFatal phase_claim e sh, Done, [])
      | Ok start_already_completed =>
          if spendClaimed grant then
            (sh, SettlingCompleted i,
             [SettleCalled i.1 (if recoveredFromStage grant then model_spent else no_model_call)])
          else (count_outcome persist_already_completed sh, Reporting, [])
      | Ok start_acquired =>
          match recoveredResult grant with
          | Some r =>
              let '(p, es) := persist i (spendClaimed grant) r 0 in (sh, p, es)
          | None => (sh, Processing i (spendClaimed grant), [ProcessCalled i.1])
          end
      end
  | SettlingStart i e => fun _ => (recordFatal phase_claim e sh, Done, [])
  | SettlingCompleted i => fun a =>
      match a with
      | Throw e => (recordFatal phase_persist e sh, Done, [])
      | Ok _ => (count_outcome persist_already_completed sh, Reporting, [])
      end
  | Processing i claimed => fun a =>
      let r := match a with Ok r => r | Throw _ => processor_failed i.2 end in
      if claimed && negb (unpaid r) then
        (sh, Staging i r, [Processed i.1 r; StageCalled i.1 r])
      else let '(p, es) := persist i claimed r 0 in (sh, p, Processed i.1 r :: es)
  | Staging i r => fun a =>
      match a with
      | Throw e => (recordFatal phase_persist e sh, Done, [])
      | Ok _ => let '(p, es) := persist i true r 0 in (sh, p, es)
      end
  | Persisting i claimed r retry => fun a =>
      match a with
      | Throw e =>
          if negb (bool_decide ((asReauditFatalError phase_persist e).2 = Listed DB_DEADLOCK)) ||
             (MAX_PERSIST_DEADLOCK_RETRIES <=? retry)%nat
          then
            if claimed then
              (sh, SettlingFailed i e,
               [SettleCalled i.1 (if unpaid r then no_model_call else unknown)])
            else (recordFatal phase_persist e sh, Done, [])
          else (sh, Sleeping i claimed r retry, [])
      | Ok o =>
          if claimed then
            (sh, Settling i o, [SettleCalled i.1 (if unpaid r then no_model_call else model_spent)])
          else (count_outcome o sh, Reporting, [])
      end
  | Sleeping i claimed r retry => fun _ =>
      let '(p, es) := persist i claimed r (S retry) in (sh, p, es)
  | SettlingFailed i e => fun _ => (recordFatal phase_persist e sh, Done, [])
  | Settling i o => fun a =>
      let sh := match a with Throw e => recordFatal phase_persist e sh | Ok _ => sh end in
      (count_outcome o sh, Reporting, [])
  | Reporting => fun a =>
      (match a with Throw e => recordFatal phase_progress e sh | Ok _ => sh end, Turn, [])
  | Done => fun a => match a with end
  end.

(** ** Batches *)

Record worker : Type := {
  slots : list pc;
  shared : Shared;
  log : list event;
}.

(** Slot [n] resumes with [a]. *)
Definition advance (w : worker) (n : nat) (p : pc) (a : answer p) : worker :=
  let '(sh, p', es) := resume (shared w) p a in
  {| slots := <[n := p']> (slots w); shared := sh; log := log w ++ es |}.

Inductive step (w : worker) : worker → Prop :=
| step_slot n p (a : answer p) : slots w !! n = Some p → step w (advance w n p a).

Definition initial : worker :=
  {| slots := replicate (Nat.min (Z.to_nat (from_null 1 (concurrency options))) (length rows)) Turn;
     shared := {|
       nextIndex := 0;
       summary := {| selected := length rows; completed := 0; retriesScheduled := 0;
                     terminalFailures := 0; alreadyCompleted := 0; spendGuardSkipped := 0;
                     stoppedEarly := false |};
       fatalError := None |};
     log := [] |}.

Definition reachable : worker → Prop := rtc step initial.

Definition is_done (p : pc) : bool := match p with Done => true | _ => false end.

(** Every slot has returned. *)
Definition finished (w : worker) : bool := forallb is_done (slots w).

(** What the batch returns once its slots have: the summary, or the first fatal
    error, bounded. *)
Definition settled (w : worker) : Prelude.result (ReauditPhase * CategoryValue) ReauditWorkerSummary :=
  match fatalError (shared w) with
  | Some e => Throw (asReauditFatalError phase_claim e)
  | None => Ok (summary (shared w))
  end.

(** An environment: how it answers the [n]-th resumption, and which of the slots
    that are still awaiting it resumes. *)
Record environment : Type := {
  answers : nat → ∀ p, p ≠ Done → answer p;
  picks : nat → nat;
}.

Definition awaiting (w : worker) : list (nat * pc) :=
  filter (fun s => is_done s.2 = false) (imap pair (slots w)).

Definition drive_step (env : environment) (n : nat) (w : worker) : worker :=
  match awaiting w !! (picks env n mod length (awaiting w))%nat with
  | Some (j, p) =>
      match decide (is_done p = true) with
      | left _ => w
      | right H => advance w j p (answers env n p (fun E => H (f_equal is_done E)))
      end
  | None => w
  end.

Fixpoint drive (env : environment) (fuel n : nat) (w : worker) : worker :=
  match fuel with
  | O => w
  | S fuel => if finished w then w else drive env fuel (S n) (drive_step env n w)
  end.
End Batch.

(** The refusals of [runReauditBatch]. *)
Definition validateOptions (o : WorkerOptions) : Prelude.result js_error unit :=
  throw_if ((batchSize o <? 1) || (100 <? batchSize o)) (RangeError "batchSize must be from 1 to 100")
    ≫= fun _ =>
  let c := from_null 1 (concurrency o) in
  throw_if ((c <? 1) || (10 <? c)) (RangeError "concurrency must be from 1 to 10").

Inductive batch_error : Type :=
| Refused (e : js_error)
| ListingFailed (e : raised)
| Fatal (phase : ReauditPhase) (category : CategoryValue).

(** The whole batch, over the rows that [listCandidates] answers; [None] when the
    fuel runs out before every slot has returned. *)
Definition runReauditBatch (o : WorkerOptions) (listed : port (list ReauditCandidate))
    (env : environment) (fuel : nat) : option (Prelude.result batch_error ReauditWorkerSummary) :=
  match validateOptions o, listed with
  | Throw e, _ => Some (Throw (Refused e))
  | Ok _, Throw e => Some (Throw (ListingFailed e))
  | Ok _, Ok rows =>
      let w := drive o rows env fuel 0 (initial o rows) in
      if finished w then
        match settled w with
        | Ok s => Some (Ok s)
        | Throw (p, c) => Some (Throw (Fatal p c))
        end
      else None
  end.

(** ** Facts: one resumption *)

Section Facts.
Context (options : WorkerOptions) (rows : list ReauditCandidate).
Implicit Types (w : worker) (sh : Shared) (p : pc) (k : nat).

Notation resume := (resume options rows).
Notation take_next := (take_next options rows).
Notation drained := (drained rows).
Notation step := (step options rows).
Notation reachable := (reachable options rows).

Lemma drained_false sh :
  drained sh = false ↔
  fatalError sh = None ∧ stoppedEarly (summary sh) = false ∧ (nextIndex sh < length rows)%nat.
Proof.
  unfold Worker.drained. rewrite !orb_false_iff, Nat.leb_gt.
  destruct (fatalError sh); naive_solver.
Qed.

(** The claim of fresh work. *)
Inductive taken sh : Shared → pc → Prop :=
| taken_none : drained sh = true → taken sh sh Done
| taken_row c :
    drained sh = false → rows !! nextIndex sh = Some c →
    taken sh {| nextIndex := S (nextIndex sh); summary := summary sh; fatalError := fatalError sh |}
      (if has_spendGuard options then Claiming (nextIndex sh, c) else Starting (nextIndex sh, c) None).

Lemma take_next_taken sh sh' p' es : take_next sh = (sh', p', es) → taken sh sh' p' ∧ es = [].
Proof.
  unfold Worker.take_next. intros H. destruct (drained sh) eqn:E.
  - injection H as <- <- <-. split; [by constructor|done].
  - pose proof (proj1 (drained_false sh) E) as (_ & _ & Hlt).
    destruct (lookup_lt_is_Some_2 rows _ Hlt) as [c Hc]. rewrite Hc in H.
    injection H as <- <- <-. split; [by constructor|done].
Qed.

(** How far a slot is from its next turn. *)
Definition rank p : nat :=
  match p with
  | Done => 0
  | SettlingStart _ _ | SettlingFailed _ _ | Gate => 1
  | Turn => 2
  | Reporting => 3
  | SettlingCompleted _ | Settling _ _ => 4
  | Persisting _ _ _ n => 5 + 2 * (3 - n)
  | Sleeping _ _ _ n => 6 + 2 * (2 - n)
  | Staging _ _ => 12
  | Processing _ _ => 13
  | Starting _ _ => 14
  | Claiming _ => 15
  end.

Definition ahead sh : nat := 16 * (length rows - nextIndex sh).

(** Case analysis on a resumption. *)
Ltac resume_cases H :=
  match type of H with
  | Worker.resume _ _ _ ?p _ = _ => destruct p; cbn [Worker.resume persist] in H
  end;
  repeat match type of H with
  | context [match ?x with _ => _ end] => destruct x eqn:?
  end; simplify_eq.

(** The calls accounted for, and those a slot still owes. *)
Definition counted (s : ReauditWorkerSummary) : nat :=
  completed s + retriesScheduled s + terminalFailures s + alreadyCompleted s + spendGuardSkipped s.

Definition item_of p : option item :=
  match p with
  | Claiming i | Starting i _ | SettlingStart i _ | SettlingCompleted i | Processing i _
  | Staging i _ | Persisting i _ _ _ | Sleeping i _ _ _ | SettlingFailed i _ | Settling i _ => Some i
  | Turn | Gate | Reporting | Done => None
  end.

Definition owed p : nat := match item_of p with Some _ => 1 | None => 0 end.

(** What any resumption does to the shared state. *)
Record resumed sh p sh' p' : Prop := {
  res_rank : (ahead sh' + rank p' < ahead sh + rank p)%nat;
  res_selected : selected (summary sh') = selected (summary sh);
  res_index : (nextIndex sh ≤ nextIndex sh')%nat;
  res_bound : (nextIndex sh ≤ length rows)%nat → (nextIndex sh' ≤ length rows)%nat;
  res_counted : fatalError sh' = None →
    (counted (summary sh') + owed p' + nextIndex sh = counted (summary sh) + owed p + nextIndex sh')%nat;
  res_counted_le :
    (counted (summary sh') + owed p' + nextIndex sh ≤ counted (summary sh) + owed p + nextIndex sh')%nat;
  res_fatal e : fatalError sh = Some e → fatalError sh' = Some e ∧ nextIndex sh' = nextIndex sh;
  res_stopped : stoppedEarly (summary sh) = true →
    stoppedEarly (summary sh') = true ∧ nextIndex sh' = nextIndex sh;
  res_done : p' = Done → drained sh' = true;
}.

Lemma taken_resumed sh p sh' p' : taken sh sh' p' → p = Turn ∨ p = Gate → resumed sh p sh' p'.
Proof.
  intros [Hd|c Hd Hc] Hp; [split; destruct Hp as [->| ->]; cbn; unfold ahead; try done; try lia|].
  pose proof (proj1 (drained_false sh) Hd) as (Hf & Hs & Hlt).
  assert (owed p = 0%nat ∧ (1 ≤ rank p)%nat) as [Ho Hr] by by destruct Hp as [->| ->]; cbn; lia.
  split; cbn [nextIndex summary fatalError]; unfold ahead; cbn [nextIndex]; rewrite ?Ho, ?Hf, ?Hs;
    try done; try (destruct (has_spendGuard options); cbn [rank owed item_of]; lia).
  by destruct (has_spendGuard options).
Qed.

Lemma resume_resumed sh p (a : answer p) sh' p' es : resume sh p a = (sh', p', es) → resumed sh p sh' p'.
Proof.
  intros H. resume_cases H;
    try (apply take_next_taken in H as [H ->]; apply (taken_resumed _ _ _ _ H); tauto).
  all: split; unfold ahead, counted, Worker.drained; cbn; try done; try lia.
  all: try (destruct (fatalError sh) as [f|]; cbn; intros; simplify_eq; by rewrite ?orb_true_r).
  all: try match goal with o : PersistOutcome |- _ => destruct o; lia end.
  - match goal with H : _ || _ = false |- _ => apply orb_false_iff in H as [_ H] end.
    apply Nat.leb_gt in Heqb. unfold MAX_PERSIST_DEADLOCK_RETRIES in Heqb. lia.
Qed.

(** Not coded as a member that every object inherits. *)
Definition listable (e : raised) : Prop :=
  match e with
  | ReauditFatalError _ (Inherited _) => False
  | ErrorObject s => ∀ m, m ∈ inherited_members → er_code s ≠ Some m
  | ReauditFatalError _ (Listed _) | Primitive => True
  end.

Lemma listable_listed phase e : listable e → ∃ c, (asReauditFatalError phase e).2 = Listed c.
Proof. destruct e as [p [c|m]|s|]; cbn; intros He; [by eexists|done| |by eexists]. by apply classify_listed. Qed.

Lemma listable_bounded phase e : listable e → listable (bounded phase e).
Proof.
  intros He. destruct (listable_listed phase e He) as [c Hc]. unfold bounded.
  destruct (asReauditFatalError phase e) as [p v]. cbn in Hc. by rewrite Hc.
Qed.

(** What an answer throws, and what a slot will record once it has settled. *)
Definition thrown_by (p : pc) : answer p → option raised :=
  match p with
  | Turn | Sleeping _ _ _ _ => fun _ => None
  | Gate | Claiming _ | Starting _ _ | Processing _ _ | Persisting _ _ _ _ | SettlingStart _ _ | SettlingCompleted _
  | Staging _ _ | SettlingFailed _ _ | Settling _ _ | Reporting => fun a => match a with Throw e => Some e | Ok _ => None end
  | Done => fun a => match a with end
  end.

Definition pending (p : pc) : option raised :=
  match p with SettlingStart _ e | SettlingFailed _ e => Some e | _ => None end.

Definition holds_listable (o : option raised) : Prop := ∀ e, o = Some e → listable e.

Lemma raise_listable sh e : holds_listable (fatalError sh) → listable e → holds_listable (fatalError (raise sh e)).
Proof. intros Hs He x. cbn. destruct (fatalError sh) as [f|] eqn:E; [by apply Hs|by intros [= <-]]. Qed.

Lemma resume_listable sh p (a : answer p) sh' p' es :
  resume sh p a = (sh', p', es) → holds_listable (thrown_by p a) → holds_listable (pending p) →
  holds_listable (fatalError sh) → holds_listable (pending p') ∧ holds_listable (fatalError sh').
Proof.
  intros H Ha Hp Hf. resume_cases H;
    try (apply take_next_taken in H as [[Hd|c Hd Hc] _]; [done|]; split; [by destruct (has_spendGuard options)|exact Hf]).
  all: cbn in Ha, Hp; split; try done; try (apply raise_listable; [exact Hf|]); try apply listable_bounded;
    first [by apply Ha|by apply Hp|idtac].
  all: try (intros x [= <-]; by apply Ha).
Qed.

(** ** Facts: batches *)

Definition total (f : pc → nat) (l : list pc) : nat := sum_list_with f l.

Lemma total_insert f l n p p' :
  l !! n = Some p → (total f (<[n := p']> l) + f p = total f l + f p')%nat.
Proof.
  unfold total. revert n. induction l as [|q l IH]; intros [|n] Hn; [done|done| |].
  - injection Hn as ->. cbn. lia.
  - change (<[S n := p']> (q :: l)) with (q :: <[n := p']> l). cbn [sum_list_with].
    specialize (IH n Hn). lia.
Qed.

Definition measure w : nat := ahead (shared w) + total rank (slots w).

(** Every step brings the batch closer to its end. *)
Lemma step_measure w w' : step w w' → (measure w' < measure w)%nat.
Proof.
  intros [n p a Hn]. unfold measure, advance. destruct (resume (shared w) p a) as [[sh' p'] es] eqn:E.
  cbn [slots shared]. pose proof (res_rank _ _ _ _ (resume_resumed _ _ _ _ _ _ E)).
  pose proof (total_insert rank _ n p p' Hn). lia.
Qed.

(** What holds of every state of a batch. *)
Record accounted w : Prop := {
  acc_slots : length (slots w) = length (slots (initial options rows));
  acc_selected : selected (summary (shared w)) = length rows;
  acc_bound : (nextIndex (shared w) ≤ length rows)%nat;
  acc_counted : fatalError (shared w) = None →
    (counted (summary (shared w)) + total owed (slots w) = nextIndex (shared w))%nat;
  acc_counted_le : (counted (summary (shared w)) + total owed (slots w) ≤ nextIndex (shared w))%nat;
  acc_done : Done ∈ slots w → drained (shared w) = true;
}.

Lemma total_replicate f n p : f p = 0%nat → total f (replicate n p) = 0%nat.
Proof. intros Hp. induction n as [|n IH]; cbn; [done|]. unfold total in IH. by rewrite Hp, IH. Qed.

Lemma accounted_initial : accounted (initial options rows).
Proof.
  split; cbn [initial slots shared summary nextIndex selected]; try done; try lia.
  - intros _. by rewrite total_replicate.
  - by rewrite total_replicate.
  - intros Hin. by apply elem_of_replicate in Hin as [? _].
Qed.

(** Once the batch is drained it stays so. *)
Lemma drained_stays sh p sh' p' : resumed sh p sh' p' → drained sh = true → drained sh' = true.
Proof.
  intros Hr Hd. unfold Worker.drained in *.
  apply orb_true_iff in Hd as [Hd|Hd]; [apply orb_true_iff in Hd as [Hd|Hd]|].
  - destruct (fatalError sh) as [e|] eqn:E; [|done]. by destruct (res_fatal _ _ _ _ Hr e E) as [-> _].
  - destruct (res_stopped _ _ _ _ Hr Hd) as [-> _]. by rewrite orb_true_r.
  - apply Nat.leb_le in Hd. pose proof (res_index _ _ _ _ Hr).
    rewrite (proj2 (Nat.leb_le _ (nextIndex sh'))) by lia. by rewrite orb_true_r.
Qed.

Lemma accounted_step w w' : step w w' → accounted w → accounted w'.
Proof.
  intros [n p a Hn] [A1 A2 A3 A4 A5 A6]. unfold advance.
  destruct (resume (shared w) p a) as [[sh' p'] es] eqn:E.
  pose proof (resume_resumed _ _ _ _ _ _ E) as Hr.
  pose proof (total_insert owed _ n p p' Hn) as Ho.
  split; cbn [slots shared].
  - by rewrite length_insert.
  - by rewrite (res_selected _ _ _ _ Hr).
  - by apply (res_bound _ _ _ _ Hr).
  - intros Hf. pose proof (res_counted _ _ _ _ Hr Hf) as Hc.
    assert (fatalError (shared w) = None) as Hf0.
    { destruct (fatalError (shared w)) as [e|] eqn:Ee; [|done].
      destruct (res_fatal _ _ _ _ Hr e Ee) as [E' _]. congruence. }
    specialize (A4 Hf0). lia.
  - pose proof (res_counted_le _ _ _ _ Hr) as Hc. lia.
  - intros Hin. apply list_elem_of_lookup in Hin as [m Hm].
    destruct (decide (m = n)) as [->|Hne].
    + rewrite list_lookup_insert_eq in Hm by (by eapply lookup_lt_Some). injection Hm as ->.
      by apply (res_done _ _ _ _ Hr).
    + rewrite list_lookup_insert_ne in Hm by done. eapply drained_stays; [done|].
      apply A6, list_elem_of_lookup. eauto.
Qed.

Lemma accounted_reachable w : reachable w → accounted w.
Proof.
  intros Hr. unfold Worker.reachable in Hr.
  refine (rtc_ind_r (fun w => accounted w) _ accounted_initial _ w Hr).
  intros y z _ Hs Hy. by eapply accounted_step.
Qed.

(** ** Facts: what happens to one call *)

Definition event_item (e : event) : nat :=
  match e with
  | Claimed k _ | ProcessCalled k | Processed k _ | StageCalled k _ | PersistCalled k _
  | SettleCalled k _ => k
  end.

Definition events_of k (l : list event) : list event := filter (fun e => event_item e = k) l.

Definition is_process (e : event) : bool := match e with ProcessCalled _ => true | _ => false end.
Definition is_settle (e : event) : bool := match e with SettleCalled _ _ => true | _ => false end.

(** The rules of spending on call [k], over the events [l] of its life. *)
Record spend_safe k (l : list event) : Prop := {
  process_once : (length (filter (fun e => is_process e = true) l) ≤ 1)%nat;
  settle_once : (length (filter (fun e => is_settle e = true) l) ≤ 1)%nat;
  process_leased : ProcessCalled k ∈ l → has_spendGuard options = true → Claimed k acquired ∈ l;
  settle_leased o : SettleCalled k o ∈ l → Claimed k acquired ∈ l ∨ ∃ r, Claimed k (recovered r) ∈ l;
  settle_honest r : SettleCalled k no_model_call ∈ l → Processed k r ∈ l → unpaid r = true;
  settle_recovered r : SettleCalled k no_model_call ∈ l → Claimed k (recovered r) ∈ l → unpaid r = true;
  recovered_unspent r : Claimed k (recovered r) ∈ l ∨ Claimed k (closed r) ∈ l → ProcessCalled k ∉ l;
  persist_source r : PersistCalled k r ∈ l →
    Processed k r ∈ l ∨ Claimed k (closed r) ∈ l ∨ Claimed k (recovered r) ∈ l;
  persist_staged r : has_spendGuard options = true → PersistCalled k r ∈ l → Processed k r ∈ l →
    unpaid r = true ∨ StageCalled k r ∈ l;
}.

(** The events of a call before its processing. *)
Definition granted k (grant : option SpendRight) : list event :=
  match grant with Some g => [Claimed k g] | None => [] end.

Inductive grant_ok : option SpendRight → Prop :=
| grant_unguarded : has_spendGuard options = false → grant_ok None
| grant_acquired : has_spendGuard options = true → grant_ok (Some acquired)
| grant_closed r : has_spendGuard options = true → grant_ok (Some (closed r))
| grant_recovered r : has_spendGuard options = true → grant_ok (Some (recovered r)).

(** The events of its processing, the paid result staged under the lease. *)
Definition processing k (claimed : bool) (r : ReauditItemResult) : list event :=
  [ProcessCalled k; Processed k r] ++ (if claimed && negb (unpaid r) then [StageCalled k r] else []).

(** The events of a call when its result [r] is about to be written. *)
Inductive obtained k (claimed : bool) (r : ReauditItemResult) : list event → Prop :=
| obtained_before grant :
    grant_ok grant → recoveredResult grant = Some r → claimed = spendClaimed grant →
    obtained k claimed r (granted k grant)
| obtained_now grant :
    grant_ok grant → recoveredResult grant = None → claimed = spendClaimed grant →
    obtained k claimed r (granted k grant ++ processing k claimed r).

(** The events of the call a slot is at. *)
Definition shape p (l : list event) : Prop :=
  match p with
  | Turn | Gate | Reporting | Done => True
  | Claiming i => l = [] ∧ has_spendGuard options = true
  | Starting i grant => grant_ok grant ∧ l = granted i.1 grant
  | SettlingStart i _ | SettlingCompleted i => ∃ grant o,
      grant_ok grant ∧ spendClaimed grant = true ∧
      (o = no_model_call → recoveredFromStage grant = false) ∧
      l = granted i.1 grant ++ [SettleCalled i.1 o]
  | Processing i claimed => ∃ grant,
      grant_ok grant ∧ recoveredResult grant = None ∧ claimed = spendClaimed grant ∧
      l = granted i.1 grant ++ [ProcessCalled i.1]
  | Staging i r =>
      has_spendGuard options = true ∧ unpaid r = false ∧
      l = [Claimed i.1 acquired; ProcessCalled i.1; Processed i.1 r; StageCalled i.1 r]
  | Persisting i claimed r n | Sleeping i claimed r n => ∃ b,
      obtained i.1 claimed r b ∧ l = b ++ replicate (S n) (PersistCalled i.1 r)
  | SettlingFailed i _ => ∃ b r n o,
      obtained i.1 true r b ∧ (o = no_model_call → unpaid r = true) ∧
      l = b ++ replicate (S n) (PersistCalled i.1 r) ++ [SettleCalled i.1 o]
  | Settling i _ => ∃ b r n o,
      obtained i.1 true r b ∧ (o = no_model_call → unpaid r = true) ∧
      l = b ++ replicate (S n) (PersistCalled i.1 r) ++ [SettleCalled i.1 o]
  end.

(** How one resumption extends the life of a call, or begins another's. *)
Definition extends sh p sh' p' (es : list event) : Prop :=
  match item_of p with
  | Some i =>
      nextIndex sh' = nextIndex sh ∧ Forall (fun e => event_item e = i.1) es ∧
      ∀ l, shape p l →
        match item_of p' with
        | Some i' => i' = i ∧ shape p' (l ++ es)
        | None => es = [] ∨ l = [] ∧ es = [Claimed i.1 busy]
        end
  | None =>
      es = [] ∧
      match item_of p' with
      | Some i => i.1 = nextIndex sh ∧ nextIndex sh' = S (nextIndex sh) ∧ shape p' []
      | None => nextIndex sh' = nextIndex sh
      end
  end.

Lemma taken_extends sh p sh' p' : taken sh sh' p' → item_of p = None → extends sh p sh' p' [].
Proof.
  intros [Hd|c Hd Hc] Hp; unfold extends; rewrite Hp; [done|]. split; [done|].
  destruct (has_spendGuard options) eqn:E; cbn; split_and!; try done. by constructor.
Qed.

Lemma settled_staging i r grant :
  grant_ok grant → recoveredResult grant = None → spendClaimed grant && negb (unpaid r) = true →
  shape (Staging i r) ((granted i.1 grant ++ [ProcessCalled i.1]) ++ [Processed i.1 r; StageCalled i.1 r]).
Proof.
  intros Hok Hg H. apply andb_true_iff in H as [Hc Hu]. apply negb_true_iff in Hu.
  by destruct Hok; cbn in *; simplify_eq.
Qed.

Lemma settled_persisting i r grant :
  grant_ok grant → recoveredResult grant = None → spendClaimed grant && negb (unpaid r) = false →
  shape (Persisting i (spendClaimed grant) r 0)
    ((granted i.1 grant ++ [ProcessCalled i.1]) ++ [Processed i.1 r; PersistCalled i.1 r]).
Proof.
  intros Hok Hg H. eexists. split; [by eapply obtained_now|]. unfold processing. rewrite H.
  by rewrite <- !app_assoc.
Qed.

Lemma resume_extends sh p (a : answer p) sh' p' es :
  resume sh p a = (sh', p', es) → extends sh p sh' p' es.
Proof.
  intros H. resume_cases H;
    try (apply take_next_taken in H as [H ->]; by apply taken_extends).
  all: unfold extends; cbn [item_of];
    first [ by split | refine (conj eq_refl (conj _ _)); [by repeat constructor|intros l Hl] ].
  all: try (by left); try (refine (conj eq_refl _)).
  all: cbn [shape] in Hl |- *.
  all: try (destruct Hl as [-> Hg]; first [by right | split; [by constructor|done]]).
  all: try (destruct Hl as [Hok ->]; eexists; split; [by eapply obtained_before|done]).
  all: try (destruct Hl as [Hok ->]; by exists grant).
  all: try (destruct Hl as [Hok ->]; exists grant; eexists;
    refine (conj Hok (conj _ (conj _ eq_refl))); done).
  all: try (destruct Hl as (grant & Hok & Hg & -> & ->); by apply settled_staging).
  all: try (destruct Hl as (grant & Hok & Hg & -> & ->); by apply settled_persisting).
  all: try (destruct Hl as (b & Hb & ->);
    first [ rewrite app_nil_r; by exists b
          | exists b; split; [done|]; by rewrite (replicate_S_end (S retry)), app_assoc
          | exists b, r, retry; eexists; split_and!; [done| |by rewrite app_assoc]; done ]).
  destruct Hl as (Hg & Hr & ->). exists [Claimed i.1 acquired; ProcessCalled i.1; Processed i.1 r; StageCalled i.1 r].
  split; [|done]. pose proof (obtained_now i.1 true r (Some acquired) (grant_acquired Hg) eq_refl eq_refl) as Ho.
  unfold processing in Ho. rewrite Hr in Ho. exact Ho.
Qed.

(** The whole life of a call, whatever it is at: the grant, the processing, the
    attempts to write the result, and the settlement of the lease. *)
Inductive life k : list event → Prop :=
| life_of grant P m r S :
    grant_ok grant →
    (P = [] ∧ (m ≠ 0%nat → recoveredResult grant = Some r) ∨
     P = [ProcessCalled k] ∧ m = 0%nat ∧ S = [] ∧ recoveredResult grant = None ∨
     P = processing k (spendClaimed grant) r ∧ recoveredResult grant = None) →
    (S = [] ∨ ∃ o, S = [SettleCalled k o] ∧ spendClaimed grant = true ∧
       (o = no_model_call → P = [] ∧ m = 0%nat ∧ recoveredFromStage grant = false ∨
         unpaid r = true ∧ (P = [] → m ≠ 0%nat))) →
    life k (granted k grant ++ P ++ replicate m (PersistCalled k r) ++ S).

Lemma obtained_life k claimed r b n S :
  obtained k claimed r b → n ≠ 0%nat →
  (S = [] ∨ ∃ o, S = [SettleCalled k o] ∧ claimed = true ∧ (o = no_model_call → unpaid r = true)) →
  life k (b ++ replicate n (PersistCalled k r) ++ S).
Proof.
  intros [grant Hok Hr ->|grant Hok Hr ->] Hn HS.
  - apply (life_of k grant [] n r S Hok); [by left|]. naive_solver.
  - rewrite <- app_assoc. apply (life_of k grant _ n r S Hok); [by right; right|]. naive_solver.
Qed.

Lemma shape_life p i l :
  item_of p = Some i → shape p l → l = [] ∨ life i.1 l.
Proof.
  intros Hi Hl. destruct p; try done; injection Hi as ->; cbn [shape] in Hl.
  - left. tauto.
  - right. destruct Hl as [Hok ->]. rewrite <- (app_nil_r (granted _ _)).
    apply (life_of _ _ [] 0 (processor_failed i.2) [] Hok); by left.
  - right. destruct Hl as (g & o & Hok & Hc & Ho & ->).
    apply (life_of _ _ [] 0 (processor_failed i.2) [SettleCalled i.1 o] Hok); [by left|].
    right. exists o. naive_solver.
  - right. destruct Hl as (g & o & Hok & Hc & Ho & ->).
    apply (life_of _ _ [] 0 (processor_failed i.2) [SettleCalled i.1 o] Hok); [by left|].
    right. exists o. naive_solver.
  - right. destruct Hl as (g & Hok & Hr & _ & ->).
    apply (life_of _ _ [ProcessCalled i.1] 0 (processor_failed i.2) [] Hok); [by right; left|by left].
  - right. destruct Hl as (Hg & Hr & ->).
    pose proof (life_of i.1 _ _ 0 r [] (grant_acquired Hg) (or_intror (or_intror (conj eq_refl eq_refl)))
      (or_introl eq_refl)) as H. unfold processing in H. cbn in H. by rewrite Hr in H.
  - right. destruct Hl as (b & Hb & ->). rewrite <- (app_nil_r (replicate _ _)).
    eapply obtained_life; [done|done|by left].
  - right. destruct Hl as (b & Hb & ->). rewrite <- (app_nil_r (replicate _ _)).
    eapply obtained_life; [done|done|by left].
  - right. destruct Hl as (b & r & n & so & Hb & Ho & ->). eapply obtained_life; [done|done|]. right. by exists so.
  - right. destruct Hl as (b & r & n & so & Hb & Ho & ->). eapply obtained_life; [done|done|]. right. by exists so.
Qed.

Lemma elem_of_granted k grant x : x ∈ granted k grant ↔ ∃ g, grant = Some g ∧ x = Claimed k g.
Proof.
  destruct grant; cbn; [rewrite list_elem_of_singleton|rewrite elem_of_nil]; naive_solver.
Qed.

Lemma filter_replicate_none (f : event → bool) n x :
  f x = false → filter (fun e => f e = true) (replicate n x) = [].
Proof.
  intros Hx. induction n as [|n IH]; [done|]. cbn [replicate]. rewrite filter_cons, decide_False, IH by congruence. done.
Qed.

Ltac life_events :=
  repeat match goal with
  | H : _ ∈ _ ++ _ |- _ => apply elem_of_app in H; destruct H as [H|H]
  | H : _ ∈ _ :: _ |- _ => apply elem_of_cons in H; destruct H as [H|H]
  | H : _ ∈ [] |- _ => by apply elem_of_nil in H
  | H : _ ∈ replicate _ _ |- _ => rewrite elem_of_replicate in H; destruct H
  | H : _ ∨ _ |- _ => destruct H as [H|H]
  | H : _ ∧ _ |- _ => destruct H
  end; simplify_eq; rewrite ?elem_of_cons, ?elem_of_app.

Lemma life_safe k l : life k l → spend_safe k l.
Proof.
  intros [grant P m r S Hok HP HS].
  split.
  1,2: rewrite !filter_app, filter_replicate_none by done;
    destruct grant, HP as [[HP _]|[(HP & _ & HP' & _)|[HP _]]], HS as [HS|(o & HS & _)];
    simplify_eq; unfold processing; try destruct (_ && _); cbn; repeat case_decide; cbn; done || lia.
  all: destruct Hok; destruct HP as [[-> HP]|[(-> & -> & HS' & HP)|[-> HP]]];
    unfold processing in *; try (destruct (unpaid r) eqn:Hu); cbn in HP;
    try match type of HP with _ = _ => discriminate HP end; destruct HS as [->|(so & -> & HS & Ho)]; try discriminate HS'; cbn [granted spendClaimed andb negb app] in *;
    try discriminate HS.
  all: intros; life_events; try done; try congruence; try tauto.
  all: try setoid_rewrite elem_of_cons; rewrite ?elem_of_replicate, ?elem_of_nil; naive_solver.
Qed.

Lemma safe_empty k : spend_safe k [].
Proof. split; cbn; try lia; intros; life_events; done. Qed.

Lemma safe_busy k : spend_safe k [Claimed k busy].
Proof. split; intros; life_events; try done; cbn; repeat case_decide; cbn; (done || lia). Qed.

Lemma shape_safe p i l : item_of p = Some i → shape p l → spend_safe i.1 l.
Proof.
  intros Hi Hl. destruct (shape_life p i l Hi Hl) as [->|H]; [apply safe_empty|by apply life_safe].
Qed.

Lemma events_of_app k l1 l2 : events_of k (l1 ++ l2) = events_of k l1 ++ events_of k l2.
Proof. apply filter_app. Qed.

Lemma events_of_same k es : Forall (fun e => event_item e = k) es → events_of k es = es.
Proof.
  induction 1 as [|e es He _ IH]; [done|]. unfold events_of in *. by rewrite filter_cons, decide_True, IH.
Qed.

Lemma events_of_other k k' es : Forall (fun e => event_item e = k) es → k' ≠ k → events_of k' es = [].
Proof.
  intros Hes Hk. induction Hes as [|e es He _ IH]; [done|]. unfold events_of in *.
  by rewrite filter_cons, decide_False, IH by congruence.
Qed.

(** ** Facts: spending in a batch *)

Record spending w : Prop := {
  sp_apart m n p q i j : slots w !! m = Some p → slots w !! n = Some q →
    item_of p = Some i → item_of q = Some j → i.1 = j.1 → m = n;
  sp_index n p i : slots w !! n = Some p → item_of p = Some i → (i.1 < nextIndex (shared w))%nat;
  sp_shape n p i : slots w !! n = Some p → item_of p = Some i → shape p (events_of i.1 (log w));
  sp_safe k : spend_safe k (events_of k (log w));
  sp_fresh k : (nextIndex (shared w) ≤ k)%nat → events_of k (log w) = [];
}.

Lemma spending_initial : spending (initial options rows).
Proof.
  assert (∀ n p, slots (initial options rows) !! n = Some p → p = Turn) as Ht.
  { intros n p Hn. by apply lookup_replicate in Hn as [-> _]. }
  split; cbn [log initial shared nextIndex]; try done.
  - intros m n p q i j Hp _ Hi. apply Ht in Hp as ->. discriminate Hi.
  - intros n p i Hp Hi. apply Ht in Hp as ->. discriminate Hi.
  - intros n p i Hp Hi. apply Ht in Hp as ->. discriminate Hi.
  - intros k. apply safe_empty.
Qed.

Section Step.
Context (w : worker) (n : nat) (p : pc) (sh' : Shared) (p' : pc) (es : list event) (Hw : spending w) (Hn : slots w !! n = Some p).
Context (Hx : extends (shared w) p sh' p' es).

Let w' : worker := {| slots := <[n := p']> (slots w); shared := sh'; log := log w ++ es |}.

Lemma slot_after m q : slots w' !! m = Some q → m = n ∧ q = p' ∨ m ≠ n ∧ slots w !! m = Some q.
Proof using Hn.
  clear Hx Hw. cbn. intros Hm. destruct (decide (m = n)) as [->|Hne].
  - rewrite list_lookup_insert_eq in Hm by (by eapply lookup_lt_Some). left. by injection Hm as ->.
  - rewrite list_lookup_insert_ne in Hm by done. by right.
Qed.

(** A slot that was at a call stays at it or leaves it. *)
Lemma spending_at i : item_of p = Some i → spending w'.
Proof using Hw Hn Hx.
  intros Hi. unfold extends in Hx. rewrite Hi in Hx. destruct Hx as (Hix & Hes & Hsh).
  specialize (Hsh _ (sp_shape _ Hw _ _ _ Hn Hi)).
  assert (∀ j, item_of p' = Some j → j = i ∧ shape p' (events_of i.1 (log w) ++ es)) as Hsame.
  { intros j Hj. by rewrite Hj in Hsh. }
  assert (events_of i.1 (log w') = events_of i.1 (log w) ++ es) as El
    by (change (log w') with (log w ++ es); by rewrite events_of_app, (events_of_same i.1 es)).
  assert (∀ k, k ≠ i.1 → events_of k (log w') = events_of k (log w)) as Eo.
  { intros k Hk. change (log w') with (log w ++ es).
    by rewrite events_of_app, (events_of_other i.1 k es), app_nil_r. }
  split.
  - intros a b q1 q2 i1 i2 Ha Hb H1 H2 E.
    apply slot_after in Ha as [[-> ->]|[Hna Ha]]; apply slot_after in Hb as [[-> ->]|[Hnb Hb]]; [done|..].
    + destruct (Hsame _ H1) as [-> _]. by eapply (sp_apart _ Hw).
    + destruct (Hsame _ H2) as [-> _]. by eapply (sp_apart _ Hw).
    + by eapply (sp_apart _ Hw).
  - intros a q j Ha Hj. cbn. rewrite Hix. apply slot_after in Ha as [[-> ->]|[_ Ha]].
    + destruct (Hsame _ Hj) as [-> _]. by apply (sp_index _ Hw _ _ _ Hn).
    + by apply (sp_index _ Hw _ _ _ Ha).
  - intros a q j Ha Hj. apply slot_after in Ha as [[-> ->]|[Hna Ha]].
    + destruct (Hsame _ Hj) as [-> Hs]. by rewrite El.
    + rewrite Eo by (intros E; apply Hna; by eapply (sp_apart _ Hw)). by apply (sp_shape _ Hw _ _ _ Ha).
  - intros k. destruct (decide (k = i.1)) as [->|Hk]; [|rewrite Eo by done; apply (sp_safe _ Hw)].
    rewrite El. destruct (item_of p') as [j|] eqn:Hj.
    + destruct (Hsame _ eq_refl) as [_ Hs]. destruct Hsh as [-> _]. by apply (shape_safe p').
    + destruct Hsh as [->|[-> ->]]; [rewrite app_nil_r; apply (sp_safe _ Hw)|apply safe_busy].
  - intros k Hk. cbn in Hk. rewrite Hix in Hk. pose proof (sp_index _ Hw _ _ _ Hn Hi).
    rewrite Eo by lia. by apply (sp_fresh _ Hw).
Qed.

(** A slot at no call takes the next one or none. *)
Lemma spending_free : item_of p = None → spending w'.
Proof using Hw Hn Hx.
  intros Hi. unfold extends in Hx. rewrite Hi in Hx. destruct Hx as (Ees & Hnew).
  assert (∀ k, events_of k (log w') = events_of k (log w)) as Eo by (intros k; change (log w') with (log w ++ es); by rewrite Ees, app_nil_r).
  assert ((nextIndex (shared w) ≤ nextIndex sh')%nat ∧
    ∀ j, item_of p' = Some j → j.1 = nextIndex (shared w) ∧
      nextIndex sh' = S (nextIndex (shared w)) ∧ shape p' []) as [Hle Hj'].
  { destruct (item_of p') as [j|]; [|split; [lia|done]].
    destruct Hnew as (E1 & E2 & E3). split; [lia|]. by intros ? [= <-]. }
  split.
  - intros a b q1 q2 i1 i2 Ha Hb H1 H2 E.
    apply slot_after in Ha as [[-> ->]|[Hna Ha]]; apply slot_after in Hb as [[-> ->]|[Hnb Hb]]; [done|..].
    + destruct (Hj' _ H1) as (E1 & _). pose proof (sp_index _ Hw _ _ _ Hb H2). lia.
    + destruct (Hj' _ H2) as (E1 & _). pose proof (sp_index _ Hw _ _ _ Ha H1). lia.
    + by eapply (sp_apart _ Hw).
  - intros a q j Ha Hj. cbn. apply slot_after in Ha as [[-> ->]|[_ Ha]].
    + destruct (Hj' _ Hj) as (E1 & E2 & _). lia.
    + pose proof (sp_index _ Hw _ _ _ Ha Hj). lia.
  - intros a q j Ha Hj. rewrite Eo. apply slot_after in Ha as [[-> ->]|[_ Ha]].
    + destruct (Hj' _ Hj) as (E1 & _ & Hs). by rewrite (sp_fresh _ Hw) by lia.
    + by apply (sp_shape _ Hw _ _ _ Ha).
  - intros k. rewrite Eo. apply (sp_safe _ Hw).
  - intros k Hk. cbn in Hk. rewrite Eo. apply (sp_fresh _ Hw). lia.
Qed.
End Step.

Lemma spending_reachable w : reachable w → spending w.
Proof.
  intros Hr. unfold Worker.reachable in Hr.
  refine (rtc_ind_r (fun w => spending w) _ spending_initial _ w Hr).
  intros y z _ [n p a Hn] Hy. unfold advance.
  destruct (resume (shared y) p a) as [[sh' p'] es] eqn:E. apply resume_extends in E.
  destruct (item_of p) as [i|] eqn:Hi; [by eapply spending_at|by eapply spending_free].
Qed.

(** ** Facts: driving a batch to its end *)

Lemma elem_of_awaiting w n p : (n, p) ∈ awaiting w ↔ slots w !! n = Some p ∧ is_done p = false.
Proof.
  unfold awaiting. rewrite list_elem_of_filter, elem_of_lookup_imap. cbn. split.
  - intros (Hd & i & q & [= -> ->] & Hi). done.
  - intros [Hn Hd]. split; [done|]. by exists n, p.
Qed.

Lemma unfinished_awaiting w : finished w = false → awaiting w ≠ [].
Proof.
  unfold finished. intros Hf Hnil. apply not_true_iff_false in Hf. apply Hf, forallb_forall.
  intros p Hp. apply list_elem_of_In, list_elem_of_lookup in Hp as [n Hn].
  destruct (is_done p) eqn:Hd; [done|]. exfalso.
  assert ((n, p) ∈ awaiting w) as Hin by by apply elem_of_awaiting.
  rewrite Hnil in Hin. by apply elem_of_nil in Hin.
Qed.

Lemma drive_step_step env n w : finished w = false → step w (drive_step options rows env n w).
Proof.
  intros Hf. unfold drive_step. pose proof (unfinished_awaiting w Hf) as Hne.
  destruct (lookup_lt_is_Some_2 (awaiting w) (picks env n mod length (awaiting w))%nat) as [[j p] Hl].
  { apply Nat.mod_upper_bound. by destruct (awaiting w). }
  rewrite Hl. apply list_elem_of_lookup_2, elem_of_awaiting in Hl as [Hj Hd].
  destruct (decide (is_done p = true)) as [E|E]; [congruence|]. by constructor.
Qed.

Lemma drive_finishes env fuel n w :
  (measure w ≤ fuel)%nat →
  rtc step w (drive options rows env fuel n w) ∧ finished (drive options rows env fuel n w) = true.
Proof.
  revert n w. induction fuel as [|fuel IH]; intros n w Hm; cbn [drive].
  - destruct (finished w) eqn:Hf; [by split|].
    pose proof (step_measure _ _ (drive_step_step env n w Hf)).
    lia.
  - destruct (finished w) eqn:Hf; [by split|].
    pose proof (drive_step_step env n w Hf) as Hs. pose proof (step_measure _ _ Hs).
    destruct (IH (S n) (drive_step options rows env n w)) as [H1 H2]; [lia|].
    split; [by eapply rtc_l|done].
Qed.
End Facts.

(** ** Properties *)


(** C29: a batch terminates. No schedule is longer than sixteen steps per selected
    row and two per slot; a state in which a slot still awaits an answer can
    always go on; and so, with that much fuel, the batch returns under every
    environment. *)
Theorem runReauditBatch_terminates o rows :
  let steps := (16 * length rows + 2 * length (slots (initial o rows)))%nat in
  (∀ n w, nsteps (step o rows) n (initial o rows) w → (n ≤ steps)%nat) ∧
  (∀ w n p, slots w !! n = Some p → p ≠ Done → ∃ w', step o rows w w') ∧
  ∀ env fuel, (steps ≤ fuel)%nat → ∃ r, runReauditBatch o (Ok rows) env fuel = Some r.
Proof.
  intros steps.
  assert (Hm : measure rows (initial o rows) = steps).
  { unfold measure, steps, ahead, initial. cbn [shared slots nextIndex]. rewrite Nat.sub_0_r, length_replicate.
    f_equal. induction (Nat.min _ _) as [|n IH]; [done|]. unfold total in *. cbn [replicate sum_list_with].
    rewrite IH. cbn [rank]. lia. }
  split_and!.
  - rewrite <- Hm. intros n w Hn. enough (n + measure rows w ≤ measure rows (initial o rows))%nat by lia.
    clear -Hn. induction Hn as [x|n x y z Hxy _ IH]; [lia|]. pose proof (step_measure o rows _ _ Hxy). lia.
  - intros w n p Hn Hp. assert (answer p) as a by (destruct p; try exact tt; try done; exact (Throw Primitive)).
    eexists. by apply (step_slot o rows w n p a).
  - intros env fuel Hf. unfold runReauditBatch. destruct (validateOptions o); [|by eexists].
    destruct (drive_finishes o rows env fuel 0 (initial o rows)) as [_ ->]; [lia|].
    destruct (settled _) as [s|[p c]]; by eexists.
Qed.

(** C30: no call is forgotten. From every reachable state the batch can reach its
    end; and at its end, when it returns a summary, it has accounted, once each,
    for exactly the calls it took, which are all the selected ones unless it was
    told to stop early. *)
Theorem runReauditBatch_accounts o rows w
    (Ho : validateOptions o = Ok tt) (H : reachable o rows w) :
  (∃ w', rtc (step o rows) w w' ∧ finished w' = true) ∧
  (finished w = true → ∀ s, settled w = Ok s →
     selected s = length rows ∧ counted s = nextIndex (shared w) ∧
     (counted s ≤ selected s)%nat ∧
     (stoppedEarly s = false → counted s = selected s)).
Proof.
  split.
  - set (env := {| answers := fun _ p Hp => match p return p ≠ Done → answer p with
        | Turn | Sleeping _ _ _ _ => fun _ => tt
        | Done => fun Hp => match Hp eq_refl with end
        | Gate | Claiming _ | Starting _ _ | Processing _ _ | Persisting _ _ _ _ | SettlingStart _ _
        | SettlingCompleted _ | Staging _ _ | SettlingFailed _ _ | Settling _ _ | Reporting =>
            fun _ => Throw Primitive
        end Hp; picks := fun _ => 0%nat |}).
    exists (drive o rows env (measure rows w) 0 w). by apply drive_finishes.
  - intros Hf s Hs. destruct (accounted_reachable o rows w H) as [A1 A2 A3 A4 _ A6].
    unfold settled in Hs. destruct (fatalError (shared w)) as [e|] eqn:He; [done|].
    injection Hs as <-. specialize (A4 eq_refl). rewrite A2.
    assert (Hall : ∀ p, p ∈ slots w → p = Done).
    { intros p Hp. unfold finished in Hf. rewrite forallb_forall in Hf.
      apply list_elem_of_In in Hp. specialize (Hf p Hp). by destruct p. }
    assert (total owed (slots w) = 0%nat) as Hz.
    { clear -Hall. induction (slots w) as [|p l IH]; [done|]. unfold total in *. cbn.
      rewrite IH by (intros q Hq; apply Hall; by right). by rewrite (Hall p ltac:(left)). }
    split_and!; [done|lia|lia|]. intros Hstop.
    destruct (slots w) as [|p l] eqn:El.
    + cbn in A1. rewrite length_replicate in A1. unfold validateOptions in Ho.
      apply bind_Ok_iff in Ho as (? & _ & Ho). apply throw_if_Ok in Ho. to_prop. lia.
    + assert (p = Done) as -> by (apply Hall; left).
      specialize (A6 ltac:(left)). unfold drained in A6. rewrite He, Hstop in A6. cbn in A6.
      apply Nat.leb_le in A6. lia.
Qed.

(** ** Facts: the category of a fatal error *)

(** A step in which no port throws an error coded as an inherited member. *)
Definition listable_step (o : WorkerOptions) (rows : list ReauditCandidate) (w w' : worker) : Prop :=
  ∃ n p (a : answer p), slots w !! n = Some p ∧ holds_listable (thrown_by p a) ∧ w' = advance o rows w n p a.

Lemma listable_kept o rows w w' :
  rtc (listable_step o rows) w w' →
  holds_listable (fatalError (shared w)) → Forall (fun p => holds_listable (pending p)) (slots w) →
  holds_listable (fatalError (shared w')).
Proof.
  induction 1 as [w|w w1 w2 (n & p & a & Hn & Ha & ->) _ IH]; intros Hf Hs; [done|].
  unfold advance in IH. destruct (resume o rows (shared w) p a) as [[sh' p'] es] eqn:E. cbn [shared slots] in IH.
  assert (holds_listable (pending p)) as Hp by (by apply (Forall_lookup_1 _ _ _ _ Hs Hn)).
  destruct (resume_listable _ _ _ _ _ _ _ _ E Ha Hp Hf) as [Hp' Hf']. apply IH; [done|]. by apply Forall_insert.
Qed.

(** C31: the first fatal error decides. Once one is recorded no slot claims another
    call, it is never replaced, and it is what the batch throws, reduced to a
    phase and a category. The category is one of the fixed list when no port threw an
    error whose code is the name of a member every object inherits (nor one already
    bounded to such a category): an error that was bounded keeps its phase and its
    category, a thrown object is classified, and what is not an object is the unknown
    category. A processor that throws is not fatal: its call's result becomes a
    classification failure with a fixed code. *)
Theorem runReauditBatch_first_fatal o rows :
  (∀ w e, fatalError (shared w) = Some e →
     (∀ w', rtc (step o rows) w w' →
        nextIndex (shared w') = nextIndex (shared w) ∧
        settled w' = Throw (asReauditFatalError phase_claim e)) ∧
     match e with
     | ReauditFatalError p c => asReauditFatalError phase_claim e = (p, c)
     | Primitive => asReauditFatalError phase_claim e = (phase_claim, Listed DB_UNKNOWN)
     | ErrorObject s => (∃ c, (asReauditFatalError phase_claim e).2 = Listed c) ∨
         ∃ m, m ∈ inherited_members ∧ er_code s = Some m ∧ (asReauditFatalError phase_claim e).2 = Inherited m
     end) ∧
  (∀ w p c, rtc (listable_step o rows) (initial o rows) w → settled w = Throw (p, c) → ∃ k, c = Listed k) ∧
  (∀ sh i claimed x sh' p es, resume o rows sh (Processing i claimed) (Throw x) = (sh', p, es) →
     sh' = sh ∧ ∃ r, Processed i.1 r ∈ es ∧ errorCode r = Some "AUDIT_PROCESSOR_FAILED").
Proof.
  split; [intros w e He; split|split].
  - intros w' Hw'. assert (fatalError (shared w') = Some e ∧ nextIndex (shared w') = nextIndex (shared w))
      as [E1 E2]; [|by unfold settled; rewrite E1].
    refine (rtc_ind_r (fun w' => fatalError (shared w') = Some e ∧
      nextIndex (shared w') = nextIndex (shared w)) w _ _ w' Hw'); [done|].
    intros y z _ [n p a _] [E1 E2]. unfold advance.
    destruct (resume o rows (shared y) p a) as [[sh' p'] es] eqn:E. cbn [shared].
    apply resume_resumed in E. destruct (res_fatal _ _ _ _ _ E e E1) as [-> ->]. done.
  - destruct e as [p c|s|]; [done| |done].
    cbn [asReauditFatalError snd classifyErrorCategory]. destruct (_ || _ || _); [left; by eexists|].
    destruct (er_code s) as [code|]; cbn; [|left; by eexists]. unfold table_value.
    destruct (List.find _ _) as [[k c]|]; [left; by eexists|].
    case_bool_decide; [right; by exists code|left; by eexists].
  - intros w p c Hw Hs. apply listable_kept in Hw; [|done|by apply Forall_replicate].
    unfold settled in Hs. destruct (fatalError (shared w)) as [e|]; [|done]. injection Hs as Hs.
    destruct (listable_listed phase_claim e) as [k Hk]; [by apply Hw|]. exists k. by rewrite Hs in Hk.
  - intros sh i claimed x sh' p es Hr. cbn [resume] in Hr.
    destruct (claimed && _); cbn in Hr; injection Hr as <- <- <-;
      (split; [done|]); exists (processor_failed i.2); (split; [left|done]).
Qed.

(** ** Instances *)

Module DemoBatch.
Definition rows : list ReauditCandidate := repeat DemoCall.candidate 3.

Definition options : WorkerOptions :=
  {| batchSize := 10; concurrency := Some 2; has_spendGuard := true; has_shouldContinue := false |}.

Definition missing : ReauditItemResult := failed DemoCall.candidate source_missing "NOT_FOUND".

Definition deadlock : raised := ErrorObject {| isRangeError := false;
  er_code := Some "ER_LOCK_DEADLOCK"; er_errno := Some 1213; er_sqlState := None; er_kauditPhase := None |}.

(** The first call throws in the processor, the second is another run's, the
    third's source is missing and its write meets a deadlock once. *)
Definition usual (p : pc) : p ≠ Done → answer p :=
  match p return p ≠ Done → answer p with
  | Turn => fun _ => tt
  | Sleeping _ _ _ _ => fun _ => tt
  | Gate => fun _ => Ok true
  | Claiming i => fun _ => Ok (if (i.1 =? 1)%nat then busy else acquired)
  | Starting _ _ => fun _ => Ok start_acquired
  | Processing i _ => fun _ => if (i.1 =? 0)%nat then Throw Primitive else Ok missing
  | Persisting i _ _ retry => fun _ =>
      if (i.1 =? 2)%nat && (retry =? 0)%nat then Throw deadlock
      else Ok (if (i.1 =? 0)%nat then terminal_failure else retry_scheduled)
  | SettlingStart _ _ => fun _ => Ok tt
  | SettlingCompleted _ => fun _ => Ok tt
  | Staging _ _ => fun _ => Ok tt
  | SettlingFailed _ _ => fun _ => Ok tt
  | Settling _ _ => fun _ => Ok tt
  | Reporting => fun _ => Ok tt
  | Done => fun H => match H eq_refl with end
  end.

Definition alternating : environment := {| answers := fun _ => usual; picks := fun n => n |}.

(** The same, but the database refuses every claim after the first. *)
Definition refusing : environment :=
  {| answers := fun n p => match p return p ≠ Done → answer p with
       | Claiming i => fun H => if (i.1 =? 0)%nat then Ok acquired else Throw deadlock
       | p => usual p end;
     picks := fun n => n |}.

Definition ended (env : environment) : worker := drive options rows env 100 0 (initial options rows).

Example drained_batch :
  (runReauditBatch options (Ok rows) alternating 100, events_of 2 (log (ended alternating))) =
  (Some (Ok {| selected := 3; completed := 0; retriesScheduled := 1; terminalFailures := 1;
               alreadyCompleted := 0; spendGuardSkipped := 1; stoppedEarly := false |}),
   [Claimed 2 acquired; ProcessCalled 2; Processed 2 missing; PersistCalled 2 missing;
    PersistCalled 2 missing; SettleCalled 2 no_model_call]).
Proof. vm_compute. reflexivity. Qed.

Example refused_batch :
  runReauditBatch options (Ok rows) refusing 100 = Some (Throw (Fatal phase_claim (Listed DB_DEADLOCK))) ∧
  counted (summary (shared (ended refusing))) = 1%nat.
Proof. vm_compute. done. Qed.

Lemma reaches_end env : reachable options rows (ended env) ∧ finished (ended env) = true.
Proof. apply drive_finishes. vm_compute. repeat constructor. Qed.
End DemoBatch.


Lemma runReauditBatch_accounts_witness :
  ∃ s, settled (DemoBatch.ended DemoBatch.alternating) = Ok s ∧ counted s = 3%nat.
Proof.
  destruct (runReauditBatch_accounts DemoBatch.options DemoBatch.rows
    (DemoBatch.ended DemoBatch.alternating) eq_refl (proj1 (DemoBatch.reaches_end _))) as [_ Hall].
  destruct (settled (DemoBatch.ended DemoBatch.alternating)) as [s|e] eqn:E; [|vm_compute in E; discriminate E].
  exists s. split; [reflexivity|].
  destruct (Hall (proj2 (DemoBatch.reaches_end _)) s eq_refl) as (Hs & _ & _ & Hc).
  assert (stoppedEarly s = false) as Hstop by (vm_compute in E; injection E as <-; reflexivity).
  rewrite (Hc Hstop), Hs. reflexivity.
Defined.

Lemma runReauditBatch_first_fatal_witness :
  settled (DemoBatch.ended DemoBatch.refusing) = Throw (phase_claim, Listed DB_DEADLOCK).
Proof.
  destruct (proj1 (runReauditBatch_first_fatal DemoBatch.options DemoBatch.rows)
    (DemoBatch.ended DemoBatch.refusing) (ReauditFatalError phase_claim (Listed DB_DEADLOCK)))
    as [Hall _]; [vm_compute; reflexivity|].
  destruct (Hall _ (rtc_refl _ _)) as [_ H]. exact H.
Defined.
