(* ===== verification/Outcomes.v ===== *)
(** * The outcome taxonomy

    [src/callaudit/outcomes.ts]: the 53 labels of the vendor, byte for byte, each
    with its locked description and management group. *)

From S2P Require Import Prelude.

Local Open Scope string_scope.
Local Open Scope list_scope.
#[global] Open Scope Z_scope.

Inductive OutcomeGroup : Type :=
| PRODUCTS_COMMERCE
| RESORT_HEALING
| CONSULTATION_TREATMENT
| TRAINING
| PARTNERSHIP_B2B
| FOLLOW_UP_ACTION
| NOT_CONNECTED
| NOT_INTERESTED_NO_ENQUIRY
| EXISTING_DUPLICATE_DNC
| TECHNICAL_LANGUAGE
| EMPLOYMENT_MISC
| OTHER.

#[export] Instance OutcomeGroup_eq_dec : EqDecision OutcomeGroup.
Proof. solve_decision. Defined.

Definition OUTCOME_GROUPS : list OutcomeGroup := [
  PRODUCTS_COMMERCE;
  RESORT_HEALING;
  CONSULTATION_TREATMENT;
  TRAINING;
  PARTNERSHIP_B2B;
  FOLLOW_UP_ACTION;
  NOT_CONNECTED;
  NOT_INTERESTED_NO_ENQUIRY;
  EXISTING_DUPLICATE_DNC;
  TECHNICAL_LANGUAGE;
  EMPLOYMENT_MISC;
  OTHER
].

Definition group_text (g : OutcomeGroup) : string :=
  match g with
  | PRODUCTS_COMMERCE => "PRODUCTS_COMMERCE"
  | RESORT_HEALING => "RESORT_HEALING"
  | CONSULTATION_TREATMENT => "CONSULTATION_TREATMENT"
  | TRAINING => "TRAINING"
  | PARTNERSHIP_B2B => "PARTNERSHIP_B2B"
  | FOLLOW_UP_ACTION => "FOLLOW_UP_ACTION"
  | NOT_CONNECTED => "NOT_CONNECTED"
  | NOT_INTERESTED_NO_ENQUIRY => "NOT_INTERESTED_NO_ENQUIRY"
  | EXISTING_DUPLICATE_DNC => "EXISTING_DUPLICATE_DNC"
  | TECHNICAL_LANGUAGE => "TECHNICAL_LANGUAGE"
  | EMPLOYMENT_MISC => "EMPLOYMENT_MISC"
  | OTHER => "OTHER"
  end.

Record DetailedOutcomeDefinition : Type := Outcome {
  label : string;
  description : string;
  group : OutcomeGroup;
}.

Definition DETAILED_OUTCOME_DEFINITIONS : list DetailedOutcomeDefinition := [
  Outcome "Product Distributor"
    "Interested in becoming an authorized product distributor." PARTNERSHIP_B2B;
  Outcome "Product Stockists"
    "Interested in stocking Kairali products for wholesale/resale." PARTNERSHIP_B2B;
  Outcome "Individual Products Buying"
    "Customer wants to purchase products for personal use." PRODUCTS_COMMERCE;
  Outcome "Order Status Enquiry"
    "Customer is checking the status of an existing order." PRODUCTS_COMMERCE;
  Outcome "Individual Resort Booking"
    "Enquiry for booking a resort stay for an individual/family." RESORT_HEALING;
  Outcome "Group Resort Booking"
    "Enquiry for group, corporate, or family resort bookings." RESORT_HEALING;
  Outcome "Treatment Package for Resort"
    "Interested in wellness/treatment packages at the resort." RESORT_HEALING;
  Outcome "Single Therapy for Individual"
    "Interested in a single therapy/session instead of a package." CONSULTATION_TREATMENT;
  Outcome "Treatment Package for Kairali Centres"
    "Interested in treatment packages at Kairali wellness centres." CONSULTATION_TREATMENT;
  Outcome "Franchise"
    "Enquiry about opening or owning a Kairali franchise." PARTNERSHIP_B2B;
  Outcome "Jobs Enquiry"
    "Job or career-related enquiry." EMPLOYMENT_MISC;
  Outcome "Sanitizers Enquiry"
    "Enquiry about sanitizer products." PRODUCTS_COMMERCE;
  Outcome "Ayurveda Training"
    "Interested in Ayurveda training courses." TRAINING;
  Outcome "Yoga Training"
    "Interested in Yoga training courses." TRAINING;
  Outcome "Ayurveda and Yoga Training"
    "Interested in both Ayurveda and Yoga training." TRAINING;
  Outcome "Other/Misc Enquiry"
    "Enquiry doesn't fit any predefined category." EMPLOYMENT_MISC;
  Outcome "Did not Enquire"
    "Caller contacted but did not ask for any information." NOT_INTERESTED_NO_ENQUIRY;
  Outcome "Not Connected"
    "Call could not be connected." NOT_CONNECTED;
  Outcome "Junk"
    "Spam, fake, or irrelevant lead." OTHER;
  Outcome "Other Cases"
    "Special case that doesn't match existing dispositions." OTHER;
  Outcome "Not Interested"
    "Customer is not interested in the offering." NOT_INTERESTED_NO_ENQUIRY;
  Outcome "Contract Manufacturing"
    "Interested in third-party or contract manufacturing services." PARTNERSHIP_B2B;
  Outcome "Not Reachable"
    "Customer could not be reached after attempts." NOT_CONNECTED;
  Outcome "Cold"
    "Customer has low interest and no immediate requirement." NOT_INTERESTED_NO_ENQUIRY;
  Outcome "Language Issue"
    "Communication could not continue due to language barrier." TECHNICAL_LANGUAGE;
  Outcome "Reverify"
    "Information needs verification before proceeding." FOLLOW_UP_ACTION;
  Outcome "Expert Required"
    "Customer requires assistance from a domain expert/specialist." FOLLOW_UP_ACTION;
  Outcome "Already Spoken"
    "Customer has already been contacted regarding this enquiry." EXISTING_DUPLICATE_DNC;
  Outcome "Prevention_Rejuvenation"
    "Interested in preventive health or rejuvenation programs." CONSULTATION_TREATMENT;
  Outcome "Doctor Consultation Required"
    "Customer needs consultation with an Ayurvedic doctor." CONSULTATION_TREATMENT;
  Outcome "Duplicate Lead"
    "Lead already exists in the CRM." EXISTING_DUPLICATE_DNC;
  Outcome "Ayurvedic Doctor_Panchakarma Center"
    "Enquiry for Ayurvedic doctor consultation or Panchakarma centre." CONSULTATION_TREATMENT;
  Outcome "Group Resort Booking_yoga retreat"
    "Enquiry for group Yoga Retreat booking at the resort." RESORT_HEALING;
  Outcome "Prevention_rejuvenation"
    "Interested in prevention or rejuvenation therapies." CONSULTATION_TREATMENT;
  Outcome "Pharmacy_retail"
    "Retail pharmacy-related enquiry." PRODUCTS_COMMERCE;
  Outcome "Online Sales"
    "Interested in purchasing products through online channels." PRODUCTS_COMMERCE;
  Outcome "Export_Import"
    "Enquiry regarding export or import of products." PARTNERSHIP_B2B;
  Outcome "Treatment package for resort AHV"
    "Treatment package enquiry for AHV resort." RESORT_HEALING;
  Outcome "Prevention_rejuvenation AHV"
    "Prevention/Rejuvenation program enquiry for AHV." CONSULTATION_TREATMENT;
  Outcome "Group resort booking AHV yoga retreat"
    "Group Yoga Retreat booking enquiry for AHV." RESORT_HEALING;
  Outcome "Ayurvedic Training AHV"
    "Ayurveda training enquiry under AHV." TRAINING;
  Outcome "Yoga training AHV"
    "Yoga training enquiry under AHV." TRAINING;
  Outcome "Not interested AHV"
    "Customer not interested in AHV offerings." NOT_INTERESTED_NO_ENQUIRY;
  Outcome "Outreach Stopped"
    "No further follow-up should be made." EXISTING_DUPLICATE_DNC;
  Outcome "No Answer"
    "Call rang but was not answered." NOT_CONNECTED;
  Outcome "Busy"
    "Customer was busy during the call." NOT_CONNECTED;
  Outcome "Technical Error"
    "Call failed due to a technical issue." TECHNICAL_LANGUAGE;
  Outcome "Callback Required"
    "Customer requested a callback at a later time." FOLLOW_UP_ACTION;
  Outcome "Assign To MR"
    "Assign the lead to the Medical Representative (MR) for follow-up." FOLLOW_UP_ACTION;
  Outcome "Travel Agent"
    "Enquiry from or regarding a travel agent/partner." PARTNERSHIP_B2B;
  Outcome "Panchkarma Training"
    "Interested in Panchakarma training program." TRAINING;
  Outcome "Wants details over Email"
    "Customer requested information via email instead of a call." FOLLOW_UP_ACTION;
  Outcome "DNC Client : Don't Call Furthur"
    "Customer requested not to receive any further calls (Do Not Call)." EXISTING_DUPLICATE_DNC
].

Definition DETAILED_OUTCOMES : list string := map label DETAILED_OUTCOME_DEFINITIONS.

(** [Object.fromEntries]: the last definition of a label counts. *)
Definition from_entries {A} (f : DetailedOutcomeDefinition → A) (outcome : string) : option A :=
  f <$> last (filter (fun d => label d = outcome) DETAILED_OUTCOME_DEFINITIONS).

Definition DETAILED_OUTCOME_GROUP : string → option OutcomeGroup := from_entries group.
Definition DESCRIPTION_BY_LABEL : string → option string := from_entries description.

Definition NO_CONTACT_OUTCOMES : list string := ["Outreach Stopped"; "DNC Client : Don't Call Furthur"].

Definition isDetailedOutcome (value : string) : bool := bool_decide (value ∈ DETAILED_OUTCOMES).
Definition isOutcomeGroup (value : string) : bool := bool_decide (value ∈ map group_text OUTCOME_GROUPS).
Definition isNoContactOutcome (value : string) : bool := bool_decide (value ∈ NO_CONTACT_OUTCOMES).

Definition groupForDetailedOutcome (outcome : string) : option OutcomeGroup :=
  DETAILED_OUTCOME_GROUP outcome.

(** An unapproved label is refused, never normalized. *)
Definition describeDetailedOutcome (outcome : string) : result js_error string :=
  throw_if (negb (isDetailedOutcome outcome)) (PlainError "outcome is not an approved KServe label")
    ≫= fun _ => Ok (from_option id "undefined" (DESCRIPTION_BY_LABEL outcome)).

(** ** Facts *)

Lemma DETAILED_OUTCOMES_NoDup : NoDup DETAILED_OUTCOMES.
Proof. apply (bool_decide_unpack _). vm_compute. exact I. Qed.

Lemma filter_none {A} (P : A → Prop) `{∀ x, Decision (P x)} l : (∀ x, x ∈ l → ¬ P x) → filter P l = [].
Proof.
  induction l as [|x l IH]; intros Hl; [done|].
  rewrite filter_cons, decide_False, IH; [done| |apply Hl; left]. intros y Hy. apply Hl. by right.
Qed.

Lemma filter_unique {A B} `{EqDecision B} (f : A → B) l a :
  NoDup (map f l) → a ∈ l → filter (fun x => f x = f a) l = [a].
Proof.
  induction l as [|x l IH]; [by intros _ ?%elem_of_nil|]. cbn [map]. rewrite NoDup_cons.
  intros [Hx Hl] [->|Ha]%elem_of_cons; rewrite filter_cons.
  - rewrite decide_True by done. f_equal. apply filter_none. intros y Hy E. apply Hx.
    rewrite <- E. by apply list_elem_of_fmap_2.
  - rewrite decide_False; [by apply IH|]. intros E. apply Hx. rewrite E. by apply list_elem_of_fmap_2.
Qed.

(** A label has one definition: its own. *)
Lemma from_entries_definition {A} (f : DetailedOutcomeDefinition → A) d :
  d ∈ DETAILED_OUTCOME_DEFINITIONS → from_entries f (label d) = Some (f d).
Proof.
  intros Hd. unfold from_entries.
  by rewrite (filter_unique label _ d DETAILED_OUTCOMES_NoDup Hd).
Qed.

Lemma isDetailedOutcome_definition s :
  isDetailedOutcome s = true ↔ ∃ d, d ∈ DETAILED_OUTCOME_DEFINITIONS ∧ label d = s.
Proof.
  unfold isDetailedOutcome, DETAILED_OUTCOMES. rewrite bool_decide_eq_true, list_elem_of_fmap. naive_solver.
Qed.

(** Near misses are different labels: two differ only by the case of a letter,
    and the trimmed, respelled or recased forms are not labels. *)
Example near_misses :
  map isDetailedOutcome ["Prevention_Rejuvenation"; "Prevention_rejuvenation"; "prevention_rejuvenation";
    "DNC Client: Don't Call Further"; " Junk"] = [true; true; false; false; false].
Proof. vm_compute. reflexivity. Qed.
