(* ===== verification/Scoring.v ===== *)
(** * Scoring a call

    [src/callaudit/types.ts], [rubric.ts], [metricScore.ts], [overallScore.ts],
    [intent.ts] and [eligibility.ts]: the eight weighted metrics, the scores a
    call may have, and its overall score in exact integer arithmetic. *)

From S2P Require Import Prelude JsText.
From Stdlib Require Import Ascii.

Local Open Scope string_scope.
Local Open Scope list_scope.
#[global] Open Scope Z_scope.

(** ** Untrusted values

    A value of type [unknown]: a finite number is [m / 2 ^ e], and the entries of
    an object are in the order of [Object.keys]. *)
Inductive value : Type :=
| VUndefined
| VNull
| VBool (b : bool)
| VNum (m : Z) (e : N)
| VNotFinite
| VStr (s : string)
| VArr (items : list value)
| VObj (entries : list (string * value)).

(** [record[key]] *)
Fixpoint get (entries : list (string * value)) (key : string) : value :=
  match entries with
  | [] => VUndefined
  | (k, v) :: entries => if String.eqb k key then v else get entries key
  end.

(** [Number.isInteger] *)
Definition isInteger (v : value) : option Z :=
  match v with
  | VNum m e => if m mod 2 ^ Z.of_N e =? 0 then Some (m / 2 ^ Z.of_N e) else None
  | _ => None
  end.

(** ** Intent and eligibility *)

Inductive CallIntent : Type := HIGH | WARM | LOW | NONE.

#[export] Instance CallIntent_eq_dec : EqDecision CallIntent.
Proof. solve_decision. Defined.

Definition CALL_INTENTS : list (string * CallIntent) :=
  [("HIGH", HIGH); ("WARM", WARM); ("LOW", LOW); ("NONE", NONE)].

(** Membership of a text in a list of named values. *)
Definition member {A} (table : list (string * A)) (s : string) : option A :=
  snd <$> List.find (fun p => String.eqb p.1 s) table.

Definition isCallIntent (v : value) : option CallIntent :=
  match v with VStr s => member CALL_INTENTS s | _ => None end.

(** [toUpperCase], as far as an intent or [NA] can tell: the ASCII letters, and the
    dotless i (bytes C4 B1), whose upper case is the ASCII [I]. *)
Definition upper_char (c : ascii) : ascii :=
  if (97 <=? code c) && (code c <=? 122) then ascii_of_N (Z.to_N (code c - 32)) else c.
Fixpoint toUpperCase (s : string) : string :=
  match s with
  | EmptyString => ""
  | String c s =>
      match s with
      | String d s' =>
          if (code c =? 196) && (code d =? 177) then String "I" (toUpperCase s')
          else String (upper_char c) (toUpperCase s)
      | EmptyString => String (upper_char c) ""
      end
  end.

Definition parseCallIntent (v : value) : option CallIntent :=
  match v with VStr s => member CALL_INTENTS (toUpperCase (trim s)) | _ => None end.

Inductive CallAuditEligibility : Type := content_auditable | operational_only.

#[export] Instance CallAuditEligibility_eq_dec : EqDecision CallAuditEligibility.
Proof. solve_decision. Defined.

Definition hasAuditableTranscript (transcript : option string) : bool :=
  match transcript with Some t => negb (blank t) | None => false end.

Inductive OperationalOnlyReason : Type := missing_transcript.

Inductive CallAuditClassification : Type :=
| ContentAuditable
| OperationalOnly (reason : OperationalOnlyReason).

Definition classifyEligibility (transcript : option string) : CallAuditClassification :=
  if hasAuditableTranscript transcript then ContentAuditable else OperationalOnly missing_transcript.

(** The field [eligibility] of a classification. *)
Definition eligibility_of (c : CallAuditClassification) : CallAuditEligibility :=
  match c with ContentAuditable => content_auditable | OperationalOnly _ => operational_only end.

(** ** Metrics *)

Inductive CallAuditMetricCode : Type :=
| PRODUCT_SERVICE_KNOWLEDGE
| CUSTOMER_UNDERSTANDING
| COMMUNICATION_CLARITY
| OBJECTION_CALLBACK_HANDLING
| CLOSING_NEXT_STEP
| PROFESSIONALISM
| QUALIFICATION_COMPLETENESS
| COMPLIANCE_PRIVACY.

#[export] Instance CallAuditMetricCode_eq_dec : EqDecision CallAuditMetricCode.
Proof. solve_decision. Defined.

Definition CALL_AUDIT_METRIC_CODES : list CallAuditMetricCode :=
  [PRODUCT_SERVICE_KNOWLEDGE; CUSTOMER_UNDERSTANDING; COMMUNICATION_CLARITY;
   OBJECTION_CALLBACK_HANDLING; CLOSING_NEXT_STEP; PROFESSIONALISM;
   QUALIFICATION_COMPLETENESS; COMPLIANCE_PRIVACY].

Definition metric_text (m : CallAuditMetricCode) : string :=
  match m with
  | PRODUCT_SERVICE_KNOWLEDGE => "PRODUCT_SERVICE_KNOWLEDGE"
  | CUSTOMER_UNDERSTANDING => "CUSTOMER_UNDERSTANDING"
  | COMMUNICATION_CLARITY => "COMMUNICATION_CLARITY"
  | OBJECTION_CALLBACK_HANDLING => "OBJECTION_CALLBACK_HANDLING"
  | CLOSING_NEXT_STEP => "CLOSING_NEXT_STEP"
  | PROFESSIONALISM => "PROFESSIONALISM"
  | QUALIFICATION_COMPLETENESS => "QUALIFICATION_COMPLETENESS"
  | COMPLIANCE_PRIVACY => "COMPLIANCE_PRIVACY"
  end.

Record CallAuditMetricDefinition : Type := Metric {
  metric_code : CallAuditMetricCode;
  weight : Z;
  naAllowedWhenCustomerSpoke : bool;
  naReason : option string;
}.

Definition CALL_AUDIT_RUBRIC : list CallAuditMetricDefinition := [
  Metric PRODUCT_SERVICE_KNOWLEDGE 15 true (Some "no product or service explanation occurred");
  Metric CUSTOMER_UNDERSTANDING 20 false None;
  Metric COMMUNICATION_CLARITY 15 false None;
  Metric OBJECTION_CALLBACK_HANDLING 10 true (Some "no objection or callback request occurred");
  Metric CLOSING_NEXT_STEP 10 false None;
  Metric PROFESSIONALISM 10 false None;
  Metric QUALIFICATION_COMPLETENESS 15 false None;
  Metric COMPLIANCE_PRIVACY 5 false None
].

Definition CALL_AUDIT_TOTAL_WEIGHT : Z := 100.

Definition isCallAuditMetricCode (v : value) : option CallAuditMetricCode :=
  match v with
  | VStr s => member (map (fun c => (metric_text c, c)) CALL_AUDIT_METRIC_CODES) s
  | _ => None
  end.

(** [CALL_AUDIT_METRIC_WEIGHT[code]] *)
Definition metricWeight (c : CallAuditMetricCode) : Z :=
  from_option weight 0 (last (filter (fun m => metric_code m = c) CALL_AUDIT_RUBRIC)).

(** ** Scores *)

(** An integer from 1 to 5, or not applicable. *)
Inductive MetricScore : Type := Score (n : Z) | NA.

#[export] Instance MetricScore_eq_dec : EqDecision MetricScore.
Proof. solve_decision. Defined.

Definition isMetricScore (v : value) : option MetricScore :=
  match v with
  | VStr s => if String.eqb s "NA" then Some NA else None
  | VNum m e => Score <$> List.find (fun k => m =? k * 2 ^ Z.of_N e) [1; 2; 3; 4; 5]
  | _ => None
  end.

Definition parseMetricScore (v : value) : option MetricScore :=
  match v with
  | VNum _ _ => isMetricScore v
  | VStr s =>
      let trimmed := trim s in
      if String.eqb (toUpperCase trimmed) "NA" then Some NA
      else Score <$> List.find (fun k => String.eqb trimmed (show_nat k)) [1; 2; 3; 4; 5]
  | _ => None
  end.

(** [MetricScoreEntry] and the result of assessing one call: scores only where
    there is content. *)
Inductive CallAuditAssessment : Type :=
| Assessed (intent : CallIntent) (scores : list (string * MetricScore))
| NotAssessed (reason : OperationalOnlyReason).

Definition assessCall (transcript : option string) (intent : CallIntent)
    (scores : list (string * MetricScore)) : CallAuditAssessment :=
  match classifyEligibility transcript with
  | OperationalOnly reason => NotAssessed reason
  | ContentAuditable => Assessed intent scores
  end.

Definition scoring_error (message : string) {A} : Prelude.result js_error A := Throw (PlainError message).

Definition metric_score : Type := CallAuditMetricCode * MetricScore.

(** [scores.has(code)], [scores.get(code)] *)
Definition score_of (scores : list metric_score) (c : CallAuditMetricCode) : option MetricScore :=
  snd <$> List.find (fun p => bool_decide (p.1 = c)) scores.

(** One round of the loop over the entries. *)
Definition add_score (scores : list metric_score) (entry : value)
    : Prelude.result js_error (list metric_score) :=
  match entry with
  | VObj entries =>
      if bool_decide (sort_by String.leb (map fst entries) = ["metric"; "score"]) then
        match isCallAuditMetricCode (get entries "metric") with
        | None => scoring_error "Unknown metric code"
        | Some m =>
            match score_of scores m with
            | Some _ => scoring_error ("Duplicate score for metric " +:+ metric_text m)
            | None =>
                match isMetricScore (get entries "score") with
                | None => scoring_error ("Score for metric " +:+ metric_text m +:+ " must be an integer 1-5 or NA")
                | Some s => Ok (scores ++ [(m, s)])
                end
            end
        end
      else scoring_error "Each metric score must have exactly the keys metric and score"
  | _ => scoring_error "Each metric score must be an object"
  end.

Fixpoint add_scores (scores : list metric_score) (entries : list value)
    : Prelude.result js_error (list metric_score) :=
  match entries with
  | [] => Ok scores
  | entry :: entries => scores ← add_score scores entry; add_scores scores entries
  end.

Definition normalizeMetricScoreSet (v : value) : Prelude.result js_error (list metric_score) :=
  match v with
  | VArr entries =>
      throw_if (negb (length entries =? length CALL_AUDIT_METRIC_CODES)%nat)
        (PlainError ("Expected exactly " +:+ show_nat (Z.of_nat (length CALL_AUDIT_METRIC_CODES)) +:+
           " metric scores, received " +:+ show_nat (Z.of_nat (length entries)))) ≫= fun _ =>
      scores ← add_scores [] entries;
      for_each (fun c => throw_if (match score_of scores c with Some _ => false | None => true end)
        (PlainError ("Missing score for metric " +:+ metric_text c))) CALL_AUDIT_METRIC_CODES ≫= fun _ =>
      Ok scores
  | _ => scoring_error "Metric scores must be an array"
  end.

(** ** The overall score *)

Definition SCALE : Z := 1000.
Definition PERCENT_FACTOR : Z := 20.
Definition OVERALL_SCORE_DECIMALS : nat := 3.

Definition divideHalfUpScaled (numerator denominator : Z) : Prelude.result js_error Z :=
  throw_if (denominator <=? 0) (PlainError "Applicable weight total must be positive") ≫= fun _ =>
  let scaled := numerator * SCALE in
  let quotient := Z.quot scaled denominator in
  let remainder := Z.rem scaled denominator in
  Ok (if denominator <=? remainder * 2 then quotient + 1 else quotient).

Definition formatScaled (scaled : Z) : string :=
  let whole := Z.quot scaled SCALE in
  let fraction := Z.rem scaled SCALE in
  show_Z whole +:+ "." +:+ pad_start OVERALL_SCORE_DECIMALS (show_Z fraction).

Definition weightedPercentageDecimal (weightedScoreTotal applicableWeightTotal : Z)
    : Prelude.result js_error string :=
  throw_if (weightedScoreTotal <? 0) (PlainError "Weighted score total must not be negative") ≫= fun _ =>
  q ← divideHalfUpScaled (weightedScoreTotal * PERCENT_FACTOR) applicableWeightTotal;
  Ok (formatScaled q).

(** The running totals of [calculateOverallScore]. *)
Definition add_weighted (totals : Z * Z) (p : metric_score) : Z * Z :=
  match p.2 with
  | NA => totals
  | Score n => (totals.1 + n * metricWeight p.1, totals.2 + metricWeight p.1)
  end.

Definition overall_of (scores : list metric_score) : Prelude.result js_error (option string) :=
  let '(weighted, applicable) := foldl add_weighted (0, 0) scores in
  if applicable =? 0 then Ok None
  else t ← weightedPercentageDecimal weighted applicable; Ok (Some t).

Definition calculateOverallScore (v : value) : Prelude.result js_error (option string) :=
  scores ← normalizeMetricScoreSet v; overall_of scores.

Definition deriveOverallScore (e : CallAuditEligibility) (metricScores : value)
    : Prelude.result js_error (option string) :=
  match e with operational_only => Ok None | content_auditable => calculateOverallScore metricScores end.

(** ** Facts *)

Lemma member_Some {A} (table : list (string * A)) s a : member table s = Some a → (s, a) ∈ table.
Proof.
  unfold member. destruct (List.find _ table) as [[k x]|] eqn:E; [|done]. intros [= ->].
  apply List.find_some in E as [Hin Hk]. apply String.eqb_eq in Hk as <-. by apply list_elem_of_In.
Qed.

Definition valid_score (s : MetricScore) : Prop := match s with NA => True | Score n => 1 ≤ n ≤ 5 end.

Lemma isMetricScore_valid v s : isMetricScore v = Some s → valid_score s.
Proof.
  destruct v; cbn [isMetricScore]; try done.
  - destruct (List.find (fun k => m =? k * 2 ^ Z.of_N e) [1; 2; 3; 4; 5]) as [k|] eqn:E; [|done]. intros [= <-].
    apply List.find_some in E as [Hin _]. apply list_elem_of_In in Hin. cbn.
    repeat (apply elem_of_cons in Hin as [->|Hin]; [lia|]). by apply elem_of_nil in Hin.
  - destruct (String.eqb s0 "NA"); [|done]. by intros [= <-].
Qed.

Lemma score_of_None scores c : score_of scores c = None ↔ c ∉ map fst scores.
Proof.
  unfold score_of. induction scores as [|[d s] scores IH]; cbn; [by split; [intros _ ?%elem_of_nil|]|].
  rewrite not_elem_of_cons. case_bool_decide; [naive_solver|]. rewrite IH. naive_solver.
Qed.

Lemma score_of_elem scores c s :
  NoDup (map fst scores) → (c, s) ∈ scores → score_of scores c = Some s.
Proof.
  unfold score_of. induction scores as [|[d x] scores IH]; cbn; [by intros _ ?%elem_of_nil|].
  rewrite NoDup_cons. intros [Hd Hn] [[= -> ->]|Hin]%elem_of_cons; [by rewrite bool_decide_true|].
  rewrite bool_decide_false; [by apply IH|]. intros ->. apply Hd. by apply (list_elem_of_fmap_2 fst _ (c, s)).
Qed.

Definition score_set (scores : list metric_score) : Prop :=
  NoDup (map fst scores) ∧ Forall (fun p => valid_score p.2) scores.

Lemma add_score_set scores entry scores' :
  score_set scores → add_score scores entry = Ok scores' →
  score_set scores' ∧ length scores' = S (length scores).
Proof.
  intros [Hn Hv] H. destruct entry as [| | | | | | |entries]; try done. cbn in H.
  case_bool_decide; [|done].
  destruct (isCallAuditMetricCode _) as [m|]; [|done].
  destruct (score_of scores m) eqn:Em; [done|].
  destruct (isMetricScore _) as [s|] eqn:Es; [|done]. apply Ok_inj in H as <-.
  apply score_of_None in Em. split; [split|].
  - rewrite map_app. apply NoDup_app. split; [done|]. split; [|apply NoDup_singleton].
    intros x Hx Hx'%list_elem_of_singleton. by subst.
  - apply Forall_app_2; [done|]. constructor; [|done]. by apply isMetricScore_valid in Es.
  - rewrite length_app. cbn. lia.
Qed.

Lemma add_scores_set entries : ∀ scores scores',
  score_set scores → add_scores scores entries = Ok scores' →
  score_set scores' ∧ length scores' = (length scores + length entries)%nat.
Proof.
  induction entries as [|x entries IH]; intros scores scores' Hs H; cbn in H.
  - apply Ok_inj in H as <-. split; [done|]. cbn. lia.
  - apply bind_Ok_iff in H as (s1 & H1 & H). destruct (add_score_set _ _ _ Hs H1) as [Hs1 Hl].
    destruct (IH _ _ Hs1 H) as [Hs2 Hl2]. split; [done|]. cbn. lia.
Qed.

(** An accepted score set scores every metric once. *)
Lemma normalize_spec v scores :
  normalizeMetricScoreSet v = Ok scores →
  score_set scores ∧ (∀ c, ∃ s, (c, s) ∈ scores ∧ score_of scores c = Some s) ∧
  length scores = length CALL_AUDIT_METRIC_CODES.
Proof.
  destruct v as [| | | | | |entries|]; try done. cbn -[CALL_AUDIT_METRIC_CODES]. intros H.
  apply bind_Ok_iff in H as (u & Hl & H). apply throw_if_Ok, negb_false_iff, Nat.eqb_eq in Hl.
  apply bind_Ok_iff in H as (sc & Hs & H). apply bind_Ok_iff in H as (u' & Hall & H).
  apply Ok_inj in H as ->. apply for_each_Ok in Hall. rewrite Forall_forall in Hall.
  apply add_scores_set in Hs as [Hset Hlen]; [|by split; constructor].
  split; [done|]. split; [|by rewrite Hlen].
  intros c. assert (c ∈ CALL_AUDIT_METRIC_CODES) as Hc by (destruct c; apply (bool_decide_unpack _); exact I).
  specialize (Hall c Hc). apply throw_if_Ok in Hall.
  destruct (score_of scores c) as [s|] eqn:E; [|done]. exists s. split; [|done].
  unfold score_of in E. destruct (List.find (fun p => bool_decide (p.1 = c)) scores) as [[d x]|] eqn:Ef; [|done].
  injection E as ->. apply List.find_some in Ef as [Hin Hd]. apply bool_decide_eq_true in Hd.
  cbn in Hd. subst d. by apply list_elem_of_In.
Qed.

(** *** The overall score *)

Definition totals (scores : list metric_score) : Z * Z := foldl add_weighted (0, 0) scores.

Lemma metricWeight_pos c : 0 < metricWeight c.
Proof. by destruct c. Qed.

Definition not_applicable (p : metric_score) : Prop := p.2 = NA.

Lemma totals_from scores : ∀ acc,
  Forall (fun p => valid_score p.2) scores → 0 ≤ acc.2 ≤ acc.1 ∧ acc.1 ≤ 5 * acc.2 →
  let t := foldl add_weighted acc scores in
  0 ≤ t.2 ≤ t.1 ∧ t.1 ≤ 5 * t.2 ∧ (t.2 = 0 ↔ acc.2 = 0 ∧ Forall not_applicable scores).
Proof.
  induction scores as [|[c s] scores IH]; intros acc Hv Ha; cbn [foldl].
  - split; [lia|]. split; [lia|]. rewrite Forall_nil. tauto.
  - apply Forall_cons in Hv as [Hs Hv]. rewrite Forall_cons. unfold not_applicable at 1. cbn [fst snd] in *.
    pose proof (metricWeight_pos c) as Hw. destruct s as [n|]; cbn [valid_score] in Hs.
    + change (add_weighted acc (c, Score n)) with (acc.1 + n * metricWeight c, acc.2 + metricWeight c).
      destruct (IH (acc.1 + n * metricWeight c, acc.2 + metricWeight c) Hv) as (H1 & H2 & H3);
        [cbn; nia|]. split; [exact H1|]. split; [exact H2|]. rewrite H3. cbn.
      split; [intros [? _]; lia|intros (? & ? & _); done].
    + change (add_weighted acc (c, NA)) with acc.
      destruct (IH acc Hv Ha) as (H1 & H2 & H3). split; [exact H1|]. split; [exact H2|]. rewrite H3. tauto.
Qed.

(** Rounding half up, to the thousandth. *)
Definition rounds_half_up (n d q : Z) : Prop := d * (2 * q - 1) ≤ 2 * n * SCALE ∧ 2 * n * SCALE < d * (2 * q + 1).

Lemma divideHalfUpScaled_spec n d :
  0 ≤ n → 0 < d → ∃ q, divideHalfUpScaled n d = Ok q ∧ 0 ≤ q ∧ rounds_half_up n d q.
Proof.
  intros Hn Hd. unfold divideHalfUpScaled, rounds_half_up, SCALE.
  rewrite (proj2 (Z.leb_gt d 0)) by done. cbn [throw_if mbind result_bind].
  rewrite Z.quot_div_nonneg, Z.rem_mod_nonneg by lia.
  pose proof (Z.div_mod (n * 1000) d ltac:(lia)) as Hdm. pose proof (Z.mod_pos_bound (n * 1000) d Hd) as Hm.
  pose proof (Z.div_pos (n * 1000) d ltac:(lia) Hd).
  destruct (Z.leb_spec d ((n * 1000) mod d * 2)); eexists; (split; [done|]); split; nia.
Qed.

Lemma formatScaled_fixed q : 0 ≤ q → formatScaled q = show_fixed 3 q.
Proof.
  intros Hq. unfold formatScaled, show_fixed, SCALE, OVERALL_SCORE_DECIMALS.
  rewrite Z.quot_div_nonneg, Z.rem_mod_nonneg by lia.
  assert (∀ z, 0 ≤ z → show_Z z = show_nat z) as Hshow.
  { intros z Hz. unfold show_Z. by rewrite (proj2 (Z.ltb_ge z 0)). }
  rewrite !Hshow; [done| |]; [by apply Z.mod_pos_bound|by apply Z.div_pos].
Qed.

(** The overall score of a valid score set: none when nothing applies, otherwise
    the weighted percentage of the metrics that do, rounded half up, from 20 to
    100. *)
Definition overall_spec (scores : list metric_score) (o : option string) : Prop :=
  match o with
  | None => Forall not_applicable scores
  | Some t => ¬ Forall not_applicable scores ∧ ∃ q, t = show_fixed 3 q ∧ 20000 ≤ q ≤ 100000 ∧
      rounds_half_up (20 * (totals scores).1) (totals scores).2 q
  end.

Lemma overall_of_spec scores :
  Forall (fun p => valid_score p.2) scores →
  ∃ o, overall_of scores = Ok o ∧ overall_spec scores o.
Proof.
  intros Hv. destruct (totals_from scores (0, 0) Hv ltac:(cbn; lia)) as (H1 & H2 & H3).
  unfold overall_of, overall_spec. fold (totals scores) in *. destruct (totals scores) as [S W]. cbn [fst snd] in *.
  destruct (Z.eqb_spec W 0) as [->|HW].
  - exists None. split; [done|]. by apply H3.
  - destruct (divideHalfUpScaled_spec (S * PERCENT_FACTOR) W) as (q & Hq & Hq0 & Hr); [unfold PERCENT_FACTOR; lia|lia|].
    unfold weightedPercentageDecimal. rewrite (proj2 (Z.ltb_ge S 0)) by lia. cbn [throw_if mbind result_bind].
    rewrite Hq. cbn. exists (Some (formatScaled q)). split; [done|]. split.
    { intros Hna. apply HW, H3. done. }
    exists q. rewrite formatScaled_fixed by done. split; [done|].
    unfold PERCENT_FACTOR in Hr. rewrite (Z.mul_comm 20). split; [|done].
    unfold rounds_half_up, SCALE in Hr. nia.
Qed.

(** ** A score set read back *)

(** A complete score set in the order of the codes. *)
Definition score_table (f : CallAuditMetricCode → MetricScore) (codes : list CallAuditMetricCode)
    : list metric_score := map (fun c => (c, f c)) codes.

(** An entry as an object of two members. *)
Definition score_value (p : CallAuditMetricCode * option MetricScore) : value :=
  VObj [("metric", VStr (metric_text p.1));
        ("score", match p.2 with
                  | None => VUndefined | Some NA => VStr "NA" | Some (Score n) => VNum n 0
                  end)].

Lemma add_score_value scores c s :
  score_of scores c = None → valid_score s →
  add_score scores (score_value (c, Some s)) = Ok (scores ++ [(c, s)]).
Proof.
  intros Hc Hs. unfold add_score, score_value. cbn [fst snd map].
  rewrite bool_decide_true by reflexivity. cbn [get String.eqb Ascii.eqb Bool.eqb].
  assert (isCallAuditMetricCode (VStr (metric_text c)) = Some c) as -> by by destruct c.
  rewrite Hc. destruct s as [n|]; [|reflexivity]. cbn in Hs.
  assert (n = 1 ∨ n = 2 ∨ n = 3 ∨ n = 4 ∨ n = 5) as Hn by lia.
  repeat (destruct Hn as [->|Hn]; [reflexivity|]). by subst n.
Qed.

Lemma add_scores_table f codes : ∀ scores,
  NoDup codes → (∀ c, c ∈ codes → c ∉ map fst scores) → (∀ c, valid_score (f c)) →
  add_scores scores (map (fun c => score_value (c, Some (f c))) codes) = Ok (scores ++ score_table f codes).
Proof.
  induction codes as [|c codes IH]; intros scores Hn Hd Hv; cbn [map add_scores]; [by rewrite app_nil_r|].
  apply NoDup_cons in Hn as [Hc Hn].
  rewrite add_score_value by (try done; apply score_of_None, Hd; left). cbn [mbind result_bind].
  rewrite IH; [by rewrite <- app_assoc|done| |done].
  intros d Hd' Hin. rewrite map_app, elem_of_app in Hin.
  destruct Hin as [Hin|Hin%list_elem_of_singleton]; [|by cbn in Hin; subst d].
  by apply (Hd d); [right|].
Qed.

(** The eight metrics, each with a valid score, normalize to themselves. *)
Lemma normalize_table f :
  (∀ c, valid_score (f c)) →
  normalizeMetricScoreSet (VArr (map (fun c => score_value (c, Some (f c))) CALL_AUDIT_METRIC_CODES)) =
  Ok (score_table f CALL_AUDIT_METRIC_CODES).
Proof.
  intros Hv. unfold normalizeMetricScoreSet. rewrite length_map, Nat.eqb_refl. cbn [negb throw_if mbind result_bind].
  rewrite (add_scores_table f _ []); [reflexivity| |by intros ? _ ?%elem_of_nil|done].
  apply (bool_decide_unpack _). exact I.
Qed.
