(* ===== verification/ModelOutput.v ===== *)
(** * Validating a model's audit

    [src/callaudit/modelOutput.ts]: the strict check of an untrusted content-audit
    value. The grouped outcome and the overall score are never read from it. *)

From S2P Require Import Prelude JsText Regex Outcomes Scoring.

Local Open Scope string_scope.
Local Open Scope list_scope.
#[global] Open Scope Z_scope.

Record CallAuditOutputError : Type := OutputError {
  err_field : string;
  err_reason : string;
}.

Notation checked A := (Prelude.result CallAuditOutputError A).

Inductive Qualification : Type := QUALIFIED | NON_QUALIFIED | UNCERTAIN | NOT_APPLICABLE.

Inductive NextActionCode : Type :=
| action_NONE
| CALLBACK
| SEND_DETAILS_EMAIL
| ASSIGN_TO_MR
| EXPERT_FOLLOWUP
| DOCTOR_CONSULTATION
| SCHEDULE_BOOKING
| DO_NOT_CALL
| REVERIFY
| TECHNICAL_RETRY
| LANGUAGE_CALLBACK
| OTHER_ACTION.

Inductive IssueFlag : Type :=
| TECHNICAL_ISSUE
| LANGUAGE_ISSUE
| NO_CUSTOMER_SPEECH
| MISSED_REQUIREMENT
| INCORRECT_CLASSIFICATION
| WEAK_DISCOVERY
| WEAK_OBJECTION_HANDLING
| WEAK_NEXT_STEP
| UNSUPPORTED_CLAIM
| PRIVACY_COMPLIANCE_RISK
| DNC_RISK
| DUPLICATE_LEAD
| POOR_TRANSCRIPT_QUALITY
| REPEATED_QUESTION
| PREMATURE_END
| CUSTOMER_FRUSTRATION.

#[export] Instance Qualification_eq_dec : EqDecision Qualification.
Proof. solve_decision. Defined.
#[export] Instance IssueFlag_eq_dec : EqDecision IssueFlag.
Proof. solve_decision. Defined.

Definition QUALIFICATIONS : list (string * Qualification) := [
  ("QUALIFIED", QUALIFIED); ("NON_QUALIFIED", NON_QUALIFIED); ("UNCERTAIN", UNCERTAIN);
  ("NOT_APPLICABLE", NOT_APPLICABLE)].

Definition NEXT_ACTION_CODES : list (string * NextActionCode) := [
  ("NONE", action_NONE); ("CALLBACK", CALLBACK); ("SEND_DETAILS_EMAIL", SEND_DETAILS_EMAIL);
  ("ASSIGN_TO_MR", ASSIGN_TO_MR); ("EXPERT_FOLLOWUP", EXPERT_FOLLOWUP);
  ("DOCTOR_CONSULTATION", DOCTOR_CONSULTATION); ("SCHEDULE_BOOKING", SCHEDULE_BOOKING);
  ("DO_NOT_CALL", DO_NOT_CALL); ("REVERIFY", REVERIFY); ("TECHNICAL_RETRY", TECHNICAL_RETRY);
  ("LANGUAGE_CALLBACK", LANGUAGE_CALLBACK); ("OTHER", OTHER_ACTION)].

Definition ISSUE_FLAGS : list (string * IssueFlag) := [
  ("TECHNICAL_ISSUE", TECHNICAL_ISSUE); ("LANGUAGE_ISSUE", LANGUAGE_ISSUE);
  ("NO_CUSTOMER_SPEECH", NO_CUSTOMER_SPEECH); ("MISSED_REQUIREMENT", MISSED_REQUIREMENT);
  ("INCORRECT_CLASSIFICATION", INCORRECT_CLASSIFICATION); ("WEAK_DISCOVERY", WEAK_DISCOVERY);
  ("WEAK_OBJECTION_HANDLING", WEAK_OBJECTION_HANDLING); ("WEAK_NEXT_STEP", WEAK_NEXT_STEP);
  ("UNSUPPORTED_CLAIM", UNSUPPORTED_CLAIM); ("PRIVACY_COMPLIANCE_RISK", PRIVACY_COMPLIANCE_RISK);
  ("DNC_RISK", DNC_RISK); ("DUPLICATE_LEAD", DUPLICATE_LEAD);
  ("POOR_TRANSCRIPT_QUALITY", POOR_TRANSCRIPT_QUALITY); ("REPEATED_QUESTION", REPEATED_QUESTION);
  ("PREMATURE_END", PREMATURE_END); ("CUSTOMER_FRUSTRATION", CUSTOMER_FRUSTRATION)].

Definition CONTENT_AUDIT_OUTPUT_KEYS : list string := [
  "callConnected"; "customerSpoke"; "meaningfulConversation"; "intent"; "detailedOutcome";
  "qualification"; "nextAction"; "confidence"; "metricScores"; "issueFlags"; "managementSummary";
  "kserveFeedback"; "improvementFeedback"].

Definition MAX_FEEDBACK_LENGTH : Z := 2000.

Record ValidatedContentAuditOutput : Type := {
  callConnected : bool;
  out_customerSpoke : bool;
  meaningfulConversation : bool;
  intent : CallIntent;
  detailedOutcome : string;
  groupedOutcome : option OutcomeGroup;
  qualification : Qualification;
  nextAction : NextActionCode;
  out_confidence : Z * N;
  metricScores : list (CallAuditMetricCode * option MetricScore);
  overallScore : option string;
  issueFlags : list IssueFlag;
  managementSummary : string;
  kserveFeedback : string;
  improvementFeedback : string;
}.

(** ** The checks of one field *)

Section Fields.
Context (record : list (string * value)).

Definition requireBoolean (field : string) : checked bool :=
  match get record field with
  | VBool b => Ok b
  | _ => Throw (OutputError field "must be a boolean")
  end.

Definition requireMember {A} (field : string) (allowed : list (string * A)) : checked A :=
  let err := Throw (OutputError field "is not an approved value") in
  match get record field with
  | VStr s => match member allowed s with Some a => Ok a | None => err end
  | _ => err
  end.

(** The patterns of [requireSanitizedText]. None has the [u] flag, and [i] without
    it folds the ASCII letters alone. *)
Definition ascii_fold (c : Z) : Z := if (65 <=? c) && (c <=? 90) then c + 32 else c.
Definition CI (s : string) : re :=
  Cats (map (fun c => Chr (fun d => ascii_fold d =? c)) (code_points s)).
Definition digit_re : re := Chr (fun c => (48 <=? c) && (c <=? 57)).
Definition digit_space_dash : re := Chr (fun c => ((48 <=? c) && (c <=? 57)) || space_char c || (c =? 45)).
Definition local_part : re := Plus (Chr (fun c => negb (space_char c) && negb (c =? 64))).

Definition CONTROL_CHARACTERS : re :=
  Chr (fun c => (c <=? 8) || (c =? 11) || (c =? 12) || ((14 <=? c) && (c <=? 31)) ||
                ((127 <=? c) && (c <=? 159))).
Definition URL_PATTERN : re :=
  Alt (Cats [CI "http"; Opt (CI "s"); CI "://"]) (CI "www.").
Definition EMAIL_PATTERN : re := Cats [local_part; CI "@"; local_part; CI "."; local_part].
Definition PHONE_PATTERN : re :=
  Cats (digit_re :: repeat digit_space_dash 6 ++ [Star digit_space_dash]).

Definition requireSanitizedText (field : string) : checked string :=
  match get record field with
  | VStr s =>
      let text := trim s in
      throw_if (MAX_FEEDBACK_LENGTH <? units text)
        (OutputError field "must be at most 2000 characters") ≫= fun _ =>
      throw_if (test CONTROL_CHARACTERS text)
        (OutputError field "must not contain control characters") ≫= fun _ =>
      throw_if (test URL_PATTERN text) (OutputError field "must not contain a URL") ≫= fun _ =>
      throw_if (test EMAIL_PATTERN text)
        (OutputError field "must not contain an email address") ≫= fun _ =>
      throw_if (test PHONE_PATTERN text)
        (OutputError field "must not contain a phone number") ≫= fun _ =>
      Ok text
  | _ => Throw (OutputError field "must be a string")
  end.

Definition requireConfidence : checked (Z * N) :=
  match get record "confidence" with
  | VNum m e =>
      throw_if ((m <? 0) || (2 ^ Z.of_N e <? m))
        (OutputError "confidence" "must be between 0 and 1") ≫= fun _ => Ok (m, e)
  | _ => Throw (OutputError "confidence" "must be a finite number")
  end.

Fixpoint add_flags (flags : list IssueFlag) (values : list value) : checked (list IssueFlag) :=
  match values with
  | [] => Ok flags
  | v :: values =>
      match (match v with VStr s => member ISSUE_FLAGS s | _ => None end) with
      | None => Throw (OutputError "issueFlags" "contains an unapproved flag")
      | Some flag =>
          throw_if (bool_decide (flag ∈ flags)) (OutputError "issueFlags" "contains a duplicate flag")
            ≫= fun _ => add_flags (flags ++ [flag]) values
      end
  end.

Definition requireIssueFlags : checked (list IssueFlag) :=
  match get record "issueFlags" with
  | VArr values =>
      throw_if (length ISSUE_FLAGS <? length values)%nat
        (OutputError "issueFlags" "contains more flags than exist") ≫= fun _ =>
      add_flags [] values
  | _ => Throw (OutputError "issueFlags" "must be an array")
  end.

Definition message_of (e : js_error) : string :=
  match e with TypeError m | RangeError m | PlainError m => m end.

Definition requireMetricScores : checked (list metric_score) :=
  match normalizeMetricScoreSet (get record "metricScores") with
  | Ok scores => Ok scores
  | Throw e => Throw (OutputError "metricScores" (message_of e))
  end.
End Fields.

(** ** Consistency *)

Definition is_NA (s : MetricScore) : bool := match s with NA => true | Score _ => false end.

(** What follows from the model's own answers. *)
Definition assertSemanticConsistency (connected spoke meaningful : bool) (intent : CallIntent)
    (q : Qualification) (scores : list metric_score) : checked unit :=
  throw_if (negb connected && spoke)
    (OutputError "customerSpoke" "must be false when the call did not connect") ≫= fun _ =>
  if negb spoke then
    throw_if meaningful
      (OutputError "meaningfulConversation" "must be false when the customer did not speak") ≫= fun _ =>
    throw_if (negb (bool_decide (intent = NONE)))
      (OutputError "intent" "must be NONE when the customer did not speak") ≫= fun _ =>
    throw_if (negb (bool_decide (q = NOT_APPLICABLE)))
      (OutputError "qualification" "must be NOT_APPLICABLE when the customer did not speak") ≫= fun _ =>
    for_each (fun p : metric_score => throw_if (negb (is_NA p.2))
      (OutputError "metricScores" ("metric " +:+ metric_text p.1 +:+ " must be NA when the customer did not speak")))
      scores
  else
    for_each (fun m => throw_if (negb (naAllowedWhenCustomerSpoke m) &&
        bool_decide (score_of scores (metric_code m) = Some NA))
      (OutputError "metricScores" ("metric " +:+ metric_text (metric_code m) +:+
         " may not be NA when the customer spoke"))) CALL_AUDIT_RUBRIC.

(** ** The validation *)

(** A check of this module within the whole validation. *)
Definition within {A} (m : checked A) : Prelude.result (js_error + CallAuditOutputError) A :=
  match m with Ok a => Ok a | Throw e => Throw (inr e) end.

(** [calculateOverallScore] here rejects no score set; were it to, its error would
    leave the validation as it is, which [inl] stands for. *)
Definition validateContentAuditOutput (v : value) (eligibility : CallAuditEligibility)
    : Prelude.result (js_error + CallAuditOutputError) ValidatedContentAuditOutput :=
  within (throw_if (negb (bool_decide (eligibility = content_auditable)))
    (OutputError "eligibility" "an operational-only call has no content-audit output")) ≫= fun _ =>
  match v with
  | VObj record =>
      within (for_each (fun key => throw_if (negb (bool_decide (key ∈ CONTENT_AUDIT_OUTPUT_KEYS)))
        (OutputError key "is not an accepted output field")) (map fst record)) ≫= fun _ =>
      within (for_each (fun key => throw_if (negb (bool_decide (key ∈ map fst record)))
        (OutputError key "is required")) CONTENT_AUDIT_OUTPUT_KEYS) ≫= fun _ =>
      connected ← within (requireBoolean record "callConnected");
      spoke ← within (requireBoolean record "customerSpoke");
      meaningful ← within (requireBoolean record "meaningfulConversation");
      match isCallIntent (get record "intent"), get record "detailedOutcome" with
      | None, _ => Throw (inr (OutputError "intent" "is not an approved value"))
      | Some intent, detailed =>
          within (match detailed with
            | VStr s => throw_if (negb (isDetailedOutcome s))
                          (OutputError "detailedOutcome" "is not an approved detailed outcome") ≫= fun _ => Ok s
            | _ => Throw (OutputError "detailedOutcome" "is not an approved detailed outcome")
            end) ≫= fun detailed =>
          q ← within (requireMember record "qualification" QUALIFICATIONS);
          action ← within (requireMember record "nextAction" NEXT_ACTION_CODES);
          conf ← within (requireConfidence record);
          scores ← within (requireMetricScores record);
          flags ← within (requireIssueFlags record);
          summary ← within (requireSanitizedText record "managementSummary");
          kserve ← within (requireSanitizedText record "kserveFeedback");
          improvement ← within (requireSanitizedText record "improvementFeedback");
          within (assertSemanticConsistency connected spoke meaningful intent q scores) ≫= fun _ =>
          let metricScores :=
            map (fun m => (metric_code m, score_of scores (metric_code m))) CALL_AUDIT_RUBRIC in
          match calculateOverallScore (VArr (map score_value metricScores)) with
          | Throw e => Throw (inl e)
          | Ok overall =>
              Ok {| callConnected := connected; out_customerSpoke := spoke;
                    meaningfulConversation := meaningful; intent := intent;
                    detailedOutcome := detailed;
                    groupedOutcome := groupForDetailedOutcome detailed;
                    qualification := q; nextAction := action; out_confidence := conf;
                    metricScores := metricScores; overallScore := overall; issueFlags := flags;
                    managementSummary := summary; kserveFeedback := kserve;
                    improvementFeedback := improvement |}
          end
      end
  | _ => within (Throw (OutputError "root" "must be an object"))
  end.

(** ** Facts *)

(** A text of the output is its field of the model's value, trimmed, short and
    free of what the patterns describe. *)
Definition sanitized (record : list (string * value)) (field text : string) : Prop :=
  (∃ s, get record field = VStr s ∧ text = trim s) ∧ units text ≤ MAX_FEEDBACK_LENGTH ∧
  Forall (fun r => test r text = false) [CONTROL_CHARACTERS; URL_PATTERN; EMAIL_PATTERN; PHONE_PATTERN].

Lemma requireSanitizedText_sanitized record field text :
  requireSanitizedText record field = Ok text → sanitized record field text.
Proof.
  unfold requireSanitizedText, sanitized. destruct (get record field) as [| | | | |s| |]; try done. intros H.
  apply bind_Ok_iff in H as (u & H1 & H). apply throw_if_Ok, Z.ltb_ge in H1.
  do 4 (let H' := fresh in apply bind_Ok_iff in H as (? & H' & H); apply throw_if_Ok in H').
  apply Ok_inj in H as <-. split; [eauto|]. split; [done|]. by repeat constructor.
Qed.

Lemma requireConfidence_bounds record m e : requireConfidence record = Ok (m, e) → 0 ≤ m ≤ 2 ^ Z.of_N e.
Proof.
  unfold requireConfidence. destruct (get record "confidence"); try done. intros H.
  apply bind_Ok_iff in H as (u & H1 & H). apply throw_if_Ok, orb_false_iff in H1 as [?%Z.ltb_ge ?%Z.ltb_ge].
  apply Ok_inj in H. simplify_eq. lia.
Qed.

Lemma add_flags_NoDup values : ∀ flags flags', NoDup flags → add_flags flags values = Ok flags' → NoDup flags'.
Proof.
  induction values as [|v values IH]; intros flags flags' Hn H; cbn [add_flags] in H; [by apply Ok_inj in H as <-|].
  destruct (match v with VStr s => member ISSUE_FLAGS s | _ => None end) as [flag|]; [|done].
  apply bind_Ok_iff in H as (u & H1 & H). apply throw_if_Ok, bool_decide_eq_false in H1.
  apply IH in H; [done|]. apply NoDup_app. split; [done|]. split; [|apply NoDup_singleton].
  intros x Hx Hx'%list_elem_of_singleton. by subst x.
Qed.

Lemma requireIssueFlags_NoDup record flags : requireIssueFlags record = Ok flags → NoDup flags.
Proof.
  unfold requireIssueFlags. destruct (get record "issueFlags"); try done. intros H.
  apply bind_Ok_iff in H as (u & _ & H). by apply add_flags_NoDup in H; [|constructor].
Qed.

Lemma requireMetricScores_set record scores :
  requireMetricScores record = Ok scores →
  score_set scores ∧ ∀ c, ∃ s, (c, s) ∈ scores ∧ score_of scores c = Some s.
Proof.
  unfold requireMetricScores. destruct (normalizeMetricScoreSet _) as [sc|] eqn:E; [|done].
  intros ->%Ok_inj. apply normalize_spec in E as (H1 & H2 & _). by split.
Qed.

Definition table_of (scores : list metric_score) : CallAuditMetricCode → MetricScore :=
  fun c => default NA (score_of scores c).

Lemma score_of_valid scores c s :
  Forall (fun p => valid_score p.2) scores → score_of scores c = Some s → valid_score s ∧ (c, s) ∈ scores.
Proof.
  intros Hv. unfold score_of.
  destruct (List.find (fun p => bool_decide (p.1 = c)) scores) as [[d x]|] eqn:E; [|done].
  intros [= ->]. apply List.find_some in E as [Hin Hd]. apply bool_decide_eq_true in Hd. cbn in Hd. subst d.
  apply list_elem_of_In in Hin. rewrite Forall_forall in Hv. split; [by apply (Hv _ Hin)|done].
Qed.

Lemma rubric_codes : map metric_code CALL_AUDIT_RUBRIC = CALL_AUDIT_METRIC_CODES.
Proof. reflexivity. Qed.

(** The scores of the output are the accepted set in the order of the rubric, and
    the overall score is computed from them without failing. *)
Lemma output_scores scores :
  score_set scores → (∀ c, ∃ s, (c, s) ∈ scores ∧ score_of scores c = Some s) →
  let table := score_table (table_of scores) CALL_AUDIT_METRIC_CODES in
  let out := map (fun m => (metric_code m, score_of scores (metric_code m))) CALL_AUDIT_RUBRIC in
  out = map (fun p => (p.1, Some p.2)) table ∧ Forall (fun p => valid_score p.2) table ∧
  ∃ o, calculateOverallScore (VArr (map score_value out)) = Ok o ∧ overall_spec table o.
Proof.
  intros [_ Hv] Hall table out.
  assert (∀ c, score_of scores c = Some (table_of scores c) ∧ valid_score (table_of scores c)) as Ht.
  { intros c. destruct (Hall c) as (s & _ & Hs). unfold table_of. rewrite Hs. split; [done|].
    by apply (score_of_valid scores c). }
  assert (out = map (fun c => (c, Some (table_of scores c))) CALL_AUDIT_METRIC_CODES) as Hout.
  { unfold out. rewrite <- rubric_codes, map_map. apply map_ext. intros m. by rewrite (proj1 (Ht _)). }
  assert (Forall (fun p => valid_score p.2) table) as Hvt.
  { apply Forall_forall. intros p (c & -> & _)%list_elem_of_fmap. apply Ht. }
  split; [by rewrite Hout; unfold table, score_table; rewrite map_map|]. split; [done|].
  unfold calculateOverallScore. rewrite Hout, map_map, normalize_table by (intros c; apply Ht).
  cbn [mbind result_bind]. by apply overall_of_spec.
Qed.

(** Nobody spoke: nothing is scored or qualified. Somebody did: the call was
    connected and only the optional metrics may be missing. *)
Definition consistent (connected spoke meaningful : bool) (i : CallIntent) (q : Qualification)
    (table : list metric_score) : Prop :=
  if spoke then connected = true ∧
    ∀ m s, m ∈ CALL_AUDIT_RUBRIC → (metric_code m, s) ∈ table → naAllowedWhenCustomerSpoke m = false → s ≠ NA
  else meaningful = false ∧ i = NONE ∧ q = NOT_APPLICABLE ∧ Forall not_applicable table.

Lemma assertSemanticConsistency_consistent connected spoke meaningful i q scores u :
  score_set scores → (∀ c, ∃ s, (c, s) ∈ scores ∧ score_of scores c = Some s) →
  assertSemanticConsistency connected spoke meaningful i q scores = Ok u →
  consistent connected spoke meaningful i q (score_table (table_of scores) CALL_AUDIT_METRIC_CODES).
Proof.
  intros [_ Hv] Hall H. unfold assertSemanticConsistency in H.
  apply bind_Ok_iff in H as (u1 & H1 & H). apply throw_if_Ok in H1.
  unfold consistent. destruct spoke; cbn [negb] in H.
  - rewrite andb_true_r in H1. apply negb_false_iff in H1. split; [done|].
    apply for_each_Ok in H. rewrite Forall_forall in H. intros m s Hm Hs Hna ->.
    specialize (H m Hm). apply throw_if_Ok in H. rewrite Hna in H. cbn in H.
    apply list_elem_of_fmap in Hs as (c & Hc & _). injection Hc as <- Hc.
    destruct (Hall (metric_code m)) as (x & _ & Hx). unfold table_of in Hc. rewrite Hx in Hc. cbn in Hc.
    subst x. by rewrite Hx in H.
  - apply bind_Ok_iff in H as (u2 & H2 & H). apply bind_Ok_iff in H as (u3 & H3 & H).
    apply bind_Ok_iff in H as (u4 & H4 & H). apply throw_if_Ok in H2, H3, H4.
    apply negb_false_iff, bool_decide_eq_true in H3, H4. split; [done|]. split; [done|]. split; [done|].
    apply for_each_Ok in H. rewrite Forall_forall in H. apply Forall_forall.
    intros p (c & -> & _)%list_elem_of_fmap. destruct (Hall c) as (s & Hin & Hs).
    specialize (H _ Hin). apply throw_if_Ok, negb_false_iff in H. unfold not_applicable, table_of.
    rewrite Hs. by destruct s.
Qed.

Lemma within_Ok {A} (m : checked A) a : within m = Ok a ↔ m = Ok a.
Proof. destruct m; cbn; naive_solver. Qed.

Lemma within_inl {A B} (m : checked A) (k : A → Prelude.result (js_error + CallAuditOutputError) B) e :
  within m ≫= k = Throw (inl e) → ∃ a, m = Ok a ∧ k a = Throw (inl e).
Proof. destruct m; cbn; naive_solver. Qed.

(** What the model's value and the output have in common. *)
Definition from_record (record : list (string * value)) (out : ValidatedContentAuditOutput) : Prop :=
  (∀ key, key ∈ map fst record ↔ key ∈ CONTENT_AUDIT_OUTPUT_KEYS) ∧
  sanitized record "managementSummary" (managementSummary out) ∧
  sanitized record "kserveFeedback" (kserveFeedback out) ∧
  sanitized record "improvementFeedback" (improvementFeedback out).

(** The type of an output, as the interface and its comments state it. *)
Definition output_typed (out : ValidatedContentAuditOutput) : Prop :=
  (∃ d, d ∈ DETAILED_OUTCOME_DEFINITIONS ∧ detailedOutcome out = label d ∧
        groupedOutcome out = Some (group d)) ∧
  0 ≤ (out_confidence out).1 ≤ 2 ^ Z.of_N (out_confidence out).2 ∧
  NoDup (issueFlags out) ∧
  ∃ table : list metric_score, map fst table = CALL_AUDIT_METRIC_CODES ∧
    metricScores out = map (fun p => (p.1, Some p.2)) table ∧
    Forall (fun p => valid_score p.2) table ∧ overall_spec table (overallScore out) ∧
    consistent (callConnected out) (out_customerSpoke out) (meaningfulConversation out)
      (intent out) (qualification out) table.

Lemma accepted_keys (record : list (string * value)) u u' :
  for_each (fun key => throw_if (negb (bool_decide (key ∈ CONTENT_AUDIT_OUTPUT_KEYS)))
    (OutputError key "is not an accepted output field")) (map fst record) = Ok u →
  for_each (fun key => throw_if (negb (bool_decide (key ∈ map fst record)))
    (OutputError key "is required")) CONTENT_AUDIT_OUTPUT_KEYS = Ok u' →
  ∀ key, key ∈ map fst record ↔ key ∈ CONTENT_AUDIT_OUTPUT_KEYS.
Proof.
  intros H1%for_each_Ok H2%for_each_Ok key. rewrite Forall_forall in H1, H2.
  split; intros Hk; [specialize (H1 _ Hk) as H|specialize (H2 _ Hk) as H];
    by apply throw_if_Ok, negb_false_iff, bool_decide_eq_true in H.
Qed.

Lemma accepted_outcome (v : value) s :
  match v with
  | VStr s => throw_if (negb (isDetailedOutcome s))
                (OutputError "detailedOutcome" "is not an approved detailed outcome") ≫= fun _ => Ok s
  | _ => Throw (OutputError "detailedOutcome" "is not an approved detailed outcome")
  end = Ok s →
  ∃ d, d ∈ DETAILED_OUTCOME_DEFINITIONS ∧ s = label d ∧ groupForDetailedOutcome s = Some (group d).
Proof.
  destruct v; try done. intros H. apply bind_Ok_iff in H as (u & H1 & H).
  apply throw_if_Ok, negb_false_iff, isDetailedOutcome_definition in H1 as (d & Hd & <-).
  apply Ok_inj in H as <-. exists d. split; [done|]. split; [done|].
  by apply from_entries_definition.
Qed.

Lemma validate_answers v eligibility :
  match validateContentAuditOutput v eligibility with
  | Ok out => eligibility = content_auditable ∧
      (∃ record, v = VObj record ∧ from_record record out) ∧ output_typed out
  | Throw e => ∃ err, e = inr err
  end.
Proof.
  destruct (validateContentAuditOutput v eligibility) as [out|[e|e]] eqn:H; [| |by eexists];
    unfold validateContentAuditOutput in H.
  - apply bind_Ok_iff in H as (u0 & H0%within_Ok%throw_if_Ok & H).
    apply negb_false_iff, bool_decide_eq_true in H0. split; [done|].
    destruct v as [| | | | | | |record]; try done.
    apply bind_Ok_iff in H as (u1 & H1%within_Ok & H). apply bind_Ok_iff in H as (u2 & H2%within_Ok & H).
    do 3 apply bind_Ok_iff in H as (? & _ & H). destruct (isCallIntent _) as [i|]; [|done].
    apply bind_Ok_iff in H as (s & Hs%within_Ok%accepted_outcome & H).
    do 2 apply bind_Ok_iff in H as (? & _ & H).
    apply bind_Ok_iff in H as ([m n] & Hc%within_Ok%requireConfidence_bounds & H).
    apply bind_Ok_iff in H as (scores & Hsc%within_Ok & H).
    apply requireMetricScores_set in Hsc as [Hset Hall].
    apply bind_Ok_iff in H as (flags & Hf%within_Ok%requireIssueFlags_NoDup & H).
    do 3 (let H' := fresh "T" in apply bind_Ok_iff in H as (? & H'%within_Ok%requireSanitizedText_sanitized & H)).
    apply bind_Ok_iff in H as (u3 & Hcons%within_Ok & H).
    destruct (output_scores scores Hset Hall) as (Hout & Hv & o & Ho & Hspec).
    rewrite Ho in H. apply Ok_inj in H as <-. split.
    + exists record. split; [done|]. split; [by apply (accepted_keys record u1 u2)|done].
    + split; [done|]. split; [done|]. split; [done|].
      eexists (score_table (table_of scores) CALL_AUDIT_METRIC_CODES). split; [done|].
      split; [done|]. split; [done|]. split; [done|]. by eapply assertSemanticConsistency_consistent.
  - exfalso. apply within_inl in H as (u0 & _ & H). destruct v as [| | | | | | |record]; try done.
    do 5 apply within_inl in H as (? & _ & H). destruct (isCallIntent _) as [i|]; [|done].
    do 4 apply within_inl in H as (? & _ & H).
    apply within_inl in H as (scores & Hsc & H). apply requireMetricScores_set in Hsc as [Hset Hall].
    do 5 apply within_inl in H as (? & _ & H).
    destruct (output_scores scores Hset Hall) as (_ & _ & o & Ho & _). by rewrite Ho in H.
Qed.

(** C34: Validating a model's content audit never fails with anything but its own
    error, and a value it accepts is an object with exactly the thirteen approved
    keys (so neither a grouped outcome nor an overall score of the model is read)
    of a content-auditable call, whose output is well typed: the group is the one
    group of the approved label; each of the eight metrics has, in the order of the
    rubric, an integer from 1 to 5 or NA; the overall score is the half-up weighted
    percentage of the applicable metrics, between 20 and 100, and absent exactly when
    there are none; no flag is repeated; the confidence is in [0, 1]; the texts are
    trimmed, at most 2000 units long and free of control characters, links, addresses
    and phone numbers; and a call on which the customer said nothing has no score, no
    intent and no qualification. *)
Theorem validateContentAuditOutput_typed v eligibility :
  match validateContentAuditOutput v eligibility with
  | Ok out => eligibility = content_auditable ∧
      (∃ record, v = VObj record ∧ from_record record out) ∧ output_typed out
  | Throw e => ∃ err, e = inr err
  end.
Proof. exact (validate_answers v eligibility). Qed.

(** ** A served call, and a silent one *)
Module DemoOutput.
Definition served_score (c : CallAuditMetricCode) : MetricScore :=
  match c with
  | OBJECTION_CALLBACK_HANDLING => NA
  | CLOSING_NEXT_STEP => Score 3
  | COMPLIANCE_PRIVACY => Score 5
  | _ => Score 4
  end.

Definition scores_value (f : CallAuditMetricCode → MetricScore) : value :=
  VArr (rev (map (fun c => score_value (c, Some (f c))) CALL_AUDIT_METRIC_CODES)).

Definition record (spoke : bool) (i q : string) (scores : value) : list (string * value) := [
  ("callConnected", VBool true); ("customerSpoke", VBool spoke);
  ("meaningfulConversation", VBool spoke); ("intent", VStr i); ("detailedOutcome", VStr "Callback Required");
  ("qualification", VStr q); ("nextAction", VStr "CALLBACK"); ("confidence", VNum 7 3);
  ("metricScores", scores); ("issueFlags", VArr [VStr "WEAK_NEXT_STEP"; VStr "DNC_RISK"]);
  ("managementSummary", VStr " Customer asked for a callback. "); ("kserveFeedback", VStr "");
  ("improvementFeedback", VStr "Confirm the time.")].

Definition served : list (string * value) := record true "WARM" "QUALIFIED" (scores_value served_score).
Definition silent : list (string * value) := record false "NONE" "NOT_APPLICABLE" (scores_value (fun _ => NA)).

Definition overall (entries : list (string * value)) : option (option OutcomeGroup * option string) :=
  match validateContentAuditOutput (VObj entries) content_auditable with
  | Ok out => Some (groupedOutcome out, overallScore out)
  | Throw _ => None
  end.

(** The weights redistributed: 355 of 90, 78.888… per cent; and no score at all. *)
Example accepted : map overall [served; silent] =
  [Some (Some FOLLOW_UP_ACTION, Some "78.889"); Some (Some FOLLOW_UP_ACTION, None)].
Proof. vm_compute. reflexivity. Qed.

Definition refusal (entries : list (string * value)) : option string :=
  match validateContentAuditOutput (VObj entries) content_auditable with
  | Throw (inr e) => Some (err_field e) | _ => None end.

(** A model may choose neither the score nor the group; a link in a text, a score
    for silence and a repeated metric are refused. *)
Example refused : map refusal [
    served ++ [("overallScore", VStr "100.000")];
    ("groupedOutcome", VStr "FOLLOW_UP_ACTION") :: served;
    map (fun p => if String.eqb p.1 "kserveFeedback" then (p.1, VStr "see www.example.test") else p) served;
    record false "NONE" "NOT_APPLICABLE" (scores_value served_score);
    record true "WARM" "QUALIFIED" (VArr (repeat (score_value (PROFESSIONALISM, Some NA)) 8))] =
  [Some "overallScore"; Some "groupedOutcome"; Some "kserveFeedback"; Some "metricScores"; Some "metricScores"].
Proof. vm_compute. reflexivity. Qed.
End DemoOutput.
