(* ===== verification/Sql.v ===== *)
(** * Transactions over tables

    The part of the mysql2 adapters that is the same in all of them: requests
    that may be refused, statements over tables of rows, transactions that
    roll back. The database itself is outside of the program: what a refused
    request, a lost commit or a generated identifier is, is the environment's. *)

From S2P Require Import Prelude.

Local Open Scope string_scope.
Local Open Scope list_scope.
#[global] Open Scope Z_scope.

(** Two texts are equal in a column when their collation keys are
    ([utf8mb4_general_ci] for the columns that do not say otherwise). *)
Class Collation : Type := { collate : string → string }.

Definition sql_eq `{Collation} (a b : string) : bool := bool_decide (collate a = collate b).

(** What the program cannot determine, by the number of the request. *)
Record environment : Type := Env {
  refused : nat → bool;
  (** a commit that answered with an error took effect all the same *)
  landed : nat → bool;
  (** [CURRENT_TIMESTAMP(6)] *)
  statement_time : nat → Z;
  (** [newId()] and [now()] *)
  fresh_id : nat → string;
  wall_clock : nat → Z;
  (** [randomBytes(32).toString('base64url')] *)
  random_text : nat → string;
}.

(** What the driver throws; only the code of a duplicate key is ever read. *)
Inductive sql_error : Type := DuplicateEntry | Refused.

(** A computation over a database [D] that throws [E]. *)
Definition Sql (D E A : Type) : Type :=
  environment → nat → D → Prelude.result E A * (nat * D).

#[global] Instance Sql_ret D E : MRet (Sql D E) := fun A a _ n d => (Ok a, (n, d)).
#[global] Instance Sql_bind D E : MBind (Sql D E) :=
  fun A B k m env n d =>
    match m env n d with
    | (Ok a, (n', d')) => k a env n' d'
    | (Throw e, s) => (Throw e, s)
    end.

Definition lift {D E A} (r : Prelude.result E A) : Sql D E A := fun _ n d => (r, (n, d)).

(** Re-throwing in another vocabulary. *)
Definition catching {D E E' A} (m : Sql D E A) (f : E → E') : Sql D E' A :=
  fun env n d =>
    match m env n d with
    | (Ok a, s) => (Ok a, s)
    | (Throw e, s) => (Throw (f e), s)
    end.

(** One statement: refused without effect, or run at its time. *)
Definition request {D A} (statement : Z → D → Prelude.result sql_error (A * D)) : Sql D sql_error A :=
  fun env n d =>
    if refused env n then (Throw Refused, (S n, d))
    else match statement (statement_time env n) d with
         | Ok (a, d') => (Ok a, (S n, d'))
         | Throw e => (Throw e, (S n, d))
         end.

Definition newId {D E} : Sql D E string := fun env n d => (Ok (fresh_id env n), (S n, d)).
Definition now {D E} : Sql D E Z := fun env n d => (Ok (wall_clock env n), (S n, d)).

Definition randomText {D E} : Sql D E string := fun env n d => (Ok (random_text env n), (S n, d)).

(** [beginTransaction], the body, and [commit] or [rollback]. *)
Record TransactionOutcome (A : Type) : Type := Outcome { commit : bool; outcome_value : A }.
Arguments Outcome {A} _ _.
Arguments commit {A} _.
Arguments outcome_value {A} _.

Definition inTransaction {D E A} (unexpected commitFailed : E) (body : Sql D E (TransactionOutcome A))
    : Sql D E A :=
  fun env n d =>
    if refused env n || refused env (S n) then (Throw unexpected, (S (S n), d))
    else match body env (S (S n)) d with
         | (Throw e, (n', _)) => (Throw e, (S n', d))
         | (Ok o, (n', d')) =>
             if negb (commit o) then (Ok (outcome_value o), (S n', d))
             else if refused env n' then (Throw commitFailed, (S n', if landed env n' then d' else d))
             else (Ok (outcome_value o), (S n', d'))
         end.

(** [getConnection], [beginTransaction], the body, [commit] or [rollback]; after an error a
    rollback, whose own refusal replaces it. *)
Definition locking {D E A} (refusal : E) (body : Sql D E (TransactionOutcome A)) : Sql D E A :=
  fun env n d =>
    let failing (e : E) (n : nat) := (Throw (if refused env n then refusal else e), (S n, d)) in
    if refused env n then (Throw refusal, (S n, d))
    else if refused env (S n) then failing refusal (S (S n))
    else match body env (S (S n)) d with
         | (Throw e, (n', _)) => failing e n'
         | (Ok o, (n', d')) =>
             if commit o then
               if refused env n' then (Throw refusal, (S (S n'), if landed env n' then d' else d))
               else (Ok (outcome_value o), (S n', d'))
             else if refused env n' then (Throw refusal, (S (S n'), d))
             else (Ok (outcome_value o), (S n', d))
         end.

(** [try { m } catch (e) { h e }] inside a transaction: a statement that failed did nothing. *)
Definition trying {D E E' A} (m : Sql D E A) (h : E → Sql D E' A) : Sql D E' A :=
  fun env n d =>
    match m env n d with
    | (Ok a, s) => (Ok a, s)
    | (Throw e, (n', _)) => h e env n' d
    end.

(** ** Tables *)

Section Tables.
Context {R : Type}.
Implicit Types (t : list R) (P : R → bool).

Definition where_ P t : list R := filter (fun r => P r = true) t.

(** [UPDATE ... WHERE]: the number of matched rows and the table. *)
Definition update_where P (f : R → R) t : nat * list R :=
  (length (where_ P t), map (fun r => if P r then f r else r) t).

Definition delete_where P t : nat * list R :=
  (length (where_ P t), filter (fun r => P r = false) t).

(** [INSERT], refused when a row of the table has the same value of a unique key. *)
Definition insert_unique (clashes : R → R → bool) (r : R) t : Prelude.result sql_error (list R) :=
  if existsb (clashes r) t then Throw DuplicateEntry else Ok (t ++ [r]).

(** No two rows of the table clash. *)
Fixpoint distinct (clashes : R → R → bool) t : bool :=
  match t with
  | [] => true
  | r :: t => forallb (fun s => negb (clashes r s)) t && distinct clashes t
  end.

(** [UPDATE] of a unique key. *)
Definition update_unique (clashes : R → R → bool) P (f : R → R) t : Prelude.result sql_error (nat * list R) :=
  let updated := update_where P f t in
  if distinct clashes updated.2 then Ok updated else Throw DuplicateEntry.
End Tables.

(** ** Facts *)

Section Facts.
Context {D E : Type}.

Lemma sql_bind_Ok {A B} (m : Sql D E A) (k : A → Sql D E B) env n d b s :
  (m ≫= k) env n d = (Ok b, s) ↔
  ∃ a n1 d1, m env n d = (Ok a, (n1, d1)) ∧ k a env n1 d1 = (Ok b, s).
Proof.
  unfold mbind, Sql_bind. destruct (m env n d) as [[a|e] [n1 d1]]; naive_solver.
Qed.

Lemma lift_Ok {A} (r : Prelude.result E A) env n d a s :
  lift (D := D) r env n d = (Ok a, s) ↔ r = Ok a ∧ s = (n, d).
Proof. unfold lift. split; [by intros [= -> <-]|by intros [-> ->]]. Qed.

Lemma ret_Ok {A} (a b : A) env n d s : (mret a : Sql D E A) env n d = (Ok b, s) ↔ a = b ∧ s = (n, d).
Proof. unfold mret, Sql_ret. split; [by intros [= -> <-]|by intros [-> ->]]. Qed.

Lemma catching_Ok {E' A} (m : Sql D E A) (f : E → E') env n d a s :
  catching m f env n d = (Ok a, s) ↔ m env n d = (Ok a, s).
Proof. unfold catching. destruct (m env n d) as [[]]; naive_solver. Qed.

Lemma newId_Ok env n d (i : string) s :
  (newId : Sql D E string) env n d = (Ok i, s) ↔ i = fresh_id env n ∧ s = (S n, d).
Proof. unfold newId. split; [by intros [= <- <-]|by intros [-> ->]]. Qed.

Lemma randomText_Ok env n d (i : string) s :
  (randomText : Sql D E string) env n d = (Ok i, s) ↔ i = random_text env n ∧ s = (S n, d).
Proof. unfold randomText. split; [by intros [= <- <-]|by intros [-> ->]]. Qed.

Lemma now_Ok env n d (i : Z) s :
  (now : Sql D E Z) env n d = (Ok i, s) ↔ i = wall_clock env n ∧ s = (S n, d).
Proof. unfold now. split; [by intros [= <- <-]|by intros [-> ->]]. Qed.

(** A transaction that returns is either its committed body or leaves no trace. *)
Lemma inTransaction_Ok {A} (u c : E) (body : Sql D E (TransactionOutcome A)) env n d a s :
  inTransaction u c body env n d = (Ok a, s) →
  ∃ o n' d', body env (S (S n)) d = (Ok o, (n', d')) ∧ a = outcome_value o ∧
    s = (S n', if commit o then d' else d).
Proof.
  unfold inTransaction. destruct (_ || _); [done|].
  destruct (body env (S (S n)) d) as [[o|e] [n' d']]; [|done].
  destruct (commit o) eqn:Ec; cbn [negb]; [destruct (refused env n'); [done|]|];
    intros [= <- <-]; exists o, n', d'; by rewrite Ec.
Qed.

(** One that throws leaves none, unless a commit was lost on the way back. *)
Lemma inTransaction_Throw {A} (u c : E) (body : Sql D E (TransactionOutcome A)) env n d e n' d' :
  inTransaction u c body env n d = (Throw e, (n', d')) →
  d' = d ∨ (e = c ∧ ∃ o n1, body env (S (S n)) d = (Ok o, (n1, d')) ∧ commit o = true).
Proof.
  unfold inTransaction. destruct (_ || _); [intros [= <- <- <-]; by left|].
  destruct (body env (S (S n)) d) as [[o|e'] [n1 d1]]; [|intros [= <- <- <-]; by left].
  destruct (commit o) eqn:Ec; cbn [negb]; [|done].
  destruct (refused env n1); [|done]. destruct (landed env n1); intros [= <- <- <-]; [right; eauto|by left].
Qed.
End Facts.

(** What a transaction leaves behind is nothing, or its body. *)
Lemma locking_cases {D E A} (f : E) (body : Sql D E (TransactionOutcome A)) env n d r n' d' :
  locking f body env n d = (r, (n', d')) →
  d' = d ∨ ∃ o n1, body env (S (S n)) d = (Ok o, (n1, d')) ∧ commit o = true.
Proof.
  unfold locking. destruct (refused env n); [intros [= <- <- <-]; by left|].
  destruct (refused env (S n)); [intros [= <- <- <-]; by left|].
  destruct (body env (S (S n)) d) as [[o|e] [n1 d1]]; [|intros [= <- <- <-]; by left].
  destruct (commit o) eqn:Ec.
  - destruct (refused env n1); [destruct (landed env n1)|]; intros [= <- <- <-]; eauto 6.
  - destruct (refused env n1); intros [= <- <- <-]; by left.
Qed.

Lemma locking_Ok {D E A} (f : E) (body : Sql D E (TransactionOutcome A)) env n d a n' d' :
  locking f body env n d = (Ok a, (n', d')) →
  ∃ o n1 d1, body env (S (S n)) d = (Ok o, (n1, d1)) ∧ a = outcome_value o ∧ d' = if commit o then d1 else d.
Proof.
  unfold locking. destruct (refused env n); [done|]. destruct (refused env (S n)); [done|].
  destruct (body env (S (S n)) d) as [[o|e] [n1 d1]]; [|done].
  destruct (commit o) eqn:Ec; (destruct (refused env n1); [done|]); intros [= <- <- <-];
    exists o, n1, d1; by rewrite Ec.
Qed.

Lemma request_Ok {D A} (st : Z → D → Prelude.result sql_error (A * D)) env n d a s :
  request st env n d = (Ok a, s) ↔
  refused env n = false ∧ ∃ d', st (statement_time env n) d = Ok (a, d') ∧ s = (S n, d').
Proof.
  unfold request. destruct (refused env n); [naive_solver|].
  destruct (st _ d) as [[b d']|e]; [|naive_solver]. split.
  - intros [= <- <-]. eauto.
  - by intros (_ & d'' & [= -> ->] & ->).
Qed.

(** ** What a computation may do to the database *)

Section Changes.
Context {D E : Type} (R : relation D) `{!PreOrder R}.

Definition changes {E A} (m : Sql D E A) : Prop := ∀ env n d, R d (m env n d).2.2.

Lemma changes_ret {A} (a : A) : changes (mret a : Sql D E A).
Proof. intros env n d. reflexivity. Qed.

Lemma changes_lift {A} (r : Prelude.result E A) : changes (lift r).
Proof. intros env n d. reflexivity. Qed.

Lemma changes_newId : changes (newId : Sql D E string).
Proof. intros env n d. reflexivity. Qed.

Lemma changes_bind {A B} (m : Sql D E A) (k : A → Sql D E B) : changes m → (∀ a, changes (k a)) → changes (m ≫= k).
Proof.
  intros Hm Hk env n d. specialize (Hm env n d). unfold mbind, Sql_bind.
  destruct (m env n d) as [[a|e] [n1 d1]]; [|done]. etransitivity; [exact Hm|apply Hk].
Qed.

Lemma changes_catching {E' A} (m : Sql D E A) (f : E → E') : changes m → changes (catching m f).
Proof. intros Hm env n d. specialize (Hm env n d). unfold catching. by destruct (m env n d) as [[a|e] s]. Qed.

Lemma changes_request {A} (st : Z → D → Prelude.result sql_error (A * D)) :
  (∀ t d a d', st t d = Ok (a, d') → R d d') → changes (request st).
Proof.
  intros Hst env n d. unfold request. destruct (refused env n); [reflexivity|].
  destruct (st _ d) as [[a d']|e] eqn:Es; [by eapply Hst|reflexivity].
Qed.

Lemma changes_trying {E' A} (m : Sql D E A) (h : E → Sql D E' A) : changes m → (∀ e, changes (h e)) → changes (trying m h).
Proof.
  intros Hm Hh env n d. specialize (Hm env n d). unfold trying.
  destruct (m env n d) as [[a|e] [n1 d1]]; [done|apply Hh].
Qed.

Lemma changes_locking {A} (e : E) (body : Sql D E (TransactionOutcome A)) : changes body → changes (locking e body).
Proof.
  intros Hb env n d. destruct (locking e body env n d) as [r [n' d']] eqn:H.
  apply locking_cases in H as [->|(o & n1 & Ho & _)]; cbn; [reflexivity|].
  specialize (Hb env (S (S n)) d). by rewrite Ho in Hb.
Qed.
End Changes.

(** Down to the statements. *)
Ltac solve_changes :=
  repeat first
    [ progress intros
    | apply changes_ret; apply _ | apply changes_lift; apply _ | apply changes_newId; apply _
    | apply changes_locking; [apply _|] | apply changes_bind; [apply _| |]
    | apply changes_trying | apply changes_catching | apply changes_request; [apply _|]
    | case_match ].

Section TableFacts.
Context {R : Type}.
Implicit Types (t : list R) (P : R → bool).

Lemma elem_of_where P t r : r ∈ where_ P t ↔ P r = true ∧ r ∈ t.
Proof. unfold where_. by rewrite list_elem_of_filter. Qed.

Lemma where_nil P t r : where_ P t = [] → r ∈ t → P r = false.
Proof.
  intros Hw Hr. destruct (P r) eqn:E; [|done].
  assert (r ∈ where_ P t) as H by (by apply elem_of_where). rewrite Hw in H. by apply elem_of_nil in H.
Qed.

Lemma elem_of_update P f t r :
  r ∈ (update_where P f t).2 ↔ ∃ s, s ∈ t ∧ r = if P s then f s else s.
Proof.
  cbn. rewrite list_elem_of_fmap. naive_solver.
Qed.

(** The rows that an update does not name stay. *)
Lemma update_untouched P f t r : r ∈ t → P r = false → r ∈ (update_where P f t).2.
Proof. intros Hr HP. apply elem_of_update. exists r. by rewrite HP. Qed.

Lemma map_update {B} (g : R → B) P f t :
  (∀ r, r ∈ t → P r = true → g (f r) = g r) → map g (update_where P f t).2 = map g t.
Proof.
  intros H. cbn. rewrite map_map. apply map_ext_in. intros r Hr.
  destruct (P r) eqn:E; [|done]. apply H; [by apply list_elem_of_In|done].
Qed.

Lemma elem_of_delete P t r : r ∈ (delete_where P t).2 ↔ P r = false ∧ r ∈ t.
Proof. cbn. by rewrite list_elem_of_filter. Qed.

Lemma insert_unique_Ok (clashes : R → R → bool) r t t' :
  insert_unique clashes r t = Ok t' ↔ (∀ s, s ∈ t → clashes r s = false) ∧ t' = t ++ [r].
Proof.
  unfold insert_unique. destruct (existsb (clashes r) t) eqn:E.
  - split; [done|]. intros [H _]. apply existsb_exists in E as (s & Hs & Hc).
    by rewrite H in Hc by (by apply list_elem_of_In).
  - split.
    + intros [= <-]. split; [|done]. intros s Hs. destruct (clashes r s) eqn:Ec; [|done].
      assert (existsb (clashes r) t = true) as H by (apply existsb_exists; exists s; split; [by apply list_elem_of_In|done]).
      congruence.
    + by intros [_ ->].
Qed.

Lemma update_unique_Ok (clashes : R → R → bool) P f t n t' :
  update_unique clashes P f t = Ok (n, t') ↔ (n, t') = update_where P f t ∧ distinct clashes t' = true.
Proof.
  unfold update_unique. cbv zeta. destruct (update_where P f t) as [m u]. cbn [snd].
  destruct (distinct clashes u) eqn:E; split.
  - intros H%Ok_inj. by simplify_eq.
  - intros [H _]. by simplify_eq.
  - done.
  - intros [H Hd]. simplify_eq. congruence.
Qed.

Lemma distinct_snoc (clashes : R → R → bool) t r :
  distinct clashes t = true → (∀ s, s ∈ t → clashes s r = false) → distinct clashes (t ++ [r]) = true.
Proof.
  induction t as [|s t IH]; cbn; [done|]. intros [H1 H2]%andb_true_iff Hr. apply andb_true_iff. split.
  - rewrite forallb_app, H1. cbn. by rewrite Hr by left.
  - apply IH; [done|]. intros x Hx. apply Hr. by right.
Qed.

Lemma distinct_spec (clashes : R → R → bool) t :
  distinct clashes t = true ↔ ∀ i j r s, (i < j)%nat → t !! i = Some r → t !! j = Some s → clashes r s = false.
Proof.
  induction t as [|x t IH]; cbn; [split; [intros _ i j r s _ Hr _; by rewrite lookup_nil in Hr|done]|].
  rewrite andb_true_iff, IH, forallb_forall. split.
  - intros [H1 H2] [|i] [|j] r s Hij Hr Hs; try lia; cbn in *.
    + injection Hr as ->. apply negb_true_iff, H1, list_elem_of_In. by apply list_elem_of_lookup_2 in Hs.
    + eapply H2; [|done..]. lia.
  - intros H. split.
    + intros s Hs%list_elem_of_In%list_elem_of_lookup_1. destruct Hs as [j Hj].
      apply negb_true_iff. apply (H 0%nat (S j) x s); [lia|done..].
    + intros i j r s Hij Hr Hs. apply (H (S i) (S j)); [lia|done..].
Qed.

(** Rows that share a key are the same row. *)
Lemma distinct_unique (clashes : R → R → bool) t x y :
  (∀ r s, clashes r s = clashes s r) → distinct clashes t = true → x ∈ t → y ∈ t → clashes x y = true → x = y.
Proof.
  intros Hsym Hd [a Ha]%list_elem_of_lookup_1 [b Hb]%list_elem_of_lookup_1 Hc. rewrite distinct_spec in Hd.
  destruct (Nat.lt_trichotomy a b) as [Hlt|[->|Hlt]]; [|congruence|].
  - by rewrite (Hd _ _ _ _ Hlt Ha Hb) in Hc.
  - by rewrite Hsym, (Hd _ _ _ _ Hlt Hb Ha) in Hc.
Qed.

(** A table over time: every row moves on by [le], rows are only added. *)
Definition table_le (le : relation R) (t t' : list R) : Prop := ∃ kept new, t' = kept ++ new ∧ Forall2 le t kept.

#[global] Instance table_le_preorder le : PreOrder le → PreOrder (table_le le).
Proof.
  intros Hle. split.
  - intros t. exists t, []. split; [by rewrite app_nil_r|]. reflexivity.
  - intros a b c (k1 & n1 & -> & H1) (k2 & n2 & -> & H2).
    apply Forall2_app_inv_l in H2 as (l1 & l2 & H2 & _ & ->). exists l1, (l2 ++ n2).
    split; [by rewrite app_assoc|]. by transitivity k1.
Qed.

Lemma table_le_lookup le t t' r : table_le le t t' → r ∈ t → ∃ r', r' ∈ t' ∧ le r r'.
Proof.
  intros (k & n & -> & H) [i Hi]%list_elem_of_lookup_1.
  destruct (Forall2_lookup_l _ _ _ _ _ H Hi) as (r' & Hr' & Hle). exists r'. split; [|done].
  apply elem_of_app. left. by eapply list_elem_of_lookup_2.
Qed.

Lemma table_le_snoc le t r : Reflexive le → table_le le t (t ++ [r]).
Proof. intros Hle. exists t, [r]. split; [done|]. reflexivity. Qed.

Lemma table_le_map le f t : (∀ r, r ∈ t → le r (f r)) → table_le le t (map f t).
Proof.
  intros H. exists (map f t), []. split; [by rewrite app_nil_r|].
  induction t as [|r t IH]; [constructor|]. constructor; [apply H; left|]. apply IH. intros x Hx. apply H. by right.
Qed.
End TableFacts.


(** ** Rows named by a key *)
Section Keyed.
Context {R : Type}.
Implicit Types (t : list R) (P Q : R → bool).

Lemma where_map Q (g : R → R) t : (∀ r, Q (g r) = Q r) → where_ Q (map g t) = map g (where_ Q t).
Proof.
  intros HQ. unfold where_. induction t as [|r t IH]; [done|]. cbn [map]. rewrite !filter_cons, IH.
  destruct (Q r) eqn:E.
  - rewrite decide_True by (by rewrite HQ). by rewrite decide_True.
  - rewrite decide_False by (by rewrite HQ, E). by rewrite decide_False.
Qed.

Lemma where_app Q t1 t2 : where_ Q (t1 ++ t2) = where_ Q t1 ++ where_ Q t2.
Proof. unfold where_. apply filter_app. Qed.

Lemma where_none Q t : (∀ r, r ∈ t → Q r = false) → where_ Q t = [].
Proof.
  intros H. destruct (where_ Q t) as [|r l] eqn:E; [done|].
  assert (r ∈ where_ Q t) as Hr by (rewrite E; left). apply elem_of_where in Hr as [H1 H2].
  by rewrite H in H1.
Qed.

Lemma where_ext P Q t : (∀ r, r ∈ t → P r = Q r) → where_ P t = where_ Q t.
Proof.
  intros H. unfold where_. induction t as [|r t IH]; [done|]. rewrite !filter_cons, IH by (intros; apply H; by right).
  specialize (H r ltac:(left)). destruct (P r) eqn:E1, (Q r) eqn:E2; try done.
Qed.

(** A key names at most one row. *)
Lemma distinct_where (clashes : R → R → bool) Q t :
  distinct clashes t = true → (∀ r s, Q r = true → Q s = true → clashes r s = true) →
  where_ Q t = [] ∨ ∃ r, where_ Q t = [r].
Proof.
  intros Hd HQ. induction t as [|r t IH]; [by left|]. cbn in Hd. apply andb_true_iff in Hd as [Hr Hd].
  specialize (IH Hd). unfold where_ in *. rewrite filter_cons. destruct (Q r) eqn:E.
  - rewrite decide_True by done. right. exists r. f_equal. apply where_none.
    intros s Hs. destruct (Q s) eqn:Es; [|done]. rewrite forallb_forall in Hr.
    apply list_elem_of_In in Hs. specialize (Hr s Hs). rewrite HQ in Hr by done. done.
  - by rewrite decide_False by congruence.
Qed.

(** One matched row of a key that names at most one is the row of the key. *)
Lemma matched_row P Q t r :
  where_ Q t = [r] → (∀ s, P s = true → Q s = true) → length (where_ P t) = 1%nat → P r = true.
Proof.
  intros HQ HPQ Hl. destruct (where_ P t) as [|s [|]] eqn:E; try done.
  assert (s ∈ where_ P t) as Hs by (rewrite E; left). apply elem_of_where in Hs as [HP Hs].
  assert (s ∈ where_ Q t) as Hs' by (apply elem_of_where; auto).
  rewrite HQ in Hs'. apply list_elem_of_singleton in Hs'. by subst s.
Qed.

Lemma distinct_filter (clashes : R → R → bool) Q t :
  distinct clashes t = true → distinct clashes (where_ Q t) = true.
Proof.
  unfold where_. induction t as [|r t IH]; [done|]. cbn [distinct]. intros [H1 H2]%andb_true_iff. rewrite filter_cons.
  destruct (decide (Q r = true)); [|by apply IH]. cbn [distinct]. rewrite IH by done. rewrite andb_true_r.
  apply forallb_forall. intros s Hs. rewrite forallb_forall in H1. apply H1, list_elem_of_In.
  apply list_elem_of_In, list_elem_of_filter in Hs. tauto.
Qed.
End Keyed.

Section SqlEq.
Context `{Collation}.
Lemma sql_eq_refl a : sql_eq a a = true.
Proof. by apply bool_decide_eq_true. Qed.
Lemma sql_eq_sym a b : sql_eq a b = sql_eq b a.
Proof. by apply bool_decide_ext. Qed.
Lemma sql_eq_trans a b c : sql_eq a b = true → sql_eq b c = sql_eq a c.
Proof. intros E%bool_decide_eq_true. unfold sql_eq. by rewrite E. Qed.
Lemma sql_eq_both a b x : sql_eq a x = true → sql_eq b x = true → sql_eq a b = true.
Proof. intros Ha Hb. unfold sql_eq in *. to_prop. apply bool_decide_eq_true. congruence. Qed.
End SqlEq.
