(* ===== verification/AuditChain.v ===== *)
(** * The hash-chained audit log

    [src/audit/types.ts], [src/audit/hashChain.ts] and
    [src/audit/transactionalAuditWriter.ts]: one event is appended inside the
    transaction of the caller, hashed together with the hash before it. *)

From S2P Require Import Prelude JsText Calendar CanonicalJson Sql.

Local Open Scope string_scope.
Local Open Scope list_scope.
#[global] Open Scope Z_scope.

Inductive AuditOutcome : Type := success | denied | failure.

Definition outcome_text (o : AuditOutcome) : string :=
  match o with success => "success" | denied => "denied" | failure => "failure" end.

Record AuditEvent : Type := Event {
  actorUserId : option string;
  actorEmail : option string;
  ev_action : string;
  resourceType : string;
  resourceId : option string;
  ev_outcome : AuditOutcome;
  purpose : string;
  correlationId : string;
  ipAddress : option string;
  client : option string;
  beforeHash : option string;
  afterHash : option string;
  occurredAt : Z;
}.

(** ['0'.repeat(64)] *)
Definition AUDIT_GENESIS_HASH : string := zeros 64.

(** The array whose [JSON.stringify] is hashed. *)
Definition entry_json (id previousHash : string) (event : AuditEvent) : json :=
  JArr [JStr id; JStr previousHash; jstr_opt (actorUserId event); jstr_opt (actorEmail event);
        JStr (ev_action event); JStr (resourceType event); jstr_opt (resourceId event);
        JStr (outcome_text (ev_outcome event)); JStr (purpose event); JStr (correlationId event);
        jstr_opt (ipAddress event); jstr_opt (client event); jstr_opt (beforeHash event);
        jstr_opt (afterHash event); JStr (toISOString (occurredAt event))].

Section Hash.
Context `{Platform}.
Definition hashAuditEntry (id previousHash : string) (event : AuditEvent) : string :=
  sha256Hex (print (entry_json id previousHash event)).
End Hash.

(** ** The tables of the log *)

(** A row of [kaudit_audit_log]; the columns of migration 0004 are [None] in a row
    written without them. *)
Record AuditRow : Type := Row {
  log_id : string;
  log_actor_email : option string;
  log_actor_user_id : option string;
  log_action : string;
  log_resource_type : string;
  log_resource_id : option string;
  log_before_hash : option string;
  log_after_hash : option string;
  log_ip_address : option string;
  log_client : option string;
  log_correlation_id : string;
  log_outcome : option AuditOutcome;
  log_purpose : option string;
  log_previous_hash : option string;
  log_entry_hash : option string;
  log_occurred_at : Z;
}.

#[export] Instance AuditOutcome_eq_dec : EqDecision AuditOutcome.
Proof. solve_decision. Defined.
#[export] Instance AuditRow_eq_dec : EqDecision AuditRow.
Proof. solve_decision. Defined.

(** The [primary] row of [kaudit_audit_chain_head]. *)
Record ChainHead : Type := Head {
  head_hash : string;
  head_event_id : option string;
  head_updated_at : Z;
}.

Record AuditTables : Type := Tables {
  (** how many of the five columns of migration 0004 the log has *)
  chain_columns : Z;
  chain_head : option ChainHead;
  audit_log : list AuditRow;
}.

(** What a database must offer to be audited in its own transactions. *)
Class AuditStore (D : Type) : Type := {
  audit_tables : D → AuditTables;
  set_audit : AuditTables → D → D;
  audit_get_set t d : audit_tables (set_audit t d) = t;
  audit_set_set t u d : set_audit t (set_audit u d) = set_audit t d;
  audit_set_get d : set_audit (audit_tables d) d = d;
}.

(** ** Recording an event *)

Inductive AuditWriteMode : Type := hash_chained | legacy.

#[export] Instance AuditWriteMode_eq_dec : EqDecision AuditWriteMode.
Proof. solve_decision. Defined.

Definition chained_row (eventId previousHash entryHash : string) (event : AuditEvent) : AuditRow :=
  {| log_id := eventId; log_actor_email := actorEmail event; log_actor_user_id := actorUserId event;
     log_action := ev_action event; log_resource_type := resourceType event;
     log_resource_id := resourceId event; log_before_hash := beforeHash event;
     log_after_hash := afterHash event; log_ip_address := ipAddress event; log_client := client event;
     log_correlation_id := correlationId event; log_outcome := Some (ev_outcome event);
     log_purpose := Some (purpose event); log_previous_hash := Some previousHash;
     log_entry_hash := Some entryHash; log_occurred_at := occurredAt event |}.

Definition legacy_row (eventId : string) (event : AuditEvent) : AuditRow :=
  {| log_id := eventId; log_actor_email := actorEmail event; log_actor_user_id := None;
     log_action := ev_action event; log_resource_type := resourceType event;
     log_resource_id := resourceId event; log_before_hash := beforeHash event;
     log_after_hash := afterHash event; log_ip_address := ipAddress event; log_client := client event;
     log_correlation_id := correlationId event; log_outcome := None; log_purpose := None;
     log_previous_hash := None; log_entry_hash := None; log_occurred_at := occurredAt event |}.

Section Writer.
Context `{P : Platform, C : Collation, D : Type, A : AuditStore D}.

(** A statement over the tables of the log. *)
Definition on_audit {B} (f : Z → AuditTables → Prelude.result sql_error (B * AuditTables))
    (time : Z) (d : D) : Prelude.result sql_error (B * D) :=
  '(b, t) ← f time (audit_tables d); Ok (b, set_audit t d).

Definition supportsHashChainedAudit : Sql D sql_error bool :=
  request (on_audit (fun _ t => Ok (chain_columns t =? 5, t))).

(** [INSERT ... ON DUPLICATE KEY UPDATE chain_name = chain_name] *)
Definition ensure_head : Z → AuditTables → Prelude.result sql_error (unit * AuditTables) :=
  fun time t => Ok (tt, Tables (chain_columns t)
    (Some (default (Head AUDIT_GENESIS_HASH None time) (chain_head t))) (audit_log t)).

Definition select_head : Z → AuditTables → Prelude.result sql_error (string * AuditTables) :=
  fun _ t => Ok (from_option head_hash AUDIT_GENESIS_HASH (chain_head t), t).

Definition same_log_id (r s : AuditRow) : bool := sql_eq (log_id r) (log_id s).

Definition insert_row (r : AuditRow) : Z → AuditTables → Prelude.result sql_error (unit * AuditTables) :=
  fun _ t => log ← insert_unique same_log_id r (audit_log t);
             Ok (tt, Tables (chain_columns t) (chain_head t) log).

Definition update_head (entryHash eventId : string) (at_ : Z)
    : Z → AuditTables → Prelude.result sql_error (unit * AuditTables) :=
  fun _ t => Ok (tt, Tables (chain_columns t)
    ((fun _ => Head entryHash (Some eventId) at_) <$> chain_head t) (audit_log t)).

Definition recordAuditEventInTransaction (event : AuditEvent) (eventId : string)
    : Sql D sql_error AuditWriteMode :=
  chained ← supportsHashChainedAudit;
  if chained : bool then
    _ ← request (on_audit ensure_head);
    previousHash ← request (on_audit select_head);
    let entryHash := hashAuditEntry eventId previousHash event in
    _ ← request (on_audit (insert_row (chained_row eventId previousHash entryHash event)));
    _ ← request (on_audit (update_head entryHash eventId (occurredAt event)));
    mret hash_chained
  else
    _ ← request (on_audit (insert_row (legacy_row eventId event)));
    mret legacy.
End Writer.

(** ** What the log says *)

(** The event a chained row was written for. *)
Definition event_of (r : AuditRow) : AuditEvent :=
  {| actorUserId := log_actor_user_id r; actorEmail := log_actor_email r; ev_action := log_action r;
     resourceType := log_resource_type r; resourceId := log_resource_id r;
     ev_outcome := default success (log_outcome r); purpose := default "" (log_purpose r);
     correlationId := log_correlation_id r; ipAddress := log_ip_address r; client := log_client r;
     beforeHash := log_before_hash r; afterHash := log_after_hash r; occurredAt := log_occurred_at r |}.

Definition is_chained (r : AuditRow) : bool :=
  match log_entry_hash r with Some _ => true | None => false end.

Definition head_of (t : AuditTables) : string := from_option head_hash AUDIT_GENESIS_HASH (chain_head t).

Section Chain.
Context `{P : Platform}.

(** The chained rows of a log, in order, lead from one hash to another. *)
Fixpoint chain (from : string) (rows : list AuditRow) : option string :=
  match rows with
  | [] => Some from
  | r :: rows =>
      match log_entry_hash r with
      | None => chain from rows
      | Some h =>
          if bool_decide (r = chained_row (log_id r) from (hashAuditEntry (log_id r) from (event_of r)) (event_of r))
          then chain h rows else None
      end
  end.

(** The log verifies: it leads from the genesis hash to the recorded head. *)
Definition verifies (t : AuditTables) : Prop :=
  chain AUDIT_GENESIS_HASH (audit_log t) = Some (head_of t).
End Chain.

(** ** Facts *)

Lemma event_of_chained id p h e : event_of (chained_row id p h e) = e.
Proof. by destruct e. Qed.

Lemma outcome_text_inj a b : outcome_text a = outcome_text b → a = b.
Proof. by destruct a, b. Qed.

Lemma entry_json_finite id p e : finite (entry_json id p e) = true.
Proof. by destruct e as [[] [] ? ? [] [] ? ? [] [] [] [] ?]. Qed.

(** The hashed text names the entry. *)
Lemma entry_json_inj id p e id' p' e' :
  print (entry_json id p e) = print (entry_json id' p' e') → id = id' ∧ p = p' ∧ e = e'.
Proof.
  intros H%print_inj; [|apply entry_json_finite..]. unfold entry_json in H.
  injection H as -> -> H1 H2 H3 H4 H5 H6 H7 H8 H9 H10 H11 H12 H13.
  split; [done|]. split; [done|]. destruct e, e'; cbn in *.
  repeat match goal with
    | H : jstr_opt _ = jstr_opt _ |- _ => apply jstr_opt_inj in H
    | H : outcome_text _ = outcome_text _ |- _ => apply outcome_text_inj in H
    | H : toISOString _ = toISOString _ |- _ => apply toISOString_inj in H
    end. by subst.
Qed.

Section ChainFacts.
Context `{P : Platform}.

Lemma chain_app from l1 l2 : chain from (l1 ++ l2) = chain from l1 ≫= fun h => chain h l2.
Proof.
  revert from. induction l1 as [|r l1 IH]; intros from; cbn; [done|].
  destruct (log_entry_hash r); [|done]. by destruct (bool_decide _).
Qed.

Lemma chain_filter from l : chain from (filter (fun r => is_chained r = true) l) = chain from l.
Proof.
  revert from. induction l as [|r l IH]; intros from; [done|]. rewrite filter_cons.
  destruct (log_entry_hash r) as [h|] eqn:E.
  - rewrite decide_True by (unfold is_chained; by rewrite E). cbn. rewrite E.
    destruct (bool_decide _); [apply IH|done].
  - rewrite decide_False by (unfold is_chained; by rewrite E). cbn. by rewrite E.
Qed.

(** The last row of a verifying chain. *)
Lemma chain_snoc from l r h :
  is_chained r = true → chain from (l ++ [r]) = Some h →
  ∃ p, chain from l = Some p ∧ h = hashAuditEntry (log_id r) p (event_of r) ∧
       r = chained_row (log_id r) p h (event_of r).
Proof.
  intros Hr. rewrite chain_app. destruct (chain from l) as [p|]; [|done]. cbn. unfold is_chained in Hr.
  destruct (log_entry_hash r) as [g|] eqn:E; [|done]. case_bool_decide as Hd; [|done]. intros [= ->].
  exists p. split; [done|].
  assert (h = hashAuditEntry (log_id r) p (event_of r)) as Hh.
  { rewrite Hd in E. cbn in E. congruence. }
  split; [done|]. by rewrite Hh.
Qed.

Definition entry_text_of (r : AuditRow) : string :=
  print (entry_json (log_id r) (default "" (log_previous_hash r)) (event_of r)).

(** An explicit failure of the hash on the entries of two logs: one hash for two
    different entries, or an entry that hashes to the genesis hash. *)
Definition hash_broken (l1 l2 : list AuditRow) : Prop :=
  (∃ r s, r ∈ l1 ∧ s ∈ l2 ∧ entry_text_of r ≠ entry_text_of s ∧
          sha256Hex (entry_text_of r) = sha256Hex (entry_text_of s)) ∨
  (∃ r, (r ∈ l1 ∨ r ∈ l2) ∧ sha256Hex (entry_text_of r) = AUDIT_GENESIS_HASH).

Lemma hash_broken_app l1 l2 m1 m2 : hash_broken l1 l2 → hash_broken (l1 ++ m1) (l2 ++ m2).
Proof.
  unfold hash_broken. setoid_rewrite elem_of_app. naive_solver.
Qed.

Lemma chained_text r p h : r = chained_row (log_id r) p h (event_of r) →
  hashAuditEntry (log_id r) p (event_of r) = sha256Hex (entry_text_of r).
Proof. intros E. unfold entry_text_of, hashAuditEntry. rewrite E at 4. done. Qed.

Lemma chain_identifies l1 : ∀ l2 h,
  Forall (fun r => is_chained r = true) l1 → Forall (fun r => is_chained r = true) l2 →
  chain AUDIT_GENESIS_HASH l1 = Some h → chain AUDIT_GENESIS_HASH l2 = Some h →
  l1 = l2 ∨ hash_broken l1 l2.
Proof.
  induction l1 as [|r l1 IH] using rev_ind; intros l2 h F1 F2 H1 H2.
  - destruct l2 as [|s l2 _] using rev_ind; [by left|]. right; right.
    apply Forall_app in F2 as [_ [Hs _]%Forall_cons]. cbn in H1. injection H1 as <-.
    apply chain_snoc in H2 as (p & _ & Hh & Er); [|done]. exists s. split; [right; apply elem_of_app; right; left|].
    by rewrite <- (chained_text _ _ _ Er).
  - apply Forall_app in F1 as [F1 [Hr _]%Forall_cons].
    apply chain_snoc in H1 as (p & H1 & Hh & Er); [|done].
    destruct l2 as [|s l2 _] using rev_ind.
    + right; right. cbn in H2. injection H2 as <-. exists r. split; [left; apply elem_of_app; right; left|].
      by rewrite <- (chained_text _ _ _ Er).
    + apply Forall_app in F2 as [F2 [Hs _]%Forall_cons].
      apply chain_snoc in H2 as (q & H2 & Hh' & Es); [|done].
      destruct (decide (entry_text_of r = entry_text_of s)) as [Et|Et].
      * unfold entry_text_of in Et. apply entry_json_inj in Et as (Ei & Ep & Ee).
        rewrite Er, Es in Ep. cbn in Ep. subst q. rewrite <- Ei, <- Ee, <- Er in Es. subst s.
        destruct (IH l2 p F1 F2 H1 H2) as [->|Hb]; [by left|]. right. by apply hash_broken_app.
      * right; left. exists r, s. split; [apply elem_of_app; right; left|]. split; [apply elem_of_app; right; left|].
        split; [done|]. rewrite <- (chained_text _ _ _ Er), <- (chained_text _ _ _ Es). congruence.
Qed.
End ChainFacts.

Section Record.
Context `{P : Platform, C : Collation, D : Type, A : AuditStore D}.
Implicit Types d : D.

Lemma on_audit_Ok {B} (f : Z → AuditTables → Prelude.result sql_error (B * AuditTables)) z d b d' :
  on_audit f z d = Ok (b, d') ↔ ∃ t, f z (audit_tables d) = Ok (b, t) ∧ d' = set_audit t d.
Proof.
  unfold on_audit. destruct (f z (audit_tables d)) as [[x t]|]; cbn; [|naive_solver].
  split; [intros [= <- <-]; eauto|by intros (u & [= -> ->] & ->)].
Qed.

(** What a recording adds: one row, linked to the head, which it replaces. *)
Lemma record_Ok event id env n d m n' d' :
  recordAuditEventInTransaction event id env n d = (Ok m, (n', d')) →
  let t := audit_tables d in
  let h := hashAuditEntry id (head_of t) event in
  (∀ r, r ∈ audit_log t → sql_eq (log_id r) id = false) ∧
  d' = set_audit (match m with
    | hash_chained => Tables (chain_columns t) (Some (Head h (Some id) (occurredAt event)))
                        (audit_log t ++ [chained_row id (head_of t) h event])
    | legacy => Tables (chain_columns t) (chain_head t) (audit_log t ++ [legacy_row id event])
    end) d ∧ (m = hash_chained ↔ chain_columns t = 5).
Proof.
  intros H t h. unfold recordAuditEventInTransaction, supportsHashChainedAudit in H.
  assert (∀ r : AuditRow, log_id r = id → ∀ l : list AuditRow, (∀ s, s ∈ l → same_log_id r s = false) →
    ∀ s, s ∈ l → sql_eq (log_id s) id = false) as Hid.
  { intros r <- l Hl s Hs. specialize (Hl s Hs). unfold same_log_id, sql_eq in *.
    apply bool_decide_eq_false. apply bool_decide_eq_false in Hl. congruence. }
  apply sql_bind_Ok in H as (c & n1 & d1 & H1 & H).
  apply request_Ok in H1 as (_ & d1' & H1 & [= -> ->]). apply on_audit_Ok in H1 as (t1 & [= <- <-] & ->).
  rewrite audit_set_get in H. destruct (Z.eqb_spec (chain_columns (audit_tables d)) 5) as [H5|H5].
  - apply sql_bind_Ok in H as ([] & n2 & d2 & H2 & H). apply request_Ok in H2 as (_ & d2' & H2 & [= -> ->]).
    apply on_audit_Ok in H2 as (t2 & [= <-] & ->).
    apply sql_bind_Ok in H as (ph & n3 & d3 & H3 & H). apply request_Ok in H3 as (_ & d3' & H3 & [= -> ->]).
    apply on_audit_Ok in H3 as (t3 & [= <- <-] & ->). rewrite audit_set_get, audit_get_set in H.
    cbn [from_option chain_head] in H.
    assert (head_hash (default (Head AUDIT_GENESIS_HASH None (statement_time env (S n))) (chain_head (audit_tables d)))
            = head_of t) as Eh by (unfold t, head_of; by destruct (chain_head _)).
    rewrite Eh in H. cbv zeta in H. fold h in H.
    apply sql_bind_Ok in H as ([] & n4 & d4 & H4 & H). apply request_Ok in H4 as (_ & d4' & H4 & [= -> ->]).
    apply on_audit_Ok in H4 as (t4 & H4 & ->). rewrite audit_set_set in H. rewrite audit_get_set in H4.
    unfold insert_row in H4. apply bind_Ok_iff in H4 as (log & H4 & [= <-]). cbn [audit_log] in H4.
    apply insert_unique_Ok in H4 as [Hfresh ->].
    apply sql_bind_Ok in H as ([] & n5 & d5 & H5' & H). apply request_Ok in H5' as (_ & d5' & H5' & [= -> ->]).
    apply on_audit_Ok in H5' as (t5 & [= <-] & ->). rewrite audit_set_set in H.
    rewrite !audit_get_set in H. apply ret_Ok in H as [<- [= -> ->]]. split; [by apply (Hid (chained_row id (head_of t) h event))|]. done.
  - apply sql_bind_Ok in H as ([] & n2 & d2 & H2 & H). apply request_Ok in H2 as (_ & d2' & H2 & [= -> ->]).
    apply on_audit_Ok in H2 as (t2 & H2 & ->).
    unfold insert_row in H2. apply bind_Ok_iff in H2 as (log & H2 & [= <-]).
    apply insert_unique_Ok in H2 as [Hfresh ->]. apply ret_Ok in H as [<- [= -> ->]].
    split; [by apply (Hid (legacy_row id event))|]. done.
Qed.

(** One recording, by any request of any environment. *)
Definition recorded (event : AuditEvent) (d d' : D) : Prop :=
  ∃ id env n m n', recordAuditEventInTransaction event id env n d = (Ok m, (n', d')).

Lemma record_verifies event d d' :
  recorded event d d' → verifies (audit_tables d) →
  verifies (audit_tables d') ∧ ∃ r, audit_log (audit_tables d') = audit_log (audit_tables d) ++ [r] ∧
    (is_chained r = true ↔ chain_columns (audit_tables d) = 5).
Proof.
  intros (id & env & n & m & n' & H) Hv. apply record_Ok in H as (_ & -> & Hm). rewrite audit_get_set.
  unfold verifies in *. destruct m; cbn [audit_log head_of chain_head from_option head_hash].
  - split; [|eexists; split; [done|]; by split; [intros _; apply Hm|]].
    rewrite chain_app, Hv. unfold head_of at 4. cbn -[chained_row hashAuditEntry].
    rewrite bool_decide_true; [done|]. cbn [log_id chained_row]. by rewrite event_of_chained.
  - split; [|eexists; split; [done|]; split; [done|intros H5; by apply Hm in H5]].
    rewrite chain_app, Hv. done.
Qed.
End Record.

(** The rows of a log that claim membership of the chain. *)
Definition chained_rows (t : AuditTables) : list AuditRow := filter (fun r => is_chained r = true) (audit_log t).

Section TamperEvidence.
Context `{P : Platform, C : Collation, D : Type, A : AuditStore D}.

Definition some_recording (d d' : D) : Prop := ∃ event, recorded event d d'.

Lemma recordings d d' :
  rtc some_recording d d' → verifies (audit_tables d) →
  verifies (audit_tables d') ∧ chain_columns (audit_tables d') = chain_columns (audit_tables d) ∧
  ∃ rows, audit_log (audit_tables d') = audit_log (audit_tables d) ++ rows ∧
    Forall (fun r => is_chained r = true ↔ chain_columns (audit_tables d) = 5) rows.
Proof.
  induction 1 as [d|d d1 d2 [event H1] _ IH]; intros Hv.
  - split; [done|]. split; [done|]. exists []. by rewrite app_nil_r.
  - destruct (record_verifies event d d1 H1 Hv) as (Hv1 & r & Hl & Hr).
    assert (chain_columns (audit_tables d1) = chain_columns (audit_tables d)) as Hc.
    { destruct H1 as (id & env & n & m & n' & H1). apply record_Ok in H1 as (_ & -> & _).
      rewrite audit_get_set. by destruct m. }
    destruct (IH Hv1) as (Hv2 & Hc2 & rows & Hl2 & Hf). split; [done|]. split; [by rewrite Hc2|].
    exists (r :: rows). rewrite Hl2, Hl, <- app_assoc. split; [done|]. rewrite Hc in Hf. by constructor.
Qed.

(** C33: Recording any events, whatever the database answers in between, keeps the
    log verifiable from the genesis hash to the stored head and only ever appends
    to it, chained rows exactly when all five columns of the chain exist; and the
    stored head pins the whole chain: any other verifying log with the same head
    holds the same chained rows in the same order, or else exhibits two different
    entries with one SHA-256 hash or an entry that hashes to the genesis hash. *)
Theorem audit_log_tamper_evident (d d' : D) :
  rtc some_recording d d' → verifies (audit_tables d) →
  verifies (audit_tables d') ∧
  (∃ rows, audit_log (audit_tables d') = audit_log (audit_tables d) ++ rows ∧
     Forall (fun r => is_chained r = true ↔ chain_columns (audit_tables d) = 5) rows) ∧
  ∀ t, verifies t → head_of t = head_of (audit_tables d') →
    chained_rows t = chained_rows (audit_tables d') ∨
    hash_broken (chained_rows t) (chained_rows (audit_tables d')).
Proof.
  intros Hr Hv. destruct (recordings d d' Hr Hv) as (Hv' & _ & Hrows). split; [done|]. split; [done|].
  intros t Ht Hh. unfold verifies in *.
  apply (chain_identifies (chained_rows t) (chained_rows (audit_tables d')) (head_of t)).
  1,2: apply Forall_forall; intros r Hin; by apply list_elem_of_filter in Hin as [??].
  - unfold chained_rows. by rewrite chain_filter.
  - unfold chained_rows. by rewrite chain_filter, Hh.
Qed.
End TamperEvidence.

(** ** Two logins, recorded *)
Module DemoAudit.
#[export] Instance platform : Platform := demo_platform.
#[export] Instance bytes : Collation := {| collate := fun s => s |}.
#[export] Instance own_tables : AuditStore AuditTables.
Proof. by refine {| audit_tables := fun t => t; set_audit := fun t _ => t |}. Defined.

Definition env : environment :=
  Env (fun _ => false) (fun _ => false) (fun _ => 0) (fun n => show_nat (Z.of_nat n)) (fun _ => 0) (fun _ => zeros 43).

Definition login (user : string) : AuditEvent :=
  Event (Some user) None "auth.login" "kaudit_user" (Some user) success "authentication" "c-1" None
    (Some "auth:database-login") None (Some (zeros 64)) 1721817600123.

Definition empty : AuditTables := Tables 5 (Some (Head AUDIT_GENESIS_HASH None 0)) [].

Definition after (d : AuditTables) (event : AuditEvent) (id : string) : AuditTables :=
  (recordAuditEventInTransaction event id env 0%nat d).2.2.

Definition one : AuditTables := after empty (login "u-1") "e-1".
Definition two : AuditTables := after one (login "u-2") "e-2".

Example two_rows : map is_chained (audit_log two) = [true; true] ∧ verifies two.
Proof. vm_compute. auto. Qed.

(** Before migration 0004 the event is recorded unchained. *)
Example before_0004 :
  (recordAuditEventInTransaction (login "u-1") "e-1" env 0%nat (Tables 0 None [])).1 = Ok legacy.
Proof. vm_compute. reflexivity. Qed.
End DemoAudit.

Lemma audit_log_tamper_evident_witness :
  verifies (P := DemoAudit.platform) DemoAudit.two ∧ ∃ rows, audit_log DemoAudit.two = [] ++ rows ∧
    Forall (fun r => is_chained r = true ↔ 5 = 5) rows.
Proof.
  destruct (@audit_log_tamper_evident DemoAudit.platform DemoAudit.bytes AuditTables DemoAudit.own_tables
    DemoAudit.empty DemoAudit.two) as (H1 & H2 & _).
  - apply rtc_l with DemoAudit.one.
    + exists (DemoAudit.login "u-1"), "e-1", DemoAudit.env, 0%nat, hash_chained. eexists. vm_compute. reflexivity.
    + apply rtc_once. exists (DemoAudit.login "u-2"), "e-2", DemoAudit.env, 0%nat, hash_chained. eexists. vm_compute. reflexivity.
  - vm_compute. reflexivity.
  - split; [exact H1|exact H2].
Defined.
