(* ===== verification/Credentials.v ===== *)
(** * Identities, permissions and passwords

    [src/identity/access.ts], [src/auth/credentialIdentity.ts] and the policy of
    [src/auth/passwordHash.ts]: what a handle and a password may be, and what a
    role permits. *)

From S2P Require Import Prelude JsText Regex Scoring.
From Stdlib Require Import Ascii.

Local Open Scope string_scope.
Local Open Scope list_scope.
#[global] Open Scope Z_scope.

(** ** Access *)

Definition USER_PERMISSIONS : list string := [
  "call:read"; "call:review"; "finding:confirm"; "invoice:reconcile"; "cluster:confirm";
  "action:route"; "metrics:read"; "snapshot:read"].

Definition ADMIN_ONLY_PERMISSIONS : list string := [
  "user:manage"; "config:manage"; "connection:manage"; "import:write"; "sensitivity:grant";
  "billing:approve"; "reconciliation:close"; "dispute:approve"; "retention:manage";
  "access:review"; "legalhold:manage"; "policy:publish"; "audit:inspect"; "audit:control"].

Definition can (roles : list string) (permission : string) : bool :=
  if bool_decide ("admin" ∈ roles) then true
  else if bool_decide ("user" ∈ roles) then bool_decide (permission ∈ USER_PERMISSIONS)
  else false.

Definition canGrantSensitivity (roles : list string) : bool := can roles "sensitivity:grant".

Definition SENSITIVITY_ORDER : list string := ["K0"; "K1"; "K2"; "K3"].

(** [indexOf], with [None] for -1. *)
Fixpoint index_of (x : string) (l : list string) : option nat :=
  match l with
  | [] => None
  | y :: l => if String.eqb x y then Some 0%nat else S <$> index_of x l
  end.

Definition canViewCallContent (maxSensitivityTier callTier : string) : bool :=
  if String.eqb callTier "K4" then false
  else match index_of maxSensitivityTier SENSITIVITY_ORDER, index_of callTier SENSITIVITY_ORDER with
       | Some max, Some need => (need <=? max)%nat
       | _, _ => false
       end.

(** No role reaches an administrator's permission but [admin], and an unknown role
    nothing at all. *)
Lemma can_admin_only roles permission :
  permission ∈ ADMIN_ONLY_PERMISSIONS → can roles permission = bool_decide ("admin" ∈ roles).
Proof.
  intros Hp. unfold can. destruct (bool_decide ("admin" ∈ roles)); [done|].
  destruct (bool_decide ("user" ∈ roles)); [|done]. apply bool_decide_eq_false.
  revert permission Hp. apply (Forall_forall (fun p => p ∉ USER_PERMISSIONS)).
  apply (bool_decide_unpack _). vm_compute. exact I.
Qed.

Lemma canViewCallContent_spec m c :
  canViewCallContent m c = true ↔
  ∃ i j, SENSITIVITY_ORDER !! i = Some m ∧ SENSITIVITY_ORDER !! j = Some c ∧ (j ≤ i)%nat.
Proof.
  assert (∀ x l i, index_of x l = Some i → l !! i = Some x) as Hidx.
  { intros x. induction l as [|y l IH]; intros i; cbn; [done|].
    destruct (String.eqb_spec x y) as [->|_]; [by intros [= <-]|].
    destruct (index_of x l) as [k|]; [|done]. intros [= <-]. by apply IH. }
  unfold canViewCallContent. split.
  - destruct (String.eqb c "K4"); [done|].
    destruct (index_of m SENSITIVITY_ORDER) as [i|] eqn:Ei; [|done].
    destruct (index_of c SENSITIVITY_ORDER) as [j|] eqn:Ej; [|done].
    intros H%Nat.leb_le. exists i, j. auto.
  - intros (i & j & Hi & Hj & Hij). unfold SENSITIVITY_ORDER in *.
    destruct i as [|[|[|[|i]]]]; cbn in Hi; try done; injection Hi as <-;
      destruct j as [|[|[|[|j]]]]; cbn in Hj; try done; injection Hj as <-; try lia; reflexivity.
Qed.

(** ** Handles *)

(** The case mapping of Unicode, which [toLowerCase] applies. *)
Class CaseMapping : Type := { toLowerCase : string → string }.

Definition USERNAME_MIN_LENGTH : Z := 3.
Definition USERNAME_MAX_LENGTH : Z := 64.
Definition EMAIL_MAX_LENGTH : Z := 255.
Definition LOGIN_MAX_LENGTH : Z := EMAIL_MAX_LENGTH.

Definition alnum (c : Z) : bool := ((97 <=? c) && (c <=? 122)) || ((48 <=? c) && (c <=? 57)).
Definition not_at (c : Z) : bool := negb (c =? 64) && negb (space_char c).

Definition USERNAME_PATTERN : re :=
  Cats [Start; Chr alnum;
        Star (Chr (fun c => alnum c || (c =? 46) || (c =? 95) || (c =? 45))); Chr alnum; End_].
Definition CONTROL_CHARACTERS : re := Chr (fun c => (c <=? 31) || (c =? 127)).
Definition EMAIL_PATTERN : re :=
  Cats [Start; Plus (Chr not_at); Chr (fun c => c =? 64); Plus (Chr not_at); Chr (fun c => c =? 46);
        Plus (Chr not_at); End_].

Inductive CredentialFailureCode : Type :=
| LOGIN_MALFORMED | USERNAME_MALFORMED | EMAIL_MALFORMED | PASSWORD_POLICY | PASSWORD_OVERSIZE
| HASHING_FAILED | STORED_HASH_MALFORMED | SESSION_SECRET_WEAK | SESSION_TTL_OUT_OF_RANGE
| SESSION_INVALID.

#[export] Instance CredentialFailureCode_eq_dec : EqDecision CredentialFailureCode.
Proof. solve_decision. Defined.

Record CredentialError : Type := CredError { cred_code : CredentialFailureCode }.

Section Handles.
Context `{CaseMapping}.

Definition prepare (v : value) : option string :=
  match v with
  | VStr s =>
      if LOGIN_MAX_LENGTH <? units s then None
      else let trimmed := trim s in
           if bool_decide (trimmed = "") || test CONTROL_CHARACTERS trimmed then None
           else Some (toLowerCase trimmed)
  | _ => None
  end.

Definition isUsernameShape (candidate : string) : bool :=
  (USERNAME_MIN_LENGTH <=? units candidate) && (units candidate <=? USERNAME_MAX_LENGTH) &&
  test USERNAME_PATTERN candidate.

Definition isEmailShape (candidate : string) : bool :=
  (units candidate <=? EMAIL_MAX_LENGTH) && test EMAIL_PATTERN candidate.

(** A prepared candidate is falsy when its lower case is empty. *)
Definition candidate_of (v : value) (shape : string → bool) : option string :=
  candidate ← prepare v; if bool_decide (candidate = "") || negb (shape candidate) then None else Some candidate.

Definition normalizeUsername (v : value) : Prelude.result CredentialError string :=
  match candidate_of v isUsernameShape with
  | Some candidate => Ok candidate
  | None => Throw (CredError USERNAME_MALFORMED)
  end.

Definition normalizeEmail (v : value) : Prelude.result CredentialError string :=
  match candidate_of v isEmailShape with
  | Some candidate => Ok candidate
  | None => Throw (CredError EMAIL_MALFORMED)
  end.

(** [candidate.includes('@')] *)
Fixpoint looksLikeEmail (s : string) : bool :=
  match s with
  | EmptyString => false
  | String c s => Ascii.eqb c "@"%char || looksLikeEmail s
  end.

Definition normalizeLogin (v : value) : option string :=
  match prepare v with
  | Some candidate =>
      if bool_decide (candidate = "") then None
      else if looksLikeEmail candidate then if isEmailShape candidate then Some candidate else None
      else if isUsernameShape candidate then Some candidate else None
  | None => None
  end.

(** ** Passwords *)

Definition PASSWORD_MIN_LENGTH : Z := 12.
Definition PASSWORD_MAX_LENGTH : Z := 256.
Definition PASSWORD_MAX_BYTES : Z := 1024.

Inductive PasswordPolicyViolation : Type :=
| TOO_SHORT | TOO_LONG | MISSING_LOWERCASE | MISSING_UPPERCASE | MISSING_DIGIT | MISSING_SYMBOL
| CONTAINS_CONTROL_CHARACTER | CONTAINS_IDENTITY.

Record PasswordIdentityContext : Type := Identity {
  id_username : option string;
  id_email : option string;
}.

(** [s.includes(part)] *)
Definition includes (part s : string) : bool :=
  match String.index 0 part s with Some _ => true | None => false end.

(** [email.split('@')[0]] *)
Fixpoint before_at (s : string) : string :=
  match s with
  | EmptyString => ""
  | String c s => if Ascii.eqb c "@"%char then "" else String c (before_at s)
  end.

Definition violation (b : bool) (v : PasswordPolicyViolation) : list PasswordPolicyViolation :=
  if b then [v] else [].

Definition range (lo hi : Z) : re := Chr (fun c => (lo <=? c) && (c <=? hi)).

Definition checkPasswordPolicy (password : value) (identity : PasswordIdentityContext)
    : list PasswordPolicyViolation :=
  match password with
  | VStr p =>
      let lowered := toLowerCase p in
      let reuses (part : option string) : bool :=
        match part with
        | Some part => negb (bool_decide (part = "")) && (3 <=? units part) &&
                       includes (toLowerCase part) lowered
        | None => false
        end in
      violation (units p <? PASSWORD_MIN_LENGTH) TOO_SHORT ++
      violation ((PASSWORD_MAX_LENGTH <? units p) || (PASSWORD_MAX_BYTES <? len p)) TOO_LONG ++
      violation (negb (test (range 97 122) p)) MISSING_LOWERCASE ++
      violation (negb (test (range 65 90) p)) MISSING_UPPERCASE ++
      violation (negb (test (range 48 57) p)) MISSING_DIGIT ++
      violation (negb (test (Chr (fun c => negb (((65 <=? c) && (c <=? 90)) || alnum c))) p)) MISSING_SYMBOL ++
      violation (test CONTROL_CHARACTERS p) CONTAINS_CONTROL_CHARACTER ++
      violation (reuses (id_username identity) || reuses (before_at <$> id_email identity)) CONTAINS_IDENTITY
  | _ => [TOO_SHORT]
  end.
End Handles.

(** The handles of a normalized login: a username never looks like an email. *)
Lemma candidate_of_shape `{CaseMapping} v shape s : candidate_of v shape = Some s → shape s = true ∧ s ≠ "".
Proof.
  unfold candidate_of. destruct (prepare v) as [c|]; cbn; [|done].
  destruct (bool_decide (c = "")) eqn:E1; cbn; [done|]. destruct (shape c) eqn:E2; [|done].
  intros [= <-]. by apply bool_decide_eq_false in E1.
Qed.

Module DemoCredentials.
#[export] Instance ascii_lower : CaseMapping :=
  {| toLowerCase := fix go s := match s with
       | EmptyString => "" | String c s => String (if (65 <=? code c) && (code c <=? 90) then
           Ascii.ascii_of_N (Z.to_N (code c + 32)) else c) (go s) end |}.

Example handles : map (fun s => normalizeLogin (VStr s)) [" Admin.One "; "A@B.co"; "a"; "-ab"; "a b"; "a@b"] =
  [Some "admin.one"; Some "a@b.co"; None; None; None; None].
Proof. vm_compute. reflexivity. Qed.

Example passwords : map (fun p => checkPasswordPolicy (VStr p) (Identity (Some "saanvi") (Some "ops@x.in")))
    ["Correct-Horse-7"; "Saanvi-Horse-7"; "short"; "alllowercaseops1"] =
  [[]; [CONTAINS_IDENTITY]; [TOO_SHORT; MISSING_UPPERCASE; MISSING_DIGIT; MISSING_SYMBOL];
   [MISSING_UPPERCASE; MISSING_SYMBOL; CONTAINS_IDENTITY]].
Proof. vm_compute. reflexivity. Qed.
End DemoCredentials.
