(* ===== verification/UserAdmin.v ===== *)
(** * User administration

    [src/identity/userAdministration.ts]: the names, limits and error codes, the checks
    on what an administrator asks for, the refusals that protect the platform, and the
    audit event of an operation. *)

From S2P Require Import Prelude JsText Regex CanonicalJson Scoring Sql AuditChain Credentials.

Local Open Scope string_scope.
Local Open Scope list_scope.
#[global] Open Scope Z_scope.

(** ** Names *)

Definition MANAGEABLE_USER_KIND : string := "user".
Definition ADMIN_ROLE : string := "admin".
Definition OPERATOR_ROLE : string := "user".
Definition ASSIGNABLE_ROLES : list string := [ADMIN_ROLE; OPERATOR_ROLE].

(** [ACCOUNT_STATUS] *)
Definition status_active : string := "active".
Definition status_disabled : string := "disabled".
Definition status_tombstoned : string := "tombstoned".

Definition NEW_USER_SENSITIVITY_TIER : string := "K1".

Inductive UserAdminAuditAction : Type :=
| USER_ACCOUNT_CREATED
| USER_ACCOUNT_UPDATED
| USER_ACCOUNT_ACTIVATED
| USER_ACCOUNT_DEACTIVATED
| USER_ACCOUNT_PASSWORD_RESET
| USER_ACCOUNT_TOMBSTONED.

Definition action_text (a : UserAdminAuditAction) : string :=
  match a with
  | USER_ACCOUNT_CREATED => "USER_ACCOUNT_CREATED"
  | USER_ACCOUNT_UPDATED => "USER_ACCOUNT_UPDATED"
  | USER_ACCOUNT_ACTIVATED => "USER_ACCOUNT_ACTIVATED"
  | USER_ACCOUNT_DEACTIVATED => "USER_ACCOUNT_DEACTIVATED"
  | USER_ACCOUNT_PASSWORD_RESET => "USER_ACCOUNT_PASSWORD_RESET"
  | USER_ACCOUNT_TOMBSTONED => "USER_ACCOUNT_TOMBSTONED"
  end.

Definition USER_ADMIN_AUDIT_CLIENT : string := "admin:user-administration".
Definition USER_ADMIN_AUDIT_PURPOSE : string := "user_administration".
Definition MAX_USER_ID_LENGTH : Z := 40.
Definition USER_LIST_DEFAULT_LIMIT : Z := 50.
Definition USER_LIST_MAX_LIMIT : Z := 200.
Definition USER_LIST_MAX_OFFSET : Z := 100000.
Definition MIN_PASSWORD_HASH_LENGTH : Z := 40.
Definition MAX_PASSWORD_HASH_LENGTH : Z := 255.
Definition REVOKED_PASSWORD_SENTINEL_PREFIX : string := "revoked$".
Definition MAX_SESSION_VERSION : Z := 4294967295.

Inductive UserAdminInputCode : Type :=
| actorInvalid | targetInvalid | usernameMalformed | emailMalformed | roleInvalid | passwordPolicy
| listWindowInvalid | activationFlagInvalid.

Inductive UserAdminRefusalCode : Type :=
| userNotFound | userNotManageable | credentialNotFound | accountTombstoned | usernameTaken | emailTaken
| identifierConflict | selfDeactivate | selfTombstone | selfDemote | lastAdmin | sessionVersionExhausted.

Inductive UserAdminFaultCode : Type :=
| readFailed | writeFailed | writeCountUnexpected | stateMalformed | hashUnusable | hashingFailed
| auditFailed | commitFailed | unexpected.

Inductive UserAdminError : Type :=
| inputError (code : UserAdminInputCode) (violations : list PasswordPolicyViolation)
| refusal (code : UserAdminRefusalCode)
| fault (code : UserAdminFaultCode).

Notation admin_result A := (Prelude.result UserAdminError A).

(** ** Input *)

Definition USER_ID_PATTERN : re :=
  Cats [Start; Plus (Chr (fun c => ((65 <=? c) && (c <=? 90)) || alnum c || (c =? 95) || (c =? 45))); End_].

Definition isUserId (v : value) : option string :=
  match v with
  | VStr s => if (0 <? units s) && (units s <=? MAX_USER_ID_LENGTH) && test USER_ID_PATTERN s then Some s else None
  | _ => None
  end.

Definition or_throw {E A} (o : option A) (e : E) : Prelude.result E A :=
  match o with Some a => Ok a | None => Throw e end.

Definition requireActorUserId (v : value) : admin_result string :=
  or_throw (isUserId v) (inputError actorInvalid []).
Definition requireTargetUserId (v : value) : admin_result string :=
  or_throw (isUserId v) (inputError targetInvalid []).

Definition requireAssignableRole (v : value) : admin_result string :=
  match v with
  | VStr s => if bool_decide (s ∈ ASSIGNABLE_ROLES) then Ok s else Throw (inputError roleInvalid [])
  | _ => Throw (inputError roleInvalid [])
  end.

Section Input.
Context `{CaseMapping}.

(** [mapCredentialError]: a [CredentialError] is re-thrown in this vocabulary. *)
Definition mapCredentialError {A} (r : Prelude.result CredentialError A) (code : UserAdminInputCode) : admin_result A :=
  match r with Ok a => Ok a | Throw _ => Throw (inputError code []) end.

Definition requireUsername (v : value) : admin_result string := mapCredentialError (normalizeUsername v) usernameMalformed.
Definition requireEmail (v : value) : admin_result string := mapCredentialError (normalizeEmail v) emailMalformed.

Definition requireAcceptablePassword (password : value) (identity : PasswordIdentityContext) : admin_result string :=
  let violations := checkPasswordPolicy password identity in
  match password, violations with
  | VStr p, [] => Ok p
  | _, _ => Throw (inputError passwordPolicy violations)
  end.
End Input.

Record UserListWindow : Type := Window { limit : Z; offset : Z }.

(** [Number.isInteger] and the bounds; [undefined] and [null] take the default. *)
Definition integer_within (v : value) (default_ lo hi : Z) : option Z :=
  match v with
  | VUndefined | VNull => Some default_
  | VNum m e => if (m mod 2 ^ Z.of_N e =? 0) && (lo <=? m / 2 ^ Z.of_N e) && (m / 2 ^ Z.of_N e <=? hi)
                then Some (m / 2 ^ Z.of_N e) else None
  | _ => None
  end.

Definition requireListWindow (limit_ offset_ : value) : admin_result UserListWindow :=
  match integer_within limit_ USER_LIST_DEFAULT_LIMIT 1 USER_LIST_MAX_LIMIT,
        integer_within offset_ 0 0 USER_LIST_MAX_OFFSET with
  | Some l, Some o => Ok (Window l o)
  | _, _ => Throw (inputError listWindowInvalid [])
  end.

Definition requireActivationFlag (v : value) : admin_result bool :=
  match v with VBool b => Ok b | _ => Throw (inputError activationFlagInvalid []) end.

(** The driver answers the column [int unsigned] as an integer. *)
Definition requireSessionVersion (version : option Z) : admin_result Z :=
  match version with
  | Some v => if (v <? 1) || (MAX_SESSION_VERSION <? v) then Throw (fault stateMalformed) else Ok v
  | None => Throw (fault stateMalformed)
  end.

Definition nextSessionVersion (current : Z) : admin_result Z :=
  if MAX_SESSION_VERSION <=? current then Throw (refusal sessionVersionExhausted) else Ok (current + 1).

(** ** The locked state *)

Record ManagedAccount : Type := Account {
  userId : string;
  kind : string;
  userStatus : string;
  email : option string;
  username : option string;
  credentialStatus : option string;
  sessionVersion : option Z;
  roles : list string;
}.

Definition isActiveAdmin (account : ManagedAccount) : bool :=
  String.eqb (kind account) MANAGEABLE_USER_KIND && String.eqb (userStatus account) status_active &&
  bool_decide (credentialStatus account = Some status_active) && bool_decide (ADMIN_ROLE ∈ roles account).

Definition isTombstoned (account : ManagedAccount) : bool :=
  String.eqb (userStatus account) status_tombstoned ||
  bool_decide (credentialStatus account = Some status_tombstoned).

Definition requireManageableAccount (account : option ManagedAccount) : admin_result ManagedAccount :=
  match account with
  | None => Throw (refusal userNotFound)
  | Some account =>
      if negb (String.eqb (kind account) MANAGEABLE_USER_KIND) then Throw (refusal userNotManageable)
      else match credentialStatus account with
           | None => Throw (refusal credentialNotFound)
           | Some _ => if isTombstoned account then Throw (refusal accountTombstoned) else Ok account
           end
  end.

Definition refuseSelfTarget (actorUserId targetUserId : string) (code : UserAdminRefusalCode) : admin_result unit :=
  throw_if (String.eqb actorUserId targetUserId) (refusal code).

Definition refuseLastActiveAdmin (account : ManagedAccount) (otherActiveAdmins : Z) : admin_result unit :=
  throw_if (isActiveAdmin account && (otherActiveAdmins <? 1)) (refusal lastAdmin).

Definition removesAdminRole (account : ManagedAccount) (nextRole : string) : bool :=
  bool_decide (ADMIN_ROLE ∈ roles account) && negb (String.eqb nextRole ADMIN_ROLE).

Definition requireStorablePasswordHash (value : string) : admin_result string :=
  if (units value <? MIN_PASSWORD_HASH_LENGTH) || (MAX_PASSWORD_HASH_LENGTH <? units value)
  then Throw (fault hashUnusable) else Ok value.

Definition buildRevokedPasswordSentinel (random : string) : admin_result string :=
  requireStorablePasswordHash (REVOKED_PASSWORD_SENTINEL_PREFIX +:+ random).

(** ** The audit event *)

Record UserLifecycleFacts : Type := Facts {
  fact_userId : string;
  fact_userStatus : string;
  fact_credentialStatus : string;
  fact_roles : list string;
  fact_sessionVersion : Z;
}.

(** [JSON.stringify] of the facts; roles are ASCII and sorted by code unit. *)
Definition lifecycle_json (facts : UserLifecycleFacts) : json :=
  JArr [JStr "kaudit-user-lifecycle"; JStr (fact_userId facts); JStr (fact_userStatus facts);
        JStr (fact_credentialStatus facts); JArr (map JStr (sort_by String.leb (fact_roles facts)));
        jint (fact_sessionVersion facts)].

Definition userLifecycleHash `{Platform} (facts : UserLifecycleFacts) : string :=
  sha256Hex (print (lifecycle_json facts)).

Definition accountLifecycleFacts (account : ManagedAccount) : UserLifecycleFacts :=
  {| fact_userId := userId account; fact_userStatus := userStatus account;
     fact_credentialStatus := default "none" (credentialStatus account);
     fact_roles := roles account; fact_sessionVersion := default 0 (sessionVersion account) |}.

Definition buildUserAdministrationAuditEvent (action : UserAdminAuditAction) (actor target : string)
    (before : option string) (after correlation : string) (occurred : Z) : AuditEvent :=
  {| actorUserId := Some actor; actorEmail := None; ev_action := action_text action;
     resourceType := "kaudit_user"; resourceId := Some target; ev_outcome := success;
     purpose := USER_ADMIN_AUDIT_PURPOSE; correlationId := correlation; ipAddress := None;
     client := Some USER_ADMIN_AUDIT_CLIENT; beforeHash := before; afterHash := Some after;
     occurredAt := occurred |}.

Record UserAdminChangeResult : Type := Changed {
  res_userId : string;
  res_action : UserAdminAuditAction;
  changed : bool;
  res_sessionVersion : Z;
  auditMode : option AuditWriteMode;
}.
