(* ===== verification/UserStore.v ===== *)
(** * The account tables

    The tables of migrations 0003 and 0009 and the fixed statements of
    [USER_ADMIN_SQL] in [src/adapters/mysqlUserAdministration.ts], as functions on
    the tables: which rows they match, what they write, and the unique and foreign
    keys that can refuse them. Column lengths and checks can only refuse a statement, which the
    environment may do to any of them. *)

From S2P Require Import Prelude Sql AuditChain UserAdmin.

Local Open Scope string_scope.
Local Open Scope list_scope.
#[global] Open Scope Z_scope.

(** [kaudit_user]; the columns of an OIDC identity are never read or written here. *)
Record UserRow : Type := User {
  u_id : string;
  u_kind : string;
  u_email : option string;
  u_display_name : option string;
  u_max_sensitivity_tier : string;
  u_status : string;
  u_last_login_at : option Z;
  u_created_at : Z;
  u_updated_at : option Z;
}.

(** [kaudit_user_credential] *)
Record CredentialRow : Type := Credential {
  c_user_id : string;
  username_normalized : string;
  password_hash : string;
  session_version : Z;
  c_status : string;
  password_changed_at : Z;
  disabled_at : option Z;
  c_created_at : Z;
  c_updated_at : option Z;
}.

(** [kaudit_user_role] *)
Record RoleRow : Type := Role {
  r_id : string;
  r_user_id : string;
  role_code : string;
  granted_by : option string;
  granted_at : Z;
}.

Record UserDb : Type := Db {
  users : list UserRow;
  credentials : list CredentialRow;
  user_roles : list RoleRow;
  db_audit : AuditTables;
}.

#[export] Instance UserDb_audit : AuditStore UserDb.
Proof.
  refine {| audit_tables := db_audit;
            set_audit := fun t d => Db (users d) (credentials d) (user_roles d) t |}; by intros; try destruct d.
Defined.

Notation statement A := (Z → UserDb → Prelude.result sql_error (A * UserDb)).

Section Statements.
Context `{Collation}.

(** The unique keys. *)
Definition user_clash (a b : UserRow) : bool :=
  sql_eq (u_id a) (u_id b) ||
  match u_email a, u_email b with Some x, Some y => sql_eq x y | _, _ => false end.

(** The handle is in [utf8mb4_bin]. *)
Definition credential_clash (a b : CredentialRow) : bool :=
  sql_eq (c_user_id a) (c_user_id b) || String.eqb (username_normalized a) (username_normalized b).

Definition role_clash (a b : RoleRow) : bool :=
  sql_eq (r_id a) (r_id b) || (sql_eq (r_user_id a) (r_user_id b) && sql_eq (role_code a) (role_code b)).

(** Writing one of the tables. *)
Definition with_users (r : Prelude.result sql_error (nat * list UserRow)) (d : UserDb) : Prelude.result sql_error (nat * UserDb) :=
  '(n, t) ← r; Ok (n, Db t (credentials d) (user_roles d) (db_audit d)).
Definition with_credentials (r : Prelude.result sql_error (nat * list CredentialRow)) (d : UserDb) : Prelude.result sql_error (nat * UserDb) :=
  '(n, t) ← r; Ok (n, Db (users d) t (user_roles d) (db_audit d)).
Definition with_roles (r : Prelude.result sql_error (nat * list RoleRow)) (d : UserDb) : Prelude.result sql_error (nat * UserDb) :=
  '(n, t) ← r; Ok (n, Db (users d) (credentials d) t (db_audit d)).
Definition one_row {R} (r : Prelude.result sql_error (list R)) : Prelude.result sql_error (nat * list R) :=
  t ← r; Ok (1%nat, t).

(** *** Reads *)

Record AccountRow : Type := Joined { j_user : UserRow; j_credential : option CredentialRow }.

Definition credentials_of (d : UserDb) (id : string) : list CredentialRow :=
  where_ (fun c => sql_eq (c_user_id c) id) (credentials d).

Definition selectTargetForUpdate (id : string) : statement (list AccountRow) :=
  fun _ d => Ok (take 1 (mjoin (map (fun u =>
    match credentials_of d (u_id u) with
    | [] => [Joined u None]
    | cs => map (fun c => Joined u (Some c)) cs
    end) (where_ (fun u => sql_eq (u_id u) id) (users d)))), d).

Definition selectTargetRolesForUpdate (id : string) : statement (list string) :=
  fun _ d => Ok (sort_by (fun a b => String.leb (collate a) (collate b))
    (map role_code (where_ (fun r => sql_eq (r_user_id r) id) (user_roles d))), d).

(** The rows of the join of the three tables. *)
Definition active_admin_rows (d : UserDb) : list (UserRow * CredentialRow * RoleRow) :=
  u ← users d; c ← credentials d; r ← user_roles d;
  if sql_eq (c_user_id c) (u_id u) && sql_eq (r_user_id r) (u_id u) && sql_eq (u_kind u) "user" &&
     sql_eq (u_status u) "active" && sql_eq (c_status c) "active" && sql_eq (role_code r) "admin"
  then [(u, c, r)] else [].

Definition countOtherActiveAdminsForUpdate (id : string) : statement Z :=
  fun _ d => Ok (Z.of_nat (length (where_ (fun p => negb (sql_eq (u_id p.1.1) id)) (active_admin_rows d))), d).

Definition selectUsernameOwnerForUpdate (username : string) : statement (list string) :=
  fun _ d => Ok (take 1 (map c_user_id (where_ (fun c => String.eqb (username_normalized c) username) (credentials d))), d).

Definition selectEmailOwnerForUpdate (email : string) : statement (list string) :=
  fun _ d => Ok (take 1 (map u_id (where_ (fun u =>
    match u_email u with Some e => sql_eq e email | None => false end) (users d))), d).

(** *** Writes *)

Definition insertUser (id email : string) : statement nat :=
  fun time d => with_users (one_row (insert_unique user_clash
    (User id "user" (Some email) None "K1" "active" None time None) (users d))) d.

(** The foreign keys of the two other tables. *)
Definition references (id : string) (d : UserDb) : bool := existsb (fun u => sql_eq id (u_id u)) (users d).

Definition insertCredential (id username hash : string) : statement nat :=
  fun time d => if references id d then with_credentials (one_row (insert_unique credential_clash
    (Credential id username hash 1 "active" time None time None) (credentials d))) d else Throw Refused.

Definition insertRole (id user role granted : string) : statement nat :=
  fun time d => if references user d then with_roles (one_row (insert_unique role_clash
    (Role id user role (Some granted) time) (user_roles d))) d else Throw Refused.

Definition deleteRoles (id : string) : statement nat :=
  fun _ d => with_roles (Ok (delete_where (fun r => sql_eq (r_user_id r) id) (user_roles d))) d.

Definition open_credential (id : string) (c : CredentialRow) : bool :=
  sql_eq (c_user_id c) id && negb (sql_eq (c_status c) "tombstoned").
Definition open_user (id : string) (u : UserRow) : bool :=
  sql_eq (u_id u) id && sql_eq (u_kind u) "user" && negb (sql_eq (u_status u) "tombstoned").

(** [NULL] is not equal to anything. *)
Definition updateUsername (username id : string) (old : option string) : statement nat :=
  fun time d => with_credentials (update_unique credential_clash
    (fun c => open_credential id c && bool_decide (Some (username_normalized c) = old))
    (fun c => Credential (c_user_id c) username (password_hash c) (session_version c) (c_status c)
                (password_changed_at c) (disabled_at c) (c_created_at c) (Some time)) (credentials d)) d.

Definition updateEmail (email id : string) : statement nat :=
  fun time d => with_users (update_unique user_clash (open_user id)
    (fun u => User (u_id u) (u_kind u) (Some email) (u_display_name u) (u_max_sensitivity_tier u)
                (u_status u) (u_last_login_at u) (u_created_at u) (Some time)) (users d)) d.

Definition set_credential (status : string) (disabled : option Z → Z → option Z) (id : string) : statement nat :=
  fun time d => with_credentials (update_unique credential_clash (open_credential id)
    (fun c => Credential (c_user_id c) (username_normalized c) (password_hash c) (session_version c + 1) status
                (password_changed_at c) (disabled (disabled_at c) time) (c_created_at c) (Some time))
    (credentials d)) d.

Definition disableCredential : string → statement nat :=
  set_credential "disabled" (fun at_ time => Some (default time at_)).
Definition enableCredential : string → statement nat := set_credential "active" (fun _ _ => None).

Definition set_user (status id : string) : statement nat :=
  fun time d => with_users (update_unique user_clash (open_user id)
    (fun u => User (u_id u) (u_kind u) (u_email u) (u_display_name u) (u_max_sensitivity_tier u)
                status (u_last_login_at u) (u_created_at u) (Some time)) (users d)) d.

Definition disableUser : string → statement nat := set_user "disabled".
Definition enableUser : string → statement nat := set_user "active".
Definition tombstoneUser_stmt : string → statement nat := set_user "tombstoned".

Definition updatePassword (hash id : string) : statement nat :=
  fun time d => with_credentials (update_unique credential_clash (open_credential id)
    (fun c => Credential (c_user_id c) (username_normalized c) hash (session_version c + 1) (c_status c)
                time (disabled_at c) (c_created_at c) (Some time)) (credentials d)) d.

Definition tombstoneCredential (hash id : string) : statement nat :=
  fun time d => with_credentials (update_unique credential_clash (open_credential id)
    (fun c => Credential (c_user_id c) (username_normalized c) hash (session_version c + 1) "tombstoned"
                (password_changed_at c) (Some (default time (disabled_at c))) (c_created_at c) (Some time))
    (credentials d)) d.
End Statements.

(** ** The account of an identifier *)

Section Views.
Context `{Collation}.

Definition user_in (d : UserDb) (id : string) : option UserRow :=
  head (where_ (fun u => sql_eq (u_id u) id) (users d)).
Definition credential_in (d : UserDb) (id : string) : option CredentialRow :=
  head (where_ (fun c => sql_eq (c_user_id c) id) (credentials d)).
Definition roles_in (d : UserDb) (id : string) : list string :=
  sort_by (fun a b => String.leb (collate a) (collate b))
    (map role_code (where_ (fun r => sql_eq (r_user_id r) id) (user_roles d))).

Definition view (u : UserRow) (c : option CredentialRow) (codes : list string) : ManagedAccount :=
  {| userId := u_id u; kind := u_kind u; userStatus := u_status u; email := u_email u;
     username := username_normalized <$> c; credentialStatus := c_status <$> c;
     sessionVersion := session_version <$> c; roles := codes |}.

Definition account_in (d : UserDb) (id : string) : option ManagedAccount :=
  (fun u => view u (credential_in d id) (roles_in d id)) <$> user_in d id.

(** ** Well-formed tables *)

(** The columns compared by collation hold the words of the program as they are. *)
Definition canonical (words : list string) (s : string) : Prop :=
  ∀ w, w ∈ words → sql_eq s w = true → s = w.

Definition statuses : list string := [status_active; status_disabled; status_tombstoned].

(** The collation tells the words of the program apart. *)
Class Vocabulary : Prop := {
  statuses_apart s w : s ∈ statuses → w ∈ statuses → sql_eq s w = true → s = w;
  roles_apart : sql_eq OPERATOR_ROLE ADMIN_ROLE = false;
}.

Definition valid_user (u : UserRow) : Prop :=
  canonical [MANAGEABLE_USER_KIND] (u_kind u) ∧ canonical statuses (u_status u).
Definition valid_credential (c : CredentialRow) : Prop :=
  canonical statuses (c_status c) ∧ 1 ≤ session_version c ≤ MAX_SESSION_VERSION.
Definition valid_role (r : RoleRow) : Prop := canonical [ADMIN_ROLE] (role_code r).

Record well_formed (d : UserDb) : Prop := {
  wf_users : distinct user_clash (users d) = true;
  wf_credentials : distinct credential_clash (credentials d) = true;
  wf_roles : distinct role_clash (user_roles d) = true;
  wf_valid_users : Forall valid_user (users d);
  wf_valid_credentials : Forall valid_credential (credentials d);
  wf_valid_roles : Forall valid_role (user_roles d);
  wf_role_owners : Forall (fun r => ∃ u, u ∈ users d ∧ sql_eq (r_user_id r) (u_id u) = true) (user_roles d);
}.

(** ** What later tables keep of earlier rows *)

(** A person stays the same person; a tombstone is final. *)
Definition later_user (u u' : UserRow) : Prop :=
  u_id u' = u_id u ∧ u_kind u' = u_kind u ∧ u_max_sensitivity_tier u' = u_max_sensitivity_tier u ∧
  (u_status u = status_tombstoned → u' = u).

(** Generations never go back, every change of the status or of the hash starts
    one, and a tombstone is final, its handle included. *)
Definition later_credential (c c' : CredentialRow) : Prop :=
  c_user_id c' = c_user_id c ∧ session_version c ≤ session_version c' ∧
  ((c_status c, password_hash c) ≠ (c_status c', password_hash c') → session_version c < session_version c') ∧
  (c_status c = status_tombstoned → c' = c).

Definition kept (d d' : UserDb) : Prop :=
  (∀ u, u ∈ users d → ∃ u', u' ∈ users d' ∧ later_user u u') ∧
  (∀ c, c ∈ credentials d → ∃ c', c' ∈ credentials d' ∧ later_credential c c').

#[export] Instance later_user_preorder : PreOrder later_user.
Proof.
  split; [by intros u|]. intros u v w (A1 & B1 & C1 & D1) (A2 & B2 & C2 & D2).
  split; [congruence|]. split; [congruence|]. split; [congruence|].
  intros Hu. specialize (D1 Hu) as ->. by apply D2.
Qed.

#[export] Instance later_credential_preorder : PreOrder later_credential.
Proof.
  split; [intros c; split; [done|]; split; [lia|]; by split|].
  intros c e f (A1 & B1 & C1 & D1) (A2 & B2 & C2 & D2).
  split; [congruence|]. split; [lia|]. split.
  - intros Hn. destruct (decide ((c_status c, password_hash c) = (c_status e, password_hash e))) as [E|E].
    + rewrite E in Hn. specialize (C2 Hn). lia.
    + specialize (C1 E). lia.
  - intros Hc. specialize (D1 Hc) as ->. by apply D2.
Qed.

#[export] Instance kept_preorder : PreOrder kept.
Proof.
  split.
  - intros d. split; intros x Hx; exists x; by split.
  - intros d e f [U1 C1] [U2 C2]. split; intros x Hx.
    + destruct (U1 x Hx) as (y & Hy & L1). destruct (U2 y Hy) as (z & Hz & L2). exists z.
      split; [done|]. by transitivity y.
    + destruct (C1 x Hx) as (y & Hy & L1). destruct (C2 y Hy) as (z & Hz & L2). exists z.
      split; [done|]. by transitivity y.
Qed.
End Views.
