(* ===== verification/UserEffects.v ===== *)
(** * What the statements do to an account

    Each fixed statement against the account of its target, the accounts of
    everybody else, and the well-formedness of the tables. *)

From S2P Require Import Prelude Sql AuditChain UserAdmin UserStore.

Local Open Scope string_scope.
Local Open Scope list_scope.
#[global] Open Scope Z_scope.

Section Effects.
Context `{C : Collation}.
Implicit Types (d : UserDb) (u : UserRow) (c : CredentialRow) (r : RoleRow).

Lemma head_map {A B} (f : A → B) (l : list A) : head (map f l) = f <$> head l.
Proof. by destruct l. Qed.

(** ** One row per identifier *)

Lemma keyed {R} (key : R → string) (clashes : R → R → bool) (t : list R) id :
  distinct clashes t = true → (∀ x y : R, sql_eq (key x) (key y) = true → clashes x y = true) →
  where_ (fun x : R => sql_eq (key x) id) t = [] ∨ ∃ x, where_ (fun x : R => sql_eq (key x) id) t = [x].
Proof.
  intros Hd Hc. apply (distinct_where clashes); [done|]. intros x y Hx Hy. apply Hc.
  by apply (sql_eq_both _ _ id).
Qed.

Lemma one_user d id : well_formed d →
  where_ (fun u => sql_eq (u_id u) id) (users d) = match user_in d id with Some u => [u] | None => [] end.
Proof.
  intros W. unfold user_in. destruct (keyed u_id user_clash (users d) id (wf_users _ W)) as [E|[u E]];
    rewrite ?E; try done. intros a b Hab. unfold user_clash. by rewrite Hab.
Qed.

Lemma one_credential d id : well_formed d →
  where_ (fun c => sql_eq (c_user_id c) id) (credentials d) =
  match credential_in d id with Some c => [c] | None => [] end.
Proof.
  intros W. unfold credential_in.
  destruct (keyed c_user_id credential_clash (credentials d) id (wf_credentials _ W)) as [E|[c E]];
    rewrite ?E; try done. intros a b Hab. unfold credential_clash. by rewrite Hab.
Qed.

Lemma user_in_elem d id u : user_in d id = Some u → u ∈ users d ∧ sql_eq (u_id u) id = true.
Proof.
  unfold user_in. intros Hu. destruct (where_ _ _) as [|x l] eqn:E; [done|]. injection Hu as ->.
  assert (u ∈ u :: l) as Hin by left. rewrite <- E in Hin. apply elem_of_where in Hin. tauto.
Qed.

Lemma credential_in_elem d id c : credential_in d id = Some c → c ∈ credentials d ∧ sql_eq (c_user_id c) id = true.
Proof.
  unfold credential_in. intros Hu. destruct (where_ _ _) as [|x l] eqn:E; [done|]. injection Hu as ->.
  assert (c ∈ c :: l) as Hin by left. rewrite <- E in Hin. apply elem_of_where in Hin. tauto.
Qed.

Lemma elem_user_in d u id : well_formed d → u ∈ users d → sql_eq (u_id u) id = true → user_in d id = Some u.
Proof.
  intros W Hu Hid. assert (u ∈ where_ (fun u => sql_eq (u_id u) id) (users d)) as Hin by (by apply elem_of_where).
  rewrite one_user in Hin by done. destruct (user_in d id); [|by apply elem_of_nil in Hin].
  by apply list_elem_of_singleton in Hin as ->.
Qed.

Lemma elem_credential_in d c id :
  well_formed d → c ∈ credentials d → sql_eq (c_user_id c) id = true → credential_in d id = Some c.
Proof.
  intros W Hu Hid.
  assert (c ∈ where_ (fun c => sql_eq (c_user_id c) id) (credentials d)) as Hin by (by apply elem_of_where).
  rewrite one_credential in Hin by done. destruct (credential_in d id); [|by apply elem_of_nil in Hin].
  by apply list_elem_of_singleton in Hin as ->.
Qed.

Lemma elem_roles_in d id code :
  code ∈ roles_in d id ↔ ∃ r, r ∈ user_roles d ∧ sql_eq (r_user_id r) id = true ∧ role_code r = code.
Proof.
  unfold roles_in. rewrite sort_by_elem, list_elem_of_fmap. setoid_rewrite elem_of_where. naive_solver.
Qed.

(** The views depend on the identifier up to the collation only. *)
Lemma account_in_eq d a b : sql_eq a b = true → account_in d a = account_in d b.
Proof.
  intros E. assert (∀ x, sql_eq x a = sql_eq x b) as Hx.
  { intros x. apply bool_decide_ext. apply bool_decide_eq_true in E. by rewrite E. }
  unfold account_in, user_in, credential_in, roles_in.
  rewrite (where_ext (fun u => sql_eq (u_id u) a) (fun u => sql_eq (u_id u) b)) by (intros; apply Hx).
  rewrite (where_ext (fun c => sql_eq (c_user_id c) a) (fun c => sql_eq (c_user_id c) b)) by (intros; apply Hx).
  by rewrite (where_ext (fun r => sql_eq (r_user_id r) a) (fun r => sql_eq (r_user_id r) b)) by (intros; apply Hx).
Qed.

(** ** Updates *)

(** An update that matched one row of an identifier changed that row alone. *)
Lemma keyed_update {R} (key : R → string) (clashes : R → R → bool) (P : R → bool) (f : R → R) (t t' : list R) id :
  update_unique clashes P f t = Ok (1%nat, t') → distinct clashes t = true →
  (∀ x y : R, sql_eq (key x) (key y) = true → clashes x y = true) →
  (∀ x, P x = true → sql_eq (key x) id = true) → (∀ x, key (f x) = key x) →
  ∃ x, where_ (fun x => sql_eq (key x) id) t = [x] ∧ P x = true ∧
    where_ (fun x => sql_eq (key x) id) t' = [f x] ∧
    (∀ i, sql_eq i id = false → where_ (fun x => sql_eq (key x) i) t' = where_ (fun x => sql_eq (key x) i) t) ∧
    distinct clashes t' = true ∧
    (∀ V : R → Prop, V (f x) → Forall V t → Forall V t') ∧
    (∀ L : R → R → Prop, Reflexive L → L x (f x) → ∀ y, y ∈ t → ∃ y', y' ∈ t' ∧ L y y').
Proof.
  intros Hu Hd Hk HP Hf. apply update_unique_Ok in Hu as [Hu Hd']. injection Hu as En Et.
  set (g := fun x => if P x then f x else x) in *.
  assert (∀ i x, sql_eq (key (g x)) i = sql_eq (key x) i) as Hg.
  { intros i x. unfold g. destruct (P x); [by rewrite Hf|done]. }
  assert (∀ i, where_ (fun x => sql_eq (key x) i) t' = map g (where_ (fun x => sql_eq (key x) i) t)) as Hw.
  { intros i. subst t'. apply where_map. intros x. apply Hg. }
  destruct (keyed key clashes t id Hd Hk) as [E|[x E]].
  { exfalso. assert (where_ P t = []) as Hno; [|rewrite Hno in En; cbn in En; lia].
    apply where_none. intros x Hx. destruct (P x) eqn:Ex; [|done].
    assert (x ∈ where_ (fun x => sql_eq (key x) id) t) as Hin by (apply elem_of_where; auto).
    rewrite E in Hin. by apply elem_of_nil in Hin. }
  assert (P x = true) as HPx by (apply (matched_row P (fun x => sql_eq (key x) id) t); [done|done|lia]).
  assert (∀ y, y ∈ t → P y = true → y = x) as Honly.
  { intros y Hy Hpy. assert (y ∈ where_ (fun x => sql_eq (key x) id) t) as Hin by (apply elem_of_where; auto).
    rewrite E in Hin. by apply list_elem_of_singleton in Hin. }
  assert (g x = f x) as Egx by (unfold g; by rewrite HPx).
  exists x. split; [done|]. split; [done|]. split; [rewrite Hw, E; cbn; by rewrite Egx|]. split.
  { intros i Hi. rewrite Hw.
    rewrite <- (map_id (where_ (fun x => sql_eq (key x) i) t)) at 2. apply map_ext_in. intros y Hy.
    apply list_elem_of_In, elem_of_where in Hy as [Hy _]. unfold g. destruct (P y) eqn:Ey; [|done].
    apply HP in Ey. by rewrite (sql_eq_both i id (key y)) in Hi by (by rewrite sql_eq_sym). }
  split; [done|]. split.
  - intros V HV Ht. subst t'. apply Forall_forall. intros z (y & -> & Hy)%list_elem_of_fmap.
    unfold g. destruct (P y) eqn:Ey; [by rewrite (Honly y Hy Ey)|]. rewrite Forall_forall in Ht. by apply Ht.
  - intros L HR HL y Hy. exists (g y). split; [subst t'; by apply list_elem_of_fmap_2|].
    unfold g. destruct (P y) eqn:Ey; [by rewrite (Honly y Hy Ey)|]. reflexivity.
Qed.

Lemma user_clash_key a b : sql_eq (u_id a) (u_id b) = true → user_clash a b = true.
Proof. intros E. unfold user_clash. by rewrite E. Qed.
Lemma credential_clash_key a b : sql_eq (c_user_id a) (c_user_id b) = true → credential_clash a b = true.
Proof. intros E. unfold credential_clash. by rewrite E. Qed.

(** An update of the target's credential. *)
Lemma credential_update P f d id d' :
  with_credentials (update_unique credential_clash P f (credentials d)) d = Ok (1%nat, d') →
  well_formed d → (∀ c, P c = true → sql_eq (c_user_id c) id = true) →
  (∀ c, c_user_id (f c) = c_user_id c) →
  ∃ c, credential_in d id = Some c ∧ P c = true ∧ credential_in d' id = Some (f c) ∧
    (∀ i, sql_eq i id = false → credential_in d' i = credential_in d i) ∧
    users d' = users d ∧ user_roles d' = user_roles d ∧ db_audit d' = db_audit d ∧
    (valid_credential (f c) → well_formed d') ∧ (later_credential c (f c) → kept d d').
Proof.
  intros Hst [W1 W2 W3 W4 W5 W6 W7] HP Hf. unfold with_credentials in Hst.
  apply bind_Ok_iff in Hst as ([m t] & Hu & Hst). injection Hst as -> <-.
  destruct (keyed_update c_user_id _ _ _ _ _ id Hu W2 credential_clash_key HP Hf)
    as (c & E & HPc & E' & Ho & Hd & Hv & Hl).
  exists c. unfold credential_in. cbn [credentials users user_roles db_audit]. rewrite E, E'.
  split; [done|]. split; [done|]. split; [done|]. split; [intros i Hi; by rewrite Ho|].
  split; [done|]. split; [done|]. split; [done|]. split.
  - intros Hvc. split; try done. cbn. by apply Hv.
  - intros Hlc. split; [intros u Hu'; by exists u|]. cbn. apply (Hl later_credential); [|done]. by intros y.
Qed.

(** An update of the target's person. *)
Lemma user_update P f d id d' :
  with_users (update_unique user_clash P f (users d)) d = Ok (1%nat, d') →
  well_formed d → (∀ u, P u = true → sql_eq (u_id u) id = true) → (∀ u, u_id (f u) = u_id u) →
  ∃ u, user_in d id = Some u ∧ P u = true ∧ user_in d' id = Some (f u) ∧
    (∀ i, sql_eq i id = false → user_in d' i = user_in d i) ∧
    credentials d' = credentials d ∧ user_roles d' = user_roles d ∧ db_audit d' = db_audit d ∧
    (valid_user (f u) → well_formed d') ∧ (later_user u (f u) → kept d d').
Proof.
  intros Hst [W1 W2 W3 W4 W5 W6 W7] HP Hf. unfold with_users in Hst.
  apply bind_Ok_iff in Hst as ([m t] & Hu & Hst). injection Hst as -> <-.
  destruct (keyed_update u_id _ _ _ _ _ id Hu W1 user_clash_key HP Hf)
    as (u & E & HPu & E' & Ho & Hd & Hv & Hl).
  exists u. unfold user_in. cbn [credentials users user_roles db_audit]. rewrite E, E'.
  split; [done|]. split; [done|]. split; [done|]. split; [intros i Hi; by rewrite Ho|].
  split; [done|]. split; [done|]. split; [done|]. split.
  - intros Hvu. split; try done; cbn [users user_roles]; [by apply Hv|].
    apply (Forall_impl _ _ _ W7). intros r (y & Hy & Hry).
    destruct (Hl (fun y y' => u_id y' = u_id y) ltac:(by intros ?) (Hf u) y Hy) as (y' & Hy' & Ey).
    exists y'. by rewrite Ey.
  - intros Hlu. split; [|intros c Hc; by exists c]. cbn. apply (Hl later_user); [|done]. by intros y.
Qed.

(** ** Inserts and deletes *)

Lemma clash_sym_user a b : user_clash a b = user_clash b a.
Proof.
  unfold user_clash. rewrite sql_eq_sym. f_equal. destruct (u_email a), (u_email b); try done. apply sql_eq_sym.
Qed.
Lemma clash_sym_credential a b : credential_clash a b = credential_clash b a.
Proof. unfold credential_clash. rewrite sql_eq_sym. f_equal. apply String.eqb_sym. Qed.
Lemma clash_sym_role a b : role_clash a b = role_clash b a.
Proof.
  unfold role_clash. rewrite sql_eq_sym. f_equal. rewrite sql_eq_sym. f_equal. apply sql_eq_sym.
Qed.

Lemma kept_grow d us cs rs au :
  kept d (Db (users d ++ us) (credentials d ++ cs) rs au).
Proof.
  split; intros x Hx; exists x; cbn; (split; [apply elem_of_app; by left|reflexivity]).
Qed.

Lemma insertUser_Ok id email time d n d' :
  insertUser id email time d = Ok (n, d') → well_formed d → canonical statuses status_active →
  let u := User id "user" (Some email) None "K1" "active" None time None in
  d' = Db (users d ++ [u]) (credentials d) (user_roles d) (db_audit d) ∧ well_formed d' ∧
  user_in d id = None ∧ kept d d'.
Proof.
  intros Hst W Hcan u. unfold insertUser, with_users, one_row in Hst.
  apply bind_Ok_iff in Hst as ([m t] & Hu & Hst). injection Hst as <- <-.
  apply bind_Ok_iff in Hu as (t1 & Hu & Ht). injection Ht as <- <-.
  apply insert_unique_Ok in Hu as [Hu ->]. fold u in Hu |- *.
  split; [done|]. split; [|split].
  - destruct W as [W1 W2 W3 W4 W5 W6 W7]. split; try done; cbn [users].
    + apply distinct_snoc; [done|]. intros s Hs. rewrite clash_sym_user. by apply Hu.
    + apply Forall_app_2; [done|]. constructor; [|done]. split; [|done].
      by intros w ->%list_elem_of_singleton.
    + apply (Forall_impl _ _ _ W7). intros r (y & Hy & Hry). exists y. split; [apply elem_of_app; by left|done].
  - unfold user_in. rewrite where_none; [done|]. intros s Hs. specialize (Hu s Hs).
    unfold user_clash in Hu. apply orb_false_iff in Hu as [Hu _]. rewrite sql_eq_sym. exact Hu.
  - pose proof (kept_grow d [u] [] (user_roles d) (db_audit d)) as K. by rewrite app_nil_r in K.
Qed.

Lemma insertCredential_Ok id username hash time d n d' :
  insertCredential id username hash time d = Ok (n, d') → well_formed d → canonical statuses status_active →
  let c := Credential id username hash 1 "active" time None time None in
  d' = Db (users d) (credentials d ++ [c]) (user_roles d) (db_audit d) ∧ well_formed d' ∧
  credential_in d id = None ∧ kept d d'.
Proof.
  intros Hst W Hcan c. unfold insertCredential, with_credentials, one_row in Hst.
  destruct (references id d); [|done].
  apply bind_Ok_iff in Hst as ([m t] & Hu & Hst). injection Hst as <- <-.
  apply bind_Ok_iff in Hu as (t1 & Hu & Ht). injection Ht as <- <-.
  apply insert_unique_Ok in Hu as [Hu ->]. fold c in Hu |- *.
  split; [done|]. split; [|split].
  - destruct W as [W1 W2 W3 W4 W5 W6 W7]. split; try done; cbn [credentials].
    + apply distinct_snoc; [done|]. intros s Hs. rewrite clash_sym_credential. by apply Hu.
    + apply Forall_app_2; [done|]. constructor; [|done]. split; [done|]. cbn. unfold MAX_SESSION_VERSION. lia.
  - unfold credential_in. rewrite where_none; [done|]. intros s Hs. specialize (Hu s Hs).
    unfold credential_clash in Hu. apply orb_false_iff in Hu as [Hu _]. rewrite sql_eq_sym. exact Hu.
  - pose proof (kept_grow d [] [c] (user_roles d) (db_audit d)) as K. by rewrite app_nil_r in K.
Qed.

Lemma roles_step d rs au : kept d (Db (users d) (credentials d) rs au).
Proof. pose proof (kept_grow d [] [] rs au) as K. by rewrite !app_nil_r in K. Qed.

Lemma insertRole_Ok id user role granted time d n d' :
  insertRole id user role granted time d = Ok (n, d') → well_formed d → canonical [ADMIN_ROLE] role →
  ∃ r, d' = Db (users d) (credentials d) (user_roles d ++ [r]) (db_audit d) ∧
    role_code r = role ∧ r_user_id r = user ∧ well_formed d'.
Proof.
  intros Hst W Hcan. unfold insertRole, with_roles, one_row in Hst.
  destruct (references user d) eqn:Href; [|done].
  apply bind_Ok_iff in Hst as ([m t] & Hu & Hst). injection Hst as <- <-.
  apply bind_Ok_iff in Hu as (t1 & Hu & Ht). injection Ht as <- <-.
  apply insert_unique_Ok in Hu as [Hu ->]. eexists. split; [done|]. split; [done|]. split; [done|].
  destruct W as [W1 W2 W3 W4 W5 W6 W7]. split; try done; cbn [user_roles].
  - apply distinct_snoc; [done|]. intros s Hs. rewrite clash_sym_role. by apply Hu.
  - apply Forall_app_2; [done|]. by constructor.
  - apply Forall_app_2; [done|]. constructor; [|done]. unfold references in Href.
    apply existsb_exists in Href as (u & Hu' & Hr). exists u. split; [by apply list_elem_of_In|done].
Qed.

Lemma deleteRoles_Ok id time d n d' :
  deleteRoles id time d = Ok (n, d') → well_formed d →
  d' = Db (users d) (credentials d) (where_ (fun r => negb (sql_eq (r_user_id r) id)) (user_roles d)) (db_audit d) ∧
  well_formed d'.
Proof.
  intros Hst W. unfold deleteRoles, with_roles, delete_where in Hst. injection Hst as <- <-.
  assert (filter (fun r => sql_eq (r_user_id r) id = false) (user_roles d) =
          where_ (fun r => negb (sql_eq (r_user_id r) id)) (user_roles d)) as ->.
  { unfold where_. apply list_filter_iff. intros r. by rewrite negb_true_iff. }
  split; [done|]. destruct W as [W1 W2 W3 W4 W5 W6 W7]. split; try done; cbn [user_roles].
  - by apply distinct_filter.
  - apply Forall_forall. intros r [_ Hr]%elem_of_where. rewrite Forall_forall in W6. by apply W6.
  - apply Forall_forall. intros r [_ Hr]%elem_of_where. rewrite Forall_forall in W7. by apply W7.
Qed.

(** An unknown identifier has no roles. *)
Lemma roles_of_nobody d id : well_formed d → user_in d id = None → roles_in d id = [].
Proof.
  intros W Hu. unfold roles_in. rewrite where_none; [done|]. intros r Hr.
  destruct (sql_eq (r_user_id r) id) eqn:E; [|done].
  destruct (proj1 (Forall_forall _ _) (wf_role_owners _ W) r Hr) as (u & Hin & Hru).
  rewrite (elem_user_in d u id W Hin) in Hu; [done|]. apply (sql_eq_both _ _ (r_user_id r)); [by rewrite sql_eq_sym|].
  by rewrite sql_eq_sym.
Qed.
(** ** Reads *)

Lemma credentials_of_eq d u id : sql_eq (u_id u) id = true →
  credentials_of d (u_id u) = where_ (fun c => sql_eq (c_user_id c) id) (credentials d).
Proof.
  intros E. apply where_ext. intros c _. apply bool_decide_ext. apply bool_decide_eq_true in E. by rewrite E.
Qed.

Lemma selectTarget_Ok id time d found d' :
  selectTargetForUpdate id time d = Ok (found, d') →
  d' = d ∧ head found = (fun u => Joined u (credential_in d id)) <$> user_in d id.
Proof.
  intros H. unfold selectTargetForUpdate in H. injection H as <- <-. split; [done|]. unfold user_in.
  destruct (where_ (fun u => sql_eq (u_id u) id) (users d)) as [|u us] eqn:E; [done|].
  assert (u ∈ u :: us) as Hu by left. rewrite <- E in Hu. apply elem_of_where in Hu as [Hu _].
  cbn [map mjoin list_join]. rewrite (credentials_of_eq d u id Hu). unfold credential_in. cbn [head fmap option_fmap option_map].
  by destruct (where_ (fun c => sql_eq (c_user_id c) id) (credentials d)) as [|c cs].
Qed.

Lemma count_others_Ok id time d k d' :
  countOtherActiveAdminsForUpdate id time d = Ok (k, d') →
  d' = d ∧ (well_formed d → 1 ≤ k → ∃ i a, sql_eq i id = false ∧ account_in d i = Some a ∧ isActiveAdmin a = true).
Proof.
  intros H. unfold countOtherActiveAdminsForUpdate in H. injection H as <- <-. split; [done|]. intros W Hk.
  destruct (where_ _ (active_admin_rows d)) as [|[[u c] r] l] eqn:E; [cbn in Hk; lia|].
  assert ((u, c, r) ∈ (u, c, r) :: l) as Hin by left. rewrite <- E in Hin. apply elem_of_where in Hin as [Hid Hin].
  apply negb_true_iff in Hid. cbn in Hid. unfold active_admin_rows in Hin.
  apply list_elem_of_bind in Hin as (u1 & Hin & Hu). apply list_elem_of_bind in Hin as (c1 & Hin & Hc).
  apply list_elem_of_bind in Hin as (r1 & Hin & Hr).
  destruct (_ && sql_eq (role_code r1) "admin") eqn:Ec in Hin; [|by apply elem_of_nil in Hin].
  apply list_elem_of_singleton in Hin. injection Hin as -> -> ->. to_prop.
  pose proof (wf_valid_users _ W) as Vu. pose proof (wf_valid_credentials _ W) as Vc. pose proof (wf_valid_roles _ W) as Vr.
  destruct (proj1 (Forall_forall _ _) Vu u1 Hu) as [Vk Vs].
  destruct (proj1 (Forall_forall _ _) Vc c1 Hc) as [Vcs _]. pose proof (proj1 (Forall_forall _ _) Vr r1 Hr) as Vr1.
  assert (u_kind u1 = "user") as Ek by (apply Vk; [left|done]).
  assert (u_status u1 = "active") as Es by (apply Vs; [left|done]).
  assert (c_status c1 = "active") as Ecs by (apply Vcs; [left|done]).
  assert (role_code r1 = "admin") as Er by (apply Vr1; [left|done]).
  exists (u_id u1). eexists. split; [done|]. unfold account_in.
  rewrite (elem_user_in d u1) by (done || apply sql_eq_refl). rewrite (elem_credential_in d c1) by done.
  cbn. split; [done|]. unfold isActiveAdmin. cbn. rewrite Ek, Es, Ecs. cbn.
  apply bool_decide_eq_true. apply elem_roles_in. eauto.
Qed.

(** Roles of the target replaced, and of everybody else kept. *)
Lemma roles_replaced d T (r : RoleRow) us cs au i :
  sql_eq (r_user_id r) T = true →
  roles_in (Db us cs (where_ (fun r => negb (sql_eq (r_user_id r) T)) (user_roles d) ++ [r]) au) i =
  if sql_eq i T then [role_code r] else roles_in d i.
Proof.
  intros Hr. unfold roles_in. cbn [user_roles]. rewrite where_app.
  assert (∀ x, sql_eq x i = true → sql_eq x T = sql_eq i T) as Hx by (intros x Hxi; symmetry; by apply sql_eq_trans).
  destruct (sql_eq i T) eqn:E.
  - rewrite where_none.
    + rewrite app_nil_l. unfold where_. rewrite filter_cons, decide_True; [reflexivity|]. by apply (sql_eq_both _ _ T).
    + intros x [Hx1 _]%elem_of_where. apply negb_true_iff in Hx1.
      destruct (sql_eq (r_user_id x) i) eqn:E2; [|done]. by rewrite Hx in Hx1.
  - assert (where_ (fun x => sql_eq (r_user_id x) i) [r] = []) as ->.
    { apply where_none. intros x ->%list_elem_of_singleton. destruct (sql_eq (r_user_id r) i) eqn:E2; [|done].
      by rewrite Hx in Hr. }
    rewrite app_nil_r. f_equal. f_equal. unfold where_. apply list_filter_filter_l.
    intros x Hxi. by rewrite (Hx _ Hxi).
Qed.
End Effects.
