(* ===== verification/UserLifecycle.v ===== *)
(** * The operations of user administration

    [createMysqlUserAdministration] of [src/adapters/mysqlUserAdministration.ts]: create,
    update, activate, reset and close, each in one transaction that is audited or not
    made. *)

From S2P Require Import Prelude JsText CanonicalJson Scoring Sql AuditChain Credentials UserAdmin UserStore.

Local Open Scope string_scope.
Local Open Scope list_scope.
#[global] Open Scope Z_scope.

(** The injected hashing primitive: its salt comes from the number of the call. *)
Class PasswordHasher : Type := {
  hash_password : nat → string → PasswordIdentityContext → Prelude.result CredentialError string;
}.

Notation admin := (Sql UserDb UserAdminError).

Section Operations.
Context `{P : Platform, C : Collation, M : CaseMapping, H : PasswordHasher}.

Definition read {A} (st : statement A) : admin A := catching (request st) (fun _ => fault readFailed).

Definition write (st : statement nat) (expected : nat) : admin unit :=
  n ← catching (request st) (fun e => match e with
        | DuplicateEntry => refusal identifierConflict | Refused => fault writeFailed end);
  lift (throw_if (negb (n =? expected)%nat) (fault writeCountUnexpected)).

Definition appendAudit (event : AuditEvent) (eventId : string) : admin AuditWriteMode :=
  catching (recordAuditEventInTransaction event eventId) (fun _ => fault auditFailed).

Definition readAccount (targetUserId : string) : admin (option ManagedAccount) :=
  found ← read (selectTargetForUpdate targetUserId);
  match found with
  | [] => mret None
  | row :: _ =>
      codes ← read (selectTargetRolesForUpdate targetUserId);
      version ← (match j_credential row with
                 | None => mret None
                 | Some c => v ← lift (requireSessionVersion (Some (session_version c))); mret (Some v)
                 end : admin (option Z));
      mret (Some {| userId := u_id (j_user row); kind := u_kind (j_user row);
                    userStatus := u_status (j_user row); email := u_email (j_user row);
                    username := username_normalized <$> j_credential row;
                    credentialStatus := c_status <$> j_credential row;
                    sessionVersion := version; roles := codes |})
  end.

Definition countOtherActiveAdmins (targetUserId : string) : admin Z :=
  n ← read (countOtherActiveAdminsForUpdate targetUserId);
  lift (if n <? 0 then Throw (fault stateMalformed) else Ok n).

Definition hashForStorage (password : string) (identity : PasswordIdentityContext) : admin string :=
  fun env n d =>
    (match hash_password n password identity with
     | Ok hashed => requireStorablePasswordHash hashed
     | Throw e => if bool_decide (cred_code e = PASSWORD_POLICY) then Throw (inputError passwordPolicy [])
                  else Throw (fault hashingFailed)
     end, (S n, d)).

(** The event of an operation, with its generated identifiers. *)
Definition audited (action : UserAdminAuditAction) (actor target : string) (before : option string) (after : string)
    : admin AuditWriteMode :=
  correlation ← newId; at_ ← now; eventId ← newId;
  appendAudit (buildUserAdministrationAuditEvent action actor target before after correlation at_) eventId.

Definition transaction {A} : admin (TransactionOutcome A) → admin A :=
  inTransaction (fault unexpected) (fault commitFailed).

(** *** Create

    The result repeats the role that was asked for; it is left out here. *)

Definition create_body (actorUserId username email role password : string)
    : admin (TransactionOutcome UserAdminChangeResult) :=
  usernameOwner ← read (selectUsernameOwnerForUpdate username);
  _ ← lift (throw_if (negb (bool_decide (usernameOwner = []))) (refusal usernameTaken));
  emailOwner ← read (selectEmailOwnerForUpdate email);
  _ ← lift (throw_if (negb (bool_decide (emailOwner = []))) (refusal emailTaken));
  passwordHashValue ← hashForStorage password (Identity (Some username) (Some email));
  userId ← newId;
  _ ← write (insertUser userId email) 1;
  _ ← write (insertCredential userId username passwordHashValue) 1;
  roleId ← newId;
  _ ← write (insertRole roleId userId role actorUserId) 1;
  mode ← audited USER_ACCOUNT_CREATED actorUserId userId None
           (userLifecycleHash (Facts userId status_active status_active [role] 1));
  mret (Outcome true (Changed userId USER_ACCOUNT_CREATED true 1 (Some mode))).

Definition createUser (actor username email password role : value) : admin UserAdminChangeResult :=
  actorUserId ← lift (requireActorUserId actor);
  username ← lift (requireUsername username);
  email ← lift (requireEmail email);
  role ← lift (requireAssignableRole role);
  password ← lift (requireAcceptablePassword password (Identity (Some username) (Some email)));
  transaction (create_body actorUserId username email role password).

(** *** Update *)

Definition manageable (targetUserId : string) : admin ManagedAccount :=
  account ← readAccount targetUserId; lift (requireManageableAccount account).

(** The guards against locking oneself or everybody out. *)
Definition guarded (actorUserId targetUserId : string) (account : ManagedAccount) (self : UserAdminRefusalCode) : admin unit :=
  _ ← lift (refuseSelfTarget actorUserId targetUserId self);
  others ← countOtherActiveAdmins targetUserId;
  lift (refuseLastActiveAdmin account others).

(** [if (owner && owner.user_id !== targetUserId) throw ...] *)
Definition owned_by (targetUserId : string) (owner : list string) (code : UserAdminRefusalCode) : admin unit :=
  lift (match owner with
        | o :: _ => throw_if (negb (String.eqb o targetUserId)) (refusal code)
        | [] => Ok tt
        end).

Definition when_ (b : bool) (m : admin unit) : admin unit := if b then m else mret tt.

Definition update_body (actorUserId targetUserId newUsername newEmail role : string)
    : admin (TransactionOutcome UserAdminChangeResult) :=
  account ← manageable targetUserId;
  _ ← when_ (removesAdminRole account role) (guarded actorUserId targetUserId account selfDemote);
  let usernameChanged := negb (bool_decide (Some newUsername = username account)) in
  let emailChanged := negb (bool_decide (Some newEmail = email account)) in
  let roleChanged := negb (bool_decide (roles account = [role])) in
  _ ← when_ usernameChanged (
    owner ← read (selectUsernameOwnerForUpdate newUsername);
    _ ← owned_by targetUserId owner usernameTaken;
    write (updateUsername newUsername targetUserId (username account)) 1);
  _ ← when_ emailChanged (
    owner ← read (selectEmailOwnerForUpdate newEmail);
    _ ← owned_by targetUserId owner emailTaken;
    write (updateEmail newEmail targetUserId) 1);
  _ ← when_ roleChanged (
    _ ← write (deleteRoles targetUserId) (length (roles account));
    roleId ← newId;
    write (insertRole roleId targetUserId role actorUserId) 1);
  let before := accountLifecycleFacts account in
  mode ← audited USER_ACCOUNT_UPDATED actorUserId targetUserId (Some (userLifecycleHash before))
           (userLifecycleHash (Facts (fact_userId before) (fact_userStatus before)
              (fact_credentialStatus before) [role] (fact_sessionVersion before)));
  mret (Outcome true (Changed targetUserId USER_ACCOUNT_UPDATED (usernameChanged || emailChanged || roleChanged)
    (fact_sessionVersion before) (Some mode))).

Definition updateUser (actor target username email role : value) : admin UserAdminChangeResult :=
  actorUserId ← lift (requireActorUserId actor);
  targetUserId ← lift (requireTargetUserId target);
  username ← lift (requireUsername username);
  email ← lift (requireEmail email);
  role ← lift (requireAssignableRole role);
  transaction (update_body actorUserId targetUserId username email role).

(** *** Activation *)

Definition activation_action (active : bool) : UserAdminAuditAction :=
  if active then USER_ACCOUNT_ACTIVATED else USER_ACCOUNT_DEACTIVATED.

Definition activation_body (actorUserId targetUserId : string) (active : bool)
    : admin (TransactionOutcome UserAdminChangeResult) :=
  account ← manageable targetUserId;
  _ ← when_ (negb active) (guarded actorUserId targetUserId account selfDeactivate);
  let desired := if active then status_active else status_disabled in
  currentVersion ← lift (requireSessionVersion (sessionVersion account));
  if String.eqb (userStatus account) desired && bool_decide (credentialStatus account = Some desired) then
    mret (Outcome false (Changed targetUserId (activation_action active) false currentVersion None))
  else
    resultingVersion ← lift (nextSessionVersion currentVersion);
    _ ← write ((if active then enableCredential else disableCredential) targetUserId) 1;
    _ ← when_ (negb (String.eqb (userStatus account) desired))
          (write ((if active then enableUser else disableUser) targetUserId) 1);
    let before := accountLifecycleFacts account in
    mode ← audited (activation_action active) actorUserId targetUserId (Some (userLifecycleHash before))
             (userLifecycleHash (Facts (fact_userId before) desired desired (fact_roles before) resultingVersion));
    mret (Outcome true (Changed targetUserId (activation_action active) true resultingVersion (Some mode))).

Definition setUserActivation (actor target active : value) : admin UserAdminChangeResult :=
  actorUserId ← lift (requireActorUserId actor);
  targetUserId ← lift (requireTargetUserId target);
  active ← lift (requireActivationFlag active);
  transaction (activation_body actorUserId targetUserId active).

(** *** Password reset *)

Definition reset_body (actorUserId targetUserId : string) (password : value)
    : admin (TransactionOutcome UserAdminChangeResult) :=
  account ← manageable targetUserId;
  let identity := Identity (username account) (email account) in
  accepted ← lift (requireAcceptablePassword password identity);
  version ← lift (requireSessionVersion (sessionVersion account));
  resultingVersion ← lift (nextSessionVersion version);
  passwordHashValue ← hashForStorage accepted identity;
  _ ← write (updatePassword passwordHashValue targetUserId) 1;
  let before := accountLifecycleFacts account in
  mode ← audited USER_ACCOUNT_PASSWORD_RESET actorUserId targetUserId (Some (userLifecycleHash before))
           (userLifecycleHash (Facts (fact_userId before) (fact_userStatus before)
              (fact_credentialStatus before) (fact_roles before) resultingVersion));
  mret (Outcome true (Changed targetUserId USER_ACCOUNT_PASSWORD_RESET true resultingVersion (Some mode))).

Definition resetUserPassword (actor target password : value) : admin UserAdminChangeResult :=
  actorUserId ← lift (requireActorUserId actor);
  targetUserId ← lift (requireTargetUserId target);
  _ ← lift (requireAcceptablePassword password (Identity None None));
  transaction (reset_body actorUserId targetUserId password).

(** *** Tombstone *)

Definition tombstone_body (actorUserId targetUserId : string)
    : admin (TransactionOutcome UserAdminChangeResult) :=
  account ← manageable targetUserId;
  _ ← guarded actorUserId targetUserId account selfTombstone;
  version ← lift (requireSessionVersion (sessionVersion account));
  resultingVersion ← lift (nextSessionVersion version);
  random ← randomText;
  sentinel ← lift (buildRevokedPasswordSentinel random);
  _ ← write (tombstoneCredential sentinel targetUserId) 1;
  _ ← write (tombstoneUser_stmt targetUserId) 1;
  let before := accountLifecycleFacts account in
  mode ← audited USER_ACCOUNT_TOMBSTONED actorUserId targetUserId (Some (userLifecycleHash before))
           (userLifecycleHash (Facts (fact_userId before) status_tombstoned status_tombstoned
              (fact_roles before) resultingVersion));
  mret (Outcome true (Changed targetUserId USER_ACCOUNT_TOMBSTONED true resultingVersion (Some mode))).

Definition tombstoneUser (actor target : value) : admin UserAdminChangeResult :=
  actorUserId ← lift (requireActorUserId actor);
  targetUserId ← lift (requireTargetUserId target);
  transaction (tombstone_body actorUserId targetUserId).
End Operations.
