(* ===== verification/UserSafety.v ===== *)
(** * What user administration guarantees

    The operations refine transitions of one account that leave every other
    account as it was; by rule induction over any sequence of operations the
    tables stay well-formed, administered, and faithful to their past. *)

From S2P Require Import Prelude JsText CanonicalJson Scoring Sql AuditChain Credentials UserAdmin UserStore UserEffects UserLifecycle.

Local Open Scope string_scope.
Local Open Scope list_scope.
#[global] Open Scope Z_scope.

Section Requests.
Context `{P : Platform, C : Collation, M : CaseMapping, H : PasswordHasher}.
Implicit Types (d : UserDb) (env : environment).

Lemma read_Ok {A} (st : statement A) env n d a s :
  read st env n d = (Ok a, s) → ∃ z d', st z d = Ok (a, d') ∧ s = (S n, d').
Proof. intros (_ & d' & Hst & ->)%catching_Ok%request_Ok. eauto. Qed.

Lemma write_Ok (st : statement nat) k env n d u s :
  write st k env n d = (Ok u, s) → ∃ z d', st z d = Ok (k, d') ∧ s = (S n, d').
Proof.
  unfold write. intros (m & n1 & d1 & H1 & H2)%sql_bind_Ok. apply catching_Ok, request_Ok in H1 as (_ & d' & H1 & E).
  injection E as -> ->. apply lift_Ok in H2 as [H2 ->]. apply throw_if_Ok, negb_false_iff, Nat.eqb_eq in H2. subst m. eauto.
Qed.

Lemma hash_Ok p i env n d h s : hashForStorage p i env n d = (Ok h, s) → s = (S n, d).
Proof. unfold hashForStorage. by intros [= _ <-]. Qed.

Lemma when_Ok (b : bool) (m : admin unit) env n d u n' d' :
  when_ b m env n d = (Ok u, (n', d')) → (b = false ∧ d' = d) ∨ (b = true ∧ m env n d = (Ok u, (n', d'))).
Proof. destruct b; cbn; [by right|]. intros [_ [= -> ->]]%ret_Ok. by left. Qed.

(** A version read through the driver is in the range of its column. *)
Definition version_in_range (v : Z) : Prop := 1 ≤ v ≤ MAX_SESSION_VERSION.

Lemma requireSessionVersion_Ok o v : requireSessionVersion o = Ok v → o = Some v ∧ version_in_range v.
Proof.
  unfold requireSessionVersion, version_in_range. destruct o as [w|]; [|done].
  destruct (_ || _) eqn:E; [done|]. intros [= ->]. to_prop. split; [done|lia].
Qed.

Lemma nextSessionVersion_Ok v w : nextSessionVersion v = Ok w → w = v + 1 ∧ v < MAX_SESSION_VERSION.
Proof. unfold nextSessionVersion. destruct (Z.leb_spec MAX_SESSION_VERSION v); [done|]. by intros [= <-]. Qed.

Lemma readAccount_Ok T env n d o n' d' :
  readAccount T env n d = (Ok o, (n', d')) → d' = d ∧ o = account_in d T.
Proof.
  unfold readAccount. intros (found & n1 & d1 & H1 & H2)%sql_bind_Ok.
  apply read_Ok in H1 as (z & d1' & H1 & [= -> ->]). apply selectTarget_Ok in H1 as [-> Hh].
  unfold account_in. destruct found as [|row rows]; cbn in Hh.
  - apply ret_Ok in H2 as [<- [= -> ->]]. by destruct (user_in d T).
  - destruct (user_in d T) as [u|]; [|done]. injection Hh as ->.
    apply sql_bind_Ok in H2 as (codes & n2 & d2 & H2 & H3). apply read_Ok in H2 as (z2 & d2' & H2 & [= -> ->]).
    unfold selectTargetRolesForUpdate in H2. injection H2 as <- <-.
    apply sql_bind_Ok in H3 as (v & n3 & d3 & H3 & H4). apply ret_Ok in H4 as [<- [= -> ->]].
    cbn [j_credential j_user] in *. destruct (credential_in d T) as [c|].
    + apply sql_bind_Ok in H3 as (w & n4 & d4 & H4 & H5). apply lift_Ok in H4 as [H4 [= -> ->]].
      apply ret_Ok in H5 as [<- [= -> ->]]. apply requireSessionVersion_Ok in H4 as [[= <-] _]. done.
    + apply ret_Ok in H3 as [<- [= -> ->]]. done.
Qed.

(** An account that an operation may change. *)
Definition open_account (a : ManagedAccount) : Prop :=
  kind a = MANAGEABLE_USER_KIND ∧ userStatus a ≠ status_tombstoned ∧
  ∃ s, credentialStatus a = Some s ∧ s ≠ status_tombstoned.

Lemma manageable_Ok T env n d a n' d' :
  manageable T env n d = (Ok a, (n', d')) → d' = d ∧ account_in d T = Some a ∧ open_account a.
Proof.
  unfold manageable. intros (o & n1 & d1 & H1 & H2)%sql_bind_Ok. apply readAccount_Ok in H1 as [-> ->].
  apply lift_Ok in H2 as [H2 [= -> ->]]. split; [done|]. unfold requireManageableAccount in H2.
  destruct (account_in d T) as [b|]; [|done].
  destruct (String.eqb_spec (kind b) MANAGEABLE_USER_KIND) as [Hk|]; [|done]. cbn in H2.
  destruct (credentialStatus b) as [s|] eqn:Es; [|done].
  destruct (isTombstoned b) eqn:Et; [done|]. injection H2 as ->. split; [done|].
  unfold isTombstoned in Et. to_prop. split; [done|]. split; [by apply String.eqb_neq|].
  exists s. split; [done|]. congruence.
Qed.

(** Some other identifier is an active administrator. *)
Definition other_admin d (T : string) : Prop :=
  ∃ i b, sql_eq i T = false ∧ account_in d i = Some b ∧ isActiveAdmin b = true.

Lemma guarded_Ok actor T a code env n d u n' d' :
  guarded actor T a code env n d = (Ok u, (n', d')) → well_formed d →
  d' = d ∧ actor ≠ T ∧ (isActiveAdmin a = true → other_admin d T).
Proof.
  intros Hg W. unfold guarded in Hg. apply sql_bind_Ok in Hg as ([] & n1 & d1 & H1 & Hg).
  apply lift_Ok in H1 as [H1 [= -> ->]]. apply throw_if_Ok, String.eqb_neq in H1.
  apply sql_bind_Ok in Hg as (k & n2 & d2 & H2 & Hg). unfold countOtherActiveAdmins in H2.
  apply sql_bind_Ok in H2 as (k' & n3 & d3 & H3 & H2). apply read_Ok in H3 as (z & d3' & H3 & [= -> ->]).
  apply count_others_Ok in H3 as [-> Hk]. apply lift_Ok in H2 as [H2 [= -> ->]].
  apply lift_Ok in Hg as [Hg [= -> ->]]. split; [done|]. split; [done|]. intros Ha.
  apply throw_if_Ok in Hg. rewrite Ha in Hg. cbn in Hg. apply Z.ltb_ge in Hg.
  destruct (k' <? 0); [done|]. injection H2 as ->. by apply Hk.
Qed.
End Requests.

(** ** The specification: transitions of one account *)

Definition with_state (a : ManagedAccount) (us : string) (cs : option string) (v : option Z) : ManagedAccount :=
  {| userId := userId a; kind := kind a; userStatus := us; email := email a; username := username a;
     credentialStatus := cs; sessionVersion := v; roles := roles a |}.

Definition with_identity (a : ManagedAccount) (name mail role : string) : ManagedAccount :=
  {| userId := userId a; kind := kind a; userStatus := userStatus a; email := Some mail; username := Some name;
     credentialStatus := credentialStatus a; sessionVersion := sessionVersion a; roles := [role] |}.

(** What is asked for, its input validated: the stored hash of a new password comes with it. *)
Inductive change : Type :=
| Creation (name mail role hash : string)
| Update (name mail role : string)
| Activation (active : bool)
| Reset (hash : string)
| Closing (sentinel : string).

Definition action_of (ch : change) : UserAdminAuditAction :=
  match ch with
  | Creation _ _ _ _ => USER_ACCOUNT_CREATED
  | Update _ _ _ => USER_ACCOUNT_UPDATED
  | Activation active => activation_action active
  | Reset _ => USER_ACCOUNT_PASSWORD_RESET
  | Closing _ => USER_ACCOUNT_TOMBSTONED
  end.

(** The hash that the change leaves. *)
Definition hash_after (ch : change) (old : option string) : option string :=
  match ch with
  | Creation _ _ _ hash | Reset hash | Closing hash => Some hash
  | Update _ _ _ | Activation _ => old
  end.

(** What an actor may make of an account: nobody deactivates, closes or demotes the
    identifier they act under, only an open account changes, and every change of its
    state or password starts a new generation of sessions. *)
Inductive account_change (actor : string)
    : change → string → option ManagedAccount → ManagedAccount → Prop :=
| created id name mail role hash :
    role ∈ ASSIGNABLE_ROLES →
    account_change actor (Creation name mail role hash) id None
      {| userId := id; kind := MANAGEABLE_USER_KIND; userStatus := status_active; email := Some mail;
         username := Some name; credentialStatus := Some status_active; sessionVersion := Some 1; roles := [role] |}
| updated T a name mail role :
    open_account a → role ∈ ASSIGNABLE_ROLES → (removesAdminRole a role = true → actor ≠ T) →
    account_change actor (Update name mail role) T (Some a) (with_identity a name mail role)
| activated T a v :
    open_account a → sessionVersion a = Some v → v < MAX_SESSION_VERSION →
    account_change actor (Activation true) T (Some a)
      (with_state a status_active (Some status_active) (Some (v + 1)))
| deactivated T a v :
    open_account a → sessionVersion a = Some v → v < MAX_SESSION_VERSION → actor ≠ T →
    account_change actor (Activation false) T (Some a)
      (with_state a status_disabled (Some status_disabled) (Some (v + 1)))
| password_reset T a v hash :
    open_account a → sessionVersion a = Some v → v < MAX_SESSION_VERSION →
    account_change actor (Reset hash) T (Some a)
      (with_state a (userStatus a) (credentialStatus a) (Some (v + 1)))
| tombstoned T a v sentinel :
    open_account a → sessionVersion a = Some v → v < MAX_SESSION_VERSION → actor ≠ T →
    account_change actor (Closing sentinel) T (Some a)
      (with_state a status_tombstoned (Some status_tombstoned) (Some (v + 1))).

(** The next request of a body that returned. *)
Ltac next_lift Hb x R :=
  let n := fresh "n" in let d := fresh "d" in let E := fresh "E" in
  apply sql_bind_Ok in Hb as (x & n & d & R & Hb); apply lift_Ok in R as [R E]; injection E as -> ->.
Ltac next_write Hb d' R :=
  let u := fresh "u" in let n := fresh "n" in let d := fresh "d" in let z := fresh "z" in let E := fresh "E" in
  apply sql_bind_Ok in Hb as (u & n & d & R & Hb); apply write_Ok in R as (z & d' & R & E); injection E as -> ->.
Ltac next_account Hb a Ha Hopen :=
  let R := fresh "R" in let n := fresh "n" in let d := fresh "d" in
  apply sql_bind_Ok in Hb as (a & n & d & R & Hb); apply manageable_Ok in R as (-> & Ha & Hopen).
Ltac next_audited Hb mode R :=
  let n := fresh "n" in let d := fresh "d" in let E := fresh "E" in
  apply sql_bind_Ok in Hb as (mode & n & d & R & Hb); apply ret_Ok in Hb as [<- E]; injection E as -> ->.

Section Committed.
Context `{P : Platform, C : Collation, M : CaseMapping, H : PasswordHasher}.
Implicit Types (d : UserDb) (env : environment).

Definition account_hash (a : ManagedAccount) : string := userLifecycleHash (accountLifecycleFacts a).

(** The audit row of a change: who, what, whom, and the facts before and after. *)
Definition entry_for (actor : string) (action : UserAdminAuditAction) (T : string)
    (before : option ManagedAccount) (after : ManagedAccount) (r : AuditRow) : Prop :=
  log_action r = action_text action ∧ log_resource_type r = "kaudit_user" ∧ log_resource_id r = Some T ∧
  log_before_hash r = account_hash <$> before ∧ log_after_hash r = Some (account_hash after) ∧
  (is_chained r = true → log_actor_user_id r = Some actor).

(** The hash stored for an account. *)
Definition stored_hash d (T : string) : option string := password_hash <$> credential_in d T.

(** The committed effect of an operation. *)
Definition committed (actor : string) (ch : change) (res : UserAdminChangeResult) d d' : Prop :=
  let T := res_userId res in
  res_action res = action_of ch ∧ stored_hash d' T = hash_after ch (stored_hash d T) ∧
  ∃ a', account_change actor ch T (account_in d T) a' ∧
    account_in d' T = Some a' ∧ (∀ i, sql_eq i T = false → account_in d' i = account_in d i) ∧
    sessionVersion a' = Some (res_sessionVersion res) ∧
    ∃ r, audit_log (db_audit d') = audit_log (db_audit d) ++ [r] ∧
         entry_for actor (res_action res) T (account_in d T) a' r.

(** What the invariants need of one. *)
Definition safe d d' (T : string) (after : ManagedAccount) : Prop :=
  well_formed d' ∧ kept d d' ∧
  (∀ a, account_in d T = Some a → isActiveAdmin a = true → isActiveAdmin after = true ∨ other_admin d T).

Lemma account_in_set t d i : account_in (set_audit t d) i = account_in d i.
Proof. done. Qed.
Lemma well_formed_set t d : well_formed d → well_formed (set_audit t d).
Proof. by intros []. Qed.
Lemma kept_set t d : kept d (set_audit t d).
Proof. apply (roles_step d (user_roles d) t). Qed.

Lemma audited_Ok action actor T before after (a' : ManagedAccount) env n d mode n' d' :
  audited action actor T (account_hash <$> before) after env n d = (Ok mode, (n', d')) →
  after = account_hash a' →
  some_recording d d' ∧ ∃ t, d' = set_audit t d ∧
  ∃ r, audit_log t = audit_log (db_audit d) ++ [r] ∧ entry_for actor action T before a' r.
Proof.
  intros Ha ->. unfold audited in Ha. apply sql_bind_Ok in Ha as (c & n1 & d1 & H1 & Ha).
  apply newId_Ok in H1 as [_ [= -> ->]]. apply sql_bind_Ok in Ha as (z & n2 & d2 & H2 & Ha).
  apply now_Ok in H2 as [_ [= -> ->]]. apply sql_bind_Ok in Ha as (e & n3 & d3 & H3 & Ha).
  apply newId_Ok in H3 as [_ [= -> ->]]. unfold appendAudit in Ha. apply catching_Ok in Ha.
  split; [by eexists _, _, _, _, _, _|]. apply record_Ok in Ha as (_ & -> & _). eexists. split; [done|].
  destruct mode; cbn; eexists; (split; [done|]); done.
Qed.

(** From the tables before the audit to the committed effect. *)
Lemma committed_intro actor ch res d d1 d' a' mode env n n' before :
  let T := res_userId res in
  account_in d T = before → account_change actor ch T before a' →
  res_action res = action_of ch → stored_hash d1 T = hash_after ch (stored_hash d T) →
  account_in d1 T = Some a' → (∀ i, sql_eq i T = false → account_in d1 i = account_in d i) →
  sessionVersion a' = Some (res_sessionVersion res) → db_audit d1 = db_audit d →
  safe d d1 T a' →
  audited (res_action res) actor T (account_hash <$> before) (account_hash a') env n d1 = (Ok mode, (n', d')) →
  committed actor ch res d d' ∧ safe d d' T a' ∧ (verifies (db_audit d) → verifies (db_audit d')).
Proof.
  intros T Eb Hc Hact Hh Ha Ho Hv Hau (W & K & Hs) Hd. destruct (audited_Ok _ _ _ _ _ a' _ _ _ _ _ _ Hd eq_refl) as (Hr & t & -> & r & Hl & He).
  split; [|split].
  - split; [done|]. split; [done|]. exists a'. fold T. rewrite Eb. split; [done|]. split; [done|]. split; [done|]. split; [done|].
    exists r. cbn [db_audit set_audit UserDb_audit]. rewrite Hl, Hau. done.
  - split; [by apply well_formed_set|]. split; [|done]. transitivity d1; [done|apply kept_set].
  - rewrite <- Hau. intros Hver. destruct Hr as [event Hr]. by apply (record_verifies event d1 _ Hr) in Hver as [Hver _].
Qed.
(** ** The steps of an operation *)
Context `{V : !Vocabulary}.

Lemma canonical_status s : s ∈ statuses → canonical statuses s.
Proof. intros Hs w Hw E. by apply statuses_apart. Qed.

Lemma open_credential_at T c : open_credential T c = true → sql_eq (c_user_id c) T = true.
Proof. intros Ho. unfold open_credential in Ho. by to_prop. Qed.

Lemma open_credential_status T c : open_credential T c = true → c_status c ≠ status_tombstoned.
Proof.
  intros Ho E. unfold open_credential in Ho. to_prop. rewrite E in *. by rewrite sql_eq_refl in *.
Qed.

Lemma open_user_at T u : open_user T u = true → sql_eq (u_id u) T = true.
Proof. intros Ho. unfold open_user in Ho. by to_prop. Qed.

Lemma open_user_status T u : open_user T u = true → u_status u ≠ status_tombstoned.
Proof. intros Ho E. unfold open_user in Ho. to_prop. rewrite E in *. by rewrite sql_eq_refl in *. Qed.

(** A write that starts a new generation of the target. *)
Lemma generation_step f st hash T d d' a v :
  with_credentials (update_unique credential_clash (open_credential T) f (credentials d)) d = Ok (1%nat, d') →
  well_formed d → account_in d T = Some a → sessionVersion a = Some v → v < MAX_SESSION_VERSION →
  (∀ c, c_user_id (f c) = c_user_id c ∧ username_normalized (f c) = username_normalized c ∧
        session_version (f c) = session_version c + 1 ∧ c_status (f c) = st (c_status c) ∧
        password_hash (f c) = hash (password_hash c)) →
  (∀ s, canonical statuses s → canonical statuses (st s)) →
  account_in d' T = Some (with_state a (userStatus a) (st <$> credentialStatus a) (Some (v + 1))) ∧
  (∀ i, sql_eq i T = false → account_in d' i = account_in d i) ∧
  well_formed d' ∧ kept d d' ∧ db_audit d' = db_audit d ∧
  ∃ old, stored_hash d T = Some old ∧ stored_hash d' T = Some (hash old).
Proof.
  intros Hst W Ha Hv Hmax Hf Hcan.
  destruct (credential_update (open_credential T) f d T d' Hst W (open_credential_at T) (fun c => proj1 (Hf c)))
    as (c & Ec & HPc & Ec' & Ho & Eu & Er & Eau & Hwf & Hk).
  destruct (Hf c) as (F1 & F2 & F3 & F4 & F5). unfold account_in in *.
  assert (∀ i, user_in d' i = user_in d i) as Hui by (intros i; unfold user_in; by rewrite Eu).
  assert (∀ i, roles_in d' i = roles_in d i) as Hri by (intros i; unfold roles_in; by rewrite Er).
  rewrite Hui, Hri, Ec'. rewrite Ec in Ha. destruct (user_in d T) as [u|]; [|done]. injection Ha as <-.
  cbn in Hv. injection Hv as <-. split; [|split; [|split; [|split; [|split]]]].
  - cbn. f_equal. unfold view, with_state. cbn. by rewrite F2, F3, F4.
  - intros i Hi. by rewrite Hui, Hri, Ho.
  - apply Hwf. destruct (proj1 (Forall_forall _ _) (wf_valid_credentials _ W) c (proj1 (credential_in_elem _ _ _ Ec))) as [V1 V2].
    split; [rewrite F4; by apply Hcan|]. rewrite F3. lia.
  - apply Hk. split; [done|]. split; [lia|]. split; [lia|].
    intros E. by apply open_credential_status in HPc.
  - done.
  - exists (password_hash c). unfold stored_hash. rewrite Ec, Ec'. cbn. by rewrite F5.
Qed.

(** A write of the target's own row. *)
Lemma person_step f T d d' a :
  with_users (update_unique user_clash (open_user T) f (users d)) d = Ok (1%nat, d') →
  well_formed d → account_in d T = Some a →
  (∀ u, u_id (f u) = u_id u ∧ u_kind (f u) = u_kind u ∧ u_max_sensitivity_tier (f u) = u_max_sensitivity_tier u) →
  (∀ u, canonical statuses (u_status u) → canonical statuses (u_status (f u))) →
  ∃ u, view u (credential_in d T) (roles_in d T) = a ∧
  account_in d' T = Some (view (f u) (credential_in d T) (roles_in d T)) ∧
  (∀ i, sql_eq i T = false → account_in d' i = account_in d i) ∧
  well_formed d' ∧ kept d d' ∧ db_audit d' = db_audit d ∧ stored_hash d' T = stored_hash d T.
Proof.
  intros Hst W Ha Hf Hcan.
  destruct (user_update (open_user T) f d T d' Hst W (open_user_at T) (fun u => proj1 (Hf u)))
    as (u & Eu & HPu & Eu' & Ho & Ec & Er & Eau & Hwf & Hk).
  destruct (Hf u) as (F1 & F2 & F3). unfold account_in in *.
  assert (∀ i, credential_in d' i = credential_in d i) as Hci by (intros i; unfold credential_in; by rewrite Ec).
  assert (∀ i, roles_in d' i = roles_in d i) as Hri by (intros i; unfold roles_in; by rewrite Er).
  rewrite Hci, Hri, Eu'. rewrite Eu in Ha. injection Ha as <-. exists u.
  split; [done|]. split; [done|]. split; [|split; [|split; [|split]]].
  - intros i Hi. by rewrite Hci, Hri, Ho.
  - apply Hwf. destruct (proj1 (Forall_forall _ _) (wf_valid_users _ W) u (proj1 (user_in_elem _ _ _ Eu))) as [V1 V2].
    split; [by rewrite F2|by apply Hcan].
  - apply Hk. split; [done|]. split; [done|]. split; [done|]. intros E. by apply open_user_status in HPu.
  - done.
  - unfold stored_hash. by rewrite Hci.
Qed.

Lemma with_state_twice a us cs v us' cs' v' : with_state (with_state a us cs v) us' cs' v' = with_state a us' cs' v'.
Proof. done. Qed.

(** The status of the person, written when it is not the wanted one. *)
Lemma set_user_step st T z d d' a :
  set_user st T z d = Ok (1%nat, d') → st ∈ statuses → well_formed d → account_in d T = Some a →
  account_in d' T = Some (with_state a st (credentialStatus a) (sessionVersion a)) ∧
  (∀ i, sql_eq i T = false → account_in d' i = account_in d i) ∧
  well_formed d' ∧ kept d d' ∧ db_audit d' = db_audit d ∧ stored_hash d' T = stored_hash d T.
Proof.
  intros Hst Hs W Ha. unfold set_user in Hst. apply (person_step _ T d d' a) in Hst as (u & <- & E & Hrest); try done.
  intros u _. cbn. by apply canonical_status.
Qed.

(** ** The bodies *)

(** The account is as asked for already. *)
Definition already (res : UserAdminChangeResult) d : Prop :=
  auditMode res = None ∧ changed res = false ∧
  ∃ active a, res_action res = activation_action active ∧ account_in d (res_userId res) = Some a ∧
    let status := if active then status_active else status_disabled in
    userStatus a = status ∧ credentialStatus a = Some status ∧ sessionVersion a = Some (res_sessionVersion res).

(** What a committed body of an operation establishes. *)
Definition body_effect (actor : string) (asked : change → Prop) (o : TransactionOutcome UserAdminChangeResult) d d' : Prop :=
  if commit o then
    let res := outcome_value o in
    auditMode res ≠ None ∧ (∃ ch, asked ch ∧ committed actor ch res d d') ∧
    (∃ a', account_in d' (res_userId res) = Some a' ∧ safe d d' (res_userId res) a') ∧ (verifies (db_audit d) → verifies (db_audit d'))
  else already (outcome_value o) d.

Lemma body_effect_intro actor (asked : change → Prop) ch res d d1 d' a' mode env n n' before :
  let T := res_userId res in
  account_in d T = before → account_change actor ch T before a' →
  res_action res = action_of ch → stored_hash d1 T = hash_after ch (stored_hash d T) →
  account_in d1 T = Some a' → (∀ i, sql_eq i T = false → account_in d1 i = account_in d i) →
  sessionVersion a' = Some (res_sessionVersion res) → db_audit d1 = db_audit d →
  safe d d1 T a' → auditMode res = Some mode → asked ch →
  audited (res_action res) actor T (account_hash <$> before) (account_hash a') env n d1 = (Ok mode, (n', d')) →
  body_effect actor asked (Outcome true res) d d'.
Proof.
  intros T Eb Hc Hact Hh Ha Ho Hv Hau Hs Hm Hask Hd.
  destruct (committed_intro actor ch res d d1 d' a' mode env n n' before Eb Hc Hact Hh Ha Ho Hv Hau Hs Hd) as (H1 & H2 & H3).
  split; [cbn; by rewrite Hm|]. split; [by exists ch|]. split; [|done]. exists a'. split; [|done].
  destruct (audited_Ok _ _ _ _ _ a' _ _ _ _ _ _ Hd eq_refl) as (_ & t & -> & _). by rewrite account_in_set.
Qed.

Lemma facts_version a v : sessionVersion a = Some v → fact_sessionVersion (accountLifecycleFacts a) = v.
Proof. intros E. cbn. by rewrite E. Qed.

(** The guards of an operation that takes an administrator away. *)
Lemma lost_admin d T a (b : ManagedAccount) :
  account_in d T = Some a → (isActiveAdmin a = true → other_admin d T) →
  ∀ a0, account_in d T = Some a0 → isActiveAdmin a0 = true → isActiveAdmin b = true ∨ other_admin d T.
Proof. intros Ha Ho a0 Ha0 Hadm. right. apply Ho. congruence. Qed.

Lemma tombstone_effect actor T env n d o n' d' :
  tombstone_body actor T env n d = (Ok o, (n', d')) → well_formed d → body_effect actor (fun ch => ∃ random, ch = Closing (REVOKED_PASSWORD_SENTINEL_PREFIX +:+ random)) o d d' ∧
  res_userId (outcome_value o) = T.
Proof.
  intros Hb W. unfold tombstone_body in Hb. next_account Hb a Ha Hopen.
  apply sql_bind_Ok in Hb as (u1 & n2 & d2 & H2 & Hb). apply guarded_Ok in H2 as (-> & Hself & Hother); [|done].
  next_lift Hb v H3. apply requireSessionVersion_Ok in H3 as [Hv _].
  next_lift Hb w H4. apply nextSessionVersion_Ok in H4 as [-> Hmax].
  apply sql_bind_Ok in Hb as (rnd & n5 & d5 & H5 & Hb). apply randomText_Ok in H5 as [_ [= -> ->]].
  next_lift Hb sen H6. next_write Hb d7 H7. next_write Hb d8 H8. next_audited Hb mode H9.
  assert (sen = REVOKED_PASSWORD_SENTINEL_PREFIX +:+ rnd) as ->.
  { unfold buildRevokedPasswordSentinel, requireStorablePasswordHash in H6. destruct (_ || _); [done|]. by injection H6. }
  apply (generation_step _ (fun _ => status_tombstoned) (fun _ => REVOKED_PASSWORD_SENTINEL_PREFIX +:+ rnd) T d d7 a v)
    in H7 as (A7 & O7 & W7 & K7 & E7 & old & Hold & S7); try done.
  2: { intros s _. apply canonical_status. right; right; left. }
  destruct (set_user_step status_tombstoned T _ d7 d8 _ H8 ltac:(right; right; left) W7 A7)
    as (A8 & O8 & W8 & K8 & E8 & S8).
  pose proof Hopen as (Hk & Hus & s & Hs & Hss). rewrite Hs in A8. cbn in A8.
  split; [|done]. eapply (body_effect_intro actor _ (Closing (REVOKED_PASSWORD_SENTINEL_PREFIX +:+ rnd))
    (Changed T USER_ACCOUNT_TOMBSTONED true (v + 1) (Some mode)) d d8 _
    (with_state a status_tombstoned (Some status_tombstoned) (Some (v + 1))) mode _ _ _ (Some a)); try done.
  - by apply tombstoned.
  - cbn. by rewrite S8.
  - intros i Hi. by rewrite O8, O7.
  - by rewrite E8.
  - split; [done|]. split; [by transitivity d7|]. by apply (lost_admin d T a).
  - eauto.
Qed.

(** The stored hash of an accepted password. *)
Definition hash_of (password : value) (hash : string) : Prop :=
  ∃ text k who, password = VStr text ∧ checkPasswordPolicy password who = [] ∧ hash_password k text who = Ok hash.

Lemma hash_of_Ok password p who env n d h s :
  hashForStorage p who env n d = (Ok h, s) → requireAcceptablePassword password who = Ok p →
  hash_of password h ∧ s = (S n, d).
Proof.
  intros Hh Hp. unfold hashForStorage in Hh. injection Hh as Hh <-. split; [|done].
  unfold requireAcceptablePassword in Hp. destruct password; try done.
  destruct (checkPasswordPolicy (VStr _) who) eqn:Ep; [|done]. injection Hp as ->.
  exists p, n, who. split; [done|]. split; [done|]. destruct (hash_password n p who) as [x|e].
  - unfold requireStorablePasswordHash in Hh. destruct (_ || _); [done|]. by injection Hh as ->.
  - by destruct (bool_decide _).
Qed.

Lemma reset_effect actor T password env n d o n' d' :
  reset_body actor T password env n d = (Ok o, (n', d')) → well_formed d → body_effect actor (fun ch => ∃ hash, hash_of password hash ∧ ch = Reset hash) o d d' ∧
  res_userId (outcome_value o) = T.
Proof.
  intros Hb W. unfold reset_body in Hb. next_account Hb a Ha Hopen.
  next_lift Hb p H2. next_lift Hb v H3. apply requireSessionVersion_Ok in H3 as [Hv _].
  next_lift Hb w H4. apply nextSessionVersion_Ok in H4 as [-> Hmax].
  apply sql_bind_Ok in Hb as (h & n5 & d5 & H5 & Hb). apply (hash_of_Ok password) in H5 as [Hh [= -> ->]]; [|done].
  next_write Hb d7 H7. next_audited Hb mode H9.
  apply (generation_step _ (fun s => s) (fun _ => h) T d d7 a v) in H7 as (A7 & O7 & W7 & K7 & E7 & old & Hold & S7); try done.
  assert ((fun s : string => s) <$> credentialStatus a = credentialStatus a) as Hid by by destruct (credentialStatus a).
  rewrite Hid in A7.
  split; [|done]. eapply (body_effect_intro actor _ (Reset h) (Changed T USER_ACCOUNT_PASSWORD_RESET true (v + 1) (Some mode)) d d7 _
    (with_state a (userStatus a) (credentialStatus a) (Some (v + 1))) mode _ _ _ (Some a)); try done.
  - by apply password_reset.
  - split; [done|]. split; [done|]. intros b Hb Hadm. cbn [res_userId] in Hb. left. rewrite Ha in Hb. by injection Hb as <-.
  - eauto.
Qed.

(** The two statuses after a change of activation. *)
Lemma activation_effect actor T active env n d o n' d' :
  activation_body actor T active env n d = (Ok o, (n', d')) → well_formed d → body_effect actor (fun ch => ch = Activation active) o d d' ∧
  res_userId (outcome_value o) = T ∧ res_action (outcome_value o) = activation_action active.
Proof.
  intros Hb W. unfold activation_body in Hb. next_account Hb a Ha Hopen.
  apply sql_bind_Ok in Hb as (u1 & n2 & d2 & H2 & Hb).
  assert (d2 = d ∧ (active = false → actor ≠ T ∧ (isActiveAdmin a = true → other_admin d T))) as [-> Hguard].
  { apply when_Ok in H2 as [[Hact ->]|[Hact H2]]; [by destruct active|].
    apply guarded_Ok in H2 as (-> & ? & ?); [|done]. by destruct active. }
  clear H2. next_lift Hb v H3. apply requireSessionVersion_Ok in H3 as [Hv _].
  set (desired := if active then status_active else status_disabled) in *.
  assert (desired ∈ statuses) as Hdes by (destruct active; [left|right; left]).
  destruct (String.eqb (userStatus a) desired && bool_decide (credentialStatus a = Some desired)) eqn:Enow.
  { apply ret_Ok in Hb as [<- [= -> ->]]. split; [|done]. split; [done|]. split; [done|]. exists active, a. to_prop.
    repeat (split; [done|]). cbn. split; [by apply String.eqb_eq|]. done. }
  next_lift Hb w H4. apply nextSessionVersion_Ok in H4 as [-> Hmax].
  next_write Hb d7 H7. apply sql_bind_Ok in Hb as (u8 & n8 & d8 & H8 & Hb). next_audited Hb mode H9.
  assert (account_in d7 T = Some (with_state a (userStatus a) (Some desired) (Some (v + 1))) ∧
    (∀ i, sql_eq i T = false → account_in d7 i = account_in d i) ∧ well_formed d7 ∧ kept d d7 ∧
    db_audit d7 = db_audit d ∧ stored_hash d7 T = stored_hash d T) as (A7 & O7 & W7 & K7 & E7 & S7).
  { pose proof Hopen as (_ & _ & s & Hs & _).
    assert ((fun _ => desired) <$> credentialStatus a = Some desired) as Hd by by rewrite Hs.
    rewrite <- Hd. destruct active;
      (apply (generation_step _ (fun _ => desired) (fun h => h) T d d7 a v) in H7
          as (A7 & O7 & W7 & K7 & E7 & old & Hold & S7); try done; [|intros s0 _; by apply canonical_status];
       rewrite Hold; by repeat (split; [done|])). }
  assert (account_in d8 T = Some (with_state a desired (Some desired) (Some (v + 1))) ∧
    (∀ i, sql_eq i T = false → account_in d8 i = account_in d i) ∧ well_formed d8 ∧ kept d d8 ∧
    db_audit d8 = db_audit d ∧ stored_hash d8 T = stored_hash d T) as (A8 & O8 & W8 & K8 & E8 & S8).
  { apply when_Ok in H8 as [[Hsame ->]|[_ H8]].
    - apply negb_false_iff, String.eqb_eq in Hsame. by rewrite <- Hsame at 1.
    - apply write_Ok in H8 as (z8 & d8' & H8 & [= -> ->]).
      assert (set_user desired T z8 d7 = Ok (1%nat, d8')) as H8' by by destruct active.
      destruct (set_user_step desired T _ d7 d8' _ H8' Hdes W7 A7) as (A8 & O8 & W8 & K8 & E8 & S8).
      split; [done|]. split; [intros i Hi; by rewrite O8, O7|]. split; [done|].
      split; [by transitivity d7|]. split; [by rewrite E8|by rewrite S8]. }
  split; [|done]. eapply (body_effect_intro actor _ (Activation active)
    (Changed T (activation_action active) true (v + 1) (Some mode)) d d8 _
    (with_state a desired (Some desired) (Some (v + 1))) mode _ _ _ (Some a)); try done.
  - destruct active; [by apply activated|]. apply deactivated; try done. by apply Hguard.
  - split; [done|]. split; [done|]. destruct active.
    + intros b Hb Hadm. cbn [res_userId] in Hb. left. rewrite Ha in Hb. injection Hb as <-.
      unfold isActiveAdmin in Hadm |- *. apply andb_true_iff in Hadm as [Hadm Hrole].
      apply andb_true_iff in Hadm as [Hadm _]. apply andb_true_iff in Hadm as [Hkind _].
      cbn. by rewrite Hkind, Hrole.
    + apply (lost_admin d T a); [done|by apply Hguard].
Qed.

Lemma assignable_canonical role : role ∈ ASSIGNABLE_ROLES → canonical [ADMIN_ROLE] role.
Proof.
  intros Hr w Hw Hc. apply list_elem_of_singleton in Hw. subst w.
  apply elem_of_cons in Hr as [Hr|Hr]; [done|]. apply list_elem_of_singleton in Hr. subst role.
  by rewrite roles_apart in Hc.
Qed.

(** *** Update *)

Definition with_names (a : ManagedAccount) (name mail : option string) (rs : list string) : ManagedAccount :=
  {| userId := userId a; kind := kind a; userStatus := userStatus a; email := mail; username := name;
     credentialStatus := credentialStatus a; sessionVersion := sessionVersion a; roles := rs |}.

(** A step that changes the target alone, keeps the tables and audits nothing. *)
Definition quiet_step (T : string) d d' (after : ManagedAccount) : Prop :=
  account_in d' T = Some after ∧ (∀ i, sql_eq i T = false → account_in d' i = account_in d i) ∧
  well_formed d' ∧ kept d d' ∧ db_audit d' = db_audit d ∧ stored_hash d' T = stored_hash d T.

Lemma quiet_refl T d a : account_in d T = Some a → well_formed d → quiet_step T d d a.
Proof. intros Ha W. split; [done|]. by repeat (split; [done|]). Qed.

Lemma quiet_trans T d d1 d2 a1 a2 : quiet_step T d d1 a1 → quiet_step T d1 d2 a2 → quiet_step T d d2 a2.
Proof.
  intros (A1 & O1 & W1 & K1 & E1 & S1) (A2 & O2 & W2 & K2 & E2 & S2). split; [done|].
  split; [intros i Hi; by rewrite O2, O1|]. split; [done|]. split; [by transitivity d1|]. split; congruence.
Qed.

Lemma owned_read {A} (st : statement (list A)) (chk : list A → admin unit) (m : admin unit) env n d u n' d' :
  (∀ z l e, st z d = Ok (l, e) → e = d) → (∀ l env n d x n' d', chk l env n d = (Ok x, (n', d')) → d' = d) →
  (owner ← read st; _ ← chk owner; m) env n d = (Ok u, (n', d')) → ∃ k, m env k d = (Ok u, (n', d')).
Proof.
  intros Hst Hchk Hb. apply sql_bind_Ok in Hb as (l & n1 & d1 & H1 & Hb). apply read_Ok in H1 as (z & e & H1 & [= -> ->]).
  rewrite (Hst _ _ _ H1) in Hb. apply sql_bind_Ok in Hb as (x & n2 & d2 & H2 & Hb).
  rewrite (Hchk _ _ _ _ _ _ _ H2) in Hb. eauto.
Qed.

Lemma owned_by_same T code l env n d x n' d' : owned_by T l code env n d = (Ok x, (n', d')) → d' = d.
Proof. unfold owned_by. by intros [_ [= _ ->]]%lift_Ok. Qed.

Lemma username_step T name a env n d u n' d' :
  when_ (negb (bool_decide (Some name = username a)))
    (owner ← read (selectUsernameOwnerForUpdate name);
     _ ← owned_by T owner usernameTaken;
     write (updateUsername name T (username a)) 1) env n d = (Ok u, (n', d')) →
  well_formed d → account_in d T = Some a → quiet_step T d d' (with_names a (Some name) (email a) (roles a)).
Proof.
  intros Hw W Ha. apply when_Ok in Hw as [[Hs ->]|[_ Hw]].
  { apply negb_false_iff, bool_decide_eq_true in Hs. apply quiet_refl; [|done]. rewrite Hs, Ha. by destruct a. }
  apply owned_read in Hw as [k Hw]; [|by intros z l e [= _ <-]|by intros; eapply owned_by_same].
  apply write_Ok in Hw as (z & e & Hw & [= -> ->]). unfold updateUsername in Hw.
  apply (credential_update _ _ d T e) in Hw as (c & Ec & HPc & Ec' & Ho & Eu & Er & Eau & Hwf & Hk); try done.
  2: { intros c Hc. apply andb_true_iff in Hc as [Hc _]. by apply open_credential_at. }
  apply andb_true_iff in HPc as [Hopen _]. unfold quiet_step, account_in in *.
  assert (∀ i, user_in e i = user_in d i) as Hui by (intros i; unfold user_in; by rewrite Eu).
  assert (∀ i, roles_in e i = roles_in d i) as Hri by (intros i; unfold roles_in; by rewrite Er).
  rewrite Hui, Hri, Ec'. rewrite Ec in Ha. destruct (user_in d T) as [p|]; [|done]. injection Ha as <-.
  split; [done|]. split; [intros i Hi; by rewrite Hui, Hri, Ho|]. split.
  - apply Hwf. destruct (proj1 (Forall_forall _ _) (wf_valid_credentials _ W) c (proj1 (credential_in_elem _ _ _ Ec))) as [V1 V2].
    by split.
  - split; [|split; [done|unfold stored_hash; by rewrite Ec, Ec']]. apply Hk. split; [done|]. split; [done|]. split; [done|].
    intros E. by apply open_credential_status in Hopen.
Qed.

Lemma email_step T mail a env n d u n' d' :
  when_ (negb (bool_decide (Some mail = email a)))
    (owner ← read (selectEmailOwnerForUpdate mail);
     _ ← owned_by T owner emailTaken;
     write (updateEmail mail T) 1) env n d = (Ok u, (n', d')) →
  ∀ name, well_formed d → account_in d T = Some (with_names a name (email a) (roles a)) →
  quiet_step T d d' (with_names a name (Some mail) (roles a)).
Proof.
  intros Hw name W Ha. apply when_Ok in Hw as [[Hs ->]|[_ Hw]].
  { apply negb_false_iff, bool_decide_eq_true in Hs. apply quiet_refl; [|done]. by rewrite Hs, Ha. }
  apply owned_read in Hw as [k Hw]; [|by intros z l e [= _ <-]|by intros; eapply owned_by_same].
  apply write_Ok in Hw as (z & e & Hw & [= -> ->]). unfold updateEmail in Hw.
  destruct (person_step _ T d e _ Hw W Ha ltac:(done) ltac:(done)) as (p & Hp & E & Hrest).
  split; [|exact Hrest]. rewrite E. f_equal. unfold view, with_names in *. cbn in *. injection Hp as -> -> -> _ -> -> -> ->. done.
Qed.

Lemma role_step T role granted a env n d u n' d' :
  when_ (negb (bool_decide (roles a = [role])))
    (_ ← write (deleteRoles T) (length (roles a));
     roleId ← newId;
     write (insertRole roleId T role granted) 1) env n d = (Ok u, (n', d')) →
  role ∈ ASSIGNABLE_ROLES →
  ∀ name mail, well_formed d → account_in d T = Some (with_names a name mail (roles a)) →
  quiet_step T d d' (with_names a name mail [role]).
Proof.
  intros Hw Hrole name mail W Ha. apply when_Ok in Hw as [[Hs ->]|[_ Hw]].
  { apply negb_false_iff, bool_decide_eq_true in Hs. apply quiet_refl; [|done]. by rewrite <- Hs. }
  next_write Hw d1 H1. apply deleteRoles_Ok in H1 as [E1 W1]; [|done].
  apply sql_bind_Ok in Hw as (rid & n2 & d2 & H2 & Hw). apply newId_Ok in H2 as [_ [= -> ->]].
  apply write_Ok in Hw as (z2 & d2 & H2 & [= -> ->]). apply insertRole_Ok in H2 as (r & E2 & Er & Eu & W2); [|done|by apply assignable_canonical].
  subst d1. cbn [users credentials user_roles db_audit] in E2.
  assert (∀ i, roles_in d2 i = if sql_eq i T then [role] else roles_in d i) as Hri.
  { intros i. subst d2. rewrite <- Er. apply roles_replaced. by rewrite Eu, sql_eq_refl. }
  unfold quiet_step, account_in in *.
  assert (∀ i, user_in d2 i = user_in d i) as Hui by (intros i; by subst d2).
  assert (∀ i, credential_in d2 i = credential_in d i) as Hci by (intros i; by subst d2).
  rewrite Hui, Hci, Hri, sql_eq_refl. destruct (user_in d T) as [p|]; [|done]. cbn in Ha |- *. split.
  - f_equal. unfold view, with_names in *. injection Ha as -> -> -> -> -> -> ->. done.
  - split; [intros i Hi; by rewrite Hui, Hci, Hri, Hi|]. split; [done|].
    split; [subst d2; apply roles_step|]. by subst d2.
Qed.

Lemma update_effect actor T name mail role env n d o n' d' :
  update_body actor T name mail role env n d = (Ok o, (n', d')) → role ∈ ASSIGNABLE_ROLES →
  well_formed d → body_effect actor (fun ch => ch = Update name mail role) o d d' ∧ res_userId (outcome_value o) = T.
Proof.
  intros Hb Hrole W. unfold update_body in Hb. next_account Hb a Ha Hopen.
  apply sql_bind_Ok in Hb as (u1 & n2 & d2 & H2 & Hb).
  assert (d2 = d ∧ (removesAdminRole a role = true → actor ≠ T ∧ (isActiveAdmin a = true → other_admin d T)))
    as [-> Hguard].
  { apply when_Ok in H2 as [[Hact ->]|[Hact H2]]; [by rewrite Hact|].
    apply guarded_Ok in H2 as (-> & ? & ?); [|done]. done. }
  clear H2. cbv zeta in Hb.
  apply sql_bind_Ok in Hb as (u3 & n3 & d3 & H3 & Hb). apply sql_bind_Ok in Hb as (u4 & n4 & d4 & H4 & Hb).
  apply sql_bind_Ok in Hb as (u5 & n5 & d5 & H5 & Hb). next_audited Hb mode H9.
  pose proof (username_step _ _ _ _ _ _ _ _ _ H3 W Ha) as Q3. pose proof Q3 as (A3 & _ & W3 & _).
  pose proof (email_step _ _ _ _ _ _ _ _ _ H4 _ W3 A3) as Q4. pose proof Q4 as (A4 & _ & W4 & _).
  pose proof (role_step _ _ _ _ _ _ _ _ _ _ H5 Hrole _ _ W4 A4) as Q5.
  destruct (quiet_trans _ _ _ _ _ _ Q3 (quiet_trans _ _ _ _ _ _ Q4 Q5)) as (A5 & O5 & W5 & K5 & E5 & S5).
  assert (∃ v, sessionVersion a = Some v) as [v Hv].
  { destruct Hopen as (_ & _ & s & Hs & _). unfold account_in in Ha. destruct (user_in d T); [|done].
    cbn in Ha. injection Ha as <-. cbn in *. destruct (credential_in d T); [eauto|done]. }
  split; [|done]. eapply (body_effect_intro actor _ (Update name mail role)
    (Changed T USER_ACCOUNT_UPDATED _ (fact_sessionVersion (accountLifecycleFacts a))
    (Some mode)) d d5 _ (with_identity a name mail role) mode _ _ _ (Some a)); try done.
  - apply updated; try done. intros Hr. by apply Hguard.
  - cbn. by rewrite Hv.
  - split; [done|]. split; [done|]. cbn [res_userId].
    destruct (removesAdminRole a role) eqn:Er; [apply (lost_admin d T a); [done|by apply Hguard]|].
    intros b Hb Hadm. left. rewrite Ha in Hb. injection Hb as <-.
    unfold isActiveAdmin in Hadm |- *. apply andb_true_iff in Hadm as [Hadm Hr].
    unfold removesAdminRole in Er. rewrite Hr in Er. cbn in Er. apply negb_false_iff, String.eqb_eq in Er.
    cbn. rewrite Hadm, Er. cbn. apply bool_decide_eq_true. left.
Qed.

(** *** Create *)

Lemma created_views d T role r d' u c :
  d' = Db (users d ++ [u]) (credentials d ++ [c]) (user_roles d ++ [r]) (db_audit d) →
  user_in d T = None → roles_in d T = [] → credential_in d T = None → u_id u = T → c_user_id c = T →
  r_user_id r = T → role_code r = role →
  account_in d' T = Some (view u (Some c) [role]) ∧ (∀ i, sql_eq i T = false → account_in d' i = account_in d i) ∧
  credential_in d' T = Some c.
Proof.
  intros -> Nu Nr Nc <- Ec Er <-. unfold account_in, user_in, credential_in, roles_in in *. cbn [users credentials user_roles].
  split; [|split].
  - rewrite !where_app. destruct (where_ _ (users d)); [|done]. destruct (where_ _ (credentials d)); [|done].
    assert (where_ (fun r => sql_eq (r_user_id r) (u_id u)) (user_roles d) = []) as ->.
    { apply (f_equal length) in Nr. rewrite sort_by_length, length_map in Nr. by apply nil_length_inv. }
    unfold where_. rewrite !filter_cons, Ec, Er, !decide_True by apply sql_eq_refl. done.
  - intros i Hi. rewrite !where_app.
    assert (∀ R (key : R → string) (x : R), key x = u_id u → where_ (fun y => sql_eq (key y) i) [x] = []) as Hnone.
    { intros R key x Hx. apply where_none. intros y ->%list_elem_of_singleton. by rewrite Hx, sql_eq_sym. }
    rewrite (Hnone _ u_id u), (Hnone _ c_user_id c), (Hnone _ r_user_id r) by done. by rewrite !app_nil_r.
  - rewrite where_app. destruct (where_ _ (credentials d)); [|done].
    unfold where_. by rewrite filter_cons, decide_True by (rewrite Ec; apply sql_eq_refl).
Qed.

Lemma create_effect actor name mail role password env n d o n' d' :
  create_body actor name mail role password env n d = (Ok o, (n', d')) → role ∈ ASSIGNABLE_ROLES →
  well_formed d → requireAcceptablePassword (VStr password) (Identity (Some name) (Some mail)) = Ok password →
  body_effect actor (fun ch => ∃ hash, hash_of (VStr password) hash ∧ ch = Creation name mail role hash) o d d'.
Proof.
  intros Hb Hrole W Hpass. unfold create_body in Hb.
  apply sql_bind_Ok in Hb as (uo & n1 & d1 & H1 & Hb). apply read_Ok in H1 as (z1 & e1 & [= _ <-] & [= -> ->]).
  next_lift Hb u1 H1.
  apply sql_bind_Ok in Hb as (eo & n2 & d2 & H2 & Hb). apply read_Ok in H2 as (z2 & e2 & [= _ <-] & [= -> ->]).
  next_lift Hb u2 H2.
  apply sql_bind_Ok in Hb as (h & n5 & d5 & H5 & Hb). apply (hash_of_Ok (VStr password)) in H5 as [Hh [= -> ->]]; [|done].
  apply sql_bind_Ok in Hb as (T & n6 & d6 & H6 & Hb). apply newId_Ok in H6 as [_ [= -> ->]].
  next_write Hb d7 H7. next_write Hb d8 H8.
  apply sql_bind_Ok in Hb as (rid & n6 & d6 & H6 & Hb). apply newId_Ok in H6 as [_ [= -> ->]].
  next_write Hb d9 H9. next_audited Hb mode H10.
  assert (canonical statuses status_active) as Hact by (apply canonical_status; left).
  apply insertUser_Ok in H7 as (E7 & W7 & N7 & K7); [|done|done].
  apply insertCredential_Ok in H8 as (E8 & W8 & N8 & K8); [|done|done].
  apply insertRole_Ok in H9 as (r & E9 & Er & Eu & W9); [|done|by apply assignable_canonical].
  assert (user_in d T = None) as Nu by done. assert (roles_in d T = []) as Nr by (by apply roles_of_nobody).
  assert (credential_in d T = None) as Nc by (by subst d7).
  assert (kept d8 d9) as K9 by (rewrite E9; apply roles_step). rewrite E8, E7 in E9. cbn [users credentials user_roles db_audit] in E9.
  destruct (created_views d T role r d9 _ _ E9 Nu Nr Nc eq_refl eq_refl Eu Er) as (A9 & O9 & S9).
  eapply (body_effect_intro actor _ (Creation name mail role h)
    (Changed T USER_ACCOUNT_CREATED true 1 (Some mode)) d d9 _ _ mode _ _ _ None); try done.
  - cbn. unfold account_in. by rewrite Nu.
  - cbn. by apply (created actor T name mail role).
  - unfold stored_hash. cbn [res_userId]. by rewrite S9.
  - by subst.
  - split; [done|]. split; [transitivity d7; [done|]; by transitivity d8|].
    intros a Ha. cbn [res_userId] in Ha. unfold account_in in Ha. by rewrite Nu in Ha.
  - eauto.
Qed.
End Committed.
