(* ===== verification/UserGuarantees.v ===== *)
(** * The guarantees of user administration

    Every operation refines the transitions of [account_change]; any sequence of
    operations, whatever the database answers, keeps the tables well-formed, keeps an
    active administrator, never reuses a generation of sessions, and only appends to
    the audit log. *)

From S2P Require Import Prelude JsText Regex CanonicalJson Scoring Sql AuditChain Credentials UserAdmin UserStore UserEffects UserLifecycle UserSafety.

Local Open Scope string_scope.
Local Open Scope list_scope.
#[global] Open Scope Z_scope.

(** The operations of [UserAdministration] that write, with their untrusted input. *)
Inductive operation : Type :=
| OpCreate (actor username email password role : value)
| OpUpdate (actor target username email role : value)
| OpActivation (actor target active : value)
| OpReset (actor target password : value)
| OpTombstone (actor target : value).

Definition actor_of (o : operation) : value :=
  match o with
  | OpCreate a _ _ _ _ | OpUpdate a _ _ _ _ | OpActivation a _ _ | OpReset a _ _ | OpTombstone a _ => a
  end.

Section Guarantees.
Context `{P : Platform, C : Collation, M : CaseMapping, H : PasswordHasher}.
Implicit Types (d : UserDb) (env : environment).

Definition run (o : operation) : admin UserAdminChangeResult :=
  match o with
  | OpCreate a u e p r => createUser a u e p r
  | OpUpdate a t u e r => updateUser a t u e r
  | OpActivation a t b => setUserActivation a t b
  | OpReset a t p => resetUserPassword a t p
  | OpTombstone a t => tombstoneUser a t
  end.

(** The change an operation asks for: input that validates to these handles, this role,
    the hash of this password. *)
Definition asks (o : operation) (ch : change) : Prop :=
  match o with
  | OpCreate _ u e p r => ∃ name mail role hash, ch = Creation name mail role hash ∧
      normalizeUsername u = Ok name ∧ normalizeEmail e = Ok mail ∧ r = VStr role ∧ hash_of p hash
  | OpUpdate _ _ u e r => ∃ name mail role, ch = Update name mail role ∧
      normalizeUsername u = Ok name ∧ normalizeEmail e = Ok mail ∧ r = VStr role
  | OpActivation _ _ b => ∃ active, ch = Activation active ∧ b = VBool active
  | OpReset _ _ p => ∃ hash, ch = Reset hash ∧ hash_of p hash
  | OpTombstone _ _ => ∃ random, ch = Closing (REVOKED_PASSWORD_SENTINEL_PREFIX +:+ random)
  end.

(** On the identifier asked for; a creation chooses its own. *)
Definition on_target (o : operation) (T : string) : Prop :=
  match o with
  | OpCreate _ _ _ _ _ => True
  | OpUpdate _ t _ _ _ | OpActivation _ t _ | OpReset _ t _ | OpTombstone _ t => t = VStr T
  end.

(** The effect of an operation that committed. *)
Definition performed (o : operation) (res : UserAdminChangeResult) d d' : Prop :=
  ∃ actor ch, actor_of o = VStr actor ∧ asks o ch ∧ on_target o (res_userId res) ∧ committed actor ch res d d'.

(** What it means for an invariant: see [UserSafety.safe]. *)
Definition harmless (res : UserAdminChangeResult) d d' : Prop :=
  (∃ a', account_in d' (res_userId res) = Some a' ∧ safe d d' (res_userId res) a') ∧
  (∀ i, sql_eq i (res_userId res) = false → account_in d' i = account_in d i) ∧
  (verifies (db_audit d) → verifies (db_audit d')) ∧
  ∃ rows, audit_log (db_audit d') = audit_log (db_audit d) ++ rows.

(** Returned without a change, returned with the effect committed, or threw: then
    nothing happened, unless the answer to the commit was lost. *)
Definition answers (Q : UserAdminChangeResult → UserDb → Prop)
    (r : Prelude.result UserAdminError UserAdminChangeResult) d d' : Prop :=
  match r with
  | Ok res => if auditMode res then Q res d' else d' = d ∧ already res d
  | Throw e => d' = d ∨ (e = fault commitFailed ∧ ∃ res, auditMode res ≠ None ∧ Q res d')
  end.

Lemma transaction_answers (Q : UserAdminChangeResult → UserDb → Prop) body env n d r n' d' :
  transaction body env n d = (r, (n', d')) →
  (∀ k o n1 d1, body env k d = (Ok o, (n1, d1)) →
    if commit o then auditMode (outcome_value o) ≠ None ∧ Q (outcome_value o) d1 else already (outcome_value o) d) →
  answers Q r d d'.
Proof.
  intros Ht Hb. unfold transaction in Ht. destruct r as [res|e].
  - apply inTransaction_Ok in Ht as (o & n1 & d1 & Hbody & -> & [= -> ->]). specialize (Hb _ _ _ _ Hbody).
    cbn. destruct (commit o).
    + destruct Hb as [Hm HQ]. by destruct (auditMode (outcome_value o)).
    + pose proof Hb as (Hm & _). by rewrite Hm.
  - apply inTransaction_Throw in Ht as [->|(-> & o & n1 & Hbody & Hc)]; [by left|]. right. split; [done|].
    specialize (Hb _ _ _ _ Hbody). rewrite Hc in Hb. by exists (outcome_value o).
Qed.

Lemma lift_answers {A} (Q : UserAdminChangeResult → UserDb → Prop) (x : Prelude.result UserAdminError A)
    (k : A → admin UserAdminChangeResult) env n d r n' d' :
  (lift x ≫= k) env n d = (r, (n', d')) →
  (∀ a, x = Ok a → k a env n d = (r, (n', d')) → answers Q r d d') → answers Q r d d'.
Proof.
  intros Hk Ha. unfold mbind, Sql_bind, lift in Hk. destruct x as [a|e]; [by apply (Ha a)|].
  injection Hk as <- _ <-. by left.
Qed.

(** *** Validated input *)

Lemma requireActor_Ok v s : requireActorUserId v = Ok s → v = VStr s.
Proof. unfold requireActorUserId, isUserId, or_throw. destruct v; try done. destruct (_ && test _ _); [|done]. by intros [= ->]. Qed.

Lemma requireTarget_Ok v s : requireTargetUserId v = Ok s → v = VStr s.
Proof. unfold requireTargetUserId, isUserId, or_throw. destruct v; try done. destruct (_ && test _ _); [|done]. by intros [= ->]. Qed.

Lemma requireRole_Ok v s : requireAssignableRole v = Ok s → v = VStr s ∧ s ∈ ASSIGNABLE_ROLES.
Proof.
  unfold requireAssignableRole. destruct v; try done. destruct (bool_decide _) eqn:E; [|done]. intros [= ->].
  by apply bool_decide_eq_true in E.
Qed.

Lemma requireUsername_Ok v s : requireUsername v = Ok s → normalizeUsername v = Ok s.
Proof. unfold requireUsername, mapCredentialError. destruct (normalizeUsername v); [by intros [= ->]|done]. Qed.

Lemma requireEmail_Ok v s : requireEmail v = Ok s → normalizeEmail v = Ok s.
Proof. unfold requireEmail, mapCredentialError. destruct (normalizeEmail v); [by intros [= ->]|done]. Qed.

Lemma requirePassword_Ok v who p : requireAcceptablePassword v who = Ok p → v = VStr p.
Proof. unfold requireAcceptablePassword. destruct v; try done. destruct (checkPasswordPolicy _ _); [|done]. by intros [= ->]. Qed.

Lemma requireFlag_Ok v b : requireActivationFlag v = Ok b → v = VBool b.
Proof. unfold requireActivationFlag. destruct v; try done. by intros [= ->]. Qed.

(** *** The operations *)
Context `{V : !Vocabulary}.

Lemma committed_harmless actor ch res d d' :
  committed actor ch res d d' →
  (∃ a', account_in d' (res_userId res) = Some a' ∧ safe d d' (res_userId res) a') →
  (verifies (db_audit d) → verifies (db_audit d')) → harmless res d d'.
Proof.
  intros (_ & _ & a' & _ & _ & Ho & _ & r & Hr & _) Hs Hv. split; [done|]. split; [done|]. split; [done|]. by exists [r].
Qed.

Lemma effect_performed o actor (asked : change → Prop) out d d' :
  body_effect actor asked out d d' → actor_of o = VStr actor → (∀ ch, asked ch → asks o ch) →
  on_target o (res_userId (outcome_value out)) →
  if commit out then auditMode (outcome_value out) ≠ None ∧
    performed o (outcome_value out) d d' ∧ harmless (outcome_value out) d d'
  else already (outcome_value out) d.
Proof.
  unfold body_effect. destruct (commit out); [|done]. intros (Hm & (ch & Hch & Hc) & Hs & Hv) Ha Hask Ht.
  split; [done|]. split; [|by apply (committed_harmless actor ch)]. exists actor, ch. auto.
Qed.

#[local] Ltac next_input Hr x Hx := eapply lift_answers; [exact Hr|]; clear Hr; intros x Hx Hr; cbv beta in Hr.
#[local] Ltac in_transaction Hr out Hb :=
  eapply transaction_answers; [exact Hr|]; clear Hr; intros ? out ? ? Hb.

Lemma run_answers o env n d r n' d' :
  run o env n d = (r, (n', d')) → well_formed d →
  answers (fun res e => performed o res d e ∧ harmless res d e) r d d'.
Proof.
  intros Hr W. destruct o as [a u e p q|a t u e q|a t b|a t p|a t]; cbn [run] in Hr.
  - unfold createUser in Hr. next_input Hr actor Ha. next_input Hr name Hu. next_input Hr mail He.
    next_input Hr role Hq. next_input Hr password Hp. in_transaction Hr out Hb.
    apply requireRole_Ok in Hq as [-> Hq]. pose proof (requirePassword_Ok _ _ _ Hp) as ->.
    apply (create_effect _ _ _ _ _ _ _ _ _ _ _ Hb) in Hq as Heff; [|done|done].
    eapply effect_performed; [exact Heff|by apply requireActor_Ok| |done].
    intros ch (hash & Hh & ->). exists name, mail, role, hash.
    split; [done|]. split; [by apply requireUsername_Ok|]. split; [by apply requireEmail_Ok|]. done.
  - unfold updateUser in Hr. next_input Hr actor Ha. next_input Hr T Ht. next_input Hr name Hu. next_input Hr mail He.
    next_input Hr role Hq. in_transaction Hr out Hb. apply requireRole_Ok in Hq as [-> Hq].
    apply (update_effect _ _ _ _ _ _ _ _ _ _ _ Hb) in Hq as [Heff HT]; [|done].
    eapply effect_performed; [exact Heff|by apply requireActor_Ok| |rewrite HT; by apply requireTarget_Ok].
    intros ch ->. exists name, mail, role. split; [done|]. split; [by apply requireUsername_Ok|].
    split; [by apply requireEmail_Ok|done].
  - unfold setUserActivation in Hr. next_input Hr actor Ha. next_input Hr T Ht. next_input Hr active Hf.
    in_transaction Hr out Hb. apply activation_effect in Hb as (Heff & HT & _); [|done].
    eapply effect_performed; [exact Heff|by apply requireActor_Ok| |rewrite HT; by apply requireTarget_Ok].
    intros ch ->. exists active. split; [done|by apply requireFlag_Ok].
  - unfold resetUserPassword in Hr. next_input Hr actor Ha. next_input Hr T Ht. next_input Hr p' Hp.
    in_transaction Hr out Hb. apply reset_effect in Hb as (Heff & HT); [|done].
    eapply effect_performed; [exact Heff|by apply requireActor_Ok| |rewrite HT; by apply requireTarget_Ok].
    intros ch (hash & Hh & ->). by exists hash.
  - unfold tombstoneUser in Hr. next_input Hr actor Ha. next_input Hr T Ht.
    in_transaction Hr out Hb. apply tombstone_effect in Hb as (Heff & HT); [|done].
    eapply effect_performed; [exact Heff|by apply requireActor_Ok|done|rewrite HT; by apply requireTarget_Ok].
Qed.

(** C24: Every operation of user administration refines the transitions of one account:
    it returns after committing exactly the change its validated input asks for, on the
    account it names, with every other account as it was and one audit row that names
    actor, action, account and the hashes of the facts before and after; or returns that
    the account is so already, having written nothing; or throws having written nothing,
    except that a commit whose answer was lost may have taken effect, completely. *)
Theorem operations_refine_accounts o env n d r n' d' :
  run o env n d = (r, (n', d')) → well_formed d →
  match r with
  | Ok res => if auditMode res then performed o res d d' else d' = d ∧ already res d
  | Throw e => d' = d ∨ (e = fault commitFailed ∧ ∃ res, auditMode res ≠ None ∧ performed o res d d')
  end.
Proof.
  intros Hr W. pose proof (run_answers o env n d r n' d' Hr W) as Ha. destruct r as [res|e]; cbn in Ha.
  - destruct (auditMode res); [by destruct Ha|done].
  - destruct Ha as [->|(-> & res & Hm & Hp & _)]; eauto 6.
Qed.

(** One operation of anybody, on any input, in any environment. *)
Definition admin_step d d' : Prop := ∃ o env n r n', run o env n d = (r, (n', d')).

Definition administered d : Prop := ∃ i a, account_in d i = Some a ∧ isActiveAdmin a = true.

(** What a state keeps of an earlier one. *)
Definition upheld d d' : Prop :=
  well_formed d' ∧ kept d d' ∧ (administered d → administered d') ∧
  (verifies (db_audit d) → verifies (db_audit d')) ∧
  ∃ rows, audit_log (db_audit d') = audit_log (db_audit d) ++ rows.

Lemma upheld_refl d : well_formed d → upheld d d.
Proof. intros W. split; [done|]. split; [done|]. split; [done|]. split; [done|]. exists []. by rewrite app_nil_r. Qed.

Lemma upheld_trans d e f : upheld d e → upheld e f → upheld d f.
Proof.
  intros (W1 & K1 & A1 & V1 & rs & L1) (W2 & K2 & A2 & V2 & ss & L2).
  split; [done|]. split; [by transitivity e|]. split; [auto|]. split; [auto|].
  exists (rs ++ ss). by rewrite L2, L1, app_assoc.
Qed.

Lemma harmless_upheld res d d' : well_formed d → harmless res d d' → upheld d d'.
Proof.
  intros W ((a' & Ha' & W' & K & Hs) & Ho & Hv & Hl). split; [done|]. split; [done|]. split; [|done].
  intros (i & a & Ha & Hadm). destruct (sql_eq i (res_userId res)) eqn:Ei.
  - rewrite (account_in_eq d _ _ Ei) in Ha. destruct (Hs a Ha Hadm) as [Hnew|(j & b & Hj & Hb & Hbadm)].
    + by exists (res_userId res), a'.
    + exists j, b. by rewrite Ho.
  - exists i, a. by rewrite Ho.
Qed.

Lemma admin_step_upheld d d' : admin_step d d' → well_formed d → upheld d d'.
Proof.
  intros (o & env & n & r & n' & Hr) W. pose proof (run_answers o env n d r n' d' Hr W) as Ha.
  destruct r as [res|e]; cbn in Ha.
  - destruct (auditMode res); [|destruct Ha as [-> _]; by apply upheld_refl].
    destruct Ha as [_ Ha]. by apply (harmless_upheld res).
  - destruct Ha as [->|(_ & res & _ & _ & Ha)]; [by apply upheld_refl|by apply (harmless_upheld res)].
Qed.

Lemma admin_steps_upheld d d' : rtc admin_step d d' → well_formed d → upheld d d'.
Proof.
  induction 1 as [d|d e f Hstep _ IH]; intros W; [by apply upheld_refl|].
  apply admin_step_upheld in Hstep; [|done]. pose proof Hstep as (We & _). apply (upheld_trans d e f); [done|]. by apply IH.
Qed.

(** C25: However many operations run, by whomever, on whatever input, with whatever
    failures of the database: the tables stay well-formed, an administered platform
    never loses its last active administrator, no generation of sessions and no closed
    account ever comes back, and the audit log stays verifiable and only grows. *)
Theorem user_administration_safe d d' :
  rtc admin_step d d' → well_formed d →
  well_formed d' ∧
  (administered d → administered d') ∧
  (∀ c, c ∈ credentials d → ∃ c', c' ∈ credentials d' ∧ later_credential c c') ∧
  (∀ u, u ∈ users d → ∃ u', u' ∈ users d' ∧ later_user u u') ∧
  (verifies (db_audit d) → verifies (db_audit d')) ∧
  ∃ rows, audit_log (db_audit d') = audit_log (db_audit d) ++ rows.
Proof.
  intros Hs W. destruct (admin_steps_upheld d d' Hs W) as (W' & [Hu Hc] & Hadm & Hv & Hl). auto 10.
Qed.
End Guarantees.

(** ** Two administrators *)
Module DemoUsers.
#[export] Instance platform : Platform := demo_platform.
#[export] Instance lower : CaseMapping := DemoCredentials.ascii_lower.

(** [utf8mb4_general_ci] on ASCII. *)
#[export] Instance general_ci : Collation := {| collate := toLowerCase |}.

#[export] Instance vocabulary : Vocabulary.
Proof.
  split; [|reflexivity]. intros s w Hs Hw. unfold statuses in Hs, Hw.
  repeat (apply elem_of_cons in Hs as [->|Hs]); try by apply elem_of_nil in Hs.
  all: repeat (apply elem_of_cons in Hw as [->|Hw]); try by apply elem_of_nil in Hw.
  all: by vm_compute.
Qed.

#[export] Instance hasher : PasswordHasher := {| hash_password := fun n p _ => Ok (zeros 60 +:+ p) |}.

Definition env : environment :=
  Env (fun _ => false) (fun _ => false) (fun n => Z.of_nat n) (fun n => "id-" +:+ show_nat (Z.of_nat n)) (fun _ => 0)
    (fun _ => zeros 43).

Definition admin (id mail name : string) : UserRow * CredentialRow * RoleRow :=
  (User id "user" (Some mail) None "K1" "active" None 0 None,
   Credential id name (zeros 60) 1 "active" 0 None 0 None, Role ("r-" +:+ id) id "admin" None 0).

Definition both := [admin "user-a" "a@x.in" "first"; admin "user-b" "b@x.in" "second"].

Definition db : UserDb :=
  Db (map (fun p => p.1.1) both) (map (fun p => p.1.2) both) (map snd both) DemoAudit.empty.

Lemma db_well_formed : well_formed db.
Proof.
  assert (∀ w, canonical [w] w) as Hone by (intros w x ->%list_elem_of_singleton; done).
  assert (canonical statuses status_active) as Hact by (apply canonical_status; left).
  split; [reflexivity|reflexivity|reflexivity|..].
  - repeat (apply Forall_cons; split); [by split; [apply Hone|]..|done].
  - repeat (apply Forall_cons; split); [by split; [|vm_compute]..|done].
  - repeat (apply Forall_cons; split); [by apply Hone..|done].
  - repeat (apply Forall_cons; split); [| |done].
    + eexists. split; [left|reflexivity].
    + eexists. split; [right; left|reflexivity].
Qed.

Definition after (o : operation) (d : UserDb) : UserDb := (run o env 0%nat d).2.2.

Definition closing : operation := OpTombstone (VStr "user-a") (VStr "user-b").
Definition alone : UserDb := after closing db.

(** The last administrator cannot be taken away, not even by somebody else. *)
Example last_one :
  (run (OpActivation (VStr "user-b") (VStr "user-a") (VBool false)) env 0%nat alone).1 = Throw (refusal lastAdmin) ∧
  (run (OpUpdate (VStr "user-b") (VStr "user-a") (VStr "first") (VStr "a@x.in") (VStr "user")) env 0%nat alone).1 =
    Throw (refusal lastAdmin) ∧
  (run (OpReset (VStr "user-a") (VStr "user-b") (VStr "Correct-Horse-7")) env 0%nat alone).1 =
    Throw (refusal accountTombstoned).
Proof. vm_compute. auto. Qed.

(** The guard against deactivating oneself compares the identifiers as they are
    spelled, and the statements by the collation of the column. *)
Example self_deactivation :
  (run (OpActivation (VStr "user-a") (VStr "user-a") (VBool false)) env 0%nat db).1 = Throw (refusal selfDeactivate) ∧
  (run (OpActivation (VStr "user-a") (VStr "USER-A") (VBool false)) env 0%nat db).1 =
    Ok (Changed "USER-A" USER_ACCOUNT_DEACTIVATED true 2 (Some hash_chained)) ∧
  userStatus <$> account_in (after (OpActivation (VStr "user-a") (VStr "USER-A") (VBool false)) db) "user-a" =
    Some status_disabled.
Proof. vm_compute. auto. Qed.

(** A commit whose answer is lost. *)
Example lost_answer :
  let lossy := Env (fun n => (n =? 14)%nat) (fun _ => true) (statement_time env) (fresh_id env) (wall_clock env) (random_text env) in
  let '(r, (_, d)) := run (OpReset (VStr "user-a") (VStr "user-b") (VStr "Correct-Horse-7")) lossy 0%nat db in
  r = Throw (fault commitFailed) ∧ stored_hash d "user-b" = Some (zeros 60 +:+ "Correct-Horse-7").
Proof. vm_compute. auto. Qed.
End DemoUsers.
Import DemoUsers.

Lemma operations_refine_accounts_witness :
  performed DemoUsers.closing (Changed "user-b" USER_ACCOUNT_TOMBSTONED true 2 (Some hash_chained))
    DemoUsers.db DemoUsers.alone.
Proof.
  apply (operations_refine_accounts DemoUsers.closing DemoUsers.env 0%nat DemoUsers.db
    (Ok (Changed "user-b" USER_ACCOUNT_TOMBSTONED true 2 (Some hash_chained)))
    (run DemoUsers.closing DemoUsers.env 0%nat DemoUsers.db).2.1 DemoUsers.alone).
  - vm_compute. reflexivity.
  - exact DemoUsers.db_well_formed.
Defined.

Lemma user_administration_safe_witness :
  well_formed DemoUsers.alone ∧ (administered DemoUsers.db → administered DemoUsers.alone).
Proof.
  destruct (user_administration_safe DemoUsers.db DemoUsers.alone) as (H1 & H2 & _).
  - apply rtc_once. exists DemoUsers.closing, DemoUsers.env, 0%nat. do 2 eexists. unfold DemoUsers.alone, DemoUsers.after.
    rewrite <- !surjective_pairing. reflexivity.
  - exact DemoUsers.db_well_formed.
  - split; [exact H1|exact H2].
Defined.
