(* ===== verification/UserSession.v ===== *)
(** * Sessions

    [src/auth/userSession.ts], the per-request gate of
    [src/http/enterpriseDashboardServer.ts], and the reads of
    [src/adapters/mysqlUserCredentialRepo.ts]: which tokens are accepted, until when,
    and what an account's change of state does to those it was given. *)

From Stdlib Require Import Ascii.
From S2P Require Import Prelude JsText Regex CanonicalJson Scoring Sql AuditChain Credentials UserAdmin UserStore UserEffects UserLifecycle UserSafety UserGuarantees.

Local Open Scope string_scope.
Local Open Scope list_scope.
#[global] Open Scope Z_scope.

(** ** The wire *)

(** What [node:crypto], [Buffer] and [JSON] do to a token. *)
Class WireFormat : Type := {
  (** [createHmac('sha256', secret).update(payload).digest('base64url')] *)
  hmac : string → string → string;
  (** [Buffer.from(s).toString('base64url')], and the bytes of [Buffer.from(s, 'base64url')] *)
  toBase64Url : string → string;
  fromBase64Url : string → string;
  (** [JSON.parse(bytes.toString('utf8'))], [None] when it throws *)
  json_parse : string → option value;
}.

Definition url_char (c : ascii) : bool :=
  let z := code c in
  is_digit c || ((65 <=? z) && (z <=? 90)) || ((97 <=? z) && (z <=? 122)) || (z =? 95) || (z =? 45).

(** What the documentation of the encoding promises. *)
Class WireLaws `(WireFormat) : Prop := {
  hmac_shape secret payload :
    String.length (hmac secret payload) = 43%nat ∧ str_forallb url_char (hmac secret payload) = true;
  toBase64Url_chars s : str_forallb url_char (toBase64Url s) = true;
  toBase64Url_length s : (String.length s ≤ String.length (toBase64Url s) ≤ 2 * String.length s)%nat;
  from_toBase64Url s : fromBase64Url (toBase64Url s) = s;
}.

(** ** Tokens *)

Definition VERSION : Z := 1.
Definition SESSION_MIN_SECRET_LENGTH : Z := 32.
Definition SESSION_MAX_TTL_SECONDS : Z := 12 * 60 * 60.
Definition SESSION_MAX_TOKEN_LENGTH : Z := 1024.
Definition CLOCK_SKEW_SECONDS : Z := 60.

Record UserSessionClaims : Type := Claims { sub : string; sv : Z; iat : Z; exp : Z }.

Definition isSessionVersion (v : value) : option Z :=
  z ← isInteger v; if 1 <=? z then Some z else None.

Section Tokens.
Context `{WireFormat}.

Definition signature (payload secret : string) : string := hmac secret payload.

Definition assertSecret (secret : value) : Prelude.result CredentialError string :=
  match secret with
  | VStr s => if units s <? SESSION_MIN_SECRET_LENGTH then Throw (CredError SESSION_SECRET_WEAK) else Ok s
  | _ => Throw (CredError SESSION_SECRET_WEAK)
  end.

(** Integers below 10^21 print as their digits. *)
Definition claims_json (c : UserSessionClaims) : json :=
  JObj [("v", jint VERSION); ("sub", JStr (sub c)); ("sv", jint (sv c)); ("iat", jint (iat c)); ("exp", jint (exp c))].

(** The instant is in milliseconds. *)
Definition issueUserSession (userId sessionVersion secret ttlSeconds : value) (now : Z)
    : Prelude.result CredentialError string :=
  secret ← assertSecret secret;
  match isInteger ttlSeconds with
  | Some ttl =>
      if (ttl <? 1) || (SESSION_MAX_TTL_SECONDS <? ttl) then Throw (CredError SESSION_TTL_OUT_OF_RANGE)
      else match isUserId userId, isSessionVersion sessionVersion with
           | Some id, Some version =>
               let issuedAt := now / 1000 in
               let body := toBase64Url (print (claims_json (Claims id version issuedAt (issuedAt + ttl)))) in
               Ok (body +:+ "." +:+ signature body secret)
           | _, _ => Throw (CredError SESSION_INVALID)
           end
  | None => Throw (CredError SESSION_TTL_OUT_OF_RANGE)
  end.

(** The claims of a parsed payload. *)
Definition claims_of (parsed : value) : option UserSessionClaims :=
  match parsed with
  | VObj es =>
      if bool_decide (isInteger (get es "v") = Some VERSION) then
        match isUserId (get es "sub"), isSessionVersion (get es "sv"), isInteger (get es "iat"), isInteger (get es "exp") with
        | Some sub, Some sv, Some iat, Some exp => Some (Claims sub sv iat exp)
        | _, _, _, _ => None
        end
      else None
  | _ => None
  end.

(** The body of a token whose signature verifies. *)
Definition authentic (token secret : string) : option string :=
  if bool_decide (token = "") || (SESSION_MAX_TOKEN_LENGTH <? units token) then None
  else match split_on "."%char token with
       | [body; supplied] =>
           if bool_decide (body = "") || bool_decide (supplied = "") then None
           else if String.eqb supplied (signature body secret) then Some body else None
       | _ => None
       end.

Definition timely (c : UserSessionClaims) (now : Z) : bool :=
  let nowSeconds := now / 1000 in
  negb (exp c <=? nowSeconds) && negb (nowSeconds + CLOCK_SKEW_SECONDS <? iat c) &&
  negb (exp c <=? iat c) && negb (SESSION_MAX_TTL_SECONDS <? exp c - iat c).

Definition verifyUserSession (token secret : value) (now : Z)
    : Prelude.result CredentialError (option UserSessionClaims) :=
  secret ← assertSecret secret;
  Ok (match token with
      | VStr token =>
          body ← authentic token secret;
          parsed ← json_parse (fromBase64Url body);
          c ← claims_of parsed;
          if timely c now then Some c else None
      | _ => None
      end).
End Tokens.

(** ** The account behind a token *)

Record CredentialSessionState : Type := SessionState {
  st_id : string;
  st_status : string;
  st_credentialStatus : string;
  st_sessionVersion : Z;
}.

Definition isSessionCurrent (claims : option UserSessionClaims) (state : option CredentialSessionState) : bool :=
  match claims, state with
  | Some c, Some s =>
      String.eqb (sub c) (st_id s) && (sv c =? st_sessionVersion s) &&
      String.eqb (st_status s) "active" && String.eqb (st_credentialStatus s) "active"
  | _, _ => false
  end.

(** A database that holds the account tables. *)
Class AccountStore (D : Type) : Type := {
  accounts : D → UserDb;
  set_accounts : UserDb → D → D;
  accounts_get_set a d : accounts (set_accounts a d) = a;
  accounts_set_get d : set_accounts (accounts d) d = d;
}.

#[export] Instance UserDb_accounts : AccountStore UserDb.
Proof. by refine {| accounts := fun d => d; set_accounts := fun a _ => a |}. Defined.

Definition on_accounts {D A} `{AccountStore D} (st : statement A) (time : Z) (d : D)
    : Prelude.result sql_error (A * D) :=
  '(x, a) ← st time (accounts d); Ok (x, set_accounts a d).

Record CredentialUser : Type := CredentialAccount {
  cu_id : string;
  cu_usernameNormalized : string;
  cu_email : option string;
  cu_status : string;
  cu_credentialStatus : string;
  cu_passwordHash : string;
  cu_sessionVersion : Z;
  cu_maxSensitivityTier : string;
  cu_roles : list string;
}.

Section Repository.
Context `{C : Collation, M : CaseMapping}.

(** The driver answers the column as an integer. *)
Definition toSessionVersion (v : Z) : option Z :=
  if (1 <=? v) && (v <=? MAX_SESSION_VERSION) then Some v else None.

(** [kaudit_user u JOIN kaudit_user_credential c ON c.user_id = u.id WHERE u.kind = 'user'] *)
Definition people (d : UserDb) : list (UserRow * CredentialRow) :=
  u ← users d; c ← credentials_of d (u_id u); if sql_eq (u_kind u) "user" then [(u, c)] else [].

Definition selectSessionState (id : string) : statement (list (UserRow * CredentialRow)) :=
  fun _ d => Ok (take 1 (where_ (fun p => sql_eq (u_id p.1) id) (people d)), d).

Definition mapSessionState (row : option (UserRow * CredentialRow)) : option CredentialSessionState :=
  '(u, c) ← row;
  version ← toSessionVersion (session_version c);
  id ← isUserId (VStr (u_id u));
  Some (SessionState id (u_status u) (c_status c) version).

(** Codes that are equal in the collation are one. *)
Fixpoint distinct_codes (codes : list string) : list string :=
  match codes with
  | [] => []
  | c :: codes => c :: filter (fun x => sql_eq c x = false) (distinct_codes codes)
  end.

(** [GROUP_CONCAT(DISTINCT r.role_code ORDER BY r.role_code SEPARATOR ',')], [NULL] of no row. *)
Definition role_text (d : UserDb) (id : string) : option string :=
  match distinct_codes (roles_in d id) with [] => None | codes => Some (join_comma codes) end.

Definition selectByLogin (login : string) : statement (list (UserRow * CredentialRow * option string)) :=
  fun _ d => Ok (take 1 (map (fun p => (p, role_text d (u_id p.1)))
    (where_ (fun p => String.eqb (username_normalized p.2) login ||
                      match u_email p.1 with Some e => sql_eq e login | None => false end) (people d))), d).

Definition mapCredential (row : option (UserRow * CredentialRow * option string)) : option CredentialUser :=
  '(u, c, roles) ← row;
  version ← toSessionVersion (session_version c);
  id ← isUserId (VStr (u_id u));
  Some {| cu_id := id; cu_usernameNormalized := username_normalized c; cu_email := u_email u;
          cu_status := u_status u; cu_credentialStatus := c_status c; cu_passwordHash := password_hash c;
          cu_sessionVersion := version; cu_maxSensitivityTier := u_max_sensitivity_tier u;
          cu_roles := match roles with
                      | Some text => filter (fun r => r ≠ "") (split_on ","%char text)
                      | None => []
                      end |}.

Section Pool.
Context {D : Type} `{AccountStore D}.

Definition findByLogin (login : value) : Sql D sql_error (option CredentialUser) :=
  match normalizeLogin login with
  | None => mret None
  | Some normalized => rows ← request (on_accounts (selectByLogin normalized)); mret (mapCredential (head rows))
  end.

Definition getSessionState (userId : value) : Sql D sql_error (option CredentialSessionState) :=
  match isUserId userId with
  | None => mret None
  | Some id => rows ← request (on_accounts (selectSessionState id)); mret (mapSessionState (head rows))
  end.
End Pool.
End Repository.

(** ** The gate *)

Inductive AuthFailure : Type := AUTH_REQUIRED | AUTH_INVALID | gate_read_failed | gate_credential (e : CredentialError).

(** The database mode of [authenticateRequest], up to the read of the user's permissions. *)
Definition authenticateSession {D} `{WireFormat, Collation, AccountStore D} (token secret : value) (now : Z)
    : Sql D AuthFailure UserSessionClaims :=
  claims ← catching (lift (verifyUserSession token secret now)) gate_credential;
  match claims with
  | None => lift (Throw AUTH_REQUIRED)
  | Some c =>
      state ← catching (getSessionState (VStr (sub c))) (fun _ => gate_read_failed);
      if isSessionCurrent (Some c) state then mret c else lift (Throw AUTH_INVALID)
  end.

(** ** What a token can do *)

Section Gate.
Context `{Wire : WireFormat}.

Lemma verify_claims token secret now c :
  verifyUserSession token secret now = Ok (Some c) →
  ∃ s text body parsed, token = VStr text ∧ assertSecret secret = Ok s ∧ authentic text s = Some body ∧
    json_parse (fromBase64Url body) = Some parsed ∧ claims_of parsed = Some c ∧ timely c now = true.
Proof.
  unfold verifyUserSession. intros (s & Hs & Hv)%bind_Ok_iff. injection Hv as Hv. destruct token; try done.
  apply bind_Some in Hv as (body & Hb & Hv). apply bind_Some in Hv as (parsed & Hp & Hv).
  apply bind_Some in Hv as (c' & Hc & Hv). destruct (timely c' now) eqn:Ht; [|done]. injection Hv as ->.
  eauto 10.
Qed.

(** The claims are the token's: only the answer depends on the time. *)
Lemma verify_same token secret t c t' c' :
  verifyUserSession token secret t = Ok (Some c) → verifyUserSession token secret t' = Ok (Some c') → c' = c.
Proof.
  intros (s & w & b & p & -> & Es & Eb & Ep & Ec & _)%verify_claims
    (s' & w' & b' & p' & [= <-] & Es' & Eb' & Ep' & Ec' & _)%verify_claims.
  rewrite Es in Es'. injection Es' as <-. rewrite Eb in Eb'. injection Eb' as <-.
  rewrite Ep in Ep'. injection Ep' as <-. rewrite Ec in Ec'. by injection Ec' as <-.
Qed.

Context `{C : Collation, D : Type, A : !AccountStore D}.

(** Some request with the token is let through. *)
Definition accepted (token secret : value) (c : UserSessionClaims) (d : D) : Prop :=
  ∃ now env n s, authenticateSession token secret now env n d = (Ok c, s).

Lemma mapSessionState_Some row s :
  mapSessionState row = Some s →
  ∃ u c, row = Some (u, c) ∧ st_id s = u_id u ∧ st_status s = u_status u ∧ st_credentialStatus s = c_status c ∧
    st_sessionVersion s = session_version c ∧ version_in_range (session_version c).
Proof.
  unfold mapSessionState. intros ([u c] & -> & H)%bind_Some. apply bind_Some in H as (v & Hv & H).
  apply bind_Some in H as (i & Hi & H). injection H as <-. exists u, c.
  unfold toSessionVersion in Hv. destruct (_ && _) eqn:E; [|done]. injection Hv as <-. to_prop.
  unfold isUserId in Hi. destruct (_ && _ && _) in Hi; [|done]. injection Hi as <-.
  repeat (split; [done|]). unfold version_in_range. lia.
Qed.

Lemma elem_of_people d u c : (u, c) ∈ people d ↔
  u ∈ users d ∧ c ∈ credentials d ∧ sql_eq (c_user_id c) (u_id u) = true ∧ sql_eq (u_kind u) "user" = true.
Proof.
  unfold people, credentials_of. rewrite list_elem_of_bind. setoid_rewrite list_elem_of_bind. split.
  - intros (u' & (c' & H & Hc) & Hu). destruct (sql_eq (u_kind u') "user") eqn:E; [|by apply elem_of_nil in H].
    apply list_elem_of_singleton in H. injection H as -> ->. apply elem_of_where in Hc as [Hc1 Hc2]. done.
  - intros (Hu & Hc & Hk & E). exists u. split; [|done]. exists c. rewrite E. split; [by left|]. by apply elem_of_where.
Qed.

(** An accepted token names an active account of this very generation. *)
Lemma gate_Ok token secret now env n (d : D) c s :
  authenticateSession token secret now env n d = (Ok c, s) →
  snd s = d ∧ verifyUserSession token secret now = Ok (Some c) ∧
  ∃ u cr, (u, cr) ∈ people (accounts d) ∧ u_id u = sub c ∧ session_version cr = sv c ∧
    u_status u = "active" ∧ c_status cr = "active".
Proof.
  unfold authenticateSession. intros (o & n1 & d1 & H1 & H)%sql_bind_Ok.
  apply catching_Ok, lift_Ok in H1 as [H1 [= -> ->]]. destruct o as [c'|]; [|by apply lift_Ok in H as [H _]].
  apply sql_bind_Ok in H as (st & n2 & d2 & H2 & H). apply catching_Ok in H2.
  destruct (isSessionCurrent (Some c') st) eqn:Ecur; [|by apply lift_Ok in H as [H _]].
  apply ret_Ok in H as [-> ->]. unfold getSessionState in H2.
  destruct (isUserId (VStr (sub c))) as [i|] eqn:Ei; [|by apply ret_Ok in H2 as [<- _]].
  assert (i = sub c) as -> by (unfold isUserId in Ei; destruct (_ && _ && _) in Ei; [by injection Ei|done]).
  apply sql_bind_Ok in H2 as (rows & n3 & d3 & H3 & H2). apply request_Ok in H3 as (_ & d4 & H3 & [= -> ->]).
  unfold on_accounts in H3. apply bind_Ok_iff in H3 as ([x a] & H3 & H4). injection H4 as -> <-.
  unfold selectSessionState in H3. injection H3 as <- <-. apply ret_Ok in H2 as [<- [= -> ->]].
  cbn [snd]. rewrite accounts_set_get. split; [done|]. split; [done|].
  destruct (mapSessionState _) as [s|] eqn:Em; [|done]. apply mapSessionState_Some in Em as (u & cr & Hr & E1 & E2 & E3 & E4 & _).
  unfold isSessionCurrent in Ecur. to_prop. repeat match goal with Heq : String.eqb _ _ = true |- _ => apply String.eqb_eq in Heq end.
  exists u, cr. split.
  - assert ((u, cr) ∈ take 1 (where_ (fun p => sql_eq (u_id p.1) (sub c)) (people (accounts d)))) as Hin.
    { destruct (take 1 _) as [|r rs]; [done|]. injection Hr as ->. left. }
    apply elem_of_take in Hin as (k & Hin & _). apply list_elem_of_lookup_2, elem_of_where in Hin as [_ Hin]. done.
  - split; [congruence|]. split; [congruence|]. split; congruence.
Qed.
End Gate.

(** ** Revocation *)

Section Revocation.
Context `{P : Platform, C : Collation, M : CaseMapping, H : PasswordHasher, V : !Vocabulary, Wire : WireFormat}.
Implicit Types d : UserDb.

(** The operations that are to end the sessions of an identifier. *)
Definition revokes (o : operation) (i : string) : Prop :=
  match o with
  | OpActivation _ t _ | OpReset _ t _ | OpTombstone _ t => ∃ T, t = VStr T ∧ sql_eq i T = true
  | OpCreate _ _ _ _ _ | OpUpdate _ _ _ _ _ => False
  end.

Definition generation d (i : string) : option Z := session_version <$> credential_in d i.

Lemma generation_account d i a v :
  account_in d i = Some a → sessionVersion a = Some v → generation d i = Some v.
Proof.
  unfold account_in, generation. destruct (user_in d i) as [u|]; [|done]. intros [= <-]. cbn. done.
Qed.

Lemma generation_eq d i j : sql_eq i j = true → generation d i = generation d j.
Proof.
  intros E. unfold generation, credential_in. rewrite (where_ext _ (fun c => sql_eq (c_user_id c) j)); [done|].
  intros c _. apply bool_decide_ext. apply bool_decide_eq_true in E. by rewrite E.
Qed.

(** Every one of them that committed starts a generation. *)
Lemma revoking_generation o res d d' i :
  performed o res d d' → revokes o i → ∃ v, generation d i = Some v ∧ generation d' i = Some (v + 1).
Proof.
  intros (actor & ch & _ & Hask & HT & Hc) Hrev.
  destruct Hc as (_ & _ & a' & Hch & Ha' & _).
  assert (sql_eq i (res_userId res) = true) as Hi.
  { destruct o; cbn in *; try done; destruct Hrev as (T & E & Hi); congruence. }
  rewrite !(generation_eq _ _ _ Hi).
  assert (∃ a v, account_in d (res_userId res) = Some a ∧ sessionVersion a = Some v ∧ sessionVersion a' = Some (v + 1))
    as (a & v & Ha & Hv & Hv').
  { destruct o; cbn in Hask, Hrev; try done.
    - destruct Hask as (act & -> & _). inversion Hch; subst; cbn; eauto 10.
    - destruct Hask as (hash & -> & _). inversion Hch; subst; cbn; eauto 10.
    - destruct Hask as (random & ->). inversion Hch; subst; cbn; eauto 10. }
  exists v. split; [by apply (generation_account d _ a)|by apply (generation_account d' _ a')].
Qed.

(** Generations never go back. *)
Lemma generation_later d d' i v :
  rtc admin_step d d' → well_formed d → generation d i = Some v → ∃ v', generation d' i = Some v' ∧ v ≤ v'.
Proof.
  intros Hs W Hg. destruct (admin_steps_upheld d d' Hs W) as (W' & [_ K] & _).
  unfold generation in *. destruct (credential_in d i) as [c|] eqn:Ec; [|done]. injection Hg as <-.
  apply credential_in_elem in Ec as [Hc Hi]. destruct (K c Hc) as (c' & Hc' & Eid & Hle & _).
  exists (session_version c'). split; [|done]. rewrite (elem_credential_in d' c' i W' Hc'); [done|]. by rewrite Eid.
Qed.

Lemma accepted_generation token secret c d :
  accepted token secret c d → well_formed d → generation d (sub c) = Some (sv c).
Proof.
  intros (now & env & n & s & Hg) W. apply gate_Ok in Hg as (_ & _ & u & cr & Hp & Eu & Ev & _).
  apply elem_of_people in Hp as (_ & Hc & Hk & _). rewrite Eu in Hk.
  unfold generation. by rewrite (elem_credential_in d cr (sub c) W Hc Hk), <- Ev.
Qed.

(** C26: A token that was ever let through is dead once its account's password is
    reset or its activation changed or it is closed, by whomever and by whatever
    spelling of its identifier: after that commit no later state of the tables, a
    renewed activation included, lets the token through again, at any time. *)
Theorem revoked_sessions_stay_revoked token secret c d d1 d2 d3 o env n res n' :
  well_formed d → accepted token secret c d → rtc admin_step d d1 →
  run o env n d1 = (Ok res, (n', d2)) → changed res = true → revokes o (sub c) →
  rtc admin_step d2 d3 →
  ∀ c', ¬ accepted token secret c' d3.
Proof.
  intros W Hacc H01 Hrun Hch Hrev H23 c' Hacc'.
  destruct (admin_steps_upheld d d1 H01 W) as (W1 & _).
  assert (upheld d1 d2) as (W2 & _) by (apply admin_step_upheld; [by exists o, env, n, (Ok res), n'|done]).
  destruct (admin_steps_upheld d2 d3 H23 W2) as (W3 & _).
  pose proof (run_answers o env n d1 (Ok res) n' d2 Hrun W1) as Hans. cbn in Hans.
  destruct (auditMode res); [|by destruct Hans as (_ & _ & Hno & _); rewrite Hno in Hch].
  destruct Hans as [Hperf _]. destruct (revoking_generation o res d1 d2 (sub c) Hperf Hrev) as (v & G1 & G2).
  pose proof (accepted_generation token secret c d Hacc W) as G0.
  destruct (generation_later d d1 _ _ H01 W G0) as (v1 & G1' & L1).
  destruct (generation_later d2 d3 _ _ H23 W2 G2) as (v3 & G3 & L3).
  pose proof (accepted_generation token secret c' d3 Hacc' W3) as G3'.
  destruct Hacc as (t & e & k & s & Hg). destruct Hacc' as (t' & e' & k' & s' & Hg').
  apply gate_Ok in Hg as (_ & Hv & _). apply gate_Ok in Hg' as (_ & Hv' & _).
  rewrite (verify_same _ _ _ _ _ _ Hv Hv') in G3'. rewrite G3 in G3'. rewrite G1 in G1'.
  injection G1' as ->. injection G3' as ->. lia.
Qed.
End Revocation.

(** ** Issued tokens *)

Section Issued.
Context `{Wire : WireFormat}.


Lemma str_forallb_impl (p q : ascii → bool) s :
  (∀ c, p c = true → q c = true) → str_forallb p s = true → str_forallb q s = true.
Proof.
  intros Hpq. induction s as [|c s IH]; [done|]. cbn. intros [Hc Hs]%andb_true_iff. by rewrite (Hpq c Hc), (IH Hs).
Qed.

Lemma url_char_visible c : url_char c = true → visible c = true.
Proof.
  unfold url_char, visible, is_digit. intros Hc. apply andb_true_iff. cbv zeta in Hc.
  rewrite !orb_true_iff, !andb_true_iff in Hc. split; [apply Z.leb_le|apply Z.ltb_lt]; 
    destruct Hc as [[[[[Hc1 Hc]|[Hc1 Hc]]|[Hc1 Hc]]|Hc]|Hc]; to_prop; lia.
Qed.

Lemma url_char_dot c : url_char c = true → negb (Ascii.eqb c ".") = true.
Proof. intros Hc. destruct (Ascii.eqb_spec c "."); [by subst|done]. Qed.

(** What is parsed from the claims that were printed. *)
Definition claims_value (c : UserSessionClaims) : value :=
  VObj [("v", VNum VERSION 0); ("sub", VStr (sub c)); ("sv", VNum (sv c) 0); ("iat", VNum (iat c) 0); ("exp", VNum (exp c) 0)].

Lemma isInteger_int z : isInteger (VNum z 0) = Some z.
Proof. cbn. by rewrite Z.mod_1_r, Z.div_1_r. Qed.

Lemma isSessionVersion_int z : 1 ≤ z → isSessionVersion (VNum z 0) = Some z.
Proof. intros Hz. unfold isSessionVersion. rewrite isInteger_int. cbn. by rewrite (proj2 (Z.leb_le _ _) Hz). Qed.

Lemma claims_of_value c :
  isUserId (VStr (sub c)) = Some (sub c) → 1 ≤ sv c → claims_of (claims_value c) = Some c.
Proof.
  intros Hs Hv. unfold claims_of, claims_value. cbn [get String.eqb Ascii.eqb Bool.eqb].
  rewrite !isInteger_int, Hs, isSessionVersion_int by done. rewrite bool_decide_true by done. by destruct c.
Qed.

Lemma isUserId_bound v s : isUserId v = Some s → v = VStr s ∧ s ≠ "" ∧ units s ≤ 40.
Proof.
  unfold isUserId. destruct v as [| | | | |s'| |]; try done. destruct (_ && test _ _) eqn:E; [|done]. intros [= ->]. to_prop.
  split; [done|]. unfold MAX_USER_ID_LENGTH in *. split; [by intros ->|done].
Qed.
Lemma escape_length s : (String.length (escape s) ≤ 6 * String.length s)%nat.
Proof.
  induction s as [|c s IH]; [done|]. cbn [escape]. rewrite length_append.
  assert (String.length (escape_char c) ≤ 6)%nat.
  { apply Nat.leb_le. destruct c as [[] [] [] [] [] [] [] []]; reflexivity. }
  cbn [String.length]. lia.
Qed.

Lemma show_Z_length k z : 0 ≤ z < 10 ^ Z.of_nat k → (1 ≤ k)%nat → (String.length (show_Z z) ≤ k)%nat.
Proof.
  intros Hz Hk. unfold show_Z. rewrite (proj2 (Z.ltb_ge z 0)) by lia. by apply length_show_nat.
Qed.

Lemma claims_length c :
  (String.length (sub c) ≤ 40)%nat → 0 ≤ sv c < 10 ^ 10 → 0 ≤ iat c < 10 ^ 13 → 0 ≤ exp c < 10 ^ 13 →
  (String.length (print (claims_json c)) ≤ 320)%nat.
Proof.
  intros Hs Hv Hi He. pose proof (escape_length (sub c)) as L0.
  pose proof (show_Z_length 10 _ Hv ltac:(lia)) as L1. pose proof (show_Z_length 13 _ Hi ltac:(lia)) as L2.
  pose proof (show_Z_length 13 _ He ltac:(lia)) as L3.
  unfold claims_json. cbn [print map fst snd join_comma jint]. unfold entry_text, json_string. cbn [fst snd].
  change (escape "v") with "v". change (escape "sub") with "sub". change (escape "sv") with "sv".
  change (escape "iat") with "iat". change (escape "exp") with "exp". change (show_Z VERSION) with "1".
  rewrite !length_append. cbn -[escape show_Z]. lia.
Qed.

Context `{Laws : !WireLaws Wire}.

(** The signature of an issued token verifies. *)
Lemma issued_authentic payload secret :
  (0 < String.length payload ≤ 320)%nat →
  let body := toBase64Url payload in
  authentic (body +:+ "." +:+ signature body secret) secret = Some body.
Proof.
  intros Hl body. unfold authentic, signature. destruct (hmac_shape secret body) as [Hlen Hsig].
  pose proof (toBase64Url_chars payload) as Hbody. pose proof (toBase64Url_length payload) as Hb. fold body in Hbody, Hb.
  assert (all_visible (body +:+ "." +:+ hmac secret body) = true) as Hvis.
  { unfold all_visible. rewrite !str_forallb_append.
    by rewrite (str_forallb_impl _ _ _ url_char_visible Hbody), (str_forallb_impl _ _ _ url_char_visible Hsig). }
  rewrite units_visible by done. unfold len. rewrite !length_append, Hlen.
  rewrite bool_decide_false by (intros E; apply (f_equal String.length) in E; rewrite !length_append, Hlen in E; cbn in E; lia).
  rewrite (proj2 (Z.ltb_ge _ _)) by (unfold SESSION_MAX_TOKEN_LENGTH; cbn; lia). cbn [orb].
  change ("." +:+ hmac secret body) with (String "." (hmac secret body)).
  rewrite split_on_app by (by apply (str_forallb_impl _ _ _ url_char_dot)).
  rewrite split_on_none by (by apply (str_forallb_impl _ _ _ url_char_dot)).
  rewrite !bool_decide_false by (intros E; rewrite E in *; cbn in *; lia).
  cbn [orb]. by rewrite String.eqb_refl.
Qed.

(** What [issueUserSession] issues, [verifyUserSession] answers with the claims it
    was issued for, from a minute before its issue and until its lifetime is over, in
    whole seconds, and never outside of that: issuing and verifying are inverse, and
    every issued token fits the bounds the verifier sets. *)
Theorem issued_session_verifies id v secret ttl now token now' :
  let c := Claims id v (now / 1000) (now / 1000 + ttl) in
  issueUserSession (VStr id) (VNum v 0) secret (VNum ttl 0) now = Ok token →
  all_visible id = true → v ≤ MAX_SESSION_VERSION → 0 ≤ now ≤ 8640000000000000 →
  json_parse (print (claims_json c)) = Some (claims_value c) →
  verifyUserSession (VStr token) secret now' =
    Ok (if (now / 1000 <=? now' / 1000 + CLOCK_SKEW_SECONDS) && (now' / 1000 <? now / 1000 + ttl) then Some c else None).
Proof.
  intros c Hi Hid Hv Hnow Hp. unfold issueUserSession in Hi. apply bind_Ok_iff in Hi as (s & Hs & Hi).
  rewrite isInteger_int in Hi. destruct (_ || _) eqn:Ettl; [done|]. to_prop.
  destruct (isUserId (VStr id)) as [i|] eqn:Eid; [|done]. pose proof (isUserId_bound _ _ Eid) as ([= <-] & Hne & Hun).
  destruct (isSessionVersion (VNum v 0)) as [w|] eqn:Ev; [|done].
  assert (1 ≤ v ∧ w = v) as [Hv1 ->].
  { unfold isSessionVersion in Ev. rewrite isInteger_int in Ev. cbn in Ev. destruct (Z.leb_spec 1 v); [|done]. by injection Ev. }
  cbv zeta in Hi. apply Ok_inj in Hi as <-. fold c. unfold verifyUserSession. rewrite Hs. cbn [mbind result_bind].
  unfold SESSION_MAX_TTL_SECONDS, MAX_SESSION_VERSION in *.
  assert (0 ≤ now / 1000 ≤ 8640000000000) as Hsec.
  { split; [by apply Z.div_pos; lia|]. apply Z.div_le_upper_bound; lia. }
  rewrite units_visible in Hun by done. unfold len in Hun.
  assert (0 < String.length (print (claims_json c)) ≤ 320)%nat as Hlen.
  { split; [unfold claims_json; cbn [print]; rewrite length_append; apply Nat.lt_0_succ|]. apply claims_length; cbn [sub sv iat exp c]; lia. }
  remember (print (claims_json c)) as payload eqn:Epay. clear Epay.
  rewrite issued_authentic by done. cbn [mbind option_bind].
  rewrite from_toBase64Url, Hp. cbn [mbind option_bind]. rewrite claims_of_value by done. cbn [mbind option_bind].
  do 2 f_equal. unfold timely. subst c. cbn [exp iat]. cbv zeta. unfold SESSION_MAX_TTL_SECONDS.
  rewrite (proj2 (Z.leb_gt (now / 1000 + ttl) (now / 1000))) by lia.
  rewrite (proj2 (Z.ltb_ge _ (now / 1000 + ttl - now / 1000))) by lia. cbn [negb]. rewrite !andb_true_r.
  rewrite <- Z.ltb_antisym, <- Z.leb_antisym, andb_comm. done.
Qed.
End Issued.

(** ** A session of one of the two administrators *)
Module DemoSession.
Import DemoUsers.

Definition letter (n : Z) : ascii := ascii_of_N (Z.to_N (97 + n)).

Fixpoint spell (s : string) : string :=
  match s with
  | EmptyString => ""
  | String c s => String (letter (code c / 16)) (String (letter (code c mod 16)) (spell s))
  end.

Fixpoint unspell (s : string) : string :=
  match s with
  | String a (String b s) => String (ascii_of_N (Z.to_N ((code a - 97) * 16 + (code b - 97)))) (unspell s)
  | _ => ""
  end.

Definition claims : UserSessionClaims := Claims "user-b" 1 1721817600 (1721817600 + 3600).

#[export] Instance wire : WireFormat :=
  {| hmac := fun _ _ => zeros 43; toBase64Url := spell; fromBase64Url := unspell;
     json_parse := fun t => if String.eqb t (print (claims_json claims)) then Some (claims_value claims) else None |}.

Lemma spell_char c : url_char (letter (code c / 16)) = true ∧ url_char (letter (code c mod 16)) = true ∧
  ascii_of_N (Z.to_N ((code (letter (code c / 16)) - 97) * 16 + (code (letter (code c mod 16)) - 97))) = c.
Proof. by destruct c as [[] [] [] [] [] [] [] []]. Qed.

#[export] Instance wire_laws : WireLaws wire.
Proof.
  split; [done| | |]; intros s; cbn; induction s as [|c s IH]; try done; cbn [spell unspell].
  - destruct (spell_char c) as (H1 & H2 & _). cbn [str_forallb]. by rewrite H1, H2.
  - cbn [String.length]. lia.
  - destruct (spell_char c) as (_ & _ & H3). by rewrite H3, IH.
Qed.

Definition secret : string := zeros 32.
Definition noon : Z := 1721817600123.
Definition token : string := spell (print (claims_json claims)) +:+ "." +:+ zeros 43.

Definition try (t : Z) (d : UserDb) : Prelude.result AuthFailure UserSessionClaims :=
  (authenticateSession (VStr token) (VStr secret) t env 0%nat d).1.

Example in_time : try noon db = Ok claims ∧ try (noon + 3600000) db = Throw AUTH_REQUIRED ∧ try noon alone = Throw AUTH_INVALID.
Proof. vm_compute. auto. Qed.
End DemoSession.
Import DemoUsers DemoSession.

Lemma issued_session_verifies_witness :
  verifyUserSession (VStr token) (VStr secret) (noon + 3599000) = Ok (Some claims).
Proof.
  rewrite (issued_session_verifies "user-b" 1 (VStr secret) 3600 noon token).
  - vm_compute. reflexivity.
  - vm_compute. reflexivity.
  - reflexivity.
  - vm_compute. intros E. discriminate E.
  - split; vm_compute; intros E; discriminate E.
  - vm_compute. reflexivity.
Defined.

Lemma revoked_sessions_stay_revoked_witness :
  changed <$> (match (run closing env 0%nat db).1 with Ok res => Some res | Throw _ => None end) = Some true ∧
  ¬ accepted (VStr token) (VStr secret) claims alone.
Proof.
  split; [vm_compute; reflexivity|].
  apply (revoked_sessions_stay_revoked (VStr token) (VStr secret) claims db db alone alone closing env 0%nat
    (Changed "user-b" USER_ACCOUNT_TOMBSTONED true 2 (Some hash_chained)) (run closing env 0%nat db).2.1).
  - exact db_well_formed.
  - exists noon, env, 0%nat. eexists. vm_compute. reflexivity.
  - apply rtc_refl.
  - vm_compute. reflexivity.
  - reflexivity.
  - exists "user-b". split; reflexivity.
  - apply rtc_refl.
Defined.
