(* ===== verification/UserList.v ===== *)
(** * The page of accounts

    [listUsers] of [src/adapters/mysqlUserAdministration.ts]: a bounded window of the
    accounts of people in the order of their handles, without anything a session or a
    password is made of. *)

From Stdlib Require Import Ascii.
From S2P Require Import Prelude JsText Calendar Scoring Sql AuditChain Credentials UserAdmin UserStore UserEffects UserLifecycle UserSafety UserGuarantees UserSession.

Local Open Scope string_scope.
Local Open Scope list_scope.
#[global] Open Scope Z_scope.

Record UserAdminListItem : Type := ListItem {
  item_id : string;
  item_username : string;
  item_email : option string;
  item_displayName : option string;
  item_userStatus : string;
  item_credentialStatus : string;
  item_roles : list string;
  item_maxSensitivityTier : string;
  item_lastLoginAt : option string;
  item_passwordChangedAt : option string;
  item_disabledAt : option string;
  item_createdAt : option string;
}.

Record UserAdminListPage : Type := ListPage {
  page_users : list UserAdminListItem;
  page_limit : Z;
  page_offset : Z;
}.

Definition splitRoles (value : option string) : list string :=
  match value with Some text => filter (fun r => r ≠ "") (split_on ","%char text) | None => [] end.

(** The driver answers a [Date]. *)
Definition toTimestamp (value : option Z) : option string := toISOString <$> value.

Section List.
Context `{C : Collation}.

(** [ORDER BY c.username_normalized ASC], a [utf8mb4_bin] column. *)
Definition by_username (p q : UserRow * CredentialRow) : bool :=
  String.leb (username_normalized p.2) (username_normalized q.2).

Definition listed (d : UserDb) : list (UserRow * CredentialRow * option string) :=
  map (fun p => (p, role_text d (u_id p.1))) (sort_by by_username (people d)).

Definition listUsers_stmt (limit offset : Z) : statement (list (UserRow * CredentialRow * option string)) :=
  fun _ d => Ok (take (Z.to_nat limit) (drop (Z.to_nat offset) (listed d)), d).

Definition list_item (row : UserRow * CredentialRow * option string) : UserAdminListItem :=
  let '(u, c, codes) := row in
  {| item_id := u_id u; item_username := username_normalized c; item_email := u_email u;
     item_displayName := u_display_name u; item_userStatus := u_status u; item_credentialStatus := c_status c;
     item_roles := splitRoles codes; item_maxSensitivityTier := u_max_sensitivity_tier u;
     item_lastLoginAt := toTimestamp (u_last_login_at u);
     item_passwordChangedAt := toTimestamp (Some (password_changed_at c));
     item_disabledAt := toTimestamp (disabled_at c);
     item_createdAt := toTimestamp (Some (u_created_at u)) |}.

Definition listUsers (actor limit_ offset_ : value) : admin UserAdminListPage :=
  _ ← lift (requireActorUserId actor);
  window ← lift (requireListWindow limit_ offset_);
  rows ← read (listUsers_stmt (limit window) (offset window));
  mret (ListPage (map list_item rows) (limit window) (offset window)).

(** Pages of one size, one after the other, are the whole list. *)
Lemma pages_tile size d n :
  (0 < size)%nat → (length (listed d) ≤ n * size)%nat →
  mjoin (map (fun i => take size (drop (i * size) (listed d))) (seq 0 n)) = listed d.
Proof.
  intros Hs. generalize (listed d) as l. induction n as [|n IH]; intros l Hl; [by destruct l; cbn in *; [|lia]|].
  cbn [seq map mjoin list_join]. cbn [Nat.mul]. rewrite drop_0.
  etransitivity; [|apply (take_drop size)]. f_equal.
  rewrite <- (IH (drop size l)) by (rewrite length_drop; lia). rewrite <- seq_shift, map_map. f_equal.
  apply map_ext. intros i. by rewrite drop_drop.
Qed.

(** A page that was answered changed nothing, stays within its window, and shows
    accounts of people only. *)
Lemma listUsers_Ok actor limit_ offset_ env n d page n' d' :
  listUsers actor limit_ offset_ env n d = (Ok page, (n', d')) →
  d' = d ∧ 1 ≤ page_limit page ≤ USER_LIST_MAX_LIMIT ∧ 0 ≤ page_offset page ≤ USER_LIST_MAX_OFFSET ∧
  page_users page = map list_item (take (Z.to_nat (page_limit page)) (drop (Z.to_nat (page_offset page)) (listed d))).
Proof.
  intros H. unfold listUsers in H. apply sql_bind_Ok in H as (a & n1 & d1 & H1 & H). apply lift_Ok in H1 as [_ [= -> ->]].
  apply sql_bind_Ok in H as (w & n2 & d2 & H2 & H). apply lift_Ok in H2 as [H2 [= -> ->]].
  apply sql_bind_Ok in H as (rows & n3 & d3 & H3 & H). apply read_Ok in H3 as (z & e & [= <- <-] & [= -> ->]).
  apply ret_Ok in H as [<- [= -> ->]]. cbn. split; [done|].
  assert (∀ v def lo hi k, lo ≤ def ≤ hi → integer_within v def lo hi = Some k → lo ≤ k ≤ hi) as Hw.
  { intros v def lo hi k Hd. unfold integer_within. destruct v; try done; try (intros [= <-]; lia).
    destruct (_ && _) eqn:E; [|done]. intros [= <-]. to_prop. lia. }
  unfold requireListWindow in H2.
  destruct (integer_within limit_ _ _ _) eqn:E1; [|done]. destruct (integer_within offset_ _ _ _) eqn:E2; [|done].
  injection H2 as <-. apply Hw in E1; [|unfold USER_LIST_DEFAULT_LIMIT, USER_LIST_MAX_LIMIT; lia].
  apply Hw in E2; [|unfold USER_LIST_MAX_OFFSET; lia]. done.
Qed.
End List.

Module DemoList.
Import DemoUsers.

Example first_page :
  map item_username (default [] (match (listUsers (VStr "user-a") (VNum 1 0) VUndefined env 0%nat db).1 with
                                 | Ok page => Some (page_users page) | Throw _ => None end)) = ["first"] ∧
  (listUsers (VStr "user-a") (VNum 201 0) VUndefined env 0%nat db).1 = Throw (inputError listWindowInvalid []).
Proof. vm_compute. auto. Qed.
End DemoList.
