(* ===== verification/PasswordHash.v ===== *)
(** * Stored passwords

    The encoding of [src/auth/passwordHash.ts]: what it takes to be verified against,
    and that what [hashPassword] stores verifies. *)

From Stdlib Require Import Ascii.
From S2P Require Import Prelude JsText Regex CanonicalJson Scoring Sql AuditChain Credentials UserAdmin UserStore UserEffects UserLifecycle UserSafety UserGuarantees UserSession.

Local Open Scope string_scope.
Local Open Scope list_scope.
#[global] Open Scope Z_scope.

Definition ALGORITHM : string := "scrypt".
Definition KEY_LENGTH : Z := 32.
Definition SALT_BYTES : Z := 16.
Definition DEFAULT_COST : Z := 16384.
Definition DEFAULT_BLOCK_SIZE : Z := 8.
Definition DEFAULT_PARALLELIZATION : Z := 1.
Definition MAX_VERIFY_MEMORY_BYTES : Z := 64 * 1024 * 1024.
Definition MAX_VERIFY_WORK_UNITS : Z := 4 * DEFAULT_COST * DEFAULT_BLOCK_SIZE * DEFAULT_PARALLELIZATION.
Definition MAX_COST : Z := Z.shiftl 1 17.
Definition MAX_BLOCK_SIZE : Z := 16.
Definition MAX_PARALLELIZATION : Z := 4.

Record ScryptParameters : Type := Parameters { cost : Z; blockSize : Z; parallelization : Z }.

(** [scrypt] of [node:crypto] for 32 bytes, [None] when it fails. *)
Class KeyDerivation : Type := {
  scrypt : string → string → ScryptParameters → option string;
}.

(** Documented: the derived key has the length asked for. *)
Class KeyDerivationLaws `(KeyDerivation) : Prop := {
  scrypt_length password salt parameters key :
    scrypt password salt parameters = Some key → String.length key = 32%nat;
}.

Definition default_parameters : ScryptParameters :=
  Parameters DEFAULT_COST DEFAULT_BLOCK_SIZE DEFAULT_PARALLELIZATION.

(** [parts.join('$')] of four. *)
Definition encoding (algorithm parameters salt digest : string) : string :=
  algorithm +:+ "$" +:+ parameters +:+ "$" +:+ salt +:+ "$" +:+ digest.

Definition parameter_text (p : ScryptParameters) : string :=
  "N=" +:+ show_Z (cost p) +:+ ",r=" +:+ show_Z (blockSize p) +:+ ",p=" +:+ show_Z (parallelization p).

(** [(\d{1,k})] after a prefix, as far as the digits go. *)
Definition number_after (prefix : string) (k : nat) (s : string) : option (Z * string) :=
  rest ← strip_prefix prefix s;
  let '(digits, rest) := span_digits rest in
  if (1 <=? String.length digits)%nat && (String.length digits <=? k)%nat then Some (dec_value digits, rest) else None.

(** [/^N=(\d{1,7}),r=(\d{1,3}),p=(\d{1,3})$/.exec(text)] *)
Definition match_parameters (text : string) : option ScryptParameters :=
  '(n, rest) ← number_after "N=" 7 text;
  '(r, rest) ← number_after ",r=" 3 rest;
  '(p, rest) ← number_after ",p=" 3 rest;
  if String.eqb rest "" then Some (Parameters n r p) else None.

Definition isPowerOfTwo (value : Z) : bool := (1 <? value) && (Z.land value (value - 1) =? 0).

(** The bounds, structural and of the envelope. *)
Definition affordable (p : ScryptParameters) : bool :=
  isPowerOfTwo (cost p) && (cost p <=? MAX_COST) &&
  (1 <=? blockSize p) && (blockSize p <=? MAX_BLOCK_SIZE) &&
  (1 <=? parallelization p) && (parallelization p <=? MAX_PARALLELIZATION) &&
  (128 * cost p * blockSize p <=? MAX_VERIFY_MEMORY_BYTES) &&
  (cost p * blockSize p * parallelization p <=? MAX_VERIFY_WORK_UNITS).

Record ParsedHash : Type := Parsed { parameters : ScryptParameters; salt : string; digest : string }.

Section Hashes.
Context `{CaseMapping, WireFormat, KeyDerivation}.

Definition decodeBase64Url (value : string) : option string :=
  if negb (String.eqb value "") && str_forallb url_char value then Some (fromBase64Url value) else None.

Definition parseStoredPasswordHash (storedHash : string) : option ParsedHash :=
  if 512 <? units storedHash then None
  else match split_on "$"%char storedHash with
       | [algorithm; parameterText; saltText; digestText] =>
           if negb (String.eqb algorithm ALGORITHM) then None
           else parameters ← match_parameters parameterText;
                if negb (affordable parameters) then None
                else salt ← decodeBase64Url saltText;
                     digest ← decodeBase64Url digestText;
                     if (len salt <? 8) || (64 <? len salt) || negb (len digest =? KEY_LENGTH) then None
                     else Some (Parsed parameters salt digest)
       | _ => None
       end.

Definition isStoredPasswordHashValid (storedHash : string) : bool :=
  bool_decide (is_Some (parseStoredPasswordHash storedHash)).

(** The salt is of [randomBytes]. *)
Definition hashPassword (password : string) (identity : PasswordIdentityContext) (salt : string)
    : Prelude.result CredentialError string :=
  match checkPasswordPolicy (VStr password) identity with
  | [] => match scrypt password salt default_parameters with
          | Some digest => Ok (encoding ALGORITHM (parameter_text default_parameters) (toBase64Url salt) (toBase64Url digest))
          | None => Throw (CredError HASHING_FAILED)
          end
  | _ => Throw (CredError PASSWORD_POLICY)
  end.

Definition verifyPassword (password : value) (storedHash : string) : bool :=
  match password with
  | VStr p =>
      if bool_decide (p = "") || (PASSWORD_MAX_LENGTH <? units p) || (PASSWORD_MAX_BYTES <? len p) then false
      else match parseStoredPasswordHash storedHash with
           | Some parsed =>
               match scrypt p (salt parsed) (parameters parsed) with
               | Some candidate => String.eqb candidate (digest parsed)
               | None => false
               end
           | None => false
           end
  | _ => false
  end.

(** What the sentinel of a closed account begins with is not the name of the algorithm. *)
Lemma revoked_unverifiable random : parseStoredPasswordHash (REVOKED_PASSWORD_SENTINEL_PREFIX +:+ random) = None.
Proof.
  unfold parseStoredPasswordHash. destruct (512 <? _); [done|].
  change (REVOKED_PASSWORD_SENTINEL_PREFIX +:+ random) with ("revoked" +:+ String "$" random).
  rewrite split_on_app by done. destruct (split_on _ random) as [|a [|b [|c [|e l]]]]; reflexivity.
Qed.

(** Every verification that is bought is within the envelope. *)
Lemma parsed_affordable storedHash parsed :
  parseStoredPasswordHash storedHash = Some parsed →
  128 * cost (parameters parsed) * blockSize (parameters parsed) ≤ MAX_VERIFY_MEMORY_BYTES ∧
  cost (parameters parsed) * blockSize (parameters parsed) * parallelization (parameters parsed) ≤ MAX_VERIFY_WORK_UNITS ∧
  len (digest parsed) = KEY_LENGTH.
Proof.
  unfold parseStoredPasswordHash. destruct (512 <? _); [done|].
  destruct (split_on _ _) as [|a [|b [|c [|e [|]]]]]; try done. destruct (negb (String.eqb a ALGORITHM)); [done|].
  intros (p & _ & Hp)%bind_Some. destruct (affordable p) eqn:Ea; [|done]. cbn [negb] in Hp.
  apply bind_Some in Hp as (s & _ & Hp). apply bind_Some in Hp as (g & _ & Hp).
  destruct (_ || _) eqn:El; [done|]. injection Hp as <-. unfold affordable in Ea. to_prop. cbn. done.
Qed.

Context `{!WireLaws _, !KeyDerivationLaws _}.

Lemma default_parameters_match : match_parameters (parameter_text default_parameters) = Some default_parameters.
Proof. reflexivity. Qed.

(** A stored hash of the program's own making is read back as it was made. *)
Lemma parse_encoding salt digest :
  len salt = SALT_BYTES → len digest = KEY_LENGTH →
  parseStoredPasswordHash (encoding ALGORITHM (parameter_text default_parameters) (toBase64Url salt) (toBase64Url digest)) =
  Some (Parsed default_parameters salt digest).
Proof.
  intros Hs Hd. change (parameter_text default_parameters) with "N=16384,r=8,p=1".
  pose proof (toBase64Url_chars salt) as Cs. pose proof (toBase64Url_chars digest) as Cd.
  pose proof (toBase64Url_length salt) as Ls. pose proof (toBase64Url_length digest) as Ld.
  unfold len, SALT_BYTES, KEY_LENGTH in *. unfold parseStoredPasswordHash, encoding.
  assert (∀ w, str_forallb url_char w = true → str_forallb (fun c => negb (Ascii.eqb c "$")) w = true) as Hno.
  { intros w. apply str_forallb_impl. intros c Hc. destruct (Ascii.eqb_spec c "$"); [by subst|done]. }
  rewrite units_visible.
  2: { unfold all_visible. rewrite !str_forallb_append.
       by rewrite (str_forallb_impl _ _ _ url_char_visible Cs), (str_forallb_impl _ _ _ url_char_visible Cd). }
  unfold len. rewrite !length_append. rewrite (proj2 (Z.ltb_ge _ _)) by (cbn [String.length ALGORITHM]; lia).
  assert (∀ w t, str_forallb (fun c => negb (Ascii.eqb c "$")) w = true → split_on "$"%char (w +:+ "$" +:+ t) = w :: split_on "$"%char t)
    as Hcut by (intros w t; apply split_on_app).
  rewrite !Hcut by (done || by apply Hno). rewrite split_on_none by (by apply Hno). change (String.eqb ALGORITHM ALGORITHM) with true. cbn [negb].
  change (match_parameters "N=16384,r=8,p=1") with (Some default_parameters). cbn [mbind option_bind].
  change (affordable default_parameters) with true. cbn [negb].
  assert (∀ w, (0 < String.length w)%nat → decodeBase64Url (toBase64Url w) = Some w) as Hdec.
  { intros w Hw. unfold decodeBase64Url. rewrite toBase64Url_chars, from_toBase64Url.
    destruct (String.eqb_spec (toBase64Url w) "") as [E|]; [|done].
    pose proof (toBase64Url_length w) as L. rewrite E in L. cbn in L. lia. }
  rewrite !Hdec by lia. cbn [mbind option_bind]. unfold len. rewrite Hd.
  rewrite (proj2 (Z.ltb_ge _ 8)), (proj2 (Z.ltb_ge 64 _)) by lia. done.
Qed.

(** What the policy accepts is within the bounds of the verifier. *)
Lemma accepted_bounds p identity :
  checkPasswordPolicy (VStr p) identity = [] →
  bool_decide (p = "") || (PASSWORD_MAX_LENGTH <? units p) || (PASSWORD_MAX_BYTES <? len p) = false.
Proof.
  unfold checkPasswordPolicy. intros V0. apply app_eq_nil in V0 as [V1 V0]. apply app_eq_nil in V0 as [V2 _].
  unfold violation in V1, V2. destruct (units p <? _) eqn:E1; [done|]. destruct (_ || _) eqn:E2; [done|].
  rewrite <- orb_assoc, E2, orb_false_r. apply bool_decide_eq_false. intros ->. done.
Qed.

(** What [hashPassword] stores is read back as it was made, the hashed password
    verifies against it, and another that the policy accepts verifies exactly when it
    derives the same key under the stored salt. *)
Theorem hashed_password_verifies password identity salt stored other who :
  hashPassword password identity salt = Ok stored → len salt = SALT_BYTES →
  isStoredPasswordHashValid stored = true ∧
  verifyPassword (VStr password) stored = true ∧
  (checkPasswordPolicy (VStr other) who = [] →
    verifyPassword (VStr other) stored =
      bool_decide (scrypt other salt default_parameters = scrypt password salt default_parameters)).
Proof.
  unfold hashPassword. destruct (checkPasswordPolicy (VStr password) identity) eqn:Ep; [|done].
  destruct (scrypt password salt default_parameters) as [key|] eqn:Ek; [|done]. intros [= <-] Hs.
  pose proof (parse_encoding salt key Hs) as Hparse. unfold KEY_LENGTH, len in Hparse.
  rewrite (scrypt_length _ _ _ _ Ek) in Hparse. specialize (Hparse eq_refl).
  unfold isStoredPasswordHashValid, verifyPassword. rewrite Hparse. split; [done|].
  cbn [parameters PasswordHash.salt digest]. rewrite (accepted_bounds _ _ Ep), Ek. split; [apply String.eqb_refl|].
  intros Ho. rewrite (accepted_bounds _ _ Ho). destruct (scrypt other salt default_parameters) as [k'|].
  - destruct (String.eqb_spec k' key) as [->|Hne]; symmetry; [by apply bool_decide_eq_true|].
    apply bool_decide_eq_false. congruence.
  - symmetry. by apply bool_decide_eq_false.
Qed.
End Hashes.

Module DemoHash.
Import DemoUsers DemoSession.

(** A key of 32 characters that depends on password and salt. *)
#[export] Instance derivation : KeyDerivation :=
  {| scrypt := fun password salt _ => Some (str_take 32 (pad_end 32 (password +:+ salt))) |}.

#[export] Instance derivation_laws : KeyDerivationLaws derivation.
Proof.
  split. intros password salt p key Hk. cbn [scrypt derivation] in Hk. apply (inj Some) in Hk as <-.
  apply length_str_take. rewrite length_pad_end. lia.
Qed.

Definition stored : string :=
  encoding ALGORITHM "N=16384,r=8,p=1" (spell (zeros 16)) (spell (str_take 32 (pad_end 32 ("Correct-Horse-7" +:+ zeros 16)))).

Example unusable : map isStoredPasswordHashValid
  [stored; "revoked$" +:+ zeros 43; encoding "scrypt" "N=131072,r=8,p=1" (spell (zeros 16)) (spell (zeros 32));
   encoding "scrypt" "N=16385,r=8,p=1" (spell (zeros 16)) (spell (zeros 32));
   encoding "scrypt" "N=16384,r=8,p=1" (spell (zeros 7)) (spell (zeros 32))] = [true; false; false; false; false].
Proof. vm_compute. reflexivity. Qed.
End DemoHash.
Import DemoUsers DemoSession DemoHash.

Lemma hashed_password_verifies_witness :
  verifyPassword (VStr "Correct-Horse-7") stored = true ∧ verifyPassword (VStr "Correct-Horse-8") stored = false.
Proof.
  destruct (hashed_password_verifies "Correct-Horse-7" (Identity None None) (zeros 16) stored "Correct-Horse-8" (Identity None None))
    as (_ & H1 & H2).
  - vm_compute. reflexivity.
  - reflexivity.
  - split; [exact H1|]. rewrite H2; vm_compute; reflexivity.
Defined.
