(* ===== verification/LoginService.v ===== *)
(** * Database login

    [src/auth/loginService.ts] and [src/adapters/mysqlLoginService.ts]: the two guards of
    migration 0010, the one verification an attempt buys, and the transaction that turns
    it into an authorization. Everything between two statements of an attempt that are
    not in one transaction may be somebody else's. *)

From Stdlib Require Import Ascii.
From S2P Require Import Prelude JsText Regex CanonicalJson Scoring Sql AuditChain Credentials UserAdmin UserStore UserEffects UserLifecycle UserSafety UserGuarantees UserSession PasswordHash.

Local Open Scope string_scope.
Local Open Scope list_scope.
#[global] Open Scope Z_scope.

(** ** Policy *)

Inductive LoginGuardScope : Type := login | source.

#[export] Instance LoginGuardScope_eq_dec : EqDecision LoginGuardScope.
Proof. solve_decision. Defined.

Definition scope_text (s : LoginGuardScope) : string := match s with login => "login" | source => "source" end.

Definition isGuardScope (s : string) : option LoginGuardScope :=
  if String.eqb s "login" then Some login else if String.eqb s "source" then Some source else None.

Definition CLIENT_SOURCE_MAX_LENGTH : Z := 100.
Definition LOGIN_FAILURE_WINDOW_SECONDS : Z := 15 * 60.
Definition LOGIN_FAILURE_THRESHOLDS (s : LoginGuardScope) : Z := match s with login => 5 | source => 50 end.
Definition LOGIN_BLOCK_SECONDS : Z := 15 * 60.
Definition LOGIN_GUARD_RETENTION_SECONDS : Z := 24 * 60 * 60.
Definition LOGIN_GUARD_MAX_FAILURE_COUNT : Z := 1000000.

Inductive LoginDenialReason : Type :=
| loginOversize | passwordMissing | passwordOversize | clientSourceInvalid
| loginMalformed
| loginThrottled | sourceThrottled
| accountUnknown | passwordMismatch | accountInactive | credentialDisabled | credentialTombstoned
| credentialUnusable | stateChanged.

#[export] Instance LoginDenialReason_eq_dec : EqDecision LoginDenialReason.
Proof. solve_decision. Defined.

Inductive LoginFaultCode : Type :=
| login_configInvalid | guardReadFailed | guardStateMalformed | guardWriteFailed | login_readFailed
| login_writeFailed | login_writeCountUnexpected | login_stateMalformed | login_auditFailed
| login_commitFailed | login_unexpected.

(** ** An attempt whose sizes have been checked *)

Record BoundedLoginAttempt : Type := Attempt {
  normalizedLogin : option string;
  attempt_password : string;
  attempt_source : string;
}.

(** [/^[\x21-\x7e]{1,100}$/] *)
Definition isClientSource (s : string) : bool :=
  (1 <=? units s) && (units s <=? CLIENT_SOURCE_MAX_LENGTH) &&
  str_forallb (fun c => (33 <=? code c) && (code c <=? 126)) s.

Definition boundLoginAttempt `{CaseMapping} (login_ password clientSource : value)
    : Prelude.result LoginDenialReason BoundedLoginAttempt :=
  match password with
  | VStr p =>
      if bool_decide (p = "") then Throw passwordMissing
      else if (PASSWORD_MAX_LENGTH <? units p) || (PASSWORD_MAX_BYTES <? len p) then Throw passwordOversize
      else match clientSource with
           | VStr s =>
               if (CLIENT_SOURCE_MAX_LENGTH <? units s) || negb (isClientSource s) then Throw clientSourceInvalid
               else match login_ with
                    | VStr l => if LOGIN_MAX_LENGTH <? units l then Throw loginOversize
                                else Ok (Attempt (normalizeLogin (VStr l)) p s)
                    | _ => Throw loginOversize
                    end
           | _ => Throw clientSourceInvalid
           end
  | _ => Throw passwordMissing
  end.

(** ** Guards *)

(** [createHmac('sha256', key)], raw and in hex. *)
Class GuardDigests : Type := {
  hmac_raw : string → string → string;
  hmac_hex : string → string → string;
}.

Definition GUARD_KEY_CONTEXT : string := "kaudit.login-guard.v1.key".
Definition GUARD_DIGEST_CONTEXT : string := "kaudit.login-guard.v1.digest".
Definition FIELD_SEPARATOR : string := chr 31.

Definition deriveLoginGuardSecret `{GuardDigests} (sessionSecret : value) : Prelude.result LoginFaultCode string :=
  match sessionSecret with
  | VStr s => if units s <? SESSION_MIN_SECRET_LENGTH then Throw login_configInvalid else Ok (hmac_raw s GUARD_KEY_CONTEXT)
  | _ => Throw login_configInvalid
  end.

Definition deriveLoginGuardDigest `{GuardDigests} (scope : LoginGuardScope) (value guardSecret : string) : string :=
  hmac_hex guardSecret (GUARD_DIGEST_CONTEXT +:+ FIELD_SEPARATOR +:+ scope_text scope +:+ FIELD_SEPARATOR +:+ value).

(** [kaudit_login_guard]; instants are in milliseconds. *)
Record GuardRow : Type := Guard {
  guard_scope : string;
  guard_digest : string;
  failure_count : Z;
  window_started_at : Z;
  last_failure_at : Z;
  blocked_until : option Z;
  expires_at : Z;
}.

Record LoginGuardState : Type := GuardState {
  state_scope : LoginGuardScope;
  failureCount : Z;
  blockedUntil : option Z;
}.

Definition isGuardBlocked (blockedUntil : option Z) (now : Z) : bool :=
  match blockedUntil with Some t => now <? t | None => false end.

Definition guardDenialReason (scope : LoginGuardScope) : LoginDenialReason :=
  match scope with login => loginThrottled | source => sourceThrottled end.

Definition guardWindowCutoff (now : Z) : Z := now - LOGIN_FAILURE_WINDOW_SECONDS * 1000.
Definition guardBlockedUntil (now : Z) : Z := now + LOGIN_BLOCK_SECONDS * 1000.
Definition guardExpiresAt (now : Z) : Z := now + LOGIN_GUARD_RETENTION_SECONDS * 1000.

(** The instants a [Date] can hold. *)
Definition valid_instant (t : Z) : bool := Z.abs t <=? 8640000000000000.

Definition trustedLoginInstant (t : Z) : Prelude.result LoginFaultCode Z :=
  if valid_instant t && valid_instant (guardWindowCutoff t) && valid_instant (guardBlockedUntil t) &&
     valid_instant (guardExpiresAt t)
  then Ok t else Throw login_configInvalid.

(** One failure on a row: every right-hand side reads the row before the update. *)
Definition counted (threshold at_ : Z) (g : GuardRow) : GuardRow :=
  let cutoff := guardWindowCutoff at_ in
  let restart := window_started_at g <=? cutoff in
  {| guard_scope := guard_scope g; guard_digest := guard_digest g;
     failure_count := if restart then 1 else Z.min (failure_count g + 1) LOGIN_GUARD_MAX_FAILURE_COUNT;
     window_started_at := if restart then at_ else window_started_at g;
     last_failure_at := at_;
     blocked_until := if threshold <=? (if restart then 1 else failure_count g + 1)
                      then Some (guardBlockedUntil at_) else blocked_until g;
     expires_at := guardExpiresAt at_ |}.

Definition first_failure (scope digest : string) (at_ : Z) : GuardRow :=
  Guard scope digest 1 at_ at_ None (guardExpiresAt at_).

(** The columns of the key are in [utf8mb4_bin]. *)
Definition is_guard (scope digest : string) (g : GuardRow) : bool :=
  String.eqb (guard_scope g) scope && String.eqb (guard_digest g) digest.

Record LoginDb : Type := LoginTables { login_accounts : UserDb; guards : list GuardRow }.

#[export] Instance LoginDb_accounts : AccountStore LoginDb.
Proof. by refine {| accounts := login_accounts; set_accounts := fun a d => LoginTables a (guards d) |}; [|intros []]. Defined.

#[export] Instance LoginDb_audit : AuditStore LoginDb.
Proof.
  refine {| audit_tables := fun d => db_audit (login_accounts d);
            set_audit := fun t d => LoginTables (set_audit t (login_accounts d)) (guards d) |};
    intros; try destruct d as [[] ?]; done.
Defined.

Notation guard_statement A := (Z → LoginDb → Prelude.result sql_error (A * LoginDb)).

Definition set_guards (gs : list GuardRow) (d : LoginDb) : LoginDb := LoginTables (login_accounts d) gs.

(** The pairs a statement on two keys names. *)
Definition named (pairs : list (LoginGuardScope * string)) (g : GuardRow) : bool :=
  existsb (fun p => is_guard (scope_text p.1) p.2 g) pairs.

Definition selectGuards (pairs : list (LoginGuardScope * string)) : guard_statement (list GuardRow) :=
  fun _ d => Ok (where_ (named pairs) (guards d), d).

Definition upsertGuard (scope : LoginGuardScope) (digest : string) (at_ : Z) : guard_statement unit :=
  fun _ d =>
    let mine := is_guard (scope_text scope) digest in
    Ok (tt, set_guards (if existsb mine (guards d)
                        then (update_where mine (counted (LOGIN_FAILURE_THRESHOLDS scope) at_) (guards d)).2
                        else guards d ++ [first_failure (scope_text scope) digest at_]) d).

Definition deleteGuards (pairs : list (LoginGuardScope * string)) : guard_statement unit :=
  fun _ d => Ok (tt, set_guards (delete_where (named pairs) (guards d)).2 d).

(** ** The account *)

Section AccountStatements.
Context `{C : Collation}.

Definition lockAccount (id : string) : statement (list (UserRow * CredentialRow)) :=
  fun _ d => Ok (where_ (fun p => sql_eq (u_id p.1) id) (people d), d).

Definition updateLastLogin (at_ : Z) (id : string) : statement nat :=
  fun time d => with_users (Ok (update_where
    (fun u => sql_eq (u_id u) id && sql_eq (u_kind u) "user" && sql_eq (u_status u) "active")
    (fun u => User (u_id u) (u_kind u) (u_email u) (u_display_name u) (u_max_sensitivity_tier u)
                (u_status u) (Some at_) (u_created_at u) (Some time)) (users d))) d.
End AccountStatements.

Definition accountStateReason (status credentialStatus : string) : option LoginDenialReason :=
  if String.eqb credentialStatus "tombstoned" then Some credentialTombstoned
  else if String.eqb credentialStatus "disabled" then Some credentialDisabled
  else if negb (String.eqb status "active") || negb (String.eqb credentialStatus "active") then Some accountInactive
  else None.

Record LoginAuthorization : Type := Authorization {
  auth_userId : string;
  auth_sessionVersion : Z;
  auth_roles : list string;
  auth_maxSensitivityTier : string;
}.

(** A denial with the reason the sink is given; the caller sees [public] of it. *)
Inductive LoginOutcome : Type :=
| Granted (authorization : LoginAuthorization)
| Denied (reason : LoginDenialReason).

(** [LoginResult]: [None] is [LOGIN_DENIED]. *)
Definition public (o : LoginOutcome) : option LoginAuthorization :=
  match o with Granted a => Some a | Denied _ => None end.

(** ** The service *)

(** The first bytes of a SHA-256 digest, in base64url. *)
Class DigestSegments : Type := { syntheticSegment : string → nat → string }.

Definition SYNTHETIC_PASSWORD_HASH `{DigestSegments} : string :=
  encoding "scrypt" "N=16384,r=8,p=1" (syntheticSegment "kaudit.login.synthetic.salt.v1" 16)
    (syntheticSegment "kaudit.login.synthetic.digest.v1" 32).

Record GuardKeys : Type := Keys { key_login : option string; key_source : string }.

(** The facts that the audit event of a login pins. *)
Definition loginControlHash `{Platform} (userId userStatus credentialStatus : string) (roles : list string) (version : Z) : string :=
  sha256Hex (print (JArr [JStr "kaudit-login-control"; JStr userId; JStr userStatus; JStr credentialStatus;
    JArr (map JStr (sort_by String.leb roles)); jint version])).

Definition buildLoginAuditEvent (userId controlHash correlation : string) (occurred : Z) : AuditEvent :=
  {| AuditChain.actorUserId := Some userId; AuditChain.actorEmail := None; ev_action := "auth.login";
     resourceType := "kaudit_user"; resourceId := Some userId; ev_outcome := success;
     purpose := "authentication"; correlationId := correlation; ipAddress := None;
     client := Some "auth:database-login"; beforeHash := None; afterHash := Some controlHash; occurredAt := occurred |}.

Section Service.
Context `{P : Platform, C : Collation, M : CaseMapping, Wire : WireFormat, K : KeyDerivation, G : GuardDigests, S : DigestSegments}.

(** What other transactions commit before a statement that starts one. *)
Variable others : nat → LoginDb → LoginDb.

Notation service := (Sql LoginDb LoginFaultCode).

Definition elsewhere : service unit := fun _ n d => (Ok tt, (n, others n d)).

Definition guardPairs (keys : GuardKeys) : list (LoginGuardScope * string) :=
  match key_login keys with Some k => [(login, k)] | None => [] end ++ [(source, key_source keys)].

Definition guardPairParameters (keys : GuardKeys) : list (LoginGuardScope * string) :=
  [match key_login keys with Some k => (login, k) | None => (source, key_source keys) end; (source, key_source keys)].

(** A row that is not a guard row, or a second one of a scope, is refused. *)
Fixpoint narrow_guards (seen : list LoginGuardScope) (rows : list GuardRow)
    : Prelude.result LoginFaultCode (list LoginGuardState) :=
  match rows with
  | [] => Ok []
  | row :: rows =>
      match isGuardScope (guard_scope row) with
      | None => Throw guardStateMalformed
      | Some scope =>
          if bool_decide (scope ∈ seen) ||
             negb ((0 <=? failure_count row) && (failure_count row <=? LOGIN_GUARD_MAX_FAILURE_COUNT))
          then Throw guardStateMalformed
          else states ← narrow_guards (scope :: seen) rows;
               Ok (GuardState scope (failure_count row) (blocked_until row) :: states)
      end
  end.

Definition readGuards (keys : GuardKeys) : service (list LoginGuardState) :=
  rows ← catching (request (selectGuards (guardPairParameters keys))) (fun _ => guardReadFailed);
  lift (narrow_guards [] rows).

Fixpoint upsert_all (pairs : list (LoginGuardScope * string)) (at_ : Z) : service unit :=
  match pairs with
  | [] => mret tt
  | (scope, digest) :: pairs =>
      _ ← catching (request (upsertGuard scope digest at_)) (fun _ => login_unexpected);
      upsert_all pairs at_
  end.

Definition recordFailure (keys : GuardKeys) (at_ : Z) : service unit :=
  catching (inTransaction login_unexpected login_commitFailed
    (_ ← upsert_all (guardPairs keys) at_; mret (Outcome true tt))) (fun _ => guardWriteFailed).

Definition login_read {A} (st : statement A) : service A :=
  catching (request (on_accounts st)) (fun _ => login_readFailed).

Definition login_write (st : statement nat) (expected : nat) : service unit :=
  n ← catching (request (on_accounts st)) (fun _ => login_writeFailed);
  lift (throw_if (negb (n =? expected)%nat) login_writeCountUnexpected).

Definition complete_body (account : CredentialUser) (keys : GuardKeys) (at_ : Z) (correlation eventId : string)
    : service (TransactionOutcome LoginOutcome) :=
  locked ← login_read (lockAccount (cu_id account));
  match locked with
  | [] => mret (Outcome false (Denied stateChanged))
  | (u, c) :: _ =>
      match toSessionVersion (session_version c) with
      | None => lift (Throw login_stateMalformed)
      | Some version =>
          if bool_decide (is_Some (accountStateReason (u_status u) (c_status c))) || negb (version =? cu_sessionVersion account)
          then mret (Outcome false (Denied stateChanged))
          else
            roles ← login_read (selectTargetRolesForUpdate (cu_id account));
            _ ← login_write (updateLastLogin at_ (cu_id account)) 1;
            _ ← catching (request (deleteGuards (guardPairParameters keys))) (fun _ => guardWriteFailed);
            _ ← catching (recordAuditEventInTransaction
                  (buildLoginAuditEvent (cu_id account)
                     (loginControlHash (cu_id account) (u_status u) (c_status c) roles version) correlation at_) eventId)
                  (fun _ => login_auditFailed);
            mret (Outcome true (Granted (Authorization (cu_id account) version roles (u_max_sensitivity_tier u))))
      end
  end.

Definition completeLogin (account : CredentialUser) (keys : GuardKeys) (at_ : Z) : service LoginOutcome :=
  correlation ← newId; eventId ← newId;
  inTransaction login_unexpected login_commitFailed (complete_body account keys at_ correlation eventId).

Definition keys_of (guardSecret : string) (a : BoundedLoginAttempt) : GuardKeys :=
  Keys ((fun l => deriveLoginGuardDigest login l guardSecret) <$> normalizedLogin a)
       (deriveLoginGuardDigest source (attempt_source a) guardSecret).

(** The hash the attempt is verified against, when there is one of the account's own. *)
Definition usable_hash (account : option CredentialUser) : option string :=
  a ← account; if isStoredPasswordHashValid (cu_passwordHash a) then Some (cu_passwordHash a) else None.

(** The account of an attempt that may log in, after exactly one verification. *)
Definition verdict (attempt : BoundedLoginAttempt) (account : option CredentialUser)
    : Prelude.result LoginDenialReason CredentialUser :=
  let storedHash := usable_hash account in
  let verified := verifyPassword (VStr (attempt_password attempt)) (default SYNTHETIC_PASSWORD_HASH storedHash) in
  match account with
  | None => Throw (match normalizedLogin attempt with Some _ => accountUnknown | None => loginMalformed end)
  | Some a =>
      let stateReason := accountStateReason (cu_status a) (cu_credentialStatus a) in
      match storedHash with
      | None => Throw (default credentialUnusable stateReason)
      | Some _ =>
          if negb verified then Throw passwordMismatch
          else match stateReason with Some reason => Throw reason | None => Ok a end
      end
  end.

Definition authenticate (guardSecret : string) (login_ password clientSource : value) : service LoginOutcome :=
  t ← now;
  at_ ← lift (trustedLoginInstant t);
  match boundLoginAttempt login_ password clientSource with
  | Throw reason => mret (Denied reason)
  | Ok attempt =>
      let keys := keys_of guardSecret attempt in
      _ ← elsewhere;
      states ← readGuards keys;
      match List.find (fun s => isGuardBlocked (blockedUntil s) at_) states with
      | Some s => mret (Denied (guardDenialReason (state_scope s)))
      | None =>
          _ ← elsewhere;
          account ← (match normalizedLogin attempt with
                     | Some l => catching (findByLogin (VStr l)) (fun _ => login_readFailed)
                     | None => mret None
                     end : service (option CredentialUser));
          _ ← elsewhere;
          match verdict attempt account with
          | Throw reason => _ ← recordFailure keys at_; mret (Denied reason)
          | Ok account => completeLogin account keys at_
          end
      end
  end.

Definition createMysqlLoginService (sessionSecret : value)
    : service (value → value → value → service LoginOutcome) :=
  t ← now; _ ← lift (trustedLoginInstant t);
  guardSecret ← lift (deriveLoginGuardSecret sessionSecret);
  mret (authenticate guardSecret).
End Service.
