(* ===== verification/LoginSafety.v ===== *)
(** * What a login guarantees

    However its statements interleave with those of others, an authorization is for an
    account that is active, at the generation and against the hash that hold when it
    commits; and attempts on one guard are bounded. *)

From S2P Require Import Prelude JsText Regex CanonicalJson Scoring Sql AuditChain Credentials UserAdmin UserStore UserEffects UserLifecycle UserSafety UserGuarantees UserSession PasswordHash LoginService.

Local Open Scope string_scope.
Local Open Scope list_scope.
#[global] Open Scope Z_scope.

(** ** One guard *)

Section OneGuard.
Implicit Types (g : option GuardRow) (scope : LoginGuardScope).

Definition guard_blocked g (now : Z) : bool := isGuardBlocked (g ≫= blocked_until) now.

(** A failure on the row of a guard, or on its absence. *)
Definition failed scope (digest : string) (at_ : Z) g : option GuardRow :=
  Some match g with
       | Some g => counted (LOGIN_FAILURE_THRESHOLDS scope) at_ g
       | None => first_failure (scope_text scope) digest at_
       end.

(** Failures at these instants, none while the guard blocks. *)
Inductive failures scope (digest : string) : option GuardRow → list Z → option GuardRow → Prop :=
| no_failure g : failures scope digest g [] g
| one_more g t ts g' :
    guard_blocked g t = false → failures scope digest (failed scope digest t g) ts g' →
    failures scope digest g (t :: ts) g'.

Definition window : Z := LOGIN_FAILURE_WINDOW_SECONDS * 1000.

Context (scope : LoginGuardScope) (digest : string) (a : Z).
Notation T := (LOGIN_FAILURE_THRESHOLDS scope).

(** How many failures the guard still admits between [a] and [a + window]. *)
Definition admits g : Z :=
  match g with
  | None => T
  | Some g =>
      if match blocked_until g with Some b => a + window <=? b | None => false end then 0
      else if a <=? window_started_at g then Z.max 1 (T - failure_count g)
      else T + Z.max 0 (T - 1 - failure_count g)
  end.

Lemma threshold_range : 2 ≤ T ∧ T < LOGIN_GUARD_MAX_FAILURE_COUNT.
Proof. by destruct scope. Qed.

Lemma admits_blocked (g : GuardRow) : match blocked_until g with Some b => a + window <=? b | None => false end = true → admits (Some g) = 0.
Proof. intros E. unfold admits. by rewrite E. Qed.

Lemma admits_failed g t :
  guard_blocked g t = false → a ≤ t < a + window → admits (failed scope digest t g) + 1 ≤ admits g.
Proof.
  intros Hb Ht. pose proof threshold_range as [HT1 HT2]. unfold failed. destruct g as [g|].
  2: { unfold admits, first_failure. cbn [blocked_until window_started_at failure_count].
       rewrite (proj2 (Z.leb_le a t)) by lia. lia. }
  unfold guard_blocked in Hb. cbn in Hb.
  assert (match blocked_until g with Some b => a + window <=? b | None => false end = false) as E.
  { destruct (blocked_until g) as [b|]; [|done]. cbn in Hb. apply Z.ltb_ge in Hb. apply Z.leb_gt. lia. }
  unfold admits at 2. rewrite E. unfold admits, counted. cbn [blocked_until window_started_at failure_count].
  unfold guardWindowCutoff, guardBlockedUntil, LOGIN_BLOCK_SECONDS.
  change (LOGIN_FAILURE_WINDOW_SECONDS * 1000) with window. change (15 * 60 * 1000) with window.
  destruct (Z.leb_spec (window_started_at g) (t - window)) as [Hr|Hr].
  - rewrite (proj2 (Z.leb_gt T 1)) by lia. rewrite E, (proj2 (Z.leb_le a t)) by lia.
    rewrite (proj2 (Z.leb_gt a (window_started_at g))) by lia. lia.
  - destruct (Z.leb_spec T (failure_count g + 1)) as [Hc|Hc].
    + rewrite (proj2 (Z.leb_le (a + window) (t + window))) by lia. destruct (Z.leb_spec a (window_started_at g)); lia.
    + rewrite E. destruct (Z.leb_spec a (window_started_at g)); lia.
Qed.

Lemma failures_bounded g ts g' :
  failures scope digest g ts g' → Forall (fun t => a ≤ t < a + window) ts →
  Z.of_nat (length ts) + admits g' ≤ admits g.
Proof.
  induction 1 as [g|g t ts g' Hb _ IH]; intros Hts; [cbn; lia|]. apply Forall_cons in Hts as [Ht Hts].
  specialize (IH Hts). pose proof (admits_failed g t Hb Ht). cbn [length]. lia.
Qed.

Lemma admits_range g : (∀ r, g = Some r → 1 ≤ failure_count r) → 0 ≤ admits g ≤ 2 * T - 2.
Proof.
  intros Hg. pose proof threshold_range as [HT _]. unfold admits. destruct g as [g|]; [|lia].
  specialize (Hg g eq_refl). cbn match.
  destruct (match blocked_until g with Some b => a + window <=? b | None => false end); [lia|].
  destruct (a <=? window_started_at g); lia.
Qed.
End OneGuard.

(** ** The table of guards *)

Definition same_guard (g h : GuardRow) : bool := is_guard (guard_scope g) (guard_digest g) h.
Definition keyed (d : LoginDb) : Prop := distinct same_guard (guards d) = true.

Definition guard_in (d : LoginDb) (scope : LoginGuardScope) (digest : string) : option GuardRow :=
  head (where_ (is_guard (scope_text scope) digest) (guards d)).

Lemma is_guard_true s k g : is_guard s k g = true ↔ guard_scope g = s ∧ guard_digest g = k.
Proof. unfold is_guard. rewrite andb_true_iff, !String.eqb_eq. done. Qed.

Lemma one_guard d scope k : keyed d →
  where_ (is_guard (scope_text scope) k) (guards d) = match guard_in d scope k with Some g => [g] | None => [] end.
Proof.
  intros Hk. unfold guard_in. destruct (distinct_where same_guard (is_guard (scope_text scope) k) (guards d) Hk) as [E|[g E]];
    [|by rewrite E..]. intros x y Hx Hy. apply is_guard_true in Hx as [E1 E2]. unfold same_guard. by rewrite E1, E2.
Qed.

Lemma scope_text_inj s t : scope_text s = scope_text t → s = t.
Proof. by destruct s, t. Qed.

Lemma counted_key T t g : guard_scope (counted T t g) = guard_scope g ∧ guard_digest (counted T t g) = guard_digest g.
Proof. done. Qed.

(** Updating rows without touching their keys. *)
Lemma keyed_map (f : GuardRow → GuardRow) gs :
  (∀ g, guard_scope (f g) = guard_scope g ∧ guard_digest (f g) = guard_digest g) →
  distinct same_guard (map f gs) = distinct same_guard gs.
Proof.
  intros Hf. assert (∀ g h, same_guard (f g) (f h) = same_guard g h) as Hs.
  { intros g h. unfold same_guard, is_guard. by rewrite (proj1 (Hf g)), (proj2 (Hf g)), (proj1 (Hf h)), (proj2 (Hf h)). }
  assert (∀ g hs, forallb (fun h => negb (same_guard (f g) h)) (map f hs) = forallb (fun h => negb (same_guard g h)) hs) as Ha.
  { intros g hs. induction hs as [|h hs IH]; [done|]. cbn [map forallb]. by rewrite Hs, IH. }
  induction gs as [|g gs IH]; [done|]. cbn [map distinct]. by rewrite IH, Ha.
Qed.

(** One failure on one guard. *)
Lemma upsertGuard_Ok s0 k0 at_ z d d' :
  upsertGuard s0 k0 at_ z d = Ok (tt, d') → keyed d →
  keyed d' ∧ accounts d' = accounts d ∧
  ∀ scope k, guard_in d' scope k =
    if bool_decide ((scope, k) = (s0, k0)) then failed s0 k0 at_ (guard_in d s0 k0) else guard_in d scope k.
Proof.
  intros [= <-] Hk. pose proof (one_guard d s0 k0 Hk) as Hone.
  set (mine := is_guard (scope_text s0) k0) in *.
  assert (∀ scope k g, (scope, k) ≠ (s0, k0) → mine g = true → is_guard (scope_text scope) k g = false) as Hother.
  { intros scope k g Hne Hm. destruct (is_guard (scope_text scope) k g) eqn:E; [|done]. exfalso. apply Hne.
    apply is_guard_true in Hm as [E1 E2]. apply is_guard_true in E as [E3 E4].
    rewrite (scope_text_inj scope s0) by congruence. congruence. }
  destruct (existsb mine (guards d)) eqn:Ex.
  - split; [|split; [done|]].
    + unfold keyed. cbn [guards set_guards update_where snd]. rewrite keyed_map; [exact Hk|].
      intros g. destruct (mine g); [apply counted_key|done].
    + intros scope k. unfold guard_in. cbn [guards set_guards update_where snd].
      rewrite where_map by (intros g; destruct (mine g); [unfold is_guard; by rewrite !(proj1 (counted_key _ _ g)), !(proj2 (counted_key _ _ g))|done]).
      rewrite head_map. destruct (bool_decide_reflect ((scope, k) = (s0, k0))) as [[= -> ->]|Hne].
      * fold mine. rewrite Hone. destruct (guard_in d s0 k0) as [g|] eqn:Eg.
        -- cbn. assert (mine g = true) as ->; [|done].
           assert (g ∈ where_ mine (guards d)) as Hg by (rewrite Hone; left). by apply elem_of_where in Hg as [Hg _].
        -- apply existsb_exists in Ex as (g & Hg & Hm). apply list_elem_of_In in Hg.
           by rewrite (where_nil mine _ g Hone Hg) in Hm.
      * destruct (where_ (is_guard (scope_text scope) k) (guards d)) as [|g l] eqn:Ew; [done|]. cbn.
        assert (g ∈ where_ (is_guard (scope_text scope) k) (guards d)) as Hg by (rewrite Ew; left).
        apply elem_of_where in Hg as [Hg _]. destruct (mine g) eqn:Em; [|done]. by rewrite (Hother scope k g Hne Em) in Hg.
  - assert (∀ g, g ∈ guards d → mine g = false) as Hnone.
    { intros g Hg. destruct (mine g) eqn:Em; [|done]. rewrite <- Ex. symmetry. apply existsb_exists.
      exists g. split; [by apply list_elem_of_In|done]. }
    assert (guard_in d s0 k0 = None) as En by (unfold guard_in; fold mine; by rewrite where_none).
    split; [|split; [done|]].
    + unfold keyed. cbn [guards set_guards]. apply distinct_snoc; [exact Hk|]. intros g Hg.
      unfold same_guard, is_guard. cbn [first_failure guard_scope guard_digest]. specialize (Hnone g Hg).
      unfold mine, is_guard in Hnone. rewrite String.eqb_sym, (String.eqb_sym k0). exact Hnone.
    + intros scope k. unfold guard_in at 1. cbn [guards set_guards]. rewrite where_app.
      destruct (bool_decide_reflect ((scope, k) = (s0, k0))) as [[= -> ->]|Hne].
      * fold mine. rewrite where_none by done. rewrite En. unfold where_. rewrite filter_cons, decide_True; [done|].
        unfold mine, is_guard. cbn. by rewrite !String.eqb_refl.
      * rewrite (where_none _ [_]); [by rewrite app_nil_r|]. intros g ->%list_elem_of_singleton.
        apply Hother; [done|]. unfold mine, is_guard. cbn. by rewrite !String.eqb_refl.
Qed.

(** ** Computations *)

Section Cases.
Context {D E : Type}.

Lemma sql_bind_cases {A B} (m : Sql D E A) (k : A → Sql D E B) env n d r s :
  (m ≫= k) env n d = (r, s) →
  (∃ e, m env n d = (Throw e, s) ∧ r = Throw e) ∨ (∃ a n1 d1, m env n d = (Ok a, (n1, d1)) ∧ k a env n1 d1 = (r, s)).
Proof.
  unfold mbind, Sql_bind. destruct (m env n d) as [[a|e] [n1 d1]]; [eauto 10|]. intros [= <- <-]. left. eauto.
Qed.

(** What only reads. *)
Definition reads {A} (m : Sql D E A) : Prop := ∀ env n d r n' d', m env n d = (r, (n', d')) → d' = d.

Lemma reads_ret {A} (a : A) : reads (mret a).
Proof. by intros env n d r n' d' [= _ _ ->]. Qed.
Lemma reads_lift {A} (x : Prelude.result E A) : reads (lift x).
Proof. by intros env n d r n' d' [= _ _ ->]. Qed.
Lemma reads_now : reads now.
Proof. by intros env n d r n' d' [= _ _ ->]. Qed.
Lemma reads_bind {A B} (m : Sql D E A) (k : A → Sql D E B) : reads m → (∀ a, reads (k a)) → reads (m ≫= k).
Proof.
  intros Hm Hk env n d r n' d' [(e & H & _)|(a & n1 & d1 & H & H')]%sql_bind_cases; [by eapply Hm|].
  rewrite (Hk _ _ _ _ _ _ _ H'). by eapply Hm.
Qed.
End Cases.

Lemma reads_catching {D E E' A} (m : Sql D E A) (f : E → E') : reads m → reads (catching m f).
Proof.
  intros Hm env n d r n' d' H. unfold catching in H. destruct (m env n d) as [[a|e] [n1 d1]] eqn:Em;
    injection H as _ _ <-; by eapply Hm.
Qed.

Lemma reads_request {D A} (st : Z → D → Prelude.result sql_error (A * D)) :
  (∀ z d a d', st z d = Ok (a, d') → d' = d) → reads (request st).
Proof.
  intros Hst env n d r n' d' H. unfold request in H. destruct (refused env n); [by injection H as _ _ <-|].
  destruct (st (statement_time env n) d) as [[a d1]|e] eqn:Es; injection H as _ _ <-; [by eapply Hst|done].
Qed.

Section Guards.
Context `{P : Platform, C : Collation, M : CaseMapping, Wire : WireFormat, K : KeyDerivation, G : GuardDigests, S : DigestSegments}.

(** Every guard of the keys counted one failure, and nothing else changed. *)
Definition all_failed (pairs : list (LoginGuardScope * string)) (at_ : Z) (d d' : LoginDb) : Prop :=
  keyed d' ∧ accounts d' = accounts d ∧
  ∀ scope k, guard_in d' scope k =
    if bool_decide ((scope, k) ∈ pairs) then failed scope k at_ (guard_in d scope k) else guard_in d scope k.

Lemma upsert_all_Ok pairs at_ env n d u n' d' :
  upsert_all pairs at_ env n d = (Ok u, (n', d')) → NoDup pairs → keyed d → all_failed pairs at_ d d'.
Proof.
  revert n d. induction pairs as [|[s0 k0] pairs IH]; intros n d H Hnd Hk; cbn [upsert_all] in H.
  - apply ret_Ok in H as [_ [= -> ->]]. done.
  - apply sql_bind_Ok in H as ([] & n1 & d1 & H1 & H). apply catching_Ok, request_Ok in H1 as (_ & d2 & H1 & [= -> ->]).
    apply NoDup_cons in Hnd as [Hni Hnd]. apply upsertGuard_Ok in H1 as (K1 & A1 & G1); [|done].
    destruct (IH _ _ H Hnd K1) as (K2 & A2 & G2). split; [done|]. split; [by rewrite A2|].
    intros scope k. rewrite G2, !G1. destruct (bool_decide_reflect ((scope, k) = (s0, k0))) as [[= -> ->]|Hne].
    + rewrite bool_decide_false by done. by rewrite bool_decide_true by left.
    + assert (bool_decide ((scope, k) ∈ (s0, k0) :: pairs) = bool_decide ((scope, k) ∈ pairs)) as ->; [|done].
      apply bool_decide_ext. rewrite elem_of_cons. naive_solver.
Qed.

Lemma guardPairs_NoDup keys : NoDup (guardPairs keys).
Proof.
  unfold guardPairs. destruct (key_login keys); cbn; [|apply NoDup_singleton].
  apply NoDup_cons. split; [|apply NoDup_singleton]. intros Hin. by apply list_elem_of_singleton in Hin.
Qed.

Lemma recordFailure_cases keys at_ env n d r n' d' :
  recordFailure keys at_ env n d = (r, (n', d')) → keyed d →
  all_failed (guardPairs keys) at_ d d' ∧ (r = Ok tt ∨ r = Throw guardWriteFailed) ∨ d' = d ∧ r = Throw guardWriteFailed.
Proof.
  intros H Hk. unfold recordFailure, catching in H.
  destruct (inTransaction _ _ _ env n d) as [[[]|e] [n1 d1]] eqn:Et; injection H as <- <- <-.
  - apply inTransaction_Ok in Et as (o & n2 & d2 & Hb & -> & [= -> ->]).
    apply sql_bind_Ok in Hb as ([] & n3 & d3 & Hu & Hb). apply ret_Ok in Hb as [<- [= -> ->]]. left.
    split; [|by left]. eapply upsert_all_Ok; [exact Hu|apply guardPairs_NoDup|done].
  - apply inTransaction_Throw in Et as [->|(_ & o & n2 & Hb & _)]; [by right|].
    apply sql_bind_Ok in Hb as ([] & n3 & d3 & Hu & Hb). apply ret_Ok in Hb as [<- [= -> ->]]. left.
    split; [|by right]. eapply upsert_all_Ok; [exact Hu|apply guardPairs_NoDup|done].
Qed.

Lemma narrow_guards_Ok seen rows states :
  narrow_guards seen rows = Ok states → ∀ g, g ∈ rows → ∃ s, s ∈ states ∧ blockedUntil s = blocked_until g.
Proof.
  revert seen states. induction rows as [|row rows IH]; intros seen states H g Hg; [by apply elem_of_nil in Hg|].
  cbn in H. destruct (isGuardScope (guard_scope row)) as [scope|]; [|done]. destruct (_ || _); [done|].
  apply bind_Ok_iff in H as (l & H & Hl). injection Hl as <-. apply elem_of_cons in Hg as [->|Hg].
  - eexists. split; [left|done].
  - destruct (IH _ _ H g Hg) as (s & Hs & E). exists s. split; [by right|done].
Qed.

Lemma readGuards_reads keys : reads (readGuards keys).
Proof.
  apply reads_bind; [|intros; apply reads_lift]. apply reads_catching, reads_request. by intros z d a d' [= _ ->].
Qed.

(** A guard that is read as not blocking does not block. *)
Lemma readGuards_Ok keys env n d states s at_ :
  readGuards keys env n d = (Ok states, s) →
  List.find (fun s => isGuardBlocked (blockedUntil s) at_) states = None →
  ∀ scope k, (scope, k) ∈ guardPairs keys → guard_blocked (guard_in d scope k) at_ = false.
Proof.
  intros H Hf scope k Hin. unfold readGuards in H. apply sql_bind_Ok in H as (rows & n1 & d1 & H1 & H).
  apply catching_Ok, request_Ok in H1 as (_ & d2 & [= <- <-] & [= -> ->]). apply lift_Ok in H as [H _].
  unfold guard_blocked. destruct (guard_in d scope k) as [g|] eqn:Eg; [|done]. cbn.
  assert (g ∈ where_ (named (guardPairParameters keys)) (guards d)) as Hg.
  { unfold guard_in in Eg. destruct (where_ (is_guard (scope_text scope) k) (guards d)) as [|x l] eqn:Ew; [done|]. injection Eg as ->.
    assert (g ∈ where_ (is_guard (scope_text scope) k) (guards d)) as Hg by (rewrite Ew; left).
    apply elem_of_where in Hg as [Hg Hin']. apply elem_of_where. split; [|done].
    unfold named. apply existsb_exists. exists (scope, k). split; [|done]. apply list_elem_of_In.
    unfold guardPairs, guardPairParameters in *. destruct (key_login keys) as [kl|]; [exact Hin|].
    apply list_elem_of_singleton in Hin as ->. left. }
  destruct (narrow_guards_Ok _ _ _ H g Hg) as (st & Hst & <-).
  destruct (isGuardBlocked (blockedUntil st) at_) eqn:Eb; [|done]. exfalso.
  pose proof (List.find_none _ _ Hf st (proj1 (list_elem_of_In _ _) Hst)) as Hn. cbv beta in Hn. congruence.
Qed.

(** ** The transaction of a login *)

Lemma login_read_Ok {A} (st : statement A) env n d a s :
  login_read st env n d = (Ok a, s) →
  ∃ z a', st z (accounts d) = Ok (a, a') ∧ s = (Datatypes.S n, set_accounts a' d).
Proof.
  unfold login_read. intros H. apply catching_Ok, request_Ok in H as (_ & d' & H & ->).
  unfold on_accounts in H. apply bind_Ok_iff in H as ([x e] & H & E). injection E as <- <-. eauto.
Qed.

Lemma login_select_Ok {A} (f : UserDb → A) env n d a s :
  login_read (fun _ a => Ok (f a, a)) env n d = (Ok a, s) → a = f (accounts d) ∧ s = (Datatypes.S n, d).
Proof.
  intros (z & a' & E & ->)%login_read_Ok. apply Ok_inj in E.
  assert (a' = accounts d) as -> by congruence. rewrite accounts_set_get. split; [congruence|done].
Qed.

Lemma login_write_Ok st k env n d u s :
  login_write st k env n d = (Ok u, s) →
  ∃ z a', st z (accounts d) = Ok (k, a') ∧ s = (Datatypes.S n, set_accounts a' d).
Proof.
  unfold login_write. intros (m & n1 & d1 & H1 & H2)%sql_bind_Ok. apply catching_Ok, request_Ok in H1 as (_ & d' & H1 & E).
  injection E as -> ->. apply lift_Ok in H2 as [H2 ->]. apply throw_if_Ok, negb_false_iff, Nat.eqb_eq in H2. subst m.
  unfold on_accounts in H1. apply bind_Ok_iff in H1 as ([x e] & H1 & E). injection E as <- <-. eauto.
Qed.

(** The stamp of a login on the rows of an identifier. *)
Definition stamped (at_ time : Z) (id : string) (u : UserRow) : UserRow :=
  if sql_eq (u_id u) id && sql_eq (u_kind u) "user" && sql_eq (u_status u) "active"
  then User (u_id u) (u_kind u) (u_email u) (u_display_name u) (u_max_sensitivity_tier u)
         (u_status u) (Some at_) (u_created_at u) (Some time)
  else u.

(** What a login that commits has read and written. *)
Definition login_effect (account : CredentialUser) (keys : GuardKeys) (at_ : Z) (auth : LoginAuthorization) (d d' : LoginDb) : Prop :=
  let id := cu_id account in
  let a := accounts d in
  ∃ u c time t,
    (u, c) ∈ people a ∧ sql_eq (u_id u) id = true ∧ session_version c = cu_sessionVersion account ∧
    u_status u = "active" ∧ c_status c = "active" ∧
    auth = Authorization id (session_version c) (roles_in a id) (u_max_sensitivity_tier u) ∧
    accounts d' = Db (map (stamped at_ time id) (users a)) (credentials a) (user_roles a) t ∧
    guards d' = (delete_where (named (guardPairParameters keys)) (guards d)).2 ∧
    (verifies (db_audit a) → verifies t) ∧
    ∃ r, audit_log t = audit_log (db_audit a) ++ [r] ∧ log_action r = "auth.login" ∧ log_resource_id r = Some id ∧
         log_after_hash r = Some (loginControlHash id "active" "active" (roles_in a id) (session_version c)).

Lemma accountStateReason_None us cs : accountStateReason us cs = None → us = "active" ∧ cs = "active".
Proof.
  unfold accountStateReason. destruct (String.eqb cs "tombstoned"); [done|]. destruct (String.eqb cs "disabled"); [done|].
  destruct (String.eqb_spec us "active"), (String.eqb_spec cs "active"); done.
Qed.

Lemma toSessionVersion_Some v w : toSessionVersion v = Some w → w = v.
Proof. unfold toSessionVersion. destruct (_ && _); [by intros [= ->]|done]. Qed.

Lemma updateLastLogin_Ok at_ id z a k a' :
  updateLastLogin at_ id z a = Ok (k, a') →
  a' = Db (map (stamped at_ z id) (users a)) (credentials a) (user_roles a) (db_audit a).
Proof. intros H. apply Ok_inj in H. by apply (f_equal snd) in H. Qed.

Lemma deleteGuards_Ok {E} pairs (f : sql_error → E) env n d u s :
  catching (request (deleteGuards pairs)) f env n d = (Ok u, s) →
  s = (Datatypes.S n, set_guards (delete_where (named pairs) (guards d)).2 d).
Proof.
  intros H. apply catching_Ok, request_Ok in H as (_ & d' & H & ->). apply Ok_inj in H.
  apply (f_equal snd) in H. cbn [snd] in H. by rewrite <- H.
Qed.

(** One audited event, whoever writes it. *)
Lemma recorded_Ok {D} `{AuditStore D} event id env n (d : D) m n' d' :
  recordAuditEventInTransaction event id env n d = (Ok m, (n', d')) →
  ∃ t, d' = set_audit t d ∧ (verifies (audit_tables d) → verifies t) ∧
  ∃ r, audit_log t = audit_log (audit_tables d) ++ [r] ∧ log_action r = ev_action event ∧
       log_resource_id r = resourceId event ∧ log_after_hash r = afterHash event.
Proof.
  intros Hr. assert (recorded event d d') as Hrec by (by exists id, env, n, m, n').
  pose proof (record_verifies event d d' Hrec) as Hv.
  apply record_Ok in Hr as (_ & -> & _). eexists. split; [done|]. rewrite audit_get_set in Hv.
  split; [intros Hver; by apply Hv|]. destruct m; cbn [audit_log]; eexists; (split; [done|]); done.
Qed.

Lemma complete_body_Ok account keys at_ correlation eventId env n d o n' d' :
  complete_body account keys at_ correlation eventId env n d = (Ok o, (n', d')) →
  if commit o then ∃ auth, outcome_value o = Granted auth ∧ login_effect account keys at_ auth d d'
  else outcome_value o = Denied stateChanged.
Proof.
  intros H. unfold complete_body in H.
  apply sql_bind_Ok in H as (locked & n1 & d1 & H1 & H). apply login_select_Ok in H1 as [Hl [= -> ->]].
  symmetry in Hl. destruct locked as [|[u c] rest]; [by apply ret_Ok in H as [<- _]|].
  assert ((u, c) ∈ where_ (fun p => sql_eq (u_id p.1) (cu_id account)) (people (accounts d))) as Hin by (rewrite Hl; left).
  apply elem_of_where in Hin as [Hid Hin]. cbn in Hid.
  destruct (toSessionVersion (session_version c)) as [v|] eqn:Ev; [|by apply lift_Ok in H as [H _]].
  apply toSessionVersion_Some in Ev as ->.
  destruct (_ || _) eqn:Eg; [by apply ret_Ok in H as [<- _]|]. to_prop.
  destruct (accountStateReason (u_status u) (c_status c)) eqn:Er; [naive_solver|].
  apply accountStateReason_None in Er as [Hus Hcs].
  apply sql_bind_Ok in H as (codes & n2 & d2 & H2 & H). apply login_select_Ok in H2 as [Hroles [= -> ->]].
  fold (roles_in (accounts d) (cu_id account)) in Hroles.
  apply sql_bind_Ok in H as (u3 & n3 & d3 & H3 & H). apply login_write_Ok in H3 as (z3 & a3 & H3 & [= -> ->]).
  apply updateLastLogin_Ok in H3 as ->.
  apply sql_bind_Ok in H as (u4 & n4 & d4 & H4 & H). apply deleteGuards_Ok in H4 as [= -> ->].
  apply sql_bind_Ok in H as (mode & n6 & d6 & H6 & H). apply catching_Ok, recorded_Ok in H6 as (t & -> & Hv & r & Hr & R1 & R2 & R3).
  apply ret_Ok in H as [<- [= -> ->]]. cbn [commit outcome_value]. subst codes.
  eexists. split; [done|]. exists u, c, z3, t.
  split; [done|]. split; [done|]. split; [done|]. split; [done|]. split; [done|]. split; [done|].
  split; [done|]. split; [done|]. split; [done|]. exists r. split; [done|]. split; [done|]. split; [done|].
  rewrite R3. cbn [afterHash buildLoginAuditEvent]. by rewrite Hus, Hcs.
Qed.

Lemma completeLogin_cases account keys at_ env n d r n' d' :
  completeLogin account keys at_ env n d = (r, (n', d')) →
  (∃ auth, login_effect account keys at_ auth d d' ∧ (r = Ok (Granted auth) ∨ r = Throw login_commitFailed)) ∨
  d' = d ∧ (r = Ok (Denied stateChanged) ∨ is_ok r = false).
Proof.
  intros H. unfold completeLogin in H.
  apply sql_bind_cases in H as [(e & H & _)|(c & n1 & d1 & H1 & H)]; [by unfold newId in H|].
  apply newId_Ok in H1 as [_ [= -> ->]].
  apply sql_bind_cases in H as [(e & H & _)|(ev & n2 & d2 & H2 & H)]; [by unfold newId in H|].
  apply newId_Ok in H2 as [_ [= -> ->]]. destruct r as [o|e].
  - apply inTransaction_Ok in H as (o' & n3 & d3 & Hb & -> & [= -> ->]). apply complete_body_Ok in Hb.
    destruct (commit o'); [|right; by rewrite Hb; eauto]. destruct Hb as (auth & -> & He). left. eauto.
  - apply inTransaction_Throw in H as [->|(-> & o' & n3 & Hb & Hc)]; [by right; eauto|].
    apply complete_body_Ok in Hb. rewrite Hc in Hb. destruct Hb as (auth & _ & He). left. eauto.
Qed.

(** An attempt that was verified and denied. *)
Definition guess (r : Prelude.result LoginFaultCode LoginOutcome) : bool :=
  match r with
  | Ok (Denied (accountUnknown | loginMalformed | passwordMismatch | accountInactive | credentialDisabled
                | credentialTombstoned | credentialUnusable)) => true
  | _ => false
  end.

(** An attempt whose transaction may have committed. *)
Definition completed (r : Prelude.result LoginFaultCode LoginOutcome) : bool :=
  match r with Ok (Granted _) => true | Throw login_commitFailed => true | _ => false end.

Lemma accountStateReason_guess us cs reason : accountStateReason us cs = Some reason → guess (Ok (Denied reason)) = true.
Proof.
  unfold accountStateReason. destruct (String.eqb cs "tombstoned"); [by intros [= <-]|].
  destruct (String.eqb cs "disabled"); [by intros [= <-]|]. destruct (_ || _); [by intros [= <-]|done].
Qed.

Lemma verdict_guess attempt account reason : verdict attempt account = Throw reason → guess (Ok (Denied reason)) = true.
Proof.
  unfold verdict. destruct account as [a|]; [|destruct (normalizedLogin attempt); by intros [= <-]].
  cbv zeta. destruct (usable_hash (Some a)).
  - destruct (negb _); [by intros [= <-]|].
    destruct (accountStateReason _ _) as [r|] eqn:E; [|done]. intros [= <-]. by eapply accountStateReason_guess.
  - destruct (accountStateReason _ _) as [r|] eqn:E; cbn; intros [= <-]; [by eapply accountStateReason_guess|done].
Qed.

Lemma boundLoginAttempt_guess login_ password clientSource reason :
  boundLoginAttempt login_ password clientSource = Throw reason → guess (Ok (Denied reason)) = false.
Proof.
  unfold boundLoginAttempt. destruct password; try (by intros [= <-]). destruct (bool_decide _); [by intros [= <-]|].
  destruct (_ || _); [by intros [= <-]|]. destruct clientSource; try (by intros [= <-]). destruct (_ || _); [by intros [= <-]|].
  destruct login_; try (by intros [= <-]). destruct (_ <? _); [by intros [= <-]|done].
Qed.

Lemma findByLogin_reads {D} `{AccountStore D} v : reads (D := D) (findByLogin v).
Proof.
  unfold findByLogin. destruct (Credentials.normalizeLogin v); [|apply reads_ret].
  apply reads_bind; [|intros; apply reads_ret]. apply reads_request. intros z d a d' Hst.
  unfold on_accounts in Hst. apply bind_Ok_iff in Hst as ([x e] & Hst & E). apply Ok_inj in Hst, E.
  assert (e = accounts d) as -> by congruence. assert (d' = set_accounts (accounts d) d) as -> by congruence.
  apply accounts_set_get.
Qed.

(** *** Attempts *)

Record LoginAttempt : Type := Try {
  try_others : nat → LoginDb → LoginDb;
  try_env : environment;
  try_number : nat;
  try_login : value;
  try_password : value;
  try_source : value;
}.

Definition try_time (a : LoginAttempt) : Z := wall_clock (try_env a) (try_number a).

Definition try_once (secret : string) (a : LoginAttempt) (d : LoginDb) : Prelude.result LoginFaultCode LoginOutcome * LoginDb :=
  let '(r, (_, d')) := authenticate (try_others a) secret (try_login a) (try_password a) (try_source a) (try_env a) (try_number a) d in
  (r, d').

(** The guards an attempt is counted on. *)
Definition tries_on (secret : string) (a : LoginAttempt) : list (LoginGuardScope * string) :=
  match boundLoginAttempt (try_login a) (try_password a) (try_source a) with
  | Ok attempt => guardPairs (keys_of secret attempt)
  | Throw _ => []
  end.

(** Others leave the guards alone. *)
Definition unguarded (a : LoginAttempt) : Prop := ∀ n d, guards (try_others a n d) = guards d.

Lemma guard_in_guards d d' : guards d' = guards d → (keyed d → keyed d') ∧ ∀ scope k, guard_in d' scope k = guard_in d scope k.
Proof. intros E. unfold keyed, guard_in. by rewrite E. Qed.

Lemma delete_guards_in d d' pairs :
  guards d' = (delete_where (named pairs) (guards d)).2 → keyed d →
  keyed d' ∧ ∀ scope k, guard_in d' scope k = guard_in d scope k ∨ (guard_in d' scope k = None ∧ (scope, k) ∈ pairs).
Proof.
  intros E Hk. assert (guards d' = where_ (fun g => negb (named pairs g)) (guards d)) as E'.
  { rewrite E. unfold where_. cbn [snd delete_where]. apply list_filter_iff. intros g. by rewrite negb_true_iff. }
  split; [unfold keyed; rewrite E'; by apply distinct_filter|]. intros scope k.
  unfold guard_in. destruct (named pairs (Guard (scope_text scope) k 0 0 0 None 0)) eqn:En.
  - right. unfold named in En. apply existsb_exists in En as ([s j] & Hin & Hg). apply is_guard_true in Hg as [E1 E2].
    cbn in E1, E2. apply scope_text_inj in E1 as ->. subst j. apply list_elem_of_In in Hin. split; [|done].
    rewrite where_none; [done|]. intros g Hg. destruct (is_guard _ k g) eqn:Eg; [|done].
    rewrite E' in Hg. apply elem_of_where in Hg as [Hg _]. apply negb_true_iff in Hg. rewrite <- Hg. symmetry.
    unfold named. apply existsb_exists. exists (s, k). split; [by apply list_elem_of_In|done].
  - left. rewrite E'. unfold where_. f_equal. apply list_filter_filter_l. intros g Hg.
    apply negb_true_iff. destruct (named pairs g) eqn:Eg; [|done]. rewrite <- En. symmetry.
    unfold named in *. apply existsb_exists in Eg as (p & Hp & Hg2). apply existsb_exists. exists p. split; [done|].
    apply is_guard_true in Hg as [E1 E2]. apply is_guard_true in Hg2 as [E3 E4]. apply is_guard_true. cbn. split; congruence.
Qed.

Definition guards_kept (d d' : LoginDb) : Prop := ∀ scope k, guard_in d' scope k = guard_in d scope k.
Definition guards_failed (pairs : list (LoginGuardScope * string)) (at_ : Z) (d d' : LoginDb) : Prop :=
  (∀ scope k, (scope, k) ∈ pairs → guard_blocked (guard_in d scope k) at_ = false) ∧
  ∀ scope k, guard_in d' scope k =
    if bool_decide ((scope, k) ∈ pairs) then failed scope k at_ (guard_in d scope k) else guard_in d scope k.
Definition guards_cleared (pairs : list (LoginGuardScope * string)) (d d' : LoginDb) : Prop :=
  ∀ scope k, guard_in d' scope k = guard_in d scope k ∨ (guard_in d' scope k = None ∧ (scope, k) ∈ pairs).

(** What one attempt does to the guards. *)
Definition attempt_effect (pairs : list (LoginGuardScope * string)) (at_ : Z) (r : Prelude.result LoginFaultCode LoginOutcome)
    (d d' : LoginDb) : Prop :=
  keyed d' ∧
  ((guess r = false ∧ guards_kept d d') ∨ guards_failed pairs at_ d d' ∨ (completed r = true ∧ guards_cleared pairs d d')).

Lemma attempt_idle pairs at_ r d d' : guess r = false → guards d' = guards d → keyed d → attempt_effect pairs at_ r d d'.
Proof. intros Hg Hd Hk. destruct (guard_in_guards d d' Hd) as [K1 G1]. split; [auto|]. left. done. Qed.

Lemma attempt_effect_before pairs at_ r d d1 d' :
  guards_kept d d1 → attempt_effect pairs at_ r d1 d' → attempt_effect pairs at_ r d d'.
Proof.
  intros G1 [K1 H]. split; [done|]. destruct H as [[Hg H]|[[Hb H]|[Hc H]]].
  - left. split; [done|]. intros scope k. by rewrite H, G1.
  - right; left. split; [intros scope k Hin; rewrite <- G1; by apply Hb|]. intros scope k. by rewrite H, G1.
  - right; right. split; [done|]. intros scope k. rewrite <- G1. apply H.
Qed.

Lemma elsewhere_cases others env n d r n' d' :
  elsewhere others env n d = (r, (n', d')) → r = Ok tt ∧ n' = n ∧ d' = others n d.
Proof. by intros [= <- <- <-]. Qed.

(** After the guards were read as not blocking. *)
Lemma verified_effect others keys (lookup : Sql LoginDb LoginFaultCode (option CredentialUser)) attempt at_ env n d r n' d' :
  (account ← lookup; _ ← elsewhere others;
   match verdict attempt account with
   | Throw reason => _ ← recordFailure keys at_; mret (Denied reason)
   | Ok account => completeLogin account keys at_
   end) env n d = (r, (n', d')) →
  reads lookup → (∀ n d, guards (others n d) = guards d) → keyed d →
  (∀ scope k, (scope, k) ∈ guardPairs keys → guard_blocked (guard_in d scope k) at_ = false) →
  attempt_effect (guardPairs keys) at_ r d d'.
Proof.
  intros H Hl Ho Hk Hb.
  apply sql_bind_cases in H as [(e & H & ->)|(account & n1 & d1 & H1 & H)].
  { apply Hl in H as ->. by apply attempt_idle. }
  apply Hl in H1 as ->.
  apply sql_bind_cases in H as [(e & H & ->)|([] & n2 & d2 & H2 & H)]; [by apply elsewhere_cases in H as [H _]|].
  apply elsewhere_cases in H2 as (_ & -> & ->). destruct (guard_in_guards d (others n1 d) (Ho n1 d)) as [K1 G1].
  destruct (verdict attempt account) as [a|reason] eqn:Ev.
  - apply completeLogin_cases in H as [(auth & He & Hr)|[-> Hr]].
    + destruct He as (u & c & z & t & _ & _ & _ & _ & _ & _ & _ & Hg & _).
      destruct (delete_guards_in _ _ _ Hg (K1 Hk)) as [K2 G2]. split; [done|]. right; right.
      split; [by destruct Hr as [->| ->]|]. intros scope k. rewrite <- G1. destruct (G2 scope k) as [E|[E Hin]]; [by left|].
      right. split; [done|]. unfold guardPairs, guardPairParameters in *.
      destruct (key_login keys) as [kl|]; [exact Hin|]. apply elem_of_cons in Hin as [->|Hin]; [left|done].
    + apply attempt_idle; [|done|done]. destruct Hr as [->|Hr]; [done|]. by destruct r.
  - apply sql_bind_cases in H as [(e & H & ->)|([] & n3 & d3 & H3 & H)].
    + apply recordFailure_cases in H as [[(K2 & _ & G2) _]|[-> _]]; [|by apply attempt_idle|auto].
      split; [done|]. right; left. split; [done|]. intros scope k. by rewrite G2, G1.
    + unfold mret, Sql_ret in H. injection H as <- <- <-.
      apply recordFailure_cases in H3 as [[(K2 & _ & G2) _]|[_ E]]; [|done|auto].
      split; [done|]. right; left. split; [done|]. intros scope k. by rewrite G2, G1.
Qed.

Lemma try_guards secret a d r d' :
  try_once secret a d = (r, d') → unguarded a → keyed d →
  attempt_effect (tries_on secret a) (try_time a) r d d'.
Proof.
  intros H Ho Hk. unfold try_once in H. destruct (authenticate _ _ _ _ _ _ _ _) as [r0 [n0 d0]] eqn:Ha.
  injection H as -> ->. unfold tries_on, try_time. unfold authenticate in Ha.
  apply sql_bind_cases in Ha as [(e & Ha & _)|(t & n1 & d1 & H1 & Ha)]; [by unfold now in Ha|].
  apply now_Ok in H1 as [-> [= -> ->]].
  apply sql_bind_cases in Ha as [(e & Ha & ->)|(at_ & n2 & d2 & H2 & Ha)].
  { apply reads_lift in Ha as ->. by apply attempt_idle. }
  apply lift_Ok in H2 as [H2 [= -> ->]].
  assert (at_ = wall_clock (try_env a) (try_number a)) as ->.
  { unfold trustedLoginInstant in H2. destruct (_ && _); [by injection H2|done]. }
  destruct (boundLoginAttempt _ _ _) as [attempt|reason] eqn:Eb.
  2: { injection Ha as <- _ <-. apply attempt_idle; [|done|done]. by eapply boundLoginAttempt_guess. }
  apply sql_bind_cases in Ha as [(e & Ha & ->)|([] & n3 & d3 & H3 & Ha)]; [by apply elsewhere_cases in Ha as [Ha _]|].
  apply elsewhere_cases in H3 as (_ & -> & ->). set (d1 := try_others a _ d) in *.
  destruct (guard_in_guards d d1 (Ho _ d)) as [K1 G1].
  apply sql_bind_cases in Ha as [(e & Ha & ->)|(states & n4 & d4 & H4 & Ha)].
  { apply readGuards_reads in Ha as ->. apply attempt_idle; [done|apply Ho|done]. }
  pose proof (readGuards_reads _ _ _ _ _ _ _ H4) as ->.
  destruct (List.find _ states) as [st|] eqn:Ef.
  { injection Ha as <- _ <-. apply attempt_idle; [by destruct (state_scope st)|apply Ho|done]. }
  pose proof (readGuards_Ok _ _ _ _ _ _ _ H4 Ef) as Hnb.
  apply sql_bind_cases in Ha as [(e & Ha & ->)|([] & n5 & d5 & H5 & Ha)]; [by apply elsewhere_cases in Ha as [Ha _]|].
  apply elsewhere_cases in H5 as (_ & -> & ->). set (d2 := try_others a _ d1) in *.
  destruct (guard_in_guards d1 d2 (Ho _ d1)) as [K2 G2].
  apply (attempt_effect_before _ _ _ d d2 d'); [intros scope k; by rewrite G2, G1|].
  eapply verified_effect in Ha; [exact Ha|destruct (normalizedLogin attempt); [apply reads_catching, findByLogin_reads|apply reads_ret]|exact Ho|auto|].
  intros scope k Hin. rewrite G2. by apply Hnb.
Qed.

(** Attempts one after the other. *)
Fixpoint try_all (secret : string) (attempts : list LoginAttempt) (d : LoginDb)
    : list (LoginAttempt * Prelude.result LoginFaultCode LoginOutcome) * LoginDb :=
  match attempts with
  | [] => ([], d)
  | a :: attempts =>
      let '(r, d) := try_once secret a d in
      let '(rs, d) := try_all secret attempts d in
      ((a, r) :: rs, d)
  end.

(** The verified and denied attempts on one guard. *)
Definition guesses_on (secret : string) (guard : LoginGuardScope * string)
    (rs : list (LoginAttempt * Prelude.result LoginFaultCode LoginOutcome)) : list (LoginAttempt * Prelude.result LoginFaultCode LoginOutcome) :=
  filter (fun p => guard ∈ tries_on secret p.1 ∧ guess p.2 = true) rs.

Lemma guesses_admitted secret scope k a0 attempts d rs d' :
  try_all secret attempts d = (rs, d') → keyed d →
  Forall (fun a => unguarded a ∧ a0 ≤ try_time a < a0 + window) attempts →
  (∀ a r, (a, r) ∈ rs → (scope, k) ∈ tries_on secret a → completed r = false) →
  Z.of_nat (length (guesses_on secret (scope, k) rs)) + admits scope a0 (guard_in d' scope k) ≤ admits scope a0 (guard_in d scope k).
Proof.
  revert d rs. induction attempts as [|a attempts IH]; intros d rs H Hk Hf Hc; cbn in H.
  { injection H as <- <-. cbn. lia. }
  destruct (try_once secret a d) as [r d1] eqn:E1. destruct (try_all secret attempts d1) as [rs1 d2] eqn:E2. injection H as <- <-.
  apply Forall_cons in Hf as [[Ho Ht] Hf]. destruct (try_guards secret a d r d1 E1 Ho Hk) as [K1 He].
  specialize (IH d1 rs1 E2 K1 Hf ltac:(intros b q Hin; apply Hc; by right)).
  assert ((if decide ((scope, k) ∈ tries_on secret a ∧ guess r = true) then 1 else 0) + admits scope a0 (guard_in d1 scope k)
          ≤ admits scope a0 (guard_in d scope k)) as Hstep.
  { destruct He as [[Hg He]|[[Hb He]|[Hcomp He]]].
    - rewrite He, decide_False by (rewrite Hg; by intros [_ ?]). lia.
    - rewrite He. destruct (bool_decide_reflect ((scope, k) ∈ tries_on secret a)) as [Hin|Hni].
      + pose proof (admits_failed scope k a0 (guard_in d scope k) (try_time a) (Hb _ _ Hin) Ht). destruct (decide _); lia.
      + rewrite decide_False by naive_solver. lia.
    - destruct (He scope k) as [->|[_ Hin]].
      + rewrite decide_False; [lia|]. intros [_ Hg]. by destruct r as [[]|[]].
      + rewrite (Hc a r ltac:(left) Hin) in Hcomp. done. }
  unfold guesses_on in *. rewrite filter_cons. cbn [fst snd]. destruct (decide _); cbn [length]; lia.
Qed.

Lemma admits_nonneg scope a0 g : 0 ≤ admits scope a0 g.
Proof.
  pose proof (threshold_range scope) as [HT _]. unfold admits. destruct g as [g|]; [|lia].
  destruct (match blocked_until g with Some b => a0 + window <=? b | None => false end); [lia|]. destruct (a0 <=? window_started_at g); lia.
Qed.

(** C28: Attempts to log in that follow each other, one at a time, within one window,
    while nobody else touches the guards and none of those on a guard logs in: at most
    [2 * threshold - 2] of those on that guard are verified and denied (eight on one login,
    ninety-eight from one source), and the rest are answered before a verification is bought.
    The guards may start with any blocks and windows, as long as their keys are distinct and
    every stored count is at least one, as the counting leaves it. Concurrent attempts, which
    may all read a guard before any of them is counted, are not bounded by this. *)
Theorem password_guesses_bounded secret scope k from attempts d rs d' :
  try_all secret attempts d = (rs, d') → keyed d →
  Forall (fun g => 1 ≤ failure_count g) (guards d) →
  Forall (fun a => unguarded a ∧ from ≤ try_time a < from + LOGIN_FAILURE_WINDOW_SECONDS * 1000) attempts →
  (∀ a r, (a, r) ∈ rs → (scope, k) ∈ tries_on secret a → completed r = false) →
  Z.of_nat (length (guesses_on secret (scope, k) rs)) ≤ 2 * LOGIN_FAILURE_THRESHOLDS scope - 2.
Proof.
  intros H Hk Hn Hf Hc. pose proof (guesses_admitted secret scope k from attempts d rs d' H Hk Hf Hc) as Hg.
  pose proof (admits_nonneg scope from (guard_in d' scope k)).
  assert (0 ≤ admits scope from (guard_in d scope k) ≤ 2 * LOGIN_FAILURE_THRESHOLDS scope - 2) as Hr; [|lia].
  apply admits_range. intros g Eg. rewrite Forall_forall in Hn. apply Hn. unfold guard_in in Eg.
  destruct (where_ (is_guard (scope_text scope) k) (guards d)) as [|x l] eqn:E; [done|]. injection Eg as ->.
  assert (g ∈ where_ (is_guard (scope_text scope) k) (guards d)) as Hin by (rewrite E; left). by apply elem_of_where in Hin as [_ Hin].
Qed.

(** *** Blocks end *)

(** No guard blocks beyond a window after this instant. *)
Definition blocks_until (t : Z) (d : LoginDb) : Prop :=
  ∀ scope k g b, guard_in d scope k = Some g → blocked_until g = Some b → b ≤ t + window.

Lemma blocks_until_failed t scope digest at_ g g' b :
  failed scope digest at_ g = Some g' → blocked_until g' = Some b → at_ ≤ t →
  (∀ x c, g = Some x → blocked_until x = Some c → c ≤ t + window) → b ≤ t + window.
Proof.
  intros [= <-] Hb Ht Hg. destruct g as [g|]; [|done]. cbn in Hb. destruct (_ <=? _) in Hb.
  - injection Hb as <-. unfold guardBlockedUntil. change (LOGIN_BLOCK_SECONDS * 1000) with window. lia.
  - by eapply Hg.
Qed.

Lemma blocks_until_try secret a d r d' t :
  try_once secret a d = (r, d') → unguarded a → keyed d → try_time a ≤ t → blocks_until t d → keyed d' ∧ blocks_until t d'.
Proof.
  intros H Ho Hk Ht Hb. destruct (try_guards secret a d r d' H Ho Hk) as [K1 He]. split; [done|]. intros scope k g b Hg.
  destruct He as [[_ He]|[[_ He]|[_ He]]].
  - rewrite He in Hg. by apply (Hb scope k).
  - rewrite He in Hg. destruct (bool_decide _); [|by apply (Hb scope k)]. intros Hbl.
    eapply blocks_until_failed; [exact Hg|exact Hbl|done|]. intros x c Hx. by apply (Hb scope k).
  - destruct (He scope k) as [E|[E _]]; rewrite E in Hg; [|done]. by apply (Hb scope k).
Qed.

Lemma narrow_guards_from seen rows states :
  narrow_guards seen rows = Ok states → ∀ s, s ∈ states → ∃ g, g ∈ rows ∧ blockedUntil s = blocked_until g.
Proof.
  revert seen states. induction rows as [|row rows IH]; intros seen states H s Hs; cbn in H.
  - injection H as <-. by apply elem_of_nil in Hs.
  - destruct (isGuardScope (guard_scope row)) as [scope|]; [|done]. destruct (_ || _); [done|].
    apply bind_Ok_iff in H as (l & H & Hl). injection Hl as <-. apply elem_of_cons in Hs as [->|Hs].
    + exists row. split; [left|done].
    + destruct (IH _ _ H s Hs) as (g & Hg & E). exists g. split; [by right|done].
Qed.

(** A throttled answer is a guard's. *)
Lemma throttled_blocked secret a d scope0 d' :
  try_once secret a d = (Ok (Denied (guardDenialReason scope0)), d') → unguarded a → keyed d →
  ∃ scope k, guard_blocked (guard_in d scope k) (try_time a) = true.
Proof.
  intros H Ho Hk. unfold try_once in H. destruct (authenticate _ _ _ _ _ _ _ _) as [r0 [n0 d0]] eqn:Ha.
  injection H as -> ->. unfold authenticate in Ha.
  apply sql_bind_Ok in Ha as (t & n1 & d1 & H1 & Ha). apply now_Ok in H1 as [-> [= -> ->]].
  apply sql_bind_Ok in Ha as (at_ & n2 & d2 & H2 & Ha). apply lift_Ok in H2 as [H2 [= -> ->]].
  assert (at_ = wall_clock (try_env a) (try_number a)) as ->.
  { unfold trustedLoginInstant in H2. destruct (_ && _); [by injection H2|done]. }
  destruct (boundLoginAttempt _ _ _) as [attempt|reason] eqn:Eb.
  2: { injection Ha as -> _ _. unfold boundLoginAttempt in Eb. by destruct scope0;
       repeat (discriminate || case_match; simplify_eq/=). }
  apply sql_bind_Ok in Ha as ([] & n3 & d3 & H3 & Ha). apply elsewhere_cases in H3 as (_ & -> & ->).
  apply sql_bind_Ok in Ha as (states & n4 & d4 & H4 & Ha). pose proof (readGuards_reads _ _ _ _ _ _ _ H4) as ->.
  destruct (List.find _ states) as [st|] eqn:Ef.
  - apply List.find_some in Ef as [Hst Hbl]. apply list_elem_of_In in Hst. unfold readGuards in H4.
    apply sql_bind_Ok in H4 as (rows & n5 & d5 & H5 & H4). apply catching_Ok, request_Ok in H5 as (_ & d6 & H5 & [= -> ->]).
    apply Ok_inj in H5. apply lift_Ok in H4 as [H4 _].
    destruct (narrow_guards_from _ _ _ H4 st Hst) as (g & Hg & E). rewrite E in Hbl.
    assert (rows = where_ (named (guardPairParameters (keys_of secret attempt))) (guards (try_others a (Datatypes.S (try_number a)) d))) as ->
      by congruence. rewrite (Ho _ d) in Hg. apply elem_of_where in Hg as [Hn Hg].
    unfold named in Hn. apply existsb_exists in Hn as ([scope k] & _ & Hn). cbn in Hn. exists scope, k.
    assert (g ∈ where_ (is_guard (scope_text scope) k) (guards d)) as Hin by (by apply elem_of_where).
    rewrite one_guard in Hin by done. destruct (guard_in d scope k); [|by apply elem_of_nil in Hin].
    by apply list_elem_of_singleton in Hin as ->.
  - exfalso. apply sql_bind_Ok in Ha as ([] & n5 & d5 & H5 & Ha). apply sql_bind_Ok in Ha as (acc & n6 & d6 & H6 & Ha).
    apply sql_bind_Ok in Ha as ([] & n7 & d7 & H7 & Ha). destruct (verdict attempt acc) as [x|reason] eqn:Ev.
    + apply completeLogin_cases in Ha as [(auth & _ & [?|?])|[_ [?|?]]]; try done. by destruct scope0.
    + apply sql_bind_Ok in Ha as ([] & n8 & d8 & H8 & Ha). apply ret_Ok in Ha as [[= ->] _].
      apply verdict_guess in Ev. by destruct scope0.
Qed.

(** A block is temporary: after any attempts, an attempt that comes one window after
    the last of them is not throttled, whatever was tried before. *)
Theorem blocks_are_temporary secret attempts d t a rs d' scope :
  try_all secret attempts d = (rs, d') → keyed d → blocks_until t d →
  Forall (fun b => unguarded b ∧ try_time b ≤ t) attempts →
  unguarded a → t + LOGIN_BLOCK_SECONDS * 1000 ≤ try_time a →
  (try_once secret a d').1 ≠ Ok (Denied (guardDenialReason scope)).
Proof.
  intros H Hk Hb Hf Ho Ht Hr. assert (keyed d' ∧ blocks_until t d') as [Hk' Hb'].
  { clear Hr Ho Ht. revert d rs H Hk Hb. induction attempts as [|b attempts IH]; intros d rs H Hk Hb; cbn in H.
    - by injection H as <- <-.
    - destruct (try_once secret b d) as [r d1] eqn:E1. destruct (try_all secret attempts d1) as [rs1 d2] eqn:E2. injection H as <- <-.
      apply Forall_cons in Hf as [[Hob Htb] Hf]. destruct (blocks_until_try _ _ _ _ _ t E1 Hob Hk Htb Hb) as [K1 B1].
      by apply (IH Hf d1 rs1). }
  destruct (try_once secret a d') as [r e] eqn:Ea. cbn in Hr. subst r.
  destruct (throttled_blocked _ _ _ _ _ Ea Ho Hk') as (s & k & Hbl). unfold guard_blocked in Hbl.
  destruct (guard_in d' s k) as [g|] eqn:Eg; [|done]. cbn in Hbl. destruct (blocked_until g) as [b|] eqn:Eb; [|done].
  specialize (Hb' s k g b Eg Eb). apply Z.ltb_lt in Hbl. change (LOGIN_BLOCK_SECONDS * 1000) with window in Ht. lia.
Qed.
End Guards.

(** ** Authorizations *)

Section Stamped.
Context `{C : Collation}.

Lemma stamped_keys at_ time id u :
  u_id (stamped at_ time id u) = u_id u ∧ u_kind (stamped at_ time id u) = u_kind u ∧
  u_email (stamped at_ time id u) = u_email u ∧ u_status (stamped at_ time id u) = u_status u ∧
  u_max_sensitivity_tier (stamped at_ time id u) = u_max_sensitivity_tier u.
Proof. unfold stamped. by destruct (_ && _). Qed.

(** Stamping a login leaves the tables well-formed, and everybody's account as it was. *)
Lemma stamped_well_formed at_ time id d t :
  well_formed d → well_formed (Db (map (stamped at_ time id) (users d)) (credentials d) (user_roles d) t).
Proof.
  intros [W1 W2 W3 W4 W5 W6 W7]. pose proof (stamped_keys at_ time id) as Hs. split; try done; cbn [users].
  - rewrite <- W1. clear -Hs. assert (∀ a b, user_clash (stamped at_ time id a) (stamped at_ time id b) = user_clash a b) as Hc.
    { intros a b. destruct (Hs a) as (A1 & _ & A3 & _), (Hs b) as (B1 & _ & B3 & _). unfold user_clash. by rewrite A1, A3, B1, B3. }
    assert (∀ a l, forallb (fun b => negb (user_clash (stamped at_ time id a) b)) (map (stamped at_ time id) l) =
                   forallb (fun b => negb (user_clash a b)) l) as Ha.
    { intros a l. induction l as [|b l IH]; [done|]. cbn [map forallb]. by rewrite Hc, IH. }
    induction (users d) as [|a l IH]; [done|]. cbn [map distinct]. by rewrite IH, Ha.
  - apply Forall_forall. intros u (v & -> & Hv)%list_elem_of_fmap. rewrite Forall_forall in W4.
    destruct (W4 v Hv) as [V1 V2]. destruct (Hs v) as (_ & S2 & _ & S4 & _). split; [by rewrite S2|by rewrite S4].
  - apply (Forall_impl _ _ _ W7). intros r (u & Hu & Hr). exists (stamped at_ time id u).
    split; [by apply list_elem_of_fmap_2|]. by rewrite (proj1 (Hs u)).
Qed.

Lemma stamped_people at_ time id d t u c :
  (u, c) ∈ people d → (stamped at_ time id u, c) ∈ people (Db (map (stamped at_ time id) (users d)) (credentials d) (user_roles d) t).
Proof.
  intros (Hu & Hc & Hk & Hkind)%elem_of_people. destruct (stamped_keys at_ time id u) as (S1 & S2 & _).
  apply elem_of_people. cbn [users credentials]. rewrite S1, S2. split; [by apply list_elem_of_fmap_2|done].
Qed.

(** One person with a credential per identifier. *)
Lemma people_unique d u c v e : well_formed d →
  (u, c) ∈ people d → (v, e) ∈ people d → sql_eq (u_id u) (u_id v) = true → (u, c) = (v, e).
Proof.
  intros W (Hu & Hc & Huc & _)%elem_of_people (Hv & He & Hve & _)%elem_of_people Huv.
  pose proof (elem_user_in d u (u_id v) W Hu Huv) as E1.
  pose proof (elem_user_in d v (u_id v) W Hv (sql_eq_refl _)) as E2.
  pose proof (elem_credential_in d e (u_id v) W He Hve) as E3.
  assert (credential_in d (u_id v) = Some c) as E4.
  { apply elem_credential_in; [done|done|]. apply (sql_eq_both _ _ (u_id u)); [done|]. by rewrite sql_eq_sym. }
  congruence.
Qed.

(** The state that the gate reads for it. *)
Lemma session_state_of {D} `{AccountStore D} (d : D) u c env n :
  well_formed (accounts d) → (u, c) ∈ people (accounts d) → isUserId (VStr (u_id u)) = Some (u_id u) → refused env n = false →
  (getSessionState (VStr (u_id u)) env n d).1 =
    Ok (Some (SessionState (u_id u) (u_status u) (c_status c) (session_version c))).
Proof.
  intros W Hp Hid Hr. unfold getSessionState. rewrite Hid. unfold mbind, Sql_bind, request. rewrite Hr.
  unfold on_accounts, selectSessionState. cbn [mbind result_bind fst].
  assert (head (take 1 (where_ (fun p => sql_eq (u_id p.1) (u_id u)) (people (accounts d)))) = Some (u, c)) as ->.
  { assert ((u, c) ∈ where_ (fun p => sql_eq (u_id p.1) (u_id u)) (people (accounts d))) as Hin
      by (apply elem_of_where; split; [apply sql_eq_refl|done]).
    destruct (where_ _ _) as [|[v e] l] eqn:Ew; [by apply elem_of_nil in Hin|]. cbn. f_equal.
    assert ((v, e) ∈ where_ (fun p => sql_eq (u_id p.1) (u_id u)) (people (accounts d))) as Hin' by (rewrite Ew; left).
    apply elem_of_where in Hin' as [Hv Hp']. by apply (people_unique (accounts d) v e u c). }
  unfold mapSessionState. cbn [mbind option_bind]. unfold toSessionVersion.
  assert (valid_credential c) as [_ Hv].
  { apply elem_of_people in Hp as (_ & Hc & _). pose proof (wf_valid_credentials _ W) as Hf. rewrite Forall_forall in Hf. by apply Hf. }
  rewrite (proj2 (Z.leb_le _ _)), (proj2 (Z.leb_le _ _)) by lia. cbn [andb mbind option_bind]. rewrite Hid. done.
Qed.
End Stamped.

Section Granted.
Context `{P : Platform, C : Collation, M : CaseMapping, Wire : WireFormat, K : KeyDerivation, G : GuardDigests, S : DigestSegments}.

(** Others keep the tables well-formed, and keep generations going forward. *)
Definition lawful (others : nat → LoginDb → LoginDb) : Prop :=
  ∀ n d, well_formed (accounts d) → well_formed (accounts (others n d)) ∧ kept (accounts d) (accounts (others n d)).

Lemma isUserId_self v i : isUserId v = Some i → isUserId (VStr i) = Some i.
Proof.
  intros Hi. pose proof Hi as Hi'. unfold isUserId in Hi'. destruct v; try done.
  destruct (_ && test _ _) in Hi'; [|done]. injection Hi' as ->. exact Hi.
Qed.

Lemma mapCredential_Some row a :
  mapCredential row = Some a →
  ∃ u c roles, row = Some (u, c, roles) ∧ cu_id a = u_id u ∧ cu_status a = u_status u ∧
    cu_credentialStatus a = c_status c ∧ cu_passwordHash a = password_hash c ∧ cu_sessionVersion a = session_version c ∧
    isUserId (VStr (cu_id a)) = Some (cu_id a).
Proof.
  unfold mapCredential. intros ([[u c] roles] & -> & H)%bind_Some. apply bind_Some in H as (v & Hv & H).
  apply bind_Some in H as (i & Hi & H). injection H as <-. exists u, c, roles. split; [done|].
  apply toSessionVersion_Some in Hv as ->. pose proof (isUserId_self _ _ Hi) as Hs.
  apply isUserId_bound in Hi as ([= ->] & _). done.
Qed.

Lemma findByLogin_Ok {D} `{AccountStore D} v env n (d : D) a s :
  findByLogin v env n d = (Ok (Some a), s) →
  ∃ u c, (u, c) ∈ people (accounts d) ∧ cu_id a = u_id u ∧ cu_passwordHash a = password_hash c ∧
    cu_sessionVersion a = session_version c ∧ isUserId (VStr (cu_id a)) = Some (cu_id a).
Proof.
  intros Hf. unfold findByLogin in Hf. destruct (Credentials.normalizeLogin v) as [l|]; [|by apply ret_Ok in Hf as [? _]].
  apply sql_bind_Ok in Hf as (rows & n1 & d1 & H1 & Hf). apply request_Ok in H1 as (_ & d2 & H1 & [= -> ->]).
  unfold on_accounts in H1. apply bind_Ok_iff in H1 as ([x e] & H1 & H2). apply Ok_inj in H1, H2.
  apply ret_Ok in Hf as [Hf _]. apply mapCredential_Some in Hf as (u & c & roles & Hr & E1 & _ & _ & E4 & E5 & E6).
  exists u, c. split; [|done]. assert (rows = x) as -> by congruence. apply (f_equal fst) in H1. cbn in H1. subst x.
  assert ((u, c, roles) ∈ take 1 (map (λ p : UserRow * CredentialRow, (p, role_text (accounts d) (u_id p.1)))
    (where_ (fun p => String.eqb (username_normalized p.2) l ||
                      match u_email p.1 with Some e => sql_eq e l | None => false end) (people (accounts d))))) as Hin.
  { destruct (take 1 _) as [|r rs]; [done|]. injection Hr as ->. left. }
  apply elem_of_take in Hin as (k & Hin & _). apply list_elem_of_lookup_2, list_elem_of_fmap in Hin as ([v' c'] & E & Hin).
  injection E as -> -> _. by apply elem_of_where in Hin as [_ Hin].
Qed.

Lemma verdict_Ok attempt account a :
  verdict attempt account = Ok a →
  account = Some a ∧ isStoredPasswordHashValid (cu_passwordHash a) = true ∧
  verifyPassword (VStr (attempt_password attempt)) (cu_passwordHash a) = true.
Proof.
  unfold verdict. destruct account as [b|]; [|by destruct (normalizedLogin attempt)]. cbv zeta. cbn [usable_hash mbind option_bind].
  unfold usable_hash. cbn [mbind option_bind]. destruct (isStoredPasswordHashValid (cu_passwordHash b)) eqn:Ev; [|done].
  cbn [default from_option]. destruct (verifyPassword _ _) eqn:Ep; [|done]. cbn [negb].
  destruct (accountStateReason _ _); [done|]. by intros [= ->].
Qed.

Lemma bound_password login_ password clientSource attempt :
  boundLoginAttempt login_ password clientSource = Ok attempt → password = VStr (attempt_password attempt).
Proof.
  unfold boundLoginAttempt. destruct password; try done. destruct (bool_decide _); [done|]. destruct (_ || _); [done|].
  destruct clientSource; try done. destruct (_ || _); [done|]. destruct login_; try done. destruct (_ <? _); [done|].
  by intros [= <-].
Qed.

(** The way to an authorization. *)
Lemma granted_path others secret login_ password clientSource env n d auth n' d' :
  authenticate others secret login_ password clientSource env n d = (Ok (Granted auth), (n', d')) →
  lawful others → well_formed (accounts d) →
  ∃ attempt account d2 d3, boundLoginAttempt login_ password clientSource = Ok attempt ∧
    (∃ u c, (u, c) ∈ people (accounts d2) ∧ cu_id account = u_id u ∧ cu_passwordHash account = password_hash c ∧
       cu_sessionVersion account = session_version c) ∧
    isUserId (VStr (cu_id account)) = Some (cu_id account) ∧
    isStoredPasswordHashValid (cu_passwordHash account) = true ∧
    verifyPassword password (cu_passwordHash account) = true ∧
    well_formed (accounts d3) ∧ well_formed (accounts d2) ∧ kept (accounts d2) (accounts d3) ∧
    login_effect account (keys_of secret attempt) (wall_clock env n) auth d3 d'.
Proof.
  intros Ha Hl W. unfold authenticate in Ha.
  apply sql_bind_Ok in Ha as (t & n1 & d1 & H1 & Ha). apply now_Ok in H1 as [-> [= -> ->]].
  apply sql_bind_Ok in Ha as (at_ & n2 & d2 & H2 & Ha). apply lift_Ok in H2 as [H2 [= -> ->]].
  assert (at_ = wall_clock env n) as -> by (unfold trustedLoginInstant in H2; destruct (_ && _); [by injection H2|done]).
  destruct (boundLoginAttempt _ _ _) as [attempt|reason] eqn:Eb; [|done].
  apply sql_bind_Ok in Ha as ([] & n3 & d3 & H3 & Ha). apply elsewhere_cases in H3 as (_ & -> & ->).
  destruct (Hl (Datatypes.S n) d W) as [W1 _].
  apply sql_bind_Ok in Ha as (states & n4 & d4 & H4 & Ha). apply readGuards_reads in H4 as ->.
  destruct (List.find _ states); [by apply ret_Ok in Ha as [? _]|].
  apply sql_bind_Ok in Ha as ([] & n5 & d5 & H5 & Ha). apply elsewhere_cases in H5 as (_ & -> & ->).
  destruct (Hl n4 _ W1) as [W2 _].
  apply sql_bind_Ok in Ha as (account & n6 & d6 & H6 & Ha).
  assert (d6 = others n4 (others (Datatypes.S n) d)) as ->.
  { destruct (normalizedLogin attempt); [by apply (reads_catching _ _ (findByLogin_reads _)) in H6|by apply reads_ret in H6]. }
  apply sql_bind_Ok in Ha as ([] & n7 & d7 & H7 & Ha). apply elsewhere_cases in H7 as (_ & -> & ->).
  destruct (Hl n6 _ W2) as [W3 K3].
  destruct (verdict attempt account) as [a|reason] eqn:Ev.
  2: { apply sql_bind_Ok in Ha as ([] & n8 & d8 & H8 & Ha). by apply ret_Ok in Ha as [? _]. }
  apply verdict_Ok in Ev as (-> & Hvalid & Hver). rewrite <- (bound_password _ _ _ _ Eb) in Hver.
  destruct (normalizedLogin attempt) as [l|]; [|by apply ret_Ok in H6 as [? _]].
  apply catching_Ok, findByLogin_Ok in H6 as (u & c & Hp & E1 & E2 & E3 & E4).
  apply completeLogin_cases in Ha as [(auth' & He & [[= <-]|?])|[_ [?|?]]]; try done.
  exists attempt, a, (others n4 (others (Datatypes.S n) d)), (others n6 (others n4 (others (Datatypes.S n) d))).
  split; [done|]. split; [by exists u, c|]. auto 10.
Qed.

(** C27: Whatever commits between its statements, an attempt that logs in was verified
    against the password hash that is stored when it commits, of an account that is then
    active; the authorization is the account's own identifier, generation, roles and tier
    of that moment; the login is stamped and audited, its guards are cleared; and a
    session of that generation is current. *)
Theorem granted_login_is_current others secret login_ password clientSource env n d auth n' d' :
  authenticate others secret login_ password clientSource env n d = (Ok (Granted auth), (n', d')) →
  lawful others → well_formed (accounts d) →
  ∃ u c attempt, (u, c) ∈ people (accounts d') ∧ u_id u = auth_userId auth ∧
    u_status u = "active" ∧ c_status c = "active" ∧ u_last_login_at u = Some (wall_clock env n) ∧
    isStoredPasswordHashValid (password_hash c) = true ∧ verifyPassword password (password_hash c) = true ∧
    auth = Authorization (u_id u) (session_version c) (roles_in (accounts d') (u_id u)) (u_max_sensitivity_tier u) ∧
    boundLoginAttempt login_ password clientSource = Ok attempt ∧
    (∀ g, g ∈ guards d' → named (guardPairs (keys_of secret attempt)) g = false) ∧
    (∃ r, last (audit_log (db_audit (accounts d'))) = Some r ∧ log_action r = "auth.login" ∧ log_resource_id r = Some (u_id u)) ∧
    ∀ iat exp env' m, refused env' m = false →
      ∃ s, (getSessionState (VStr (auth_userId auth)) env' m d').1 = Ok s ∧
        isSessionCurrent (Some (Claims (auth_userId auth) (auth_sessionVersion auth) iat exp)) s = true.
Proof.
  intros Ha Hl W. destruct (granted_path _ _ _ _ _ _ _ _ _ _ _ Ha Hl W)
    as (attempt & account & d2 & d3 & Hbound & (u0 & c0 & Hp0 & E1 & E2 & E3) & Hid & Hvalid & Hver & W3 & W2 & [KU KC] & He).
  destruct He as (u & c & z & t & Hp & Hu & Hv & Hus & Hcs & -> & Hacc & Hg & _ & r & Hr & R1 & R2 & _).
  apply elem_of_people in Hp0 as (Hu0 & Hc0 & Hk0 & _). pose proof Hp as (Hu1 & Hc1 & Hk1 & _)%elem_of_people.
  destruct (KU u0 Hu0) as (u' & Hu' & Eu' & _). destruct (KC c0 Hc0) as (c' & Hc' & Ec' & _ & Hchg & _).
  assert (u' = u) as ->.
  { pose proof (elem_user_in _ u' (cu_id account) W3 Hu' ltac:(rewrite Eu', E1; apply sql_eq_refl)).
    pose proof (elem_user_in _ u (cu_id account) W3 Hu1 Hu). congruence. }
  assert (c' = c) as ->.
  { pose proof (elem_credential_in _ c' (cu_id account) W3 Hc' ltac:(by rewrite Ec', E1)).
    pose proof (elem_credential_in _ c (cu_id account) W3 Hc1 ltac:(apply (sql_eq_both _ _ (u_id u)); [done|by rewrite sql_eq_sym])). congruence. }
  assert (password_hash c = password_hash c0) as Hh.
  { destruct (decide ((c_status c0, password_hash c0) = (c_status c, password_hash c))) as [E|E]; [congruence|].
    specialize (Hchg E). lia. }
  assert (u_id u = cu_id account) as Eid by congruence.
  destruct (stamped_keys (wall_clock env n) z (cu_id account) u) as (S1 & S2 & S3 & S4 & S5).
  pose proof (stamped_people (wall_clock env n) z (cu_id account) (accounts d3) t u c Hp) as Hpd. rewrite <- Hacc in Hpd.
  pose proof (stamped_well_formed (wall_clock env n) z (cu_id account) (accounts d3) t W3) as W'. rewrite <- Hacc in W'.
  exists (stamped (wall_clock env n) z (cu_id account) u), c, attempt. rewrite S1, S4, S5, Eid, Hh, <- E2.
  split; [done|]. split; [done|]. split; [done|]. split; [done|]. split.
  { unfold stamped. rewrite Hu, Hus. apply elem_of_people in Hp as (_ & _ & _ & Hkind). rewrite Hkind. rewrite sql_eq_refl. done. }
  split; [done|]. split; [done|]. split; [by rewrite Hacc|]. split; [done|]. split.
  { intros g Hin. rewrite Hg in Hin. apply elem_of_delete in Hin as [Hn _]. unfold guardPairs, guardPairParameters in *.
    destruct (key_login _); cbn in Hn |- *; [exact Hn|]. to_prop. by apply orb_false_iff. }
  split; [exists r; split; [rewrite Hacc; cbn [db_audit]; by rewrite Hr, last_snoc|done]|].
  intros iat exp env' m Hm. eexists. cbn [auth_userId auth_sessionVersion]. split.
  - rewrite <- Eid, <- S1. apply session_state_of; [done|exact Hpd|rewrite S1, Eid; exact Hid|done].
  - unfold isSessionCurrent. cbn. rewrite S1, Eid, S4, Hus, Hcs, String.eqb_refl, Z.eqb_refl. done.
Qed.
End Granted.

(** ** Attempts on one of the two administrators *)
Module DemoLogin.
Import DemoUsers DemoSession DemoHash.

#[export] Instance digests : GuardDigests := {| hmac_raw := fun k s => k +:+ s; hmac_hex := fun _ s => s |}.
#[export] Instance segments : DigestSegments := {| syntheticSegment := fun _ n => spell (zeros n) |}.

Definition people_db : UserDb :=
  Db (users db) (map (fun c => Credential (c_user_id c) (username_normalized c) stored (session_version c) (c_status c)
                                (password_changed_at c) (disabled_at c) (c_created_at c) (c_updated_at c)) (credentials db))
    (user_roles db) DemoAudit.empty.

Lemma people_db_well_formed : well_formed people_db.
Proof.
  destruct db_well_formed as [W1 W2 W3 W4 W5 W6 W7]. split; [exact W1|reflexivity|exact W3|exact W4| |exact W6|exact W7].
  unfold people_db. cbn [credentials]. apply Forall_map, (Forall_impl _ _ _ W5). by intros c [V1 V2].
Qed.

Definition start : LoginDb := LoginTables people_db [].

(** Meanwhile, somebody resets the password of the other one. *)
Definition resetting : operation := OpReset (VStr "user-b") (VStr "user-a") (VStr "Correct-Horse-8").
Definition meanwhile (_ : nat) (d : LoginDb) : LoginDb := LoginTables (after resetting (login_accounts d)) (guards d).

Lemma meanwhile_lawful : lawful meanwhile.
Proof.
  intros n d W. destruct (admin_step_upheld (accounts d) (accounts (meanwhile n d))) as (W' & K & _).
  - exists resetting, env, 0%nat. do 2 eexists. cbn [accounts meanwhile LoginDb_accounts login_accounts]. unfold after.
    rewrite <- !surjective_pairing. reflexivity.
  - exact W.
  - exact (conj W' K).
Qed.

Definition at_second (t : Z) : environment :=
  Env (fun _ => false) (fun _ => false) (fun n => Z.of_nat n) (fun n => "id-" +:+ show_nat (Z.of_nat n)) (fun _ => t * 1000) (fun _ => zeros 43).

Definition attempt (t : Z) (password : string) : LoginAttempt :=
  Try (fun _ d => d) (at_second t) 0%nat (VStr " Second ") (VStr password) (VStr "192.0.2.7").

Definition answers (ts : list (Z * string)) : list (Prelude.result LoginFaultCode LoginOutcome) :=
  map snd (try_all secret (map (fun p => attempt p.1 p.2) ts) start).1.

Definition authorization : LoginAuthorization := Authorization "user-b" 1 ["admin"] "K1".

Example logs_in : answers [(0, "Correct-Horse-7"); (1, "correct-horse-7")] = [Ok (Granted authorization); Ok (Denied passwordMismatch)].
Proof. vm_compute. reflexivity. Qed.

(** Five failures block, for fifteen minutes. *)
Example blocked_then_free :
  answers [(0, "a"); (1, "a"); (2, "a"); (3, "a"); (4, "a"); (5, "Correct-Horse-7"); (903, "Correct-Horse-7"); (904, "Correct-Horse-7")] =
  repeat (Ok (Denied passwordMismatch)) 5 ++ repeat (Ok (Denied loginThrottled)) 2 ++ [Ok (Granted authorization)].
Proof. vm_compute. reflexivity. Qed.

(** Eight of the last nine guesses are within one window: the bound is reached. *)
Definition around_the_boundary : list Z := [0; 899; 899; 899; 900; 900; 900; 900; 900; 900].

Example eight_guesses : map guess (answers (map (fun t => (t, "a")) around_the_boundary)) = repeat true 9 ++ [false].
Proof. vm_compute. reflexivity. Qed.
End DemoLogin.
Import DemoUsers DemoSession DemoHash DemoLogin.

Lemma password_guesses_bounded_witness :
  Z.of_nat (length (guesses_on secret (login, "kaudit.login-guard.v1.digest" +:+ FIELD_SEPARATOR +:+ "login" +:+ FIELD_SEPARATOR +:+ "second")
    (try_all secret (map (fun t => attempt t "a") (repeat 7 12)) start).1)) ≤ 8.
Proof.
  apply (password_guesses_bounded secret login _ 0 (map (fun t => attempt t "a") (repeat 7 12)) start _
    (try_all secret (map (fun t => attempt t "a") (repeat 7 12)) start).2).
  - apply surjective_pairing.
  - reflexivity.
  - apply Forall_nil_2.
  - apply Forall_forall. intros b (t & -> & Ht)%list_elem_of_fmap.
    apply list_elem_of_In, List.repeat_spec in Ht as ->. split; [intros n d; reflexivity|vm_compute; split; [discriminate|reflexivity]].
  - intros b r Hin _. assert (completed r = false) as Hc; [|exact Hc].
    apply (list_elem_of_fmap_2 (fun p => completed p.2)) in Hin. vm_compute in Hin.
    repeat (apply elem_of_cons in Hin as [Hin|Hin]; [exact Hin|]). by apply elem_of_nil in Hin.
Defined.

Lemma blocks_are_temporary_witness :
  try_time (attempt 904 "Correct-Horse-7") = 4000 + LOGIN_BLOCK_SECONDS * 1000 ∧
  (try_once secret (attempt 904 "Correct-Horse-7")
     (try_all secret [attempt 4 "a"] start).2).1 ≠ Ok (Denied (guardDenialReason login)).
Proof.
  split; [reflexivity|].
  apply (blocks_are_temporary secret [attempt 4 "a"] start 4000 (attempt 904 "Correct-Horse-7")
    (try_all secret [attempt 4 "a"] start).1 (try_all secret [attempt 4 "a"] start).2 login).
  - apply surjective_pairing.
  - reflexivity.
  - intros scope k g b Hg. discriminate Hg.
  - apply Forall_cons. split; [|apply Forall_nil_2]. split; [intros n d; reflexivity|vm_compute; discriminate].
  - intros n d. reflexivity.
  - vm_compute. discriminate.
Defined.

Lemma granted_login_is_current_witness :
  ∃ u c, (u, c) ∈ people (accounts (authenticate meanwhile secret (VStr "second") (VStr "Correct-Horse-7") (VStr "192.0.2.7") (at_second 0) 0%nat start).2.2) ∧
    u_id u = "user-b" ∧ verifyPassword (VStr "Correct-Horse-7") (password_hash c) = true.
Proof.
  destruct (granted_login_is_current meanwhile secret (VStr "second") (VStr "Correct-Horse-7") (VStr "192.0.2.7") (at_second 0) 0%nat start
    authorization
    (authenticate meanwhile secret (VStr "second") (VStr "Correct-Horse-7") (VStr "192.0.2.7") (at_second 0) 0%nat start).2.1
    (authenticate meanwhile secret (VStr "second") (VStr "Correct-Horse-7") (VStr "192.0.2.7") (at_second 0) 0%nat start).2.2)
    as (u & c & a & H1 & H2 & _ & _ & _ & _ & H3 & _).
  - vm_compute. reflexivity.
  - exact meanwhile_lawful.
  - exact people_db_well_formed.
  - exists u, c. split; [exact H1|]. split; [exact H2|exact H3].
Defined.
