(* ===== verification/SourceRevision.v ===== *)
(** * Source candidates and their revisions

    [src/callaudit/sourceRowId.ts], [taskId.ts], [mysqlTime.ts], [sourceQuery.ts],
    [sourceTypes.ts] and [sourceRevision.ts]: a row of the read-only call source, the
    window and the cursor it is read by, and the hash that identifies what it says. *)

From Stdlib Require Import Ascii.
From S2P Require Import Prelude JsNumber JsText CanonicalJson Scoring.

Local Open Scope string_scope.
Local Open Scope list_scope.
#[global] Open Scope Z_scope.

(** ** Identifiers of source rows *)

Definition MAX_SIGNED_BIGINT : string := "9223372036854775807".

(** [/^[1-9][0-9]*$/] *)
Definition CANONICAL_DECIMAL (s : string) : bool :=
  match s with
  | String c _ => all_digits s && negb (code c =? 48)
  | EmptyString => false
  end.

Definition isCanonicalSourceRowId (value : string) : bool :=
  CANONICAL_DECIMAL value && negb (len MAX_SIGNED_BIGINT <? len value) &&
  ((len value <? len MAX_SIGNED_BIGINT) || String.leb value MAX_SIGNED_BIGINT).

(** An untrusted identifier: a value, or a [bigint]. *)
Inductive untrusted_id : Type := IdValue (v : value) | IdBigInt (z : Z).

Definition canonical_or_null (s : string) : option string :=
  if isCanonicalSourceRowId s then Some s else None.

Definition normalizeSourceRowId (v : untrusted_id) : option string :=
  match v with
  | IdValue (VStr s) => canonical_or_null (trim s)
  | IdValue v =>
      z ← isInteger v;
      if negb (isSafeInteger z) || (z <=? 0) then None else Some (show_Z z)
  | IdBigInt z => canonical_or_null (show_Z z)
  end.

(** ** Task identifiers and durations *)

Definition extractTaskId (leadId : option string) : option string :=
  leadId ← leadId;
  let trimmed := trim leadId in
  if bool_decide (trimmed = "") then None
  else
    taskId ← trim <$> last (split_on "-"%char trimmed);
    if bool_decide (taskId = "") then None else Some taskId.

(** The first [n] characters, when they are digits, and the rest. *)
Definition take_digits (n : nat) (s : string) : option (string * string) :=
  let w := str_take n s in
  if (Nat.eqb (String.length w) n && all_digits w)%bool then Some (w, str_drop n s) else None.

(** The next character, when it satisfies the class. *)
Definition expect (p : ascii → bool) (s : string) : option string :=
  match s with
  | String c s => if p c then Some s else None
  | EmptyString => None
  end.

Definition is_char (a : ascii) : ascii → bool := Ascii.eqb a.

(** [(?:\.(\d{1,6}))?$]: the fraction, empty when there is none. *)
Definition fraction_end (s : string) : option string :=
  match s with
  | EmptyString => Some ""
  | String c w =>
      if is_char "." c && (1 <=? len w) && (len w <=? 6) && all_digits w then Some w else None
  end.

(** [[0-5]\d] *)
Definition sexagesimal (s : string) : option (string * string) :=
  p ← take_digits 2 s;
  match p.1 with
  | String c _ => if code c <=? 53 then Some p else None
  | EmptyString => None
  end.

(** [/^(\d{1,3}):([0-5]\d):([0-5]\d)(?:\.(\d{1,6}))?$/] *)
Definition MYSQL_TIME (s : string) : option (string * string * string) :=
  let '(hours, rest) := span_digits s in
  if (1 <=? len hours) && (len hours <=? 3) then
    rest ← expect (is_char ":") rest;
    '(minutes, rest) ← sexagesimal rest;
    rest ← expect (is_char ":") rest;
    '(seconds, rest) ← sexagesimal rest;
    _ ← fraction_end rest;
    Some (hours, minutes, seconds)
  else None.

Definition parseMysqlTimeToSeconds (v : option string) : option Z :=
  value ← v;
  let trimmed := trim value in
  if bool_decide (trimmed = "") then None
  else
    '(hours, minutes, seconds) ← MYSQL_TIME trimmed;
    Some (dec_value hours * 3600 + dec_value minutes * 60 + dec_value seconds).

(** ** UTC-naive timestamps *)

Record naive_parts : Type := Parts {
  yearText : string; monthText : string; dayText : string;
  hourText : string; minuteText : string; secondText : string;
  fractionText : string;
}.

(** [/^(\d{4})-(\d{2})-(\d{2})[ T](\d{2}):(\d{2}):(\d{2})(?:\.(\d{1,6}))?$/] *)
Definition NAIVE_DATETIME (s : string) : option naive_parts :=
  '(y, s) ← take_digits 4 s; s ← expect (is_char "-") s;
  '(mo, s) ← take_digits 2 s; s ← expect (is_char "-") s;
  '(d, s) ← take_digits 2 s; s ← expect (fun c => is_char " " c || is_char "T" c) s;
  '(h, s) ← take_digits 2 s; s ← expect (is_char ":") s;
  '(mi, s) ← take_digits 2 s; s ← expect (is_char ":") s;
  '(sec, s) ← take_digits 2 s;
  f ← fraction_end s;
  Some (Parts y mo d h mi sec f).

Definition isLeapYear (year : Z) : bool :=
  ((year mod 4 =? 0) && negb (year mod 100 =? 0)) || (year mod 400 =? 0).

Definition daysInMonth (year month : Z) : Z :=
  if month =? 2 then (if isLeapYear year then 29 else 28)
  else if (month =? 4) || (month =? 6) || (month =? 9) || (month =? 11) then 30 else 31.

Definition date_text (p : naive_parts) : string :=
  yearText p +:+ "-" +:+ monthText p +:+ "-" +:+ dayText p +:+ " ".
Definition time_text (p : naive_parts) : string :=
  hourText p +:+ ":" +:+ minuteText p +:+ ":" +:+ secondText p.

(** The message of a [CallAuditSourceQueryError]. *)
Definition query_error : Type := string.

Definition normalizeDatetime (v : value) (label : string) : Prelude.result query_error string :=
  match v with
  | VStr text =>
      match NAIVE_DATETIME (trim text) with
      | None => Throw (label +:+ " must be a UTC-naive 'YYYY-MM-DD HH:MM:SS' datetime")
      | Some p =>
          let year := dec_value (yearText p) in
          let month := dec_value (monthText p) in
          let day := dec_value (dayText p) in
          throw_if (year <? 1) (label +:+ " has an invalid year") ≫= fun _ =>
          throw_if ((month <? 1) || (12 <? month)) (label +:+ " has an invalid month") ≫= fun _ =>
          throw_if ((day <? 1) || (daysInMonth year month <? day))
            (label +:+ " has an invalid day for that month") ≫= fun _ =>
          throw_if (23 <? dec_value (hourText p)) (label +:+ " has an invalid hour") ≫= fun _ =>
          throw_if (59 <? dec_value (minuteText p)) (label +:+ " has an invalid minute") ≫= fun _ =>
          throw_if (59 <? dec_value (secondText p)) (label +:+ " has an invalid second") ≫= fun _ =>
          Ok (date_text p +:+ time_text p +:+ "." +:+ pad_end 6 (fractionText p))
      end
  | _ => Throw (label +:+ " must be a string")
  end.

(** ** Windows and cursors *)

Definition MAX_SOURCE_BATCH_SIZE : Z := 1000.

Record SourceCandidateCursor : Type := Cursor { cursor_time : value; cursor_row : untrusted_id }.

Record SourceCandidateQuery : Type := Query {
  periodStart : value;
  periodEndExclusive : value;
  batchSize : value;
  cursor : option SourceCandidateCursor;
}.

Record ValidatedSourceCandidateQuery : Type := Validated {
  v_periodStart : string;
  v_periodEndExclusive : string;
  v_batchSize : Z;
  v_cursor : option (string * string);
}.

(** [a < b] on strings of ASCII. *)
Definition str_ltb (a b : string) : bool := negb (String.leb b a).

(** [Number.isSafeInteger(value)] *)
Definition safe_integer (v : value) : option Z :=
  z ← isInteger v; if isSafeInteger z then Some z else None.

Definition requireBatchSize (v : value) : Prelude.result query_error Z :=
  match safe_integer v with
  | Some z => if (z <? 1) || (MAX_SOURCE_BATCH_SIZE <? z)
              then Throw "batchSize must be an integer between 1 and 1000" else Ok z
  | None => Throw "batchSize must be an integer between 1 and 1000"
  end.

Definition validateSourceCandidateQuery (query : SourceCandidateQuery)
    : Prelude.result query_error ValidatedSourceCandidateQuery :=
  start ← normalizeDatetime (periodStart query) "periodStart";
  end_ ← normalizeDatetime (periodEndExclusive query) "periodEndExclusive";
  throw_if (String.leb end_ start) "periodEndExclusive must be strictly after periodStart" ≫= fun _ =>
  batchSize ← requireBatchSize (batchSize query);
  match cursor query with
  | None => Ok (Validated start end_ batchSize None)
  | Some c =>
      time ← normalizeDatetime (cursor_time c) "cursor.effectiveCallTime";
      throw_if (str_ltb time start) "cursor.effectiveCallTime must not precede periodStart" ≫= fun _ =>
      throw_if (String.leb end_ time) "cursor.effectiveCallTime must be before periodEndExclusive" ≫= fun _ =>
      match normalizeSourceRowId (cursor_row c) with
      | None => Throw "cursor.sourceRowId must be a canonical positive decimal within BIGINT range"
      | Some row => Ok (Validated start end_ batchSize (Some (time, row)))
      end
  end.

Definition normalizeChangeSourceRowId (v : untrusted_id) : Prelude.result query_error string :=
  let zero := match v with
              | IdValue (VStr s) => String.eqb s "0"
              | IdValue v => bool_decide (isInteger v = Some 0)
              | IdBigInt z => z =? 0
              end in
  if zero then Ok "0"
  else match normalizeSourceRowId v with
       | Some row => Ok row
       | None => Throw "changedAfter.sourceRowId must be zero or a canonical positive BIGINT decimal"
       end.

Record ValidatedSourceChangeQuery : Type := ValidatedChange {
  changedAt : string;
  changedRow : string;
  changedBeforeExclusive : string;
  change_batchSize : Z;
}.

Definition validateSourceChangeQuery (after : option SourceCandidateCursor) (before batchSize : value)
    : Prelude.result query_error ValidatedSourceChangeQuery :=
  match after with
  | None => Throw "changedAfter must be a cursor"
  | Some c =>
      at_ ← normalizeDatetime (cursor_time c) "changedAfter.changedAt";
      before ← normalizeDatetime before "changedBeforeExclusive";
      throw_if (String.leb before at_) "changedBeforeExclusive must be after changedAfter.changedAt" ≫= fun _ =>
      batchSize ← requireBatchSize batchSize;
      row ← normalizeChangeSourceRowId (cursor_row c);
      Ok (ValidatedChange at_ row before batchSize)
  end.

(** ** Candidates and references *)

Definition CALL_AUDIT_SOURCE_TABLE : string := "ai_voice_leads_received".

Record SourceCategoricalSnapshot : Type := Snapshot {
  company_by_kserve : option string;
  company : option string;
  data_source : option string;
  verified_source : option string;
  service_category : option string;
  call_type : option string;
  call_status : option string;
  call_end_reason : option string;
  final_call_status : option string;
  ai_call_category : option string;
  customer_engagement_level : option string;
  interest_level : option string;
  call_outcome : option string;
  lead_status : option string;
  final_lead_outcome : option string;
  calculated_qualification_status : option string;
  followup_required : option string;
}.

Definition SOURCE_CATEGORICAL_FIELDS : list (string * (SourceCategoricalSnapshot → option string)) := [
  ("company_by_kserve", company_by_kserve); ("company", company); ("data_source", data_source);
  ("verified_source", verified_source); ("service_category", service_category);
  ("call_type", call_type); ("call_status", call_status); ("call_end_reason", call_end_reason);
  ("final_call_status", final_call_status); ("ai_call_category", ai_call_category);
  ("customer_engagement_level", customer_engagement_level); ("interest_level", interest_level);
  ("call_outcome", call_outcome); ("lead_status", lead_status);
  ("final_lead_outcome", final_lead_outcome);
  ("calculated_qualification_status", calculated_qualification_status);
  ("followup_required", followup_required)].

Record InternalSourceCandidate : Type := Candidate {
  cand_sourceTable : string;
  cand_sourceRowId : string;
  cand_leadId : option string;
  cand_transcript : option string;
  cand_effectiveCallTime : string;
  cand_sourceUpdatedAt : option string;
  cand_callStartedAt : option string;
  cand_callEndedAt : option string;
  cand_callDurationSec : option string;
  cand_snapshot : SourceCategoricalSnapshot;
}.

(** The cursor after a page. *)
Definition nextSourceCandidateCursor (candidates : list InternalSourceCandidate) : option SourceCandidateCursor :=
  c ← last candidates;
  Some (Cursor (VStr (cand_effectiveCallTime c)) (IdValue (VStr (cand_sourceRowId c)))).

Record CallAuditSourceReference : Type := Reference {
  sourceTable : string;
  sourceRowId : string;
  sourceRevisionSha256 : string;
  effectiveCallTime : string;
  taskId : option string;
  leadIdSha256 : option string;
  transcriptSha256 : option string;
  hasTranscript : bool;
  sourceUpdatedAt : option string;
  callStartedAt : option string;
  callEndedAt : option string;
  callDurationSeconds : option Z;
  sourceRefIdempotencyKey : string;
  snapshot : SourceCategoricalSnapshot;
}.

Record SourceRevisionEnvelope : Type := Envelope {
  transcript : option string;
  reference : CallAuditSourceReference;
}.

(** ** Revisions *)

Definition revisionFacts (r : CallAuditSourceReference) : json :=
  JObj ([("source_table", JStr (sourceTable r)); ("source_row_id", JStr (sourceRowId r));
         ("effective_call_at", JStr (effectiveCallTime r)); ("task_id", jstr_opt (taskId r));
         ("lead_id_sha256", jstr_opt (leadIdSha256 r));
         ("transcript_sha256", jstr_opt (transcriptSha256 r));
         ("has_transcript", JBool (hasTranscript r));
         ("source_updated_at", jstr_opt (sourceUpdatedAt r));
         ("call_started_at", jstr_opt (callStartedAt r));
         ("call_ended_at", jstr_opt (callEndedAt r));
         ("call_duration_seconds", jint_opt (callDurationSeconds r))] ++
        map (fun p => (p.1, jstr_opt (p.2 (snapshot r)))) SOURCE_CATEGORICAL_FIELDS).

Definition sourceRevisionCanonicalJson (r : CallAuditSourceReference) : Prelude.result js_error string :=
  canonicalJson (revisionFacts r).

Definition buildSourceRefIdempotencyKey (sourceTable sourceRowId sha256 : string) : string :=
  sourceTable +:+ ":" +:+ sourceRowId +:+ ":" +:+ sha256.

(** The message of a [CallAuditSourceRevisionError], or what a digest throws. *)
Definition buildSourceRevision `{Platform} (c : InternalSourceCandidate)
    : Prelude.result js_error SourceRevisionEnvelope :=
  throw_if (blank (cand_sourceTable c)) (PlainError "Source table must not be blank") ≫= fun _ =>
  match normalizeSourceRowId (IdValue (VStr (cand_sourceRowId c))) with
  | None => Throw (PlainError "Source row ID must be a canonical positive decimal within BIGINT range")
  | Some row =>
      throw_if (blank (cand_effectiveCallTime c))
        (PlainError "Effective call time is required; a row without one is unreportable") ≫= fun _ =>
      let trimmedLeadId := from_option trim "" (cand_leadId c) in
      let hasTranscript := hasAuditableTranscript (cand_transcript c) in
      let referenceOf sha key :=
        Reference (cand_sourceTable c) row sha (cand_effectiveCallTime c)
          (extractTaskId (cand_leadId c))
          (if bool_decide (trimmedLeadId = "") then None else Some (sha256Hex trimmedLeadId))
          (if hasTranscript then sha256Hex <$> cand_transcript c else None)
          hasTranscript (cand_sourceUpdatedAt c) (cand_callStartedAt c) (cand_callEndedAt c)
          (parseMysqlTimeToSeconds (cand_callDurationSec c)) key (cand_snapshot c) in
      sha ← canonicalJsonSha256 (revisionFacts (referenceOf "" ""));
      Ok (Envelope (cand_transcript c)
            (referenceOf sha (buildSourceRefIdempotencyKey (cand_sourceTable c) row sha)))
  end.

(** ** Facts *)

(** *** Identifiers *)

Lemma dec_value_cons c s : dec_value (String c s) = digit_value c * 10 ^ len s + dec_value s.
Proof. unfold dec_value. cbn [dec_acc]. by rewrite dec_acc_shift. Qed.

Lemma digit_compare c d : is_digit c = true → is_digit d = true →
  Ascii.compare c d = (digit_value c ?= digit_value d).
Proof.
  intros _ _. unfold Ascii.compare, digit_value, code. rewrite <- N2Z.inj_compare.
  generalize (Z.of_N (N_of_ascii c)) (Z.of_N (N_of_ascii d)). intros x y.
  destruct (Z.compare_spec x y) as [E|E|E]; symmetry;
    [apply Z.compare_eq_iff|apply Z.compare_lt_iff|apply Z.compare_gt_iff]; lia.
Qed.

(** Decimals of one length compare as texts as their values do. *)
Lemma compare_digits s t :
  all_digits s = true → all_digits t = true → String.length s = String.length t →
  String.compare s t = (dec_value s ?= dec_value t).
Proof.
  revert t. induction s as [|c s IH]; intros [|d t] Hs Ht Hl; try done. cbn in Hl. injection Hl as Hl.
  unfold all_digits in Hs, Ht. cbn in Hs, Ht. apply andb_true_iff in Hs as [Hc Hs], Ht as [Hd Ht].
  cbn [String.compare]. rewrite digit_compare, IH, !dec_value_cons by done. unfold len. rewrite <- Hl.
  pose proof (dec_value_bounds s Hs) as Bs. pose proof (dec_value_bounds t Ht) as Bt.
  unfold len in Bs, Bt. rewrite <- Hl in Bt. set (p := 10 ^ Z.of_nat (String.length s)) in *.
  destruct (Z.compare_spec (digit_value c) (digit_value d)) as [E|E|E].
  - rewrite E. destruct (Z.compare_spec (dec_value s) (dec_value t)); symmetry;
      [apply Z.compare_eq_iff|apply Z.compare_lt_iff|apply Z.compare_gt_iff]; lia.
  - symmetry. apply Z.compare_lt_iff. nia.
  - symmetry. apply Z.compare_gt_iff. nia.
Qed.

Definition MAX_BIGINT_VALUE : Z := 2 ^ 63 - 1.

Lemma canonical_head c s : all_digits (String c s) = true → code c ≠ 48 →
  10 ^ len s ≤ dec_value (String c s) < 10 ^ (len s + 1).
Proof.
  intros Hd Hc. pose proof (dec_value_bounds _ Hd) as B. unfold len in B |- *. cbn [String.length] in B.
  rewrite Nat2Z.inj_succ in B. split; [|exact (proj2 B)]. clear B.
  unfold all_digits in Hd. cbn in Hd. apply andb_true_iff in Hd as [Hh Hd].
  pose proof (is_digit_value c Hh) as Hv. pose proof (dec_value_bounds s Hd) as B.
  rewrite dec_value_cons. unfold len in *. unfold digit_value in *.
  assert (1 ≤ code c - 48) by lia. nia.
Qed.

Lemma len_le_pow a b n : 0 ≤ a → 10 ^ a ≤ n → n < 10 ^ b → a < b.
Proof.
  intros Ha H1 H2. destruct (Z.lt_ge_cases a b) as [|Hba]; [done|].
  pose proof (Z.pow_le_mono_r 10 b a ltac:(lia) Hba). lia.
Qed.

(** The accepted identifiers are exactly the decimals of the positive values of a
    signed BIGINT. *)
Lemma isCanonicalSourceRowId_spec s :
  isCanonicalSourceRowId s = true ↔ ∃ n, 1 ≤ n ≤ MAX_BIGINT_VALUE ∧ s = show_nat n.
Proof.
  unfold isCanonicalSourceRowId. change (len MAX_SIGNED_BIGINT) with 19. split.
  - intros H. to_prop. destruct s as [|c s]; [done|]. cbn [CANONICAL_DECIMAL] in *. to_prop.
    pose proof (canonical_head c s ltac:(done) ltac:(done)) as B.
    set (n := dec_value (String c s)) in *. assert (len (String c s) = len s + 1) as Hlen
      by (unfold len; cbn [String.length]; lia).
    assert (0 ≤ len s) by (unfold len; lia).
    assert (1 ≤ n) by (pose proof (Z.pow_pos_nonneg 10 (len s) ltac:(lia) ltac:(lia)); lia).
    exists n. split; [split; [done|]|].
    + destruct H0 as [H0|H0].
      * to_prop. pose proof (Z.pow_le_mono_r 10 (len s + 1) 18 ltac:(lia) ltac:(lia)).
        unfold MAX_BIGINT_VALUE. change (2 ^ 63 - 1) with 9223372036854775807.
        change (10 ^ 18) with 1000000000000000000 in *. lia.
      * destruct (Z.eq_dec (len (String c s)) 19) as [E|E].
        -- unfold String.leb in H0. rewrite compare_digits in H0; [|done|done|apply Nat2Z.inj; exact E].
           fold n in H0. change (dec_value MAX_SIGNED_BIGINT) with MAX_BIGINT_VALUE in H0.
           destruct (Z.compare_spec n MAX_BIGINT_VALUE); [lia|lia|done].
        -- pose proof (Z.pow_le_mono_r 10 (len s + 1) 18 ltac:(lia) ltac:(lia)).
           unfold MAX_BIGINT_VALUE. change (2 ^ 63 - 1) with 9223372036854775807.
           change (10 ^ 18) with 1000000000000000000 in *. lia.
    + destruct (show_nat_spec n ltac:(lia)) as (Hd & Hv & Hl).
      pose proof (length_show_nat_bounds n ltac:(lia)) as B'.
      apply dec_value_inj; [done|done| |by rewrite Hv].
      assert (len s = len (show_nat n) - 1) as E.
      { apply (pow10_unique n); [lia|unfold len; lia|exact B|].
        replace (len (show_nat n) - 1 + 1) with (len (show_nat n)) by lia. exact B'. }
      unfold len in E. cbn [String.length]. lia.
  - intros (n & [H1 H2] & ->). destruct (show_nat_spec n ltac:(lia)) as (Hd & Hv & Hl).
    pose proof (length_show_nat_bounds n H1) as B.
    assert (len (show_nat n) ≤ 19) as Hle.
    { pose proof (len_le_pow (len (show_nat n) - 1) 19 n). unfold MAX_BIGINT_VALUE in H2.
      change (2 ^ 63 - 1) with 9223372036854775807 in H2. change (10 ^ 19) with 10000000000000000000 in *.
      unfold len in *. lia. }
    apply andb_true_iff. split; [apply andb_true_iff; split|].
    + destruct (show_nat n) as [|c s] eqn:Es; [cbn in Hl; lia|]. unfold CANONICAL_DECIMAL. rewrite Hd. cbn [andb].
      apply negb_true_iff, Z.eqb_neq. intros Hc. rewrite <- Hv in B. rewrite dec_value_cons in B.
      unfold all_digits in Hd. cbn in Hd. apply andb_true_iff in Hd as [_ Hd].
      pose proof (dec_value_bounds s Hd) as B'. unfold digit_value in B. rewrite Hc in B.
      replace (len (String c s) - 1) with (len s) in B by (unfold len; cbn [String.length]; lia). lia.
    + apply negb_true_iff, Z.ltb_ge. exact Hle.
    + apply orb_true_iff. destruct (Z.eq_dec (len (show_nat n)) 19) as [E|E]; [right|left; apply Z.ltb_lt; lia].
      unfold String.leb. rewrite compare_digits; [|done|done|apply Nat2Z.inj; exact E].
      rewrite Hv. change (dec_value MAX_SIGNED_BIGINT) with MAX_BIGINT_VALUE.
      destruct (Z.compare_spec n MAX_BIGINT_VALUE); [done|done|lia].
Qed.

(** *** Revisions *)

Definition fact_entries (r : CallAuditSourceReference) : list (string * json) :=
  match revisionFacts r with JObj es => es | _ => [] end.

Lemma revisionFacts_entries r : revisionFacts r = JObj (fact_entries r).
Proof. done. Qed.

Lemma fact_keys r : map fst (fact_entries r) = map fst (fact_entries
  (Reference "" "" "" "" None None None false None None None None ""
    (Snapshot None None None None None None None None None None None None None None None None None))).
Proof. reflexivity. Qed.

Lemma fact_keys_NoDup r : NoDup (map fst (fact_entries r)).
Proof. rewrite fact_keys. apply (bool_decide_unpack _). vm_compute. exact I. Qed.

Lemma revisionFacts_finite r : finite (revisionFacts r) = true.
Proof.
  unfold revisionFacts, SOURCE_CATEGORICAL_FIELDS. cbn [finite map app forallb fst snd].
  by rewrite !finite_jstr_opt, finite_jint_opt.
Qed.

(** Everything that is persisted of a revision, its own hash and key apart, is read
    back from its facts. *)
Definition same_facts (r r' : CallAuditSourceReference) : Prop :=
  r' = Reference (sourceTable r) (sourceRowId r) (sourceRevisionSha256 r') (effectiveCallTime r)
         (taskId r) (leadIdSha256 r) (transcriptSha256 r) (hasTranscript r) (sourceUpdatedAt r)
         (callStartedAt r) (callEndedAt r) (callDurationSeconds r) (sourceRefIdempotencyKey r') (snapshot r).

Lemma fact_member k v w r r' :
  revisionFacts r ≡ revisionFacts r' → (k, v) ∈ fact_entries r → (k, w) ∈ fact_entries r' →
  scalar v → scalar w → v = w.
Proof.
  intros E Hv Hw Sv Sw. apply scalar_equiv; [done..|].
  apply (JObj_entry (fact_entries r) (fact_entries r') k); [exact E|apply fact_keys_NoDup|done|done].
Qed.

Ltac fact_in := unfold fact_entries, revisionFacts, SOURCE_CATEGORICAL_FIELDS; cbn [map app fst snd];
  repeat (apply elem_of_cons; first [left; reflexivity | right]).

Ltac fact_eq E k :=
  let H := fresh "F" in
  eassert (_ = _) as H by (eapply (fact_member k _ _ _ _ E); [fact_in|fact_in|auto with kaudit|auto with kaudit]).

Lemma revisionFacts_same r r' : revisionFacts r ≡ revisionFacts r' → same_facts r r'.
Proof.
  intros E.
  fact_eq E "source_table". fact_eq E "source_row_id". fact_eq E "effective_call_at". fact_eq E "task_id".
  fact_eq E "lead_id_sha256". fact_eq E "transcript_sha256". fact_eq E "has_transcript".
  fact_eq E "source_updated_at". fact_eq E "call_started_at". fact_eq E "call_ended_at".
  fact_eq E "call_duration_seconds".
  assert (snapshot r = snapshot r') as Hs.
  { fact_eq E "company_by_kserve". fact_eq E "company". fact_eq E "data_source". fact_eq E "verified_source".
    fact_eq E "service_category". fact_eq E "call_type". fact_eq E "call_status". fact_eq E "call_end_reason".
    fact_eq E "final_call_status". fact_eq E "ai_call_category". fact_eq E "customer_engagement_level".
    fact_eq E "interest_level". fact_eq E "call_outcome". fact_eq E "lead_status".
    fact_eq E "final_lead_outcome". fact_eq E "calculated_qualification_status". fact_eq E "followup_required".
    repeat match goal with H : jstr_opt _ = jstr_opt _ |- _ => apply jstr_opt_inj in H end.
    clear E. destruct (snapshot r), (snapshot r'). f_equal; assumption. }
  repeat match goal with
    | H : jstr_opt _ = jstr_opt _ |- _ => apply jstr_opt_inj in H
    | H : jint_opt _ = jint_opt _ |- _ => apply jint_opt_inj in H
    end.
  clear E. repeat match goal with
    | H : JStr _ = JStr _ |- _ => injection H as H
    | H : JBool _ = JBool _ |- _ => injection H as H
    end.
  destruct r, r'. unfold same_facts. f_equal; symmetry; assumption.
Qed.

(** Two texts with one hash. *)
Definition clash `{Platform} (s t : string) : Prop := s ≠ t ∧ sha256Hex s = sha256Hex t.

Section Identity.
Context `{P : Platform} `{!PlatformLaws P}.

Lemma buildSourceRevision_Ok c e :
  buildSourceRevision c = Ok e →
  transcript e = cand_transcript c ∧
  hasTranscript (reference e) = hasAuditableTranscript (transcript e) ∧
  transcriptSha256 (reference e) =
    (if hasTranscript (reference e) then sha256Hex <$> transcript e else None) ∧
  canonicalJsonSha256 (revisionFacts (reference e)) = Ok (sourceRevisionSha256 (reference e)) ∧
  sourceRefIdempotencyKey (reference e) = buildSourceRefIdempotencyKey (sourceTable (reference e))
    (sourceRowId (reference e)) (sourceRevisionSha256 (reference e)) ∧
  isCanonicalSourceRowId (sourceRowId (reference e)) = true.
Proof.
  unfold buildSourceRevision. intros H. apply bind_Ok_iff in H as (u1 & _ & H).
  destruct (normalizeSourceRowId _) as [row|] eqn:Er; [|done]. apply bind_Ok_iff in H as (u2 & _ & H).
  apply bind_Ok_iff in H as (sha & Hsha & H). apply Ok_inj in H as <-.
  cbn [transcript reference hasTranscript transcriptSha256 sourceRevisionSha256 sourceRefIdempotencyKey
       sourceTable sourceRowId]. split_and!; try done.
  unfold normalizeSourceRowId, canonical_or_null in Er.
  destruct (isCanonicalSourceRowId (trim (cand_sourceRowId c))) eqn:Ec; [|done]. by injection Er as <-.
Qed.
Lemma append_suffix_inj (p q s t : string) :
  String.length s = String.length t → p +:+ s = q +:+ t → p = q ∧ s = t.
Proof.
  intros Hl. revert q. induction p as [|c p IH]; intros [|d q] E.
  - by split.
  - exfalso. rewrite append_nil_l, append_cons in E. apply (f_equal String.length) in E.
    cbn in E. rewrite length_append in E. lia.
  - exfalso. rewrite append_nil_l, append_cons in E. apply (f_equal String.length) in E.
    cbn in E. rewrite length_append in E. lia.
  - rewrite !append_cons in E. injection E as -> E. by destruct (IH q E) as [-> ->].
Qed.

(** A text is cut at its last colon. *)
Lemma last_colon p q s t :
  all_digits s = true → all_digits t = true → p +:+ ":" +:+ s = q +:+ ":" +:+ t → p = q ∧ s = t.
Proof.
  assert (∀ c q s t, all_digits s = true → ":" +:+ s ≠ String c q +:+ ":" +:+ t) as Hno.
  { clear. intros c q s t Hs E. rewrite !append_cons, append_nil_l in E. injection E as _ ->.
    unfold all_digits in Hs. rewrite str_forallb_append in Hs. apply andb_true_iff in Hs as [_ Hs]. discriminate Hs. }
  intros Hs Ht. revert q. induction p as [|c p IH]; intros [|d q] E.
  - split; [done|]. by injection E.
  - by apply Hno in E.
  - symmetry in E. by apply Hno in E.
  - rewrite !append_cons in E. injection E as -> E. by destruct (IH q E) as [-> ->].
Qed.

Lemma canonical_digits r : isCanonicalSourceRowId r = true → all_digits r = true.
Proof.
  unfold isCanonicalSourceRowId, CANONICAL_DECIMAL. intros [[H _]%andb_true_iff _]%andb_true_iff.
  destruct r; [done|]. by apply andb_true_iff in H as [H _].
Qed.

(** A key is its table, its row and its hash. *)
Lemma key_inj t1 r1 t2 r2 s1 s2 :
  isCanonicalSourceRowId r1 = true → isCanonicalSourceRowId r2 = true → String.length s1 = String.length s2 →
  buildSourceRefIdempotencyKey t1 r1 s1 = buildSourceRefIdempotencyKey t2 r2 s2 → t1 = t2 ∧ r1 = r2 ∧ s1 = s2.
Proof.
  intros C1 C2 Hl. unfold buildSourceRefIdempotencyKey.
  assert (∀ t r h : string, t +:+ ":" +:+ r +:+ ":" +:+ h = ((t +:+ ":" +:+ r) +:+ ":") +:+ h) as Ha
    by (intros; by rewrite !append_assoc').
  rewrite !Ha. intros [E ->]%append_suffix_inj; [|done]. apply append_suffix_inj in E as [E _]; [|done].
  apply last_colon in E as [-> ->]; [done|by apply canonical_digits..].
Qed.

Lemma same_facts_reference r1 r2 : same_facts r1 r2 →
  sourceRevisionSha256 r1 = sourceRevisionSha256 r2 → sourceRefIdempotencyKey r1 = sourceRefIdempotencyKey r2 → r1 = r2.
Proof. intros Hf Hs Hk. unfold same_facts in Hf. rewrite <- Hs, <- Hk in Hf. rewrite Hf. by destruct r1. Qed.

(** C36: A source reference is its revision. Two candidates whose references state the same
    facts have the same hash and the same idempotency key, so re-reading an unchanged row is
    no revision of its own; and two with one revision hash (or one key) have the very same
    reference, everything persisted included, and the very same transcript as evidence, unless
    two given texts share a SHA-256 hash, so a row that changed in any recorded fact is one.
    The key is the table, the row and the hash, and keys are equal exactly when all three are. *)
Theorem source_revision_identifies c1 c2 e1 e2 :
  buildSourceRevision c1 = Ok e1 → buildSourceRevision c2 = Ok e2 →
  (same_facts (reference e1) (reference e2) →
     sourceRevisionSha256 (reference e1) = sourceRevisionSha256 (reference e2) ∧
     sourceRefIdempotencyKey (reference e1) = sourceRefIdempotencyKey (reference e2) ∧
     reference e1 = reference e2) ∧
  (sourceRevisionSha256 (reference e1) = sourceRevisionSha256 (reference e2) ∨
   sourceRefIdempotencyKey (reference e1) = sourceRefIdempotencyKey (reference e2) →
   (reference e1 = reference e2 ∧
      (hasTranscript (reference e1) = true → transcript e1 = transcript e2 ∨
         ∃ t1 t2, transcript e1 = Some t1 ∧ transcript e2 = Some t2 ∧ clash t1 t2)) ∨
   ∃ t1 t2, sourceRevisionCanonicalJson (reference e1) = Ok t1 ∧
            sourceRevisionCanonicalJson (reference e2) = Ok t2 ∧ clash t1 t2) ∧
  sourceRefIdempotencyKey (reference e1) =
    sourceTable (reference e1) +:+ ":" +:+ sourceRowId (reference e1) +:+ ":" +:+ sourceRevisionSha256 (reference e1) ∧
  (sourceRefIdempotencyKey (reference e1) = sourceRefIdempotencyKey (reference e2) ↔
     sourceTable (reference e1) = sourceTable (reference e2) ∧ sourceRowId (reference e1) = sourceRowId (reference e2) ∧
     sourceRevisionSha256 (reference e1) = sourceRevisionSha256 (reference e2)).
Proof.
  intros H1 H2. apply buildSourceRevision_Ok in H1 as (T1 & A1 & S1 & D1 & K1 & C1), H2 as (T2 & A2 & S2 & D2 & K2 & C2).
  pose proof D1 as E1. pose proof D2 as E2.
  rewrite canonicalJsonSha256_ok in E1, E2 by apply revisionFacts_finite. injection E1 as E1. injection E2 as E2.
  assert (sourceRefIdempotencyKey (reference e1) = sourceRefIdempotencyKey (reference e2) ↔
     sourceTable (reference e1) = sourceTable (reference e2) ∧ sourceRowId (reference e1) = sourceRowId (reference e2) ∧
     sourceRevisionSha256 (reference e1) = sourceRevisionSha256 (reference e2)) as Hkey.
  { rewrite K1, K2. split; [|by intros (-> & -> & ->)]. apply key_inj; [done..|].
    rewrite <- E1, <- E2. by rewrite !(proj1 (sha256Hex_shape _)). }
  assert (same_facts (reference e1) (reference e2) →
    sourceRevisionSha256 (reference e1) = sourceRevisionSha256 (reference e2)) as Hsame.
  { intros Hf. rewrite <- E1, <- E2. do 3 f_equal. unfold same_facts in Hf. by rewrite Hf. }
  split; [|split; [|by split]].
  { intros Hf. pose proof (Hsame Hf) as Hs. assert (sourceRefIdempotencyKey (reference e1) = sourceRefIdempotencyKey (reference e2))
      as Hk by (apply Hkey; unfold same_facts in Hf; split; [by rewrite Hf|]; split; [by rewrite Hf|done]).
    split; [done|]. split; [done|]. by apply same_facts_reference. }
  intros Hk. assert (sourceRevisionSha256 (reference e1) = sourceRevisionSha256 (reference e2)) as E
    by (destruct Hk as [|Hk]; [done|by apply Hkey in Hk as (_ & _ & ?)]).
  clear E1 E2. rewrite <- E in D2. destruct (digest_identifies _ _ _ (revisionFacts_finite _) (revisionFacts_finite _) D1 D2)
    as [Hf|Hc]; [left|right].
  - apply revisionFacts_same in Hf.
    assert (reference e1 = reference e2) as Er.
    { apply same_facts_reference; [done..|]. apply Hkey. unfold same_facts in Hf.
      split; [by rewrite Hf|]. split; [by rewrite Hf|done]. }
    split; [done|]. intros Ht. rewrite <- Er in S2, A2. rewrite Ht in S1, S2, A1, A2. rewrite S1 in S2.
    destruct (transcript e1) as [t1|]; [|done]. destruct (transcript e2) as [t2|]; [|done].
    injection S2 as S2. destruct (decide (t1 = t2)) as [->|Hne]; [by left|right]. exists t1, t2. by repeat split.
  - exists (print (norm (revisionFacts (reference e1)))), (print (norm (revisionFacts (reference e2)))).
    unfold sourceRevisionCanonicalJson, canonicalJson. rewrite !canonical_print by apply revisionFacts_finite.
    split; [done|]. split; [done|]. exact Hc.
Qed.
End Identity.

(** ** A call, and the same call once more *)
Module DemoSource.
#[export] Instance platform : Platform := demo_platform.
#[export] Instance laws : PlatformLaws platform := demo_platform_laws.

Definition snapshot0 : SourceCategoricalSnapshot :=
  Snapshot None (Some "Kairali") None None (Some "Treatment") None None None None None None None None None
    (Some "Junk") None (Some "No").

Definition call (row transcript duration : string) : InternalSourceCandidate :=
  Candidate CALL_AUDIT_SOURCE_TABLE row (Some "KTAHV-2026-08-T77 ") (Some transcript)
    "2026-08-01 09:30:00" None (Some "2026-08-01 09:30:00") None (Some duration) snapshot0.

Definition revision (c : InternalSourceCandidate) : option CallAuditSourceReference :=
  match buildSourceRevision c with Ok e => Some (reference e) | Throw _ => None end.

Definition facts (c : InternalSourceCandidate) : option (string * Prelude.result js_error string) :=
  r ← revision c; Some (sourceRevisionSha256 r, sourceRevisionCanonicalJson r).

Example facts_of_a_call :
  (fun r => (sourceRowId r, taskId r, callDurationSeconds r, hasTranscript r)) <$>
    revision (call " 9223372036854775807 " "Hello" "00:01:30.5") =
  Some ("9223372036854775807", Some "T77", Some 90, true).
Proof. vm_compute. reflexivity. Qed.

Example another_revision :
  revision (call "7" "Hello" "00:01:30") ≠ revision (call "7" "Hello." "00:01:30") ∧
  revision (call "7" "Hello" "00:01:30.25") = revision (call "7" "Hello" "00:01:30") ∧
  revision (call "9223372036854775808" "Hello" "00:01:30") = None ∧
  revision (call "007" "Hello" "00:01:30") = None.
Proof. vm_compute. repeat split; discriminate. Qed.

Example windows :
  is_ok (validateSourceCandidateQuery (Query (VStr "2026-02-28 18:30:00") (VStr "2026-03-01T18:30:00") (VNum 50 0) None)) = true ∧
  is_ok (validateSourceCandidateQuery (Query (VStr "2026-02-30 00:00:00") (VStr "2026-03-01 00:00:00") (VNum 50 0) None)) = false ∧
  is_ok (validateSourceCandidateQuery (Query (VStr "2026-03-01 00:00:00Z") (VStr "2026-03-02 00:00:00") (VNum 50 0) None)) = false ∧
  is_ok (validateSourceCandidateQuery (Query (VStr "2026-03-01 00:00:00") (VStr "2026-03-01 00:00:00.0") (VNum 50 0) None)) = false.
Proof. vm_compute. auto. Qed.
End DemoSource.

#[local] Existing Instance DemoSource.platform.
#[local] Existing Instance DemoSource.laws.

Lemma source_revision_identifies_witness :
  DemoSource.revision (DemoSource.call " 7" "Hello" "00:01:30") = DemoSource.revision (DemoSource.call "7" "Hello" "00:01:30").
Proof.
  assert (DemoSource.facts (DemoSource.call " 7" "Hello" "00:01:30") = DemoSource.facts (DemoSource.call "7" "Hello" "00:01:30"))
    as Hf by (vm_compute; reflexivity).
  assert (is_Some (DemoSource.facts (DemoSource.call " 7" "Hello" "00:01:30"))) as Hs by (vm_compute; eauto).
  unfold DemoSource.facts, DemoSource.revision in *.
  destruct (buildSourceRevision (DemoSource.call " 7" "Hello" "00:01:30")) as [e1|] eqn:E1; [|by destruct Hs].
  destruct (buildSourceRevision (DemoSource.call "7" "Hello" "00:01:30")) as [e2|] eqn:E2; [|discriminate Hf].
  injection Hf as Hsha Hcanon.
  destruct (proj1 (proj2 (source_revision_identifies _ _ e1 e2 E1 E2)) (or_introl Hsha)) as [[H _]|(t1 & t2 & H1 & H2 & Hne & _)].
  - by rewrite H.
  - exfalso. apply Hne. rewrite Hcanon, H2 in H1. by injection H1.
Defined.
