(* ===== verification/ResultRecords.v ===== *)
(** * The records of a content audit

    [src/callaudit/resultRecords.ts]: what is persisted of one audited call and of each
    attempt on the model, with identifiers, keys and hashes that a replay derives again. *)

From Stdlib Require Import Ascii.
From S2P Require Import Prelude JsNumber JsText Regex CanonicalJson Outcomes Scoring ModelOutput SourceRevision.

Local Open Scope string_scope.
Local Open Scope list_scope.
#[global] Open Scope Z_scope.

(** A [CallAuditRecordError], or what taking a digest throws. *)
Inductive record_error : Type :=
| RecordError (field reason : string)
| DigestError (e : js_error).

Notation recorded A := (Prelude.result record_error A).

Definition digested {A} (m : Prelude.result js_error A) : recorded A :=
  match m with Ok a => Ok a | Throw e => Throw (DigestError e) end.

Definition RESULT_DOCUMENT_VERSION : string := "call-audit-result-document/1.0.0".
Definition OVERALL_SCORE_METHOD : string := "call-audit-weighted-percentage/1.0.0".

Definition MAX_ID_LENGTH : Z := 40.
Definition MAX_IDEMPOTENCY_KEY_LENGTH : Z := 191.
Definition MAX_ERROR_CODE_LENGTH : Z := 80.
Definition MAX_REQUEST_ID_LENGTH : Z := 120.
Definition MAX_PROVIDER_NAME_LENGTH : Z := 80.
Definition MAX_MODEL_NAME_LENGTH : Z := 100.
Definition MAX_MODEL_VERSION_LENGTH : Z := 100.
Definition CONFIDENCE_DECIMALS : nat := 8.
Definition MAX_SIGNED_BIGINT_VALUE : Z := 9223372036854775807.
Definition MAX_ATTEMPT_NUMBER : Z := 2147483647.

Definition RESULT_ID_PREFIX : string := "car_".
Definition METRIC_ID_PREFIX : string := "cam_".
Definition USAGE_ID_PREFIX : string := "cau_".
Definition ID_HASH_LENGTH : nat := 36.
Definition IDEMPOTENCY_PREFIX : string := "call-audit-result:".

Definition CONTROL_CHARACTER : re := Chr (fun c => (c <=? 31) || ((127 <=? c) && (c <=? 159))).

(** [/^[A-Z][A-Z0-9_]*$/] *)
Definition upper_letter (c : ascii) : bool := (65 <=? code c) && (code c <=? 90).
Definition SAFE_ERROR_CODE (s : string) : bool :=
  match s with
  | String c s => upper_letter c && str_forallb (fun c => upper_letter c || is_digit c || (code c =? 95)) s
  | EmptyString => false
  end.

(** Zero, or a canonical decimal. *)
Definition CANONICAL_UNSIGNED (s : string) : bool := String.eqb s "0" || CANONICAL_DECIMAL s.

Inductive ProcessingStatus : Type := pending | succeeded | failed | skipped.
Inductive KserveComparisonLabel : Type := match_ | mismatch | not_comparable.
Inductive MismatchSeverity : Type := severity_none | severity_low | severity_medium | severity_high.
Inductive UsageAttemptOutcome : Type := attempt_succeeded | attempt_refused | attempt_failed.

#[export] Instance ProcessingStatus_eq_dec : EqDecision ProcessingStatus.
Proof. solve_decision. Defined.
#[export] Instance UsageAttemptOutcome_eq_dec : EqDecision UsageAttemptOutcome.
Proof. solve_decision. Defined.
#[export] Instance NextActionCode_eq_dec : EqDecision NextActionCode.
Proof. solve_decision. Defined.

Definition status_text (s : ProcessingStatus) : string :=
  match s with pending => "pending" | succeeded => "succeeded" | failed => "failed" | skipped => "skipped" end.
Definition eligibility_text (e : CallAuditEligibility) : string :=
  match e with content_auditable => "content_auditable" | operational_only => "operational_only" end.
Definition label_text (l : KserveComparisonLabel) : string :=
  match l with match_ => "match" | mismatch => "mismatch" | not_comparable => "not_comparable" end.
Definition severity_text (s : MismatchSeverity) : string :=
  match s with severity_none => "none" | severity_low => "low" | severity_medium => "medium" | severity_high => "high" end.
Definition attempt_text (o : UsageAttemptOutcome) : string :=
  match o with attempt_succeeded => "succeeded" | attempt_refused => "refused" | attempt_failed => "failed" end.

(** The text of a named value. *)
Definition name_of {A} `{EqDecision A} (table : list (string * A)) (a : A) : string :=
  from_option fst "" (List.find (fun p => bool_decide (p.2 = a)) table).

(** ** Rows *)

Record CallAuditResultIdentity : Type := Identity {
  runId : string; sourceRefId : string; ruleVersionId : string }.

Record CallAuditResultRecord : Type := ResultRecord {
  res_id : string;
  res_identity : CallAuditResultIdentity;
  processingStatus : ProcessingStatus;
  res_eligibility : CallAuditEligibility;
  ineligibilityReason : option string;
  res_callConnected : option bool;
  res_customerSpoke : option bool;
  res_meaningfulConversation : option bool;
  res_intent : option string;
  intentConfidence : option string;
  res_detailedOutcome : option string;
  res_groupedOutcome : option string;
  qualificationLabel : option string;
  nextActionCode : option string;
  res_overallScore : option string;
  overallScoreMethod : option string;
  kserveReportedOutcome : option string;
  kserveComparisonLabel : KserveComparisonLabel;
  mismatchSeverity : MismatchSeverity;
  managementFeedback : option string;
  res_kserveFeedback : option string;
  res_improvementFeedback : option string;
  issueFlagsJson : option string;
  resultJson : option string;
  resultSha256 : option string;
  errorCode : option string;
  idempotencyKey : string;
  auditedAt : option string;
}.

Record CallAuditMetricScoreRecord : Type := MetricRecord {
  metric_id : string;
  metric_resultId : string;
  metricCode : CallAuditMetricCode;
  scoreValue : option Z;
  isNotApplicable : bool;
}.

Record CallAuditResultBundle : Type := Bundle {
  bundle_result : CallAuditResultRecord;
  bundle_metricScores : list CallAuditMetricScoreRecord;
}.

Record CallAuditUsageEventRecord : Type := UsageRecord {
  usage_id : string;
  usage_resultId : string;
  usage_runId : string;
  usage_ruleVersionId : string;
  attemptNumber : Z;
  attemptOutcome : UsageAttemptOutcome;
  providerName : string;
  modelName : string;
  modelVersion : string;
  inputTokens : option string;
  outputTokens : option string;
  totalTokens : option string;
  requestId : option string;
  latencyMs : option string;
  usage_errorCode : option string;
  recordedAt : string;
}.

(** ** Validation primitives *)

Definition requireIdentifier (v : value) (field : string) (maxLength : Z) : recorded string :=
  match v with
  | VStr s =>
      let text := trim s in
      throw_if (bool_decide (text = "")) (RecordError field "must not be blank") ≫= fun _ =>
      throw_if (maxLength <? units text)
        (RecordError field ("must be at most " +:+ show_nat maxLength +:+ " characters")) ≫= fun _ =>
      throw_if (test CONTROL_CHARACTER text)
        (RecordError field "must not contain control characters") ≫= fun _ => Ok text
  | _ => Throw (RecordError field "must be a string")
  end.

Definition requireIdentity (i : CallAuditResultIdentity) : recorded CallAuditResultIdentity :=
  run ← requireIdentifier (VStr (runId i)) "identity.runId" MAX_ID_LENGTH;
  source ← requireIdentifier (VStr (sourceRefId i)) "identity.sourceRefId" MAX_ID_LENGTH;
  rule ← requireIdentifier (VStr (ruleVersionId i)) "identity.ruleVersionId" MAX_ID_LENGTH;
  Ok (Identity run source rule).

Definition requireTimestamp (v : value) (field : string) : recorded string :=
  match v with
  | VStr text =>
      match NAIVE_DATETIME (trim text) with
      | None => Throw (RecordError field "must be a UTC-naive 'YYYY-MM-DD HH:MM:SS' timestamp")
      | Some p =>
          let year := dec_value (yearText p) in
          let month := dec_value (monthText p) in
          let day := dec_value (dayText p) in
          throw_if ((year <? 1) || (month <? 1) || (12 <? month))
            (RecordError field "has an invalid year or month") ≫= fun _ =>
          throw_if ((day <? 1) || (daysInMonth year month <? day))
            (RecordError field "has an invalid day for that month") ≫= fun _ =>
          throw_if (23 <? dec_value (hourText p)) (RecordError field "has an invalid hour") ≫= fun _ =>
          throw_if (59 <? dec_value (minuteText p)) (RecordError field "has an invalid minute") ≫= fun _ =>
          throw_if (59 <? dec_value (secondText p)) (RecordError field "has an invalid second") ≫= fun _ =>
          Ok (date_text p +:+ time_text p +:+
              (if bool_decide (fractionText p = "") then "" else "." +:+ fractionText p))
      end
  | _ => Throw (RecordError field "must be a string")
  end.

Definition validateCallAuditTimestamp : value → string → recorded string := requireTimestamp.

Definition requireWithinBigint (text field : string) : recorded string :=
  throw_if (MAX_SIGNED_BIGINT_VALUE <? dec_value text)
    (RecordError field ("must be at most " +:+ MAX_SIGNED_BIGINT +:+ ", the signed BIGINT maximum")) ≫= fun _ =>
  Ok text.

(** A provider-reported count: absent, a value, or a [bigint]. *)
Definition normalizeUnsignedCount (v : option untrusted_id) (field : string) : recorded (option string) :=
  match v with
  | None => Ok None
  | Some (IdBigInt z) =>
      throw_if (z <? 0) (RecordError field "must not be negative") ≫= fun _ =>
      t ← requireWithinBigint (show_Z z) field; Ok (Some t)
  | Some (IdValue (VNull | VUndefined)) => Ok None
  | Some (IdValue (VNum m e)) =>
      match safe_integer (VNum m e) with
      | None => Throw (RecordError field "must be a safe integer; use a decimal string for larger counts")
      | Some z =>
          throw_if (z <? 0) (RecordError field "must not be negative") ≫= fun _ =>
          t ← requireWithinBigint (show_Z z) field; Ok (Some t)
      end
  | Some (IdValue VNotFinite) =>
      Throw (RecordError field "must be a safe integer; use a decimal string for larger counts")
  | Some (IdValue (VStr s)) =>
      let text := trim s in
      throw_if (negb (CANONICAL_UNSIGNED text))
        (RecordError field "must be a canonical non-negative decimal without sign, exponent, or leading zeros")
        ≫= fun _ => t ← requireWithinBigint text field; Ok (Some t)
  | Some (IdValue _) => Throw (RecordError field "must be a canonical decimal string, a safe integer, or null")
  end.

Definition requireAttemptNumber (v : value) : recorded Z :=
  let refused := Throw (RecordError "attemptNumber" "must be an integer between 1 and 2147483647") in
  match safe_integer v with
  | Some z => if (z <? 1) || (MAX_ATTEMPT_NUMBER <? z) then refused else Ok z
  | None => refused
  end.

Definition requireSafeErrorCode (v : value) (field : string) : recorded string :=
  match v with
  | VStr s =>
      let text := trim s in
      throw_if (bool_decide (text = "")) (RecordError field "must not be blank") ≫= fun _ =>
      throw_if (MAX_ERROR_CODE_LENGTH <? units text)
        (RecordError field "must be at most 80 characters") ≫= fun _ =>
      throw_if (negb (SAFE_ERROR_CODE text))
        (RecordError field "must be an uppercase machine code of letters, digits, and underscores") ≫= fun _ =>
      Ok text
  | _ => Throw (RecordError field "must be a string")
  end.

Definition requireSanitizedFeedback (value field : string) : recorded string :=
  throw_if (ModelOutput.MAX_FEEDBACK_LENGTH <? units value)
    (RecordError field "must be at most 2000 characters") ≫= fun _ => Ok value.

(** [/^[01]\.\d{8}$/] *)
Definition CONFIDENCE_TEXT (s : string) : bool :=
  match s with
  | String c (String d w) =>
      ((code c =? 48) || (code c =? 49)) && is_char "." d && (len w =? 8) && all_digits w
  | _ => false
  end.

Definition normalizeConfidence (v : value) : recorded string :=
  match v with
  | VNum m e =>
      throw_if ((m <? 0) || (2 ^ Z.of_N e <? m)) (RecordError "confidence" "must be between 0 and 1") ≫= fun _ =>
      let text := show_fixed CONFIDENCE_DECIMALS (num_toFixed (Dyadic m (Z.of_N e)) (Z.of_nat CONFIDENCE_DECIMALS)) in
      throw_if (negb (CONFIDENCE_TEXT text))
        (RecordError "confidence" "did not normalize to a decimal(9,8) value") ≫= fun _ => Ok text
  | _ => Throw (RecordError "confidence" "must be a finite number")
  end.

(** ** Deterministic identity *)

Section Identities.
Context `{Platform}.

Definition identity_entries (i : CallAuditResultIdentity) : list (string * json) :=
  [("runId", JStr (runId i)); ("sourceRefId", JStr (sourceRefId i)); ("ruleVersionId", JStr (ruleVersionId i))].

Definition identityDocument (i : CallAuditResultIdentity) : json := JObj (identity_entries i).

Definition derivedId (prefix : string) (document : json) : recorded string :=
  h ← digested (canonicalJsonSha256 document); Ok (prefix +:+ str_take ID_HASH_LENGTH h).

Definition idempotencyKeyFor (i : CallAuditResultIdentity) : recorded string :=
  h ← digested (canonicalJsonSha256 (identityDocument i));
  let key := IDEMPOTENCY_PREFIX +:+ h in
  throw_if (MAX_IDEMPOTENCY_KEY_LENGTH <? units key)
    (RecordError "idempotencyKey" "exceeds the column width") ≫= fun _ => Ok key.

Definition resultIdFor (i : CallAuditResultIdentity) : recorded string :=
  derivedId RESULT_ID_PREFIX (identityDocument i).

Definition metricScoreIdFor (i : CallAuditResultIdentity) (m : CallAuditMetricCode) : recorded string :=
  derivedId METRIC_ID_PREFIX (JObj (identity_entries i ++ [("metricCode", JStr (metric_text m))])).

Definition usageEventIdFor (i : CallAuditResultIdentity) (attempt : Z) : recorded string :=
  derivedId USAGE_ID_PREFIX (JObj (identity_entries i ++ [("attemptNumber", jint attempt)])).

Definition buildResultIdempotencyKey (i : CallAuditResultIdentity) : recorded string :=
  requireIdentity i ≫= idempotencyKeyFor.
Definition buildResultId (i : CallAuditResultIdentity) : recorded string :=
  requireIdentity i ≫= resultIdFor.
Definition buildMetricScoreId (i : CallAuditResultIdentity) (m : value) : recorded string :=
  match isCallAuditMetricCode m with
  | None => Throw (RecordError "metricCode" "is not an approved metric")
  | Some m => requireIdentity i ≫= fun i => metricScoreIdFor i m
  end.
Definition buildUsageEventId (i : CallAuditResultIdentity) (attempt : value) : recorded string :=
  i ← requireIdentity i; a ← requireAttemptNumber attempt; usageEventIdFor i a.

(** ** The comparison with the label of KServe *)

Record KserveComparison : Type := Comparison {
  cmp_reported : option string;
  cmp_label : KserveComparisonLabel;
  cmp_severity : MismatchSeverity;
}.

Definition compareKserveOutcome (audited candidate : option string) : KserveComparison :=
  match candidate with
  | Some reported =>
      if negb (isDetailedOutcome reported) then Comparison None not_comparable severity_none
      else match audited with
           | None => Comparison (Some reported) not_comparable severity_none
           | Some audited =>
               if String.eqb audited reported then Comparison (Some reported) match_ severity_none
               else if isNoContactOutcome audited || isNoContactOutcome reported
               then Comparison (Some reported) mismatch severity_high
               else Comparison (Some reported) mismatch
                      (if bool_decide (DETAILED_OUTCOME_GROUP audited = DETAILED_OUTCOME_GROUP reported)
                       then severity_low else severity_medium)
           end
  | None => Comparison None not_comparable severity_none
  end.

(** ** Builders *)

(** [byCode.get(code)]: a [Map] keeps the last entry of a key. *)
Definition score_by_code (output : ValidatedContentAuditOutput) (m : CallAuditMetricCode) : option MetricScore :=
  last (filter (fun p => p.1 = m) (metricScores output)) ≫= snd.

Definition metricRecord (resultId : string) (i : CallAuditResultIdentity) (output : ValidatedContentAuditOutput)
    (m : CallAuditMetricDefinition) : recorded CallAuditMetricScoreRecord :=
  match score_by_code output (metric_code m) with
  | None => Throw (RecordError "metricScores" ("is missing a score for metric " +:+ metric_text (metric_code m)))
  | Some score =>
      id ← metricScoreIdFor i (metric_code m);
      Ok (MetricRecord id resultId (metric_code m)
            (match score with NA => None | Score n => Some n end) (is_NA score))
  end.

Definition metricRecords (resultId : string) (i : CallAuditResultIdentity) (output : ValidatedContentAuditOutput)
    : recorded (list CallAuditMetricScoreRecord) :=
  mapM_result (metricRecord resultId i output) CALL_AUDIT_RUBRIC.

Definition canonicalMetricSet (scores : list CallAuditMetricScoreRecord) : json :=
  JArr (map (fun r => JObj [("metric", JStr (metric_text (metricCode r)));
    ("score", if isNotApplicable r then JStr "NA" else jint_opt (scoreValue r))]) scores).

(** The facts every document opens with. *)
Definition document_head (i : CallAuditResultIdentity) : list (string * json) :=
  ("documentVersion", JStr RESULT_DOCUMENT_VERSION) :: identity_entries i.

Definition comparison_entries (c : KserveComparison) : list (string * json) :=
  [("kserveReportedOutcome", jstr_opt (cmp_reported c));
   ("kserveComparisonLabel", JStr (label_text (cmp_label c)));
   ("mismatchSeverity", JStr (severity_text (cmp_severity c)))].

Definition sorted_flags (output : ValidatedContentAuditOutput) : list string :=
  sort_by String.leb (map (name_of ISSUE_FLAGS) (issueFlags output)).

Definition content_document (i : CallAuditResultIdentity) (output : ValidatedContentAuditOutput)
    (confidence : string) (method : option string) (scores : list CallAuditMetricScoreRecord)
    (c : KserveComparison) : json :=
  JObj (document_head i ++
    [("processingStatus", JStr "succeeded"); ("eligibility", JStr "content_auditable");
     ("ineligibilityReason", JNull); ("callConnected", JBool (callConnected output));
     ("customerSpoke", JBool (out_customerSpoke output));
     ("meaningfulConversation", JBool (meaningfulConversation output));
     ("intent", JStr (name_of CALL_INTENTS (intent output))); ("intentConfidence", JStr confidence);
     ("detailedOutcome", JStr (detailedOutcome output));
     ("groupedOutcome", jstr_opt (group_text <$> groupedOutcome output));
     ("qualification", JStr (name_of QUALIFICATIONS (qualification output)));
     ("nextAction", JStr (name_of NEXT_ACTION_CODES (nextAction output)));
     ("overallScore", jstr_opt (overallScore output)); ("overallScoreMethod", jstr_opt method);
     ("metricScores", canonicalMetricSet scores); ("issueFlags", JArr (map JStr (sorted_flags output)))] ++
    comparison_entries c ++
    [("managementFeedbackSha256", JStr (sha256Hex (managementSummary output)));
     ("kserveFeedbackSha256", JStr (sha256Hex (kserveFeedback output)));
     ("improvementFeedbackSha256", JStr (sha256Hex (improvementFeedback output)))]).

Definition buildContentAuditResult (identity : CallAuditResultIdentity) (output : ValidatedContentAuditOutput)
    (kserveReported : option string) (auditedAt : value) : recorded CallAuditResultBundle :=
  identity ← requireIdentity identity;
  auditedAt ← requireTimestamp auditedAt "auditedAt";
  resultId ← resultIdFor identity;
  scores ← metricRecords resultId identity output;
  confidence ← normalizeConfidence (VNum (out_confidence output).1 (out_confidence output).2);
  let comparison := compareKserveOutcome (Some (detailedOutcome output)) kserveReported in
  let method := match overallScore output with None => None | Some _ => Some OVERALL_SCORE_METHOD end in
  management ← requireSanitizedFeedback (managementSummary output) "managementSummary";
  kserve ← requireSanitizedFeedback (kserveFeedback output) "kserveFeedback";
  improvement ← requireSanitizedFeedback (improvementFeedback output) "improvementFeedback";
  let document := content_document identity output confidence method scores comparison in
  flags ← digested (canonicalJson (JArr (map JStr (sorted_flags output))));
  text ← digested (canonicalJson document);
  sha ← digested (canonicalJsonSha256 document);
  key ← idempotencyKeyFor identity;
  Ok (Bundle
    {| res_id := resultId; res_identity := identity; processingStatus := succeeded;
       res_eligibility := content_auditable; ineligibilityReason := None;
       res_callConnected := Some (callConnected output); res_customerSpoke := Some (out_customerSpoke output);
       res_meaningfulConversation := Some (meaningfulConversation output);
       res_intent := Some (name_of CALL_INTENTS (intent output)); intentConfidence := Some confidence;
       res_detailedOutcome := Some (detailedOutcome output);
       res_groupedOutcome := group_text <$> groupedOutcome output;
       qualificationLabel := Some (name_of QUALIFICATIONS (qualification output));
       nextActionCode := Some (name_of NEXT_ACTION_CODES (nextAction output));
       res_overallScore := overallScore output; overallScoreMethod := method;
       kserveReportedOutcome := cmp_reported comparison; kserveComparisonLabel := cmp_label comparison;
       mismatchSeverity := cmp_severity comparison;
       managementFeedback := Some management; res_kserveFeedback := Some kserve;
       res_improvementFeedback := Some improvement;
       issueFlagsJson := Some flags; resultJson := Some text; resultSha256 := Some sha;
       errorCode := None; idempotencyKey := key; auditedAt := Some auditedAt |}
    scores).

(** A row without an audit: only its identity, its comparison and what it says. *)
Definition bare_result (id : string) (identity : CallAuditResultIdentity) (status : ProcessingStatus)
    (eligibility : CallAuditEligibility) (c : KserveComparison) (json sha code : option string)
    (key : string) (auditedAt : option string) : CallAuditResultRecord :=
  {| res_id := id; res_identity := identity; processingStatus := status; res_eligibility := eligibility;
     ineligibilityReason := match eligibility with operational_only => Some "missing_transcript" | _ => None end;
     res_callConnected := None; res_customerSpoke := None; res_meaningfulConversation := None;
     res_intent := None; intentConfidence := None; res_detailedOutcome := None; res_groupedOutcome := None;
     qualificationLabel := None; nextActionCode := None; res_overallScore := None; overallScoreMethod := None;
     kserveReportedOutcome := cmp_reported c; kserveComparisonLabel := cmp_label c;
     mismatchSeverity := cmp_severity c; managementFeedback := None; res_kserveFeedback := None;
     res_improvementFeedback := None; issueFlagsJson := None; resultJson := json; resultSha256 := sha;
     errorCode := code; idempotencyKey := key; auditedAt := auditedAt |}.

Definition operational_document (i : CallAuditResultIdentity) (c : KserveComparison) : json :=
  JObj (document_head i ++
    [("processingStatus", JStr "succeeded"); ("eligibility", JStr "operational_only");
     ("ineligibilityReason", JStr "missing_transcript")] ++ comparison_entries c).

Definition buildOperationalOnlyResult (identity : CallAuditResultIdentity) (kserveReported : option string)
    (auditedAt : value) : recorded CallAuditResultBundle :=
  identity ← requireIdentity identity;
  auditedAt ← requireTimestamp auditedAt "auditedAt";
  let comparison := compareKserveOutcome None kserveReported in
  let document := operational_document identity comparison in
  id ← resultIdFor identity;
  text ← digested (canonicalJson document);
  sha ← digested (canonicalJsonSha256 document);
  key ← idempotencyKeyFor identity;
  Ok (Bundle (bare_result id identity succeeded operational_only comparison (Some text) (Some sha) None key
    (Some auditedAt)) []).

Definition buildFailedResult (identity : CallAuditResultIdentity) (eligibility : CallAuditEligibility)
    (code : value) (kserveReported : option string) : recorded CallAuditResultBundle :=
  identity ← requireIdentity identity;
  code ← requireSafeErrorCode code "errorCode";
  id ← resultIdFor identity;
  key ← idempotencyKeyFor identity;
  Ok (Bundle (bare_result id identity failed eligibility (compareKserveOutcome None kserveReported) None None
    (Some code) key None) []).

Definition buildSkippedResult (identity : CallAuditResultIdentity) (eligibility : CallAuditEligibility)
    (code : value) (kserveReported : option string) : recorded CallAuditResultBundle :=
  identity ← requireIdentity identity;
  code ← requireSafeErrorCode code "skipCode";
  id ← resultIdFor identity;
  key ← idempotencyKeyFor identity;
  Ok (Bundle (bare_result id identity skipped eligibility (compareKserveOutcome None kserveReported) None None
    (Some code) key None) []).

Record UsageEventInput : Type := UsageInput {
  in_identity : CallAuditResultIdentity;
  in_attemptNumber : value;
  in_attemptOutcome : UsageAttemptOutcome;
  in_providerName : string;
  in_modelName : string;
  in_modelVersion : string;
  in_inputTokens : option untrusted_id;
  in_outputTokens : option untrusted_id;
  in_totalTokens : option untrusted_id;
  in_requestId : option string;
  in_latencyMs : option untrusted_id;
  in_errorCode : option string;
  in_recordedAt : value;
}.

Definition requireUsageErrorCode (outcome : UsageAttemptOutcome) (code : option string) : recorded (option string) :=
  match outcome with
  | attempt_succeeded =>
      match code with
      | Some _ => Throw (RecordError "errorCode" "must be absent when the attempt succeeded")
      | None => Ok None
      end
  | _ =>
      match code with
      | None => Throw (RecordError "errorCode" ("is required when the attempt is " +:+ attempt_text outcome))
      | Some c => c ← requireSafeErrorCode (VStr c) "errorCode"; Ok (Some c)
      end
  end.

Definition buildUsageEventRecord (u : UsageEventInput) : recorded CallAuditUsageEventRecord :=
  identity ← requireIdentity (in_identity u);
  recordedAt ← requireTimestamp (in_recordedAt u) "recordedAt";
  attempt ← requireAttemptNumber (in_attemptNumber u);
  provider ← requireIdentifier (VStr (in_providerName u)) "providerName" MAX_PROVIDER_NAME_LENGTH;
  model ← requireIdentifier (VStr (in_modelName u)) "modelName" MAX_MODEL_NAME_LENGTH;
  version ← requireIdentifier (VStr (in_modelVersion u)) "modelVersion" MAX_MODEL_VERSION_LENGTH;
  request ← match in_requestId u with
            | None => Ok None
            | Some r => r ← requireIdentifier (VStr r) "requestId" MAX_REQUEST_ID_LENGTH; Ok (Some r)
            end;
  code ← requireUsageErrorCode (in_attemptOutcome u) (in_errorCode u);
  id ← usageEventIdFor identity attempt;
  resultId ← resultIdFor identity;
  input ← normalizeUnsignedCount (in_inputTokens u) "inputTokens";
  output ← normalizeUnsignedCount (in_outputTokens u) "outputTokens";
  total ← normalizeUnsignedCount (in_totalTokens u) "totalTokens";
  latency ← normalizeUnsignedCount (in_latencyMs u) "latencyMs";
  Ok {| usage_id := id; usage_resultId := resultId; usage_runId := runId identity;
        usage_ruleVersionId := ruleVersionId identity; attemptNumber := attempt;
        attemptOutcome := in_attemptOutcome u; providerName := provider; modelName := model;
        modelVersion := version; inputTokens := input; outputTokens := output; totalTokens := total;
        requestId := request; latencyMs := latency; usage_errorCode := code; recordedAt := recordedAt |}.
End Identities.

(** ** Facts *)

Section RecordFacts.
Context `{P : Platform} `{L : !PlatformLaws P}.

Lemma digested_Ok {A} (m : Prelude.result js_error A) a : digested m = Ok a ↔ m = Ok a.
Proof. destruct m; cbn; split; congruence. Qed.

Lemma digested_sha v : finite v = true → digested (canonicalJsonSha256 v) = Ok (sha256Hex (print (norm v))).
Proof. intros H. by rewrite canonicalJsonSha256_ok. Qed.

Lemma digested_text v : finite v = true → digested (canonicalJson v) = Ok (print (norm v)).
Proof. intros H. unfold canonicalJson. by rewrite canonical_print. Qed.

(** A hash, and what is cut of it, is printable ASCII. *)
Lemma sha256Hex_visible s : all_visible (sha256Hex s) = true.
Proof.
  destruct (sha256Hex_shape s) as [_ H]. revert H. generalize (sha256Hex s). intros t.
  unfold all_visible. induction t as [|c t IH]; [done|]. cbn. intros [Hc Ht]%andb_true_iff. rewrite IH by done.
  apply andb_true_iff. split; [|done]. unfold visible, is_digit in *.
  destruct (_ || _) eqn:E in Hc; [|done]. apply andb_true_iff. split; [apply Z.leb_le|apply Z.ltb_lt]; to_prop;
    destruct E as [E|E]; to_prop; lia.
Qed.

Lemma derivedId_Ok prefix v :
  finite v = true → String.length prefix = 4%nat → all_visible prefix = true →
  ∃ id, derivedId prefix v = Ok id ∧ id = prefix +:+ str_take ID_HASH_LENGTH (sha256Hex (print (norm v))) ∧ units id = MAX_ID_LENGTH.
Proof.
  intros Hf Hp Hv. unfold derivedId. rewrite digested_sha by done. eexists. split; [reflexivity|]. split; [done|].
  set (s := print (norm v)). pose proof (sha256Hex_visible s) as H. destruct (sha256Hex_shape s) as [Hl _].
  rewrite units_visible.
  - unfold len. rewrite length_append, Hp, length_str_take; [done|]. rewrite Hl. unfold ID_HASH_LENGTH. lia.
  - unfold all_visible in *. rewrite str_forallb_append, Hv. cbn [andb].
    rewrite <- (str_take_drop ID_HASH_LENGTH (sha256Hex s)), str_forallb_append in H. by to_prop.
Qed.

Lemma finite_identity i : forallb (fun p => finite p.2) (identity_entries i) = true.
Proof. done. Qed.

Lemma resultIdFor_Ok i : ∃ id, resultIdFor i = Ok id ∧
  id = RESULT_ID_PREFIX +:+ str_take ID_HASH_LENGTH (sha256Hex (print (norm (identityDocument i)))) ∧ units id = MAX_ID_LENGTH.
Proof. by apply derivedId_Ok. Qed.

Lemma metricScoreIdFor_Ok i m : ∃ id, metricScoreIdFor i m = Ok id ∧ units id = MAX_ID_LENGTH.
Proof. destruct (derivedId_Ok METRIC_ID_PREFIX (JObj (identity_entries i ++ [("metricCode", JStr (metric_text m))]))) as (id & ? & _ & ?); eauto. Qed.

Lemma usageEventIdFor_Ok i n : ∃ id, usageEventIdFor i n = Ok id ∧ units id = MAX_ID_LENGTH.
Proof. destruct (derivedId_Ok USAGE_ID_PREFIX (JObj (identity_entries i ++ [("attemptNumber", jint n)]))) as (id & ? & _ & ?); eauto. Qed.

Lemma idempotencyKeyFor_Ok i : idempotencyKeyFor i =
  Ok (IDEMPOTENCY_PREFIX +:+ sha256Hex (print (norm (identityDocument i)))).
Proof.
  unfold idempotencyKeyFor. rewrite digested_sha by done. cbn [mbind result_bind].
  set (s := print _). destruct (sha256Hex_shape s) as [Hl _].
  pose proof (sha256Hex_visible s) as Hv. rewrite units_visible; [|unfold all_visible in *; rewrite str_forallb_append, Hv; done].
  unfold len. rewrite length_append, Hl. done.
Qed.

(** *** The confidence *)

Lemma num_toFixed_unit m e : 0 ≤ m ≤ 2 ^ Z.of_N e →
  let q := num_toFixed (Dyadic m (Z.of_N e)) 8 in
  0 ≤ q ≤ 10 ^ 8 ∧ 2 * Z.abs (q * 2 ^ Z.of_N e - m * 10 ^ 8) ≤ 2 ^ Z.of_N e.
Proof.
  intros Hm q. unfold num_toFixed in q. cbn [mant scale] in q. subst q.
  assert (0 < 2 ^ Z.of_N e) as Hp by (apply Z.pow_pos_nonneg; lia). set (p := 2 ^ Z.of_N e) in *.
  change (10 ^ 8) with 100000000 in *.
  pose proof (Z.div_mod (2 * m * 100000000 + p) (2 * p) ltac:(lia)) as Hd.
  pose proof (Z.mod_pos_bound (2 * m * 100000000 + p) (2 * p) ltac:(lia)) as Hr.
  set (q := (2 * m * 100000000 + p) / (2 * p)) in *. set (r := (2 * m * 100000000 + p) mod (2 * p)) in *.
  clearbody q r p. split; [split|].
  - assert (-1 < q); [|lia]. apply Z.lt_nge. intros H. nia.
  - assert (q < 100000001); [|lia]. apply Z.lt_nge. intros H. nia.
  - assert (2 * (q * p - m * 100000000) = p - r) as E by lia. lia.
Qed.

Lemma confidence_text q : 0 ≤ q ≤ 10 ^ 8 → CONFIDENCE_TEXT (show_fixed 8 q) = true.
Proof.
  intros Hq. destruct (fixed_fraction 8 ltac:(lia) q) as (Hd & Hl & _). unfold show_fixed.
  set (f := pad_start 8 (show_nat (q mod 10 ^ Z.of_nat 8))) in *. clearbody f.
  assert (q / 10 ^ Z.of_nat 8 = 0 ∨ q / 10 ^ Z.of_nat 8 = 1) as [-> | ->].
  { change (10 ^ Z.of_nat 8) with 100000000. change (10 ^ 8) with 100000000 in Hq. Z.to_euclidean_division_equations; lia. }
  - change (show_nat 0 +:+ "." +:+ f) with (String "0" (String "." f)). cbn [CONFIDENCE_TEXT].
    unfold len. by rewrite Hl, Hd.
  - change (show_nat 1 +:+ "." +:+ f) with (String "1" (String "." f)). cbn [CONFIDENCE_TEXT].
    unfold len. by rewrite Hl, Hd.
Qed.

Lemma normalizeConfidence_Ok m e : 0 ≤ m ≤ 2 ^ Z.of_N e →
  normalizeConfidence (VNum m e) = Ok (show_fixed 8 (num_toFixed (Dyadic m (Z.of_N e)) 8)).
Proof.
  intros Hm. unfold normalizeConfidence. rewrite (proj2 (Z.ltb_ge m 0)), (proj2 (Z.ltb_ge (2 ^ Z.of_N e) m)) by lia.
  cbn [orb throw_if mbind result_bind]. destruct (num_toFixed_unit m e Hm) as [Hq _].
  change (Z.of_nat CONFIDENCE_DECIMALS) with 8. change CONFIDENCE_DECIMALS with 8%nat.
  by rewrite confidence_text.
Qed.
(** *** Metric rows *)

(** What one metric of the table is stored as. *)
Definition metric_row (resultId : string) (p : metric_score) (r : CallAuditMetricScoreRecord) : Prop :=
  metric_resultId r = resultId ∧ metricCode r = p.1 ∧ isNotApplicable r = is_NA p.2 ∧ units (metric_id r) = MAX_ID_LENGTH ∧
  scoreValue r = (match p.2 with NA => None | Score n => Some n end).

Lemma score_by_code_table output table p :
  metricScores output = map (fun p => (p.1, Some p.2)) table → NoDup (map fst table) → p ∈ table →
  score_by_code output p.1 = Some p.2.
Proof.
  intros E Hn Hp. unfold score_by_code. rewrite E.
  assert (NoDup (map fst (map (fun p : metric_score => (p.1, Some p.2)) table))) as Hn' by (rewrite map_map; exact Hn).
  rewrite (filter_unique fst _ (p.1, Some p.2) Hn'); [done|].
  apply list_elem_of_fmap. by exists p.
Qed.

Lemma metricRecords_Ok resultId i output table :
  metricScores output = map (fun p => (p.1, Some p.2)) table → map fst table = CALL_AUDIT_METRIC_CODES →
  ∃ rows, metricRecords resultId i output = Ok rows ∧ Forall2 (metric_row resultId) table rows.
Proof.
  intros E Hk. unfold metricRecords.
  assert (NoDup (map fst table)) as Hn by (rewrite Hk; apply (bool_decide_unpack _); vm_compute; exact I).
  assert (∀ sub, (∀ p, p ∈ sub → p ∈ table) → ∀ defs, map metric_code defs = map fst sub →
    ∃ rows, mapM_result (metricRecord resultId i output) defs = Ok rows ∧ Forall2 (metric_row resultId) sub rows) as H.
  { induction sub as [|p sub IH]; intros Hs [|d defs] Hd; try done.
    - exists []. split; [done|constructor].
    - cbn in Hd. injection Hd as Hd Hds. destruct (IH ltac:(intros q Hq; apply Hs; by right) defs Hds) as (rows & Hr & HF).
      destruct (metricScoreIdFor_Ok i p.1) as (id & Hid & Hu).
      assert (metricRecord resultId i output d = Ok (MetricRecord id resultId p.1
        (match p.2 with NA => None | Score n => Some n end) (is_NA p.2))) as Hm.
      { unfold metricRecord. rewrite Hd, (score_by_code_table output table p E Hn) by (apply Hs; left). by rewrite Hid. }
      cbn [mapM_result]. rewrite Hm, Hr. cbn [mbind result_bind].
      eexists. split; [reflexivity|]. constructor; [|done]. by repeat split. }
  apply (H table); [done|]. by rewrite Hk.
Qed.

Lemma canonicalMetricSet_finite rows : finite (canonicalMetricSet rows) = true.
Proof.
  unfold canonicalMetricSet. cbn [finite]. induction rows as [|r rows IH]; [done|]. cbn [map forallb].
  rewrite IH. cbn. destruct (isNotApplicable r); [done|]. by rewrite finite_jint_opt.
Qed.

Lemma texts_finite l : finite (JArr (map JStr l)) = true.
Proof. cbn [finite]. by induction l. Qed.

Lemma content_document_finite i output confidence method rows c :
  finite (content_document i output confidence method rows c) = true.
Proof.
  unfold content_document, document_head, comparison_entries. cbn [finite]. rewrite !forallb_app.
  cbn [forallb fst snd app identity_entries]. rewrite canonicalMetricSet_finite, texts_finite, !finite_jstr_opt. reflexivity.
Qed.

Lemma operational_document_finite i c : finite (operational_document i c) = true.
Proof.
  unfold operational_document, document_head, comparison_entries. cbn [finite]. rewrite !forallb_app.
  cbn [forallb fst snd app identity_entries]. rewrite !finite_jstr_opt. reflexivity.
Qed.

(** *** The bundles *)

Definition identified (i : CallAuditResultIdentity) (r : CallAuditResultRecord) : Prop :=
  res_identity r = i ∧ resultIdFor i = Ok (res_id r) ∧ idempotencyKeyFor i = Ok (idempotencyKey r) ∧
  units (res_id r) = MAX_ID_LENGTH.

Lemma bare_identified i id key status eligibility c json sha code at_ :
  resultIdFor i = Ok id → idempotencyKeyFor i = Ok key →
  identified i (bare_result id i status eligibility c json sha code key at_).
Proof.
  intros H1 H2. split; [done|]. split; [done|]. split; [done|].
  destruct (resultIdFor_Ok i) as (id' & H & _ & Hu). rewrite H1 in H. by injection H as ->.
Qed.

(** What the row says of the output: each column is the answer's own field, the outcome with
    its group, the flags as a sorted list of their names, nothing of an error. *)
Record says (output : ValidatedContentAuditOutput) (r : CallAuditResultRecord) : Prop := Says {
  says_connected : res_callConnected r = Some (callConnected output);
  says_spoke : res_customerSpoke r = Some (out_customerSpoke output);
  says_meaningful : res_meaningfulConversation r = Some (meaningfulConversation output);
  says_intent : res_intent r = Some (name_of CALL_INTENTS (intent output));
  says_qualification : qualificationLabel r = Some (name_of QUALIFICATIONS (qualification output));
  says_next_action : nextActionCode r = Some (name_of NEXT_ACTION_CODES (nextAction output));
  says_outcome : ∃ d, d ∈ DETAILED_OUTCOME_DEFINITIONS ∧ detailedOutcome output = label d ∧
    res_detailedOutcome r = Some (label d) ∧ res_groupedOutcome r = Some (group_text (group d));
  says_overall : res_overallScore r = overallScore output;
  says_management : managementFeedback r = Some (managementSummary output);
  says_kserve : res_kserveFeedback r = Some (kserveFeedback output);
  says_improvement : res_improvementFeedback r = Some (improvementFeedback output);
  says_flags : ∃ names flags, names ≡ₚ map (name_of ISSUE_FLAGS) (issueFlags output) ∧
    StronglySorted (fun a b => String.leb a b = true) names ∧
    canonicalJson (JArr (map JStr names)) = Ok flags ∧ issueFlagsJson r = Some flags;
  says_no_error : errorCode r = None ∧ ineligibilityReason r = None;
}.

Definition comparison_of (r : CallAuditResultRecord) : KserveComparison :=
  Comparison (kserveReportedOutcome r) (kserveComparisonLabel r) (mismatchSeverity r).

(** What a comparison says of the audited outcome and the one KServe reported: an unknown
    label is not compared, equal labels match, and a mismatch is high when one of the two means
    no contact, else low within one group of outcomes. *)
Record compared (audited : string) (reported : option string) (c : KserveComparison) : Prop := Compared {
  compared_reported x : cmp_reported c = Some x ↔ reported = Some x ∧ isDetailedOutcome x = true;
  compared_none : cmp_label c = not_comparable ↔ cmp_reported c = None;
  compared_match : cmp_label c = match_ ↔ cmp_reported c = Some audited;
  compared_severity : cmp_severity c = severity_none ↔ cmp_label c ≠ mismatch;
  compared_high : cmp_severity c = severity_high ↔
    ∃ x, cmp_reported c = Some x ∧ x ≠ audited ∧ (isNoContactOutcome audited = true ∨ isNoContactOutcome x = true);
  compared_low : cmp_severity c = severity_low ↔
    ∃ x, cmp_reported c = Some x ∧ x ≠ audited ∧ isNoContactOutcome audited = false ∧ isNoContactOutcome x = false ∧
      DETAILED_OUTCOME_GROUP audited = DETAILED_OUTCOME_GROUP x;
}.

Lemma compare_spec audited reported : compared audited reported (compareKserveOutcome (Some audited) reported).
Proof.
  unfold compareKserveOutcome. destruct reported as [x|]; [|by split; cbn; naive_solver].
  destruct (isDetailedOutcome x) eqn:Ex; cbn [negb].
  2: { split; cbn [cmp_reported cmp_label cmp_severity]; try naive_solver. intros y. split; [done|]. intros [[= ->] Hy]. congruence. }
  destruct (String.eqb_spec audited x) as [->|Hne].
  { split; cbn [cmp_reported cmp_label cmp_severity]; naive_solver. }
  destruct (isNoContactOutcome audited) eqn:E1, (isNoContactOutcome x) eqn:E2; cbn [orb]; try case_bool_decide;
    split; cbn [cmp_reported cmp_label cmp_severity];
    first [naive_solver done|split; [done|]; intros (y & [= <-] & _ & Hy); destruct_and?; destruct_or?; congruence].
Qed.

Lemma typed_output_recorded identity i output reported at_ t :
  output_typed output →
  Forall (fun text => units text ≤ ModelOutput.MAX_FEEDBACK_LENGTH)
    [managementSummary output; kserveFeedback output; improvementFeedback output] →
  requireIdentity identity = Ok i → requireTimestamp at_ "auditedAt" = Ok t →
  ∃ r rows table, buildContentAuditResult identity output reported at_ = Ok (Bundle r rows) ∧
    identified i r ∧ processingStatus r = succeeded ∧ res_eligibility r = content_auditable ∧ auditedAt r = Some t ∧
    says output r ∧ compared (detailedOutcome output) reported (comparison_of r) ∧
    (∃ q, intentConfidence r = Some (show_fixed 8 q) ∧ 0 ≤ q ≤ 10 ^ 8 ∧
       2 * Z.abs (q * 2 ^ Z.of_N (out_confidence output).2 - (out_confidence output).1 * 10 ^ 8) ≤
         2 ^ Z.of_N (out_confidence output).2) ∧
    (is_Some (res_overallScore r) ↔ is_Some (overallScoreMethod r)) ∧ overall_spec table (res_overallScore r) ∧
    map fst table = CALL_AUDIT_METRIC_CODES ∧ metricScores output = map (fun p => (p.1, Some p.2)) table ∧
    Forall2 (metric_row (res_id r)) table rows ∧
    ∃ document, resultJson r = Some document ∧ resultSha256 r = Some (sha256Hex document) ∧
      ∃ confidence, intentConfidence r = Some confidence ∧
        canonicalJson (content_document i output confidence (overallScoreMethod r) rows (comparison_of r)) = Ok document.
Proof.
  intros (Hl & Hc & _ & table & Hk & Ht & _ & Ho & _) Hf Hi Hat. apply Forall_cons in Hf as [F1 Hf].
  apply Forall_cons in Hf as [F2 Hf]. apply Forall_cons in Hf as [F3 _].
  unfold buildContentAuditResult. rewrite Hi, Hat. cbn [mbind result_bind].
  destruct (resultIdFor_Ok i) as (id & Hid & _ & Hu). rewrite Hid. cbn [mbind result_bind].
  destruct (metricRecords_Ok id i output table Ht Hk) as (rows & -> & Hrows). cbn [mbind result_bind].
  rewrite normalizeConfidence_Ok by done. cbn [mbind result_bind]. unfold requireSanitizedFeedback.
  rewrite !(proj2 (Z.ltb_ge _ _)) by done. cbn [throw_if mbind result_bind].
  rewrite (digested_text _ (texts_finite _)), (digested_text _ (content_document_finite _ _ _ _ _ _)),
    (digested_sha _ (content_document_finite _ _ _ _ _ _)), idempotencyKeyFor_Ok. cbn [mbind result_bind].
  pose proof (compare_spec (detailedOutcome output) reported) as Hcmp.
  destruct (compareKserveOutcome (Some (detailedOutcome output)) reported) as [crep clabel csev].
  eexists _, rows, table. split; [reflexivity|]. destruct Hl as (d & Hd & El & Eg).
  destruct (num_toFixed_unit _ _ Hc) as [Hq1 Hq2].
  split; [by repeat split; rewrite ?idempotencyKeyFor_Ok|]. do 3 (split; [done|]). split.
  { split; try done.
    - exists d. cbn. by rewrite El, Eg.
    - exists (sorted_flags output). eexists. split; [apply sort_by_perm|]. split.
      { apply sort_by_sorted; [apply String.leb_total|]. intros a b c. rewrite <- !Is_true_true. apply (transitivity (R := String.le)). }
      split; [|reflexivity]. unfold canonicalJson. by rewrite canonical_print by apply texts_finite. }
  split; [exact Hcmp|]. split; [eexists; split; [reflexivity|]; split; done|].
  split; [cbn; destruct (overallScore output); split; intros [? ?]; eauto; done|]. split; [exact Ho|].
  split; [done|]. split; [done|]. split; [exact Hrows|]. eexists. split; [reflexivity|]. split; [reflexivity|].
  eexists. split; [reflexivity|]. unfold canonicalJson. rewrite canonical_print; [done|apply content_document_finite].
Qed.

(** C35: Whatever the validator accepted is recorded: for a valid identity and instant, the
    builder answers, and its row and its eight metric rows, in the order of the rubric,
    say exactly what the output says: the three facts, the intent, the qualification and the
    next action by name, the outcome of the output with its group, each of the three
    feedback texts in its own column, the flags, a confidence rounded to the nearest of eight
    decimals, the score, and a scoring method exactly when there is one, NULL exactly for what
    is not applicable, the comparison with the outcome KServe reported, identifiers that fill
    their columns, and the canonical text of the result document with its own hash. *)
Theorem validated_output_recorded v identity i output reported at_ t :
  validateContentAuditOutput v content_auditable = Ok output →
  requireIdentity identity = Ok i → requireTimestamp at_ "auditedAt" = Ok t →
  ∃ r rows table, buildContentAuditResult identity output reported at_ = Ok (Bundle r rows) ∧
    identified i r ∧ processingStatus r = succeeded ∧ res_eligibility r = content_auditable ∧ auditedAt r = Some t ∧
    says output r ∧ compared (detailedOutcome output) reported (comparison_of r) ∧
    (∃ q, intentConfidence r = Some (show_fixed 8 q) ∧ 0 ≤ q ≤ 10 ^ 8 ∧
       2 * Z.abs (q * 2 ^ Z.of_N (out_confidence output).2 - (out_confidence output).1 * 10 ^ 8) ≤
         2 ^ Z.of_N (out_confidence output).2) ∧
    (is_Some (res_overallScore r) ↔ is_Some (overallScoreMethod r)) ∧ overall_spec table (res_overallScore r) ∧
    map fst table = CALL_AUDIT_METRIC_CODES ∧ metricScores output = map (fun p => (p.1, Some p.2)) table ∧
    Forall2 (metric_row (res_id r)) table rows ∧
    ∃ document, resultJson r = Some document ∧ resultSha256 r = Some (sha256Hex document) ∧
      ∃ confidence, intentConfidence r = Some confidence ∧
        canonicalJson (content_document i output confidence (overallScoreMethod r) rows (comparison_of r)) = Ok document.
Proof.
  intros Hv Hi Hat. pose proof (validate_answers v content_auditable) as H. rewrite Hv in H.
  destruct H as (_ & (record & _ & _ & [_ [F1 _]] & [_ [F2 _]] & [_ [F3 _]]) & Ht).
  by apply typed_output_recorded; [|repeat constructor| |].
Qed.
End RecordFacts.

(** ** A served call *)
Module DemoRecords.
#[export] Instance platform : Platform := demo_platform.
#[export] Instance laws : PlatformLaws platform := demo_platform_laws.

Definition identity : CallAuditResultIdentity := Identity "run-1" "cas_1" " rules-3 ".
Definition instant : value := VStr "2026-08-02T00:15:00.25".

Definition bundle : option CallAuditResultBundle :=
  match validateContentAuditOutput (VObj DemoOutput.served) content_auditable with
  | Ok output => match buildContentAuditResult identity output (Some "Callback Required") instant with
                 | Ok b => Some b | Throw _ => None end
  | Throw _ => None
  end.

Example recorded_call :
  (fun b => let r := bundle_result b in
     (ruleVersionId (res_identity r), auditedAt r, intentConfidence r, issueFlagsJson r, label_text (kserveComparisonLabel r))) <$> bundle =
  Some ("rules-3", Some "2026-08-02 00:15:00.25", Some "0.87500000",
        Some ("[" +:+ json_string "DNC_RISK" +:+ "," +:+ json_string "WEAK_NEXT_STEP" +:+ "]"),
        "match").
Proof. vm_compute. reflexivity. Qed.

Example comparisons :
  map (fun p => severity_text (cmp_severity (compareKserveOutcome (Some p.1) (Some p.2))))
    [("Callback Required", "Callback Required"); ("Callback Required", "Outreach Stopped"); ("Callback Required", "callback required")] =
  ["none"; "high"; "none"].
Proof. vm_compute. reflexivity. Qed.
End DemoRecords.

#[local] Existing Instance DemoRecords.platform.
#[local] Existing Instance DemoRecords.laws.

Lemma validated_output_recorded_witness :
  ∃ r rows, DemoRecords.bundle = Some (Bundle r rows) ∧ units (res_id r) = MAX_ID_LENGTH ∧ length rows = 8%nat ∧
    cmp_label (comparison_of r) = match_.
Proof.
  unfold DemoRecords.bundle.
  assert (is_ok (validateContentAuditOutput (VObj DemoOutput.served) content_auditable) = true) as Hok by (vm_compute; reflexivity).
  destruct (validateContentAuditOutput (VObj DemoOutput.served) content_auditable) as [output|e] eqn:E; [|discriminate Hok].
  destruct (validated_output_recorded (VObj DemoOutput.served) DemoRecords.identity (Identity "run-1" "cas_1" "rules-3") output
    (Some "Callback Required") DemoRecords.instant "2026-08-02 00:15:00.25" E) as (r & rows & table & -> & (_ & _ & _ & Hu) & H);
    [vm_compute; reflexivity|vm_compute; reflexivity|].
  exists r, rows. split; [reflexivity|]. split; [exact Hu|].
  destruct H as (_ & _ & _ & _ & Hc & _ & _ & _ & Hk & _ & HF & _). split.
  - apply Forall2_length in HF. rewrite <- HF. transitivity (length (map fst table)); [symmetry; apply length_map|by rewrite Hk].
  - apply Hc. vm_compute in E. injection E as <-. apply Hc. split; vm_compute; reflexivity.
Defined.
