(* ===== verification/Prog.v ===== *)
(** * Asynchronous programs and their interleavings

    An [async] function is a tree: it returns, or awaits the answer of one operation
    and goes on with it. Operations are described by a signature [op], whose index is the type
    of the answer; a machine says what performing an operation does to the world. Any
    number of programs run against one world, one operation at a time and in any order;
    [ensures] is the rely-guarantee logic their properties are proved in, and [adequacy] what
    it says of every reachable state. *)

From stdpp Require Import relations.
From S2P Require Import Prelude.

Local Open Scope list_scope.

Section Programs.
Context {op : Type → Type}.

Inductive prog (A : Type) : Type :=
| Ret (a : A)
| Do {X : Type} (o : op X) (k : X → prog A).
#[global] Arguments Ret {A} a.
#[global] Arguments Do {A X} o k.

Fixpoint prog_seq {A B} (p : prog A) (f : A → prog B) : prog B :=
  match p with
  | Ret a => f a
  | Do o k => Do o (fun x => prog_seq (k x) f)
  end.

(** A program that may throw. *)
Definition action (E A : Type) : Type := prog (Prelude.result E A).

#[global] Instance action_ret E : MRet (action E) := fun A a => Ret (Ok a).
#[global] Instance action_bind E : MBind (action E) :=
  fun A B k m => prog_seq m (fun r => match r with Ok a => k a | Throw e => Ret (Throw e) end).

(** A computation that awaits nothing. *)
Definition sync {E A} (r : Prelude.result E A) : action E A := Ret r.

(** [await o] of an operation that answers or rejects. *)
Definition await {E A} (o : op (Prelude.result E A)) : action E A := Do o Ret.

(** [try { m } catch (e) { h e }]. *)
Definition catch {E E' A} (m : action E A) (h : E → action E' A) : action E' A :=
  prog_seq m (fun r => match r with Ok a => Ret (Ok a) | Throw e => h e end).

(** Errors in another vocabulary. *)
Definition rethrow {E E' A} (f : E → E') (m : action E A) : action E' A :=
  catch m (fun e => Ret (Throw (f e))).

(** ** Running programs *)

Section Machine.
Context {W C : Type} (perform : ∀ X, nat → op X → C → W → X * W).
#[local] Arguments perform {X} _ _ _ _.

(** One program alone, as thread [i], against the given answers; also how many were used. *)
Fixpoint run {A} (i : nat) (p : prog A) (answers : nat → C) (n : nat) (w : W) : A * (nat * W) :=
  match p with
  | Ret a => (a, (n, w))
  | Do o k => let '(x, w') := perform i o (answers n) w in run i (k x) answers (S n) w'
  end.

Context {J A : Type} (program : J → prog A).

(** A thread: the job it was started for, and what is left of it. *)
Record thread : Type := Thread { job : J; rest : prog A }.

Definition config : Type := list thread * W.

(** A thread performs an operation, or a job is started, at any time. *)
Inductive step : config → config → Prop :=
| step_perform ts w i t X (o : op X) k c x w' :
    ts !! i = Some (Thread t (Do o k)) → perform i o c w = (x, w') →
    step (ts, w) (<[i := Thread t (k x)]> ts, w')
| step_start ts w t : step (ts, w) (ts ++ [Thread t (program t)], w).

Definition reachable (w0 : W) : config → Prop := rtc step ([], w0).

Lemma run_seq {B D} i (p : prog B) (f : B → prog D) answers n w :
  run i (prog_seq p f) answers n w =
  let '(b, (n', w')) := run i p answers n w in run i (f b) answers n' w'.
Proof.
  revert n w. induction p as [b|X o k IH]; intros n w; [done|]. cbn. destruct (perform i o (answers n) w). apply IH.
Qed.

(** A thread may run to its end while the others wait. *)
Lemma run_steps {ts i t p w} answers n :
  ts !! i = Some (Thread t p) →
  rtc step (ts, w) (<[i := Thread t (Ret (run i p answers n w).1)]> ts, (run i p answers n w).2.2).
Proof.
  revert ts n w. induction p as [a|X o k IH]; intros ts n w Hi; cbn.
  - rewrite list_insert_id by done. apply rtc_refl.
  - destruct (perform i o (answers n) w) as [x w'] eqn:E. eapply rtc_l; [by eapply step_perform|].
    rewrite <- (list_insert_insert_eq ts i (Thread t (Ret (run i (k x) answers (S n) w').1)) (Thread t (k x))).
    apply IH. apply list_lookup_insert_eq. by eapply lookup_lt_Some.
Qed.

(** A job that is started and run. *)
Lemma start_and_run ts t w answers n :
  rtc step (ts, w) (ts ++ [Thread t (Ret (run (length ts) (program t) answers n w).1)],
                    (run (length ts) (program t) answers n w).2.2).
Proof.
  eapply rtc_l; [apply (step_start ts w t)|].
  replace (ts ++ [Thread t (Ret (run (length ts) (program t) answers n w).1)]) with
    (<[length ts := Thread t (Ret (run (length ts) (program t) answers n w).1)]> (ts ++ [Thread t (program t)]))
    by (replace (length ts) with (length ts + 0)%nat at 1 by lia; by rewrite insert_app_r).
  apply run_steps. by apply list_lookup_middle.
Qed.

(** ** The logic *)

Section Logic.
Context (Inv : W → Prop) (guar : nat → W → W → Prop).

Definition others (i : nat) (w w' : W) : Prop := ∃ j, j ≠ i ∧ guar j w w'.

(** What the other threads may have done meanwhile. *)
Definition rely (i : nat) : W → W → Prop := rtc (others i).

(** Every operation of the program keeps the invariant and the guarantee of its thread, and
    the program ends in [Q], whatever the others do between its operations. *)
Fixpoint ensures {B} (i : nat) (p : prog B) (Q : B → W → Prop) (w : W) : Prop :=
  match p with
  | Ret b => Q b w
  | Do o k => ∀ c,
      let '(x, w') := perform i o c w in
      Inv w' ∧ guar i w w' ∧ ∀ w'', rely i w' w'' → Inv w'' → ensures i (k x) Q w''
  end.

Lemma ensures_mono {B} i (p : prog B) (Q Q' : B → W → Prop) w :
  ensures i p Q w → (∀ b w, Q b w → Q' b w) → ensures i p Q' w.
Proof.
  intros H HQ. revert w H. induction p as [b|X o k IH]; cbn; intros w H; [by apply HQ|].
  intros c. specialize (H c). destruct (perform i o c w) as [x w']. naive_solver.
Qed.

Lemma ensures_seq {B D} i (p : prog B) (f : B → prog D) Q w :
  ensures i p (fun b => ensures i (f b) Q) w → ensures i (prog_seq p f) Q w.
Proof.
  revert w. induction p as [b|X o k IH]; cbn; intros w H; [done|].
  intros c. specialize (H c). destruct (perform i o c w) as [x w']. naive_solver.
Qed.

Lemma ensures_bind {E B D} i (m : action E B) (f : B → action E D) Q w :
  ensures i m (fun r w => match r with
                          | Ok b => ensures i (f b) Q w
                          | Throw e => Q (Throw e) w
                          end) w →
  ensures i (m ≫= f) Q w.
Proof.
  intros H. apply ensures_seq. eapply ensures_mono; [exact H|]. by intros [b|e] w' HQ.
Qed.

Lemma ensures_catch {E E' B} i (m : action E B) (h : E → action E' B) Q w :
  ensures i m (fun r w => match r with
                          | Ok b => Q (Ok b) w
                          | Throw e => ensures i (h e) Q w
                          end) w →
  ensures i (catch m h) Q w.
Proof.
  intros H. apply ensures_seq. eapply ensures_mono; [exact H|]. by intros [b|e] w' HQ.
Qed.

Lemma ensures_await {E B} i (o : op (Prelude.result E B)) (Q : Prelude.result E B → W → Prop) w :
  (∀ c, let '(r, w') := perform i o c w in
        Inv w' ∧ guar i w w' ∧ ∀ w'', rely i w' w'' → Inv w'' → Q r w'') →
  ensures i (await o) Q w.
Proof. done. Qed.

(** A program ends in the invariant. *)
Lemma ensures_inv {B} i (p : prog B) (Q : B → W → Prop) w :
  Inv w → ensures i p Q w → ensures i p (fun b w => Q b w ∧ Inv w) w.
Proof.
  revert w. induction p as [b|X o k IH]; cbn; intros w Hw H; [done|]. intros c. specialize (H c).
  destruct (perform i o c w) as [x w1]. destruct H as (H1 & H2 & H3). split_and!; [done..|]. intros w2 Hr Hw2. by apply IH, H3.
Qed.

(** What a program ends in is later than where it began. *)
Lemma ensures_since (later : relation W) {B} i (p : prog B) Q w :
  PreOrder later → (∀ j w w', guar j w w' → later w w') →
  ensures i p Q w → ensures i p (fun b w' => Q b w' ∧ later w w') w.
Proof.
  intros Hpre Hg. revert w. induction p as [b|X o k IH]; cbn; intros w H; [done|].
  intros c. specialize (H c). destruct (perform i o c w) as [x w1]. destruct H as (H1 & H2 & H3). split_and!; [done..|].
  intros w2 Hr Hw2. eapply ensures_mono; [by apply IH, H3|]. intros b w3 [HQ Hl]. split; [done|].
  transitivity w1; [by eapply Hg|]. transitivity w2; [|done]. clear -Hr Hg Hpre.
  induction Hr as [|a b c (j & _ & Hj) _ IH]; [done|]. transitivity b; [by eapply Hg|done].
Qed.

(** A program all of whose operations keep the invariant and the guarantee. *)
Fixpoint uses {B} (ok : ∀ X, op X → Prop) (p : prog B) : Prop :=
  match p with
  | Ret _ => True
  | Do o k => ok _ o ∧ ∀ x, uses ok (k x)
  end.

Lemma uses_seq {B D} ok (p : prog B) (f : B → prog D) : uses ok p → (∀ b, uses ok (f b)) → uses ok (prog_seq p f).
Proof. induction p as [b|X o k IH]; cbn; [naive_solver|]. intros [H1 H2] Hf. split; [done|]. auto. Qed.

Lemma uses_bind {E B D} ok (m : action E B) (f : B → action E D) : uses ok m → (∀ b, uses ok (f b)) → uses ok (m ≫= f).
Proof. intros Hm Hf. apply uses_seq; [done|]. by intros [b|e]. Qed.

Lemma uses_catch {E E' B} ok (m : action E B) (h : E → action E' B) : uses ok m → (∀ e, uses ok (h e)) → uses ok (catch m h).
Proof. intros Hm Hf. apply uses_seq; [done|]. by intros [b|e]. Qed.

Lemma ensures_uses (ok : ∀ X, op X → Prop) {B} i (p : prog B) (Q : B → W → Prop) w :
  (∀ X (o : op X) c w, ok X o → Inv w → Inv (perform i o c w).2 ∧ guar i w (perform i o c w).2) →
  uses ok p → (∀ b w, Q b w) → Inv w → ensures i p Q w.
Proof.
  intros Hok Hp HQ. revert w. induction p as [b|X o k IH]; cbn; intros w Hw; [apply HQ|]. destruct Hp as [Ho Hk].
  intros c. specialize (Hok X o c w Ho Hw). destruct (perform i o c w) as [x w1]. destruct Hok. by split_and!; auto.
Qed.

(** ** Adequacy *)

Context (fresh : nat → W → Prop) (post : J → nat → A → W → Prop).
Hypothesis fresh_stable : ∀ i j w w', j ≠ i → guar j w w' → fresh i w → fresh i w'.
Hypothesis program_ok : ∀ t i w, Inv w → fresh i w → ensures i (program t) (post t i) w.

Definition thread_ok (i : nat) (th : thread) (w : W) : Prop :=
  ∀ w', rely i w w' → Inv w' → ensures i (rest th) (post (job th) i) w'.

Definition evolves : W → W → Prop := rtc (fun w w' => ∃ i, guar i w w').

Definition pool_ok (w0 : W) (c : config) : Prop :=
  Inv c.2 ∧ evolves w0 c.2 ∧ (∀ i th, c.1 !! i = Some th → thread_ok i th c.2) ∧
  ∀ i, (length c.1 ≤ i)%nat → fresh i c.2.

Lemma thread_ok_others i j th w w' : j ≠ i → guar j w w' → thread_ok i th w → thread_ok i th w'.
Proof.
  intros Hij Hg H w'' Hr. apply H. eapply rtc_l; [|exact Hr]. by exists j.
Qed.

Lemma fresh_rely i w w' : rely i w w' → fresh i w → fresh i w'.
Proof. induction 1 as [|? ? ? (j & ? & ?)]; eauto using fresh_stable. Qed.

Lemma step_pool_ok w0 c c' : step c c' → pool_ok w0 c → pool_ok w0 c'.
Proof.
  intros Hstep (HI & He & Ht & Hf). destruct Hstep as [ts w i t X o k a x w' Hi Hp | ts w t]; cbn in *.
  - assert (H := Ht _ _ Hi w (rtc_refl _ _) HI a). rewrite Hp in H.
    destruct H as (HI' & Hg & Hk). split_and!; cbn.
    + done.
    + eapply rtc_r; [exact He|]. by exists i.
    + intros j th [(<- & <- & _)|[Hij Hj]]%list_lookup_insert_Some; cbn.
      * intros w'' Hr HI''. cbn. by apply Hk.
      * eapply thread_ok_others; [|exact Hg|by apply Ht]. by intros ->.
    + intros j Hj. rewrite length_insert in Hj. eapply fresh_stable; [|exact Hg|by apply Hf].
      apply lookup_lt_Some in Hi. lia.
  - split_and!; cbn; [done|done| |].
    + intros j th [Hj|[Hj Hth]]%lookup_app_Some; [by apply Ht|].
      apply list_lookup_singleton_Some in Hth. destruct Hth as [Hj' <-].
      intros w' Hr HI'. cbn. apply program_ok; [done|]. eapply fresh_rely; [exact Hr|]. apply Hf. lia.
    + intros j Hj. rewrite length_app in Hj. cbn in Hj. apply Hf. lia.
Qed.

Lemma steps_pool_ok w0 c c' : rtc step c c' → pool_ok w0 c → pool_ok w0 c'.
Proof. induction 1 as [c|c1 c2 c3 H1 _ IH]; [done|]. intros H0. apply IH. by eapply step_pool_ok. Qed.

Theorem adequacy w0 c : Inv w0 → (∀ i, fresh i w0) → reachable w0 c → pool_ok w0 c.
Proof.
  intros HI Hf Hr. assert (H0 : pool_ok w0 ([], w0)).
  { split_and!; cbn; [done|apply rtc_refl|by intros i th [=]|by auto]. }
  by eapply steps_pool_ok.
Qed.

(** A thread that has returned is in its postcondition. *)
Lemma returned_post w0 c i t a :
  pool_ok w0 c → c.1 !! i = Some (Thread t (Ret a)) → post t i a c.2.
Proof. intros (HI & _ & Ht & _) Hi. exact (Ht _ _ Hi _ (rtc_refl _ _) HI). Qed.
End Logic.

(** ** Moments *)

(** What a returned thread did happened at a state its configuration went through: [Q] holds of
    the answer right after one of the operations of the program, each performed in a state of
    the invariant, or held of it beforehand. *)
Section Moments.
Context (Inv : W → Prop).

Fixpoint visits {B} (i : nat) (p : prog B) (Q : B → W → Prop) (past : B → Prop) : Prop :=
  match p with
  | Ret b => past b
  | Do o k => ∀ c w, Inv w →
      let '(x, w') := perform i o c w in visits i (k x) Q (fun b => past b ∨ Q b w')
  end.

Lemma visits_mono {B} i (p : prog B) Q (past past' : B → Prop) :
  visits i p Q past → (∀ b, past b → past' b) → visits i p Q past'.
Proof.
  revert past past'. induction p as [b|X o k IH]; cbn; intros past past' H Hp; [by apply Hp|].
  intros c w Hw. specialize (H c w Hw). destruct (perform i o c w) as [x w'].
  eapply IH; [exact H|]. intros b [Hb|Hb]; [left; by apply Hp|by right].
Qed.

(** Nothing is asked of the answer. *)
Lemma visits_any {B} i (p : prog B) Q (past : B → Prop) : (∀ b, past b) → visits i p Q past.
Proof.
  revert past. induction p as [b|X o k IH]; cbn; intros past H; [done|].
  intros c w _. destruct (perform i o c w). apply IH. intros b. by left.
Qed.

(** The answer in another form. *)
Lemma visits_map {B D} i (p : prog B) (f : B → D) Q past :
  visits i p (fun b => Q (f b)) (fun b => past (f b)) → visits i (prog_seq p (fun b => Ret (f b))) Q past.
Proof.
  revert past. induction p as [b|X o k IH]; cbn; intros past H; [done|].
  intros c w Hw. specialize (H c w Hw). destruct (perform i o c w). by apply IH.
Qed.

(** At some state on the way to this one, the thread was on this job and [P] held. *)
Definition moment (w0 : W) (i : nat) (t : J) (P : W → Prop) (c : config) : Prop :=
  ∃ c1 th, reachable w0 c1 ∧ rtc step c1 c ∧ c1.1 !! i = Some th ∧ job th = t ∧ P c1.2.

Context (Q : J → A → W → Prop) (w0 : W).
Hypothesis reachable_inv : ∀ c, reachable w0 c → Inv c.2.
Hypothesis program_visits : ∀ t i, visits i (program t) (Q t) (fun a => ∀ w, Q t a w).

Lemma moment_later i t P c c' : rtc step c c' → moment w0 i t P c → moment w0 i t P c'.
Proof. intros Hs (c1 & th & H1 & H2 & H3). exists c1, th. split; [done|]. split; [by etransitivity|done]. Qed.

Definition thread_visits (c : config) : Prop :=
  ∀ i th, c.1 !! i = Some th → visits i (rest th) (Q (job th)) (fun a => moment w0 i (job th) (Q (job th) a) c).

Lemma step_thread_visits c c' : reachable w0 c → step c c' → thread_visits c → thread_visits c'.
Proof.
  intros Hr Hstep Ht. assert (reachable w0 c') as Hr' by (unfold reachable; by eapply rtc_r).
  assert (∀ j t P, moment w0 j t P c → moment w0 j t P c') as Hlater
    by (intros j t P; apply moment_later; by apply rtc_once).
  pose proof (reachable_inv c Hr) as Hw.
  destruct Hstep as [ts w i t X o k a x w' Hi Hp | ts w t]; cbn in *.
  - intros j th [(<- & <- & _)|[Hij Hj]]%list_lookup_insert_Some; cbn.
    + pose proof (Ht _ _ Hi a w Hw) as Hv. cbn in Hv. rewrite Hp in Hv. eapply visits_mono; [exact Hv|].
      intros b [Hb|Hb]; [by apply Hlater|]. eexists _, _. split; [exact Hr'|]. split; [apply rtc_refl|]. split.
      { apply list_lookup_insert_eq. by eapply lookup_lt_Some. }
      done.
    + eapply visits_mono; [by apply Ht|]. intros b. by apply Hlater.
  - intros j th [Hj|[Hj Hth]]%lookup_app_Some.
    + eapply visits_mono; [by apply Ht|]. intros b. by apply Hlater.
    + apply list_lookup_singleton_Some in Hth as [Hj' <-]. cbn. eapply visits_mono; [apply program_visits|].
      intros b Hb. exists (ts ++ [Thread t (program t)], w), (Thread t (program t)).
      split; [done|]. split; [apply rtc_refl|]. split; [|by split; [|apply Hb]].
      cbn. assert (j = length ts) as -> by lia. by apply list_lookup_middle.
Qed.

Theorem returned_moment c i t a :
  reachable w0 c → c.1 !! i = Some (Thread t (Ret a)) → moment w0 i t (Q t a) c.
Proof.
  intros Hr Hi. enough (thread_visits c) as Ht by exact (Ht _ _ Hi).
  clear Hi. unfold reachable in Hr. apply rtc_ind_r with (P := thread_visits) in Hr; [done|by intros j th [=]|].
  intros c1 c2 H1 H2. by apply step_thread_visits.
Qed.

(** A thread that has returned stays as it is. *)
Lemma returned_stays c c' i t a :
  rtc step c c' → c.1 !! i = Some (Thread t (Ret a)) → c'.1 !! i = Some (Thread t (Ret a)).
Proof.
  induction 1 as [c|c1 c2 c3 Hstep _ IH]; [done|]. intros Hi. apply IH.
  destruct Hstep as [ts w j t' X o k b x w' Hj Hp | ts w t']; cbn in *.
  - rewrite list_lookup_insert_ne; [done|]. intros ->. congruence.
  - by apply lookup_app_l_Some.
Qed.
End Moments.
End Machine.
End Programs.

Arguments prog op A : clear implicits.
Arguments action op E A : clear implicits.
Arguments thread op J A : clear implicits.
Arguments config op W J A : clear implicits.
