(* ===== verification/CallStore.v ===== *)
(** * The world of the call audit

    The tables of [migrations/0008] and [0011] as rows of columns, the way the adapters of
    the call audit read them back, and the operations an audit run awaits: statements and
    transactions, the spend claim, the paid request to the model, pages of source rows,
    clocks. What a database, a provider or a caller may answer is the environment's. *)

From Stdlib Require Import Ascii.
From S2P Require Import Prelude JsNumber JsText CanonicalJson Sql Scoring SourceRevision ResultRecords Prog.

Local Open Scope string_scope.
Local Open Scope list_scope.
#[global] Open Scope Z_scope.

(** ** Cells and rows *)

(** A value bound to a placeholder or read back from a column. *)
Inductive SqlValue : Type :=
| CNull
| CText (s : string)
| CInt (z : Z).

#[export] Instance SqlValue_eq_dec : EqDecision SqlValue.
Proof. solve_decision. Defined.

Definition cell_text (o : option string) : SqlValue := match o with Some s => CText s | None => CNull end.
Definition cell_int (o : option Z) : SqlValue := match o with Some z => CInt z | None => CNull end.

(** A row by the names of its columns. *)
Definition row : Type := list (string * SqlValue).

(** [row[column]]: [undefined] reads as [NULL] everywhere. *)
Fixpoint column (r : row) (name : string) : SqlValue :=
  match r with
  | [] => CNull
  | (c, v) :: r => if String.eqb c name then v else column r name
  end.

(** ** Reading columns back *)

Definition toTinyint (b : option bool) : SqlValue :=
  match b with None => CNull | Some b => CInt (if b then 1 else 0) end.

Definition textOrNull (v : SqlValue) : option string :=
  match v with CNull => None | CText s => Some s | CInt z => Some (show_Z z) end.

(** Only [INT] and [TINYINT] columns are read this way. *)
Definition numberOrNull (v : SqlValue) : option Z :=
  match v with CNull => None | CText s => Some (dec_value s) | CInt z => Some z end.

Definition fromTinyint (v : SqlValue) : option bool := (fun z => z =? 1) <$> numberOrNull v.

(** [(?:\.(\d{1,6}))?] at the start of a text: the digits, if any. *)
Definition fraction_prefix (s : string) : string :=
  match s with
  | String c s => if is_char "." c then str_take 6 (span_digits s).1 else ""
  | EmptyString => ""
  end.

(** [/^(\d{4}-\d{2}-\d{2})[ T](\d{2}:\d{2}:\d{2})(?:\.(\d{1,6}))?/] *)
Definition datetime_prefix (s : string) : option naive_parts :=
  '(y, s) ← take_digits 4 s; s ← expect (is_char "-") s;
  '(mo, s) ← take_digits 2 s; s ← expect (is_char "-") s;
  '(d, s) ← take_digits 2 s; s ← expect (fun c => is_char " " c || is_char "T" c) s;
  '(h, s) ← take_digits 2 s; s ← expect (is_char ":") s;
  '(mi, s) ← take_digits 2 s; s ← expect (is_char ":") s;
  '(sec, s) ← take_digits 2 s;
  Some (Parts y mo d h mi sec (fraction_prefix s)).

Definition datetime_text (p : naive_parts) : string :=
  date_text p +:+ time_text p +:+ "." +:+ pad_end 6 (fractionText p).

(** [normalizeDatetime] of the persistence adapter, [readDatetime] of the control adapter. *)
Definition readDatetime (v : SqlValue) : option string :=
  (fun text => match datetime_prefix text with
               | Some p => datetime_text p
               | None => text
               end) <$> textOrNull v.

(** ** Storage *)

(** What a [DATETIME(6)] column holds, as text, after a literal was written to it. *)
Class Storage : Type := { datetime6 : string → string }.

(** A well-formed literal is stored to the microsecond; one that names no date is refused by
    the statement, which the environment may do to any. *)
Class StorageLaws `(Storage) : Prop := {
  datetime6_literal s p : NAIVE_DATETIME s = Some p → datetime6 s = datetime_text p;
}.

Section Store.
Context `{Collation, Storage}.

Definition stored_cell (datetimes : list string) (c : string) (v : SqlValue) : SqlValue :=
  match v with
  | CText s => if bool_decide (c ∈ datetimes) then CText (datetime6 s) else CText s
  | v => v
  end.

(** The row an [INSERT] stores. *)
Definition stored (datetimes : list string) (r : row) : row :=
  map (fun p => (p.1, stored_cell datetimes p.1 p.2)) r.

(** Two rows have the same value in a column of a unique key. *)
Definition same_column (r s : row) (c : string) : bool :=
  match column r c, column s c with
  | CText a, CText b => sql_eq a b
  | CInt a, CInt b => a =? b
  | _, _ => false
  end.

(** [column = ?] *)
Definition column_is (c v : string) (r : row) : bool :=
  match column r c with CText s => sql_eq s v | _ => false end.

(** Some unique key of the table is the same in both rows. *)
Definition clashes (keys : list (list string)) (r s : row) : bool :=
  existsb (forallb (same_column r s)) keys.

(** ** The tables *)

Record tables : Type := Tables {
  source_refs : list row;
  results : list row;
  metric_scores : list row;
  usage_events : list row;
  spend_claims : list row;
  runs : list row;
  rule_versions : list row;
}.

Definition with_source_refs (t : list row) (d : tables) : tables :=
  Tables t (results d) (metric_scores d) (usage_events d) (spend_claims d) (runs d) (rule_versions d).
Definition with_results (t : list row) (d : tables) : tables :=
  Tables (source_refs d) t (metric_scores d) (usage_events d) (spend_claims d) (runs d) (rule_versions d).
Definition with_metric_scores (t : list row) (d : tables) : tables :=
  Tables (source_refs d) (results d) t (usage_events d) (spend_claims d) (runs d) (rule_versions d).
Definition with_usage_events (t : list row) (d : tables) : tables :=
  Tables (source_refs d) (results d) (metric_scores d) t (spend_claims d) (runs d) (rule_versions d).
Definition with_spend_claims (t : list row) (d : tables) : tables :=
  Tables (source_refs d) (results d) (metric_scores d) (usage_events d) t (runs d) (rule_versions d).
Definition with_runs (t : list row) (d : tables) : tables :=
  Tables (source_refs d) (results d) (metric_scores d) (usage_events d) (spend_claims d) t (rule_versions d).
Definition with_rule_versions (t : list row) (d : tables) : tables :=
  Tables (source_refs d) (results d) (metric_scores d) (usage_events d) (spend_claims d) (runs d) t.

Definition no_tables : tables := Tables [] [] [] [] [] [] [].

Definition SOURCE_REF_KEYS : list (list string) :=
  [["id"]; ["source_ref_idempotency_key"]; ["source_table"; "source_row_id"; "source_revision_sha256"]].
Definition RESULT_KEYS : list (list string) := [["id"]; ["idempotency_key"]].
Definition METRIC_SCORE_KEYS : list (list string) := [["id"]; ["result_id"; "metric_code"]].
Definition USAGE_EVENT_KEYS : list (list string) := [["id"]; ["result_id"; "attempt_number"]].
Definition SPEND_CLAIM_KEYS : list (list string) := [["source_ref_id"]].
Definition RUN_KEYS : list (list string) := [["id"]; ["idempotency_key"]].
Definition RULE_VERSION_KEYS : list (list string) :=
  [["id"]; ["version_label"]; ["version_label"; "prompt_sha256"; "config_sha256"]].

(** ** The operations *)

(** The request to the provider and its answer. *)
Record ContentAuditChatRequest : Type := ChatRequest {
  chat_model : string;
  chat_temperature : dyadic;
  chat_schema : json;
  chat_system : string;
  chat_user : string;
}.

(** The message of the first choice (its content and refusal), the token counts and the
    request id; [None] for a message or usage that is absent. *)
Record ContentAuditChatResponse : Type := ChatResponse {
  chat_message : option (value * value);
  chat_usage : option (untrusted_id * untrusted_id * untrusted_id);
  chat_request_id : value;
}.

(** The query of a page of the source. *)
Record page_query : Type := PageQuery {
  page_start : string;
  page_end : string;
  page_size : Z;
  page_cursor : option SourceCandidateCursor;
}.

(** A statement that commits by itself, a transaction under the locks it reads with, the
    [INSERT] of a spend claim, the request to the provider with the call it is made for (that
    is bookkeeping of the model, nothing of it is sent), and the ports of a run. *)
Inductive op : Type → Type :=
| Statement {A} (s : tables → Prelude.result sql_error (A * tables)) : op (Prelude.result sql_error A)
| Transaction {E A} (m : Sql tables E A) : op (Prelude.result E A)
| InsertSpendClaim (r : row) : op (Prelude.result sql_error unit)
| CreateChatCompletion (audit : CallAuditResultIdentity) (request : ContentAuditChatRequest)
    : op (option ContentAuditChatResponse)
| MonotonicClock : op Z
| ListCandidates (q : page_query) : op (option (list InternalSourceCandidate))
| ShouldContinue : op (option bool)
| SupplyTimestamp : op (option value).

(** What the environment answers to one operation. *)
Record answer : Type := Answer {
  database : environment;
  completion : option ContentAuditChatResponse;
  clock : Z;
  page : option (list InternalSourceCandidate);
  continue : option bool;
  timestamp : option value;
}.

(** A request the provider was sent, by the thread and the call it was sent for. *)
Record payment : Type := Payment {
  payer : nat;
  paid_for : CallAuditResultIdentity;
  paid_request : ContentAuditChatRequest;
}.

(** The tables; the claims whose [INSERT] answered a thread that it holds them; the requests
    to the provider, in their order. *)
Record world : Type := World {
  db : tables;
  granted : list (string * nat);
  paid : list payment;
}.

Definition set_db (d : tables) (w : world) : world := World d (granted w) (paid w).

(** The statement ran or was refused; a refusal may hide that it took effect. *)
Definition autocommit {A} (env : environment) (s : tables → Prelude.result sql_error (A * tables)) (d : tables)
    : Prelude.result sql_error A * tables :=
  match s d with
  | Ok (a, d') => if refused env 0 then (Throw Refused, if landed env 0 then d' else d) else (Ok a, d')
  | Throw e => (Throw (if refused env 0 then Refused else e), d)
  end.

Definition insert_claim (r : row) (d : tables) : Prelude.result sql_error (unit * tables) :=
  t ← insert_unique (clashes SPEND_CLAIM_KEYS) r (spend_claims d);
  Ok (tt, with_spend_claims t d).

Definition claim_ref (r : row) : string := default "" (textOrNull (column r "source_ref_id")).

Definition perform {X : Type} (i : nat) (o : op X) (c : answer) (w : world) : X * world :=
  match o in op X return X * world with
  | Statement s => let '(r, d) := autocommit (database c) s (db w) in (r, set_db d w)
  | Transaction m => let '(r, (_, d)) := m (database c) 0%nat (db w) in (r, set_db d w)
  | InsertSpendClaim row =>
      let '(r, d) := autocommit (database c) (insert_claim row) (db w) in
      (r, World d (match r with Ok _ => granted w ++ [(claim_ref row, i)] | Throw _ => granted w end) (paid w))
  | CreateChatCompletion audit request =>
      (completion c, World (db w) (granted w) (paid w ++ [Payment i audit request]))
  | MonotonicClock => (clock c, w)
  | ListCandidates _ => (page c, w)
  | ShouldContinue => (continue c, w)
  | SupplyTimestamp => (timestamp c, w)
  end.
End Store.

Notation act := (action op).

(** ** Facts *)

Lemma span_digits_all w : all_digits w = true → span_digits w = (w, "").
Proof. intros H. rewrite <- (append_nil_r w) at 1. by apply span_digits_spec. Qed.

Lemma str_take_all n s : (String.length s ≤ n)%nat → str_take n s = s.
Proof.
  revert s. induction n as [|n IH]; intros [|c s] H; cbn in *; try done; [lia|].
  f_equal. apply IH. lia.
Qed.

Lemma fraction_end_inv s f : fraction_end s = Some f →
  (s = "" ∧ f = "") ∨ (s = String "." f ∧ (1 ≤ String.length f ≤ 6)%nat ∧ all_digits f = true).
Proof.
  destruct s as [|c w]; [intros [= <-]; by left|]. unfold fraction_end.
  destruct (is_char "." c) eqn:Hc; cbn [andb]; [|done].
  destruct (Z.leb_spec 1 (len w)), (Z.leb_spec (len w) 6), (all_digits w) eqn:E; cbn [andb]; try done.
  intros [= <-]. right. apply Ascii.eqb_eq in Hc. subst c. unfold len in *. split; [done|]. split; [lia|done].
Qed.

Lemma fraction_end_prefix s f : fraction_end s = Some f → fraction_prefix s = f.
Proof.
  intros H. apply fraction_end_inv in H as [[-> ->]|(-> & Hl & Hd)]; [done|].
  cbn [fraction_prefix]. change (is_char "." ".") with true. cbn iota.
  rewrite span_digits_all by done. apply str_take_all. lia.
Qed.

(** What is a datetime by the strict pattern is read as the same one. *)
Lemma NAIVE_DATETIME_prefix s p : NAIVE_DATETIME s = Some p → datetime_prefix s = Some p.
Proof.
  unfold NAIVE_DATETIME, datetime_prefix. intros H.
  repeat match goal with
    | H : (_ ≫= _) = Some _ |- _ =>
        let E := fresh "E" in apply bind_Some in H as (? & E & H);
        first [rewrite E; cbn [mbind option_bind] | apply fraction_end_prefix in E; rewrite E]
    | H : (let '(_, _) := ?x in _) = Some _ |- _ => destruct x
    end.
  by injection H as <-.
Qed.

Lemma NAIVE_DATETIME_read s p : NAIVE_DATETIME s = Some p → readDatetime (CText s) = Some (datetime_text p).
Proof. intros H%NAIVE_DATETIME_prefix. unfold readDatetime. cbn. by rewrite H. Qed.

Section Reading.
Context `{Collation, ST : Storage, !StorageLaws ST}.

Lemma column_map f (r : row) c :
  (∀ c v, f c v = CNull ↔ v = CNull) →
  column (map (fun p => (p.1, f p.1 p.2)) r) c = match column r c with CNull => CNull | v => f c v end.
Proof.
  intros Hf. induction r as [|[d v] r IH]; cbn; [done|].
  destruct (String.eqb_spec d c) as [->|]; [|done]. destruct v; [by apply Hf|done|done].
Qed.

Lemma column_stored l r c : column (stored l r) c = stored_cell l c (column r c).
Proof.
  unfold stored. rewrite column_map.
  - by destruct (column r c).
  - intros d v. destruct v; cbn; repeat case_bool_decide; naive_solver.
Qed.

(** A stored cell has the text that was bound to it, unless it is a datetime. *)
Lemma stored_other l r c : c ∉ l → column (stored l r) c = column r c.
Proof.
  intros Hc. rewrite column_stored. destruct (column r c); cbn; [done| |done].
  by rewrite bool_decide_eq_false_2.
Qed.

(** A well-formed datetime is read back as itself. *)
Lemma stored_datetime l r c s p :
  c ∈ l → column r c = CText s → NAIVE_DATETIME s = Some p →
  (∃ q, NAIVE_DATETIME (datetime_text p) = Some q ∧ datetime_text q = datetime_text p) →
  readDatetime (column (stored l r) c) = readDatetime (column r c).
Proof.
  intros Hc Hr Hs (q & Hq & Ht). rewrite column_stored, Hr. cbn [stored_cell].
  rewrite bool_decide_eq_true_2 by done. rewrite (datetime6_literal _ _ Hs).
  by rewrite (NAIVE_DATETIME_read _ _ Hs), (NAIVE_DATETIME_read _ _ Hq), Ht.
Qed.
End Reading.

(** *** Datetimes are rendered as they are read *)

Lemma take_digits_app n w s :
  String.length w = n → all_digits w = true → take_digits n (w +:+ s) = Some (w, s).
Proof.
  intros <- Hw. unfold take_digits. rewrite str_take_app, str_drop_app, Nat.eqb_refl, Hw. done.
Qed.

Lemma take_digits_inv n s w r :
  take_digits n s = Some (w, r) → String.length w = n ∧ all_digits w = true.
Proof.
  unfold take_digits. destruct (Nat.eqb_spec (String.length (str_take n s)) n); cbn; [|done].
  destruct (all_digits (str_take n s)) eqn:E; [|done]. by intros [= <- _].
Qed.

(** The parts of a datetime: fields of their widths and up to six digits. *)
Definition parts_ok (p : naive_parts) : Prop :=
  (String.length (yearText p) = 4 ∧ String.length (monthText p) = 2 ∧ String.length (dayText p) = 2 ∧
   String.length (hourText p) = 2 ∧ String.length (minuteText p) = 2 ∧ String.length (secondText p) = 2 ∧
   String.length (fractionText p) ≤ 6)%nat ∧
  Forall (λ s, all_digits s = true)
    [yearText p; monthText p; dayText p; hourText p; minuteText p; secondText p; fractionText p].

Lemma NAIVE_DATETIME_parts s p : NAIVE_DATETIME s = Some p → parts_ok p.
Proof.
  unfold NAIVE_DATETIME. intros H.
  repeat match goal with
    | H : (_ ≫= _) = Some _ |- _ => let E := fresh "E" in apply bind_Some in H as (? & E & H)
    | H : (let '(_, _) := ?x in _) = Some _ |- _ => destruct x
    end.
  injection H as <-.
  repeat match goal with H : take_digits _ _ = Some _ |- _ => apply take_digits_inv in H as [? ?] end.
  match goal with H : fraction_end _ = Some ?f |- _ =>
    assert ((String.length f ≤ 6)%nat ∧ all_digits f = true) as [? ?]
      by (apply fraction_end_inv in H as [[_ ->]|(_ & ? & ?)]; [split; [cbn; lia|done]|split; [lia|done]]) end.
  split; [by cbn|]. by repeat constructor.
Qed.

Lemma fraction_end_point f :
  f ≠ "" → (String.length f ≤ 6)%nat → all_digits f = true → fraction_end ("." +:+ f) = Some f.
Proof.
  intros Hne Hl Hd. rewrite append_cons, append_nil_l. cbn [fraction_end].
  change (is_char "." ".") with true. rewrite Hd. unfold len.
  assert (1 ≤ String.length f)%nat by (destruct f; [done|cbn; lia]).
  by rewrite !(proj2 (Z.leb_le _ _)) by lia.
Qed.

Lemma NAIVE_DATETIME_render p f :
  parts_ok p → fraction_end f = Some (fractionText p) →
  NAIVE_DATETIME (date_text p +:+ time_text p +:+ f) = Some p.
Proof.
  intros [(Hy & Hm & Hd & Hh & Hi & Hs & Hf) Ha] HF. decompose_Forall.
  unfold NAIVE_DATETIME, date_text, time_text.
  repeat first [rewrite append_assoc' | rewrite append_cons | rewrite append_nil_l
    | rewrite take_digits_app by done | progress cbn [mbind option_bind]
    | match goal with |- context [expect ?P (String ?c ?s)] => change (expect P (String c s)) with (Some s) end].
  rewrite HF. cbn. by destruct p.
Qed.

Lemma datetime_text_again p : parts_ok p →
  ∃ q, NAIVE_DATETIME (datetime_text p) = Some q ∧ datetime_text q = datetime_text p.
Proof.
  intros Hp. pose proof Hp as [(Hy & Hm & Hd & Hh & Hi & Hs & Hf) Ha].
  assert (String.length (pad_end 6 (fractionText p)) = 6%nat) as Hl by (rewrite length_pad_end; lia).
  assert (all_digits (pad_end 6 (fractionText p)) = true) as Hd6.
  { unfold pad_end. rewrite all_digits_append, all_digits_zeros. decompose_Forall.
    match goal with H : all_digits (fractionText p) = true |- _ => by rewrite H end. }
  exists (Parts (yearText p) (monthText p) (dayText p) (hourText p) (minuteText p) (secondText p)
            (pad_end 6 (fractionText p))).
  split.
  - unfold datetime_text. set (q := Parts _ _ _ _ _ _ _).
    change (NAIVE_DATETIME (date_text q +:+ time_text q +:+ "." +:+ pad_end 6 (fractionText p)) = Some q).
    apply NAIVE_DATETIME_render.
    + split; [cbn; rewrite Hl; by split_and!|]. decompose_Forall; done.
    + apply (fraction_end_point (pad_end 6 (fractionText p))); [intros E; by rewrite E in Hl|lia|done].
  - unfold datetime_text. cbn. by rewrite (pad_end_full 6 _ Hl).
Qed.
