(* ===== verification/CallPersistence.v ===== *)
(** * Persisting call audits

    [src/adapters/mysqlCallAuditPersistence.ts]: source references, results with their metric
    rows, usage attempts and spend claims. A row is written once under a deterministic key; a
    replay is compared with what is stored, column by column, and never merged over it. *)

From Stdlib Require Import Ascii.
From S2P Require Import Prelude JsText CanonicalJson Sql Scoring SourceRevision ResultRecords Prog CallStore.

Local Open Scope string_scope.
Local Open Scope list_scope.
#[global] Open Scope Z_scope.

(** ** Errors *)

Inductive persistence_error : Type :=
| PersistenceError (entity reason : string)
| PersistenceConflict (entity field : string)
(** what the driver threw *)
| PersistenceFault (e : sql_error).

#[export] Instance sql_error_eq_dec : EqDecision sql_error.
Proof. solve_decision. Defined.
#[export] Instance persistence_error_eq_dec : EqDecision persistence_error.
Proof. solve_decision. Defined.

Definition isDuplicateEntry (e : persistence_error) : bool :=
  bool_decide (e = PersistenceFault DuplicateEntry).

Inductive insert_outcome : Type := inserted | reused | replayed.

#[export] Instance insert_outcome_eq_dec : EqDecision insert_outcome.
Proof. solve_decision. Defined.

(** [for (...) if (differs) return column]: the first difference. *)
Definition first_difference (l : list (string * bool)) : option string :=
  fst <$> List.find (fun p => negb p.2) l.

(** A column whose text must be the given value's. *)
Definition text_check (r : row) (c : string) (v : SqlValue) : string * bool :=
  (c, bool_decide (textOrNull (column r c) = textOrNull v)).
Definition tiny_check (r : row) (c : string) (b : option bool) : string * bool :=
  (c, bool_decide (fromTinyint (column r c) = b)).
Definition number_check (r : row) (c : string) (z : option Z) : string * bool :=
  (c, bool_decide (numberOrNull (column r c) = z)).
Definition datetime_check (r : row) (c : string) (v : SqlValue) : string * bool :=
  (c, bool_decide (readDatetime (column r c) = readDatetime v)).

Section Persistence.
Context `{Platform, Collation, Storage}.

(** ** Source references *)

Definition SOURCE_REF_ID_PREFIX : string := "cas_".

(** The digest of a document of finite numbers exists. *)
Definition sha_of (v : json) : string :=
  match canonicalJsonSha256 v with Ok s => s | Throw _ => "" end.

Definition buildSourceRefId (r : CallAuditSourceReference) : string :=
  SOURCE_REF_ID_PREFIX +:+ str_take ID_HASH_LENGTH
    (sha_of (JObj [("sourceTable", JStr (sourceTable r)); ("sourceRowId", JStr (sourceRowId r));
                   ("sourceRevisionSha256", JStr (sourceRevisionSha256 r))])).

Definition categorical_columns (r : CallAuditSourceReference) : row :=
  map (fun p => (p.1, cell_text (p.2 (snapshot r)))) SOURCE_CATEGORICAL_FIELDS.

(** [SOURCE_REF_COLUMNS] with [sourceRefValues]. *)
Definition sourceRefValues (r : CallAuditSourceReference) : row :=
  [("id", CText (buildSourceRefId r)); ("source_table", CText (sourceTable r));
   ("source_row_id", CText (sourceRowId r)); ("source_revision_sha256", CText (sourceRevisionSha256 r));
   ("task_id", cell_text (taskId r)); ("lead_id_sha256", cell_text (leadIdSha256 r));
   ("transcript_sha256", cell_text (transcriptSha256 r)); ("has_transcript", toTinyint (Some (hasTranscript r)));
   ("effective_call_at", CText (effectiveCallTime r)); ("source_updated_at", cell_text (sourceUpdatedAt r));
   ("call_started_at", cell_text (callStartedAt r)); ("call_ended_at", cell_text (callEndedAt r));
   ("call_duration_seconds", cell_int (callDurationSeconds r))] ++
  categorical_columns r ++ [("source_ref_idempotency_key", CText (sourceRefIdempotencyKey r))].

Definition SOURCE_REF_DATETIMES : list string :=
  ["effective_call_at"; "source_updated_at"; "call_started_at"; "call_ended_at"].

Definition sourceRefConflictField (existing : row) (r : CallAuditSourceReference) : option string :=
  first_difference (
    [text_check existing "source_table" (CText (sourceTable r));
     text_check existing "source_row_id" (CText (sourceRowId r));
     text_check existing "source_revision_sha256" (CText (sourceRevisionSha256 r));
     text_check existing "id" (CText (buildSourceRefId r));
     text_check existing "task_id" (cell_text (taskId r));
     text_check existing "lead_id_sha256" (cell_text (leadIdSha256 r));
     text_check existing "transcript_sha256" (cell_text (transcriptSha256 r));
     text_check existing "source_ref_idempotency_key" (CText (sourceRefIdempotencyKey r))] ++
    map (fun p => text_check existing p.1 p.2) (categorical_columns r) ++
    [tiny_check existing "has_transcript" (Some (hasTranscript r));
     number_check existing "call_duration_seconds" (callDurationSeconds r);
     datetime_check existing "effective_call_at" (CText (effectiveCallTime r));
     datetime_check existing "source_updated_at" (cell_text (sourceUpdatedAt r));
     datetime_check existing "call_started_at" (cell_text (callStartedAt r));
     datetime_check existing "call_ended_at" (cell_text (callEndedAt r))]).

(** [if (field) throw new ...ConflictError(entity, field)] *)
Definition conflict (entity : string) (field : option string) : Prelude.result persistence_error unit :=
  match field with Some f => Throw (PersistenceConflict entity f) | None => Ok tt end.

Definition assertSourceRefMatches (existing : row) (r : CallAuditSourceReference) : Prelude.result persistence_error unit :=
  conflict "sourceRef" (sourceRefConflictField existing r).

(** ** Results *)

Definition resultValues (r : CallAuditResultRecord) : row :=
  [("id", CText (res_id r)); ("run_id", CText (runId (res_identity r)));
   ("source_ref_id", CText (sourceRefId (res_identity r)));
   ("rule_version_id", CText (ruleVersionId (res_identity r)));
   ("processing_status", CText (status_text (processingStatus r)));
   ("eligibility", CText (eligibility_text (res_eligibility r)));
   ("ineligibility_reason", cell_text (ineligibilityReason r));
   ("call_connected", toTinyint (res_callConnected r)); ("customer_spoke", toTinyint (res_customerSpoke r));
   ("meaningful_conversation", toTinyint (res_meaningfulConversation r));
   ("intent", cell_text (res_intent r)); ("intent_confidence", cell_text (intentConfidence r));
   ("detailed_outcome", cell_text (res_detailedOutcome r)); ("grouped_outcome", cell_text (res_groupedOutcome r));
   ("qualification_label", cell_text (qualificationLabel r)); ("next_action_code", cell_text (nextActionCode r));
   ("overall_score", cell_text (res_overallScore r)); ("overall_score_method", cell_text (overallScoreMethod r));
   ("kserve_reported_outcome", cell_text (kserveReportedOutcome r));
   ("kserve_comparison_label", CText (label_text (kserveComparisonLabel r)));
   ("mismatch_severity", CText (severity_text (mismatchSeverity r)));
   ("management_feedback", cell_text (managementFeedback r)); ("kserve_feedback", cell_text (res_kserveFeedback r));
   ("improvement_feedback", cell_text (res_improvementFeedback r));
   ("issue_flags_json", cell_text (issueFlagsJson r)); ("result_json", cell_text (resultJson r));
   ("result_sha256", cell_text (resultSha256 r)); ("error_code", cell_text (errorCode r)); ("error_detail", CNull);
   ("idempotency_key", CText (idempotencyKey r)); ("audited_at", cell_text (auditedAt r))].

Definition RESULT_DATETIMES : list string := ["audited_at"].

(** The columns compared as they were bound, in the order of the code. *)
Definition RESULT_TEXT_COLUMNS : list string :=
  ["id"; "run_id"; "source_ref_id"; "rule_version_id"; "processing_status"; "eligibility"; "ineligibility_reason";
   "intent"; "intent_confidence"; "detailed_outcome"; "grouped_outcome"; "qualification_label";
   "next_action_code"; "overall_score"; "overall_score_method"; "kserve_reported_outcome";
   "kserve_comparison_label"; "mismatch_severity"; "management_feedback"; "kserve_feedback";
   "improvement_feedback"; "issue_flags_json"; "result_json"; "result_sha256"; "error_code"; "error_detail"].

Definition resultConflictField (existing : row) (r : CallAuditResultRecord) : option string :=
  first_difference (
    map (fun c => text_check existing c (column (resultValues r) c)) RESULT_TEXT_COLUMNS ++
    [tiny_check existing "call_connected" (res_callConnected r);
     tiny_check existing "customer_spoke" (res_customerSpoke r);
     tiny_check existing "meaningful_conversation" (res_meaningfulConversation r);
     datetime_check existing "audited_at" (cell_text (auditedAt r))]).

(** ** Metric scores *)

Definition metricValue (m : CallAuditMetricScoreRecord) : row :=
  [("id", CText (metric_id m)); ("result_id", CText (metric_resultId m));
   ("metric_code", CText (metric_text (metricCode m))); ("score_value", cell_int (scoreValue m));
   ("is_not_applicable", toTinyint (Some (isNotApplicable m)))].

Definition metricValues (records : list CallAuditMetricScoreRecord) : list row := map metricValue records.

(** [byCode]: the rows by their code, [None] when a code is missing or repeated. *)
Fixpoint rows_by_code (seen : list string) (existing : list row) : option (list (string * row)) :=
  match existing with
  | [] => Some []
  | r :: existing =>
      code ← textOrNull (column r "metric_code");
      if bool_decide (code ∈ seen) then None
      else l ← rows_by_code (code :: seen) existing; Some ((code, r) :: l)
  end.

Definition metric_conflict (byCode : list (string * row)) (m : CallAuditMetricScoreRecord) : option string :=
  match List.find (fun p => String.eqb p.1 (metric_text (metricCode m))) byCode with
  | None => Some "metric_code"
  | Some (_, r) =>
      first_difference [text_check r "id" (CText (metric_id m));
        text_check r "result_id" (CText (metric_resultId m)); number_check r "score_value" (scoreValue m);
        tiny_check r "is_not_applicable" (Some (isNotApplicable m))]
  end.

Definition metricScoresConflictField (existing : list row) (records : list CallAuditMetricScoreRecord) : option string :=
  if negb (Nat.eqb (length existing) (length records)) then Some "row_count"
  else match rows_by_code [] existing with
       | None => Some "metric_code"
       | Some byCode => foldr (fun m rest => match metric_conflict byCode m with Some f => Some f | None => rest end)
                          None records
       end.

Definition assertMetricScoresMatch (existing : list row) (records : list CallAuditMetricScoreRecord)
    : Prelude.result persistence_error unit :=
  conflict "metricScore" (metricScoresConflictField existing records).

(** The checks of one metric row against the codes seen before it. *)
Fixpoint assert_metrics (resultId : string) (seen : list CallAuditMetricCode) (records : list CallAuditMetricScoreRecord)
    : Prelude.result persistence_error (list CallAuditMetricCode) :=
  match records with
  | [] => Ok seen
  | m :: records =>
      throw_if (negb (String.eqb (metric_resultId m) resultId))
        (PersistenceError "resultBundle" "every metric score must belong to its own result") ≫= fun _ =>
      throw_if (bool_decide (metricCode m ∈ seen))
        (PersistenceError "resultBundle" ("metric " +:+ metric_text (metricCode m) +:+ " appears more than once")) ≫= fun _ =>
      assert_metrics resultId (metricCode m :: seen) records
  end.

Definition assertBundleShape (b : CallAuditResultBundle) : Prelude.result persistence_error unit :=
  let r := bundle_result b in
  let expectsMetrics := bool_decide (processingStatus r = succeeded) && bool_decide (res_eligibility r = content_auditable) in
  if negb expectsMetrics then
    throw_if (negb (bool_decide (bundle_metricScores b = [])))
      (PersistenceError "resultBundle" "only a succeeded content-auditable result may carry metric scores")
  else
    throw_if (negb (Nat.eqb (length (bundle_metricScores b)) (length CALL_AUDIT_RUBRIC)))
      (PersistenceError "resultBundle" "a succeeded content result must carry exactly 8 metric scores") ≫= fun _ =>
    seen ← assert_metrics (res_id r) [] (bundle_metricScores b);
    for_each (fun m => throw_if (negb (bool_decide (metric_code m ∈ seen)))
      (PersistenceError "resultBundle" ("metric " +:+ metric_text (metric_code m) +:+ " is missing"))) CALL_AUDIT_RUBRIC.

(** ** Usage attempts *)

Definition usageValues (u : CallAuditUsageEventRecord) : row :=
  [("id", CText (usage_id u)); ("result_id", CText (usage_resultId u)); ("run_id", CText (usage_runId u));
   ("rule_version_id", CText (usage_ruleVersionId u)); ("attempt_number", CInt (attemptNumber u));
   ("attempt_outcome", CText (attempt_text (attemptOutcome u))); ("provider_name", CText (providerName u));
   ("model_name", CText (modelName u)); ("model_version", CText (modelVersion u));
   ("input_tokens", cell_text (inputTokens u)); ("output_tokens", cell_text (outputTokens u));
   ("total_tokens", cell_text (totalTokens u)); ("request_id", cell_text (requestId u));
   ("latency_ms", cell_text (latencyMs u)); ("error_code", cell_text (usage_errorCode u));
   ("recorded_at", CText (recordedAt u))].

Definition USAGE_DATETIMES : list string := ["recorded_at"].

Definition USAGE_TEXT_COLUMNS : list string :=
  ["id"; "result_id"; "run_id"; "rule_version_id"; "attempt_outcome"; "provider_name"; "model_name"; "model_version";
   "input_tokens"; "output_tokens"; "total_tokens"; "request_id"; "latency_ms"; "error_code"].

Definition usageConflictField (existing : row) (u : CallAuditUsageEventRecord) : option string :=
  first_difference (
    map (fun c => text_check existing c (column (usageValues u) c)) USAGE_TEXT_COLUMNS ++
    [number_check existing "attempt_number" (Some (attemptNumber u));
     datetime_check existing "recorded_at" (CText (recordedAt u))]).

(** ** Statements *)

(** A statement that reads. *)
Definition select {A} (read : tables → A) (d : tables) : Prelude.result sql_error (A * tables) := Ok (read d, d).

Definition insert_source_ref (r : CallAuditSourceReference) (d : tables) : Prelude.result sql_error (unit * tables) :=
  t ← insert_unique (clashes SOURCE_REF_KEYS) (stored SOURCE_REF_DATETIMES (sourceRefValues r)) (source_refs d);
  Ok (tt, with_source_refs t d).

Definition insert_result (r : CallAuditResultRecord) (d : tables) : Prelude.result sql_error (unit * tables) :=
  t ← insert_unique (clashes RESULT_KEYS) (stored RESULT_DATETIMES (resultValues r)) (results d);
  Ok (tt, with_results t d).

(** The rows of one [INSERT], each against the table and the rows before it. *)
Fixpoint insert_rows (keys : list (list string)) (rows t : list row) : Prelude.result sql_error (list row) :=
  match rows with
  | [] => Ok t
  | r :: rows => t ← insert_unique (clashes keys) r t; insert_rows keys rows t
  end.

Definition insert_metric_scores (records : list CallAuditMetricScoreRecord) (d : tables)
    : Prelude.result sql_error (unit * tables) :=
  t ← insert_rows METRIC_SCORE_KEYS (metricValues records) (metric_scores d);
  Ok (tt, with_metric_scores t d).

Definition insert_usage (u : CallAuditUsageEventRecord) (d : tables) : Prelude.result sql_error (unit * tables) :=
  t ← insert_unique (clashes USAGE_EVENT_KEYS) (stored USAGE_DATETIMES (usageValues u)) (usage_events d);
  Ok (tt, with_usage_events t d).

(** [rows[0]] of the rows a condition selects. *)
Definition first_row (P : row → bool) (t : list row) : option row := head (where_ P t).

Definition select_source_ref (key : string) (d : tables) : option row :=
  first_row (column_is "source_ref_idempotency_key" key) (source_refs d).
Definition select_result (key : string) (d : tables) : option row :=
  first_row (column_is "idempotency_key" key) (results d).
Definition select_metric_scores (resultId : string) (d : tables) : list row :=
  where_ (column_is "result_id" resultId) (metric_scores d).
Definition select_usage (u : CallAuditUsageEventRecord) (d : tables) : option row :=
  first_row (fun r => column_is "result_id" (usage_resultId u) r &&
                      bool_decide (column r "attempt_number" = CInt (attemptNumber u))) (usage_events d).

(** The inserts of one transaction and its commit: a refused commit may have taken effect. *)
Definition committing {A} (m : Sql tables sql_error A) : Sql tables sql_error A :=
  fun env n d =>
    match m env n d with
    | (Throw e, (n', _)) => (Throw e, (n', d))
    | (Ok a, (n', d')) =>
        if refused env n' then (Throw Refused, (S n', if landed env n' then d' else d)) else (Ok a, (S n', d'))
    end.

(** The [INSERT]s lock the keys they write until the commit, so they count when it happens. *)
Definition insert_bundle (b : CallAuditResultBundle) : Sql tables sql_error unit :=
  committing (
    request (fun _ => insert_result (bundle_result b)) ≫= fun _ =>
    match bundle_metricScores b with
    | [] => mret tt
    | records => request (fun _ => insert_metric_scores records)
    end).

(** ** The repository *)

Definition lift_result {A} (r : Prelude.result persistence_error A) : act persistence_error A := sync r.

Definition execute {A} (s : tables → Prelude.result sql_error (A * tables)) : act persistence_error A :=
  rethrow PersistenceFault (await (Statement s)).

(** A request that reads and writes nothing: [getConnection], [beginTransaction], [rollback]. *)
Definition request_only : act persistence_error unit := execute (select (fun _ => tt)).

Definition findSourceRef (r : CallAuditSourceReference) : act persistence_error (option row) :=
  execute (select (select_source_ref (sourceRefIdempotencyKey r))).
Definition findResult (key : string) : act persistence_error (option row) := execute (select (select_result key)).
Definition findMetricScores (resultId : string) : act persistence_error (list row) :=
  execute (select (select_metric_scores resultId)).

(** The result row and the metric rows are read in one snapshot, the one of the first read. *)
Definition write_body (b : CallAuditResultBundle) : act persistence_error insert_outcome :=
  request_only ≫= fun _ =>
  '(existing, metricRows) ← execute (select (fun d =>
     (select_result (idempotencyKey (bundle_result b)) d, select_metric_scores (res_id (bundle_result b)) d)));
  match existing with
  | Some existing =>
      lift_result (conflict "result" (resultConflictField existing (bundle_result b))) ≫= fun _ =>
      request_only ≫= fun _ =>
      lift_result (assertMetricScoresMatch metricRows (bundle_metricScores b)) ≫= fun _ =>
      request_only ≫= fun _ => mret replayed
  | None =>
      rethrow PersistenceFault (await (Transaction (insert_bundle b))) ≫= fun _ => mret inserted
  end.

Definition writeResultBundle (b : CallAuditResultBundle) : act persistence_error insert_outcome :=
  request_only ≫= fun _ =>
  catch (write_body b) (fun e => request_only ≫= fun _ => sync (Throw e)).

Definition saveResultBundle (b : CallAuditResultBundle) : act persistence_error insert_outcome :=
  lift_result (assertBundleShape b) ≫= fun _ =>
  catch (writeResultBundle b) (fun e =>
    if negb (isDuplicateEntry e) then sync (Throw e)
    else
      raced ← findResult (idempotencyKey (bundle_result b));
      match raced with
      | None => sync (Throw e)
      | Some raced =>
          lift_result (conflict "result" (resultConflictField raced (bundle_result b))) ≫= fun _ =>
          metricRows ← findMetricScores (res_id (bundle_result b));
          lift_result (assertMetricScoresMatch metricRows (bundle_metricScores b)) ≫= fun _ =>
          mret replayed
      end).

(** The id of the stored row, and whether it was there. *)
Definition upsertSourceReference (r : CallAuditSourceReference) : act persistence_error (string * insert_outcome) :=
  existing ← findSourceRef r;
  match existing with
  | Some existing =>
      lift_result (assertSourceRefMatches existing r) ≫= fun _ => mret (buildSourceRefId r, reused)
  | None =>
      catch (execute (insert_source_ref r) ≫= fun _ => mret (buildSourceRefId r, inserted)) (fun e =>
        if negb (isDuplicateEntry e) then sync (Throw e)
        else
          raced ← findSourceRef r;
          match raced with
          | None => sync (Throw e)
          | Some raced =>
              lift_result (assertSourceRefMatches raced r) ≫= fun _ => mret (buildSourceRefId r, reused)
          end)
  end.

Definition findUsage (u : CallAuditUsageEventRecord) : act persistence_error (option row) :=
  execute (select (select_usage u)).

Definition recordUsageAttempt (u : CallAuditUsageEventRecord) : act persistence_error insert_outcome :=
  existing ← findUsage u;
  match existing with
  | Some existing => lift_result (conflict "usageEvent" (usageConflictField existing u)) ≫= fun _ => mret replayed
  | None =>
      catch (execute (insert_usage u) ≫= fun _ => mret inserted) (fun e =>
        if negb (isDuplicateEntry e) then sync (Throw e)
        else
          raced ← findUsage u;
          match raced with
          | None => sync (Throw e)
          | Some raced => lift_result (conflict "usageEvent" (usageConflictField raced u)) ≫= fun _ => mret replayed
          end)
  end.

(** ** The spend claim *)

Inductive CallAuditSpendSkipCode : Type := priorResult | priorClaim.

Definition CALL_AUDIT_SPEND_SKIP_CODES (c : CallAuditSpendSkipCode) : string :=
  match c with
  | priorResult => "CALL_AUDIT_DUPLICATE_PRIOR_RESULT"
  | priorClaim => "CALL_AUDIT_DUPLICATE_PRIOR_CLAIM"
  end.

Inductive CallAuditSpendClaimResult : Type := claimed | duplicate (skipCode : CallAuditSpendSkipCode).

(** What a run asks for: the identity it audits under, and the instant. *)
Record ContentAuditSpendClaimInput : Type := ClaimInput {
  claim_identity : CallAuditResultIdentity;
  claimedAt : string;
}.

Definition claim_values (c : ContentAuditSpendClaimInput) : row :=
  stored ["claimed_at"]
    [("source_ref_id", CText (sourceRefId (claim_identity c))); ("run_id", CText (runId (claim_identity c)));
     ("rule_version_id", CText (ruleVersionId (claim_identity c))); ("claimed_at", CText (claimedAt c))].

(** [SELECT_PRIOR_RESULT_SQL] *)
Definition is_prior_result (i : CallAuditResultIdentity) (r : row) : bool :=
  column_is "source_ref_id" (sourceRefId i) r && negb (column_is "run_id" (runId i) r).

Definition claimContentAuditSpend (c : ContentAuditSpendClaimInput) : act persistence_error CallAuditSpendClaimResult :=
  prior ← execute (select (fun d => first_row (is_prior_result (claim_identity c)) (results d)));
  match prior with
  | Some _ => mret (duplicate priorResult)
  | None =>
      catch (rethrow PersistenceFault (await (InsertSpendClaim (claim_values c))) ≫= fun _ => mret claimed) (fun e =>
        if negb (isDuplicateEntry e) then sync (Throw e) else mret (duplicate priorClaim))
  end.
End Persistence.
