(* ===== verification/CallModel.v ===== *)
(** * Asking the model for a content audit

    [src/adapters/openaiCallAuditModel.ts]: the request built from an activated rule and one
    transcript, and the reading of the answer. Whatever the provider does is a result with a
    bounded code; only an invalid request throws, before anything is sent. *)

From Stdlib Require Import Ascii.
From S2P Require Import Prelude JsNumber JsText Regex CanonicalJson Sql Scoring ModelOutput SourceRevision ResultRecords Prog CallRules CallStore.

Local Open Scope string_scope.
Local Open Scope list_scope.
#[global] Open Scope Z_scope.

Definition MAX_TRANSCRIPT_LENGTH : Z := 100000.
Definition MAX_LANGUAGE_LENGTH : Z := 40.
Definition MAX_DURATION_SECONDS : Z := 86400.

Inductive ContentAuditErrorCode : Type :=
  code_refused | code_emptyResponse | code_notJson | code_invalidOutput | code_requestFailed.

Definition CONTENT_AUDIT_ERROR_CODES (c : ContentAuditErrorCode) : string :=
  match c with
  | code_refused => "MODEL_REFUSED"
  | code_emptyResponse => "MODEL_EMPTY_RESPONSE"
  | code_notJson => "MODEL_RESPONSE_NOT_JSON"
  | code_invalidOutput => "MODEL_OUTPUT_INVALID"
  | code_requestFailed => "MODEL_REQUEST_FAILED"
  end.

(** A [CallAuditModelRequestError], or a refused activation. *)
Inductive model_error : Type :=
| ModelRequestError (field reason : string)
| InvalidActivation (e : rule_error).

Notation asked := (Prelude.result model_error).

Record ContentAuditCallContext : Type := Context_ { ctx_language : value; ctx_durationSeconds : value }.

Record ContentAuditModelRequest : Type := ModelRequest {
  mr_activation : ValidatedRuleSettings;
  mr_transcript : string;
  mr_context : ContentAuditCallContext;
}.

Record ContentAuditUsageFacts : Type := UsageFacts {
  fact_provider : string;
  fact_modelName : string;
  fact_modelVersion : string;
  fact_requestId : option string;
  fact_inputTokens : option string;
  fact_outputTokens : option string;
  fact_totalTokens : option string;
  fact_latencyMs : string;
}.

(** A failed result is of kind [transport] exactly when its code is [requestFailed]. *)
Inductive ContentAuditModelResult : Type :=
| model_succeeded (output : ValidatedContentAuditOutput) (usage : ContentAuditUsageFacts)
| model_refused (usage : ContentAuditUsageFacts)
| model_failed (errorCode : ContentAuditErrorCode) (usage : ContentAuditUsageFacts).

(** ** The request *)

Definition requireTranscript (s : string) : asked string :=
  throw_if (blank s)
    (ModelRequestError "transcript" "must not be blank; a blank transcript is operational-only and is not audited here") ≫= fun _ =>
  throw_if (MAX_TRANSCRIPT_LENGTH <? units s) (ModelRequestError "transcript" "must be at most 100000 characters") ≫= fun _ =>
  throw_if (test UNSAFE_PROMPT_CHARACTER s)
    (ModelRequestError "transcript" "must not contain control characters other than tab and newline") ≫= fun _ => Ok s.

Definition requireLanguage (v : value) : asked (option string) :=
  match v with
  | VNull | VUndefined => Ok None
  | VStr s =>
      let text := trim s in
      if bool_decide (text = "") then Ok None
      else
        throw_if (MAX_LANGUAGE_LENGTH <? units text)
          (ModelRequestError "context.language" "must be at most 40 characters") ≫= fun _ =>
        throw_if (test CONTROL_CHARACTER text)
          (ModelRequestError "context.language" "must not contain control characters") ≫= fun _ => Ok (Some text)
  | _ => Throw (ModelRequestError "context.language" "must be a string")
  end.

Definition requireDurationSeconds (v : value) : asked (option Z) :=
  match v with
  | VNull | VUndefined => Ok None
  | v =>
      match safe_integer v with
      | Some z =>
          if (z <? 0) || (MAX_DURATION_SECONDS <? z)
          then Throw (ModelRequestError "context.durationSeconds" "must be an integer between 0 and 86400")
          else Ok (Some z)
      | None => Throw (ModelRequestError "context.durationSeconds" "must be an integer between 0 and 86400")
      end
  end.

Definition requireActivation (a : ValidatedRuleSettings) : asked ValidatedRuleSettings :=
  match validateRuleDraft (settings_value a) with Ok s => Ok s | Throw e => Throw (InvalidActivation e) end.

(** [Number(temperature)] *)
Definition temperatureForRequest (t : string) : asked dyadic :=
  match split_decimal t with
  | Some (w, None) => Ok (Dyadic (dec_value w) 0)
  | Some (w, Some f) => Ok (num_div (dec_value (w +:+ f)) (10 ^ len f))
  | None => Throw (ModelRequestError "activation.temperature" "did not convert to a finite request value")
  end.

Definition buildUserMessage (transcript : string) (language : option string) (durationSeconds : option Z) : string :=
  join_with newline ["CALL CONTEXT"; "Detected language: " +:+ default "unknown" language;
    "Recorded duration: " +:+ match durationSeconds with None => "unknown" | Some z => show_Z z +:+ " seconds" end;
    ""; "TRANSCRIPT"; transcript].

Definition buildContentAuditRequest (r : ContentAuditModelRequest) : asked ContentAuditChatRequest :=
  settings ← requireActivation (mr_activation r);
  transcript ← requireTranscript (mr_transcript r);
  language ← requireLanguage (ctx_language (mr_context r));
  duration ← requireDurationSeconds (ctx_durationSeconds (mr_context r));
  temperature ← temperatureForRequest (temperature settings);
  Ok (ChatRequest (rule_modelName settings) temperature buildContentAuditSchema (compileSystemPrompt settings)
        (buildUserMessage transcript language duration)).

(** ** The answer *)

Definition readCount (v : untrusted_id) : option string :=
  match v with
  | IdValue (VStr s) => if CANONICAL_UNSIGNED (trim s) then Some (trim s) else None
  | IdValue v => z ← safe_integer v; if 0 <=? z then Some (show_Z z) else None
  | IdBigInt z => if 0 <=? z then Some (show_Z z) else None
  end.

Definition readRequestId (v : value) : option string :=
  match v with
  | VStr s =>
      let text := trim s in
      if bool_decide (text = "") || (120 <? units text) || test CONTROL_CHARACTER text then None else Some text
  | _ => None
  end.

(** The clock is [Date.now()], whole milliseconds. *)
Definition elapsedMs (startedAt endedAt : Z) : string :=
  let elapsed := endedAt - startedAt in if 0 <? elapsed then show_Z elapsed else "0".

Definition usageFacts (settings : ValidatedRuleSettings) (response : option ContentAuditChatResponse)
    (startedAt endedAt : Z) : ContentAuditUsageFacts :=
  let usage := response ≫= chat_usage in
  UsageFacts (modelProvider settings) (rule_modelName settings) (rule_modelVersion settings)
    (r ← response; readRequestId (chat_request_id r))
    (u ← usage; readCount u.1.1) (u ← usage; readCount u.1.2) (u ← usage; readCount u.2)
    (elapsedMs startedAt endedAt).

(** [JSON.parse], [None] when it throws. *)
Class JsonParser : Type := { jsonParse : string → option value }.

Definition is_text (v : value) : bool := match v with VStr s => negb (blank s) | _ => false end.

Definition read_response `{JsonParser} (response : ContentAuditChatResponse) (usage : ContentAuditUsageFacts)
    : ContentAuditModelResult :=
  let '(content, refusal) := default (VUndefined, VUndefined) (chat_message response) in
  if is_text refusal then model_refused usage
  else match content with
       | VStr s =>
           if blank s then model_failed code_emptyResponse usage
           else match jsonParse s with
                | None => model_failed code_notJson usage
                | Some parsed =>
                    match validateContentAuditOutput parsed content_auditable with
                    | Ok output => model_succeeded output usage
                    | Throw _ => model_failed code_invalidOutput usage
                    end
                end
       | _ => model_failed code_emptyResponse usage
       end.

(** [audit] is the call the request is made for, for the record of what was paid only. *)
Definition auditTranscript `{JsonParser} (audit : CallAuditResultIdentity) (r : ContentAuditModelRequest)
    : act model_error ContentAuditModelResult :=
  settings ← sync (requireActivation (mr_activation r));
  body ← sync (buildContentAuditRequest r);
  Do MonotonicClock (fun startedAt =>
  Do (CreateChatCompletion audit body) (fun response =>
  Do MonotonicClock (fun endedAt =>
    let usage := usageFacts settings response startedAt endedAt in
    Ret (Ok match response with
            | None => model_failed code_requestFailed usage
            | Some response => read_response response usage
            end)))).
