(* ===== verification/CallProcessor.v ===== *)
(** * Processing one candidate

    [src/callaudit/processor.ts] and [spendClaim.ts]: one source row is persisted, decided,
    claimed, audited at most once and recorded. The model is behind one gate, the spend claim
    on the exact source revision. *)

From Stdlib Require Import Ascii.
From S2P Require Import Prelude JsNumber JsText CanonicalJson Sql Scoring SourceRevision ResultRecords Prog CallRules CallStore CallPersistence CallModel.

Local Open Scope string_scope.
Local Open Scope list_scope.
#[global] Open Scope Z_scope.

(** Everything the processor may throw. *)
Inductive processing_error : Type :=
| ProcessorError (field reason : string)
| SourceRevisionError (e : js_error)
| RecordsError (e : record_error)
| RepositoryError (e : persistence_error).

Notation processing A := (Prelude.result processing_error A).

(** The injected repository and model are the ones modelled here. *)
Record ProcessCallAuditCandidateInput : Type := ProcessInput {
  pi_runId : string;
  pi_ruleVersionId : string;
  pi_activation : ValidatedRuleSettings;
  pi_candidate : InternalSourceCandidate;
  pi_attemptNumber : value;
  pi_auditedAt : value;
  pi_recordedAt : value;
}.

Record CallAuditUsageSummary : Type := UsageSummary {
  us_attemptNumber : Z;
  us_attemptOutcome : UsageAttemptOutcome;
  us_errorCode : option string;
  us_persistOutcome : insert_outcome;
}.

Record CallAuditProcessingSummary : Type := Summary {
  sum_sourceRef : string * insert_outcome;
  sum_resultId : string;
  sum_status : ProcessingStatus;
  sum_eligibility : CallAuditEligibility;
  sum_persistOutcome : insert_outcome;
  modelAttempted : bool;
  sum_usage : option CallAuditUsageSummary;
  spendSkipCode : option CallAuditSpendSkipCode;
}.

(** ** Input *)

Definition requireText (v : value) (field : string) : processing string :=
  match v with
  | VStr s => throw_if (blank s) (ProcessorError field "must be a non-blank string") ≫= fun _ => Ok s
  | _ => Throw (ProcessorError field "must be a non-blank string")
  end.

(** The text as it was supplied. *)
Definition requireSuppliedTimestamp (v : value) (field : string) : processing string :=
  text ← requireText v field;
  match validateCallAuditTimestamp (VStr text) field with
  | Ok _ => Ok text
  | Throw _ => Throw (ProcessorError field
      "must be a UTC-naive 'YYYY-MM-DD HH:MM:SS[.ffffff]' timestamp naming a real date and time")
  end.

Definition requireProcessorAttempt (v : value) : processing Z :=
  match requireAttemptNumber v with
  | Ok z => Ok z
  | Throw _ => Throw (ProcessorError "attemptNumber" "must be an integer between 1 and 2147483647")
  end.

Definition safeCallContext (r : CallAuditSourceReference) : ContentAuditCallContext :=
  Context_ VUndefined
    (match callDurationSeconds r with
     | Some seconds =>
         if isSafeInteger seconds && (0 <=? seconds) && (seconds <=? MAX_DURATION_SECONDS)
         then VNum seconds 0 else VNull
     | None => VNull
     end).

Definition summarize (sourceRef : string * insert_outcome) (bundle : CallAuditResultBundle) (saved : insert_outcome)
    (modelAttempted : bool) (usage : option CallAuditUsageSummary) (skip : option CallAuditSpendSkipCode)
    : CallAuditProcessingSummary :=
  let r := bundle_result bundle in
  Summary sourceRef (res_id r) (processingStatus r) (res_eligibility r) saved modelAttempted usage skip.

Section Processor.
Context `{Platform, Collation, Storage, JsonParser}.

Definition recorded_ {A} (r : recorded A) : act processing_error A :=
  sync match r with Ok a => Ok a | Throw e => Throw (RecordsError e) end.
Definition repository {A} (m : act persistence_error A) : act processing_error A := rethrow RepositoryError m.

(** The result row first, then the attempt that points back to it. *)
Definition persist_attempt (sourceRef : string * insert_outcome) (bundle : CallAuditResultBundle) (usage : UsageEventInput)
    : act processing_error CallAuditProcessingSummary :=
  saved ← repository (saveResultBundle bundle);
  record ← recorded_ (buildUsageEventRecord usage);
  outcome ← repository (recordUsageAttempt record);
  mret (summarize sourceRef bundle saved true
          (Some (UsageSummary (attemptNumber record) (attemptOutcome record) (usage_errorCode record) outcome)) None).

Definition persistSuppressedDuplicate (sourceRef : string * insert_outcome) (identity : CallAuditResultIdentity)
    (skipCode : CallAuditSpendSkipCode) (kserveReported : option string) : act processing_error CallAuditProcessingSummary :=
  bundle ← recorded_ (buildSkippedResult identity content_auditable
             (VStr (CALL_AUDIT_SPEND_SKIP_CODES skipCode)) kserveReported);
  saved ← repository (saveResultBundle bundle);
  mret (summarize sourceRef bundle saved false None (Some skipCode)).

(** The attempt of a model that threw: what was activated, and nothing it may have answered. *)
Definition thrown_usage (p : ProcessCallAuditCandidateInput) (attempt : Z) (recordedAt : string)
    (identity : CallAuditResultIdentity) : UsageEventInput :=
  let a := pi_activation p in
  UsageInput identity (VNum attempt 0) attempt_failed (modelProvider a) (rule_modelName a) (rule_modelVersion a)
    None None None None None (Some (CONTENT_AUDIT_ERROR_CODES code_requestFailed)) (VStr recordedAt).

Definition persistThrownModelFailure (p : ProcessCallAuditCandidateInput) (attempt : Z) (recordedAt : string)
    (sourceRef : string * insert_outcome) (identity : CallAuditResultIdentity) (kserveReported : option string)
    : act processing_error CallAuditProcessingSummary :=
  bundle ← recorded_ (buildFailedResult identity content_auditable
             (VStr (CONTENT_AUDIT_ERROR_CODES code_requestFailed)) kserveReported);
  persist_attempt sourceRef bundle (thrown_usage p attempt recordedAt identity).

Definition usage_of (r : ContentAuditModelResult) : ContentAuditUsageFacts :=
  match r with model_succeeded _ u | model_refused u | model_failed _ u => u end.
Definition failure_of (r : ContentAuditModelResult) : option ContentAuditErrorCode :=
  match r with model_succeeded _ _ => None | model_refused _ => Some code_refused | model_failed c _ => Some c end.
Definition outcome_of (r : ContentAuditModelResult) : UsageAttemptOutcome :=
  match r with
  | model_succeeded _ _ => attempt_succeeded
  | model_refused _ => attempt_refused
  | model_failed _ _ => attempt_failed
  end.

Definition count_input (o : option string) : option untrusted_id := (fun s => IdValue (VStr s)) <$> o.

Definition answered_usage (r : ContentAuditModelResult) (attempt : Z) (recordedAt : string)
    (identity : CallAuditResultIdentity) : UsageEventInput :=
  let u := usage_of r in
  UsageInput identity (VNum attempt 0) (outcome_of r) (fact_provider u) (fact_modelName u) (fact_modelVersion u)
    (count_input (fact_inputTokens u)) (count_input (fact_outputTokens u)) (count_input (fact_totalTokens u))
    (fact_requestId u) (count_input (Some (fact_latencyMs u)))
    (CONTENT_AUDIT_ERROR_CODES <$> failure_of r) (VStr recordedAt).

(** The bundle of an answered request. *)
Definition answered_bundle (r : ContentAuditModelResult) (identity : CallAuditResultIdentity)
    (kserveReported : option string) (auditedAt : string) : recorded CallAuditResultBundle :=
  match r with
  | model_succeeded output _ => buildContentAuditResult identity output kserveReported (VStr auditedAt)
  | model_refused _ => buildFailedResult identity content_auditable (VStr (CONTENT_AUDIT_ERROR_CODES code_refused)) kserveReported
  | model_failed c _ => buildFailedResult identity content_auditable (VStr (CONTENT_AUDIT_ERROR_CODES c)) kserveReported
  end.

(** From the answer of the claim on: the claim is the only way to the model. *)
Definition audit_claimed (p : ProcessCallAuditCandidateInput) (attempt : Z) (auditedAt recordedAt transcript : string)
    (reference : CallAuditSourceReference) (sourceRef : string * insert_outcome) (identity : CallAuditResultIdentity)
    : act processing_error CallAuditProcessingSummary :=
  prog_seq (auditTranscript identity (ModelRequest (pi_activation p) transcript (safeCallContext reference)))
    (fun modelResult =>
      let kserveReported := final_lead_outcome (snapshot reference) in
      match modelResult with
      | Throw _ => persistThrownModelFailure p attempt recordedAt sourceRef identity kserveReported
      | Ok answer =>
          bundle ← recorded_ (answered_bundle answer identity kserveReported auditedAt);
          persist_attempt sourceRef bundle (answered_usage answer attempt recordedAt identity)
      end).

Definition audit_candidate (p : ProcessCallAuditCandidateInput) (attempt : Z) (auditedAt recordedAt : string)
    (envelope : SourceRevisionEnvelope) : act processing_error CallAuditProcessingSummary :=
  let r := reference envelope in
  sourceRef ← repository (upsertSourceReference r);
  let identity := Identity (pi_runId p) sourceRef.1 (pi_ruleVersionId p) in
  let kserveReported := final_lead_outcome (snapshot r) in
  match hasTranscript r, transcript envelope with
  | true, Some transcript =>
      claim ← repository (claimContentAuditSpend (ClaimInput identity recordedAt));
      match claim with
      | duplicate skipCode => persistSuppressedDuplicate sourceRef identity skipCode kserveReported
      | claimed => audit_claimed p attempt auditedAt recordedAt transcript r sourceRef identity
      end
  | _, _ =>
      bundle ← recorded_ (buildOperationalOnlyResult identity kserveReported (VStr auditedAt));
      saved ← repository (saveResultBundle bundle);
      mret (summarize sourceRef bundle saved false None None)
  end.

Definition processCallAuditCandidate (p : ProcessCallAuditCandidateInput) : act processing_error CallAuditProcessingSummary :=
  _ ← sync (requireText (VStr (pi_runId p)) "runId");
  _ ← sync (requireText (VStr (pi_ruleVersionId p)) "ruleVersionId");
  attempt ← sync (requireProcessorAttempt (pi_attemptNumber p));
  auditedAt ← sync (requireSuppliedTimestamp (pi_auditedAt p) "auditedAt");
  recordedAt ← sync (requireSuppliedTimestamp (pi_recordedAt p) "recordedAt");
  envelope ← sync match buildSourceRevision (pi_candidate p) with
                  | Ok e => Ok e
                  | Throw e => Throw (SourceRevisionError e)
                  end;
  audit_candidate p attempt auditedAt recordedAt envelope.
End Processor.
