(* ===== verification/CallControl.v ===== *)
(** * Runs and rule versions

    [src/adapters/mysqlCallAuditControl.ts]: the lifecycle of call-audit runs and of the rule
    versions they are executed under. A run is created once per key, moves from pending to
    running to one terminal state and is then history; of the rule versions one is active. *)

From Stdlib Require Import Ascii.
From S2P Require Import Prelude JsNumber JsText Regex CanonicalJson Sql KserveRules Scoring ModelOutput SourceRevision ResultRecords Prog CallRules CallStore CallPersistence CallModel.

Local Open Scope string_scope.
Local Open Scope list_scope.
#[global] Open Scope Z_scope.

(** ** Errors and vocabularies *)

Inductive control_error : Type :=
| ControlError (entity field reason : string)
| ControlConflict (entity field : string)
| ControlTransition (entity fromStatus toStatus : string)
(** a refused draft of a rule *)
| ControlDraft (e : rule_error)
(** what the driver threw *)
| ControlFault (e : sql_error).

Notation controlled := (Prelude.result control_error).

#[export] Instance rule_error_eq_dec : EqDecision rule_error.
Proof. solve_decision. Defined.
#[export] Instance control_error_eq_dec : EqDecision control_error.
Proof. solve_decision. Defined.

Definition is_duplicate (e : control_error) : bool := bool_decide (e = ControlFault DuplicateEntry).

Definition MAX_CHANGE_REASON_LENGTH : Z := 500.
Definition MAX_ACTOR_ID_LENGTH : Z := 40.
Definition MAX_CONTRACT_VERSION_LENGTH : Z := 40.
Definition MAX_CORRELATION_ID_LENGTH : Z := 120.
Definition MAX_TIMEZONE_LENGTH : Z := 64.
Definition MAX_COUNTER_VALUE : Z := 2147483647.

Definition RULE_VERSION_STATUSES : list string := ["draft"; "active"; "retired"].
Definition RUN_TYPES : list string := ["daily"; "monthly"; "quarterly"; "yearly"; "manual"; "test"; "backfill"].
Definition RUN_STATUSES : list string := ["pending"; "running"; "completed"; "failed"; "cancelled"].
Definition TERMINAL_RUN_STATUSES : list string := ["completed"; "failed"; "cancelled"].

Definition isTerminal (status : string) : bool := bool_decide (status ∈ TERMINAL_RUN_STATUSES).

Definition DEFAULT_PERIOD_TIMEZONE : string := "Asia/Kolkata".

(** ** Validation primitives *)

(** The checks of [requireIdentifier] on a text already known to be one. *)
Definition control_identifier (v : value) (entity field : string) (maxLength : Z) : controlled string :=
  match v with
  | VStr s =>
      let text := trim s in
      throw_if (bool_decide (text = "")) (ControlError entity field "must not be blank") ≫= fun _ =>
      throw_if (maxLength <? units text)
        (ControlError entity field ("must be at most " +:+ show_nat maxLength +:+ " characters")) ≫= fun _ =>
      throw_if (test CONTROL_CHARACTER text)
        (ControlError entity field "must not contain control characters") ≫= fun _ => Ok text
  | _ => Throw (ControlError entity field "must be a string")
  end.

Definition optionalIdentifier (v : value) (entity field : string) (maxLength : Z) : controlled (option string) :=
  match v with
  | VNull | VUndefined => Ok None
  | v => t ← control_identifier v entity field maxLength; Ok (Some t)
  end.

Definition optionalNote (v : value) (entity field : string) (maxLength : Z) : controlled (option string) :=
  match v with
  | VNull | VUndefined => Ok None
  | VStr s =>
      let text := trim s in
      if bool_decide (text = "") then Ok None
      else
        throw_if (maxLength <? units text)
          (ControlError entity field ("must be at most " +:+ show_nat maxLength +:+ " characters")) ≫= fun _ =>
        throw_if (test UNSAFE_PROMPT_CHARACTER text)
          (ControlError entity field "must not contain control characters other than tab and newline") ≫= fun _ =>
        Ok (Some text)
  | _ => Throw (ControlError entity field "must be a string or null")
  end.

Definition requireNaiveDatetime (v : value) (entity field : string) : controlled string :=
  match v with
  | VStr text =>
      match NAIVE_DATETIME (trim text) with
      | None => Throw (ControlError entity field "must be a UTC-naive 'YYYY-MM-DD HH:MM:SS' datetime")
      | Some p =>
          let year := dec_value (yearText p) in
          let month := dec_value (monthText p) in
          let day := dec_value (dayText p) in
          throw_if (year <? 1) (ControlError entity field "has an invalid year") ≫= fun _ =>
          throw_if ((month <? 1) || (12 <? month)) (ControlError entity field "has an invalid month") ≫= fun _ =>
          throw_if ((day <? 1) || (daysInMonth year month <? day))
            (ControlError entity field "has an invalid day for that month") ≫= fun _ =>
          throw_if (23 <? dec_value (hourText p)) (ControlError entity field "has an invalid hour") ≫= fun _ =>
          throw_if (59 <? dec_value (minuteText p)) (ControlError entity field "has an invalid minute") ≫= fun _ =>
          throw_if (59 <? dec_value (secondText p)) (ControlError entity field "has an invalid second") ≫= fun _ =>
          Ok (datetime_text p)
      end
  | _ => Throw (ControlError entity field "must be a string")
  end.

Definition optionalNaiveDatetime (v : value) (entity field : string) : controlled (option string) :=
  match v with
  | VNull | VUndefined => Ok None
  | v => t ← requireNaiveDatetime v entity field; Ok (Some t)
  end.

(** A counter is a number; what is not an integer is outside of its type. *)
Definition requireCounter (z : Z) (entity field : string) : controlled Z :=
  throw_if (negb (isSafeInteger z)) (ControlError entity field "must be a safe integer") ≫= fun _ =>
  throw_if (z <? 0) (ControlError entity field "must not be negative") ≫= fun _ =>
  throw_if (MAX_COUNTER_VALUE <? z) (ControlError entity field "must be at most 2147483647") ≫= fun _ => Ok z.

(** [/^[0-9a-f]{64}$/] *)
Definition SHA256_HEX (s : string) : bool := (len s =? 64) && str_forallb is_lower_hex s.

Definition requireSha256 (v entity field : string) : controlled string :=
  throw_if (negb (SHA256_HEX v))
    (ControlError entity field "must be a lowercase 64-character SHA-256 hex digest") ≫= fun _ => Ok v.

(** One segment of a zone name. *)
Definition zone_char (c : ascii) : bool :=
  let z := code c in
  is_digit c || ((65 <=? z) && (z <=? 90)) || ((97 <=? z) && (z <=? 122)) || (z =? 95) || (z =? 43) || (z =? 45).

Definition zone_segment (s : string) : bool := negb (String.eqb s "") && str_forallb zone_char s.

(** A letter first, then segments of zone characters between slashes. *)
Definition IANA_ZONE (s : string) : bool :=
  match s with
  | String c _ =>
      let z := code c in
      (((65 <=? z) && (z <=? 90)) || ((97 <=? z) && (z <=? 122))) && forallb zone_segment (split_on "/"%char s)
  | EmptyString => false
  end.

(** ** Transactions under a lock *)

Definition locked {A} (body : Sql tables control_error (TransactionOutcome A)) : Sql tables control_error A :=
  locking (ControlFault Refused) body.

(** A statement on the connection of the transaction. *)
Definition on_connection {A} (s : tables → Prelude.result sql_error (A * tables)) : Sql tables control_error A :=
  catching (request (fun _ => s)) ControlFault.

Definition control_execute {A} (s : tables → Prelude.result sql_error (A * tables)) : act control_error A :=
  rethrow ControlFault (await (Statement s)).

(** [SET column = ?, ...] on a row. *)
Definition set_columns (sets : row) (r : row) : row :=
  map (fun p => (p.1, match List.find (fun q => String.eqb q.1 p.1) sets with Some q => q.2 | None => p.2 end)) r.

(** [`status` IN (...)] *)
Definition status_in `{Collation} (statuses : list string) (r : row) : bool :=
  existsb (fun s => column_is "status" s r) statuses.

Section Control.
Context `{Platform, Collation, Storage, JsonParser}.

(** ** Runs *)

Definition RUN_ENTITY : string := "run".

Record CallAuditRunCounters : Type := Counters {
  totalCandidates : Z;
  processedCount : Z;
  succeededCount : Z;
  failedCount : Z;
  skippedCount : Z;
  contentAuditableCount : Z;
  operationalOnlyCount : Z;
}.

Definition ZERO_RUN_COUNTERS : CallAuditRunCounters := Counters 0 0 0 0 0 0 0.

(** Field, column and accessor, in order. *)
Definition COUNTER_COLUMNS : list (string * string * (CallAuditRunCounters → Z)) :=
  [("totalCandidates", "total_candidates", totalCandidates); ("processedCount", "processed_count", processedCount);
   ("succeededCount", "succeeded_count", succeededCount); ("failedCount", "failed_count", failedCount);
   ("skippedCount", "skipped_count", skippedCount);
   ("contentAuditableCount", "content_auditable_count", contentAuditableCount);
   ("operationalOnlyCount", "operational_only_count", operationalOnlyCount)].

Definition validateRunCounters (c : CallAuditRunCounters) : controlled CallAuditRunCounters :=
  for_each (fun p => requireCounter (p.2 c) RUN_ENTITY ("counters." +:+ p.1.1) ≫= fun _ => Ok tt) COUNTER_COLUMNS ≫= fun _ =>
  Ok c.

Definition counter_cells (c : CallAuditRunCounters) : row := map (fun p => (p.1.2, CInt (p.2 c))) COUNTER_COLUMNS.

Record CallAuditRunRequest : Type := RunRequest {
  rq_ruleVersionId : value;
  rq_runType : string;
  rq_periodStart : value;
  rq_periodEndExclusive : value;
  rq_periodTimezone : value;
  rq_idempotencyKey : value;
  rq_correlationId : value;
  rq_triggeredBy : value;
  rq_scheduledAt : value;
}.

Record ValidatedCallAuditRunRequest : Type := ValidRun {
  vr_ruleVersionId : string;
  vr_runType : string;
  vr_periodStart : string;
  vr_periodEndExclusive : string;
  vr_periodTimezone : string;
  vr_idempotencyKey : string;
  vr_correlationId : option string;
  vr_triggeredBy : option string;
  vr_scheduledAt : option string;
}.

(** [value ?? fallback] *)
Definition nullish (v fallback : value) : value := match v with VNull | VUndefined => fallback | v => v end.

Definition validateRunRequest (r : CallAuditRunRequest) : controlled ValidatedCallAuditRunRequest :=
  throw_if (negb (bool_decide (rq_runType r ∈ RUN_TYPES)))
    (ControlError RUN_ENTITY "runType" ("must be one of " +:+ join_with ", " RUN_TYPES)) ≫= fun _ =>
  start ← requireNaiveDatetime (rq_periodStart r) RUN_ENTITY "periodStart";
  end_ ← requireNaiveDatetime (rq_periodEndExclusive r) RUN_ENTITY "periodEndExclusive";
  throw_if (String.leb end_ start)
    (ControlError RUN_ENTITY "periodEndExclusive" "must be strictly after periodStart") ≫= fun _ =>
  zone ← control_identifier (nullish (rq_periodTimezone r) (VStr DEFAULT_PERIOD_TIMEZONE)) RUN_ENTITY "periodTimezone"
           MAX_TIMEZONE_LENGTH;
  throw_if (negb (IANA_ZONE zone)) (ControlError RUN_ENTITY "periodTimezone" "must be an IANA zone name") ≫= fun _ =>
  rule ← control_identifier (rq_ruleVersionId r) RUN_ENTITY "ruleVersionId" MAX_ID_LENGTH;
  key ← control_identifier (rq_idempotencyKey r) RUN_ENTITY "idempotencyKey" MAX_IDEMPOTENCY_KEY_LENGTH;
  correlation ← optionalIdentifier (rq_correlationId r) RUN_ENTITY "correlationId" MAX_CORRELATION_ID_LENGTH;
  triggered ← optionalIdentifier (rq_triggeredBy r) RUN_ENTITY "triggeredBy" MAX_ACTOR_ID_LENGTH;
  scheduled ← optionalNaiveDatetime (rq_scheduledAt r) RUN_ENTITY "scheduledAt";
  Ok (ValidRun rule (rq_runType r) start end_ zone key correlation triggered scheduled).

Definition RUN_ID_PREFIX : string := "crn_".

Definition buildRunId (r : ValidatedCallAuditRunRequest) : string :=
  RUN_ID_PREFIX +:+ str_take ID_HASH_LENGTH (sha_of (JObj [
    ("ruleVersionId", JStr (vr_ruleVersionId r)); ("runType", JStr (vr_runType r));
    ("periodStart", JStr (vr_periodStart r)); ("periodEndExclusive", JStr (vr_periodEndExclusive r));
    ("periodTimezone", JStr (vr_periodTimezone r)); ("idempotencyKey", JStr (vr_idempotencyKey r))])).

Definition requireRunId (v : value) : controlled string := control_identifier v RUN_ENTITY "runId" MAX_ID_LENGTH.

Definition requireErrorCode (v : value) (field : string) : controlled string :=
  code ← control_identifier v RUN_ENTITY field MAX_ERROR_CODE_LENGTH;
  throw_if (negb (SAFE_ERROR_CODE code)) (ControlError RUN_ENTITY field "must be an uppercase machine code") ≫= fun _ =>
  Ok code.

(** [RUN_COLUMNS] with [runValues]. *)
Definition runValues (r : ValidatedCallAuditRunRequest) : row :=
  [("id", CText (buildRunId r)); ("rule_version_id", CText (vr_ruleVersionId r)); ("run_type", CText (vr_runType r));
   ("period_start", CText (vr_periodStart r)); ("period_end_exclusive", CText (vr_periodEndExclusive r));
   ("period_timezone", CText (vr_periodTimezone r)); ("status", CText "pending")] ++
  counter_cells ZERO_RUN_COUNTERS ++
  [("correlation_id", cell_text (vr_correlationId r)); ("idempotency_key", CText (vr_idempotencyKey r));
   ("triggered_by", cell_text (vr_triggeredBy r)); ("error_code", CNull);
   ("scheduled_at", cell_text (vr_scheduledAt r)); ("started_at", CNull); ("finished_at", CNull)].

Definition RUN_DATETIMES : list string :=
  ["period_start"; "period_end_exclusive"; "scheduled_at"; "started_at"; "finished_at"].

Definition runConflictField (existing : row) (r : ValidatedCallAuditRunRequest) : option string :=
  first_difference [
    text_check existing "id" (CText (buildRunId r)); text_check existing "rule_version_id" (CText (vr_ruleVersionId r));
    text_check existing "run_type" (CText (vr_runType r));
    text_check existing "period_timezone" (CText (vr_periodTimezone r));
    text_check existing "correlation_id" (cell_text (vr_correlationId r));
    text_check existing "idempotency_key" (CText (vr_idempotencyKey r));
    text_check existing "triggered_by" (cell_text (vr_triggeredBy r));
    datetime_check existing "period_start" (CText (vr_periodStart r));
    datetime_check existing "period_end_exclusive" (CText (vr_periodEndExclusive r));
    datetime_check existing "scheduled_at" (cell_text (vr_scheduledAt r))].

Definition control_conflict (entity : string) (field : option string) : controlled unit :=
  match field with Some f => Throw (ControlConflict entity f) | None => Ok tt end.

Definition assertRunMatches (existing : row) (r : ValidatedCallAuditRunRequest) : controlled unit :=
  control_conflict RUN_ENTITY (runConflictField existing r).

(** [Number(row[column] ?? 0)] of each counter. *)
Definition counter_of (r : row) (column_name : string) : Z := default 0 (numberOrNull (column r column_name)).

Definition readCounters (r : row) : CallAuditRunCounters :=
  Counters (counter_of r "total_candidates") (counter_of r "processed_count") (counter_of r "succeeded_count")
    (counter_of r "failed_count") (counter_of r "skipped_count") (counter_of r "content_auditable_count")
    (counter_of r "operational_only_count").

Definition countersDiffer (r : row) (c : CallAuditRunCounters) : option string :=
  first_difference (map (fun p => number_check r p.1.2 (Some (p.2 c))) COUNTER_COLUMNS).

(** [String(row.status)] *)
Definition runStatusOf (r : row) : string := default "null" (textOrNull (column r "status")).

Definition insert_run (r : ValidatedCallAuditRunRequest) (d : tables) : Prelude.result sql_error (unit * tables) :=
  t ← insert_unique (clashes RUN_KEYS) (stored RUN_DATETIMES (runValues r)) (runs d);
  Ok (tt, with_runs t d).

Definition run_is (id : string) : row → bool := column_is "id" id.

(** [UPDATE ... SET ... WHERE id = ? AND status IN (...)] *)
Definition update_run (id : string) (statuses : list string) (sets : row) (d : tables) : tables :=
  with_runs (update_where (fun r => run_is id r && status_in statuses r)
    (set_columns (stored RUN_DATETIMES sets)) (runs d)).2 d.

Definition findRunByKey (key : string) : act control_error (option row) :=
  control_execute (select (fun d => first_row (column_is "idempotency_key" key) (runs d))).

Definition createRun (request : CallAuditRunRequest) : act control_error (string * insert_outcome) :=
  validated ← sync (validateRunRequest request);
  let id := buildRunId validated in
  existing ← findRunByKey (vr_idempotencyKey validated);
  match existing with
  | Some existing => sync (assertRunMatches existing validated) ≫= fun _ => mret (id, replayed)
  | None =>
      catch (control_execute (insert_run validated) ≫= fun _ => mret (id, inserted)) (fun e =>
        if negb (is_duplicate e) then sync (Throw e)
        else
          raced ← findRunByKey (vr_idempotencyKey validated);
          match raced with
          | None => sync (Throw e)
          | Some raced => sync (assertRunMatches raced validated) ≫= fun _ => mret (id, replayed)
          end)
  end.

(** What a transition decides on the locked row. *)
Inductive run_decision : Type :=
| Replay (status : string)
| Apply (from : list string) (sets : row) (status : string).

(** The id, the status and whether anything was written. *)
Record RunTransitionResult : Type := Transitioned { tr_id : string; tr_status : string; tr_updated : bool }.

Definition transition_body (runId : string) (decide : row → controlled run_decision)
    : Sql tables control_error (TransactionOutcome RunTransitionResult) :=
  existing ← on_connection (select (fun d => first_row (run_is runId) (runs d)));
  match existing with
  | None => lift (Throw (ControlError RUN_ENTITY "runId" "does not exist"))
  | Some existing =>
      decision ← lift (decide existing);
      match decision with
      | Replay status => mret (Outcome false (Transitioned runId status false))
      | Apply from sets status =>
          on_connection (fun d => Ok (tt, update_run runId from sets d)) ≫= fun _ =>
          mret (Outcome true (Transitioned runId status true))
      end
  end.

Definition transition (runId : string) (decide : row → controlled run_decision) : act control_error RunTransitionResult :=
  await (Transaction (locked (transition_body runId decide))).

Definition same_datetime (r : row) (c : string) (text : string) : controlled unit :=
  throw_if (negb (bool_decide (readDatetime (column r c) = readDatetime (CText text)))) (ControlConflict RUN_ENTITY c).

Definition decide_finish (runId toStatus finishedAt : string) (errorCode : option string)
    (counters : option CallAuditRunCounters) (r : row) : controlled run_decision :=
  let from := runStatusOf r in
  if String.eqb from toStatus then
    same_datetime r "finished_at" finishedAt ≫= fun _ =>
    throw_if (negb (bool_decide (textOrNull (column r "error_code") = errorCode)))
      (ControlConflict RUN_ENTITY "error_code") ≫= fun _ =>
    match counters with
    | Some c => control_conflict RUN_ENTITY (countersDiffer r c)
    | None => Ok tt
    end ≫= fun _ => Ok (Replay toStatus)
  else
    throw_if (isTerminal from) (ControlTransition RUN_ENTITY from toStatus) ≫= fun _ =>
    let settledCounters := default (readCounters r) counters in
    Ok (Apply ["pending"; "running"]
          ([("status", CText toStatus); ("finished_at", CText finishedAt); ("error_code", cell_text errorCode)] ++
           counter_cells settledCounters) toStatus).

Definition finish (runId toStatus finishedAt : string) (errorCode : option string) (counters : option CallAuditRunCounters)
    : act control_error RunTransitionResult :=
  transition runId (decide_finish runId toStatus finishedAt errorCode counters).

Definition decide_running (runId startedAt : string) (r : row) : controlled run_decision :=
  let from := runStatusOf r in
  if String.eqb from "running" then same_datetime r "started_at" startedAt ≫= fun _ => Ok (Replay "running")
  else
    throw_if (negb (String.eqb from "pending")) (ControlTransition RUN_ENTITY from "running") ≫= fun _ =>
    Ok (Apply ["pending"] [("status", CText "running"); ("started_at", CText startedAt)] "running").

Definition markRunRunning (runId startedAt : value) : act control_error RunTransitionResult :=
  runId ← sync (requireRunId runId);
  startedAt ← sync (requireNaiveDatetime startedAt RUN_ENTITY "startedAt");
  transition runId (decide_running runId startedAt).

Definition decide_counters (c : CallAuditRunCounters) (r : row) : controlled run_decision :=
  let from := runStatusOf r in
  throw_if (isTerminal from) (ControlTransition RUN_ENTITY from from) ≫= fun _ =>
  match countersDiffer r c with
  | None => Ok (Replay from)
  | Some _ => Ok (Apply [from] (counter_cells c) from)
  end.

Definition updateRunCounters (runId : value) (counters : CallAuditRunCounters) : act control_error RunTransitionResult :=
  id ← sync (requireRunId runId);
  validated ← sync (validateRunCounters counters);
  transition id (decide_counters validated).

Definition markRunCompleted (runId finishedAt : value) (counters : CallAuditRunCounters) : act control_error RunTransitionResult :=
  runId ← sync (requireRunId runId);
  finishedAt ← sync (requireNaiveDatetime finishedAt RUN_ENTITY "finishedAt");
  counters ← sync (validateRunCounters counters);
  finish runId "completed" finishedAt None (Some counters).

Definition validate_optional_counters (c : option CallAuditRunCounters) : controlled (option CallAuditRunCounters) :=
  match c with Some c => c ← validateRunCounters c; Ok (Some c) | None => Ok None end.

Definition markRunFailed (runId finishedAt errorCode : value) (counters : option CallAuditRunCounters)
    : act control_error RunTransitionResult :=
  runId ← sync (requireRunId runId);
  finishedAt ← sync (requireNaiveDatetime finishedAt RUN_ENTITY "finishedAt");
  code ← sync (requireErrorCode errorCode "errorCode");
  counters ← sync (validate_optional_counters counters);
  finish runId "failed" finishedAt (Some code) counters.

Definition markRunCancelled (runId finishedAt errorCode : value) (counters : option CallAuditRunCounters)
    : act control_error RunTransitionResult :=
  runId ← sync (requireRunId runId);
  finishedAt ← sync (requireNaiveDatetime finishedAt RUN_ENTITY "finishedAt");
  code ← sync match errorCode with
              | VNull | VUndefined => Ok None
              | v => c ← requireErrorCode v "errorCode"; Ok (Some c)
              end;
  counters ← sync (validate_optional_counters counters);
  finish runId "cancelled" finishedAt code counters.
End Control.
