(* ===== verification/CallRuleStore.v ===== *)
(** * Stored rule versions

    The rule-version half of [src/adapters/mysqlCallAuditControl.ts]: an activation snapshot is
    checked again before it is written, written once, and activated by retiring the version
    that was active. *)

From Stdlib Require Import Ascii.
From S2P Require Import Prelude JsNumber JsText Regex CanonicalJson Sql KserveRules Scoring ModelOutput SourceRevision ResultRecords Prog CallRules CallStore CallPersistence CallModel CallControl.

Local Open Scope string_scope.
Local Open Scope list_scope.
#[global] Open Scope Z_scope.

Section RuleVersions.
Context `{Platform, Collation, Storage, JsonParser}.

Definition RULE_VERSION_ENTITY : string := "ruleVersion".
Definition RULE_VERSION_ID_PREFIX : string := "crv_".

Record CallAuditRuleVersionLifecycle : Type := Lifecycle {
  lc_status : string;
  lc_createdBy : value;
  lc_changeReason : value;
  lc_activatedBy : value;
  lc_activatedAt : value;
  lc_retiredBy : value;
  lc_retiredAt : value;
}.

Record ValidatedLifecycle : Type := ValidLifecycle {
  vl_status : string;
  vl_createdBy : option string;
  vl_changeReason : option string;
  vl_activatedBy : option string;
  vl_activatedAt : option string;
  vl_retiredBy : option string;
  vl_retiredAt : option string;
}.

Definition rule_refused (field reason : string) : control_error := ControlError RULE_VERSION_ENTITY field reason.

(** [a < b] for the two stamps of a retired version. *)
Definition precedes (a b : option string) : bool :=
  match a, b with Some a, Some b => str_ltb a b | _, _ => false end.

Definition validateRuleVersionLifecycle (l : CallAuditRuleVersionLifecycle) : controlled ValidatedLifecycle :=
  throw_if (negb (bool_decide (lc_status l ∈ RULE_VERSION_STATUSES)))
    (rule_refused "status" ("must be one of " +:+ join_with ", " RULE_VERSION_STATUSES)) ≫= fun _ =>
  createdBy ← optionalIdentifier (lc_createdBy l) RULE_VERSION_ENTITY "createdBy" MAX_ACTOR_ID_LENGTH;
  changeReason ← optionalNote (lc_changeReason l) RULE_VERSION_ENTITY "changeReason" MAX_CHANGE_REASON_LENGTH;
  activatedBy ← optionalIdentifier (lc_activatedBy l) RULE_VERSION_ENTITY "activatedBy" MAX_ACTOR_ID_LENGTH;
  activatedAt ← optionalNaiveDatetime (lc_activatedAt l) RULE_VERSION_ENTITY "activatedAt";
  retiredBy ← optionalIdentifier (lc_retiredBy l) RULE_VERSION_ENTITY "retiredBy" MAX_ACTOR_ID_LENGTH;
  retiredAt ← optionalNaiveDatetime (lc_retiredAt l) RULE_VERSION_ENTITY "retiredAt";
  (if String.eqb (lc_status l) "draft"
   then throw_if (bool_decide (is_Some activatedAt) || bool_decide (is_Some activatedBy))
          (rule_refused "activatedAt" "must be absent on a draft")
   else throw_if (negb (bool_decide (is_Some activatedAt)))
          (rule_refused "activatedAt" "is required once a version has been activated")) ≫= fun _ =>
  (if String.eqb (lc_status l) "retired"
   then
     throw_if (negb (bool_decide (is_Some retiredAt))) (rule_refused "retiredAt" "is required on a retired version") ≫= fun _ =>
     throw_if (precedes retiredAt activatedAt) (rule_refused "retiredAt" "must not precede activatedAt")
   else throw_if (bool_decide (is_Some retiredAt) || bool_decide (is_Some retiredBy))
          (rule_refused "retiredAt" "must be absent unless the version is retired")) ≫= fun _ =>
  Ok (ValidLifecycle (lc_status l) createdBy changeReason activatedBy activatedAt retiredBy retiredAt).

Definition contract_version (text field : string) : controlled string :=
  control_identifier (VStr text) RULE_VERSION_ENTITY field MAX_CONTRACT_VERSION_LENGTH.

Definition drafted {A} (r : ruled A) : controlled A :=
  match r with Ok a => Ok a | Throw e => Throw (ControlDraft e) end.

Definition validateRuleActivationSnapshot (a : CallAuditRuleActivation) : controlled CallAuditRuleActivation :=
  settings ← drafted (validateRuleDraft (settings_value (act_settings a)));
  promptSha ← requireSha256 (promptSha256 a) RULE_VERSION_ENTITY "promptSha256";
  throw_if (negb (String.eqb promptSha (businessPromptSha256 (businessPrompt settings))))
    (rule_refused "promptSha256" "does not match the business prompt it claims to cover") ≫= fun _ =>
  throw_if (String.eqb (scoringConfigJson a) "")
    (rule_refused "scoringConfigJson" "must be a non-empty canonical JSON string") ≫= fun _ =>
  throw_if (negb (bool_decide (is_Some (jsonParse (scoringConfigJson a)))))
    (rule_refused "scoringConfigJson" "must be valid JSON") ≫= fun _ =>
  configSha ← requireSha256 (configSha256 a) RULE_VERSION_ENTITY "configSha256";
  throw_if (negb (String.eqb configSha (sha256Hex (scoringConfigJson a))))
    (rule_refused "configSha256" "does not match the scoring configuration it claims to cover") ≫= fun _ =>
  label ← control_identifier (VStr (versionLabel settings)) RULE_VERSION_ENTITY "versionLabel" MAX_VERSION_LABEL_LENGTH;
  temperature ← drafted (normalizeTemperature (VStr (temperature settings)));
  schema ← contract_version (outputSchemaVersion a) "outputSchemaVersion";
  taxonomy ← contract_version (taxonomyVersion a) "taxonomyVersion";
  scoring ← contract_version (scoringConfigVersion a) "scoringConfigVersion";
  contract ← contract_version (ruleContractVersion a) "ruleContractVersion";
  Ok (Activation (Settings label (businessPrompt settings) (modelProvider settings) (rule_modelName settings)
                    (rule_modelVersion settings) temperature)
        promptSha schema taxonomy scoring contract (scoringConfigJson a) configSha).

Definition buildRuleVersionId (a : CallAuditRuleActivation) : string :=
  RULE_VERSION_ID_PREFIX +:+ str_take ID_HASH_LENGTH (sha_of (JObj [
    ("versionLabel", JStr (versionLabel (act_settings a))); ("promptSha256", JStr (promptSha256 a));
    ("configSha256", JStr (configSha256 a))])).

(** [RULE_VERSION_COLUMNS] with [ruleVersionValues]. *)
Definition ruleVersionValues (a : CallAuditRuleActivation) (l : ValidatedLifecycle) : row :=
  let s := act_settings a in
  [("id", CText (buildRuleVersionId a)); ("version_label", CText (versionLabel s)); ("status", CText (vl_status l));
   ("business_prompt", CText (businessPrompt s)); ("prompt_sha256", CText (promptSha256 a));
   ("model_provider", CText (modelProvider s)); ("model_name", CText (rule_modelName s));
   ("model_version", CText (rule_modelVersion s)); ("temperature", CText (temperature s));
   ("rule_contract_version", CText (ruleContractVersion a)); ("output_schema_version", CText (outputSchemaVersion a));
   ("taxonomy_version", CText (taxonomyVersion a)); ("scoring_config_version", CText (scoringConfigVersion a));
   ("scoring_config_json", CText (scoringConfigJson a)); ("config_sha256", CText (configSha256 a));
   ("change_reason", cell_text (vl_changeReason l)); ("created_by", cell_text (vl_createdBy l));
   ("activated_by", cell_text (vl_activatedBy l)); ("activated_at", cell_text (vl_activatedAt l));
   ("retired_by", cell_text (vl_retiredBy l)); ("retired_at", cell_text (vl_retiredAt l))].

Definition RULE_VERSION_DATETIMES : list string := ["activated_at"; "retired_at"].

Definition RULE_VERSION_TEXT_COLUMNS : list string :=
  ["id"; "version_label"; "status"; "business_prompt"; "prompt_sha256"; "model_provider"; "model_name"; "model_version";
   "temperature"; "rule_contract_version"; "output_schema_version"; "taxonomy_version"; "scoring_config_version";
   "scoring_config_json"; "config_sha256"; "change_reason"; "created_by"; "activated_by"; "retired_by"].

Definition ruleVersionConflictField (existing : row) (a : CallAuditRuleActivation) (l : ValidatedLifecycle) : option string :=
  first_difference (
    map (fun c => text_check existing c (column (ruleVersionValues a l) c)) RULE_VERSION_TEXT_COLUMNS ++
    [datetime_check existing "activated_at" (cell_text (vl_activatedAt l));
     datetime_check existing "retired_at" (cell_text (vl_retiredAt l))]).

(** The rows that share the id or the label; there is one, or it is a conflict. *)
Definition assertRuleVersionMatches (rows : list row) (a : CallAuditRuleActivation) (l : ValidatedLifecycle) : controlled unit :=
  throw_if (1 <? Z.of_nat (length rows)) (ControlConflict RULE_VERSION_ENTITY "version_label") ≫= fun _ =>
  control_conflict RULE_VERSION_ENTITY (ruleVersionConflictField (default [] (head rows)) a l).

Definition select_rule_versions (id label : string) (d : tables) : list row :=
  where_ (fun r => column_is "id" id r || column_is "version_label" label r) (rule_versions d).
Definition select_active (d : tables) : list row := where_ (column_is "status" "active") (rule_versions d).

Definition insert_rule_version (a : CallAuditRuleActivation) (l : ValidatedLifecycle) (d : tables)
    : Prelude.result sql_error (unit * tables) :=
  t ← insert_unique (clashes RULE_VERSION_KEYS) (stored RULE_VERSION_DATETIMES (ruleVersionValues a l)) (rule_versions d);
  Ok (tt, with_rule_versions t d).

Definition write_rule_version_body (a : CallAuditRuleActivation) (l : ValidatedLifecycle)
    : Sql tables control_error (TransactionOutcome insert_outcome) :=
  rows ← on_connection (select (select_rule_versions (buildRuleVersionId a) (versionLabel (act_settings a))));
  match rows with
  | _ :: _ => lift (assertRuleVersionMatches rows a l) ≫= fun _ => mret (Outcome false replayed)
  | [] =>
      (if String.eqb (vl_status l) "active"
       then
         active ← on_connection (select (fun d =>
                    where_ (fun r => negb (column_is "id" (buildRuleVersionId a) r)) (select_active d)));
         lift (throw_if (negb (bool_decide (active = [])))
           (rule_refused "status" "another rule version is already active; retire it first"))
       else mret tt) ≫= fun _ =>
      on_connection (insert_rule_version a l) ≫= fun _ => mret (Outcome true inserted)
  end.

Definition saveRuleVersionSnapshot (a : CallAuditRuleActivation) (l : CallAuditRuleVersionLifecycle)
    : act control_error (string * insert_outcome) :=
  a ← sync (validateRuleActivationSnapshot a);
  l ← sync (validateRuleVersionLifecycle l);
  let id := buildRuleVersionId a in
  catch (await (Transaction (locked (write_rule_version_body a l))) ≫= fun outcome => mret (id, outcome)) (fun e =>
    if negb (is_duplicate e) then sync (Throw e)
    else
      raced ← control_execute (select (select_rule_versions id (versionLabel (act_settings a))));
      match raced with
      | [] => sync (Throw e)
      | _ :: _ => sync (assertRuleVersionMatches raced a l) ≫= fun _ => mret (id, replayed)
      end).

Record ActivateRuleVersionInput : Type := ActivateInput {
  ai_ruleVersionId : value;
  ai_activatedBy : value;
  ai_activatedAt : value;
  ai_requiredConfigSha256 : string;
}.

Definition update_rule_version (id : string) (statuses : list string) (sets : row) (d : tables) : tables :=
  with_rule_versions (update_where (fun r => column_is "id" id r && status_in statuses r)
    (set_columns (stored RULE_VERSION_DATETIMES sets)) (rule_versions d)).2 d.

Definition retire_columns (by_ : option string) (at_ : string) : row :=
  [("status", CText "retired"); ("retired_by", cell_text by_); ("retired_at", CText at_)].
Definition activate_columns (by_ : option string) (at_ : string) : row :=
  [("status", CText "active"); ("activated_by", cell_text by_); ("activated_at", CText at_);
   ("retired_by", CNull); ("retired_at", CNull)].

(** Whether the version was activated, or already active. *)
Definition switch_body (id : string) (activatedBy : option string) (activatedAt requiredConfig : string)
    : Sql tables control_error (TransactionOutcome bool) :=
  activeRows ← on_connection (select select_active);
  lift (throw_if (1 <? Z.of_nat (length activeRows))
    (rule_refused "status" "multiple active versions require operator repair")) ≫= fun _ =>
  target ← on_connection (select (fun d => first_row (column_is "id" id) (rule_versions d)));
  match target with
  | None => lift (Throw (rule_refused "ruleVersionId" "does not exist"))
  | Some target =>
      lift (throw_if (negb (bool_decide (textOrNull (column target "config_sha256") = Some requiredConfig)))
        (rule_refused "configSha256" "does not match the locked contract compiled by this build")) ≫= fun _ =>
      let currentId := r ← head activeRows; textOrNull (column r "id") in
      if bool_decide (currentId = Some id) then mret (Outcome false false)
      else
        let targetStatus := textOrNull (column target "status") in
        lift (throw_if (negb (bool_decide (targetStatus = Some "draft") || bool_decide (targetStatus = Some "retired")))
          (rule_refused "status" "must be draft or retired before activation")) ≫= fun _ =>
        match currentId with
        | Some current =>
            if String.eqb current "" then mret tt
            else on_connection (fun d => Ok (tt, update_rule_version current ["active"]
                   (retire_columns activatedBy activatedAt) d))
        | None => mret tt
        end ≫= fun _ =>
        on_connection (fun d => Ok (tt, update_rule_version id ["draft"; "retired"]
          (activate_columns activatedBy activatedAt) d)) ≫= fun _ =>
        mret (Outcome true true)
  end.

Definition switchRuleVersion (i : ActivateRuleVersionInput) : act control_error (string * bool) :=
  id ← sync (control_identifier (ai_ruleVersionId i) RULE_VERSION_ENTITY "ruleVersionId" MAX_ID_LENGTH);
  activatedBy ← sync (optionalIdentifier (ai_activatedBy i) RULE_VERSION_ENTITY "activatedBy" MAX_ACTOR_ID_LENGTH);
  activatedAt ← sync (requireNaiveDatetime (ai_activatedAt i) RULE_VERSION_ENTITY "activatedAt");
  requiredConfig ← sync (requireSha256 (ai_requiredConfigSha256 i) RULE_VERSION_ENTITY "requiredConfigSha256");
  activated ← await (Transaction (locked (switch_body id activatedBy activatedAt requiredConfig)));
  mret (id, activated).

Definition activateRuleVersion : ActivateRuleVersionInput → act control_error (string * bool) := switchRuleVersion.
End RuleVersions.

(** ** Facts *)

Section RuleVersionFacts.
Context `{P : Platform, L : !PlatformLaws P, JP : JsonParser}.

Lemma sha256Hex_accepted s entity field : requireSha256 (sha256Hex s) entity field = Ok (sha256Hex s).
Proof.
  unfold requireSha256, SHA256_HEX. destruct (sha256Hex_shape s) as [Hl Hh]. unfold len. rewrite Hl.
  assert (str_forallb is_lower_hex (sha256Hex s) = true) as -> by exact Hh. done.
Qed.

(** The identifiers of the draft are identifiers of the store. *)
Lemma identifier_accepted v field max entity field' t :
  requireIdentifier v field max = Ok t → control_identifier (VStr t) entity field' max = Ok t.
Proof.
  intros (s & -> & Ht & Hne & Hm & Hc)%requireIdentifier_Ok. unfold control_identifier.
  assert (trim t = t) as -> by (by rewrite Ht, trim_trim).
  rewrite bool_decide_eq_false_2 by done. rewrite Hc, (proj2 (Z.ltb_ge _ _)) by done. done.
Qed.

(** What [buildRuleActivation] makes of a draft is a snapshot the store takes as it is: the
    hashes cover the prompt and the configuration they come with, and nothing is trimmed or
    reformatted on the way. *)
Theorem built_activation_accepted draft a :
  buildRuleActivation draft = Ok a → is_Some (jsonParse (scoringConfigJson a)) →
  validateRuleActivationSnapshot a = Ok a.
Proof.
  intros (s & Hs & ->)%buildRuleActivation_Ok Hparse. cbn [scoringConfigJson] in Hparse.
  pose proof (validateRuleDraft_fixed _ _ Hs) as Hfix.
  destruct draft; try discriminate Hs.
  apply validateRuleDraft_Ok in Hs as (H1 & _ & _ & _ & _ & H6).
  pose proof (identifier_accepted _ _ _ RULE_VERSION_ENTITY "versionLabel" _ H1) as H1'.
  pose proof (normalizeTemperature_fixed _ _ H6) as H6'.
  unfold validateRuleActivationSnapshot.
  cbn [act_settings promptSha256 scoringConfigJson configSha256 outputSchemaVersion taxonomyVersion scoringConfigVersion ruleContractVersion].
  rewrite Hfix. cbn [drafted mbind result_bind]. rewrite sha256Hex_accepted. cbn [mbind result_bind].
  unfold businessPromptSha256. rewrite String.eqb_refl. cbn [negb throw_if mbind result_bind].
  revert Hparse. change (String.eqb (print (norm buildScoringConfigDocument)) "") with false. cbn [throw_if mbind result_bind].
  generalize (print (norm buildScoringConfigDocument)). intros text Hparse.
  rewrite bool_decide_eq_true_2 by done. cbn [negb throw_if mbind result_bind]. rewrite sha256Hex_accepted.
  cbn [mbind result_bind]. rewrite String.eqb_refl. cbn [negb throw_if mbind result_bind].
  rewrite H1'. cbn [mbind result_bind]. rewrite H6'. cbn [drafted mbind result_bind]. by destruct s.
Qed.
End RuleVersionFacts.
