(* ===== verification/CallBatch.v ===== *)
(** * Running a batch

    [src/callaudit/batchRunner.ts]: one bounded run over one period. The run is created or
    replayed, claimed, read page by page, each candidate handed to the processor, and settled
    into one terminal state; what fails is known by the phase it was reached in. *)

From Stdlib Require Import Ascii.
From S2P Require Import Prelude JsNumber JsText CanonicalJson Sql Scoring SourceRevision ResultRecords Prog CallRules CallStore CallPersistence CallModel CallProcessor CallControl.

Local Open Scope string_scope.
Local Open Scope list_scope.
#[global] Open Scope Z_scope.

(** ** Errors and codes *)

Inductive RunPhase : Type := phase_claim | phase_source | phase_candidate | phase_progress | phase_completion.

Definition PHASE_ERROR_CODES (p : RunPhase) : string :=
  match p with
  | phase_claim => "CALL_AUDIT_RUN_CLAIM_FAILED"
  | phase_source => "CALL_AUDIT_RUN_SOURCE_READ_FAILED"
  | phase_candidate => "CALL_AUDIT_RUN_CANDIDATE_FAILED"
  | phase_progress => "CALL_AUDIT_RUN_PROGRESS_FAILED"
  | phase_completion => "CALL_AUDIT_RUN_COMPLETION_FAILED"
  end.

(** A [CallAuditBatchRunError] by its code and field, or what the supplier of timestamps threw. *)
Inductive batch_error : Type :=
| InvalidInput (field : string)
| CreateFailed
| FailureNotRecorded (failureCode : string)
| SupplierThrew.

Definition MAX_RUN_PAGES : Z := 10000.

(** ** Input *)

Inductive CallAuditRunTimestamps : Type :=
| NowSupplier
| FixedTimestamps (startedAt auditedAt recordedAt finishedAt : value).

(** The ports are the ones modelled here; the pause gate may be absent. *)
Record RunCallAuditBatchInput : Type := BatchInput {
  bi_request : CallAuditRunRequest;
  bi_ruleVersionId : value;
  bi_activation : ValidatedRuleSettings;
  bi_periodStart : value;
  bi_periodEndExclusive : value;
  bi_batchSize : value;
  bi_maxPages : value;
  bi_maxCandidates : value;
  bi_timestamps : CallAuditRunTimestamps;
  bi_shouldContinue : bool;
}.

Definition batch_text (v : value) (field : string) : Prelude.result batch_error string :=
  match v with
  | VStr s => throw_if (blank s) (InvalidInput field) ≫= fun _ => Ok s
  | _ => Throw (InvalidInput field)
  end.

Definition optionalLimit (v : value) (field : string) : Prelude.result batch_error (option Z) :=
  match v with
  | VNull | VUndefined => Ok None
  | v => match safe_integer v with
         | Some z => if z <? 1 then Throw (InvalidInput field) else Ok (Some z)
         | None => Throw (InvalidInput field)
         end
  end.

Definition checkTimestamp (v : value) (field : string) : Prelude.result batch_error string :=
  text ← batch_text v field;
  match validateCallAuditTimestamp (VStr text) field with
  | Ok _ => Ok text
  | Throw _ => Throw (InvalidInput field)
  end.

(** ** Time *)

(** A getter of one of the four stamps: the supplier asked again, or the fixed text. *)
Inductive stamp : Type := Ask | Fixed (text : string).

Definition read_stamp (s : stamp) : act batch_error string :=
  match s with
  | Fixed text => mret text
  | Ask => Do SupplyTimestamp (fun v =>
      Ret match v with
          | None => Throw SupplierThrew
          | Some v => checkTimestamp v "timestamps.now"
          end)
  end.

Record ResolvedTimestamps : Type := Stamps {
  at_started : stamp; at_audited : stamp; at_recorded : stamp; at_finished : stamp }.

Definition resolveTimestamps (t : CallAuditRunTimestamps) : act batch_error ResolvedTimestamps :=
  match t with
  | NowSupplier => read_stamp Ask ≫= fun _ => mret (Stamps Ask Ask Ask Ask)
  | FixedTimestamps s a r f =>
      s ← sync (checkTimestamp s "timestamps.startedAt");
      a ← sync (checkTimestamp a "timestamps.auditedAt");
      r ← sync (checkTimestamp r "timestamps.recordedAt");
      f ← sync (checkTimestamp f "timestamps.finishedAt");
      mret (Stamps (Fixed s) (Fixed a) (Fixed r) (Fixed f))
  end.

(** ** Tally *)

Record RunTally : Type := Tally {
  candidatesSelected : Z;
  processedTotal : Z;
  succeededTotal : Z;
  failedTotal : Z;
  skippedTotal : Z;
  operationalOnlyTotal : Z;
  contentAuditedTotal : Z;
  duplicateSuppressedTotal : Z;
}.

Definition emptyTally : RunTally := Tally 0 0 0 0 0 0 0 0.

Definition one_if (b : bool) : Z := if b then 1 else 0.

Definition tallySummary (t : RunTally) (s : CallAuditProcessingSummary) : RunTally :=
  let has st := bool_decide (sum_status s = st) in
  let operational := bool_decide (sum_eligibility s = operational_only) in
  Tally (candidatesSelected t) (processedTotal t + 1)
    (succeededTotal t + one_if (has succeeded)) (failedTotal t + one_if (has failed))
    (skippedTotal t + one_if (has skipped)) (operationalOnlyTotal t + one_if operational)
    (contentAuditedTotal t + one_if (negb operational && has succeeded))
    (duplicateSuppressedTotal t + one_if (bool_decide (is_Some (spendSkipCode s)))).

Definition select_page (t : RunTally) (n : Z) : RunTally :=
  Tally (candidatesSelected t + n) (processedTotal t) (succeededTotal t) (failedTotal t) (skippedTotal t)
    (operationalOnlyTotal t) (contentAuditedTotal t) (duplicateSuppressedTotal t).

Definition countersOf (t : RunTally) : CallAuditRunCounters :=
  Counters (candidatesSelected t) (processedTotal t) (succeededTotal t) (failedTotal t) (skippedTotal t)
    (contentAuditedTotal t) (operationalOnlyTotal t).

(** ** The run *)

Inductive CallAuditRunStopReason : Type := exhausted | page_limit | candidate_limit | paused | stop_failed.

#[export] Instance CallAuditRunStopReason_eq_dec : EqDecision CallAuditRunStopReason.
Proof. solve_decision. Defined.

Record CallAuditBatchRunSummary : Type := RunSummary {
  rs_runId : string;
  rs_createOutcome : insert_outcome;
  rs_completed : bool;
  rs_failureCode : option string;
  rs_stopReason : CallAuditRunStopReason;
  rs_pagesRead : Z;
  rs_tally : RunTally;
}.

(** What the [catch] of the run finds: the phase, the tally and the pages read so far. *)
Record run_failure : Type := RunFailure { rf_phase : RunPhase; rf_tally : RunTally; rf_pages : Z }.

Definition within_phase {E A} (p : RunPhase) (t : RunTally) (pages : Z) (m : act E A) : act run_failure A :=
  rethrow (fun _ => RunFailure p t pages) m.

Section Batch.
Context `{Platform, Collation, Storage, JsonParser}.

(** The checked input of a run. *)
Record run_plan : Type := RunPlan {
  rp_query : ValidatedSourceCandidateQuery;
  rp_ruleVersionId : string;
  rp_activation : ValidatedRuleSettings;
  rp_maxPages : Z;
  rp_maxCandidates : option Z;
  rp_gate : bool;
}.

Definition process_input (plan : run_plan) (runId : string) (candidate : InternalSourceCandidate)
    (auditedAt recordedAt : string) : ProcessCallAuditCandidateInput :=
  ProcessInput runId (rp_ruleVersionId plan) (rp_activation plan) candidate (VNum 1 0) (VStr auditedAt) (VStr recordedAt).

Definition ask_gate (plan : run_plan) : act unit bool :=
  if rp_gate plan
  then Do ShouldContinue (fun answer => Ret match answer with Some b => Ok b | None => Throw tt end)
  else mret true.

(** The candidates of a page, in order; the phase is the one a failing gate is charged to. *)
Fixpoint process_page (plan : run_plan) (clock : ResolvedTimestamps) (runId : string) (pages : Z)
    (phase : RunPhase) (t : RunTally) (page : list InternalSourceCandidate)
    : act run_failure (RunTally * CallAuditRunStopReason) :=
  match page with
  | [] => mret (t, exhausted)
  | candidate :: page =>
      go ← within_phase phase t pages (ask_gate plan);
      if negb go then mret (t, paused)
      else
        auditedAt ← within_phase phase_candidate t pages (read_stamp (at_audited clock));
        recordedAt ← within_phase phase_candidate t pages (read_stamp (at_recorded clock));
        summary ← within_phase phase_candidate t pages
          (processCallAuditCandidate (process_input plan runId candidate auditedAt recordedAt));
        let t := tallySummary t summary in
        if match rp_maxCandidates plan with Some max => max <=? processedTotal t | None => false end
        then mret (t, candidate_limit)
        else process_page plan clock runId pages phase_candidate t page
  end.

Definition read_page (q : ValidatedSourceCandidateQuery) (cursor : option SourceCandidateCursor)
    : act unit (list InternalSourceCandidate) :=
  Do (ListCandidates (PageQuery (v_periodStart q) (v_periodEndExclusive q) (v_batchSize q) cursor))
    (fun answer => Ret match answer with Some page => Ok page | None => Throw tt end).

(** [while (pagesRead < maxPages)], with the pages left to read. *)
Fixpoint read_pages (remaining : nat) (plan : run_plan) (clock : ResolvedTimestamps) (runId : string)
    (cursor : option SourceCandidateCursor) (pages : Z) (t : RunTally)
    : act run_failure (RunTally * Z * CallAuditRunStopReason) :=
  match remaining with
  | O => mret (t, pages, exhausted)
  | S remaining =>
      page ← within_phase phase_source t pages (read_page (rp_query plan) cursor);
      let pages := pages + 1 in
      match page with
      | [] => mret (t, pages, exhausted)
      | _ =>
          let size := Z.of_nat (length page) in
          '(t, stop) ← process_page plan clock runId pages phase_source (select_page t size) page;
          within_phase phase_progress t pages (updateRunCounters (VStr runId) (countersOf t)) ≫= fun _ =>
          if bool_decide (stop = candidate_limit) || bool_decide (stop = paused) then mret (t, pages, stop)
          else if size <? v_batchSize (rp_query plan) then mret (t, pages, exhausted)
          else match remaining with
               | O => mret (t, pages, page_limit)
               | S _ => read_pages remaining plan clock runId (nextSourceCandidateCursor page) pages t
               end
      end
  end.

Definition settleFailedRun (runId : string) (created : insert_outcome) (clock : ResolvedTimestamps) (f : run_failure)
    : act batch_error CallAuditBatchRunSummary :=
  let code := PHASE_ERROR_CODES (rf_phase f) in
  catch
    (finishedAt ← rethrow (fun _ => tt) (read_stamp (at_finished clock));
     rethrow (fun _ => tt) (markRunFailed (VStr runId) (VStr finishedAt) (VStr code) (Some (countersOf (rf_tally f)))) ≫= fun _ =>
     mret (RunSummary runId created false (Some code) stop_failed (rf_pages f) (rf_tally f)))
    (fun _ => sync (Throw (FailureNotRecorded code))).

Definition run_body (plan : run_plan) (clock : ResolvedTimestamps) (runId : string) (created : insert_outcome)
    : act run_failure CallAuditBatchRunSummary :=
  startedAt ← within_phase phase_claim emptyTally 0 (read_stamp (at_started clock));
  within_phase phase_claim emptyTally 0 (markRunRunning (VStr runId) (VStr startedAt)) ≫= fun _ =>
  '(t, pages, stop) ← read_pages (Z.to_nat (rp_maxPages plan)) plan clock runId None 0 emptyTally;
  finishedAt ← within_phase phase_completion t pages (read_stamp (at_finished clock));
  within_phase phase_completion t pages (markRunCompleted (VStr runId) (VStr finishedAt) (countersOf t)) ≫= fun _ =>
  mret (RunSummary runId created true None stop pages t).

Definition plan_run (b : RunCallAuditBatchInput) : Prelude.result batch_error run_plan :=
  rule ← batch_text (bi_ruleVersionId b) "ruleVersionId";
  throw_if (match rq_ruleVersionId (bi_request b) with VStr s => negb (String.eqb s rule) | _ => true end)
    (InvalidInput "ruleVersionId") ≫= fun _ =>
  match validateSourceCandidateQuery (Query (bi_periodStart b) (bi_periodEndExclusive b) (bi_batchSize b) None) with
  | Throw _ => Throw (InvalidInput "sourceWindow")
  | Ok query =>
      maxPages ← optionalLimit (bi_maxPages b) "maxPages";
      maxCandidates ← optionalLimit (bi_maxCandidates b) "maxCandidates";
      Ok (RunPlan query rule (bi_activation b) (Z.min (default MAX_RUN_PAGES maxPages) MAX_RUN_PAGES) maxCandidates
            (bi_shouldContinue b))
  end.

Definition runCallAuditBatch (b : RunCallAuditBatchInput) : act batch_error CallAuditBatchRunSummary :=
  plan ← sync (plan_run b);
  clock ← resolveTimestamps (bi_timestamps b);
  '(runId, created) ← rethrow (fun _ => CreateFailed) (createRun (bi_request b));
  catch (run_body plan clock runId created) (settleFailedRun runId created clock).
End Batch.
