(* ===== verification/CallWorld.v ===== *)
(** * What every audit job keeps

    The invariant of the tables and of the record of what was paid, the guarantee every job
    gives to the others, what a job may therefore rely on between two of its operations, and
    the rules its operations are verified with. *)

From S2P Require Import Prelude JsText Sql Scoring SourceRevision ResultRecords Prog CallStore CallPersistence CallControl CallRuleStore.

Local Open Scope string_scope.
Local Open Scope list_scope.
#[global] Open Scope Z_scope.

(** The collation of the status columns tells the words of their vocabularies apart. *)
Definition STATUS_WORDS : list string := RUN_STATUSES ++ RULE_VERSION_STATUSES.

Class StatusWords `(Collation) : Prop :=
  status_words a b : a ∈ STATUS_WORDS → b ∈ STATUS_WORDS → sql_eq a b = true → a = b.

(** ** Columns of rows *)

Definition columns_of (r : row) : list string := map fst r.

Lemma column_set_columns sets r c :
  column (set_columns sets r) c =
  match List.find (fun q => String.eqb q.1 c) sets with
  | Some q => if bool_decide (c ∈ columns_of r) then q.2 else CNull
  | None => column r c
  end.
Proof.
  unfold set_columns. induction r as [|[k v] r IH]; cbn.
  - destruct (List.find _ sets); [|done]. by rewrite bool_decide_eq_false_2 by apply not_elem_of_nil.
  - destruct (String.eqb_spec k c) as [->|Hkc].
    + destruct (List.find (fun q => String.eqb q.1 c) sets); [|done].
      by rewrite bool_decide_eq_true_2 by left.
    + rewrite IH. destruct (List.find _ sets); [|done].
      rewrite (bool_decide_ext (c ∈ k :: columns_of r) (c ∈ columns_of r)); [done|].
      rewrite elem_of_cons. naive_solver.
Qed.

Lemma columns_set_columns sets r : columns_of (set_columns sets r) = columns_of r.
Proof. unfold columns_of, set_columns. by rewrite map_map. Qed.

Lemma columns_stored `{Storage} l r : columns_of (stored l r) = columns_of r.
Proof. unfold columns_of, stored. by rewrite map_map. Qed.

Lemma column_is_text `{Collation} c v r s : column r c = CText s → column_is c v r = sql_eq s v.
Proof. unfold column_is. by intros ->. Qed.

Lemma column_is_inv `{Collation} c v r : column_is c v r = true → ∃ s, column r c = CText s ∧ sql_eq s v = true.
Proof. unfold column_is. destruct (column r c); naive_solver. Qed.

Lemma first_row_Some P t r : first_row P t = Some r → r ∈ t ∧ P r = true.
Proof.
  unfold first_row. destruct (where_ P t) as [|x l] eqn:E; [done|]. cbn. intros [= ->].
  assert (r ∈ where_ P t) as [? ?]%elem_of_where by (rewrite E; left). done.
Qed.

Lemma first_row_None P t r : first_row P t = None → r ∈ t → P r = false.
Proof.
  unfold first_row. destruct (where_ P t) as [|x l] eqn:E; [|done]. intros _. by apply where_nil.
Qed.

(** ** Runs *)

(** The columns that say which run it is. *)
Definition RUN_IDENTITY : list string :=
  ["id"; "rule_version_id"; "run_type"; "period_start"; "period_end_exclusive"; "period_timezone"; "correlation_id";
   "idempotency_key"; "triggered_by"; "scheduled_at"].

Definition RUN_COLUMNS : list string :=
  ["id"; "rule_version_id"; "run_type"; "period_start"; "period_end_exclusive"; "period_timezone"; "status";
   "total_candidates"; "processed_count"; "succeeded_count"; "failed_count"; "skipped_count";
   "content_auditable_count"; "operational_only_count"; "correlation_id"; "idempotency_key"; "triggered_by";
   "error_code"; "scheduled_at"; "started_at"; "finished_at"].

(** Pending before running before settled. *)
Definition status_rank (status : string) : nat :=
  if String.eqb status "pending" then 0 else if String.eqb status "running" then 1 else 2.

Lemma status_rank_pending s : status_rank s = 0%nat ↔ s = "pending".
Proof. unfold status_rank. destruct (String.eqb_spec s "pending"), (String.eqb_spec s "running"); naive_solver. Qed.

(** What becomes of the row of a run: its identity stays, its status never goes back, the
    start is written once, and a settled row is not touched. *)
Record run_le (r r' : row) : Prop := RunLe {
  le_identity : Forall (fun c => column r' c = column r c) RUN_IDENTITY;
  le_status : (status_rank (runStatusOf r) ≤ status_rank (runStatusOf r'))%nat;
  le_started : runStatusOf r ≠ "pending" → column r' "started_at" = column r "started_at";
  le_settled : isTerminal (runStatusOf r) = true → r' = r;
}.

#[export] Instance run_le_preorder : PreOrder run_le.
Proof.
  split.
  - intros r. split; [by apply Forall_true|done..].
  - intros a b c [H1 H2 H3 H4] [K1 K2 K3 K4]. split.
    + rewrite Forall_forall in *. intros x Hx. by rewrite K1, H1.
    + lia.
    + intros Ha. rewrite K3, H3; [done|done|]. intros Hb. apply Ha, status_rank_pending.
      apply status_rank_pending in Hb. lia.
    + intros Ha. specialize (H4 Ha) as ->. by apply K4.
Qed.

(** The table: every row moves on so, rows are only added. *)
Definition runs_le : relation (list row) := table_le run_le.

#[export] Instance runs_le_preorder : PreOrder runs_le.
Proof. unfold runs_le. apply _. Qed.

Lemma runs_le_lookup t t' r : runs_le t t' → r ∈ t → ∃ r', r' ∈ t' ∧ run_le r r'.
Proof. apply table_le_lookup. Qed.

(** ** Rule versions *)

Definition RULE_VERSION_COLUMNS : list string :=
  ["id"; "version_label"; "status"; "business_prompt"; "prompt_sha256"; "model_provider"; "model_name"; "model_version";
   "temperature"; "rule_contract_version"; "output_schema_version"; "taxonomy_version"; "scoring_config_version";
   "scoring_config_json"; "config_sha256"; "change_reason"; "created_by"; "activated_by"; "activated_at"; "retired_by";
   "retired_at"].

(** The columns a rule version is written with once. *)
Definition RULE_VERSION_CONTENT : list string :=
  ["id"; "version_label"; "business_prompt"; "prompt_sha256"; "model_provider"; "model_name"; "model_version";
   "temperature"; "rule_contract_version"; "output_schema_version"; "taxonomy_version"; "scoring_config_version";
   "scoring_config_json"; "config_sha256"; "change_reason"; "created_by"].

Definition rule_le (r r' : row) : Prop := Forall (fun c => column r' c = column r c) RULE_VERSION_CONTENT.


#[export] Instance rule_le_preorder : PreOrder rule_le.
Proof.
  split; [intros r; by apply Forall_true|].
  intros a b c H1 H2. unfold rule_le in *. rewrite Forall_forall in *. intros x Hx. by rewrite H2, H1.
Qed.

Definition rules_le : relation (list row) := table_le rule_le.

#[export] Instance rules_le_preorder : PreOrder rules_le.
Proof. unfold rules_le. apply _. Qed.

Lemma rules_le_lookup t t' r : rules_le t t' → r ∈ t → ∃ r', r' ∈ t' ∧ rule_le r r'.
Proof. apply table_le_lookup. Qed.

Section Worlds.
Context `{Collation, Storage}.

Lemma clashes_sym (keys : list (list string)) r s : clashes keys r s = clashes keys s r.
Proof.
  assert (∀ c, same_column r s c = same_column s r c) as Hc.
  { intros c. unfold same_column. destruct (column r c), (column s c); try done; [apply sql_eq_sym|apply Z.eqb_sym]. }
  unfold clashes. induction keys as [|k keys IH]; [done|]. cbn. rewrite IH. f_equal.
  induction k as [|c k IHk]; [done|]. cbn. by rewrite Hc, IHk.
Qed.

(** Rows that share a key are the same row. *)
Lemma distinct_same (keys : list (list string)) t x y :
  distinct (clashes keys) t = true → x ∈ t → y ∈ t → clashes keys x y = true → x = y.
Proof. apply distinct_unique, clashes_sym. Qed.

(** ** Tables *)

Definition active (r : row) : bool := column_is "status" "active" r.

Definition status_of_rule (r : row) (status : string) : Prop := column r "status" = CText status ∧ status ∈ RULE_VERSION_STATUSES.

(** The rows are whole, their statuses are of the vocabularies, one version is active, and no
    two results share a key. *)
Record tables_ok (d : tables) : Prop := TablesOk {
  ok_runs : ∀ r, r ∈ runs d → columns_of r = RUN_COLUMNS ∧ runStatusOf r ∈ RUN_STATUSES ∧
    column r "status" = CText (runStatusOf r);
  ok_rules : ∀ r, r ∈ rule_versions d → columns_of r = RULE_VERSION_COLUMNS ∧ (∃ s, status_of_rule r s) ∧
    ∃ id, column r "id" = CText id ∧ id ≠ "";
  ok_rule_ids : distinct (clashes RULE_VERSION_KEYS) (rule_versions d) = true;
  ok_one_active : (length (where_ active (rule_versions d)) ≤ 1)%nat;
  ok_result_keys : distinct (clashes RESULT_KEYS) (results d) = true;
}.

(** What one operation may do to the tables. *)
Record tables_step (d d' : tables) : Prop := TablesStep {
  step_source_refs : source_refs d `prefix_of` source_refs d';
  step_results : results d `prefix_of` results d';
  step_metric_scores : metric_scores d `prefix_of` metric_scores d';
  step_usage_events : usage_events d `prefix_of` usage_events d';
  step_spend_claims : spend_claims d `prefix_of` spend_claims d';
  step_runs : runs_le (runs d) (runs d');
  step_rules : rules_le (rule_versions d) (rule_versions d');
  step_ok : tables_ok d → tables_ok d';
}.

#[export] Instance tables_step_preorder : PreOrder tables_step.
Proof.
  split.
  - intros d. by split.
  - intros a b c [] []. split; try (by etransitivity). by auto.
Qed.

(** ** Worlds *)

Context (d0 : tables).

(** Who was answered that it holds the claim on a revision does hold a row of the table, alone
    and since the start; what was paid was paid by its holder, once, and was of no use to any
    run before. *)
Record sound (w : world) : Prop := Sound {
  sound_tables : tables_ok (db w);
  sound_since : tables_step d0 (db w);
  granted_row : ∀ g, g ∈ granted w → ∃ r, r ∈ spend_claims (db w) ∧ column r "source_ref_id" = CText g.1;
  granted_once : ∀ a b g h, granted w !! a = Some g → granted w !! b = Some h → sql_eq g.1 h.1 = true → a = b;
  granted_since : ∀ g r, g ∈ granted w → r ∈ spend_claims d0 → column_is "source_ref_id" g.1 r = false;
  paid_granted : ∀ p, p ∈ paid w → (sourceRefId (paid_for p), payer p) ∈ granted w;
  paid_claimed : ∀ p, p ∈ paid w → ∃ at_, claim_values (ClaimInput (paid_for p) at_) ∈ spend_claims (db w);
  paid_once : ∀ a b p q, paid w !! a = Some p → paid w !! b = Some q →
    sql_eq (sourceRefId (paid_for p)) (sourceRefId (paid_for q)) = true → a = b;
  paid_since : ∀ p r, p ∈ paid w → r ∈ results d0 → is_prior_result (paid_for p) r = false;
}.

(** Something was added to a list, all of it by this thread. *)
Definition added_by {A} (author : A → nat) (i : nat) (l l' : list A) : Prop :=
  ∃ new, l' = l ++ new ∧ ∀ a, a ∈ new → author a = i.

(** What one operation of thread [i] does to the world. *)
Record guar (i : nat) (w w' : world) : Prop := Guar {
  guar_tables : tables_step (db w) (db w');
  guar_granted : added_by snd i (granted w) (granted w');
  guar_paid : added_by payer i (paid w) (paid w');
}.

(** What time does to the world, for everybody. *)
Record grown (w w' : world) : Prop := Grown {
  grown_tables : tables_step (db w) (db w');
  grown_granted : granted w `prefix_of` granted w';
  grown_paid : paid w `prefix_of` paid w';
}.

(** The same, while thread [i] neither takes a claim nor pays. *)
Record kept (i : nat) (w w' : world) : Prop := Kept {
  kept_grown : grown w w';
  kept_granted : ∀ g, g ∈ granted w' → g.2 = i → g ∈ granted w;
  kept_paid : ∀ p, p ∈ paid w' → payer p = i → p ∈ paid w;
}.

#[export] Instance grown_preorder : PreOrder grown.
Proof.
  split.
  - intros w. by split.
  - intros a b c [] []. split; by etransitivity.
Qed.

#[export] Instance kept_preorder i : PreOrder (kept i).
Proof.
  split.
  - intros w. by split.
  - intros a b c [] []. split; [by etransitivity|by auto..].
Qed.

Lemma added_prefix {A} (author : A → nat) i l l' : added_by author i l l' → l `prefix_of` l'.
Proof. intros (new & -> & _). by exists new. Qed.

Lemma added_other {A} (author : A → nat) i j l l' a :
  added_by author j l l' → j ≠ i → a ∈ l' → author a = i → a ∈ l.
Proof. intros (new & -> & Hn) Hij [?|Hin]%elem_of_app Ha; [done|]. apply Hn in Hin. congruence. Qed.

Lemma added_none {A} (author : A → nat) i l : added_by author i l l.
Proof. exists []. split; [by rewrite app_nil_r|]. by intros a ?%elem_of_nil. Qed.

Lemma guar_grown i w w' : guar i w w' → grown w w'.
Proof. intros []. split; [done|by eapply added_prefix..]. Qed.

Lemma rely_kept i w w' : rely guar i w w' → kept i w w'.
Proof.
  induction 1 as [w|w1 w2 w3 (j & Hj & Hg) _ IH]; [reflexivity|]. etransitivity; [|exact IH].
  destruct Hg as [Ht Hg Hp]. split.
  - by eapply guar_grown.
  - intros g Hin Hi. by eapply added_other.
  - intros p Hin Hi. by eapply added_other.
Qed.

Lemma evolves_grown w w' : evolves guar w w' → grown w w'.
Proof.
  induction 1 as [w|w1 w2 w3 (j & Hg) _ IH]; [reflexivity|]. etransitivity; [|exact IH]. by eapply guar_grown.
Qed.

(** An operation that changes tables only. *)
Lemma sound_set_db w d : sound w → tables_step (db w) d → sound (set_db d w).
Proof.
  intros [] Hs. split; cbn; try done.
  - by apply Hs.
  - by etransitivity.
  - intros g Hg. destruct (granted_row0 g Hg) as (r & Hr & Hc). exists r. split; [|done].
    eapply elem_of_prefix; [|apply Hs]. done.
  - intros p Hp. destruct (paid_claimed0 p Hp) as [at_ Ha]. exists at_.
    eapply elem_of_prefix; [|apply Hs]. done.
Qed.

Lemma guar_set_db i w d : tables_step (db w) d → guar i w (set_db d w).
Proof. intros Hs. split; cbn; [done|apply added_none..]. Qed.
End Worlds.

Lemma kept_set_db `{Collation, Storage} i w d : tables_step (db w) d → kept i w (set_db d w).
Proof. intros Hs. split; [by split|done..]. Qed.

(** ** The rules *)

Section Rules.
Context `{CO : Collation, ST : Storage} (d0 : tables) (i : nat).
Context (K : world → world → Prop) `{!PreOrder K} (kept_K : ∀ w w', kept i w w' → K w w').

(** Run from [w] as thread [i], the action keeps the invariant and the guarantee, ends in [K]
    of where it began, and its answer satisfies [P]. *)
Definition does {E A} (m : act E A) (P : Prelude.result E A → world → Prop) (w : world) : Prop :=
  ensures (@perform _) (sound d0) guar i m (fun r w' => sound d0 w' ∧ K w w' ∧ P r w') w.

Lemma does_ret {E A} (r : Prelude.result E A) (P : Prelude.result E A → world → Prop) w :
  sound d0 w → P r w → does (sync r) P w.
Proof. intros Hw HP. split; [done|]. split; [reflexivity|done]. Qed.

Lemma does_mono {E A} (m : act E A) (P P' : Prelude.result E A → world → Prop) w :
  does m P w → (∀ r w', sound d0 w' → K w w' → P r w' → P' r w') → does m P' w.
Proof. intros Hd HP. eapply ensures_mono; [exact Hd|]. naive_solver. Qed.

(** From a later world. *)
Lemma does_from {E A} (m : act E A) P w w' : K w w' → does m P w' →
  ensures (@perform _) (sound d0) guar i m (fun r w2 => sound d0 w2 ∧ K w w2 ∧ P r w2) w'.
Proof.
  intros Hk Hd. eapply ensures_mono; [exact Hd|]. intros r w2 (Hs & Hk' & HP).
  split; [done|]. split; [by transitivity w'|done].
Qed.

Lemma does_seq {E E' A B} (m : act E A) (f : Prelude.result E A → act E' B) P w :
  does m (fun r => does (f r) P) w → does (prog_seq m f) P w.
Proof.
  intros Hd. apply ensures_seq. eapply ensures_mono; [exact Hd|]. intros r w' (Hs & Hk & Hf). by apply does_from.
Qed.

Lemma does_bind {E A B} (m : act E A) (f : A → act E B) P w :
  does m (fun r w' => match r with Ok a => does (f a) P w' | Throw e => P (Throw e) w' end) w → does (m ≫= f) P w.
Proof.
  intros Hd. apply does_seq. eapply does_mono; [exact Hd|]. intros [a|e] w' Hs Hk HP; [done|]. by apply does_ret.
Qed.

Lemma does_catch {E E' A} (m : act E A) (h : E → act E' A) P w :
  does m (fun r w' => match r with Ok a => P (Ok a) w' | Throw e => does (h e) P w' end) w → does (catch m h) P w.
Proof.
  intros Hd. apply does_seq. eapply does_mono; [exact Hd|]. intros [a|e] w' Hs Hk HP; [|done]. by apply does_ret.
Qed.

Lemma does_rethrow {E E' A} (f : E → E') (m : act E A) P w :
  does m (fun r w' => P (match r with Ok a => Ok a | Throw e => Throw (f e) end) w') w → does (rethrow f m) P w.
Proof.
  intros Hd. apply does_catch. eapply does_mono; [exact Hd|]. intros [a|e] w' Hs Hk HP; [done|]. by apply does_ret.
Qed.

(** A check or a computation, then the rest. *)
Lemma does_sync_bind {E A B} (r : Prelude.result E A) (f : A → act E B) P w :
  sound d0 w → (∀ a, r = Ok a → does (f a) P w) → (∀ e, r = Throw e → P (Throw e) w) → does (sync r ≫= f) P w.
Proof.
  intros Hw Hok Hth. apply does_bind, does_ret; [done|]. destruct r as [a|e]; [by apply Hok|by apply Hth].
Qed.

(** An operation, what it may do to the world, and what follows it after the others moved. *)
Lemma does_perform {E A X} (o : op X) (k : X → act E A) P w :
  sound d0 w →
  (∀ c x w', perform i o c w = (x, w') →
     sound d0 w' ∧ guar i w w' ∧ K w w' ∧ ∀ w2, kept i w' w2 → sound d0 w2 → does (k x) P w2) →
  does (Do o k) P w.
Proof.
  intros Hw Hp c. destruct (perform i o c w) as [x w'] eqn:Hrun. destruct (Hp c x w' Hrun) as (Hs & Hg & Hk & Hd).
  split; [done|]. split; [done|]. intros w2 Hr Hs2. apply rely_kept in Hr. apply does_from; [|by apply Hd].
  transitivity w'; [done|by apply kept_K].
Qed.

(** An operation that only asks. *)
Lemma does_ask {E A X} (o : op X) (k : X → act E A) P w :
  (∀ c, (perform i o c w).2 = w) → sound d0 w →
  (∀ x w', sound d0 w' → kept i w w' → K w w' → does (k x) P w') →
  does (Do o k) P w.
Proof.
  intros Ho Hw Hk. apply does_perform; [done|]. intros c x w' Hp. specialize (Ho c). rewrite Hp in Ho. cbn in Ho. subst w'.
  split_and!; [done| |reflexivity|by auto].
  split; [reflexivity|apply added_none..].
Qed.

Lemma autocommit_cases {A} env (s : tables → Prelude.result sql_error (A * tables)) d r d' :
  autocommit env s d = (r, d') →
  (∃ a, s d = Ok (a, d') ∧ r = Ok a) ∨ (∃ e, r = Throw e ∧ (d' = d ∨ ∃ a, s d = Ok (a, d'))).
Proof.
  unfold autocommit. destruct (s d) as [[a d1]|e]; [|intros [= <- <-]; eauto].
  destruct (refused env 0); [|naive_solver]. intros [= <- <-]. destruct (landed env 0); eauto 6.
Qed.

(** A duplicate key changed nothing. *)
Lemma autocommit_duplicate {A} env (s : tables → Prelude.result sql_error (A * tables)) d d' :
  autocommit env s d = (Throw DuplicateEntry, d') → d' = d ∧ s d = Throw DuplicateEntry.
Proof. unfold autocommit. destruct (s d) as [[a d1]|e]; destruct (refused env 0); naive_solver. Qed.

(** A statement that commits by itself: it ran, or threw and may have run. *)
Lemma does_statement {E A} (f : sql_error → E) (s : tables → Prelude.result sql_error (A * tables)) P w :
  sound d0 w → (∀ a d', s (db w) = Ok (a, d') → tables_step (db w) d') →
  (∀ a d' w', s (db w) = Ok (a, d') → sound d0 w' → kept i (set_db d' w) w' → K w w' → P (Ok a) w') →
  (∀ e w', sound d0 w' → kept i w w' → K w w' → P (Throw (f e)) w') →
  does (rethrow f (await (Statement s))) P w.
Proof.
  intros Hw Hs Hok Hth. apply does_perform; [done|]. intros c r w' Hp. cbn in Hp.
  destruct (autocommit (database c) s (db w)) as [r' d'] eqn:Hrun. injection Hp as -> <-.
  assert (tables_step (db w) d') as Hstep.
  { destruct (autocommit_cases _ _ _ _ _ Hrun) as [(a & Ha & _)|(e & _ & [->|[a Ha]])]; [by eapply Hs|reflexivity|by eapply Hs]. }
  pose proof (kept_set_db i w d' Hstep) as Hk.
  split_and!; [by apply sound_set_db|by apply guar_set_db|by apply kept_K|]. intros w2 Hk2 Hs2.
  assert (K w w2) by (apply kept_K; by etransitivity).
  destruct (autocommit_cases _ _ _ _ _ Hrun) as [(a & Ha & ->)|(e & -> & _)]; apply does_ret; try done.
  - by eapply Hok.
  - apply Hth; [done| |done]. by etransitivity.
Qed.

(** A statement that reads. *)
Lemma does_select {E A} (f : sql_error → E) (read : tables → A) P w :
  sound d0 w →
  (∀ w', sound d0 w' → kept i w w' → K w w' → P (Ok (read (db w))) w') →
  (∀ e w', sound d0 w' → kept i w w' → K w w' → P (Throw (f e)) w') →
  does (rethrow f (await (Statement (select read)))) P w.
Proof.
  intros Hw Hok Hth. apply does_statement; [done| |intros a d' w'|done].
  - intros a d' [= _ <-]. reflexivity.
  - unfold select. intros [= <- <-] Hs Hk HK. apply Hok; [done| |done]. by destruct w.
Qed.

(** A transaction under the locks of what it reads. *)
Lemma does_transaction {E A} (m : Sql tables E A) P w :
  sound d0 w →
  (∀ env r n d', m env 0%nat (db w) = (r, (n, d')) → tables_step (db w) d') →
  (∀ env r n d' w', m env 0%nat (db w) = (r, (n, d')) → sound d0 w' → kept i (set_db d' w) w' → kept i w w' → K w w' → P r w') →
  does (await (Transaction m)) P w.
Proof.
  intros Hw Hs Hok. apply does_perform; [done|]. intros c r w' Hp. cbn in Hp.
  destruct (m (database c) 0%nat (db w)) as [r' [n d']] eqn:Hrun. injection Hp as -> <-.
  pose proof (Hs _ _ _ _ Hrun) as Hstep. pose proof (kept_set_db i w d' Hstep) as Hk.
  split_and!; [by apply sound_set_db|by apply guar_set_db|by apply kept_K|]. intros w2 Hk2 Hs2.
  assert (kept i w w2) as Hk3 by (by etransitivity).
  apply does_ret; [done|]. by eapply Hok; eauto.
Qed.
End Rules.

(** While thread [i] only reads and writes tables, or whatever it does. *)
Notation keeps d0 i := (does d0 i (kept i)).
Notation grows d0 i := (does d0 i grown).

(** What is done while nothing is claimed or paid holds in general. *)
Lemma keeps_grows `{Collation, Storage} d0 i {E A} (m : act E A) P w :
  keeps d0 i m P w → does d0 i grown m P w.
Proof. intros Hd. eapply ensures_mono; [exact Hd|]. intros r w' (Hs & Hk & HP). split; [done|]. split; [apply Hk|done]. Qed.

Lemma keeps_grows_kept `{Collation, Storage} d0 i {E A} (m : act E A) P w :
  keeps d0 i m P w → does d0 i grown m (fun r w' => kept i w w' ∧ P r w') w.
Proof. intros Hd. eapply ensures_mono; [exact Hd|]. intros r w' (Hs & Hk & HP). split; [done|]. split; [apply Hk|done]. Qed.
