(* ===== verification/CallDemo.v ===== *)
(** * A call audit that runs

    One rule, two calls, a batch: the inputs, the environment and the outcomes the witnesses
    of the call-audit theorems use. *)

From S2P Require Import Prelude JsNumber JsText CanonicalJson Sql Scoring ModelOutput SourceRevision ResultRecords Prog CallRules CallStore CallPersistence CallModel CallProcessor CallControl CallRuleStore CallBatch CallWorld.

Local Open Scope string_scope.
Local Open Scope list_scope.
#[global] Open Scope Z_scope.

(** ** The environment *)

#[export] Instance call_platform : Platform := demo_platform.
#[export] Instance call_platform_laws : PlatformLaws call_platform := demo_platform_laws.

(** Texts that collate as themselves. *)
#[export] Instance plain_collation : Collation := {| collate := fun s => s |}.

#[export] Instance plain_status_words : StatusWords plain_collation.
Proof. intros a b _ _ H. by apply bool_decide_eq_true in H. Qed.

(** A column that keeps every literal to the microsecond, and any other text as it is. *)
#[export] Instance exact_storage : Storage :=
  {| datetime6 := fun s => match NAIVE_DATETIME s with Some p => datetime_text p | None => s end |}.

#[export] Instance exact_storage_laws : StorageLaws exact_storage.
Proof. split. intros s p H. cbn. by rewrite H. Qed.

(** A provider whose every answer is the same audit. *)
#[export] Instance one_answer : JsonParser := {| jsonParse := fun _ => Some (VObj DemoOutput.served) |}.

Definition quiet : environment :=
  Env (fun _ => false) (fun _ => false) (fun _ => 0) (fun _ => "id") (fun _ => 0) (fun _ => "random").

Definition demo_response : ContentAuditChatResponse :=
  ChatResponse (Some (VStr "{}", VNull))
    (Some (IdValue (VNum 1200 0), IdValue (VNum 300 0), IdValue (VNum 1500 0))) (VStr "req-1").

(** ** The calls *)

Definition spoken_call : InternalSourceCandidate := DemoSource.call "7" "Agent: hello. Customer: I would like a treatment." "00:01:30".
Definition silent_call : InternalSourceCandidate := DemoSource.call "8" "  " "00:00:05".

Definition demo_settings : ValidatedRuleSettings := Settings "v1" "Judge the call." "openai" "audit-model" "2026-05" "0.200".

Definition demo_answer : answer :=
  Answer quiet (Some demo_response) 1000 (Some [spoken_call; silent_call]) (Some true) (Some (VStr "2026-08-02 00:15:00")).
Definition demo_answers (_ : nat) : answer := demo_answer.

Definition demo_input (c : InternalSourceCandidate) : ProcessCallAuditCandidateInput :=
  ProcessInput "crn_1" "crv_1" demo_settings c (VNum 1 0) (VStr "2026-08-02 00:15:00") (VStr "2026-08-02 00:15:01").

Definition demo_request : CallAuditRunRequest :=
  RunRequest (VStr "crv_1") "manual" (VStr "2026-08-01 00:00:00") (VStr "2026-08-02 00:00:00") VUndefined
    (VStr "manual:2026-08-01") VUndefined (VStr "admin-1") VUndefined.

Definition demo_batch : RunCallAuditBatchInput :=
  BatchInput demo_request (VStr "crv_1") demo_settings (VStr "2026-07-31 18:30:00") (VStr "2026-08-01 18:30:00")
    (VNum 50 0) VUndefined VUndefined NowSupplier true.

(** ** The rule version *)

Definition demo_activation : CallAuditRuleActivation :=
  match buildRuleActivation (settings_value demo_settings) with
  | Ok a => a
  | Throw _ => Activation demo_settings "" "" "" "" "" "" ""
  end.

Definition as_draft : CallAuditRuleVersionLifecycle :=
  Lifecycle "draft" (VStr "admin-1") (VStr "First version.") VUndefined VUndefined VUndefined VUndefined.

Definition demo_switch : ActivateRuleVersionInput :=
  ActivateInput (VStr (buildRuleVersionId demo_activation)) (VStr "admin-1") (VStr "2026-08-01 06:00:00")
    (configSha256 demo_activation).

Definition empty_world : world := World no_tables [] [].

(** ** What runs come to *)

Definition demo_processed := run (@perform _) 0 (processCallAuditCandidate (demo_input spoken_call)) demo_answers 0 empty_world.
Definition demo_ran := run (@perform _) 0 (runCallAuditBatch demo_batch) demo_answers 0 empty_world.

Example spoken_call_is_audited :
  match demo_processed.1 with
  | Ok s => (sum_status s, sum_eligibility s, modelAttempted s, us_attemptOutcome <$> sum_usage s) =
            (succeeded, content_auditable, true, Some attempt_succeeded)
  | Throw _ => False
  end ∧ length (paid demo_processed.2.2) = 1%nat.
Proof. vm_compute. done. Qed.

Example batch_is_completed :
  match demo_ran.1 with
  | Ok rs => (rs_completed rs, rs_stopReason rs, rs_pagesRead rs, processedTotal (rs_tally rs), succeededTotal (rs_tally rs),
              operationalOnlyTotal (rs_tally rs), contentAuditedTotal (rs_tally rs)) = (true, exhausted, 1, 2, 2, 1, 1)
  | Throw _ => False
  end.
Proof. vm_compute. done. Qed.

(** A transcript the adapter refuses to send: the claim is used and a failed attempt is
    recorded, though nothing was asked. *)
Definition unsendable_call : InternalSourceCandidate := DemoSource.call "9" ("Agent: hello" +:+ String (Ascii.ascii_of_nat 1) "") "00:01:30".

Example refused_transcript_counts_as_attempt :
  let r := run (@perform _) 0 (processCallAuditCandidate (demo_input unsendable_call)) demo_answers 0 empty_world in
  match r.1 with
  | Ok s => (sum_status s, modelAttempted s, us_attemptOutcome <$> sum_usage s) = (failed, true, Some attempt_failed)
  | Throw _ => False
  end ∧ paid r.2.2 = [] ∧ length (usage_events (db r.2.2)) = 1%nat ∧ length (spend_claims (db r.2.2)) = 1%nat.
Proof. vm_compute. done. Qed.
