(* ===== verification/CallEffects.v ===== *)
(** * What the repository, the model and the processor leave behind

    The operations of [CallPersistence], [CallModel] and [CallProcessor] in the logic of
    [CallWorld]: whatever other jobs do meanwhile, what an operation answers is in the tables
    when it does, and a request is paid for under a claim that is held. *)

From S2P Require Import Prelude JsText CanonicalJson Sql Scoring ModelOutput SourceRevision ResultRecords Prog CallRules CallStore CallPersistence CallModel CallProcessor CallWorld.

Local Open Scope string_scope.
Local Open Scope list_scope.
#[global] Open Scope Z_scope.

(** ** Rows of records *)

Section Rows.
Context `{PL : Platform, CO : Collation, ST : Storage}.

(** The row that was inserted for a record, or one that the comparison of the code finds to
    be the same. *)
Definition row_of_source (r : CallAuditSourceReference) (x : row) : Prop :=
  x = stored SOURCE_REF_DATETIMES (sourceRefValues r) ∨ sourceRefConflictField x r = None.
Definition row_of_result (r : CallAuditResultRecord) (x : row) : Prop :=
  column_is "idempotency_key" (idempotencyKey r) x = true ∧
  (x = stored RESULT_DATETIMES (resultValues r) ∨ resultConflictField x r = None).
Definition row_of_metric (m : CallAuditMetricScoreRecord) (x : row) : Prop :=
  x = metricValue m ∨ metric_conflict [(metric_text (metricCode m), x)] m = None.
Definition row_of_usage (u : CallAuditUsageEventRecord) (x : row) : Prop :=
  x = stored USAGE_DATETIMES (usageValues u) ∨ usageConflictField x u = None.

Definition source_recorded (d : tables) (r : CallAuditSourceReference) : Prop :=
  ∃ x, x ∈ source_refs d ∧ row_of_source r x.
Definition bundle_recorded (d : tables) (b : CallAuditResultBundle) : Prop :=
  (∃ x, x ∈ results d ∧ row_of_result (bundle_result b) x) ∧
  ∀ m, m ∈ bundle_metricScores b → ∃ x, x ∈ metric_scores d ∧ row_of_metric m x.
Definition usage_recorded (d : tables) (u : CallAuditUsageEventRecord) : Prop :=
  ∃ x, x ∈ usage_events d ∧ row_of_usage u x.

Lemma source_recorded_step d d' r : tables_step d d' → source_recorded d r → source_recorded d' r.
Proof. intros Hs (x & Hx & Hr). exists x. split; [|done]. eapply elem_of_prefix; [exact Hx|apply Hs]. Qed.

Lemma bundle_recorded_step d d' b : tables_step d d' → bundle_recorded d b → bundle_recorded d' b.
Proof.
  intros Hs [(x & Hx & Hr) Hm]. split.
  - exists x. split; [|done]. eapply elem_of_prefix; [exact Hx|apply Hs].
  - intros m Hin. destruct (Hm m Hin) as (y & Hy & Hmy). exists y. split; [|done].
    eapply elem_of_prefix; [exact Hy|apply Hs].
Qed.

Lemma usage_recorded_step d d' u : tables_step d d' → usage_recorded d u → usage_recorded d' u.
Proof. intros Hs (x & Hx & Hr). exists x. split; [|done]. eapply elem_of_prefix; [exact Hx|apply Hs]. Qed.

(** *** Rows that are added *)

Lemma step_source_ref d t : tables_step d (with_source_refs (source_refs d ++ t) d).
Proof. split; cbn; try reflexivity; [by exists t|]. intros []. by split. Qed.
Lemma step_result d x : (∀ s, s ∈ results d → clashes RESULT_KEYS x s = false) →
  tables_step d (with_results (results d ++ [x]) d).
Proof.
  intros Hnew. split; cbn; try reflexivity; [by exists [x]|]. intros []. split; cbn; try done.
  apply distinct_snoc; [done|]. intros s Hs. rewrite clashes_sym. by apply Hnew.
Qed.
Lemma step_metric_score d t : tables_step d (with_metric_scores (metric_scores d ++ t) d).
Proof. split; cbn; try reflexivity; [by exists t|]. intros []. by split. Qed.
Lemma step_usage_event d t : tables_step d (with_usage_events (usage_events d ++ t) d).
Proof. split; cbn; try reflexivity; [by exists t|]. intros []. by split. Qed.
Lemma step_spend_claim d t : tables_step d (with_spend_claims (spend_claims d ++ t) d).
Proof. split; cbn; try reflexivity; [by exists t|]. intros []. by split. Qed.

(** An [INSERT] that succeeds added its row. *)
Lemma inserted_row keys r t t' :
  insert_unique (clashes keys) r t = Ok t' → t' = t ++ [r] ∧ r ∈ t'.
Proof.
  intros [_ ->]%insert_unique_Ok. split; [done|]. apply elem_of_app. right. by apply list_elem_of_singleton.
Qed.

Lemma inserted_rows keys rows t t' :
  insert_rows keys rows t = Ok t' → t' = t ++ rows.
Proof.
  revert t. induction rows as [|r rows IH]; cbn; intros t Hi; [injection Hi as <-; by rewrite app_nil_r|].
  bind_ok. match goal with E : insert_unique _ _ _ = _ |- _ => apply inserted_row in E as [-> _] end.
  match goal with E : insert_rows _ _ _ = _ |- _ => apply IH in E as -> end. by rewrite <- app_assoc.
Qed.

Lemma insert_source_ref_step r d a d' : insert_source_ref r d = Ok (a, d') →
  tables_step d d' ∧ source_recorded d' r.
Proof.
  unfold insert_source_ref. intros Hi. bind_ok.
  match goal with E : insert_unique _ _ _ = _ |- _ => apply inserted_row in E as [-> Hin] end.
  split; [apply step_source_ref|]. eexists. split; [exact Hin|by left].
Qed.

Lemma insert_result_step r d a d' : insert_result r d = Ok (a, d') →
  tables_step d d' ∧ ∃ x, x ∈ results d' ∧ row_of_result r x.
Proof.
  intros (t & Hi & Hd)%bind_Ok_iff. injection Hd as _ <-. apply insert_unique_Ok in Hi as [Hnew ->].
  split; [by apply step_result|]. eexists. split; [apply elem_of_app; right; apply list_elem_of_singleton; reflexivity|].
  split; [apply sql_eq_refl|by left].
Qed.

Lemma insert_metric_scores_step l d a d' : insert_metric_scores l d = Ok (a, d') →
  tables_step d d' ∧ ∀ m, m ∈ l → ∃ x, x ∈ metric_scores d' ∧ row_of_metric m x.
Proof.
  unfold insert_metric_scores. intros Hi. bind_ok.
  match goal with E : insert_rows _ _ _ = _ |- _ => apply inserted_rows in E as -> end.
  split; [apply step_metric_score|]. intros m Hm. exists (metricValue m). split; [|by left].
  cbn. apply elem_of_app. right. unfold metricValues. by apply list_elem_of_fmap_2.
Qed.

Lemma insert_usage_step u d a d' : insert_usage u d = Ok (a, d') →
  tables_step d d' ∧ usage_recorded d' u.
Proof.
  unfold insert_usage. intros Hi. bind_ok.
  match goal with E : insert_unique _ _ _ = _ |- _ => apply inserted_row in E as [-> Hin] end.
  split; [apply step_usage_event|]. eexists. split; [exact Hin|by left].
Qed.

Lemma committing_step {A} (m : Sql tables sql_error A) env n d r n' d' :
  committing m env n d = (r, (n', d')) →
  d' = d ∨ ∃ a n1, m env n d = (Ok a, (n1, d')).
Proof.
  unfold committing. destruct (m env n d) as [[a|e] [n1 d1]]; [|intros [= <- <- <-]; by left].
  destruct (refused env n1); [destruct (landed env n1)|]; intros [= <- <- <-]; eauto.
Qed.

Lemma committing_Ok {A} (m : Sql tables sql_error A) env n d a n' d' :
  committing m env n d = (Ok a, (n', d')) → ∃ n1, m env n d = (Ok a, (n1, d')).
Proof.
  unfold committing. destruct (m env n d) as [[b|e] [n1 d1]]; [|done].
  destruct (refused env n1); [done|]. intros [= <- <- <-]. by exists n1.
Qed.

Lemma insert_bundle_body b env n d a n' d' :
  (request (fun _ => insert_result (bundle_result b)) ≫= fun _ =>
   match bundle_metricScores b with
   | [] => mret tt
   | records => request (fun _ => insert_metric_scores records)
   end) env n d = (Ok a, (n', d')) → tables_step d d' ∧ bundle_recorded d' b.
Proof.
  intros (u & n1 & d1 & Hr & Hm)%sql_bind_Ok. apply request_Ok in Hr as (_ & d2 & Hi & [= -> ->]).
  apply insert_result_step in Hi as [Hs (x & Hx & Hrow)]. unfold bundle_recorded.
  destruct (bundle_metricScores b) as [|m l].
  - apply ret_Ok in Hm as [_ [= -> ->]]. split; [done|]. split; [by exists x|]. by intros m ?%elem_of_nil.
  - apply request_Ok in Hm as (_ & d3 & Hi & [= -> ->]). apply insert_metric_scores_step in Hi as [Hs' Hms].
    split; [by etransitivity|]. split; [|done]. exists x. split; [|done].
    eapply elem_of_prefix; [exact Hx|apply Hs'].
Qed.

Lemma insert_bundle_step b env n d r n' d' :
  insert_bundle b env n d = (r, (n', d')) →
  tables_step d d' ∧ (∀ a, r = Ok a → bundle_recorded d' b).
Proof.
  unfold insert_bundle. intros Hc. split.
  - apply committing_step in Hc as [->|(a & n1 & Hb)]; [reflexivity|]. by eapply insert_bundle_body.
  - intros a ->. apply committing_Ok in Hc as [n1 Hb]. by eapply insert_bundle_body.
Qed.
End Rows.

(** ** The repository *)

Section Repository.
Context `{PL : Platform, CO : Collation, ST : Storage}.

Lemma conflict_Ok entity field u : conflict entity field = Ok u → field = None.
Proof. by destruct field. Qed.

Lemma rows_by_code_elem seen existing l p : rows_by_code seen existing = Some l → p ∈ l → p.2 ∈ existing.
Proof.
  revert seen l. induction existing as [|r existing IH]; cbn; intros seen l.
  - intros [= <-] ?%elem_of_nil. done.
  - destruct (textOrNull (column r "metric_code")) as [code|]; cbn; [|done].
    case_bool_decide; [done|]. destruct (rows_by_code (code :: seen) existing) as [l'|] eqn:E; cbn; [|done].
    intros [= <-] [->|Hp]%elem_of_cons; [left|]. right. by eapply IH.
Qed.

Lemma metric_rows_match existing records u :
  assertMetricScoresMatch existing records = Ok u →
  ∀ m, m ∈ records → ∃ x, x ∈ existing ∧ row_of_metric m x.
Proof.
  intros Hc%conflict_Ok m Hm. unfold metricScoresConflictField in Hc. destruct (negb _); [done|].
  destruct (rows_by_code [] existing) as [byCode|] eqn:E; [|done].
  assert (metric_conflict byCode m = None) as Hmc.
  { revert Hc. clear E. induction records as [|n records IH]; [by apply elem_of_nil in Hm|]. cbn.
    destruct (metric_conflict byCode n) eqn:En; [done|]. apply elem_of_cons in Hm as [->|Hm]; [done|by apply IH]. }
  unfold metric_conflict in Hmc. destruct (List.find _ byCode) as [[code x]|] eqn:Ef; [|done].
  apply find_some in Ef as [Hin Heq]. exists x. split.
  - by apply (rows_by_code_elem [] existing byCode (code, x)), list_elem_of_In.
  - right. unfold metric_conflict. cbn. by rewrite String.eqb_refl.
Qed.

Context (d0 : tables) (i : nat).
Notation holds P := (fun r w' => match r with Ok a => P a w' | Throw _ => True end).

(** A statement or a check whose error says nothing. *)
Lemma keeps_statement {A} (s : tables → Prelude.result sql_error (A * tables)) (P : A → world → Prop) w :
  sound d0 w → (∀ a d', s (db w) = Ok (a, d') → tables_step (db w) d') →
  (∀ a d' w', s (db w) = Ok (a, d') → sound d0 w' → kept i (set_db d' w) w' → P a w') →
  keeps d0 i (execute s) (holds P) w.
Proof. intros Hw Hs Hok. apply does_statement; eauto with typeclass_instances. Qed.

Lemma keeps_select {A} (read : tables → A) (P : A → world → Prop) w :
  sound d0 w → (∀ w', sound d0 w' → kept i w w' → P (read (db w)) w') →
  keeps d0 i (execute (select read)) (holds P) w.
Proof. intros Hw Hok. apply does_select; eauto with typeclass_instances. Qed.

Lemma keeps_bind {E A B} (m : act E A) (f : A → act E B) (P : B → world → Prop) w :
  keeps d0 i m (holds (fun a w' => keeps d0 i (f a) (holds P) w')) w → keeps d0 i (m ≫= f) (holds P) w.
Proof.
  intros Hm. apply does_bind; [apply _|]. eapply does_mono; [exact Hm|]. by intros [a|e] w' Hs Hk HP.
Qed.

Lemma keeps_check {E A B} (r : Prelude.result E A) (f : A → act E B) (P : B → world → Prop) w :
  sound d0 w → (∀ a, r = Ok a → keeps d0 i (f a) (holds P) w) → keeps d0 i (sync r ≫= f) (holds P) w.
Proof. intros Hw Hf. apply does_sync_bind; [apply _|done|done|done]. Qed.

Lemma keeps_ret {E A} (a : A) (P : A → world → Prop) w :
  sound d0 w → P a w → keeps d0 i (mret a : act E A) (holds P) w.
Proof. intros Hw HP. by apply does_ret; [apply _| |]. Qed.

Lemma keeps_throw {E A} (e : E) (P : A → world → Prop) w :
  sound d0 w → keeps d0 i (sync (Throw e) : act E A) (holds P) w.
Proof. intros Hw. by apply does_ret; [apply _| |]. Qed.

Lemma keeps_catch {E E' A} (m : act E A) (h : E → act E' A) (P : A → world → Prop) w :
  keeps d0 i m (holds P) w → (∀ e w', sound d0 w' → kept i w w' → keeps d0 i (h e) (holds P) w') →
  keeps d0 i (catch m h) (holds P) w.
Proof.
  intros Hm Hh. apply does_catch; [apply _|]. eapply does_mono; [exact Hm|]. intros [a|e] w' Hs Hk HP; [done|]. by apply Hh.
Qed.

Lemma keeps_request_only (P : unit → world → Prop) w :
  sound d0 w → (∀ w', sound d0 w' → kept i w w' → P tt w') → keeps d0 i request_only (holds P) w.
Proof. intros Hw HP. apply keeps_select; [done|]. intros w' Hs Hk. by apply HP. Qed.

(** *** Bundles *)

Lemma found_result_recorded b w d x u1 u2 metricRows :
  kept i w d → x ∈ results (db w) → column_is "idempotency_key" (idempotencyKey (bundle_result b)) x = true →
  (∀ y, y ∈ metricRows → y ∈ metric_scores (db w)) →
  conflict "result" (resultConflictField x (bundle_result b)) = Ok u1 →
  assertMetricScoresMatch metricRows (bundle_metricScores b) = Ok u2 →
  bundle_recorded (db d) b.
Proof.
  intros Hk Hx Hkey Hsub Hc%conflict_Ok Hm. apply (bundle_recorded_step (db w)); [apply Hk|]. split.
  - exists x. split; [done|]. split; [done|by right].
  - intros m Hin. destruct (metric_rows_match _ _ _ Hm m Hin) as (y & Hy & Hmy). exists y. split; [by apply Hsub|done].
Qed.

Lemma select_metric_scores_sub id d y : y ∈ select_metric_scores id d → y ∈ metric_scores d.
Proof. by intros [_ Hy]%elem_of_where. Qed.

Lemma keeps_write_body b w : sound d0 w →
  keeps d0 i (write_body b) (holds (fun _ w' => bundle_recorded (db w') b)) w.
Proof.
  intros Hw. apply keeps_bind, keeps_request_only; [done|]. intros w1 Hs1 _.
  apply keeps_bind, keeps_select; [done|]. intros w2 Hs2 Hk2.
  destruct (select_result _ _) as [x|] eqn:Ex.
  - apply first_row_Some in Ex as [Hx Hkey].
    apply keeps_check; [done|]. intros u1 Hc. apply keeps_bind, keeps_request_only; [done|]. intros w3 Hs3 Hk3.
    apply keeps_check; [done|]. intros u2 Hm. apply keeps_bind, keeps_request_only; [done|]. intros w4 Hs4 Hk4.
    apply keeps_ret; [done|]. eapply found_result_recorded; [|exact Hx|exact Hkey| |exact Hc|exact Hm].
    + etransitivity; [exact Hk2|]. by etransitivity.
    + apply select_metric_scores_sub.
  - apply keeps_bind. eapply does_rethrow; [apply _|]. eapply does_transaction; [apply _|done|done| |].
    + intros env r n d' Hb. by eapply insert_bundle_step.
    + intros env r n d' w3 Hb Hs3 Hk3 _ _. destruct r as [u|e]; [|done]. apply keeps_ret; [done|].
      apply insert_bundle_step in Hb as [_ Hb]. eapply bundle_recorded_step; [apply Hk3|]. by eapply Hb.
Qed.

Lemma keeps_saveResultBundle b w : sound d0 w →
  keeps d0 i (saveResultBundle b) (holds (fun _ w' => bundle_recorded (db w') b)) w.
Proof.
  intros Hw. apply keeps_check; [done|]. intros _ _. apply keeps_catch.
  - apply keeps_bind, keeps_request_only; [done|]. intros w1 Hs1 _. apply keeps_catch; [by apply keeps_write_body|].
    intros e w2 Hs2 _. apply keeps_bind, keeps_request_only; [done|]. intros w3 Hs3 _. by apply keeps_throw.
  - intros e w1 Hs1 _. destruct (negb _); [by apply keeps_throw|].
    apply keeps_bind, keeps_select; [done|]. intros w2 Hs2 Hk2.
    destruct (select_result _ _) as [x|] eqn:Ex; [|by apply keeps_throw]. apply first_row_Some in Ex as [Hx Hkey].
    apply keeps_check; [done|]. intros u1 Hc. apply keeps_bind, keeps_select; [done|]. intros w3 Hs3 Hk3.
    apply keeps_check; [done|]. intros u2 Hm. apply keeps_ret; [done|].
    apply (found_result_recorded b w2 w3 x u1 u2 (select_metric_scores (res_id (bundle_result b)) (db w2))); try done.
    + eapply elem_of_prefix; [exact Hx|]. apply Hk2.
    + apply select_metric_scores_sub.
Qed.

(** *** Source references, attempts and claims *)

Lemma keeps_upsertSourceReference r w : sound d0 w →
  keeps d0 i (upsertSourceReference r)
    (holds (fun p w' => p.1 = buildSourceRefId r ∧ source_recorded (db w') r)) w.
Proof.
  intros Hw.
  assert (∀ w1 w2 x u, kept i w1 w2 → select_source_ref (sourceRefIdempotencyKey r) (db w1) = Some x →
            assertSourceRefMatches x r = Ok u → source_recorded (db w2) r) as Hfound.
  { intros w1 w2 x u Hk [Hx _]%first_row_Some Hc%conflict_Ok.
    apply (source_recorded_step (db w1)); [apply Hk|]. exists x. split; [done|by right]. }
  apply keeps_bind, keeps_select; [done|]. intros w1 Hs1 Hk1. destruct (select_source_ref _ _) as [x|] eqn:Ex.
  - apply keeps_check; [done|]. intros u Hc. apply keeps_ret; [done|]. split; [done|by eapply Hfound].
  - apply keeps_catch.
    + apply keeps_bind, keeps_statement; [done| |].
      * intros a d' Hi. by apply insert_source_ref_step in Hi as [? _].
      * intros a d' w2 Hi Hs2 Hk2. apply keeps_ret; [done|]. split; [done|].
        apply insert_source_ref_step in Hi as [_ Hi]. eapply source_recorded_step; [apply Hk2|done].
    + intros e w2 Hs2 _. destruct (negb _); [by apply keeps_throw|].
      apply keeps_bind, keeps_select; [done|]. intros w3 Hs3 Hk3.
      destruct (select_source_ref _ (db w2)) as [x|] eqn:Ex2; [|by apply keeps_throw].
      apply keeps_check; [done|]. intros u Hc. apply keeps_ret; [done|]. split; [done|by eapply Hfound].
Qed.

Lemma keeps_recordUsageAttempt u w : sound d0 w →
  keeps d0 i (recordUsageAttempt u) (holds (fun _ w' => usage_recorded (db w') u)) w.
Proof.
  intros Hw.
  assert (∀ w1 w2 x v, kept i w1 w2 → select_usage u (db w1) = Some x →
            conflict "usageEvent" (usageConflictField x u) = Ok v → usage_recorded (db w2) u) as Hfound.
  { intros w1 w2 x v Hk [Hx _]%first_row_Some Hc%conflict_Ok.
    apply (usage_recorded_step (db w1)); [apply Hk|]. exists x. split; [done|by right]. }
  apply keeps_bind, keeps_select; [done|]. intros w1 Hs1 Hk1. destruct (select_usage _ _) as [x|] eqn:Ex.
  - apply keeps_check; [done|]. intros v Hc. apply keeps_ret; [done|]. by eapply Hfound.
  - apply keeps_catch.
    + apply keeps_bind, keeps_statement; [done| |].
      * intros a d' Hi. by apply insert_usage_step in Hi as [? _].
      * intros a d' w2 Hi Hs2 Hk2. apply keeps_ret; [done|].
        apply insert_usage_step in Hi as [_ Hi]. eapply usage_recorded_step; [apply Hk2|done].
    + intros e w2 Hs2 _. destruct (negb _); [by apply keeps_throw|].
      apply keeps_bind, keeps_select; [done|]. intros w3 Hs3 Hk3.
      destruct (select_usage _ (db w2)) as [x|] eqn:Ex2; [|by apply keeps_throw].
      apply keeps_check; [done|]. intros v Hc. apply keeps_ret; [done|]. by eapply Hfound.
Qed.
End Repository.

(** ** The claim and the request *)

Section Spending.
Context `{PL : Platform, CO : Collation, ST : Storage}.
Context (d0 : tables) (i : nat).
Notation holds P := (fun r w' => match r with Ok a => P a w' | Throw _ => True end).

(** Thread [i] holds the claim for the call, has not used it, and no other run has a result. *)
Record holding (c : CallAuditResultIdentity) (w : world) : Prop := Holding {
  holding_granted : (sourceRefId c, i) ∈ granted w;
  holding_row : ∃ at_, claim_values (ClaimInput c at_) ∈ spend_claims (db w);
  holding_unpaid : ∀ p, p ∈ paid w → payer p = i → sql_eq (sourceRefId (paid_for p)) (sourceRefId c) = false;
  holding_since : ∀ r, r ∈ results d0 → is_prior_result c r = false;
}.

Lemma holding_kept c w w' : kept i w w' → holding c w → holding c w'.
Proof.
  intros [Hg Hkg Hkp] [H1 [at_ H2] H3 H4]. split.
  - eapply elem_of_prefix; [exact H1|apply Hg].
  - exists at_. eapply elem_of_prefix; [exact H2|apply Hg].
  - intros p Hp Hi. apply H3; [by apply Hkp|done].
  - done.
Qed.

Lemma claim_values_ref c : column (claim_values c) "source_ref_id" = CText (sourceRefId (claim_identity c)).
Proof. done. Qed.

Lemma insert_claim_inv r d a d' : insert_claim r d = Ok (a, d') →
  d' = with_spend_claims (spend_claims d ++ [r]) d ∧ ∀ s, s ∈ spend_claims d → clashes SPEND_CLAIM_KEYS r s = false.
Proof.
  unfold insert_claim. intros Hi. bind_ok.
  match goal with E : insert_unique _ _ _ = _ |- _ => by apply insert_unique_Ok in E as [? ->] end.
Qed.

Lemma claims_clash r s a b :
  column r "source_ref_id" = CText a → column s "source_ref_id" = CText b →
  clashes SPEND_CLAIM_KEYS r s = sql_eq a b.
Proof.
  intros Ha Hb. unfold clashes, SPEND_CLAIM_KEYS. cbn [existsb forallb]. unfold same_column. rewrite Ha, Hb.
  by rewrite andb_true_r, orb_false_r.
Qed.

(** The claim is taken: nobody held it, nobody paid. *)
Lemma claim_granted c w d' a :
  sound d0 w → insert_claim (claim_values c) (db w) = Ok (a, d') →
  (∀ r, r ∈ results d0 → is_prior_result (claim_identity c) r = false) →
  let w' := World d' (granted w ++ [(sourceRefId (claim_identity c), i)]) (paid w) in
  sound d0 w' ∧ guar i w w' ∧ holding (claim_identity c) w'.
Proof.
  intros [] [-> Hnew]%insert_claim_inv Hprior w'. set (ref := sourceRefId (claim_identity c)) in *.
  assert (tables_step (db w) (with_spend_claims (spend_claims (db w) ++ [claim_values c]) (db w))) as Hs
    by apply step_spend_claim.
  assert (∀ g, g ∈ granted w → sql_eq ref g.1 = false) as Hfree.
  { intros g Hg. destruct (granted_row g Hg) as (r & Hr & Hc). rewrite <- (claims_clash (claim_values c) r) by done.
    by apply Hnew. }
  assert (claim_values c ∈ spend_claims (db w')) as Hrow by (cbn; apply elem_of_app; right; by apply list_elem_of_singleton).
  assert (∀ r, r ∈ spend_claims (db w) → r ∈ spend_claims (db w')) as Hold by (intros r Hr; cbn; apply elem_of_app; by left).
  split_and!.
  - split; cbn [db granted paid w']; try done.
    + by apply Hs.
    + by etransitivity.
    + intros g [Hg| ->%list_elem_of_singleton]%elem_of_app.
      * destruct (granted_row g Hg) as (r & Hr & Hc). exists r. split; [by apply Hold|done].
      * by exists (claim_values c).
    + intros x y g h [Hx|[Hlx Hx]]%lookup_app_Some [Hy|[Hly Hy]]%lookup_app_Some Heq; [by eapply granted_once| | |].
      * apply list_lookup_singleton_Some in Hy as [_ <-]. cbn in Heq.
        rewrite sql_eq_sym, Hfree in Heq by by eapply list_elem_of_lookup_2. done.
      * apply list_lookup_singleton_Some in Hx as [_ <-]. cbn in Heq.
        rewrite Hfree in Heq by by eapply list_elem_of_lookup_2. done.
      * apply list_lookup_singleton_Some in Hx as [Hx _], Hy as [Hy _]. lia.
    + intros g r [Hg| ->%list_elem_of_singleton]%elem_of_app Hr; [by apply granted_since|]. cbn.
      destruct (column_is "source_ref_id" ref r) eqn:E; [|done]. apply column_is_inv in E as (s & Hc & Heq).
      assert (clashes SPEND_CLAIM_KEYS (claim_values c) r = false) as Hn.
      { apply Hnew. eapply elem_of_prefix; [exact Hr|]. apply sound_since. }
      rewrite (claims_clash _ _ ref s) in Hn by done. by rewrite sql_eq_sym, Heq in Hn.
    + intros p Hp. apply elem_of_app. left. by apply paid_granted.
    + intros p Hp. destruct (paid_claimed p Hp) as [at_ Ha]. exists at_. by apply Hold.
  - split; cbn; [done| |apply added_none]. exists [(ref, i)]. split; [done|].
    by intros g ->%list_elem_of_singleton.
  - split; cbn [db granted paid w'].
    + apply elem_of_app. right. by apply list_elem_of_singleton.
    + exists (claimedAt c). by destruct c.
    + intros p Hp _. rewrite sql_eq_sym. exact (Hfree _ (paid_granted p Hp)).
    + done.
Qed.

(** What turns a call away is stored: the result of another run for the same revision, or a
    claim row on it. *)
Definition blocked (c : CallAuditResultIdentity) (code : CallAuditSpendSkipCode) (d : tables) : Prop :=
  match code with
  | priorResult => ∃ r, r ∈ results d ∧ is_prior_result c r = true
  | priorClaim => ∃ r, r ∈ spend_claims d ∧ column_is "source_ref_id" (sourceRefId c) r = true
  end.

Lemma blocked_step c code d d' : tables_step d d' → blocked c code d → blocked c code d'.
Proof. intros Hs. destruct code; intros (r & Hr & Hc); exists r; (split; [eapply elem_of_prefix; [exact Hr|apply Hs]|done]). Qed.

(** A claim that clashes found the row of the revision. *)
Lemma insert_claim_duplicate c d : insert_claim (claim_values c) d = Throw DuplicateEntry → blocked (claim_identity c) priorClaim d.
Proof.
  unfold insert_claim, insert_unique. destruct (existsb _ _) eqn:E; [|done]. intros _.
  apply existsb_exists in E as (r & Hr & Hc). exists r. split; [by apply list_elem_of_In|].
  unfold clashes, SPEND_CLAIM_KEYS in Hc. cbn [existsb forallb] in Hc. rewrite andb_true_r, orb_false_r in Hc.
  unfold same_column in Hc. rewrite claim_values_ref in Hc. unfold column_is.
  destruct (column r "source_ref_id"); [done| |done]. by rewrite sql_eq_sym.
Qed.

(** The gate: the claim is held, or what stands in the way is stored and nothing was taken or paid. *)
Lemma grows_claim c w : sound d0 w →
  grows d0 i (claimContentAuditSpend c)
    (holds (fun r w' => match r with
                        | claimed => holding (claim_identity c) w'
                        | duplicate code => blocked (claim_identity c) code (db w') ∧ kept i w w'
                        end)) w.
Proof.
  intros Hw. apply does_bind; [apply _|]. apply does_select; [apply _|by intros ? ? []|done| |done].
  intros w1 Hs1 Hk1 _. destruct (first_row _ _) as [x|] eqn:Ex.
  { apply does_ret; [apply _|done|]. split; [|done]. apply (blocked_step _ _ (db w)); [apply Hk1|].
    apply first_row_Some in Ex as [Hx Hp]. by exists x. }
  assert (∀ r, r ∈ results d0 → is_prior_result (claim_identity c) r = false) as Hprior.
  { intros r Hr. eapply first_row_None; [exact Ex|]. eapply elem_of_prefix; [exact Hr|]. apply Hw. }
  apply does_catch; [apply _|].
  eapply (does_mono _ _ _ _ (fun r w' => match r with
    | Ok claimed => holding (claim_identity c) w'
    | Ok (duplicate _) => False
    | Throw e => e = PersistenceFault DuplicateEntry → blocked (claim_identity c) priorClaim (db w') ∧ kept i w w'
    end)).
  - apply does_bind; [apply _|]. apply does_rethrow; [apply _|].
    apply does_perform; [apply _|by intros ? ? []|done|]. intros a r w' Hp. cbn in Hp.
    destruct (autocommit _ _ _) as [r' d'] eqn:E. injection Hp as -> <-.
    destruct (autocommit_cases _ _ _ _ _ E) as [(u & Hi & ->)|(e & -> & Hd)].
    + destruct (claim_granted c w1 d' u Hs1 Hi Hprior) as (Hs & Hg & Hh).
      split_and!; [done|done|by eapply guar_grown|]. intros w2 Hk2 Hs2. apply does_ret; [apply _|done|].
      apply does_ret; [apply _|done|]. by eapply holding_kept.
    + assert (e = DuplicateEntry → d' = db w1 ∧ blocked (claim_identity c) priorClaim (db w1)) as Hdup.
      { intros ->. apply autocommit_duplicate in E as [-> Hi]. by apply (insert_claim_duplicate c) in Hi. }
      assert (tables_step (db w1) d') as Hst.
      { destruct Hd as [->|[u [-> _]%insert_claim_inv]]; [reflexivity|apply step_spend_claim]. }
      split_and!; [by apply sound_set_db|by apply guar_set_db|by apply (guar_grown i), guar_set_db|].
      intros w2 Hk2 Hs2. apply does_ret; [apply _|done|]. intros [= He]. apply Hdup in He as [-> Hb]. split.
      * eapply blocked_step; [apply Hk2|exact Hb].
      * transitivity w1; [done|]. transitivity (set_db (db w1) w1); [by apply kept_set_db|exact Hk2].
  - intros [[|code]|e] w2 Hs2 Hk2 HP; [done..|]. unfold isDuplicateEntry.
    destruct (bool_decide _) eqn:Hd; to_prop; apply does_ret; try done; [apply _| |apply _]. by apply HP.
Qed.

(** A request under a claim that is held and unused. *)
Lemma payment_sound c request w : sound d0 w → holding c w →
  let w' := World (db w) (granted w) (paid w ++ [Payment i c request]) in
  sound d0 w' ∧ guar i w w' ∧ grown w w'.
Proof.
  intros [] [Hg [at_ Hrow] Hunpaid Hsince] w'.
  assert (guar i w w') as Hguar.
  { split; cbn; [reflexivity|apply added_none|]. exists [Payment i c request]. split; [done|].
    by intros p ->%list_elem_of_singleton. }
  split; [|split; [done|by apply (guar_grown i)]].
  assert (∀ p, p ∈ paid w → sql_eq (sourceRefId (paid_for p)) (sourceRefId c) = false) as Hfree.
  { intros p Hp. destruct (sql_eq _ _) eqn:E; [|done].
    pose proof (paid_granted p Hp) as Hpg.
    apply list_elem_of_lookup_1 in Hpg as [a Ha]. pose proof Hg as Hg'. apply list_elem_of_lookup_1 in Hg' as [b Hb].
    pose proof (granted_once a b _ _ Ha Hb E) as ->. rewrite Ha in Hb. injection Hb as _ Hpi.
    by rewrite Hunpaid in E. }
  split; cbn [db granted paid w']; try done.
  - intros p [Hp| ->%list_elem_of_singleton]%elem_of_app; [by apply paid_granted|done].
  - intros p [Hp| ->%list_elem_of_singleton]%elem_of_app; [by apply paid_claimed|by exists at_].
  - intros a b p q [Hx|[Hlx Hx]]%lookup_app_Some [Hy|[Hly Hy]]%lookup_app_Some Heq; [by eapply paid_once| | |].
    + apply list_lookup_singleton_Some in Hy as [_ <-]. cbn in Heq.
      rewrite Hfree in Heq by by eapply list_elem_of_lookup_2. done.
    + apply list_lookup_singleton_Some in Hx as [_ <-]. cbn in Heq.
      rewrite sql_eq_sym, Hfree in Heq by by eapply list_elem_of_lookup_2. done.
    + apply list_lookup_singleton_Some in Hx as [Hx _], Hy as [Hy _]. lia.
  - intros p r [Hp| ->%list_elem_of_singleton]%elem_of_app Hr; [by apply paid_since|by apply Hsince].
Qed.

Lemma grows_auditTranscript `{JP : JsonParser} c request w : sound d0 w → holding c w →
  grows d0 i (auditTranscript c request)
    (holds (fun _ w' => ∃ p, p ∈ paid w' ∧ paid_for p = c ∧ payer p = i)) w.
Proof.
  intros Hw Hh. assert (∀ w w', kept i w w' → grown w w') as HK by (by intros ? ? []).
  apply does_sync_bind; [apply _|done| |done]. intros settings _.
  apply does_sync_bind; [apply _|done| |done]. intros body _.
  apply does_ask; [apply _|done|done|done|]. intros t1 w1 Hs1 Hk1 _.
  apply does_perform; [apply _|done|done|]. intros a x w2 [= <- <-].
  destruct (payment_sound c body w1 Hs1 (holding_kept _ _ _ Hk1 Hh)) as (Hs2 & Hg2 & Hgr2).
  split_and!; [done|done|done|]. intros w3 Hk3 Hs3.
  apply does_ask; [apply _|done|done|done|]. intros t2 w4 Hs4 Hk4 _. apply does_ret; [apply _|done|].
  exists (Payment i c body). split_and!; [|done|done].
  eapply elem_of_prefix; [|apply Hk4]. eapply elem_of_prefix; [|apply Hk3]. cbn.
  apply elem_of_app. right. by apply list_elem_of_singleton.
Qed.
End Spending.

(** ** Bundles of the processor *)

Section Bundles.
Context `{PL : Platform}.

(** A bundle of the given identity, with the given status and eligibility. *)
Definition bundle_for (c : CallAuditResultIdentity) (b : CallAuditResultBundle) (status : ProcessingStatus)
    (eligibility : CallAuditEligibility) : Prop :=
  ∃ id, requireIdentity c = Ok id ∧ res_identity (bundle_result b) = id ∧ resultIdFor id = Ok (res_id (bundle_result b)) ∧
    processingStatus (bundle_result b) = status ∧ res_eligibility (bundle_result b) = eligibility ∧
    idempotencyKeyFor id = Ok (idempotencyKey (bundle_result b)).

(** The steps of a builder, left as they are. *)
Ltac steps H :=
  repeat (apply bind_Ok_iff in H; destruct H as (? & ? & H)); apply Ok_inj in H; subst.

Lemma failed_bundle c e code k b : buildFailedResult c e code k = Ok b → bundle_for c b failed e.
Proof. unfold buildFailedResult. intros Hb. steps Hb. eexists. split_and!; [eassumption|reflexivity|eassumption|reflexivity|reflexivity|eassumption]. Qed.

Lemma skipped_bundle c e code k b : buildSkippedResult c e code k = Ok b → bundle_for c b skipped e.
Proof. unfold buildSkippedResult. intros Hb. steps Hb. eexists. split_and!; [eassumption|reflexivity|eassumption|reflexivity|reflexivity|eassumption]. Qed.

Lemma skipped_code c e code k b :
  buildSkippedResult c e (VStr (CALL_AUDIT_SPEND_SKIP_CODES code)) k = Ok b →
  errorCode (bundle_result b) = Some (CALL_AUDIT_SPEND_SKIP_CODES code).
Proof.
  unfold buildSkippedResult. intros (id & _ & Hb)%bind_Ok_iff. apply bind_Ok_iff in Hb as (x & Hx & Hb). steps Hb. cbn. f_equal.
  assert (requireSafeErrorCode (VStr (CALL_AUDIT_SPEND_SKIP_CODES code)) "skipCode" = Ok (CALL_AUDIT_SPEND_SKIP_CODES code)) as Hs
    by (destruct code; vm_compute; reflexivity).
  rewrite Hs in Hx. by injection Hx.
Qed.

Lemma operational_bundle c k a b : buildOperationalOnlyResult c k a = Ok b → bundle_for c b succeeded operational_only.
Proof. unfold buildOperationalOnlyResult. intros Hb. steps Hb. eexists. split_and!; [eassumption|reflexivity|eassumption|reflexivity|reflexivity|eassumption]. Qed.

Lemma content_bundle c o k a b : buildContentAuditResult c o k a = Ok b → bundle_for c b succeeded content_auditable.
Proof. unfold buildContentAuditResult. intros Hb. steps Hb. eexists. split_and!; [eassumption|reflexivity|eassumption|reflexivity|reflexivity|eassumption]. Qed.

Lemma answered_bundle_for r c k at_ b : answered_bundle r c k at_ = Ok b →
  ∃ status, bundle_for c b status content_auditable ∧
    (status = succeeded ∧ outcome_of r = attempt_succeeded ∨ status = failed ∧ outcome_of r ≠ attempt_succeeded).
Proof.
  destruct r as [o u|u|e u]; intros Hb.
  - exists succeeded. split; [exact (content_bundle _ _ _ _ _ Hb)|by left].
  - exists failed. split; [exact (failed_bundle _ _ _ _ _ Hb)|by right].
  - exists failed. split; [exact (failed_bundle _ _ _ _ _ Hb)|by right].
Qed.

Lemma usage_record_for u r : buildUsageEventRecord u = Ok r →
  ∃ id, requireIdentity (in_identity u) = Ok id ∧ resultIdFor id = Ok (usage_resultId r) ∧
    usage_runId r = runId id ∧ attemptOutcome r = in_attemptOutcome u.
Proof. unfold buildUsageEventRecord. intros Hr. steps Hr. eexists. split_and!; [eassumption|eassumption|reflexivity..]. Qed.
End Bundles.

(** ** One candidate *)

Section Processing.
Context `{PL : Platform, CO : Collation, ST : Storage, JP : JsonParser}.

(** The identity one candidate is audited under. *)
Definition candidate_identity (p : ProcessCallAuditCandidateInput) (e : SourceRevisionEnvelope) : CallAuditResultIdentity :=
  Identity (pi_runId p) (buildSourceRefId (reference e)) (pi_ruleVersionId p).

(** There is something to audit. *)
Definition auditable (e : SourceRevisionEnvelope) : bool :=
  hasTranscript (reference e) && bool_decide (is_Some (transcript e)).

(** What happened to a candidate, and what the tables then say: nothing to audit; turned away,
    by a result or a claim that is stored; or one attempt, under a claim of this run, that
    succeeded only if it was paid. *)
Inductive handled (c : CallAuditResultIdentity) (e : SourceRevisionEnvelope) (s : CallAuditProcessingSummary) (w : world)
    : Prop :=
| handled_operational : auditable e = false → modelAttempted s = false → sum_usage s = None → spendSkipCode s = None →
    sum_status s = succeeded → sum_eligibility s = operational_only → handled c e s w
| handled_suppressed code : auditable e = true → modelAttempted s = false → sum_usage s = None →
    spendSkipCode s = Some code → sum_status s = skipped → sum_eligibility s = content_auditable →
    blocked c code (db w) → handled c e s w
| handled_audited u us : auditable e = true → modelAttempted s = true → spendSkipCode s = None →
    sum_eligibility s = content_auditable →
    sum_usage s = Some us → usage_recorded (db w) u → usage_resultId u = sum_resultId s →
    us_attemptNumber us = attemptNumber u → us_attemptOutcome us = attemptOutcome u → us_errorCode us = usage_errorCode u →
    (∃ at_, claim_values (ClaimInput c at_) ∈ spend_claims (db w)) →
    (sum_status s = succeeded ∧ attemptOutcome u = attempt_succeeded ∧ (∃ p, p ∈ paid w ∧ paid_for p = c) ∨
     sum_status s = failed ∧ attemptOutcome u ≠ attempt_succeeded) →
    handled c e s w.

(** A result that was skipped says what stood in the way. *)
Definition explained (b : CallAuditResultBundle) (s : CallAuditProcessingSummary) : Prop :=
  ∀ code, spendSkipCode s = Some code → errorCode (bundle_result b) = Some (CALL_AUDIT_SPEND_SKIP_CODES code).

(** The revision, the reference and the result of a processed candidate are in the tables. *)
Definition processed (p : ProcessCallAuditCandidateInput) (s : CallAuditProcessingSummary) (w : world) : Prop :=
  ∃ e b, buildSourceRevision (pi_candidate p) = Ok e ∧
    (sum_sourceRef s).1 = buildSourceRefId (reference e) ∧ source_recorded (db w) (reference e) ∧
    bundle_for (candidate_identity p e) b (sum_status s) (sum_eligibility s) ∧ bundle_recorded (db w) b ∧
    sum_resultId s = res_id (bundle_result b) ∧ explained b s ∧ handled (candidate_identity p e) e s w.

Lemma handled_grown c e s w w' : grown w w' → handled c e s w → handled c e s w'.
Proof.
  intros Hg [|?|u us ?????? Hu ??? [at_ Ha] Hst]; [by apply handled_operational| |].
  { eapply handled_suppressed; try done. eapply blocked_step; [apply Hg|done]. }
  eapply handled_audited; eauto.
  - eapply usage_recorded_step; [apply Hg|done].
  - exists at_. eapply elem_of_prefix; [exact Ha|apply Hg].
  - destruct Hst as [(? & ? & p & Hp & ?)|?]; [left|by right].
    split_and!; [done..|]. exists p. split; [|done]. eapply elem_of_prefix; [exact Hp|apply Hg].
Qed.

Lemma processed_grown p s w w' : grown w w' → processed p s w → processed p s w'.
Proof.
  intros Hg (e & b & H1 & H2 & H3 & H4 & H5 & H6 & H7 & H8). exists e, b.
  refine (conj H1 (conj H2 (conj _ (conj H4 (conj _ (conj H6 (conj H7 _))))))).
  - eapply source_recorded_step; [apply Hg|done].
  - eapply bundle_recorded_step; [apply Hg|done].
  - by eapply handled_grown.
Qed.

Context (d0 : tables) (i : nat).
Notation holds P := (fun r w' => match r with Ok a => P a w' | Throw _ => True end).

Lemma keeps_repository {A} (m : act persistence_error A) (P : A → world → Prop) w :
  keeps d0 i m (holds P) w → keeps d0 i (repository m) (holds P) w.
Proof. intros Hm. apply does_rethrow; [apply _|]. eapply does_mono; [exact Hm|]. by intros [a|e]. Qed.

Lemma keeps_recorded {A B} (r : recorded A) (f : A → act processing_error B) (P : B → world → Prop) w :
  sound d0 w → (∀ a, r = Ok a → keeps d0 i (f a) (holds P) w) → keeps d0 i (recorded_ r ≫= f) (holds P) w.
Proof. intros Hw Hf. apply keeps_check; [done|]. intros a Ha. apply Hf. by destruct r; [injection Ha as ->|]. Qed.

(** What the last steps of a candidate establish. *)
Definition concluded (p : ProcessCallAuditCandidateInput) (e : SourceRevisionEnvelope) (s : CallAuditProcessingSummary)
    (w : world) : Prop :=
  ∃ b, bundle_for (candidate_identity p e) b (sum_status s) (sum_eligibility s) ∧ bundle_recorded (db w) b ∧
    sum_resultId s = res_id (bundle_result b) ∧ explained b s ∧ handled (candidate_identity p e) e s w ∧
    (sum_sourceRef s).1 = buildSourceRefId (reference e).

Lemma keeps_persist_attempt p e sourceRef b status usage w :
  sound d0 w → sourceRef.1 = buildSourceRefId (reference e) → auditable e = true →
  bundle_for (candidate_identity p e) b status content_auditable →
  in_identity usage = candidate_identity p e →
  (∃ at_, claim_values (ClaimInput (candidate_identity p e) at_) ∈ spend_claims (db w)) →
  (status = succeeded ∧ in_attemptOutcome usage = attempt_succeeded ∧
     (∃ q, q ∈ paid w ∧ paid_for q = candidate_identity p e) ∨
   status = failed ∧ in_attemptOutcome usage ≠ attempt_succeeded) →
  keeps d0 i (persist_attempt sourceRef b usage) (holds (fun s w' => concluded p e s w' ∧ modelAttempted s = true)) w.
Proof.
  intros Hw Href Haud Hb Hid [at_ Hclaim] Hstatus.
  apply keeps_bind. eapply does_mono; [by apply keeps_repository, keeps_saveResultBundle|].
  intros [saved|err] w1 Hs1 Hk1 Hsaved; [|done].
  apply keeps_recorded; [done|]. intros u Hu. apply usage_record_for in Hu as (id & Hreq & Hrid & _ & Hout).
  apply keeps_bind. eapply does_mono; [by apply keeps_repository, keeps_recordUsageAttempt|].
  intros [o|err] w2 Hs2 Hk2 Husage; [|done]. apply keeps_ret; [done|].
  pose proof Hb as (id' & Hreq' & Hrid' & Hres & Hst & Hel & _). rewrite Hid in Hreq. rewrite Hreq in Hreq'. injection Hreq' as <-.
  split; [|done]. exists b. cbn [summarize sum_status sum_eligibility sum_resultId sum_sourceRef]. rewrite Hst, Hel.
  refine (conj Hb (conj _ (conj eq_refl (conj _ (conj _ Href))))); [| |].
  - eapply bundle_recorded_step; [apply Hk2|done].
  - by intros code [=].
  - eapply handled_audited; cbn [summarize]; try reflexivity; try done.
    + rewrite Hres in Hrid. by injection Hrid.
    + exists at_. eapply elem_of_prefix; [exact Hclaim|]. transitivity (spend_claims (db w1)); [apply Hk1|apply Hk2].
    + rewrite Hout. cbn [sum_status]. destruct Hstatus as [(-> & -> & q & Hq & Hqc)|[-> ?]]; [left|by right].
      split_and!; [done..|]. exists q. split; [|done]. eapply elem_of_prefix; [exact Hq|].
      transitivity (paid w1); [apply Hk1|apply Hk2].
Qed.

Lemma keeps_conclude p e sourceRef b skip w :
  sound d0 w → sourceRef.1 = buildSourceRefId (reference e) →
  (auditable e = true ∧ (∃ code, skip = Some code ∧ blocked (candidate_identity p e) code (db w) ∧
       errorCode (bundle_result b) = Some (CALL_AUDIT_SPEND_SKIP_CODES code)) ∧
     bundle_for (candidate_identity p e) b skipped content_auditable ∨
   auditable e = false ∧ skip = None ∧ bundle_for (candidate_identity p e) b succeeded operational_only) →
  keeps d0 i (saved ← repository (saveResultBundle b); mret (summarize sourceRef b saved false None skip))
    (holds (concluded p e)) w.
Proof.
  intros Hw Href Hb. apply keeps_bind. eapply does_mono; [by apply keeps_repository, keeps_saveResultBundle|].
  intros [saved|err] w1 Hs1 Hk1 Hsaved; [|done]. apply keeps_ret; [done|].
  destruct Hb as [(Ha & (code & -> & Hbl & Hcode) & Hb)|(Ha & -> & Hb)]; pose proof Hb as (id' & _ & _ & _ & Hst & Hel & _);
    exists b; cbn [summarize sum_status sum_eligibility sum_resultId sum_sourceRef]; rewrite Hst, Hel;
    refine (conj Hb (conj Hsaved (conj eq_refl (conj _ (conj _ Href))))).
  - by intros c [= <-].
  - apply (handled_suppressed _ _ _ _ code); try done. eapply blocked_step; [apply Hk1|done].
  - by intros c [=].
  - by apply handled_operational.
Qed.

(** The claimed candidate: one request, then its rows. *)
Lemma grows_audit_claimed p attempt auditedAt recordedAt text e sourceRef w :
  sound d0 w → holding d0 i (candidate_identity p e) w →
  sourceRef.1 = buildSourceRefId (reference e) → auditable e = true →
  grows d0 i (audit_claimed p attempt auditedAt recordedAt text (reference e) sourceRef (candidate_identity p e))
    (holds (fun s w' => concluded p e s w' ∧ modelAttempted s = true)) w.
Proof.
  intros Hw Hh Href Haud. pose proof Hh as [_ [at_ Hrow] _ _].
  apply does_seq; [apply _|]. eapply does_mono; [by apply grows_auditTranscript|].
  intros [answer|err] w1 Hs1 Hg1 Hp.
  - apply keeps_grows. apply keeps_recorded; [done|].
    intros b Hb. destruct (answered_bundle_for _ _ _ _ _ Hb) as (status & Hfor & Hst).
    apply (keeps_persist_attempt p e sourceRef b status); try done.
    + exists at_. eapply elem_of_prefix; [exact Hrow|apply Hg1].
    + destruct Hst as [[-> Ho]|[-> Ho]]; [left|by right]. split; [done|]. split; [done|].
      destruct Hp as (q & Hq & Hqc & _). by exists q.
  - apply keeps_grows. apply keeps_recorded; [done|]. intros b Hb.
    apply (keeps_persist_attempt p e sourceRef b failed); try done.
    + by eapply failed_bundle.
    + exists at_. eapply elem_of_prefix; [exact Hrow|apply Hg1].
    + by right.
Qed.

Lemma auditable_cases e {A} (f : string → A) (g : A) :
  match hasTranscript (reference e), transcript e with true, Some t => f t | _, _ => g end =
  if auditable e then f (default "" (transcript e)) else g.
Proof.
  unfold auditable. destruct (hasTranscript (reference e)), (transcript e); cbn; try done.
Qed.

(** One candidate, whatever the others do; one that was not attempted took no claim and paid nothing. *)
Lemma grows_processCallAuditCandidate p w : sound d0 w →
  grows d0 i (processCallAuditCandidate p)
    (holds (fun s w' => processed p s w' ∧ (modelAttempted s = false → kept i w w'))) w.
Proof.
  intros Hw. unfold processCallAuditCandidate.
  do 5 (apply does_sync_bind; [apply _|done| |done]; intros ? _).
  apply does_sync_bind; [apply _|done| |done]. intros e He.
  assert (buildSourceRevision (pi_candidate p) = Ok e) as Hrev
    by (destruct (buildSourceRevision (pi_candidate p)); [by injection He as ->|done]). clear He.
  eapply (does_mono _ _ _ _ (holds (fun s w' => concluded p e s w' ∧ source_recorded (db w') (reference e) ∧
    (modelAttempted s = false → kept i w w')))).
  2:{ intros [s|err] w' Hs Hg HP; [|done]. destruct HP as [(b & H1 & H2 & H3 & H4 & H5 & H6) [H7 H8]]. split; [|exact H8].
      exists e, b. exact (conj Hrev (conj H6 (conj H7 (conj H1 (conj H2 (conj H3 (conj H4 H5))))))). }
  unfold audit_candidate. apply does_bind; [apply _|].
  eapply does_mono; [by apply keeps_grows_kept, keeps_repository, keeps_upsertSourceReference|].
  intros [sourceRef|err] w1 Hs1 Hg1 [Hkept1 Hup]; [|done]. destruct Hup as [Href Hsource].
  assert (Identity (pi_runId p) sourceRef.1 (pi_ruleVersionId p) = candidate_identity p e) as ->
    by (unfold candidate_identity; by rewrite Href).
  rewrite auditable_cases.
  assert (∀ w', grown w1 w' → source_recorded (db w') (reference e)) as Hend.
  { intros w' Hg. eapply source_recorded_step; [apply Hg|done]. }
  destruct (auditable e) eqn:Haud.
  - apply does_bind; [apply _|].
    eapply (does_mono _ _ _ _ (holds (fun r w' => match r with
      | claimed => holding d0 i (candidate_identity p e) w'
      | duplicate code => blocked (candidate_identity p e) code (db w') ∧ kept i w1 w' end))).
    { apply does_rethrow; [apply _|]. eapply does_mono; [by apply grows_claim|]. by intros [r|err] w' _ _ HP. }
    intros [outcome|err] w2 Hs2 Hg2 Hc; [|done]. destruct outcome as [|code].
    + eapply does_mono; [by apply grows_audit_claimed|].
      intros [s|err] w3 Hs3 Hg3 HP; [|done]. destruct HP as [HP Hatt].
      split; [done|]. split; [apply Hend; by etransitivity|congruence].
    + destruct Hc as [Hblocked Hkept2]. eapply does_mono.
      { apply keeps_grows_kept, keeps_recorded; [done|]. intros b Hb. apply (keeps_conclude p e); [done|done|].
        left. split; [done|]. split; [|by eapply skipped_bundle]. exists code. split; [done|]. split; [done|].
        by eapply skipped_code. }
      intros [s|err] w3 Hs3 Hg3 [Hkept3 HP]; [|done]. split; [done|]. split; [apply Hend; by etransitivity|].
      intros _. transitivity w1; [done|]. by transitivity w2.
  - eapply does_mono.
    { apply keeps_grows_kept, keeps_recorded; [done|]. intros b Hb. apply (keeps_conclude p e); [done|done|].
      right. split; [done|]. split; [done|]. by eapply operational_bundle. }
    intros [s|err] w3 Hs3 Hg3 [Hkept3 HP]; [|done]. split; [done|]. split; [by apply Hend|].
    intros _. by transitivity w1.
Qed.
End Processing.
