(* ===== verification/CallLifecycles.v ===== *)
(** * The lifecycles of runs and rule versions

    The operations of [CallControl] and [CallRuleStore] in the logic of [CallWorld]: a row of a
    run never goes back and a settled one is frozen, of the rule versions one is active and
    what a version says is never rewritten. *)

From S2P Require Import Prelude JsText CanonicalJson Sql Scoring SourceRevision ResultRecords Prog CallRules CallStore CallPersistence CallModel CallControl CallRuleStore CallWorld.

Local Open Scope string_scope.
Local Open Scope list_scope.
#[global] Open Scope Z_scope.

(** ** Transactions *)

Section Transactions.
Context {A : Type}.
Implicit Types (body : Sql tables control_error (TransactionOutcome A)).

Lemma locked_cases body env n d r n' d' :
  locked body env n d = (r, (n', d')) →
  d' = d ∨ ∃ o n1, body env (S (S n)) d = (Ok o, (n1, d')) ∧ commit o = true.
Proof. apply locking_cases. Qed.

Lemma locked_Ok body env n d a n' d' :
  locked body env n d = (Ok a, (n', d')) →
  ∃ o n1 d1, body env (S (S n)) d = (Ok o, (n1, d1)) ∧ a = outcome_value o ∧ d' = if commit o then d1 else d.
Proof. apply locking_Ok. Qed.

Lemma on_connection_Ok {B} (s : tables → Prelude.result sql_error (B * tables)) env n d b n' d' :
  on_connection s env n d = (Ok b, (n', d')) → s d = Ok (b, d').
Proof. intros Hr%catching_Ok. apply request_Ok in Hr as (_ & d2 & Hs & [= -> ->]). done. Qed.
End Transactions.

(** ** Runs *)

Section Runs.
Context `{PL : Platform, CO : Collation, ST : Storage, JP : JsonParser, WO : !StatusWords CO}.

Lemma status_in_spec statuses r :
  Forall (fun s => s ∈ RUN_STATUSES) statuses → runStatusOf r ∈ RUN_STATUSES → column r "status" = CText (runStatusOf r) →
  status_in statuses r = true ↔ runStatusOf r ∈ statuses.
Proof.
  intros Hall Hr Hc. unfold status_in. rewrite existsb_exists. rewrite Forall_forall in Hall. split.
  - intros (s & Hs%list_elem_of_In & Heq). rewrite (column_is_text _ _ _ _ Hc) in Heq.
    apply status_words in Heq; [by subst s| |].
    + by apply elem_of_app; left.
    + apply elem_of_app; left. by apply Hall.
  - intros Hin. exists (runStatusOf r). split; [by apply list_elem_of_In|].
    rewrite (column_is_text _ _ _ _ Hc). apply sql_eq_refl.
Qed.

Lemma open_status s : s ∈ ["pending"; "running"] → isTerminal s = false ∧ s ∈ RUN_STATUSES.
Proof.
  intros [->|[->|[]%elem_of_nil]%elem_of_cons]%elem_of_cons; (split; [reflexivity|]);
    apply (bool_decide_unpack _); vm_compute; exact I.
Qed.

(** Assignments that move a run on from the given statuses. *)
Record advances (from : list string) (sets : row) : Prop := Advances {
  adv_from : Forall (fun s => s ∈ ["pending"; "running"]) from;
  adv_identity : Forall (fun c => List.find (fun q => String.eqb q.1 c) sets = None) RUN_IDENTITY;
  adv_status : List.find (fun q => String.eqb q.1 "status") sets = None ∨
    ∃ s, List.find (fun q => String.eqb q.1 "status") sets = Some ("status", CText s) ∧ s ∈ RUN_STATUSES ∧
      Forall (fun f => (status_rank f ≤ status_rank s)%nat) from;
  adv_started : List.find (fun q => String.eqb q.1 "started_at") sets = None ∨ from = ["pending"];
}.

Lemma find_stored l sets c :
  List.find (fun q => String.eqb q.1 c) (stored l sets) =
  (fun q => (q.1, stored_cell l q.1 q.2)) <$> List.find (fun q => String.eqb q.1 c) sets.
Proof.
  unfold stored. induction sets as [|q sets IH]; [done|]. cbn [map List.find fst].
  by destruct (String.eqb q.1 c).
Qed.

Definition run_row_ok (r : row) : Prop :=
  columns_of r = RUN_COLUMNS ∧ runStatusOf r ∈ RUN_STATUSES ∧ column r "status" = CText (runStatusOf r).

Lemma runStatusOf_text r s : column r "status" = CText s → runStatusOf r = s.
Proof. unfold runStatusOf. by intros ->. Qed.

(** An advanced row. *)
Lemma advance_row from sets r :
  advances from sets → run_row_ok r → runStatusOf r ∈ from →
  let r' := set_columns (stored RUN_DATETIMES sets) r in run_row_ok r' ∧ run_le r r'.
Proof.
  intros [Hfrom Hid Hst Hsa] (Hcols & Hstat & Hcell) Hin r'.
  assert (∀ c, List.find (fun q => String.eqb q.1 c) sets = None → column r' c = column r c) as Hkeep.
  { intros c Hf. unfold r'. by rewrite column_set_columns, find_stored, Hf. }
  assert (∃ s, column r' "status" = CText s ∧ s ∈ RUN_STATUSES ∧ (status_rank (runStatusOf r) ≤ status_rank s)%nat)
    as (s & Hs & Hs1 & Hs2).
  { destruct Hst as [Hf|(s & Hf & Hs1 & Hs2)].
    - exists (runStatusOf r). by rewrite Hkeep, Hcell.
    - exists s. split; [|split; [done|]].
      + unfold r'. rewrite column_set_columns, find_stored, Hf, Hcols. reflexivity.
      + rewrite Forall_forall in Hs2. by apply Hs2. }
  split; [split_and!|split].
  - unfold r'. by rewrite columns_set_columns.
  - by rewrite (runStatusOf_text _ _ Hs).
  - by rewrite (runStatusOf_text _ _ Hs).
  - apply (Forall_impl _ _ _ Hid). by auto.
  - by rewrite (runStatusOf_text _ _ Hs).
  - intros Hp. destruct Hsa as [Hf| ->]; [by apply Hkeep|]. by apply list_elem_of_singleton in Hin.
  - intros Ht. rewrite Forall_forall in Hfrom. specialize (Hfrom _ Hin).
    apply open_status in Hfrom as [Hfrom _]. congruence.
Qed.

Lemma update_run_step id from sets d :
  advances from sets → tables_ok d → tables_step d (update_run id from sets d).
Proof.
  intros Hadv Hok. assert (∀ r, r ∈ runs d → run_row_ok r) as Hrows by apply Hok.
  set (f r := if run_is id r && status_in from r then set_columns (stored RUN_DATETIMES sets) r else r).
  assert (∀ r, r ∈ runs d → run_row_ok (f r) ∧ run_le r (f r)) as Hf.
  { intros r Hr. specialize (Hrows r Hr). unfold f. destruct (run_is id r); cbn [andb]; [|by split].
    destruct (status_in from r) eqn:E; [|by split]. apply (advance_row from); [done|done|].
    destruct Hrows as (_ & H2 & H3). apply status_in_spec in E; [done| |done|done].
    apply (Forall_impl _ _ _ (adv_from _ _ Hadv)). intros s Hs. by apply open_status. }
  split; cbn; try reflexivity.
  - apply (table_le_map run_le f). intros r Hr. by apply Hf.
  - intros []. split; cbn; [|done..]. intros r Hr. apply list_elem_of_fmap in Hr as (x & -> & Hx). by apply Hf.
Qed.

Lemma insert_run_step v d a d' : insert_run v d = Ok (a, d') →
  tables_step d d' ∧ stored RUN_DATETIMES (runValues v) ∈ runs d'.
Proof.
  unfold insert_run. intros Hi. bind_ok.
  match goal with E : insert_unique _ _ _ = _ |- _ => apply insert_unique_Ok in E as [_ ->] end.
  split; [|cbn; apply elem_of_app; right; by apply list_elem_of_singleton].
  split; cbn; try reflexivity.
  - apply (table_le_snoc run_le), _.
  - intros []. split; cbn; [|done..]. intros r [Hr| ->%list_elem_of_singleton]%elem_of_app; [by apply ok_runs|].
    split; [done|]. split; [by left|done].
Qed.

(** *** Transitions *)

Context (d0 : tables) (i : nat).
Notation holds P := (fun r w' => match r with Ok a => P a w' | Throw _ => True end).

(** Every write that is decided on moves the run on. *)
Definition decides_advances (decide : row → controlled run_decision) : Prop :=
  ∀ r from sets status, run_row_ok r → decide r = Ok (Apply from sets status) → advances from sets ∧ runStatusOf r ∈ from.

(** The row a decision leaves. *)
Definition decided_row (dec : run_decision) (r : row) : row :=
  match dec with Replay _ => r | Apply _ sets _ => set_columns (stored RUN_DATETIMES sets) r end.
Definition decided_status (dec : run_decision) : string := match dec with Replay s | Apply _ _ s => s end.

Lemma transition_body_Ok runId decide env n d o n' d' :
  transition_body runId decide env n d = (Ok o, (n', d')) →
  ∃ r dec, r ∈ runs d ∧ run_is runId r = true ∧ decide r = Ok dec ∧
    tr_id (outcome_value o) = runId ∧ tr_status (outcome_value o) = decided_status dec ∧
    match dec with
    | Replay _ => commit o = false
    | Apply from sets _ => commit o = true ∧ d' = update_run runId from sets d
    end.
Proof.
  intros (x & n1 & d1 & Hr & Hb)%sql_bind_Ok. apply on_connection_Ok in Hr. injection Hr as <- <-.
  destruct (first_row _ _) as [r|] eqn:Er; [|by apply lift_Ok in Hb as [? _]].
  apply first_row_Some in Er as [Hr Hid]. apply sql_bind_Ok in Hb as (dec & n2 & d2 & Hd & Hb).
  apply lift_Ok in Hd as [Hd [= -> ->]]. exists r, dec. split_and!; [done..| | |]; destruct dec as [s|from sets s].
  1,3,5: by apply ret_Ok in Hb as [<- _].
  all: apply sql_bind_Ok in Hb as (u & n3 & d3 & Hu & Hb); apply on_connection_Ok in Hu; injection Hu as _ <-;
    by apply ret_Ok in Hb as [<- [= -> ->]].
Qed.

(** A transition that answers was decided on the row of the run, and left its row. *)
Lemma keeps_transition runId decide w :
  sound d0 w → decides_advances decide →
  keeps d0 i (transition runId decide)
    (holds (fun t w' => ∃ r dec r', run_row_ok r ∧ run_is runId r = true ∧ decide r = Ok dec ∧
       tr_id t = runId ∧ tr_status t = decided_status dec ∧
       r' ∈ runs (db w') ∧ run_le (decided_row dec r) r')) w.
Proof.
  intros Hw Hdec. assert (tables_ok (db w)) as Hok by apply Hw.
  assert (∀ r, r ∈ runs (db w) → run_row_ok r) as Hrows by apply Hok.
  apply does_transaction; [apply _|done|done| |].
  - intros env r n d' [->|(o & n1 & Hb & Hc)]%locked_cases; [reflexivity|].
    apply transition_body_Ok in Hb as (x & dec & Hx & _ & Hd & _ & _ & Hw'). destruct dec as [s|from sets s]; [congruence|].
    destruct Hw' as [_ ->]. apply update_run_step; [|done]. by eapply Hdec; [apply Hrows|].
  - intros env r n d' w' Hl Hs Hk _ _. destruct r as [t|e]; [|done].
    apply locked_Ok in Hl as (o & n1 & d1 & Hb & -> & Hd').
    apply transition_body_Ok in Hb as (x & dec & Hx & Hid & Hd & Hti & Hts & Hw').
    assert (∃ y, y ∈ runs d' ∧ y = decided_row dec x) as (y & Hy & ->).
    { destruct dec as [s|from sets s]; [rewrite Hw' in Hd'; subst d'; by eauto|].
      destruct (Hdec _ _ _ _ (Hrows _ Hx) Hd) as [Hadv Hin].
      destruct Hw' as [Hc ->]. rewrite Hc in Hd'. subst d'.
      eexists. split; [|reflexivity]. cbn. apply list_elem_of_fmap. exists x. split; [|done].
      rewrite Hid. cbn [andb]. replace (status_in from x) with true; [done|]. symmetry.
      destruct (Hrows _ Hx) as (_ & H2 & H3). apply status_in_spec; [|done..].
      apply (Forall_impl _ _ _ (adv_from _ _ Hadv)). intros z Hz. by apply open_status. }
    destruct (runs_le_lookup (runs d') (runs (db w')) _ (step_runs _ _ (grown_tables _ _ (kept_grown _ _ _ Hk))) Hy)
      as (z & Hz & Hle).
    exists x, dec, z. split_and!; try done. by apply Hrows.
Qed.

(** *** Every transition moves its run on *)

Lemma run_status_open s : s ∈ RUN_STATUSES → isTerminal s = false → s ∈ ["pending"; "running"].
Proof.
  intros Hs Ht. unfold RUN_STATUSES in Hs.
  repeat (apply elem_of_cons in Hs as [->|Hs]; [first [by left | by right; left | discriminate Ht]|]).
  by apply elem_of_nil in Hs.
Qed.

Lemma decide_running_advances runId startedAt : decides_advances (decide_running runId startedAt).
Proof.
  intros r from sets status Hr Hd. unfold decide_running in Hd.
  destruct (String.eqb (runStatusOf r) "running"); bind_ok.
  to_prop. match goal with E : String.eqb _ _ = true |- _ => apply String.eqb_eq in E as -> end.
  split; [|by left]. split.
  - by constructor; [left|].
  - by repeat constructor.
  - right. exists "running". split; [done|]. split; [by right; left|]. repeat constructor.
  - by right.
Qed.

Lemma terminal_rank s : isTerminal s = true → status_rank s = 2%nat.
Proof.
  intros Hs%bool_decide_eq_true. unfold TERMINAL_RUN_STATUSES in Hs.
  repeat (apply elem_of_cons in Hs as [->|Hs]; [done|]). by apply elem_of_nil in Hs.
Qed.

Lemma decide_finish_advances runId toStatus finishedAt code counters :
  isTerminal toStatus = true → decides_advances (decide_finish runId toStatus finishedAt code counters).
Proof.
  intros Hto r from sets status (_ & Hst & _) Hd. unfold decide_finish in Hd.
  destruct (String.eqb (runStatusOf r) toStatus); [bind_ok; by destruct counters; bind_ok|].
  apply bind_Ok_iff in Hd as (u & Hu%throw_if_Ok & Hd). injection Hd as <- <- <-.
  split; [|by apply run_status_open]. split.
  - by repeat constructor.
  - by repeat constructor.
  - right. exists toStatus. split; [done|]. split.
    + apply bool_decide_eq_true in Hto. unfold RUN_STATUSES. by do 2 right.
    + rewrite terminal_rank by done. repeat constructor.
  - left. done.
Qed.

Lemma decide_counters_advances c : decides_advances (decide_counters c).
Proof.
  intros r from sets status (_ & Hst & _) Hd. unfold decide_counters in Hd.
  apply bind_Ok_iff in Hd as (u & Hu%throw_if_Ok & Hd). destruct (countersDiffer r c); [|done]. injection Hd as <- <- <-.
  pose proof (run_status_open _ Hst Hu). split; [|by left]. split.
  - by constructor.
  - by repeat constructor.
  - left. done.
  - left. done.
Qed.

(** *** Settled runs *)

(** The row of the run has its final status, its error code and these counters. *)
Definition run_settled (d : tables) (runId status : string) (code : option string) (c : CallAuditRunCounters) : Prop :=
  ∃ r, r ∈ runs d ∧ run_is runId r = true ∧ runStatusOf r = status ∧ textOrNull (column r "error_code") = code ∧
    readCounters r = c.

Lemma run_settled_step d d' runId status code c :
  isTerminal status = true → tables_step d d' → run_settled d runId status code c → run_settled d' runId status code c.
Proof.
  intros Ht Hs (r & Hr & Hid & Hst & Hrest). destruct (runs_le_lookup _ _ _ (step_runs _ _ Hs) Hr) as (r' & Hr' & Hle).
  exists r'. rewrite (le_settled _ _ Hle) in * by by rewrite Hst. done.
Qed.

Lemma countersDiffer_None r c : countersDiffer r c = None → readCounters r = c.
Proof.
  unfold countersDiffer, first_difference. intros Hd. apply fmap_None in Hd.
  assert (Forall (fun p => numberOrNull (column r p.1.2) = Some (p.2 c)) COUNTER_COLUMNS) as Hc.
  { apply Forall_forall. intros p Hp.
    assert (In (number_check r p.1.2 (Some (p.2 c))) (map (fun p => number_check r p.1.2 (Some (p.2 c))) COUNTER_COLUMNS))
      as Hin by (apply in_map_iff; exists p; split; [done|by apply list_elem_of_In]).
    pose proof (find_none _ _ Hd _ Hin) as Hn. apply negb_false_iff in Hn. cbn in Hn. by apply bool_decide_eq_true in Hn. }
  unfold COUNTER_COLUMNS in Hc. rewrite !Forall_cons in Hc. cbn [fst snd] in Hc.
  destruct Hc as (H1 & H2 & H3 & H4 & H5 & H6 & H7 & _). unfold readCounters, counter_of.
  rewrite H1, H2, H3, H4, H5, H6, H7. by destruct c.
Qed.

Lemma decided_finish_settled runId toStatus finishedAt code c r dec :
  run_row_ok r → decide_finish runId toStatus finishedAt code (Some c) r = Ok dec →
  decided_status dec = toStatus ∧ runStatusOf (decided_row dec r) = toStatus ∧
  textOrNull (column (decided_row dec r) "error_code") = code ∧ readCounters (decided_row dec r) = c.
Proof.
  intros (Hcols & Hst & Hcell) Hd. unfold decide_finish in Hd.
  destruct (String.eqb_spec (runStatusOf r) toStatus) as [E|E].
  - apply bind_Ok_iff in Hd as (u1 & _ & Hd). apply bind_Ok_iff in Hd as (u2 & Hcode%throw_if_Ok & Hd).
    apply bind_Ok_iff in Hd as (u3 & Hc & Hd). injection Hd as <-. cbn. split_and!; [done|done| |].
    + apply negb_false_iff in Hcode. by apply bool_decide_eq_true in Hcode.
    + unfold control_conflict in Hc. destruct (countersDiffer r c) eqn:Ec; [done|]. by apply countersDiffer_None.
  - apply bind_Ok_iff in Hd as (u & _ & Hd). injection Hd as <-. cbn [decided_status decided_row default].
    unfold runStatusOf, readCounters, counter_of. rewrite !column_set_columns, Hcols. split_and!; [done|done| |].
    + by destruct code.
    + by destruct c.
Qed.

Lemma keeps_control_check {A B} (r : controlled A) (f : A → act control_error B) (P : B → world → Prop) w :
  sound d0 w → (∀ a, r = Ok a → keeps d0 i (f a) (holds P) w) → keeps d0 i (sync r ≫= f) (holds P) w.
Proof. intros Hw Hf. apply does_sync_bind; [apply _|done|done|done]. Qed.

Lemma keeps_finish runId toStatus finishedAt code c w :
  sound d0 w → isTerminal toStatus = true →
  keeps d0 i (finish runId toStatus finishedAt code (Some c))
    (holds (fun t w' => tr_id t = runId ∧ tr_status t = toStatus ∧ run_settled (db w') runId toStatus code c)) w.
Proof.
  intros Hw Ht. eapply does_mono; [apply keeps_transition; [done|by apply decide_finish_advances]|].
  intros [t|e] w' Hs Hk HP; [|done]. destruct HP as (r & dec & r' & Hr & Hid & Hd & Hti & Hts & Hin & Hle).
  destruct (decided_finish_settled _ _ _ _ _ _ _ Hr Hd) as (H1 & H2 & H3 & H4).
  rewrite (le_settled _ _ Hle) in Hin by by rewrite H2.
  split; [done|]. split; [by rewrite Hts|]. exists (decided_row dec r). split_and!; try done.
  destruct dec as [s|from sets s]; [done|]. cbn [decided_row].
  pose proof (decide_finish_advances runId toStatus finishedAt code (Some c) Ht r _ _ _ Hr Hd) as [Hadv Hf].
  destruct (advance_row from sets r Hadv Hr Hf) as [_ Hle2]. pose proof (le_identity _ _ Hle2) as Hids.
  unfold run_is, column_is in *. rewrite Forall_forall in Hids. by rewrite (Hids "id") by left.
Qed.

Lemma keeps_markRunCompleted runId finishedAt c w :
  sound d0 w →
  keeps d0 i (markRunCompleted (VStr runId) finishedAt c)
    (holds (fun t w' => run_settled (db w') (trim runId) "completed" None c)) w.
Proof.
  intros Hw. apply keeps_control_check; [done|]. intros id Hid. apply keeps_control_check; [done|]. intros at_ _.
  apply keeps_control_check; [done|]. intros c' Hc.
  assert (c' = c) as -> by (unfold validateRunCounters in Hc; bind_ok; done).
  assert (id = trim runId) as -> by (unfold requireRunId, control_identifier in Hid; bind_ok; done).
  eapply does_mono; [by apply keeps_finish|]. intros [t|e] w' Hs Hk HP; [apply HP|done].
Qed.

Lemma keeps_markRunFailed runId finishedAt code c w :
  sound d0 w → requireErrorCode (VStr code) "errorCode" = Ok code →
  keeps d0 i (markRunFailed (VStr runId) finishedAt (VStr code) (Some c))
    (holds (fun t w' => run_settled (db w') (trim runId) "failed" (Some code) c)) w.
Proof.
  intros Hw Hcode. apply keeps_control_check; [done|]. intros id Hid. apply keeps_control_check; [done|]. intros at_ _.
  rewrite Hcode. apply keeps_control_check; [done|]. intros code' [= <-].
  apply keeps_control_check; [done|]. intros c' Hc.
  assert (c' = Some c) as -> by (unfold validate_optional_counters, validateRunCounters in Hc; bind_ok; done).
  assert (id = trim runId) as -> by (unfold requireRunId, control_identifier in Hid; bind_ok; done).
  eapply does_mono; [by apply keeps_finish|]. intros [t|e] w' Hs Hk HP; [apply HP|done].
Qed.

Lemma keeps_markRunRunning runId startedAt w :
  sound d0 w → keeps d0 i (markRunRunning runId startedAt) (holds (fun _ _ => True)) w.
Proof.
  intros Hw. apply keeps_control_check; [done|]. intros id _. apply keeps_control_check; [done|]. intros at_ _.
  eapply does_mono; [apply keeps_transition; [done|apply decide_running_advances]|]. by intros [].
Qed.

Lemma keeps_updateRunCounters runId c w :
  sound d0 w → keeps d0 i (updateRunCounters runId c) (holds (fun _ _ => True)) w.
Proof.
  intros Hw. apply keeps_control_check; [done|]. intros id _. apply keeps_control_check; [done|]. intros c' _.
  eapply does_mono; [apply keeps_transition; [done|apply decide_counters_advances]|]. by intros [].
Qed.

(** The row of a run is there, and is the one that was asked for. *)
Definition run_requested (d : tables) (v : ValidatedCallAuditRunRequest) : Prop :=
  ∃ x r, r ∈ runs d ∧ run_le x r ∧ (x = stored RUN_DATETIMES (runValues v) ∨ runConflictField x v = None).

Lemma keeps_createRun request w :
  sound d0 w →
  keeps d0 i (createRun request)
    (holds (fun p w' => ∃ v, validateRunRequest request = Ok v ∧ p.1 = buildRunId v ∧ run_requested (db w') v)) w.
Proof.
  intros Hw. apply keeps_control_check; [done|]. intros v Hv.
  assert (∀ w1 w2 x u, kept i w1 w2 → first_row (column_is "idempotency_key" (vr_idempotencyKey v)) (runs (db w1)) = Some x →
            assertRunMatches x v = Ok u → run_requested (db w2) v) as Hfound.
  { intros w1 w2 x u Hk [Hx _]%first_row_Some Hc.
    destruct (runs_le_lookup (runs (db w1)) (runs (db w2)) _ (step_runs _ _ (grown_tables _ _ (kept_grown _ _ _ Hk))) Hx)
      as (r & Hr & Hle).
    exists x, r. split; [done|]. split; [done|]. right. unfold assertRunMatches, control_conflict in Hc.
    by destruct (runConflictField x v). }
  apply does_bind; [apply _|]. apply does_select; [apply _|done|done| |done]. intros w1 Hs1 Hk1 _.
  destruct (first_row _ _) as [x|] eqn:Ex.
  - apply keeps_control_check; [done|]. intros u Hc. apply does_ret; [apply _|done|]. exists v. split_and!; [done..|].
    by eapply Hfound.
  - apply does_catch; [apply _|]. eapply (does_mono _ _ _ _ (holds _)).
    + apply does_bind; [apply _|]. apply does_statement; [apply _|done|done| | |done].
      * intros a d' Hi. by apply insert_run_step in Hi as [? _].
      * intros a d' w2 Hi Hs2 Hk2 _. apply insert_run_step in Hi as [_ Hin].
        apply does_ret; [apply _|done|].
        instantiate (1 := fun p w' => ∃ v, validateRunRequest request = Ok v ∧ p.1 = buildRunId v ∧ run_requested (db w') v).
        exists v. split_and!; [done..|].
        destruct (runs_le_lookup (runs d') (runs (db w2)) _ (step_runs _ _ (grown_tables _ _ (kept_grown _ _ _ Hk2))) Hin)
          as (r & Hr & Hle). exists (stored RUN_DATETIMES (runValues v)), r. split_and!; [done..|by left].
    + intros [p|e] w2 Hs2 Hk2 HP; [done|]. destruct (negb _); [by apply does_ret; [apply _| |]|].
      apply does_bind; [apply _|]. apply does_select; [apply _|done|done| |done]. intros w3 Hs3 Hk3 _.
      destruct (first_row _ (runs (db w2))) as [x|] eqn:Ex2; [|by apply does_ret; [apply _| |]].
      apply keeps_control_check; [done|]. intros u Hc. apply does_ret; [apply _|done|]. exists v. split_and!; [done..|].
      by eapply Hfound.
Qed.
End Runs.

(** ** Rule versions *)

Section Rules.
Context `{PL : Platform, CO : Collation, ST : Storage, JP : JsonParser, WO : !StatusWords CO}.

(** What a key sees of a row. *)
Lemma clashes_same keys r r' s :
  (∀ k c, k ∈ keys → c ∈ k → column r' c = column r c) → clashes keys r' s = clashes keys r s.
Proof.
  intros Hsame. unfold clashes. induction keys as [|k keys IH]; [done|]. cbn. f_equal.
  - assert (∀ c, c ∈ k → column r' c = column r c) as Hk by (intros c Hc; apply (Hsame k c); [by left|done]).
    clear -Hk. induction k as [|c k IHk]; [done|]. cbn. unfold same_column at 1 3. rewrite (Hk c) by by left.
    f_equal. apply IHk. intros x Hx. apply Hk. by right.
  - apply IH. intros x c Hx. apply Hsame. by right.
Qed.

Lemma distinct_map_same keys f t :
  (∀ r k c, r ∈ t → k ∈ keys → c ∈ k → column (f r) c = column r c) →
  distinct (clashes keys) (map f t) = distinct (clashes keys) t.
Proof.
  intros Hf. induction t as [|r t IH]; [done|]. cbn. f_equal.
  - assert (∀ s, s ∈ t → clashes keys (f r) (f s) = clashes keys r s) as Hc.
    { intros s Hs. rewrite (clashes_same keys r (f r)) by (intros k c; apply Hf; left).
      rewrite clashes_sym, (clashes_same keys s (f s)) by (intros k c; apply Hf; by right). apply clashes_sym. }
    clear -Hc. induction t as [|s t IH]; [done|]. cbn. rewrite Hc by by left. f_equal. apply IH.
    intros x Hx. apply Hc. by right.
  - apply IH. intros x k c Hx. apply Hf. by right.
Qed.

Definition rule_row_ok (r : row) : Prop :=
  columns_of r = RULE_VERSION_COLUMNS ∧ (∃ s, status_of_rule r s) ∧ ∃ id, column r "id" = CText id ∧ id ≠ "".

Lemma rule_active r s : status_of_rule r s → active r = bool_decide (s = "active").
Proof.
  intros [Hc Hs]. unfold active. rewrite (column_is_text _ _ _ _ Hc). case_bool_decide as E.
  - subst s. apply sql_eq_refl.
  - destruct (sql_eq s "active") eqn:Heq; [|done]. apply status_words in Heq; [done| |].
    + apply elem_of_app. by right.
    + apply (bool_decide_unpack _). vm_compute. exact I.
Qed.

(** Assignments of a status and of stamps. *)
Definition restamps (sets : row) (status : string) : Prop :=
  List.find (fun q => String.eqb q.1 "status") sets = Some ("status", CText status) ∧ status ∈ RULE_VERSION_STATUSES ∧
  Forall (fun c => List.find (fun q => String.eqb q.1 c) sets = None) RULE_VERSION_CONTENT.

Lemma restamp_row sets status r :
  restamps sets status → rule_row_ok r →
  let r' := set_columns (stored RULE_VERSION_DATETIMES sets) r in
  rule_row_ok r' ∧ rule_le r r' ∧ status_of_rule r' status.
Proof.
  intros (Hf & Hs & Hkeep) (Hcols & Hst & id & Hid & Hne) r'.
  assert (rule_le r r') as Hle.
  { apply (Forall_impl _ _ _ Hkeep). intros c Hc. unfold r'. by rewrite column_set_columns, find_stored, Hc. }
  assert (status_of_rule r' status) as Hst'.
  { split; [|done]. unfold r'. rewrite column_set_columns, find_stored, Hf, Hcols. reflexivity. }
  split; [|done]. split_and!.
  - unfold r'. by rewrite columns_set_columns.
  - by exists status.
  - exists id. split; [|done]. unfold rule_le in Hle. rewrite Forall_forall in Hle. by rewrite (Hle "id") by left.
Qed.

Definition restamp (P : row → bool) (sets : row) (r : row) : row :=
  if P r then set_columns (stored RULE_VERSION_DATETIMES sets) r else r.

(** The statements of a switch, on a table where they leave at most one version active. *)
Lemma restamp_step P sets status d :
  restamps sets status → tables_ok d →
  (length (where_ active (map (restamp P sets) (rule_versions d))) ≤ 1)%nat →
  tables_step d (with_rule_versions (map (restamp P sets) (rule_versions d)) d) ∧
  tables_ok (with_rule_versions (map (restamp P sets) (rule_versions d)) d).
Proof.
  intros Hsets Hok Hone. pose proof Hok as [Hruns Hrules Hids _ Hres].
  assert (∀ r, r ∈ rule_versions d → rule_row_ok (restamp P sets r) ∧ rule_le r (restamp P sets r)) as Hf.
  { intros r Hr. unfold restamp. destruct (P r); [|split; [by apply Hrules|reflexivity]].
    destruct (restamp_row sets status r Hsets (Hrules r Hr)) as (? & ? & _). done. }
  assert (tables_ok (with_rule_versions (map (restamp P sets) (rule_versions d)) d)) as Hok'.
  { split; cbn; [done| | |done|done].
    - intros r Hr. apply list_elem_of_fmap in Hr as (x & -> & Hx). by apply Hf.
    - rewrite distinct_map_same; [done|]. intros r k c Hr Hk Hc. destruct (Hf r Hr) as [_ Hle].
      unfold rule_le in Hle. rewrite Forall_forall in Hle. apply Hle.
      revert Hc. unfold RULE_VERSION_KEYS in Hk.
      repeat (apply elem_of_cons in Hk as [->|Hk]; [intros Hc; revert c Hc; apply Forall_forall; by repeat constructor|]).
      by apply elem_of_nil in Hk. }
  split; [|done]. split; cbn; try reflexivity; [|done]. apply table_le_map. intros r Hr. by apply Hf.
Qed.

(** *** Writing a version *)

Lemma insert_rule_version_step a l d u d' :
  tables_ok d → vl_status l ∈ RULE_VERSION_STATUSES → (vl_status l = "active" → where_ active (rule_versions d) = []) →
  insert_rule_version a l d = Ok (u, d') →
  tables_step d d' ∧ stored RULE_VERSION_DATETIMES (ruleVersionValues a l) ∈ rule_versions d'.
Proof.
  intros Hok Hl Hone (t & Hi & Hd)%bind_Ok_iff. injection Hd as _ <-. apply insert_unique_Ok in Hi as [Hnew ->].
  assert (status_of_rule (stored RULE_VERSION_DATETIMES (ruleVersionValues a l)) (vl_status l)) as Hst by done.
  assert (rule_row_ok (stored RULE_VERSION_DATETIMES (ruleVersionValues a l))) as Hrow
    by (split_and!; [done|by eexists|by exists (buildRuleVersionId a)]).
  generalize dependent (stored RULE_VERSION_DATETIMES (ruleVersionValues a l)). intros x Hnew Hst Hrow.
  split; [|cbn; apply elem_of_app; right; by apply list_elem_of_singleton].
  split; cbn; try reflexivity; [apply (table_le_snoc rule_le), _|]. intros []. split; cbn; [done| | | |done].
  - intros r [Hr| ->%list_elem_of_singleton]%elem_of_app; [by apply ok_rules|done].
  - apply distinct_snoc; [done|]. intros s Hs. rewrite clashes_sym. by apply Hnew.
  - unfold where_ in *. rewrite filter_app, length_app, filter_cons, filter_nil.
    rewrite (rule_active x _ Hst). case_bool_decide as E.
    + rewrite Hone by done. cbn. destruct (decide _); cbn; lia.
    + rewrite decide_False by done. cbn. lia.
Qed.

(** *** Switching the active version *)

Lemma where_map_compose {R} (Q : R → bool) (g : R → R) t : where_ Q (map g t) = map g (where_ (fun r => Q (g r)) t).
Proof.
  unfold where_. induction t as [|r t IH]; [done|]. cbn [map]. rewrite !filter_cons, IH.
  by destruct (decide (Q (g r) = true)).
Qed.

Lemma rule_status_in statuses r s :
  Forall (fun w => w ∈ RULE_VERSION_STATUSES) statuses → status_of_rule r s → status_in statuses r = bool_decide (s ∈ statuses).
Proof.
  intros Hall [Hc Hs]. rewrite Forall_forall in Hall. unfold status_in.
  apply eq_true_iff_eq. rewrite existsb_exists, bool_decide_eq_true. split.
  - intros (w & Hw%list_elem_of_In & Heq). rewrite (column_is_text _ _ _ _ Hc) in Heq.
    apply status_words in Heq; [by subst w| |]; apply elem_of_app; right; [done|by apply Hall].
  - intros Hin. exists s. split; [by apply list_elem_of_In|]. rewrite (column_is_text _ _ _ _ Hc). apply sql_eq_refl.
Qed.

Definition retires (current : string) (r : row) : bool := column_is "id" current r && status_in ["active"] r.
Definition activates (id : string) (r : row) : bool := column_is "id" id r && status_in ["draft"; "retired"] r.

Lemma known_statuses : Forall (fun w => w ∈ RULE_VERSION_STATUSES) ["active"] ∧
  Forall (fun w => w ∈ RULE_VERSION_STATUSES) ["draft"; "retired"].
Proof. split; repeat constructor; apply (bool_decide_unpack _); vm_compute; exact I. Qed.

Lemma retire_restamps by_ at_ : restamps (retire_columns by_ at_) "retired".
Proof. split; [done|]. split; [apply (bool_decide_unpack _); vm_compute; exact I|]. by repeat constructor. Qed.
Lemma activate_restamps by_ at_ : restamps (activate_columns by_ at_) "active".
Proof. split; [done|]. split; [apply (bool_decide_unpack _); vm_compute; exact I|]. by repeat constructor. Qed.

(** Retiring the active version leaves none active, and the others as they are. *)
Lemma retire_step d current x by_ at_ :
  tables_ok d → where_ active (rule_versions d) = [x] → column x "id" = CText current →
  let d' := update_rule_version current ["active"] (retire_columns by_ at_) d in
  tables_step d d' ∧ tables_ok d' ∧ where_ active (rule_versions d') = [] ∧
  ∀ r, r ∈ rule_versions d → active r = false → r ∈ rule_versions d'.
Proof.
  intros Hok Hx Hid d'. pose proof known_statuses as [Hk1 _].
  set (f := restamp (retires current) (retire_columns by_ at_)).
  assert (where_ active (map f (rule_versions d)) = []) as Hnone.
  { apply where_none. intros r Hr. apply list_elem_of_fmap in Hr as (y & -> & Hy).
    destruct (ok_rules _ Hok y Hy) as (Hyc & (s & Hs) & Hyi). unfold f, restamp. destruct (retires current y) eqn:E.
    - destruct (restamp_row _ _ y (retire_restamps by_ at_)) as (_ & _ & Hst); [by split_and!; [|exists s|]|].
      by rewrite (rule_active _ _ Hst).
    - destruct (active y) eqn:Ha; [|done]. assert (y ∈ where_ active (rule_versions d)) as Hin by (by apply elem_of_where).
      rewrite Hx in Hin. apply list_elem_of_singleton in Hin. subst y. unfold retires in E.
      rewrite (column_is_text _ _ _ _ Hid), sql_eq_refl in E. cbn [andb] in E.
      rewrite (rule_status_in _ _ _ Hk1 Hs) in E. rewrite (rule_active _ _ Hs) in Ha. to_prop. subst s.
      by destruct E; left. }
  destruct (restamp_step (retires current) _ _ d (retire_restamps by_ at_) Hok) as [Hst Hok'];
    [fold f; rewrite Hnone; cbn; lia|].
  split; [done|]. split; [done|]. split; [done|].
  intros r Hr Ha. change (rule_versions d') with (map f (rule_versions d)). apply list_elem_of_fmap. exists r. split; [|done].
  destruct (ok_rules _ Hok r Hr) as (_ & (s & Hs) & _). unfold f, restamp, retires.
  rewrite (rule_status_in _ _ _ Hk1 Hs). rewrite (rule_active _ _ Hs) in Ha. to_prop.
  rewrite bool_decide_eq_false_2 by (by intros ->%list_elem_of_singleton). by rewrite andb_false_r.
Qed.

(** Activating a draft or retired version where none is active leaves it the only one. *)
Lemma activate_step d id target s by_ at_ :
  tables_ok d → where_ active (rule_versions d) = [] → target ∈ rule_versions d → column_is "id" id target = true →
  status_of_rule target s → s ∈ ["draft"; "retired"] →
  let d' := update_rule_version id ["draft"; "retired"] (activate_columns by_ at_) d in
  tables_step d d' ∧ tables_ok d' ∧
  where_ active (rule_versions d') = [set_columns (stored RULE_VERSION_DATETIMES (activate_columns by_ at_)) target].
Proof.
  intros Hok Hnone Hin Hid Hs Hdr d'. pose proof known_statuses as [_ Hk2].
  set (f := restamp (activates id) (activate_columns by_ at_)).
  assert (activates id target = true) as Hat.
  { unfold activates. rewrite Hid, (rule_status_in _ _ _ Hk2 Hs). by apply bool_decide_eq_true. }
  assert (where_ active (map f (rule_versions d)) = [f target]) as Hone.
  { rewrite where_map_compose. rewrite (where_ext _ (activates id)).
    - assert (target ∈ where_ (activates id) (rule_versions d)) as Ht by (by apply elem_of_where).
      destruct (distinct_where (clashes RULE_VERSION_KEYS) (activates id) (rule_versions d)) as [E|[r E]].
      + apply Hok.
      + intros r1 r2 H1 H2. apply andb_true_iff in H1 as [H1 _], H2 as [H2 _].
        unfold clashes, RULE_VERSION_KEYS. cbn [existsb forallb].
        apply column_is_inv in H1 as (i1 & Hc1 & Hq1), H2 as (i2 & Hc2 & Hq2).
        unfold same_column at 1. rewrite Hc1, Hc2. by rewrite (sql_eq_both i1 i2 id).
      + rewrite E in Ht. by apply elem_of_nil in Ht.
      + rewrite E in *. apply list_elem_of_singleton in Ht. by subst r.
    - intros r Hr. unfold f, restamp. destruct (activates id r) eqn:E; [|by apply (where_nil active (rule_versions d))].
      destruct (ok_rules _ Hok r Hr) as (Hrc & Hrs & Hri).
      destruct (restamp_row _ _ r (activate_restamps by_ at_)) as (_ & _ & Hst); [by split_and!|].
      by rewrite (rule_active _ _ Hst). }
  destruct (restamp_step (activates id) _ _ d (activate_restamps by_ at_) Hok) as [Hst Hok'];
    [fold f; rewrite Hone; cbn; lia|].
  split; [done|]. split; [done|]. unfold f, restamp in Hone. rewrite Hat in Hone. exact Hone.
Qed.

(** *** The operations *)

(** Version [id] is the active one, under the required configuration. *)
Definition only_active (id config : string) (d : tables) : Prop :=
  ∃ x, where_ active (rule_versions d) = [x] ∧ column_is "id" id x = true ∧
    textOrNull (column x "config_sha256") = Some config.

Lemma switch_body_Ok id by_ at_ config env n d o n' d' :
  tables_ok d → switch_body id by_ at_ config env n d = (Ok o, (n', d')) →
  let d1 := if commit o then d' else d in
  tables_step d d1 ∧ outcome_value o = commit o ∧ only_active id config d1.
Proof.
  intros Hok (actives & n1 & x1 & Ha & Hb)%sql_bind_Ok. apply on_connection_Ok in Ha. injection Ha as <- <-.
  apply sql_bind_Ok in Hb as (u & n2 & d2 & [_ [= -> ->]]%lift_Ok & Hb).
  apply sql_bind_Ok in Hb as (target & n3 & d3 & Ht%on_connection_Ok & Hb). injection Ht as Ht <-.
  destruct target as [target|]; [|by apply lift_Ok in Hb as [? _]]. apply first_row_Some in Ht as [Htin Htid].
  apply sql_bind_Ok in Hb as (u2 & n4 & d4 & [Hcfg%throw_if_Ok [= -> ->]]%lift_Ok & Hb).
  apply negb_false_iff, bool_decide_eq_true in Hcfg.
  cbv zeta in Hb. set (currentId := (r ← head (select_active d); textOrNull (column r "id"))) in *.
  change (select_active d) with (where_ active (rule_versions d)) in *.
  pose proof (ok_one_active _ Hok) as Hone.
  destruct (bool_decide (currentId = Some id)) eqn:Hcur; to_prop.
  - apply ret_Ok in Hb as [<- [= -> ->]]. cbn. split; [reflexivity|]. split; [done|].
    subst currentId. destruct (where_ active (rule_versions d)) as [|x [|]] eqn:Ex; cbn in Hone; [done| |lia].
    cbn in Hcur. exists x. assert (x ∈ where_ active (rule_versions d)) as [_ Hx]%elem_of_where by (rewrite Ex; left).
    destruct (ok_rules _ Hok x Hx) as (_ & _ & i & Hi & _). rewrite Hi in Hcur. injection Hcur as ->.
    assert (column_is "id" id x = true) as Hxi by (rewrite (column_is_text _ _ _ _ Hi); apply sql_eq_refl).
    split; [done|]. split; [done|]. enough (x = target) as -> by done.
    apply (distinct_same RULE_VERSION_KEYS (rule_versions d)); [apply Hok|done|done|].
    apply column_is_inv in Htid as (j & Hj & Hjq). unfold clashes, RULE_VERSION_KEYS, same_column. cbn [existsb forallb].
    by rewrite Hi, Hj, (sql_eq_sym id j), Hjq.
  - apply sql_bind_Ok in Hb as (u3 & n5 & d5 & [Hst%throw_if_Ok [= -> ->]]%lift_Ok & Hb).
    destruct (ok_rules _ Hok target Htin) as (Htc & (s & Hs) & Hti).
    assert (s ∈ ["draft"; "retired"]) as Hdr.
    { apply negb_false_iff, orb_true_iff in Hst. rewrite (proj1 Hs) in Hst. cbn in Hst.
      destruct Hst as [Hst|Hst]; apply bool_decide_eq_true in Hst; injection Hst as ->; [by left|by right; left]. }
    assert (active target = false) as Hta.
    { rewrite (rule_active _ _ Hs). apply bool_decide_eq_false. intros ->.
      by apply elem_of_cons in Hdr as [?|?%list_elem_of_singleton]. }
    apply sql_bind_Ok in Hb as (u4 & n6 & d6 & Hret & Hb).
    assert (tables_step d d6 ∧ tables_ok d6 ∧ where_ active (rule_versions d6) = [] ∧ target ∈ rule_versions d6)
      as (Hst6 & Hok6 & Hnone6 & Htin6).
    { subst currentId. destruct (where_ active (rule_versions d)) as [|x [|]] eqn:Ex; cbn in Hone; [| |lia].
      - cbn in Hret. apply ret_Ok in Hret as [_ [= -> ->]]. split; [reflexivity|]. done.
      - assert (x ∈ where_ active (rule_versions d)) as [_ Hx]%elem_of_where by (rewrite Ex; left).
        destruct (ok_rules _ Hok x Hx) as (_ & _ & i & Hi & Hne). cbn in Hret. rewrite Hi in Hret. cbn in Hret.
        rewrite (proj2 (String.eqb_neq i "") Hne) in Hret. apply on_connection_Ok in Hret. injection Hret as _ <-.
        destruct (retire_step d i x by_ at_ Hok Ex Hi) as (H1 & H2 & H3 & H4). split_and!; [done..|by apply H4]. }
    apply sql_bind_Ok in Hb as (u5 & n7 & d7 & Hact%on_connection_Ok & Hb). injection Hact as _ <-.
    apply ret_Ok in Hb as [<- [= -> ->]]. cbn.
    destruct (activate_step d6 id target s by_ at_ Hok6 Hnone6 Htin6 Htid Hs Hdr) as (H1 & H2 & H3).
    split; [by etransitivity|]. split; [done|]. eexists. split; [exact H3|].
    destruct (restamp_row _ _ target (activate_restamps by_ at_)) as (_ & Hle & _); [by split_and!; [|exists s|]|].
    unfold rule_le in Hle. rewrite Forall_forall in Hle. split.
    + unfold column_is in *. by rewrite (Hle "id") by left.
    + rewrite (Hle "config_sha256"); [done|]. apply (bool_decide_unpack _). vm_compute. exact I.
Qed.

Context (d0 : tables) (i : nat).
Notation holds P := (fun r w' => match r with Ok a => P a w' | Throw _ => True end).

Lemma control_identifier_named v entity field n id : control_identifier v entity field n = Ok id → ∃ s, v = VStr s ∧ id = trim s.
Proof. unfold control_identifier. destruct v; try done. intros Hc. bind_ok. by eexists. Qed.

(** A switch keeps the tables. *)
Lemma keeps_switchRuleVersion input w : sound d0 w → keeps d0 i (switchRuleVersion input) (holds (fun _ _ => True)) w.
Proof.
  intros Hw. assert (tables_ok (db w)) as Hok by apply Hw.
  apply keeps_control_check; [done|]. intros id Hid. apply keeps_control_check; [done|]. intros by_ _.
  apply keeps_control_check; [done|]. intros at_ _. apply keeps_control_check; [done|]. intros config _.
  apply does_bind; [apply _|]. apply does_transaction; [apply _|done|done| |].
  - intros env r n d' [->|(o & n1 & Hb & Hc)]%locked_cases; [reflexivity|].
    apply switch_body_Ok in Hb as (H1 & _); [|done]. by rewrite Hc in H1.
  - intros env r n d' w' Hl Hs Hk Hk2 _. destruct r as [activated|e]; [|done]. by apply does_ret; [apply _| |].
Qed.

(** The version the request names. *)
Definition named_version (input : ActivateRuleVersionInput) (id : string) : Prop :=
  ∃ s, ai_ruleVersionId input = VStr s ∧ id = trim s.

(** What a switch that answers did: the version the request names was the only active one. *)
Definition switched (input : ActivateRuleVersionInput) (r : Prelude.result control_error (string * bool)) (w : world) : Prop :=
  match r with
  | Ok p => named_version input p.1 ∧ only_active p.1 (ai_requiredConfigSha256 input) (db w)
  | Throw _ => True
  end.

(** It held right after the transaction. *)
Lemma switch_visits input :
  visits (@perform _) (sound d0) i (switchRuleVersion input) (switched input) (fun r => ∀ w, switched input r w).
Proof.
  unfold switchRuleVersion. destruct (control_identifier _ _ _ _) as [id|] eqn:Hid; [|done].
  destruct (optionalIdentifier _ _ _ _) as [by_|]; [|done]. destruct (requireNaiveDatetime _ _ _) as [at_|]; [|done].
  destruct (requireSha256 _ _ _) as [config|] eqn:Hconfig; [|done].
  assert (config = ai_requiredConfigSha256 input) as -> by (unfold requireSha256 in Hconfig; by bind_ok).
  intros c w Hw. cbn. destruct (locked _ _ _ _) as [r [n d']] eqn:Hl. destruct r as [activated|e]; [|by left].
  right. apply locked_Ok in Hl as (o & n1 & d1 & Hb & -> & ->). apply switch_body_Ok in Hb as (_ & _ & Ho); [|apply Hw].
  split; [|exact Ho]. by apply control_identifier_named in Hid.
Qed.

(** The version is stored, with what it says. *)
Definition rule_recorded (d : tables) (a : CallAuditRuleActivation) : Prop :=
  ∃ l x r, r ∈ rule_versions d ∧ rule_le x r ∧
    (x = stored RULE_VERSION_DATETIMES (ruleVersionValues a l) ∨ ruleVersionConflictField x a l = None).

Lemma lifecycle_status l v : validateRuleVersionLifecycle l = Ok v → vl_status v ∈ RULE_VERSION_STATUSES.
Proof.
  unfold validateRuleVersionLifecycle. intros (u & Hst%throw_if_Ok & Hl)%bind_Ok_iff.
  apply negb_false_iff, bool_decide_eq_true in Hst.
  repeat (apply bind_Ok_iff in Hl as (? & ? & Hl)). by injection Hl as <-.
Qed.

Lemma rule_matches_recorded rows a l x d :
  assertRuleVersionMatches rows a l = Ok x → (∀ r, r ∈ rows → r ∈ rule_versions d) → rows ≠ [] →
  ∃ r, r ∈ rule_versions d ∧ ruleVersionConflictField r a l = None.
Proof.
  unfold assertRuleVersionMatches. intros (u & _ & Hc)%bind_Ok_iff Hsub Hne. destruct rows as [|r rows]; [done|].
  exists r. split; [apply Hsub; left|]. unfold control_conflict in Hc. cbn [head default] in Hc.
  by destruct (ruleVersionConflictField _ a l).
Qed.

Lemma write_body_Ok a l env n d o n' d' :
  tables_ok d → vl_status l ∈ RULE_VERSION_STATUSES →
  write_rule_version_body a l env n d = (Ok o, (n', d')) →
  let d1 := if commit o then d' else d in
  tables_step d d1 ∧ ∃ x, x ∈ rule_versions d1 ∧
    (x = stored RULE_VERSION_DATETIMES (ruleVersionValues a l) ∨ ruleVersionConflictField x a l = None).
Proof.
  intros Hok Hl (rows & n1 & x1 & Hr%on_connection_Ok & Hb)%sql_bind_Ok. injection Hr as <- <-.
  destruct (select_rule_versions _ _ d) as [|r rows] eqn:Erows.
  - apply sql_bind_Ok in Hb as (u & n2 & d2 & Hactive & Hb).
    assert (d2 = d ∧ (vl_status l = "active" → where_ active (rule_versions d) = [])) as [-> Hnone].
    { destruct (String.eqb_spec (vl_status l) "active") as [E|E].
      - apply sql_bind_Ok in Hactive as (actives & n3 & d3 & Ha%on_connection_Ok & Hactive). injection Ha as Ha <-.
        apply lift_Ok in Hactive as [Hc%throw_if_Ok [= -> ->]]. apply negb_false_iff, bool_decide_eq_true in Hc.
        split; [done|]. intros _. apply where_none. intros r Hr. destruct (active r) eqn:Hact; [|done]. exfalso.
        assert (column_is "id" (buildRuleVersionId a) r = false) as Hid.
        { pose proof (where_nil _ _ r Erows Hr) as Hno. by apply orb_false_iff in Hno as [? _]. }
        assert (r ∈ actives) as Hin; [|rewrite Hc in Hin; by apply elem_of_nil in Hin].
        rewrite <- Ha. apply elem_of_where. rewrite Hid. split; [done|]. by apply elem_of_where.
      - apply ret_Ok in Hactive as [_ [= -> ->]]. done. }
    apply sql_bind_Ok in Hb as (u2 & n4 & d4 & Hi%on_connection_Ok & Hb). apply ret_Ok in Hb as [<- [= -> ->]]. cbn [commit].
    destruct (insert_rule_version_step a l d u2 d4 Hok Hl Hnone Hi) as [Hst Hin]. split; [done|]. eexists. split; [exact Hin|by left].
  - apply sql_bind_Ok in Hb as (u & n2 & d2 & [Hm [= -> ->]]%lift_Ok & Hb). apply ret_Ok in Hb as [<- [= -> ->]]. cbn [commit].
    split; [reflexivity|]. destruct (rule_matches_recorded _ a l u d Hm) as (x & Hx & Hc); [|done|by eauto].
    intros y Hy. rewrite <- Erows in Hy. by apply elem_of_where in Hy as [_ ?].
Qed.

Lemma keeps_saveRuleVersionSnapshot a l w :
  sound d0 w →
  keeps d0 i (saveRuleVersionSnapshot a l)
    (holds (fun p w' => ∃ v, validateRuleActivationSnapshot a = Ok v ∧ p.1 = buildRuleVersionId v ∧ rule_recorded (db w') v)) w.
Proof.
  intros Hw. assert (tables_ok (db w)) as Hok by apply Hw.
  apply keeps_control_check; [done|]. intros v Hv. apply keeps_control_check; [done|]. intros vl Hl.
  pose proof (lifecycle_status _ _ Hl) as Hst.
  assert (∀ d w1 x, tables_step d (db w1) → x ∈ rule_versions d →
    (x = stored RULE_VERSION_DATETIMES (ruleVersionValues v vl) ∨ ruleVersionConflictField x v vl = None) →
    rule_recorded (db w1) v) as Hrec.
  { intros d w1 x Hs Hx Hc. destruct (rules_le_lookup _ _ _ (step_rules _ _ Hs) Hx) as (r & Hr & Hle).
    exists vl, x, r. done. }
  apply does_catch; [apply _|]. eapply (does_mono _ _ _ _
    (holds (fun p w' => ∃ v, validateRuleActivationSnapshot a = Ok v ∧ p.1 = buildRuleVersionId v ∧ rule_recorded (db w') v))).
  - apply does_bind; [apply _|]. apply does_transaction; [apply _|done|done| |].
    + intros env r n d' [->|(o & n1 & Hb & Hc)]%locked_cases; [reflexivity|].
      apply write_body_Ok in Hb as (H1 & _); [|done|done]. by rewrite Hc in H1.
    + intros env r n d' w' Hlk Hs Hk Hk2 _. destruct r as [o|e]; [|done].
      apply locked_Ok in Hlk as (oc & n1 & d1 & Hb & -> & ->). apply write_body_Ok in Hb as (H1 & x & Hx & Hc); [|done|done].
      apply does_ret; [apply _|done|]. exists v. split; [done|]. split; [done|]. eapply Hrec; [apply Hk|exact Hx|exact Hc].
  - intros [p|e] w2 Hs2 Hk2 HP; [done|]. destruct (negb _); [by apply does_ret; [apply _| |]|].
    apply does_bind; [apply _|]. apply does_select; [apply _|done|done| |done]. intros w3 Hs3 Hk3 _.
    destruct (select_rule_versions _ _ (db w2)) as [|r rows] eqn:Erows; [by apply does_ret; [apply _| |]|].
    apply keeps_control_check; [done|]. intros u Hc. apply does_ret; [apply _|done|]. exists v. split; [done|]. split; [done|].
    destruct (rule_matches_recorded _ v vl u (db w2) Hc) as (x & Hx & Hxc); [|done|].
    + intros y Hy. rewrite <- Erows in Hy. by apply elem_of_where in Hy as [_ ?].
    + eapply Hrec; [apply Hk3|exact Hx|by right].
Qed.
End Rules.
