(* ===== verification/CallBatchReport.v ===== *)
(** * What a batch reports

    [CallBatch] in the logic of [CallWorld]: the tally of a run counts exactly the candidates
    whose rows are in the tables, and the row of the run ends with those counts, whether the
    run completed or failed on the way. *)

From S2P Require Import Prelude JsText CanonicalJson Sql Scoring SourceRevision ResultRecords Prog CallRules CallStore CallPersistence CallModel CallProcessor CallControl CallBatch CallWorld CallEffects CallLifecycles.

Local Open Scope string_scope.
Local Open Scope list_scope.
#[global] Open Scope Z_scope.

(** ** Tallies *)

(** The tally of what was done, out of the candidates selected. *)
Definition tally_of (selected : Z) (done : list CallAuditProcessingSummary) : RunTally :=
  foldl tallySummary (Tally selected 0 0 0 0 0 0 0) done.

Lemma tally_of_snoc n l s : tally_of n (l ++ [s]) = tallySummary (tally_of n l) s.
Proof. unfold tally_of. by rewrite foldl_app. Qed.

Lemma tally_of_selected n l : candidatesSelected (tally_of n l) = n.
Proof. induction l as [|s l IH] using rev_ind; [done|]. by rewrite tally_of_snoc. Qed.

Lemma tally_of_processed n l : processedTotal (tally_of n l) = Z.of_nat (length l).
Proof. induction l as [|s l IH] using rev_ind; [done|]. rewrite tally_of_snoc, length_app. cbn. lia. Qed.

Lemma tally_of_select n m l : select_page (tally_of n l) m = tally_of (n + m) l.
Proof.
  induction l as [|s l IH] using rev_ind; [done|]. rewrite !tally_of_snoc, <- IH. reflexivity.
Qed.

(** Number of summaries with a property. *)
Definition count (P : CallAuditProcessingSummary → bool) (l : list CallAuditProcessingSummary) : Z :=
  Z.of_nat (length (where_ P l)).

Lemma count_snoc P l s : count P (l ++ [s]) = count P l + one_if (P s).
Proof.
  unfold count. rewrite where_app, length_app. unfold where_ at 2. rewrite filter_cons, filter_nil.
  destruct (P s); [rewrite decide_True by done|rewrite decide_False by done]; cbn; lia.
Qed.

Definition has_status (st : ProcessingStatus) (s : CallAuditProcessingSummary) : bool := bool_decide (sum_status s = st).
Definition is_operational (s : CallAuditProcessingSummary) : bool := bool_decide (sum_eligibility s = operational_only).

(** Every counter is a count. *)
Lemma tally_of_counts n l :
  succeededTotal (tally_of n l) = count (has_status succeeded) l ∧
  failedTotal (tally_of n l) = count (has_status failed) l ∧
  skippedTotal (tally_of n l) = count (has_status skipped) l ∧
  operationalOnlyTotal (tally_of n l) = count is_operational l ∧
  contentAuditedTotal (tally_of n l) = count (fun s => negb (is_operational s) && has_status succeeded s) l ∧
  duplicateSuppressedTotal (tally_of n l) = count (fun s => bool_decide (is_Some (spendSkipCode s))) l.
Proof.
  induction l as [|s l IH] using rev_ind; [done|]. rewrite tally_of_snoc, !count_snoc. cbn.
  destruct IH as (-> & -> & -> & -> & -> & ->). done.
Qed.

(** The tally of a batch, by what its summaries say. *)
Definition counted (selected : Z) (l : list CallAuditProcessingSummary) : RunTally :=
  Tally selected (Z.of_nat (length l)) (count (has_status succeeded) l) (count (has_status failed) l)
    (count (has_status skipped) l) (count is_operational l)
    (count (fun s => negb (is_operational s) && has_status succeeded s) l)
    (count (fun s => bool_decide (is_Some (spendSkipCode s))) l).

(** The columns of its run. *)
Definition counted_columns (selected : Z) (l : list CallAuditProcessingSummary) : CallAuditRunCounters :=
  {| totalCandidates := selected; processedCount := Z.of_nat (length l);
     succeededCount := count (has_status succeeded) l; failedCount := count (has_status failed) l;
     skippedCount := count (has_status skipped) l;
     contentAuditableCount := count (fun s => negb (is_operational s) && has_status succeeded s) l;
     operationalOnlyCount := count is_operational l |}.

Lemma tally_of_counted n l : tally_of n l = counted n l.
Proof.
  pose proof (tally_of_selected n l) as H0. pose proof (tally_of_processed n l) as H1.
  pose proof (tally_of_counts n l) as (H2 & H3 & H4 & H5 & H6 & H7).
  unfold counted. destruct (tally_of n l). cbn in *. by subst.
Qed.

Lemma countersOf_counted n l : countersOf (counted n l) = counted_columns n l.
Proof. reflexivity. Qed.

Section Batches.
Context `{PL : Platform, CO : Collation, ST : Storage, JP : JsonParser, WO : !StatusWords CO}.
Context (d0 : tables) (i : nat).
Notation holds P := (fun r w' => match r with Ok a => P a w' | Throw _ => True end).

(** ** Pages *)

Definition under_plan (plan : run_plan) (runId : string) (p : ProcessCallAuditCandidateInput) : Prop :=
  pi_runId p = runId ∧ pi_ruleVersionId p = rp_ruleVersionId plan ∧ pi_activation p = rp_activation plan.

(** The tally is the one of these candidates, and all of them are in the tables. *)
Definition tallied (plan : run_plan) (runId : string) (t : RunTally)
    (outcomes : list (ProcessCallAuditCandidateInput * CallAuditProcessingSummary)) (w : world) : Prop :=
  t = tally_of (candidatesSelected t) (map snd outcomes) ∧
  Forall (fun o => under_plan plan runId o.1 ∧ processed o.1 o.2 w) outcomes.

Lemma tallied_grown plan runId t l w w' : grown w w' → tallied plan runId t l w → tallied plan runId t l w'.
Proof.
  intros Hg [Ht Hl]. split; [done|]. apply (Forall_impl _ _ _ Hl). intros o [Ho Hp]. split; [done|].
  by eapply processed_grown.
Qed.

Lemma tallied_snoc plan runId t l p s w :
  tallied plan runId t l w → under_plan plan runId p → processed p s w →
  tallied plan runId (tallySummary t s) (l ++ [(p, s)]) w.
Proof.
  intros [Ht Hl] Hp Hs. split.
  - rewrite map_app. cbn [map]. rewrite tally_of_snoc. cbn [candidatesSelected tallySummary]. by rewrite <- Ht.
  - apply Forall_app. split; [done|]. by apply Forall_singleton.
Qed.

(** Below the limit of candidates. *)
Definition below_limit (plan : run_plan) (n : Z) : Prop :=
  match rp_maxCandidates plan with Some max => n < max | None => True end.
Definition within_limit (plan : run_plan) (n : Z) : Prop :=
  match rp_maxCandidates plan with Some max => n ≤ max | None => True end.

Lemma grows_within {E A} p t n (m : act E A) (Q : A → world → Prop) w :
  grows d0 i m (holds Q) w →
  grows d0 i (within_phase p t n m) (fun r w' => match r with Ok a => Q a w' | Throw f => f = RunFailure p t n end) w.
Proof.
  intros Hm. apply does_rethrow; [apply _|]. eapply does_mono; [exact Hm|]. by intros [a|e] w' Hs Hg HQ.
Qed.

Lemma grows_asked {E A X} (o : op X) (k : X → Prelude.result E A) w :
  (∀ c, (perform i o c w).2 = w) → sound d0 w → grows d0 i (Do o (fun x => Ret (k x))) (holds (fun _ _ => True)) w.
Proof.
  intros Ho Hw. apply does_ask; [apply _|by intros ? ? []|done|done|]. intros x w' Hs Hk _.
  apply does_ret; [apply _|done|]. by destruct (k x).
Qed.

Lemma grows_read_stamp s w : sound d0 w → grows d0 i (read_stamp s) (holds (fun _ _ => True)) w.
Proof. intros Hw. destruct s as [|text]; [by apply grows_asked|]. by apply does_ret; [apply _| |]. Qed.

Lemma grows_ask_gate plan w : sound d0 w → grows d0 i (ask_gate plan) (holds (fun _ _ => True)) w.
Proof.
  intros Hw. unfold ask_gate. destruct (rp_gate plan); [by apply grows_asked|]. by apply does_ret; [apply _| |].
Qed.

Lemma grows_read_page q cursor w : sound d0 w → grows d0 i (read_page q cursor) (holds (fun _ _ => True)) w.
Proof. intros Hw. by apply grows_asked. Qed.

(** What a page, or the run up to a failure, has done. *)
Definition so_far (plan : run_plan) (runId : string) (t : RunTally) (selected : Z) (w : world) : Prop :=
  ∃ outcomes, tallied plan runId t outcomes w ∧ candidatesSelected t = selected ∧
    Z.of_nat (length outcomes) ≤ selected ∧ within_limit plan (Z.of_nat (length outcomes)).

Lemma so_far_grown plan runId t n w w' : grown w w' → so_far plan runId t n w → so_far plan runId t n w'.
Proof. intros Hg (l & Hl & Hrest). exists l. split; [by eapply tallied_grown|done]. Qed.

Lemma below_within plan n : below_limit plan n → within_limit plan n ∧ within_limit plan (n + 1).
Proof. unfold below_limit, within_limit. destruct (rp_maxCandidates plan); lia. Qed.

Lemma grows_process_page plan clock runId pages phase t page outcomes w :
  sound d0 w → tallied plan runId t outcomes w → below_limit plan (Z.of_nat (length outcomes)) →
  Z.of_nat (length outcomes) + Z.of_nat (length page) ≤ candidatesSelected t →
  grows d0 i (process_page plan clock runId pages phase t page)
    (fun r w' => match r with
       | Ok (t', stop) => so_far plan runId t' (candidatesSelected t) w' ∧
           (stop ≠ candidate_limit → ∃ outcomes', tallied plan runId t' outcomes' w' ∧
              below_limit plan (Z.of_nat (length outcomes')) ∧ Z.of_nat (length outcomes') ≤ candidatesSelected t)
       | Throw f => so_far plan runId (rf_tally f) (candidatesSelected t) w' ∧ rf_pages f = pages
       end) w.
Proof.
  revert t phase outcomes w. induction page as [|c page IH]; intros t phase outcomes w Hw Ht Hlim Hsel.
  - destruct (below_within _ _ Hlim) as [Hin _].
    apply does_ret; [apply _|done|]. cbn in Hsel. split; [exists outcomes; split_and!; [done..|lia|done]|].
    intros _. exists outcomes. split_and!; [done..|lia].
  - destruct (below_within _ _ Hlim) as [Hin Hin1]. cbn [length] in Hsel.
    assert (∀ w', grown w w' → so_far plan runId t (candidatesSelected t) w') as Hsame.
    { intros w' Hg. exists outcomes. split_and!; [by eapply tallied_grown|done|lia|done]. }
    cbn [process_page]. apply does_bind; [apply _|].
    eapply does_mono; [by apply (grows_within _ _ _ _ _ _ (grows_ask_gate _ _ Hw))|].
    intros [go|f] w1 Hs1 Hg1 HP; [|by subst f; split; [apply Hsame|]].
    destruct go; cbn [negb].
    2:{ apply does_ret; [apply _|done|]. split; [by apply Hsame|]. intros _. exists outcomes.
        split_and!; [by eapply tallied_grown|done|lia]. }
    apply does_bind; [apply _|].
    eapply does_mono; [apply (grows_within _ _ _ _ _ _ (grows_read_stamp _ _ Hs1))|].
    intros [auditedAt|f] w2 Hs2 Hg2 HP2; [|subst f; split; [apply Hsame; by etransitivity|done]].
    apply does_bind; [apply _|].
    eapply does_mono; [apply (grows_within _ _ _ _ _ _ (grows_read_stamp _ _ Hs2))|].
    intros [recordedAt|f] w3 Hs3 Hg3 HP3;
      [|subst f; split; [apply Hsame; etransitivity; [exact Hg1|]; by etransitivity|done]].
    assert (grown w w3) as Hg03 by (etransitivity; [exact Hg1|]; by etransitivity).
    apply does_bind; [apply _|].
    eapply does_mono; [apply (grows_within _ _ _ _ _ _ (grows_processCallAuditCandidate _ _ _ _ Hs3))|].
    intros [s|f] w4 Hs4 Hg4 HP4; [|subst f; split; [apply Hsame; by etransitivity|done]].
    assert (tallied plan runId (tallySummary t s) (outcomes ++ [(process_input plan runId c auditedAt recordedAt, s)]) w4)
      as Ht4.
    { apply tallied_snoc; [eapply tallied_grown; [|exact Ht]; by etransitivity|done|exact (proj1 HP4)]. }
    assert (Z.of_nat (length (outcomes ++ [(process_input plan runId c auditedAt recordedAt, s)])) =
            Z.of_nat (length outcomes) + 1) as Hlen by (rewrite length_app; cbn; lia).
    assert (processedTotal (tallySummary t s) = Z.of_nat (length outcomes) + 1) as Hproc.
    { destruct Ht4 as [-> _]. rewrite tally_of_processed, length_map. exact Hlen. }
    cbv zeta. destruct (match rp_maxCandidates plan with Some max => max <=? processedTotal (tallySummary t s) | None => false end) eqn:Elim.
    + apply does_ret; [apply _|done|]. split; [|by intros []].
      exists (outcomes ++ [(process_input plan runId c auditedAt recordedAt, s)]). rewrite Hlen.
      split_and!; [done|done|lia|done].
    + eapply does_mono; [apply (IH (tallySummary t s) phase_candidate _ w4 Hs4 Ht4)|].
      * rewrite Hlen, <- Hproc. unfold below_limit. destruct (rp_maxCandidates plan); [|done]. by apply Z.leb_gt in Elim.
      * rewrite Hlen. cbn [candidatesSelected tallySummary]. lia.
      * by intros [[t' stop]|f] w5.
Qed.

Lemma grows_read_pages remaining plan clock runId cursor pages t outcomes w :
  sound d0 w → tallied plan runId t outcomes w → below_limit plan (Z.of_nat (length outcomes)) →
  Z.of_nat (length outcomes) ≤ candidatesSelected t →
  grows d0 i (read_pages remaining plan clock runId cursor pages t)
    (fun r w' => match r with
       | Ok (t', n, _) => so_far plan runId t' (candidatesSelected t') w' ∧ pages ≤ n ≤ pages + Z.of_nat remaining
       | Throw f => so_far plan runId (rf_tally f) (candidatesSelected (rf_tally f)) w' ∧
           pages ≤ rf_pages f ≤ pages + Z.of_nat remaining
       end) w.
Proof.
  revert cursor pages t outcomes w. induction remaining as [|remaining IH]; intros cursor pages t outcomes w Hw Ht Hlim Hsel.
  - destruct (below_within _ _ Hlim) as [Hin _]. apply does_ret; [apply _|done|]. split; [by exists outcomes|lia].
  - destruct (below_within _ _ Hlim) as [Hin _]. cbn [read_pages].
    assert (∀ w', grown w w' → so_far plan runId t (candidatesSelected t) w') as Hsame.
    { intros w' Hg. exists outcomes. split_and!; [by eapply tallied_grown|done..]. }
    apply does_bind; [apply _|].
    eapply does_mono; [apply (grows_within _ _ _ _ _ _ (grows_read_page _ _ _ Hw))|].
    intros [page|f] w1 Hs1 Hg1 HP; [|subst f; split; [by apply Hsame|cbn; lia]].
    destruct page as [|c page]; [apply does_ret; [apply _|done|]; split; [by apply Hsame|lia]|].
    set (size := Z.of_nat (length (c :: page))) in *. assert (0 ≤ size) as Hsize by (unfold size; lia).
    assert (tallied plan runId (select_page t size) outcomes w1) as Ht1.
    { destruct (tallied_grown _ _ _ _ _ _ Hg1 Ht) as [E Hl]. split; [|exact Hl].
      cbn [candidatesSelected select_page]. rewrite <- tally_of_select. by rewrite <- E. }
    apply does_bind; [apply _|]. eapply does_mono; [apply (grows_process_page plan clock runId (pages + 1) phase_source
      (select_page t size) (c :: page) outcomes w1 Hs1 Ht1 Hlim); cbn [candidatesSelected select_page]; fold size; lia|].
    intros [[t2 stop]|f] w2 Hs2 Hg2 HP2.
    2:{ destruct HP2 as [(l & Hl & E & Hrest) ->]. rewrite <- E in Hrest. split; [by exists l|lia]. }
    destruct HP2 as [Hso Hcont].
    assert (candidatesSelected t2 = candidatesSelected (select_page t size)) as E2 by (by destruct Hso as (l & _ & ? & _)).
    assert (∀ w', grown w2 w' → so_far plan runId t2 (candidatesSelected t2) w') as Hso2.
    { intros w' Hg. rewrite E2. by eapply so_far_grown. }
    apply does_bind; [apply _|].
    eapply does_mono; [apply grows_within, keeps_grows, keeps_updateRunCounters; done|].
    intros [u|f] w3 Hs3 Hg3 HP3; [|subst f; split; [by apply Hso2|cbn; lia]].
    destruct (bool_decide (stop = candidate_limit) || bool_decide (stop = paused)) eqn:Estop;
      [apply does_ret; [apply _|done|]; split; [by apply Hso2|lia]|].
    destruct (size <? v_batchSize (rp_query plan)); [apply does_ret; [apply _|done|]; split; [by apply Hso2|lia]|].
    apply orb_false_iff in Estop as [Estop _]. apply bool_decide_eq_false in Estop.
    destruct (Hcont Estop) as (l & Hl & Hbl & Hll).
    destruct remaining as [|r]; [apply does_ret; [apply _|done|]; split; [by apply Hso2|lia]|].
    eapply does_mono; [apply (IH (nextSourceCandidateCursor (c :: page)) (pages + 1) t2 l w3 Hs3); [|done|lia]|].
    { by eapply tallied_grown. }
    intros [[[t4 n] stop4]|f] w4 Hs4 Hg4 [HP4 Hn]; (split; [done|lia]).
Qed.

(** ** The run *)

(** How the row of a run reports it. *)
Definition final_status (rs : CallAuditBatchRunSummary) : string := if rs_completed rs then "completed" else "failed".

(** What is true of a run when its summary is returned. *)
Record reported (plan : run_plan) (runId : string) (rs : CallAuditBatchRunSummary) (w : world) : Prop := Reported {
  rep_run : rs_runId rs = runId;
  rep_tally : so_far plan runId (rs_tally rs) (candidatesSelected (rs_tally rs)) w;
  rep_settled : run_settled (db w) runId (final_status rs) (rs_failureCode rs) (countersOf (rs_tally rs));
  rep_code : rs_completed rs = true ∧ rs_failureCode rs = None ∨
    rs_completed rs = false ∧ ∃ p, rs_failureCode rs = Some (PHASE_ERROR_CODES p);
  rep_pages : 0 ≤ rs_pagesRead rs ≤ Z.max 0 (rp_maxPages plan);
}.

Lemma phase_code_ok p : requireErrorCode (VStr (PHASE_ERROR_CODES p)) "errorCode" = Ok (PHASE_ERROR_CODES p).
Proof. by destruct p. Qed.

Lemma grows_settleFailedRun plan runId created clock f w :
  sound d0 w → trim runId = runId → so_far plan runId (rf_tally f) (candidatesSelected (rf_tally f)) w →
  0 ≤ rf_pages f ≤ Z.max 0 (rp_maxPages plan) →
  grows d0 i (settleFailedRun runId created clock f) (holds (reported plan runId)) w.
Proof.
  intros Hw Htrim Hso Hpages. apply does_catch; [apply _|].
  eapply (does_mono _ _ _ _ (holds (reported plan runId))).
  2:{ intros [rs|e] w' Hs Hg HP; [done|]. by apply does_ret; [apply _| |]. }
  apply does_bind; [apply _|]. apply does_rethrow; [apply _|].
  eapply does_mono; [by apply grows_read_stamp|]. intros [at_|e] w1 Hs1 Hg1 _; [|done].
  apply does_bind; [apply _|]. apply does_rethrow; [apply _|].
  eapply does_mono; [apply keeps_grows, keeps_markRunFailed; [done|apply phase_code_ok]|].
  intros [t|e] w2 Hs2 Hg2 HP; [|done]. apply does_ret; [apply _|done|]. rewrite Htrim in HP.
  split; cbn; [done| |done| |done].
  - eapply so_far_grown; [|exact Hso]. by etransitivity.
  - right. split; [done|]. by eexists.
Qed.

Lemma grows_run_body plan clock runId created w :
  sound d0 w → trim runId = runId → below_limit plan 0 →
  grows d0 i (run_body plan clock runId created)
    (fun r w' => match r with
       | Ok rs => reported plan runId rs w'
       | Throw f => so_far plan runId (rf_tally f) (candidatesSelected (rf_tally f)) w' ∧
           0 ≤ rf_pages f ≤ Z.max 0 (rp_maxPages plan)
       end) w.
Proof.
  intros Hw Htrim Hlim. destruct (below_within _ _ Hlim) as [Hin _].
  assert (∀ w', tallied plan runId emptyTally [] w') as Hnil by done.
  assert (∀ w', so_far plan runId emptyTally 0 w') as Hempty by (intros w'; by exists []).
  unfold run_body. apply does_bind; [apply _|].
  eapply does_mono; [apply (grows_within _ _ _ _ _ _ (grows_read_stamp _ _ Hw))|].
  intros [at_|f] w1 Hs1 Hg1 HP1; [|subst f; split; [apply Hempty|cbn; lia]].
  apply does_bind; [apply _|].
  eapply does_mono; [apply grows_within, keeps_grows, keeps_markRunRunning; done|].
  intros [u|f] w2 Hs2 Hg2 HP2; [|subst f; split; [apply Hempty|cbn; lia]].
  apply does_bind; [apply _|].
  eapply does_mono; [apply (grows_read_pages (Z.to_nat (rp_maxPages plan)) plan clock runId None 0 emptyTally [] w2 Hs2 (Hnil w2)); done|].
  intros [[[t n] stop]|f] w3 Hs3 Hg3 HP3; [|destruct HP3 as [HP3 Hn]; split; [done|lia]].
  destruct HP3 as [Hso Hn]. assert (0 ≤ n ≤ Z.max 0 (rp_maxPages plan)) as Hn' by lia.
  assert (∀ w', grown w3 w' → so_far plan runId t (candidatesSelected t) w') as Hso3 by (intros w' Hg; by eapply so_far_grown).
  apply does_bind; [apply _|].
  eapply does_mono; [apply (grows_within _ _ _ _ _ _ (grows_read_stamp _ _ Hs3))|].
  intros [fin|f] w4 Hs4 Hg4 HP4; [|subst f; split; [by apply Hso3|done]].
  apply does_bind; [apply _|].
  eapply does_mono; [apply grows_within, keeps_grows, keeps_markRunCompleted; done|].
  intros [tr|f] w5 Hs5 Hg5 HP5; [|subst f; split; [apply Hso3; by etransitivity|done]].
  rewrite Htrim in HP5. apply does_ret; [apply _|done|].
  split; cbn; [done| |done|by left|done]. apply Hso3. by etransitivity.
Qed.

Lemma plan_run_limit b plan : plan_run b = Ok plan → below_limit plan 0 ∧ rp_maxPages plan ≤ MAX_RUN_PAGES.
Proof.
  unfold plan_run. intros (rule & _ & Hp)%bind_Ok_iff. apply bind_Ok_iff in Hp as (u & _ & Hp).
  destruct (validateSourceCandidateQuery _) as [q|]; [|done].
  apply bind_Ok_iff in Hp as (pages & _ & Hp). apply bind_Ok_iff in Hp as (cands & Hc & Hp). injection Hp as <-.
  split; [|cbn; lia]. unfold below_limit. cbn. destruct cands as [m|]; [|done].
  unfold optionalLimit in Hc. destruct (bi_maxCandidates b); try done; destruct (safe_integer _) as [z|]; try done;
    destruct (Z.ltb_spec z 1); try done; injection Hc as <-; lia.
Qed.

Context `{PLW : !PlatformLaws PL}.

Lemma sha_of_visible v : all_visible (sha_of v) = true.
Proof.
  unfold sha_of, canonicalJsonSha256. destruct (canonicalJson v); cbn; [apply sha256Hex_visible|done].
Qed.

Lemma buildRunId_trim v : trim (buildRunId v) = buildRunId v.
Proof.
  apply trim_visible. unfold buildRunId, all_visible. rewrite str_forallb_append. apply andb_true_iff. split; [done|].
  match goal with |- str_forallb _ (str_take ?n (sha_of ?v)) = _ => pose proof (sha_of_visible v) as Hv;
    rewrite <- (str_take_drop n (sha_of v)) in Hv end.
  unfold all_visible in Hv. rewrite str_forallb_append in Hv. by apply andb_true_iff in Hv as [? _].
Qed.

(** What is true when a batch returns its summary. *)
Definition batch_reported (b : RunCallAuditBatchInput) (rs : CallAuditBatchRunSummary) (w : world) : Prop :=
  ∃ plan v, plan_run b = Ok plan ∧ validateRunRequest (bi_request b) = Ok v ∧ run_requested (db w) v ∧
    reported plan (buildRunId v) rs w.

Lemma run_requested_step d d' v : tables_step d d' → run_requested d v → run_requested d' v.
Proof.
  intros Hs (x & r & Hr & Hle & Hx). destruct (runs_le_lookup _ _ _ (step_runs _ _ Hs) Hr) as (r' & Hr' & Hle').
  exists x, r'. split; [done|]. split; [by transitivity r|done].
Qed.

Lemma grows_runCallAuditBatch b w :
  sound d0 w → grows d0 i (runCallAuditBatch b) (holds (batch_reported b)) w.
Proof.
  intros Hw. apply does_sync_bind; [apply _|done| |done]. intros plan Hplan.
  destruct (plan_run_limit _ _ Hplan) as [Hlim _].
  apply does_bind; [apply _|]. eapply (does_mono _ _ _ _ (holds (fun _ _ => True))).
  { destruct (bi_timestamps b) as [|s a r f]; cbn [resolveTimestamps].
    - apply does_bind; [apply _|]. eapply does_mono; [by apply grows_read_stamp|].
      intros [t|e] w1 Hs1 Hg1 _; [|done]. by apply does_ret; [apply _| |].
    - do 4 (apply does_sync_bind; [apply _|done| |done]; intros ? _). by apply does_ret; [apply _| |]. }
  intros [clock|e] w1 Hs1 Hg1 _; [|done].
  apply does_bind; [apply _|]. apply does_rethrow; [apply _|].
  eapply does_mono; [by apply keeps_grows, keeps_createRun|]. intros [[runId created]|e] w2 Hs2 Hg2 HP; [|done].
  destruct HP as (v & Hv & Hid & Hreq). cbn in Hid. subst runId.
  apply does_catch; [apply _|]. eapply does_mono; [apply grows_run_body; [done|apply buildRunId_trim|done]|].
  assert (∀ w' rs, grown w2 w' → reported plan (buildRunId v) rs w' → batch_reported b rs w') as Hend.
  { intros w' rs Hg Hr. exists plan, v. split_and!; [done..| |done]. eapply run_requested_step; [apply Hg|done]. }
  intros [rs|f] w3 Hs3 Hg3 HP3; [by apply Hend|]. destruct HP3 as [Hso Hpages].
  eapply does_mono; [by apply grows_settleFailedRun; [|apply buildRunId_trim| |]|].
  intros [rs|e] w4 Hs4 Hg4 HP4; [|done]. apply Hend; [by etransitivity|done].
Qed.
End Batches.
