(* ===== verification/CallSafety.v ===== *)
(** * What call-audit jobs promise

    Any number of batches, single candidates and rule-version changes over one database,
    interleaved operation by operation, refused, lost or abandoned anywhere: what was paid for
    at most once, what a returned summary vouches for, and what no row ever does. *)

From stdpp Require Import relations.
From S2P Require Import Prelude JsText CanonicalJson Sql Scoring SourceRevision ResultRecords Prog CallRules CallStore CallPersistence CallModel CallProcessor CallControl CallRuleStore CallBatch CallWorld CallDemo CallEffects CallLifecycles CallBatchReport.

Local Open Scope string_scope.
Local Open Scope list_scope.
#[global] Open Scope Z_scope.

Section Jobs.
Context `{PL : Platform, CO : Collation, ST : Storage, JP : JsonParser}.

(** ** Jobs *)

(** What the callers start: a batch, one candidate (as a batch does), a rule version. *)
Inductive call_job : Type :=
| RunBatch (b : RunCallAuditBatchInput)
| AuditCandidate (p : ProcessCallAuditCandidateInput)
| SaveRuleVersion (a : CallAuditRuleActivation) (l : CallAuditRuleVersionLifecycle)
| SwitchRuleVersion (s : ActivateRuleVersionInput).

Inductive job_answer : Type :=
| BatchRan (r : Prelude.result batch_error CallAuditBatchRunSummary)
| CandidateProcessed (r : Prelude.result processing_error CallAuditProcessingSummary)
| RuleVersionSaved (r : Prelude.result control_error (string * insert_outcome))
| RuleVersionSwitched (r : Prelude.result control_error (string * bool)).

Definition program (j : call_job) : prog op job_answer :=
  match j with
  | RunBatch b => prog_seq (runCallAuditBatch b) (fun r => Ret (BatchRan r))
  | AuditCandidate p => prog_seq (processCallAuditCandidate p) (fun r => Ret (CandidateProcessed r))
  | SaveRuleVersion a l => prog_seq (saveRuleVersionSnapshot a l) (fun r => Ret (RuleVersionSaved r))
  | SwitchRuleVersion s => prog_seq (switchRuleVersion s) (fun r => Ret (RuleVersionSwitched r))
  end.

Definition jobs : Type := config op world call_job job_answer.
Definition job_step : jobs → jobs → Prop := step (@perform _) program.

(** Nothing was claimed or paid through this record yet; the tables are what they are. *)
Definition starting (d0 : tables) : jobs := ([], World d0 [] []).

(** What the jobs can have come to from the given tables. *)
Definition job_reachable (d0 : tables) (c : jobs) : Prop := rtc job_step (starting d0) c.

(** A job has returned. *)
Definition returned (c : jobs) (i : nat) (j : call_job) (a : job_answer) : Prop := c.1 !! i = Some (Thread j (Ret a)).

(** What its answer vouches for. *)
Definition vouched (j : call_job) (a : job_answer) (w : world) : Prop :=
  match j, a with
  | RunBatch b, BatchRan (Ok rs) => batch_reported b rs w
  | AuditCandidate p, CandidateProcessed (Ok s) => processed p s w
  | SaveRuleVersion a _, RuleVersionSaved (Ok p) =>
      ∃ v, validateRuleActivationSnapshot a = Ok v ∧ p.1 = buildRuleVersionId v ∧ rule_recorded (db w) v
  | SwitchRuleVersion _, RuleVersionSwitched (Ok _)
  | RunBatch _, BatchRan (Throw _) | AuditCandidate _, CandidateProcessed (Throw _)
  | SaveRuleVersion _ _, RuleVersionSaved (Throw _) | SwitchRuleVersion _, RuleVersionSwitched (Throw _) => True
  | _, _ => False
  end.

Context `{WO : !StatusWords CO, PLW : !PlatformLaws PL}.

Lemma does_program {E A} d0 i (m : act E A) (k : Prelude.result E A → job_answer) (P : Prelude.result E A → world → Prop)
    (Q : job_answer → world → Prop) w :
  does d0 i grown m P w → (∀ r w', grown w w' → P r w' → Q (k r) w') →
  ensures (@perform _) (sound d0) guar i (prog_seq m (fun r => Ret (k r))) Q w.
Proof.
  intros Hm HQ. apply ensures_seq. eapply ensures_mono; [exact Hm|]. intros r w' (_ & Hg & HP). by apply HQ.
Qed.

Lemma program_vouched d0 j i w : sound d0 w → ensures (@perform _) (sound d0) guar i (program j) (vouched j) w.
Proof.
  intros Hw. destruct j as [b|p|a l|s]; cbn [program].
  - eapply does_program; [by apply grows_runCallAuditBatch|]. by intros [rs|e] w' _ HP.
  - eapply does_program; [by apply grows_processCallAuditCandidate|]. by intros [rs|e] w' _ HP; [apply HP|].
  - eapply does_program; [by apply keeps_grows, keeps_saveRuleVersionSnapshot|]. by intros [rs|e] w' _ HP.
  - eapply does_program; [by apply keeps_grows, keeps_switchRuleVersion|]. by intros [rs|e] w' _ _.
Qed.

Lemma starting_sound d0 : tables_ok d0 → sound d0 (World d0 [] []).
Proof.
  intros Hok. split; cbn; try done; try (by intros ? ?%elem_of_nil); try (by intros ? ? ?%elem_of_nil).
Qed.

Definition jobs_ok (d0 : tables) (w0 : world) : jobs → Prop :=
  pool_ok (@perform _) (sound d0) guar (fun _ _ => True) (fun j _ => vouched j) w0.

Lemma jobs_adequate d0 c : tables_ok d0 → job_reachable d0 c → jobs_ok d0 (World d0 [] []) c.
Proof.
  intros Hok Hr. apply (adequacy (@perform _) program); [done| |by apply starting_sound|done|exact Hr].
  intros j i w Hw _. by apply program_vouched.
Qed.

(** From any reachable point on. *)
Lemma jobs_later d0 c c' : tables_ok d0 → job_reachable d0 c → rtc job_step c c' → grown c.2 c'.2.
Proof.
  intros Hok Hr Hs. pose proof (jobs_adequate d0 c Hok Hr) as (HI & _ & Ht & Hf).
  assert (jobs_ok d0 c.2 c) as Hc by (split_and!; [done|apply rtc_refl|done|done]).
  enough (jobs_ok d0 c.2 c') as (_ & He & _) by (by apply evolves_grown).
  apply (steps_pool_ok (@perform _) program) with (c := c); [done| |done|done].
  intros j i w Hw _. by apply program_vouched.
Qed.

Lemma candidate_recorded_at d0 c i p s :
  tables_ok d0 → job_reachable d0 c → returned c i (AuditCandidate p) (CandidateProcessed (Ok s)) → processed p s c.2.
Proof. intros Hok Hr Hi. exact (returned_post _ _ _ _ _ _ _ _ _ _ (jobs_adequate d0 c Hok Hr) Hi). Qed.

(** Thread [i] took no claim and paid nothing. *)
Definition untouched (i : nat) (w : world) : Prop :=
  (∀ g, g ∈ granted w → g.2 ≠ i) ∧ ∀ q, q ∈ paid w → payer q ≠ i.

Lemma untouched_kept i w w' : kept i w w' → untouched i w → untouched i w'.
Proof. intros [_ Hg Hp] [H1 H2]. split; [intros g Hin Hi|intros q Hin Hi]; [by eapply H1; [apply Hg|]|by eapply H2; [apply Hp|]]. Qed.

(** A candidate that was not attempted cost nothing. *)
Definition idle (j : call_job) (i : nat) (a : job_answer) (w : world) : Prop :=
  match j, a with
  | AuditCandidate _, CandidateProcessed (Ok s) => modelAttempted s = false → untouched i w
  | _, _ => True
  end.

Lemma program_idle d0 j i w : sound d0 w → untouched i w →
  ensures (@perform _) (sound d0) guar i (program j) (idle j i) w.
Proof.
  intros Hw Hi. destruct j; try (eapply ensures_mono; [by apply program_vouched|by intros]).
  eapply does_program; [by apply grows_processCallAuditCandidate|]. intros [s|e] w' _ HP; [|done].
  intros Hno. eapply untouched_kept; [by apply HP|done].
Qed.

Lemma jobs_idle d0 c : tables_ok d0 → job_reachable d0 c →
  pool_ok (@perform _) (sound d0) guar untouched idle (World d0 [] []) c.
Proof.
  intros Hok Hr. apply (adequacy (@perform _) program); [| |by apply starting_sound| |exact Hr].
  - intros i j w w' Hij Hg. apply untouched_kept, rely_kept, rtc_once. by exists j.
  - intros j i w Hw Hi. by apply program_idle.
  - by split; [intros ? ?%elem_of_nil|intros ? ?%elem_of_nil].
Qed.

(** A switch made its version the only active one, in a state the jobs went through. *)
Definition switch_answer (j : call_job) (a : job_answer) (w : world) : Prop :=
  match j, a with
  | SwitchRuleVersion s, RuleVersionSwitched r => switched s r w
  | _, _ => True
  end.

Lemma program_switches d0 j i :
  visits (@perform _) (sound d0) i (program j) (switch_answer j) (fun a => ∀ w, switch_answer j a w).
Proof.
  destruct j; try by apply visits_any. apply visits_map. apply switch_visits.
Qed.

Lemma switch_moment d0 c i s r : tables_ok d0 → job_reachable d0 c →
  returned c i (SwitchRuleVersion s) (RuleVersionSwitched r) →
  moment (@perform _) program (World d0 [] []) i (SwitchRuleVersion s) (switched s r) c.
Proof.
  intros Hok Hr Hi. apply (returned_moment (@perform _) program (sound d0) switch_answer (World d0 [] [])) in Hi; [done| | |exact Hr].
  - intros c1 Hc1. by apply (jobs_adequate d0 c1).
  - intros j k. apply program_switches.
Qed.

(** A job started last and run while nothing else moves. *)
Definition ran_alone (answers : nat → answer) (j : call_job) (c : jobs) : jobs :=
  let r := run (@perform _) (length c.1) (program j) answers 0 c.2 in (c.1 ++ [Thread j (Ret r.1)], r.2.2).

Lemma ran_alone_steps answers j c : rtc job_step c (ran_alone answers j c).
Proof. destruct c as [ts w]. exact (start_and_run (@perform _) program ts j w answers 0). Qed.

(** ** The claims *)

(** C9: however any number of jobs interleave, fail or are abandoned, the provider is asked
    at most once per source revision: two requests are never for references that collate as
    the same, and each was made by a run that holds the one claim row of its revision, which
    nobody held at the start and no other run had a result for. *)
Theorem model_paid_once d0 c :
  tables_ok d0 → job_reachable d0 c →
  (∀ a b p q, paid c.2 !! a = Some p → paid c.2 !! b = Some q →
     sql_eq (sourceRefId (paid_for p)) (sourceRefId (paid_for q)) = true → a = b) ∧
  ∀ p, p ∈ paid c.2 →
    (∃ at_, claim_values (ClaimInput (paid_for p) at_) ∈ spend_claims (db c.2)) ∧
    (∀ r, r ∈ spend_claims d0 → column_is "source_ref_id" (sourceRefId (paid_for p)) r = false) ∧
    (∀ r, r ∈ results d0 → is_prior_result (paid_for p) r = false).
Proof.
  intros Hok Hr. destruct (jobs_adequate d0 c Hok Hr) as ([] & _). split; [done|].
  intros p Hp. split; [by apply paid_claimed|]. split.
  - intros r Hrow. exact (granted_since _ r (paid_granted p Hp) Hrow).
  - intros r Hrow. by apply paid_since.
Qed.

(** C11: when the audit of a candidate answers, its revision, its reference and its result are
    in the tables under the derived identities, at that moment and at any later one. Either
    there was nothing to audit; or the candidate was turned away, and then what turned it away
    is stored (another run's result for the revision, or a claim row on it, as the skip code
    says), the result carries that code, and this call neither took a claim nor paid; or there
    was one attempt, recorded, under a claim of this run, which succeeded only if the provider
    was asked. *)
Theorem candidate_recorded d0 c c' i p s :
  tables_ok d0 → job_reachable d0 c → returned c i (AuditCandidate p) (CandidateProcessed (Ok s)) →
  rtc job_step c c' →
  processed p s c'.2 ∧
  (∀ code, spendSkipCode s = Some code →
     ∃ e b, buildSourceRevision (pi_candidate p) = Ok e ∧ bundle_recorded (db c'.2) b ∧
       errorCode (bundle_result b) = Some (CALL_AUDIT_SPEND_SKIP_CODES code) ∧
       blocked (candidate_identity p e) code (db c'.2)) ∧
  (modelAttempted s = false →
     (∀ g, g ∈ granted c'.2 → g.2 ≠ i) ∧ ∀ q, q ∈ paid c'.2 → payer q ≠ i).
Proof.
  intros Hok Hr Hi Hs. assert (processed p s c'.2) as Hp
    by (eapply processed_grown; [by eapply jobs_later|by eapply candidate_recorded_at]).
  split; [done|]. split.
  - intros code Hcode. destruct Hp as (e & b & H1 & _ & _ & _ & H2 & _ & H3 & Hh). exists e, b.
    split; [done|]. split; [done|]. split; [by apply H3|]. destruct Hh; congruence.
  - assert (job_reachable d0 c') as Hr' by (unfold job_reachable; by etransitivity).
    pose proof (returned_stays (@perform _) program _ _ _ _ _ Hs Hi) as Hi'.
    exact (returned_post _ _ _ _ _ _ _ _ _ _ (jobs_idle d0 c' Hok Hr') Hi').
Qed.

(** C10: when a batch answers, every candidate its tally counts is recorded, the counters are
    the counts of what happened to them, and the row of the run is completed or failed with
    exactly these counters and the code of the answer, then and for ever. *)
Theorem batch_reports_truthfully d0 c c' i b rs :
  tables_ok d0 → job_reachable d0 c → returned c i (RunBatch b) (BatchRan (Ok rs)) → rtc job_step c c' →
  ∃ plan v outcomes, plan_run b = Ok plan ∧ validateRunRequest (bi_request b) = Ok v ∧ rs_runId rs = buildRunId v ∧
    Forall (fun o => under_plan plan (buildRunId v) o.1 ∧ processed o.1 o.2 c'.2) outcomes ∧
    rs_tally rs = counted (candidatesSelected (rs_tally rs)) (map snd outcomes) ∧
    Z.of_nat (length outcomes) ≤ candidatesSelected (rs_tally rs) ∧ within_limit plan (Z.of_nat (length outcomes)) ∧
    run_settled (db c'.2) (buildRunId v) (final_status rs) (rs_failureCode rs)
      (counted_columns (candidatesSelected (rs_tally rs)) (map snd outcomes)) ∧
    (rs_completed rs = true ↔ rs_failureCode rs = None) ∧ 0 ≤ rs_pagesRead rs ≤ MAX_RUN_PAGES.
Proof.
  intros Hok Hr Hi Hs. pose proof (jobs_adequate d0 c Hok Hr) as Hp.
  pose proof (returned_post _ _ _ _ _ _ _ _ _ _ Hp Hi) as (plan & v & Hplan & Hv & _ & []).
  pose proof (jobs_later _ _ _ Hok Hr Hs) as Hg. destruct rep_tally as (l & Hl & _ & Hlen & Hlim).
  destruct (tallied_grown _ _ _ _ _ _ Hg Hl) as [Ht HF]. destruct (plan_run_limit _ _ Hplan) as [_ Hmax].
  exists plan, v, l. split; [done|]. split; [done|]. split; [done|]. split; [done|].
  rewrite tally_of_counted in Ht. split; [done|].
  split; [done|]. split; [done|]. split; [|split].
  - rewrite <- countersOf_counted, <- Ht. eapply run_settled_step; [|apply Hg|done]. unfold final_status. by destruct (rs_completed rs).
  - destruct rep_code as [[-> ->]|[-> [p ->]]]; split; done.
  - unfold MAX_RUN_PAGES in *. lia.
Qed.

(** C12: a run only moves on. Between any two moments the rows of [kaudit_call_audit_run] keep
    their places and their identities, a status never goes back from running to pending or
    from settled to open, the start is written once, and a settled row never changes. *)
Theorem runs_settle_once d0 c c' :
  tables_ok d0 → job_reachable d0 c → rtc job_step c c' → runs_le (runs (db c.2)) (runs (db c'.2)).
Proof. intros Hok Hr Hs. pose proof (jobs_later _ _ _ Hok Hr Hs) as Hg. apply Hg. Qed.

(** C13: of the stored rule versions at most one is active at any moment, whatever versions are
    saved and switched concurrently; what a version says is never rewritten; and a switch that
    answers made its version, the one its request names, the only active one: there is a state
    the jobs went through, while that call was running, in which the version is active under
    the configuration it requires and no other is. *)
Theorem one_active_rule_version d0 c c' :
  tables_ok d0 → job_reachable d0 c → rtc job_step c c' →
  (length (where_ active (rule_versions (db c.2))) ≤ 1)%nat ∧
  rules_le (rule_versions (db c.2)) (rule_versions (db c'.2)) ∧
  ∀ i s id activated, returned c i (SwitchRuleVersion s) (RuleVersionSwitched (Ok (id, activated))) →
    named_version s id ∧
    ∃ c1 th, job_reachable d0 c1 ∧ rtc job_step c1 c ∧ c1.1 !! i = Some th ∧ job th = SwitchRuleVersion s ∧
      only_active id (ai_requiredConfigSha256 s) (db c1.2).
Proof.
  intros Hok Hr Hs. pose proof (jobs_later _ _ _ Hok Hr Hs) as Hg. pose proof (jobs_adequate d0 c Hok Hr) as Hp.
  split; [apply Hp|]. split; [apply Hg|]. intros i s id activated Hi.
  destruct (switch_moment d0 c i s _ Hok Hr Hi) as (c1 & th & H1 & H2 & H3 & H4 & H5 & H6).
  split; [exact H5|]. by exists c1, th.
Qed.
End Jobs.

(** ** Jobs that ran *)

Module DemoJobs.
Definition ran (j : call_job) (c : jobs) : jobs := ran_alone demo_answers j c.
Lemma ran_steps j c : rtc job_step c (ran j c).
Proof. exact (ran_alone_steps demo_answers j c). Qed.

Definition audited : jobs := ran (AuditCandidate (demo_input spoken_call)) (starting no_tables).
Definition again : jobs := ran (AuditCandidate (demo_input spoken_call)) audited.
Definition batched : jobs := ran (RunBatch demo_batch) (starting no_tables).

(** The same call under another run: its result stands in the way. *)
Definition demo_other (c : InternalSourceCandidate) : ProcessCallAuditCandidateInput :=
  ProcessInput "crn_2" "crv_1" demo_settings c (VNum 1 0) (VStr "2026-08-02 00:20:00") (VStr "2026-08-02 00:20:01").
Definition other : jobs := ran (AuditCandidate (demo_other spoken_call)) audited.
Definition other_summary : CallAuditProcessingSummary :=
  match (run (@perform _) 1 (processCallAuditCandidate (demo_other spoken_call)) demo_answers 0 audited.2).1 with
  | Ok s => s
  | Throw _ => Summary ("", inserted) "" pending operational_only inserted false None None
  end.

(** What was answered, when it is a summary. *)
Definition summary : CallAuditProcessingSummary :=
  match demo_processed.1 with Ok s => s | Throw _ => Summary ("", inserted) "" pending operational_only inserted false None None end.
Definition report : CallAuditBatchRunSummary :=
  match demo_ran.1 with Ok rs => rs | Throw _ => RunSummary "" inserted false None stop_failed 0 emptyTally end.

Lemma no_tables_ok : tables_ok no_tables.
Proof. split; cbn; try done; try (by intros ? ?%elem_of_nil). lia. Qed.

Lemma audited_reached : job_reachable no_tables audited.
Proof. exact (ran_steps _ (starting no_tables)). Qed.
Lemma batched_reached : job_reachable no_tables batched.
Proof. exact (ran_steps _ (starting no_tables)). Qed.

Lemma again_follows : rtc job_step audited again.
Proof. exact (ran_steps _ audited). Qed.
Lemma again_reached : job_reachable no_tables again.
Proof. unfold job_reachable. etransitivity; [exact audited_reached|exact again_follows]. Qed.
Lemma other_reached : job_reachable no_tables other.
Proof. unfold job_reachable. etransitivity; [exact audited_reached|exact (ran_steps _ audited)]. Qed.
Lemma batched_again : rtc job_step batched (ran (RunBatch demo_batch) batched).
Proof. exact (ran_steps _ batched). Qed.

Definition saved : jobs := ran (SaveRuleVersion demo_activation as_draft) (starting no_tables).
Definition switched : jobs := ran (SwitchRuleVersion demo_switch) saved.

Lemma saved_reached : job_reachable no_tables saved.
Proof. exact (ran_steps _ (starting no_tables)). Qed.
Lemma switched_reached : job_reachable no_tables switched.
Proof. unfold job_reachable. etransitivity; [exact saved_reached|exact (ran_steps _ saved)]. Qed.
Lemma switched_returned : returned switched 1 (SwitchRuleVersion demo_switch)
  (RuleVersionSwitched (Ok (buildRuleVersionId demo_activation, true))).
Proof. vm_compute. reflexivity. Qed.

Lemma audited_returned : returned audited 0 (AuditCandidate (demo_input spoken_call)) (CandidateProcessed (Ok summary)).
Proof. vm_compute. reflexivity. Qed.
Lemma other_returned : returned other 1 (AuditCandidate (demo_other spoken_call)) (CandidateProcessed (Ok other_summary)).
Proof. vm_compute. reflexivity. Qed.
Lemma batched_returned : returned batched 0 (RunBatch demo_batch) (BatchRan (Ok report)).
Proof. vm_compute. reflexivity. Qed.
End DemoJobs.

Lemma model_paid_once_witness :
  length (paid DemoJobs.again.2) = 1%nat ∧
  Forall (fun p => ∃ at_, claim_values (ClaimInput (paid_for p) at_) ∈ spend_claims (db DemoJobs.again.2)) (paid DemoJobs.again.2).
Proof.
  split; [vm_compute; reflexivity|]. apply Forall_forall. intros p Hp.
  destruct (model_paid_once no_tables DemoJobs.again DemoJobs.no_tables_ok DemoJobs.again_reached) as [_ H].
  by destruct (H p Hp).
Defined.

Lemma candidate_recorded_witness :
  processed (demo_input spoken_call) DemoJobs.summary DemoJobs.again.2 ∧
  processed (DemoJobs.demo_other spoken_call) DemoJobs.other_summary DemoJobs.other.2 ∧
  ∃ e, buildSourceRevision (pi_candidate (DemoJobs.demo_other spoken_call)) = Ok e ∧
    blocked (candidate_identity (DemoJobs.demo_other spoken_call) e) priorResult (db DemoJobs.other.2) ∧
    ∀ q, q ∈ paid DemoJobs.other.2 → payer q ≠ 1%nat.
Proof.
  split; [exact (proj1 (candidate_recorded no_tables DemoJobs.audited DemoJobs.again 0 _ _ DemoJobs.no_tables_ok
    DemoJobs.audited_reached DemoJobs.audited_returned DemoJobs.again_follows))|].
  destruct (candidate_recorded no_tables DemoJobs.other DemoJobs.other 1 _ _ DemoJobs.no_tables_ok
    DemoJobs.other_reached DemoJobs.other_returned (rtc_refl _ _)) as (Hp & Hb & Hq).
  split; [exact Hp|]. destruct (Hb priorResult) as (e & b & He & _ & _ & Hbl); [vm_compute; reflexivity|].
  exists e. split; [exact He|]. split; [exact Hbl|]. apply Hq. vm_compute. reflexivity.
Defined.

Lemma batch_reports_truthfully_witness :
  ∃ v, validateRunRequest demo_request = Ok v ∧
    run_settled (db DemoJobs.batched.2) (buildRunId v) "completed" None (Counters 2 2 2 0 0 1 1).
Proof.
  destruct (batch_reports_truthfully no_tables DemoJobs.batched DemoJobs.batched 0 demo_batch DemoJobs.report
    DemoJobs.no_tables_ok DemoJobs.batched_reached DemoJobs.batched_returned (rtc_refl _ _))
    as (plan & v & l & _ & Hv & _ & _ & Ht & _ & _ & Hs & _).
  exists v. split; [exact Hv|]. revert Hs. rewrite <- countersOf_counted, <- Ht.
  assert (final_status DemoJobs.report = "completed") as -> by (vm_compute; reflexivity).
  assert (rs_failureCode DemoJobs.report = None) as -> by (vm_compute; reflexivity).
  assert (countersOf (rs_tally DemoJobs.report) = Counters 2 2 2 0 0 1 1) as -> by (vm_compute; reflexivity). done.
Defined.

Lemma runs_settle_once_witness :
  runs_le (runs (db DemoJobs.batched.2)) (runs (db (DemoJobs.ran (RunBatch demo_batch) DemoJobs.batched).2)).
Proof.
  exact (runs_settle_once no_tables _ _ DemoJobs.no_tables_ok DemoJobs.batched_reached DemoJobs.batched_again).
Defined.

Lemma one_active_rule_version_witness :
  (length (where_ active (rule_versions (db DemoJobs.switched.2))) ≤ 1)%nat ∧
  ∃ c1, job_reachable no_tables c1 ∧ rtc job_step c1 DemoJobs.switched ∧
    only_active (buildRuleVersionId demo_activation) (configSha256 demo_activation) (db c1.2).
Proof.
  destruct (one_active_rule_version no_tables DemoJobs.switched DemoJobs.switched DemoJobs.no_tables_ok
    DemoJobs.switched_reached (rtc_refl _ _)) as (H1 & _ & H3).
  split; [exact H1|]. destruct (H3 _ _ _ _ DemoJobs.switched_returned) as (_ & c1 & th & Hr & Hs & _ & _ & Ha).
  exists c1. split; [exact Hr|]. split; [exact Hs|]. exact Ha.
Defined.
