(* ===== verification/CallReplays.v ===== *)
(** * Doing the same again

    What a second write of one bundle does, and what a second call for one candidate does
    under the run it was already audited by. *)

From stdpp Require Import relations.
From S2P Require Import Prelude JsText CanonicalJson Sql Scoring SourceRevision ResultRecords Prog CallRules CallStore CallPersistence CallModel CallProcessor CallControl CallRuleStore CallBatch CallWorld CallDemo CallEffects CallLifecycles CallBatchReport CallSafety.

Local Open Scope string_scope.
Local Open Scope list_scope.
#[global] Open Scope Z_scope.

Lemma first_difference_None l : first_difference l = None ↔ Forall (fun p => p.2 = true) l.
Proof.
  unfold first_difference. rewrite fmap_None. induction l as [|p l IH]; cbn; [split; [by constructor|done]|].
  rewrite Forall_cons. destruct p.2; cbn; [|naive_solver]. rewrite IH. naive_solver.
Qed.

#[export] Instance SourceCategoricalSnapshot_eq_dec : EqDecision SourceCategoricalSnapshot.
Proof. solve_decision. Defined.
#[export] Instance InternalSourceCandidate_eq_dec : EqDecision InternalSourceCandidate.
Proof. solve_decision. Defined.

Lemma status_text_inj s t : status_text s = status_text t → s = t.
Proof. by destruct s, t. Qed.

Section Rejoining.
Context `{PL : Platform, CO : Collation, ST : Storage, JP : JsonParser}.

(** ** A second result *)

Lemma row_of_result_status r x : row_of_result r x →
  textOrNull (column x "processing_status") = Some (status_text (processingStatus r)).
Proof.
  intros [_ [->|Hc]]; [done|]. unfold resultConflictField in Hc.
  apply first_difference_None, Forall_app in Hc as [Hc _]. rewrite Forall_forall in Hc.
  specialize (Hc (text_check x "processing_status" (column (resultValues r) "processing_status"))).
  cbn [text_check snd] in Hc. apply (bool_decide_eq_true _), Hc, list_elem_of_fmap.
  exists "processing_status". split; [done|]. apply (bool_decide_unpack _). vm_compute. exact I.
Qed.

Context (d0 : tables) (i : nat).
Notation holds P := (fun r w' => match r with Ok a => P a w' | Throw _ => True end).
Notation fails m := (does d0 i (kept i) m (holds (fun _ _ => False))).

(** The result under a key, when there is one, is the one that is found. *)
Lemma selected_result d x key : tables_ok d → x ∈ results d → column_is "idempotency_key" key x = true →
  select_result key d = Some x.
Proof.
  intros Hok Hx Hkey. destruct (select_result key d) as [y|] eqn:E.
  - apply first_row_Some in E as [Hy Hyk]. f_equal. apply (distinct_same RESULT_KEYS (results d)); [apply Hok|done|done|].
    apply column_is_inv in Hkey as (a & Ha & Haq), Hyk as (b & Hb & Hbq).
    unfold clashes, RESULT_KEYS, same_column. cbn [existsb forallb]. rewrite Ha, Hb, (sql_eq_both b a key) by done.
    by rewrite !orb_true_r.
  - pose proof (first_row_None _ _ _ E Hx) as Hn. congruence.
Qed.

(** A bundle with another status than the stored result of its key is never saved. *)
Lemma other_status_fails b r x w :
  sound d0 w → x ∈ results (db w) → row_of_result r x → idempotencyKey r = idempotencyKey (bundle_result b) →
  processingStatus r ≠ processingStatus (bundle_result b) → fails (saveResultBundle b) w.
Proof.
  intros Hw Hx Hrow Hkey Hst.
  assert (column_is "idempotency_key" (idempotencyKey (bundle_result b)) x = true) as Hxk by (rewrite <- Hkey; apply Hrow).
  assert (∀ u, conflict "result" (resultConflictField x (bundle_result b)) = Ok u → False) as Hconf.
  { intros u Hc%conflict_Ok. apply Hst, status_text_inj.
    assert (Some (status_text (processingStatus r)) = Some (status_text (processingStatus (bundle_result b)))) as E; [|by injection E].
    rewrite <- (row_of_result_status r x Hrow).
    apply (row_of_result_status (bundle_result b) x). split; [done|by right]. }
  assert (∀ w1, sound d0 w1 → kept i w w1 → select_result (idempotencyKey (bundle_result b)) (db w1) = Some x) as Hsel.
  { intros w1 Hs1 Hk1. apply selected_result; [apply Hs1| |done]. eapply elem_of_prefix; [exact Hx|apply Hk1]. }
  apply keeps_check; [done|]. intros _ _. apply keeps_catch.
  - apply keeps_bind, keeps_request_only; [done|]. intros w1 Hs1 Hk1. apply keeps_catch.
    + apply keeps_bind, keeps_request_only; [done|]. intros w2 Hs2 Hk2.
      apply keeps_bind, keeps_select; [done|]. intros w3 Hs3 Hk3.
      rewrite Hsel; [|done|by etransitivity]. apply keeps_check; [done|]. intros u Hc. by destruct (Hconf u).
    + intros e w2 Hs2 Hk2. apply keeps_bind, keeps_request_only; [done|]. intros w3 Hs3 Hk3. by apply keeps_throw.
  - intros e w1 Hs1 Hk1. destruct (negb _); [by apply keeps_throw|].
    apply keeps_bind, keeps_select; [done|]. intros w2 Hs2 Hk2. rewrite Hsel by done.
    apply keeps_check; [done|]. intros u Hc. by destruct (Hconf u).
Qed.

(** ** A second claim *)

(** A revision that is claimed is not claimed again, by whatever run. *)
Lemma claim_taken c c' at_ w :
  sound d0 w → claim_values (ClaimInput c' at_) ∈ spend_claims (db w) → sourceRefId c' = sourceRefId (claim_identity c) →
  grows d0 i (claimContentAuditSpend c) (holds (fun r _ => r ≠ claimed)) w.
Proof.
  intros Hw Hrow Hsame. assert (∀ w w', kept i w w' → grown w w') as HK by (by intros ? ? []).
  apply does_bind; [apply _|]. apply does_select; [apply _|done|done| |done].
  intros w1 Hs1 _ Hk1. destruct (first_row _ _) as [x|] eqn:Ex; [by apply does_ret; [apply _| |]|].
  apply does_catch; [apply _|].
  eapply (does_mono _ _ _ _ (fun r _ => ∃ e, r = Throw e)).
  - apply does_bind; [apply _|]. apply does_rethrow; [apply _|].
    apply does_perform; [apply _|done|done|]. intros a r w' Hp. cbn in Hp.
    destruct (autocommit _ _ _) as [r' d'] eqn:E. injection Hp as -> <-.
    assert (∀ u d2, insert_claim (claim_values c) (db w1) = Ok (u, d2) → False) as Hno.
    { intros u d2 [_ Hnew]%insert_claim_inv. specialize (Hnew (claim_values (ClaimInput c' at_))).
      rewrite (claims_clash _ _ (sourceRefId (claim_identity c)) (sourceRefId c')) in Hnew by done.
      rewrite Hsame, sql_eq_refl in Hnew. discriminate Hnew. eapply elem_of_prefix; [exact Hrow|apply Hk1]. }
    destruct (autocommit_cases _ _ _ _ _ E) as [(u & Hi & ->)|(e & -> & Hd)]; [by destruct (Hno _ _ Hi)|].
    assert (tables_step (db w1) d') as Hst by (destruct Hd as [->|[u Hi]]; [reflexivity|by destruct (Hno _ _ Hi)]).
    split_and!; [by apply sound_set_db|by apply guar_set_db|by apply (guar_grown i), guar_set_db|].
    intros w2 Hk2 Hs2. apply does_ret; [apply _|done|]. by eexists.
  - intros r w2 Hs2 Hk2 [e ->]. destruct (negb _); apply does_ret; try done; apply _.
Qed.

(** ** A second call *)

(** What is in the tables once a candidate was attempted: its claim, and its result under the
    key of its identity, succeeded or failed. *)
Definition attempted (c : CallAuditResultIdentity) (w : world) : Prop :=
  (∃ at_, claim_values (ClaimInput c at_) ∈ spend_claims (db w)) ∧
  ∃ id r x key, requireIdentity c = Ok id ∧ idempotencyKeyFor id = Ok key ∧ x ∈ results (db w) ∧ row_of_result r x ∧
    idempotencyKey r = key ∧ processingStatus r ≠ skipped.

Lemma attempted_grown c w w' : grown w w' → attempted c w → attempted c w'.
Proof.
  intros Hg [[at_ Hat] (id & r & x & key & H1 & H2 & Hx & Hrest)]. split.
  - exists at_. eapply elem_of_prefix; [exact Hat|apply Hg].
  - exists id, r, x, key. split; [done|]. split; [done|]. split; [|done]. eapply elem_of_prefix; [exact Hx|apply Hg].
Qed.

Lemma attempted_fails p e w :
  sound d0 w → buildSourceRevision (pi_candidate p) = Ok e → auditable e = true →
  attempted (candidate_identity p e) w →
  grows d0 i (processCallAuditCandidate p) (holds (fun _ _ => False)) w.
Proof.
  intros Hw Hrev Haud Hatt. unfold processCallAuditCandidate.
  do 5 (apply does_sync_bind; [apply _|done| |done]; intros ? _).
  rewrite Hrev. apply does_sync_bind; [apply _|done| |done]. intros e' [= <-].
  unfold audit_candidate. apply does_bind; [apply _|].
  eapply does_mono; [by apply keeps_grows, keeps_repository, keeps_upsertSourceReference|].
  intros [sourceRef|err] w1 Hs1 Hg1 Hup; [|done]. destruct Hup as [Href _].
  assert (Identity (pi_runId p) sourceRef.1 (pi_ruleVersionId p) = candidate_identity p e) as ->
    by (unfold candidate_identity; by rewrite Href).
  rewrite auditable_cases, Haud. apply does_bind; [apply _|].
  pose proof (attempted_grown _ _ _ Hg1 Hatt) as [[at_ Hat] _].
  eapply (does_mono _ _ _ _ (holds (fun r _ => r ≠ claimed))).
  { apply does_rethrow; [apply _|]. eapply does_mono; [by eapply claim_taken|]. by intros [r|err] w' _ _ HP. }
  intros [outcome|err] w2 Hs2 Hg2 Hc; [|done]. destruct outcome as [|code]; [done|].
  eapply (does_mono _ _ _ _ (holds (fun _ _ => False))).
  { apply keeps_grows, keeps_recorded; [done|]. intros b Hb. apply skipped_bundle in Hb as (id' & Hid' & _ & _ & Hst & _ & Hkey').
    apply keeps_bind. eapply does_mono; [apply keeps_repository|].
    - assert (grown w w2) as Hg by (by etransitivity).
      pose proof (attempted_grown _ _ _ Hg Hatt) as [_ (id & r & x & key & H1 & H2 & Hx & Hrow & Hk & Hne)].
      rewrite H1 in Hid'. injection Hid' as <-. rewrite H2 in Hkey'. injection Hkey' as ->.
      eapply (other_status_fails b r x); try done. by rewrite Hst.
    - by intros [o|err] w3 _ _ []. }
  by intros [s|err] w3 _ _ HP.
Qed.
End Rejoining.

Section RejoinedRuns.
Context `{PL : Platform, CO : Collation, ST : Storage, JP : JsonParser, WO : !StatusWords CO, PLW : !PlatformLaws PL}.

(** One call for the candidate of another, under the same run and rule version. *)
Definition same_call (p p' : ProcessCallAuditCandidateInput) : Prop :=
  pi_candidate p' = pi_candidate p ∧ pi_runId p' = pi_runId p ∧ pi_ruleVersionId p' = pi_ruleVersionId p.

#[export] Instance same_call_dec p p' : Decision (same_call p p').
Proof. unfold same_call. apply _. Defined.

Lemma processed_attempted p s w : processed p s w → modelAttempted s = true →
  ∃ e, buildSourceRevision (pi_candidate p) = Ok e ∧ auditable e = true ∧ attempted (candidate_identity p e) w.
Proof.
  intros (e & b & Hrev & _ & _ & Hb & [(x & Hx & Hrow) _] & _ & _ & Hh) Hatt. exists e. split; [done|].
  destruct Hh as [| |u us Haud ????????? Hclaim Hst]; [congruence..|]. split; [done|]. split; [done|].
  destruct Hb as (id & Hid & _ & _ & Hbst & _ & Hkey). exists id, (bundle_result b), x, (idempotencyKey (bundle_result b)).
  split_and!; try done. rewrite Hbst. destruct Hst as [[-> _]|[-> _]]; done.
Qed.

(** The answer of a second call. *)
Definition refused_again (p : ProcessCallAuditCandidateInput) (j : call_job) (a : job_answer) : Prop :=
  match j with
  | AuditCandidate p' => same_call p p' → ∃ e, a = CandidateProcessed (Throw e)
  | _ => True
  end.

Lemma program_refused d0 p s i j w0 w :
  sound d0 w → processed p s w0 → modelAttempted s = true → grown w0 w →
  ensures (@perform _) (sound d0) guar i (program j) (fun a _ => refused_again p j a) w.
Proof.
  intros Hw Hp Hatt Hg.
  assert (ensures (@perform _) (sound d0) guar i (program j) (fun _ _ => True) w) as Hbase
    by (eapply ensures_mono; [by apply program_vouched|done]).
  destruct j as [b|p'|a l|sw]; try (eapply ensures_mono; [exact Hbase|by intros]).
  destruct (decide (same_call p p')) as [(Hc & Hr & Hv)|Hno]; [|eapply ensures_mono; [exact Hbase|by intros ? ? _ ?]].
  destruct (processed_attempted _ _ _ Hp Hatt) as (e & Hrev & Haud & Hatt').
  eapply does_program.
  - apply (attempted_fails d0 i p' e); [done|by rewrite Hc|done|].
    unfold candidate_identity in *. rewrite Hr, Hv. by eapply attempted_grown.
  - intros [s'|err] w' _ HP; [done|]. intros _. by eexists.
Qed.

(** C37: a candidate that was attempted is never processed again under the run that audited it:
    whenever a later call for the same candidate, run and rule version answers, it answers
    with an error. The claim is taken by the run itself, so the second call is turned away as
    a duplicate, and the skipped result it would write conflicts with the stored one. *)
Theorem rejoined_candidate_refused d0 c c' i p s j p' a :
  tables_ok d0 → job_reachable d0 c → returned c i (AuditCandidate p) (CandidateProcessed (Ok s)) →
  modelAttempted s = true → rtc job_step c c' → (length c.1 ≤ j)%nat → same_call p p' →
  returned c' j (AuditCandidate p') a → ∃ e, a = CandidateProcessed (Throw e).
Proof.
  intros Hok Hr Hi Hatt Hs Hj Hsame Ha.
  pose proof (jobs_adequate d0 c Hok Hr) as (HI & _ & Ht & _).
  pose proof (candidate_recorded_at d0 c i p s Hok Hr Hi) as Hp.
  set (post t (k : nat) b (_ : world) := (length c.1 ≤ k)%nat → refused_again p t b).
  assert (pool_ok (@perform _) (sound d0) guar (fun _ w => grown c.2 w) post c.2 c) as Hc.
  { split_and!; [done|apply rtc_refl| |by intros ? _]. intros k th Hk w Hrely Hw.
    eapply ensures_mono; [by apply (Ht k th Hk)|]. intros b w' _ Hk'. apply lookup_lt_Some in Hk. lia. }
  enough (pool_ok (@perform _) (sound d0) guar (fun _ w => grown c.2 w) post c.2 c') as Hc'.
  { exact (returned_post _ _ _ _ _ _ _ _ _ _ Hc' Ha Hj Hsame). }
  apply (steps_pool_ok (@perform _) program) with (c := c); [| |done|done].
  - intros k l w w' _ Hg Hw. etransitivity; [exact Hw|]. by eapply guar_grown.
  - intros t k w Hw Hg. eapply ensures_mono; [by eapply program_refused|]. intros b w' Hb _. exact Hb.
Qed.
End RejoinedRuns.

(** ** A second write of one bundle *)

Section Rewriting.
Context `{PL : Platform, CO : Collation, ST : Storage, STL : !StorageLaws ST}.

Lemma self_text l r cs :
  Forall (fun c => c ∉ l) cs → Forall (fun p => p.2 = true) (map (fun c => text_check (stored l r) c (column r c)) cs).
Proof.
  intros Hcs. rewrite Forall_forall in Hcs. apply Forall_forall. intros p Hp.
  apply list_elem_of_fmap in Hp as (c & -> & Hc). apply bool_decide_eq_true. by rewrite stored_other by by apply Hcs.
Qed.

Lemma fromTinyint_toTinyint b : fromTinyint (toTinyint b) = b.
Proof. by destruct b as [[]|]. Qed.

(** A text a [DATETIME(6)] column takes as it is meant. *)
Definition well_formed_datetime (o : option string) : Prop := ∀ t, o = Some t → ∃ p, NAIVE_DATETIME t = Some p.

Lemma self_tiny l r c b : c ∉ l → column r c = toTinyint b → (tiny_check (stored l r) c b).2 = true.
Proof. intros Hc Hr. apply bool_decide_eq_true. by rewrite stored_other, Hr, fromTinyint_toTinyint by done. Qed.

Lemma self_datetime l r c o : c ∈ l → column r c = cell_text o → well_formed_datetime o →
  (datetime_check (stored l r) c (cell_text o)).2 = true.
Proof.
  intros Hc Hr Ho. apply bool_decide_eq_true. rewrite <- Hr. destruct o as [t|].
  - destruct (Ho t eq_refl) as [p Hp]. rewrite (stored_datetime l r c t p); [done..|].
    by apply datetime_text_again, (NAIVE_DATETIME_parts t).
  - by rewrite column_stored, Hr.
Qed.

(** The row of a result is read back as the result. *)
Lemma resultConflictField_self r : well_formed_datetime (auditedAt r) →
  resultConflictField (stored RESULT_DATETIMES (resultValues r)) r = None.
Proof.
  intros Hat. apply first_difference_None, Forall_app. split.
  - apply self_text. apply (bool_decide_unpack _). vm_compute. exact I.
  - assert (∀ c, c ∈ ["call_connected"; "customer_spoke"; "meaningful_conversation"] → c ∉ RESULT_DATETIMES) as Hno.
    { apply Forall_forall. apply (bool_decide_unpack _). vm_compute. exact I. }
    repeat apply Forall_cons_2; [| | | |by apply Forall_nil_2].
    + apply self_tiny; [apply Hno; by left|done].
    + apply self_tiny; [apply Hno; right; by left|done].
    + apply self_tiny; [apply Hno; do 2 right; by left|done].
    + apply self_datetime; [by left|done|done].
Qed.

(** The rows of the metrics are read back as the metrics. *)
Lemma assert_metrics_Ok resultId seen records seen' :
  assert_metrics resultId seen records = Ok seen' →
  Forall (fun m => metric_resultId m = resultId) records ∧ NoDup (map metricCode records) ∧
  ∀ m, m ∈ records → metricCode m ∉ seen.
Proof.
  revert seen. induction records as [|m records IH]; cbn; intros seen Hs; [split_and!; [done|constructor|by intros m ?%elem_of_nil]|].
  apply bind_Ok_iff in Hs as (u & H1%throw_if_Ok & Hs). apply bind_Ok_iff in Hs as (u' & H2%throw_if_Ok & Hs).
  apply negb_false_iff, String.eqb_eq in H1. apply bool_decide_eq_false in H2. apply IH in Hs as (Ha & Hn & Hd).
  split; [by constructor|]. split.
  - constructor; [|done]. intros (x & Hx & Hin)%list_elem_of_fmap. apply (Hd x Hin). rewrite <- Hx. by left.
  - intros x [->|Hx]%elem_of_cons; [done|]. intros Hin. apply (Hd x Hx). by right.
Qed.

Lemma metric_text_inj a b : metric_text a = metric_text b → a = b.
Proof. by destruct a, b. Qed.

Lemma rows_by_code_self seen records :
  NoDup (map metricCode records) → (∀ m, m ∈ records → metric_text (metricCode m) ∉ seen) →
  rows_by_code seen (metricValues records) = Some (map (fun m => (metric_text (metricCode m), metricValue m)) records).
Proof.
  revert seen. induction records as [|m records IH]; intros seen Hn Hs; [done|]. cbn.
  rewrite bool_decide_eq_false_2 by by apply Hs; left. apply NoDup_cons in Hn as [Hm Hn].
  fold (metricValues records). rewrite IH; [done|done|].
  intros x Hx [E|Hin]%elem_of_cons; [|by apply (Hs x); [by right|]].
  apply Hm, list_elem_of_fmap. exists x. split; [|done]. symmetry. by apply metric_text_inj.
Qed.

Lemma metric_conflict_self records m :
  NoDup (map metricCode records) → m ∈ records →
  metric_conflict (map (fun m => (metric_text (metricCode m), metricValue m)) records) m = None.
Proof.
  intros Hn Hm. unfold metric_conflict.
  assert (List.find (fun p => String.eqb p.1 (metric_text (metricCode m)))
            (map (fun m => (metric_text (metricCode m), metricValue m)) records) =
          Some (metric_text (metricCode m), metricValue m)) as ->.
  { induction records as [|x records IH]; [by apply elem_of_nil in Hm|]. cbn. apply NoDup_cons in Hn as [Hx Hn].
    destruct (String.eqb_spec (metric_text (metricCode x)) (metric_text (metricCode m))) as [E|E].
    - apply metric_text_inj in E. apply elem_of_cons in Hm as [->|Hm]; [done|].
      destruct Hx. rewrite E. apply list_elem_of_fmap. by exists m.
    - apply elem_of_cons in Hm as [->|Hm]; [done|by apply IH]. }
  apply first_difference_None. repeat apply Forall_cons_2; try apply Forall_nil_2; apply bool_decide_eq_true; try done.
  - by destruct m as [? ? ? []].
  - apply fromTinyint_toTinyint.
Qed.

Lemma metricScoresConflictField_self resultId seen records :
  assert_metrics resultId [] records = Ok seen → metricScoresConflictField (metricValues records) records = None.
Proof.
  intros (_ & Hn & _)%assert_metrics_Ok. unfold metricScoresConflictField, metricValues at 1.
  rewrite length_map, Nat.eqb_refl. cbn [negb]. rewrite rows_by_code_self; [|done|by intros ? _ ?%elem_of_nil].
  assert (∀ m, m ∈ records → metric_conflict (map (fun m => (metric_text (metricCode m), metricValue m)) records) m = None)
    as Hself by (intros m Hm; by apply metric_conflict_self).
  revert Hself. generalize (map (fun m => (metric_text (metricCode m), metricValue m)) records). intros table.
  clear Hn. induction records as [|m records IH]; intros Hself; [done|]. cbn. rewrite (Hself m) by by left.
  apply IH. intros x Hx. apply Hself. by right.
Qed.

(** *** Alone, with a database that answers *)

Definition calm (answers : nat → answer) : Prop := ∀ n k, refused (database (answers n)) k = false.

Context (i : nat) (answers : nat → answer) (Hcalm : calm answers).
Notation go m n w := (run (@perform _) i m answers n w).

Lemma run_bind {E A B} (m : act E A) (f : A → act E B) n w :
  go (m ≫= f) n w =
  match go m n w with
  | (Ok a, (n', w')) => go (f a) n' w'
  | (Throw e, s) => (Throw e, s)
  end.
Proof. unfold mbind, action_bind. rewrite run_seq. by destruct (go m n w) as [[a|e] [n' w']]. Qed.

Lemma run_catch {E E' A} (m : act E A) (h : E → act E' A) n w :
  go (catch m h) n w =
  match go m n w with
  | (Ok a, s) => (Ok a, s)
  | (Throw e, (n', w')) => go (h e) n' w'
  end.
Proof. unfold catch. rewrite run_seq. by destruct (go m n w) as [[a|e] [n' w']]. Qed.

Lemma run_select {A} (read : tables → A) n w :
  go (execute (select read)) n w = (Ok (read (db w)), (S n, w)).
Proof.
  unfold execute, rethrow. rewrite run_catch. cbn. unfold autocommit, select. rewrite Hcalm. cbn. by destruct w.
Qed.

(** The inserts of a bundle. *)
Lemma insert_bundle_calm b env k d a k' d' :
  insert_bundle b env k d = (Ok a, (k', d')) →
  results d' = results d ++ [stored RESULT_DATETIMES (resultValues (bundle_result b))] ∧
  metric_scores d' = metric_scores d ++ metricValues (bundle_metricScores b).
Proof.
  intros [n1 (u & n2 & d1 & Hr & Hm)%sql_bind_Ok]%committing_Ok.
  apply request_Ok in Hr as (_ & d2 & Hi & [= -> ->]). apply bind_Ok_iff in Hi as (t & Ht & Hd). injection Hd as _ <-.
  apply insert_unique_Ok in Ht as [_ ->]. destruct (bundle_metricScores b) as [|m l] eqn:El.
  - apply ret_Ok in Hm as [_ [= -> ->]]. cbn. by rewrite app_nil_r.
  - apply request_Ok in Hm as (_ & d3 & Hi & [= -> ->]). apply bind_Ok_iff in Hi as (t & Ht & Hd). injection Hd as _ <-.
    apply inserted_rows in Ht as ->. done.
Qed.

Lemma result_selected b d d' :
  select_result (idempotencyKey (bundle_result b)) d = None →
  results d' = results d ++ [stored RESULT_DATETIMES (resultValues (bundle_result b))] →
  select_result (idempotencyKey (bundle_result b)) d' = Some (stored RESULT_DATETIMES (resultValues (bundle_result b))).
Proof.
  intros Hnone Hd. unfold select_result, first_row in *. rewrite Hd, where_app.
  destruct (where_ _ (results d)) as [|r l]; [|done]. cbn [app]. unfold where_. rewrite filter_cons, filter_nil.
  rewrite decide_True; [done|]. apply sql_eq_refl.
Qed.

Lemma metrics_selected b d d' seen :
  assert_metrics (res_id (bundle_result b)) [] (bundle_metricScores b) = Ok seen →
  select_metric_scores (res_id (bundle_result b)) d = [] →
  metric_scores d' = metric_scores d ++ metricValues (bundle_metricScores b) →
  select_metric_scores (res_id (bundle_result b)) d' = metricValues (bundle_metricScores b).
Proof.
  intros (Hall & _)%assert_metrics_Ok Hnone Hd. unfold select_metric_scores in *. rewrite Hd, where_app, Hnone. cbn [app].
  revert Hall. generalize (bundle_metricScores b). intros l. induction l as [|m l IH]; intros Hall; [done|].
  apply Forall_cons in Hall as [Hm Hall]. cbn [metricValues map]. unfold where_. rewrite filter_cons, decide_True.
  - f_equal. by apply IH.
  - unfold column_is. cbn. rewrite Hm. apply sql_eq_refl.
Qed.

Lemma shape_metrics b u : assertBundleShape b = Ok u →
  ∃ seen, assert_metrics (res_id (bundle_result b)) [] (bundle_metricScores b) = Ok seen.
Proof.
  unfold assertBundleShape. destruct (negb _).
  - intros Hs%throw_if_Ok. apply negb_false_iff, bool_decide_eq_true in Hs. rewrite Hs. by eexists.
  - intros (v & _ & Hs)%bind_Ok_iff. apply bind_Ok_iff in Hs as (seen & Hs & _). by exists seen.
Qed.

Lemma run_check {E A} (r : Prelude.result persistence_error E) (f : E → act persistence_error A) n w :
  go (lift_result r ≫= f) n w = match r with Ok a => go (f a) n w | Throw e => (Throw e, (n, w)) end.
Proof. rewrite run_bind. by destruct r. Qed.

Lemma run_transaction {E A} (f : sql_error → E) (m : Sql tables sql_error A) n w :
  go (rethrow f (await (Transaction m))) n w =
  let '(r, (_, d)) := m (database (answers n)) 0%nat (db w) in
  (match r with Ok a => Ok a | Throw e => Throw (f e) end, (S n, set_db d w)).
Proof.
  unfold rethrow. rewrite run_catch. cbn [await run perform].
  by destruct (m (database (answers n)) 0%nat (db w)) as [[a|e] [k d]].
Qed.

(** The bundle was not there and its rows were added. *)
Definition newly_written (b : CallAuditResultBundle) (w w' : world) : Prop :=
  select_result (idempotencyKey (bundle_result b)) (db w) = None ∧
  ∃ d', w' = set_db d' w ∧
    results d' = results (db w) ++ [stored RESULT_DATETIMES (resultValues (bundle_result b))] ∧
    metric_scores d' = metric_scores (db w) ++ metricValues (bundle_metricScores b).

Lemma run_write_body b n w n' w' : go (write_body b) n w = (Ok inserted, (n', w')) → newly_written b w w'.
Proof.
  unfold write_body, request_only. rewrite run_bind, run_select, run_bind, run_select. cbv beta iota.
  destruct (select_result _ (db w)) as [x|] eqn:Ex.
  - rewrite run_check. destruct (conflict _ _) as [u|e]; [|done]. rewrite run_bind, run_select, run_check.
    destruct (assertMetricScoresMatch _ _) as [u2|e2]; [|done]. by rewrite run_bind, run_select.
  - rewrite run_bind, run_transaction. destruct (insert_bundle b _ _ _) as [[u|e] [k d']] eqn:Eb; [|done].
    intros [= <- <-]. split; [done|]. exists d'. split; [done|]. by eapply insert_bundle_calm.
Qed.

Lemma run_writeResultBundle b n w n' w' : go (writeResultBundle b) n w = (Ok inserted, (n', w')) → newly_written b w w'.
Proof.
  unfold writeResultBundle, request_only. rewrite run_bind, run_select, run_catch.
  destruct (go (write_body b) (S n) w) as [[o|e] [n1 w1]] eqn:E.
  - intros [= -> <- <-]. by eapply run_write_body.
  - by rewrite run_bind, run_select.
Qed.

(** What the write of a bundle did when it answers that it inserted it. *)
Lemma run_inserted b n w n' w' :
  go (saveResultBundle b) n w = (Ok inserted, (n', w')) → assertBundleShape b = Ok tt ∧ newly_written b w w'.
Proof.
  unfold saveResultBundle. rewrite run_check. destruct (assertBundleShape b) as [[]|]; [|done]. rewrite run_catch.
  destruct (go (writeResultBundle b) n w) as [[o|e] [n1 w1]] eqn:E.
  - intros [= -> <- <-]. split; [done|]. by eapply run_writeResultBundle.
  - destruct (negb _); [done|]. unfold findResult. rewrite run_bind, run_select.
    destruct (select_result _ _) as [x|]; [|done]. rewrite run_check. destruct (conflict _ _) as [u|]; [|done].
    unfold findMetricScores. rewrite run_bind, run_select, run_check. by destruct (assertMetricScoresMatch _ _).
Qed.

(** Writing a bundle twice is writing it once. With a database that answers, if a bundle
    was inserted then the same call again reads its result and all its metric rows back equal,
    in every column, answers that it was replayed and changes nothing. *)
Theorem saved_bundle_replays b n w n' w' :
  well_formed_datetime (auditedAt (bundle_result b)) →
  select_metric_scores (res_id (bundle_result b)) (db w) = [] →
  go (saveResultBundle b) n w = (Ok inserted, (n', w')) →
  ∃ n2, go (saveResultBundle b) n' w' = (Ok replayed, (n2, w')).
Proof.
  intros Hat Hnone (Hshape & Hsel & d' & -> & Hres & Hmet)%run_inserted.
  destruct (shape_metrics b tt Hshape) as [seen Hseen].
  eexists. unfold saveResultBundle. rewrite run_check, Hshape, run_catch.
  unfold writeResultBundle, write_body, request_only. rewrite run_bind, run_select, run_catch.
  rewrite run_bind, run_select, run_bind, run_select. cbn [db set_db].
  rewrite (result_selected b (db w) d' Hsel Hres), (metrics_selected b (db w) d' seen Hseen Hnone Hmet).
  rewrite resultConflictField_self by done. cbn [conflict]. rewrite run_check, run_bind, run_select.
  unfold assertMetricScoresMatch. rewrite (metricScoresConflictField_self _ _ _ Hseen). cbn [conflict].
  rewrite run_check, run_bind, run_select. reflexivity.
Qed.
End Rewriting.

(** ** Witnesses *)

Lemma rejoined_candidate_refused_witness :
  ∃ e, (run (@perform _) 1 (program (AuditCandidate (demo_input spoken_call))) demo_answers 0 DemoJobs.audited.2).1 =
       CandidateProcessed (Throw e).
Proof.
  apply (rejoined_candidate_refused no_tables DemoJobs.audited DemoJobs.again 0 (demo_input spoken_call) DemoJobs.summary 1
    (demo_input spoken_call)).
  - exact DemoJobs.no_tables_ok.
  - exact DemoJobs.audited_reached.
  - exact DemoJobs.audited_returned.
  - vm_compute. reflexivity.
  - exact DemoJobs.again_follows.
  - vm_compute. auto.
  - done.
  - reflexivity.
Defined.

(** The conflict the second call ends in. *)
Example rejoined_conflict :
  (run (@perform _) 1 (processCallAuditCandidate (demo_input spoken_call)) demo_answers 0 DemoJobs.audited.2).1 =
  Throw (RepositoryError (PersistenceConflict "result" "processing_status")).
Proof. vm_compute. reflexivity. Qed.

Definition demo_bundle : CallAuditResultBundle :=
  default (Bundle (bare_result "" (Identity "" "" "") failed content_auditable (compareKserveOutcome None None) None None None "" None) [])
    DemoRecords.bundle.

Definition demo_first := run (@perform _) 0 (saveResultBundle demo_bundle) demo_answers 0 empty_world.

Lemma saved_bundle_replays_witness :
  ∃ n, run (@perform _) 0 (saveResultBundle demo_bundle) demo_answers demo_first.2.1 demo_first.2.2 =
       (Ok replayed, (n, demo_first.2.2)).
Proof.
  apply (saved_bundle_replays 0 demo_answers ltac:(done) demo_bundle 0 empty_world).
  - intros t. assert (auditedAt (bundle_result demo_bundle) = Some "2026-08-02 00:15:00.25") as -> by (vm_compute; reflexivity).
    intros [= <-]. eexists. vm_compute. reflexivity.
  - reflexivity.
  - vm_compute. reflexivity.
Defined.

Lemma built_activation_accepted_witness :
  validateRuleActivationSnapshot demo_activation = Ok demo_activation.
Proof.
  apply (built_activation_accepted (settings_value demo_settings)); [vm_compute; reflexivity|by eexists].
Defined.

(** A batch that is started again after a stop between two candidates: the run is found and
    joined, its first candidate is refused, and the run is settled as failed. *)
Definition interrupted : world :=
  match validateRunRequest demo_request with
  | Ok v => (run (@perform _) 0
      (processCallAuditCandidate (ProcessInput (buildRunId v) "crv_1" demo_settings spoken_call (VNum 1 0)
         (VStr "2026-08-02 00:15:00") (VStr "2026-08-02 00:15:00"))) demo_answers 0 empty_world).2.2
  | Throw _ => empty_world
  end.

Example rejoined_batch_fails :
  match (run (@perform _) 1 (runCallAuditBatch demo_batch) demo_answers 0 interrupted).1 with
  | Ok rs => (rs_completed rs, rs_failureCode rs, processedTotal (rs_tally rs)) =
             (false, Some "CALL_AUDIT_RUN_CANDIDATE_FAILED", 0)
  | Throw _ => False
  end.
Proof. vm_compute. done. Qed.
