(* ===== verification/Messaging.v ===== *)
(** * Reliable messaging

    [src/messaging/] and [src/idempotency/] with their adapters ([adapters/mysqlOutbox.ts],
    [mysqlInbox.ts], [mysqlIdempotency.ts]) over the tables of [migrations/0005]: the
    transactional outbox and its publisher, the inbox of a consumer, and the idempotency
    record of a mutation. Times of the program are milliseconds, those of the columns
    microseconds. *)

From Stdlib Require Import Ascii.
From stdpp Require Import sorting.
From S2P Require Import Prelude JsText CanonicalJson Sql Prog.

Local Open Scope string_scope.
Local Open Scope list_scope.
#[global] Open Scope Z_scope.

(** ** Errors *)

(** [RangeError] for a claim limit; what [canonicalJson] throws; the driver and the transport
    by the [code] of what they throw, if it is a string. *)
Inductive bus_error : Type :=
| MessageIntegrityError
| LeaseLostError
| ClaimLimitError
| Unprintable (e : js_error)
| DuplicateKey
| DriverError (code : option string)
| TransportError (code : option string).

#[export] Instance bus_error_eq_dec : EqDecision bus_error.
Proof. solve_decision. Defined.

Definition error_code (e : bus_error) : option string :=
  match e with
  | MessageIntegrityError => Some "MESSAGE_INTEGRITY_CONFLICT"
  | LeaseLostError => Some "PROCESSING_LEASE_LOST"
  | DuplicateKey => Some "ER_DUP_ENTRY"
  | ClaimLimitError | Unprintable _ => None
  | DriverError code | TransportError code => code
  end.

(** [/^[A-Z0-9_]{1,80}$/] *)
Definition SAFE_CODE (s : string) : bool :=
  (1 <=? len s) && (len s <=? 80) &&
  str_forallb (fun c => is_digit c || ((65 <=? code c) && (code c <=? 90)) || (code c =? 95)) s.

Definition safeErrorCode (e : bus_error) : string :=
  match error_code e with
  | Some code => if SAFE_CODE code then code else "TRANSPORT_FAILURE"
  | None => "TRANSPORT_FAILURE"
  end.

(** ** The outbox *)

Record NewOutboxMessage : Type := NewMessage {
  nm_messageId : string;
  nm_aggregateType : string;
  nm_aggregateId : string;
  nm_eventType : string;
  nm_payload : json;
  nm_correlationId : option string;
}.

Record ClaimedOutboxMessage : Type := ClaimedMessage {
  cm_id : string;
  cm_messageId : string;
  cm_aggregateType : string;
  cm_aggregateId : string;
  cm_eventType : string;
  cm_payloadJson : string;
  cm_payloadSha256 : string;
  cm_correlationId : option string;
  cm_attempts : Z;
}.

(** The words of [status], distinct under any collation. *)
Inductive outbox_status : Type := Pending | Retry | Publishing | Published | DeadLetter.

#[export] Instance outbox_status_eq_dec : EqDecision outbox_status.
Proof. solve_decision. Defined.

Record outbox_row : Type := OutboxRow {
  ob_id : string;
  ob_message_id : option string;
  ob_aggregate_type : string;
  ob_aggregate_id : string;
  ob_event_type : string;
  ob_payload : string;
  ob_payload_sha256 : option string;
  ob_correlation_id : option string;
  ob_attempts : Z;
  ob_status : outbox_status;
  ob_available_at : Z;
  ob_created_at : Z;
  ob_lease_owner : option string;
  ob_lease_expires_at : option Z;
  ob_last_error_code : option string;
  ob_published_at : option Z;
}.

(** A [Date] in a [datetime(6)] column. *)
Definition datetime (ms : Z) : Z := 1000 * ms.

(** What the driver reads of a JSON column in which a text was stored: the text, or a value. *)
Class JsonColumn : Type := { read_json : string → string + json }.

(** A stored canonical text is read back as itself, or as a value with that text. *)
Class JsonColumnLaws `(Platform) `(JsonColumn) : Prop := {
  read_canonical v t : canonicalJson v = Ok t →
    match read_json t with inl s => s = t | inr w => canonicalJson w = Ok t end;
}.

(** ** The other tables *)

Inductive lease_status : Type := processing | completed | failed.

#[export] Instance lease_status_eq_dec : EqDecision lease_status.
Proof. solve_decision. Defined.

Record inbox_row : Type := InboxRow {
  in_id : string;
  in_consumer : string;
  in_message_id : string;
  in_payload_sha256 : option string;
  in_status : lease_status;
  in_lease_owner : option string;
  in_lease_expires_at : option Z;
  in_result_json : option string;
  in_processed_at : option Z;
  in_error_code : option string;
}.

Record idempotency_row : Type := IdempotencyRow {
  ir_id : string;
  ir_route : string;
  ir_key : string;
  ir_request_hash : string;
  ir_status : lease_status;
  ir_response_reference : option string;
  ir_http_status : option Z;
  ir_response_hash : option string;
  ir_lock_owner : option string;
  ir_locked_until : option Z;
  ir_expires_at : Z;
}.

(** ** Policies *)

Definition retryDelayMs (attemptsBeforeFailure baseMs maximumMs : Z) : Z :=
  let exponent := Z.max 0 (Z.min attemptsBeforeFailure 20) in
  Z.min maximumMs (baseMs * 2 ^ exponent).

(** With the defaults of its parameters. *)
Definition retry_delay (attempts : Z) : Z := retryDelayMs attempts 1000 (15 * 60000).

Inductive InboxBeginResult : Type := inbox_acquired | duplicate_completed | inbox_in_progress | integrity_conflict.

#[export] Instance InboxBeginResult_eq_dec : EqDecision InboxBeginResult.
Proof. solve_decision. Defined.

Record ExistingInboxState : Type := ExistingInbox {
  ei_payloadSha256 : option string;
  ei_status : lease_status;
  ei_leaseOwner : option string;
  ei_leaseExpiresAt : option Z;
}.

(** A lease that another owner still holds. *)
Definition leased (status : lease_status) (leaseOwner : option string) (until : option Z) (owner : string) (now : Z) : bool :=
  bool_decide (status = processing) && negb (bool_decide (leaseOwner = Some owner)) &&
  match until with Some t => now <? t | None => false end.

Definition classifyInboxAttempt (existing : option ExistingInboxState) (incomingPayloadSha256 owner : string) (now : Z)
    : InboxBeginResult :=
  match existing with
  | None => integrity_conflict
  | Some existing =>
      if negb (bool_decide (ei_payloadSha256 existing = Some incomingPayloadSha256)) then integrity_conflict
      else if bool_decide (ei_status existing = completed) then duplicate_completed
      else if leased (ei_status existing) (ei_leaseOwner existing) (ei_leaseExpiresAt existing) owner now
           then inbox_in_progress
      else inbox_acquired
  end.

Inductive IdempotencyBeginResult : Type :=
| acquired
| replay (responseReference : string) (httpStatus : Z) (responseHash : string)
| key_conflict
| in_progress.

#[export] Instance IdempotencyBeginResult_eq_dec : EqDecision IdempotencyBeginResult.
Proof. solve_decision. Defined.

Record ExistingIdempotencyState : Type := ExistingIdempotency {
  ed_requestHash : string;
  ed_status : lease_status;
  ed_responseReference : option string;
  ed_httpStatus : option Z;
  ed_responseHash : option string;
  ed_lockOwner : option string;
  ed_lockedUntil : option Z;
}.

(** A text that is not [null] and not empty. *)
Definition truthy (o : option string) : option string :=
  match o with Some s => if String.eqb s "" then None else Some s | None => None end.

(** The response a completed record names, if it names all of it. *)
Definition stored_response (e : ExistingIdempotencyState) : option (string * Z * string) :=
  if bool_decide (ed_status e = completed) then
    reference ← truthy (ed_responseReference e); status ← ed_httpStatus e; hash ← truthy (ed_responseHash e);
    Some (reference, status, hash)
  else None.

Definition classifyIdempotencyAttempt (existing : option ExistingIdempotencyState) (requestHash owner : string) (now : Z)
    : IdempotencyBeginResult :=
  match existing with
  | None => key_conflict
  | Some existing =>
      if negb (String.eqb (ed_requestHash existing) requestHash) then key_conflict
      else match stored_response existing with
           | Some (reference, status, hash) => replay reference status hash
           | None =>
               if leased (ed_status existing) (ed_lockOwner existing) (ed_lockedUntil existing) owner now
               then in_progress else acquired
           end
  end.
