(* ===== verification/MessageBus.v ===== *)
(** * Outbox, inbox and idempotency over the database

    The repositories of [adapters/mysqlOutbox.ts], [mysqlInbox.ts] and [mysqlIdempotency.ts],
    and [publishOutboxBatch] of [messaging/outboxPublisher.ts] as an asynchronous program. A
    transaction or a statement is one step; what a database, the locks of others and a
    transport answer is the environment's. *)

From Stdlib Require Import Ascii.
From stdpp Require Import sorting.
From S2P Require Import Prelude JsText CanonicalJson Sql Prog Messaging.

Local Open Scope string_scope.
Local Open Scope list_scope.
#[global] Open Scope Z_scope.

Record bus_tables : Type := BusTables {
  outbox : list outbox_row;
  inbox : list inbox_row;
  idempotency : list idempotency_row;
}.

Definition with_outbox (t : list outbox_row) (d : bus_tables) : bus_tables := BusTables t (inbox d) (idempotency d).
Definition with_inbox (t : list inbox_row) (d : bus_tables) : bus_tables := BusTables (outbox d) t (idempotency d).
Definition with_idempotency (t : list idempotency_row) (d : bus_tables) : bus_tables := BusTables (outbox d) (inbox d) t.

(** The answer to one operation: the database with the [code] of its refusals, the rows that
    [SKIP LOCKED] leaves out, and the transport: [None] if it accepts, or what it throws. *)
Record bus_env : Type := BusEnv {
  database : environment;
  driver_code : option string;
  skipped : string → bool;
  transport : option (option string);
}.

Definition bus_fault (c : bus_env) (e : sql_error) : bus_error :=
  match e with DuplicateEntry => DuplicateKey | Refused => DriverError (driver_code c) end.

(** A statement of a transaction, at its time. *)
Definition bus_request {A} (c : bus_env) (s : Z → bus_tables → Prelude.result sql_error (A * bus_tables))
    : Sql bus_tables bus_error A := catching (request s) (bus_fault c).

Definition bus_select {A} (c : bus_env) (read : bus_tables → A) : Sql bus_tables bus_error A :=
  bus_request c (fun _ d => Ok (read d, d)).

Definition bus_transaction {A} (c : bus_env) (body : Sql bus_tables bus_error (TransactionOutcome A))
    : Sql bus_tables bus_error A := locking (DriverError (driver_code c)) body.

Section Bus.
Context `{Platform, Collation, JsonColumn}.

(** ** The writer *)

Inductive enqueue_outcome : Type := message_inserted | message_duplicate.

Definition same_text (a b : option string) : bool :=
  match a, b with Some a, Some b => sql_eq a b | _, _ => false end.

(** The primary key, and [uq_outbox_message_id]. *)
Definition outbox_clashes (r s : outbox_row) : bool :=
  sql_eq (ob_id r) (ob_id s) || same_text (ob_message_id r) (ob_message_id s).

Definition new_outbox_row (id : string) (m : NewOutboxMessage) (payloadJson payloadSha256 : string) (at_ : Z) : outbox_row := {|
  ob_id := id;
  ob_message_id := Some (nm_messageId m);
  ob_aggregate_type := nm_aggregateType m;
  ob_aggregate_id := nm_aggregateId m;
  ob_event_type := nm_eventType m;
  ob_payload := payloadJson;
  ob_payload_sha256 := Some payloadSha256;
  ob_correlation_id := nm_correlationId m;
  ob_attempts := 0;
  ob_status := Pending;
  ob_available_at := at_;
  ob_created_at := at_;
  ob_lease_owner := None;
  ob_lease_expires_at := None;
  ob_last_error_code := None;
  ob_published_at := None;
|}.

(** The stored row says what the message says. *)
Definition same_message (r : outbox_row) (m : NewOutboxMessage) (payloadSha256 : string) : bool :=
  String.eqb (ob_aggregate_type r) (nm_aggregateType m) && String.eqb (ob_aggregate_id r) (nm_aggregateId m) &&
  String.eqb (ob_event_type r) (nm_eventType m) && bool_decide (ob_payload_sha256 r = Some payloadSha256).

Definition message_is (messageId : string) (r : outbox_row) : bool := same_text (ob_message_id r) (Some messageId).

Definition insert_outbox (r : outbox_row) (d : bus_tables) : Prelude.result sql_error (enqueue_outcome * bus_tables) :=
  t ← insert_unique outbox_clashes r (outbox d); Ok (message_inserted, with_outbox t d).

(** On the connection of the transaction of the caller. *)
Definition enqueue (c : bus_env) (m : NewOutboxMessage) : Sql bus_tables bus_error enqueue_outcome :=
  match canonicalJson (nm_payload m) with
  | Throw e => lift (Throw (Unprintable e))
  | Ok payloadJson =>
      let payloadSha256 := sha256Hex payloadJson in
      id ← newId;
      trying (bus_request c (fun at_ => insert_outbox (new_outbox_row id m payloadJson payloadSha256 at_))) (fun e =>
        if negb (bool_decide (e = DuplicateKey)) then lift (Throw e)
        else
          existing ← bus_select c (fun d => head (where_ (message_is (nm_messageId m)) (outbox d)));
          if match existing with Some r => same_message r m payloadSha256 | None => false end
          then mret message_duplicate else lift (Throw MessageIntegrityError))
  end.

(** ** The repository of the publisher *)

Record claim_options : Type := ClaimOptions {
  co_owner : string;
  co_limit : Z;
  co_now : Z;
  co_leaseUntil : Z;
}.

Definition assertLimit (limit : Z) : Prelude.result bus_error Z :=
  throw_if ((limit <? 1) || (1000 <? limit)) ClaimLimitError ≫= fun _ => Ok limit.

Definition claimable (now : Z) (r : outbox_row) : bool :=
  (bool_decide (ob_status r = Pending) || bool_decide (ob_status r = Retry)) &&
  (ob_available_at r <=? datetime now) &&
  match ob_lease_expires_at r with Some t => t <=? datetime now | None => true end &&
  bool_decide (is_Some (ob_message_id r)) && bool_decide (is_Some (ob_payload_sha256 r)).

(** [ORDER BY available_at, created_at, id] *)
Definition earlier (a b : outbox_row) : bool :=
  (ob_available_at a <? ob_available_at b) ||
  ((ob_available_at a =? ob_available_at b) &&
   ((ob_created_at a <? ob_created_at b) ||
    ((ob_created_at a =? ob_created_at b) && String.leb (collate (ob_id a)) (collate (ob_id b))))).

Definition in_order (a b : outbox_row) : Prop := earlier a b = true.

#[local] Instance in_order_dec : RelDecision in_order.
Proof. intros a b. unfold in_order. apply _. Defined.

Definition claim_rows (c : bus_env) (o : claim_options) (d : bus_tables) : list outbox_row :=
  take (Z.to_nat (co_limit o))
    (merge_sort in_order
       (where_ (fun r => claimable (co_now o) r && negb (skipped c (ob_id r))) (outbox d))).

Definition lease_row (o : claim_options) (r : outbox_row) : outbox_row := {|
  ob_id := ob_id r; ob_message_id := ob_message_id r; ob_aggregate_type := ob_aggregate_type r;
  ob_aggregate_id := ob_aggregate_id r; ob_event_type := ob_event_type r; ob_payload := ob_payload r;
  ob_payload_sha256 := ob_payload_sha256 r; ob_correlation_id := ob_correlation_id r; ob_attempts := ob_attempts r;
  ob_status := Publishing;
  ob_available_at := ob_available_at r; ob_created_at := ob_created_at r;
  ob_lease_owner := Some (co_owner o);
  ob_lease_expires_at := Some (datetime (co_leaseUntil o));
  ob_last_error_code := None;
  ob_published_at := ob_published_at r;
|}.

(** [WHERE id IN (...)] *)
Definition id_in (rows : list outbox_row) (r : outbox_row) : bool := existsb (fun x => sql_eq (ob_id r) (ob_id x)) rows.

Definition lease_rows (o : claim_options) (rows : list outbox_row) (d : bus_tables) : bus_tables :=
  with_outbox (update_where (id_in rows) (lease_row o) (outbox d)).2 d.

Definition mapOutbox (r : outbox_row) : Prelude.result bus_error ClaimedOutboxMessage :=
  payloadJson ← match read_json (ob_payload r) with
                | inl text => Ok text
                | inr v => match canonicalJson v with Ok text => Ok text | Throw e => Throw (Unprintable e) end
                end;
  Ok {| cm_id := ob_id r; cm_messageId := default "" (ob_message_id r); cm_aggregateType := ob_aggregate_type r;
        cm_aggregateId := ob_aggregate_id r; cm_eventType := ob_event_type r; cm_payloadJson := payloadJson;
        cm_payloadSha256 := default "" (ob_payload_sha256 r); cm_correlationId := ob_correlation_id r;
        cm_attempts := ob_attempts r |}.

Definition claim_body (c : bus_env) (o : claim_options) : Sql bus_tables bus_error (TransactionOutcome (list outbox_row)) :=
  rows ← bus_select c (claim_rows c o);
  match rows with
  | [] => mret tt
  | _ => bus_request c (fun _ d => Ok (tt, lease_rows o rows d))
  end ≫= fun _ => mret (Outcome true rows).

(** A row that cannot be read back fails the call after the commit, with another rollback. *)
Definition claim (c : bus_env) (o : claim_options) : Sql bus_tables bus_error (list ClaimedOutboxMessage) :=
  lift (assertLimit (co_limit o)) ≫= fun _ =>
  rows ← bus_transaction c (claim_body c o);
  trying (lift (mapM mapOutbox rows)) (fun e => bus_select c (fun _ => tt) ≫= fun _ => lift (Throw e)).

(** [WHERE id = ? AND status = 'publishing' AND lease_owner = ?] *)
Definition publishing_by (id owner : string) (r : outbox_row) : bool :=
  sql_eq (ob_id r) id && bool_decide (ob_status r = Publishing) && same_text (ob_lease_owner r) (Some owner).

Definition published_row (at_ : Z) (r : outbox_row) : outbox_row := {|
  ob_id := ob_id r; ob_message_id := ob_message_id r; ob_aggregate_type := ob_aggregate_type r;
  ob_aggregate_id := ob_aggregate_id r; ob_event_type := ob_event_type r; ob_payload := ob_payload r;
  ob_payload_sha256 := ob_payload_sha256 r; ob_correlation_id := ob_correlation_id r; ob_attempts := ob_attempts r;
  ob_status := Published;
  ob_available_at := ob_available_at r; ob_created_at := ob_created_at r;
  ob_lease_owner := None; ob_lease_expires_at := None; ob_last_error_code := None;
  ob_published_at := Some (datetime at_);
|}.

Definition failed_row (next : outbox_status) (availableAt : Z) (code : string) (r : outbox_row) : outbox_row := {|
  ob_id := ob_id r; ob_message_id := ob_message_id r; ob_aggregate_type := ob_aggregate_type r;
  ob_aggregate_id := ob_aggregate_id r; ob_event_type := ob_event_type r; ob_payload := ob_payload r;
  ob_payload_sha256 := ob_payload_sha256 r; ob_correlation_id := ob_correlation_id r;
  ob_attempts := ob_attempts r + 1;
  ob_status := next;
  ob_available_at := datetime availableAt; ob_created_at := ob_created_at r;
  ob_lease_owner := None; ob_lease_expires_at := None; ob_last_error_code := Some code;
  ob_published_at := ob_published_at r;
|}.

Definition update_outbox (P : outbox_row → bool) (f : outbox_row → outbox_row) (d : bus_tables) : nat * bus_tables :=
  let '(n, t) := update_where P f (outbox d) in (n, with_outbox t d).

(** ** Operations *)

(** A claim, an [UPDATE] that commits by itself, a request to the transport, and the other
    transactions. *)
Inductive bus_op : Type → Type :=
| Claim (o : claim_options) : bus_op (Prelude.result bus_error (list ClaimedOutboxMessage))
| Update (s : bus_tables → nat * bus_tables) : bus_op (Prelude.result bus_error nat)
| Publish (m : ClaimedOutboxMessage) : bus_op (Prelude.result bus_error unit)
| Within {A} (m : bus_env → Sql bus_tables bus_error A) : bus_op (Prelude.result bus_error A).

Notation bus_act := (action bus_op bus_error).

(** [if (result.affectedRows !== 1) throw new LeaseLostError(...)] *)
Definition update_one (s : bus_tables → nat * bus_tables) : bus_act unit :=
  affectedRows ← await (Update s); sync (throw_if (negb (Nat.eqb affectedRows 1)) LeaseLostError).

Definition markPublished (id owner : string) (at_ : Z) : bus_act unit :=
  update_one (update_outbox (publishing_by id owner) (published_row at_)).

Definition markFailed (id owner : string) (next : outbox_status) (availableAt : Z) (code : string) : bus_act unit :=
  update_one (update_outbox (publishing_by id owner) (failed_row next availableAt code)).

(** ** The publisher *)

Record publish_options : Type := PublishOptions {
  po_owner : string;
  po_limit : Z;
  po_now : Z;
  po_leaseMs : Z;
  po_maxAttempts : Z;
}.

Record PublishSummary : Type := PublishCounts {
  claimed_count : Z;
  published_count : Z;
  retried_count : Z;
  deadLettered_count : Z;
  integrityRejected_count : Z;
}.

Definition count_published (s : PublishSummary) : PublishSummary :=
  PublishCounts (claimed_count s) (published_count s + 1) (retried_count s) (deadLettered_count s) (integrityRejected_count s).
Definition count_failed (dead : bool) (s : PublishSummary) : PublishSummary :=
  if dead then PublishCounts (claimed_count s) (published_count s) (retried_count s) (deadLettered_count s + 1) (integrityRejected_count s)
  else PublishCounts (claimed_count s) (published_count s) (retried_count s + 1) (deadLettered_count s) (integrityRejected_count s).
Definition count_rejected (s : PublishSummary) : PublishSummary :=
  PublishCounts (claimed_count s) (published_count s) (retried_count s) (deadLettered_count s + 1) (integrityRejected_count s + 1).

Definition reject_message (o : publish_options) (m : ClaimedOutboxMessage) (s : PublishSummary) : bus_act PublishSummary :=
  markFailed (cm_id m) (po_owner o) DeadLetter (po_now o) "PAYLOAD_HASH_MISMATCH" ≫= fun _ => mret (count_rejected s).

Definition publish_message (o : publish_options) (m : ClaimedOutboxMessage) (s : PublishSummary) : bus_act PublishSummary :=
  catch
    (await (Publish m) ≫= fun _ => markPublished (cm_id m) (po_owner o) (po_now o) ≫= fun _ => mret (count_published s))
    (fun error =>
      let attemptAfterFailure := cm_attempts m + 1 in
      let deadLetter := po_maxAttempts o <=? attemptAfterFailure in
      markFailed (cm_id m) (po_owner o) (if deadLetter then DeadLetter else Retry)
        (po_now o + retry_delay attemptAfterFailure) (safeErrorCode error) ≫= fun _ =>
      mret (count_failed deadLetter s)).

Fixpoint publish_claimed (o : publish_options) (l : list ClaimedOutboxMessage) (s : PublishSummary) : bus_act PublishSummary :=
  match l with
  | [] => mret s
  | m :: l =>
      s ← (if negb (String.eqb (sha256Hex (cm_payloadJson m)) (cm_payloadSha256 m))
           then reject_message o m s else publish_message o m s);
      publish_claimed o l s
  end.

Definition publishOutboxBatch (o : publish_options) : bus_act PublishSummary :=
  claimed ← await (Claim (ClaimOptions (po_owner o) (po_limit o) (po_now o) (po_now o + po_leaseMs o)));
  publish_claimed o claimed (PublishCounts (Z.of_nat (length claimed)) 0 0 0 0).

(** ** The inbox *)

Definition inbox_is (consumer messageId : string) (r : inbox_row) : bool :=
  sql_eq (in_consumer r) consumer && sql_eq (in_message_id r) messageId.

(** The primary key, and the unique key of a consumer and a message. *)
Definition inbox_clashes (r s : inbox_row) : bool :=
  sql_eq (in_id r) (in_id s) || inbox_is (in_consumer s) (in_message_id s) r.

Record inbox_begin : Type := InboxBegin {
  ib_consumer : string;
  ib_messageId : string;
  ib_payloadSha256 : string;
  ib_owner : string;
  ib_now : Z;
  ib_leaseUntil : Z;
}.

Definition new_inbox_row (id : string) (o : inbox_begin) : inbox_row := {|
  in_id := id; in_consumer := ib_consumer o; in_message_id := ib_messageId o;
  in_payload_sha256 := Some (ib_payloadSha256 o); in_status := processing;
  in_lease_owner := Some (ib_owner o); in_lease_expires_at := Some (datetime (ib_leaseUntil o));
  in_result_json := None; in_processed_at := None; in_error_code := None;
|}.

Definition reacquired_inbox (o : inbox_begin) (r : inbox_row) : inbox_row := {|
  in_id := in_id r; in_consumer := in_consumer r; in_message_id := in_message_id r;
  in_payload_sha256 := in_payload_sha256 r; in_status := processing;
  in_lease_owner := Some (ib_owner o); in_lease_expires_at := Some (datetime (ib_leaseUntil o));
  in_result_json := in_result_json r; in_processed_at := in_processed_at r; in_error_code := None;
|}.

(** A [datetime(6)] column as a [Date]. *)
Definition date_of (column : Z) : Z := column / 1000.

Definition inbox_state (r : inbox_row) : ExistingInboxState :=
  ExistingInbox (in_payload_sha256 r) (in_status r) (in_lease_owner r) (date_of <$> in_lease_expires_at r).

Definition update_inbox (P : inbox_row → bool) (f : inbox_row → inbox_row) (d : bus_tables) : nat * bus_tables :=
  let '(n, t) := update_where P f (inbox d) in (n, with_inbox t d).

(** [INSERT], [true] unless its key is taken. *)
Definition insert_or_duplicate (c : bus_env) (s : bus_tables → Prelude.result sql_error (unit * bus_tables))
    : Sql bus_tables bus_error bool :=
  trying (bus_request c (fun _ => s) ≫= fun _ => mret true)
    (fun e => if bool_decide (e = DuplicateKey) then mret false else lift (Throw e)).

Definition inbox_begin_body (c : bus_env) (o : inbox_begin) : Sql bus_tables bus_error (TransactionOutcome InboxBeginResult) :=
  id ← newId;
  fresh ← insert_or_duplicate c (fun d =>
    t ← insert_unique inbox_clashes (new_inbox_row id o) (inbox d); Ok (tt, with_inbox t d));
  if (fresh : bool) then mret (Outcome true inbox_acquired)
  else
    existing ← bus_select c (fun d => head (where_ (inbox_is (ib_consumer o) (ib_messageId o)) (inbox d)));
    let decision := classifyInboxAttempt (inbox_state <$> existing) (ib_payloadSha256 o) (ib_owner o) (ib_now o) in
    if negb (bool_decide (decision = inbox_acquired)) then mret (Outcome true decision)
    else
      bus_request c (fun _ d => Ok (tt, (update_inbox (inbox_is (ib_consumer o) (ib_messageId o)) (reacquired_inbox o) d).2))
        ≫= fun _ => mret (Outcome true inbox_acquired).

Definition beginInbox (c : bus_env) (o : inbox_begin) : Sql bus_tables bus_error InboxBeginResult :=
  bus_transaction c (inbox_begin_body c o).

(** [... AND status = 'processing' AND lease_owner = ?] *)
Definition inbox_held (consumer messageId owner : string) (r : inbox_row) : bool :=
  inbox_is consumer messageId r && bool_decide (in_status r = processing) && same_text (in_lease_owner r) (Some owner).

Definition completed_inbox (result : option string) (at_ : Z) (r : inbox_row) : inbox_row := {|
  in_id := in_id r; in_consumer := in_consumer r; in_message_id := in_message_id r;
  in_payload_sha256 := in_payload_sha256 r; in_status := completed;
  in_lease_owner := None; in_lease_expires_at := None;
  in_result_json := result; in_processed_at := Some (datetime at_); in_error_code := None;
|}.

Definition failed_inbox (code : string) (r : inbox_row) : inbox_row := {|
  in_id := in_id r; in_consumer := in_consumer r; in_message_id := in_message_id r;
  in_payload_sha256 := in_payload_sha256 r; in_status := failed;
  in_lease_owner := None; in_lease_expires_at := None;
  in_result_json := in_result_json r; in_processed_at := in_processed_at r; in_error_code := Some code;
|}.

Definition completeInbox (consumer messageId owner : string) (result : json) (at_ : Z) : bus_act unit :=
  text ← sync match result with
              | JNull => Ok None
              | v => match canonicalJson v with Ok t => Ok (Some t) | Throw e => Throw (Unprintable e) end
              end;
  update_one (update_inbox (inbox_held consumer messageId owner) (completed_inbox text at_)).

Definition failInbox (consumer messageId owner code : string) : bus_act unit :=
  update_one (update_inbox (inbox_held consumer messageId owner) (failed_inbox code)).

(** ** Idempotency records *)

Definition record_is (route key : string) (r : idempotency_row) : bool := sql_eq (ir_route r) route && sql_eq (ir_key r) key.

Definition idempotency_clashes (r s : idempotency_row) : bool :=
  sql_eq (ir_id r) (ir_id s) || record_is (ir_route s) (ir_key s) r.

Record idempotency_begin : Type := IdempotencyBegin {
  db_route : string;
  db_key : string;
  db_requestHash : string;
  db_owner : string;
  db_expiresAt : Z;
  db_lockUntil : Z;
  db_now : Z;
}.

Definition new_record (id : string) (o : idempotency_begin) : idempotency_row := {|
  ir_id := id; ir_route := db_route o; ir_key := db_key o; ir_request_hash := db_requestHash o;
  ir_status := processing; ir_response_reference := None; ir_http_status := None; ir_response_hash := None;
  ir_lock_owner := Some (db_owner o); ir_locked_until := Some (datetime (db_lockUntil o));
  ir_expires_at := datetime (db_expiresAt o);
|}.

Definition reacquired_record (o : idempotency_begin) (r : idempotency_row) : idempotency_row := {|
  ir_id := ir_id r; ir_route := ir_route r; ir_key := ir_key r; ir_request_hash := ir_request_hash r;
  ir_status := processing; ir_response_reference := ir_response_reference r; ir_http_status := ir_http_status r;
  ir_response_hash := ir_response_hash r;
  ir_lock_owner := Some (db_owner o); ir_locked_until := Some (datetime (db_lockUntil o));
  ir_expires_at := datetime (db_expiresAt o);
|}.

Definition record_state (r : idempotency_row) : ExistingIdempotencyState :=
  ExistingIdempotency (ir_request_hash r) (ir_status r) (ir_response_reference r) (ir_http_status r) (ir_response_hash r)
    (ir_lock_owner r) (date_of <$> ir_locked_until r).

Definition update_records (P : idempotency_row → bool) (f : idempotency_row → idempotency_row) (d : bus_tables) : nat * bus_tables :=
  let '(n, t) := update_where P f (idempotency d) in (n, with_idempotency t d).

Definition idempotency_begin_body (c : bus_env) (o : idempotency_begin)
    : Sql bus_tables bus_error (TransactionOutcome IdempotencyBeginResult) :=
  id ← newId;
  fresh ← insert_or_duplicate c (fun d =>
    t ← insert_unique idempotency_clashes (new_record id o) (idempotency d); Ok (tt, with_idempotency t d));
  if (fresh : bool) then mret (Outcome true acquired)
  else
    existing ← bus_select c (fun d => head (where_ (record_is (db_route o) (db_key o)) (idempotency d)));
    let decision := classifyIdempotencyAttempt (record_state <$> existing) (db_requestHash o) (db_owner o) (db_now o) in
    if negb (bool_decide (decision = acquired)) then mret (Outcome true decision)
    else
      bus_request c (fun _ d => Ok (tt, (update_records (record_is (db_route o) (db_key o)) (reacquired_record o) d).2))
        ≫= fun _ => mret (Outcome true acquired).

Definition beginIdempotency (c : bus_env) (o : idempotency_begin) : Sql bus_tables bus_error IdempotencyBeginResult :=
  bus_transaction c (idempotency_begin_body c o).

Definition record_held (route key owner : string) (r : idempotency_row) : bool :=
  record_is route key r && bool_decide (ir_status r = processing) && same_text (ir_lock_owner r) (Some owner).

Definition completed_record (reference : string) (status : Z) (hash : string) (r : idempotency_row) : idempotency_row := {|
  ir_id := ir_id r; ir_route := ir_route r; ir_key := ir_key r; ir_request_hash := ir_request_hash r;
  ir_status := completed; ir_response_reference := Some reference; ir_http_status := Some status;
  ir_response_hash := Some hash; ir_lock_owner := None; ir_locked_until := None; ir_expires_at := ir_expires_at r;
|}.

Definition failed_record (r : idempotency_row) : idempotency_row := {|
  ir_id := ir_id r; ir_route := ir_route r; ir_key := ir_key r; ir_request_hash := ir_request_hash r;
  ir_status := failed; ir_response_reference := ir_response_reference r; ir_http_status := ir_http_status r;
  ir_response_hash := ir_response_hash r; ir_lock_owner := None; ir_locked_until := None;
  ir_expires_at := ir_expires_at r;
|}.

Definition completeIdempotency (route key owner reference : string) (status : Z) (hash : string) : bus_act unit :=
  update_one (update_records (record_held route key owner) (completed_record reference status hash)).

Definition failIdempotency (route key owner : string) : bus_act unit :=
  update_one (update_records (record_held route key owner) failed_record).
End Bus.

Notation bus_act := (action bus_op bus_error).
