(* ===== verification/MessageWorld.v ===== *)
(** * The users of the message tables

    The world they share, what an operation does to it, and the jobs that are run: batches
    of the publisher, transactions that write messages, and the steps of a consumer and of
    an idempotent mutation. A message, a transport that accepts and one that does not, and the states
    that jobs lead to. *)

From stdpp Require Import relations.
From S2P Require Import Prelude JsText CanonicalJson Sql Prog Messaging MessageBus.

Local Open Scope string_scope.
Local Open Scope list_scope.
#[global] Open Scope Z_scope.

(** ** Worlds *)

(** What the transport was handed, by whom, and whether it took it over. *)
Record delivery : Type := Delivery {
  by_thread : nat;
  delivered : ClaimedOutboxMessage;
  taken_over : bool;
}.

(** The tables; the thread that last claimed a row, and whether it has handed it over since
    (bookkeeping of the model: nothing reads it); what was handed over, in order. *)
Record bus_world : Type := BusWorld {
  tables : bus_tables;
  holder : gmap string (nat * bool);
  handed : list delivery;
}.

Definition hold_all (i : nat) (l : list ClaimedOutboxMessage) (h : gmap string (nat * bool)) : gmap string (nat * bool) :=
  foldr (fun m h => <[cm_id m := (i, false)]> h) h l.

Section Worlds.
Context `{PL : Platform, CO : Collation, JC : JsonColumn}.

Definition bus_perform {X : Type} (i : nat) (o : bus_op X) (c : bus_env) (w : bus_world) : X * bus_world :=
  match o in bus_op X return X * bus_world with
  | Claim o =>
      let '(r, (_, d)) := claim c o (database c) 0%nat (tables w) in
      (r, BusWorld d (match r with Ok l => hold_all i l (holder w) | Throw _ => holder w end) (handed w))
  | Update s =>
      let '(n, d) := s (tables w) in
      if refused (database c) 0 then
        (Throw (DriverError (driver_code c)),
         BusWorld (if landed (database c) 0 then d else tables w) (holder w) (handed w))
      else (Ok n, BusWorld d (holder w) (handed w))
  | Publish m =>
      (match transport c with None => Ok tt | Some code => Throw (TransportError code) end,
       BusWorld (tables w) (alter (fun p => (p.1, true)) (cm_id m) (holder w))
         (handed w ++ [Delivery i m (bool_decide (transport c = None))]))
  | Within m =>
      let '(r, (_, d)) := m c (database c) 0%nat (tables w) in
      (r, BusWorld d (holder w) (handed w))
  end.

(** ** Jobs *)

(** A transaction of the program that writes messages, and commits or rolls back. *)
Fixpoint enqueue_each (c : bus_env) (ms : list NewOutboxMessage) : Sql bus_tables bus_error unit :=
  match ms with
  | [] => mret tt
  | m :: ms => enqueue c m ≫= fun _ => enqueue_each c ms
  end.

Definition write_messages (ms : list NewOutboxMessage) (keep : bool) (c : bus_env) : Sql bus_tables bus_error unit :=
  bus_transaction c (enqueue_each c ms ≫= fun _ => mret (Outcome keep tt)).

Inductive bus_job : Type :=
| Publisher (o : publish_options)
| Writer (ms : list NewOutboxMessage) (keep : bool)
| BeginInbox (o : inbox_begin)
| CompleteInbox (consumer messageId owner : string) (result : json) (at_ : Z)
| FailInbox (consumer messageId owner code : string)
| BeginIdempotency (o : idempotency_begin)
| CompleteIdempotency (route key owner reference : string) (status : Z) (hash : string)
| FailIdempotency (route key owner : string).

Inductive bus_answer : Type :=
| Batch (s : PublishSummary)
| InboxAnswer (r : InboxBeginResult)
| IdempotencyAnswer (r : IdempotencyBeginResult)
| Done.

Definition answering {A} (f : A → bus_answer) (m : bus_act A) : bus_act bus_answer := m ≫= fun a => mret (f a).

Definition bus_program (j : bus_job) : bus_act bus_answer :=
  match j with
  | Publisher o => answering Batch (publishOutboxBatch o)
  | Writer ms keep => answering (fun _ => Done) (await (Within (write_messages ms keep)))
  | BeginInbox o => answering InboxAnswer (await (Within (fun c => beginInbox c o)))
  | CompleteInbox consumer messageId owner result at_ =>
      answering (fun _ => Done) (completeInbox consumer messageId owner result at_)
  | FailInbox consumer messageId owner code => answering (fun _ => Done) (failInbox consumer messageId owner code)
  | BeginIdempotency o => answering IdempotencyAnswer (await (Within (fun c => beginIdempotency c o)))
  | CompleteIdempotency route key owner reference status hash =>
      answering (fun _ => Done) (completeIdempotency route key owner reference status hash)
  | FailIdempotency route key owner => answering (fun _ => Done) (failIdempotency route key owner)
  end.
End Worlds.

(** ** Messages to run them on *)

Module DemoBus.
#[export] Instance platform : Platform := demo_platform.
#[export] Instance bytes : Collation := {| collate := fun s => s |}.

(** A column that hands back the text. *)
#[export] Instance texts : JsonColumn := {| read_json := inl |}.
#[export] Instance texts_laws : JsonColumnLaws platform texts.
Proof. by split. Qed.

Definition calm : environment := Env (fun _ => false) (fun _ => false) (fun _ => 1000) (fun _ => "obx_1") (fun _ => 0) (fun _ => "").

(** The transport accepts, or times out. *)
Definition up (_ : nat) : bus_env := BusEnv calm (Some "ER_LOCK_DEADLOCK") (fun _ => false) None.
Definition down (_ : nat) : bus_env := BusEnv calm (Some "ER_LOCK_DEADLOCK") (fun _ => false) (Some (Some "ETIMEDOUT")).

Definition message : NewOutboxMessage :=
  NewMessage "msg-1" "billing_cycle" "2026-07" "cycle.closed" (JObj [("month", JStr "2026-07")]) None.

Definition nothing : bus_tables := BusTables [] [] [].

Definition publishing (now : Z) : publish_options := PublishOptions "worker-1" 10 now 60000 3.

(** A job that is started and run alone. *)
Definition ran {P : bus_job → Prop} (answers : nat → bus_env) (j : {j | P j})
    (c : config bus_op bus_world {j | P j} (Prelude.result bus_error bus_answer)) :
    config bus_op bus_world {j | P j} (Prelude.result bus_error bus_answer) :=
  let r := run (@bus_perform _ _) (length c.1) (bus_program (proj1_sig j)) answers 0 c.2 in
  (c.1 ++ [Thread j (Ret r.1)], r.2.2).

Lemma ran_job_steps {P} answers (j : {j | P j}) c :
  rtc (step (@bus_perform _ _) (fun j : {j | P j} => bus_program (proj1_sig j))) c (ran answers j c).
Proof. destruct c as [ts w]. exact (start_and_run (@bus_perform _ _) (fun j : {j | P j} => bus_program (proj1_sig j)) ts j w answers 0). Qed.

(** A row whose publisher stopped an hour ago. *)
Definition stopped : outbox_row := {|
  ob_id := "obx_9"; ob_message_id := Some "msg-9"; ob_aggregate_type := "billing_cycle"; ob_aggregate_id := "2026-06";
  ob_event_type := "cycle.closed"; ob_payload := "{}"; ob_payload_sha256 := Some (sha256Hex "{}"); ob_correlation_id := None;
  ob_attempts := 1; ob_status := Publishing; ob_available_at := 0; ob_created_at := 0;
  ob_lease_owner := Some "worker-0"; ob_lease_expires_at := Some 60000000; ob_last_error_code := None; ob_published_at := None;
|}.

Definition left_over : bus_tables := BusTables [stopped] [] [].

(** A message in the hands of a consumer, and a mutation that was answered. *)
Definition begun : inbox_row := {|
  in_id := "inb_1"; in_consumer := "billing"; in_message_id := "msg-1"; in_payload_sha256 := Some "aa"; in_status := processing;
  in_lease_owner := Some "consumer-1"; in_lease_expires_at := Some (datetime 60000); in_result_json := None;
  in_processed_at := None; in_error_code := None;
|}.

Definition answered_record : idempotency_row := {|
  ir_id := "idm_1"; ir_route := "POST /runs"; ir_key := "k-1"; ir_request_hash := "h1"; ir_status := completed;
  ir_response_reference := Some "run:7"; ir_http_status := Some 201; ir_response_hash := Some "h2"; ir_lock_owner := None;
  ir_locked_until := None; ir_expires_at := datetime 0;
|}.

Definition consuming : bus_tables := BusTables [] [begun] [answered_record].

Definition second_consumer : inbox_begin := InboxBegin "billing" "msg-1" "aa" "consumer-2" 1000 90000.
Definition retried_request : idempotency_begin := IdempotencyBegin "POST /runs" "k-1" "h1" "server-2" 1000 90000 5000.
End DemoBus.
