(* ===== verification/OutboxSafety.v ===== *)
(** * What the outbox promises

    Publishers, writers and the other users of the tables, in any number and interleaved at
    every operation: the invariant that ties what the transport was handed to the rows, the
    guarantee of every thread, and that the publisher keeps both. *)

From stdpp Require Import relations sorting.
From S2P Require Import Prelude JsText CanonicalJson Sql Prog Messaging MessageBus MessageWorld.

Local Open Scope string_scope.
Local Open Scope list_scope.
#[global] Open Scope Z_scope.

Section Outbox.
Context `{PL : Platform, CO : Collation, JC : JsonColumn}.

(** ** Rows over time *)

(** What a row is written with once. *)
Record same_content (r s : outbox_row) : Prop := SameContent {
  same_id : ob_id s = ob_id r;
  same_message_id : ob_message_id s = ob_message_id r;
  same_aggregate_type : ob_aggregate_type s = ob_aggregate_type r;
  same_aggregate_id : ob_aggregate_id s = ob_aggregate_id r;
  same_event_type : ob_event_type s = ob_event_type r;
  same_payload : ob_payload s = ob_payload r;
  same_payload_sha256 : ob_payload_sha256 s = ob_payload_sha256 r;
  same_correlation_id : ob_correlation_id s = ob_correlation_id r;
}.

#[export] Instance same_content_equivalence : Equivalence same_content.
Proof.
  split.
  - by intros r.
  - by intros r s [].
  - intros r s t [] []. split; congruence.
Qed.

Definition finished (r : outbox_row) : Prop := ob_status r = Published ∨ ob_status r = DeadLetter.

(** Content stays, attempts only grow, and what was published or given up stays as it is. *)
Record row_le (r s : outbox_row) : Prop := RowLe {
  le_content : same_content r s;
  le_attempts : ob_attempts r ≤ ob_attempts s;
  le_finished : finished r → s = r;
}.

#[export] Instance row_le_preorder : PreOrder row_le.
Proof.
  split.
  - intros r. by split.
  - intros r s t [H1 H2 H3] [K1 K2 K3]. split; [by transitivity s|lia|].
    intros Hf. specialize (H3 Hf). subst s. by apply K3.
Qed.

Definition outbox_le : relation (list outbox_row) := table_le row_le.

#[export] Instance outbox_le_preorder : PreOrder outbox_le.
Proof. unfold outbox_le. apply _. Qed.

(** The message a row is claimed as, but for its attempts. *)
Definition says (r : outbox_row) (m : ClaimedOutboxMessage) : Prop := ∃ x, mapOutbox x = Ok m ∧ same_content x r.

Lemma says_id r m : says r m → ob_id r = cm_id m.
Proof.
  intros (x & Hx & Hs). rewrite (same_id _ _ Hs). unfold mapOutbox in Hx. by bind_ok.
Qed.

Lemma says_le r s m : says r m → row_le r s → says s m.
Proof. intros (x & Hx & Hs) Hle. exists x. split; [done|]. etransitivity; [exact Hs|apply Hle]. Qed.

(** ** The invariant *)

Context (d0 : bus_tables) (maxAttempts : Z).

(** The attempts a row had at the start. *)
Definition attempts_before (id : string) : Z :=
  match List.find (fun r => String.eqb (ob_id r) id) (outbox d0) with Some r => ob_attempts r | None => 0 end.

Definition deliveries (id : string) (w : bus_world) : Z :=
  Z.of_nat (length (where_ (fun d => String.eqb (cm_id (delivered d)) id) (handed w))).

(** The delivery of a row that no attempt counts: it was recorded as published, or the thread
    that claimed it has not recorded it yet. *)
Definition uncounted (h : gmap string (nat * bool)) (r : outbox_row) : Z :=
  match ob_status r with
  | Published => 1
  | Publishing => match h !! ob_id r with Some (_, true) => 1 | _ => 0 end
  | _ => 0
  end.

Definition within_limit (r : outbox_row) : Prop :=
  ob_attempts r ≤ maxAttempts ∧ (ob_status r = DeadLetter ∨ ob_attempts r < maxAttempts).

Definition accepted (id : string) (w : bus_world) : Prop :=
  ∃ d, d ∈ handed w ∧ cm_id (delivered d) = id ∧ taken_over d = true.

(** The table a system starts from. *)
Record outbox_ok (t : list outbox_row) : Prop := OutboxOk {
  ok_distinct : distinct outbox_clashes t = true;
  ok_limit : Forall within_limit t;
}.

Lemma outbox_clashes_sym r s : outbox_clashes r s = outbox_clashes s r.
Proof.
  unfold outbox_clashes, same_text. rewrite sql_eq_sym. f_equal.
  destruct (ob_message_id r), (ob_message_id s); [apply sql_eq_sym|done..].
Qed.

(** Rows of the same id are the same row. *)
Lemma same_row t r s : outbox_ok t → r ∈ t → s ∈ t → sql_eq (ob_id r) (ob_id s) = true → r = s.
Proof.
  intros [Hd _] Hr Hs E. eapply distinct_unique; [apply outbox_clashes_sym|done..|].
  unfold outbox_clashes. by rewrite E.
Qed.

Record sound (w : bus_world) : Prop := Sound {
  sound_outbox : outbox_ok (outbox (tables w));
  sound_since : outbox_le (outbox d0) (outbox (tables w));
  sound_delivered : ∀ d, d ∈ handed w →
    sha256Hex (cm_payloadJson (delivered d)) = cm_payloadSha256 (delivered d) ∧
    ∃ r, r ∈ outbox (tables w) ∧ says r (delivered d);
  sound_counted : ∀ r, r ∈ outbox (tables w) →
    deliveries (ob_id r) w + attempts_before (ob_id r) ≤ ob_attempts r + uncounted (holder w) r;
  sound_published : ∀ r, r ∈ outbox (tables w) → ob_status r = Published → r ∈ outbox d0 ∨ accepted (ob_id r) w;
}.

(** What thread [i] does to the others: what is being published and is not its own, it leaves. *)
Record guar (i : nat) (w w' : bus_world) : Prop := Guar {
  guar_outbox : outbox_le (outbox (tables w)) (outbox (tables w'));
  guar_held : ∀ r, r ∈ outbox (tables w) → ob_status r = Publishing → fst <$> holder w !! ob_id r ≠ Some i →
    r ∈ outbox (tables w') ∧ holder w' !! ob_id r = holder w !! ob_id r;
  guar_handed : handed w `prefix_of` handed w';
}.

#[export] Instance guar_preorder i : PreOrder (guar i).
Proof.
  split.
  - intros w. by split.
  - intros a b c [H1 H2 H3] [K1 K2 K3]. split; [by etransitivity| |by etransitivity].
    intros r Hr Hs Hh. destruct (H2 r Hr Hs Hh) as [Hr' Hh']. rewrite <- Hh'. apply K2; [done..|]. by rewrite Hh'.
Qed.

(** What time does, for everybody. *)
Record grown (w w' : bus_world) : Prop := Grown {
  grown_outbox : outbox_le (outbox (tables w)) (outbox (tables w'));
  grown_handed : handed w `prefix_of` handed w';
}.

#[export] Instance grown_preorder : PreOrder grown.
Proof.
  split.
  - intros w. by split.
  - intros a b c [] []. split; by etransitivity.
Qed.

Lemma outbox_guar_grown i w w' : guar i w w' → grown w w'.
Proof. by intros []. Qed.

Lemma outbox_rely_grown i w w' : rely guar i w w' → grown w w'.
Proof. induction 1 as [|? ? ? (j & _ & Hg) _ IH]; [reflexivity|]. etransitivity; [by eapply outbox_guar_grown|exact IH]. Qed.

Lemma outbox_evolves_grown w w' : evolves guar w w' → grown w w'.
Proof. induction 1 as [|? ? ? (j & Hg) _ IH]; [reflexivity|]. etransitivity; [by eapply outbox_guar_grown|exact IH]. Qed.

Lemma accepted_grown id w w' : grown w w' → accepted id w → accepted id w'.
Proof. intros Hg (d & Hd & H). exists d. split; [|done]. eapply elem_of_prefix; [exact Hd|apply Hg]. Qed.

Lemma outbox_le_row w w' r : grown w w' → r ∈ outbox (tables w) → ∃ s, s ∈ outbox (tables w') ∧ row_le r s.
Proof. intros [Hle _] Hr. by eapply table_le_lookup. Qed.

(** ** Steps that keep the invariant *)

(** Rows that move on in their places. *)
Lemma sound_map w g h :
  sound w →
  (∀ r, r ∈ outbox (tables w) →
     row_le r (g r) ∧ within_limit (g r) ∧
     ob_attempts r + uncounted (holder w) r ≤ ob_attempts (g r) + uncounted h (g r) ∧
     (ob_status (g r) = Published → ob_status r = Published ∨ accepted (ob_id r) w)) →
  sound (BusWorld (with_outbox (map g (outbox (tables w))) (tables w)) h (handed w)).
Proof.
  intros [Hok Hsince Hdel Hcount Hpub] Hg.
  assert (∀ r, r ∈ outbox (tables w) → ob_id (g r) = ob_id r) as Hid by (intros r Hr; apply (Hg r Hr)).
  assert (∀ r, r ∈ outbox (tables w) → ob_message_id (g r) = ob_message_id r) as Hmid by (intros r Hr; apply (Hg r Hr)).
  assert (outbox_le (outbox (tables w)) (map g (outbox (tables w)))) as Hle by (apply table_le_map; intros r Hr; by apply Hg).
  split; cbn [tables outbox with_outbox holder handed].
  - split.
    + apply distinct_spec. intros a b r s Hab. rewrite !list_lookup_fmap.
      intros (x & Hx & ->)%fmap_Some (y & Hy & ->)%fmap_Some. pose proof Hx as Hx'. pose proof Hy as Hy'.
      apply list_elem_of_lookup_2 in Hx', Hy'. unfold outbox_clashes.
      rewrite !Hid, !Hmid by done. by apply (proj1 (distinct_spec _ _) (ok_distinct _ Hok) a b).
    + apply Forall_forall. intros r (x & -> & Hx)%list_elem_of_fmap. by apply Hg.
  - by etransitivity.
  - intros d Hd. destruct (Hdel d Hd) as (Hsha & r & Hr & Hs). split; [done|].
    destruct (table_le_lookup _ _ _ _ Hle Hr) as (s & Hs' & Hrs). exists s. split; [done|by eapply says_le].
  - intros r (x & -> & Hx)%list_elem_of_fmap. rewrite Hid by done. specialize (Hcount x Hx).
    destruct (Hg x Hx) as (_ & _ & Hc & _). unfold deliveries in *. cbn [handed] in *. lia.
  - intros r (x & -> & Hx)%list_elem_of_fmap Hs. rewrite Hid by done.
    destruct (Hg x Hx) as (Hlx & _ & _ & [Hp|Hp]%(fun H => H Hs)); [|by right].
    rewrite (le_finished _ _ Hlx) by by left. by apply Hpub.
Qed.

(** Nothing happened to the outbox. *)
Lemma sound_same w d : sound w → outbox d = outbox (tables w) → sound (BusWorld d (holder w) (handed w)).
Proof. intros [] Hd. split; cbn; rewrite ?Hd; done. Qed.

Lemma guar_same i w d : outbox d = outbox (tables w) → guar i w (BusWorld d (holder w) (handed w)).
Proof. intros Hd. split; cbn; rewrite ?Hd; done. Qed.

(** ** A row in the hands of a thread *)

(** Thread [i] has claimed the row of [m], and has handed it over if [b]. *)
Definition holds (i : nat) (b : bool) (m : ClaimedOutboxMessage) (w : bus_world) : Prop :=
  ∃ r, r ∈ outbox (tables w) ∧ says r m ∧ ob_attempts r = cm_attempts m ∧ ob_status r = Publishing ∧
    holder w !! ob_id r = Some (i, b).

Lemma holds_rely i b m w w' : rely guar i w w' → holds i b m w → holds i b m w'.
Proof.
  induction 1 as [|w1 w2 w3 (j & Hj & Hg) _ IH]; [done|]. intros (r & Hr & Hsays & Ha & Hs & Hh). apply IH.
  destruct (guar_held _ _ _ Hg r) as [Hr' Hh']; [done..|rewrite Hh; cbn; congruence|]. exists r. by rewrite Hh'.
Qed.

(** Only the rows of an id are touched. *)
Definition frame (id : string) (w w' : bus_world) : Prop :=
  ∀ r, r ∈ outbox (tables w) → sql_eq (ob_id r) id = false →
    r ∈ outbox (tables w') ∧ holder w' !! ob_id r = holder w !! ob_id r.

Definition apart (a b : ClaimedOutboxMessage) : Prop := sql_eq (cm_id a) (cm_id b) = false.

Lemma holds_frame i b m n w w' : frame (cm_id m) w w' → apart n m → holds i b n w → holds i b n w'.
Proof.
  intros Hf Hap (r & Hr & Hsays & Ha & Hs & Hh). pose proof (says_id _ _ Hsays) as Hid.
  destruct (Hf r Hr) as [Hr' Hh']; [by rewrite Hid|]. exists r. by rewrite Hh'.
Qed.

Lemma guar_frame i b m w w' :
  sound w → holds i b m w → frame (cm_id m) w w' →
  outbox_le (outbox (tables w)) (outbox (tables w')) → handed w `prefix_of` handed w' → guar i w w'.
Proof.
  intros Hw (x & Hx & Hsays & _ & _ & Hhx) Hf Hle Hp. split; [done| |done].
  intros r Hr Hs Hh. destruct (sql_eq (ob_id r) (cm_id m)) eqn:E; [|by apply Hf].
  rewrite <- (says_id _ _ Hsays) in E. apply (same_row _ r x (sound_outbox _ Hw)) in E; [|done..]. subst x. by rewrite Hhx in Hh.
Qed.

(** *** Handing it over *)

Lemma deliveries_snoc id w t h d :
  deliveries id (BusWorld t h (handed w ++ [d])) =
  deliveries id w + (if String.eqb (cm_id (delivered d)) id then 1 else 0).
Proof.
  unfold deliveries. cbn [handed]. rewrite where_app, length_app. unfold where_ at 2. rewrite filter_cons, filter_nil.
  destruct (String.eqb (cm_id (delivered d)) id) eqn:E;
    [rewrite decide_True by done|rewrite decide_False by done]; cbn; lia.
Qed.

Lemma publish_step i m w c :
  sound w → holds i false m w → sha256Hex (cm_payloadJson m) = cm_payloadSha256 m →
  let w' := (bus_perform i (Publish m) c w).2 in
  sound w' ∧ guar i w w' ∧ frame (cm_id m) w w' ∧ holds i true m w' ∧
  (transport c = None → accepted (cm_id m) w' ∧ ∃ d, d ∈ handed w' ∧ delivered d = m ∧ taken_over d = true).
Proof.
  intros Hw Hh Hsha w'. pose proof Hh as (x & Hx & Hsays & Ha & Hs & Hhx). pose proof (says_id _ _ Hsays) as Hid.
  assert (frame (cm_id m) w w') as Hframe.
  { intros r Hr Hne. split; [done|]. cbn. rewrite lookup_alter_ne; [done|]. intros E. by rewrite <- E, sql_eq_refl in Hne. }
  assert (holder w' !! ob_id x = Some (i, true)) as Hx'.
  { cbn. rewrite Hid, lookup_alter_eq, <- Hid, Hhx. done. }
  split_and!; [|by eapply guar_frame; [..|reflexivity|by eexists]|done|by exists x|].
  - destruct Hw as [Hok Hsince Hdel Hcount Hpub]. split; [done|done| | |].
    + intros d [Hd| ->%list_elem_of_singleton]%elem_of_app; [by apply Hdel|]. split; [done|]. by exists x.
    + intros r Hr. cbn in Hr. unfold w'. cbn [bus_perform snd]. rewrite deliveries_snoc. cbn [delivered].
      specialize (Hcount r Hr). destruct (String.eqb_spec (cm_id m) (ob_id r)) as [E|E].
      * assert (r = x) as -> by (apply (same_row _ _ _ Hok); [done..|]; rewrite Hid, E; apply sql_eq_refl).
        unfold uncounted in *. rewrite Hs in *. rewrite Hhx in Hcount. change (holder w' !! ob_id x) with
          (alter (λ p : nat * bool, (p.1, true)) (cm_id m) (holder w) !! ob_id x) in Hx'. cbn [holder]. rewrite Hx'. lia.
      * replace (uncounted (holder w') r) with (uncounted (holder w) r); [unfold w' in *; cbn [bus_perform snd holder] in *|].
        { rewrite Z.add_0_r. unfold uncounted in *. rewrite lookup_alter_ne by congruence. lia. }
        unfold uncounted, w'. cbn. by rewrite lookup_alter_ne by congruence.
    + intros r Hr Hp. destruct (Hpub r Hr Hp) as [?|(d & Hd & H1 & H2)]; [by left|right].
      exists d. split; [apply elem_of_app; by left|done].
  - intros Ht. split; [|]; eexists; (split; [apply elem_of_app; right; by apply list_elem_of_singleton|cbn; by rewrite Ht]).
Qed.

(** *** Recording the outcome *)

(** What the [UPDATE] of a row in hand keeps: [f] moves the row on. *)
Definition moves_on (f : outbox_row → outbox_row) (x : outbox_row) (w : bus_world) : Prop :=
  row_le x (f x) ∧ within_limit (f x) ∧
  ob_attempts x + uncounted (holder w) x ≤ ob_attempts (f x) + uncounted (holder w) (f x) ∧
  (ob_status (f x) = Published → accepted (ob_id x) w).

(** The row of [m] was changed. *)
Definition marked (f : outbox_row → outbox_row) (m : ClaimedOutboxMessage) (w : bus_world) : Prop :=
  ∃ x, says (f x) m ∧ ob_attempts x = cm_attempts m ∧ f x ∈ outbox (tables w).

(** An [UPDATE] that did nothing to the outbox, in a world where time did not pass. *)
Lemma update_where_none {R} (P : R → bool) f (t : list R) : (∀ r, r ∈ t → P r = false) → update_where P f t = (0%nat, t).
Proof.
  intros HP. unfold update_where. rewrite where_none by done. f_equal.
  rewrite <- (map_id t) at 2. apply map_ext_in. intros r Hr%list_elem_of_In. by rewrite HP.
Qed.

Lemma with_outbox_id d : with_outbox (outbox d) d = d.
Proof. by destruct d. Qed.

(** An [UPDATE] that matches no row, or touches another table. *)
Lemma update_nothing i s c w :
  sound w → outbox (s (tables w)).2 = outbox (tables w) →
  let w' := (bus_perform i (Update s) c w).2 in
  sound w' ∧ guar i w w' ∧ (∀ id, frame id w w') ∧ outbox (tables w') = outbox (tables w) ∧ holder w' = holder w.
Proof.
  intros Hw Hs w'.
  assert (∃ d, w' = BusWorld d (holder w) (handed w) ∧ outbox d = outbox (tables w)) as (d & -> & Hd).
  { unfold w'. cbn. destruct (s (tables w)) as [n d] eqn:E. destruct (refused (database c) 0); [|by exists d].
    exists (if landed (database c) 0 then d else tables w). by destruct (landed (database c) 0). }
  split_and!; [by apply sound_same|by apply guar_same| |done|done].
  intros id r Hr _. cbn. by rewrite Hd.
Qed.

Lemma mark_step i b m owner f c w x :
  sound w → x ∈ outbox (tables w) → says x m → ob_attempts x = cm_attempts m → ob_status x = Publishing →
  holder w !! ob_id x = Some (i, b) → moves_on f x w →
  let '(r, w') := bus_perform i (Update (update_outbox (publishing_by (cm_id m) owner) f)) c w in
  sound w' ∧ guar i w w' ∧ frame (cm_id m) w w' ∧ (r = Ok 1%nat → marked f m w') ∧ (holds i b m w' ∨ marked f m w').
Proof.
  intros Hw Hx Hsays Ha Hs Hh (Hle & Hlim & Hcnt & Hpub). pose proof (says_id _ _ Hsays) as Hid.
  set (P := publishing_by (cm_id m) owner).
  assert (∀ r, r ∈ outbox (tables w) → P r = true → r = x) as HP.
  { intros r Hr [[E _]%andb_prop _]%andb_prop. apply (same_row _ _ _ (sound_outbox _ Hw)); [done..|by rewrite Hid]. }
  assert (holds i b m w) as Hhold by by exists x.
  destruct (P x) eqn:EP; cycle 1.
  - assert (update_outbox P f (tables w) = (0%nat, tables w)) as Hu.
    { unfold update_outbox. rewrite update_where_none, with_outbox_id; [done|].
      intros r Hr. destruct (P r) eqn:E; [|done]. rewrite (HP r Hr E) in E. congruence. }
    pose proof (update_nothing i (update_outbox P f) c w Hw ltac:(by rewrite Hu)) as (H1 & H2 & H3 & H4 & H5).
    destruct (bus_perform _ _ _ _) as [r w'] eqn:E. cbn [snd] in *. split_and!; [done..| |].
    + intros ->. cbn [bus_perform] in E. rewrite Hu in E. by destruct (refused _ _).
    + left. exists x. by rewrite H4, H5.
  - set (g := fun r => if P r then f r else r).
    assert (update_outbox P f (tables w) = (length (where_ P (outbox (tables w))), with_outbox (map g (outbox (tables w))) (tables w))) as Hu by done.
    assert (outbox_le (outbox (tables w)) (map g (outbox (tables w)))) as Hgle.
    { apply table_le_map. intros r Hr. unfold g. destruct (P r) eqn:E; [|reflexivity]. by rewrite (HP r Hr E). }
    set (w1 := BusWorld (with_outbox (map g (outbox (tables w))) (tables w)) (holder w) (handed w)).
    assert (sound w1 ∧ guar i w w1 ∧ frame (cm_id m) w w1 ∧ marked f m w1) as (G1 & G2 & G3 & G4).
    { assert (frame (cm_id m) w w1) as Hf.
      { intros r Hr Hne. split; [|done]. apply update_untouched; [done|]. unfold P, publishing_by. by rewrite Hne. }
      split_and!; [|by eapply guar_frame|done|].
      - apply sound_map; [done|]. intros r Hr. unfold g. destruct (P r) eqn:E.
        + rewrite (HP r Hr E). split_and!; [done..|]. intros H%Hpub. by right.
        + split_and!; [reflexivity| |lia|by left]. by apply (proj1 (Forall_forall _ _) (ok_limit _ (sound_outbox _ Hw))).
      - exists x. split_and!; [by eapply says_le|done|]. apply elem_of_update. exists x. by rewrite EP. }
    cbn [bus_perform]. rewrite Hu. destruct (refused (database c) 0); [destruct (landed (database c) 0)|].
    + split_and!; [done..|by right].
    + split_and!; [by apply sound_same|by apply guar_same|done|done|by left].
    + split_and!; [done..|by right].
Qed.

(** *** Claiming *)

Lemma hold_all_lookup i l h id :
  hold_all i l h !! id = if decide (id ∈ cm_id <$> l) then Some (i, false) else h !! id.
Proof.
  induction l as [|m l IH]; [done|].
  change (hold_all i (m :: l) h) with (<[cm_id m := (i, false)]> (hold_all i l h)). rewrite fmap_cons.
  destruct (decide (id = cm_id m)) as [->|Hne].
  - rewrite lookup_insert_eq, decide_True; [done|left].
  - rewrite lookup_insert_ne, IH by done. apply decide_ext. rewrite elem_of_cons. naive_solver.
Qed.

Lemma mapM_Forall2 {E A B} (f : A → Prelude.result E B) l k : mapM f l = Ok k → Forall2 (fun x y => f x = Ok y) l k.
Proof.
  revert k. induction l as [|x l IH]; intros k H; [by injection H as <-|]. cbn in H. bind_ok. constructor; [done|by apply IH].
Qed.

Lemma lease_nothing o d : lease_rows o [] d = d.
Proof. unfold lease_rows. rewrite update_where_none by done. apply with_outbox_id. Qed.

Lemma claim_body_Ok c o env n d b n' d' :
  claim_body c o env n d = (Ok b, (n', d')) →
  b = Outcome true (claim_rows c o d) ∧ d' = lease_rows o (claim_rows c o d) d.
Proof.
  unfold claim_body, bus_select, bus_request. intros (rows & n1 & d1 & H1 & H2)%sql_bind_Ok.
  apply catching_Ok, request_Ok in H1 as (_ & d2 & E & [= -> ->]). apply Ok_inj in E as [= <- <-].
  apply sql_bind_Ok in H2 as (u & n3 & d3 & H3 & [<- [= -> ->]]%ret_Ok). split; [done|].
  destruct (claim_rows c o d) as [|r rows].
  - apply ret_Ok in H3 as [_ [= -> ->]]. by rewrite lease_nothing.
  - apply catching_Ok, request_Ok in H3 as (_ & d4 & E & [= -> ->]). by apply Ok_inj in E as [= _ <-].
Qed.

(** A claim does nothing, or leases its rows whatever it answers. *)
Lemma claim_cases c o d r n d' :
  claim c o (database c) 0%nat d = (r, (n, d')) →
  ((∃ e, r = Throw e) ∧ d' = d) ∨
  (d' = lease_rows o (claim_rows c o d) d ∧ ∀ l, r = Ok l → mapM mapOutbox (claim_rows c o d) = Ok l).
Proof.
  unfold claim. intros H. destruct (assertLimit (co_limit o)) as [k|e]; cbn in H; [|injection H as <- <- <-; left; eauto].
  destruct (bus_transaction c (claim_body c o) (database c) 0%nat d) as [[rows|e] [n1 d1]] eqn:E.
  - pose proof E as E'. unfold bus_transaction in E'. apply locking_Ok in E' as (b & n2 & d2 & Hb & -> & ->).
    apply claim_body_Ok in Hb as [-> ->]. cbn [outcome_value commit] in *. right.
    unfold mbind, Sql_bind, lift at 1 in H. rewrite E in H. unfold trying, lift at 1 in H.
    destruct (mapM mapOutbox (claim_rows c o d)) as [l|e] eqn:Em; [by injection H as <- <- <-|].
    unfold bus_select, bus_request, catching, request, lift in H.
    destruct (refused _ _); injection H as <- <- <-; (split; [done|by intros l [=]]).
  - assert (r = Throw e ∧ d' = d1) as [-> ->].
    { unfold mbind, Sql_bind, lift at 1 in H. rewrite E in H. by injection H as <- <- <-. }
    apply locking_cases in E as [->|(b & n2 & Hb & _)]; [left; eauto|].
    apply claim_body_Ok in Hb as [_ ->]. by right.
Qed.

Lemma elem_of_claim_rows c o d r : r ∈ claim_rows c o d → claimable (co_now o) r = true ∧ r ∈ outbox d.
Proof.
  unfold claim_rows. intros (i & Hi & _)%elem_of_take. apply list_elem_of_lookup_2 in Hi.
  rewrite merge_sort_Permutation in Hi. by apply elem_of_where in Hi as [[H _]%andb_prop Hr].
Qed.

Lemma distinct_NoDup t : distinct outbox_clashes t = true → NoDup t.
Proof.
  induction t as [|r t IH]; cbn; [constructor|]. intros [H1 H2]%andb_prop. constructor; [|by apply IH].
  intros Hr%list_elem_of_In. rewrite forallb_forall in H1. apply H1 in Hr. unfold outbox_clashes in Hr.
  by rewrite sql_eq_refl in Hr.
Qed.

Lemma claim_rows_NoDup c o d : outbox_ok (outbox d) → NoDup (claim_rows c o d).
Proof.
  intros [Hd _]. unfold claim_rows. eapply sublist_NoDup; [|apply sublist_take].
  rewrite merge_sort_Permutation. by apply NoDup_filter, distinct_NoDup.
Qed.

(** Different rows of the table are claimed as messages apart. *)
Lemma claimed_apart t rows l :
  outbox_ok t → rows ⊆ t → NoDup rows → Forall2 (fun r m => mapOutbox r = Ok m) rows l → ForallOrdPairs apart l.
Proof.
  intros Ht Hsub Hnd H. induction H as [|r m rows l Hm H IH]; [constructor|]. apply NoDup_cons in Hnd as [Hr Hnd].
  assert (∀ s n, mapOutbox s = Ok n → cm_id n = ob_id s) as Hid by (intros s n E; unfold mapOutbox in E; by bind_ok).
  constructor; [|apply IH; [set_solver|done]]. apply Forall_forall. intros n Hn.
  apply list_elem_of_lookup_1 in Hn as [k Hn]. destruct (Forall2_lookup_r _ _ _ _ _ H Hn) as (s & Hs & Es).
  apply list_elem_of_lookup_2 in Hs. unfold apart. rewrite (Hid _ _ Hm), (Hid _ _ Es).
  destruct (sql_eq (ob_id r) (ob_id s)) eqn:E; [|done]. apply (same_row t) in E; [|done|set_solver..]. by subst.
Qed.

Lemma claimable_idle now r : claimable now r = true → ob_status r = Pending ∨ ob_status r = Retry.
Proof. intros [[[[H%orb_prop _]%andb_prop _]%andb_prop _]%andb_prop _]%andb_prop. destruct H; to_prop; auto. Qed.

Lemma elem_of_id_in rows r x : x ∈ rows → ob_id x = ob_id r → id_in rows r = true.
Proof. intros Hx%list_elem_of_In E. apply existsb_exists. exists x. by rewrite E, sql_eq_refl. Qed.

(** Claimable rows of the table are leased; their entries of the bookkeeping are [h]'s. *)
Lemma lease_step i rows o w h :
  sound w → (∀ r, r ∈ rows → claimable (co_now o) r = true ∧ r ∈ outbox (tables w)) →
  (∀ id, (∀ r, r ∈ rows → ob_id r ≠ id) → h !! id = holder w !! id) →
  let w' := BusWorld (lease_rows o rows (tables w)) h (handed w) in
  sound w' ∧ guar i w w' ∧ ∀ r, r ∈ rows → lease_row o r ∈ outbox (tables w').
Proof.
  intros Hw Hrows Hh w'. pose proof (sound_outbox _ Hw) as Hok.
  assert (∀ r, r ∈ outbox (tables w) → id_in rows r = true → r ∈ rows) as Hin.
  { intros r Hr (x & Hx%list_elem_of_In & E)%existsb_exists. destruct (Hrows x Hx) as [_ Hx'].
    by rewrite (same_row _ r x Hok). }
  assert (∀ r, r ∈ rows → ob_attempts r < maxAttempts ∧ ob_status r ≠ Publishing ∧ ¬ finished r) as Hidle.
  { intros r Hr. destruct (Hrows r Hr) as [[Hs|Hs]%claimable_idle Hr']; destruct (proj1 (Forall_forall _ _) (ok_limit _ Hok) r Hr') as [_ [?|?]];
      split_and!; unfold finished; try naive_solver congruence. }
  split_and!.
  - apply sound_map; [done|]. intros r Hr. destruct (id_in rows r) eqn:E.
    + apply Hin in E; [|done]. destruct (Hidle r E) as (Hlt & Hs & Hf). split_and!.
      * split; [done|done|]. by intros.
      * split; [cbn; lia|by right].
      * unfold uncounted at 1. assert (0 ≤ uncounted h (lease_row o r)).
        { unfold uncounted. cbn. destruct (h !! ob_id r) as [[? []]|]; lia. }
        unfold finished in Hf. cbn [ob_attempts lease_row]. destruct (ob_status r) eqn:?; naive_solver lia.
      * done.
    + split_and!; [reflexivity|by apply (proj1 (Forall_forall _ _) (ok_limit _ Hok))| |by left].
      unfold uncounted. rewrite Hh; [lia|]. intros x Hx Heq.
      by rewrite (elem_of_id_in rows r x) in E.
  - split; [|intros r Hr Hs _|done].
    + apply table_le_map. intros r Hr. destruct (id_in rows r) eqn:E; [|reflexivity].
      apply Hin in E; [|done]. destruct (Hidle r E) as (_ & _ & Hf). split; [done|done|by intros].
    + assert (id_in rows r = false) as E.
      { destruct (id_in rows r) eqn:E; [|done]. apply Hin in E; [|done]. by destruct (Hidle r E) as (_ & ? & _). }
      split; [by apply update_untouched|]. apply Hh. intros x Hx Heq.
      by rewrite (elem_of_id_in rows r x) in E.
  - intros r Hr. apply elem_of_update. exists r. destruct (Hrows r Hr) as [_ Hr']. split; [done|].
    by rewrite (elem_of_id_in rows r r).
Qed.

Lemma claim_step i o c w :
  sound w →
  let '(r, w') := bus_perform i (Claim o) c w in
  sound w' ∧ guar i w w' ∧
  match r with
  | Ok l => Forall (fun m => holds i false m w') l ∧ ForallOrdPairs apart l
  | Throw _ => True
  end.
Proof.
  intros Hw. cbn [bus_perform]. destruct (claim c o (database c) 0%nat (tables w)) as [r [n d]] eqn:E.
  apply claim_cases in E as [[[e ->] ->]|[-> Hr]].
  { split_and!; [by apply sound_same|by apply guar_same|done]. }
  set (rows := claim_rows c o (tables w)) in *.
  assert (∀ r, r ∈ rows → claimable (co_now o) r = true ∧ r ∈ outbox (tables w)) as Hrows by apply elem_of_claim_rows.
  destruct r as [l|e].
  - pose proof (mapM_Forall2 _ _ _ (Hr l eq_refl)) as Hl.
    destruct (lease_step i rows o w (hold_all i l (holder w)) Hw Hrows) as (H1 & H2 & H3).
    { intros id Hid. rewrite hold_all_lookup. apply decide_False. intros (m & -> & Hm)%list_elem_of_fmap.
      apply list_elem_of_lookup_1 in Hm as [k Hm]. destruct (Forall2_lookup_r _ _ _ _ _ Hl Hm) as (x & Hx & Ex).
      apply list_elem_of_lookup_2 in Hx. apply (Hid x Hx). unfold mapOutbox in Ex. by bind_ok. }
    split_and!; [done..| |].
    + apply Forall_forall. intros m Hm. pose proof Hm as [k Hk]%list_elem_of_lookup_1.
      destruct (Forall2_lookup_r _ _ _ _ _ Hl Hk) as (x & Hx & Ex). apply list_elem_of_lookup_2 in Hx.
      exists (lease_row o x). split_and!; [by apply H3|by exists x| | |]; [unfold mapOutbox in Ex; by bind_ok|done|].
      cbn [holder]. rewrite hold_all_lookup, decide_True; [done|]. apply list_elem_of_fmap. exists m. split; [|done].
      unfold mapOutbox in Ex. by bind_ok.
    + eapply (claimed_apart _ rows); [apply Hw| |by apply claim_rows_NoDup, Hw|done]. intros x Hx. by apply Hrows.
  - destruct (lease_step i rows o w (holder w) Hw Hrows) as (H1 & H2 & _); done.
Qed.

(** ** The publisher *)

Notation doing := (ensures (@bus_perform _ _) sound guar).

Definition held (i : nat) (l : list ClaimedOutboxMessage) (w : bus_world) : Prop := Forall (fun m => holds i false m w) l.

Lemma held_rely i l w w' : rely guar i w w' → held i l w → held i l w'.
Proof. intros Hr Hl. eapply Forall_impl; [exact Hl|]. intros m. by apply holds_rely. Qed.

Lemma held_frame i l m w w' : frame (cm_id m) w w' → Forall (apart m) l → held i l w → held i l w'.
Proof.
  intros Hf Ha Hl. apply Forall_forall. intros n Hn. eapply holds_frame; [exact Hf| |by eapply Forall_forall in Hl].
  unfold apart. rewrite sql_eq_sym. by apply (proj1 (Forall_forall _ _) Ha).
Qed.

(** What the publisher owes a message that it claimed: it was published, or its failure was counted. *)
Definition settled (m : ClaimedOutboxMessage) (w : bus_world) : Prop :=
  ∃ r, r ∈ outbox (tables w) ∧ says r m ∧
    ((ob_status r = Published ∧ accepted (cm_id m) w) ∨ cm_attempts m + 1 ≤ ob_attempts r).

Lemma settled_grown m w w' : grown w w' → settled m w → settled m w'.
Proof.
  intros Hg (r & Hr & Hs & Hfate). destruct (outbox_le_row _ _ _ Hg Hr) as (s & Hs' & Hrs).
  exists s. split_and!; [done|by eapply says_le|]. destruct Hfate as [[Hp Ha]|Ha].
  - left. rewrite (le_finished _ _ Hrs) by by left. split; [done|by eapply accepted_grown].
  - right. pose proof (le_attempts _ _ Hrs). lia.
Qed.

Definition was_marked (f : outbox_row → outbox_row) (m : ClaimedOutboxMessage) (w : bus_world) : Prop :=
  ∃ w0, marked f m w0 ∧ grown w0 w.

Lemma mark_ok i b m owner f l w :
  sound w → holds i b m w → held i l w → Forall (apart m) l →
  (∀ x, x ∈ outbox (tables w) → ob_status x = Publishing → ob_attempts x = cm_attempts m → ob_id x = cm_id m → moves_on f x w) →
  doing i (update_one (update_outbox (publishing_by (cm_id m) owner) f))
    (fun r w' => sound w' ∧ grown w w' ∧ held i l w' ∧
       match r with Ok _ => was_marked f m w' | Throw _ => holds i b m w' ∨ was_marked f m w' end) w.
Proof.
  intros Hw (x & Hx & Hsays & Ha & Hs & Hh) Hl Hap Hf. unfold update_one. apply ensures_bind, ensures_await. intros c.
  pose proof (mark_step i b m owner f c w x Hw Hx Hsays Ha Hs Hh (Hf x Hx Hs Ha (says_id _ _ Hsays))) as H.
  destruct (bus_perform _ _ _ _) as [r w1]. destruct H as (H1 & H2 & H3 & H4 & H5). split_and!; [done..|].
  intros w2 Hr Hw2. assert (held i l w2) as Hl2 by (eapply held_rely; [exact Hr|by eapply held_frame]).
  assert (marked f m w1 → was_marked f m w2) as Hm by (intros ?; exists w1; split; [done|by eapply outbox_rely_grown]).
  assert (grown w w2) as Hg by (etransitivity; [by eapply outbox_guar_grown|by eapply outbox_rely_grown]).
  assert (holds i b m w2 ∨ was_marked f m w2) as Hor.
  { destruct H5 as [H5|H5]; [left; by eapply holds_rely|right; by apply Hm]. }
  destruct r as [n|e]; [|done]. cbn. unfold throw_if. destruct (Nat.eqb_spec n 1) as [->|]; cbn; [|done].
  split_and!; [done..|]. by apply Hm, H4.
Qed.

(** A row that is through is not marked again. *)
Lemma mark_finished i m owner f l w :
  sound w → (∃ x, x ∈ outbox (tables w) ∧ says x m ∧ finished x) → held i l w →
  doing i (update_one (update_outbox (publishing_by (cm_id m) owner) f))
    (fun r w' => sound w' ∧ held i l w' ∧ ∃ e, r = Throw e) w.
Proof.
  intros Hw (x & Hx & Hsays & Hfin) Hl. unfold update_one. apply ensures_bind, ensures_await. intros c.
  assert (update_outbox (publishing_by (cm_id m) owner) f (tables w) = (0%nat, tables w)) as Hu.
  { unfold update_outbox. rewrite update_where_none, with_outbox_id; [done|]. intros r Hr.
    destruct (publishing_by (cm_id m) owner r) eqn:E; [|done]. apply andb_prop in E as [[E Es]%andb_prop _]. to_prop.
    rewrite <- (says_id _ _ Hsays) in E. apply (same_row _ r x (sound_outbox _ Hw)) in E; [|done..]. subst r.
    unfold finished in Hfin. naive_solver congruence. }
  pose proof (update_nothing i (update_outbox (publishing_by (cm_id m) owner) f) c w Hw ltac:(by rewrite Hu)) as (H1 & H2 & H3 & H4 & H5).
  destruct (bus_perform _ _ _ _) as [r w1] eqn:E. cbn [snd] in *. split_and!; [done..|]. intros w2 Hr Hw2.
  assert (held i l w2) as Hl2.
  { eapply held_rely; [exact Hr|]. eapply Forall_impl; [exact Hl|]. intros n (y & Hy & ?). exists y. by rewrite H4, H5. }
  destruct r as [n|e]; [|by eauto]. cbn [bus_perform] in E. rewrite Hu in E.
  destruct (refused _ _); [done|]. injection E as <- _. cbn. eauto.
Qed.

Lemma uncounted_range h r : 0 ≤ uncounted h r ≤ 1.
Proof. unfold uncounted. destruct (ob_status r); try lia. destruct (h !! ob_id r) as [[? []]|]; lia. Qed.

Lemma publishing_within w x : sound w → x ∈ outbox (tables w) → ob_status x = Publishing → ob_attempts x < maxAttempts.
Proof.
  intros Hw Hx Hs. destruct (proj1 (Forall_forall _ _) (ok_limit _ (sound_outbox _ Hw)) x Hx) as [_ [?|?]]; congruence.
Qed.

Lemma moves_published at_ x w :
  sound w → x ∈ outbox (tables w) → ob_status x = Publishing → accepted (ob_id x) w → moves_on (published_row at_) x w.
Proof.
  intros Hw Hx Hs Ha. pose proof (publishing_within _ _ Hw Hx Hs). pose proof (uncounted_range (holder w) x).
  split_and!; [| |cbn [uncounted ob_status published_row ob_attempts]; lia|done].
  - split; [done|done|]. intros [?|?]; congruence.
  - split; [cbn; lia|]. by right.
Qed.

Lemma moves_failed next at_ code x w :
  sound w → x ∈ outbox (tables w) → ob_status x = Publishing →
  next = DeadLetter ∨ next = Retry ∧ ob_attempts x + 1 < maxAttempts → moves_on (failed_row next at_ code) x w.
Proof.
  intros Hw Hx Hs Hn. pose proof (publishing_within _ _ Hw Hx Hs). pose proof (uncounted_range (holder w) x).
  pose proof (uncounted_range (holder w) (failed_row next at_ code x)).
  split_and!; [| |cbn [ob_attempts failed_row] in *; lia|].
  - split; [done|cbn; lia|]. intros [?|?]; congruence.
  - split; [cbn; lia|]. destruct Hn as [->|[-> ?]]; [by left|by right].
  - cbn. intros ->. destruct Hn as [?|[? _]]; congruence.
Qed.

Lemma published_settled at_ m w : was_marked (published_row at_) m w → accepted (cm_id m) w → settled m w.
Proof.
  intros (w0 & (x & Hsays & _ & Hx) & Hg) Ha. destruct (outbox_le_row _ _ _ Hg Hx) as (s & Hs & Hle).
  assert (s = published_row at_ x) as -> by (apply (le_finished _ _ Hle); by left).
  exists (published_row at_ x). split_and!; [done..|]. by left.
Qed.

Lemma failed_settled next at_ code m w : was_marked (failed_row next at_ code) m w → settled m w.
Proof.
  intros (w0 & Hm & Hg). eapply settled_grown; [exact Hg|]. destruct Hm as (x & Hsays & Ha & Hx).
  exists (failed_row next at_ code x). split_and!; [done..|]. right. cbn. lia.
Qed.

Definition counts (s : PublishSummary) : Z := published_count s + retried_count s + deadLettered_count s.

(** What is left after one message: the summary counts it once. *)
Definition one_more (s s' : PublishSummary) : Prop := claimed_count s' = claimed_count s ∧ counts s' = counts s + 1.

Definition message_done (i : nat) m l s (r : Prelude.result bus_error PublishSummary) (w : bus_world) : Prop :=
  sound w ∧ held i l w ∧ match r with Ok s' => settled m w ∧ one_more s s' | Throw _ => True end.

Lemma reject_message_ok i o m l s w :
  sound w → held i (m :: l) w → Forall (apart m) l → doing i (reject_message o m s) (message_done i m l s) w.
Proof.
  intros Hw [Hm Hl]%Forall_cons Hap. unfold reject_message, markFailed. apply ensures_bind.
  eapply ensures_mono; [apply (mark_ok i false m _ _ l); [done..|]|].
  - intros x Hx Hs Ha Hid. apply moves_failed; [done..|]. by left.
  - intros [[]|e] w' (H1 & _ & H2 & H3); [|done]. split_and!; [done|done|by eapply failed_settled|split; [done|]].
    unfold counts. cbn. lia.
Qed.

Lemma fail_message_ok i b o m l s code w :
  po_maxAttempts o = maxAttempts → sound w → holds i b m w → held i l w → Forall (apart m) l →
  let deadLetter := po_maxAttempts o <=? cm_attempts m + 1 in
  doing i (markFailed (cm_id m) (po_owner o) (if deadLetter then DeadLetter else Retry)
             (po_now o + retry_delay (cm_attempts m + 1)) code ≫= fun _ => mret (count_failed deadLetter s))
    (message_done i m l s) w.
Proof.
  intros Hmax Hw Hm Hl Hap. cbv zeta. unfold markFailed. apply ensures_bind.
  eapply ensures_mono; [eapply (mark_ok i b m _ _ l); [done..|]|].
  - intros x Hx Hs Ha Hid. apply moves_failed; [done..|]. destruct (Z.leb_spec (po_maxAttempts o) (cm_attempts m + 1)); [by left|].
    right. split; [done|lia].
  - intros [[]|e] w' (H1 & _ & H2 & H3); [|done]. split_and!; [done|done|by eapply failed_settled|].
    split; unfold counts; destruct (_ <=? _); cbn; lia.
Qed.

Lemma publish_message_ok i o m l s w :
  po_maxAttempts o = maxAttempts → sound w → held i (m :: l) w → Forall (apart m) l →
  sha256Hex (cm_payloadJson m) = cm_payloadSha256 m →
  doing i (publish_message o m s) (message_done i m l s) w.
Proof.
  intros Hmax Hw [Hm Hl]%Forall_cons Hap Hsha. unfold publish_message. apply ensures_catch, ensures_bind, ensures_await.
  intros c. pose proof (publish_step i m w c Hw Hm Hsha) as H. cbv zeta in H.
  destruct (bus_perform i (Publish m) c w) as [r w1] eqn:E. cbn [snd] in H. destruct H as (H1 & H2 & H3 & H4 & H5).
  split_and!; [done..|]. intros w2 Hr Hw2.
  assert (holds i true m w2) as Hm2 by by eapply holds_rely.
  assert (held i l w2) as Hl2 by (eapply held_rely; [exact Hr|by eapply held_frame]).
  destruct r as [[]|e]; [|by apply (fail_message_ok i true)].
  assert (accepted (cm_id m) w2) as Ha.
  { eapply accepted_grown; [by eapply outbox_rely_grown|]. apply H5. cbn in E. by destruct (transport c). }
  unfold markPublished. apply ensures_bind. eapply ensures_mono; [eapply (mark_ok i true m _ _ l); [done..|]|].
  - intros x Hx Hs _ Hid. apply moves_published; [done..|by rewrite Hid].
  - intros [[]|e] w3 (K1 & Kg & K2 & K3).
    + split_and!; [done|done|by eapply published_settled, accepted_grown|]. split; unfold counts; cbn; lia.
    + destruct K3 as [K3|(w4 & (x & Hs & _ & Hx) & Hg)]; [by apply (fail_message_ok i true)|].
      destruct (outbox_le_row _ _ _ Hg Hx) as (y & Hy & Hle).
      unfold markFailed. apply ensures_bind. eapply ensures_mono; [apply (mark_finished i m _ _ l); [done| |done]|].
      * assert (y = published_row (po_now o) x) as -> by (apply (le_finished _ _ Hle); by left).
        eexists. split_and!; [done|done|by left].
      * by intros r w5 (J1 & J2 & [e' ->]).
Qed.

Lemma publish_claimed_ok i o l s w :
  po_maxAttempts o = maxAttempts → sound w → held i l w → ForallOrdPairs apart l →
  doing i (publish_claimed o l s)
    (fun r w' => match r with
                 | Ok s' => Forall (fun m => settled m w') l ∧ claimed_count s' = claimed_count s ∧ counts s' = counts s + Z.of_nat (length l)
                 | Throw _ => True
                 end) w.
Proof.
  intros Hmax. revert s w. induction l as [|m l IH]; intros s w Hw Hl Hap; [cbn; split_and!; [done|done|lia]|].
  inversion_clear Hap as [|? ? Hm Hap']. cbn [publish_claimed]. apply ensures_bind.
  apply (ensures_mono _ _ _ _ _ (message_done i m l s)).
  - destruct (String.eqb_spec (sha256Hex (cm_payloadJson m)) (cm_payloadSha256 m)); cbn [negb];
      [by apply publish_message_ok|by apply reject_message_ok].
  - intros [s'|e] w' (H1 & H2 & H3); [|done]. destruct H3 as [H3 [H4 H5]].
    eapply ensures_mono; [apply (ensures_since _ _ _ grown); [apply _|by apply outbox_guar_grown|by apply IH]|].
    intros [s2|e] w2 [Hdone Hg]; [|done]. destruct Hdone as (K1 & K2 & K3). split_and!; [|congruence|cbn [length]; lia].
    constructor; [by eapply settled_grown|done].
Qed.

(** A batch that returns has settled all it claimed, each once. *)
Definition batch_settled (s : PublishSummary) (w : bus_world) : Prop :=
  ∃ l, claimed_count s = Z.of_nat (length l) ∧ counts s = claimed_count s ∧ ForallOrdPairs apart l ∧
    Forall (fun m => settled m w) l.

Lemma publishOutboxBatch_ok i o w :
  po_maxAttempts o = maxAttempts → sound w →
  doing i (publishOutboxBatch o) (fun r w' => match r with Ok s => batch_settled s w' | Throw _ => True end) w.
Proof.
  intros Hmax Hw. unfold publishOutboxBatch. apply ensures_bind, ensures_await. intros c.
  pose proof (claim_step i (ClaimOptions (po_owner o) (po_limit o) (po_now o) (po_now o + po_leaseMs o)) c w Hw) as H.
  destruct (bus_perform _ _ _ _) as [r w1]. destruct H as (H1 & H2 & H3). split_and!; [done..|]. intros w2 Hr Hw2.
  destruct r as [l|e]; [|done]. destruct H3 as [Hl Hap].
  eapply ensures_mono; [apply publish_claimed_ok; [done|done|by eapply held_rely|done]|].
  intros [s|e] w3; [|done]. intros (K1 & K2 & K3). unfold counts in K3. cbn in K2, K3.
  exists l. split_and!; [done|unfold counts; lia|done|done].
Qed.

(** ** The writers, and the users of the other tables *)

Definition fresh_row (r : outbox_row) : Prop := ob_status r = Pending ∧ ob_attempts r = 0.

(** Messages were added. *)
Definition enqueued (d d' : bus_tables) : Prop :=
  ∃ new, outbox d' = outbox d ++ new ∧ Forall fresh_row new ∧
    (distinct outbox_clashes (outbox d) = true → distinct outbox_clashes (outbox d') = true).

#[export] Instance enqueued_preorder : PreOrder enqueued.
Proof.
  split.
  - intros d. exists []. by rewrite app_nil_r.
  - intros a b c (k & E1 & F1 & D1) (l & E2 & F2 & D2). exists (k ++ l). split_and!.
    + by rewrite E2, E1, app_assoc.
    + by apply Forall_app.
    + auto.
Qed.

Lemma enqueued_same d d' : outbox d' = outbox d → enqueued d d'.
Proof. intros E. exists []. by rewrite E, app_nil_r. Qed.

Lemma changes_enqueue c m : changes enqueued (enqueue c m).
Proof.
  unfold enqueue, bus_select, bus_request. solve_changes; [|simplify_eq; by apply enqueued_same].
  unfold insert_outbox in *. bind_ok.
  match goal with H : insert_unique _ _ _ = Ok _ |- _ => apply insert_unique_Ok in H as [Hc ->] end.
  eexists [_]. split_and!; [done|by constructor|]. intros Hd. apply distinct_snoc; [done|].
  intros s Hs. rewrite outbox_clashes_sym. by apply Hc.
Qed.

Lemma changes_writes ms keep c : changes enqueued (write_messages ms keep c).
Proof.
  unfold write_messages, bus_transaction. solve_changes.
  induction ms as [|m ms IH]; cbn [enqueue_each]; solve_changes; [apply changes_enqueue|exact IH].
Qed.

Lemma changes_begin_inbox c o : changes enqueued (beginInbox c o).
Proof.
  unfold beginInbox, bus_transaction, inbox_begin_body, insert_or_duplicate, bus_select, bus_request. solve_changes.
  all: apply enqueued_same; by bind_ok.
Qed.

Lemma changes_begin_idempotency c o : changes enqueued (beginIdempotency c o).
Proof.
  unfold beginIdempotency, bus_transaction, idempotency_begin_body, insert_or_duplicate, bus_select, bus_request. solve_changes.
  all: apply enqueued_same; by bind_ok.
Qed.

Lemma attempts_before_row r : outbox_ok (outbox d0) → r ∈ outbox d0 → attempts_before (ob_id r) = ob_attempts r.
Proof.
  intros Hok Hr. unfold attempts_before. destruct (List.find _ _) as [s|] eqn:E.
  - apply find_some in E as [Hs%list_elem_of_In E%String.eqb_eq].
    by rewrite (same_row _ s r Hok Hs Hr) by (rewrite E; apply sql_eq_refl).
  - apply list_elem_of_In in Hr. pose proof (find_none _ _ E r Hr) as H. cbn in H. by rewrite String.eqb_refl in H.
Qed.

(** An identifier that no row of the table has was never delivered. *)
Lemma unused_id w id :
  sound w → (∀ r, r ∈ outbox (tables w) → ob_id r ≠ id) → deliveries id w = 0 ∧ attempts_before id = 0.
Proof.
  intros Hw Hid. split.
  - unfold deliveries. rewrite where_none; [done|]. intros d Hd. destruct (sound_delivered _ Hw d Hd) as (_ & r & Hr & Hs).
    apply String.eqb_neq. rewrite <- (says_id _ _ Hs). by apply Hid.
  - unfold attempts_before. destruct (List.find _ _) as [s|] eqn:E; [|done].
    apply find_some in E as [Hs%list_elem_of_In E%String.eqb_eq].
    destruct (table_le_lookup _ _ _ _ (sound_since _ Hw) Hs) as (r & Hr & Hle).
    destruct (Hid r Hr). by rewrite (same_id _ _ (le_content _ _ Hle)).
Qed.

Lemma sound_enqueued i w d : 1 ≤ maxAttempts → sound w → enqueued (tables w) d →
  sound (BusWorld d (holder w) (handed w)) ∧ guar i w (BusWorld d (holder w) (handed w)).
Proof.
  intros Hmax Hw (new & Hd & Hnew & Hdist). pose proof Hw as [Hok Hsince Hdel Hcount Hpub].
  assert (outbox_le (outbox (tables w)) (outbox d)) as Hle by (rewrite Hd; exists (outbox (tables w)), new; done).
  assert (distinct outbox_clashes (outbox d) = true) as Hdd by apply Hdist, Hok.
  split; [split; cbn [tables holder handed]|split; cbn].
  - split; [done|]. rewrite Hd. apply Forall_app. split; [apply Hok|]. eapply Forall_impl; [exact Hnew|].
    intros r [_ Ha]. split; [|right]; lia.
  - by etransitivity.
  - intros x Hx. destruct (Hdel x Hx) as (H & r & Hr & Hs). split; [done|]. exists r. split; [|done].
    rewrite Hd. apply elem_of_app. by left.
  - intros r Hr. rewrite Hd in Hr. apply elem_of_app in Hr as [Hr|Hr]; [by apply Hcount|].
    destruct (proj1 (Forall_forall _ _) Hnew r Hr) as [Hs Ha]. unfold uncounted. rewrite Hs, Ha.
    destruct (unused_id w (ob_id r) Hw) as [H1 H2]; [|unfold deliveries in *; cbn [handed]; lia].
    intros x Hx E. rewrite Hd in Hdd. apply list_elem_of_lookup_1 in Hx as [a Ha'], Hr as [b Hb].
    assert (outbox_clashes x r = false) as Hf.
    { eapply (proj1 (distinct_spec _ _) Hdd a (length (outbox (tables w)) + b)%nat).
      - apply lookup_lt_Some in Ha'. lia.
      - by apply lookup_app_l_Some.
      - rewrite lookup_app_r by lia. by replace (_ + b - _)%nat with b by lia. }
    unfold outbox_clashes in Hf. by rewrite E, sql_eq_refl in Hf.
  - intros r Hr Hs. rewrite Hd in Hr. apply elem_of_app in Hr as [Hr|Hr]; [by apply Hpub|].
    destruct (proj1 (Forall_forall _ _) Hnew r Hr). congruence.
  - done.
  - intros r Hr _ _. split; [|done]. rewrite Hd. apply elem_of_app. by left.
  - done.
Qed.


(** ** All jobs *)

Context (HM : 1 ≤ maxAttempts).

Lemma within_ok {A} i (m : bus_env → Sql bus_tables bus_error A) (Q : Prelude.result bus_error A → bus_world → Prop) w :
  (∀ c, changes enqueued (m c)) → (∀ r w, Q r w) → sound w → doing i (await (Within m)) Q w.
Proof.
  intros Hm HQ Hw. apply ensures_await. intros c. specialize (Hm c (database c) 0%nat (tables w)). cbn.
  destruct (m c (database c) 0%nat (tables w)) as [r [n d]]. destruct (sound_enqueued i w d HM Hw Hm). by split_and!.
Qed.

Lemma update_other_ok i s (Q : Prelude.result bus_error unit → bus_world → Prop) w :
  (∀ d, outbox (s d).2 = outbox d) → (∀ r w, Q r w) → sound w → doing i (update_one s) Q w.
Proof.
  intros Hs HQ Hw. unfold update_one. apply ensures_bind, ensures_await. intros c.
  pose proof (update_nothing i s c w Hw (Hs _)) as (H1 & H2 & _). destruct (bus_perform _ _ _ _) as [r w1].
  cbn [snd] in *. split_and!; [done..|]. intros w2 _ _. destruct r; apply HQ.
Qed.

(** Publishers share the limit of attempts. *)
Definition limited (j : bus_job) : Prop := match j with Publisher o => po_maxAttempts o = maxAttempts | _ => True end.

Definition answered (j : bus_job) (_ : nat) (r : Prelude.result bus_error bus_answer) (w : bus_world) : Prop :=
  match j, r with
  | Publisher _, Ok (Batch s) => batch_settled s w
  | Publisher _, Ok _ => False
  | _, _ => True
  end.

Lemma bus_program_ok j i w : limited j → sound w → doing i (bus_program j) (answered j i) w.
Proof.
  intros Hj Hw. destruct j as [o|ms keep|o|? ? ? result ?|? ? ? ?|o| |]; cbn [bus_program]; apply ensures_bind.
  - eapply ensures_mono; [by apply publishOutboxBatch_ok|]. by intros [].
  - apply within_ok; [apply changes_writes|by intros [] ?|done].
  - apply within_ok; [intros c; apply changes_begin_inbox|by intros [] ?|done].
  - unfold completeInbox. apply ensures_bind. cbn [sync ensures]. destruct result; [by apply update_other_ok; [|intros [] ?|]|..];
      (destruct (canonicalJson _); [by apply update_other_ok; [|intros [] ?|]|done]).
  - apply update_other_ok; [done|by intros [] ?|done].
  - apply within_ok; [intros c; apply changes_begin_idempotency|by intros [] ?|done].
  - apply update_other_ok; [done|by intros [] ?|done].
  - apply update_other_ok; [done|by intros [] ?|done].
Qed.

(** Worlds that jobs of the given limit lead to. *)
Definition bus_start (d : bus_tables) : bus_world := BusWorld d ∅ [].

Definition bus_reachable : config bus_op bus_world {j | limited j} (Prelude.result bus_error bus_answer) → Prop :=
  reachable (@bus_perform _ _) (fun j => bus_program (proj1_sig j)) (bus_start d0).

Lemma start_sound : outbox_ok (outbox d0) → sound (bus_start d0).
Proof.
  intros Hok. split; cbn; [done|reflexivity|by intros d Hd%elem_of_nil| |by left].
  intros r Hr. rewrite attempts_before_row by done. pose proof (uncounted_range ∅ r). unfold deliveries. cbn. lia.
Qed.

Lemma reachable_pool c : outbox_ok (outbox d0) → bus_reachable c →
  pool_ok (@bus_perform _ _) sound guar (fun _ _ => True) (fun j i r w => answered (proj1_sig j) i r w) (bus_start d0) c.
Proof.
  intros Hok Hc. eapply adequacy; [..|exact Hc]; [done| |by apply start_sound|done].
  intros [j Hj] i w Hw _. by apply bus_program_ok.
Qed.
End Outbox.
