(* ===== verification/OutboxGuarantees.v ===== *)
(** * What holds of the outbox whenever it runs

    The properties of the writer and the publisher in every state that any number of
    publishers, writers and users of the other tables lead to. *)

From stdpp Require Import relations sorting.
From S2P Require Import Prelude JsText CanonicalJson Sql Prog Messaging MessageBus MessageWorld OutboxSafety.

Local Open Scope string_scope.
Local Open Scope list_scope.
#[global] Open Scope Z_scope.

Section Guarantees.
Context `{PL : Platform, CO : Collation, JC : JsonColumn}.
Context (d0 : bus_tables) (maxAttempts : Z).

(** A state that jobs with the limit lead to, from tables they could have left. *)
Definition runs_to (c : config bus_op bus_world {j | limited maxAttempts j} (Prelude.result bus_error bus_answer)) : Prop :=
  1 ≤ maxAttempts ∧ outbox_ok maxAttempts (outbox d0) ∧ bus_reachable d0 maxAttempts c.

(** C8: At least once, and not without end: in every state that publishers with the same
    limit, writers and the users of the inbox and the idempotency records lead to, whatever
    the database and the transport refuse and however they interleave, a row was handed over
    no more often than its failures count, once more if it is being published or published,
    and never more often than the limit; what was handed over is the content of a row and
    has the digest that is stored with it; a row that is published was accepted by the
    transport; the content of a row stays, its attempts only grow, and a row that was
    published or given up does not change. *)
Theorem deliveries_accounted c :
  runs_to c →
  (∀ r, r ∈ outbox (tables c.2) →
     deliveries (ob_id r) c.2 + attempts_before d0 (ob_id r) ≤
       ob_attempts r + (if bool_decide (ob_status r = Publishing ∨ ob_status r = Published) then 1 else 0) ∧
     deliveries (ob_id r) c.2 + attempts_before d0 (ob_id r) ≤ maxAttempts) ∧
  (∀ d, d ∈ handed c.2 → sha256Hex (cm_payloadJson (delivered d)) = cm_payloadSha256 (delivered d) ∧
     ∃ r, r ∈ outbox (tables c.2) ∧ says r (delivered d)) ∧
  (∀ r, r ∈ outbox (tables c.2) → ob_status r = Published → r ∈ outbox d0 ∨ accepted (ob_id r) c.2) ∧
  outbox_le (outbox d0) (outbox (tables c.2)).
Proof.
  intros (HM & Hok & Hc). destruct (reachable_pool d0 maxAttempts HM c Hok Hc) as ([Hout Hsince Hdel Hcount Hpub] & _).
  split_and!; [|done..]. intros r Hr. specialize (Hcount r Hr).
  destruct (proj1 (Forall_forall _ _) (ok_limit _ _ Hout) r Hr) as [H1 H2].
  unfold uncounted in Hcount. case_bool_decide as E; destruct (ob_status r) eqn:Es;
    try (destruct (holder c.2 !! ob_id r) as [[? []]|]); naive_solver (congruence || lia).
Qed.

(** A batch of the publisher that returns has settled every message it claimed, each of
    another row: the row was published and the transport accepted the message, or the
    failure was counted in its attempts; the summary counts each of them once. *)
Theorem returned_batch_settled c i o Ho a :
  runs_to c →
  c.1 !! i = Some (Thread (exist _ (Publisher o) Ho) (Ret (Ok a))) →
  ∃ s, a = Batch s ∧ batch_settled s c.2.
Proof.
  intros (HM & Hok & Hc) Hi. pose proof (returned_post _ _ _ _ _ _ _ _ _ _ (reachable_pool d0 maxAttempts HM c Hok Hc) Hi) as H.
  cbn in H. destruct a as [s| | |]; [by exists s|done..].
Qed.

(** C38: What a publisher that stopped had claimed stays claimed: a row that is being
    published when the program starts again keeps its lease for ever, whenever that
    expired: no publisher claims, hands over or settles it, since [claim] reads the expiry
    of a lease only of rows that have none. *)
Theorem abandoned_claim_stuck c r :
  runs_to c →
  r ∈ outbox d0 → ob_status r = Publishing →
  r ∈ outbox (tables c.2) ∧ deliveries (ob_id r) c.2 = 0.
Proof.
  intros (HM & Hok & Hc) Hr Hs. destruct (reachable_pool d0 maxAttempts HM c Hok Hc) as (Hw & He & _).
  assert (r ∈ outbox (tables c.2) ∧ holder c.2 !! ob_id r = None) as [Hr' Hh].
  { assert (∀ w w', evolves guar w w' → r ∈ outbox (tables w) → holder w !! ob_id r = None →
      r ∈ outbox (tables w') ∧ holder w' !! ob_id r = None) as Hkeep.
    { intros w w'. induction 1 as [|w1 w2 w3 (i & Hg) _ IH]; [done|]. intros H1 H2.
      destruct (guar_held _ _ _ Hg r H1 Hs) as [K1 K2]; [by rewrite H2|]. apply IH; congruence. }
    by apply (Hkeep _ _ He). }
  split; [done|]. pose proof (sound_counted _ _ _ Hw r Hr') as H. rewrite (attempts_before_row d0 maxAttempts) in H by done.
  unfold uncounted in H. rewrite Hs, Hh in H. unfold deliveries in *. lia.
Qed.
End Guarantees.

(** ** The writer *)

Section Writing.
Context `{PL : Platform, CO : Collation, JC : JsonColumn}.

(** The row is the message, with the payload as its canonical text. *)
Definition records_message (m : NewOutboxMessage) (text : string) (x : ClaimedOutboxMessage) : Prop :=
  cm_messageId x = nm_messageId m ∧ cm_aggregateType x = nm_aggregateType m ∧ cm_aggregateId x = nm_aggregateId m ∧
  cm_eventType x = nm_eventType m ∧ cm_correlationId x = nm_correlationId m ∧ cm_payloadJson x = text ∧
  cm_payloadSha256 x = sha256Hex text ∧ cm_attempts x = 0.

Lemma new_row_read `{!JsonColumnLaws PL JC} id m text at_ :
  canonicalJson (nm_payload m) = Ok text →
  ∃ x, mapOutbox (new_outbox_row id m text (sha256Hex text) at_) = Ok x ∧ records_message m text x.
Proof.
  intros Ht. unfold mapOutbox. cbn. pose proof (read_canonical _ _ Ht) as Hr.
  destruct (read_json text) as [s|v]; [subst s|rewrite Hr]; cbn; eexists; by split_and!.
Qed.

Lemma one_of_message messageId t :
  distinct outbox_clashes t = true →
  where_ (message_is messageId) t = [] ∨
  ∃ r, where_ (message_is messageId) t = [r] ∧ r ∈ t ∧ message_is messageId r = true.
Proof.
  intros Hd. destruct (distinct_where outbox_clashes (message_is messageId) t Hd) as [E|[r E]]; [|by left|].
  - intros r s. unfold message_is, outbox_clashes, same_text. destruct (ob_message_id r), (ob_message_id s); try done.
    intros H1 H2. rewrite (sql_eq_both _ _ _ H1 H2). apply orb_true_r.
  - right. exists r. assert (r ∈ where_ (message_is messageId) t) as [? ?]%elem_of_where by (rewrite E; left). by split_and!.
Qed.

(** A message is written once, whole: [enqueue] on the connection of a caller adds one
    row, that a publisher reads back as the message with the canonical text of its payload
    and the digest of that text, so that it never rejects it; or it finds the row of the
    message id, with the same content, and adds nothing; or it throws
    and nothing changed, an integrity error only when no row of the message id says the same.
    It never fails otherwise unless the database refuses a request or the payload has no
    canonical text. *)
Theorem enqueue_once `{!JsonColumnLaws PL JC} c m env n d :
  distinct outbox_clashes (outbox d) = true →
  match enqueue c m env n d with
  | (Ok message_inserted, (_, d')) =>
      ∃ row text x, d' = with_outbox (outbox d ++ [row]) d ∧ canonicalJson (nm_payload m) = Ok text ∧
        ob_status row = Pending ∧ mapOutbox row = Ok x ∧ records_message m text x ∧
        (∀ s, s ∈ outbox d → message_is (nm_messageId m) s = false)
  | (Ok message_duplicate, (_, d')) =>
      d' = d ∧ ∃ row text, row ∈ outbox d ∧ canonicalJson (nm_payload m) = Ok text ∧
        message_is (nm_messageId m) row = true ∧ same_message row m (sha256Hex text) = true
  | (Throw e, (_, d')) => d' = d ∧
      match e with
      | MessageIntegrityError => ∃ text, canonicalJson (nm_payload m) = Ok text ∧
          ∀ row, row ∈ outbox d → message_is (nm_messageId m) row = true → same_message row m (sha256Hex text) = false
      | Unprintable e => canonicalJson (nm_payload m) = Throw e
      | DriverError code => code = driver_code c
      | _ => False
      end
  end.
Proof.
  intros Hd. unfold enqueue. destruct (canonicalJson (nm_payload m)) as [text|e] eqn:Ht; [|cbn; by split].
  unfold mbind, Sql_bind, newId, trying, bus_select, bus_request, catching, request.
  destruct (refused env (S n)); [cbn; by split|]. unfold insert_outbox, insert_unique.
  set (row := new_outbox_row _ m text (sha256Hex text) _).
  destruct (existsb (outbox_clashes row) (outbox d)) eqn:E; cbn.
  - rewrite bool_decide_true by done. cbn. destruct (refused env (S (S n))); [by split|]. cbn. destruct (one_of_message (nm_messageId m) (outbox d) Hd) as [En|(r & En & Hr & Hk)]; rewrite En; cbn.
    + split; [done|]. exists text. split; [done|]. intros s Hs Hk. by rewrite (where_nil _ _ s En Hs) in Hk.
    + destruct (same_message r m (sha256Hex text)) eqn:Es; [split; [done|by exists r, text]|].
      split; [done|]. exists text. split; [done|]. intros s Hs Hks.
      assert (s ∈ where_ (message_is (nm_messageId m)) (outbox d)) as H by by apply elem_of_where.
      rewrite En in H. apply list_elem_of_singleton in H. by subst.
  - destruct (new_row_read (fresh_id env n) m text (statement_time env (S n)) Ht) as (x & Hx & Hm).
    exists row, text, x. split_and!; [done..|]. intros s Hs. destruct (message_is (nm_messageId m) s) eqn:Ek; [|done].
    assert (existsb (outbox_clashes row) (outbox d) = true); [|congruence]. apply existsb_exists. exists s.
    split; [by apply list_elem_of_In|]. unfold outbox_clashes, message_is, same_text in *. cbn.
    destruct (ob_message_id s); [|done]. rewrite (sql_eq_sym (nm_messageId m)), Ek. apply orb_true_r.
Qed.
End Writing.

(** ** Witnesses *)

Import DemoBus.

Module DemoOutbox.

Definition limited3 : bus_job → Prop := limited 3.

Definition writing : {j | limited3 j} := exist limited3 (Writer [message] true) I.
Definition batch (now : Z) : {j | limited3 j} := exist limited3 (Publisher (publishing now)) eq_refl.

(** Written; not taken over; taken over at the second attempt. *)
Definition written := ran up writing ([], bus_start nothing).
Definition failed_once := ran down (batch 10) written.
Definition delivered_twice := ran up (batch 10000) failed_once.

Lemma nothing_ok : outbox_ok 3 (outbox nothing).
Proof. split; [done|constructor]. Qed.

Lemma left_over_ok : outbox_ok 3 (outbox left_over).
Proof. split; [done|]. repeat constructor; cbn; lia. Qed.

Lemma delivered_reached : runs_to nothing 3 delivered_twice.
Proof.
  split; [lia|]. split; [exact nothing_ok|]. unfold bus_reachable, reachable. etransitivity; [exact (ran_job_steps up writing _)|].
  etransitivity; [exact (ran_job_steps down (batch 10) _)|exact (ran_job_steps up (batch 10000) _)].
Qed.

(** A publisher that runs long after another one stopped. *)
Definition restarted := ran up (batch 10000000) ([], bus_start left_over).

Lemma restarted_reached : runs_to left_over 3 restarted.
Proof. split; [lia|]. split; [exact left_over_ok|]. exact (ran_job_steps up (batch 10000000) _). Qed.

(** Two deliveries, one counted as failed; the second was accepted. *)
Example delivered_twice_rows :
  map (fun r => (ob_status r, ob_attempts r)) (outbox (tables delivered_twice.2)) = [(Published, 1)] ∧
  map taken_over (handed delivered_twice.2) = [false; true].
Proof. vm_compute. done. Qed.

(** The first retry waits for two seconds, as for one failure before this one. *)
Example first_retry : map ob_available_at (outbox (tables failed_once.2)) = [datetime 2010].
Proof. vm_compute. done. Qed.
End DemoOutbox.

Lemma deliveries_accounted_witness :
  outbox_le [] (outbox (tables DemoOutbox.delivered_twice.2)) ∧
  ∀ r, r ∈ outbox (tables DemoOutbox.delivered_twice.2) → deliveries (ob_id r) DemoOutbox.delivered_twice.2 ≤ 3.
Proof.
  destruct (deliveries_accounted DemoBus.nothing 3 DemoOutbox.delivered_twice
    DemoOutbox.delivered_reached) as (H & _ & _ & Hle). split; [exact Hle|].
  intros r Hr. destruct (H r Hr) as [_ Hd].
  assert (attempts_before DemoBus.nothing (ob_id r) = 0) as E by reflexivity. by rewrite E, Z.add_0_r in Hd.
Defined.

Lemma returned_batch_settled_witness :
  ∃ s, Batch (PublishCounts 1 1 0 0 0) = Batch s ∧ batch_settled s DemoOutbox.delivered_twice.2.
Proof.
  apply (returned_batch_settled DemoBus.nothing 3 DemoOutbox.delivered_twice 2 (DemoBus.publishing 10000) eq_refl).
  - exact DemoOutbox.delivered_reached.
  - vm_compute. reflexivity.
Defined.

Lemma abandoned_claim_stuck_witness :
  DemoBus.stopped ∈ outbox (tables DemoOutbox.restarted.2) ∧ deliveries "obx_9" DemoOutbox.restarted.2 = 0.
Proof.
  apply (abandoned_claim_stuck DemoBus.left_over 3 DemoOutbox.restarted DemoBus.stopped).
  - exact DemoOutbox.restarted_reached.
  - left.
  - reflexivity.
Defined.

Lemma enqueue_once_witness :
  distinct outbox_clashes (outbox (tables DemoOutbox.written.2)) = true ∧
  match enqueue (DemoBus.up 0) DemoBus.message DemoBus.calm 0%nat (tables DemoOutbox.written.2) with
  | (Ok message_duplicate, (_, d')) => d' = tables DemoOutbox.written.2
  | _ => False
  end.
Proof.
  split; [vm_compute; reflexivity|].
  pose proof (enqueue_once (DemoBus.up 0) DemoBus.message DemoBus.calm 0%nat (tables DemoOutbox.written.2)
    ltac:(vm_compute; reflexivity)) as H.
  assert ((enqueue (DemoBus.up 0) DemoBus.message DemoBus.calm 0%nat (tables DemoOutbox.written.2)).1 = Ok message_duplicate)
    as E by (vm_compute; reflexivity).
  destruct (enqueue _ _ _ _ _) as [[[]|] [? ?]]; try discriminate E. apply H.
Defined.
