(* ===== verification/LeaseGuarantees.v ===== *)
(** * Nobody passes a lease, nobody repeats what is done

    The inbox and the idempotency records are tables of leases: a first attempt inserts a row
    in the name of its owner, later ones read the row and decide. What a settled row,
    or one that is leased to somebody else, answers to every job there is, in every
    interleaving. *)

From stdpp Require Import relations.
From S2P Require Import Prelude JsText CanonicalJson Sql Prog Messaging MessageBus MessageWorld OutboxSafety.

Local Open Scope string_scope.
Local Open Scope list_scope.
#[global] Open Scope Z_scope.

(** ** A table of leases *)

(** A table of [bus_tables], and one key of it. *)
Record lease_table (R : Type) : Type := LeaseTable {
  rows : bus_tables → list R;
  store : list R → bus_tables → bus_tables;
  clash : R → R → bool;
}.
Arguments rows {R}.
Arguments store {R}.
Arguments clash {R}.

Class LeaseTableLaws {R} (T : lease_table R) : Prop := {
  rows_store t d : rows T (store T t d) = t;
  clash_sym r s : clash T r s = clash T s r;
}.

(** An attempt on one key: the row it inserts, the answer to the row that is there, and the
    row that is taken over. *)
Record attempt (R A : Type) : Type := Attempt {
  of_key : R → bool;
  first_row : string → R;
  answer_to : option R → A;
  yes : A;
  taken : R → R;
}.
Arguments of_key {R A}.
Arguments first_row {R A}.
Arguments answer_to {R A}.
Arguments yes {R A}.
Arguments taken {R A}.

Class AttemptLaws {R A} (T : lease_table R) (a : attempt R A) : Prop := {
  first_clashes id r : of_key a r = true → clash T (first_row a id) r = true;
  same_key_clashes r s : of_key a r = true → of_key a s = true → clash T r s = true;
  taken_clash r s : clash T (taken a r) s = clash T r s;
}.

Lemma insert_or_duplicate_Ok c s env n d fresh n' d' :
  insert_or_duplicate c s env n d = (Ok fresh, (n', d')) →
  (fresh = true ∧ s d = Ok (tt, d')) ∨ (fresh = false ∧ d' = d ∧ ∃ e, s d = Throw e).
Proof.
  unfold insert_or_duplicate, trying, bus_request, catching, request, mbind, Sql_bind.
  destruct (refused env n); [by case_bool_decide|]. destruct (s d) as [[[] d1]|e]; [by intros [= <- <- <-]; left|].
  case_bool_decide; [|done]. intros [= <- <- <-]. right. eauto.
Qed.

Section Table.
Context {R : Type} (T : lease_table R) `{!LeaseTableLaws T}.
Context {A : Type} `{!EqDecision A} (a : attempt R A) `{!AttemptLaws T a}.

Definition attempt_body (c : bus_env) : Sql bus_tables bus_error (TransactionOutcome A) :=
  id ← newId;
  fresh ← insert_or_duplicate c (fun d => t ← insert_unique (clash T) (first_row a id) (rows T d); Ok (tt, store T t d));
  if (fresh : bool) then mret (Outcome true (yes a))
  else
    existing ← bus_select c (fun d => head (where_ (of_key a) (rows T d)));
    let decision := answer_to a existing in
    if negb (bool_decide (decision = yes a)) then mret (Outcome true decision)
    else
      bus_request c (fun _ d => Ok (tt, store T (update_where (of_key a) (taken a) (rows T d)).2 d))
        ≫= fun _ => mret (Outcome true (yes a)).

(** What an attempt does to the table. *)
Inductive attempted (d : bus_tables) : bus_tables → A → Prop :=
| attempt_inserts id : (∀ s, s ∈ rows T d → clash T (first_row a id) s = false) →
    attempted d (store T (rows T d ++ [first_row a id]) d) (yes a)
| attempt_answers x : answer_to a (head (where_ (of_key a) (rows T d))) = x → x ≠ yes a → attempted d d x
| attempt_takes : answer_to a (head (where_ (of_key a) (rows T d))) = yes a →
    attempted d (store T (update_where (of_key a) (taken a) (rows T d)).2 d) (yes a).

Lemma attempt_body_Ok c env n d o n' d' :
  attempt_body c env n d = (Ok o, (n', d')) → commit o = true ∧ attempted d d' (outcome_value o).
Proof.
  unfold attempt_body, insert_or_duplicate, bus_select, bus_request. intros (id & n1 & d1 & [-> [= -> ->]]%newId_Ok & H)%sql_bind_Ok.
  apply sql_bind_Ok in H as (fresh & n2 & d2 & [[-> Hs]|(-> & -> & _)]%insert_or_duplicate_Ok & H).
  - apply ret_Ok in H as [<- [= -> ->]]. bind_ok. apply insert_unique_Ok in H as [Hc ->]. split; [done|by constructor].
  - apply sql_bind_Ok in H as (x & n3 & d3 & Hx & H). apply catching_Ok, request_Ok in Hx as (_ & d4 & [= <- <-]%Ok_inj & [= -> ->]).
    case_bool_decide as E; cbn [negb] in H.
    + apply sql_bind_Ok in H as (u & n4 & d4 & Hu & [<- [= -> ->]]%ret_Ok).
      apply catching_Ok, request_Ok in Hu as (_ & d5 & E5%Ok_inj & [= -> ->]). apply (f_equal snd) in E5. cbn [snd] in E5. subst d5. split; [done|by apply attempt_takes].
    + apply ret_Ok in H as [<- [= -> ->]]. split; [done|by constructor].
Qed.

(** One that throws did nothing, unless its commit was lost on the way back. *)
Lemma attempt_cases c env n d r n' d' :
  bus_transaction c (attempt_body c) env n d = (r, (n', d')) →
  match r with Ok x => attempted d d' x | Throw _ => d' = d ∨ ∃ x, attempted d d' x end.
Proof.
  unfold bus_transaction. intros H. destruct r as [x|e].
  - apply locking_Ok in H as (o & n1 & d1 & Ho & -> & ->). apply attempt_body_Ok in Ho as [-> Ho]. done.
  - apply locking_cases in H as [->|(o & n1 & Ho & _)]; [by left|right]. apply attempt_body_Ok in Ho as [_ Ho]. eauto.
Qed.

Lemma attempted_distinct d d' x :
  attempted d d' x → distinct (clash T) (rows T d) = true → distinct (clash T) (rows T d') = true.
Proof.
  intros [id Hc| |] Hd; rewrite ?rows_store; [|done|].
  - apply distinct_snoc; [done|]. intros s Hs. rewrite clash_sym. by apply Hc.
  - apply distinct_spec. intros i j r s Hij. cbn. rewrite !list_lookup_fmap.
    intros (u & Hu & ->)%fmap_Some (v & Hv & ->)%fmap_Some. pose proof (proj1 (distinct_spec _ _) Hd i j u v Hij Hu Hv).
    destruct (of_key a u), (of_key a v); rewrite ?taken_clash, ?(clash_sym _ (taken a v)), ?taken_clash, ?(clash_sym v); done.
Qed.

(** Rows of another key stay. *)
Lemma attempted_other d d' x r : attempted d d' x → r ∈ rows T d → of_key a r = false → r ∈ rows T d'.
Proof.
  intros [id Hc| |] Hr Hk; rewrite ?rows_store; [|done|by apply update_untouched].
  apply elem_of_app. by left.
Qed.

Lemma row_of_key d r : distinct (clash T) (rows T d) = true → r ∈ rows T d → of_key a r = true →
  head (where_ (of_key a) (rows T d)) = Some r.
Proof.
  intros Hd Hr Hk. destruct (distinct_where (clash T) (of_key a) (rows T d) Hd) as [E|[s E]].
  - apply same_key_clashes.
  - apply (where_nil _ _ r) in E; congruence.
  - assert (r ∈ where_ (of_key a) (rows T d)) as H by by apply elem_of_where. rewrite E in *.
    apply list_elem_of_singleton in H. by subst.
Qed.

(** A row that answers no is what the attempt finds, and nothing changes. *)
Lemma attempted_barred d d' x r :
  attempted d d' x → distinct (clash T) (rows T d) = true → r ∈ rows T d → of_key a r = true →
  answer_to a (Some r) ≠ yes a → d' = d ∧ x = answer_to a (Some r).
Proof.
  intros H Hd Hr Hk Hno. pose proof (row_of_key d r Hd Hr Hk) as E. destruct H as [id Hc|x Hx _|Hx].
  - specialize (Hc r Hr). by rewrite first_clashes in Hc.
  - by rewrite E in Hx.
  - by rewrite E in Hx.
Qed.
End Table.

(** ** What every job keeps *)

Definition kept_by (P : bus_tables → Prop) (d d' : bus_tables) : Prop := P d → P d'.

#[export] Instance kept_by_preorder P : PreOrder (kept_by P).
Proof. split; unfold kept_by; [by intros d|by intros a b c; auto]. Qed.

Section Kept.
Context `{PL : Platform, CO : Collation, JC : JsonColumn}.
Context (P : bus_tables → Prop).

Definition op_keeps {X} (o : bus_op X) : Prop :=
  match o with
  | Claim _ => ∀ t d, P d → P (with_outbox t d)
  | Publish _ => True
  | Update s => ∀ d, P d → P (s d).2
  | Within m => ∀ c, changes (kept_by P) (m c)
  end.

Lemma perform_keeps i {X} (o : bus_op X) c w :
  op_keeps o → P (tables w) → P (tables (bus_perform i o c w).2).
Proof.
  destruct o as [o|s|m|B m]; cbn [op_keeps bus_perform]; intros Ho Hw.
  - destruct (claim c o (database c) 0%nat (tables w)) as [r [n d]] eqn:E. cbn [snd tables].
    apply claim_cases in E as [[_ ->]|[-> _]]; [done|]. by apply Ho.
  - specialize (Ho (tables w) Hw). destruct (s (tables w)) as [n d]. cbn [snd] in Ho.
    destruct (refused _ _); [destruct (landed _ _)|]; done.
  - done.
  - specialize (Ho c (database c) 0%nat (tables w) Hw). by destruct (m c (database c) 0%nat (tables w)) as [r [n d]].
Qed.

Definition keeps_all (X : Type) (o : bus_op X) : Prop := op_keeps o.

Lemma uses_update_one s : op_keeps (Update s) → uses keeps_all (update_one s).
Proof. intros Hs. unfold update_one. apply uses_bind; [by split|]. intros n. done. Qed.

Lemma keeps_ok {B} i (p : prog bus_op B) (Q : B → bus_world → Prop) w :
  uses keeps_all p → (∀ b w, Q b w) → P (tables w) →
  ensures (@bus_perform _ _) (fun w => P (tables w)) (fun _ _ _ => True) i p Q w.
Proof.
  intros Hu HQ Hw. apply (ensures_uses _ _ _ keeps_all); [|done..]. intros X o c w' Ho Hw'.
  split; [by apply perform_keeps|done].
Qed.

Context (HP : ∀ t d, P d → P (with_outbox t d)).

Lemma update_outbox_keeps Q f : op_keeps (Update (update_outbox Q f)).
Proof. intros d Hd. by apply HP. Qed.

Lemma uses_publisher o : uses keeps_all (publishOutboxBatch o).
Proof.
  unfold publishOutboxBatch. apply uses_bind; [by split|]. intros l. generalize (PublishCounts (Z.of_nat (length l)) 0 0 0 0).
  induction l as [|m l IH]; intros s; [done|]. cbn [publish_claimed]. apply uses_bind; [|intros s'; apply IH].
  destruct (negb _).
  - unfold reject_message, markFailed. apply uses_bind; [|done]. apply uses_update_one, update_outbox_keeps.
  - unfold publish_message. apply uses_catch.
    + apply uses_bind; [by split|]. intros u. apply uses_bind; [|done]. apply uses_update_one, update_outbox_keeps.
    + intros e. apply uses_bind; [|done]. apply uses_update_one, update_outbox_keeps.
Qed.

Lemma uses_publishing o : uses keeps_all (bus_program (Publisher o)).
Proof. apply uses_bind; [apply uses_publisher|done]. Qed.

Lemma writes_keep ms keep c : changes (kept_by P) (write_messages ms keep c).
Proof.
  unfold write_messages, bus_transaction. solve_changes.
  induction ms as [|m ms IH]; cbn [enqueue_each]; solve_changes; [|exact IH].
  unfold enqueue, bus_select, bus_request. solve_changes; intros Hd; [|by simplify_eq].
  unfold insert_outbox in *. bind_ok. by apply HP.
Qed.

Lemma uses_writing ms keep : uses keeps_all (bus_program (Writer ms keep)).
Proof. apply uses_bind; [|done]. split; [|done]. intros c. apply writes_keep. Qed.
End Kept.

(** ** A row that turns everybody away *)

Section Settled.
Context `{PL : Platform, CO : Collation, JC : JsonColumn}.
Context {R : Type} (T : lease_table R) `{!LeaseTableLaws T} (r : R).

Definition safe (d : bus_tables) : Prop := distinct (clash T) (rows T d) = true ∧ r ∈ rows T d.

Notation doing := (ensures (@bus_perform _ _) (fun w => safe (tables w)) (fun _ _ _ => True)).

Lemma attempt_ok {A} `{!EqDecision A} (a : attempt R A) `{!AttemptLaws T a} i (Q : Prelude.result bus_error A → bus_world → Prop) w :
  (of_key a r = true → answer_to a (Some r) ≠ yes a) →
  (∀ res w, match res with Ok x => of_key a r = true → x = answer_to a (Some r) | Throw _ => True end → Q res w) →
  safe (tables w) → doing i (await (Within (fun c => bus_transaction c (attempt_body T a c)))) Q w.
Proof.
  intros Hno HQ [Hd Hr]. apply ensures_await. intros c. cbn [bus_perform].
  destruct (bus_transaction c (attempt_body T a c) (database c) 0%nat (tables w)) as [res [n d']] eqn:E.
  apply (attempt_cases T a) in E.
  assert (∀ x, attempted T a (tables w) d' x → safe d' ∧ (of_key a r = true → x = answer_to a (Some r))) as Hx.
  { intros x Hx. destruct (of_key a r) eqn:Hk.
    - by destruct (attempted_barred T a _ _ _ r Hx Hd Hr Hk (Hno eq_refl)) as [-> ->].
    - split; [|done]. split; [by eapply attempted_distinct|by eapply attempted_other]. }
  split_and!; [|done|].
  - destruct res as [x|e]; [by eapply Hx|]. destruct E as [->|[x E]]; [done|by eapply Hx].
  - intros w' _ _. apply HQ. destruct res as [x|e]; [by eapply Hx|done].
Qed.

Section Marks.
Context (M : R → bool) (f : R → R).
Hypothesis f_clash : ∀ x s, clash T (f x) s = clash T x s.
Hypothesis missed : M r = false.

Definition mark_table (d : bus_tables) : nat * bus_tables :=
  (length (where_ M (rows T d)), store T (update_where M f (rows T d)).2 d).

Lemma mark_safe d : safe d → safe (mark_table d).2.
Proof.
  intros [Hd Hr]. split; cbn [mark_table snd]; rewrite rows_store; [|by apply update_untouched].
  apply distinct_spec. intros i j u v Hij. cbn. rewrite !list_lookup_fmap.
  intros (x & Hx & ->)%fmap_Some (y & Hy & ->)%fmap_Some. pose proof (proj1 (distinct_spec _ _) Hd i j x y Hij Hx Hy).
  destruct (M x), (M y); rewrite ?f_clash, ?(clash_sym _ (f y)), ?f_clash, ?(clash_sym y); done.
Qed.

Lemma mark_missed_ok i (Q : Prelude.result bus_error unit → bus_world → Prop) w :
  (∀ res w, (res = Ok tt → ∃ x, M x = true ∧ clash T x r = false) → Q res w) →
  safe (tables w) → doing i (update_one mark_table) Q w.
Proof.
  intros HQ Hw. unfold update_one. apply ensures_bind, ensures_await. intros c.
  pose proof (perform_keeps safe i (Update mark_table) c w mark_safe Hw) as Hs.
  destruct (bus_perform i (Update mark_table) c w) as [res w1] eqn:E. split_and!; [done..|]. intros w2 _ _.
  destruct res as [n|e]; [|by apply HQ]. cbn. apply HQ. unfold throw_if.
  destruct (Nat.eqb_spec n 1) as [->|]; cbn; [intros _|done]. cbn in E. destruct (refused _ _); [done|].
  injection E as E _. destruct (where_ M (rows T (tables w))) as [|x l] eqn:Ex; [done|].
  assert (x ∈ where_ M (rows T (tables w))) as [HM Hx]%elem_of_where by (rewrite Ex; left).
  exists x. split; [done|]. destruct (clash T x r) eqn:Hc; [|done].
  destruct Hw as [Hd Hr]. rewrite (distinct_unique _ _ _ _ clash_sym Hd Hx Hr Hc) in HM. congruence.
Qed.
End Marks.
End Settled.

(** ** The inbox and the idempotency records *)

Section Tables.
Context `{PL : Platform, CO : Collation, JC : JsonColumn}.

(** ** The two tables *)

Definition inbox_table : lease_table inbox_row := LeaseTable inbox_row inbox with_inbox inbox_clashes.
Definition record_table : lease_table idempotency_row :=
  LeaseTable idempotency_row idempotency with_idempotency idempotency_clashes.

#[export] Instance inbox_table_laws : LeaseTableLaws inbox_table.
Proof.
  split; [done|]. intros r s. cbn. unfold inbox_clashes, inbox_is.
  by rewrite (sql_eq_sym (in_id r)), (sql_eq_sym (in_consumer r)), (sql_eq_sym (in_message_id r)).
Qed.

#[export] Instance record_table_laws : LeaseTableLaws record_table.
Proof.
  split; [done|]. intros r s. cbn. unfold idempotency_clashes, record_is.
  by rewrite (sql_eq_sym (ir_id r)), (sql_eq_sym (ir_route r)), (sql_eq_sym (ir_key r)).
Qed.

Definition inbox_attempt (o : inbox_begin) : attempt inbox_row InboxBeginResult := {|
  of_key := inbox_is (ib_consumer o) (ib_messageId o);
  first_row id := new_inbox_row id o;
  answer_to e := classifyInboxAttempt (inbox_state <$> e) (ib_payloadSha256 o) (ib_owner o) (ib_now o);
  yes := inbox_acquired;
  taken := reacquired_inbox o;
|}.

Definition record_attempt (o : idempotency_begin) : attempt idempotency_row IdempotencyBeginResult := {|
  of_key := record_is (db_route o) (db_key o);
  first_row id := new_record id o;
  answer_to e := classifyIdempotencyAttempt (record_state <$> e) (db_requestHash o) (db_owner o) (db_now o);
  yes := acquired;
  taken := reacquired_record o;
|}.

#[export] Instance inbox_attempt_laws o : AttemptLaws inbox_table (inbox_attempt o).
Proof.
  split; [intros id r H|intros r s H1 H2|done]; cbn in *; unfold inbox_clashes, inbox_is in *; cbn.
  - rewrite (sql_eq_sym (ib_consumer o)), (sql_eq_sym (ib_messageId o)), H. apply orb_true_r.
  - apply andb_prop in H1 as [A1 A2], H2 as [B1 B2]. rewrite (sql_eq_both _ _ _ A1 B1), (sql_eq_both _ _ _ A2 B2). apply orb_true_r.
Qed.

#[export] Instance record_attempt_laws o : AttemptLaws record_table (record_attempt o).
Proof.
  split; [intros id r H|intros r s H1 H2|done]; cbn in *; unfold idempotency_clashes, record_is in *; cbn.
  - rewrite (sql_eq_sym (db_route o)), (sql_eq_sym (db_key o)), H. apply orb_true_r.
  - apply andb_prop in H1 as [A1 A2], H2 as [B1 B2]. rewrite (sql_eq_both _ _ _ A1 B1), (sql_eq_both _ _ _ A2 B2). apply orb_true_r.
Qed.

Lemma begin_inbox_attempt o c : beginInbox c o = bus_transaction c (attempt_body inbox_table (inbox_attempt o) c).
Proof. reflexivity. Qed.

Lemma begin_record_attempt o c : beginIdempotency c o = bus_transaction c (attempt_body record_table (record_attempt o) c).
Proof. reflexivity. Qed.

(** Jobs on the other tables. *)
Lemma inbox_elsewhere r d d' : inbox d' = inbox d → safe inbox_table r d → safe inbox_table r d'.
Proof. unfold safe. cbn. by intros ->. Qed.

Lemma record_elsewhere r d d' : idempotency d' = idempotency d → safe record_table r d → safe record_table r d'.
Proof. unfold safe. cbn. by intros ->. Qed.

Lemma inbox_attempt_elsewhere o c : changes (fun d d' => idempotency d' = idempotency d) (beginInbox c o).
Proof.
  assert (PreOrder (fun d d' : bus_tables => idempotency d' = idempotency d)) as Hpre by (split; [done|congruence]).
  unfold beginInbox, bus_transaction, inbox_begin_body, insert_or_duplicate, bus_select, bus_request. solve_changes; by bind_ok.
Qed.

Lemma record_attempt_elsewhere o c : changes (fun d d' => inbox d' = inbox d) (beginIdempotency c o).
Proof.
  assert (PreOrder (fun d d' : bus_tables => inbox d' = inbox d)) as Hpre by (split; [done|congruence]).
  unfold beginIdempotency, bus_transaction, idempotency_begin_body, insert_or_duplicate, bus_select, bus_request. solve_changes; by bind_ok.
Qed.

(** ** The inbox *)

Definition inbox_lease (r : inbox_row) (owner : string) (now : Z) : Prop :=
  in_status r = processing ∧ in_lease_owner r ≠ Some owner ∧ ∃ t, in_lease_expires_at r = Some t ∧ now < date_of t.

(** A message that was completed is through; one that is being processed is protected from
    the jobs of other owners while its lease runs. *)
Definition inbox_bars (r : inbox_row) (j : bus_job) : Prop :=
  in_status r = completed ∨
  match j with
  | BeginInbox o => inbox_is (ib_consumer o) (ib_messageId o) r = true → inbox_lease r (ib_owner o) (ib_now o)
  | CompleteInbox consumer messageId owner _ _ | FailInbox consumer messageId owner _ =>
      inbox_is consumer messageId r = true → same_text (in_lease_owner r) (Some owner) = false
  | _ => True
  end.

Definition inbox_refusal (r : inbox_row) (payloadSha256 : string) : InboxBeginResult :=
  if negb (bool_decide (in_payload_sha256 r = Some payloadSha256)) then integrity_conflict
  else if bool_decide (in_status r = completed) then duplicate_completed else inbox_in_progress.

(** What the jobs on the message of [r] come to. *)
Definition inbox_answered (r : inbox_row) (j : bus_job) (res : Prelude.result bus_error bus_answer) : Prop :=
  match j with
  | BeginInbox o => inbox_is (ib_consumer o) (ib_messageId o) r = true →
      ∀ a, res = Ok a → a = InboxAnswer (inbox_refusal r (ib_payloadSha256 o))
  | CompleteInbox consumer messageId _ _ _ | FailInbox consumer messageId _ _ =>
      inbox_is consumer messageId r = true → ∃ e, res = Throw e
  | _ => True
  end.

Lemma inbox_refused r o :
  inbox_is (ib_consumer o) (ib_messageId o) r = true → inbox_bars r (BeginInbox o) →
  answer_to (inbox_attempt o) (Some r) = inbox_refusal r (ib_payloadSha256 o).
Proof.
  intros Hk Hb. cbn. unfold inbox_refusal. destruct (negb _); [done|].
  destruct Hb as [->|Hb]; [done|]. destruct (Hb Hk) as (Hs & Ho & t & -> & Ht). rewrite Hs. cbn. unfold leased.
  rewrite (bool_decide_false (in_lease_owner r = _)) by done. by apply Z.ltb_lt in Ht as ->.
Qed.

Lemma inbox_refusal_no r h : inbox_refusal r h ≠ inbox_acquired.
Proof. unfold inbox_refusal. repeat case_match; done. Qed.

Notation in_inbox r := (ensures (@bus_perform _ _) (fun w => safe inbox_table r (tables w)) (fun _ _ _ => True)).

Lemma inbox_held_key consumer messageId owner x r :
  inbox_held consumer messageId owner x = true → clash inbox_table x r = false → inbox_is consumer messageId r = false.
Proof.
  intros [[H _]%andb_prop _]%andb_prop Hc. destruct (inbox_is consumer messageId r) eqn:E; [|done].
  cbn in Hc. unfold inbox_clashes, inbox_is in *. apply andb_prop in H as [A1 A2], E as [B1 B2].
  rewrite (sql_eq_both _ _ _ A1 B1), (sql_eq_both _ _ _ A2 B2) in Hc. by rewrite orb_true_r in Hc.
Qed.

Lemma inbox_not_held r consumer messageId owner :
  in_status r = completed ∨ (inbox_is consumer messageId r = true → same_text (in_lease_owner r) (Some owner) = false) →
  inbox_held consumer messageId owner r = false.
Proof.
  unfold inbox_held. intros [->|H]; [by rewrite andb_false_r|].
  destruct (inbox_is consumer messageId r); [|done]. rewrite H by done. apply andb_false_r.
Qed.

Lemma inbox_mark_ok r i consumer messageId owner f (Q : Prelude.result bus_error unit → bus_world → Prop) w :
  (∀ x, in_id (f x) = in_id x ∧ in_consumer (f x) = in_consumer x ∧ in_message_id (f x) = in_message_id x) →
  in_status r = completed ∨ (inbox_is consumer messageId r = true → same_text (in_lease_owner r) (Some owner) = false) →
  (∀ res w, (inbox_is consumer messageId r = true → ∃ e, res = Throw e) → Q res w) →
  safe inbox_table r (tables w) → in_inbox r i (update_one (update_inbox (inbox_held consumer messageId owner) f)) Q w.
Proof.
  intros Hf Hb HQ Hw. apply (mark_missed_ok inbox_table r (inbox_held consumer messageId owner) f); [|by apply inbox_not_held| |done].
  - intros x s. destruct (Hf x) as (H1 & H2 & H3). cbn. unfold inbox_clashes, inbox_is. by rewrite H1, H2, H3.
  - intros res w' Hres. apply HQ. intros Hk. destruct res as [[]|e]; [|by exists e].
    destruct (Hres eq_refl) as (x & Hx & Hc). rewrite (inbox_held_key _ _ _ _ _ Hx Hc) in Hk. done.
Qed.

Lemma complete_inbox_ok r i consumer messageId owner result at_ w :
  inbox_bars r (CompleteInbox consumer messageId owner result at_) → safe inbox_table r (tables w) →
  in_inbox r i (completeInbox consumer messageId owner result at_)
    (fun res _ => inbox_is consumer messageId r = true → ∃ e, res = Throw e) w.
Proof.
  intros Hb Hw. unfold completeInbox. apply ensures_bind. cbn [sync ensures].
  destruct result; [by apply inbox_mark_ok|..]; (destruct (canonicalJson _); [by apply inbox_mark_ok|by eauto]).
Qed.

Lemma inbox_job_ok r j i w :
  inbox_bars r j → safe inbox_table r (tables w) → in_inbox r i (bus_program j) (fun res _ => inbox_answered r j res) w.
Proof.
  assert (∀ t d, safe inbox_table r d → safe inbox_table r (with_outbox t d)) as Hout by (intros t d; by apply inbox_elsewhere).
  assert (∀ s, (∀ d, inbox (s d).2 = inbox d) → uses (keeps_all (safe inbox_table r)) (update_one s)) as Hother.
  { intros s Hs. apply uses_update_one. intros d. apply inbox_elsewhere, Hs. }
  intros Hb Hw. destruct j as [o|ms keep|o|consumer messageId owner result at_|consumer messageId owner code|o| |].
  - by apply keeps_ok; [apply uses_publishing|..].
  - by apply keeps_ok; [apply uses_writing|..].
  - cbn [bus_program]. apply ensures_bind. apply (attempt_ok inbox_table r (inbox_attempt o)); [| |done].
    + intros Hk. rewrite inbox_refused by done. apply inbox_refusal_no.
    + intros [x|e] w' Hx; [|by intros Hk]. cbn [ensures mret]. intros Hk a [= <-]. by rewrite (Hx Hk), inbox_refused.
  - apply ensures_bind. eapply ensures_mono; [by apply complete_inbox_ok|].
    intros [[]|e] w' H; cbn; [|eauto]. intros Hk. by destruct (H Hk).
  - apply ensures_bind, inbox_mark_ok; [done|done| |done].
    intros [[]|e] w' H; cbn; [|eauto]. intros Hk. by destruct (H Hk).
  - apply keeps_ok; [|done|done]. apply uses_bind; [|done]. split; [|done]. intros c env n d.
    exact (inbox_elsewhere r _ _ (record_attempt_elsewhere o c env n d)).
  - apply keeps_ok; [|done|done]. apply uses_bind; [by apply Hother|done].
  - apply keeps_ok; [|done|done]. apply uses_bind; [by apply Hother|done].
Qed.

(** ** Idempotency records *)

Definition record_lease (r : idempotency_row) (owner : string) (now : Z) : Prop :=
  ir_status r = processing ∧ ir_lock_owner r ≠ Some owner ∧ ∃ t, ir_locked_until r = Some t ∧ now < date_of t.

(** A mutation whose whole response is recorded is done; one in progress is protected from
    the jobs of other owners while its lock runs. *)
Definition record_bars (r : idempotency_row) (j : bus_job) : Prop :=
  is_Some (stored_response (record_state r)) ∨
  match j with
  | BeginIdempotency o => record_is (db_route o) (db_key o) r = true → record_lease r (db_owner o) (db_now o)
  | CompleteIdempotency route key owner _ _ _ | FailIdempotency route key owner =>
      record_is route key r = true → same_text (ir_lock_owner r) (Some owner) = false
  | _ => True
  end.

Definition record_refusal (r : idempotency_row) (requestHash : string) : IdempotencyBeginResult :=
  if negb (String.eqb (ir_request_hash r) requestHash) then key_conflict
  else match stored_response (record_state r) with
       | Some (reference, status, hash) => replay reference status hash
       | None => in_progress
       end.

Definition record_answered (r : idempotency_row) (j : bus_job) (res : Prelude.result bus_error bus_answer) : Prop :=
  match j with
  | BeginIdempotency o => record_is (db_route o) (db_key o) r = true →
      ∀ a, res = Ok a → a = IdempotencyAnswer (record_refusal r (db_requestHash o))
  | CompleteIdempotency route key _ _ _ _ | FailIdempotency route key _ => record_is route key r = true → ∃ e, res = Throw e
  | _ => True
  end.

Lemma record_refused r o :
  record_is (db_route o) (db_key o) r = true → record_bars r (BeginIdempotency o) →
  answer_to (record_attempt o) (Some r) = record_refusal r (db_requestHash o).
Proof.
  intros Hk Hb. unfold record_refusal. cbn. destruct (negb _); [done|].
  destruct Hb as [[[[reference status] hash] ->]|Hb]; [done|].
  destruct (Hb Hk) as (Hs & Ho & t & Ht & Hlt). destruct (stored_response _) as [[[? ?] ?]|]; [done|].
  unfold leased. rewrite Hs, Ht. rewrite (bool_decide_false (ir_lock_owner r = _)) by done. cbn.
  by apply Z.ltb_lt in Hlt as ->.
Qed.

Lemma record_refusal_no r h : record_refusal r h ≠ acquired.
Proof. unfold record_refusal. repeat case_match; done. Qed.

Notation in_records r := (ensures (@bus_perform _ _) (fun w => safe record_table r (tables w)) (fun _ _ _ => True)).

Lemma record_held_key route key owner x r :
  record_held route key owner x = true → clash record_table x r = false → record_is route key r = false.
Proof.
  intros [[H _]%andb_prop _]%andb_prop Hc. destruct (record_is route key r) eqn:E; [|done].
  cbn in Hc. unfold idempotency_clashes, record_is in *. apply andb_prop in H as [A1 A2], E as [B1 B2].
  rewrite (sql_eq_both _ _ _ A1 B1), (sql_eq_both _ _ _ A2 B2) in Hc. by rewrite orb_true_r in Hc.
Qed.

Lemma record_not_held r route key owner :
  is_Some (stored_response (record_state r)) ∨ (record_is route key r = true → same_text (ir_lock_owner r) (Some owner) = false) →
  record_held route key owner r = false.
Proof.
  unfold record_held. intros [[x Hx]|H].
  - unfold stored_response in Hx. cbn in Hx. case_bool_decide as E; [|done]. rewrite E. by rewrite andb_false_r.
  - destruct (record_is route key r); [|done]. rewrite H by done. apply andb_false_r.
Qed.

Lemma record_mark_ok r i route key owner f (Q : Prelude.result bus_error unit → bus_world → Prop) w :
  (∀ x, ir_id (f x) = ir_id x ∧ ir_route (f x) = ir_route x ∧ ir_key (f x) = ir_key x) →
  is_Some (stored_response (record_state r)) ∨ (record_is route key r = true → same_text (ir_lock_owner r) (Some owner) = false) →
  (∀ res w, (record_is route key r = true → ∃ e, res = Throw e) → Q res w) →
  safe record_table r (tables w) → in_records r i (update_one (update_records (record_held route key owner) f)) Q w.
Proof.
  intros Hf Hb HQ Hw. apply (mark_missed_ok record_table r (record_held route key owner) f); [|by apply record_not_held| |done].
  - intros x s. destruct (Hf x) as (H1 & H2 & H3). cbn. unfold idempotency_clashes, record_is. by rewrite H1, H2, H3.
  - intros res w' Hres. apply HQ. intros Hk. destruct res as [[]|e]; [|by exists e].
    destruct (Hres eq_refl) as (x & Hx & Hc). rewrite (record_held_key _ _ _ _ _ Hx Hc) in Hk. done.
Qed.

Lemma record_job_ok r j i w :
  record_bars r j → safe record_table r (tables w) → in_records r i (bus_program j) (fun res _ => record_answered r j res) w.
Proof.
  assert (∀ t d, safe record_table r d → safe record_table r (with_outbox t d)) as Hout by (intros t d; by apply record_elsewhere).
  assert (∀ s, (∀ d, idempotency (s d).2 = idempotency d) → uses (keeps_all (safe record_table r)) (update_one s)) as Hother.
  { intros s Hs. apply uses_update_one. intros d. apply record_elsewhere, Hs. }
  intros Hb Hw. destruct j as [o|ms keep|o|consumer messageId owner result at_|consumer messageId owner code|o|route key owner|route key owner].
  - by apply keeps_ok; [apply uses_publishing|..].
  - by apply keeps_ok; [apply uses_writing|..].
  - apply keeps_ok; [|done|done]. apply uses_bind; [|done]. split; [|done]. intros c env n d.
    exact (record_elsewhere r _ _ (inbox_attempt_elsewhere o c env n d)).
  - apply keeps_ok; [|done|done]. apply uses_bind; [|done]. apply uses_bind; [done|]. intros text. by apply Hother.
  - apply keeps_ok; [|done|done]. apply uses_bind; [by apply Hother|done].
  - cbn [bus_program]. apply ensures_bind. apply (attempt_ok record_table r (record_attempt o)); [| |done].
    + intros Hk. rewrite record_refused by done. apply record_refusal_no.
    + intros [x|e] w' Hx; [|by intros Hk]. cbn [ensures mret]. intros Hk a [= <-]. by rewrite (Hx Hk), record_refused.
  - apply ensures_bind, record_mark_ok; [done|done| |done].
    intros [[]|e] w' H; cbn; [|eauto]. intros Hk. by destruct (H Hk).
  - apply ensures_bind, record_mark_ok; [done|done| |done].
    intros [[]|e] w' H; cbn; [|eauto]. intros Hk. by destruct (H Hk).
Qed.

(** ** What every interleaving keeps *)

(** Any number of jobs that the row bars, from the given tables. *)
Definition barred_reachable (bars : bus_job → Prop) (d0 : bus_tables) :
    config bus_op bus_world {j | bars j} (Prelude.result bus_error bus_answer) → Prop :=
  reachable (@bus_perform _ _) (fun j => bus_program (proj1_sig j)) (bus_start d0).

Lemma barred_pool {R} (T : lease_table R) (r : R) bars (answered : bus_job → Prelude.result bus_error bus_answer → Prop) d0 c :
  (∀ j i w, bars j → safe T r (tables w) →
     ensures (@bus_perform _ _) (fun w => safe T r (tables w)) (fun _ _ _ => True) i (bus_program j) (fun res _ => answered j res) w) →
  safe T r d0 → barred_reachable bars d0 c →
  safe T r (tables c.2) ∧ ∀ i j Hj res, c.1 !! i = Some (Thread (exist _ j Hj) (Ret res)) → answered j res.
Proof.
  intros Hjob Hd Hc.
  assert (pool_ok (@bus_perform _ _) (fun w => safe T r (tables w)) (fun _ _ _ => True) (fun _ _ => True)
    (fun j _ res _ => answered (proj1_sig j) res) (bus_start d0) c) as Hpool.
  { eapply adequacy; [..|exact Hc]; [done| |done|done]. intros [j Hj] i w Hw _. by apply Hjob. }
  split; [apply Hpool|]. intros i j Hj res Hi. by apply (returned_post _ _ _ _ _ _ _ _ _ _ Hpool Hi).
Qed.

(** C15: Nobody passes the lease of an inbox message, and nobody repeats a completed one: from
    tables that hold a row which is completed, or whose lease runs and is another owner's for
    every job that is started on its message, in every interleaving with publishers, writers
    and the jobs on other messages and whatever the database refuses, the row stays as it is; a
    begin on its message answers an integrity conflict for another digest,
    that it is a duplicate if it is completed, that it is in progress if not, and never
    acquires; a completion or a failure of it throws. *)
Theorem inbox_lease_exclusive d0 r c :
  distinct inbox_clashes (inbox d0) = true → r ∈ inbox d0 → barred_reachable (inbox_bars r) d0 c →
  r ∈ inbox (tables c.2) ∧
  ∀ i j Hj res, c.1 !! i = Some (Thread (exist _ j Hj) (Ret res)) → inbox_answered r j res.
Proof.
  intros Hd Hr Hc. destruct (barred_pool inbox_table r (inbox_bars r) (inbox_answered r) d0 c (inbox_job_ok r) (conj Hd Hr) Hc)
    as [[_ Hr'] Hret]. by split.
Qed.

(** C14: A mutation is done once: from tables that hold an idempotency record with its whole
    response, or one whose lock runs and is another owner's for every job that is started on
    its key, in every interleaving with publishers, writers and the jobs on other keys and
    whatever the database refuses, the record stays as it is, whatever its expiry; a begin on its
    key with the same request answers the recorded reference, status and hash, or that it is in
    progress, one with another request a key conflict, and never acquires; a completion or a
    failure of it throws. *)
Theorem idempotent_replay d0 r c :
  distinct idempotency_clashes (idempotency d0) = true → r ∈ idempotency d0 → barred_reachable (record_bars r) d0 c →
  r ∈ idempotency (tables c.2) ∧
  ∀ i j Hj res, c.1 !! i = Some (Thread (exist _ j Hj) (Ret res)) → record_answered r j res.
Proof.
  intros Hd Hr Hc. destruct (barred_pool record_table r (record_bars r) (record_answered r) d0 c (record_job_ok r) (conj Hd Hr) Hc)
    as [[_ Hr'] Hret]. by split.
Qed.
End Tables.

(** ** Witnesses *)

Import DemoBus.

Module DemoLeases.

Definition kept_off : {j | inbox_bars begun j}.
Proof.
  exists (BeginInbox second_consumer). right. intros _. split; [reflexivity|]. split; [discriminate|].
  exists (datetime 60000). split; reflexivity.
Defined.

Definition retrying : {j | record_bars answered_record j} :=
  exist _ (BeginIdempotency retried_request) (or_introl (ex_intro _ ("run:7", 201, "h2") eq_refl)).

Definition consumed := ran up kept_off ([], bus_start consuming).
Definition repeated := ran up retrying ([], bus_start consuming).
End DemoLeases.

Lemma inbox_lease_exclusive_witness :
  DemoBus.begun ∈ inbox (tables DemoLeases.consumed.2) ∧
  inbox_answered DemoBus.begun (BeginInbox DemoBus.second_consumer) (Ok (InboxAnswer inbox_in_progress)).
Proof.
  destruct (inbox_lease_exclusive DemoBus.consuming DemoBus.begun DemoLeases.consumed) as [H1 H2].
  - reflexivity.
  - left.
  - exact (DemoBus.ran_job_steps DemoBus.up DemoLeases.kept_off ([], bus_start DemoBus.consuming)).
  - split; [exact H1|]. apply (H2 0%nat _ (proj2_sig DemoLeases.kept_off)). vm_compute. reflexivity.
Defined.

Lemma idempotent_replay_witness :
  DemoBus.answered_record ∈ idempotency (tables DemoLeases.repeated.2) ∧
  record_answered DemoBus.answered_record (BeginIdempotency DemoBus.retried_request)
    (Ok (IdempotencyAnswer (replay "run:7" 201 "h2"))).
Proof.
  destruct (idempotent_replay DemoBus.consuming DemoBus.answered_record DemoLeases.repeated) as [H1 H2].
  - reflexivity.
  - left.
  - exact (DemoBus.ran_job_steps DemoBus.up DemoLeases.retrying ([], bus_start DemoBus.consuming)).
  - split; [exact H1|]. apply (H2 0%nat _ (proj2_sig DemoLeases.retrying)). vm_compute. reflexivity.
Defined.
