(* ===== verification/LateRecording.v ===== *)
(** * Late recordings: the rules

    [lateRecording/corrections.ts], [lateRecording/eligibility.ts] and
    [backfill/normalizeRecordingUrl.ts]: the upload, the identity of a batch, which row may
    attach a recording, and the money of a correction. Nothing here reads a database. *)

From Stdlib Require Import Ascii.
From S2P Require Import Prelude JsText CanonicalJson Decimal UrlSafety.

Local Open Scope string_scope.
Local Open Scope list_scope.
#[global] Open Scope Z_scope.

(** ** Refusals *)

(** [LateRecordingError] by its code and status, and what the helpers throw. *)
Inductive late_error : Type :=
| LateRecordingError (code : string) (status : Z)
| LateThrown (e : js_error).

#[export] Instance late_error_eq_dec : EqDecision late_error.
Proof. solve_decision. Defined.

Definition invalid_request : late_error := LateRecordingError "INVALID_LATE_RECORDING_REQUEST" 400.

Definition MAX_LATE_RECORDING_ROWS : Z := 100.
Definition MAX_LATE_RECORDING_FILE_BYTES : Z := 256 * 1024.
Definition MAX_TASK_ID_LENGTH : Z := 191.
Definition MAX_URL_LENGTH : Z := 2048.

(** [/[\u0000-\u001f\u007f]/] *)
Definition CONTROL_CHARACTERS : string → bool := str_existsb (fun c => (code c <=? 31) || (code c =? 127)).

Inductive LateRecordingRejectionCode : Type :=
| TASK_ID_REQUIRED | TASK_ID_DUPLICATE | TASK_ID_TOO_LONG | RECORDING_URL_REQUIRED | RECORDING_URL_TOO_LONG
| URL_UNPARSEABLE | URL_NOT_HTTPS | URL_NOT_ALLOWLISTED
| TASK_NOT_FOUND | TASK_AMBIGUOUS | INVOICE_MISSING
| CALL_STATE_INELIGIBLE | RECORDING_ARTIFACT_MISSING | RECORDING_URL_ALREADY_PRESENT | AUDIT_ALREADY_COMPLETED
| RATE_CARD_UNAVAILABLE.

#[export] Instance rejection_code_eq_dec : EqDecision LateRecordingRejectionCode.
Proof. solve_decision. Defined.

Inductive row_outcome : Type :=
| row_accepted
| duplicate_replay
| row_rejected (code : LateRecordingRejectionCode).

#[export] Instance row_outcome_eq_dec : EqDecision row_outcome.
Proof. solve_decision. Defined.

Record LateRecordingRowDecision : Type := RowDecision { rd_rowNumber : Z; rd_outcome : row_outcome }.

#[export] Instance row_decision_eq_dec : EqDecision LateRecordingRowDecision.
Proof. solve_decision. Defined.

Inductive LateRecordingBatchStatus : Type := batch_accepted | batch_running | batch_completed | completed_with_failures.

#[export] Instance batch_status_eq_dec : EqDecision LateRecordingBatchStatus.
Proof. solve_decision. Defined.

Inductive LateRecordingItemState : Type := item_accepted | auditing | corrected | item_failed.

#[export] Instance item_state_eq_dec : EqDecision LateRecordingItemState.
Proof. solve_decision. Defined.

(** ** The uploaded file *)

(** The reader, with the field, the row and the rows read so far. *)
Fixpoint scan_csv (input : string) (quoted : bool) (field : string) (row : list string) (rows : list (list string))
    : result late_error (list (list string)) :=
  match input with
  | EmptyString =>
      if quoted then Throw (LateRecordingError "LATE_RECORDING_CSV_UNTERMINATED_QUOTE" 400)
      else if (0 <? len field) || negb (bool_decide (row = [])) then Ok (rows ++ [row ++ [trim field]])
      else Ok rows
  | String c rest =>
      if quoted then
        if Ascii.eqb c "034" then
          match rest with
          | String d rest' => if Ascii.eqb d "034" then scan_csv rest' true (field +:+ String "034" "") row rows
                              else scan_csv rest false field row rows
          | EmptyString => scan_csv rest false field row rows
          end
        else scan_csv rest true (field +:+ String c "") row rows
      else if Ascii.eqb c "034" && (len field =? 0) then scan_csv rest true field row rows
      else if Ascii.eqb c "," then scan_csv rest false "" (row ++ [trim field]) rows
      else if Ascii.eqb c "010" then scan_csv rest false "" [] (rows ++ [row ++ [trim field]])
      else if negb (Ascii.eqb c "013") then scan_csv rest false (field +:+ String c "") row rows
      else scan_csv rest false field row rows
  end.

Definition not_blank (values : list string) : bool := existsb (fun v => negb (String.eqb v "")) values.

Definition parseCsvGrid (input : string) : result late_error (list (list string)) :=
  rows ← scan_csv input false "" [] []; Ok (List.filter not_blank rows).

(** [replace(/^\uFEFF/, '')] *)
Definition drop_bom (s : string) : string :=
  match strip_prefix (bytes [239; 187; 191]) s with Some r => r | None => s end.

Record LateRecordingCsvRow : Type := CsvRow { rowNumber : Z; taskId : string; submittedUrl : string }.

(** [new Map(headers.map((header, position) => [header, position]))]: the last one wins. *)
Fixpoint header_index (headers : list string) (header : string) (position : nat) : option nat :=
  match headers with
  | [] => None
  | h :: headers =>
      match header_index headers header (S position) with
      | Some p => Some p
      | None => if String.eqb h header then Some position else None
      end
  end.

Definition cell (values : list string) (position : nat) : string := trim (default "" (values !! position)).

(** One row, with the task ids accepted before it. *)
Definition read_row (seen : list string) (rowNumber : Z) (taskId submittedUrl : string)
    : LateRecordingCsvRow + LateRecordingRejectionCode :=
  if String.eqb taskId "" then inr TASK_ID_REQUIRED
  else if (MAX_TASK_ID_LENGTH <? units taskId) || CONTROL_CHARACTERS taskId then inr TASK_ID_TOO_LONG
  else if bool_decide (taskId ∈ seen) then inr TASK_ID_DUPLICATE
  else if String.eqb submittedUrl "" then inr RECORDING_URL_REQUIRED
  else if (MAX_URL_LENGTH <? units submittedUrl) || CONTROL_CHARACTERS submittedUrl then inr RECORDING_URL_TOO_LONG
  else inl (CsvRow rowNumber taskId submittedUrl).

Fixpoint read_rows (task url : nat) (grid : list (list string)) (seen : list string) (rowNumber : Z)
    : list LateRecordingCsvRow * list (Z * LateRecordingRejectionCode) :=
  match grid with
  | [] => ([], [])
  | values :: grid =>
      match read_row seen rowNumber (cell values task) (cell values url) with
      | inl r => let '(rows, rejections) := read_rows task url grid (seen ++ [taskId r]) (rowNumber + 1) in
                 (r :: rows, rejections)
      | inr code => let '(rows, rejections) := read_rows task url grid seen (rowNumber + 1) in
                    (rows, (rowNumber, code) :: rejections)
      end
  end.

Definition parseLateRecordingCsv (file : string)
    : result late_error (list LateRecordingCsvRow * list (Z * LateRecordingRejectionCode)) :=
  throw_if (MAX_LATE_RECORDING_FILE_BYTES <? len file) (LateRecordingError "LATE_RECORDING_FILE_TOO_LARGE" 413) ≫= fun _ =>
  grid ← parseCsvGrid (drop_bom file);
  match grid with
  | [] => Throw (LateRecordingError "LATE_RECORDING_CSV_EMPTY" 400)
  | headers :: grid =>
      match header_index headers "Task ID" 0, header_index headers "Recording URL" 0 with
      | Some task, Some url =>
          throw_if (MAX_LATE_RECORDING_ROWS <? Z.of_nat (length grid)) (LateRecordingError "LATE_RECORDING_BATCH_TOO_LARGE" 400)
            ≫= fun _ =>
          throw_if (bool_decide (grid = [])) (LateRecordingError "LATE_RECORDING_CSV_EMPTY" 400) ≫= fun _ =>
          Ok (read_rows task url grid [] 2)
      | _, _ => Throw (LateRecordingError "LATE_RECORDING_CSV_HEADERS_INVALID" 400)
      end
  end.

(** ** URLs *)

(** [new URL(raw)]: its protocol, host name, origin, path and [searchParams.get('url')]. *)
Record parsed_url : Type := ParsedUrl {
  u_protocol : string;
  u_hostname : string;
  u_origin : string;
  u_pathname : string;
  u_url_param : option string;
}.

Class UrlReader : Type := { readUrl : string → option parsed_url }.

Inductive normalized : Type :=
| s3Url (url : string)
| too_many_wrappers | unparseable | not_https | empty_path | unrecognized_host.

Section Urls.
Context `{UrlReader}.

(** A URL that wraps no other. *)
Definition normalize_plain (u : parsed_url) (allowedHosts : list string) : normalized :=
  if existsb (allowedBy (toLowerCase (u_hostname u))) allowedHosts then
    if negb (String.eqb (u_protocol u) "https:") then not_https
    else if String.eqb (u_pathname u) "" || String.eqb (u_pathname u) "/" then empty_path
    else s3Url (u_origin u +:+ u_pathname u)
  else unrecognized_host.

(** [depth > 2] is the end of the fuel. *)
Fixpoint normalize_wrapped (fuel : nat) (raw : string) (allowedHosts : list string) : normalized :=
  match fuel with
  | O => too_many_wrappers
  | S fuel =>
      match readUrl raw with
      | None => unparseable
      | Some u =>
          match u_url_param u with
          | Some inner => if String.eqb inner "" then normalize_plain u allowedHosts
                          else normalize_wrapped fuel inner allowedHosts
          | None => normalize_plain u allowedHosts
          end
      end
  end.

Definition normalizeRecordingUrl (raw : string) (allowedHosts : list string) : normalized :=
  normalize_wrapped 3 raw allowedHosts.

Definition canonicalizeLateRecordingUrl (submitted : string) (allowedHosts : list string)
    : string + LateRecordingRejectionCode :=
  match normalizeRecordingUrl submitted allowedHosts with
  | s3Url url => if String.eqb url "" then inr URL_NOT_ALLOWLISTED else inl url
  | not_https => inr URL_NOT_HTTPS
  | unparseable | empty_path | too_many_wrappers => inr URL_UNPARSEABLE
  | unrecognized_host => inr URL_NOT_ALLOWLISTED
  end.
End Urls.

(** ** Identity of an upload *)

Section Digest.
Context `{Platform}.

Definition canonicalUrlSha256 (canonicalUrl : string) : string := sha256Hex canonicalUrl.

(** A task id and the digest of its URL. *)
Definition digest_item (i : string * string) : json :=
  JObj [("taskId", JStr i.1); ("canonicalUrlSha256", JStr i.2)].

Definition task_le (a b : string * string) : bool := localeLe a.1 b.1.

Definition lateRecordingBatchDigest (billMonth : string) (items : list (string * string)) : result js_error string :=
  text ← canonicalJson (JObj [("billMonth", JStr billMonth); ("items", JArr (map digest_item (sort_by task_le items)))]);
  Ok (sha256Hex text).
End Digest.

(** [/^[A-Z][A-Z0-9_]{2,63}$/] *)
Definition is_upper (c : ascii) : bool := (65 <=? code c) && (code c <=? 90).
Definition FAILURE_CODE (s : string) : bool :=
  match s with
  | String c r => is_upper c && (2 <=? len r) && (len r <=? 63) &&
                  str_forallb (fun c => is_upper c || is_digit c || (code c =? 95)) r
  | EmptyString => false
  end.

(** Of [unknown]: a text, or anything else. *)
Definition safeLateRecordingFailureCode (value : option string) : string :=
  match value with
  | Some s => if FAILURE_CODE s then s else "LATE_RECORDING_ITEM_FAILED"
  | None => "LATE_RECORDING_ITEM_FAILED"
  end.

(** [/^\d{4}-(?:0[1-9]|1[0-2])$/] *)
Definition BILL_MONTH (s : string) : bool :=
  match s with
  | String a (String b (String c (String d (String e (String f (String g EmptyString)))))) =>
      forallb is_digit [a; b; c; d] && Ascii.eqb e "-" &&
      ((Ascii.eqb f "0" && (49 <=? code g) && (code g <=? 57)) ||
       (Ascii.eqb f "1" && (48 <=? code g) && (code g <=? 50)))
  | _ => false
  end.

(** [/^[A-Za-z0-9._:-]{16,80}$/] *)
Definition IDEMPOTENCY_KEY (s : string) : bool :=
  (16 <=? len s) && (len s <=? 80) &&
  str_forallb (fun c => is_upper c || ((97 <=? code c) && (code c <=? 122)) || is_digit c ||
                        existsb (Ascii.eqb c) ["."; "_"; ":"; "-"]%char) s.

(** Its month and its key: texts, or something else. *)
Definition parseLateRecordingSubmission (month idempotencyKey : option string) : result late_error (string * string) :=
  let billMonth := match month with Some m => trim m | None => "" end in
  throw_if (negb (BILL_MONTH billMonth)) invalid_request ≫= fun _ =>
  let key := default "" idempotencyKey in
  throw_if (negb (IDEMPOTENCY_KEY key)) invalid_request ≫= fun _ =>
  Ok (billMonth, key).

(** ** Money at eight places *)

Definition not_a_decimal : late_error := LateThrown (TypeError "late recording amount is not a decimal").
Definition totals_not_decimals : late_error := LateThrown (TypeError "late recording totals must be decimals").

Definition fixed8_of (scaled : Z) : string :=
  let absolute := pad_start 9 (show_nat (Z.abs scaled)) in
  (if scaled <? 0 then "-" else "") +:+ slice_but_last 8 absolute +:+ "." +:+ slice_last 8 absolute.

Definition fixed8 (value : string) : result late_error string :=
  match toScaled (Some value) with None => Throw not_a_decimal | Some scaled => Ok (fixed8_of scaled) end.

Fixpoint sum_scaled (values : list string) (total : Z) : result late_error Z :=
  match values with
  | [] => Ok total
  | value :: values =>
      match toScaled (Some value) with None => Throw not_a_decimal | Some scaled => sum_scaled values (total + scaled) end
  end.

Definition sumFixed8 (values : list string) : result late_error string :=
  total ← sum_scaled values 0; fixed8 (fromScaled total).

Record LateRecordingCorrectionTotals : Type := CorrectionTotals {
  ct_previousVerifiedTotal : string;
  ct_revisedVerifiedTotal : string;
  ct_deltaAmount : string;
  ct_correctedCount : Z;
}.

Definition two_totals (previous revised : string) : result late_error (Z * Z) :=
  match toScaled (Some previous), toScaled (Some revised) with
  | Some p, Some r => Ok (p, r)
  | _, _ => Throw totals_not_decimals
  end.

Definition lateRecordingCorrectionTotals (previousVerifiedTotal revisedVerifiedTotal : string) (correctedCount : Z)
    : result late_error LateRecordingCorrectionTotals :=
  throw_if (correctedCount <? 0) (LateThrown (TypeError "correctedCount must be a non-negative integer")) ≫= fun _ =>
  scaled ← two_totals previousVerifiedTotal revisedVerifiedTotal;
  previous ← fixed8 previousVerifiedTotal;
  revised ← fixed8 revisedVerifiedTotal;
  delta ← fixed8 (fromScaled (scaled.2 - scaled.1));
  Ok (CorrectionTotals previous revised delta correctedCount).

Inductive settlementAction : Type := proposed_finance_adjustment | no_settlement_recorded.

Record FinanceAdjustment : Type := FinanceProposal {
  fa_deltaAmount : string;
  fa_revisedVariance : option string;
  fa_settlementAction : settlementAction;
}.

Definition proposedFinanceAdjustment (previousVerifiedTotal revisedVerifiedTotal : string) (actualPaidAmount : option string)
    : result late_error FinanceAdjustment :=
  scaled ← two_totals previousVerifiedTotal revisedVerifiedTotal;
  delta ← fixed8 (fromScaled (scaled.2 - scaled.1));
  match toScaled (Some (default "" actualPaidAmount)) with
  | None => Ok (FinanceProposal delta None no_settlement_recorded)
  | Some paid =>
      variance ← fixed8 (fromScaled (paid - scaled.2));
      Ok (FinanceProposal delta (Some variance) proposed_finance_adjustment)
  end.

(** ** Which row may attach *)

Record LateRecordingCallFacts : Type := CallFacts {
  cf_callId : string;
  cf_artifactId : option string;
  cf_existingUrlSha256 : option string;
  cf_evidenceHashRecorded : bool;
  cf_invoicePresent : bool;
  cf_auditCompleted : bool;
  cf_liveCalculationId : option string;
  cf_liveCalculationBasis : option string;
  cf_liveTotalAmount : option string;
}.

(** An accepted row with its call, artifact, amount and calculation. *)
Inductive LateRecordingRowOutcome : Type :=
| AcceptRow (callId artifactId : string) (previousAmount supersededCalculationId : option string)
| ReplayRow
| RejectRow (code : LateRecordingRejectionCode).

Definition decision_of (o : LateRecordingRowOutcome) : row_outcome :=
  match o with AcceptRow _ _ _ _ => row_accepted | ReplayRow => duplicate_replay | RejectRow code => row_rejected code end.

Definition decideLateRecordingRow (matches : list LateRecordingCallFacts) (canonicalUrlSha256 : string) (rateCardAvailable : bool)
    : LateRecordingRowOutcome :=
  if negb rateCardAvailable then RejectRow RATE_CARD_UNAVAILABLE
  else match remove_dups (map cf_callId matches), matches with
  | [], _ | _, [] => RejectRow TASK_NOT_FOUND
  | _ :: _ :: _, _ => RejectRow TASK_AMBIGUOUS
  | [_], call :: _ =>
      if negb (cf_invoicePresent call) then RejectRow INVOICE_MISSING
      else if cf_auditCompleted call then RejectRow AUDIT_ALREADY_COMPLETED
      else if match cf_liveCalculationBasis call with Some b => negb (String.eqb b "no_recording_zero") | None => false end
           then RejectRow CALL_STATE_INELIGIBLE
      else match cf_artifactId call with
      | None => RejectRow RECORDING_ARTIFACT_MISSING
      | Some artifactId =>
          if String.eqb artifactId "" then RejectRow RECORDING_ARTIFACT_MISSING
          else match cf_existingUrlSha256 call with
          | Some existing => if String.eqb existing canonicalUrlSha256 then ReplayRow else RejectRow RECORDING_URL_ALREADY_PRESENT
          | None =>
              if cf_evidenceHashRecorded call then RejectRow RECORDING_URL_ALREADY_PRESENT
              else AcceptRow (cf_callId call) artifactId (cf_liveTotalAmount call) (cf_liveCalculationId call)
          end
      end
  end.

Record LateRecordingPreview : Type := Preview {
  pv_decisions : list LateRecordingRowDecision;
  pv_submittedCount : Z;
  pv_acceptedCount : Z;
  pv_duplicateCount : Z;
  pv_rejectedCount : Z;
  pv_rejectionCount : LateRecordingRejectionCode → Z;
}.

Definition count_outcomes (p : row_outcome → bool) (decisions : list LateRecordingRowDecision) : Z :=
  Z.of_nat (length (List.filter (fun d => p (rd_outcome d)) decisions)).

Definition summarizeLateRecordingDecisions (decisions : list LateRecordingRowDecision) (submittedCount : Z) : LateRecordingPreview := {|
  pv_decisions := sort_by (fun a b => rd_rowNumber a <=? rd_rowNumber b) decisions;
  pv_submittedCount := submittedCount;
  pv_acceptedCount := count_outcomes (fun o => bool_decide (o = row_accepted)) decisions;
  pv_duplicateCount := count_outcomes (fun o => bool_decide (o = duplicate_replay)) decisions;
  pv_rejectedCount := count_outcomes (fun o => match o with row_rejected _ => true | _ => false end) decisions;
  pv_rejectionCount := fun code => count_outcomes (fun o => bool_decide (o = row_rejected code)) decisions;
|}.

Inductive LateRecordingOutcome : Type := audited_projection | accepted_as_billed_unverified | in_flight.

#[export] Instance late_outcome_eq_dec : EqDecision LateRecordingOutcome.
Proof. solve_decision. Defined.

Definition decideLateRecordingOutcome (auditCompleted auditExhausted : bool) : LateRecordingOutcome :=
  if auditCompleted then audited_projection else if auditExhausted then accepted_as_billed_unverified else in_flight.
