(* ===== verification/LateUpload.v ===== *)
(** * Late recordings: what an upload says

    The reader of the uploaded file undoes the quoting of RFC 4180, accounts for every row, and the
    digest of an upload identifies it. *)

From Stdlib Require Import Ascii.
From S2P Require Import Prelude JsText CanonicalJson Decimal LateRecording.

Local Open Scope string_scope.
Local Open Scope list_scope.
#[global] Open Scope Z_scope.

(** ** Quoted files *)

Definition quote_char : string := String "034" "".

Fixpoint double_quotes (s : string) : string :=
  match s with
  | EmptyString => ""
  | String c s => if Ascii.eqb c "034" then String c (String c (double_quotes s)) else String c (double_quotes s)
  end.

Definition csv_field (s : string) : string := quote_char +:+ double_quotes s +:+ quote_char.

Fixpoint csv_row (fields : list string) : string :=
  match fields with
  | [] => ""
  | [f] => csv_field f +:+ String "010" ""
  | f :: fields => csv_field f +:+ String "," (csv_row fields)
  end.

Definition csv_file (rows : list (list string)) : string := foldr (fun r s => csv_row r +:+ s) "" rows.

(** Text that does not continue a quoted field. *)
Definition ends_field (s : string) : Prop :=
  match s with String c _ => Ascii.eqb c "034" = false | EmptyString => True end.

Lemma scan_quoted f rest acc row rows :
  ends_field rest →
  scan_csv (double_quotes f +:+ quote_char +:+ rest) true acc row rows = scan_csv rest false (acc +:+ f) row rows.
Proof.
  intros Hr. revert acc. induction f as [|c f IH]; intros acc.
  - rewrite append_nil_r. cbn [double_quotes]. change ("" +:+ quote_char +:+ rest) with (String "034" rest).
    cbn [scan_csv]. rewrite Ascii.eqb_refl. destruct rest as [|d rest]; [done|]. unfold ends_field in Hr. by rewrite Hr.
  - cbn [double_quotes]. destruct (Ascii.eqb c "034") eqn:Ec.
    + apply Ascii.eqb_eq in Ec as ->. rewrite !append_cons. cbn [scan_csv]. rewrite !Ascii.eqb_refl.
      rewrite IH, append_assoc'. done.
    + rewrite append_cons. cbn [scan_csv]. rewrite Ec, IH, append_assoc'. done.
Qed.

Lemma scan_field f rest row rows :
  ends_field rest → scan_csv (csv_field f +:+ rest) false "" row rows = scan_csv rest false f row rows.
Proof.
  intros Hr. unfold csv_field. rewrite !append_assoc'. change (quote_char +:+ ?s) with (String "034" s) at 1.
  cbn [scan_csv]. rewrite Ascii.eqb_refl. change (len "" =? 0) with true. cbn [andb].
  rewrite scan_quoted by done. by rewrite append_nil_l.
Qed.

Lemma scan_comma f rest row rows :
  scan_csv (String "," rest) false f row rows = scan_csv rest false "" (row ++ [trim f]) rows.
Proof. reflexivity. Qed.

Lemma scan_newline f rest row rows :
  scan_csv (String "010" rest) false f row rows = scan_csv rest false "" [] (rows ++ [row ++ [trim f]]).
Proof. reflexivity. Qed.

Lemma scan_row fields rest row rows :
  fields ≠ [] →
  scan_csv (csv_row fields +:+ rest) false "" row rows = scan_csv rest false "" [] (rows ++ [row ++ map trim fields]).
Proof.
  revert row. induction fields as [|f [|g fields] IH]; intros row Hne; [done| |].
  - cbn [csv_row]. rewrite append_assoc', scan_field by done. apply scan_newline.
  - change (csv_row (f :: g :: fields)) with (csv_field f +:+ String "," (csv_row (g :: fields))).
    rewrite append_assoc', append_cons, scan_field, scan_comma, IH by done.
    cbn [map]. by rewrite <- (app_assoc row).
Qed.

Lemma scan_file rows done_ :
  Forall (fun r => r ≠ []) rows → scan_csv (csv_file rows) false "" [] done_ = Ok (done_ ++ map (map trim) rows).
Proof.
  revert done_. induction rows as [|r rows IH]; intros done_ Hne; cbn [csv_file foldr map].
  - by rewrite app_nil_r.
  - apply Forall_cons in Hne as [Hr Hne]. fold (csv_file rows).
    rewrite scan_row, IH, <- app_assoc by done. done.
Qed.

(** A row of the upload that is not refused. *)
Definition readable (r : string * string) : Prop :=
  r.1 ≠ "" ∧ trim r.1 = r.1 ∧ units r.1 ≤ MAX_TASK_ID_LENGTH ∧ CONTROL_CHARACTERS r.1 = false ∧
  r.2 ≠ "" ∧ trim r.2 = r.2 ∧ units r.2 ≤ MAX_URL_LENGTH ∧ CONTROL_CHARACTERS r.2 = false.

Definition pair_row (r : string * string) : list string := [r.1; r.2].

Fixpoint numbered (n : Z) (rows : list (string * string)) : list LateRecordingCsvRow :=
  match rows with [] => [] | r :: rows => CsvRow n r.1 r.2 :: numbered (n + 1) rows end.

Lemma read_row_readable seen n r :
  readable r → r.1 ∉ seen → read_row seen n r.1 r.2 = inl (CsvRow n r.1 r.2).
Proof.
  intros (H1 & _ & H3 & H4 & H5 & _ & H7 & H8) Hs. unfold read_row.
  apply String.eqb_neq in H1, H5. apply Z.ltb_ge in H3, H7.
  by rewrite H1, H3, H4, bool_decide_eq_false_2, H5, H7, H8.
Qed.

Lemma read_rows_readable rows seen n :
  Forall readable rows → NoDup (seen ++ map fst rows) →
  read_rows 0 1 (map pair_row rows) seen n = (numbered n rows, []).
Proof.
  revert seen n. induction rows as [|r rows IH]; intros seen n Hr Hd; [done|].
  apply Forall_cons in Hr as [Hr Hrs]. cbn [map read_rows numbered].
  assert (cell (pair_row r) 0 = r.1 ∧ cell (pair_row r) 1 = r.2) as [-> ->].
  { destruct Hr as (_ & H2 & _ & _ & _ & H6 & _). split; [exact H2|exact H6]. }
  rewrite read_row_readable; [|done|].
  - cbn [taskId]. rewrite IH; [done|done|]. by rewrite <- app_assoc.
  - apply NoDup_app in Hd as (_ & Hd & _). intros Hin. apply (Hd _ Hin). left.
Qed.

Definition byte_order_mark : string := bytes [239; 187; 191].

Definition headers : string * string := ("Task ID", "Recording URL").

Lemma grid_of_file rows :
  Forall readable rows →
  parseCsvGrid (csv_file (map pair_row (headers :: rows))) = Ok (map pair_row (headers :: rows)).
Proof.
  intros Hr. unfold parseCsvGrid. rewrite scan_file by (apply Forall_forall; intros x (r & -> & _)%list_elem_of_fmap; done).
  cbn [app mbind result_bind]. f_equal.
  assert (Forall (fun r => trim r.1 = r.1 ∧ trim r.2 = r.2 ∧ r.1 ≠ "") (headers :: rows)) as Ht.
  { constructor; [done|]. eapply Forall_impl; [exact Hr|]. unfold readable. naive_solver. }
  induction Ht as [|r l (H1 & H2 & H3) _ IH]; [done|]. cbn [map List.filter].
  unfold pair_row at 1. cbn [map]. rewrite H1, H2. cbn [not_blank existsb].
  apply String.eqb_neq in H3. rewrite H3. cbn. by rewrite IH, H1, H2.
Qed.

Lemma drop_mark s : drop_bom (byte_order_mark +:+ s) = s.
Proof. reflexivity. Qed.

Lemma drop_no_mark rows : drop_bom (csv_file (map pair_row (headers :: rows))) = csv_file (map pair_row (headers :: rows)).
Proof. reflexivity. Qed.

(** C39: The upload reads back: a file of quoted fields under the two headers, with or without a byte
    order mark, is read as its rows in order, numbered as the lines of a spreadsheet, whatever commas
    and quotes the task ids hold, when it keeps the bounds and repeats no task id. *)
Theorem upload_reads_back (rows : list (string * string)) (mark : bool) :
  let file := (if mark then byte_order_mark else "") +:+ csv_file (map pair_row (headers :: rows)) in
  rows ≠ [] → Z.of_nat (length rows) ≤ MAX_LATE_RECORDING_ROWS → len file ≤ MAX_LATE_RECORDING_FILE_BYTES →
  Forall readable rows → NoDup (map fst rows) →
  parseLateRecordingCsv file = Ok (numbered 2 rows, []).
Proof.
  intros file Hne Hn Hl Hr Hd. unfold parseLateRecordingCsv.
  apply Z.ltb_ge in Hl. rewrite Hl. cbn [throw_if mbind result_bind].
  assert (drop_bom file = csv_file (map pair_row (headers :: rows))) as -> by (unfold file; destruct mark; [apply drop_mark|apply drop_no_mark]).
  rewrite grid_of_file by done. cbn [mbind result_bind map pair_row].
  change (header_index _ "Task ID" 0) with (Some 0%nat). change (header_index _ "Recording URL" 0) with (Some 1%nat).
  cbv iota beta. rewrite length_map. apply Z.ltb_ge in Hn. rewrite Hn. cbn [throw_if mbind result_bind].
  rewrite bool_decide_eq_false_2 by (by destruct rows). cbn [throw_if mbind result_bind].
  by rewrite read_rows_readable.
Qed.

Lemma upload_reads_back_witness :
  parseLateRecordingCsv (csv_file (map pair_row [headers; (("call " +:+ quote_char +:+ "7" +:+ quote_char +:+ ", Kochi"), "https://b.s3.amazonaws.com/a.wav")])) =
  Ok ([CsvRow 2 ("call " +:+ quote_char +:+ "7" +:+ quote_char +:+ ", Kochi") "https://b.s3.amazonaws.com/a.wav"], []).
Proof.
  apply (upload_reads_back [(("call " +:+ quote_char +:+ "7" +:+ quote_char +:+ ", Kochi"), "https://b.s3.amazonaws.com/a.wav")] false); [done|done| | |].
  - by vm_compute.
  - repeat constructor; try done; by vm_compute.
  - vm_compute. repeat constructor. by intros ?%elem_of_nil.
Defined.

(** ** Every row of a file *)

(** The row numbers follow the rows that are not blank, not the lines: a blank line between two rows
    moves the later ones up. *)
Example blank_line_shifts_numbers :
  let q := quote_char in let nl := String "010" "" in
  parseLateRecordingCsv ("Task ID,Recording URL" +:+ nl +:+ nl +:+ "T-1,https://b/a.wav" +:+ nl) =
  Ok ([CsvRow 2 "T-1" "https://b/a.wav"], []).
Proof. by vm_compute. Qed.

Lemma read_rows_accounted task url grid seen n rows rejections :
  read_rows task url grid seen n = (rows, rejections) →
  map rowNumber rows ++ map fst rejections ≡ₚ seqZ n (Z.of_nat (length grid)) ∧
  (NoDup seen → NoDup (seen ++ map taskId rows)) ∧
  Forall (fun r => taskId r ≠ "" ∧ units (taskId r) ≤ MAX_TASK_ID_LENGTH ∧ CONTROL_CHARACTERS (taskId r) = false ∧
                   submittedUrl r ≠ "" ∧ units (submittedUrl r) ≤ MAX_URL_LENGTH ∧ CONTROL_CHARACTERS (submittedUrl r) = false) rows.
Proof.
  revert seen n rows rejections. induction grid as [|values grid IH]; intros seen n rows rejections H.
  - injection H as <- <-. split_and!; [done| |constructor]. by rewrite app_nil_r.
  - cbn [read_rows] in H. cbn [length].
    rewrite Nat2Z.inj_succ, <- Z.add_1_l, seqZ_cons by lia. replace (Z.pred (1 + Z.of_nat (length grid))) with (Z.of_nat (length grid)) by lia.
    destruct (read_row seen n (cell values task) (cell values url)) as [r|code] eqn:Er.
    + destruct (read_rows task url grid (seen ++ [taskId r]) (n + 1)) as [rows' rejections'] eqn:E.
      injection H as <- <-. apply IH in E as (H1 & H2 & H3). cbn [map app].
      unfold read_row in Er. repeat case_match; try done. injection Er as <-. cbn [rowNumber taskId submittedUrl] in *.
      to_prop. split_and!.
      * by rewrite <- Z.add_1_r, <- H1.
      * intros Hs. rewrite <- app_assoc in H2. apply H2, NoDup_app. split_and!; [done| |apply NoDup_singleton].
        intros x Hx ->%list_elem_of_singleton. done.
      * constructor; [|done]. cbn. split_and!; try done; by apply String.eqb_neq.
    + destruct (read_rows task url grid seen (n + 1)) as [rows' rejections'] eqn:E.
      injection H as <- <-. apply IH in E as (H1 & H2 & H3). cbn [map]. split_and!; [|done|done].
      rewrite <- Permutation_middle. by rewrite <- Z.add_1_r, <- H1.
Qed.

(** ** The identity of an upload *)

Section Digest.
Context `{P : Platform, !PlatformLaws P}.

Definition digest_value (m : string) (items : list (string * string)) : json :=
  JObj [("billMonth", JStr m); ("items", JArr (map digest_item (sort_by task_le items)))].

Lemma digest_is_sha256 m items : lateRecordingBatchDigest m items = canonicalJsonSha256 (digest_value m items).
Proof. reflexivity. Qed.

Lemma digest_finite m items : finite (digest_value m items) = true.
Proof.
  cbn. rewrite andb_true_r. apply forallb_Forall, Forall_forall. by intros x (i & -> & _)%list_elem_of_fmap.
Qed.

Lemma upload_digest_total m items : ∃ h, lateRecordingBatchDigest m items = Ok h.
Proof. rewrite digest_is_sha256, canonicalJsonSha256_ok by apply digest_finite. by eexists. Qed.

Lemma digest_item_norm l l' : map norm (map digest_item l) = map norm (map digest_item l') → l = l'.
Proof.
  revert l'. induction l as [|[a b] l IH]; intros [|[a' b'] l'] H; try done.
  cbn in H. injection H as H1 H2 H. f_equal; [congruence|by apply IH].
Qed.

Lemma digest_value_inj m m' items items' : digest_value m items ≡ digest_value m' items' → m = m' ∧ items ≡ₚ items'.
Proof.
  unfold equiv, json_equiv. intros H. cbn in H. injection H as -> H. split; [done|].
  apply digest_item_norm in H. by rewrite <- (sort_by_perm task_le items), H, sort_by_perm.
Qed.

(** The digest of an upload names it: it always exists; uploads of the same rows for the same month in
    any order have the same digest, unless the collation of the host ties two of their task ids; and two uploads
    of one digest are for the same month and of the same tasks and URL digests, unless SHA-256 collided. *)
Theorem batch_digest_identifies (m m' : string) (items items' : list (string * string)) :
  ∃ h h', lateRecordingBatchDigest m items = Ok h ∧ lateRecordingBatchDigest m' items' = Ok h' ∧
    (m = m' → items ≡ₚ items' →
     (∀ x y, x ∈ items → y ∈ items → task_le x y = true → task_le y x = true → x = y) → h = h') ∧
    (h = h' → (m = m' ∧ items ≡ₚ items') ∨
              ∃ s t, s ≠ t ∧ sha256Hex s = sha256Hex t).
Proof.
  destruct (upload_digest_total m items) as [h Hh], (upload_digest_total m' items') as [h' Hh']. exists h, h'.
  split_and!; [done|done| |].
  - intros <- Hp Ha. unfold lateRecordingBatchDigest in *.
    rewrite (sort_by_perm_eq task_le) with (l2 := items') in Hh; [congruence|..|done|done].
    + intros x y. apply localeLe_total.
    + intros x y z. apply localeLe_trans.
  - intros <-. rewrite digest_is_sha256 in Hh, Hh'.
    destruct (digest_identifies _ _ h (digest_finite m items) (digest_finite m' items') Hh Hh') as [E|[E1 E2]].
    + left. by apply digest_value_inj.
    + right. eauto.
Qed.
End Digest.

(** ** Money *)

Lemma toScaled_fixed8_magnitude n :
  0 ≤ n →
  let t := slice_but_last 8 (pad_start 9 (show_nat n)) +:+ "." +:+ slice_last 8 (pad_start 9 (show_nat n)) in
  toScaled (Some t) = Some n ∧ all_visible t = true ∧ match t with String c _ => is_digit c = true | EmptyString => False end.
Proof.
  intros Hn. destruct (scaled_digits_value n Hn) as (Hi & Hne & Hf & Hl & Hv). change (SCALE_DIGITS + 1)%nat with 9%nat in *.
  change SCALE_DIGITS with 8%nat in *. cbn zeta in *. set (abs := pad_start _ _) in *.
  set (i := slice_but_last _ abs) in *. set (f := slice_last _ abs) in *. clearbody i f.
  assert (str_take SCALE_DIGITS (f +:+ zeros SCALE_DIGITS) = f) as Ht by by apply str_take_exact.
  split_and!.
  - rewrite toScaled_unsigned; [by rewrite Ht, Hv|done..|by destruct f].
  - rewrite !all_visible_append, (all_digits_visible i), (all_digits_visible f); done.
  - destruct i as [|c i]; [done|]. cbn. cbn in Hi. by apply andb_true_iff in Hi as [? _].
Qed.

(** The text of an amount at eight places denotes it. *)
Lemma toScaled_fixed8_of v : toScaled (Some (fixed8_of v)) = Some v.
Proof.
  unfold fixed8_of. destruct (Z.ltb_spec v 0) as [Hv|Hv].
  - destruct (toScaled_fixed8_magnitude (Z.abs v)) as (H1 & H2 & H3); [lia|].
    rewrite (toScaled_minus _ _ H1 H2 H3). f_equal. lia.
  - rewrite append_nil_l. destruct (toScaled_fixed8_magnitude (Z.abs v)) as (H1 & _); [lia|].
    rewrite H1. f_equal. lia.
Qed.

Lemma fixed8_of_inj v w : fixed8_of v = fixed8_of w → v = w.
Proof. intros E. pose proof (toScaled_fixed8_of v) as H. rewrite E, toScaled_fixed8_of in H. congruence. Qed.

Lemma fixed8_spec s t : fixed8 s = Ok t ↔ ∃ v, toScaled (Some s) = Some v ∧ t = fixed8_of v.
Proof. unfold fixed8. destruct (toScaled (Some s)) as [v|]; [|naive_solver]. split; [intros [= <-]; eauto|by intros (w & [= <-] & ->)]. Qed.

Lemma fixed8_of_fixed8_of v : fixed8 (fixed8_of v) = Ok (fixed8_of v).
Proof. apply fixed8_spec. exists v. by rewrite toScaled_fixed8_of. Qed.

Lemma fixed8_fromScaled v : fixed8 (fromScaled v) = Ok (fixed8_of v).
Proof. apply fixed8_spec. exists v. by rewrite toScaled_fromScaled. Qed.

(** The totals of a correction are exact, whatever their sign. *)
Lemma correction_totals_exact p r count totals :
  lateRecordingCorrectionTotals p r count = Ok totals ↔
  ∃ vp vr, toScaled (Some p) = Some vp ∧ toScaled (Some r) = Some vr ∧ 0 ≤ count ∧
    totals = CorrectionTotals (fixed8_of vp) (fixed8_of vr) (fixed8_of (vr - vp)) count.
Proof.
  unfold lateRecordingCorrectionTotals, two_totals. destruct (Z.ltb_spec count 0) as [Hc|Hc]; cbn [throw_if mbind result_bind].
  { split; [done|]. intros (? & ? & _ & _ & ? & _). lia. }
  destruct (toScaled (Some p)) as [vp|] eqn:Ep, (toScaled (Some r)) as [vr|] eqn:Er; cbn [mbind result_bind]; try naive_solver.
  rewrite (proj2 (fixed8_spec p (fixed8_of vp))) by eauto. rewrite (proj2 (fixed8_spec r (fixed8_of vr))) by eauto.
  cbn [mbind result_bind fst snd]. rewrite fixed8_fromScaled. cbn [mbind result_bind]. split.
  - intros [= <-]. eauto 6.
  - by intros (? & ? & [= <-] & [= <-] & _ & ->).
Qed.

Lemma finance_adjustment_exact p r paid vp vr :
  toScaled (Some p) = Some vp → toScaled (Some r) = Some vr →
  proposedFinanceAdjustment p r paid =
    Ok match toScaled (Some (default "" paid)) with
       | None => FinanceProposal (fixed8_of (vr - vp)) None no_settlement_recorded
       | Some v => FinanceProposal (fixed8_of (vr - vp)) (Some (fixed8_of (v - vr))) proposed_finance_adjustment
       end.
Proof.
  intros Hp Hr. unfold proposedFinanceAdjustment, two_totals. rewrite Hp, Hr. cbn [mbind result_bind fst snd].
  rewrite fixed8_fromScaled. cbn [mbind result_bind]. destruct (toScaled (Some (default "" paid))) as [v|]; [|done].
  by rewrite fixed8_fromScaled.
Qed.

(** ** Which row attaches *)

(** A row attaches only to the one call it names, under an invoice, not audited, whose recording has
    neither a URL nor evidence, and whose live charge, if it has one, is the zero of a call without recording. *)
Lemma decide_accepts matches url available callId artifactId amount calculation :
  decideLateRecordingRow matches url available = AcceptRow callId artifactId amount calculation ↔
  available = true ∧ ∃ call rest, matches = call :: rest ∧ remove_dups (map cf_callId matches) = [callId] ∧
    cf_callId call = callId ∧ cf_invoicePresent call = true ∧ cf_auditCompleted call = false ∧
    (∀ b, cf_liveCalculationBasis call = Some b → b = "no_recording_zero") ∧
    cf_artifactId call = Some artifactId ∧ artifactId ≠ "" ∧
    cf_existingUrlSha256 call = None ∧ cf_evidenceHashRecorded call = false ∧
    amount = cf_liveTotalAmount call ∧ calculation = cf_liveCalculationId call.
Proof.
  unfold decideLateRecordingRow. split.
  - intros H. destruct available; [|done]. split; [done|]. cbn [negb] in H.
    destruct (remove_dups (map cf_callId matches)) as [|i [|j l]] eqn:Ed; [done| |by destruct matches].
    destruct matches as [|call rest]; [done|]. exists call, rest.
    assert (cf_callId call = i) as <-.
    { assert (cf_callId call ∈ remove_dups (map cf_callId (call :: rest))) as Hi by (apply elem_of_remove_dups; left).
      rewrite Ed in Hi. by apply list_elem_of_singleton in Hi. }
    repeat case_match; try done; simplify_eq; to_prop; split_and!; try done;
      first [intros b [= <-]; by apply String.eqb_eq|by apply String.eqb_neq].
  - intros (-> & call & rest & -> & Hd & <- & Hi & Ha & Hb & Hart & Hne & Hu & He & -> & ->).
    rewrite Hd, Hi, Ha, Hart, Hu, He. cbn [negb]. apply String.eqb_neq in Hne. rewrite Hne.
    destruct (cf_liveCalculationBasis call) as [b|]; [|done]. by rewrite (Hb b eq_refl).
Qed.
