(* ===== verification/LateTables.v ===== *)
(** * Late recordings: the tables

    The three tables of [migrations/0020], the recordings of calls they attach to, and what the
    workflow reads of the tables of others; the reads of
    [adapters/mysqlLateRecordingCorrections.ts] that decide which row may attach and what a
    month is worth. *)

From Stdlib Require Import Ascii.
From S2P Require Import Prelude JsText CanonicalJson Decimal KserveRules Sql Calendar LateRecording.

Local Open Scope string_scope.
Local Open Scope list_scope.
#[global] Open Scope Z_scope.

(** ** Rows

    A [DATETIME(6)] is its microseconds, a [DECIMAL(20,8)] its value times [10^8], a [DATE] its
    text. *)

Record artifact_row : Type := ArtifactRow {
  ar_id : string;
  ar_call_id : string;
  ar_type : string;
  ar_is_final : bool;
  ar_source_url : option string;
  ar_sha256 : option string;
  ar_status : option string;
  ar_attempts : option Z;
  ar_last_attempt_at : option Z;
  ar_next_attempt_at : option Z;
  ar_last_error : option string;
}.

Record batch_row : Type := BatchRow {
  lb_id : string;
  lb_bill_month : string;
  lb_period_start : string;
  lb_period_end : string;
  lb_source_file_sha256 : string;
  lb_request_digest : string;
  lb_idempotency_key : string;
  lb_requested_by_user_id : option string;
  lb_correlation_id : option string;
  lb_ruleset_version : string;
  lb_rate_card_version_id : string;
  lb_baseline : option Z;
  lb_baseline_captured_at : option Z;
  lb_status : LateRecordingBatchStatus;
  lb_submitted : Z;
  lb_accepted : Z;
  lb_rejected : Z;
  lb_corrected : Z;
  lb_failed : Z;
  lb_requested_at : Z;
  lb_started_at : option Z;
  lb_completed_at : option Z;
}.

Record item_row : Type := ItemRow {
  it_id : string;
  it_batch_id : string;
  it_call_id : string;
  it_artifact_id : string;
  it_task_reference : string;
  it_row_number : Z;
  it_url_sha256 : string;
  it_state : LateRecordingItemState;
  it_attempts : Z;
  it_previous_amount : option Z;
  it_revised_amount : option Z;
  it_superseded : option string;
  it_last_error_code : option string;
  it_created_at : Z;
  it_started_at : option Z;
  it_completed_at : option Z;
}.

Record correction_row : Type := CorrectionRow {
  mc_id : string;
  mc_batch_id : string;
  mc_bill_month : string;
  mc_currency : string;
  mc_previous : Z;
  mc_revised : Z;
  mc_delta : Z;
  mc_actual_paid : option Z;
  mc_revised_variance : option Z;
  mc_corrected : Z;
  mc_failed : Z;
  mc_completed_at : Z;
}.

(** What the workflow reads of other tables. *)
Record call_row : Type := CallRow {
  cl_id : string;
  cl_logical_call_key : string;
  cl_billing_period_date : string;
  cl_latest_audit_run_id : option string;
  cl_canonical_outcome_code : option string;
}.

Record reference_row : Type := ReferenceRow { rf_call_id : string; rf_type : string; rf_external_id : string }.
Record invoice_row : Type := InvoiceRow { iv_period_start : string; iv_period_end : string; iv_status : string }.
Record run_row : Type := RunRow { ru_call_id : string; ru_status : string }.

Record calculation_row : Type := CalculationRow {
  cc_id : string;
  cc_call_id : string;
  cc_status : string;
  cc_basis : option string;
  cc_total_amount : Z;
  cc_supersedes : option string;
  cc_rate_card : option string;
  cc_calculated_at : Z;
}.

Record rate_card_row : Type := RateCardRow {
  card_id : string;
  card_status : string;
  card_currency : string;
  card_approved_by : option string;
  card_approved_at : option Z;
  card_ruleset_sha256 : option string;
  card_effective_from : string;
  card_effective_to : option string;
}.

(** The quantity as text, and its thousandths as they are rounded; the minutes as text. *)
Record cost_row : Type := CostRow {
  co_call_id : string;
  co_provider_sku : string;
  co_is_final : bool;
  co_quantity : option string;
  co_quantity_ms : option Z;
  co_minutes : option string;
  co_source_evidence : option string;
}.

(** Of the metrics of an analysis, the boundary and the grace that were stored. *)
Record media_row : Type := MediaRow {
  md_id : string;
  md_artifact_id : string;
  md_status : string;
  md_classification_status : option string;
  md_created_at : Z;
  md_decoded_duration_ms : option Z;
  md_speech_ms : option Z;
  md_chargeable_end_ms : option Z;
  md_conversation_end_ms : option Z;
  md_grace_ms : option Z;
}.

Record evidence_row : Type := EvidenceRow { ev_id : string; ev_sha256 : option string }.

Record settlement_row : Type := SettlementRow { se_bill_month : string; se_version_no : Z; se_final_paid : option Z }.

Record other_tables : Type := OtherTables {
  calls : list call_row;
  references : list reference_row;
  invoices : list invoice_row;
  audit_runs : list run_row;
  calculations : list calculation_row;
  rate_cards : list rate_card_row;
  costs : list cost_row;
  settlements : list settlement_row;
  media : list media_row;
  evidence : list evidence_row;
}.

Record late_tables : Type := LateTables {
  artifacts : list artifact_row;
  batches : list batch_row;
  items : list item_row;
  corrections : list correction_row;
  other : other_tables;
}.

Definition with_artifacts (t : list artifact_row) (d : late_tables) : late_tables :=
  LateTables t (batches d) (items d) (corrections d) (other d).
Definition with_batches (t : list batch_row) (d : late_tables) : late_tables :=
  LateTables (artifacts d) t (items d) (corrections d) (other d).
Definition with_items (t : list item_row) (d : late_tables) : late_tables :=
  LateTables (artifacts d) (batches d) t (corrections d) (other d).
Definition with_other (t : other_tables) (d : late_tables) : late_tables :=
  LateTables (artifacts d) (batches d) (items d) (corrections d) t.
Definition with_corrections (t : list correction_row) (d : late_tables) : late_tables :=
  LateTables (artifacts d) (batches d) (items d) t (other d).

(** ** Keys and checks *)

Definition live (s : LateRecordingItemState) : bool :=
  match s with item_accepted | auditing => true | corrected | item_failed => false end.

Definition nonneg (o : option Z) : bool := match o with Some v => 0 <=? v | None => true end.

Section Keys.
Context `{Collation}.

(** The generated column: the call while the item is live. *)
Definition active_call_id (r : item_row) : option string := if live (it_state r) then Some (it_call_id r) else None.

Definition same_key (a b : option string) : bool :=
  match a, b with Some a, Some b => sql_eq a b | _, _ => false end.

Definition artifact_clashes (r s : artifact_row) : bool := sql_eq (ar_id r) (ar_id s).

(** The primary key and [uq_late_recording_batch_key]. *)
Definition batch_clashes (r s : batch_row) : bool :=
  sql_eq (lb_id r) (lb_id s) || sql_eq (lb_idempotency_key r) (lb_idempotency_key s).

(** The primary key, [uq_late_recording_batch_call] and [uq_late_recording_active_call]. *)
Definition item_clashes (r s : item_row) : bool :=
  sql_eq (it_id r) (it_id s) ||
  (sql_eq (it_batch_id r) (it_batch_id s) && sql_eq (it_call_id r) (it_call_id s)) ||
  same_key (active_call_id r) (active_call_id s).

(** The primary key and [uq_late_recording_correction_batch]. *)
Definition correction_clashes (r s : correction_row) : bool :=
  sql_eq (mc_id r) (mc_id s) || sql_eq (mc_batch_id r) (mc_batch_id s).
End Keys.

Definition batch_check (r : batch_row) : bool :=
  (1 <=? lb_submitted r) && (lb_submitted r <=? 100) && (lb_accepted r <=? lb_submitted r) &&
  (lb_corrected r + lb_failed r <=? lb_accepted r) && String.leb (lb_period_start r) (lb_period_end r) &&
  bool_decide (is_Some (lb_baseline r) ↔ is_Some (lb_baseline_captured_at r)) && nonneg (lb_baseline r).

Definition item_check (r : item_row) : bool :=
  (it_attempts r <=? 1) && nonneg (it_previous_amount r) && nonneg (it_revised_amount r).

Definition correction_check (r : correction_row) : bool :=
  bool_decide (mc_currency r = "INR") && (0 <=? mc_previous r) && (0 <=? mc_revised r).

(** A row that breaks a check is refused. *)
Definition checked {R A} (check : R → bool) (t : list R) (a : A) : Prelude.result sql_error A :=
  if forallb check t then Ok a else Throw Refused.

(** A decimal text as a [DECIMAL(20,8)] column holds it. *)
Definition decimal_column (text : string) : Prelude.result sql_error Z :=
  match toScaled (Some text) with
  | Some v => if Z.abs v <? 10 ^ 20 then Ok v else Throw Refused
  | None => Throw Refused
  end.

Definition nullable_decimal (text : option string) : Prelude.result sql_error (option Z) :=
  match text with Some t => v ← decimal_column t; Ok (Some v) | None => Ok None end.

(** ** Which rows of a month *)

(** [BillingMonthScope] *)
Record period : Type := Period { pd_month : string; pd_start : string; pd_end : string }.

(** [isoDate(new Date(Date.UTC(year, month, day)))], [month] counted from 1 *)
Definition isoDate (year month day : Z) : string :=
  str_take 10 (toISOString (MS_PER_DAY * day_number year month day)).

(** [/^(\d{4})-(\d{2})$/], and the range; day 0 of a month is the last of the one before. *)
Definition parseBillingMonth (value : string) : option (option period) :=
  if String.eqb value "" || String.eqb value "all" then Some None
  else
    let year := str_take 4 value in
    match str_drop 4 value with
    | String c month =>
        if (String.length year =? 4)%nat && all_digits year && Ascii.eqb c "-" && (String.length month =? 2)%nat && all_digits month then
          let y := dec_value year in let m := dec_value month in
          if (y <? 2000) || (2100 <? y) || (m <? 1) || (12 <? m) then None
          else Some (Some (Period value (isoDate y m 1) (isoDate y m (days_in_month y m))))
        else None
    | EmptyString => None
    end.

Definition within (p : period) (date : string) : bool := String.leb (pd_start p) date && String.leb date (pd_end p).

Section Reads.
Context `{PL : Platform, CO : Collation}.

Definition is_text (s : string) (t : string) : bool := sql_eq s t.
Definition in_texts (l : list string) (s : string) : bool := existsb (sql_eq s) l.

(** [ORDER BY effective_from DESC, approved_at DESC, id DESC] *)
Definition card_before (a b : rate_card_row) : bool :=
  let at_ c := default 0 (card_approved_at c) in
  String.ltb (card_effective_from b) (card_effective_from a) ||
  (String.eqb (card_effective_from a) (card_effective_from b) &&
   ((at_ b <? at_ a) || ((at_ a =? at_ b) && String.leb (collate (card_id b)) (collate (card_id a))))).

Definition card_applies (p : period) (c : rate_card_row) : bool :=
  is_text (card_status c) "published" && is_text (card_currency c) "INR" &&
  bool_decide (is_Some (card_approved_by c)) && bool_decide (is_Some (card_approved_at c)) &&
  match card_ruleset_sha256 c with Some h => sql_eq h KSERVE_RULESET_SHA256 | None => false end &&
  String.leb (card_effective_from c) (pd_start p) &&
  match card_effective_to c with Some t => String.leb (pd_end p) t | None => true end.

Definition applicableRateCardId (p : period) (d : late_tables) : option string :=
  card_id <$> head (sort_by card_before (where_ (card_applies p) (rate_cards (other d)))).

(** A final calculation that nothing supersedes. *)
Definition superseded (d : late_tables) (c : calculation_row) : bool :=
  existsb (fun newer => same_key (cc_supersedes newer) (Some (cc_id c))) (calculations (other d)).

Definition current (d : late_tables) (c : calculation_row) : bool :=
  is_text (cc_status c) "final" && negb (superseded d c).

(** [ORDER BY calculated_at DESC, id DESC] *)
Definition calculation_before (a b : calculation_row) : bool :=
  (cc_calculated_at b <? cc_calculated_at a) ||
  ((cc_calculated_at a =? cc_calculated_at b) && String.leb (collate (cc_id b)) (collate (cc_id a))).

Definition live_calculation (d : late_tables) (call : string) : option calculation_row :=
  head (sort_by calculation_before (where_ (fun c => sql_eq (cc_call_id c) call && current d c) (calculations (other d)))).

Record ResolvedRow : Type := Resolved {
  rs_task_reference : string;
  rs_call_id : string;
  rs_artifact_id : option string;
  rs_source_url : option string;
  rs_evidence_sha256 : option string;
  rs_invoice_present : bool;
  rs_audit_completed : bool;
  rs_live_calculation_id : option string;
  rs_live_calculation_basis : option string;
  rs_live_total_amount : option Z;
}.

#[export] Instance resolved_eq_dec : EqDecision ResolvedRow.
Proof. solve_decision. Defined.

Definition audit_completed (d : late_tables) (call : string) : bool :=
  existsb (fun r => sql_eq (ru_call_id r) call && is_text (ru_status r) "completed") (audit_runs (other d)).

(** The columns that both halves of the union select. *)
Definition facts (d : late_tables) (reference : string) (c : call_row) (artifact : option artifact_row) : ResolvedRow :=
  let live := live_calculation d (cl_id c) in {|
  rs_task_reference := reference;
  rs_call_id := cl_id c;
  rs_artifact_id := ar_id <$> artifact;
  rs_source_url := artifact ≫= ar_source_url;
  rs_evidence_sha256 := artifact ≫= ar_sha256;
  rs_invoice_present :=
    existsb (fun i => String.leb (iv_period_start i) (cl_billing_period_date c) && String.leb (cl_billing_period_date c) (iv_period_end i) &&
                      in_texts ["received"; "matched"; "approved"] (iv_status i)) (invoices (other d));
  rs_audit_completed := audit_completed d (cl_id c);
  rs_live_calculation_id := cc_id <$> live;
  rs_live_calculation_basis := live ≫= cc_basis;
  rs_live_total_amount := cc_total_amount <$> live;
|}.

Definition is_recording (a : artifact_row) : bool := is_text (ar_type a) "recording" && ar_is_final a.

(** [LEFT JOIN] *)
Definition left_join {R} (P : R → bool) (t : list R) : list (option R) :=
  match where_ P t with [] => [None] | l => map Some l end.

Definition recordings_of (d : late_tables) (call : string) : list (option artifact_row) :=
  left_join (fun a => sql_eq (ar_call_id a) call && is_recording a) (artifacts d).

Definition REFERENCE_TYPES : list string := ["task_id"; "taskId"; "task"].

Definition resolveUploadedTasks (p : period) (taskIds : list string) (d : late_tables) : list ResolvedRow :=
  let of_month := where_ (fun c => within p (cl_billing_period_date c)) (calls (other d)) in
  let by_key :=
    concat (map (fun c => map (facts d (cl_logical_call_key c) c) (recordings_of d (cl_id c)))
              (where_ (fun c => in_texts taskIds (cl_logical_call_key c)) of_month)) in
  let by_reference :=
    concat (map (fun c =>
      concat (map (fun r => map (facts d (rf_external_id r) c) (recordings_of d (cl_id c)))
        (where_ (fun r => sql_eq (rf_call_id r) (cl_id c) && in_texts REFERENCE_TYPES (rf_type r) && in_texts taskIds (rf_external_id r))
           (references (other d))))) of_month) in
  remove_dups (by_key ++ by_reference).

(** ** A [Map], in the order of insertion *)

Fixpoint map_get {A} (k : string) (m : list (string * A)) : option A :=
  match m with [] => None | (k', v) :: m => if String.eqb k' k then Some v else map_get k m end.

Fixpoint map_set {A} (k : string) (v : A) (m : list (string * A)) : list (string * A) :=
  match m with
  | [] => [(k, v)]
  | (k', v') :: m => if String.eqb k' k then (k', v) :: m else (k', v') :: map_set k v m
  end.

(** [fixed8] leaves the text of a [DECIMAL(20,8)] as it is. *)
Definition call_facts (row : ResolvedRow) : LateRecordingCallFacts := {|
  cf_callId := rs_call_id row;
  cf_artifactId := rs_artifact_id row;
  cf_existingUrlSha256 :=
    match rs_source_url row with
    | Some u => if String.eqb u "" then None else Some (canonicalUrlSha256 u)
    | None => None
    end;
  cf_evidenceHashRecorded := bool_decide (is_Some (rs_evidence_sha256 row));
  cf_invoicePresent := rs_invoice_present row;
  cf_auditCompleted := rs_audit_completed row;
  cf_liveCalculationId := rs_live_calculation_id row;
  cf_liveCalculationBasis := rs_live_calculation_basis row;
  cf_liveTotalAmount := fixed8_of <$> rs_live_total_amount row;
|}.

Definition populated (f : LateRecordingCallFacts) : bool :=
  bool_decide (is_Some (cf_existingUrlSha256 f)) || cf_evidenceHashRecorded f.

Definition add_fact (by_ : list (string * list (string * LateRecordingCallFacts))) (row : ResolvedRow)
    : list (string * list (string * LateRecordingCallFacts)) :=
  let found := default [] (map_get (rs_task_reference row) by_) in
  let candidate := call_facts row in
  let kept := match map_get (rs_call_id row) found with
              | Some existing => populated existing || negb (populated candidate)
              | None => false
              end in
  map_set (rs_task_reference row) (if kept then found else map_set (rs_call_id row) candidate found) by_.

Definition factsByReference (rows : list ResolvedRow) : list (string * list LateRecordingCallFacts) :=
  map (fun p => (p.1, map snd p.2)) (foldl add_fact [] rows).

(** ** What a month is worth *)

Definition sum_amounts (l : list calculation_row) : Z := foldr (fun c n => cc_total_amount c + n) 0 l.

(** The sum over the current calculations of the month. *)
Definition verified_total (p : period) (d : late_tables) : Z :=
  sum_amounts
    (concat (map (fun c => where_ (fun k => sql_eq (cl_id k) (cc_call_id c) && within p (cl_billing_period_date k)) (calls (other d)) ≫=
                            fun _ => [c])
       (where_ (current d) (calculations (other d))))).

Definition month_total (p : period) (d : late_tables) : string := fixed8_of (verified_total p d).

Definition version_before (a b : settlement_row) : bool := se_version_no b <=? se_version_no a.

Definition paid_amount (month : string) (d : late_tables) : option string :=
  fixed8_of <$> (head (sort_by version_before (where_ (fun s => is_text (se_bill_month s) month) (settlements (other d)))) ≫= se_final_paid).
End Reads.
