(* ===== verification/SettlementLedger.v ===== *)
(** * The ledger of monthly settlements

    [adapters/mysqlKserveSettlement.ts] over the table of migration 0013: what was paid for a
    month, one version after the other. A read or a commit is one step; any number of
    administrators save and read at once, what a statement reads may be old
    by the time the next one is sent, and the database may refuse everything. *)

From Stdlib Require Import Ascii.
From stdpp Require Import relations.
From S2P Require Import Prelude JsText Calendar CanonicalJson Decimal Sql Prog SourceRevision CallStore VerifiedCharge LateRecording LateTables Settlement.

Local Open Scope string_scope.
Local Open Scope list_scope.
#[global] Open Scope Z_scope.

(** ** Row shapes *)

Record KserveSettlementVersion : Type := SettlementVersion {
  ks_versionNo : Z;
  ks_finalPaidAmountInr : string;
  ks_currency : string;
  ks_recordedAt : string;
  ks_isCurrent : bool;
}.

Record KserveSettlementHistory : Type := SettlementHistory {
  kh_versions : list KserveSettlementVersion;
  kh_truncated : bool;
}.

Inductive save_outcome : Type := recorded | replayed.

Record RecordSettlementResult : Type := SettlementResult {
  rr_versionNo : Z;
  rr_finalPaidAmountInr : string;
  rr_currency : string;
  rr_recordedAt : string;
  rr_outcome : save_outcome;
}.

(** What the driver reads: [DECIMAL] and [DATETIME(6)] as text. *)
Record VersionRow : Type := Version {
  vr_version_no : Z;
  vr_final_paid_amount : unknown;
  vr_currency : string;
  vr_recorded_at : option string;
  vr_request_digest : option string;
}.

Record CurrentRow : Type := Current {
  cr_id : string;
  cr_version_no : Z;
}.

(** What the adapter throws before it is made safe. *)
Inductive ledger_error : Type :=
| DriverThrew (e : sql_error)
| Failed (e : settlement_error).

Definition isDuplicateEntry (e : ledger_error) : bool :=
  match e with DriverThrew DuplicateEntry => true | _ => false end.

(** [asSafeSettlementError] of what was thrown. *)
Definition safe_error (e : ledger_error) : settlement_error :=
  match e with
  | DriverThrew _ => KserveSettlementUnavailableError
  | Failed e => asSafeSettlementError e
  end.

Definition failing {A} (r : Prelude.result settlement_error A) : Prelude.result ledger_error A :=
  match r with Ok a => Ok a | Throw e => Throw (Failed e) end.

Definition readSettlementTimestamp (value : option string) : Prelude.result settlement_error string :=
  match datetime_prefix (trim (default "" value)) with
  | None => Throw (OtherThrown (PlainError "settlement timestamp is unreadable"))
  | Some p => Ok (datetime_text p)
  end.

Definition toSettlementVersion (row : VersionRow) (isCurrent : bool) : Prelude.result settlement_error KserveSettlementVersion :=
  amount ← readStoredDecimal (vr_final_paid_amount row) "finalPaidAmountInr";
  match amount with
  | None => Throw (OtherThrown (PlainError "settlement amount is missing"))
  | Some amount =>
      recordedAt ← readSettlementTimestamp (vr_recorded_at row);
      Ok {| ks_versionNo := vr_version_no row; ks_finalPaidAmountInr := amount; ks_currency := vr_currency row;
            ks_recordedAt := recordedAt; ks_isCurrent := isCurrent |}
  end.

(** [s.replace(c, w)] of a character: its first occurrence. *)
Fixpoint replace_first (c : ascii) (w s : string) : string :=
  match s with
  | EmptyString => ""
  | String x s => if Ascii.eqb x c then w +:+ s else String x (replace_first c w s)
  end.

Definition settlementTimestampOf (now : Z) : string :=
  replace_first "Z" "000" (replace_first "T" " " (toISOString now)).

(** ** The table *)

(** A row; its amount in hundred-millionths. *)
Record ledger_row : Type := LedgerRow {
  sl_id : string;
  sl_bill_month : string;
  sl_period_start : string;
  sl_period_end : string;
  sl_currency : string;
  sl_final_paid_amount : Z;
  sl_version_no : Z;
  sl_supersedes : option string;
  sl_idempotency_key : string;
  sl_request_digest : string;
  sl_recorded_by : option string;
  sl_correlation_id : option string;
  sl_recorded_at : string;
  sl_created_at : Z;
}.

(** A literal as a [DATETIME(6)] column holds it. *)
Definition datetime_column (literal : string) : Prelude.result sql_error string :=
  match NAIVE_DATETIME literal with Some p => Ok (datetime_text p) | None => Throw Refused end.

Section Table.
Context `{CO : Collation}.

Definition of_month (month : string) (r : ledger_row) : bool := sql_eq (sl_bill_month r) month.
Definition month_rows (month : string) (t : list ledger_row) : list ledger_row := where_ (of_month month) t.

(** [WHERE bill_month = ? AND idempotency_key = ?] *)
Definition of_key (month key : string) (r : ledger_row) : bool := of_month month r && sql_eq (sl_idempotency_key r) key.

Definition both_text (a b : option string) : bool :=
  match a, b with Some a, Some b => sql_eq a b | _, _ => false end.

(** The primary key, [uq_kserve_settlement_month_version], [uq_kserve_settlement_month_key]
    and [uq_kserve_settlement_supersedes]. *)
Definition ledger_clashes (r s : ledger_row) : bool :=
  sql_eq (sl_id r) (sl_id s) ||
  (sql_eq (sl_bill_month r) (sl_bill_month s) && (sl_version_no r =? sl_version_no s)) ||
  (sql_eq (sl_bill_month r) (sl_bill_month s) && sql_eq (sl_idempotency_key r) (sl_idempotency_key s)) ||
  both_text (sl_supersedes r) (sl_supersedes s).

(** The checks, and the width of [INT UNSIGNED]. *)
Definition ledger_checks (r : ledger_row) : bool :=
  sql_eq (sl_currency r) "INR" && (0 <=? sl_final_paid_amount r) && (1 <=? sl_version_no r) &&
  ((sl_version_no r =? 1) && bool_decide (sl_supersedes r = None) ||
   (1 <? sl_version_no r) && bool_decide (is_Some (sl_supersedes r))) &&
  String.leb (sl_period_start r) (sl_period_end r) && (sl_version_no r <=? 4294967295).

(** [fk_kserve_settlement_supersedes] *)
Definition has_parent (t : list ledger_row) (r : ledger_row) : bool :=
  match sl_supersedes r with
  | None => true
  | Some i => existsb (fun s => sql_eq (sl_id s) i) t
  end.

Definition ledger_insert (r : ledger_row) (t : list ledger_row) : Prelude.result sql_error (unit * list ledger_row) :=
  throw_if (negb (ledger_checks r)) Refused ≫= fun _ =>
  t' ← insert_unique ledger_clashes r t;
  throw_if (negb (has_parent t r)) Refused ≫= fun _ => Ok (tt, t').

(** [INSERT_SETTLEMENT_SQL] *)
Definition insert_settlement (request : ValidatedSettlementRequest) (versionNo : Z) (supersedes : option string)
    (recordedAt : string) (at_ : Z) (t : list ledger_row) : Prelude.result sql_error (unit * list ledger_row) :=
  amount ← decimal_column (finalPaidAmountInr request);
  recorded_at ← datetime_column recordedAt;
  ledger_insert {|
    sl_id := settlementId request; sl_bill_month := billMonth request; sl_period_start := periodStart request;
    sl_period_end := periodEnd request; sl_currency := vs_currency request; sl_final_paid_amount := amount;
    sl_version_no := versionNo; sl_supersedes := supersedes; sl_idempotency_key := idempotencyKey request;
    sl_request_digest := requestDigest request; sl_recorded_by := recordedByUserId request;
    sl_correlation_id := correlationId request; sl_recorded_at := recorded_at; sl_created_at := at_ |} t.

(** [VERSION_PROJECTION]: a [DECIMAL(20,8)] is rendered with its eight places. *)
Definition version_row (r : ledger_row) : VersionRow := {|
  vr_version_no := sl_version_no r;
  vr_final_paid_amount := u_string (fixed8_of (sl_final_paid_amount r));
  vr_currency := sl_currency r;
  vr_recorded_at := Some (sl_recorded_at r);
  vr_request_digest := Some (sl_request_digest r);
|}.

(** [ORDER BY version_no DESC] *)
Definition newer (r s : ledger_row) : bool := sl_version_no s <=? sl_version_no r.

Definition select_by_key (month key : string) (t : list ledger_row) : option VersionRow :=
  version_row <$> head (where_ (of_key month key) t).

Definition select_current (month : string) (t : list ledger_row) : option CurrentRow :=
  (fun r => Current (sl_id r) (sl_version_no r)) <$> head (sort_by newer (month_rows month t)).

Definition select_history (month : string) (limit : Z) (t : list ledger_row) : list VersionRow :=
  map version_row (take (Z.to_nat limit) (sort_by newer (month_rows month t))).
End Table.

(** ** Operations *)

(** What the pool and the database are asked for: a connection, a transaction or a rollback, the three
    reads, and the insert with the commit that follows it. Also the clock. *)
Inductive ledger_op : Type → Type :=
| Ask : ledger_op (Prelude.result ledger_error unit)
| SelectByKey (month key : string) : ledger_op (Prelude.result ledger_error (option VersionRow))
| SelectCurrent (month : string) : ledger_op (Prelude.result ledger_error (option CurrentRow))
| Clock : ledger_op Z
| InsertAndCommit (request : ValidatedSettlementRequest) (versionNo : Z) (supersedes : option string) (recordedAt : string) :
    ledger_op (Prelude.result ledger_error unit)
| SelectHistory (month : string) (limit : Z) : ledger_op (Prelude.result ledger_error (list VersionRow)).

Notation ledger_act := (action ledger_op ledger_error).

Definition clock : ledger_act Z := Do Clock (fun now => Ret (Ok now)).

Definition different_amount : settlement_error :=
  KserveSettlementConflictError "idempotencyKey"
    "has already recorded a different amount for this month; a correction needs its own save".

Definition lost_race : settlement_error :=
  KserveSettlementConflictError "month"
    "another settlement version for this month was recorded at the same time; re-read the current version and save again".

(** The stored row is the answer, after its digest was compared. *)
Definition replay_stored (request : ValidatedSettlementRequest) (replay : VersionRow) : ledger_act RecordSettlementResult :=
  if negb (bool_decide (vr_request_digest replay = Some (requestDigest request)))
  then sync (Throw (Failed different_amount))
  else
    await Ask ≫= fun _ =>
    version ← sync (failing (toSettlementVersion replay false));
    mret {| rr_versionNo := ks_versionNo version; rr_finalPaidAmountInr := ks_finalPaidAmountInr version;
            rr_currency := ks_currency version; rr_recordedAt := ks_recordedAt version; rr_outcome := replayed |}.

Definition insert_next (request : ValidatedSettlementRequest) : ledger_act RecordSettlementResult :=
  current ← await (SelectCurrent (billMonth request));
  let versionNo := match current with Some c => cr_version_no c + 1 | None => 1 end in
  let supersedes := cr_id <$> (current : option CurrentRow) in
  now ← clock;
  let recordedAt := settlementTimestampOf now in
  await (InsertAndCommit request versionNo supersedes recordedAt) ≫= fun _ =>
  mret {| rr_versionNo := versionNo; rr_finalPaidAmountInr := finalPaidAmountInr request;
          rr_currency := vs_currency request; rr_recordedAt := recordedAt; rr_outcome := recorded |}.

(** A connection; what fails after that is rolled back, and a rollback that fails replaces it. *)
Definition write (request : ValidatedSettlementRequest) : ledger_act RecordSettlementResult :=
  await Ask ≫= fun _ =>
  catch
    (await Ask ≫= fun _ =>
     existing ← await (SelectByKey (billMonth request) (idempotencyKey request));
     match existing with
     | Some replay => replay_stored request replay
     | None => insert_next request
     end)
    (fun error => await Ask ≫= fun _ => sync (Throw error)).

(** [Math.min(Math.max(Math.trunc(limit) || 1, 1), MAX_SETTLEMENT_HISTORY)] of an integer *)
Definition bounded_limit (limit : Z) : Z := Z.min (Z.max (if limit =? 0 then 1 else limit) 1) MAX_SETTLEMENT_HISTORY.

(** [window.map((row, index) => toSettlementVersion(row, index === 0))] *)
Fixpoint to_versions (first : bool) (window : list VersionRow) : Prelude.result settlement_error (list KserveSettlementVersion) :=
  match window with
  | [] => Ok []
  | row :: window =>
      version ← toSettlementVersion row first;
      versions ← to_versions false window;
      Ok (version :: versions)
  end.

Definition readHistory (billMonth : string) (limit : Z) : action ledger_op settlement_error KserveSettlementHistory :=
  rethrow safe_error
    (let bounded := bounded_limit limit in
     rows ← (await (SelectHistory billMonth (bounded + 1)) : ledger_act (list VersionRow));
     let window := take (Z.to_nat bounded) rows in
     versions ← sync (failing (to_versions true window));
     mret {| kh_versions := versions; kh_truncated := bounded <? Z.of_nat (length rows) |}).

Section Save.
Context `{PL : Platform}.

Definition recordSettlement (request : option RecordSettlementRequest) : action ledger_op settlement_error RecordSettlementResult :=
  validated ← sync (validateRecordSettlementRequest request);
  rethrow (fun error => if isDuplicateEntry error then lost_race else safe_error error) (write validated).

(** ** Jobs *)

Inductive ledger_job : Type :=
| Save (request : option RecordSettlementRequest)
| History (month : string) (limit : Z).

Inductive ledger_answer : Type :=
| Saved (r : RecordSettlementResult)
| Read (h : KserveSettlementHistory).

Definition ledger_program (j : ledger_job) : action ledger_op settlement_error ledger_answer :=
  match j with
  | Save request => r ← recordSettlement request; mret (Saved r)
  | History month limit => h ← readHistory month limit; mret (Read h)
  end.
End Save.

(** ** The world: the table *)

Section World.
Context `{CO : Collation}.

Definition asking {A} (s : Z → list ledger_row → Prelude.result sql_error (A * list ledger_row)) (c : environment) (t : list ledger_row) :
    Prelude.result ledger_error A * list ledger_row :=
  let '(r, (_, t')) := catching (request s) DriverThrew c 0%nat t in (r, t').

Definition reading {A} (read : list ledger_row → A) : environment → list ledger_row → Prelude.result ledger_error A * list ledger_row :=
  asking (fun _ t => Ok (read t, t)).

Definition ledger_perform {X : Type} (i : nat) (o : ledger_op X) (c : environment) (t : list ledger_row) : X * list ledger_row :=
  match o in ledger_op X return X * list ledger_row with
  | Ask => reading (fun _ => tt) c t
  | SelectByKey month key => reading (select_by_key month key) c t
  | SelectCurrent month => reading (select_current month) c t
  | Clock => (wall_clock c 0, t)
  | InsertAndCommit request versionNo supersedes recordedAt =>
      match asking (insert_settlement request versionNo supersedes recordedAt) c t with
      | (Throw e, _) => (Throw e, t)
      | (Ok _, t') =>
          if refused c 1 then (Throw (DriverThrew Refused), if landed c 1 then t' else t) else (Ok tt, t')
      end
  | SelectHistory month limit => reading (select_history month limit) c t
  end.
End World.

(** ** Facts: texts *)

Lemma digits_cons n s : String.length s = S n → all_digits s = true → ∃ c r, s = String c r ∧ is_digit c = true.
Proof. destruct s as [|c r]; [done|]. cbn. intros _ [H _]%andb_true_iff. eauto. Qed.

(** A datetime of the column is its own trim, and is read as itself. *)
Lemma readSettlementTimestamp_stored p : parts_ok p → readSettlementTimestamp (Some (datetime_text p)) = Ok (datetime_text p).
Proof.
  intros Hp. unfold readSettlementTimestamp. cbn [default from_option]. unfold id.
  assert (trim (datetime_text p) = datetime_text p) as ->.
  { destruct Hp as [(Hy & _ & _ & _ & _ & _ & Hf) Ha]. decompose_Forall.
    destruct (digits_cons 3 (yearText p)) as (c & r & Ec & Hc); [done..|].
    set (f := pad_end 6 (fractionText p)).
    assert (String.length f = 6%nat) as Hl by (unfold f; rewrite length_pad_end; lia).
    assert (all_digits f = true) as Hd.
    { unfold f, pad_end. rewrite all_digits_append, all_digits_zeros. match goal with H : all_digits (fractionText p) = true |- _ => by rewrite H end. }
    destruct (digits_cons 5 (str_rev f)) as (d & q & Ed & Hdd).
    { rewrite <- Hl. clear. induction f as [|c f IH]; [done|]. rewrite str_rev_cons, length_append, IH. cbn. lia. }
    { unfold all_digits. by rewrite str_forallb_rev. }
    assert (∃ a, datetime_text p = String c (a +:+ f)) as [a ->].
    { exists (r +:+ "-" +:+ monthText p +:+ "-" +:+ dayText p +:+ " " +:+ time_text p +:+ ".").
      unfold datetime_text, date_text. fold f. by rewrite Ec, !append_assoc', !append_cons. }
    apply (trim_ends _ _ d (q +:+ str_rev (String c a))); [|exact (is_digit_visible _ Hc)|exact (is_digit_visible _ Hdd)].
    by rewrite <- append_cons, str_rev_append, Ed, append_cons. }
  destruct (datetime_text_again p Hp) as (q & Hq & E). by rewrite (NAIVE_DATETIME_prefix _ _ Hq), E.
Qed.

Lemma fixed8_of_money z : fixed8_of z = formatScaledMoney z.
Proof.
  unfold fixed8_of, formatScaledMoney. assert ((if z <? 0 then - z else z) = Z.abs z) as -> by (destruct (Z.ltb_spec z 0); lia). done.
Qed.

(** *** The timestamp of a version *)

Definition free_of (c : ascii) : string → bool := str_forallb (fun x => negb (Ascii.eqb x c)).

Lemma replace_first_app c w a b : free_of c a = true → replace_first c w (a +:+ b) = a +:+ replace_first c w b.
Proof.
  induction a as [|x a IH]; [done|]. rewrite !append_cons. cbn. intros [Hx Ha]%andb_true_iff.
  apply negb_true_iff in Hx. by rewrite Hx, IH.
Qed.

Lemma digits_free c s : is_digit c = false → all_digits s = true → free_of c s = true.
Proof.
  intros Hc. induction s as [|x s IH]; [done|]. cbn. intros [Hx Hs]%andb_true_iff. unfold free_of in *. rewrite IH by done.
  destruct (Ascii.eqb_spec x c) as [->|]; [congruence|done].
Qed.

Lemma iso_year_free c y : is_digit c = false → c ≠ "-"%char → c ≠ "+"%char → free_of c (iso_year y) = true.
Proof.
  intros Hc Hm Hp. unfold iso_year. destruct (_ && _) eqn:E; to_prop; [apply digits_free; [done|apply padded_digits; lia]|].
  unfold free_of. rewrite str_forallb_append. apply andb_true_iff. split; [|apply digits_free; [done|apply padded_digits; lia]].
  destruct (y <? 0); unfold str_forallb; rewrite andb_true_r; apply negb_true_iff, Ascii.eqb_neq; congruence.
Qed.

Lemma free_append c a b : free_of c (a +:+ b) = free_of c a && free_of c b.
Proof. apply str_forallb_append. Qed.

Definition clock_parts (now : Z) : naive_parts :=
  let d := now / MS_PER_DAY in
  let ms := now mod MS_PER_DAY in
  let y := year_of d in
  let day := d - day_number y 1 1 in
  let m := month_of y day in
  {| yearText := iso_year y; monthText := padded 2 m; dayText := padded 2 (day - day_of_year y m + 1);
     hourText := padded 2 (ms / 3600000); minuteText := padded 2 (ms / 60000 mod 60);
     secondText := padded 2 (ms / 1000 mod 60); fractionText := padded 3 (ms mod 1000) +:+ "000" |}.

(** The parts are numbers. *)
Definition numbers (l : list string) : Prop := Forall (fun s => ∃ z, 0 ≤ z ∧ s = padded 2 z) l.

Lemma clock_numbers now : numbers [monthText (clock_parts now); dayText (clock_parts now); hourText (clock_parts now);
  minuteText (clock_parts now); secondText (clock_parts now)].
Proof.
  unfold clock_parts, MS_PER_DAY. cbn [monthText dayText hourText minuteText secondText].
  pose proof (year_of_le (now / 86400000)) as Y. pose proof (Z.mod_pos_bound now 86400000 eq_refl) as Hms.
  destruct (month_of_le (year_of (now / 86400000)) (now / 86400000 - day_number (year_of (now / 86400000)) 1 1)) as [M D]; [lia|].
  repeat constructor; eexists; (split; [|reflexivity]); try lia; Z.to_euclidean_division_equations; lia.
Qed.

(** *** What the clock writes is what the column keeps *)

Lemma settlementTimestampOf_parts now :
  settlementTimestampOf now = date_text (clock_parts now) +:+ time_text (clock_parts now) +:+ "." +:+ fractionText (clock_parts now).
Proof.
  assert (Forall (fun s => all_digits s = true) [monthText (clock_parts now); dayText (clock_parts now); hourText (clock_parts now);
    minuteText (clock_parts now); secondText (clock_parts now)]) as Hall.
  { eapply Forall_impl; [apply clock_numbers|]. intros s (z & Hz & ->). by apply padded_digits. }
  unfold settlementTimestampOf. change (toISOString now) with
    (yearText (clock_parts now) +:+ "-" +:+ monthText (clock_parts now) +:+ "-" +:+ dayText (clock_parts now) +:+ "T" +:+
     hourText (clock_parts now) +:+ ":" +:+ minuteText (clock_parts now) +:+ ":" +:+ secondText (clock_parts now) +:+ "." +:+
     padded 3 ((now mod MS_PER_DAY) mod 1000) +:+ "Z").
  assert (all_digits (padded 3 ((now mod MS_PER_DAY) mod 1000)) = true) as Hf by (apply padded_digits; unfold MS_PER_DAY; Z.to_euclidean_division_equations; lia).
  change (fractionText (clock_parts now)) with (padded 3 ((now mod MS_PER_DAY) mod 1000) +:+ "000").
  assert (∀ c, is_digit c = false → c ≠ "-"%char → c ≠ "+"%char → free_of c (yearText (clock_parts now)) = true) as Hy
    by (intros c; apply iso_year_free).
  unfold date_text, time_text. generalize dependent (padded 3 ((now mod MS_PER_DAY) mod 1000)). intros f Hf.
  destruct (clock_parts now) as [y mo d h mi sec fr]. cbn [yearText monthText dayText hourText minuteText secondText] in *.
  decompose_Forall.
  replace (y +:+ "-" +:+ mo +:+ "-" +:+ d +:+ "T" +:+ h +:+ ":" +:+ mi +:+ ":" +:+ sec +:+ "." +:+ f +:+ "Z")
    with ((y +:+ "-" +:+ mo +:+ "-" +:+ d) +:+ String "T" (h +:+ ":" +:+ mi +:+ ":" +:+ sec +:+ "." +:+ f +:+ "Z"))
    by (by rewrite !append_assoc', append_cons).
  rewrite replace_first_app.
  2: { rewrite !free_append, Hy by done. rewrite (digits_free _ mo), (digits_free _ d) by done. done. }
  cbn [replace_first]. change (Ascii.eqb "T" "T") with true. cbn iota.
  replace ((y +:+ "-" +:+ mo +:+ "-" +:+ d) +:+ " " +:+ h +:+ ":" +:+ mi +:+ ":" +:+ sec +:+ "." +:+ f +:+ "Z")
    with ((y +:+ "-" +:+ mo +:+ "-" +:+ d +:+ " " +:+ h +:+ ":" +:+ mi +:+ ":" +:+ sec +:+ "." +:+ f) +:+ String "Z" "")
    by (by rewrite !append_assoc').
  rewrite replace_first_app.
  2: { rewrite !free_append, Hy by done. rewrite (digits_free _ mo), (digits_free _ d), (digits_free _ h), (digits_free _ mi), (digits_free _ sec), (digits_free _ f) by done. done. }
  cbn [replace_first]. change (Ascii.eqb "Z" "Z") with true. cbn iota. by rewrite !append_assoc'.
Qed.

(** A number that is longer than its field leaves a digit behind. *)
Lemma take_padded k z sep c r w s s' :
  (∀ x, is_digit x = true → sep x = false) → is_digit c = false →
  0 ≤ z → take_digits k (padded k z +:+ String c r) = Some (w, s) → expect sep s = Some s' →
  w = padded k z ∧ s' = r.
Proof.
  intros Hsep Hc Hz Ht He. destruct (padded_digits k z Hz) as [Hd _].
  assert (k ≤ String.length (padded k z))%nat as Hk by (unfold padded; rewrite length_pad_start; lia).
  unfold take_digits in Ht. destruct (_ && _)%bool; [|done]. injection Ht as <- <-.
  pose proof (str_take_drop k (padded k z)) as E. set (a := str_take k (padded k z)) in *. set (b := str_drop k (padded k z)) in *.
  assert (String.length a = k) as Ha by (unfold a; rewrite length_str_take; lia).
  rewrite <- E, append_assoc', <- Ha, str_take_app, str_drop_app in *. clearbody a b.
  rewrite all_digits_append in Hd. apply andb_true_iff in Hd as [_ Hb].
  destruct b as [|x b].
  - rewrite append_nil_l in He. cbn in He. destruct (sep c); [|done]. injection He as ->. by rewrite append_nil_r.
  - rewrite append_cons in He. cbn in He, Hb. apply andb_true_iff in Hb as [Hx _]. by rewrite Hsep in He.
Qed.

Lemma take_padded_last k z r w s g :
  0 ≤ z → take_digits k (padded k z +:+ "." +:+ r) = Some (w, s) → fraction_end s = Some g → w = padded k z ∧ g = r.
Proof.
  intros Hz Ht Hg. rewrite append_cons, append_nil_l in Ht. apply (take_padded k z (is_char ".") "." r w s g); try done.
  - intros x Hx. destruct (is_char "." x) eqn:E; [|done]. apply Ascii.eqb_eq in E. by subst.
  - destruct s as [|x s].
    + exfalso. unfold take_digits in Ht. destruct (_ && _)%bool; [|done]. injection Ht as _ E.
      pose proof (str_take_drop k (padded k z +:+ String "." r)) as E2. rewrite E, append_nil_r in E2.
      apply (f_equal String.length) in E2. rewrite length_str_take, length_append in E2; cbn in E2;
        unfold padded in *; rewrite ?length_append, ?length_pad_start in *; cbn; lia.
    + apply fraction_end_inv in Hg as [[? _]|(-> & _)]; done.
Qed.

Lemma clock_datetime now p : NAIVE_DATETIME (settlementTimestampOf now) = Some p → datetime_text p = settlementTimestampOf now.
Proof.
  rewrite settlementTimestampOf_parts. pose proof (clock_numbers now) as Hn.
  assert (String.length (fractionText (clock_parts now)) = 6%nat) as Hl.
  { cbn [clock_parts fractionText]. set (z := now mod MS_PER_DAY mod 1000).
    assert (0 ≤ z < 1000) by (unfold z, MS_PER_DAY; Z.to_euclidean_division_equations; lia).
    rewrite length_append. unfold padded at 1. rewrite length_pad_start. assert (String.length (show_nat z) ≤ 3)%nat by (apply length_show_nat; [change (10 ^ Z.of_nat 3) with 1000; lia|lia]). change (String.length "000") with 3%nat. lia. }
  assert (yearText (clock_parts now) = iso_year (year_of (now / MS_PER_DAY))) as Hy by done. revert Hn Hl Hy.
  generalize (year_of (now / MS_PER_DAY)) (clock_parts now). intros year [y mo d h mi sec f].
  unfold numbers. cbn [yearText monthText dayText hourText minuteText secondText fractionText].
  rewrite !Forall_cons. intros ((z1 & P1 & ->) & (z2 & P2 & ->) & (z3 & P3 & ->) & (z4 & P4 & ->) & (z5 & P5 & ->) & _) Hl ->.
  unfold NAIVE_DATETIME, date_text, time_text. cbn [yearText monthText dayText hourText minuteText secondText].
  rewrite !append_assoc'. intros H.
  assert (∀ k z sep c r w s s', 0 ≤ z → is_digit c = false →
    take_digits k (padded k z +:+ String c "" +:+ r) = Some (w, s) → expect sep s = Some s' →
    (∀ x, is_digit x = true → sep x = false) → w = padded k z ∧ s' = r) as Hpart.
  { intros k z sep c r w s s' ???? Hsep. rewrite append_cons, append_nil_l in *. by eapply take_padded. }
  assert (∀ c x, is_digit c = false → is_digit x = true → is_char c x = false) as Hsep.
  { intros c x Hc Hx. destruct (is_char c x) eqn:E; [|done]. apply Ascii.eqb_eq in E. congruence. }
  apply bind_Some in H as ([y s1] & E1 & H). apply bind_Some in H as (s1' & F1 & H).
  assert (iso_year year = padded 4 year ∧ 0 ≤ year) as [Hy Py].
  { unfold iso_year in *. destruct (_ && _) eqn:E; to_prop; [by split; [|lia]|]. exfalso.
    unfold take_digits in E1. destruct (_ && _)%bool eqn:Eb in E1; [|done]. apply andb_true_iff in Eb as [_ Eb].
    by destruct (year <? 0). }
  rewrite Hy in *. destruct (Hpart _ _ _ "-"%char _ _ _ _ Py eq_refl E1 F1 ltac:(by auto)) as [-> ->].
  apply bind_Some in H as ([y2 s2] & E2 & H). apply bind_Some in H as (s2' & F2 & H).
  destruct (Hpart _ _ _ "-"%char _ _ _ _ P1 eq_refl E2 F2 ltac:(by auto)) as [-> ->].
  apply bind_Some in H as ([y3 s3] & E3 & H). apply bind_Some in H as (s3' & F3 & H).
  destruct (Hpart _ _ _ " "%char _ _ _ _ P2 eq_refl E3 F3 ltac:(intros; cbv beta; by rewrite (Hsep " "%char), (Hsep "T"%char))) as [-> ->].
  apply bind_Some in H as ([y4 s4] & E4 & H). apply bind_Some in H as (s4' & F4 & H).
  destruct (Hpart _ _ _ ":"%char _ _ _ _ P3 eq_refl E4 F4 ltac:(by auto)) as [-> ->].
  apply bind_Some in H as ([y5 s5] & E5 & H). apply bind_Some in H as (s5' & F5 & H).
  destruct (Hpart _ _ _ ":"%char _ _ _ _ P4 eq_refl E5 F5 ltac:(by auto)) as [-> ->].
  apply bind_Some in H as ([y6 s6] & E6 & H). apply bind_Some in H as (g & F6 & H).
  destruct (take_padded_last _ _ _ _ _ _ P5 E6 F6) as [-> ->]. injection H as <-.
  unfold datetime_text, date_text, time_text. cbn [yearText monthText dayText hourText minuteText secondText fractionText].
  by rewrite pad_end_full, !append_assoc'.
Qed.

(** ** The chain of a month *)

(** What a version says, as a reader sees it. *)
Definition version_of (r : ledger_row) (isCurrent : bool) : KserveSettlementVersion := {|
  ks_versionNo := sl_version_no r; ks_finalPaidAmountInr := fixed8_of (sl_final_paid_amount r); ks_currency := sl_currency r;
  ks_recordedAt := sl_recorded_at r; ks_isCurrent := isCurrent;
|}.

Definition good_row (r : ledger_row) : Prop :=
  Z.abs (sl_final_paid_amount r) < MONEY_BOUND ∧ ∃ p, parts_ok p ∧ sl_recorded_at r = datetime_text p.

(** The rows of a month, in the order they were written: version after version, each of which
    supersedes the one before it. *)
Definition chained (l : list ledger_row) : Prop :=
  ∀ i r, l !! i = Some r →
    sl_version_no r = Z.of_nat i + 1 ∧
    sl_supersedes r = match i with O => None | S j => sl_id <$> l !! j end.

Lemma toSettlementVersion_row r c : good_row r → toSettlementVersion (version_row r) c = Ok (version_of r c).
Proof.
  intros [Hb (p & Hp & Ep)]. unfold toSettlementVersion. cbn [version_row vr_final_paid_amount readStoredDecimal string_of].
  rewrite fixed8_of_money, parse_format by done. cbn [mbind result_bind vr_recorded_at version_row]. rewrite Ep, readSettlementTimestamp_stored by done.
  cbn [mbind result_bind]. unfold version_of. cbn. by rewrite fixed8_of_money, Ep.
Qed.

(** The newest version is the current one. *)
Definition history_of (l : list ledger_row) : list KserveSettlementVersion :=
  match l with
  | [] => []
  | r :: l => version_of r true :: map (fun r => version_of r false) l
  end.

Lemma to_versions_rows l : Forall good_row l → to_versions true (map version_row l) = Ok (history_of l).
Proof.
  assert (∀ l, Forall good_row l → to_versions false (map version_row l) = Ok (map (fun r => version_of r false) l)) as Hf.
  { clear l. intros l. induction 1 as [|r l Hr _ IH]; [done|]. cbn [map to_versions]. by rewrite toSettlementVersion_row, IH. }
  intros [|r l' Hr Hl]; [done|]. cbn [map to_versions]. by rewrite toSettlementVersion_row, Hf.
Qed.

Lemma chained_prefix l x : chained (l ++ [x]) → chained l.
Proof.
  intros H i r Hi. destruct (H i r (lookup_app_l_Some _ _ _ _ Hi)) as [Hv Hs]. split; [done|]. rewrite Hs.
  destruct i as [|j]; [done|]. f_equal. apply lookup_app_l. apply lookup_lt_Some in Hi. lia.
Qed.

Lemma chained_snoc l x :
  chained l → sl_version_no x = Z.of_nat (length l) + 1 → sl_supersedes x = sl_id <$> last l → chained (l ++ [x]).
Proof.
  intros H Hv Hs i r [Hi|[Hl Hr]]%lookup_app_Some.
  - destruct (H i r Hi) as [Hv' Hs']. split; [done|]. rewrite Hs'. destruct i as [|j]; [done|]. f_equal. symmetry.
    apply lookup_app_l. apply lookup_lt_Some in Hi. lia.
  - apply list_lookup_singleton_Some in Hr as [Hr <-]. assert (i = length l) as -> by lia. split; [done|]. rewrite Hs.
    destruct l as [|y l] using rev_ind; [done|]. rewrite last_snoc, length_app, Nat.add_1_r. cbn.
    rewrite lookup_app_l by (rewrite length_app; cbn; lia). by rewrite list_lookup_middle.
Qed.

Lemma insert_by_least x l : Forall (fun y => newer x y = true) l → insert_by newer x l = x :: l.
Proof. intros [|y l' Hy _]; [done|]. cbn. by rewrite Hy. Qed.

(** [ORDER BY version_no DESC] is the order of writing, backwards. *)
Lemma chained_newest l : chained l → sort_by newer l = reverse l.
Proof.
  intros H. rewrite (sort_by_perm_eq newer) with (l2 := reverse l).
  - induction l as [|x l IH] using rev_ind; [done|]. rewrite reverse_snoc, sort_by_cons, IH by by eapply chained_prefix.
    apply insert_by_least, Forall_forall. intros y Hy. rewrite elem_of_reverse in Hy. apply list_elem_of_lookup_1 in Hy as [i Hi].
    destruct (H _ _ (lookup_app_l_Some _ [x] _ _ Hi)) as [Hv _]. destruct (H (length l) x) as [Hx _]; [by apply list_lookup_middle|].
    unfold newer. apply lookup_lt_Some in Hi. apply Z.leb_le. lia.
  - unfold newer. intros x y. rewrite !Z.leb_le. lia.
  - unfold newer. intros x y z. rewrite !Z.leb_le. lia.
  - unfold newer. intros x y [i Hi]%list_elem_of_lookup_1 [j Hj]%list_elem_of_lookup_1. rewrite !Z.leb_le. intros Hxy Hyx.
    destruct (H _ _ Hi) as [Hv _], (H _ _ Hj) as [Hw _]. assert (i = j) as -> by lia. congruence.
  - by rewrite reverse_Permutation.
Qed.

Section Invariant.
Context `{CO : Collation}.
Implicit Types t : list ledger_row.

Definition ledger_ok t : Prop :=
  distinct ledger_clashes t = true ∧ Forall good_row t ∧ ∀ month, chained (month_rows month t).

(** What a save read of its month: nothing, or the version it is going to supersede. *)
Definition next_of (l : list ledger_row) (versionNo : Z) (supersedes : option string) : Prop :=
  (versionNo = 1 ∧ supersedes = None) ∨
  ∃ i r, l !! i = Some r ∧ versionNo = Z.of_nat i + 2 ∧ supersedes = Some (sl_id r).

Lemma ledger_clashes_sym r s : ledger_clashes r s = ledger_clashes s r.
Proof.
  unfold ledger_clashes. rewrite (sql_eq_sym (sl_id r)), (sql_eq_sym (sl_bill_month r)), (sql_eq_sym (sl_idempotency_key r)), (Z.eqb_sym (sl_version_no r)).
  f_equal. destruct (sl_supersedes r), (sl_supersedes s); [apply sql_eq_sym|done..].
Qed.

Lemma month_rows_prefix month t t' : t `prefix_of` t' → month_rows month t `prefix_of` month_rows month t'.
Proof. intros [k ->]. exists (month_rows month k). apply where_app. Qed.

Lemma next_of_prefix l l' v s : l `prefix_of` l' → next_of l v s → next_of l' v s.
Proof. intros Hp [H|(i & r & Hi & H)]; [by left|]. right. exists i, r. split; [by eapply prefix_lookup_Some|done]. Qed.

Lemma month_rows_newest month t : ledger_ok t → sort_by newer (month_rows month t) = reverse (month_rows month t).
Proof. intros (_ & _ & H). apply chained_newest, H. Qed.

Lemma select_current_last month t : ledger_ok t →
  select_current month t = (fun r => Current (sl_id r) (sl_version_no r)) <$> last (month_rows month t).
Proof. intros H. unfold select_current. rewrite month_rows_newest by done. by rewrite head_reverse. Qed.

Lemma last_version l r : chained l → last l = Some r → sl_version_no r = Z.of_nat (length l).
Proof.
  intros H Hl. destruct l as [|x l] using rev_ind; [done|]. rewrite last_snoc in Hl. injection Hl as ->.
  destruct (H (length l) r) as [-> _]; [by apply list_lookup_middle|]. rewrite length_app. cbn. lia.
Qed.

Lemma read_next month t current : ledger_ok t → select_current month t = current →
  next_of (month_rows month t) (match current with Some c => cr_version_no c + 1 | None => 1 end) (cr_id <$> current).
Proof.
  intros H <-. rewrite select_current_last by done. destruct (last (month_rows month t)) as [r|] eqn:E; cbn; [right|by left].
  exists (pred (length (month_rows month t))), r. rewrite (last_version _ _ (proj2 (proj2 H) month) E). rewrite last_lookup in E.
  split_and!; [done| |done]. apply lookup_lt_Some in E. lia.
Qed.

(** A row that clashes with none of its month is the next one of it. *)
Lemma next_is_last t r : ledger_ok t → (∀ s, s ∈ t → ledger_clashes r s = false) →
  next_of (month_rows (sl_bill_month r) t) (sl_version_no r) (sl_supersedes r) →
  sl_version_no r = Z.of_nat (length (month_rows (sl_bill_month r) t)) + 1 ∧
  sl_supersedes r = sl_id <$> last (month_rows (sl_bill_month r) t).
Proof.
  intros (_ & _ & Hch) Hc Hn. specialize (Hch (sl_bill_month r)). set (l := month_rows (sl_bill_month r) t) in *.
  assert (∀ i s, l !! i = Some s → sl_version_no r ≠ Z.of_nat i + 1) as Hfree.
  { intros i s Hs Hv. destruct (Hch i s Hs) as [Hsv _]. apply list_elem_of_lookup_2, elem_of_where in Hs as [Hm Hs].
    specialize (Hc s Hs). unfold ledger_clashes in Hc. unfold of_month in Hm. rewrite sql_eq_sym in Hm.
    rewrite Hm, Hv, Hsv, Z.eqb_refl in Hc. cbn in Hc. by rewrite orb_true_r in Hc. }
  destruct Hn as [[Hv Hs]|(i & s & Hi & Hv & Hs)].
  - destruct l as [|x l]; [by rewrite Hv, Hs|]. by destruct (Hfree 0%nat x eq_refl).
  - assert (length l = S i) as Hl.
    { apply lookup_lt_Some in Hi as Hlt. destruct (decide (length l = S i)) as [|Hne]; [done|].
      destruct (lookup_lt_is_Some_2 l (S i) ltac:(lia)) as [x Hx]. destruct (Hfree _ _ Hx). lia. }
    rewrite Hv, Hs, Hl. split; [lia|]. rewrite last_lookup, Hl. cbn. by rewrite Hi.
Qed.

Lemma month_rows_same m m' t : sql_eq m m' = true → month_rows m t = month_rows m' t.
Proof.
  intros E. apply where_ext. intros s _. unfold of_month. rewrite (sql_eq_sym (sl_bill_month s)), (sql_eq_sym (sl_bill_month s)).
  apply bool_decide_eq_true in E. unfold sql_eq. by rewrite E.
Qed.

Lemma ledger_ok_snoc t r : ledger_ok t → good_row r → (∀ s, s ∈ t → ledger_clashes r s = false) →
  next_of (month_rows (sl_bill_month r) t) (sl_version_no r) (sl_supersedes r) → ledger_ok (t ++ [r]).
Proof.
  intros Ht Hr Hc Hn. destruct (next_is_last t r Ht Hc Hn) as [Hv Hs]. destruct Ht as (Hd & Hg & Hch). split_and!.
  - apply distinct_snoc; [done|]. intros s Hs'. rewrite ledger_clashes_sym. by apply Hc.
  - apply Forall_app. by rewrite Forall_singleton.
  - intros month. unfold month_rows. rewrite where_app. fold (month_rows month t). unfold where_ at 1. rewrite filter_cons.
    destruct (of_month month r) eqn:E.
    + rewrite decide_True by done. cbn. unfold of_month in E. rewrite <- (month_rows_same _ _ _ E) in *. by apply chained_snoc.
    + rewrite decide_False by congruence. cbn. by rewrite app_nil_r.
Qed.

(** Only the next version of the month supersedes a version. *)
Lemma supersedes_next t s x : ledger_ok t → s ∈ t → x ∈ t → both_text (sl_supersedes s) (Some (sl_id x)) = true →
  ∃ j, month_rows (sl_bill_month x) t !! j = Some x ∧ month_rows (sl_bill_month x) t !! S j = Some s.
Proof.
  intros (Hd & _ & Hch) Hs Hx E. specialize (Hch (sl_bill_month s)).
  assert (s ∈ month_rows (sl_bill_month s) t) as [k Hk]%list_elem_of_lookup_1 by (apply elem_of_where; split; [apply sql_eq_refl|done]).
  destruct (Hch k s Hk) as [_ Hsup]. rewrite Hsup in E. destruct k as [|j]; [done|].
  destruct (lookup_lt_is_Some_2 (month_rows (sl_bill_month s) t) j) as [q Hq]; [apply lookup_lt_Some in Hk; lia|]. rewrite Hq in E. cbn in E.
  pose proof Hq as [Hm Hqt]%list_elem_of_lookup_2%elem_of_where.
  assert (q = x) as -> by (apply (distinct_unique _ _ _ _ ledger_clashes_sym Hd Hqt Hx); unfold ledger_clashes; by rewrite E).
  exists j. by rewrite (month_rows_same _ _ _ Hm).
Qed.

Lemma insert_settlement_Throw v n s at_ text t :
  insert_settlement v n s text at_ t = Throw DuplicateEntry →
  ∃ r x, x ∈ t ∧ ledger_clashes r x = true ∧ sl_id r = settlementId v ∧ sl_bill_month r = billMonth v ∧ sl_supersedes r = s.
Proof.
  unfold insert_settlement, ledger_insert, decimal_column, datetime_column, throw_if, insert_unique. intros H.
  repeat match type of H with context [match ?x with _ => _ end] => destruct x eqn:?; cbn in H; try discriminate H end.
  all: match goal with E : existsb _ _ = true |- _ => apply existsb_exists in E as (x & Hx & Hc) end.
  all: eexists _, x; (split; [by apply list_elem_of_In|]); (split; [exact Hc|done]).
Qed.

Lemma insert_settlement_Ok v n s at_ text t t' :
  insert_settlement v n s text at_ t = Ok (tt, t') →
  ∃ r, t' = t ++ [r] ∧ (∀ x, x ∈ t → ledger_clashes r x = false) ∧
    sl_id r = settlementId v ∧ sl_bill_month r = billMonth v ∧ sl_currency r = vs_currency v ∧
    decimal_column (finalPaidAmountInr v) = Ok (sl_final_paid_amount r) ∧ sl_version_no r = n ∧ sl_supersedes r = s ∧
    sl_idempotency_key r = idempotencyKey v ∧ sl_request_digest r = requestDigest v ∧
    datetime_column text = Ok (sl_recorded_at r).
Proof.
  unfold insert_settlement, ledger_insert. intros H. bind_ok.
  match goal with H : insert_unique _ _ _ = Ok _ |- _ => apply insert_unique_Ok in H as [Hc ->] end. eexists. split; [reflexivity|].
  cbn. by split_and!.
Qed.
End Invariant.

(** ** What a save does, among others *)

Section Writing.
Context `{PL : Platform, CO : Collation} (t0 : list ledger_row).
Implicit Types (t : list ledger_row) (v : ValidatedSettlementRequest).

(** The ledger is well formed and has grown from [t0]. *)
Definition ledger_inv t : Prop := ledger_ok t ∧ t0 `prefix_of` t.
Definition ledger_guar (i : nat) t t' : Prop := t `prefix_of` t'.

Notation doing := (ensures (@ledger_perform _) ledger_inv ledger_guar).

Definition key_of v : ledger_row → bool := of_key (billMonth v) (idempotencyKey v).
Definition result_of (r : ledger_row) (o : save_outcome) : RecordSettlementResult :=
  SettlementResult (sl_version_no r) (fixed8_of (sl_final_paid_amount r)) (sl_currency r) (sl_recorded_at r) o.

(** The key was not in the ledger that everything began with. *)
Definition new_key v : Prop := ∀ r, r ∈ t0 → key_of v r = false.

Definition write_says v (res : Prelude.result ledger_error RecordSettlementResult) t : Prop :=
  match res with
  | Ok a => ∃ r, r ∈ t ∧ key_of v r = true ∧ sl_request_digest r = requestDigest v ∧ a = result_of r (rr_outcome a) ∧
      (rr_outcome a = recorded → new_key v)
  | Throw (DriverThrew Refused) => True
  | Throw (DriverThrew DuplicateEntry) =>
      new_key v ∧ ∃ r, r ∈ t ∧ (sql_eq (sl_id r) (settlementId v) = true ∨ of_month (billMonth v) r = true)
  | Throw (Failed e) => e = different_amount ∧ ∃ r, r ∈ t ∧ key_of v r = true ∧ sl_request_digest r ≠ requestDigest v
  end.

Lemma rely_prefix i t t' : rely ledger_guar i t t' → t `prefix_of` t'.
Proof. induction 1 as [|a b c (j & _ & Hj) _ IH]; [done|]. by transitivity b. Qed.

Lemma elem_of_prefix t t' r : t `prefix_of` t' → r ∈ t → r ∈ t'.
Proof. intros [k ->] H. apply elem_of_app. by left. Qed.

Lemma write_says_later v res t t' : t `prefix_of` t' → write_says v res t → write_says v res t'.
Proof.
  intros Hp. destruct res as [a|[[]|e]]; cbn; [|naive_solver eauto using elem_of_prefix|done|]; intros H.
  - destruct H as (r & Hr & H). exists r. split; [by eapply elem_of_prefix|done].
  - destruct H as (-> & r & Hr & H). split; [done|]. exists r. split; [by eapply elem_of_prefix|done].
Qed.

Lemma reading_cases {A} (read : list ledger_row → A) c t :
  reading read c t = (Ok (read t), t) ∨ reading read c t = (Throw (DriverThrew Refused), t).
Proof. unfold reading, asking, catching, request. destruct (refused c 0); [by right|by left]. Qed.

(** A read answers what there was, and the ledger may have grown since. *)
Lemma reading_ok {A} (o : ledger_op (Prelude.result ledger_error A)) read i (Q : Prelude.result ledger_error A → list ledger_row → Prop) t :
  (∀ c t, ledger_perform i o c t = reading read c t) → ledger_inv t →
  (∀ t', ledger_inv t' → t `prefix_of` t' → Q (Ok (read t)) t' ∧ Q (Throw (DriverThrew Refused)) t') →
  doing i (await o) Q t.
Proof.
  intros Ho Ht HQ. apply ensures_await. intros c. rewrite Ho.
  destruct (reading_cases read c t) as [-> | ->]; (split_and!; [done|by exists []; rewrite app_nil_r|]); intros t' Hr%rely_prefix Ht'; by apply HQ.
Qed.

(** The row of a key is the row that is selected. *)
Lemma key_row v t : ledger_ok t →
  match head (where_ (key_of v) t) with
  | Some r => r ∈ t ∧ key_of v r = true
  | None => ∀ r, r ∈ t → key_of v r = false
  end.
Proof.
  intros _. destruct (where_ (key_of v) t) as [|r l] eqn:E; cbn.
  - intros r Hr. by eapply where_nil.
  - assert (r ∈ where_ (key_of v) t) as [H1 H2]%elem_of_where by (rewrite E; left). done.
Qed.

Lemma key_unique month key t r s : ledger_ok t → r ∈ t → s ∈ t → of_key month key r = true → of_key month key s = true → r = s.
Proof.
  intros (Hd & _) Hr Hs Kr Ks. apply (distinct_unique _ _ _ _ ledger_clashes_sym Hd Hr Hs).
  unfold of_key, of_month in *. to_prop. unfold ledger_clashes.
  by rewrite (sql_eq_both (sl_bill_month r) (sl_bill_month s) month),
    (sql_eq_both (sl_idempotency_key r) (sl_idempotency_key s) key), !orb_true_r by done.
Qed.

(** The amount of a validated request is a text of the column. *)
Definition canonical_amount v : Prop := ∃ z, 0 ≤ z < MONEY_BOUND ∧ finalPaidAmountInr v = show_fixed 8 z.

Lemma validated_canonical r v : validateRecordSettlementRequest (Some r) = Ok v → canonical_amount v ∧ vs_currency v = "INR".
Proof.
  intros H. split.
  - apply validated_inv in H as (_ & _ & H & _). apply parseFinalPaidAmount_inv in H as (s & z & _ & _ & Hz & E).
    exists z. unfold MAX_FINAL_PAID_SCALED, MONEY_BOUND in *. split; [lia|done].
  - cbn in H. by bind_ok.
Qed.

Lemma canonical_column v z : canonical_amount v → decimal_column (finalPaidAmountInr v) = Ok z →
  0 ≤ z < MONEY_BOUND ∧ fixed8_of z = finalPaidAmountInr v.
Proof.
  intros (x & Hx & ->). unfold decimal_column. rewrite toScaled_show_fixed8 by lia. destruct (_ <? _); [|done]. intros [= <-]. split; [done|].
  rewrite fixed8_of_money, formatScaledMoney_show. unfold sign_text. rewrite (proj2 (Z.ltb_ge x 0)), Z.abs_eq by lia. apply append_nil_l.
Qed.

Lemma stored_clock now s : datetime_column (settlementTimestampOf now) = Ok s →
  s = settlementTimestampOf now ∧ ∃ p, parts_ok p ∧ s = datetime_text p.
Proof.
  unfold datetime_column. destruct (NAIVE_DATETIME _) as [p|] eqn:E; [|done]. intros [= <-]. split; [by apply clock_datetime|].
  exists p. split; [by eapply NAIVE_DATETIME_parts|done].
Qed.

Lemma replay_ok i v r (Q : Prelude.result ledger_error RecordSettlementResult → list ledger_row → Prop) t :
  ledger_inv t → r ∈ t → key_of v r = true →
  (∀ res t', ledger_inv t' → write_says v res t' → Q res t') → doing i (replay_stored v (version_row r)) Q t.
Proof.
  intros Ht Hr Hk HQ. unfold replay_stored. cbn [version_row vr_request_digest]. case_bool_decide as E; cbn [negb].
  - injection E as E. apply ensures_bind. apply (reading_ok _ (fun _ => tt)); [done..|]. intros t1 H1 P1. split; [|by apply HQ].
    change (doing i (mbind (M := action ledger_op ledger_error) (fun version => mret (SettlementResult (ks_versionNo version) (ks_finalPaidAmountInr version)
      (ks_currency version) (ks_recordedAt version) replayed)) (sync (failing (toSettlementVersion (version_row r) false)))) Q t1).
    assert (good_row r) as Hg by (destruct Ht as [(_ & Hg & _) _]; by eapply Forall_forall in Hg).
    rewrite toSettlementVersion_row by done. cbn. apply HQ; [done|]. exists r. split; [by eapply elem_of_prefix|]. by split_and!.
  - cbn. apply HQ; [done|]. split; [done|]. exists r. split_and!; [done..|]. intros E2. by rewrite E2 in E.
Qed.

(** The first insert of a version decides who wrote it. *)
Lemma insert_ok i v n s text (Q : Prelude.result ledger_error unit → list ledger_row → Prop) t :
  (∀ x, datetime_column text = Ok x → x = text ∧ ∃ p, parts_ok p ∧ x = datetime_text p) →
  ledger_inv t → canonical_amount v → new_key v → next_of (month_rows (billMonth v) t) n s →
  (∀ t', ledger_inv t' → Q (Throw (DriverThrew Refused)) t') →
  (∀ r t', ledger_inv t' → r ∈ t' → sql_eq (sl_id r) (settlementId v) = true ∨ of_month (billMonth v) r = true →
     Q (Throw (DriverThrew DuplicateEntry)) t') →
  (∀ r t', ledger_inv t' → r ∈ t' → key_of v r = true → sl_request_digest r = requestDigest v →
     result_of r recorded = SettlementResult n (finalPaidAmountInr v) (vs_currency v) text recorded → Q (Ok tt) t') →
  doing i (await (InsertAndCommit v n s text)) Q t.
Proof.
  intros Htext [Ht Hp] Hcan Hnew Hnext HR HD HI. apply ensures_await. intros c.
  unfold ledger_perform, asking, catching, request. assert (∀ t', t `prefix_of` t' → ledger_ok t' → ledger_inv t' ∧ ledger_guar i t t') as Hkeep.
  { intros t' Hpre Hok. split; [|done]. split; [done|by transitivity t]. }
  destruct (refused c 0).
  { split_and!; [done..|]. intros t' _. apply HR. }
  destruct (insert_settlement v n s text (statement_time c 0) t) as [[[] t1]|e] eqn:E.
  - apply insert_settlement_Ok in E as (r & -> & Hc & Hid & Hm & Hcur & Hamt & Hver & Hsup & Hkey & Hdig & Hat).
    destruct (canonical_column _ _ Hcan Hamt) as [Hz Hfix]. apply Htext in Hat as [Hat Hparts].
    assert (ledger_ok (t ++ [r])) as Hok.
    { apply ledger_ok_snoc; [done| |done|by rewrite Hm, Hver, Hsup]. split; [lia|done]. }
    assert (t `prefix_of` t ++ [r]) as Hpre by by exists [r]. pose proof (Hkeep _ Hpre Hok) as [Hinv Hg].
    destruct (refused c 1).
    + destruct (landed c 1); (split; [done|]); (split; [done|]); intros t' _; apply HR.
    + split; [done|]. split; [done|]. intros t' Hr%rely_prefix Ht'. apply (HI r); [done| | |done|].
      * eapply elem_of_prefix; [exact Hr|]. apply elem_of_app. right. by left.
      * unfold key_of, of_key, of_month. rewrite Hm, Hkey, !sql_eq_refl. done.
      * unfold result_of. by rewrite Hver, Hfix, Hcur, Hat.
  - split_and!; [done..|]. intros t' Hr%rely_prefix Ht'. destruct e; [|by apply HR].
    apply insert_settlement_Throw in E as (r & x & Hx & Hc & Hid & Hm & Hsup). apply (HD x); [done|by eapply elem_of_prefix|].
    unfold ledger_clashes in Hc. rewrite Hid, Hm in Hc. unfold of_month.
    rewrite (sql_eq_sym (sl_id x)), (sql_eq_sym (sl_bill_month x)).
    destruct (sql_eq (settlementId v) (sl_id x)); [by left|]. destruct (sql_eq (billMonth v) (sl_bill_month x)) eqn:Em; [by right|].
    right. rewrite Hsup in Hc. cbn [orb andb] in Hc. destruct Hnext as [[_ ->]|(j & y & Hy & _ & ->)]; [done|].
    apply list_elem_of_lookup_2, elem_of_where in Hy as [Hym Hy].
    destruct (supersedes_next t x y) as (k & _ & Hk); [done..| |].
    { cbn in Hc. destruct (sl_supersedes x); [|done]. cbn. by rewrite sql_eq_sym. }
    apply list_elem_of_lookup_2, elem_of_where in Hk as [Hk _]. exfalso. unfold of_month, sql_eq in *. to_prop. congruence.
Qed.

Lemma asking_ok i (p : unit → action ledger_op ledger_error RecordSettlementResult) (Q : Prelude.result ledger_error RecordSettlementResult → list ledger_row → Prop) t :
  ledger_inv t → (∀ t', ledger_inv t' → t `prefix_of` t' → doing i (p tt) Q t' ∧ Q (Throw (DriverThrew Refused)) t') →
  doing i (await Ask ≫= p) Q t.
Proof.
  intros Ht HQ. apply ensures_bind. apply (reading_ok _ (fun _ => tt)); [done..|]. exact HQ.
Qed.

Lemma clock_ok i (Q : Prelude.result ledger_error Z → list ledger_row → Prop) t :
  ledger_inv t → (∀ now t', ledger_inv t' → t `prefix_of` t' → Q (Ok now) t') → doing i clock Q t.
Proof.
  intros Ht HQ c. cbn [ledger_perform]. split_and!; [done|by exists []; rewrite app_nil_r|]. intros t' Hr%rely_prefix Ht'. by apply HQ.
Qed.

Lemma insert_next_ok i v (Q : Prelude.result ledger_error RecordSettlementResult → list ledger_row → Prop) t :
  ledger_inv t → canonical_amount v → new_key v →
  (∀ res t', ledger_inv t' → write_says v res t' → Q res t') → doing i (insert_next v) Q t.
Proof.
  intros Ht Hcan Hnew HQ. unfold insert_next. apply ensures_bind. apply (reading_ok _ (select_current (billMonth v))); [done..|].
  intros t1 H1 P1. split; [|by apply HQ]. pose proof (read_next (billMonth v) t _ (proj1 Ht) eq_refl) as Hn.
  apply (next_of_prefix _ (month_rows (billMonth v) t1)) in Hn; [|by apply month_rows_prefix]. revert Hn.
  generalize (match select_current (billMonth v) t with Some c => cr_version_no c + 1 | None => 1 end) (cr_id <$> select_current (billMonth v) t).
  intros n sup Hn. apply ensures_bind, clock_ok; [done|]. intros now t2 H2 P2.
  pose proof (stored_clock now) as Hclock. revert Hclock. generalize (settlementTimestampOf now). intros text Hclock.
  apply ensures_bind. apply insert_ok; [by intros x Hx; apply Hclock|done..| | | |].
  - eapply next_of_prefix; [|exact Hn]. by apply month_rows_prefix.
  - intros t3 H3. by apply HQ.
  - intros r t3 H3 Hr Hor. apply HQ; [done|]. split; [done|]. by exists r.
  - intros r t3 H3 Hr Hk Hd Hres. cbn. apply HQ; [done|]. exists r. split_and!; [done..| |done]. cbn. by rewrite Hres.
Qed.

Lemma write_ok i v t : ledger_inv t → canonical_amount v → doing i (write v) (write_says v) t.
Proof.
  intros Ht Hcan. unfold write. apply asking_ok; [done|]. intros t1 H1 _. split; [|done].
  apply ensures_catch.
  assert (∀ res t', ledger_inv t' → write_says v res t' → match res with
    | Ok b => write_says v (Ok b) t'
    | Throw e => doing i (await Ask ≫= fun _ => sync (Throw e)) (write_says v) t' end) as HQ.
  { intros [a|e] t' Ht' Hsays; [done|]. apply asking_ok; [done|]. intros t2 H2 P2. split; [|done]. by eapply write_says_later. }
  apply asking_ok; [done|]. intros t2 H2 _. split; [|by apply (HQ (Throw (DriverThrew Refused)))].
  apply ensures_bind. apply (reading_ok _ (select_by_key (billMonth v) (idempotencyKey v))); [done..|].
  intros t3 H3 P3. split; [|by apply (HQ (Throw (DriverThrew Refused)))].
  unfold select_by_key. pose proof (key_row v t2 (proj1 H2)) as Hrow. unfold key_of in Hrow.
  destruct (head (where_ (of_key (billMonth v) (idempotencyKey v)) t2)) as [r|]; cbn [fmap option_fmap option_map].
  - destruct Hrow as [Hr Hk]. apply (replay_ok i v r); [done|by eapply elem_of_prefix|done|]. exact HQ.
  - apply insert_next_ok; [done..| |exact HQ]. intros r Hr. apply Hrow. eapply elem_of_prefix; [|exact Hr]. apply H2.
Qed.

(** ** What a job has done when it answers *)

Definition save_says (request : option RecordSettlementRequest) (res : Prelude.result settlement_error RecordSettlementResult) t : Prop :=
  match validateRecordSettlementRequest request with
  | Throw e => res = Throw e
  | Ok v =>
      match res with
      | Ok a => write_says v (Ok a) t
      | Throw e =>
          e = KserveSettlementUnavailableError ∨
          (e = different_amount ∧ ∃ r, r ∈ t ∧ key_of v r = true ∧ sl_request_digest r ≠ requestDigest v) ∨
          (e = lost_race ∧ new_key v ∧ ∃ r, r ∈ t ∧ (sql_eq (sl_id r) (settlementId v) = true ∨ of_month (billMonth v) r = true))
      end
  end.

(** What the history of a month shows of a ledger. *)
Definition history_now (month : string) (limit : Z) t : KserveSettlementHistory := {|
  kh_versions := history_of (take (Z.to_nat (bounded_limit limit)) (reverse (month_rows month t)));
  kh_truncated := bounded_limit limit <? Z.of_nat (length (month_rows month t));
|}.

(** The newest versions of the month as it was at some time since [t0]. *)
Definition history_says (month : string) (limit : Z) (res : Prelude.result settlement_error KserveSettlementHistory) t : Prop :=
  match res with
  | Ok h => ∃ t1, t0 `prefix_of` t1 ∧ t1 `prefix_of` t ∧
      h = history_now month limit t1
  | Throw e => e = KserveSettlementUnavailableError
  end.

Definition job_says (j : ledger_job) (res : Prelude.result settlement_error ledger_answer) t : Prop :=
  match j, res with
  | Save request, Ok (Saved a) => save_says request (Ok a) t
  | Save request, Throw e => save_says request (Throw e) t
  | History month limit, Ok (Read h) => history_says month limit (Ok h) t
  | History month limit, Throw e => history_says month limit (Throw e) t
  | _, _ => False
  end.

Lemma save_ok i request t : ledger_inv t → doing i (recordSettlement request) (save_says request) t.
Proof.
  intros Ht. unfold recordSettlement. apply ensures_bind. cbn [sync ensures]. unfold save_says.
  destruct (validateRecordSettlementRequest request) as [v|e] eqn:E; [|done].
  destruct request as [r|]; [|done]. apply validated_canonical in E as [Hcan _].
  apply ensures_catch. eapply ensures_mono; [by apply write_ok|]. intros [a|e] t' Hsays; [done|]. cbn [ensures sync].
  destruct e as [[]|e]; cbn [isDuplicateEntry safe_error]; [by right; right|by left|].
  destruct Hsays as [-> Hr]. right. by left.
Qed.

(** The extra row that is asked for only says that there is more. *)
Lemma select_history_ok month limit t : ledger_ok t →
  let rows := select_history month (bounded_limit limit + 1) t in
  take (Z.to_nat (bounded_limit limit)) rows = map version_row (take (Z.to_nat (bounded_limit limit)) (reverse (month_rows month t))) ∧
  (bounded_limit limit <? Z.of_nat (length rows)) = (bounded_limit limit <? Z.of_nat (length (month_rows month t))).
Proof.
  intros Ht. cbv zeta. unfold select_history. rewrite month_rows_newest by done.
  assert (1 ≤ bounded_limit limit) by (unfold bounded_limit, MAX_SETTLEMENT_HISTORY; lia).
  rewrite length_map, length_take, length_reverse, <- !fmap_take, take_take. split; [do 2 f_equal; lia|].
  destruct (Z.ltb_spec (bounded_limit limit) (Z.of_nat (length (month_rows month t)))); [apply Z.ltb_lt|apply Z.ltb_ge]; lia.
Qed.

Lemma good_month month t l : ledger_ok t → (∀ r, r ∈ l → r ∈ month_rows month t) → Forall good_row l.
Proof.
  intros (_ & Hg & _) Hl. apply Forall_forall. intros r [_ Hr]%Hl%elem_of_where. by eapply Forall_forall in Hr.
Qed.

Lemma history_ok i month limit t : ledger_inv t → doing i (readHistory month limit) (history_says month limit) t.
Proof.
  intros Ht. unfold readHistory. apply ensures_catch, ensures_bind. cbv zeta.
  apply (reading_ok _ (select_history month (bounded_limit limit + 1))); [done..|]. intros t1 H1 P1. split; [|done].
  destruct (select_history_ok month limit t (proj1 Ht)) as [E1 E2]. rewrite E1, E2.
  rewrite to_versions_rows.
  - cbn. exists t. split_and!; [apply Ht|done|done].
  - apply (good_month month t); [apply Ht|]. intros r Hr. apply elem_of_take in Hr as (k & Hr & _).
    by rewrite <- elem_of_reverse, list_elem_of_lookup; exists k.
Qed.

Lemma job_ok j i t : ledger_inv t → doing i (ledger_program j) (job_says j) t.
Proof.
  intros Ht. destruct j as [request|month limit]; apply ensures_bind.
  - eapply ensures_mono; [by apply save_ok|]. by intros [a|e].
  - eapply ensures_mono; [by apply history_ok|]. by intros [h|e].
Qed.

(** Any number of saves and reads, in every interleaving. *)
Definition ledger_reachable : config ledger_op (list ledger_row) ledger_job (Prelude.result settlement_error ledger_answer) → Prop :=
  reachable (@ledger_perform _) ledger_program t0.

Lemma ledger_pool c : ledger_ok t0 → ledger_reachable c →
  ledger_inv c.2 ∧ ∀ i j res, c.1 !! i = Some (Thread j (Ret res)) → job_says j res c.2.
Proof.
  intros H0 Hc.
  assert (pool_ok (@ledger_perform _) ledger_inv ledger_guar (fun _ _ => True) (fun j _ res => job_says j res) t0 c) as Hpool.
  { eapply adequacy; [..|exact Hc]; [done| |by split|done]. intros j i t Ht _. by apply job_ok. }
  split; [apply Hpool|]. intros i j res Hi. by apply (returned_post _ _ _ _ _ _ _ _ _ _ Hpool Hi).
Qed.
End Writing.

(** ** The current version *)

Section Current.
Context `{PL : Platform, CO : Collation}.
Implicit Types t : list ledger_row.

Definition is_superseded t (s : ledger_row) : bool := existsb (fun r => both_text (sl_supersedes r) (Some (sl_id s))) t.

(** The versions of a month that nothing supersedes. *)
Definition standing month t : list ledger_row := where_ (fun s => of_month month s && negb (is_superseded t s)) t.

Lemma last_standing month t l x : ledger_ok t → month_rows month t = l ++ [x] → is_superseded t x = false.
Proof.
  intros Ht E. assert (x ∈ month_rows month t) as [Hm Hx]%elem_of_where by (rewrite E; apply elem_of_app; right; by left).
  destruct (is_superseded t x) eqn:Es; [|done]. apply existsb_exists in Es as (s & Hs & Hb).
  destruct (supersedes_next t s x Ht) as (j & Hj & Hs'); [by apply list_elem_of_In|done..|].
  rewrite (month_rows_same _ _ _ Hm), E in Hj, Hs'. pose proof (proj2 (proj2 Ht) month) as Hch. rewrite E in Hch.
  destruct (Hch _ _ Hj) as [Vj _]. destruct (Hch (length l) x) as [Vl _]; [by apply list_lookup_middle|].
  apply lookup_lt_Some in Hs'. rewrite length_app in Hs'. cbn in Hs'. lia.
Qed.

Lemma earlier_superseded month t i y z : ledger_ok t → month_rows month t !! i = Some y → month_rows month t !! S i = Some z → is_superseded t y = true.
Proof.
  intros Ht Hy Hz. destruct (proj2 (proj2 Ht) month _ _ Hz) as [_ Hs]. rewrite Hy in Hs.
  apply existsb_exists. exists z. apply list_elem_of_lookup_2, elem_of_where in Hz as [_ Hz].
  split; [by apply list_elem_of_In|]. rewrite Hs. apply sql_eq_refl.
Qed.

Lemma standing_last month t : ledger_ok t → standing month t = match last (month_rows month t) with Some r => [r] | None => [] end.
Proof.
  intros Ht. assert (standing month t = where_ (fun s => negb (is_superseded t s)) (month_rows month t)) as ->.
  { unfold standing, month_rows, where_. rewrite list_filter_filter. apply list_filter_iff. intros s. rewrite andb_true_iff. tauto. }
  destruct (month_rows month t) as [|x l _] eqn:E using rev_ind; [done|].
  rewrite last_snoc, where_app, where_none; cbn.
  - by rewrite (last_standing _ _ _ _ Ht E).
  - intros y [i Hy]%list_elem_of_lookup_1. apply negb_false_iff.
    destruct (lookup_lt_is_Some_2 (month_rows month t) (S i)) as [z Hz]; [rewrite E, length_app; apply lookup_lt_Some in Hy; cbn; lia|].
    eapply earlier_superseded; [done| |exact Hz]. rewrite E. by apply lookup_app_l_Some.
Qed.

(** *** What the worker of late recordings reads *)

Definition as_settlement (r : ledger_row) : settlement_row := SettlementRow (sl_bill_month r) (sl_version_no r) (Some (sl_final_paid_amount r)).

Lemma paid_is_current month d t : ledger_ok t → settlements (other d) = map as_settlement t →
  paid_amount month d = (fun r => fixed8_of (sl_final_paid_amount r)) <$> last (month_rows month t).
Proof.
  intros Ht E. unfold paid_amount. rewrite E.
  assert (where_ (fun s => is_text (se_bill_month s) month) (map as_settlement t) = map as_settlement (month_rows month t)) as ->.
  { unfold month_rows. clear. induction t as [|r t IH]; [done|]. unfold where_ in *. cbn [map]. rewrite !filter_cons, IH.
    change (is_text (se_bill_month (as_settlement r)) month) with (of_month month r). by destruct (of_month month r). }
  rewrite (sort_by_map as_settlement newer) by done. rewrite month_rows_newest by done. rewrite <- head_reverse.
  by destruct (reverse (month_rows month t)).
Qed.
End Current.

(** ** A save that runs alone *)

Section Alone.
Context `{PL : Platform, CO : Collation}.
Implicit Types (t : list ledger_row) (v : ValidatedSettlementRequest).

(** A validated period is not empty. *)
Lemma period_in_order r v : validateRecordSettlementRequest (Some r) = Ok v → String.leb (periodStart v) (periodEnd v) = true.
Proof.
  intros (Hm & Hb & _)%validated_inv. destruct (settlement_months_tile _ _ Hm) as (ys & ms & _ & _ & _ & d & E & Hd & _).
  rewrite E in Hb. injection Hb as -> ->. rewrite leb_common.
  change (String.leb ("-" +:+ "01") ("-" +:+ pad_start 2 (show_nat d)) = true). rewrite leb_common.
  assert (d = 28 ∨ d = 29 ∨ d = 30 ∨ d = 31) as [->|[->|[->| ->]]] by lia; reflexivity.
Qed.

(** The row a save adds. *)
Definition next_row v (amount : Z) (text : string) (at_ : Z) t : ledger_row :=
  let l := month_rows (billMonth v) t in
  {| sl_id := settlementId v; sl_bill_month := billMonth v; sl_period_start := periodStart v; sl_period_end := periodEnd v;
     sl_currency := vs_currency v; sl_final_paid_amount := amount; sl_version_no := Z.of_nat (length l) + 1;
     sl_supersedes := sl_id <$> last l; sl_idempotency_key := idempotencyKey v; sl_request_digest := requestDigest v;
     sl_recorded_by := recordedByUserId v; sl_correlation_id := correlationId v; sl_recorded_at := text; sl_created_at := at_ |}.

Lemma next_row_new v amount text at_ t s : ledger_ok t → (∀ r, r ∈ t → key_of v r = false ∧ sql_eq (sl_id r) (settlementId v) = false) →
  s ∈ t → ledger_clashes (next_row v amount text at_ t) s = false.
Proof.
  intros Ht Hnew Hs. destruct (Hnew s Hs) as [Hk Hi]. unfold ledger_clashes. cbn [sl_id sl_bill_month sl_version_no sl_idempotency_key sl_supersedes next_row].
  unfold key_of, of_key, of_month in Hk. rewrite (sql_eq_sym (settlementId v)), Hi, (sql_eq_sym (billMonth v)), (sql_eq_sym (idempotencyKey v)), Hk.
  rewrite orb_false_r. apply orb_false_iff. split.
  - cbn [orb]. destruct (sql_eq (sl_bill_month s) (billMonth v)) eqn:Em; [|done]. cbn [andb]. apply Z.eqb_neq. intros Hv.
    assert (s ∈ month_rows (billMonth v) t) as [i Hsi]%list_elem_of_lookup_1 by by apply elem_of_where.
    destruct (proj2 (proj2 Ht) _ _ _ Hsi) as [Hvi _]. apply lookup_lt_Some in Hsi. lia.
  - destruct (last (month_rows (billMonth v) t)) as [x|] eqn:El; [|done]. cbn.
    apply last_Some in El as [l El]. pose proof (last_standing _ _ _ _ Ht El) as Hx. unfold is_superseded in Hx.
    destruct (both_text (Some (sl_id x)) (sl_supersedes s)) eqn:Eb; [|exact Eb]. exfalso.
    assert (existsb (fun r => both_text (sl_supersedes r) (Some (sl_id x))) t = true) as Hc; [|congruence].
    apply existsb_exists. exists s. split; [by apply list_elem_of_In|]. unfold both_text in *. destruct (sl_supersedes s); [|done]. by rewrite sql_eq_sym.
Qed.

Lemma insert_next_row r v z text at_ t x :
  validateRecordSettlementRequest (Some r) = Ok v → ledger_ok t →
  (∀ r, r ∈ t → key_of v r = false ∧ sql_eq (sl_id r) (settlementId v) = false) →
  (Z.of_nat (length (month_rows (billMonth v) t)) < 4294967295) → decimal_column (finalPaidAmountInr v) = Ok z → datetime_column text = Ok x →
  insert_settlement v (Z.of_nat (length (month_rows (billMonth v) t)) + 1) (sl_id <$> last (month_rows (billMonth v) t)) text at_ t =
  Ok (tt, t ++ [next_row v z x at_ t]).
Proof.
  intros Hv Ht Hnew Hlen Hz Hx. destruct (validated_canonical _ _ Hv) as [Hcan Hcur]. destruct (canonical_column _ _ Hcan Hz) as [Hz0 _].
  unfold insert_settlement. rewrite Hz, Hx. cbn [mbind result_bind].
  change (ledger_insert (next_row v z x at_ t) t = Ok (tt, t ++ [next_row v z x at_ t])). unfold ledger_insert.
  assert (ledger_checks (next_row v z x at_ t) = true) as ->.
  { unfold ledger_checks. cbn [sl_currency sl_final_paid_amount sl_version_no sl_supersedes sl_period_start sl_period_end next_row].
    rewrite Hcur, sql_eq_refl, (period_in_order _ _ Hv). set (n := length (month_rows (billMonth v) t)) in *.
    rewrite !(proj2 (Z.leb_le _ _)) by lia. cbn [andb]. rewrite !andb_true_r. apply orb_true_iff. unfold n.
    destruct (month_rows (billMonth v) t) as [|y l _] using rev_ind; [by left|]. right. rewrite last_snoc, length_app. cbn [length].
    rewrite bool_decide_eq_true_2 by (cbn; eauto). rewrite andb_true_r. apply Z.ltb_lt. lia. }
  assert (insert_unique ledger_clashes (next_row v z x at_ t) t = Ok (t ++ [next_row v z x at_ t])) as ->.
  { apply insert_unique_Ok. split; [|done]. intros s Hs. by apply next_row_new. }
  assert (has_parent t (next_row v z x at_ t) = true) as ->; [|done].
  unfold has_parent. cbn [sl_supersedes next_row]. destruct (last (month_rows (billMonth v) t)) as [y|] eqn:El; [|done]. cbn.
  apply last_Some in El as [l El]. assert (y ∈ month_rows (billMonth v) t) as [_ Hy]%elem_of_where by (rewrite El; apply elem_of_app; right; by left).
  apply existsb_exists. exists y. split; [by apply list_elem_of_In|apply sql_eq_refl].
Qed.

Lemma next_row_ok v z text at_ t : ledger_ok t → (∀ r, r ∈ t → key_of v r = false ∧ sql_eq (sl_id r) (settlementId v) = false) →
  good_row (next_row v z text at_ t) → ledger_ok (t ++ [next_row v z text at_ t]).
Proof.
  intros Ht Hnew Hg. apply ledger_ok_snoc; [done|done|intros s Hs; by apply next_row_new|]. cbn [sl_bill_month sl_version_no sl_supersedes next_row].
  pose proof (read_next (billMonth v) t _ Ht eq_refl) as Hn. rewrite select_current_last in Hn by done.
  destruct (last (month_rows (billMonth v) t)) as [y|] eqn:El; cbn in Hn.
  - by rewrite (last_version _ _ (proj2 (proj2 Ht) _) El) in Hn.
  - apply last_None in El. rewrite El. by left.
Qed.

(** *** Running it *)

(** Nothing is refused. *)
Definition calm (answers : nat → environment) : Prop := ∀ k m, refused (answers k) m = false.

Notation running := (run (@ledger_perform _) 0).

Lemma run_reading {A B} (o : ledger_op (Prelude.result ledger_error A)) read (k : A → action ledger_op ledger_error B) answers n t :
  (∀ c t, ledger_perform 0 o c t = reading read c t) → calm answers →
  running (await o ≫= k) answers n t = running (k (read t)) answers (S n) t.
Proof.
  intros Ho Hc. unfold await, mbind, action_bind. cbn [prog_seq run]. rewrite Ho. unfold reading, asking, catching, request. by rewrite Hc.
Qed.

Lemma run_replay v r answers n t : calm answers → good_row r →
  running (replay_stored v (version_row r)) answers n t =
  if bool_decide (sl_request_digest r = requestDigest v) then (Ok (result_of r replayed), (S n, t)) else (Throw (Failed different_amount), (n, t)).
Proof.
  intros Hc Hg. unfold replay_stored. cbn [version_row vr_request_digest].
  rewrite (bool_decide_ext (Some (sl_request_digest r) = Some (requestDigest v)) (sl_request_digest r = requestDigest v)) by (split; congruence).
  case_bool_decide; cbn [negb]; [|done]. rewrite (run_reading _ (fun _ => tt)) by done.
  by rewrite toSettlementVersion_row.
Qed.

Lemma run_insert r v z answers n t :
  calm answers → validateRecordSettlementRequest (Some r) = Ok v → ledger_ok t →
  (∀ r, r ∈ t → key_of v r = false ∧ sql_eq (sl_id r) (settlementId v) = false) →
  Z.of_nat (length (month_rows (billMonth v) t)) < 4294967295 → decimal_column (finalPaidAmountInr v) = Ok z →
  let text := settlementTimestampOf (wall_clock (answers (S n)) 0) in
  datetime_column text = Ok text →
  let row := next_row v z text (statement_time (answers (S (S n))) 0) t in
  running (insert_next v) answers n t = (Ok (result_of row recorded), (S (S (S n)), t ++ [row])).
Proof.
  intros Hc Hv Ht Hnew Hlen Hz text Htext row. destruct (validated_canonical _ _ Hv) as [Hcan Hcur]. destruct (canonical_column _ _ Hcan Hz) as [_ Hfix].
  assert (match select_current (billMonth v) t with Some c => cr_version_no c + 1 | None => 1 end = Z.of_nat (length (month_rows (billMonth v) t)) + 1 ∧
    cr_id <$> select_current (billMonth v) t = sl_id <$> last (month_rows (billMonth v) t)) as [En Es].
  { rewrite select_current_last by done. destruct (last (month_rows (billMonth v) t)) as [y|] eqn:El; cbn.
    - by rewrite (last_version _ _ (proj2 (proj2 Ht) _) El).
    - apply last_None in El. by rewrite El. }
  unfold insert_next. rewrite (run_reading _ (select_current (billMonth v))), En, Es by done.
  unfold clock. cbn [mbind action_bind prog_seq run ledger_perform]. fold text. unfold await. cbn [mbind action_bind prog_seq run].
  unfold ledger_perform, asking, catching, request. rewrite Hc.
  rewrite (insert_next_row _ _ z text _ _ text Hv Ht Hnew Hlen Hz Htext). fold row. rewrite Hc. unfold mbind. cbn.
  unfold result_of. cbn. by rewrite Hfix.
Qed.

Lemma run_save r v answers t : calm answers → validateRecordSettlementRequest (Some r) = Ok v →
  running (ledger_program (Save (Some r))) answers 0 t =
  let '(res, (n, t')) := running (match select_by_key (billMonth v) (idempotencyKey v) t with
                                  | Some replay => replay_stored v replay
                                  | None => insert_next v
                                  end) answers 3 t in
  match res with
  | Ok a => (Ok (Saved a), (n, t'))
  | Throw e => (Throw (if isDuplicateEntry e then lost_race else safe_error e), (S n, t'))
  end.
Proof.
  intros Hc Hv. unfold ledger_program, recordSettlement. rewrite Hv. unfold sync, mbind at 2, action_bind at 2. cbn [prog_seq].
  unfold rethrow, catch, mbind at 1, action_bind at 1. rewrite !run_seq.
  unfold write. rewrite (run_reading _ (fun _ => tt)) by done. unfold catch. rewrite run_seq.
  rewrite (run_reading _ (fun _ => tt)), (run_reading _ (select_by_key (billMonth v) (idempotencyKey v))) by done.
  destruct (running _ answers 3 t) as [[a|e] [n t']]; [done|].
  rewrite (run_reading _ (fun _ => tt)) by done. done.
Qed.

Lemma run_history month limit answers t : calm answers → ledger_ok t →
  running (ledger_program (History month limit)) answers 0 t = (Ok (Read (history_now month limit t)), (1%nat, t)).
Proof.
  intros Hc Ht. unfold ledger_program, readHistory, rethrow, catch, mbind at 1, action_bind at 1. rewrite !run_seq. cbv zeta.
  rewrite (run_reading _ (select_history month (bounded_limit limit + 1))) by done.
  destruct (select_history_ok month limit t Ht) as [E1 E2]. rewrite E1, E2, to_versions_rows; [done|].
  apply (good_month month t); [done|]. intros r Hr. apply elem_of_take in Hr as (k & Hr & _).
  by rewrite <- elem_of_reverse, list_elem_of_lookup; exists k.
Qed.

(** The column holds the amount of a validated request. *)
Lemma canonical_stored v : canonical_amount v → ∃ z, decimal_column (finalPaidAmountInr v) = Ok z.
Proof.
  intros (z & Hb & E). exists z. unfold decimal_column. rewrite E, toScaled_show_fixed8 by lia.
  by rewrite (proj2 (Z.ltb_lt _ _)) by (unfold MONEY_BOUND in Hb; lia).
Qed.

Lemma newest_first month limit t r : last (month_rows month t) = Some r → head (kh_versions (history_now month limit t)) = Some (version_of r true).
Proof.
  intros [l E]%last_Some. unfold history_now. cbn [kh_versions]. rewrite E, reverse_snoc.
  assert (∃ k, Z.to_nat (bounded_limit limit) = S k) as [k ->]; [|done].
  exists (pred (Z.to_nat (bounded_limit limit))). unfold bounded_limit, MAX_SETTLEMENT_HISTORY. lia.
Qed.
End Alone.

(** ** Theorems *)

Section Theorems.
Context `{PL : Platform, CO : Collation}.

(** C21: The settlements of a month are one append-only chain: from a well-formed ledger, in every
    interleaving of any number of saves and reads, whatever the database refuses and however
    old what a save has read is by the time it writes, every row that was written stays as it is; the
    rows of a month are the versions 1, 2, 3, ... in the order they were written, each superseding
    the one before it and the first none, so that exactly the highest version of a month is
    not superseded. A save that recorded or replayed answers with a row of its month, key and digest; one
    that refuses its key found a row of the key with another digest; one that lost a race found
    its identifier or its month taken. A read answers the newest versions of
    the month as it was, newest first, only the first marked current, and says whether there are more. *)
Theorem settlement_ledger_chained t0 c :
  ledger_ok t0 → ledger_reachable t0 c →
  t0 `prefix_of` c.2 ∧
  (∀ month i r, month_rows month c.2 !! i = Some r →
     sl_version_no r = Z.of_nat i + 1 ∧
     sl_supersedes r = match i with O => None | S j => sl_id <$> month_rows month c.2 !! j end) ∧
  (∀ month, standing month c.2 = match last (month_rows month c.2) with Some r => [r] | None => [] end) ∧
  ∀ i j res, c.1 !! i = Some (Thread j (Ret res)) → job_says t0 j res c.2.
Proof.
  intros H0 Hc. destruct (ledger_pool t0 c H0 Hc) as [[Hok Hp] Hret]. split_and!; [done| | |done].
  - intros month. apply Hok.
  - intros month. by apply standing_last.
Qed.

(** C22: A payment is recorded once: from a well-formed ledger that holds a row, in every interleaving of
    saves and reads, the row stays, and stays the only one of its month and key; every save of its
    key answers that row if it carries the digest of the row, and the conflict of the
    key if it does not, unless it is told that the ledger is unavailable; it never records
    another version. *)
Theorem settlement_retry_replays t0 r c :
  ledger_ok t0 → r ∈ t0 → ledger_reachable t0 c →
  r ∈ c.2 ∧
  (∀ month key s, s ∈ c.2 → of_key month key s = true → of_key month key r = true → s = r) ∧
  ∀ i request v res,
    c.1 !! i = Some (Thread (Save (Some request)) (Ret res)) → validateRecordSettlementRequest (Some request) = Ok v →
    of_key (billMonth v) (idempotencyKey v) r = true →
    res = Throw KserveSettlementUnavailableError ∨
    res = if bool_decide (sl_request_digest r = requestDigest v) then Ok (Saved (result_of r replayed)) else Throw different_amount.
Proof.
  intros H0 Hr Hc. destruct (ledger_pool t0 c H0 Hc) as [[Hok Hp] Hret].
  assert (r ∈ c.2) as Hr' by by eapply elem_of_prefix. split_and!; [done|intros month key s Hs Ks Kr; by eapply key_unique|].
  intros i request v res Hi Hv Hk. specialize (Hret i _ _ Hi). unfold job_says, save_says in Hret. rewrite Hv in Hret.
  assert (¬ new_key t0 v) as Hold by (intros Hnew; specialize (Hnew r Hr); unfold key_of in Hnew; congruence).
  destruct res as [[a|h]|e]; [|done|].
  - right. destruct Hret as (s & Hs & Ks & Hd & Ha & Hrec). assert (s = r) as -> by by eapply key_unique.
    rewrite bool_decide_eq_true_2 by done. rewrite Ha. cbn. by destruct (rr_outcome a); [destruct (Hold (Hrec eq_refl))|].
  - destruct Hret as [->|[(-> & s & Hs & Ks & Hd)|(_ & Hnew & _)]]; [by left| |done].
    right. assert (s = r) as -> by by eapply key_unique. by rewrite bool_decide_eq_false_2.
Qed.

(** C23: A recorded payment is the month's: a save that nothing disturbs, over a well-formed ledger
    where its identifier belongs to its key only, at a time the column can hold, replays
    the row of its key, refuses another amount for it, or, if the key is new, appends one
    row with the next version of the month, the submitted amount and the time of the clock,
    and answers it; the history of the month then begins with that version, marked
    current, and the amount the late-recording worker reads as paid is the submitted
    one. *)
Theorem settlement_becomes_current t request v answers :
  ledger_ok t → validateRecordSettlementRequest (Some request) = Ok v → calm answers →
  is_Some (NAIVE_DATETIME (settlementTimestampOf (wall_clock (answers 4%nat) 0))) →
  (∀ r, r ∈ t → sql_eq (sl_id r) (settlementId v) = true → key_of v r = true) →
  Z.of_nat (length (month_rows (billMonth v) t)) < 4294967295 →
  let '(res, (_, t')) := run (@ledger_perform _) 0 (ledger_program (Save (Some request))) answers 0 t in
  match head (where_ (key_of v) t) with
  | Some r => t' = t ∧
      res = if bool_decide (sl_request_digest r = requestDigest v) then Ok (Saved (result_of r replayed)) else Throw different_amount
  | None =>
      ∃ r, t' = t ++ [r] ∧ res = Ok (Saved (result_of r recorded)) ∧ key_of v r = true ∧
        sl_version_no r = Z.of_nat (length (month_rows (billMonth v) t)) + 1 ∧
        fixed8_of (sl_final_paid_amount r) = finalPaidAmountInr v ∧
        sl_recorded_at r = settlementTimestampOf (wall_clock (answers 4%nat) 0) ∧
        (∀ limit calmly, calm calmly →
           ∃ h n, run (@ledger_perform _) 0 (ledger_program (History (billMonth v) limit)) calmly 0 t' = (Ok (Read h), (n, t')) ∧
             head (kh_versions h) = Some (version_of r true)) ∧
        ∀ d, settlements (other d) = map as_settlement t' → paid_amount (billMonth v) d = Some (finalPaidAmountInr v)
  end.
Proof.
  intros Ht Hv Hc [p Hp] Hid Hlen. destruct (validated_canonical _ _ Hv) as [Hcan _].
  assert (datetime_column (settlementTimestampOf (wall_clock (answers 4%nat) 0)) = Ok (settlementTimestampOf (wall_clock (answers 4%nat) 0))) as Htext.
  { unfold datetime_column. rewrite Hp. f_equal. by apply clock_datetime. }
  rewrite (run_save _ v) by done. unfold select_by_key. pose proof (key_row v t Ht) as Hrow. unfold key_of in *.
  destruct (head (where_ (of_key (billMonth v) (idempotencyKey v)) t)) as [r|]; cbn [fmap option_fmap option_map].
  - destruct Hrow as [Hr _]. assert (good_row r) as Hg by (destruct Ht as (_ & Hg & _); by eapply Forall_forall in Hg).
    rewrite run_replay by done. by case_bool_decide.
  - assert (∃ z, decimal_column (finalPaidAmountInr v) = Ok z) as [z Hz].
    { destruct Hcan as (z & Hb & E). exists z. unfold decimal_column. rewrite E, toScaled_show_fixed8 by lia.
      by rewrite (proj2 (Z.ltb_lt _ _)) by (unfold MONEY_BOUND in Hb; lia). }
    assert (∀ r, r ∈ t → key_of v r = false ∧ sql_eq (sl_id r) (settlementId v) = false) as Hnew.
    { intros r Hr. split; [by apply Hrow|]. destruct (sql_eq _ _) eqn:E; [|done]. apply Hid in E; [|done]. by rewrite Hrow in E. }
    destruct (canonical_column _ _ Hcan Hz) as [Hb Hfix]. rewrite (run_insert request v z) by done.
    set (row := next_row _ _ _ _ _). exists row.
    assert (ledger_ok (t ++ [row])) as Hok.
    { apply next_row_ok; [done..|]. split; [cbn; lia|]. exists p. split; [by eapply NAIVE_DATETIME_parts|]. cbn. symmetry. by apply clock_datetime. }
    assert (of_month (billMonth v) row = true) as Hm by apply sql_eq_refl.
    assert (month_rows (billMonth v) (t ++ [row]) = month_rows (billMonth v) t ++ [row]) as Em.
    { unfold month_rows. rewrite where_app. f_equal. unfold where_. rewrite filter_cons. by rewrite decide_True. }
    split_and!; [done|done| |done|done|done| |].
    + unfold of_key. rewrite Hm. apply sql_eq_refl.
    + intros limit calmly Hcalm. eexists _, _. split; [by apply run_history|]. apply newest_first. by rewrite Em, last_snoc.
    + intros d Hd. by rewrite (paid_is_current _ _ _ Hok Hd), Em, last_snoc, <- Hfix.
Qed.
End Theorems.

(** ** Witnesses *)

Module DemoLedger.
#[export] Instance platform : Platform := demo_platform.
#[export] Instance bytes : Collation := {| collate := fun s => s |}.

(** [2024-07-24T10:40:00.123Z] *)
Definition quiet (_ : nat) : environment := Env (fun _ => false) (fun _ => false) (fun _ => 1000) (fun _ => "") (fun _ => 1721817600123) (fun _ => "").

(** The thread performs its next operation. *)
Definition turn (c : config ledger_op (list ledger_row) ledger_job (Prelude.result settlement_error ledger_answer)) (i : nat) :=
  match c.1 !! i with
  | Some (Thread j (Do o k)) => let '(x, t) := ledger_perform i o (quiet 0) c.2 in (<[i := Thread j (k x)]> c.1, t)
  | _ => c
  end.

Definition begin (c : config ledger_op (list ledger_row) ledger_job (Prelude.result settlement_error ledger_answer)) (j : ledger_job) :=
  (c.1 ++ [Thread j (ledger_program j)], c.2).

Definition played (jobs : list ledger_job) (turns : list nat) (t : list ledger_row) :=
  foldl turn (foldl begin ([], t) jobs) turns.

Lemma played_reachable jobs turns t : ledger_reachable t (played jobs turns t).
Proof.
  unfold ledger_reachable, reachable, played. transitivity (foldl begin ([], t) jobs).
  - generalize (([], t) : config ledger_op (list ledger_row) ledger_job (Prelude.result settlement_error ledger_answer)).
    induction jobs as [|j jobs IH]; intros c; [apply rtc_refl|]. cbn [foldl]. eapply rtc_l; [|apply IH]. destruct c. apply step_start.
  - generalize (foldl begin ([], t) jobs). induction turns as [|i turns IH]; intros c; [apply rtc_refl|]. cbn [foldl].
    transitivity (turn c i); [|apply IH]. unfold turn. destruct c as [ts w]. cbn [fst snd].
    destruct (ts !! i) as [[j [a|X o k]]|] eqn:E; [apply rtc_refl| |apply rtc_refl].
    destruct (ledger_perform i o (quiet 0) w) as [x w'] eqn:Ep. apply rtc_once. by eapply step_perform.
Qed.

Definition paying (amount key : string) : RecordSettlementRequest :=
  {| rq_month := u_string "2026-08"; rq_finalPaidAmountInr := u_string amount; rq_idempotencyKey := u_string key;
     rq_recordedByUserId := u_null; rq_correlationId := u_null |}.

Definition first_save : ledger_job := Save (Some (paying "1250.5" "first-save")).
Definition correction : ledger_job := Save (Some (paying "1200" "second-save")).

Definition empty_ok : ledger_ok [].
Proof. split; [reflexivity|]. split; [constructor|]. intros month i r H. discriminate H. Defined.

(** Two administrators read the same tail; one of them records, the other is told so. *)
Definition contended := played [first_save; correction] [0; 1; 0; 1; 0; 1; 0; 1; 0; 1; 1; 0; 0]%nat [].

(** The first save, and later a retry of it. *)
Definition once := played [first_save] [0; 0; 0; 0; 0; 0]%nat [].
Definition again := played [first_save] [0; 0; 0; 0]%nat once.2.
End DemoLedger.

Import DemoLedger.

Example contended_answers : map (fun t => rest t) contended.1 = [Ret (Throw lost_race); Ret (Ok (Saved (SettlementResult 1 "1200.00000000" "INR" "2024-07-24 10:40:00.123000" recorded)))].
Proof. vm_compute. reflexivity. Qed.

(** A button that is pressed twice: the second save, begun before the first had committed, is not replayed. *)
Example double_click : map (fun t => rest t) (played [first_save; first_save] [0; 1; 0; 1; 0; 1; 0; 1; 0; 1; 0; 1; 1]%nat []).1 =
  [Ret (Ok (Saved (SettlementResult 1 "1250.50000000" "INR" "2024-07-24 10:40:00.123000" recorded))); Ret (Throw lost_race)].
Proof. vm_compute. reflexivity. Qed.

Lemma settlement_ledger_chained_witness :
  length (month_rows "2026-08" contended.2) = 1%nat ∧
  job_says [] correction (Ok (Saved (SettlementResult 1 "1200.00000000" "INR" "2024-07-24 10:40:00.123000" recorded))) contended.2.
Proof.
  destruct (settlement_ledger_chained [] contended empty_ok (played_reachable _ _ _)) as (_ & _ & _ & H).
  split; [vm_compute; reflexivity|]. apply (H 1%nat). vm_compute. reflexivity.
Defined.

Lemma settlement_retry_replays_witness :
  ∃ r, again.2 = [r] ∧
    again.1 = [Thread first_save (Ret (Ok (Saved (result_of r replayed))))].
Proof.
  assert (ledger_ok once.2) as Hok.
  { destruct (ledger_pool [] once empty_ok (played_reachable _ _ _)) as [[H _] _]. exact H. }
  destruct (validateRecordSettlementRequest (Some (paying "1250.5" "first-save"))) as [v|e] eqn:Hv; [|vm_compute in Hv; discriminate Hv].
  destruct once.2 as [|r l] eqn:E; [vm_compute in E; discriminate E|].
  destruct (settlement_retry_replays once.2 r again) as (H1 & _ & H2).
  - rewrite E. exact Hok.
  - rewrite E. left.
  - apply played_reachable.
  - exists r. vm_compute in E. injection E as <- <-. vm_compute in Hv. injection Hv as <-.
    split; [vm_compute; reflexivity|].
    assert (∃ res, again.1 = [Thread first_save (Ret res)] ∧ res ≠ Throw KserveSettlementUnavailableError) as (res & Hres & Hne).
    { eexists. split; [vm_compute; reflexivity|]. discriminate. }
    rewrite Hres. destruct (H2 0%nat _ _ res ltac:(rewrite Hres; reflexivity) ltac:(vm_compute; reflexivity) ltac:(vm_compute; reflexivity)) as [-> | ->]; [done|].
    reflexivity.
Defined.

Lemma settlement_becomes_current_witness :
  ∃ r, (run (@ledger_perform _) 0 (ledger_program correction) quiet 0 once.2).2.2 = once.2 ++ [r] ∧
    sl_version_no r = 2 ∧ sl_supersedes r = sl_id <$> head once.2 ∧
    ∀ d, settlements (other d) = map as_settlement (once.2 ++ [r]) → paid_amount "2026-08" d = Some "1200.00000000".
Proof.
  assert (ledger_ok once.2) as Hok.
  { destruct (ledger_pool [] once empty_ok (played_reachable _ _ _)) as [[H _] _]. exact H. }
  destruct (validateRecordSettlementRequest (Some (paying "1200" "second-save"))) as [v|e] eqn:Hv; [|vm_compute in Hv; discriminate Hv].
  pose proof (settlement_becomes_current once.2 (paying "1200" "second-save") v quiet Hok Hv) as H.
  vm_compute in Hv. injection Hv as <-.
  destruct (run (@ledger_perform _) 0 (ledger_program (Save (Some (paying "1200" "second-save")))) quiet 0 once.2) as [res [n t']] eqn:Er.
  specialize (H (fun _ _ => eq_refl)). specialize (H ltac:(eexists; vm_compute; reflexivity)).
  specialize (H ltac:(vm_compute; intros r [->|[]%elem_of_nil]%elem_of_cons; discriminate)).
  specialize (H ltac:(vm_compute; reflexivity)).
  destruct (head (where_ _ once.2)) as [x|] eqn:Eh in H; [vm_compute in Eh; discriminate Eh|].
  destruct H as (r & -> & _ & _ & Hver & _ & _ & _ & Hpaid). exists r.
  change (ledger_program correction) with (ledger_program (Save (Some (paying "1200" "second-save")))). rewrite Er.
  split; [reflexivity|]. split; [rewrite Hver; vm_compute; reflexivity|]. split.
  - vm_compute in Er. injection Er. intros <- _ _. vm_compute. reflexivity.
  - intros d Hd. apply Hpaid in Hd. exact Hd.
Defined.
