(* ===== verification/LateStore.v ===== *)
(** * Late recordings: the operations

    [adapters/mysqlLateRecordingCorrections.ts] as programs of [Prog]: the upload that attaches
    recordings, the claim of the worker, the settlement of an item, and the preparation and
    finalization of a batch. A transaction, or a statement outside of one, is one step. *)

From Stdlib Require Import Ascii.
From S2P Require Import Prelude JsText CanonicalJson Decimal Persisted Sql Prog ReauditTypes BillingRecords LateRecording LateTables.

Local Open Scope string_scope.
Local Open Scope list_scope.
#[global] Open Scope Z_scope.

(** What an operation throws: an error of the program, or one of the driver. *)
Inductive late_failure : Type :=
| Raised (e : late_error)
| Driver (e : sql_error).

#[export] Instance late_failure_eq_dec : EqDecision late_failure.
Proof. assert (EqDecision sql_error) by solve_decision. solve_decision. Defined.

Definition raise (code : string) (status : Z) : late_failure := Raised (LateRecordingError code status).

Definition asSafeLateRecordingError (error : late_failure) : late_failure :=
  match error with
  | Raised (LateRecordingError _ _) => error
  | _ => raise "LATE_RECORDING_UNAVAILABLE" 503
  end.

(** The operations that are awaited. [Validate] is [runAutomatedValidation] over its candidate and
    [Persist] is [persistVerifiedBillingRecords]; [Outside] is whatever else the platform does to
    the tables. *)
Inductive late_op : Type → Type :=
| Connect : late_op (Prelude.result late_failure unit)
| Lock : late_op (Prelude.result late_failure bool)
| Unlock : late_op unit
| Ask {A : Type} (read : Z → late_tables → A) : late_op (Prelude.result late_failure A)
| Run {A : Type} (m : Sql late_tables late_failure A) : late_op (Prelude.result late_failure A)
| Now : late_op Z
| Validate (callId : string) : late_op (Prelude.result late_failure (option (bool * option string)))
| Persist (records : VerifiedBillingRecords) : late_op (Prelude.result late_failure unit)
| Outside (f : late_tables → late_tables) : late_op (Prelude.result late_failure unit).

Definition late_act : Type → Type := action late_op late_failure.

Definition safely {A} (m : late_act A) : late_act A := rethrow asSafeLateRecordingError m.

(** A statement of a transaction. *)
Definition statement {A} (s : Z → late_tables → Prelude.result sql_error (A * late_tables))
    : Sql late_tables late_failure A := catching (request s) Driver.

Definition select {A} (read : late_tables → A) : Sql late_tables late_failure A := statement (fun _ d => Ok (read d, d)).

(** A statement on its own: its answer may be lost after it took effect. *)
Definition autocommit {A} (s : Z → late_tables → Prelude.result sql_error (A * late_tables))
    : Sql late_tables late_failure A :=
  fun env n d =>
    match s (statement_time env n) d with
    | Throw e => (Throw (Driver e), (S n, d))
    | Ok (a, d') =>
        if refused env n then (Throw (Driver Refused), (S n, if landed env n then d' else d))
        else (Ok a, (S n, d'))
    end.

Definition transaction {A} (body : Sql late_tables late_failure A) : Sql late_tables late_failure A :=
  inTransaction (Driver Refused) (Driver Refused) (a ← body; mret (Outcome true a)).

Section Store.
Context `{PL : Platform, CO : Collation}.

Definition update_artifacts (P : artifact_row → bool) (f : artifact_row → artifact_row) (d : late_tables)
    : Prelude.result sql_error (nat * late_tables) :=
  let '(n, t) := update_where P f (artifacts d) in Ok (n, with_artifacts t d).

Definition update_batches (P : batch_row → bool) (f : batch_row → batch_row) (d : late_tables)
    : Prelude.result sql_error (nat * late_tables) :=
  let '(n, t) := update_where P f (batches d) in checked batch_check t (n, with_batches t d).

Definition update_items (P : item_row → bool) (f : item_row → item_row) (d : late_tables)
    : Prelude.result sql_error (nat * late_tables) :=
  let '(n, t) := update_where P f (items d) in checked item_check t (n, with_items t d).

Definition insert_batch (r : batch_row) (d : late_tables) : Prelude.result sql_error (unit * late_tables) :=
  t ← insert_unique batch_clashes r (batches d); checked batch_check t (tt, with_batches t d).

Definition insert_item (r : item_row) (d : late_tables) : Prelude.result sql_error (unit * late_tables) :=
  t ← insert_unique item_clashes r (items d); checked item_check t (tt, with_items t d).

Definition insert_correction (r : correction_row) (d : late_tables) : Prelude.result sql_error (unit * late_tables) :=
  t ← insert_unique correction_clashes r (corrections d); checked correction_check t (tt, with_corrections t d).

(** ** The upload *)

Record UploadRow : Type := Upload { up_row : LateRecordingCsvRow; up_canonicalUrl : string }.

Record AcceptedRow : Type := Accepted {
  ac_rowNumber : Z;
  ac_taskId : string;
  ac_callId : string;
  ac_artifactId : string;
  ac_canonicalUrl : string;
  ac_canonicalUrlSha256 : string;
  ac_previousAmount : option string;
  ac_supersededCalculationId : option string;
}.

Fixpoint decide_rows (facts : list (string * list LateRecordingCallFacts)) (available : bool) (rows : list UploadRow)
    : list LateRecordingRowDecision * list AcceptedRow :=
  match rows with
  | [] => ([], [])
  | row :: rows =>
      let '(decisions, accepted) := decide_rows facts available rows in
      let r := up_row row in
      let url := canonicalUrlSha256 (up_canonicalUrl row) in
      let outcome := decideLateRecordingRow (default [] (map_get (taskId r) facts)) url available in
      (RowDecision (rowNumber r) (decision_of outcome) :: decisions,
       match outcome with
       | AcceptRow callId artifactId amount calculation =>
           Accepted (rowNumber r) (taskId r) callId artifactId (up_canonicalUrl row) url amount calculation :: accepted
       | _ => accepted
       end)
  end.

Record Resolution : Type := Resolve {
  rv_preview : LateRecordingPreview;
  rv_accepted : list AcceptedRow;
  rv_rateCardVersionId : option string;
}.

Definition resolveBatch (p : period) (rows : list UploadRow) (carried : list LateRecordingRowDecision) : late_act Resolution :=
  if MAX_LATE_RECORDING_ROWS <? Z.of_nat (length rows) then sync (Throw (raise "LATE_RECORDING_BATCH_TOO_LARGE" 400))
  else
    card ← await (Ask (fun _ => applicableRateCardId p));
    facts ← (if bool_decide (rows = []) then mret []
             else resolved ← await (Ask (fun _ => resolveUploadedTasks p (map (fun r => taskId (up_row r)) rows)));
                  mret (factsByReference resolved) : late_act _);
    let '(decisions, accepted) := decide_rows facts (bool_decide (is_Some card)) rows in
    let decisions := carried ++ decisions in
    mret (Resolve (summarizeLateRecordingDecisions decisions (Z.of_nat (length decisions))) accepted card).

Definition previewLateRecordingBatch (p : period) (rows : list UploadRow) (carried : list LateRecordingRowDecision)
    : late_act LateRecordingPreview :=
  safely (r ← resolveBatch p rows carried; mret (rv_preview r)).

Record commit_input : Type := CommitInput {
  ci_period : period;
  ci_rows : list UploadRow;
  ci_carriedRejections : list LateRecordingRowDecision;
  ci_sourceFileSha256 : string;
  ci_idempotencyKey : string;
  ci_requestedByUserId : option string;
  ci_correlationId : string;
  ci_requestedAt : Z;
}.

Inductive commit_outcome : Type := commit_accepted | commit_replayed | nothing_to_do.

Record Receipt : Type := CommitReceipt {
  re_preview : LateRecordingPreview;
  re_batchId : option string;
  re_outcome : commit_outcome;
  re_status : option LateRecordingBatchStatus;
}.

(** [source_url IS NULL AND sha256 IS NULL] *)
Definition attachable (row : AcceptedRow) (a : artifact_row) : bool :=
  sql_eq (ar_id a) (ac_artifactId row) && sql_eq (ar_call_id a) (ac_callId row) && is_recording a &&
  bool_decide (ar_source_url a = None) && bool_decide (ar_sha256 a = None).

Definition attach_url (row : AcceptedRow) (a : artifact_row) : artifact_row := {|
  ar_id := ar_id a; ar_call_id := ar_call_id a; ar_type := ar_type a; ar_is_final := ar_is_final a;
  ar_source_url := Some (ac_canonicalUrl row);
  ar_sha256 := ar_sha256 a;
  ar_status := Some "pending";
  ar_attempts := Some 0;
  ar_last_attempt_at := None;
  ar_next_attempt_at := None;
  ar_last_error := None;
|}.

(** The rows that were attached, and those that lost a race. *)
Fixpoint attach_rows (rows : list AcceptedRow) : Sql late_tables late_failure (list AcceptedRow * list LateRecordingRowDecision) :=
  match rows with
  | [] => mret ([], [])
  | row :: rows =>
      n ← statement (fun _ => update_artifacts (attachable row) (attach_url row));
      rest ← attach_rows rows;
      mret (if Nat.eqb n 1 then (row :: rest.1, rest.2)
            else (rest.1, RowDecision (ac_rowNumber row) (row_rejected RECORDING_URL_ALREADY_PRESENT) :: rest.2))
  end.

Definition settled_preview (preview : LateRecordingPreview) (lost : list LateRecordingRowDecision) : LateRecordingPreview :=
  summarizeLateRecordingDecisions
    (List.filter (fun d => negb (existsb (fun l => rd_rowNumber l =? rd_rowNumber d) lost)) (pv_decisions preview) ++ lost)
    (pv_submittedCount preview).

Definition new_batch (input : commit_input) (id digest card : string) (settled : LateRecordingPreview) (accepted : Z) : batch_row := {|
  lb_id := id;
  lb_bill_month := pd_month (ci_period input);
  lb_period_start := pd_start (ci_period input);
  lb_period_end := pd_end (ci_period input);
  lb_source_file_sha256 := ci_sourceFileSha256 input;
  lb_request_digest := digest;
  lb_idempotency_key := ci_idempotencyKey input;
  lb_requested_by_user_id := ci_requestedByUserId input;
  lb_correlation_id := Some (ci_correlationId input);
  lb_ruleset_version := REAUDIT_CLASSIFIER_RULESET_VERSION;
  lb_rate_card_version_id := card;
  lb_baseline := None;
  lb_baseline_captured_at := None;
  lb_status := batch_accepted;
  lb_submitted := pv_submittedCount settled;
  lb_accepted := accepted;
  lb_rejected := pv_rejectedCount settled;
  lb_corrected := 0;
  lb_failed := 0;
  lb_requested_at := ci_requestedAt input;
  lb_started_at := None;
  lb_completed_at := None;
|}.

Definition new_item (id batchId : string) (row : AcceptedRow) (previous : option Z) (requestedAt : Z) : item_row := {|
  it_id := id;
  it_batch_id := batchId;
  it_call_id := ac_callId row;
  it_artifact_id := ac_artifactId row;
  it_task_reference := ac_taskId row;
  it_row_number := ac_rowNumber row;
  it_url_sha256 := ac_canonicalUrlSha256 row;
  it_state := item_accepted;
  it_attempts := 0;
  it_previous_amount := previous;
  it_revised_amount := None;
  it_superseded := ac_supersededCalculationId row;
  it_last_error_code := None;
  it_created_at := requestedAt;
  it_started_at := None;
  it_completed_at := None;
|}.

Fixpoint insert_items (batchId : string) (requestedAt : Z) (rows : list AcceptedRow) : Sql late_tables late_failure unit :=
  match rows with
  | [] => mret tt
  | row :: rows =>
      id ← newId;
      statement (fun _ d => previous ← nullable_decimal (ac_previousAmount row);
                            insert_item (new_item id batchId row previous requestedAt) d) ≫= fun _ =>
      insert_items batchId requestedAt rows
  end.

Definition nothing_attached (preview : LateRecordingPreview) : Receipt := CommitReceipt preview None nothing_to_do None.

Definition commit_body (input : commit_input) (digest : string) (r : Resolution) : Sql late_tables late_failure Receipt :=
  replay ← select (fun d => head (where_ (fun b => sql_eq (lb_idempotency_key b) (ci_idempotencyKey input)) (batches d)));
  match replay with
  | Some b =>
      if negb (String.eqb (lb_request_digest b) digest) || negb (String.eqb (lb_bill_month b) (pd_month (ci_period input)))
      then lift (Throw (raise "LATE_RECORDING_REQUEST_CONFLICT" 409))
      else mret (CommitReceipt (rv_preview r) (Some (lb_id b)) commit_replayed (Some (lb_status b)))
  | None =>
      if bool_decide (rv_accepted r = []) then mret (nothing_attached (rv_preview r))
      else match rv_rateCardVersionId r with
      | None => lift (Throw (raise "LATE_RECORDING_RATE_CARD_CHANGED" 409))
      | Some card =>
          batchId ← newId;
          attached ← attach_rows (rv_accepted r);
          let settled := settled_preview (rv_preview r) attached.2 in
          if bool_decide (attached.1 = []) then mret (nothing_attached settled)
          else
            statement (fun _ => insert_batch (new_batch input batchId digest card settled (Z.of_nat (length attached.1)))) ≫= fun _ =>
            insert_items batchId (ci_requestedAt input) attached.1 ≫= fun _ =>
            mret (CommitReceipt settled (Some batchId) commit_accepted (Some batch_accepted))
      end
  end.

Definition upload_digest (input : commit_input) : Prelude.result late_failure string :=
  match lateRecordingBatchDigest (pd_month (ci_period input))
          (map (fun r => (taskId (up_row r), canonicalUrlSha256 (up_canonicalUrl r))) (ci_rows input)) with
  | Ok h => Ok h
  | Throw e => Throw (Raised (LateThrown e))
  end.

(** Under the lock of uploads. *)
Definition commit_locked (input : commit_input) : late_act Receipt :=
  digest ← sync (upload_digest input);
  r ← resolveBatch (ci_period input) (ci_rows input) (ci_carriedRejections input);
  await (Run (transaction (commit_body input digest r))).

(** [try { m } finally { RELEASE_LOCK }] *)
Definition unlocking {A} (m : late_act A) : late_act A := prog_seq m (fun r => Do Unlock (fun _ => Ret r)).

Definition commitLateRecordingBatch (input : commit_input) : late_act Receipt :=
  await Connect ≫= fun _ =>
  safely (
    held ← await Lock;
    if negb held then sync (Throw (raise "LATE_RECORDING_BUSY" 409)) else unlocking (commit_locked input)).

(** ** The claim of the worker *)

Record ClaimedItem : Type := Claimed {
  cm_item : item_row;
  cm_source_url : string;
  cm_evidence_sha256 : option string;
}.

Definition in_errors (l : list string) (o : option string) : bool :=
  match o with Some e => in_texts l e | None => false end.

Definition RECLAIMABLE_EXHAUSTED_ERRORS : list string := ["CLASSIFICATION_VALIDATION_FAILED"; "AUDIT_SPEND_STATE_UNKNOWN"].
Definition MAX_AUDIO_ATTEMPTS : Z := 8.

Definition resumable (now : Z) (d : late_tables) (i : item_row) (a : artifact_row) : bool :=
  (default 0 (ar_attempts a) <? MAX_AUDIO_ATTEMPTS) && negb (audit_completed d (it_call_id i)) &&
  ((negb (in_texts ["completed"; "exhausted"] (default "pending" (ar_status a))) &&
    match ar_next_attempt_at a with Some t => t <=? now | None => true end) ||
   (match ar_status a with Some s => is_text s "exhausted" | None => false end &&
    in_errors RECLAIMABLE_EXHAUSTED_ERRORS (ar_last_error a))).

Definition claimable_item (now : Z) (d : late_tables) (i : item_row) (a : artifact_row) : bool :=
  match it_state i with
  | item_accepted => it_attempts i =? 0
  | auditing => (it_attempts i =? 1) && resumable now d i a
  | corrected | item_failed => false
  end.

(** [ORDER BY row_number, id] *)
Definition item_before (a b : item_row) : bool :=
  (it_row_number a <? it_row_number b) ||
  ((it_row_number a =? it_row_number b) && String.leb (collate (it_id a)) (collate (it_id b))).

Definition items_of (batchId : string) (d : late_tables) : list item_row :=
  sort_by item_before (where_ (fun i => sql_eq (it_batch_id i) batchId) (items d)).

Definition claim_candidates (now limit : Z) (batchId : string) (d : late_tables) : list ClaimedItem :=
  take (Z.to_nat (Z.min (Z.max 1 limit) MAX_LATE_RECORDING_ROWS))
    (concat (map (fun i =>
       omap (fun a => match ar_source_url a with
                      | Some u => if sql_eq (ar_id a) (it_artifact_id i) && claimable_item now d i a
                                  then Some (Claimed i u (ar_sha256 a)) else None
                      | None => None
                      end) (artifacts d)) (items_of batchId d))).

Definition start_item (now : Z) (r : item_row) : item_row := {|
  it_id := it_id r; it_batch_id := it_batch_id r; it_call_id := it_call_id r; it_artifact_id := it_artifact_id r;
  it_task_reference := it_task_reference r; it_row_number := it_row_number r; it_url_sha256 := it_url_sha256 r;
  it_state := auditing;
  it_attempts := it_attempts r + 1;
  it_previous_amount := it_previous_amount r; it_revised_amount := it_revised_amount r; it_superseded := it_superseded r;
  it_last_error_code := None;
  it_created_at := it_created_at r;
  it_started_at := Some now;
  it_completed_at := it_completed_at r;
|}.

Definition startable (id : string) (r : item_row) : bool :=
  sql_eq (it_id r) id && bool_decide (it_state r = item_accepted) && (it_attempts r =? 0).

(** The rows that are claimed after all. *)
Fixpoint start_items (rows claimed : list ClaimedItem) : Sql late_tables late_failure (list ClaimedItem) :=
  match rows with
  | [] => mret claimed
  | row :: rows =>
      let id := it_id (cm_item row) in
      if bool_decide (it_state (cm_item row) = auditing) then start_items rows claimed
      else
        n ← statement (fun now => update_items (startable id) (start_item now));
        start_items rows (if Nat.eqb n 1 then claimed
                          else List.filter (fun c => negb (String.eqb (it_id (cm_item c)) id)) claimed)
  end.

Definition set_status (status : LateRecordingBatchStatus) (started : option Z) (r : batch_row) : batch_row := {|
  lb_id := lb_id r; lb_bill_month := lb_bill_month r; lb_period_start := lb_period_start r; lb_period_end := lb_period_end r;
  lb_source_file_sha256 := lb_source_file_sha256 r; lb_request_digest := lb_request_digest r;
  lb_idempotency_key := lb_idempotency_key r; lb_requested_by_user_id := lb_requested_by_user_id r;
  lb_correlation_id := lb_correlation_id r; lb_ruleset_version := lb_ruleset_version r;
  lb_rate_card_version_id := lb_rate_card_version_id r;
  lb_baseline := lb_baseline r; lb_baseline_captured_at := lb_baseline_captured_at r;
  lb_status := status;
  lb_submitted := lb_submitted r; lb_accepted := lb_accepted r; lb_rejected := lb_rejected r;
  lb_corrected := lb_corrected r; lb_failed := lb_failed r;
  lb_requested_at := lb_requested_at r;
  lb_started_at := started;
  lb_completed_at := lb_completed_at r;
|}.

(** [COALESCE(started_at, at)] *)
Definition started (at_ : Z) (r : batch_row) : option Z := Some (default at_ (lb_started_at r)).

Definition batch_is (id : string) (r : batch_row) : bool := sql_eq (lb_id r) id.
Definition accepted_batch (id : string) (r : batch_row) : bool := batch_is id r && bool_decide (lb_status r = batch_accepted).

Definition claim_body (batchId : string) (limit : Z) : Sql late_tables late_failure (list ClaimedItem) :=
  rows ← statement (fun now d => Ok (claim_candidates now limit batchId d, d));
  claimed ← start_items rows rows;
  statement (fun now => update_batches (accepted_batch batchId) (fun r => set_status batch_running (started now r) r)) ≫= fun _ =>
  mret claimed.

(** [MAX] over the costs of a call; the minutes are compared as texts. *)
Definition max_ms (l : list (option Z)) : option Z := list_max (omap id l).
Definition max_text (l : list (option string)) : option string :=
  foldr (fun t best => match best with
                       | Some b => if String.leb (collate t) (collate b) then Some b else Some t
                       | None => Some t
                       end) None (omap id l).

Record CallCostRow : Type := CallCosts { cs_claimed : option Z; cs_connected : option Z; cs_minutes : option string }.

Definition call_costs (call : string) (d : late_tables) : CallCostRow :=
  let of_sku sku := where_ (fun c => sql_eq (co_call_id c) call && is_text (co_provider_sku c) sku) (costs (other d)) in {|
  cs_claimed := max_ms (map co_quantity_ms (of_sku "duration_with_ringing_sec"));
  cs_connected := max_ms (map co_quantity_ms (of_sku "duration_without_ringing_sec"));
  cs_minutes := max_text (map co_minutes (of_sku "vendor_asserted_billed_minutes"));
|}.

(** Of an integer or null. *)
Definition nullableMs (value : option Z) : option Z :=
  match value with Some v => if 0 <=? v then Some v else None | None => None end.

Definition late_candidate (d : late_tables) (c : ClaimedItem) : ReauditCandidate :=
  let cost := call_costs (it_call_id (cm_item c)) d in {|
  rc_callId := it_call_id (cm_item c);
  rc_artifactId := it_artifact_id (cm_item c);
  sourceUrl := cm_source_url c;
  baselineSha256 := cm_evidence_sha256 c;
  rc_claimedDurationMs := nullableMs (cs_claimed cost);
  rc_connectedDurationMs := nullableMs (cs_connected cost);
  vendorBilledMinutes := cs_minutes cost;
|}.

Definition listCandidates (batchId : string) (limit : Z) : late_act (list ReauditCandidate) :=
  await Connect ≫= fun _ =>
  claimed ← safely (await (Run (transaction (claim_body batchId limit))));
  if bool_decide (claimed = []) then mret []
  else safely (await (Ask (fun _ d => map (late_candidate d) claimed))).

(** In milliseconds: [Math.max(0, Math.round(microseconds / 1000))]. *)
Definition due_in (batchId : string) (now : Z) (d : late_tables) : option Z :=
  let due :=
    concat (map (fun i =>
      if bool_decide (it_state i = auditing) && (it_attempts i =? 1) && negb (audit_completed d (it_call_id i)) then
        omap (fun a =>
          if sql_eq (ar_id a) (it_artifact_id i) && bool_decide (is_Some (ar_source_url a)) &&
             (default 0 (ar_attempts a) <? MAX_AUDIO_ATTEMPTS) &&
             negb (in_texts ["completed"; "exhausted"] (default "pending" (ar_status a)))
          then match ar_next_attempt_at a with Some t => if now <? t then Some t else None | None => None end
          else None) (artifacts d)
      else []) (items_of batchId d)) in
  match due with
  | [] => None
  | t :: due => Some (Z.max 0 ((foldr Z.min t due - now + 500) / 1000))
  end.

Definition deferredWorkDueInMs (batchId : string) : late_act (option Z) := await (Ask (due_in batchId)).
End Store.
