(* ===== verification/LateBatch.v ===== *)
(** * Late recordings: the end of a batch

    The second half of [adapters/mysqlLateRecordingCorrections.ts]: the settlement of an item, the
    baseline of a batch, its immutable month correction, and the reads of the progress screen. *)

From Stdlib Require Import Ascii.
From S2P Require Import Prelude JsText CanonicalJson Decimal Sql Prog LateRecording LateTables LateStore.

Local Open Scope string_scope.
Local Open Scope list_scope.
#[global] Open Scope Z_scope.

(** Of a text that the code prints. *)
Definition print_amount (text : string) : Prelude.result late_failure string :=
  match fixed8 text with Ok t => Ok t | Throw e => Throw (Raised e) end.

Definition print_optional (text : option string) : Prelude.result late_failure (option string) :=
  match text with Some t => p ← print_amount t; Ok (Some p) | None => Ok None end.

Section Batch.
Context `{PL : Platform, CO : Collation}.

(** ** Settling an item *)

Inductive settle_outcome : Type := settle_corrected | settle_failed.

#[export] Instance settle_outcome_eq_dec : EqDecision settle_outcome.
Proof. solve_decision. Defined.

Definition settled_state (o : settle_outcome) : LateRecordingItemState :=
  match o with settle_corrected => corrected | settle_failed => item_failed end.

Record settle_input : Type := SettleInput {
  si_batchId : string;
  si_itemId : string;
  si_outcome : settle_outcome;
  si_errorCode : option string;
  si_previousAmount : option string;
  si_revisedAmount : option string;
  si_supersededCalculationId : option string;
  (** milliseconds *)
  si_at : Z;
}.

(** [DATETIME(6)] of a [Date], and back. *)
Definition stored_instant (ms : Z) : Z := 1000 * ms.
Definition read_instant (us : Z) : Z := us / 1000.

Definition coalesce {A} (a b : option A) : option A := match a with Some _ => a | None => b end.

Definition settle_row (input : settle_input) (previous revised : option Z) (r : item_row) : item_row := {|
  it_id := it_id r; it_batch_id := it_batch_id r; it_call_id := it_call_id r; it_artifact_id := it_artifact_id r;
  it_task_reference := it_task_reference r; it_row_number := it_row_number r; it_url_sha256 := it_url_sha256 r;
  it_state := settled_state (si_outcome input);
  it_attempts := it_attempts r;
  it_previous_amount := coalesce previous (it_previous_amount r);
  it_revised_amount := coalesce revised (it_revised_amount r);
  it_superseded := coalesce (si_supersededCalculationId input) (it_superseded r);
  it_last_error_code :=
    match si_outcome input with
    | settle_failed => Some (safeLateRecordingFailureCode (si_errorCode input))
    | settle_corrected => None
    end;
  it_created_at := it_created_at r;
  it_started_at := it_started_at r;
  it_completed_at := Some (stored_instant (si_at input));
|}.

Definition settleable (input : settle_input) (r : item_row) : bool :=
  sql_eq (it_id r) (si_itemId input) && sql_eq (it_batch_id r) (si_batchId input) && bool_decide (it_state r = auditing).

Definition count_items (p : LateRecordingItemState → bool) (batchId : string) (d : late_tables) : Z :=
  Z.of_nat (length (where_ (fun i => sql_eq (it_batch_id i) batchId && p (it_state i)) (items d))).

Definition is_state (s s' : LateRecordingItemState) : bool := bool_decide (s' = s).

Definition set_counts (correctedCount failedCount : Z) (status : LateRecordingBatchStatus) (completed_at : option Z)
    (r : batch_row) : batch_row := {|
  lb_id := lb_id r; lb_bill_month := lb_bill_month r; lb_period_start := lb_period_start r; lb_period_end := lb_period_end r;
  lb_source_file_sha256 := lb_source_file_sha256 r; lb_request_digest := lb_request_digest r;
  lb_idempotency_key := lb_idempotency_key r; lb_requested_by_user_id := lb_requested_by_user_id r;
  lb_correlation_id := lb_correlation_id r; lb_ruleset_version := lb_ruleset_version r;
  lb_rate_card_version_id := lb_rate_card_version_id r;
  lb_baseline := lb_baseline r; lb_baseline_captured_at := lb_baseline_captured_at r;
  lb_status := status;
  lb_submitted := lb_submitted r; lb_accepted := lb_accepted r; lb_rejected := lb_rejected r;
  lb_corrected := correctedCount;
  lb_failed := failedCount;
  lb_requested_at := lb_requested_at r;
  lb_started_at := lb_started_at r;
  lb_completed_at := completed_at;
|}.

Definition update_settled (input : settle_input) (previous revised : option string) (d : late_tables)
    : Prelude.result sql_error (nat * late_tables) :=
  p ← nullable_decimal previous; v ← nullable_decimal revised;
  update_items (settleable input) (settle_row input p v) d.

Definition recount (batchId : string) (d : late_tables) : Prelude.result sql_error (nat * late_tables) :=
  update_batches (batch_is batchId)
    (fun r => set_counts (count_items (is_state corrected) (lb_id r) d) (count_items (is_state item_failed) (lb_id r) d)
                batch_running None r) d.

(** Two statements on their own. *)
Definition settleLateRecordingItem (input : settle_input) : late_act unit :=
  previous ← sync (print_optional (si_previousAmount input));
  revised ← sync (print_optional (si_revisedAmount input));
  n ← await (Run (autocommit (fun _ => update_settled input previous revised)));
  if negb (Nat.eqb n 1) then sync (Throw (raise "LATE_RECORDING_ITEM_STATE_CONFLICT" 500))
  else await (Run (autocommit (fun _ => recount (si_batchId input)))) ≫= fun _ => mret tt.

(** ** The month *)

Definition readVerifiedMonthTotal (p : period) : late_act string := await (Ask (fun _ => month_total p)).

Definition readActualPaidAmount (month : string) : late_act (option string) :=
  catch (await (Ask (fun _ => paid_amount month))) (fun _ => mret None).

(** ** The baseline *)

Record Preparation : Type := Prepared {
  pr_rateCardVersionId : string;
  pr_previousVerifiedTotal : string;
  pr_finalized : bool;
}.

Definition capture (total at_ : Z) (r : batch_row) : batch_row := {|
  lb_id := lb_id r; lb_bill_month := lb_bill_month r; lb_period_start := lb_period_start r; lb_period_end := lb_period_end r;
  lb_source_file_sha256 := lb_source_file_sha256 r; lb_request_digest := lb_request_digest r;
  lb_idempotency_key := lb_idempotency_key r; lb_requested_by_user_id := lb_requested_by_user_id r;
  lb_correlation_id := lb_correlation_id r; lb_ruleset_version := lb_ruleset_version r;
  lb_rate_card_version_id := lb_rate_card_version_id r;
  lb_baseline := Some total; lb_baseline_captured_at := Some at_;
  lb_status := batch_running;
  lb_submitted := lb_submitted r; lb_accepted := lb_accepted r; lb_rejected := lb_rejected r;
  lb_corrected := lb_corrected r; lb_failed := lb_failed r;
  lb_requested_at := lb_requested_at r;
  lb_started_at := started at_ r;
  lb_completed_at := lb_completed_at r;
|}.

Definition unprepared (batchId : string) (r : batch_row) : bool := batch_is batchId r && bool_decide (lb_baseline r = None).

Definition batch_of (batchId : string) (d : late_tables) : option batch_row := head (where_ (batch_is batchId) (batches d)).

Definition correction_of (batchId : string) (d : late_tables) : option correction_row :=
  head (where_ (fun c => sql_eq (mc_batch_id c) batchId) (corrections d)).

Definition capture_baseline (batchId : string) (p : period) (at_ : Z) : Sql late_tables late_failure string :=
  total ← select (month_total p);
  n ← statement (fun _ d => v ← decimal_column total; update_batches (unprepared batchId) (capture v at_) d);
  if negb (Nat.eqb n 1) then lift (Throw (raise "LATE_RECORDING_BASELINE_CONFLICT" 409)) else mret total.

(** The batch row is locked for the transaction. *)
Definition prepare_body (batchId : string) (p : period) (at_ : Z) : Sql late_tables late_failure (option Preparation) :=
  batch ← select (batch_of batchId);
  match batch with
  | None => mret None
  | Some b =>
      correction ← select (correction_of batchId);
      previous ← match lb_baseline b with
                 | None => capture_baseline batchId p at_
                 | Some v =>
                     (if bool_decide (lb_status b = batch_accepted) then
                        statement (fun _ => update_batches (accepted_batch batchId) (fun r => set_status batch_running (started at_ r) r))
                      else mret 0%nat) ≫= fun _ =>
                     mret (fixed8_of v)
                 end;
      previous ← lift (print_amount previous);
      mret (Some (Prepared (lb_rate_card_version_id b) previous (bool_decide (is_Some correction))))
  end.

Definition prepareLateRecordingBatch (batchId : string) (p : period) (at_ : Z) : late_act (option Preparation) :=
  await Connect ≫= fun _ => safely (await (Run (transaction (prepare_body batchId p (stored_instant at_))))).

(** ** The month correction *)

Inductive finalize_outcome : Type := recorded | finalize_replayed | finalize_in_flight.

Record Finalization : Type := Finalized {
  fz_outcome : finalize_outcome;
  fz_previousVerifiedTotal : string;
  fz_revisedVerifiedTotal : option string;
  fz_deltaAmount : option string;
  fz_correctedCount : Z;
  fz_failedCount : Z;
}.

Record finalize_input : Type := FinalizeInput {
  fi_batchId : string;
  fi_billMonth : string;
  fi_revisedVerifiedTotal : string;
  fi_actualPaidAmount : option string;
  fi_revisedVariance : option string;
}.

Record correction_payload : Type := Payload {
  py_billMonth : string;
  py_previousVerifiedTotal : string;
  py_revisedVerifiedTotal : string;
  py_deltaAmount : string;
  py_actualPaidAmount : option string;
  py_revisedVariance : option string;
  py_correctedCount : Z;
  py_failedCount : Z;
  (** milliseconds *)
  py_completedAt : Z;
}.

Definition correctionMatches (row : correction_row) (payload : correction_payload) : bool :=
  String.eqb (mc_bill_month row) (py_billMonth payload) &&
  String.eqb (mc_currency row) "INR" &&
  String.eqb (fixed8_of (mc_previous row)) (py_previousVerifiedTotal payload) &&
  String.eqb (fixed8_of (mc_revised row)) (py_revisedVerifiedTotal payload) &&
  String.eqb (fixed8_of (mc_delta row)) (py_deltaAmount payload) &&
  bool_decide ((fixed8_of <$> mc_actual_paid row) = py_actualPaidAmount payload) &&
  bool_decide ((fixed8_of <$> mc_revised_variance row) = py_revisedVariance payload) &&
  (mc_corrected row =? py_correctedCount payload) &&
  (mc_failed row =? py_failedCount payload) &&
  (read_instant (mc_completed_at row) =? py_completedAt payload).

(** The counts of the items of a batch, and the latest completion. *)
Record rollup : Type := Rollup { ro_live : Z; ro_corrected : Z; ro_failed : Z; ro_completed_at : option Z }.

Definition roll_up (batchId : string) (d : late_tables) : rollup := {|
  ro_live := count_items live batchId d;
  ro_corrected := count_items (is_state corrected) batchId d;
  ro_failed := count_items (is_state item_failed) batchId d;
  ro_completed_at := list_max (omap it_completed_at (where_ (fun i => sql_eq (it_batch_id i) batchId) (items d)));
|}.

Definition insert_payload (id batchId : string) (y : correction_payload) (d : late_tables)
    : Prelude.result sql_error (unit * late_tables) :=
  previous ← decimal_column (py_previousVerifiedTotal y);
  revised ← decimal_column (py_revisedVerifiedTotal y);
  delta ← decimal_column (py_deltaAmount y);
  paid ← nullable_decimal (py_actualPaidAmount y);
  variance ← nullable_decimal (py_revisedVariance y);
  insert_correction (CorrectionRow id batchId (py_billMonth y) "INR" previous revised delta paid variance
                       (py_correctedCount y) (py_failedCount y) (stored_instant (py_completedAt y))) d.

Definition finalization_conflict : late_failure := raise "LATE_RECORDING_FINALIZATION_CONFLICT" 409.
Definition correction_conflict : late_failure := raise "LATE_RECORDING_CORRECTION_CONFLICT" 409.

Definition replay_correction (batchId : string) (y : correction_payload) (existing : option correction_row)
    : Sql late_tables late_failure finalize_outcome :=
  match existing with
  | Some row => if correctionMatches row y then mret finalize_replayed else lift (Throw correction_conflict)
  | None => lift (Throw correction_conflict)
  end.

(** [ON] a duplicate key the correction of another transaction is read again. *)
Definition record_correction (batchId : string) (y : correction_payload) : Sql late_tables late_failure finalize_outcome :=
  existing ← select (correction_of batchId);
  match existing with
  | Some _ => replay_correction batchId y existing
  | None =>
      id ← newId;
      trying (statement (fun _ => insert_payload id batchId y) ≫= fun _ => mret recorded) (fun e =>
        if bool_decide (e = Driver DuplicateEntry) then
          raced ← select (correction_of batchId); replay_correction batchId y raced
        else lift (Throw e))
  end.

Definition final_status (failedCount : Z) : LateRecordingBatchStatus :=
  if 0 <? failedCount then completed_with_failures else batch_completed.

(** A text of the input that was printed, or [null]. *)
Definition payload_of (input : finalize_input) (r : rollup) (baseline completedAt : Z) : Prelude.result late_failure correction_payload :=
  match lateRecordingCorrectionTotals (fixed8_of baseline) (fi_revisedVerifiedTotal input) (ro_corrected r) with
  | Throw e => Throw (Raised e)
  | Ok totals =>
      paid ← print_optional (fi_actualPaidAmount input);
      variance ← print_optional (fi_revisedVariance input);
      Ok (Payload (fi_billMonth input) (ct_previousVerifiedTotal totals) (ct_revisedVerifiedTotal totals) (ct_deltaAmount totals)
            paid variance (ro_corrected r) (ro_failed r) (read_instant completedAt))
  end.

Definition finish_batch (input : finalize_input) (r : rollup) (y : correction_payload) : Sql late_tables late_failure Finalization :=
  outcome ← record_correction (fi_batchId input) y;
  statement (fun _ => update_batches (batch_is (fi_batchId input))
    (set_counts (ro_corrected r) (ro_failed r) (final_status (ro_failed r)) (Some (stored_instant (py_completedAt y))))) ≫= fun _ =>
  mret (Finalized outcome (py_previousVerifiedTotal y) (Some (py_revisedVerifiedTotal y)) (Some (py_deltaAmount y))
          (ro_corrected r) (ro_failed r)).

Definition finalize_body (input : finalize_input) : Sql late_tables late_failure Finalization :=
  batch ← select (batch_of (fi_batchId input));
  match batch with
  | None => lift (Throw finalization_conflict)
  | Some b =>
      match lb_baseline b with
      | None => lift (Throw finalization_conflict)
      | Some baseline =>
          if negb (String.eqb (lb_bill_month b) (fi_billMonth input)) then lift (Throw finalization_conflict)
          else
            r ← select (roll_up (fi_batchId input));
            if 0 <? ro_live r then
              mret (Finalized finalize_in_flight (fixed8_of baseline) None None (ro_corrected r) (ro_failed r))
            else match ro_completed_at r with
            | None => lift (Throw finalization_conflict)
            | Some completedAt =>
                if negb (ro_corrected r + ro_failed r =? lb_accepted b) then lift (Throw finalization_conflict)
                else y ← lift (payload_of input r baseline completedAt); finish_batch input r y
            end
      end
  end.

Definition finalizeLateRecordingBatch (input : finalize_input) : late_act Finalization :=
  await Connect ≫= fun _ => safely (await (Run (transaction (finalize_body input)))).

(** ** The reads of others *)

Record ItemProgress : Type := Progress {
  ip_taskReference : string;
  ip_rowNumber : Z;
  ip_state : LateRecordingItemState;
  ip_previousAmount : option string;
  ip_revisedAmount : option string;
  ip_failureCode : option string;
  ip_completedAt : option Z;
}.

Record BatchProgress : Type := ProgressOf {
  bp_batchId : string;
  bp_billMonth : string;
  bp_status : LateRecordingBatchStatus;
  bp_submitted : Z;
  bp_accepted : Z;
  bp_rejected : Z;
  bp_queued : Z;
  bp_auditing : Z;
  bp_completed : Z;
  bp_failed : Z;
  bp_finalized : bool;
  bp_previousVerifiedTotal : option string;
  bp_revisedVerifiedTotal : option string;
  bp_totalAdjustment : option string;
  bp_items : list ItemProgress;
}.

Definition item_progress (i : item_row) : ItemProgress := {|
  ip_taskReference := it_task_reference i;
  ip_rowNumber := it_row_number i;
  ip_state := it_state i;
  ip_previousAmount := fixed8_of <$> it_previous_amount i;
  ip_revisedAmount := fixed8_of <$> it_revised_amount i;
  ip_failureCode := if bool_decide (it_state i = item_failed) then Some (safeLateRecordingFailureCode (it_last_error_code i)) else None;
  ip_completedAt := read_instant <$> it_completed_at i;
|}.

Definition progress_of (b : batch_row) (l : list item_row) (c : option correction_row) : BatchProgress :=
  let counted s := Z.of_nat (length (List.filter (fun i => is_state s (it_state i)) l)) in {|
  bp_batchId := lb_id b;
  bp_billMonth := lb_bill_month b;
  bp_status := lb_status b;
  bp_submitted := lb_submitted b;
  bp_accepted := lb_accepted b;
  bp_rejected := lb_rejected b;
  bp_queued := counted item_accepted;
  bp_auditing := counted auditing;
  bp_completed := counted corrected;
  bp_failed := counted item_failed;
  bp_finalized := bool_decide (is_Some c);
  bp_previousVerifiedTotal := fixed8_of ∘ mc_previous <$> c;
  bp_revisedVerifiedTotal := fixed8_of ∘ mc_revised <$> c;
  bp_totalAdjustment := fixed8_of ∘ mc_delta <$> c;
  bp_items := map item_progress l;
|}.

Definition readLateRecordingBatchProgress (batchId : string) : late_act (option BatchProgress) :=
  safely (
    batch ← await (Ask (fun _ => batch_of batchId));
    match batch with
    | None => mret None
    | Some b =>
        l ← await (Ask (fun _ => items_of batchId));
        c ← await (Ask (fun _ => correction_of batchId));
        mret (Some (progress_of b l c))
    end).

Definition requested_before (a b : batch_row) : bool := lb_requested_at a <=? lb_requested_at b.

Definition unfinished (limit : Z) (d : late_tables) : list string :=
  take (Z.to_nat (Z.min (Z.max 1 limit) 50))
    (map lb_id (sort_by requested_before
       (where_ (fun b => negb (existsb (fun c => sql_eq (mc_batch_id c) (lb_id b)) (corrections d))) (batches d)))).

Definition listUnfinishedLateRecordingBatchIds (limit : Z) : late_act (list string) :=
  safely (await (Ask (fun _ => unfinished limit))).

Definition awaiting (batchId : string) (d : late_tables) : list item_row :=
  take (Z.to_nat MAX_LATE_RECORDING_ROWS) (List.filter (fun i => is_state auditing (it_state i)) (items_of batchId d)).

Definition listLateRecordingItemsAwaitingCorrection (batchId : string) : late_act (list (string * string * string)) :=
  safely (l ← await (Ask (fun _ => awaiting batchId));
          mret (map (fun i => (it_id i, it_call_id i, it_task_reference i)) l)).
End Batch.
