(* ===== verification/LateCorrect.v ===== *)
(** * Late recordings: the money of an item

    [lateRecording/correctItem.ts] and the facts it decides from
    ([listLateRecordingCorrectionFacts] of [adapters/mysqlLateRecordingCorrections.ts]). *)

From Stdlib Require Import Ascii.
From S2P Require Import Prelude JsText CanonicalJson Decimal ReauditTypes VerifiedCharge BillingRecords AcceptedAsBilled AuditedProjection Sql Prog LateRecording LateTables LateStore LateBatch.

Local Open Scope string_scope.
Local Open Scope list_scope.
#[global] Open Scope Z_scope.

Section Facts.
Context `{PL : Platform, CO : Collation}.

(** ** The facts *)

Record CorrectionFacts : Type := FactsOf {
  fa_itemId : string;
  fa_callId : string;
  fa_taskReference : string;
  fa_state : LateRecordingItemState;
  fa_auditCompleted : bool;
  fa_auditExhausted : bool;
  fa_auditRunId : option string;
  fa_category : option string;
  fa_recordedDurationMs : option Z;
  fa_speechDurationMs : option Z;
  fa_serviceEndMs : option Z;
  fa_graceMs : option Z;
  fa_vendorBilledMinutes : option string;
  fa_vendorBilledAmount : option string;
  fa_claimedDurationMs : option Z;
  fa_connectedDurationMs : option Z;
  fa_evidenceObjectId : option string;
  fa_evidenceSha256 : option string;
  fa_baselineCalculationId : option string;
  fa_baselineTotalAmount : option string;
  fa_persistedRevisedAmount : option string;
}.

(** [ORDER BY created_at DESC, id DESC] *)
Definition media_before (a b : media_row) : bool :=
  (md_created_at b <? md_created_at a) ||
  ((md_created_at a =? md_created_at b) && String.leb (collate (md_id b)) (collate (md_id a))).

Definition newest_media (d : late_tables) (artifact : string) : option media_row :=
  head (sort_by media_before
    (where_ (fun m => sql_eq (md_artifact_id m) artifact && is_text (md_status m) "completed" &&
                      match md_classification_status m with Some s => is_text s "completed" | None => false end) (media (other d)))).

Definition final_costs (d : late_tables) (call sku : string) : list (option cost_row) :=
  left_join (fun c => sql_eq (co_call_id c) call && is_text (co_provider_sku c) sku && co_is_final c) (costs (other d)).

(** The audit will not claim the recording again. *)
Definition exhausted (a : artifact_row) : bool :=
  bool_decide (ar_status a = Some "exhausted") &&
  negb (existsb (String.eqb (default "" (ar_last_error a))) RECLAIMABLE_EXHAUSTED_ERRORS &&
        (default 0 (ar_attempts a) <? MAX_AUDIO_ATTEMPTS)).

(** A calculation under the card of the batch that supersedes the one before the upload. *)
Definition persisted_amount (i : item_row) (b : batch_row) (live : option calculation_row) : option string :=
  match live with
  | Some c =>
      if negb (bool_decide (Some (cc_id c) = it_superseded i)) &&
         bool_decide (cc_rate_card c = Some (lb_rate_card_version_id b)) &&
         bool_decide (cc_supersedes c = it_superseded i)
      then Some (fixed8_of (cc_total_amount c)) else None
  | None => None
  end.

Definition facts_row (i : item_row) (b : batch_row) (c : call_row) (a : artifact_row) (m : option media_row)
    (minutes : option cost_row) (e : option evidence_row) (amount ringing connected : option cost_row)
    (live : option calculation_row) : CorrectionFacts :=
  let duration := m ≫= md_decoded_duration_ms in {|
  fa_itemId := it_id i;
  fa_callId := it_call_id i;
  fa_taskReference := it_task_reference i;
  fa_state := it_state i;
  fa_auditCompleted := bool_decide (is_Some duration) && bool_decide (is_Some (cl_canonical_outcome_code c));
  fa_auditExhausted := exhausted a;
  fa_auditRunId := cl_latest_audit_run_id c;
  fa_category := cl_canonical_outcome_code c;
  fa_recordedDurationMs := nullableMs duration;
  fa_speechDurationMs := nullableMs (m ≫= md_speech_ms);
  fa_serviceEndMs := nullableMs (coalesce (m ≫= md_chargeable_end_ms) (m ≫= md_conversation_end_ms));
  fa_graceMs := nullableMs (coalesce (m ≫= md_grace_ms) (Some 60000));
  fa_vendorBilledMinutes := minutes ≫= co_minutes;
  fa_vendorBilledAmount := amount ≫= co_quantity;
  fa_claimedDurationMs := nullableMs (ringing ≫= co_quantity_ms);
  fa_connectedDurationMs := nullableMs (connected ≫= co_quantity_ms);
  fa_evidenceObjectId := ev_id <$> e;
  fa_evidenceSha256 := e ≫= ev_sha256;
  fa_baselineCalculationId := it_superseded i;
  fa_baselineTotalAmount := fixed8_of <$> it_previous_amount i;
  fa_persistedRevisedAmount := persisted_amount i b live;
|}.

Definition correction_facts (batchId : string) (d : late_tables) : list CorrectionFacts :=
  take (Z.to_nat MAX_LATE_RECORDING_ROWS) (
    i ← List.filter (fun i => is_state auditing (it_state i)) (items_of batchId d);
    b ← where_ (fun b => sql_eq (lb_id b) (it_batch_id i)) (batches d);
    c ← where_ (fun c => sql_eq (cl_id c) (it_call_id i)) (calls (other d));
    a ← where_ (fun a => sql_eq (ar_id a) (it_artifact_id i)) (artifacts d);
    minutes ← final_costs d (cl_id c) "vendor_asserted_billed_minutes";
    e ← left_join (fun e => same_key (Some (ev_id e)) (minutes ≫= co_source_evidence)) (evidence (other d));
    amount ← final_costs d (cl_id c) "vendor_asserted_billed_amount";
    ringing ← final_costs d (cl_id c) "duration_with_ringing_sec";
    connected ← final_costs d (cl_id c) "duration_without_ringing_sec";
    mret (facts_row i b c a (newest_media d (it_artifact_id i)) minutes e amount ringing connected (live_calculation d (cl_id c)))).

Definition listLateRecordingCorrectionFacts (batchId : string) : late_act (list CorrectionFacts) :=
  safely (await (Ask (fun _ => correction_facts batchId))).

(** ** The correction of an item *)

Inductive correction_result : Type := item_corrected | item_not_corrected | item_in_flight.

Context (f : CorrectionFacts) (batchId : string) (rateCard : PublishedRateCard) (decidedAt : string).

Definition settle_with (outcome : settle_outcome) (code revised : option string) : late_act correction_result :=
  let corrected_ := bool_decide (outcome = settle_corrected) in
  at_ ← (Do Now (fun t => Ret (Ok t)) : late_act Z);
  settleLateRecordingItem (SettleInput batchId (fa_itemId f) outcome code
      (if corrected_ then Some (default "0" (fa_baselineTotalAmount f)) else None)
      revised (if corrected_ then fa_baselineCalculationId f else None) at_) ≫= fun _ =>
  mret (if corrected_ then item_corrected else item_not_corrected).

Definition unaudited (input : AcceptedAsBilledInput) : late_act VerifiedBillingRecords :=
  sync (match buildAcceptedAsBilledRecords input rateCard with Ok r => Ok r | Throw e => Throw (Raised (LateThrown e)) end).

Definition projection_facts (evidence : EvidenceHashReference) : AuditedProjectionInput := {|
  ap_callId := fa_callId f;
  ap_auditRunId := fa_auditRunId f;
  ap_category := fa_category f;
  ap_recordedDurationMs := fa_recordedDurationMs f;
  ap_speechDurationMs := fa_speechDurationMs f;
  ap_serviceEndMs := fa_serviceEndMs f;
  ap_graceMs := fa_graceMs f;
  ap_claimedDurationMs := fa_claimedDurationMs f;
  ap_connectedDurationMs := fa_connectedDurationMs f;
  ap_vendorBilledAmount := fa_vendorBilledAmount f;
  ap_sourceEvidence := evidence;
  ap_decidedAt := decidedAt;
|}.

(** The audited duration at the locked rules, if it can be projected. *)
Definition projected (evidence : EvidenceHashReference) : late_act (option VerifiedBillingRecords) :=
  sync (match buildAuditedProjectionRecords (projection_facts evidence) rateCard with
        | Ok r => Ok r | Throw e => Throw (Raised (LateThrown e)) end).

Definition fallback_input (evidence : EvidenceHashReference) (exhausted_ : bool) (minutes : string) : AcceptedAsBilledInput := {|
  ab_callId := fa_callId f;
  ab_auditRunId := fa_auditRunId f;
  ab_fallbackReason := Some (if exhausted_ then audit_exhausted else audited_duration_unavailable);
  ab_claimedDurationMs := fa_claimedDurationMs f;
  ab_connectedDurationMs := fa_connectedDurationMs f;
  AcceptedAsBilled.vendorBilledMinutes := minutes;
  vendorBilledAmount := fa_vendorBilledAmount f;
  ab_sourceEvidence := evidence;
  ab_decidedAt := decidedAt;
|}.

(** What the item is settled as when its audit is not validated. *)
Definition settlement (evidence : EvidenceHashReference) (outcome : LateRecordingOutcome) : late_act (option VerifiedBillingRecords) :=
  records ← (if bool_decide (outcome = audited_projection) then projected evidence else mret None : late_act _);
  match records with
  | Some r => mret (Some r)
  | None =>
      match fa_vendorBilledMinutes f with
      | None => mret None
      | Some minutes =>
          r ← unaudited (fallback_input evidence (bool_decide (outcome = accepted_as_billed_unverified)) minutes);
          mret (Some r)
      end
  end.

Definition settle_unvalidated (outcome : LateRecordingOutcome) : late_act correction_result :=
  match fa_evidenceObjectId f, fa_evidenceSha256 f with
  | Some id, Some sha =>
      if String.eqb id "" || String.eqb sha "" then
        settle_with settle_failed (Some "LATE_RECORDING_EVIDENCE_MANIFEST_MISSING") None
      else
        s ← settlement {| kind := ek_call_manifest; sha256 := sha; referenceId := id |} outcome;
        match s with
        | Some records =>
            match rec_calculation records with
            | Some c =>
                await (Persist records) ≫= fun _ =>
                settle_with settle_corrected None (Some (bc_totalAmount c))
            | None => settle_with settle_failed (Some "LATE_RECORDING_VENDOR_QUANTITY_MISSING") None
            end
        | None => settle_with settle_failed (Some "LATE_RECORDING_VENDOR_QUANTITY_MISSING") None
        end
  | _, _ => settle_with settle_failed (Some "LATE_RECORDING_EVIDENCE_MANIFEST_MISSING") None
  end.

Definition correctLateRecordingItem : late_act correction_result :=
  match fa_persistedRevisedAmount f with
  | Some revised => settle_with settle_corrected None (Some revised)
  | None =>
      let outcome := decideLateRecordingOutcome (fa_auditCompleted f) (fa_auditExhausted f) in
      match outcome with
      | in_flight => mret item_in_flight
      | accepted_as_billed_unverified => settle_unvalidated outcome
      | audited_projection =>
          validated ← await (Validate (fa_callId f));
          match validated with
          | Some (true, Some amount) =>
              if String.eqb amount "" then settle_unvalidated outcome else settle_with settle_corrected None (Some amount)
          | _ => settle_unvalidated outcome
          end
      end
  end.
End Facts.
