(* ===== verification/LateWorld.v ===== *)
(** * Late recordings: who runs them

    The world the programs share, what an operation does to it, and the jobs that are run:
    uploads, the steps of the worker and of the sheet, the reads of the screens, and whatever
    other parts of the platform do to the tables. A month to run them on: a call without a recording,
    an upload that attaches one, the states that jobs lead to, and two runs in which the code does not
    keep what its migration says. *)

From stdpp Require Import relations.
From S2P Require Import Prelude JsText CanonicalJson Decimal KserveRules ReauditTypes VerifiedCharge BillingRecords Sql Prog LateRecording LateTables LateStore LateBatch LateCorrect.

Local Open Scope string_scope.
Local Open Scope list_scope.
#[global] Open Scope Z_scope.

(** What a validation answered, and the records that were persisted. *)
Inductive late_event : Type :=
| Validated (callId : string) (answer : Prelude.result late_failure (option (bool * option string)))
| Persisted (records : VerifiedBillingRecords).

(** The tables, the thread that holds the lock of uploads, and what happened at the ports
    (bookkeeping of the model: nothing reads it). *)
Record late_world : Type := LateWorld {
  tables : late_tables;
  commit_lock : option nat;
  history : list late_event;
}.

(** The answer to an operation: the database, what a validation comes to, and what it or a
    persisted record writes in the tables of others. *)
Record late_env : Type := LateEnv {
  database : environment;
  validation : Prelude.result late_failure (option (bool * option string));
  effect : other_tables → other_tables;
}.

Definition effect_on (c : late_env) (d : late_tables) : late_tables := with_other (effect c (other d)) d.

Section Worlds.
Context `{PL : Platform, CO : Collation}.

Definition late_perform {X : Type} (i : nat) (o : late_op X) (c : late_env) (w : late_world) : X * late_world :=
  let refused_ := refused (database c) 0 in
  match o in late_op X return X * late_world with
  | Connect => (if refused_ then Throw (Driver Refused) else Ok tt, w)
  | Lock =>
      if refused_ then (Throw (Driver Refused), w)
      else match commit_lock w with
           | Some _ => (Ok false, w)
           | None => (Ok true, LateWorld (tables w) (Some i) (history w))
           end
  | Unlock => (tt, if refused_ then w else LateWorld (tables w) None (history w))
  | Ask read => (if refused_ then Throw (Driver Refused) else Ok (read (statement_time (database c) 0) (tables w)), w)
  | Run m =>
      let '(r, (_, d)) := m (database c) 0%nat (tables w) in
      (r, LateWorld d (commit_lock w) (history w))
  | Now => (wall_clock (database c) 0, w)
  | Validate call => (validation c, LateWorld (effect_on c (tables w)) (commit_lock w) (history w ++ [Validated call (validation c)]))
  | Persist r =>
      if refused_ && negb (landed (database c) 0) then (Throw (Driver Refused), w)
      else (if refused_ then Throw (Driver Refused) else Ok tt,
            LateWorld (effect_on c (tables w)) (commit_lock w) (history w ++ [Persisted r]))
  | Outside f => (Ok tt, LateWorld (f (tables w)) (commit_lock w) (history w))
  end.

(** ** Jobs *)

(** Every item is tried; an error leaves it in flight. *)
Fixpoint correct_each (batchId : string) (rateCard : PublishedRateCard) (decidedAt : string) (l : list CorrectionFacts) : late_act unit :=
  match l with
  | [] => mret tt
  | f :: l =>
      catch (correctLateRecordingItem f batchId rateCard decidedAt ≫= fun _ => mret tt) (fun _ => mret tt) ≫= fun _ =>
      correct_each batchId rateCard decidedAt l
  end.

(** The money of a batch that is prepared, and its month correction. The recordings are audited
    before, by the worker over [listCandidates], and the cached summary of the month is dropped:
    both are steps of other jobs here. *)
Definition work_batch (batchId : string) (p : period) (rateCard : PublishedRateCard) (decidedAt : string) (prepared : Preparation)
    : late_act Finalization :=
  l ← listLateRecordingCorrectionFacts batchId;
  correct_each batchId rateCard decidedAt l ≫= fun _ =>
  revised ← readVerifiedMonthTotal p;
  paid ← readActualPaidAmount (pd_month p);
  proposal ← sync (match proposedFinanceAdjustment (pr_previousVerifiedTotal prepared) revised paid with
                   | Ok x => Ok x | Throw e => Throw (Raised e) end);
  finalizeLateRecordingBatch (FinalizeInput batchId (pd_month p) revised paid (LateRecording.fa_revisedVariance proposal)).

(** A month that is refused is an error with a code and a status. *)
Definition read_month (month : string) : late_act (option period) :=
  sync (match parseBillingMonth month with Some p => Ok p | None => Throw (raise "INVALID_BILLING_MONTH" 400) end).

(** A batch that is found, of a month, not finished, and bound to the card it is priced with. *)
Definition run_batch (batchId : string) (loadCard : string → Prelude.result late_failure PublishedRateCard) (decidedAt : string) (at_ : Z)
    : late_act (option Finalization) :=
  batch ← await (Ask (fun _ => batch_of batchId));
  match batch with
  | None => mret None
  | Some b =>
      scope ← read_month (lb_bill_month b);
      match scope with
      | None => mret None
      | Some p =>
          prepared ← prepareLateRecordingBatch batchId p at_;
          match prepared with
          | None => mret None
          | Some prepared =>
              if pr_finalized prepared then mret None
              else if negb (String.eqb (pr_rateCardVersionId prepared) (lb_rate_card_version_id b)) then mret None
              else
                card ← sync (loadCard (pr_rateCardVersionId prepared));
                r ← work_batch batchId p card decidedAt prepared;
                mret (Some r)
          end
      end
  end.

Inductive late_job : Type :=
| PreviewUpload (p : period) (rows : list UploadRow) (carried : list LateRecordingRowDecision)
| CommitUpload (input : commit_input)
| ListCandidates (batchId : string) (limit : Z)
| DeferredWork (batchId : string)
| PrepareBatch (batchId : string) (p : period) (at_ : Z)
| ListFacts (batchId : string)
| CorrectItem (f : CorrectionFacts) (batchId : string) (rateCard : PublishedRateCard) (decidedAt : string)
| SettleItem (input : settle_input)
| FinalizeBatch (input : finalize_input)
| RunBatch (batchId : string) (loadCard : string → Prelude.result late_failure PublishedRateCard) (decidedAt : string) (at_ : Z)
| ReadProgress (batchId : string)
| ListUnfinished (limit : Z)
| ListAwaiting (batchId : string)
| Elsewhere (f : late_tables → late_tables).

Inductive late_answer : Type :=
| PreviewAnswer (r : LateRecordingPreview)
| CommitAnswer (r : Receipt)
| CandidatesAnswer (l : list ReauditCandidate)
| DueAnswer (t : option Z)
| PrepareAnswer (r : option Preparation)
| FactsAnswer (l : list CorrectionFacts)
| CorrectAnswer (r : correction_result)
| FinalizeAnswer (r : Finalization)
| RunAnswer (r : option Finalization)
| ProgressAnswer (r : option BatchProgress)
| IdsAnswer (l : list string)
| AwaitingAnswer (l : list (string * string * string))
| Done.

Definition answering {A} (f : A → late_answer) (m : late_act A) : late_act late_answer := m ≫= fun a => mret (f a).

Definition late_program (j : late_job) : late_act late_answer :=
  match j with
  | PreviewUpload p rows carried => answering PreviewAnswer (previewLateRecordingBatch p rows carried)
  | CommitUpload input => answering CommitAnswer (commitLateRecordingBatch input)
  | ListCandidates batchId limit => answering CandidatesAnswer (listCandidates batchId limit)
  | DeferredWork batchId => answering DueAnswer (deferredWorkDueInMs batchId)
  | PrepareBatch batchId p at_ => answering PrepareAnswer (prepareLateRecordingBatch batchId p at_)
  | ListFacts batchId => answering FactsAnswer (listLateRecordingCorrectionFacts batchId)
  | CorrectItem f batchId rateCard decidedAt => answering CorrectAnswer (correctLateRecordingItem f batchId rateCard decidedAt)
  | SettleItem input => answering (fun _ => Done) (settleLateRecordingItem input)
  | FinalizeBatch input => answering FinalizeAnswer (finalizeLateRecordingBatch input)
  | RunBatch batchId loadCard decidedAt at_ => answering RunAnswer (run_batch batchId loadCard decidedAt at_)
  | ReadProgress batchId => answering ProgressAnswer (readLateRecordingBatchProgress batchId)
  | ListUnfinished limit => answering IdsAnswer (listUnfinishedLateRecordingBatchIds limit)
  | ListAwaiting batchId => answering AwaitingAnswer (listLateRecordingItemsAwaitingCorrection batchId)
  | Elsewhere f => answering (fun _ => Done) (await (Outside f))
  end.

(** ** Over time *)

(** A URL and evidence stay once they are there. *)
Record artifact_le (a b : artifact_row) : Prop := ArtifactLe {
  ale_id : ar_id b = ar_id a;
  ale_call : ar_call_id b = ar_call_id a;
  ale_url : ∀ u, ar_source_url a = Some u → ar_source_url b = Some u;
  ale_sha256 : ∀ h, ar_sha256 a = Some h → ar_sha256 b = Some h;
}.

(** What a batch was committed with stays, and so does its baseline. *)
Record batch_le (a b : batch_row) : Prop := BatchLe {
  ble_id : lb_id b = lb_id a;
  ble_bill_month : lb_bill_month b = lb_bill_month a;
  ble_digest : lb_request_digest b = lb_request_digest a;
  ble_key : lb_idempotency_key b = lb_idempotency_key a;
  ble_card : lb_rate_card_version_id b = lb_rate_card_version_id a;
  ble_accepted : lb_accepted b = lb_accepted a;
  ble_baseline : ∀ v, lb_baseline a = Some v → lb_baseline b = Some v ∧ lb_baseline_captured_at b = lb_baseline_captured_at a;
  ble_started : ∀ t, lb_started_at a = Some t → lb_started_at b = Some t;
}.

Definition rank (s : LateRecordingItemState) : Z :=
  match s with item_accepted => 0 | auditing => 1 | corrected | item_failed => 2 end.

(** What an item was accepted with stays, its state moves on, and a settled item never changes. *)
Record item_le (a b : item_row) : Prop := ItemLe {
  ile_id : it_id b = it_id a;
  ile_batch : it_batch_id b = it_batch_id a;
  ile_call : it_call_id b = it_call_id a;
  ile_artifact : it_artifact_id b = it_artifact_id a;
  ile_task : it_task_reference b = it_task_reference a;
  ile_url : it_url_sha256 b = it_url_sha256 a;
  ile_rank : rank (it_state a) ≤ rank (it_state b);
  ile_settled : live (it_state a) = false → b = a;
}.

#[export] Instance artifact_le_preorder : PreOrder artifact_le.
Proof. split; [by intros a|]. intros a b c [] []. split; [congruence..| |]; auto. Qed.

#[export] Instance batch_le_preorder : PreOrder batch_le.
Proof.
  split; [by intros a|]. intros a b c [] []. split; try congruence; [|auto].
  intros v Hv. destruct (ble_baseline0 v Hv) as [H1 H2], (ble_baseline1 v H1). split; congruence.
Qed.

#[export] Instance item_le_preorder : PreOrder item_le.
Proof.
  split; [by intros a|]. intros a b c [] []. split; try congruence; [lia|].
  intros Hl. specialize (ile_settled0 Hl). subst b. auto.
Qed.

(** Rows are kept and move on; a month correction stays as it was written. *)
Record later (d d' : late_tables) : Prop := Later {
  later_artifacts : table_le artifact_le (artifacts d) (artifacts d');
  later_batches : table_le batch_le (batches d) (batches d');
  later_items : table_le item_le (items d) (items d');
  later_corrections : corrections d `prefix_of` corrections d';
}.

#[export] Instance later_preorder : PreOrder later.
Proof. split; [by intros d|]. intros a b c [] []. split; by etransitivity. Qed.

(** What others may do: nothing to the tables of the workflow, and of a recording they take
    away neither its URL nor its evidence. *)
Record lawful (f : late_tables → late_tables) : Prop := Lawful {
  lawful_batches d : batches (f d) = batches d;
  lawful_items d : items (f d) = items d;
  lawful_corrections d : corrections (f d) = corrections d;
  lawful_artifacts d : table_le artifact_le (artifacts d) (artifacts (f d));
  lawful_ids d : distinct artifact_clashes (artifacts d) = true → distinct artifact_clashes (artifacts (f d)) = true;
}.

Definition job_ok (j : late_job) : Prop := match j with Elsewhere f => lawful f | _ => True end.

Definition late_reachable (d0 : late_tables) : config late_op late_world {j | job_ok j} (Prelude.result late_failure late_answer) → Prop :=
  reachable (@late_perform) (fun j => late_program (proj1_sig j)) (LateWorld d0 None []).
End Worlds.

(** ** A month to run them on *)

Module DemoLate.
#[export] Instance platform : Platform := demo_platform.
#[export] Instance bytes : Collation := {| collate := fun s => s |}.

Definition july : period := Period "2026-07" "2026-07-01" "2026-07-31".

(** A call of July that settled at zero, with its empty recording. *)
Definition recording : artifact_row := {|
  ar_id := "art-1"; ar_call_id := "call-1"; ar_type := "recording"; ar_is_final := true; ar_source_url := None; ar_sha256 := None;
  ar_status := None; ar_attempts := None; ar_last_attempt_at := None; ar_next_attempt_at := None; ar_last_error := None;
|}.

Definition july_calls : other_tables := {|
  calls := [CallRow "call-1" "T-1" "2026-07-03" (Some "run-1") None];
  references := [];
  invoices := [InvoiceRow "2026-07-01" "2026-07-31" "received"];
  audit_runs := [];
  calculations := [CalculationRow "calc-0" "call-1" "final" (Some "no_recording_zero") 0 None (Some "card-1") 5];
  rate_cards := [RateCardRow "card-1" "published" "INR" (Some "usr-1") (Some 1) (Some KSERVE_RULESET_SHA256) "2026-01-01" None];
  costs := []; settlements := []; media := []; evidence := [];
|}.

Definition start : late_tables := LateTables [recording] [] [] [] july_calls.

Definition url : string := "https://b.s3.amazonaws.com/a.wav".

Definition upload : commit_input := {|
  ci_period := july;
  ci_rows := [Upload (CsvRow 2 "T-1" url) url];
  ci_carriedRejections := [];
  ci_sourceFileSha256 := "f";
  ci_idempotencyKey := "upload-2026-07-01";
  ci_requestedByUserId := Some "usr-1";
  ci_correlationId := "req-1";
  ci_requestedAt := 100;
|}.

(** A database that answers, and identifiers that differ from one operation to the next. *)
Definition calm (k : nat) : late_env := {|
  database := Env (fun _ => false) (fun _ => false) (fun _ => 1000 + Z.of_nat k)
                  (fun n => "id_" +:+ show_nat (Z.of_nat (100 * k + n))) (fun _ => 7) (fun _ => "");
  validation := Ok None;
  effect := fun d => d;
|}.

(** The consensus writes a charge of 4.75 rupees that supersedes the zero. *)
Definition charged (d : other_tables) : other_tables :=
  OtherTables (calls d) (references d) (invoices d) (audit_runs d)
    (calculations d ++ [CalculationRow "calc-1" "call-1" "final" (Some "independent_conversation_end") 475000000 (Some "calc-0") (Some "card-1") 9])
    (rate_cards d) (costs d) (settlements d) (media d) (evidence d).

Definition agreed (k : nat) : late_env := LateEnv (database (calm k)) (Ok (Some (true, Some "4.75000000"))) charged.

(** A job that is started and run alone. *)
Definition ran {P : late_job → Prop} (answers : nat → late_env) (j : {j | P j})
    (c : config late_op late_world {j | P j} (Prelude.result late_failure late_answer)) :
    config late_op late_world {j | P j} (Prelude.result late_failure late_answer) :=
  let r := run (@late_perform) (length c.1) (late_program (proj1_sig j)) answers 0 c.2 in
  (c.1 ++ [Thread j (Ret r.1)], r.2.2).

Lemma ran_late_steps {P} answers (j : {j | P j}) c :
  rtc (step (@late_perform) (fun j : {j | P j} => late_program (proj1_sig j))) c (ran answers j c).
Proof. destruct c as [ts w]. exact (start_and_run (@late_perform) (fun j : {j | P j} => late_program (proj1_sig j)) ts j w answers 0). Qed.

Definition fine (j : late_job) (H : job_ok j) : {j | job_ok j} := exist _ j H.

Definition nothing : config late_op late_world {j | job_ok j} (Prelude.result late_failure late_answer) := ([], LateWorld start None []).

Definition batch_id : string := "id_403".

Definition facts : CorrectionFacts := {|
  fa_itemId := "id_406"; fa_callId := "call-1"; fa_taskReference := "T-1"; fa_state := auditing;
  fa_auditCompleted := true; fa_auditExhausted := false; fa_auditRunId := Some "run-1"; fa_category := Some "OK";
  fa_recordedDurationMs := Some 30000; fa_speechDurationMs := Some 20000; fa_serviceEndMs := Some 25000; fa_graceMs := Some 60000;
  fa_vendorBilledMinutes := None; fa_vendorBilledAmount := None; fa_claimedDurationMs := None; fa_connectedDurationMs := None;
  fa_evidenceObjectId := None; fa_evidenceSha256 := None;
  fa_baselineCalculationId := Some "calc-0"; fa_baselineTotalAmount := Some "0.00000000"; fa_persistedRevisedAmount := None;
|}.

Definition card : PublishedRateCard := {|
  rc_id := "card-1"; rc_version := "1"; rc_status := "published"; rc_currency := "INR"; rulesetSha256 := Some KSERVE_RULESET_SHA256;
  approvedBy := Some "usr-1"; approvedAt := Some "2026-01-01T00:00:00.000Z";
|}.

Definition july_total : finalize_input := FinalizeInput batch_id "2026-07" "4.75" None None.

Definition uploaded_once := ran calm (fine (CommitUpload upload) I) nothing.
Definition uploaded_twice := ran calm (fine (CommitUpload upload) I) uploaded_once.
Definition prepared := ran calm (fine (PrepareBatch batch_id july 8) I) uploaded_once.
Definition claimed := ran calm (fine (ListCandidates batch_id 10) I) prepared.
Definition corrected_ := ran agreed (fine (CorrectItem facts batch_id card "2026-08-01T00:00:00.000Z") I) claimed.
Definition finalized := ran calm (fine (FinalizeBatch july_total) I) corrected_.


(** ** The worker finishes a batch *)

Example july_scope : map parseBillingMonth ["2026-07"; "2024-02"; "all"; "2026-7"; "1999-12"] =
  [Some (Some july); Some (Some (Period "2024-02" "2024-02-01" "2024-02-29")); Some None; None; None].
Proof. by vm_compute. Qed.

(** The recording was audited. *)
Definition audit (d : other_tables) : other_tables :=
  OtherTables (map (fun c => CallRow (cl_id c) (cl_logical_call_key c) (cl_billing_period_date c) (Some "run-2") (Some "OK")) (calls d))
    (references d) (invoices d) [RunRow "call-1" "completed"] (calculations d) (rate_cards d) (costs d) (settlements d)
    [MediaRow "m-1" "art-1" "completed" (Some "completed") 6 (Some 30000) (Some 20000) (Some 25000) None (Some 60000)] (evidence d).

Lemma audit_lawful : lawful (fun d => with_other (audit (other d)) d).
Proof. by split. Qed.

Definition heard := ran agreed (fine (Elsewhere (fun d => with_other (audit (other d)) d)) audit_lawful) claimed.
Definition worked := ran agreed (fine (RunBatch batch_id (fun _ => Ok card) "2026-08-01T00:00:00.000Z" 8) I) heard.

(** Before the audit the run leaves the batch in flight; after it, the batch is finished once. *)
Example worker_finishes_batch :
  map (fun c => last (map rest c.1))
    [ran agreed (fine (RunBatch batch_id (fun _ => Ok card) "2026-08-01T00:00:00.000Z" 8) I) claimed; worked;
     ran agreed (fine (RunBatch batch_id (fun _ => Ok card) "2026-08-01T00:00:00.000Z" 8) I) worked] =
  [Some (Ret (Ok (RunAnswer (Some (Finalized finalize_in_flight "0.00000000" None None 0 0)))));
   Some (Ret (Ok (RunAnswer (Some (Finalized recorded "0.00000000" (Some "4.75000000") (Some "4.75000000") 1 0)))));
   Some (Ret (Ok (RunAnswer None)))].
Proof. by vm_compute. Qed.

(** ** A batch that is finished and running *)

(** One operation of a thread. *)
Definition one {P : late_job → Prop} (i : nat) (a : late_env)
    (c : config late_op late_world {j | P j} (Prelude.result late_failure late_answer)) :
    config late_op late_world {j | P j} (Prelude.result late_failure late_answer) :=
  match c.1 !! i with
  | Some (Thread t (Do o k)) => let r := late_perform i o a c.2 in (<[i := Thread t (k r.1)]> c.1, r.2)
  | _ => c
  end.

Lemma one_steps {P} i a (c : config late_op late_world {j | P j} _) :
  rtc (step (@late_perform) (fun j : {j | P j} => late_program (proj1_sig j))) c (one i a c).
Proof.
  destruct c as [ts w]. unfold one. cbn [fst snd]. destruct (ts !! i) as [[t [a'|X o k]]|] eqn:E; [apply rtc_refl| |apply rtc_refl].
  apply rtc_once. eapply step_perform; [exact E|]. apply surjective_pairing.
Qed.

Definition begin_ {P : late_job → Prop} (j : {j | P j})
    (c : config late_op late_world {j | P j} (Prelude.result late_failure late_answer)) :
    config late_op late_world {j | P j} (Prelude.result late_failure late_answer) := (c.1 ++ [Thread j (late_program (proj1_sig j))], c.2).

Lemma begin_steps {P} (j : {j | P j}) c :
  rtc (step (@late_perform) (fun j : {j | P j} => late_program (proj1_sig j))) c (begin_ j c).
Proof. destruct c as [ts w]. apply rtc_once. apply (step_start (@late_perform) (fun j : {j | P j} => late_program (proj1_sig j))). Qed.

(** The sheet settles an item in two statements; the worker finishes the batch between them. *)
Definition settlement_ : settle_input := SettleInput batch_id "id_406" settle_corrected None (Some "0") (Some "4.75") (Some "calc-0") 7.

Definition reopened := one 3 (calm 1) (ran calm (fine (FinalizeBatch july_total) I) (one 3 (calm 0) (begin_ (fine (SettleItem settlement_) I) claimed))).

Lemma reopened_reached : late_reachable start reopened.
Proof.
  unfold late_reachable, reachable. change ([], LateWorld start None []) with nothing. unfold reopened, claimed, prepared, uploaded_once.
  etransitivity; [|apply one_steps]. etransitivity; [|apply ran_late_steps].
  etransitivity; [|apply one_steps]. etransitivity; [|apply begin_steps].
  do 3 (etransitivity; [|apply ran_late_steps]). apply rtc_refl.
Qed.

(** The migration says that a batch is finished with its correction; here it has its correction, and runs. *)
Example finished_batch_runs_again :
  map (fun b => (lb_status b, lb_completed_at b)) (batches (tables reopened.2)) = [(batch_running, None)] ∧
  map mc_batch_id (corrections (tables reopened.2)) = [batch_id].
Proof. by vm_compute. Qed.

(** A finalization that is retried once the total of the month has moved is refused, not replayed. *)
Example retried_finalization_conflicts :
  last (map rest (ran calm (fine (FinalizeBatch (FinalizeInput batch_id "2026-07" "9.5" None None)) I) finalized).1) =
  Some (Ret (Throw correction_conflict)).
Proof. by vm_compute. Qed.
End DemoLate.
