(* ===== verification/LateSafety.v ===== *)
(** * Late recordings: what every step keeps

    The invariant that ties the recordings, the items, the batches and the month corrections to
    each other, and that every operation keeps it and only moves rows on. *)

From stdpp Require Import relations.
From S2P Require Import Prelude JsText CanonicalJson Decimal Sql Prog BillingRecords LateRecording LateUpload LateTables LateStore LateBatch LateCorrect LateWorld.

Local Open Scope string_scope.
Local Open Scope list_scope.
#[global] Open Scope Z_scope.

Lemma failure_code_safe o : FAILURE_CODE (safeLateRecordingFailureCode o) = true.
Proof. unfold safeLateRecordingFailureCode. destruct o as [s|]; [|done]. by destruct (FAILURE_CODE s) eqn:E. Qed.

(** Rows that an update does not touch are found as before. *)
Lemma where_update {R} (Q P : R → bool) f (t : list R) :
  (∀ r, r ∈ t → P r = true → Q r = false ∧ Q (f r) = false) → where_ Q (update_where P f t).2 = where_ Q t.
Proof.
  intros H. cbn. unfold where_. induction t as [|r t IH]; [done|]. cbn [map]. rewrite !filter_cons.
  rewrite IH by (intros s Hs; apply H; by right). destruct (P r) eqn:E; [|done].
  destruct (H r ltac:(left) E) as [H1 H2]. by rewrite H1, H2.
Qed.

Lemma count_update {R} (Q P : R → bool) f (t : list R) :
  (∀ r, r ∈ t → P r = true → Q (f r) = Q r) → length (where_ Q (update_where P f t).2) = length (where_ Q t).
Proof.
  intros H. cbn. unfold where_. induction t as [|r t IH]; [done|]. cbn [map]. rewrite !filter_cons.
  specialize (IH ltac:(intros s Hs; apply H; by right)).
  assert (Q (if P r then f r else r) = Q r) as -> by (destruct (P r) eqn:E; [apply H; [left|done]|done]).
  destruct (decide (Q r = true)); cbn; by rewrite IH.
Qed.

Lemma table_le_update {R} (le : relation R) P f (t : list R) :
  Reflexive le → (∀ r, r ∈ t → P r = true → le r (f r)) → table_le le t (update_where P f t).2.
Proof. intros Hle H. apply table_le_map. intros r Hr. destruct (P r) eqn:E; [by apply H|done]. Qed.

(** Clashes are told by the keys. *)
Lemma distinct_update {R} (clashes : R → R → bool) P f (t : list R) :
  (∀ r s, clashes (f r) s = true → P r = true → clashes r s = true) →
  (∀ r s, clashes r (f s) = true → P s = true → clashes r s = true) →
  distinct clashes t = true → distinct clashes (update_where P f t).2 = true.
Proof.
  intros H1 H2. rewrite !distinct_spec. intros Hd i j r s Hij Hr Hs. cbn in Hr, Hs.
  rewrite list_lookup_fmap in Hr, Hs. apply fmap_Some in Hr as (x & Hx & ->), Hs as (y & Hy & ->).
  specialize (Hd i j x y Hij Hx Hy). apply not_true_iff_false. intros E.
  assert (clashes x (if P y then f y else y) = true) as E1 by (destruct (P x) eqn:Ex; [by apply H1|done]).
  assert (clashes x y = true) as E2 by (destruct (P y) eqn:Ey; [by apply H2|done]). congruence.
Qed.

Lemma where_all {R} (Q : R → bool) t : (∀ r, r ∈ t → Q r = true) → where_ Q t = t.
Proof.
  intros H. unfold where_. induction t as [|r t IH]; [done|]. rewrite filter_cons, decide_True by (apply H; left).
  f_equal. apply IH. intros s Hs. apply H. by right.
Qed.

Lemma length_where_cons {R} (Q : R → bool) r t :
  Z.of_nat (length (where_ Q (r :: t))) = (if Q r then 1 else 0) + Z.of_nat (length (where_ Q t)).
Proof. unfold where_. rewrite filter_cons. destruct (Q r); [rewrite decide_True by done; cbn [length]; lia|by rewrite decide_False]. Qed.

Section Safety.
Context `{PL : Platform, CO : Collation}.

(** ** The invariant *)

Definition state_good (i : item_row) : Prop :=
  match it_state i with
  | item_accepted => it_attempts i = 0 ∧ it_completed_at i = None
  | auditing => it_attempts i = 1 ∧ it_completed_at i = None
  | corrected => is_Some (it_completed_at i) ∧ it_last_error_code i = None
  | item_failed => is_Some (it_completed_at i) ∧ ∃ code, it_last_error_code i = Some code ∧ FAILURE_CODE code = true
  end.

(** An item belongs to a batch, its recording has the URL it was accepted with, and what it says
    fits its state. *)
Record item_good (d : late_tables) (i : item_row) : Prop := ItemGood {
  ig_batch : ∃ b, b ∈ batches d ∧ sql_eq (lb_id b) (it_batch_id i) = true;
  ig_attached : ∃ a u, a ∈ artifacts d ∧ sql_eq (ar_id a) (it_artifact_id i) = true ∧
    sql_eq (ar_call_id a) (it_call_id i) = true ∧ ar_source_url a = Some u ∧ it_url_sha256 i = canonicalUrlSha256 u;
  ig_state : state_good i;
}.

Definition terminal (s : LateRecordingBatchStatus) : bool :=
  match s with batch_completed | completed_with_failures => true | _ => false end.

Definition any_state (_ : LateRecordingItemState) : bool := true.

(** A batch has the items it accepted, and is finished only with a month correction. *)
Record batch_good (d : late_tables) (b : batch_row) : Prop := BatchGood {
  bg_accepted : lb_accepted b = count_items any_state (lb_id b) d;
  bg_some : 1 ≤ lb_accepted b;
  bg_finished : terminal (lb_status b) = true → ∃ c, c ∈ corrections d ∧ sql_eq (mc_batch_id c) (lb_id b) = true;
}.

(** A month correction is of a batch all of whose items are settled, from its baseline. *)
Definition correction_good (d : late_tables) (c : correction_row) : Prop :=
  ∃ b, b ∈ batches d ∧ sql_eq (mc_batch_id c) (lb_id b) = true ∧
    mc_bill_month c = lb_bill_month b ∧ mc_currency c = "INR" ∧
    lb_baseline b = Some (mc_previous c) ∧ mc_delta c = mc_revised c - mc_previous c ∧
    count_items live (lb_id b) d = 0 ∧
    mc_corrected c = count_items (is_state corrected) (lb_id b) d ∧
    mc_failed c = count_items (is_state item_failed) (lb_id b) d.

Record late_ok (d : late_tables) : Prop := LateOk {
  ok_artifacts : distinct artifact_clashes (artifacts d) = true;
  ok_batches : distinct batch_clashes (batches d) = true;
  ok_items : distinct item_clashes (items d) = true;
  ok_corrections : distinct correction_clashes (corrections d) = true;
  ok_item i : i ∈ items d → item_good d i;
  ok_batch b : b ∈ batches d → batch_good d b;
  ok_correction c : c ∈ corrections d → correction_good d c;
}.

(** What a step may do. *)
Definition evolves (d d' : late_tables) : Prop := late_ok d → late_ok d' ∧ later d d'.

#[export] Instance evolves_preorder : PreOrder evolves.
Proof.
  split; [by intros d|]. intros a b c Hab Hbc Ha. destruct (Hab Ha) as [Hb H1], (Hbc Hb) as [Hc H2].
  split; [done|]. by etransitivity.
Qed.

(** ** Counting *)

Lemma count_same_items p b d d' : items d' = items d → count_items p b d' = count_items p b d.
Proof. unfold count_items. by intros ->. Qed.

Lemma count_split b d :
  count_items any_state b d = count_items live b d + count_items (is_state corrected) b d + count_items (is_state item_failed) b d.
Proof.
  unfold count_items, any_state. induction (items d) as [|i t IH]; [done|]. rewrite !length_where_cons, IH.
  destruct (sql_eq (it_batch_id i) b); cbn [andb]; [|lia]. unfold is_state.
  destruct (it_state i); cbn [live]; repeat case_bool_decide; try done; lia.
Qed.

Lemma no_live_item b d i :
  count_items live b d = 0 → i ∈ items d → sql_eq (it_batch_id i) b = true → live (it_state i) = false.
Proof.
  unfold count_items. intros H Hi Hb. destruct (live (it_state i)) eqn:E; [|done].
  assert (i ∈ where_ (fun i => sql_eq (it_batch_id i) b && live (it_state i)) (items d)) as Hw.
  { apply elem_of_where. split; [|done]. by rewrite Hb, E. }
  destruct (where_ _ _); [by apply elem_of_nil in Hw|]. cbn in H. lia.
Qed.

Lemma batch_of_same_id d b b' : late_ok d → b ∈ batches d → b' ∈ batches d → sql_eq (lb_id b) (lb_id b') = true → b = b'.
Proof.
  intros Hok Hb Hb' E. eapply distinct_unique; [|apply Hok|done|done|].
  - intros r s. unfold batch_clashes. by rewrite (sql_eq_sym (lb_id r)), (sql_eq_sym (lb_idempotency_key r)).
  - unfold batch_clashes. by rewrite E.
Qed.

Lemma count_items_ext p b b' d : sql_eq b b' = true → count_items p b d = count_items p b' d.
Proof.
  intros E. unfold count_items. f_equal. f_equal. apply where_ext. intros i _. f_equal.
  rewrite (sql_eq_sym _ b), (sql_eq_sym _ b'). rewrite sql_eq_sym in E. exact (sql_eq_trans _ _ _ E).
Qed.

(** ** Rows that move on *)

Lemma batch_moved d d' b : table_le batch_le (batches d) (batches d') → b ∈ batches d →
  ∃ b', b' ∈ batches d' ∧ batch_le b b'.
Proof. apply table_le_lookup. Qed.

Lemma item_good_mono d d' i :
  item_good d i → table_le artifact_le (artifacts d) (artifacts d') → table_le batch_le (batches d) (batches d') → item_good d' i.
Proof.
  intros [(b & Hb & E) (a & u & Ha & E1 & E2 & Hu & Hs) Hst] Hart Hbat. split; [| |done].
  - destruct (batch_moved _ _ _ Hbat Hb) as (b' & Hb' & Hle). exists b'. by rewrite (ble_id _ _ Hle).
  - destruct (table_le_lookup _ _ _ _ Hart Ha) as (a' & Ha' & Hle). exists a', u.
    rewrite (ale_id _ _ Hle), (ale_call _ _ Hle). split_and!; try done. by apply Hle.
Qed.

Lemma correction_good_mono d d' c :
  correction_good d c → table_le batch_le (batches d) (batches d') →
  (∀ p b, b ∈ batches d → count_items live (lb_id b) d = 0 → count_items p (lb_id b) d' = count_items p (lb_id b) d) →
  correction_good d' c.
Proof.
  intros (b & Hb & E & Hm & Hc & Hbase & Hd & Hl & H1 & H2) Hbat Hcount.
  destruct (batch_moved _ _ _ Hbat Hb) as (b' & Hb' & Hle). exists b'.
  rewrite (ble_id _ _ Hle), (ble_bill_month _ _ Hle), !Hcount by done. split_and!; try done.
  by apply (ble_baseline _ _ Hle).
Qed.

Lemma same_tables d d' :
  artifacts d' = artifacts d → batches d' = batches d → items d' = items d → corrections d' = corrections d → evolves d d'.
Proof.
  destruct d, d'. cbn. intros -> -> -> -> Hok. split; [|by split].
  destruct Hok as [H1 H2 H3 H4 H5 H6 H7]. split; cbn in *; try done.
  - intros i Hi. destruct (H5 i Hi) as [A B C]. by split.
  - intros b Hb. destruct (H6 b Hb) as [A B C]. by split.
Qed.

Lemma evolves_outside f d : lawful f → evolves d (f d).
Proof.
  intros [Hb Hi Hc Ha Hd] [H1 H2 H3 H4 H5 H6 H7]. split.
  - split; rewrite ?Hb, ?Hi, ?Hc; auto.
    + intros i Hi'. apply item_good_mono with d; [by apply H5|done|by rewrite Hb].
    + intros b Hb'. destruct (H6 b Hb') as [A B C]. split; rewrite ?Hc; [|done|done]. by rewrite A, (count_same_items _ _ d (f d)).
    + intros c Hc'. apply correction_good_mono with d; [by apply H7|by rewrite Hb|]. intros p b _ _. by apply count_same_items.
  - split; rewrite ?Hb, ?Hi, ?Hc; done.
Qed.

Lemma evolves_artifacts P f d n d' :
  update_artifacts P f d = Ok (n, d') →
  (∀ a, P a = true → artifact_le a (f a)) → evolves d d'.
Proof.
  unfold update_artifacts. destruct (update_where P f (artifacts d)) as [m t] eqn:E. intros [= <- <-] Hle.
  assert (t = (update_where P f (artifacts d)).2) as -> by by rewrite E.
  apply (evolves_outside (fun d => with_artifacts (update_where P f (artifacts d)).2 d)). split; cbn [with_artifacts artifacts batches items corrections]; try done.
  - intros x. apply table_le_update; [apply _|]. intros a _. by apply Hle.
  - intros x. apply distinct_update; intros r s.
    + unfold artifact_clashes. intros H HP. by rewrite (ale_id _ _ (Hle _ HP)) in H.
    + unfold artifact_clashes. intros H HP. by rewrite (ale_id _ _ (Hle _ HP)) in H.
Qed.

Lemma checked_Ok {R A} (check : R → bool) t (a b : A) : checked check t a = Ok b ↔ forallb check t = true ∧ b = a.
Proof. unfold checked. destruct (forallb check t); [|naive_solver]. split; [by intros [= ->]|by intros [_ ->]]. Qed.

Lemma update_batches_Ok P f d n d' :
  update_batches P f d = Ok (n, d') → n = length (where_ P (batches d)) ∧ d' = with_batches (update_where P f (batches d)).2 d.
Proof. unfold update_batches. cbn [update_where]. intros [_ H]%checked_Ok. by simplify_eq. Qed.

Lemma update_items_Ok P f d n d' :
  update_items P f d = Ok (n, d') → n = length (where_ P (items d)) ∧ d' = with_items (update_where P f (items d)).2 d.
Proof. unfold update_items. cbn [update_where]. intros [_ H]%checked_Ok. by simplify_eq. Qed.

(** A batch row moves on, and is not finished by it unless it has its correction. *)
Lemma evolves_batches P f d n d' :
  update_batches P f d = Ok (n, d') →
  (late_ok d → ∀ b, b ∈ batches d → P b = true → batch_le b (f b) ∧
     (terminal (lb_status (f b)) = true → ∃ c, c ∈ corrections d ∧ sql_eq (mc_batch_id c) (lb_id b) = true)) →
  evolves d d'.
Proof.
  unfold update_batches. destruct (update_where P f (batches d)) as [m t] eqn:E. intros [_ H]%checked_Ok Hf Hok.
  simplify_eq. assert (t = (update_where P f (batches d)).2) as -> by by rewrite E. clear E.
  specialize (Hf Hok). set (d' := with_batches _ d).
  assert (table_le batch_le (batches d) (batches d')) as Hbat by (apply table_le_update; [apply _|]; naive_solver).
  pose proof Hok as [H1 H2 H3 H4 H5 H6 H7]. split; [|by split].
  split; try done.
  - subst d'. cbn [with_batches batches]. rewrite distinct_spec in H2 |- *. intros i j r s Hij Hr Hs. cbn in Hr, Hs.
    rewrite list_lookup_fmap in Hr, Hs. apply fmap_Some in Hr as (x & Hx & ->), Hs as (y & Hy & ->).
    specialize (H2 i j x y Hij Hx Hy).
    assert (∀ z, z ∈ batches d → lb_id (if P z then f z else z) = lb_id z ∧
              lb_idempotency_key (if P z then f z else z) = lb_idempotency_key z) as Hid.
    { intros z Hz. destruct (P z) eqn:Ez; [|done]. destruct (Hf z Hz Ez) as [[] _]. done. }
    unfold batch_clashes in *. destruct (Hid x) as [-> ->]; [by eapply list_elem_of_lookup_2|].
    destruct (Hid y) as [-> ->]; [by eapply list_elem_of_lookup_2|]. done.
  - intros i Hi. apply item_good_mono with d; [by apply H5|done|done].
  - intros b (b0 & Hb0 & ->)%elem_of_update. destruct (H6 b0 Hb0) as [A B C].
    destruct (P b0) eqn:Ep; [|by split]. destruct (Hf b0 Hb0 Ep) as [Hle Ht]. split.
    + by rewrite (ble_accepted _ _ Hle), (ble_id _ _ Hle).
    + by rewrite (ble_accepted _ _ Hle).
    + rewrite (ble_id _ _ Hle). exact Ht.
  - intros c Hc. apply correction_good_mono with d; [by apply H7|done|done].
Qed.

Lemma item_clashes_sym r s : item_clashes r s = item_clashes s r.
Proof.
  unfold item_clashes. rewrite (sql_eq_sym (it_id r)), (sql_eq_sym (it_batch_id r)), (sql_eq_sym (it_call_id r)).
  f_equal. unfold same_key. destruct (active_call_id r), (active_call_id s); [apply sql_eq_sym|done..].
Qed.

(** Live items move on. *)
Lemma evolves_items P f d n d' :
  update_items P f d = Ok (n, d') →
  (∀ i, P i = true → live (it_state i) = true ∧ item_le i (f i) ∧ (state_good i → state_good (f i))) →
  evolves d d'.
Proof.
  unfold update_items. destruct (update_where P f (items d)) as [m t] eqn:E. intros [_ H]%checked_Ok Hf Hok.
  simplify_eq. assert (t = (update_where P f (items d)).2) as -> by by rewrite E. clear E.
  set (d' := with_items _ d).
  assert (table_le item_le (items d) (items d')) as Hit by (apply table_le_update; [apply _|]; naive_solver).
  assert (∀ b, count_items any_state b d' = count_items any_state b d) as Hall.
  { intros b. unfold count_items. f_equal. apply count_update. intros i _ Hp. destruct (Hf i Hp) as (_ & Hle & _).
    by rewrite (ile_batch _ _ Hle). }
  pose proof Hok as [H1 H2 H3 H4 H5 H6 H7]. split; [|by split].
  assert (∀ r, P r = true → ∀ s, item_clashes (f r) s = true → item_clashes r s = true) as Hcl.
  { intros r Hr s. destruct (Hf r Hr) as (Hl & Hle & _). unfold item_clashes.
    rewrite (ile_id _ _ Hle), (ile_batch _ _ Hle), (ile_call _ _ Hle). unfold active_call_id at 1. rewrite (ile_call _ _ Hle).
    unfold active_call_id at 2. rewrite Hl. destruct (live (it_state (f r))); [done|]. cbn [same_key]. rewrite orb_false_r. by intros ->. }
  split; try done.
  - apply distinct_update; [intros r s ? ?; by eapply Hcl| |done].
    intros r s H HP. rewrite item_clashes_sym in H |- *. by eapply Hcl.
  - intros i (i0 & Hi0 & ->)%elem_of_update. destruct (H5 i0 Hi0) as [A B C]. destruct (P i0) eqn:Ep; [|by split].
    destruct (Hf i0 Ep) as (_ & Hle & Hst). split; [by rewrite (ile_batch _ _ Hle)| |by apply Hst].
    by rewrite (ile_artifact _ _ Hle), (ile_call _ _ Hle), (ile_url _ _ Hle).
  - intros b Hb. destruct (H6 b Hb) as [A B C]. split; [|done|done]. by rewrite Hall.
  - intros c Hc. apply correction_good_mono with d; [by apply H7|done|].
    intros p b _ Hl. unfold count_items. f_equal. f_equal. apply where_update. intros i Hi Hp.
    destruct (Hf i Hp) as (Hlive & Hle & _). rewrite (ile_batch _ _ Hle).
    destruct (sql_eq (it_batch_id i) (lb_id b)) eqn:Eb; [|done].
    rewrite (no_live_item _ _ _ Hl Hi Eb) in Hlive. done.
Qed.
End Safety.
