(* ===== verification/LateSteps.v ===== *)
(** * Late recordings: every transaction keeps the invariant

    The claim, the preparation and the settlement row by row; the upload and the month
    correction as a whole. *)

From stdpp Require Import relations.
From S2P Require Import Prelude JsText CanonicalJson Decimal Sql Prog BillingRecords LateRecording LateUpload LateTables LateStore LateBatch LateCorrect LateWorld LateSafety.

Local Open Scope string_scope.
Local Open Scope list_scope.
#[global] Open Scope Z_scope.

Section Steps.
Context `{PL : Platform, CO : Collation}.

(** ** Transactions and statements *)

Lemma changes_autocommit {A} (s : Z → late_tables → Prelude.result sql_error (A * late_tables)) :
  (∀ t d a d', s t d = Ok (a, d') → evolves d d') → changes evolves (autocommit s).
Proof.
  intros Hs env n d. unfold autocommit. destruct (s _ d) as [[a d']|e] eqn:E; [|reflexivity].
  destruct (refused env n); [destruct (landed env n); [by eapply Hs|reflexivity]|by eapply Hs].
Qed.

Lemma transaction_cases {A} (body : Sql late_tables late_failure A) env n d r n' d' :
  transaction body env n d = (r, (n', d')) →
  (d' = d ∧ ∀ a, r ≠ Ok a) ∨ ∃ a m k, body env m d = (Ok a, (k, d')) ∧ ∀ b, r = Ok b → b = a.
Proof.
  unfold transaction, inTransaction. destruct (_ || _); [intros [= <- <- <-]; by left|].
  unfold mbind, Sql_bind. destruct (body env (S (S n)) d) as [[a|e] [k d1]] eqn:E; [|intros [= <- <- <-]; by left].
  cbn. destruct (refused env k); [destruct (landed env k)|]; intros [= <- <- <-].
  - right. exists a, (S (S n)), k. by split.
  - by left.
  - right. exists a, (S (S n)), k. split; [done|]. by intros b [= <-].
Qed.

Lemma changes_transaction {A} (body : Sql late_tables late_failure A) :
  (∀ env n d a n' d', body env n d = (Ok a, (n', d')) → evolves d d') → changes evolves (transaction body).
Proof.
  intros Hb env n d. destruct (transaction body env n d) as [r [n' d']] eqn:E.
  apply transaction_cases in E as [[-> _]|(a & m & k & H & _)]; [reflexivity|]. by eapply Hb.
Qed.

Lemma select_Ok {A} (read : late_tables → A) env n d a s :
  select read env n d = (Ok a, s) → a = read d ∧ s = (S n, d).
Proof. unfold select, statement. intros H%catching_Ok%request_Ok. destruct H as (_ & d' & [= <- <-] & ->). done. Qed.

Lemma statement_Ok {A} (st : Z → late_tables → Prelude.result sql_error (A * late_tables)) env n d a n' d' :
  statement st env n d = (Ok a, (n', d')) → ∃ t, st t d = Ok (a, d').
Proof. unfold statement. intros H%catching_Ok%request_Ok. destruct H as (_ & d1 & H & [= _ <-]). by eexists. Qed.

(** ** The claim *)

Lemma start_item_good now i :
  it_attempts i = 0 → it_state i = item_accepted →
  item_le i (start_item now i) ∧ (state_good i → state_good (start_item now i)).
Proof.
  intros Ha Hs. split.
  - split; cbn; try done; rewrite Hs; [done|discriminate].
  - unfold state_good. rewrite Hs. cbn. intros [_ H]. split; [lia|done].
Qed.

Lemma changes_start_items rows claimed : changes evolves (start_items rows claimed).
Proof.
  revert claimed. induction rows as [|r rows IH]; intros claimed; cbn [start_items]; [apply changes_ret; apply _|].
  case_bool_decide; [apply IH|]. apply changes_bind; [apply _| |intros k; apply IH].
  unfold statement. apply changes_catching, changes_request; [apply _|]. intros t d a d' H'. eapply evolves_items; [exact H'|].
  intros i Hi. unfold startable in Hi. to_prop. destruct (start_item_good t i) as [A B]; [done..|].
  split_and!; [|done|done]. by match goal with E : it_state i = _ |- _ => rewrite E end.
Qed.

Lemma set_status_le s at_ b : batch_le b (set_status s (started at_ b) b).
Proof. split; cbn; try done. intros t Ht. unfold started. by rewrite Ht. Qed.

Lemma changes_set_running P at_ d n d' :
  update_batches P (fun r => set_status batch_running (started at_ r) r) d = Ok (n, d') → evolves d d'.
Proof. intros H. eapply evolves_batches; [exact H|]. intros _ b _ _. split; [apply set_status_le|done]. Qed.

Lemma changes_claim batchId limit : changes evolves (transaction (claim_body batchId limit)).
Proof.
  apply changes_transaction. intros env n d a n' d' H.
  assert (changes evolves (claim_body batchId limit)) as Hc.
  { unfold claim_body. apply changes_bind; [apply _| |intros rows]; [|apply changes_bind; [apply _|apply changes_start_items|intros claimed]].
    - unfold statement. apply changes_catching, changes_request; [apply _|]. by intros t x y x' [= <- <-].
    - apply changes_bind; [apply _| |intros; apply changes_ret; apply _].
      unfold statement. apply changes_catching, changes_request; [apply _|]. intros t x y x'. apply changes_set_running. }
  specialize (Hc env n d). by rewrite H in Hc.
Qed.

(** ** The baseline *)

Lemma capture_le v at_ b : lb_baseline b = None → batch_le b (capture v at_ b).
Proof. intros Hb. split; cbn; try done; [intros u; congruence|]. intros t Ht. unfold started. by rewrite Ht. Qed.

Lemma changes_prepare batchId p at_ : changes evolves (prepare_body batchId p at_).
Proof.
  assert (∀ A (read : late_tables → A), changes evolves (select read)) as Hsel.
  { intros A read. unfold select, statement. apply changes_catching, changes_request; [apply _|]. by intros t x y x' [= <- <-]. }
  assert (∀ b, changes evolves (statement (fun _ => update_batches (accepted_batch b) (fun r => set_status batch_running (started at_ r) r)))) as Hrun.
  { intros b. unfold statement. apply changes_catching, changes_request; [apply _|]. intros t x y x'. apply changes_set_running. }
  unfold prepare_body. apply changes_bind; [apply _|apply Hsel|]. intros [b|]; [|apply changes_ret; apply _].
  apply changes_bind; [apply _|apply Hsel|]. intros c. apply changes_bind; [apply _| |].
  - destruct (lb_baseline b) as [v|].
    + apply changes_bind; [apply _| |intros; apply changes_ret; apply _]. case_bool_decide; [apply Hrun|apply changes_ret; apply _].
    + unfold capture_baseline. apply changes_bind; [apply _|apply Hsel|intros total]. apply changes_bind; [apply _| |].
      * unfold statement. apply changes_catching, changes_request; [apply _|]. intros t d n d' H. bind_ok.
        eapply evolves_batches; [eassumption|]. intros _ r _ Hr. unfold unprepared in Hr. to_prop. split; [by apply capture_le|done].
      * intros n. destruct (negb _); [apply changes_lift|apply changes_ret]; apply _.
  - intros previous. apply changes_bind; [apply _|apply changes_lift; apply _|intros; apply changes_ret; apply _].
Qed.

(** ** The settlement of an item *)

Lemma settle_row_good input p v i :
  it_state i = auditing → item_le i (settle_row input p v i) ∧ (state_good i → state_good (settle_row input p v i)).
Proof.
  intros Hs. split.
  - split; cbn; try done; rewrite Hs; [by destruct (si_outcome input)|discriminate].
  - unfold state_good. rewrite Hs. cbn. intros _. destruct (si_outcome input); cbn; [by eauto|].
    split; [by eauto|]. eexists. split; [done|]. apply failure_code_safe.
Qed.

Lemma evolves_settled input previous revised d n d' : update_settled input previous revised d = Ok (n, d') → evolves d d'.
Proof.
  unfold update_settled. intros H. bind_ok. eapply evolves_items; [eassumption|]. intros i Hi. unfold settleable in Hi. to_prop.
  match goal with E : it_state i = auditing |- _ => destruct (settle_row_good input x x0 i E) as [A B]; rewrite E end. by split_and!.
Qed.

Lemma set_counts_le c f s t b : batch_le b (set_counts c f s t b).
Proof. by split. Qed.

Lemma evolves_recount batchId d n d' : recount batchId d = Ok (n, d') → evolves d d'.
Proof. intros H. eapply evolves_batches; [exact H|]. intros _ b _ _. split; [apply set_counts_le|done]. Qed.

(** ** The upload *)

Definition honest (row : AcceptedRow) : Prop := ac_canonicalUrlSha256 row = canonicalUrlSha256 (ac_canonicalUrl row).

Definition attached (d : late_tables) (row : AcceptedRow) : Prop :=
  ∃ a, a ∈ artifacts d ∧ sql_eq (ar_id a) (ac_artifactId row) = true ∧ sql_eq (ar_call_id a) (ac_callId row) = true ∧
       ar_source_url a = Some (ac_canonicalUrl row).

Lemma attached_mono d d' row : attached d row → table_le artifact_le (artifacts d) (artifacts d') → attached d' row.
Proof.
  intros (a & Ha & E1 & E2 & Hu) Hle. destruct (table_le_lookup _ _ _ _ Hle Ha) as (a' & Ha' & H). exists a'.
  rewrite (ale_id _ _ H), (ale_call _ _ H). split_and!; try done. by apply H.
Qed.

(** An accepted row is a row of the upload. *)
Definition of_upload (rows : list UploadRow) (row : AcceptedRow) : Prop :=
  ∃ r, r ∈ rows ∧ ac_taskId row = taskId (up_row r) ∧ ac_canonicalUrl row = up_canonicalUrl r ∧ honest row.

Lemma decide_rows_upload facts available rows : Forall (of_upload rows) (decide_rows facts available rows).2.
Proof.
  induction rows as [|row rows IH]; cbn [decide_rows]; [constructor|].
  destruct (decide_rows facts available rows) as [decisions accepted]. cbn [snd] in *.
  assert (Forall (of_upload (row :: rows)) accepted) as H.
  { eapply Forall_impl; [exact IH|]. intros x (r & Hr & H). exists r. split; [by right|done]. }
  destruct (decideLateRecordingRow _ _ _); [|done..]. constructor; [|done]. exists row. split; [left|done].
Qed.

Lemma attach_rows_Ok rows env n d att n' d' :
  attach_rows rows env n d = (Ok att, (n', d')) → late_ok d →
  (late_ok d' ∧ later d d') ∧ batches d' = batches d ∧ items d' = items d ∧ corrections d' = corrections d ∧
  ∀ row, row ∈ att.1 → row ∈ rows ∧ attached d' row.
Proof.
  revert n d att n' d'. induction rows as [|row rows IH]; intros n d att n' d' H Hok; cbn [attach_rows] in H.
  { apply ret_Ok in H as [<- [= -> ->]]. split_and!; [done|done|done|done|done|]. by intros row ?%elem_of_nil. }
  apply sql_bind_Ok in H as (k & n1 & d1 & H1 & H). apply sql_bind_Ok in H as (rest & n2 & d2 & H2 & H).
  apply ret_Ok in H as [<- [= -> ->]]. apply statement_Ok in H1 as [_ H1].
  assert (evolves d d1) as Hev.
  { eapply evolves_artifacts; [exact H1|]. intros a Ha. unfold attachable in Ha. to_prop. split; cbn; [done|done|intros; congruence|done]. }
  destruct (Hev Hok) as [Hok1 Hl1]. apply IH in H2 as ((Hok2 & Hl2) & Hb & Hi & Hc & Hrest); [|done].
  assert (batches d1 = batches d ∧ items d1 = items d ∧ corrections d1 = corrections d) as (E1 & E2 & E3).
  { unfold update_artifacts in H1. destruct (update_where _ _ _). by injection H1 as _ <-. }
  split_and!; [done|by etransitivity|congruence|congruence|congruence|].
  intros x Hx. destruct (Nat.eqb_spec k 1) as [->|_]; cbn [fst] in Hx; [|by destruct (Hrest x Hx); split; [right|]].
  apply elem_of_cons in Hx as [->|Hx]; [|by destruct (Hrest x Hx); split; [right|]]. split; [left|].
  apply attached_mono with d1; [|by apply Hl2]. unfold update_artifacts in H1.
  destruct (update_where (attachable row) (attach_url row) (artifacts d)) as [m t] eqn:E. injection H1 as -> <-.
  assert (t = (update_where (attachable row) (attach_url row) (artifacts d)).2) as -> by by rewrite E.
  assert (length (where_ (attachable row) (artifacts d)) = 1%nat) as Hlen by (by cbn in E; injection E).
  destruct (where_ (attachable row) (artifacts d)) as [|a [|]] eqn:Ew; try done.
  assert (a ∈ where_ (attachable row) (artifacts d)) as [Ha Hin]%elem_of_where by (rewrite Ew; left).
  exists (attach_url row a). split.
  - cbn [with_artifacts artifacts]. apply elem_of_update. exists a. by rewrite Ha.
  - unfold attachable in Ha. to_prop. by split_and!.
Qed.

Lemma insert_items_Ok batchId at_ rows env n d u n' d' :
  insert_items batchId at_ rows env n d = (Ok u, (n', d')) →
  ∃ new, d' = with_items (items d ++ new) d ∧
    Forall2 (fun row i => ∃ id p, i = new_item id batchId row p at_) rows new ∧
    (distinct item_clashes (items d) = true → distinct item_clashes (items d') = true).
Proof.
  revert n d n' d'. induction rows as [|row rows IH]; intros n d n' d' H; cbn [insert_items] in H.
  { apply ret_Ok in H as [_ [= -> ->]]. exists []. rewrite app_nil_r. split_and!; [by destruct d|constructor|done]. }
  apply sql_bind_Ok in H as (id & n1 & d1 & [_ [= -> ->]]%newId_Ok & H).
  apply sql_bind_Ok in H as ([] & n2 & d2 & [t H1]%statement_Ok & H). bind_ok.
  unfold insert_item in *. bind_ok.
  match goal with E : insert_unique _ _ _ = _ |- _ => apply insert_unique_Ok in E as [Hc ->] end.
  match goal with E : checked _ _ _ = _ |- _ => apply checked_Ok in E as [_ E]; injection E as -> end.
  apply IH in H as (new & -> & Hf & Hd). exists (new_item id batchId row x at_ :: new). split_and!.
  - cbn [with_items artifacts batches items corrections other]. by rewrite <- app_assoc.
  - constructor; [by eexists _, _|done].
  - intros Hi. apply Hd. cbn [with_items items]. apply distinct_snoc; [done|]. intros s Hs.
    rewrite item_clashes_sym. by apply Hc.
Qed.

Lemma count_appended p b d new :
  count_items p b (with_items (items d ++ new) d) =
  count_items p b d + Z.of_nat (length (where_ (fun i => sql_eq (it_batch_id i) b && p (it_state i)) new)).
Proof. unfold count_items. cbn [with_items items]. rewrite where_app, length_app. lia. Qed.

(** A batch of its own, with its items, is added. *)
Lemma evolves_commit d b rows new at_ :
  late_ok d → (∀ s, s ∈ batches d → batch_clashes b s = false) →
  Forall2 (fun row i => ∃ id p, i = new_item id (lb_id b) row p at_) rows new →
  (∀ row, row ∈ rows → honest row ∧ attached d row) → rows ≠ [] →
  lb_accepted b = Z.of_nat (length rows) → lb_status b = batch_accepted →
  distinct item_clashes (items d ++ new) = true →
  late_ok (with_items (items d ++ new) (with_batches (batches d ++ [b]) d)) ∧
  later d (with_items (items d ++ new) (with_batches (batches d ++ [b]) d)).
Proof.
  intros Hok Hb Hnew Hrows Hne Hacc Hst Hd. set (d' := with_items _ _). pose proof Hok as [H1 H2 H3 H4 H5 H6 H7].
  assert (∀ i, i ∈ new → it_batch_id i = lb_id b ∧ ∃ row, row ∈ rows ∧ ∃ id p, i = new_item id (lb_id b) row p at_) as Hin.
  { intros i [k Hk]%list_elem_of_lookup_1. destruct (Forall2_lookup_r _ _ _ _ _ Hnew Hk) as (row & Hr & id & p & ->).
    split; [done|]. exists row. split; [by eapply list_elem_of_lookup_2|eauto]. }
  assert (∀ s, s ∈ batches d → sql_eq (lb_id b) (lb_id s) = false) as Hid.
  { intros s Hs. specialize (Hb s Hs). unfold batch_clashes in Hb. by to_prop. }
  assert (∀ p k, count_items p k d' = count_items p k d + Z.of_nat (length (where_ (fun i => sql_eq (it_batch_id i) k && p (it_state i)) new))) as Happ.
  { intros p k. exact (count_appended p k (with_batches (batches d ++ [b]) d) new). }
  assert (∀ p s, s ∈ batches d → count_items p (lb_id s) d' = count_items p (lb_id s) d) as Hcount.
  { intros p s Hs. rewrite Happ, (where_none _ new); [cbn; lia|]. intros i Hi. destruct (Hin i Hi) as [-> _]. by rewrite Hid. }
  assert (table_le batch_le (batches d) (batches d')) as Hbat by (apply table_le_snoc; apply _).
  assert (later d d') as Hlater.
  { split; [reflexivity|done| |reflexivity]. exists (items d), new. split; [done|reflexivity]. }
  split; [|done]. split; try done.
  - cbn. apply distinct_snoc; [done|]. intros s Hs. rewrite <- (Hb s Hs). unfold batch_clashes.
    by rewrite (sql_eq_sym (lb_id s)), (sql_eq_sym (lb_idempotency_key s)).
  - intros i [Hi|Hi]%elem_of_app; [by apply item_good_mono with d; [apply H5| |]|].
    destruct (Hin i Hi) as (_ & row & Hr & id & p & ->). destruct (Hrows row Hr) as [Hh (a & Ha & E1 & E2 & Hu)]. split.
    + exists b. split; [cbn; apply elem_of_app; right; left|]. apply sql_eq_refl.
    + exists a, (ac_canonicalUrl row). by split_and!.
    + done.
  - intros s [Hs| ->%list_elem_of_singleton]%elem_of_app.
    + destruct (H6 s Hs) as [A B C]. split; [by rewrite Hcount|done|done].
    + split.
      * rewrite Happ, Hacc. unfold count_items at 1. rewrite (where_none _ (items _)).
        -- assert (where_ (fun i => sql_eq (it_batch_id i) (lb_id b) && any_state (it_state i)) new = new) as ->.
           { apply where_all. intros i Hi. destruct (Hin i Hi) as [-> _]. by rewrite sql_eq_refl. }
           rewrite <- (Forall2_length _ _ _ Hnew). done.
        -- intros i Hi. destruct (ig_batch _ _ (H5 i Hi)) as (s & Hs & E). rewrite andb_true_r.
           apply not_true_iff_false. intros E'. pose proof (Hid s Hs) as Hf. rewrite sql_eq_sym in Hf.
           rewrite <- (sql_eq_trans _ _ _ E) in Hf. congruence.
      * destruct rows; [done|]. cbn in Hacc. lia.
      * by rewrite Hst.
  - intros c Hc. apply correction_good_mono with d; [by apply H7|done|]. intros p s Hs _. by apply Hcount.
Qed.

(** A batch of this upload, under its key. *)
Definition committed (input : commit_input) (digest id : string) (d : late_tables) : Prop :=
  ∃ b, b ∈ batches d ∧ lb_id b = id ∧ sql_eq (lb_idempotency_key b) (ci_idempotencyKey input) = true ∧
       lb_request_digest b = digest ∧ lb_bill_month b = pd_month (ci_period input).

Lemma committed_later input digest id d d' : later d d' → committed input digest id d → committed input digest id d'.
Proof.
  intros Hl (b & Hb & H1 & H2 & H3 & H4). destruct (batch_moved _ _ _ (later_batches _ _ Hl) Hb) as (b' & Hb' & Hle).
  exists b'. by rewrite (ble_id _ _ Hle), (ble_key _ _ Hle), (ble_digest _ _ Hle), (ble_bill_month _ _ Hle).
Qed.

(** The items of a batch are tasks of the upload, at their URLs. *)
Definition uploaded (input : commit_input) (id : string) (d : late_tables) : Prop :=
  ∀ i, i ∈ items d → sql_eq (it_batch_id i) id = true →
  ∃ r, r ∈ ci_rows input ∧ it_task_reference i = taskId (up_row r) ∧ it_url_sha256 i = canonicalUrlSha256 (up_canonicalUrl r).

Lemma head_where {R} (P : R → bool) t r : head (where_ P t) = Some r → r ∈ t ∧ P r = true.
Proof.
  intros H. destruct (where_ P t) as [|x l] eqn:E; [done|]. injection H as ->.
  assert (r ∈ where_ P t) as [? ?]%elem_of_where by (rewrite E; left). done.
Qed.

Lemma commit_body_Ok input digest r env n d re n' d' :
  commit_body input digest r env n d = (Ok re, (n', d')) → Forall (of_upload (ci_rows input)) (rv_accepted r) → late_ok d →
  (late_ok d' ∧ later d d') ∧
  match re_outcome re with
  | commit_accepted => ∃ id, re_batchId re = Some id ∧ committed input digest id d' ∧ uploaded input id d'
  | commit_replayed => ∃ id, re_batchId re = Some id ∧ committed input digest id d'
  | nothing_to_do => re_batchId re = None
  end.
Proof.
  intros H Hrows Hok. unfold commit_body in H. apply sql_bind_Ok in H as (replay & n1 & d1 & [-> [= -> ->]]%select_Ok & H).
  destruct (head (where_ _ (batches d))) as [b|] eqn:Eb.
  { apply head_where in Eb as [Hb Hk]. destruct (negb (String.eqb _ digest) || _) eqn:E; [by apply lift_Ok in H as [? _]|].
    apply ret_Ok in H as [<- [= -> ->]]. split; [by split|]. to_prop. exists (lb_id b). split; [done|]. exists b. split_and!; try done; by apply String.eqb_eq. }
  case_bool_decide as Ea; [by apply ret_Ok in H as [<- [= -> ->]]|].
  destruct (rv_rateCardVersionId r) as [card|]; [|by apply lift_Ok in H as [? _]].
  apply sql_bind_Ok in H as (id & n2 & d2 & [_ [= -> ->]]%newId_Ok & H).
  apply sql_bind_Ok in H as (att & n3 & d3 & H1 & H). apply attach_rows_Ok in H1 as ([Hok3 Hl3] & Hb & Hi & Hc & Hatt); [|done].
  cbv zeta in H. case_bool_decide as Ena; [by apply ret_Ok in H as [<- [= -> ->]]|].
  apply sql_bind_Ok in H as ([] & n4 & d4 & [t H2]%statement_Ok & H). unfold insert_batch in H2. bind_ok.
  match goal with E : insert_unique _ _ _ = _ |- _ => apply insert_unique_Ok in E as [Hcl ->] end.
  match goal with E : checked _ _ _ = _ |- _ => apply checked_Ok in E as [_ E]; injection E as -> end.
  apply sql_bind_Ok in H as (u & n5 & d5 & (new & -> & Hnew & Hd)%insert_items_Ok & H). apply ret_Ok in H as [<- [= -> ->]].
  set (b := new_batch _ _ _ _ _ _) in *.
  assert (∀ row, row ∈ att.1 → of_upload (ci_rows input) row ∧ attached d3 row) as Hof.
  { intros row Hr. destruct (Hatt row Hr) as [Hr' Ht]. split; [|done]. by apply (proj1 (Forall_forall _ _) Hrows). }
  destruct (evolves_commit d3 b att.1 new (ci_requestedAt input)) as [Hok5 Hl5]; try done.
  { intros row Hr. destruct (Hof row Hr) as [(r0 & _ & _ & _ & Hh) Ht]. by split. }
  { apply Hd. apply Hok3. }
  split; [split; [done|by etransitivity]|]. cbn [re_outcome]. exists id. split; [done|]. split.
  - exists b. split_and!; try done; [|apply sql_eq_refl]. cbn. apply elem_of_app. right. left.
  - intros i Hi' Ei. cbn [with_items with_batches items] in Hi'. apply elem_of_app in Hi' as [Hi'|Hi'].
    + destruct (ig_batch _ _ (ok_item _ Hok3 i Hi')) as (s & Hs & E). specialize (Hcl s Hs). exfalso.
      unfold batch_clashes in Hcl. to_prop. rewrite (sql_eq_trans _ _ id E), sql_eq_sym in Ei. cbn in *. congruence.
    + apply list_elem_of_lookup_1 in Hi' as [k Hk]. destruct (Forall2_lookup_r _ _ _ _ _ Hnew Hk) as (row & Hr & id' & p & ->).
      apply list_elem_of_lookup_2 in Hr. destruct (Hof row Hr) as [(r0 & Hr0 & E1 & E2 & E3) _]. exists r0.
      cbn. by rewrite <- E1, <- E2.
Qed.

(** ** The month correction *)

(** A correction of a batch whose items are all settled is added. *)
Lemma evolves_correction d b c :
  late_ok d → (∀ s, s ∈ corrections d → correction_clashes c s = false) →
  b ∈ batches d → sql_eq (mc_batch_id c) (lb_id b) = true → mc_bill_month c = lb_bill_month b → mc_currency c = "INR" →
  lb_baseline b = Some (mc_previous c) → mc_delta c = mc_revised c - mc_previous c →
  count_items live (lb_id b) d = 0 →
  mc_corrected c = count_items (is_state corrected) (lb_id b) d → mc_failed c = count_items (is_state item_failed) (lb_id b) d →
  late_ok (with_corrections (corrections d ++ [c]) d) ∧ later d (with_corrections (corrections d ++ [c]) d).
Proof.
  intros [H1 H2 H3 H4 H5 H6 H7] Hcl Hb E Hm Hcu Hbase Hd Hl Hc Hf. split.
  - split; try done.
    + cbn. apply distinct_snoc; [done|]. intros s Hs. rewrite <- (Hcl s Hs). unfold correction_clashes.
      by rewrite (sql_eq_sym (mc_id s)), (sql_eq_sym (mc_batch_id s)).
    + intros i Hi. destruct (H5 i Hi) as [A B C]. by split.
    + intros s Hs. destruct (H6 s Hs) as [A B C]. split; [done|done|]. intros Ht. destruct (C Ht) as (x & Hx & Ex).
      exists x. split; [|done]. cbn. apply elem_of_app. by left.
    + intros x [Hx| ->%list_elem_of_singleton]%elem_of_app; [by apply H7|]. exists b. by split_and!.
  - split; try reflexivity. cbn. by apply prefix_app_r.
Qed.

(** What an answer says of the stored correction. *)
Definition says (c : correction_row) (y : correction_payload) : Prop :=
  mc_bill_month c = py_billMonth y ∧ fixed8_of (mc_previous c) = py_previousVerifiedTotal y ∧
  fixed8_of (mc_revised c) = py_revisedVerifiedTotal y ∧ fixed8_of (mc_delta c) = py_deltaAmount y ∧
  mc_corrected c = py_correctedCount y ∧ mc_failed c = py_failedCount y.

Lemma matches_says c y : correctionMatches c y = true → says c y.
Proof.
  unfold correctionMatches. intros H. to_prop.
  repeat match goal with E : String.eqb _ _ = true |- _ => apply String.eqb_eq in E end. by split_and!.
Qed.

Lemma decimal_column_text t v : decimal_column t = Ok v → toScaled (Some t) = Some v.
Proof. unfold decimal_column. destruct (toScaled (Some t)) as [w|]; [|done]. destruct (_ <? _); [|done]. by intros [= ->]. Qed.

Lemma decimal_column_fixed8 v w : decimal_column (fixed8_of v) = Ok w → w = v.
Proof. intros H%decimal_column_text. rewrite toScaled_fixed8_of in H. by injection H. Qed.

Lemma correction_of_in batchId d c : correction_of batchId d = Some c → c ∈ corrections d ∧ sql_eq (mc_batch_id c) batchId = true.
Proof. unfold correction_of. intros H%head_where. exact H. Qed.

(** The payload of a batch. *)
Record payload_good (b : batch_row) (d : late_tables) (y : correction_payload) : Prop := PayloadGood {
  pg_month : py_billMonth y = lb_bill_month b;
  pg_amounts : ∃ previous revised, lb_baseline b = Some previous ∧ py_previousVerifiedTotal y = fixed8_of previous ∧
    py_revisedVerifiedTotal y = fixed8_of revised ∧ py_deltaAmount y = fixed8_of (revised - previous);
  pg_live : count_items live (lb_id b) d = 0;
  pg_corrected : py_correctedCount y = count_items (is_state corrected) (lb_id b) d;
  pg_failed : py_failedCount y = count_items (is_state item_failed) (lb_id b) d;
}.

Lemma record_correction_Ok batchId y b env n d o n' d' :
  record_correction batchId y env n d = (Ok o, (n', d')) → late_ok d → b ∈ batches d → sql_eq (lb_id b) batchId = true →
  payload_good b d y →
  (late_ok d' ∧ later d d') ∧ o ≠ finalize_in_flight ∧ batches d' = batches d ∧
  ∃ c, c ∈ corrections d' ∧ sql_eq (mc_batch_id c) batchId = true ∧ says c y.
Proof.
  intros H Hok Hb Eb [Hm (previous & revised & Hbase & Ep & Er & Ed) Hl Hcc Hcf]. unfold record_correction in H.
  apply sql_bind_Ok in H as (existing & n1 & d1 & [-> [= -> ->]]%select_Ok & H).
  destruct (correction_of batchId d) as [c|] eqn:Ec.
  { apply correction_of_in in Ec as [Hc Ec]. unfold replay_correction in H.
    destruct (correctionMatches c y) eqn:Em; [|by apply lift_Ok in H as [? _]]. apply ret_Ok in H as [<- [= -> ->]].
    split; [by split|]. split_and!; [done|done|]. exists c. split_and!; [done|done|by apply matches_says]. }
  apply sql_bind_Ok in H as (id & n2 & d2 & [_ [= -> ->]]%newId_Ok & H). unfold trying in H.
  match type of H with match ?x with _ => _ end = _ => destruct x as [[o'|e] [n3 d3]] eqn:E end.
  - injection H as -> -> ->. apply sql_bind_Ok in E as ([] & n4 & d4 & [t H1]%statement_Ok & H). apply ret_Ok in H as [<- [= -> ->]].
    unfold insert_payload, insert_correction in H1. bind_ok.
    match goal with E : insert_unique _ _ _ = _ |- _ => apply insert_unique_Ok in E as [Hcl ->] end.
    match goal with E : checked _ _ _ = _ |- _ => apply checked_Ok in E as [_ E]; injection E as -> end.
    repeat match goal with
      | E : decimal_column (py_previousVerifiedTotal y) = _ |- _ => rewrite Ep in E; apply decimal_column_fixed8 in E; subst
      | E : decimal_column (py_revisedVerifiedTotal y) = _ |- _ => rewrite Er in E; apply decimal_column_fixed8 in E; subst
      | E : decimal_column (py_deltaAmount y) = _ |- _ => rewrite Ed in E; apply decimal_column_fixed8 in E; subst
      end.
    destruct (evolves_correction d b _ Hok Hcl Hb) as [A B]; cbn; try done; [by rewrite sql_eq_sym|].
    split; [by split|]. split_and!; [done|done|]. eexists. split; [cbn; apply elem_of_app; right; left|]. cbn.
    split; [apply sql_eq_refl|]. by split_and!.
  - case_bool_decide as Ee; [|by apply lift_Ok in H as [? _]].
    apply sql_bind_Ok in H as (raced & n4 & d4 & [-> [= -> ->]]%select_Ok & H). rewrite Ec in H. by apply lift_Ok in H as [? _].
Qed.

(** An answer is what the stored correction of its batch says. *)
Definition answers_correction (input : finalize_input) (z : Finalization) (d : late_tables) : Prop :=
  ∃ c, c ∈ corrections d ∧ sql_eq (mc_batch_id c) (fi_batchId input) = true ∧ mc_bill_month c = fi_billMonth input ∧
    fz_previousVerifiedTotal z = fixed8_of (mc_previous c) ∧ fz_revisedVerifiedTotal z = Some (fixed8_of (mc_revised c)) ∧
    fz_deltaAmount z = Some (fixed8_of (mc_delta c)) ∧ fz_correctedCount z = mc_corrected c ∧ fz_failedCount z = mc_failed c.

Lemma batch_of_in batchId d b : batch_of batchId d = Some b → b ∈ batches d ∧ sql_eq (lb_id b) batchId = true.
Proof. unfold batch_of. intros H%head_where. exact H. Qed.

Lemma payload_of_good input b v at_ d y :
  b ∈ batches d → sql_eq (lb_id b) (fi_batchId input) = true → lb_baseline b = Some v → lb_bill_month b = fi_billMonth input →
  ro_live (roll_up (fi_batchId input) d) ≤ 0 →
  payload_of input (roll_up (fi_batchId input) d) v at_ = Ok y →
  payload_good b d y ∧ py_billMonth y = fi_billMonth input ∧
  py_correctedCount y = ro_corrected (roll_up (fi_batchId input) d) ∧ py_failedCount y = ro_failed (roll_up (fi_batchId input) d).
Proof.
  intros Hb Eb Hv Hm Hl H. unfold payload_of in H. destruct (lateRecordingCorrectionTotals _ _ _) as [totals|e] eqn:Et; [|done]. bind_ok.
  apply correction_totals_exact in Et as (vp & vr & Hp & Hr & _ & ->). rewrite toScaled_fixed8_of in Hp. injection Hp as <-.
  cbn [roll_up ro_live] in Hl. split; [|done]. split; cbn [py_billMonth py_previousVerifiedTotal py_revisedVerifiedTotal py_deltaAmount py_correctedCount py_failedCount ct_previousVerifiedTotal ct_revisedVerifiedTotal ct_deltaAmount roll_up ro_corrected ro_failed].
  - done.
  - by exists v, vr.
  - rewrite (count_items_ext live _ _ d Eb). unfold count_items in *. lia.
  - symmetry. by apply count_items_ext.
  - symmetry. by apply count_items_ext.
Qed.

Lemma finalize_body_Ok input env n d z n' d' :
  finalize_body input env n d = (Ok z, (n', d')) → late_ok d →
  (late_ok d' ∧ later d d') ∧ (fz_outcome z = finalize_in_flight ∨ answers_correction input z d').
Proof.
  intros H Hok. unfold finalize_body in H. apply sql_bind_Ok in H as (batch & n1 & d1 & [-> [= -> ->]]%select_Ok & H).
  destruct (batch_of (fi_batchId input) d) as [b|] eqn:Eb; [|by apply lift_Ok in H as [? _]].
  apply batch_of_in in Eb as [Hb Eb]. destruct (lb_baseline b) as [v|] eqn:Ev; [|by apply lift_Ok in H as [? _]].
  destruct (String.eqb_spec (lb_bill_month b) (fi_billMonth input)) as [Hm|]; cbn [negb] in H; [|by apply lift_Ok in H as [? _]].
  apply sql_bind_Ok in H as (r & n2 & d2 & [-> [= -> ->]]%select_Ok & H).
  destruct (Z.ltb_spec 0 (ro_live (roll_up (fi_batchId input) d))) as [Hl|Hl]; [apply ret_Ok in H as [<- [= -> ->]]; split; [by split|by left]|].
  destruct (ro_completed_at _) as [at_|]; [|by apply lift_Ok in H as [? _]].
  destruct (negb _); [by apply lift_Ok in H as [? _]|].
  apply sql_bind_Ok in H as (y & n3 & d3 & [Hy [= -> ->]]%lift_Ok & H).
  destruct (payload_of_good _ _ _ _ _ _ Hb Eb Ev Hm Hl Hy) as (Hgood & Hym & Hyc & Hyf).
  unfold finish_batch in H. apply sql_bind_Ok in H as (o & n4 & d4 & H1 & H).
  eapply record_correction_Ok in H1 as ((Hok4 & Hl4) & Ho & Hbs & c & Hc & Ec & Hs); [|done..].
  apply sql_bind_Ok in H as (k & n5 & d5 & [t H2]%statement_Ok & H). apply ret_Ok in H as [<- [= -> ->]].
  assert (evolves d4 d5) as Hev.
  { eapply evolves_batches; [exact H2|]. intros _ x Hx Ex. split; [apply set_counts_le|]. intros _. exists c. split; [done|].
    unfold batch_is in Ex. rewrite sql_eq_sym in Ex. by rewrite <- (sql_eq_trans _ _ _ Ec). }
  destruct (Hev Hok4) as [Hok5 Hl5]. split; [split; [done|by etransitivity]|]. right.
  assert (corrections d5 = corrections d4) as Ecs.
  { unfold update_batches in H2. destruct (update_where _ _ _). apply checked_Ok in H2 as [_ [= _ ->]]. done. }
  destruct Hs as (S1 & S2 & S3 & S4 & S5 & S6). exists c. rewrite Ecs. cbn in Hyc, Hyf |- *. split_and!; try done; congruence.
Qed.
End Steps.
