(* ===== verification/LateJobs.v ===== *)
(** * Late recordings: what every job comes to

    The rely-guarantee proof of every program of [LateWorld]: it keeps the invariant whatever the
    others do between its operations, and what it answers is what the tables then say. *)

From stdpp Require Import relations.
From S2P Require Import Prelude JsText CanonicalJson Decimal Sql Prog ReauditTypes VerifiedCharge BillingRecords AcceptedAsBilled AuditedProjection LateRecording LateUpload LateTables LateStore LateBatch LateCorrect LateWorld LateSafety LateSteps.

Local Open Scope string_scope.
Local Open Scope list_scope.
#[global] Open Scope Z_scope.

Section Jobs.
Context `{PL : Platform, CO : Collation}.

Definition sound (w : late_world) : Prop := late_ok (tables w).

Definition guar (_ : nat) (w w' : late_world) : Prop := later (tables w) (tables w') ∧ history w `prefix_of` history w'.

#[export] Instance guar_preorder i : PreOrder (guar i).
Proof. split; [by intros w|]. intros a b c [] []. split; by etransitivity. Qed.

Notation doing := (ensures (@late_perform) sound guar).

Lemma relied i w w' : rely guar i w w' → guar 0 w w'.
Proof. induction 1 as [w|a b c (j & _ & H) _ IH]; [reflexivity|]. by transitivity b. Qed.

(** What an operation needs. *)
Definition op_ok {X} (o : late_op X) : Prop :=
  match o with Run m => changes evolves m | Outside f => lawful f | _ => True end.

Lemma effect_evolves c d : evolves d (effect_on c d).
Proof. by apply same_tables. Qed.

Lemma perform_ok {X} i (o : late_op X) c w : op_ok o → sound w →
  sound (late_perform i o c w).2 ∧ guar i w (late_perform i o c w).2.
Proof.
  intros Ho Hw.
  assert (∀ d k l, evolves (tables w) d → history w `prefix_of` l → sound (LateWorld d k l) ∧ guar i w (LateWorld d k l)) as Hgo.
  { intros d k l H Hp. destruct (H Hw) as [H1 H2]. split; [exact H1|]. by split. }
  destruct o as [| | |A read|A m| |call|r|f]; cbn.
  - done.
  - destruct (refused _ _); [done|]. by destruct (commit_lock w).
  - by destruct (refused _ _).
  - done.
  - specialize (Ho (database c) 0%nat (tables w)). destruct (m _ _ _) as [r [n d]]. by apply Hgo.
  - done.
  - by apply Hgo; [apply effect_evolves|apply prefix_app_r].
  - destruct (_ && _); [done|]. apply Hgo; [apply effect_evolves|by apply prefix_app_r].
  - by apply Hgo; [apply evolves_outside|].
Qed.

Lemma performed {X} i (o : late_op X) c w w1 : op_ok o → sound w → guar 0 (late_perform i o c w).2 w1 → guar 0 w w1.
Proof. intros Ho Hw H. transitivity (late_perform i o c w).2; [|exact H]. exact (proj2 (perform_ok i o c w Ho Hw)). Qed.

(** One operation, and what follows it at any later moment. *)
Lemma do_ok {X B} i (o : late_op X) (k : X → prog late_op B) Q w :
  op_ok o → sound w →
  (∀ c w1, guar 0 (late_perform i o c w).2 w1 → sound w1 → doing i (k (late_perform i o c w).1) Q w1) →
  doing i (Do o k) Q w.
Proof.
  intros Ho Hw H. cbn. intros c. destruct (perform_ok i o c w Ho Hw) as [H1 H2]. specialize (H c).
  destruct (late_perform i o c w) as [x w1]. split_and!; [done..|]. intros w2 Hr Hs. apply H; [|done]. by eapply relied.
Qed.

Lemma await_ok {B} i (o : late_op (Prelude.result late_failure B)) Q w :
  op_ok o → sound w →
  (∀ c w1, guar 0 (late_perform i o c w).2 w1 → sound w1 → Q (late_perform i o c w).1 w1) → doing i (await o) Q w.
Proof. intros Ho Hw H. apply do_ok; [done..|]. intros c w1 Hg Hs. by apply H. Qed.

(** An operation whose answer is of no account here. *)
Lemma await_any {B} i (o : late_op (Prelude.result late_failure B)) Q w :
  op_ok o → sound w → (∀ r w1, guar 0 w w1 → sound w1 → Q r w1) → doing i (await o) Q w.
Proof.
  intros Ho Hw H. apply await_ok; [done..|]. intros c w1 Hg. apply H. transitivity (late_perform i o c w).2; [|done].
  by apply (perform_ok i o c w).
Qed.

Lemma bind_any {A B} i (m : late_act A) (f : A → late_act B) Q w :
  doing i m (fun r w1 => match r with Ok a => doing i (f a) Q w1 | Throw e => Q (Throw e) w1 end) w → doing i (m ≫= f) Q w.
Proof. apply ensures_bind. Qed.

Lemma safely_ok {A} i (m : late_act A) Q w :
  doing i m (fun r w1 => match r with Ok a => Q (Ok a) w1 | Throw e => Q (Throw (asSafeLateRecordingError e)) w1 end) w →
  doing i (safely m) Q w.
Proof. intros H. unfold safely, rethrow. apply ensures_catch. eapply ensures_mono; [exact H|]. by intros [a|e] w1. Qed.

(** What holds whatever a program answers. *)
Lemma always_ok {A} i (m : late_act A) (Q : Prelude.result late_failure A → late_world → Prop) w :
  uses (fun X (o : late_op X) => op_ok o) m → (∀ r w1, Q r w1) → sound w → doing i m Q w.
Proof. intros Hm HQ Hw. eapply ensures_uses; [|exact Hm|done|done]. intros X o c w1 Ho Hs. by apply perform_ok. Qed.

(** ** The upload *)

Definition commit_says (input : commit_input) (re : Receipt) (d : late_tables) : Prop :=
  ∃ digest, upload_digest input = Ok digest ∧
  match re_outcome re with
  | commit_accepted => ∃ id, re_batchId re = Some id ∧ committed input digest id d ∧ uploaded input id d
  | commit_replayed => ∃ id, re_batchId re = Some id ∧ committed input digest id d
  | nothing_to_do => re_batchId re = None
  end.

(** A batch never gains an item. *)
Lemma item_of_batch d d' b i :
  late_ok d → late_ok d' → later d d' → b ∈ batches d → i ∈ items d' → sql_eq (it_batch_id i) (lb_id b) = true →
  ∃ i0, i0 ∈ items d ∧ item_le i0 i.
Proof.
  intros Hok Hok' Hl Hb Hi E. destruct (batch_moved _ _ _ (later_batches _ _ Hl) Hb) as (b' & Hb' & Hle).
  pose proof (bg_accepted _ _ (ok_batch _ Hok b Hb)) as H1. pose proof (bg_accepted _ _ (ok_batch _ Hok' b' Hb')) as H2.
  rewrite (ble_accepted _ _ Hle), (ble_id _ _ Hle) in H2. rewrite H1 in H2.
  destruct (later_items _ _ Hl) as (kept & new & Hit & Hk). unfold count_items in H2. rewrite Hit, where_app, length_app in H2.
  assert (length (where_ (fun i => sql_eq (it_batch_id i) (lb_id b) && any_state (it_state i)) kept) =
          length (where_ (fun i => sql_eq (it_batch_id i) (lb_id b) && any_state (it_state i)) (items d))) as Hlen.
  { clear -Hk. induction Hk as [|x y l l' Hxy Hl IH]; [done|]. apply Nat2Z.inj. rewrite !length_where_cons, IH.
    by rewrite (ile_batch _ _ Hxy). }
  rewrite Hit in Hi. apply elem_of_app in Hi as [Hi|Hi].
  - apply list_elem_of_lookup_1 in Hi as [k Hi]. destruct (Forall2_lookup_r _ _ _ _ _ Hk Hi) as (i0 & Hi0 & Hile).
    exists i0. split; [by eapply list_elem_of_lookup_2|done].
  - exfalso. assert (i ∈ where_ (fun i => sql_eq (it_batch_id i) (lb_id b) && any_state (it_state i)) new) as Hw.
    { apply elem_of_where. split; [|done]. by rewrite E. }
    destruct (where_ _ new); [by apply elem_of_nil in Hw|]. cbn [length] in H2. lia.
Qed.

Lemma uploaded_later input digest id d d' :
  late_ok d → late_ok d' → later d d' → committed input digest id d → uploaded input id d → uploaded input id d'.
Proof.
  intros Hok Hok' Hl (b & Hb & <- & _) Hu i Hi E. destruct (item_of_batch d d' b i) as (i0 & Hi0 & Hle); try done.
  rewrite (ile_task _ _ Hle), (ile_url _ _ Hle). apply Hu; [done|]. by rewrite <- (ile_batch _ _ Hle).
Qed.

Lemma commit_says_later input re d d' : late_ok d → late_ok d' → later d d' → commit_says input re d → commit_says input re d'.
Proof.
  intros Hok Hok' Hl (h & Hh & H). exists h. split; [done|]. destruct (re_outcome re); [| |done].
  - destruct H as (id & H1 & H2 & H3). exists id. split_and!; [done|by eapply committed_later|exact (uploaded_later input h id d d' Hok Hok' Hl H2 H3)].
  - destruct H as (id & H1 & H2). exists id. split; [done|by eapply committed_later].
Qed.

Lemma resolveBatch_ok i p rows carried w : sound w →
  doing i (resolveBatch p rows carried)
    (fun r w1 => sound w1 ∧ match r with Ok r => Forall (of_upload rows) (rv_accepted r) | Throw _ => True end) w.
Proof.
  intros Hw. unfold resolveBatch. destruct (_ <? _); [done|]. apply bind_any, await_any; [done..|]. intros [card|e] w1 _ Hw1; [|done].
  assert (∀ facts w2, sound w2 → doing i ((let '(decisions, accepted) := decide_rows facts (bool_decide (is_Some card)) rows in
    let decisions := carried ++ decisions in
    mret (Resolve (summarizeLateRecordingDecisions decisions (Z.of_nat (length decisions))) accepted card)) : late_act Resolution)
    (fun r w1 => sound w1 ∧ match r with Ok r => Forall (of_upload rows) (rv_accepted r) | Throw _ => True end) w2) as Hend.
  { intros facts w2 Hw2. pose proof (decide_rows_upload facts (bool_decide (is_Some card)) rows) as H.
    destruct (decide_rows _ _ _) as [decisions accepted]. done. }
  apply bind_any. destruct (bool_decide (rows = [])); [by apply Hend|]. apply bind_any, await_any; [done..|].
  intros [resolved|e] w2 _ Hw2; [|done]. by apply Hend.
Qed.

Lemma commit_locked_ok i input w : sound w →
  doing i (commit_locked input) (fun r w1 => sound w1 ∧ match r with Ok re => commit_says input re (tables w1) | Throw _ => True end) w.
Proof.
  intros Hw. unfold commit_locked. apply bind_any. cbn [sync ensures]. destruct (upload_digest input) as [digest|e] eqn:Ed; [|done].
  apply bind_any. eapply ensures_mono; [by apply resolveBatch_ok|]. intros [r|e] w1 [Hw1 Hr]; [|done].
  apply await_ok; [|done|].
  { apply changes_transaction. intros env n d re n' d' Hb Hok. by apply (commit_body_Ok _ _ _ _ _ _ _ _ _ Hb). }
  intros c w2 Hg Hw2. cbn [late_perform] in Hg |- *. split; [done|].
  destruct (transaction (commit_body input digest r) (database c) 0%nat (tables w1)) as [res [n d]] eqn:Et. destruct Hg as [Hg _].
  cbn in Hg |- *. destruct res as [re|e]; [|done].
  apply transaction_cases in Et as [[-> Hno]|(re' & m & k & Hb & Hres)]; [by destruct (Hno re)|].
  rewrite (Hres _ eq_refl). apply commit_body_Ok in Hb as [[Hok Hl] Hout]; [|done..].
  eapply commit_says_later; [exact Hok|exact Hw2|exact Hg|by exists digest].
Qed.

Lemma commit_ok i input w : sound w →
  doing i (commitLateRecordingBatch input) (fun r w1 => match r with Ok re => commit_says input re (tables w1) | Throw _ => True end) w.
Proof.
  intros Hw. unfold commitLateRecordingBatch. apply bind_any, await_any; [done..|]. intros [[]|e] w1 _ Hw1; [|done].
  apply safely_ok, bind_any, await_any; [done..|]. intros [held|e] w2 _ Hw2; [|done]. destruct held; cbn [negb]; [|done].
  unfold unlocking. apply ensures_seq. eapply ensures_mono; [by apply commit_locked_ok|]. intros r w3 [Hw3 Hr].
  apply do_ok; [done..|]. intros c w4 Hg Hw4. cbn [ensures]. destruct r as [re|e]; [|done].
  assert (later (tables w3) (tables w4)) as Hl.
  { destruct Hg as [Hg _]. cbn in Hg. by destruct (refused _ _). }
  exact (commit_says_later input re _ _ Hw3 Hw4 Hl Hr).
Qed.

(** ** An item *)

Definition settled_as (input : settle_input) (d : late_tables) : Prop :=
  ∃ r, r ∈ items d ∧ sql_eq (it_id r) (si_itemId input) = true ∧ sql_eq (it_batch_id r) (si_batchId input) = true ∧
    it_state r = settled_state (si_outcome input) ∧ it_completed_at r = Some (stored_instant (si_at input)) ∧
    (∀ code, si_outcome input = settle_failed → si_errorCode input = Some code → it_last_error_code r = Some (safeLateRecordingFailureCode (Some code))) ∧
    (∀ t, si_revisedAmount input = Some t → ∃ v, toScaled (Some t) = Some v ∧ it_revised_amount r = Some v).

Lemma settled_row_stays d d' r : later d d' → r ∈ items d → live (it_state r) = false → r ∈ items d'.
Proof.
  intros Hl Hr Hs. destruct (table_le_lookup _ _ _ _ (later_items _ _ Hl) Hr) as (r' & Hr' & Hle). by rewrite <- (ile_settled _ _ Hle Hs).
Qed.

Lemma settled_later input d d' : later d d' → settled_as input d → settled_as input d'.
Proof.
  intros Hl (r & Hr & E1 & E2 & Hs & H). exists r. split_and!; try done; try apply H.
  eapply settled_row_stays; [exact Hl|done|]. rewrite Hs. by destruct (si_outcome input).
Qed.

Lemma autocommit_Ok {A} (s : Z → late_tables → Prelude.result sql_error (A * late_tables)) env n d a n' d' :
  autocommit s env n d = (Ok a, (n', d')) → ∃ t, s t d = Ok (a, d').
Proof.
  unfold autocommit. destruct (s _ d) as [[b d1]|e] eqn:E; [|done].
  destruct (refused env n); [done|]. intros [= -> <- <-]. by eexists.
Qed.

Lemma printed_column text p v : print_optional text = Ok p → nullable_decimal p = Ok v →
  ∀ t, text = Some t → toScaled (Some t) = v ∧ is_Some v.
Proof.
  intros Hp Hv t ->. cbn in Hp. unfold print_amount in Hp. destruct (LateRecording.fixed8 t) as [q|] eqn:Eq; [|done]. cbn in Hp. bind_ok.
  apply fixed8_spec in Eq as (w & Hw & ->). cbn in Hv. bind_ok.
  match goal with E : decimal_column _ = _ |- _ => apply decimal_column_fixed8 in E; subst end. by rewrite Hw.
Qed.

Lemma update_settled_Ok input previous revised d d' :
  update_settled input previous revised d = Ok (1%nat, d') → print_optional (si_revisedAmount input) = Ok revised → settled_as input d'.
Proof.
  intros H Hr. apply bind_Ok_iff in H as (x & _ & H). apply bind_Ok_iff in H as (x0 & Hx0 & H). apply update_items_Ok in H as [Hlen ->].
  destruct (where_ (settleable input) (items d)) as [|r [|]] eqn:Ew; try done.
  assert (r ∈ where_ (settleable input) (items d)) as [Hp Hin]%elem_of_where by (rewrite Ew; left).
  exists (settle_row input x x0 r). split.
  { cbn [with_items items]. apply elem_of_update. exists r. by rewrite Hp. }
  unfold settleable in Hp. to_prop. cbn [settle_row it_id it_batch_id it_state it_completed_at it_last_error_code it_revised_amount]. split_and!; try done.
  - by intros code -> ->.
  - intros u Hu. destruct (printed_column _ _ _ Hr Hx0 u Hu) as [Hu1 [v ->]]. by exists v.
Qed.

Lemma settle_ok i input w : sound w →
  doing i (settleLateRecordingItem input)
    (fun r w1 => sound w1 ∧ guar 0 w w1 ∧ match r with Ok _ => settled_as input (tables w1) | Throw _ => True end) w.
Proof.
  intros Hw. unfold settleLateRecordingItem. apply bind_any. cbn [sync ensures].
  destruct (print_optional (si_previousAmount input)) as [previous|e]; [|by split_and!; [|reflexivity|]].
  apply bind_any. cbn [sync ensures]. destruct (print_optional (si_revisedAmount input)) as [revised|e] eqn:Er; [|by split_and!; [|reflexivity|]].
  assert (op_ok (Run (autocommit (fun _ => update_settled input previous revised)))) as Hop.
  { apply changes_autocommit. intros t d n d'. apply evolves_settled. }
  apply bind_any, await_ok; [done..|]. intros c w1 Hg Hw1. pose proof (performed _ _ _ _ _ Hop Hw Hg) as Hg0.
  cbn [late_perform] in Hg |- *.
  destruct (autocommit _ (database c) 0%nat (tables w)) as [res [n d]] eqn:Et. destruct Hg as [Hg _]. cbn [fst snd tables] in Hg |- *.
  destruct res as [k|e]; [|done]. destruct (Nat.eqb_spec k 1) as [->|]; cbn [negb]; [|done].
  apply autocommit_Ok in Et as [t Et]. apply update_settled_Ok in Et; [|done].
  apply bind_any, await_any; [apply changes_autocommit; intros t' d' n' d''; apply evolves_recount|done|].
  intros [m|e] w2 Hg2 Hw2; cbn [ensures mret action_ret]; (split_and!; [done|by transitivity w1|]); [|done].
  eapply settled_later; [|exact Et]. etransitivity; [exact Hg|apply Hg2].
Qed.

(** ** The baseline *)

Definition prepared_says (batchId : string) (p : Preparation) (d : late_tables) : Prop :=
  ∃ b v, b ∈ batches d ∧ sql_eq (lb_id b) batchId = true ∧ lb_baseline b = Some v ∧
    pr_previousVerifiedTotal p = fixed8_of v ∧ pr_rateCardVersionId p = lb_rate_card_version_id b.

Lemma prepared_later batchId p d d' : later d d' → prepared_says batchId p d → prepared_says batchId p d'.
Proof.
  intros Hl (b & v & Hb & E & Hv & Hp & Hc). destruct (batch_moved _ _ _ (later_batches _ _ Hl) Hb) as (b' & Hb' & Hle).
  exists b', v. rewrite (ble_id _ _ Hle), (ble_card _ _ Hle). split_and!; try done. by apply Hle.
Qed.

Lemma print_fixed8 v t : print_amount (fixed8_of v) = Ok t → t = fixed8_of v.
Proof. unfold print_amount. rewrite fixed8_of_fixed8_of. by intros [= <-]. Qed.

Lemma capture_baseline_Ok batchId p at_ env n d total n' d' b :
  capture_baseline batchId p at_ env n d = (Ok total, (n', d')) → b ∈ batches d → sql_eq (lb_id b) batchId = true → lb_baseline b = None →
  ∃ b' v, b' ∈ batches d' ∧ sql_eq (lb_id b') batchId = true ∧ lb_baseline b' = Some v ∧ total = fixed8_of v ∧
          lb_rate_card_version_id b' = lb_rate_card_version_id b.
Proof.
  intros H Hb Eb Hn. unfold capture_baseline in H. apply sql_bind_Ok in H as (t & n1 & d1 & [-> [= -> ->]]%select_Ok & H).
  apply sql_bind_Ok in H as (k & n2 & d2 & [z H1]%statement_Ok & H). destruct (negb _); [by apply lift_Ok in H as [? _]|].
  apply ret_Ok in H as [<- [= -> ->]]. apply bind_Ok_iff in H1 as (x & Hx & [_ ->]%update_batches_Ok).
  exists (capture x at_ b), x. split_and!; [|done|done| |done].
  - cbn [with_batches batches]. apply elem_of_update. exists b. split; [done|]. unfold unprepared, batch_is. rewrite Eb, Hn. done.
  - unfold month_total in *. by apply decimal_column_fixed8 in Hx as ->.
Qed.

Lemma prepare_body_Ok batchId p at_ env n d r n' d' :
  prepare_body batchId p at_ env n d = (Ok (Some r), (n', d')) → prepared_says batchId r d'.
Proof.
  intros H. unfold prepare_body in H. apply sql_bind_Ok in H as (batch & n1 & d1 & [-> [= -> ->]]%select_Ok & H).
  destruct (batch_of batchId d) as [b|] eqn:Eb; [|by apply ret_Ok in H as [? _]]. apply batch_of_in in Eb as [Hb Eb].
  apply sql_bind_Ok in H as (c & n2 & d2 & [-> [= -> ->]]%select_Ok & H). apply sql_bind_Ok in H as (total & n3 & d3 & H1 & H).
  apply sql_bind_Ok in H as (t & n4 & d4 & [Ht [= -> ->]]%lift_Ok & H). apply ret_Ok in H as [[= <-] [= -> ->]].
  destruct (lb_baseline b) as [v|] eqn:Ev.
  - apply sql_bind_Ok in H1 as (u & n5 & d5 & H1 & [<- [= -> ->]]%ret_Ok).
    assert (∃ b', b' ∈ batches d5 ∧ batch_le b b') as (b' & Hb' & Hle).
    { case_bool_decide; [|apply ret_Ok in H1 as [_ [= -> ->]]; by exists b]. apply statement_Ok in H1 as [z H1].
      apply update_batches_Ok in H1 as [_ ->]. apply (table_le_lookup batch_le (batches d)); [|done]. cbn [with_batches batches].
      apply table_le_update; [apply _|]. intros r _ _. apply set_status_le. }
    apply print_fixed8 in Ht as ->. exists b', v. rewrite (ble_id _ _ Hle), (ble_card _ _ Hle). split_and!; try done. by apply Hle.
  - destruct (capture_baseline_Ok _ _ _ _ _ _ _ _ _ _ H1 Hb Eb Ev) as (b' & v & Hb' & Eb' & Hv & -> & Hc).
    apply print_fixed8 in Ht as ->. exists b', v. by split_and!.
Qed.

Lemma prepare_ok i batchId p at_ w : sound w →
  doing i (prepareLateRecordingBatch batchId p at_)
    (fun r w1 => sound w1 ∧ match r with Ok (Some r) => prepared_says batchId r (tables w1) | _ => True end) w.
Proof.
  intros Hw. unfold prepareLateRecordingBatch. apply bind_any, await_any; [done..|]. intros [[]|e] w1 _ Hw1; [|done].
  apply safely_ok, await_ok; [|done|].
  { apply changes_transaction. intros env n d a n' d' H. pose proof (changes_prepare batchId p (stored_instant at_) env n d) as Hc.
    by rewrite H in Hc. }
  intros c w2 Hg Hw2. cbn [late_perform] in Hg |- *.
  destruct (transaction _ (database c) 0%nat (tables w1)) as [res [n d]] eqn:Et. destruct Hg as [Hg _]. cbn [fst snd tables] in Hg |- *.
  destruct res as [[r|]|e]; [|done..]. split; [done|]. apply transaction_cases in Et as [[-> Hno]|(a & m & k & Hb & Hres)]; [by destruct (Hno (Some r))|].
  rewrite <- (Hres _ eq_refl) in Hb. apply prepare_body_Ok in Hb. by eapply prepared_later.
Qed.

(** ** The month correction *)

Lemma answers_later input z d d' : later d d' → answers_correction input z d → answers_correction input z d'.
Proof.
  intros Hl (c & Hc & H). exists c. split; [|done]. destruct (later_corrections _ _ Hl) as [l ->]. apply elem_of_app. by left.
Qed.

Definition finalize_says (input : finalize_input) (z : Finalization) (d : late_tables) : Prop :=
  fz_outcome z = finalize_in_flight ∨ answers_correction input z d.

Lemma finalize_ok i input w : sound w →
  doing i (finalizeLateRecordingBatch input)
    (fun r w1 => sound w1 ∧ match r with Ok z => finalize_says input z (tables w1) | Throw _ => True end) w.
Proof.
  intros Hw. unfold finalizeLateRecordingBatch. apply bind_any, await_any; [done..|]. intros [[]|e] w1 _ Hw1; [|done].
  apply safely_ok, await_ok; [|done|].
  { apply changes_transaction. intros env n d a n' d' H Hok. by apply finalize_body_Ok in H as [? _]. }
  intros c w2 Hg Hw2. cbn [late_perform] in Hg |- *.
  destruct (transaction _ (database c) 0%nat (tables w1)) as [res [n d]] eqn:Et. destruct Hg as [Hg _]. cbn [fst snd tables] in Hg |- *.
  destruct res as [z|e]; [|done]. split; [done|]. apply transaction_cases in Et as [[-> Hno]|(a & m & k & Hb & Hres)]; [by destruct (Hno z)|].
  rewrite <- (Hres _ eq_refl) in Hb. apply finalize_body_Ok in Hb as [_ [H|H]]; [by left|right; by eapply answers_later|done].
Qed.

(** ** The correction of an item *)

Section Correction.
Context (f : CorrectionFacts) (batchId : string) (rateCard : PublishedRateCard) (decidedAt : string).

Definition item_of (r : item_row) (d : late_tables) : Prop :=
  r ∈ items d ∧ sql_eq (it_id r) (fa_itemId f) = true ∧ sql_eq (it_batch_id r) batchId = true.

Definition decided : LateRecordingOutcome := decideLateRecordingOutcome (fa_auditCompleted f) (fa_auditExhausted f).

(** The records of the audited duration, or of the quantity of the vendor where there is none. *)
Definition priced (records : VerifiedBillingRecords) : Prop :=
  ∃ id sha, fa_evidenceObjectId f = Some id ∧ fa_evidenceSha256 f = Some sha ∧
    let evidence := {| kind := ek_call_manifest; sha256 := sha; referenceId := id |} in
    (decided = audited_projection ∧ buildAuditedProjectionRecords (projection_facts f decidedAt evidence) rateCard = Ok (Some records)) ∨
    (decided ≠ in_flight ∧
     (decided = audited_projection → buildAuditedProjectionRecords (projection_facts f decidedAt evidence) rateCard = Ok None) ∧
     ∃ minutes, fa_vendorBilledMinutes f = Some minutes ∧
       buildAcceptedAsBilledRecords
         (fallback_input f decidedAt evidence (bool_decide (decided = accepted_as_billed_unverified)) minutes) rateCard = Ok records).

(** Where the amount of a corrected item is from: a calculation that was already written, the
    consensus, or records that were persisted before the item was settled. *)
Definition amount_from (text : string) (w : late_world) : Prop :=
  fa_persistedRevisedAmount f = Some text ∨
  (fa_persistedRevisedAmount f = None ∧ fa_auditCompleted f = true ∧ Validated (fa_callId f) (Ok (Some (true, Some text))) ∈ history w) ∨
  (fa_persistedRevisedAmount f = None ∧
   ∃ records c, Persisted records ∈ history w ∧ rec_calculation records = Some c ∧ bc_totalAmount c = text ∧ priced records).

Definition correct_says (r : correction_result) (w : late_world) : Prop :=
  match r with
  | item_in_flight => fa_persistedRevisedAmount f = None ∧ decided = in_flight
  | item_not_corrected => fa_persistedRevisedAmount f = None ∧
      ∃ r code, item_of r (tables w) ∧ it_state r = item_failed ∧ it_last_error_code r = Some code ∧
                code ∈ ["LATE_RECORDING_EVIDENCE_MANIFEST_MISSING"; "LATE_RECORDING_VENDOR_QUANTITY_MISSING"]
  | item_corrected =>
      ∃ r text v, item_of r (tables w) ∧ it_state r = corrected ∧ toScaled (Some text) = Some v ∧ it_revised_amount r = Some v ∧ amount_from text w
  end.

Lemma amount_from_later text w w' : guar 0 w w' → amount_from text w → amount_from text w'.
Proof.
  intros [_ [l Hl]] [H|[(H1 & H2 & H3)|(H1 & records & c & H2 & H3)]]; [by left|right; left|right; right].
  - split_and!; [done..|]. rewrite Hl. apply elem_of_app. by left.
  - split; [done|]. exists records, c. split; [rewrite Hl; apply elem_of_app; by left|done].
Qed.

Notation says_it := (fun (r : Prelude.result late_failure correction_result) w1 =>
  match r with Ok x => correct_says x w1 | Throw _ => True end).

Lemma settle_corrected_ok i text w : sound w → amount_from text w →
  doing i (settle_with f batchId settle_corrected None (Some text)) says_it w.
Proof.
  intros Hw Ha. unfold settle_with. cbv zeta. apply bind_any, do_ok; [done..|]. intros c w1 Hg1 Hw1. cbn [late_perform fst snd ensures] in *.
  apply bind_any. eapply ensures_mono; [by apply settle_ok|]. intros [[]|e] w2 (Hw2 & Hg2 & H); [|done]. cbn [ensures mret action_ret].
  destruct H as (r & Hr & E1 & E2 & Hs & _ & _ & Hv). destruct (Hv text eq_refl) as (v & Hv1 & Hv2).
  exists r, text, v. split_and!; try done. eapply amount_from_later; [|exact Ha]. by transitivity w1.
Qed.

Lemma settle_failed_ok i code w : sound w → fa_persistedRevisedAmount f = None →
  code ∈ ["LATE_RECORDING_EVIDENCE_MANIFEST_MISSING"; "LATE_RECORDING_VENDOR_QUANTITY_MISSING"] →
  doing i (settle_with f batchId settle_failed (Some code) None) says_it w.
Proof.
  intros Hw Hn Hc. unfold settle_with. cbv zeta. apply bind_any, do_ok; [done..|]. intros c w1 Hg1 Hw1. cbn [late_perform fst snd ensures] in *.
  apply bind_any. eapply ensures_mono; [by apply settle_ok|]. intros [[]|e] w2 (Hw2 & Hg2 & H); [|done]. cbn [ensures mret action_ret].
  destruct H as (r & Hr & E1 & E2 & Hs & _ & Hcode & _). split; [done|]. exists r, code. split_and!; try done. rewrite (Hcode code) by done.
  apply elem_of_cons in Hc as [->|[->|Hc%elem_of_nil]%elem_of_cons]; done.
Qed.

Lemma settlement_priced i evidence id sha w :
  fa_evidenceObjectId f = Some id → fa_evidenceSha256 f = Some sha →
  evidence = {| kind := ek_call_manifest; sha256 := sha; referenceId := id |} → decided ≠ in_flight → sound w →
  doing i (settlement f rateCard decidedAt evidence decided)
    (fun r w1 => sound w1 ∧ match r with Ok (Some records) => priced records | _ => True end) w.
Proof.
  intros Hid Hsha -> Hne Hw. unfold settlement. apply bind_any.
  assert (∀ w, sound w → (decided = audited_projection → buildAuditedProjectionRecords (projection_facts f decidedAt
      {| kind := ek_call_manifest; sha256 := sha; referenceId := id |}) rateCard = Ok None) →
    doing i (match fa_vendorBilledMinutes f with
             | None => mret None
             | Some minutes =>
                 r ← unaudited rateCard (fallback_input f decidedAt {| kind := ek_call_manifest; sha256 := sha; referenceId := id |}
                       (bool_decide (decided = accepted_as_billed_unverified)) minutes);
                 mret (Some r)
             end : late_act (option VerifiedBillingRecords))
      (fun r w1 => sound w1 ∧ match r with Ok (Some records) => priced records | _ => True end) w) as Hrest.
  { intros w1 Hw1 Hnone. destruct (fa_vendorBilledMinutes f) as [minutes|] eqn:Em; [|done]. apply bind_any. unfold unaudited. cbn [sync ensures].
    destruct (buildAcceptedAsBilledRecords _ _) as [records|e] eqn:Eb; [|done]. cbn [ensures mret action_ret]. split; [done|].
    exists id, sha. split_and!; [done..|]. right. split_and!; [done..|]. by exists minutes. }
  destruct (decide (decided = audited_projection)) as [Ed|Ed].
  - rewrite (bool_decide_eq_true_2 _ Ed). unfold projected. cbn [sync ensures].
    destruct (buildAuditedProjectionRecords _ _) as [[records|]|e] eqn:Eb; cbn [ensures mret action_ret].
    + split; [done|]. exists id, sha. split_and!; [done..|]. by left.
    + apply Hrest; [done|]. by intros _.
    + done.
  - rewrite (bool_decide_eq_false_2 _ Ed). cbn [ensures mret action_ret]. by apply Hrest.
Qed.

Lemma settle_unvalidated_ok i w : sound w → fa_persistedRevisedAmount f = None → decided ≠ in_flight →
  doing i (settle_unvalidated f batchId rateCard decidedAt decided) says_it w.
Proof.
  intros Hw Hn Hne. unfold settle_unvalidated.
  assert (∀ w, sound w → doing i (settle_with f batchId settle_failed (Some "LATE_RECORDING_EVIDENCE_MANIFEST_MISSING") None) says_it w) as Hno.
  { intros w1 Hw1. apply settle_failed_ok; [done..|]. left. }
  assert (∀ w, sound w → doing i (settle_with f batchId settle_failed (Some "LATE_RECORDING_VENDOR_QUANTITY_MISSING") None) says_it w) as Hnq.
  { intros w1 Hw1. apply settle_failed_ok; [done..|]. right; left. }
  destruct (fa_evidenceObjectId f) as [id|] eqn:Eid; [|by apply Hno]. destruct (fa_evidenceSha256 f) as [sha|] eqn:Esha; [|by apply Hno].
  destruct (_ || _); [by apply Hno|]. apply bind_any. eapply ensures_mono; [by eapply settlement_priced|].
  intros [[records|]|e] w1 [Hw1 Hp]; [|by apply Hnq|done]. destruct (rec_calculation records) as [c|] eqn:Ec; [|by apply Hnq].
  apply bind_any, await_ok; [done..|]. intros env w2 Hg Hw2.
  destruct (late_perform i (Persist records) env w1).1 as [[]|e] eqn:Er; [|done]. apply settle_corrected_ok; [done|].
  right; right. split; [done|]. exists records, c. split_and!; try done. destruct Hg as [_ [l ->]]. apply elem_of_app. left.
  cbn in Er |- *. destruct (refused (database env) 0); cbn in Er |- *; [by destruct (negb _)|]. apply elem_of_app. right. left.
Qed.

Lemma correct_ok i w : sound w → doing i (correctLateRecordingItem f batchId rateCard decidedAt) says_it w.
Proof.
  intros Hw. unfold correctLateRecordingItem. destruct (fa_persistedRevisedAmount f) as [text|] eqn:Ep; [apply settle_corrected_ok; [done|by left]|].
  cbv zeta. fold decided. destruct decided eqn:Ed.
  - assert (∀ w, sound w → doing i (settle_unvalidated f batchId rateCard decidedAt audited_projection) says_it w) as Hun.
    { intros w1 Hw1. rewrite <- Ed. apply settle_unvalidated_ok; [done..|]. by rewrite Ed. }
    apply bind_any, await_ok; [done..|]. intros c w1 Hg Hw1. cbn [late_perform fst snd] in Hg |- *.
    destruct (validation c) as [[[[] [amount|]]|]|e] eqn:Ev; try done; try by apply Hun.
    destruct (String.eqb amount ""); [by apply Hun|]. apply settle_corrected_ok; [done|]. right; left. split_and!; [done| |].
    + unfold decided, decideLateRecordingOutcome in Ed. destruct (fa_auditCompleted f); [done|]. by destruct (fa_auditExhausted f).
    + destruct Hg as [_ [l ->]]. apply elem_of_app. left. cbn. apply elem_of_app. right. left.
  - rewrite <- Ed. apply settle_unvalidated_ok; [done..|]. by rewrite Ed.
  - done.
Qed.
End Correction.

(** ** All jobs *)

Definition run_says (batchId : string) (r : option Finalization) (d : late_tables) : Prop :=
  match r with
  | Some z => ∃ input, fi_batchId input = batchId ∧ finalize_says input z d
  | None => True
  end.

Definition answered (j : late_job) (r : Prelude.result late_failure late_answer) (w : late_world) : Prop :=
  match j, r with
  | CommitUpload input, Ok (CommitAnswer re) => commit_says input re (tables w)
  | PrepareBatch batchId _ _, Ok (PrepareAnswer (Some x)) => prepared_says batchId x (tables w)
  | CorrectItem f batchId rateCard decidedAt, Ok (CorrectAnswer x) => correct_says f batchId rateCard decidedAt x w
  | SettleItem input, Ok _ => settled_as input (tables w)
  | FinalizeBatch input, Ok (FinalizeAnswer z) => finalize_says input z (tables w)
  | RunBatch batchId _ _ _, Ok (RunAnswer z) => run_says batchId z (tables w)
  | _, _ => True
  end.

Lemma read_any {A} i (read : Z → late_tables → A) (Q : Prelude.result late_failure A → late_world → Prop) w :
  sound w → (∀ r w1, sound w1 → Q r w1) → doing i (await (Ask read)) Q w.
Proof. intros Hw H. apply await_any; [done..|]. intros r w1 _. apply H. Qed.

Lemma correct_each_ok i batchId rateCard decidedAt l w : sound w →
  doing i (correct_each batchId rateCard decidedAt l) (fun _ w1 => sound w1) w.
Proof.
  revert w. induction l as [|f l IH]; intros w Hw; cbn [correct_each]; [done|]. apply bind_any, ensures_catch, bind_any.
  eapply ensures_mono; [apply ensures_inv; [done|by apply correct_ok]|]. intros [x|e] w1 [_ Hw1]; cbn [ensures mret action_ret]; by apply IH.
Qed.

Lemma work_batch_ok i batchId p rateCard decidedAt prepared w : sound w →
  doing i (work_batch batchId p rateCard decidedAt prepared)
    (fun r w1 => sound w1 ∧ match r with Ok z => run_says batchId (Some z) (tables w1) | Throw _ => True end) w.
Proof.
  intros Hw. unfold work_batch. apply bind_any. unfold listLateRecordingCorrectionFacts. apply safely_ok, read_any; [done|].
  intros [l|e] w1 Hw1; [|done]. apply bind_any. eapply ensures_mono; [by apply correct_each_ok|]. intros [[]|e] w2 Hw2; [|done].
  apply bind_any. unfold readVerifiedMonthTotal. apply read_any; [done|]. intros [total|e] w3 Hw3; [|done].
  apply bind_any. unfold readActualPaidAmount. apply ensures_catch, read_any; [done|]. intros paid w4 Hw4.
  assert (∀ paid, doing i (proposal ← sync (match proposedFinanceAdjustment (pr_previousVerifiedTotal prepared) total paid with
                                            | Ok x => Ok x | Throw e => Throw (Raised e) end);
      finalizeLateRecordingBatch (FinalizeInput batchId (pd_month p) total paid (LateRecording.fa_revisedVariance proposal)))
    (fun r w1 => sound w1 ∧ match r with Ok z => run_says batchId (Some z) (tables w1) | Throw _ => True end) w4) as Hend.
  { intros paid'. apply bind_any. cbn [sync ensures]. destruct (proposedFinanceAdjustment _ _ _) as [x|e]; [|done].
    eapply ensures_mono; [by apply finalize_ok|]. intros [z|e] w5 [Hw5 Hz]; [|done]. split; [done|]. eexists. split; [|exact Hz]; done. }
  destruct paid as [paid|e]; cbn [ensures mret action_ret]; apply Hend.
Qed.

Lemma run_batch_ok i batchId loadCard decidedAt at_ w : sound w →
  doing i (run_batch batchId loadCard decidedAt at_)
    (fun r w1 => match r with Ok z => run_says batchId z (tables w1) | Throw _ => True end) w.
Proof.
  intros Hw. unfold run_batch, read_month. apply bind_any, read_any; [done|]. intros [[b|]|e] w0 Hw0; [|done..].
  apply bind_any. cbn [sync ensures]. destruct (parseBillingMonth _) as [[p|]|]; [|done..].
  apply bind_any. eapply ensures_mono; [by apply prepare_ok|]. intros [[prepared|]|e] w1 [Hw1 _]; [|done..].
  destruct (pr_finalized prepared); [done|]. destruct (negb _); [done|].
  apply bind_any. cbn [sync ensures]. destruct (loadCard _) as [card|e]; [|done].
  apply bind_any. eapply ensures_mono; [by apply work_batch_ok|]. intros [z|e] w2 [_ H]; [exact H|done].
Qed.

Lemma answering_ok {A} i (g : A → late_answer) (m : late_act A) (Q : Prelude.result late_failure late_answer → late_world → Prop) w :
  doing i m (fun r w1 => match r with Ok a => Q (Ok (g a)) w1 | Throw e => Q (Throw e) w1 end) w → doing i (answering g m) Q w.
Proof. intros H. unfold answering. apply bind_any. eapply ensures_mono; [exact H|]. by intros [a|e] w1. Qed.

Lemma claim_ok i batchId limit (Q : Prelude.result late_failure _ → late_world → Prop) w :
  (∀ r w1, Q r w1) → sound w → doing i (listCandidates batchId limit) Q w.
Proof.
  intros HQ Hw. unfold listCandidates. apply bind_any, await_any; [done..|]. intros [[]|e] w1 _ Hw1; [|apply HQ].
  apply bind_any, safely_ok, await_any; [apply changes_claim|done|]. intros [l|e] w2 _ Hw2; [|apply HQ].
  destruct (bool_decide (l = [])); [apply HQ|]. apply safely_ok, read_any; [done|]. intros [r|e] w3 _; apply HQ.
Qed.

Lemma late_program_ok j i w : job_ok j → sound w → doing i (late_program j) (answered j) w.
Proof.
  intros Hj Hw. destruct j; cbn [late_program]; apply answering_ok.
  - unfold previewLateRecordingBatch. apply safely_ok, bind_any. eapply ensures_mono; [by apply resolveBatch_ok|]. by intros [r|e].
  - eapply ensures_mono; [by apply commit_ok|]. by intros [r|e].
  - apply claim_ok; [by intros [r|e]|done].
  - apply read_any; [done|]. by intros [r|e].
  - eapply ensures_mono; [by apply prepare_ok|]. intros [[r|]|e] w1 [_ H]; exact H || done.
  - unfold listLateRecordingCorrectionFacts. apply safely_ok, read_any; [done|]. by intros [r|e].
  - eapply ensures_mono; [by apply correct_ok|]. by intros [r|e].
  - eapply ensures_mono; [by apply settle_ok|]. intros [r|e] w1 (_ & _ & H); exact H || done.
  - eapply ensures_mono; [by apply finalize_ok|]. intros [r|e] w1 [_ H]; exact H || done.
  - eapply ensures_mono; [by apply run_batch_ok|]. by intros [r|e].
  - unfold readLateRecordingBatchProgress. apply safely_ok, bind_any, read_any; [done|]. intros [[b|]|e] w1 Hw1; [|done..].
    apply bind_any, read_any; [done|]. intros [l|e] w2 Hw2; [|done]. apply bind_any, read_any; [done|]. by intros [c|e].
  - unfold listUnfinishedLateRecordingBatchIds. apply safely_ok, read_any; [done|]. by intros [r|e].
  - unfold listLateRecordingItemsAwaitingCorrection. apply safely_ok, bind_any, read_any; [done|]. by intros [r|e].
  - apply await_any; [done..|]. by intros [r|e].
Qed.

Lemma late_pool d0 c : late_ok d0 → late_reachable d0 c →
  pool_ok (@late_perform) sound guar (fun _ _ => True) (fun j _ r w => answered (proj1_sig j) r w) (LateWorld d0 None []) c.
Proof.
  intros Hok Hc. eapply adequacy; [..|exact Hc]; [done| |done|done]. intros [j Hj] i w Hw _. by apply late_program_ok.
Qed.

(** Later moments of one run. *)
Lemma late_evolves d0 c c' : late_ok d0 → late_reachable d0 c →
  rtc (step (@late_perform) (fun j : {j | job_ok j} => late_program (proj1_sig j))) c c' →
  later (tables c.2) (tables c'.2) ∧ late_reachable d0 c'.
Proof.
  intros Hok Hc Hs. assert (late_reachable d0 c') as Hc' by (unfold late_reachable, reachable in *; by etransitivity).
  split; [|done]. pose proof (late_pool d0 c Hok Hc) as Hp.
  assert (pool_ok (@late_perform) sound guar (fun _ _ => True) (fun j _ r w => answered (proj1_sig j) r w) c.2 c) as Hp0.
  { destruct Hp as (A & _ & B). split_and!; [done|apply rtc_refl|apply B|apply B]. }
  eapply steps_pool_ok in Hs; [|..|exact Hp0]; [|done|intros [j Hj] i w Hw _; by apply late_program_ok].
  destruct Hs as (_ & He & _). clear -He. induction He as [w|a b w (i & H & _) _ IH]; [reflexivity|]. by etransitivity.
Qed.
End Jobs.
