(* ===== verification/LateGuarantees.v ===== *)
(** * Late recordings: the theorems

    Over any number of uploads, workers, sheets and screens, interleaved at every operation with
    everything else the platform does, refused or abandoned anywhere. *)

From stdpp Require Import relations.
From S2P Require Import Prelude JsText CanonicalJson Decimal Sql Prog ReauditTypes VerifiedCharge BillingRecords AcceptedAsBilled AuditedProjection LateRecording LateUpload LateTables LateStore LateBatch LateCorrect LateWorld LateSafety LateSteps LateJobs.

Local Open Scope string_scope.
Local Open Scope list_scope.
#[global] Open Scope Z_scope.

Section Guarantees.
Context `{PL : Platform, CO : Collation}.

(** What a month correction says of its batch and of the items of it. *)
Definition explained (d : late_tables) (x : correction_row) : Prop :=
  ∃ b, b ∈ batches d ∧ sql_eq (mc_batch_id x) (lb_id b) = true ∧
    mc_bill_month x = lb_bill_month b ∧ lb_baseline b = Some (mc_previous x) ∧ mc_delta x = mc_revised x - mc_previous x ∧
    count_items live (lb_id b) d = 0 ∧ mc_corrected x = count_items (is_state corrected) (lb_id b) d ∧
    mc_failed x = count_items (is_state item_failed) (lb_id b) d ∧ mc_corrected x + mc_failed x = lb_accepted b.

(** Any steps of any jobs. *)
Definition goes_on : relation (config late_op late_world {j | job_ok j} (Prelude.result late_failure late_answer)) :=
  rtc (step (@late_perform) (fun j : {j | job_ok j} => late_program (proj1_sig j))).

(** A job that has answered. *)
Definition answer_of (c : config late_op late_world {j | job_ok j} (Prelude.result late_failure late_answer)) (i : nat) (j : late_job)
    (r : Prelude.result late_failure late_answer) : Prop :=
  ∃ H, c.1 !! i = Some (Thread (exist _ j H) (Ret r)).

Lemma answer_says d0 c i j r : late_ok d0 → late_reachable d0 c → answer_of c i j r → answered j r c.2 ∧ late_ok (tables c.2).
Proof.
  intros Hok Hc [H Hi]. pose proof (late_pool d0 c Hok Hc) as Hp. split; [|apply Hp].
  exact (returned_post _ _ _ _ _ _ _ _ _ _ Hp Hi).
Qed.

Lemma item_in_flight_unique d i j :
  late_ok d → i ∈ items d → j ∈ items d → live (it_state i) = true → live (it_state j) = true →
  sql_eq (it_call_id i) (it_call_id j) = true → i = j.
Proof.
  intros Hok Hi Hj Li Lj E. eapply distinct_unique; [apply item_clashes_sym|apply Hok|done|done|].
  unfold item_clashes, active_call_id, same_key. by rewrite Li, Lj, E, orb_true_r.
Qed.

Lemma correction_unique d x y :
  late_ok d → x ∈ corrections d → y ∈ corrections d → sql_eq (mc_batch_id x) (mc_batch_id y) = true → x = y.
Proof.
  intros Hok Hx Hy E. eapply distinct_unique; [|apply Hok|done|done|].
  - intros r s. unfold correction_clashes. by rewrite (sql_eq_sym (mc_id r)), (sql_eq_sym (mc_batch_id r)).
  - unfold correction_clashes. by rewrite E, orb_true_r.
Qed.

(** C16: What was accepted is accounted for: in every reachable state of any jobs, every item is of a
    recording whose URL has the digest it was accepted with; no call has two items in flight; a batch has
    exactly the items it accepted, and is finished only with a month correction; a batch has at most one
    month correction, from the baseline of the batch, by the exact difference of the totals, when all its
    items are settled, with the counts of the corrected and the failed ones. *)
Theorem late_recordings_accounted (d0 : late_tables) c :
  late_ok d0 → late_reachable d0 c →
  let d := tables c.2 in
  (∀ i, i ∈ items d → ∃ a u, a ∈ artifacts d ∧ sql_eq (ar_id a) (it_artifact_id i) = true ∧
     sql_eq (ar_call_id a) (it_call_id i) = true ∧ ar_source_url a = Some u ∧ it_url_sha256 i = canonicalUrlSha256 u) ∧
  (∀ i j, i ∈ items d → j ∈ items d → live (it_state i) = true → live (it_state j) = true →
     sql_eq (it_call_id i) (it_call_id j) = true → i = j) ∧
  (∀ b, b ∈ batches d → 1 ≤ lb_accepted b ∧
     lb_accepted b = count_items live (lb_id b) d + count_items (is_state corrected) (lb_id b) d + count_items (is_state item_failed) (lb_id b) d ∧
     (terminal (lb_status b) = true → ∃ x, x ∈ corrections d ∧ sql_eq (mc_batch_id x) (lb_id b) = true)) ∧
  (∀ x y, x ∈ corrections d → y ∈ corrections d → sql_eq (mc_batch_id x) (mc_batch_id y) = true → x = y) ∧
  (∀ x, x ∈ corrections d → explained d x).
Proof.
  intros Hok0 Hc d. assert (late_ok d) as Hok by apply (late_pool d0 c Hok0 Hc). split_and!.
  - intros i Hi. apply (ig_attached _ _ (ok_item _ Hok i Hi)).
  - intros i j. by apply item_in_flight_unique.
  - intros b Hb. destruct (ok_batch _ Hok b Hb) as [H1 H2 H3]. split_and!; [done| |done]. by rewrite H1, count_split.
  - intros x y. by apply correction_unique.
  - intros x Hx. destruct (ok_correction _ Hok x Hx) as (b & Hb & E & Hm & _ & Hbase & Hd & Hl & H1 & H2).
    exists b. split_and!; try done. rewrite (bg_accepted _ _ (ok_batch _ Hok b Hb)), count_split. lia.
Qed.

(** C17: The history of a correction stays: between any two moments of a run, whatever jobs run, a recording
    keeps its URL and its evidence, an item its task, call, recording and URL and never moves back, a settled
    item every column, a batch its key, digest, month, rate card and, once captured, its baseline, and a
    month correction is never changed or lost. *)
Theorem late_history_kept (d0 : late_tables) c c' :
  late_ok d0 → late_reachable d0 c → goes_on c c' →
  let d := tables c.2 in let d' := tables c'.2 in
  (∀ a, a ∈ artifacts d → ∃ a', a' ∈ artifacts d' ∧ artifact_le a a') ∧
  (∀ i, i ∈ items d → (∃ i', i' ∈ items d' ∧ item_le i i') ∧ (live (it_state i) = false → i ∈ items d')) ∧
  (∀ b, b ∈ batches d → ∃ b', b' ∈ batches d' ∧ batch_le b b') ∧
  (∀ b i, b ∈ batches d → i ∈ items d' → sql_eq (it_batch_id i) (lb_id b) = true → ∃ i0, i0 ∈ items d ∧ item_le i0 i) ∧
  ∀ x, x ∈ corrections d → x ∈ corrections d'.
Proof.
  intros Hok Hc Hs d d'. destruct (late_evolves d0 c c' Hok Hc Hs) as [Hl Hc'].
  assert (late_ok d) as Hd by apply (late_pool d0 c Hok Hc). assert (late_ok d') as Hd' by apply (late_pool d0 c' Hok Hc'). split_and!.
  - intros a. apply table_le_lookup, Hl.
  - intros i Hi. split; [by apply (table_le_lookup _ _ _ _ (later_items _ _ Hl))|]. exact (settled_row_stays d d' i Hl Hi).
  - intros b. by apply batch_moved, Hl.
  - intros b i Hb Hi E. by apply (item_of_batch d d' b i).
  - intros x Hx. destruct (later_corrections _ _ Hl) as [l Hx']. subst d d'. rewrite Hx'. apply elem_of_app. by left.
Qed.

(** One digest, one selection. *)
Lemma digest_pins `{!PlatformLaws PL} m m' l l' h :
  lateRecordingBatchDigest m l = Ok h → lateRecordingBatchDigest m' l' = Ok h →
  (m = m' ∧ l ≡ₚ l') ∨ ∃ s t, s ≠ t ∧ sha256Hex s = sha256Hex t.
Proof.
  intros H1 H2. rewrite digest_is_sha256 in H1, H2.
  destruct (digest_identifies _ _ h (digest_finite m l) (digest_finite m' l') H1 H2) as [E|[E1 E2]]; [left|right; eauto].
  by apply digest_value_inj.
Qed.

Definition selection (input : commit_input) : list (string * string) :=
  map (fun r => (taskId (up_row r), canonicalUrlSha256 (up_canonicalUrl r))) (ci_rows input).

Lemma upload_digest_Ok input h : upload_digest input = Ok h → lateRecordingBatchDigest (pd_month (ci_period input)) (selection input) = Ok h.
Proof. unfold upload_digest, selection. destruct (lateRecordingBatchDigest _ _); [by intros [= ->]|done]. Qed.

(** C18: An upload is accepted once under its key: when two uploads with the same key were answered with a
    batch, it is the same stored batch, and both asked for the same month, tasks and URLs, or SHA-256
    collided; the items of a batch that was answered as accepted are tasks of its upload at their URLs. *)
Theorem upload_accepted_once `{!PlatformLaws PL} (d0 : late_tables) c i1 i2 input1 input2 re1 re2 id1 id2 :
  late_ok d0 → late_reachable d0 c →
  answer_of c i1 (CommitUpload input1) (Ok (CommitAnswer re1)) → answer_of c i2 (CommitUpload input2) (Ok (CommitAnswer re2)) →
  re_batchId re1 = Some id1 → re_batchId re2 = Some id2 → sql_eq (ci_idempotencyKey input1) (ci_idempotencyKey input2) = true →
  id1 = id2 ∧ (∃ b, b ∈ batches (tables c.2) ∧ lb_id b = id1) ∧
  ((pd_month (ci_period input1) = pd_month (ci_period input2) ∧ selection input1 ≡ₚ selection input2) ∨
   ∃ s t, s ≠ t ∧ sha256Hex s = sha256Hex t) ∧
  (re_outcome re1 = commit_accepted → uploaded input1 id1 (tables c.2)).
Proof.
  intros Hok Hc H1 H2 E1 E2 Ek. destruct (answer_says _ _ _ _ _ Hok Hc H1) as [(h1 & Hh1 & A1) Hd].
  destruct (answer_says _ _ _ _ _ Hok Hc H2) as [(h2 & Hh2 & A2) _].
  assert (∀ re input h id, re_batchId re = Some id →
    match re_outcome re with
    | commit_accepted => ∃ id, re_batchId re = Some id ∧ committed input h id (tables c.2) ∧ uploaded input id (tables c.2)
    | commit_replayed => ∃ id, re_batchId re = Some id ∧ committed input h id (tables c.2)
    | nothing_to_do => re_batchId re = None
    end → committed input h id (tables c.2) ∧ (re_outcome re = commit_accepted → uploaded input id (tables c.2))) as Hget.
  { intros re input h id E H. destruct (re_outcome re); [destruct H as (x & Hx & ? & ?)|destruct H as (x & Hx & ?)|]; rewrite E in *; by simplify_eq. }
  destruct (Hget _ _ _ _ E1 A1) as [(b1 & Hb1 & I1 & K1 & D1 & M1) U1], (Hget _ _ _ _ E2 A2) as [(b2 & Hb2 & I2 & K2 & D2 & M2) _].
  assert (b1 = b2) as <-.
  { eapply distinct_unique; [|apply Hd|done|done|].
    - intros r s. unfold batch_clashes. by rewrite (sql_eq_sym (lb_id r)), (sql_eq_sym (lb_idempotency_key r)).
    - unfold batch_clashes. apply orb_true_iff. right. unfold sql_eq in *. to_prop. apply bool_decide_eq_true_2. congruence. }
  split_and!; [congruence|by exists b1| |done].
  assert (h1 = h2) as <- by congruence. eapply digest_pins; by apply upload_digest_Ok.
Qed.

Lemma answers_correction_baseline input z d :
  late_ok d → answers_correction input z d →
  ∃ b v r, b ∈ batches d ∧ sql_eq (lb_id b) (fi_batchId input) = true ∧ lb_bill_month b = fi_billMonth input ∧ lb_baseline b = Some v ∧
    fz_previousVerifiedTotal z = fixed8_of v ∧ fz_revisedVerifiedTotal z = Some (fixed8_of r) ∧ fz_deltaAmount z = Some (fixed8_of (r - v)) ∧
    count_items live (lb_id b) d = 0 ∧ fz_correctedCount z = count_items (is_state corrected) (lb_id b) d ∧
    fz_failedCount z = count_items (is_state item_failed) (lb_id b) d.
Proof.
  intros Hok (x & Hx & E & Hm & Hp & Hr & Hd & H1 & H2).
  destruct (ok_correction _ Hok x Hx) as (b & Hb & Eb & Hmb & _ & Hbase & Hdelta & Hl & C1 & C2).
  exists b, (mc_previous x), (mc_revised x). rewrite <- Hdelta. split_and!; try congruence; try done.
  unfold sql_eq in *. to_prop. apply bool_decide_eq_true_2. congruence.
Qed.

(** C19: A month correction answers exactly and once: when a finalization answered that the correction of its
    batch is recorded or replayed, all items of the batch are settled, the previous total is the baseline
    that every preparation of the batch answered, the adjustment is the exact difference of the revised and
    the previous total, the counts are those of its corrected and failed items, and every other finalization
    of the batch that answered so answered the same amounts and counts. *)
Theorem month_correction_answered (d0 : late_tables) c i input z :
  late_ok d0 → late_reachable d0 c →
  answer_of c i (FinalizeBatch input) (Ok (FinalizeAnswer z)) → fz_outcome z ≠ finalize_in_flight →
  let d := tables c.2 in
  (∃ b v r, b ∈ batches d ∧ sql_eq (lb_id b) (fi_batchId input) = true ∧ lb_bill_month b = fi_billMonth input ∧ lb_baseline b = Some v ∧
    fz_previousVerifiedTotal z = fixed8_of v ∧ fz_revisedVerifiedTotal z = Some (fixed8_of r) ∧ fz_deltaAmount z = Some (fixed8_of (r - v)) ∧
    count_items live (lb_id b) d = 0 ∧ fz_correctedCount z = count_items (is_state corrected) (lb_id b) d ∧
    fz_failedCount z = count_items (is_state item_failed) (lb_id b) d) ∧
  (∀ j p at_ prepared, answer_of c j (PrepareBatch (fi_batchId input) p at_) (Ok (PrepareAnswer (Some prepared))) →
     pr_previousVerifiedTotal prepared = fz_previousVerifiedTotal z) ∧
  (∀ j input' z', answer_of c j (FinalizeBatch input') (Ok (FinalizeAnswer z')) → fz_outcome z' ≠ finalize_in_flight →
     sql_eq (fi_batchId input') (fi_batchId input) = true →
     fz_previousVerifiedTotal z' = fz_previousVerifiedTotal z ∧ fz_revisedVerifiedTotal z' = fz_revisedVerifiedTotal z ∧
     fz_deltaAmount z' = fz_deltaAmount z ∧ fz_correctedCount z' = fz_correctedCount z ∧ fz_failedCount z' = fz_failedCount z).
Proof.
  intros Hok Hc Hi Hz d. destruct (answer_says _ _ _ _ _ Hok Hc Hi) as [[?|Ha] Hd]; [done|].
  destruct (answers_correction_baseline _ _ _ Hd Ha) as (b & v & r & Hb & E & Hm & Hv & Hp & Hrest). split_and!.
  - by exists b, v, r.
  - intros j p at_ prepared Hj. destruct (answer_says _ _ _ _ _ Hok Hc Hj) as [(b' & v' & Hb' & E' & Hv' & Hp' & _) _].
    assert (b' = b) as -> by (apply (batch_of_same_id d); [done..|by eapply sql_eq_both]). congruence.
  - intros j input' z' Hj Hz' Ei. destruct (answer_says _ _ _ _ _ Hok Hc Hj) as [[?|Ha'] _]; [done|].
    destruct Ha as (x & Hx & Ex & _ & X1 & X2 & X3 & X4 & X5), Ha' as (y & Hy & Ey & _ & Y1 & Y2 & Y3 & Y4 & Y5).
    assert (y = x) as -> by (apply (correction_unique d); [done..|]; unfold sql_eq in *; to_prop; apply bool_decide_eq_true_2; congruence).
    split_and!; congruence.
Qed.

End Guarantees.

(** ** Witnesses *)

Import DemoLate.

Lemma start_ok : late_ok DemoLate.start.
Proof. split; try reflexivity; intros x Hx%elem_of_nil; done. Qed.

Lemma finalized_reached : late_reachable DemoLate.start DemoLate.finalized.
Proof.
  unfold late_reachable, reachable. change ([], LateWorld start None []) with nothing.
  unfold finalized, corrected_, claimed, prepared, uploaded_once. do 5 (etransitivity; [|apply ran_late_steps]). apply rtc_refl.
Qed.

Lemma uploaded_reached : late_reachable DemoLate.start DemoLate.uploaded_twice.
Proof.
  unfold late_reachable, reachable. change ([], LateWorld start None []) with nothing.
  unfold uploaded_twice, uploaded_once. do 2 (etransitivity; [|apply ran_late_steps]). apply rtc_refl.
Qed.

Lemma late_recordings_accounted_witness :
  ∃ x, x ∈ corrections (tables DemoLate.finalized.2) ∧ mc_delta x = mc_revised x - mc_previous x.
Proof.
  destruct (late_recordings_accounted DemoLate.start DemoLate.finalized start_ok finalized_reached) as (_ & _ & _ & _ & H).
  destruct (corrections (tables DemoLate.finalized.2)) as [|x l] eqn:E; [vm_compute in E; discriminate E|].
  exists x. split; [left|]. destruct (H x ltac:(left)) as (b & _ & _ & _ & _ & Hd & _). exact Hd.
Defined.

Lemma late_history_kept_witness :
  ∃ i i', i ∈ items (tables DemoLate.uploaded_once.2) ∧ i' ∈ items (tables DemoLate.uploaded_twice.2) ∧ item_le i i'.
Proof.
  destruct (late_history_kept DemoLate.start DemoLate.uploaded_once DemoLate.uploaded_twice start_ok) as (_ & H & _).
  - exact (ran_late_steps calm (fine (CommitUpload upload) I) nothing).
  - exact (ran_late_steps calm (fine (CommitUpload upload) I) DemoLate.uploaded_once).
  - destruct (items (tables DemoLate.uploaded_once.2)) as [|i l] eqn:E; [vm_compute in E; discriminate E|].
    destruct (H i ltac:(left)) as [(i' & Hi' & Hle) _]. exists i, i'. repeat split; [left|exact Hi'|apply Hle..].
Defined.

Definition receipt_of (c : config late_op late_world {j | job_ok j} (Prelude.result late_failure late_answer)) (i : nat) : option Receipt :=
  match c.1 !! i with Some (Thread _ (Ret (Ok (CommitAnswer re)))) => Some re | _ => None end.

Lemma upload_accepted_once_witness :
  ∃ re1 re2, receipt_of DemoLate.uploaded_twice 0 = Some re1 ∧ receipt_of DemoLate.uploaded_twice 1 = Some re2 ∧
    re_outcome re2 = commit_replayed ∧ re_batchId re1 = Some DemoLate.batch_id ∧ uploaded DemoLate.upload DemoLate.batch_id (tables DemoLate.uploaded_twice.2).
Proof.
  pose proof (demo_platform_laws : PlatformLaws platform) as laws.
  do 2 eexists. split; [vm_compute; reflexivity|]. split; [vm_compute; reflexivity|]. split; [reflexivity|]. split; [reflexivity|].
  refine (proj2 (proj2 (proj2 (upload_accepted_once (PL := platform) DemoLate.start DemoLate.uploaded_twice 0 1 DemoLate.upload DemoLate.upload _ _
    DemoLate.batch_id DemoLate.batch_id start_ok uploaded_reached _ _ _ _ _))) _).
  - exists I. vm_compute. reflexivity.
  - exists I. vm_compute. reflexivity.
  - reflexivity.
  - reflexivity.
  - reflexivity.
  - reflexivity.
Defined.

Definition july_correction : Finalization := Finalized recorded "0.00000000" (Some "4.75000000") (Some "4.75000000") 1 0.

Lemma month_correction_answered_witness :
  ∃ b v r, b ∈ batches (tables DemoLate.finalized.2) ∧ lb_baseline b = Some v ∧
    fz_previousVerifiedTotal july_correction = fixed8_of v ∧ fz_deltaAmount july_correction = Some (fixed8_of (r - v)).
Proof.
  destruct (month_correction_answered DemoLate.start DemoLate.finalized 4 DemoLate.july_total july_correction start_ok finalized_reached)
    as [(b & v & r & Hb & _ & _ & Hv & Hp & _ & Hd & _) _].
  - exists I. vm_compute. reflexivity.
  - discriminate.
  - exists b, v, r. repeat split; assumption.
Defined.

