(* ===== verification/Backfill.v ===== *)
(** * The backfill of recording URLs

    [backfill/backfillSourceUrl.ts] and [adapters/mysqlBackfillRepo.ts]: the URL of a recording,
    read from the raw export of the vendor, and written to the same column that a late recording
    is attached to. *)

From Stdlib Require Import Ascii.
From S2P Require Import Prelude JsText CanonicalJson UrlSafety Sql Prog LateRecording LateTables LateStore LateWorld.

Local Open Scope string_scope.
Local Open Scope list_scope.
#[global] Open Scope Z_scope.

Record BackfillCandidate : Type := BackfillOf {
  bk_callArtifactId : string;
  bk_callId : string;
  bk_logicalCallKey : string;
  bk_existingSourceUrl : option string;
}.

Inductive BackfillOutcome : Type :=
| backfilled | already_present | raw_missing | call_not_in_export | no_recording_url | unrecognized_url.

#[export] Instance backfill_outcome_eq_dec : EqDecision BackfillOutcome.
Proof. solve_decision. Defined.

Record BackfillResult : Type := BackfillAnswer {
  bf_id : string;
  bf_outcome : BackfillOutcome;
  bf_s3Url : option string;
  bf_reason : option normalized;
}.

(** What the ports are asked. *)
Inductive backfill_op : Type → Type :=
| ReadByTaskId (taskId : string) : backfill_op (Prelude.result late_failure (option json))
| SetSourceUrl (callArtifactId s3Url : string) : backfill_op (Prelude.result late_failure unit)
| RecordIssue (callArtifactId code detail : string) : backfill_op (Prelude.result late_failure unit).

Definition backfill_act : Type → Type := action backfill_op late_failure.

(** The last member of a key, as [JSON.parse] keeps it. *)
Fixpoint member (entries : list (string * json)) (key : string) : option json :=
  match entries with
  | [] => None
  | (k, v) :: entries =>
      match member entries key with Some w => Some w | None => if String.eqb k key then Some v else None end
  end.

Definition pickCallRecord (doc : json) (key : string) : option (list (string * json)) :=
  match doc with
  | JObj entries => match member entries key with Some (JObj keyed) => Some keyed | _ => Some entries end
  | _ => None
  end.

(** [{ id, outcome }] *)
Definition plain (id : string) (outcome : BackfillOutcome) : BackfillResult := BackfillAnswer id outcome None None.

Definition reason_text (n : normalized) : string :=
  match n with
  | s3Url _ => "unknown"
  | too_many_wrappers => "too_many_wrappers" | unparseable => "unparseable" | not_https => "not_https"
  | empty_path => "empty_path" | unrecognized_host => "unrecognized_host"
  end.

Section Backfill.
Context `{UrlReader}.
Context (dryRun : bool) (allowedHosts : list string).

(** [if (!opts.dryRun) await ...] *)
Definition unless_dry (o : backfill_op (Prelude.result late_failure unit)) : backfill_act unit :=
  if dryRun then mret tt else await o.

Definition backfillSourceUrl (c : BackfillCandidate) : backfill_act BackfillResult :=
  let id := bk_callArtifactId c in
  let key := bk_logicalCallKey c in
  if match bk_existingSourceUrl c with Some u => negb (String.eqb u "") | None => false end then mret (plain id already_present)
  else
    doc ← await (ReadByTaskId key);
    match doc with
    | None | Some JNull => unless_dry (RecordIssue id "raw_missing" ("taskId " +:+ key)) ≫= fun _ => mret (plain id raw_missing)
    | Some doc =>
        match pickCallRecord doc key with
        | None => unless_dry (RecordIssue id "call_not_in_export" key) ≫= fun _ => mret (plain id call_not_in_export)
        | Some record =>
            match member record "recordingUrl" with
            | Some (JStr rawUrl) =>
                if String.eqb rawUrl "" then mret (plain id no_recording_url)
                else
                  let norm := normalizeRecordingUrl rawUrl allowedHosts in
                  match norm with
                  | s3Url url =>
                      if String.eqb url "" then
                        unless_dry (RecordIssue id "unrecognized_url" (reason_text norm)) ≫= fun _ => mret (plain id unrecognized_url)
                      else unless_dry (SetSourceUrl id url) ≫= fun _ => mret (BackfillAnswer id backfilled (Some url) None)
                  | _ =>
                      unless_dry (RecordIssue id "unrecognized_url" (reason_text norm)) ≫= fun _ =>
                      mret (BackfillAnswer id unrecognized_url None (Some norm))
                  end
            | _ => mret (plain id no_recording_url)
            end
        end
    end.

Fixpoint backfill_each (candidates : list BackfillCandidate) : backfill_act (list BackfillResult) :=
  match candidates with
  | [] => mret []
  | c :: candidates => r ← backfillSourceUrl c; l ← backfill_each candidates; mret (r :: l)
  end.

Record BackfillSummary : Type := BackfillReport {
  bs_total : Z;
  bs_count : BackfillOutcome → Z;
  bs_results : list BackfillResult;
}.

Definition backfillBatch (candidates : list BackfillCandidate) : backfill_act BackfillSummary :=
  results ← backfill_each candidates;
  mret (BackfillReport (Z.of_nat (length results))
          (fun o => Z.of_nat (length (List.filter (fun r => bool_decide (bf_outcome r = o)) results))) results).

(** ** What is written *)

(** A URL that is written came from the export, on an allowed host and over https, without its query. *)
Definition stored_url (url : string) : Prop :=
  ∃ raw u, normalizeRecordingUrl raw allowedHosts = s3Url url ∧ url ≠ "" ∧
    existsb (allowedBy (toLowerCase (u_hostname u))) allowedHosts = true ∧ u_protocol u = "https:" ∧ url = u_origin u +:+ u_pathname u.

Lemma normalize_wrapped_s3 fuel raw url :
  normalize_wrapped fuel raw allowedHosts = s3Url url →
  ∃ u, existsb (allowedBy (toLowerCase (u_hostname u))) allowedHosts = true ∧ u_protocol u = "https:" ∧ url = u_origin u +:+ u_pathname u.
Proof.
  assert (∀ u, normalize_plain u allowedHosts = s3Url url →
    ∃ u, existsb (allowedBy (toLowerCase (u_hostname u))) allowedHosts = true ∧ u_protocol u = "https:" ∧ url = u_origin u +:+ u_pathname u) as Hp.
  { intros u Hu. unfold normalize_plain in Hu. destruct (existsb _ _) eqn:E; [|done].
    destruct (String.eqb_spec (u_protocol u) "https:") as [Hs|]; cbn [negb] in Hu; [|done].
    destruct (_ || _); [done|]. injection Hu as <-. by exists u. }
  revert raw. induction fuel as [|fuel IH]; intros raw Hr; [done|]. cbn in Hr. destruct (readUrl raw) as [u|]; [|done].
  destruct (u_url_param u) as [inner|]; [|by eapply Hp]. destruct (String.eqb inner ""); [by eapply Hp|by eapply IH].
Qed.

(** What the backfill may ask of its ports. *)
Definition op_allowed X (o : backfill_op X) : Prop :=
  match o with
  | ReadByTaskId _ => True
  | SetSourceUrl _ url => dryRun = false ∧ stored_url url
  | RecordIssue _ _ _ => dryRun = false
  end.

Lemma unless_dry_uses o : (dryRun = false → op_allowed _ o) → uses op_allowed (unless_dry o).
Proof. unfold unless_dry. destruct dryRun eqn:E; [done|]. intros Ho. split; [by apply Ho|done]. Qed.

(** A batch only writes allowed URLs, and a dry run writes nothing. *)
Lemma backfill_writes candidates : uses op_allowed (backfillBatch candidates).
Proof.
  unfold backfillBatch. apply uses_bind; [|done]. induction candidates as [|c l IH]; [done|]. cbn [backfill_each].
  apply uses_bind; [|intros r; by apply uses_bind; [|done]]. clear IH. unfold backfillSourceUrl. destruct (match bk_existingSourceUrl c with Some _ => _ | None => _ end); [done|].
  assert (∀ id code detail A (r : A), uses op_allowed (unless_dry (RecordIssue id code detail) ≫= fun _ => mret r : backfill_act A)) as Hissue.
  { intros. apply uses_bind; [|done]. by apply unless_dry_uses. }
  apply uses_bind; [done|]. intros [[| | | | |entries]|]; try apply Hissue.
  destruct (pickCallRecord _ _) as [record|]; [|apply Hissue]. destruct (member record "recordingUrl") as [[| | |raw| |]|]; try done.
  destruct (String.eqb raw ""); [done|]. cbv zeta. destruct (normalizeRecordingUrl raw allowedHosts) as [url| | | | |] eqn:E; try apply Hissue.
  destruct (String.eqb_spec url "") as [|Hne]; [apply Hissue|]. apply uses_bind; [|done]. apply unless_dry_uses. intros Hd. split; [done|].
  destruct (normalize_wrapped_s3 3 raw url E) as (u & H1 & H2 & H3). by exists raw, u.
Qed.
End Backfill.

(** ** The repository *)

Section Repository.
Context `{CO : Collation}.

Definition backfill_candidates (limit : Z) (d : late_tables) : list BackfillCandidate :=
  take (Z.to_nat limit)
    (concat (map (fun a =>
       map (fun c => BackfillOf (ar_id a) (cl_id c) (cl_logical_call_key c) (ar_source_url a))
         (where_ (fun c => sql_eq (cl_id c) (ar_call_id a)) (calls (other d))))
       (where_ (fun a => is_text (ar_type a) "recording" && bool_decide (ar_source_url a = None)) (artifacts d)))).

Definition write_url (url : string) (a : artifact_row) : artifact_row := {|
  ar_id := ar_id a; ar_call_id := ar_call_id a; ar_type := ar_type a; ar_is_final := ar_is_final a;
  ar_source_url := Some url;
  ar_sha256 := ar_sha256 a; ar_status := ar_status a; ar_attempts := ar_attempts a; ar_last_attempt_at := ar_last_attempt_at a;
  ar_next_attempt_at := ar_next_attempt_at a; ar_last_error := ar_last_error a;
|}.

(** [UPDATE kaudit_call_artifact SET source_url = ? WHERE id = ?] *)
Definition set_source_url (callArtifactId url : string) (d : late_tables) : late_tables :=
  with_artifacts (update_where (fun a => sql_eq (ar_id a) callArtifactId) (write_url url) (artifacts d)).2 d.
End Repository.

(** A recording that was empty when it was listed, and is attached before its URL is written, loses the
    URL its item was accepted with. *)
Example backfill_overwrites_attached :
  let listed := backfill_candidates (CO := DemoLate.bytes) 10 DemoLate.start in
  let attached := tables DemoLate.uploaded_once.2 in
  let after := fold_left (fun d c => set_source_url (CO := DemoLate.bytes) (bk_callArtifactId c) "https://b.s3.amazonaws.com/other.wav" d) listed attached in
  map ar_source_url (artifacts attached) = [Some DemoLate.url] ∧
  map it_url_sha256 (items after) = [canonicalUrlSha256 (H := DemoLate.platform) DemoLate.url] ∧
  map ar_source_url (artifacts after) = [Some "https://b.s3.amazonaws.com/other.wav"].
Proof. by vm_compute. Qed.
